(* ===== verification/_CoqProject ===== *)
-Q . S2P
Prelude.v
Pmm.v
Paging.v
Vmm.v
VmSpace.v
ProcessData.v
Shm.v
ShmSections.v
Process.v
RunQueue.v
ProcessSched.v
Scheduler.v
Lifecycle.v
Fairness.v
CString.v
Path.v
Mounts.v
Memfs.v
VfsData.v
Vfs.v
VfsPipe.v
VfsInv.v
VfsOps.v
VfsSys.v
VfsProps.v
Tlsf.v
TlsfInv.v
TlsfLists.v
TlsfHeap.v
TlsfProps.v
Heap.v
HeapProps.v
Fat12.v
Fat12Table.v
Fat12Dir.v
Fat12Ops.v
Fat12Props.v
Ring.v
Event.v
Font.v
Wm.v
WmInv.v
WmOps.v
GuiSrv.v
GuiInv.v
GuiOps.v
GuiProps.v
GuiDraw.v
Kprintf.v
Files.v
Bmp.v
Wallpaper.v
Screenshot.v
Theme.v
ThemeProps.v
ThemeRuns.v
ThemeCmds.v
CompilerRt.v
Tty.v
Exec.v
Fat32.v
Fat32Path.v
Fat32Scan.v
Fat32Props.v
Fat32Write.v
Syscall.v
FsCalls.v
