(* ===== verification/Prelude.v ===== *)
(** * Tsukasa: a verification library for the kernel

    Tsukasa is a hobby operating system in C for x86_64 (with an older i386 build).  This library
    models the parts of its kernel that carry state and policy - memory, processes, files - as
    executable definitions translated from the source, and proves what makes them correct.  All
    paths below are under src/.

    ** The parts and how they interact

    - Physical frames: [Pmm] is mm/pmm.c.  A bitmap of frames, its counters, initialisation from
      either boot protocol, first-fit allocation and release.
    - Page tables: [Paging] is include/paging.h, mm/vmm_x64.h and the helpers of mm/vmm_x64.c; [Vmm]
      is the rest of mm/vmm_x64.c.  Page tables live in a word memory and are allocated from [Pmm].
    - Process address spaces: [VmSpace] is mm/vm_space.c, over [Vmm].
    - Shared memory: [Shm] is the x86_64 half of ipc/shm.c, over [Pmm], [VmSpace] and the process
      table; each stretch between spin_lock and spin_unlock is one definition.  [ShmSections] runs the
      calls section by section, so that other calls come between them.
    - Kernel heap: [Tlsf] is mm/tlsf.c, over a word memory; [TlsfInv], [TlsfLists], [TlsfHeap] and
      [TlsfProps] are its theory.  [Heap] is mm/heap.c, over [Tlsf] and [Pmm]; [HeapProps] its theory.
    - Processes: [ProcessData] is proc/process.h, [Process] is proc/process.c up to its self tests,
      over a class [ProcessEnv] that stands for what the file calls (stacks, address spaces, files,
      shared memory).  [RunQueue], [ProcessSched], [Scheduler], [Lifecycle] and [Fairness] are its
      theory; [Scheduler] also gives the instance of the class on top of [Shm].
    - Strings and paths: [CString] and [Path] are the string helpers and
      normalize_path_for_process of fs/vfs.c; [Mounts] is its mount table.
    - Memory files: [Memfs] is fs/memfs.c, over a class [Memfs.Heap] for kmalloc and kfree.
    - Virtual file system: [VfsData] and [Vfs] are the rest of fs/vfs.c over a class [VfsEnv] for
      the file systems and drivers behind it; [VfsPipe], [VfsInv], [VfsOps], [VfsSys] and [VfsProps]
      are its theory.
    - FAT12 ram disk: [Fat12] is fs/fat12.c over a byte-addressed image; [Fat12Table], [Fat12Dir],
      [Fat12Ops] and [Fat12Props] are its theory.
    - Input events: [Event] is input/event.c; [Ring] is the theory of its ring buffer, which the
      window service shares.
    - Window manager: [Wm] is gfx/wm.c, over a class [WmEnv] for the callbacks of windows; [WmInv]
      and [WmOps] are its theory, and [WmEnvLaws] is what it demands of a callback.
    - Window service: [GuiSrv] is gfx/gui_srv.c and handle_gui of syscall/syscall.c, [Font] the font
      it draws with.  It gives the instance of [WmEnv] and, in [GuiOps], of its laws; [GuiInv],
      [GuiProps] and [GuiDraw] are its theory.
    - Kernel printf: [Kprintf] is lib/kprintf.c.
    - Background, images and theme: [Bmp] is gfx/bmp.c, [Wallpaper] the background of gfx/desktop.c
      and [Screenshot] its screenshots, over the interface [Files] to whole files, of which [Files]
      also gives the instance on top of [Vfs].  [Theme] is the theme configuration and the
      SYSTEM_CMD_THEME_* commands of syscall/syscall.c, over [Wallpaper], [Files] and [Kprintf];
      [ThemeProps] (the file format), [ThemeRuns] (when applying and saving return) and [ThemeCmds]
      (the commands) are its theory.
    - Division: [CompilerRt] is lib/compiler_rt.c, the 64-bit division of the i386 build.
    - Terminals: [Tty] is tty/tty.c, over [Process].
    - Program registry: [Exec] is loader/exec.c.
    - FAT32 disk: [Fat32] is fs/fat32.c, over the class [AtaDisk] for the disk controller;
      [Fat32Path], [Fat32Scan], [Fat32Props] and [Fat32Write] are its theory.
    - System calls: [Syscall] is syscall_handler and the process, signal, terminal and program
      commands of handle_system, over [Process], [Tty] and [Exec]; [FsCalls] is handle_fs, over
      [Vfs]; handle_gui is in [GuiSrv] and the theme commands in [Theme].

    ** How the code is modelled

    A module's static variables are a record; a function takes the record and returns its C result
    and the new record; [r <| f := v |>] is the assignment of a field.  A machine integer is a [Z]
    and every operation that can wrap is followed by [u8], [u32], [u64] or [i32].  A C array is a
    list of its static length ([aget], [aset]).  A pointer into a table is an index; NULL is [None]
    or 0.  A counted loop is [for_up]; a loop whose bound is not syntactic has fuel, and either the
    bound is shown to suffice or the function returns an [option] whose [None] means that the C
    loop does not end.  A spin lock or an interrupt flag that protects a whole function makes the
    function one step; where a lock is dropped in the middle ([Shm]) the sections are separate.
    Code outside a file is reached through a class ([ProcessEnv], [Memfs.Heap], [VfsEnv], [WmEnv],
    [KernelApps], [Files], [AtaDisk]) with its laws in a second class, and every class has an instance
    that satisfies them.  Memory of the caller of a system call is an argument: what the call reads
    through a pointer ([user_mem], [fs_mem]), and what it stores is part of its result.  An access outside an array shows as a fault flag ([GuiSrv.g_fault]) where the theorems
    are about staying inside; in [Kprintf], [Bmp], [Wallpaper] and [Theme] a [None] outcome, and in
    [Fat32] the outcome [Undef], is behaviour that C leaves undefined: an access outside a buffer, the
    use of a byte never written, a division by zero.

    ** What is proved

    - [Pmm]: initialisation leaves no frame free that a byte of the kernel image, of a module or of
      a range the boot loader does not call usable lies in - the kernel image unless the loader
      has a direct map, for then it can be left free ([Pmm.pmm_init_kernel_not_reserved]); allocation is first fit and complete; live blocks never
      overlap; release undoes allocation.
    - [Vmm], [VmSpace]: mapping installs exactly the requested pages or rolls back; unmapping clears
      exactly them, flushes the TLB for each and leaves other pages alone; protection keeps frames;
      new address spaces share the kernel half only; reservations of a process are disjoint, whatever
      counts are asked for: one whose bytes wrap gets the span that is left
      ([VmSpace.reserve_span_wraps]).
    - [Shm], [ShmSections]: reference counts equal attachments, plus the calls that have recorded
      an attachment and not finished, in every state reached by interleaving critical sections of
      any processes; frames go back to the allocator only when nobody maps them; destroy and process
      exit do exactly what they promise.
    - [TlsfProps], [HeapProps]: over every run of the kernel heap live blocks are disjoint, keep
      their contents, and lie in frames taken from [Pmm]; the byte counter is exact; the search is a
      good fit; small requests succeed while frames last.
    - [RunQueue], [Scheduler], [Fairness], [Lifecycle]: the intrusive run queues refine 256 FIFO
      lists; the scheduling invariant holds in every reachable state; a tick refines an abstract
      FIFO scheduler; a waiting process of the best queue runs within a bound; waitpid, signal
      choice and the initial stack frame do what they should.
    - [Path], [Mounts], [Memfs]: path normalisation equals a reference that splits, resolves and
      joins, and its results are canonical; lookup finds the longest mount; memory files give back
      what was written.
    - [VfsProps]: reference counts, pipe ends and buffers are consistent in every reachable state;
      every call returns; a pipe refines a bounded FIFO queue; a failed open leaks nothing; writes
      are read back and reach the disk on the last close.
    - [Fat12Props]: a write keeps the image well formed, succeeds exactly when there is room, is read
      back, and leaves every other file alone.
    - [Event]: the event ring is a bounded list queue with coalescing and a drop policy.
    - [WmOps], [GuiProps], [GuiDraw]: in every run of window system calls, input events and process
      exits the z-order list, the active window, dragging and dirty rectangles stay consistent, no
      pixel or event access leaves its buffer, processes touch their own windows only; a drag moves
      a window by the pointer's distance; a rectangle paints exactly its visible pixels.
    - [Kprintf]: ksprintf truncates the text of kprintf to its buffer and never writes past it.
    - [Bmp], [Wallpaper], [Screenshot]: the decoder stays inside its file and its block and returns
      the image the file describes; the wallpaper cache holds the right pixel for every place of the
      screen; a screenshot decodes to the frame buffer it was taken from.
    - [ThemeProps], [ThemeCmds]: the configuration file of a valid theme reads back as that theme
      but for its flags and spaces at the end of its wallpaper path; over any sequence of commands
      the theme is valid, the return value is the desktop's answer and the desktop shows what it
      says, a refused command changes nothing, and the commands return when the wallpapers fit.
    - [CompilerRt]: the shift-and-subtract division ends and is division.
    - [Tty], [Exec]: terminals and registered programs are finite maps; Ctrl+C interrupts exactly the
      foreground group of the active terminal.
    - [Fat32Props], [Fat32Write]: stat and list follow the directories as they are listed on the
      disk; a file that is written is read back and nothing but its sectors and its size changes;
      fat32_rename never renames.
    - [Syscall], [FsCalls]: the kernel stays consistent under system calls with any arguments; every
      file system call returns.
    Lemmas that show a defect of the code (a witness run on a small state) are named in the
    findings of the manifest: for example [Lifecycle.setup_context_overruns],
    [Lifecycle.kill_ready_resurrected], [Memfs.memfs_truncate_stale].

    ** What the theorems leave out

    A theorem on runs leaves out the calls that break what it states, and its comment names them.
    [Scheduler.call_allowed], and [Syscall.sys_allowed] above it, leave out SIGKILL of a process that
    waits in a queue ([Lifecycle.kill_ready_resurrected]), SIGKILL of a group, reaping a queued
    process ([Lifecycle.reap_queued_cuts_queue]) and waiting in, or a new priority for, the idle
    process.  The heap runs leave out requests that meet a free block of exactly their size or are
    above 31 MiB; the window runs images whose clipping overflows and windows of 4 GiB; the FAT12
    round trip the name of a directory; the theme runs wallpapers that crash the desktop.

    ** Bounds and fuel

    [alloc_scan] gets one step per tracked frame plus one, and each step advances the scan; walks of
    intrusive lists get the size of the table (64 processes), and a well-formed list has no
    repetition; [scan_segs] gets one step per character plus one; the capacity loops of
    [grow_cap] get 65 doublings ([GROW_FUEL]), after which a 64-bit capacity is zero and the C loop
    runs for ever ([Memfs.grow_cap_diverges]), which cannot happen for counts up to 2^62
    ([VfsProps.vfs_calls_return]).  The theorems on the heap hold for requests of at most 31 MiB
    ([TlsfLists.REQ_MAX]) that do not meet a free block of exactly their size ([TlsfHeap.exact_fit]):
    outside these the code indexes its tables out of bounds ([TlsfProps.tlsf_large_request],
    [TlsfProps.tlsf_exact_fit]).  Walks of the window list get 16 steps, the number of windows, and
    the clean-up of a process 32 rounds, the number of slots.  The window theorems rely on
    the size of a block only below 4 GiB ([GuiInv.HeapSmall]) and speak of a run while no window
    needs more ([g_huge]), while handles last and for images whose clipping does not overflow
    ([GuiProps.run_fits]); [GuiDraw] is about every [int].  The format loop of [Kprintf] and the loop over a
    configuration file get one round per character of the text ([Kprintf.fmt_text_fuel],
    [ThemeProps.cfg_loop_fuel]); the theorems on images are for screens and images whose byte counts
    fit an int ([Wallpaper.sizes_ok], [Screenshot.screen_ok], [ThemeRuns.image_fits]).  The division loop gets 64 rounds, one per bit.  Walks of cluster chains in [Fat32] get
    the longest chain considered; the outcome [Fuel] is a longer one, or a cycle, on which the C loop
    runs for ever; [Fat32Write.fat32_write_read] holds with any fuel that covers the chain of the file
    and of the directories on its path.

    ** Not modelled

    Device drivers and port I/O (drv/, dev/, arch/, net/nic), assembly, boot code and the vendored
    network stack (net/third_party) are hardware access or third-party code; the drawing primitives
    of gfx/ (ui.c, blit.c, cursor.c, font.c), the applications (gfx/apps, user/) and the rest of
    gfx/desktop.c draw and call the interfaces above.  fs/procfs.c and fs/sysfs.c generate text from the
    state of other modules, which [Vfs] uses through [VfsEnv].  Of the system calls, the commands for
    shared memory, memory statistics, network and time are an argument of the dispatcher
    ([Shm] and [Pmm] model what the first two call).  loader/elf.c and bmp_draw_wallpaper have no
    caller; lib/kutils.c serves the network stack.  The i386 halves of mm/ and ipc/shm.c, proc/task.c,
    sys/smp.c and the self tests of proc/process.c are left out. *)

From stdpp Require Export base numbers list gmap.
From Stdlib Require Export ZArith Lia.

#[global] Open Scope Z_scope.

(** * Machine integers

    The kernel is compiled for x86_64: [uintptr_t], [size_t] and [uint64_t] are 64-bit,
    [uint32_t] and [int] are 32-bit.  A value of such a type is a [Z]; every C operation that
    can wrap is followed by [u8], [u32], [u64] or [i32] below. *)

Declare Scope tsk_scope.
Delimit Scope tsk_scope with tsk.
#[global] Open Scope tsk_scope.

Definition u8  (z : Z) : Z := z mod 0x100.
Definition u32 (z : Z) : Z := z mod 0x100000000.
Definition u64 (z : Z) : Z := z mod 0x10000000000000000.

(** Two's complement reading of the low 32 bits (a cast to [int]). *)
Definition i32 (z : Z) : Z :=
  let w := u32 z in if w <? 0x80000000 then w else w - 0x100000000.

Abbreviation U64_MAX := 0xFFFFFFFFFFFFFFFF (only parsing).

(** Range predicates, stated so that [lia] can use them after [unfold]. *)
Definition is_u8  (z : Z) : Prop := 0 <= z < 0x100.
Definition is_u32 (z : Z) : Prop := 0 <= z < 0x100000000.
Definition is_u64 (z : Z) : Prop := 0 <= z < 0x10000000000000000.

#[export] Instance is_u32_dec z : Decision (is_u32 z).
Proof. unfold is_u32. apply _. Defined.
#[export] Instance is_u64_dec z : Decision (is_u64 z).
Proof. unfold is_u64. apply _. Defined.

(** [wsolve] is [lia] after unfolding the width functions. *)
Ltac wsolve :=
  unfold u8, u32, u64, is_u8, is_u32, is_u64 in *; Z.div_mod_to_equations; lia.

Create HintDb tsk.
Create HintDb tsk_rw.

Lemma u64_id z : is_u64 z -> u64 z = z.
Proof. intros. wsolve. Qed.
Lemma u32_id z : is_u32 z -> u32 z = z.
Proof. intros. wsolve. Qed.
Lemma u8_id z : is_u8 z -> u8 z = z.
Proof. intros. wsolve. Qed.
Lemma u64_range z : is_u64 (u64 z).
Proof. wsolve. Qed.
Lemma u32_range z : is_u32 (u32 z).
Proof. wsolve. Qed.
Lemma u8_range z : is_u8 (u8 z).
Proof. wsolve. Qed.
#[export] Hint Resolve u64_range u32_range u8_range : tsk.

Lemma i32_range z : -0x80000000 <= i32 z < 0x80000000.
Proof. unfold i32. destruct (Z.ltb_spec (u32 z) 0x80000000); wsolve. Qed.
Lemma i32_fits z : -0x80000000 <= z < 0x80000000 -> i32 z = z.
Proof. intros Hz. unfold i32. destruct (Z.ltb_spec (u32 z) 0x80000000); wsolve. Qed.
Lemma i32_small z : 0 <= z < 0x80000000 -> i32 z = z.
Proof. intros Hz. apply i32_fits. lia. Qed.

(** Row and column of a cell in a table of width [w]. *)
Lemma row_col_inj w y x y' x' : 0 <= x < w -> 0 <= x' < w -> y * w + x = y' * w + x' -> y = y' /\ x = x'.
Proof. intros Hx Hx' E. assert (y = y') as -> by nia. lia. Qed.

(** A C truth value used as an [int]. *)
Definition b2z (b : bool) : Z := if b then 1 else 0.

(** * Record update

    [r <| f := v |>] is [r] with field [f] replaced: the C assignment [r->f = v].  A record type
    declares how it is rebuilt from its projections ([Rebuild]); the setter of a field is the
    rebuilt value with that projection replaced, found by the tactic below. *)

Class Rebuild (R : Type) := rebuild : R -> R.
Class FieldSet {R T : Type} (proj : R -> T) := field_set : T -> R -> R.

Ltac derive_field_set proj :=
  let r := fresh "r" in
  let v := fresh "v" in
  intros v r;
  let whole := constr:(rebuild r) in
  let whole := eval cbv beta delta [rebuild] in whole in
  let whole := eval hnf in whole in
  let whole := eval pattern (proj r) in whole in
  lazymatch whole with
  | ?body _ => let out := eval cbv beta in (body v) in exact out
  end.

#[export] Hint Extern 1 (@FieldSet _ _ ?proj) => derive_field_set proj : typeclass_instances.

Notation "r <| f := v |>" := (field_set (proj := f) v r)
  (at level 12, left associativity, f constr at level 9, v constr at level 99,
   format "r  <| f  :=  v |>") : tsk_scope.

Ltac fields := cbv [field_set] in *; cbn beta iota in *.

(** * Counted loops

    [for_up n i f s] is [for (k = i; k < i + n; k++) s = f k s], the shape of the kernel's
    table and bitmap loops. *)

Fixpoint for_up {S : Type} (n : nat) (i : Z) (f : Z -> S -> S) (s : S) : S :=
  match n with
  | O => s
  | Datatypes.S n' => for_up n' (i + 1) f (f i s)
  end.

(** Loop rule: an invariant indexed by the loop counter. *)
Lemma for_up_inv {S} (I : Z -> S -> Prop) (n : nat) (i : Z) f (s : S) :
  I i s ->
  (forall k s', i <= k < i + Z.of_nat n -> I k s' -> I (k + 1) (f k s')) ->
  I (i + Z.of_nat n) (for_up n i f s).
Proof.
  revert i s. induction n as [|n IH]; intros i s H0 Hstep; simpl.
  - by rewrite Z.add_0_r.
  - replace (i + Z.of_nat (Datatypes.S n)) with ((i + 1) + Z.of_nat n) by lia.
    apply IH.
    + apply Hstep; [lia | done].
    + intros k s' Hk. apply Hstep. lia.
Qed.

(** The same rule for a property that does not mention the counter. *)
Lemma for_up_preserves {S} (P : S -> Prop) n i f (s : S) :
  P s -> (forall k s', i <= k < i + Z.of_nat n -> P s' -> P (f k s')) -> P (for_up n i f s).
Proof. intros H0 Hs. by apply (for_up_inv (fun _ => P)). Qed.

(** A loop that visits [j] establishes what its body establishes at [j], if later rounds keep it. *)
Lemma for_up_visits {S} (P : S -> Prop) n i f (s : S) j :
  i <= j < i + Z.of_nat n ->
  (forall s', P (f j s')) ->
  (forall k s', P s' -> P (f k s')) ->
  P (for_up n i f s).
Proof.
  intros Hj Hat Hkeep.
  assert (j < i + Z.of_nat n -> P (for_up n i f s)) as HP; [|apply HP; lia].
  apply (for_up_inv (fun k s' => j < k -> P s')); [lia|].
  intros k s' Hk IH Hlt. destruct (decide (j = k)) as [->|]; [apply Hat|].
  apply Hkeep, IH. lia.
Qed.

(** * Arrays of C structs

    A C array is a list of its static length; a read or a write uses a [Z] index.  Every index the
    kernel uses is bounded by a loop or a guard, and the accessors are total. *)

Definition aget {A} `{!Inhabited A} (l : list A) (i : Z) : A := l !!! Z.to_nat i.
Definition aset {A} (i : Z) (x : A) (l : list A) : list A := <[Z.to_nat i := x]> l.

Lemma length_aset {A} i (x : A) l : length (aset i x l) = length l.
Proof. apply length_insert. Qed.

Lemma aget_repeat {A} `{!Inhabited A} (x : A) n i : 0 <= i < Z.of_nat n -> aget (repeat x n) i = x.
Proof.
  intros Hi. unfold aget.
  destruct (lookup_lt_is_Some_2 (repeat x n) (Z.to_nat i)) as [y Hy]; [rewrite repeat_length; lia|].
  rewrite (list_lookup_total_correct _ _ _ Hy).
  apply (repeat_spec n x y), list_elem_of_In. by eapply list_elem_of_lookup_2.
Qed.

Lemma aget_aset_eq {A} `{!Inhabited A} i (x : A) l :
  0 <= i < Z.of_nat (length l) -> aget (aset i x l) i = x.
Proof. intros Hi. unfold aget, aset. apply list_lookup_total_insert_eq. lia. Qed.

Lemma aget_aset_ne {A} `{!Inhabited A} i j (x : A) l :
  0 <= i -> 0 <= j -> i <> j -> aget (aset i x l) j = aget l j.
Proof. intros. unfold aget, aset. apply list_lookup_total_insert_ne. lia. Qed.

(** First index at which a test holds: the kernel's linear table searches. *)
Fixpoint find_from {A} (p : A -> bool) (i : Z) (l : list A) : option Z :=
  match l with
  | [] => None
  | x :: l' => if p x then Some i else find_from p (i + 1) l'
  end.
Definition find_index {A} (p : A -> bool) (l : list A) : option Z := find_from p 0 l.

Lemma find_from_Some {A} `{!Inhabited A} (p : A -> bool) l i k :
  find_from p i l = Some k ->
  i <= k < i + Z.of_nat (length l) /\ p (aget l (k - i)) = true
  /\ forall j, i <= j < k -> p (aget l (j - i)) = false.
Proof.
  revert i. induction l as [|x l IH]; intros i; simpl; [done|].
  destruct (p x) eqn:Hx.
  - intros [= <-]. split; [lia|]. rewrite Z.sub_diag. split; [done|]. lia.
  - intros (Hk & Hp & Hlt)%IH.
    assert (forall m, i + 1 <= m -> aget (x :: l) (m - i) = aget l (m - (i + 1))) as Hsh.
    { intros m Hm. unfold aget.
      replace (Z.to_nat (m - i)) with (Datatypes.S (Z.to_nat (m - (i + 1)))) by lia. done. }
    split; [lia|]. split; [by rewrite Hsh by lia|].
    intros j Hj. destruct (decide (j = i)) as [->|].
    + by rewrite Z.sub_diag.
    + rewrite Hsh by lia. apply Hlt. lia.
Qed.

Lemma find_index_Some {A} `{!Inhabited A} (p : A -> bool) l k :
  find_index p l = Some k ->
  0 <= k < Z.of_nat (length l) /\ p (aget l k) = true
  /\ forall j, 0 <= j < k -> p (aget l j) = false.
Proof.
  intros (Hk & Hp & Hlt)%find_from_Some. rewrite Z.sub_0_r in Hp.
  split; [lia|]. split; [done|]. intros j Hj. specialize (Hlt j). rewrite Z.sub_0_r in Hlt. auto.
Qed.

Lemma find_from_None {A} (p : A -> bool) l i :
  find_from p i l = None <-> Forall (fun x => p x = false) l.
Proof.
  revert i. induction l as [|x l IH]; intros i; simpl; [by split|].
  rewrite Forall_cons. destruct (p x) eqn:Hx; [by split; [|intros [? _]]|].
  rewrite IH. tauto.
Qed.

Lemma find_index_None {A} `{!Inhabited A} (p : A -> bool) l :
  find_index p l = None <-> forall k, 0 <= k < Z.of_nat (length l) -> p (aget l k) = false.
Proof.
  unfold find_index. rewrite find_from_None, Forall_lookup. split.
  - intros H k Hk. unfold aget.
    destruct (lookup_lt_is_Some_2 l (Z.to_nat k)) as [x Hx]; [lia|].
    rewrite (list_lookup_total_correct _ _ _ Hx). eauto.
  - intros H i x Hx. pose proof (lookup_lt_Some _ _ _ Hx).
    specialize (H (Z.of_nat i)). unfold aget in H. rewrite Nat2Z.id in H.
    rewrite (list_lookup_total_correct _ _ _ Hx) in H. apply H. lia.
Qed.

(** * Bit masks *)

Lemma land_ones_mod a k : 0 <= k -> Z.land a (2 ^ k - 1) = a mod 2 ^ k.
Proof. intros. rewrite <- Z.land_ones by lia. f_equal. rewrite Z.ones_equiv. lia. Qed.

Lemma testbit_pow2_range a k i : 0 <= a < 2 ^ k -> k <= i -> Z.testbit a i = false.
Proof.
  intros Ha Hi. destruct (decide (a = 0)) as [->|]; [apply Z.bits_0|].
  apply Z.bits_above_log2; [lia|]. apply Z.log2_lt_pow2; [lia|].
  apply Z.lt_le_trans with (2 ^ k); [lia|]. apply Z.pow_le_mono_r; lia.
Qed.

(** Disjoint bits add up. *)
Lemma lor_shiftl_add a b n : 0 <= n -> 0 <= a < 2 ^ n -> Z.lor a (Z.shiftl b n) = a + b * 2 ^ n.
Proof.
  intros Hn Ha. rewrite <- (Z.shiftl_mul_pow2 b n) by done. symmetry. apply Z.add_nocarry_lor.
  apply Z.bits_inj'. intros i Hi. rewrite Z.land_spec, Z.bits_0. destruct (decide (i < n)).
  - rewrite (Z.shiftl_spec_low b n i) by done. apply andb_false_r.
  - rewrite (testbit_pow2_range a n i) by lia. done.
Qed.

(** The mask with bits [k .. w-1] set rounds a [w]-bit value down to a multiple of [2^k]. *)
Lemma land_high_mask a k w :
  0 <= k <= w -> 0 <= a < 2 ^ w -> Z.land a (2 ^ w - 2 ^ k) = a / 2 ^ k * 2 ^ k.
Proof.
  intros Hk Ha.
  replace (2 ^ w - 2 ^ k) with (Z.shiftl (Z.ones (w - k)) k).
  2: { rewrite Z.shiftl_mul_pow2, Z.ones_equiv by lia.
       replace (2 ^ w) with (2 ^ (w - k) * 2 ^ k) by (rewrite <- Z.pow_add_r by lia; f_equal; lia).
       lia. }
  rewrite <- Z.shiftr_div_pow2, <- Z.shiftl_mul_pow2 by lia.
  apply Z.bits_inj'. intros i Hi.
  rewrite Z.land_spec, !Z.shiftl_spec by lia.
  destruct (decide (i < k)).
  - rewrite !(Z.testbit_neg_r _ (i - k)) by lia. apply andb_false_r.
  - rewrite Z.shiftr_spec by lia. replace (i - k + k) with i by lia.
    destruct (decide (i < w)).
    + rewrite Z.ones_spec_low by lia. apply andb_true_r.
    + rewrite (testbit_pow2_range a w i) by lia. done.
Qed.

Definition PAGE_SIZE : Z := 4096.

Lemma land_page_low a : Z.land a (PAGE_SIZE - 1) = a mod 4096.
Proof. apply (land_ones_mod a 12). lia. Qed.

Lemma land_page_mask a : is_u64 a -> Z.land a 0xFFFFFFFFFFFFF000 = a / 4096 * 4096.
Proof. intros Ha. apply (land_high_mask a 12 64); [lia|]. unfold is_u64 in Ha. lia. Qed.

(** [(v & (1 << i)) != 0] *)
Definition bit_test (v i : Z) : bool := negb (Z.land v (Z.shiftl 1 i) =? 0).

Lemma bit_test_spec v i : 0 <= i -> bit_test v i = Z.testbit v i.
Proof.
  intros Hi. unfold bit_test. rewrite Z.shiftl_1_l.
  assert (Z.land v (2 ^ i) = if Z.testbit v i then 2 ^ i else 0) as ->.
  { apply Z.bits_inj'. intros j Hj. rewrite Z.land_spec, Z.pow2_bits_eqb by lia.
    destruct (Z.eqb_spec i j) as [->|Hne].
    - rewrite andb_true_r. destruct (Z.testbit v j) eqn:E;
        [by rewrite Z.pow2_bits_true by lia | by rewrite Z.bits_0].
    - rewrite andb_false_r. destruct (Z.testbit v i);
        [by rewrite Z.pow2_bits_false by lia | by rewrite Z.bits_0]. }
  destruct (Z.testbit v i); [|done]. by rewrite (proj2 (Z.eqb_neq _ 0)) by lia.
Qed.

Lemma testbit_lor_bit v i j :
  0 <= i -> 0 <= j ->
  Z.testbit (Z.lor v (Z.shiftl 1 i)) j = (if i =? j then true else Z.testbit v j).
Proof.
  intros. rewrite Z.lor_spec, Z.shiftl_1_l, Z.pow2_bits_eqb by lia.
  destruct (i =? j); [apply orb_true_r | apply orb_false_r].
Qed.

Lemma testbit_clear_bit v m i j :
  0 <= i -> 0 <= j < m ->
  Z.testbit (Z.land v ((Z.lnot (Z.shiftl 1 i)) mod 2 ^ m)) j
  = (if i =? j then false else Z.testbit v j).
Proof.
  intros. rewrite Z.land_spec, Z.mod_pow2_bits_low, Z.lnot_spec, Z.shiftl_1_l,
    Z.pow2_bits_eqb by lia.
  destruct (i =? j); [apply andb_false_r | apply andb_true_r].
Qed.

Lemma testbit_mod_pow2 v m j : 0 <= j < m -> Z.testbit (v mod 2 ^ m) j = Z.testbit v j.
Proof. intros. by rewrite Z.mod_pow2_bits_low by lia. Qed.

(** * Counting

    [count_true f n] is the number of [i] in [0 .. n-1] with [f i]. *)

Fixpoint count_true (f : Z -> bool) (n : nat) : Z :=
  match n with
  | O => 0
  | S k => count_true f k + b2z (f (Z.of_nat k))
  end.

Lemma count_true_bounds f n : 0 <= count_true f n <= Z.of_nat n.
Proof.
  induction n as [|n IH]; simpl count_true; [lia|].
  destruct (f (Z.of_nat n)); unfold b2z; lia.
Qed.

Lemma count_true_ext f g n :
  (forall i, 0 <= i < Z.of_nat n -> f i = g i) -> count_true f n = count_true g n.
Proof.
  induction n as [|n IH]; intros H; simpl; [done|].
  rewrite IH by (intros; apply H; lia). by rewrite (H (Z.of_nat n)) by lia.
Qed.

(** Turning a run of [m] true entries false lowers the count by [m]. *)
Lemma count_true_run f g n a (m : nat) :
  0 <= a -> a + Z.of_nat m <= Z.of_nat n ->
  (forall i, a <= i < a + Z.of_nat m -> f i = true /\ g i = false) ->
  (forall i, 0 <= i < Z.of_nat n -> ~ (a <= i < a + Z.of_nat m) -> f i = g i) ->
  count_true f n = count_true g n + Z.of_nat m.
Proof.
  revert m. induction n as [|n IH]; intros m Ha Hm Hin Hout; simpl count_true.
  - assert (m = 0%nat) as -> by lia. done.
  - destruct m as [|m].
    { rewrite (count_true_ext f g n) by (intros; apply Hout; lia).
      rewrite (Hout (Z.of_nat n)) by lia. lia. }
    destruct (decide (a + Z.of_nat (Datatypes.S m) = Z.of_nat (Datatypes.S n))).
    + rewrite (IH m) by (first [lia | intros; apply Hin; lia | intros; apply Hout; lia]).
      destruct (Hin (Z.of_nat n)) as [-> ->]; [lia|]. unfold b2z. lia.
    + rewrite (IH (Datatypes.S m)) by (first [lia | intros; apply Hin; lia | intros; apply Hout; lia]).
      rewrite (Hout (Z.of_nat n)) by lia. lia.
Qed.

Lemma count_true_flip f g n j :
  0 <= j < Z.of_nat n -> f j = true -> g j = false ->
  (forall i, 0 <= i < Z.of_nat n -> i <> j -> f i = g i) ->
  count_true f n = count_true g n + 1.
Proof.
  intros Hj Hf Hg Hne. apply (count_true_run f g n j 1); try lia.
  - intros i Hi. assert (i = j) as -> by lia. done.
  - intros i Hi Hout. apply Hne; lia.
Qed.

(** Changing one entry changes the count by the difference. *)
Lemma count_true_update f g n j :
  0 <= j < Z.of_nat n -> (forall i, 0 <= i < Z.of_nat n -> i <> j -> f i = g i) ->
  count_true f n = count_true g n + b2z (f j) - b2z (g j).
Proof.
  intros Hj Hne. destruct (f j) eqn:Hf, (g j) eqn:Hg; simpl b2z.
  - rewrite (count_true_ext f g n); [lia|]. intros i Hi.
    destruct (decide (i = j)) as [->|]; [congruence|by apply Hne].
  - rewrite (count_true_flip f g n j); [lia|done..].
  - rewrite (count_true_flip g f n j); [lia|done..|]. intros. symmetry. by apply Hne.
  - rewrite (count_true_ext f g n); [lia|]. intros i Hi.
    destruct (decide (i = j)) as [->|]; [congruence|by apply Hne].
Qed.

Lemma count_true_pos f n j : 0 <= j < Z.of_nat n -> f j = true -> 0 < count_true f n.
Proof.
  intros Hj Hf. induction n as [|n IH]; simpl count_true; [lia|].
  pose proof (count_true_bounds f n). destruct (decide (j = Z.of_nat n)) as [->|].
  - rewrite Hf. unfold b2z. lia.
  - assert (0 < count_true f n) by (apply IH; lia). destruct (f (Z.of_nat n)); unfold b2z; lia.
Qed.

Lemma count_true_witness f n : 0 < count_true f n -> exists j, 0 <= j < Z.of_nat n /\ f j = true.
Proof.
  induction n as [|n IH]; simpl count_true; [lia|]. destruct (f (Z.of_nat n)) eqn:Hf.
  - intros _. exists (Z.of_nat n). split; [lia|done].
  - unfold b2z. intros H. destruct IH as (j & ? & ?); [lia|]. exists j. split; [lia|done].
Qed.

Lemma count_true_false n : count_true (fun _ => false) n = 0.
Proof. induction n as [|n IH]; [done|]. simpl count_true. by rewrite IH. Qed.

Lemma for_up_count (f : Z -> bool) n :
  for_up n 0 (fun i c : Z => if f i then c + 1 else c) 0 = count_true f n.
Proof.
  set (I := fun k c : Z => 0 <= k -> c = count_true f (Z.to_nat k)).
  assert (I (0 + Z.of_nat n) (for_up n 0 (fun i c : Z => if f i then c + 1 else c) 0)) as H.
  { apply for_up_inv; [done|]. intros k c Hk IH Hk1. rewrite IH by lia.
    replace (Z.to_nat (k + 1)) with (Datatypes.S (Z.to_nat k)) by lia. simpl.
    rewrite Z2Nat.id by lia. destruct (f k); unfold b2z; lia. }
  unfold I in H. rewrite H by lia. f_equal. lia.
Qed.

(** Re-indexing a counted loop. *)
Lemma for_up_reindex {S} c n i (f g : Z -> S -> S) s :
  (forall k x, i <= k < i + Z.of_nat n -> f k x = g (c + k) x) ->
  for_up n i f s = for_up n (c + i) g s.
Proof.
  revert i s. induction n as [|n IH]; intros i s H; simpl; [done|].
  rewrite H by lia. replace (c + i + 1) with (c + (i + 1)) by lia.
  apply IH. intros. apply H. lia.
Qed.
