(* ===== verification/Pmm.v ===== *)
(** Physical memory manager: [src/mm/pmm.c], [src/mm/pmm.h].

    State: the static bitmap (1 = free), the tracked frame count, the search hint
    [pmm_first_usable] and the free-frame counter.  Operations: [pmm_init] with both boot
    protocols, [pmm_alloc_pages], [pmm_free_pages] and the accounting getters.
    [PMM_FRAME_COUNT] depends on the architecture and is a variable of the section; the two builds
    are [PMM_FRAME_COUNT_x64] and [PMM_FRAME_COUNT_i386]. *)

From S2P Require Import Prelude.

Definition PMM_FRAME_COUNT_x64 : Z := 65536 * 1024 * 1024 / PAGE_SIZE.
Definition PMM_FRAME_COUNT_i386 : Z := 256 * 1024 * 1024 / PAGE_SIZE.

(** ** State *)

Record pmm := mkPmm {
  pmm_bitmap : gmap Z Z;        (* byte index -> byte; an absent byte is the static 0 *)
  pmm_total_frames : Z;
  pmm_first_usable : Z;
  pmm_free_frames : Z;
}.
#[export] Instance pmm_rebuild : Rebuild pmm := fun p =>
  mkPmm (pmm_bitmap p) (pmm_total_frames p) (pmm_first_usable p) (pmm_free_frames p).

(** The statics before [pmm_init]. *)
Definition pmm_zero : pmm := mkPmm ∅ 0 0 0.

Definition bitmap_byte (p : pmm) (byte : Z) : Z := default 0 (pmm_bitmap p !! byte).

Definition addr_to_frame (addr : Z) : Z := addr / PAGE_SIZE.
Definition frame_to_addr (frame : Z) : Z := u64 (frame * PAGE_SIZE).

Definition bitmap_set (p : pmm) (frame : Z) (free : bool) : pmm :=
  let byte := frame / 8 in
  let bit := frame mod 8 in
  if free
  then p <| pmm_bitmap := <[byte := u8 (Z.lor (bitmap_byte p byte) (Z.shiftl 1 bit))]> (pmm_bitmap p) |>
  else p <| pmm_bitmap :=
              <[byte := Z.land (bitmap_byte p byte) (u8 (Z.lnot (Z.shiftl 1 bit)))]> (pmm_bitmap p) |>.

Definition bitmap_get (p : pmm) (frame : Z) : bool :=
  let byte := frame / 8 in
  let bit := frame mod 8 in
  bit_test (bitmap_byte p byte) bit.

(** ** Boot information

    [pmm_init] gets one untyped pointer and reads it at two types: as the loader's boot info when
    its magic matches, as a Multiboot record otherwise.  [boot_view] is what the two reads give;
    [None] is the null pointer.  An array reached through a pointer is [option (Z -> entry)]. *)

Record boot_memmap_entry := mkMemmap { me_base : Z; me_length : Z; me_type : Z }.
Record boot_module := mkModule { bm_address : Z; bm_size : Z }.
Record tsukasa_boot_info := mkBootInfo {
  bi_magic : Z;
  bi_hhdm_offset : Z;
  bi_memmap_entry_count : Z;
  bi_memmap_entries : option (Z -> boot_memmap_entry);
  bi_module_count : Z;
  bi_modules : option (Z -> boot_module);
}.

Record multiboot_mmap_entry := mkMmap { mm_size : Z; mm_addr : Z; mm_len : Z; mm_type : Z }.
Record multiboot_mod_list := mkMod { mod_start : Z; mod_end : Z }.
Record multiboot_info := mkMultiboot {
  mb_flags : Z;
  mb_mods_count : Z;
  mb_mods : Z -> multiboot_mod_list;      (* the array at mods_addr *)
  mb_mmap_length : Z;
  mb_mmap_addr : Z;
  mb_mmap_at : Z -> multiboot_mmap_entry; (* the entry read at an address *)
}.

Record boot_view := mkBoot {
  as_boot_info : option tsukasa_boot_info;
  as_multiboot : option multiboot_info;
}.

Definition TSUKASA_BOOT_INFO_MAGIC : Z := 0x54534B5341424F4F.
Definition TSUKASA_VA_KERNEL_BASE : Z := 0xFFFFFFFF80000000.
Definition TSUKASA_BOOT_MEM_USABLE : Z := 1.
Definition MULTIBOOT_INFO_MODS : Z := 0x8.
Definition MULTIBOOT_INFO_MEM_MAP : Z := 0x40.
Definition MULTIBOOT_MEMORY_AVAILABLE : Z := 1.

Definition tsukasa_boot_info_is_valid (bi : option tsukasa_boot_info) : bool :=
  match bi with
  | Some bi => bi_magic bi =? TSUKASA_BOOT_INFO_MAGIC
  | None => false
  end.

Definition boot_addr_to_phys (bi : option tsukasa_boot_info) (addr : Z) : Z :=
  match bi with
  | None => addr
  | Some bi =>
      if negb (bi_hhdm_offset bi =? 0) && (bi_hhdm_offset bi <=? addr)
      then u64 (addr - bi_hhdm_offset bi)
      else if TSUKASA_VA_KERNEL_BASE <=? addr
      then u64 (addr - TSUKASA_VA_KERNEL_BASE)
      else addr
  end.

(** [x & ~(uint64_t)(PAGE_SIZE - 1)] and the rounded-up form used for region ends. *)
Definition page_down (a : Z) : Z := Z.land a 0xFFFFFFFFFFFFF000.
Definition page_up (a : Z) : Z := page_down (u64 (u64 (a + PAGE_SIZE) - 1)).

Section PMM.
  Context (PMM_FRAME_COUNT : Z).

(** ** Regions *)

Definition mark_region (p : pmm) (start end_ : Z) (free : bool) : pmm :=
  if end_ <=? start then p else
  let first := addr_to_frame start in
  let last := addr_to_frame (u64 (end_ - 1)) in
  if PMM_FRAME_COUNT <=? first then p else
  let last := if PMM_FRAME_COUNT <=? last then PMM_FRAME_COUNT - 1 else last in
  for_up (Z.to_nat (last - first + 1)) first (fun i p => bitmap_set p i free) p.

(** [for (i = first; i < total; i++) if (bitmap_get(i)) return i] *)
Fixpoint first_free_from (p : pmm) (n : nat) (i : Z) : option Z :=
  match n with
  | O => None
  | S n' => if bitmap_get p i then Some i else first_free_from p n' (i + 1)
  end.

Definition refresh_first_usable (p : pmm) : pmm :=
  let first := addr_to_frame 0x100000 in
  let first := if pmm_total_frames p <=? first then 0 else first in
  match first_free_from p (Z.to_nat (pmm_total_frames p - first)) first with
  | Some i => p <| pmm_first_usable := i |>
  | None => p <| pmm_first_usable := pmm_total_frames p |>
  end.

Definition recompute_free_frames (p : pmm) : pmm :=
  p <| pmm_free_frames :=
         for_up (Z.to_nat (pmm_total_frames p)) 0
           (fun i free_count => if bitmap_get p i then free_count + 1 else free_count) 0 |>.

(** ** Initialisation *)

Definition mark_usable_boot (ents : Z -> boot_memmap_entry) (i : Z) (p : pmm) : pmm :=
  let ent := ents i in
  let base := me_base ent in
  let end_ := u64 (me_base ent + me_length ent) in
  if me_type ent =? TSUKASA_BOOT_MEM_USABLE then mark_region p base end_ true else p.

Definition reserve_boot_module (bi : tsukasa_boot_info) (mods : Z -> boot_module) (i : Z) (p : pmm)
  : pmm :=
  let mstart := boot_addr_to_phys (Some bi) (bm_address (mods i)) in
  let mend := u64 (mstart + bm_size (mods i)) in
  mark_region p (page_down mstart) (page_up mend) false.

(** [while (ptr + sizeof(entry) <= mmap_end)]; an entry occupies at least 24 bytes. *)
Fixpoint mark_usable_multiboot (fuel : nat) (mb : multiboot_info) (mmap_end ptr : Z) (p : pmm) : pmm :=
  match fuel with
  | O => p
  | S fuel' =>
      if u64 (ptr + 24) <=? mmap_end then
        let ent := mb_mmap_at mb ptr in
        let base := mm_addr ent in
        let end_ := u64 (mm_addr ent + mm_len ent) in
        let p := if (mm_type ent =? MULTIBOOT_MEMORY_AVAILABLE) && (0 <? mm_len ent)
                 then mark_region p base end_ true else p in
        mark_usable_multiboot fuel' mb mmap_end
          (u64 (ptr + (if 24 <=? mm_size ent then mm_size ent else 24))) p
      else p
  end.

Definition reserve_multiboot_module (mods : Z -> multiboot_mod_list) (i : Z) (p : pmm) : pmm :=
  let mstart := page_down (mod_start (mods i)) in
  let mend := page_down (u32 (u32 (mod_end (mods i) + PAGE_SIZE) - 1)) in
  mark_region p mstart mend false.

(** [pmm_init]: the result code and the new state.  [kernel_start] and [kernel_end] are the
    addresses of the linker symbols [_kernel_start] and [_kernel_end]. *)
Definition pmm_init (kernel_start kernel_end : Z) (boot_info : boot_view) (p : pmm) : Z * pmm :=
  let p := for_up (Z.to_nat PMM_FRAME_COUNT) 0 (fun i p => bitmap_set p i false) p in
  let p := p <| pmm_total_frames := PMM_FRAME_COUNT |>
             <| pmm_first_usable := PMM_FRAME_COUNT |> in
  if tsukasa_boot_info_is_valid (as_boot_info boot_info) then
    match as_boot_info boot_info with
    | None => (-1, p)
    | Some bi =>
        match bi_memmap_entries bi with
        | None => (-1, p)
        | Some ents =>
            if bi_memmap_entry_count bi =? 0 then (-1, p) else
            let p := for_up (Z.to_nat (bi_memmap_entry_count bi)) 0 (mark_usable_boot ents) p in
            let p := mark_region p 0 0x100000 false in
            let kstart := boot_addr_to_phys (Some bi) kernel_start in
            let kend := page_up (boot_addr_to_phys (Some bi) kernel_end) in
            let p := mark_region p kstart kend false in
            let p := match bi_modules bi with
                     | Some mods =>
                         for_up (Z.to_nat (bi_module_count bi)) 0 (reserve_boot_module bi mods) p
                     | None => p
                     end in
            (0, recompute_free_frames (refresh_first_usable p))
        end
    end
  else
    match as_multiboot boot_info with
    | None => (-1, p)
    | Some mb =>
        if (Z.land (mb_flags mb) MULTIBOOT_INFO_MEM_MAP =? 0) || (mb_mmap_addr mb =? 0)
        then (-1, p) else
        let mmap_end := u32 (mb_mmap_addr mb + mb_mmap_length mb) in
        let p := mark_usable_multiboot (Z.to_nat (mb_mmap_length mb / 24 + 1)) mb mmap_end
                   (mb_mmap_addr mb) p in
        let p := mark_region p 0 0x100000 false in
        let p := mark_region p kernel_start (page_up kernel_end) false in
        let p := if negb (Z.land (mb_flags mb) MULTIBOOT_INFO_MODS =? 0) && (0 <? mb_mods_count mb)
                 then for_up (Z.to_nat (mb_mods_count mb)) 0 (reserve_multiboot_module (mb_mods mb)) p
                 else p in
        (0, recompute_free_frames (refresh_first_usable p))
    end.

End PMM.

(** ** Allocation *)

(** The inner loop: the first [i < count] whose frame [start + i] is in use. *)
Fixpoint first_used (p : pmm) (n : nat) (start i : Z) : option Z :=
  match n with
  | O => None
  | S n' => if bitmap_get p (u64 (start + i)) then first_used p n' start (i + 1) else Some i
  end.

(** The outer loop; on a used frame it resumes just after it ([start += i; start++]). *)
Fixpoint alloc_scan (fuel : nat) (p : pmm) (start count : Z) : option Z :=
  match fuel with
  | O => None
  | S fuel' =>
      if u64 (start + count) <=? pmm_total_frames p then
        match first_used p (Z.to_nat count) start 0 with
        | None => Some start
        | Some i => alloc_scan fuel' p (u64 (u64 (start + i) + 1)) count
        end
      else None
  end.

Definition pmm_alloc_pages (p : pmm) (count : Z) : Z * pmm :=
  if count =? 0 then (0, p) else
  match alloc_scan (Z.to_nat (pmm_total_frames p + 1)) p (pmm_first_usable p) count with
  | Some start =>
      let p := for_up (Z.to_nat count) 0 (fun i p => bitmap_set p (u64 (start + i)) false) p in
      let p := if count <=? pmm_free_frames p
               then p <| pmm_free_frames := pmm_free_frames p - count |>
               else p <| pmm_free_frames := 0 |> in
      (frame_to_addr start, p)
  | None => (0, p)
  end.

Definition pmm_alloc (p : pmm) : Z * pmm := pmm_alloc_pages p 1.

(** ** Release *)

(** [for (i = 0; i < count && start + i < total; i++)]: at most [total] rounds. *)
Fixpoint free_loop (fuel : nat) (p : pmm) (start i count : Z) : pmm :=
  match fuel with
  | O => p
  | S fuel' =>
      if (i <? count) && (u64 (start + i) <? pmm_total_frames p) then
        let f := u64 (start + i) in
        let p := if bitmap_get p f then p
                 else (bitmap_set p f true) <| pmm_free_frames := u64 (pmm_free_frames p + 1) |> in
        free_loop fuel' p start (i + 1) count
      else p
  end.

Definition pmm_free_pages (p : pmm) (phys count : Z) : pmm :=
  if (phys =? 0) || (count =? 0) then p else
  if negb (Z.land phys (PAGE_SIZE - 1) =? 0) then p else
  let start := addr_to_frame phys in
  let p := free_loop (Z.to_nat (pmm_total_frames p + 1)) p start 0 count in
  if start <? pmm_first_usable p then p <| pmm_first_usable := start |> else p.

Definition pmm_free (p : pmm) (phys : Z) : pmm := pmm_free_pages p phys 1.

(** ** Accounting *)

Definition pmm_total_page_count (p : pmm) : Z := pmm_total_frames p.
Definition pmm_used_page_count (p : pmm) : Z :=
  if pmm_total_frames p <? pmm_free_frames p then 0
  else pmm_total_frames p - pmm_free_frames p.
Definition pmm_free_page_count (p : pmm) : Z := pmm_free_frames p.

(** ** Bitmap facts *)

Definition pmm_same_accounting (p q : pmm) : Prop :=
  pmm_total_frames q = pmm_total_frames p
  /\ pmm_first_usable q = pmm_first_usable p
  /\ pmm_free_frames q = pmm_free_frames p.

Lemma bitmap_set_accounting p f v : pmm_same_accounting p (bitmap_set p f v).
Proof. unfold bitmap_set. destruct v; by repeat split. Qed.

Lemma bitmap_get_set p f v g :
  0 <= f -> 0 <= g ->
  bitmap_get (bitmap_set p f v) g = if f =? g then v else bitmap_get p g.
Proof.
  intros Hf Hg. unfold bitmap_get.
  pose proof (Z.mod_pos_bound f 8 ltac:(lia)). pose proof (Z.mod_pos_bound g 8 ltac:(lia)).
  rewrite !bit_test_spec by lia.
  assert (bitmap_byte (bitmap_set p f v) (g / 8) =
          if g / 8 =? f / 8 then bitmap_byte (bitmap_set p f v) (f / 8)
          else bitmap_byte p (g / 8)) as ->.
  { destruct (Z.eqb_spec (g / 8) (f / 8)) as [->|]; [done|].
    unfold bitmap_byte, bitmap_set. destruct v; fields; simpl; by rewrite lookup_insert_ne by done. }
  assert (bitmap_byte (bitmap_set p f v) (f / 8) =
          if v then u8 (Z.lor (bitmap_byte p (f / 8)) (Z.shiftl 1 (f mod 8)))
          else Z.land (bitmap_byte p (f / 8)) (u8 (Z.lnot (Z.shiftl 1 (f mod 8))))) as ->.
  { unfold bitmap_byte at 1, bitmap_set. destruct v; fields; simpl; by rewrite lookup_insert_eq. }
  destruct (Z.eqb_spec (g / 8) (f / 8)) as [Hb|Hb].
  - assert ((f =? g) = (f mod 8 =? g mod 8)) as ->.
    { apply Bool.eq_iff_eq_true. rewrite !Z.eqb_eq.
      pose proof (Z.div_mod f 8). pose proof (Z.div_mod g 8). split; [by intros ->|lia]. }
    destruct v; unfold u8.
    + rewrite (testbit_mod_pow2 _ 8), testbit_lor_bit, <- Hb by lia. done.
    + rewrite (testbit_clear_bit _ 8), <- Hb by lia. done.
  - destruct (Z.eqb_spec f g) as [->|]; [done|]. done.
Qed.

(** A loop of [bitmap_set] over [first .. first+n-1]. *)
Lemma bitmap_fill_get p n first v g :
  0 <= first -> 0 <= g ->
  bitmap_get (for_up n first (fun i p => bitmap_set p i v) p) g
  = if (first <=? g) && (g <? first + Z.of_nat n) then v else bitmap_get p g.
Proof.
  intros Hf Hg.
  pose (I := fun (k : Z) (q : pmm) => first <= k ->
    bitmap_get q g = if (first <=? g) && (g <? k) then v else bitmap_get p g).
  assert (I (first + Z.of_nat n) (for_up n first (fun i p => bitmap_set p i v) p)) as H.
  { apply for_up_inv.
    - intros _. destruct (Z.leb_spec first g), (Z.ltb_spec g first); simpl; try done. lia.
    - intros k q Hk IH _. rewrite bitmap_get_set by lia. rewrite IH by lia.
      destruct (Z.eqb_spec k g) as [->|].
      + rewrite (proj2 (Z.leb_le first g)), (proj2 (Z.ltb_lt g (g + 1))) by lia. done.
      + destruct (Z.leb_spec first g), (Z.ltb_spec g k), (Z.ltb_spec g (k + 1)); simpl; try done; lia. }
  apply H. lia.
Qed.

Lemma bitmap_fill_accounting p n first v :
  pmm_same_accounting p (for_up n first (fun i p => bitmap_set p i v) p).
Proof.
  apply for_up_preserves; [by repeat split|].
  intros k q _ (H1 & H2 & H3). destruct (bitmap_set_accounting q k v) as (E1 & E2 & E3).
  repeat split; congruence.
Qed.

(** ** Invariant

    The counter is the number of free frames; every free frame at or above 1 MiB is at or above the
    search hint; frame 0 is never free (address 0 is the failure result); tracked memory fits the
    52-bit physical address space of the architecture. *)

Definition pmm_count (p : pmm) : Z :=
  count_true (bitmap_get p) (Z.to_nat (pmm_total_frames p)).

Record pmm_wf (p : pmm) : Prop := {
  wf_total : 0 <= pmm_total_frames p <= 0x10000000000;
  wf_first : 0 <= pmm_first_usable p <= pmm_total_frames p;
  wf_free : pmm_free_frames p = pmm_count p;
  wf_hint : forall f, 0x100 <= f < pmm_total_frames p -> bitmap_get p f = true ->
            pmm_first_usable p <= f;
  wf_zero : bitmap_get p 0 = false;
}.

(** A run of [count] free frames at [start]. *)
Definition free_run (p : pmm) (start count : Z) : Prop :=
  forall i, 0 <= i < count -> bitmap_get p (start + i) = true.

(** [q] is [p] with the frames of [start .. start+count-1] set to [v]. *)
Definition frames_set (p q : pmm) (start count : Z) (v : bool) : Prop :=
  forall g, 0 <= g ->
    bitmap_get q g = if (start <=? g) && (g <? start + count) then v else bitmap_get p g.

Lemma first_used_spec p n start i :
  0 <= start -> 0 <= i -> start + i + Z.of_nat n < 0x10000000000000000 ->
  match first_used p n start i with
  | None => forall j, i <= j < i + Z.of_nat n -> bitmap_get p (start + j) = true
  | Some k => i <= k < i + Z.of_nat n /\ bitmap_get p (start + k) = false
  end.
Proof.
  revert i. induction n as [|n IH]; intros i Hs Hi Hb; simpl; [lia|].
  rewrite u64_id by wsolve. destruct (bitmap_get p (start + i)) eqn:E.
  - specialize (IH (i + 1) ltac:(lia) ltac:(lia) ltac:(lia)).
    destruct (first_used p n start (i + 1)) as [k|].
    + destruct IH. split; [lia|done].
    + intros j Hj. destruct (decide (j = i)) as [->|]; [done|]. apply IH. lia.
  - split; [lia|done].
Qed.

(** With enough fuel the scan finds the lowest run at or above [start], or there is none. *)
Lemma alloc_scan_spec fuel p start count :
  0 <= start -> 0 < count -> pmm_total_frames p <= 0x10000000000000 ->
  start + count < 0x10000000000000000 -> pmm_total_frames p + count < 0x10000000000000000 ->
  pmm_total_frames p - start < Z.of_nat fuel ->
  match alloc_scan fuel p start count with
  | Some s => start <= s /\ s + count <= pmm_total_frames p /\ free_run p s count
              /\ forall s', start <= s' < s -> ~ free_run p s' count
  | None => forall s', start <= s' -> s' + count <= pmm_total_frames p -> ~ free_run p s' count
  end.
Proof.
  revert start. induction fuel as [|fuel IH]; intros start Hs Hc Ht Hsc Htc Hf; simpl; [lia|].
  rewrite (u64_id (start + count)) by wsolve.
  destruct (Z.leb_spec (start + count) (pmm_total_frames p)) as [Hle|Hgt]; [|lia].
  pose proof (first_used_spec p (Z.to_nat count) start 0 Hs ltac:(lia) ltac:(lia)) as Hfu.
  rewrite Z2Nat.id, !Z.add_0_l in Hfu by lia.
  destruct (first_used p (Z.to_nat count) start 0) as [k|].
  - destruct Hfu as [Hk Hused].
    rewrite (u64_id (start + k)) by wsolve. rewrite u64_id by wsolve.
    assert (forall s', start <= s' < start + k + 1 -> ~ free_run p s' count) as Hskip.
    { intros s' Hs' Hrun. specialize (Hrun (start + k - s') ltac:(lia)).
      replace (s' + (start + k - s')) with (start + k) in Hrun by lia. congruence. }
    specialize (IH (start + k + 1) ltac:(lia) Hc Ht ltac:(lia) Htc ltac:(lia)).
    destruct (alloc_scan fuel p (start + k + 1) count) as [s|].
    + destruct IH as (H1 & H2 & H3 & H4). repeat split; [lia|lia|done|].
      intros s' Hs'. destruct (decide (s' < start + k + 1)); [apply Hskip; lia|apply H4; lia].
    + intros s' Hs'1 Hs'2. destruct (decide (s' < start + k + 1)); [apply Hskip; lia|apply IH; lia].
  - repeat split; [lia|lia|done|lia].
Qed.

Lemma pmm_count_run p q start count v :
  pmm_total_frames q = pmm_total_frames p -> 0 <= start -> 0 <= count ->
  start + count <= pmm_total_frames p ->
  (forall i, 0 <= i < count -> bitmap_get p (start + i) = negb v) ->
  frames_set p q start count v ->
  pmm_count q = pmm_count p + (if v then count else - count).
Proof.
  intros Ht Hs Hc Hb Hrun Hset. unfold pmm_count. rewrite Ht.
  assert (forall i, start <= i < start + count ->
            bitmap_get p i = negb v /\ bitmap_get q i = v) as Hin.
  { intros i Hi. rewrite Hset by lia. specialize (Hrun (i - start) ltac:(lia)).
    replace (start + (i - start)) with i in Hrun by lia.
    rewrite (proj2 (Z.leb_le start i)), (proj2 (Z.ltb_lt i (start + count))) by lia. done. }
  assert (forall i, 0 <= i -> ~ (start <= i < start + count) -> bitmap_get q i = bitmap_get p i)
    as Hout.
  { intros i Hi Hn. rewrite Hset by lia.
    destruct (Z.leb_spec start i), (Z.ltb_spec i (start + count)); simpl; try done. lia. }
  set (n := Z.to_nat (pmm_total_frames p)).
  destruct v; simpl negb in Hin.
  - rewrite (count_true_run (bitmap_get q) (bitmap_get p) n start (Z.to_nat count)); try lia.
    + intros i Hi. destruct (Hin i); [lia|done].
    + intros i Hi Hn. apply Hout; lia.
  - rewrite (count_true_run (bitmap_get p) (bitmap_get q) n start (Z.to_nat count)); try lia.
    + intros i Hi. destruct (Hin i); [lia|done].
    + intros i Hi Hn. symmetry. apply Hout; lia.
Qed.

Lemma range_true a b x : a <= x < b -> (a <=? x) && (x <? b) = true.
Proof. intros. rewrite (proj2 (Z.leb_le _ _)), (proj2 (Z.ltb_lt _ _)); lia || done. Qed.
Lemma range_false a b x : ~ (a <= x < b) -> (a <=? x) && (x <? b) = false.
Proof. intros. destruct (Z.leb_spec a x), (Z.ltb_spec x b); simpl; try done. lia. Qed.

Lemma fill_frames_set p start count v :
  0 <= start -> 0 <= count -> start + count <= 0x10000000000000000 ->
  let q := for_up (Z.to_nat count) 0 (fun i p => bitmap_set p (u64 (start + i)) v) p in
  frames_set p q start count v /\ pmm_same_accounting p q.
Proof.
  intros Hs Hc Hb q.
  assert (q = for_up (Z.to_nat count) start (fun i p => bitmap_set p i v) p) as ->.
  { unfold q.
    rewrite (for_up_reindex start _ 0 _ (fun i p => bitmap_set p i v)), Z.add_0_r; [done|].
    intros k x Hk. by rewrite u64_id by wsolve. }
  split; [|apply bitmap_fill_accounting].
  intros g Hg. rewrite bitmap_fill_get by lia. by rewrite Z2Nat.id by lia.
Qed.

(** What a successful allocation does. *)
Record pmm_allocated (p : pmm) (count start : Z) (p' : pmm) : Prop := {
  al_range : 0 < start /\ pmm_first_usable p <= start /\ start + count <= pmm_total_frames p;
  al_run : free_run p start count;
  al_lowest : forall s, pmm_first_usable p <= s < start -> ~ free_run p s count;
  al_set : frames_set p p' start count false;
  al_free : pmm_free_frames p' = pmm_free_frames p - count;
  al_total : pmm_total_frames p' = pmm_total_frames p;
  al_first : pmm_first_usable p' = pmm_first_usable p;
}.

Lemma pmm_allocated_wf p count start p' :
  pmm_wf p -> 0 < count -> pmm_allocated p count start p' -> pmm_wf p'.
Proof.
  intros [Wt Wf Wc Wh Wz] Hc [Ar Al _ As Ae At Af]. split.
  - by rewrite At.
  - by rewrite Af, At.
  - rewrite Ae, Wc. rewrite (pmm_count_run p p' start count false); [lia|done|lia|lia|lia|done|done].
  - intros f Hf. rewrite At in Hf. rewrite As, Af by lia. intros Hfree. apply Wh; [done|].
    by destruct ((start <=? f) && (f <? start + count)).
  - rewrite As, Wz by lia. by destruct (_ && _).
Qed.

Lemma frame_to_addr_small s : 0 <= s < 0x10000000000000 -> frame_to_addr s = s * 4096.
Proof. intros. unfold frame_to_addr, PAGE_SIZE. apply u64_id. wsolve. Qed.

(** Every result of [pmm_alloc_pages] is a success of the above kind or a genuine shortage. *)
Lemma pmm_alloc_pages_cases p count a p' :
  pmm_wf p -> 0 < count < 0x8000000000000000 ->
  pmm_alloc_pages p count = (a, p') ->
  (exists start, a = start * 4096 /\ pmm_allocated p count start p')
  \/ (a = 0 /\ p' = p
      /\ forall s, pmm_first_usable p <= s -> s + count <= pmm_total_frames p ->
                   ~ free_run p s count).
Proof.
  intros W Hc. unfold pmm_alloc_pages. rewrite (proj2 (Z.eqb_neq count 0)) by lia.
  destruct (W) as [Wt Wf Wc Wh Wz].
  pose proof (alloc_scan_spec (Z.to_nat (pmm_total_frames p + 1)) p (pmm_first_usable p) count
                ltac:(lia) ltac:(lia) ltac:(lia) ltac:(lia) ltac:(lia) ltac:(lia)) as Hscan.
  destruct (alloc_scan _ p (pmm_first_usable p) count) as [s|].
  2: { intros [= <- <-]. right. auto. }
  destruct Hscan as (H1 & H2 & H3 & H4).
  destruct (fill_frames_set p s count false) as [Hset (E1 & E2 & E3)]; [lia|lia|lia|].
  set (q := for_up (Z.to_nat count) 0 (fun i p => bitmap_set p (u64 (s + i)) false) p) in *.
  assert (pmm_count q = pmm_count p - count) as Hcount.
  { rewrite (pmm_count_run p q s count false); [lia|done|lia|lia|lia|done|done]. }
  pose proof (count_true_bounds (bitmap_get q) (Z.to_nat (pmm_total_frames q))) as Hb.
  fold (pmm_count q) in Hb. rewrite (proj2 (Z.leb_le count (pmm_free_frames q))) by lia.
  intros [= <- <-]. left. exists s. split.
  - apply frame_to_addr_small. lia.
  - split; fields; simpl; try congruence; try lia; try done.
    split; [|lia]. destruct (decide (s = 0)) as [->|]; [|lia].
    specialize (H3 0 ltac:(lia)). rewrite Z.add_0_l in H3. congruence.
Qed.

Lemma pmm_alloc_pages_wf p count a p' :
  pmm_wf p -> 0 <= count < 0x8000000000000000 -> pmm_alloc_pages p count = (a, p') -> pmm_wf p'.
Proof.
  intros W Hc Hal. destruct (decide (count = 0)) as [->|].
  - unfold pmm_alloc_pages in Hal. simpl in Hal. by injection Hal as _ <-.
  - destruct (pmm_alloc_pages_cases p count a p' W ltac:(lia) Hal)
      as [(s & _ & Ha) | (_ & -> & _)]; [|done].
    by apply (pmm_allocated_wf p count s p' W ltac:(lia)).
Qed.

Lemma pmm_count_set_one p q f v :
  pmm_total_frames q = pmm_total_frames p -> 0 <= f < pmm_total_frames p ->
  bitmap_get p f = negb v -> frames_set p q f 1 v ->
  pmm_count q = pmm_count p + (if v then 1 else -1).
Proof.
  intros Ht Hf Hb Hs. rewrite (pmm_count_run p q f 1 v); [by destruct v|done|lia|lia|lia| |done].
  intros i Hi. by replace (f + i) with f by lia.
Qed.

Lemma bitmap_set_frames_set p f v : 0 <= f -> frames_set p (bitmap_set p f v) f 1 v.
Proof.
  intros Hf g Hg. rewrite bitmap_get_set by lia. destruct (Z.eqb_spec f g) as [->|].
  - by rewrite range_true by lia.
  - by rewrite range_false by lia.
Qed.

Lemma free_loop_spec fuel p start i count :
  0 <= start -> 0 <= i -> start + count < 0x10000000000000000 ->
  0 <= pmm_total_frames p <= 0x10000000000000 ->
  pmm_total_frames p - (start + i) < Z.of_nat fuel ->
  pmm_free_frames p = pmm_count p ->
  let q := free_loop fuel p start i count in
  pmm_total_frames q = pmm_total_frames p
  /\ pmm_first_usable q = pmm_first_usable p
  /\ pmm_free_frames q = pmm_count q
  /\ forall g, 0 <= g ->
       bitmap_get q g
       = if (start + i <=? g) && (g <? Z.min (start + count) (pmm_total_frames p))
         then true else bitmap_get p g.
Proof.
  revert p i. induction fuel as [|fuel IH]; intros p i Hs Hi Hb Ht Hf Hc; simpl.
  { repeat split; [done|]. intros g Hg. by rewrite range_false by lia. }
  destruct (Z.ltb_spec i count); simpl.
  2: { repeat split; [done|]. intros g Hg. by rewrite range_false by lia. }
  rewrite u64_id by wsolve.
  destruct (Z.ltb_spec (start + i) (pmm_total_frames p)); simpl.
  2: { repeat split; [done|]. intros g Hg. by rewrite range_false by lia. }
  set (p1 := if bitmap_get p (start + i) then p else _).
  assert (pmm_total_frames p1 = pmm_total_frames p /\ pmm_first_usable p1 = pmm_first_usable p
          /\ pmm_free_frames p1 = pmm_count p1
          /\ forall g, 0 <= g -> bitmap_get p1 g = if start + i =? g then true else bitmap_get p g)
    as (T1 & F1 & C1 & G1).
  { unfold p1. destruct (bitmap_get p (start + i)) eqn:E.
    - repeat split; [done|]. intros g Hg. by destruct (Z.eqb_spec (start + i) g) as [<-|].
    - destruct (bitmap_set_accounting p (start + i) true) as (E1 & E2 & E3).
      set (s1 := bitmap_set p (start + i) true) in *.
      assert (pmm_count s1 = pmm_count p + 1) as Hcnt.
      { apply (pmm_count_set_one p s1 (start + i) true); [done|lia|done|].
        apply bitmap_set_frames_set. lia. }
      pose proof (count_true_bounds (bitmap_get s1) (Z.to_nat (pmm_total_frames s1))) as Hcb.
      fold (pmm_count s1) in Hcb.
      fields. split; [done|]. split; [done|]. split.
      + simpl. change (u64 (pmm_free_frames p + 1) = pmm_count s1). rewrite u64_id by wsolve. lia.
      + intros g Hg. change (bitmap_get s1 g = if start + i =? g then true else bitmap_get p g).
        unfold s1. apply bitmap_get_set; lia. }
  specialize (IH p1 (i + 1) Hs ltac:(lia) Hb ltac:(lia) ltac:(lia) C1).
  simpl in IH. destruct IH as (T & F & C & G).
  split; [congruence|]. split; [congruence|]. split; [done|].
  intros g Hg. rewrite G by lia. rewrite T1, G1 by lia.
  destruct (Z.eqb_spec (start + i) g).
  - rewrite (range_true (start + i)) by lia. by destruct (_ && _).
  - destruct (decide (start + i <= g < Z.min (start + count) (pmm_total_frames p))).
    + by rewrite !range_true by lia.
    + by rewrite !range_false by lia.
Qed.

(** What [pmm_free_pages] does when its arguments pass the guards. *)
Lemma pmm_free_pages_spec p start count :
  pmm_wf p -> 0 < start -> start < 0x10000000000000 -> 0 < count < 0x8000000000000000 ->
  let q := pmm_free_pages p (start * 4096) count in
  pmm_wf q
  /\ pmm_total_frames q = pmm_total_frames p
  /\ pmm_first_usable q = Z.min (pmm_first_usable p) start
  /\ forall g, 0 <= g ->
       bitmap_get q g
       = if (start <=? g) && (g <? Z.min (start + count) (pmm_total_frames p))
         then true else bitmap_get p g.
Proof.
  intros [Wt Wf Wc Wh Wz] Hs Hs2 Hc q. unfold q, pmm_free_pages.
  rewrite (proj2 (Z.eqb_neq (start * 4096) 0)), (proj2 (Z.eqb_neq count 0)) by lia. simpl orb.
  rewrite land_page_low, Z.mod_mul by lia. simpl negb. cbv iota zeta.
  unfold addr_to_frame, PAGE_SIZE. rewrite Z.div_mul by lia.
  destruct (free_loop_spec (Z.to_nat (pmm_total_frames p + 1)) p start 0 count
    ltac:(lia) ltac:(lia) ltac:(lia) ltac:(lia) ltac:(lia) Wc) as (T & F & C & G).
  rewrite !Z.add_0_r in *.
  set (r := free_loop _ p start 0 count) in *.
  assert (pmm_wf (if start <? pmm_first_usable r then r <| pmm_first_usable := start |> else r)) as W.
  { destruct (Z.ltb_spec start (pmm_first_usable r)); (split; fields; simpl;
      [lia | lia | done | | ]).
    - intros f Hf Hfree. change (bitmap_get r f = true) in Hfree. rewrite G in Hfree by lia.
      destruct (decide (start <= f < Z.min (start + count) (pmm_total_frames p))); [lia|].
      rewrite range_false in Hfree by done. specialize (Wh f ltac:(lia) Hfree). lia.
    - change (bitmap_get r 0 = false). rewrite G by lia. by rewrite range_false by lia.
    - intros f Hf Hfree. rewrite G in Hfree by lia. rewrite F.
      destruct (decide (start <= f < Z.min (start + count) (pmm_total_frames p))); [lia|].
      rewrite range_false in Hfree by done. apply Wh; [lia|done].
    - rewrite G by lia. by rewrite range_false by lia. }
  split; [done|]. destruct (Z.ltb_spec start (pmm_first_usable r)); fields; simpl.
  - split; [done|]. split; [lia|]. exact G.
  - split; [done|]. split; [lia|]. exact G.
Qed.

(** The other arguments are ignored. *)
Lemma pmm_free_pages_ignored p phys count :
  phys = 0 \/ count = 0 \/ phys mod 4096 <> 0 -> pmm_free_pages p phys count = p.
Proof.
  intros H. unfold pmm_free_pages. rewrite land_page_low.
  destruct (Z.eqb_spec phys 0), (Z.eqb_spec count 0), (Z.eqb_spec (phys mod 4096) 0); simpl; try done.
  lia.
Qed.

Lemma pmm_free_pages_wf p phys count :
  pmm_wf p -> is_u64 phys -> 0 <= count < 0x8000000000000000 -> pmm_wf (pmm_free_pages p phys count).
Proof.
  intros W Hp Hc. destruct (decide (phys = 0 \/ count = 0 \/ phys mod 4096 <> 0)).
  - by rewrite pmm_free_pages_ignored.
  - assert (phys = phys / 4096 * 4096) as -> by (pose proof (Z.div_mod phys 4096); lia).
    apply pmm_free_pages_spec; [done| |unfold is_u64 in Hp; Z.div_mod_to_equations; lia|lia].
    Z.div_mod_to_equations; wsolve.
Qed.

(** ** Initialisation facts *)

Definition in_region (s e f : Z) : Prop := s < e /\ s / 4096 <= f <= (e - 1) / 4096.
#[export] Instance in_region_dec s e f : Decision (in_region s e f).
Proof. unfold in_region. apply _. Defined.

Lemma mark_region_get C p s e v g :
  is_u64 s -> is_u64 e -> 0 <= g < C ->
  bitmap_get (mark_region C p s e v) g = if decide (in_region s e g) then v else bitmap_get p g.
Proof.
  intros Hs He Hg. unfold mark_region, in_region, addr_to_frame, PAGE_SIZE.
  destruct (Z.leb_spec e s).
  { rewrite decide_False by lia. done. }
  rewrite (u64_id (e - 1)) by wsolve.
  assert (0 <= s / 4096 <= (e - 1) / 4096) as Hd by (unfold is_u64 in *; Z.div_mod_to_equations; lia).
  destruct (Z.leb_spec C (s / 4096)).
  { rewrite decide_False by lia. done. }
  set (last := if C <=? (e - 1) / 4096 then C - 1 else (e - 1) / 4096).
  assert (last = Z.min (C - 1) ((e - 1) / 4096)) as Hl by (unfold last; destruct (Z.leb_spec C ((e - 1) / 4096)); lia).
  rewrite bitmap_fill_get by lia. rewrite Z2Nat.id by lia.
  case_decide.
  - rewrite range_true by lia. done.
  - rewrite range_false by lia. done.
Qed.

Lemma mark_region_accounting C p s e v : pmm_same_accounting p (mark_region C p s e v).
Proof.
  unfold mark_region. destruct (e <=? s); [by repeat split|].
  destruct (C <=? addr_to_frame s); [by repeat split|]. apply bitmap_fill_accounting.
Qed.

Lemma page_down_u64 a : is_u64 a -> is_u64 (page_down a).
Proof. intros. unfold page_down. rewrite land_page_mask by done. unfold is_u64 in *. Z.div_mod_to_equations. lia. Qed.
Lemma page_up_u64 a : is_u64 (page_up a).
Proof. apply page_down_u64, u64_range. Qed.
Lemma boot_addr_to_phys_u64 bi a : is_u64 a -> is_u64 (boot_addr_to_phys bi a).
Proof.
  intros. unfold boot_addr_to_phys. destruct bi; [|done].
  destruct (_ && _); [apply u64_range|]. destruct (_ <=? _); [apply u64_range|done].
Qed.
#[export] Hint Resolve page_down_u64 page_up_u64 boot_addr_to_phys_u64 : tsk.

(** The fields of the boot records hold values of their C types. *)
Record boot_view_typed (bv : boot_view) : Prop := {
  bt_ents : forall bi ents i, as_boot_info bv = Some bi -> bi_memmap_entries bi = Some ents ->
            is_u64 (me_base (ents i));
  bt_mods : forall bi mods i, as_boot_info bv = Some bi -> bi_modules bi = Some mods ->
            is_u64 (bm_address (mods i));
  bt_mmap : forall mb a, as_multiboot bv = Some mb -> is_u64 (mm_addr (mb_mmap_at mb a));
  bt_mbmod : forall mb i, as_multiboot bv = Some mb ->
             is_u32 (mod_start (mb_mods mb i)) /\ is_u32 (mod_end (mb_mods mb i));
}.

Section INIT.
  Context (C kernel_start kernel_end : Z) (bv : boot_view).
  Context (HC : 0 < C <= 0x10000000000).
  Context (Hks : is_u64 kernel_start) (Hke : is_u64 kernel_end) (Hbv : boot_view_typed bv).

(** The regions the boot data declares usable, and the ones initialisation takes out again, by the
    code's own conversion of addresses; what it ought to take out is [must_keep] below. *)
Inductive usable_region : Z -> Z -> Prop :=
  | us_boot bi ents i :
      as_boot_info bv = Some bi -> bi_memmap_entries bi = Some ents ->
      0 <= i < bi_memmap_entry_count bi -> me_type (ents i) = TSUKASA_BOOT_MEM_USABLE ->
      usable_region (me_base (ents i)) (u64 (me_base (ents i) + me_length (ents i)))
  | us_multiboot mb ptr :
      as_multiboot bv = Some mb -> mm_type (mb_mmap_at mb ptr) = MULTIBOOT_MEMORY_AVAILABLE ->
      0 < mm_len (mb_mmap_at mb ptr) ->
      usable_region (mm_addr (mb_mmap_at mb ptr))
                    (u64 (mm_addr (mb_mmap_at mb ptr) + mm_len (mb_mmap_at mb ptr))).

Inductive reserved_region : Z -> Z -> Prop :=
  | rs_low : reserved_region 0 0x100000
  | rs_kernel_boot bi :
      as_boot_info bv = Some bi -> tsukasa_boot_info_is_valid (Some bi) = true ->
      reserved_region (boot_addr_to_phys (Some bi) kernel_start)
                      (page_up (boot_addr_to_phys (Some bi) kernel_end))
  | rs_module_boot bi mods i :
      as_boot_info bv = Some bi -> tsukasa_boot_info_is_valid (Some bi) = true ->
      bi_modules bi = Some mods -> 0 <= i < bi_module_count bi ->
      reserved_region
        (page_down (boot_addr_to_phys (Some bi) (bm_address (mods i))))
        (page_up (u64 (boot_addr_to_phys (Some bi) (bm_address (mods i)) + bm_size (mods i))))
  | rs_kernel_multiboot :
      tsukasa_boot_info_is_valid (as_boot_info bv) = false ->
      reserved_region kernel_start (page_up kernel_end)
  | rs_module_multiboot mb i :
      tsukasa_boot_info_is_valid (as_boot_info bv) = false ->
      as_multiboot bv = Some mb -> Z.land (mb_flags mb) MULTIBOOT_INFO_MODS <> 0 ->
      0 <= i < mb_mods_count mb ->
      reserved_region (page_down (mod_start (mb_mods mb i)))
                      (page_down (u32 (u32 (mod_end (mb_mods mb i) + PAGE_SIZE) - 1))).

Definition all_usable (q : pmm) : Prop :=
  forall f, 0 <= f < C -> bitmap_get q f = true ->
    exists s e, usable_region s e /\ in_region s e f.
Definition kept_reserved (s e : Z) (q : pmm) : Prop :=
  forall f, 0 <= f < C -> in_region s e f -> bitmap_get q f = false.

Lemma all_usable_mark q s e :
  is_u64 s -> is_u64 e -> usable_region s e -> all_usable q -> all_usable (mark_region C q s e true).
Proof.
  intros Hs He Hu Hq f Hf. rewrite mark_region_get by done. case_decide; [by eauto|by apply Hq].
Qed.
Lemma all_usable_reserve q s e :
  is_u64 s -> is_u64 e -> all_usable q -> all_usable (mark_region C q s e false).
Proof. intros Hs He Hq f Hf. rewrite mark_region_get by done. case_decide; [done|by apply Hq]. Qed.
Lemma kept_reserved_now q s e : is_u64 s -> is_u64 e -> kept_reserved s e (mark_region C q s e false).
Proof. intros Hs He f Hf Hin. rewrite mark_region_get by done. by rewrite decide_True. Qed.
Lemma kept_reserved_later q s e s' e' :
  is_u64 s' -> is_u64 e' -> kept_reserved s e q -> kept_reserved s e (mark_region C q s' e' false).
Proof. intros Hs He Hq f Hf Hin. rewrite mark_region_get by done. case_decide; [done|by apply Hq]. Qed.

Lemma cleared_spec p :
  let q := for_up (Z.to_nat C) 0 (fun i p => bitmap_set p i false) p in all_usable q.
Proof.
  intros q f Hf. unfold q. rewrite bitmap_fill_get by lia. rewrite range_true by lia. done.
Qed.

(** What holds between the marking phase and the reservations, and after each reservation. *)
Definition staged (q : pmm) : Prop := pmm_total_frames q = C /\ all_usable q.

Lemma staged_mark q s e :
  is_u64 s -> is_u64 e -> usable_region s e -> staged q -> staged (mark_region C q s e true).
Proof.
  intros Hs He Hu [Ht Hq]. split; [|by apply all_usable_mark].
  by destruct (mark_region_accounting C q s e true) as (-> & _).
Qed.
Lemma staged_reserve q s e :
  is_u64 s -> is_u64 e -> staged q -> staged (mark_region C q s e false).
Proof.
  intros Hs He [Ht Hq]. split; [|by apply all_usable_reserve].
  by destruct (mark_region_accounting C q s e false) as (-> & _).
Qed.

Lemma first_free_from_spec q n i :
  match first_free_from q n i with
  | Some k => i <= k < i + Z.of_nat n /\ (forall f, i <= f < k -> bitmap_get q f = false)
  | None => forall f, i <= f < i + Z.of_nat n -> bitmap_get q f = false
  end.
Proof.
  revert i. induction n as [|n IH]; intros i; simpl; [lia|].
  destruct (bitmap_get q i) eqn:E; [split; [lia|]; lia|].
  specialize (IH (i + 1)). destruct (first_free_from q n (i + 1)) as [k|].
  - destruct IH as [Hk IH]. split; [lia|]. intros f Hf.
    destruct (decide (f = i)) as [->|]; [done|]. apply IH. lia.
  - intros f Hf. destruct (decide (f = i)) as [->|]; [done|]. apply IH. lia.
Qed.

(** The last two steps of both boot paths establish the invariant. *)
Lemma refresh_recompute_wf q :
  staged q -> kept_reserved 0 0x100000 q ->
  let r := recompute_free_frames (refresh_first_usable q) in
  pmm_wf r /\ pmm_total_frames r = C /\ (forall f, bitmap_get r f = bitmap_get q f).
Proof.
  intros [Ht _] Hlow. set (q1 := refresh_first_usable q).
  assert (pmm_total_frames q1 = C /\ (forall f, bitmap_get q1 f = bitmap_get q f)
          /\ 0 <= pmm_first_usable q1 <= C
          /\ forall f, 0x100 <= f < C -> bitmap_get q f = true -> pmm_first_usable q1 <= f)
    as (T1 & G1 & F1 & H1).
  { unfold q1, refresh_first_usable. rewrite Ht. change (addr_to_frame 0x100000) with 256.
    set (first := if C <=? 256 then 0 else 256).
    assert (0 <= first <= 256 /\ (256 < C -> first = 256) /\ (C <= 256 -> first = 0)) as Hfirst
      by (unfold first; destruct (Z.leb_spec C 256); lia).
    pose proof (first_free_from_spec q (Z.to_nat (C - first)) first) as Hff.
    destruct (first_free_from q _ first) as [k|]; fields; simpl.
    - destruct Hff as [Hk Hff]. split; [done|]. split; [done|]. split; [lia|]. intros f Hf Hfree.
      destruct (decide (k <= f)); [done|]. rewrite Hff in Hfree by lia. done.
    - split; [done|]. split; [done|]. split; [lia|]. intros f Hf Hfree.
      rewrite Hff in Hfree by lia. done. }
  unfold recompute_free_frames. rewrite for_up_count. fields.
  split; [|by split].
  split; simpl.
  - rewrite T1. lia.
  - rewrite T1. lia.
  - done.
  - intros f Hf Hfree. apply H1; [rewrite <- T1; lia|]. rewrite <- G1. exact Hfree.
  - change (bitmap_get q1 0 = false). rewrite G1. apply Hlow; [lia|].
    unfold in_region. split; [lia|]. Z.div_mod_to_equations. lia.
Qed.

Definition init_post (q : pmm) : Prop :=
  staged q /\ forall s e, reserved_region s e -> kept_reserved s e q.

Lemma mark_usable_multiboot_staged mb fuel mmap_end ptr q :
  as_multiboot bv = Some mb -> staged q ->
  staged (mark_usable_multiboot C fuel mb mmap_end ptr q).
Proof.
  intros Hmb. revert ptr q. induction fuel as [|fuel IH]; intros ptr q Hq; simpl; [done|].
  destruct (_ <=? mmap_end); [|done]. apply IH.
  destruct (mm_type _ =? _) eqn:E1; [|done]. destruct (0 <? _) eqn:E2; [|done]. simpl.
  apply staged_mark; [by apply (bt_mmap bv Hbv mb)|apply u64_range| |done].
  apply us_multiboot; [done|by apply Z.eqb_eq|by apply Z.ltb_lt].
Qed.

Lemma reserve_module_loop {M} (body : Z -> pmm -> pmm) (start end_ : Z -> Z) (n : Z) q (mods : M) :
  (forall i q, body i q = mark_region C q (start i) (end_ i) false) ->
  (forall i, is_u64 (start i) /\ is_u64 (end_ i)) ->
  staged q ->
  let r := for_up (Z.to_nat n) 0 body q in
  staged r
  /\ (forall i, 0 <= i < n -> kept_reserved (start i) (end_ i) r)
  /\ (forall s e, kept_reserved s e q -> kept_reserved s e r).
Proof.
  intros Hb Ht Hq r. split; [|split].
  - apply for_up_preserves; [done|]. intros k x _ Hx. rewrite Hb. apply staged_reserve; [apply Ht|apply Ht|done].
  - intros i Hi. apply (for_up_visits _ _ _ _ _ i); [lia| |].
    + intros x. rewrite Hb. apply kept_reserved_now; apply Ht.
    + intros k x Hx. rewrite Hb. apply kept_reserved_later; [apply Ht|apply Ht|done].
  - intros s e Hk. apply for_up_preserves; [done|]. intros k x _ Hx. rewrite Hb.
    apply kept_reserved_later; [apply Ht|apply Ht|done].
Qed.

(** The tail shared by both paths: reserve low memory, the kernel, then the modules. *)
Lemma reserve_tail q ks ke n body start end_ :
  is_u64 ks -> is_u64 ke -> staged q ->
  (forall i q, body i q = mark_region C q (start i) (end_ i) false) ->
  (forall i, is_u64 (start i) /\ is_u64 (end_ i)) ->
  let q1 := mark_region C (mark_region C q 0 0x100000 false) ks ke false in
  let r := for_up (Z.to_nat n) 0 body q1 in
  staged r /\ kept_reserved 0 0x100000 r /\ kept_reserved ks ke r
  /\ (forall i, 0 <= i < n -> kept_reserved (start i) (end_ i) r).
Proof.
  intros Hks' Hke' Hq Hb Ht q1 r.
  assert (staged q1) as H1 by (repeat apply staged_reserve; try done; unfold is_u64; lia).
  destruct (reserve_module_loop body start end_ n q1 tt Hb Ht H1) as (Hr & Hin & Hkeep).
  fold r in Hr, Hin, Hkeep. split; [done|]. split; [|split; [|done]].
  - apply Hkeep, kept_reserved_later; [done|done|]. apply kept_reserved_now; unfold is_u64; lia.
  - by apply Hkeep, kept_reserved_now.
Qed.

Lemma pmm_init_boot_info bi p q :
  as_boot_info bv = Some bi -> tsukasa_boot_info_is_valid (Some bi) = true ->
  pmm_init C kernel_start kernel_end bv p = (0, q) ->
  exists r, q = recompute_free_frames (refresh_first_usable r)
            /\ init_post r /\ kept_reserved 0 0x100000 r.
Proof.
  intros Hbi Hval. unfold pmm_init. rewrite Hbi, Hval.
  destruct (bi_memmap_entries bi) as [ents|] eqn:Hents; [|done].
  destruct (bi_memmap_entry_count bi =? 0); [done|].
  set (q0 := for_up _ 0 (mark_usable_boot C ents) _).
  assert (staged q0) as Hq0.
  { apply for_up_preserves.
    - split; [done|]. apply (cleared_spec p).
    - intros k x Hk Hx. unfold mark_usable_boot. destruct (me_type _ =? _) eqn:E; [|done].
      apply staged_mark; [by apply (bt_ents bv Hbv bi)|apply u64_range| |done].
      apply (us_boot bi ents k); [done|done|lia|by apply Z.eqb_eq]. }
  set (st i := match bi_modules bi with
               | Some mods => page_down (boot_addr_to_phys (Some bi) (bm_address (mods i)))
               | None => 0 end).
  set (en i := match bi_modules bi with
               | Some mods => page_up (u64 (boot_addr_to_phys (Some bi) (bm_address (mods i))
                                            + bm_size (mods i)))
               | None => 0 end).
  set (n := match bi_modules bi with Some _ => bi_module_count bi | None => 0 end).
  intros [= <-]. eexists. split; [reflexivity|].
  destruct (reserve_tail q0 (boot_addr_to_phys (Some bi) kernel_start)
    (page_up (boot_addr_to_phys (Some bi) kernel_end)) n
    (fun i q => mark_region C q (st i) (en i) false) st en)
    as (Hr & Hlow & Hker & Hmod); [auto with tsk|auto with tsk|done|done| |].
  { intros i. unfold st, en. destruct (bi_modules bi) as [mods|] eqn:Em;
      [|unfold is_u64; lia].
    pose proof (bt_mods bv Hbv bi mods i Hbi Em). split; auto with tsk. }
  assert (forall r, r = for_up (Z.to_nat n) 0 (fun i q => mark_region C q (st i) (en i) false)
      (mark_region C (mark_region C q0 0 0x100000 false)
         (boot_addr_to_phys (Some bi) kernel_start)
         (page_up (boot_addr_to_phys (Some bi) kernel_end)) false) ->
      init_post r /\ kept_reserved 0 0x100000 r) as Hgoal.
  { intros r ->. split; [|done]. split; [done|]. intros s e Hres.
    inversion Hres as [| bi' Hb' | bi' mods i Hb' Hv' Hm' Hi | Hv' | mb i Hv']; subst.
    - done.
    - rewrite Hbi in Hb'. by injection Hb' as <-.
    - rewrite Hbi in Hb'. injection Hb' as <-.
      assert (Hst : st i = page_down (boot_addr_to_phys (Some bi) (bm_address (mods i))))
        by (unfold st; by rewrite Hm').
      assert (Hen : en i = page_up (u64 (boot_addr_to_phys (Some bi) (bm_address (mods i))
                                          + bm_size (mods i)))) by (unfold en; by rewrite Hm').
      rewrite <- Hst, <- Hen. apply Hmod. unfold n. by rewrite Hm'.
    - rewrite Hbi in Hv'. congruence.
    - rewrite Hbi in Hv'. congruence. }
  apply Hgoal. unfold n, st, en. by destruct (bi_modules bi).
Qed.

Lemma pmm_init_multiboot p q :
  tsukasa_boot_info_is_valid (as_boot_info bv) = false ->
  pmm_init C kernel_start kernel_end bv p = (0, q) ->
  exists r, q = recompute_free_frames (refresh_first_usable r)
            /\ init_post r /\ kept_reserved 0 0x100000 r.
Proof.
  intros Hval. unfold pmm_init. rewrite Hval.
  destruct (as_multiboot bv) as [mb|] eqn:Hmb; [|done].
  destruct (_ || _); [done|].
  set (q0 := mark_usable_multiboot _ _ _ _ _ _).
  assert (staged q0) as Hq0.
  { apply mark_usable_multiboot_staged; [done|]. split; [done|]. apply (cleared_spec p). }
  set (flag := negb (Z.land (mb_flags mb) MULTIBOOT_INFO_MODS =? 0)).
  set (st i := page_down (mod_start (mb_mods mb i))).
  set (en i := page_down (u32 (u32 (mod_end (mb_mods mb i) + PAGE_SIZE) - 1))).
  set (n := if flag then mb_mods_count mb else 0).
  intros [= <-]. eexists. split; [reflexivity|].
  destruct (reserve_tail q0 kernel_start (page_up kernel_end) n
    (reserve_multiboot_module C (mb_mods mb)) st en)
    as (Hr & Hlow & Hker & Hmod); [auto with tsk|auto with tsk|done|done| |].
  { intros i. unfold st, en. pose proof (bt_mbmod bv Hbv mb i Hmb) as [H1 H2].
    split; apply page_down_u64; wsolve. }
  assert (forall r, r = for_up (Z.to_nat n) 0 (reserve_multiboot_module C (mb_mods mb))
      (mark_region C (mark_region C q0 0 0x100000 false) kernel_start (page_up kernel_end) false) ->
      init_post r /\ kept_reserved 0 0x100000 r) as Hgoal.
  { intros r ->. split; [|done]. split; [done|]. intros s e Hres.
    inversion Hres as [| bi' Hb' Hv | bi' mods i Hb' Hv' | Hv' | mb' i Hv' Hm' Hfl Hi]; subst.
    - done.
    - rewrite Hb' in Hval. congruence.
    - rewrite Hb' in Hval. congruence.
    - done.
    - rewrite Hmb in Hm'. injection Hm' as <-.
      apply Hmod. unfold n, flag. by rewrite (proj2 (Z.eqb_neq _ 0) Hfl). }
  apply Hgoal. unfold n. destruct flag; simpl; [|done].
  destruct (Z.ltb_spec 0 (mb_mods_count mb)); [done|].
  by rewrite Z2Nat.nonpos by lia.
Qed.

Lemma pmm_init_ok p q :
  pmm_init C kernel_start kernel_end bv p = (0, q) ->
  pmm_wf q /\ pmm_total_frames q = C
  /\ (forall s e f, reserved_region s e -> 0 <= f < C -> in_region s e f -> bitmap_get q f = false)
  /\ (forall f, 0 <= f < C -> bitmap_get q f = true ->
        exists s e, usable_region s e /\ in_region s e f).
Proof.
  intros Hinit.
  assert (exists r, q = recompute_free_frames (refresh_first_usable r)
            /\ init_post r /\ kept_reserved 0 0x100000 r) as (r & -> & [Hst Hres] & Hlow).
  { destruct (tsukasa_boot_info_is_valid (as_boot_info bv)) eqn:Hval.
    - destruct (as_boot_info bv) as [bi|] eqn:Hbi; [|done]. by apply (pmm_init_boot_info bi p).
    - by apply (pmm_init_multiboot p). }
  destruct (refresh_recompute_wf r Hst Hlow) as (W & T & G).
  split; [done|]. split; [done|]. split.
  - intros s e f Hr Hf Hin. rewrite G. by apply (Hres s e).
  - intros f Hf. rewrite G. by apply Hst.
Qed.

End INIT.

(** ** Clients of the allocator

    A client run: allocations and releases of whole live blocks, with the blocks handed out and not
    yet released as ghost state. *)

Definition block : Type := Z * Z.    (* physical address, page count *)

Definition block_frames (b : block) (f : Z) : Prop := b.1 / 4096 <= f < b.1 / 4096 + b.2.

Inductive pmm_run : pmm -> list block -> pmm -> list block -> Prop :=
  | run_refl p live : pmm_run p live p live
  | run_alloc p live q live' count a r :
      pmm_run p live q live' -> 0 < count < 0x8000000000000000 ->
      pmm_alloc_pages q count = (a, r) ->
      pmm_run p live r (if a =? 0 then live' else (a, count) :: live')
  | run_free p live q live1 b live2 :
      pmm_run p live q (live1 ++ b :: live2) ->
      pmm_run p live (pmm_free_pages q b.1 b.2) (live1 ++ live2).

(** The ghost state is consistent: live blocks are in use, inside memory and pairwise disjoint. *)
Record live_ok (p : pmm) (live : list block) : Prop := {
  lo_wf : pmm_wf p;
  lo_shape : forall b, b ∈ live ->
    exists start, b.1 = start * 4096 /\ 0 < start /\ 0 < b.2 < 0x8000000000000000
                  /\ start + b.2 <= pmm_total_frames p;
  lo_used : forall b f, b ∈ live -> block_frames b f -> bitmap_get p f = false;
  lo_disjoint : forall i j b c f, live !! i = Some b -> live !! j = Some c ->
    block_frames b f -> block_frames c f -> i = j;
}.

Lemma block_frames_start start n f : block_frames (start * 4096, n) f <-> start <= f < start + n.
Proof. unfold block_frames. simpl. rewrite Z.div_mul by lia. done. Qed.

Lemma live_ok_alloc p live count a p' :
  live_ok p live -> 0 < count < 0x8000000000000000 -> pmm_alloc_pages p count = (a, p') ->
  live_ok p' (if a =? 0 then live else (a, count) :: live).
Proof.
  intros [W Sh U D] Hc Hal.
  destruct (pmm_alloc_pages_cases p count a p' W Hc Hal) as [(start & -> & A) | (-> & -> & _)].
  2: { by split. }
  pose proof (al_range _ _ _ _ A). rewrite (proj2 (Z.eqb_neq (start * 4096) 0)) by lia.
  assert (forall b f, b ∈ live -> block_frames b f -> ~ (start <= f < start + count)) as Hdis.
  { intros b f Hb Hf Hin. pose proof (al_run _ _ _ _ A (f - start) ltac:(lia)) as Hfree.
    replace (start + (f - start)) with f in Hfree by lia. rewrite (U b f) in Hfree by done. done. }
  split.
  - by apply (pmm_allocated_wf p count start p' W ltac:(lia)).
  - rewrite (al_total _ _ _ _ A). intros b [->|Hb]%elem_of_cons; [|by apply Sh].
    exists start. simpl. lia.
  - intros b f [->|Hb]%elem_of_cons Hf.
    + rewrite block_frames_start in Hf. rewrite (al_set _ _ _ _ A) by lia. by rewrite range_true.
    + destruct (Sh b Hb) as (s & Hs & ?). unfold block_frames in Hf.
      assert (0 <= f) by (rewrite Hs, Z.div_mul in Hf by lia; lia).
      rewrite (al_set _ _ _ _ A) by lia. rewrite range_false by (by apply (Hdis b)). by apply (U b).
  - intros [|i] [|j] b c f Hi Hj Hbf Hcf; simpl in *; try done.
    + injection Hi as <-. rewrite block_frames_start in Hbf.
      destruct (Hdis c f); [by apply (list_elem_of_lookup_2 _ j)|done|done].
    + injection Hj as <-. rewrite block_frames_start in Hcf.
      destruct (Hdis b f); [by apply (list_elem_of_lookup_2 _ i)|done|done].
    + f_equal. by apply (D i j b c f).
Qed.

Lemma lookup_remove_middle {A} (l1 l2 : list A) (x : A) i y :
  (l1 ++ l2) !! i = Some y ->
  exists k, (l1 ++ x :: l2) !! k = Some y /\ k <> length l1
            /\ k = (if decide (i < length l1)%nat then i else S i).
Proof.
  intros Hi. case_decide.
  - exists i. rewrite lookup_app_l in Hi by done. rewrite lookup_app_l by done. split; [done|lia].
  - exists (S i). rewrite lookup_app_r in Hi by lia. rewrite lookup_app_r by lia.
    replace (S i - length l1)%nat with (S (i - length l1)) by lia. simpl. split; [done|lia].
Qed.

Lemma live_ok_free p live1 b live2 :
  live_ok p (live1 ++ b :: live2) -> live_ok (pmm_free_pages p b.1 b.2) (live1 ++ live2).
Proof.
  intros [W Sh U D].
  destruct (Sh b) as (start & Hb1 & Hs & Hc & Hle); [set_solver|].
  pose proof (wf_total _ W).
  destruct (pmm_free_pages_spec p start b.2 W ltac:(lia) ltac:(lia) Hc) as (W' & T & F & G).
  rewrite Hb1. split.
  - done.
  - rewrite T. intros c Hcin. apply Sh. set_solver.
  - intros c f Hcin Hf. destruct (Sh c) as (s & Hcs & Hs' & ?); [set_solver|].
    assert (0 <= f) by (unfold block_frames in Hf; rewrite Hcs, Z.div_mul in Hf by lia; lia).
    rewrite G by lia. rewrite range_false; [apply (U c); [set_solver|done]|].
    intros Hin. apply list_elem_of_lookup in Hcin as [i Hi].
    destruct (lookup_remove_middle live1 live2 b i c Hi) as (k & Hk & Hne & _).
    apply Hne, (D k (length live1) c b f Hk); [by apply list_lookup_middle|done|].
    unfold block_frames. rewrite Hb1, Z.div_mul by lia. lia.
  - intros i j c d f Hi Hj Hcf Hdf.
    destruct (lookup_remove_middle live1 live2 b i c Hi) as (k & Hk & _ & Ek).
    destruct (lookup_remove_middle live1 live2 b j d Hj) as (m & Hm & _ & Em).
    pose proof (D k m c d f Hk Hm Hcf Hdf). repeat case_decide; lia.
Qed.

Lemma live_ok_run p live q live' : pmm_run p live q live' -> live_ok p live -> live_ok q live'.
Proof.
  induction 1 as [ | p live q live' count a r _ IH Hc Hal | p live q live1 b live2 _ IH];
    intros H; [done| |].
  - by apply (live_ok_alloc q live' count a r); [apply IH|..].
  - apply live_ok_free. by apply IH.
Qed.

(** A frame that is in use and in no live block stays so: nothing can hand it out. *)
Lemma pmm_run_reserved p live q live' f :
  pmm_run p live q live' -> live_ok p live -> 0 <= f < pmm_total_frames p ->
  bitmap_get p f = false -> (forall b, b ∈ live -> ~ block_frames b f) ->
  pmm_total_frames q = pmm_total_frames p
  /\ bitmap_get q f = false /\ (forall b, b ∈ live' -> ~ block_frames b f).
Proof.
  intros Hrun Hok Hf Hu Hn.
  induction Hrun as [ | p live q live' count a r Hrun IH Hc Hal | p live q live1 b live2 Hrun IH];
    [done| |]; destruct IH as (T & Hu' & Hn'); try done;
    pose proof (live_ok_run _ _ _ _ Hrun Hok) as Hok'.
  - destruct (pmm_alloc_pages_cases q count a r (lo_wf _ _ Hok') Hc Hal)
      as [(s & -> & A) | (-> & -> & _)]; [|done].
    destruct (al_range _ _ _ _ A) as (? & _ & ?). rewrite (proj2 (Z.eqb_neq (s * 4096) 0)) by lia.
    split; [by rewrite (al_total _ _ _ _ A)|]. split.
    + rewrite (al_set _ _ _ _ A) by lia. by destruct (_ && _).
    + intros b [->|Hb]%elem_of_cons; [|by apply Hn']. rewrite block_frames_start. intros Hin.
      pose proof (al_run _ _ _ _ A (f - s) ltac:(lia)) as Hfree.
      replace (s + (f - s)) with f in Hfree by lia. congruence.
  - destruct (lo_shape _ _ Hok' b) as (s & Hb1 & Hs & Hc & Hle); [set_solver|].
    pose proof (wf_total _ (lo_wf _ _ Hok')).
    destruct (pmm_free_pages_spec q s b.2 (lo_wf _ _ Hok') ltac:(lia) ltac:(lia) Hc)
      as (_ & T' & _ & G). rewrite Hb1.
    split; [congruence|]. split; [|intros c Hc'; apply Hn'; set_solver].
    rewrite G by lia. rewrite range_false; [done|]. intros Hin.
    apply (Hn' b); [set_solver|]. unfold block_frames. rewrite Hb1, Z.div_mul by lia. lia.
Qed.

(** ** Properties *)

(** Frame [f] holds a byte of the range from [s] to [e]. *)
Definition touches (s e f : Z) : Prop := exists a, s <= a < e /\ a / 4096 = f.

(** The physical bytes that must not be handed out, as the machine lays them out and independently
    of the conversions of [pmm_init]: the first megabyte; the boot modules, which the loader passes
    by their address in its direct map; the kernel image, which is linked at [TSUKASA_VA_KERNEL_BASE]
    above its physical address under a loader without direct map, and at its physical address under
    Multiboot.  Where a loader with a direct map puts the kernel image no field of the boot record
    says (see [pmm_init_kernel_not_reserved]). *)
Inductive must_keep (kernel_start kernel_end : Z) (bv : boot_view) : Z -> Z -> Prop :=
  | keep_low : must_keep kernel_start kernel_end bv 0 0x100000
  | keep_kernel bi s e :
      as_boot_info bv = Some bi -> tsukasa_boot_info_is_valid (Some bi) = true ->
      bi_hhdm_offset bi = 0 ->
      kernel_start = TSUKASA_VA_KERNEL_BASE + s -> kernel_end = TSUKASA_VA_KERNEL_BASE + e -> 0 <= s ->
      must_keep kernel_start kernel_end bv s e
  | keep_module bi mods i p :
      as_boot_info bv = Some bi -> tsukasa_boot_info_is_valid (Some bi) = true ->
      bi_modules bi = Some mods -> 0 <= i < bi_module_count bi ->
      bm_address (mods i) = bi_hhdm_offset bi + p -> 0 <= p ->
      (bi_hhdm_offset bi = 0 -> p < TSUKASA_VA_KERNEL_BASE) -> p + bm_size (mods i) <= 0xFFFFFFFFFFFFF000 ->
      must_keep kernel_start kernel_end bv p (p + bm_size (mods i))
  | keep_kernel_multiboot :
      tsukasa_boot_info_is_valid (as_boot_info bv) = false -> kernel_end <= 0xFFFFFFFFFFFFF000 ->
      must_keep kernel_start kernel_end bv kernel_start kernel_end
  | keep_module_multiboot mb i :
      tsukasa_boot_info_is_valid (as_boot_info bv) = false ->
      as_multiboot bv = Some mb -> Z.land (mb_flags mb) MULTIBOOT_INFO_MODS <> 0 ->
      0 <= i < mb_mods_count mb -> mod_end (mb_mods mb i) <= 0xFFFFF000 ->
      must_keep kernel_start kernel_end bv (mod_start (mb_mods mb i)) (mod_end (mb_mods mb i)).

Lemma touches_in_region s e f : 0 <= s -> touches s e f <-> in_region s e f.
Proof.
  intros Hs. unfold touches, in_region. split.
  - intros (a & Ha & <-). split; [lia|]. split; apply Z.div_le_mono; lia.
  - intros (Hlt & Hf). exists (Z.max s (f * 4096)). Z.div_mod_to_equations. lia.
Qed.

(** Rounding the start down and the end up keeps every frame of the range. *)
Lemma in_region_widen s e s' e' f : in_region s e f -> s' <= s -> e <= e' -> in_region s' e' f.
Proof. unfold in_region. intros. Z.div_mod_to_equations. lia. Qed.
Lemma page_down_le a : is_u64 a -> page_down a <= a.
Proof. intros. unfold page_down. rewrite land_page_mask by done. Z.div_mod_to_equations. lia. Qed.
Lemma page_up_ge a : 0 <= a <= 0xFFFFFFFFFFFFF000 -> a <= page_up a.
Proof.
  intros Ha. unfold page_up, page_down.
  assert (u64 (u64 (a + PAGE_SIZE) - 1) = a + 4095) as ->.
  { unfold PAGE_SIZE, u64. destruct (decide (a = 0xFFFFFFFFFFFFF000)) as [->|]; [reflexivity|].
    rewrite (Z.mod_small (a + 4096)), Z.mod_small; lia. }
  rewrite land_page_mask by (unfold is_u64; lia). Z.div_mod_to_equations. lia.
Qed.

Lemma boot_addr_to_phys_direct bi a p :
  a = bi_hhdm_offset bi + p -> 0 <= p < 2 ^ 64 -> (bi_hhdm_offset bi = 0 -> p < TSUKASA_VA_KERNEL_BASE) ->
  boot_addr_to_phys (Some bi) a = p.
Proof.
  intros -> Hp Hk. unfold boot_addr_to_phys. destruct (Z.eqb_spec (bi_hhdm_offset bi) 0) as [Hz|Hne]; simpl.
  - specialize (Hk Hz). rewrite Hz, (proj2 (Z.leb_gt _ _)) by (simpl; lia). done.
  - rewrite (proj2 (Z.leb_le _ _)) by lia. rewrite u64_id by (unfold is_u64; lia). lia.
Qed.
Lemma boot_addr_to_phys_window bi p :
  bi_hhdm_offset bi = 0 -> 0 <= p < 0x80000000 ->
  boot_addr_to_phys (Some bi) (TSUKASA_VA_KERNEL_BASE + p) = p.
Proof.
  intros Hz Hp. unfold boot_addr_to_phys. rewrite Hz. simpl.
  rewrite (proj2 (Z.leb_le _ _)) by lia. rewrite u64_id by (unfold is_u64; lia). lia.
Qed.

(** Every range that must be kept lies inside a region [pmm_init] reserves. *)
Lemma must_keep_reserved kernel_start kernel_end bv s e f :
  is_u64 kernel_start -> is_u64 kernel_end -> boot_view_typed bv ->
  must_keep kernel_start kernel_end bv s e -> touches s e f ->
  exists s' e', reserved_region kernel_start kernel_end bv s' e' /\ in_region s' e' f.
Proof.
  intros Hks Hke Hbv Hk (a & Ha & <-).
  assert (forall s' e', s' <= s -> e <= e' -> 0 <= s -> in_region s' e' (a / 4096)) as Hin.
  { intros s' e' Hs He H0. apply (in_region_widen s e); [|done..]. apply touches_in_region; [done|]. by exists a. }
  unfold is_u64 in *. destruct Hk as [|bi s e Hb Hv Hz -> -> Hs|bi mods i p Hb Hv Hm Hi Ea Hp Hl Hend|Hv Hend|mb i Hv Hb Hf Hi Hend].
  - do 2 eexists. split; [apply rs_low|]. by apply Hin.
  - assert (e < 0x80000000) by (unfold TSUKASA_VA_KERNEL_BASE in *; lia).
    do 2 eexists. split; [by apply (rs_kernel_boot _ _ _ bi)|]. rewrite !boot_addr_to_phys_window by (done || lia).
    apply Hin; [lia|apply page_up_ge; lia|lia].
  - do 2 eexists. split; [by apply (rs_module_boot _ _ _ bi mods i)|].
    rewrite (boot_addr_to_phys_direct bi _ p) by (done || lia). rewrite u64_id by (unfold is_u64; lia).
    apply Hin; [apply page_down_le; unfold is_u64; lia|apply page_up_ge; lia|lia].
  - do 2 eexists. split; [by apply rs_kernel_multiboot|].
    apply Hin; [lia|apply page_up_ge; lia|lia].
  - destruct (bt_mbmod bv Hbv mb i Hb) as [Hms Hme]. unfold is_u32 in *.
    do 2 eexists. split; [by apply (rs_module_multiboot _ _ _ mb i)|].
    apply Hin; [apply page_down_le; unfold is_u64; lia| |lia].
    destruct (decide (mod_end (mb_mods mb i) = 0xFFFFF000)) as [->|]; [vm_compute; done|].
    unfold PAGE_SIZE, u32. rewrite (Z.mod_small (_ + 4096)), Z.mod_small by lia. unfold page_down.
    rewrite land_page_mask by (unfold is_u64; lia). Z.div_mod_to_equations. lia.
Qed.

Lemma usable_region_start bv s e : boot_view_typed bv -> usable_region bv s e -> 0 <= s.
Proof.
  intros Hbv [bi ents i Hb He _ _|mb ptr Hb _ _].
  - by apply (bt_ents bv Hbv bi ents i).
  - by apply (bt_mmap bv Hbv mb ptr).
Qed.


(** C2: [pmm_alloc_pages] is first fit and complete.  It returns the address of the lowest run of
    [count] free frames at or above the search hint, marks exactly those frames used and takes
    [count] off the free counter; it returns 0, changing nothing, only when no such run exists. *)
Theorem pmm_alloc_pages_first_fit p count a p' :
  pmm_wf p -> 0 < count < 0x8000000000000000 -> pmm_alloc_pages p count = (a, p') ->
  (exists start, a = start * 4096 /\ pmm_allocated p count start p' /\ pmm_wf p')
  \/ (a = 0 /\ p' = p
      /\ forall s, pmm_first_usable p <= s -> s + count <= pmm_total_frames p ->
                   ~ free_run p s count).
Proof.
  intros W Hc Hal. destruct (pmm_alloc_pages_cases p count a p' W Hc Hal) as [(s & Ha & A)|?]; [|auto].
  left. exists s. split; [done|]. split; [done|]. by apply (pmm_allocated_wf p count s p' W ltac:(lia)).
Qed.

(** C3: no page is handed out twice.  After any sequence of allocations and releases of live blocks
    that starts at an initialised allocator, the live blocks are pairwise disjoint and in use, and
    none of them touches a frame that initialisation reserved. *)
Theorem pmm_live_blocks_disjoint C kernel_start kernel_end bv p0 p q live :
  0 < C <= 0x10000000000 -> is_u64 kernel_start -> is_u64 kernel_end -> boot_view_typed bv ->
  pmm_init C kernel_start kernel_end bv p0 = (0, p) ->
  pmm_run p [] q live ->
  pmm_wf q
  /\ (forall i j b c f, live !! i = Some b -> live !! j = Some c ->
        block_frames b f -> block_frames c f -> i = j)
  /\ (forall b f, b ∈ live -> block_frames b f -> bitmap_get q f = false)
  /\ (forall s e b f, reserved_region kernel_start kernel_end bv s e -> 0 <= f < C ->
        in_region s e f -> b ∈ live -> ~ block_frames b f).
Proof.
  intros HC Hks Hke Hbv Hinit Hrun.
  destruct (pmm_init_ok C kernel_start kernel_end bv HC Hks Hke Hbv p0 p Hinit) as (W & T & R & _).
  assert (live_ok p []) as Hok by (split; [done|set_solver|set_solver|done]).
  pose proof (live_ok_run _ _ _ _ Hrun Hok) as [W' _ U D].
  split; [done|]. split; [done|]. split; [done|].
  intros s e b f Hres Hf Hin. rewrite <- T in Hf.
  apply (pmm_run_reserved p [] q live f Hrun Hok Hf); [|set_solver].
  by apply (R s e); [|rewrite <- T|].
Qed.

(** Releasing an allocation undoes it.  [pmm_free_pages] after [pmm_alloc_pages] restores the
    state of every frame and the accounting counters. *)
Theorem pmm_alloc_free_roundtrip p count a p' :
  pmm_wf p -> 0 < count < 0x8000000000000000 -> pmm_alloc_pages p count = (a, p') -> a <> 0 ->
  let r := pmm_free_pages p' a count in
  pmm_wf r
  /\ (forall f, 0 <= f -> bitmap_get r f = bitmap_get p f)
  /\ pmm_free_page_count r = pmm_free_page_count p
  /\ pmm_used_page_count r = pmm_used_page_count p
  /\ pmm_first_usable r = pmm_first_usable p.
Proof.
  intros W Hc Hal Ha r.
  destruct (pmm_alloc_pages_cases p count a p' W Hc Hal) as [(s & -> & A) | (? & _)]; [|done].
  pose proof (pmm_allocated_wf p count s p' W ltac:(lia) A) as W'.
  destruct (al_range _ _ _ _ A) as (Hs & Hfirst & Hle). pose proof (wf_total _ W).
  destruct (pmm_free_pages_spec p' s count W' ltac:(lia) ltac:(lia) Hc) as (Wr & T & F & G).
  fold r in Wr, T, F, G. rewrite (al_total _ _ _ _ A) in T, G.
  assert (forall f, 0 <= f -> bitmap_get r f = bitmap_get p f) as Hbits.
  { intros f Hf. rewrite G by lia. rewrite (al_set _ _ _ _ A) by lia.
    rewrite Z.min_l by lia. destruct (decide (s <= f < s + count)).
    - rewrite range_true by done. pose proof (al_run _ _ _ _ A (f - s) ltac:(lia)) as E.
      by replace (s + (f - s)) with f in E by lia.
    - by rewrite range_false by done. }
  assert (pmm_free_frames r = pmm_free_frames p) as Hfree.
  { rewrite (wf_free _ Wr), (wf_free _ W). unfold pmm_count. rewrite T.
    apply count_true_ext. intros i Hi. apply Hbits. lia. }
  split; [done|]. split; [done|]. split; [done|]. split.
  - unfold pmm_used_page_count. by rewrite T, Hfree.
  - rewrite F, (al_first _ _ _ _ A). lia.
Qed.

(** ** A concrete machine, for the witnesses of this and the client components

    512 frames; usable RAM from 1 MiB to 0x180000; the kernel in the first four of those frames and
    one boot module of two frames. *)

Definition ex_boot : boot_view :=
  mkBoot (Some (mkBootInfo TSUKASA_BOOT_INFO_MAGIC 0 1
                 (Some (fun _ => mkMemmap 0x100000 0x80000 TSUKASA_BOOT_MEM_USABLE))
                 1 (Some (fun _ => mkModule 0x110000 0x1800))))
         None.
Definition ex_pmm_init : Z * pmm := pmm_init 512 0x100000 0x104000 ex_boot pmm_zero.
Definition ex_pmm : pmm := ex_pmm_init.2.

Lemma ex_boot_typed : boot_view_typed ex_boot.
Proof.
  split; intros; simpl in *; simplify_eq/=; unfold is_u64; try lia; split; unfold is_u32; lia.
Qed.

Lemma ex_pmm_init_eq : pmm_init 512 0x100000 0x104000 ex_boot pmm_zero = (0, ex_pmm).
Proof.
  unfold ex_pmm, ex_pmm_init. destruct (pmm_init 512 0x100000 0x104000 ex_boot pmm_zero) eqn:E.
  f_equal. apply (f_equal fst) in E. vm_compute in E. by symmetry.
Qed.

Lemma ex_pmm_wf : pmm_wf ex_pmm.
Proof.
  apply (pmm_init_ok 512 0x100000 0x104000 ex_boot ltac:(lia) ltac:(unfold is_u64; lia)
           ltac:(unfold is_u64; lia) ex_boot_typed pmm_zero ex_pmm ex_pmm_init_eq).
Qed.

Example ex_pmm_counters :
  (pmm_total_page_count ex_pmm, pmm_free_page_count ex_pmm, pmm_first_usable ex_pmm) = (512, 122, 260).
Proof. vm_compute. reflexivity. Qed.


(** The same machine booted by a loader with a direct map at 0xFFFF800000000000: the module is
    passed by its direct-map address and kept, but the kernel, linked at
    [TSUKASA_VA_KERNEL_BASE + 0x100000], is looked up in the direct map, which starts below it; its
    four frames are taken for far-away ones and, if the memory map calls them usable, are free. *)
Definition ex_limine : boot_view :=
  mkBoot (Some (mkBootInfo TSUKASA_BOOT_INFO_MAGIC 0xFFFF800000000000 1
                 (Some (fun _ => mkMemmap 0x100000 0x80000 TSUKASA_BOOT_MEM_USABLE))
                 1 (Some (fun _ => mkModule 0xFFFF800000110000 0x1800))))
         None.
Definition ex_limine_init : Z * pmm :=
  pmm_init 512 (TSUKASA_VA_KERNEL_BASE + 0x100000) (TSUKASA_VA_KERNEL_BASE + 0x104000) ex_limine pmm_zero.

Lemma pmm_init_kernel_not_reserved :
  ex_limine_init.1 = 0
  /\ must_keep (TSUKASA_VA_KERNEL_BASE + 0x100000) (TSUKASA_VA_KERNEL_BASE + 0x104000) ex_limine
       0x110000 0x111800
  /\ bitmap_get ex_limine_init.2 0x110 = false /\ bitmap_get ex_limine_init.2 0x111 = false
  /\ bitmap_get ex_limine_init.2 0x100 = true /\ bitmap_get ex_limine_init.2 0x103 = true.
Proof.
  split; [vm_compute; reflexivity|]. split; [|vm_compute; repeat split].
  apply (keep_module _ _ ex_limine (default (mkBootInfo 0 0 0 None 0 None) (as_boot_info ex_limine))
           (fun _ => mkModule 0xFFFF800000110000 0x1800) 0 0x110000); simpl; done || lia.
Qed.

(** Three pages are taken from frame 260, just above the kernel. *)
Definition ex_alloc3 : Z * pmm := pmm_alloc_pages ex_pmm 3.

Lemma ex_alloc3_eq : pmm_alloc_pages ex_pmm 3 = (260 * 4096, ex_alloc3.2).
Proof.
  unfold ex_alloc3. destruct (pmm_alloc_pages ex_pmm 3) eqn:E. f_equal.
  apply (f_equal fst) in E. vm_compute in E. by symmetry.
Qed.

Lemma pmm_alloc_pages_first_fit_witness :
  (exists start, 260 * 4096 = start * 4096 /\ pmm_allocated ex_pmm 3 start ex_alloc3.2
                 /\ pmm_wf ex_alloc3.2)
  \/ (260 * 4096 = 0 /\ ex_alloc3.2 = ex_pmm
      /\ forall s, pmm_first_usable ex_pmm <= s -> s + 3 <= pmm_total_frames ex_pmm ->
                   ~ free_run ex_pmm s 3).
Proof. apply (pmm_alloc_pages_first_fit ex_pmm 3); [apply ex_pmm_wf|lia|apply ex_alloc3_eq]. Defined.

Lemma ex_run : pmm_run ex_pmm [] ex_alloc3.2 [(260 * 4096, 3)].
Proof.
  apply (run_alloc ex_pmm [] ex_pmm [] 3 (260 * 4096) ex_alloc3.2); [constructor|lia|apply ex_alloc3_eq].
Qed.

Lemma pmm_live_blocks_disjoint_witness :
  pmm_wf ex_alloc3.2
  /\ (forall i j b c f, [(260 * 4096, 3)] !! i = Some b -> [(260 * 4096, 3)] !! j = Some c ->
        block_frames b f -> block_frames c f -> i = j)
  /\ (forall b f, b ∈ [(260 * 4096, 3)] -> block_frames b f -> bitmap_get ex_alloc3.2 f = false)
  /\ (forall s e b f, reserved_region 0x100000 0x104000 ex_boot s e -> 0 <= f < 512 ->
        in_region s e f -> b ∈ [(260 * 4096, 3)] -> ~ block_frames b f).
Proof.
  apply (pmm_live_blocks_disjoint 512 0x100000 0x104000 ex_boot pmm_zero ex_pmm).
  - lia.
  - unfold is_u64; lia.
  - unfold is_u64; lia.
  - apply ex_boot_typed.
  - apply ex_pmm_init_eq.
  - apply ex_run.
Defined.

Lemma pmm_alloc_free_roundtrip_witness :
  let r := pmm_free_pages ex_alloc3.2 (260 * 4096) 3 in
  pmm_wf r
  /\ (forall f, 0 <= f -> bitmap_get r f = bitmap_get ex_pmm f)
  /\ pmm_free_page_count r = pmm_free_page_count ex_pmm
  /\ pmm_used_page_count r = pmm_used_page_count ex_pmm
  /\ pmm_first_usable r = pmm_first_usable ex_pmm.
Proof.
  apply (pmm_alloc_free_roundtrip ex_pmm 3); [apply ex_pmm_wf|lia|apply ex_alloc3_eq|lia].
Defined.
