(* ===== verification/Paging.v ===== *)
(** Paging contracts and x86_64 page tables: [src/include/paging.h], [src/mm/vmm_x64.h] and the
    lower half of [src/mm/vmm_x64.c].

    The machine state of the memory manager is the frame allocator, the page-table memory, CR3, the
    direct-map offset and the log of TLB operations.  [table_virt] turns a physical table address
    into a pointer through the boot loader's direct map, which is linear over physical memory; the
    model identifies a [page_table_t *] with the physical address of the table, and memory is a map
    from physical qword addresses to values (an absent qword reads 0). *)

From S2P Require Import Prelude Pmm.

(** ** Constants *)

Definition PAGING_MAP_READ : Z := 0x1.
Definition PAGING_MAP_WRITE : Z := 0x2.
Definition PAGING_MAP_EXEC : Z := 0x4.
Definition PAGING_MAP_USER : Z := 0x8.
Definition PAGING_MAP_GLOBAL : Z := 0x10.
Definition PAGING_MAP_DEVICE : Z := 0x20.

Definition PAGING_USER_VA_MIN : Z := 0x0000000000100000.
Definition PAGING_USER_VA_MAX : Z := 0x00007FFFFFFFF000.
Definition PAGING_KERNEL_VA_MIN : Z := 0xFFFF800000000000.
Definition PAGING_KERNEL_VA_MAX : Z := 0xFFFFFFFFFFFFF000.

Definition VMM_X64_PTE_PRESENT : Z := 0x1.
Definition VMM_X64_PTE_WRITABLE : Z := 0x2.
Definition VMM_X64_PTE_USER : Z := 0x4.
Definition VMM_X64_PTE_WRITE_THROUGH : Z := 0x8.
Definition VMM_X64_PTE_CACHE_DISABLE : Z := 0x10.
Definition VMM_X64_PTE_GLOBAL : Z := 0x100.
Definition VMM_X64_PTE_NO_EXEC : Z := 0x8000000000000000.
Definition VMM_X64_ADDR_MASK : Z := 0x000FFFFFFFFFF000.
Definition VMM_X64_TLB_INVLPG_THRESHOLD : Z := 32.

(** [flags & bit] as a truth value. *)
Definition has_flag (flags bit : Z) : bool := negb (Z.land flags bit =? 0).

(** ** Address ranges *)

Definition paging_is_page_aligned (addr : Z) : bool := Z.land addr (PAGE_SIZE - 1) =? 0.

Definition paging_range_is_user (addr size : Z) : bool :=
  if size =? 0 then false else
  let start := addr in
  let end_ := u64 (u64 (start + size) - 1) in
  if end_ <? start then false
  else (PAGING_USER_VA_MIN <=? start) && (end_ <=? PAGING_USER_VA_MAX).

Definition paging_range_is_kernel (addr size : Z) : bool :=
  if size =? 0 then false else
  let start := addr in
  let end_ := u64 (u64 (start + size) - 1) in
  if end_ <? start then false
  else (PAGING_KERNEL_VA_MIN <=? start) && (end_ <=? PAGING_KERNEL_VA_MAX).

(** ** Machine state *)

Inductive tlb_op : Type :=
  | Invlpg (addr : Z)
  | WriteCr3 (cr3 : Z).

Record machine := mkMachine {
  m_pmm : pmm;
  m_mem : gmap Z Z;          (* physical qword memory *)
  m_cr3 : Z;
  g_hhdm_offset : Z;
  m_tlb : list tlb_op;       (* TLB operations, most recent first *)
}.
#[export] Instance machine_rebuild : Rebuild machine := fun m =>
  mkMachine (m_pmm m) (m_mem m) (m_cr3 m) (g_hhdm_offset m) (m_tlb m).

Definition read_cr3 (m : machine) : Z := m_cr3 m.
Definition write_cr3 (cr3 : Z) (m : machine) : machine :=
  m <| m_cr3 := cr3 |> <| m_tlb := WriteCr3 cr3 :: m_tlb m |>.
Definition invlpg_addr (addr : Z) (m : machine) : machine :=
  m <| m_tlb := Invlpg addr :: m_tlb m |>.

Definition table_virt (phys : Z) : Z := Z.land phys VMM_X64_ADDR_MASK.

(** [table->entries[i]] *)
Definition entry (m : machine) (table i : Z) : Z := default 0 (m_mem m !! (table + 8 * i)).
Definition set_entry (m : machine) (table i v : Z) : machine :=
  m <| m_mem := <[table + 8 * i := v]> (m_mem m) |>.

Definition alloc_table_phys (m : machine) : Z * machine :=
  let '(phys, p) := pmm_alloc_pages (m_pmm m) 1 in
  let m := m <| m_pmm := p |> in
  if phys =? 0 then (0, m) else
  let tbl := table_virt phys in
  (phys, for_up 512 0 (fun i m => set_entry m tbl i 0) m).

Definition vmm_phys_to_virt (m : machine) (phys_addr : Z) : Z :=
  if negb (g_hhdm_offset m =? 0) then u64 (phys_addr + g_hhdm_offset m) else phys_addr.

Definition vmm_virt_to_phys (m : machine) (virt_addr : Z) : Z :=
  if negb (g_hhdm_offset m =? 0) && (g_hhdm_offset m <=? virt_addr)
  then u64 (virt_addr - g_hhdm_offset m) else virt_addr.

Definition vmm_get_current_pml4 (m : machine) : Z := Z.land (read_cr3 m) VMM_X64_ADDR_MASK.

Definition vmm_switch_pml4 (pml4_phys : Z) (m : machine) : machine :=
  if (pml4_phys =? 0) || negb (paging_is_page_aligned pml4_phys) then m
  else write_cr3 (Z.land pml4_phys VMM_X64_ADDR_MASK) m.

(** ** Request validation and flags *)

(** [span > SIZE_MAX] is false for every 64-bit [span]. *)
Definition validate_span (virt_addr phys_addr page_count : Z) (has_phys : bool) : Z :=
  if page_count =? 0 then -1 else
  if negb (paging_is_page_aligned virt_addr) then -1 else
  if has_phys && negb (paging_is_page_aligned phys_addr) then -1 else
  let span := u64 (page_count * PAGE_SIZE) in
  if (span =? 0) || (U64_MAX <? span) then -1 else
  let user_range := paging_range_is_user virt_addr span in
  let kernel_range := paging_range_is_kernel virt_addr span in
  if negb user_range && negb kernel_range then -1 else 0.

Definition validate_map_request (virt_addr phys_addr page_count map_flags : Z) : Z :=
  if negb (has_flag map_flags PAGING_MAP_READ) then -1 else
  if negb (validate_span virt_addr phys_addr page_count true =? 0) then -1 else
  let span := u64 (page_count * PAGE_SIZE) in
  let is_user := paging_range_is_user virt_addr span in
  if is_user && negb (has_flag map_flags PAGING_MAP_USER) then -1 else
  if negb is_user && has_flag map_flags PAGING_MAP_USER then -1 else 0.

Definition pte_flags_from_map (map_flags : Z) : Z :=
  let pte := 0 in
  let pte := if has_flag map_flags PAGING_MAP_WRITE then Z.lor pte VMM_X64_PTE_WRITABLE else pte in
  let pte := if has_flag map_flags PAGING_MAP_USER then Z.lor pte VMM_X64_PTE_USER else pte in
  let pte := if has_flag map_flags PAGING_MAP_GLOBAL then Z.lor pte VMM_X64_PTE_GLOBAL else pte in
  let pte := if has_flag map_flags PAGING_MAP_DEVICE
             then Z.lor pte (Z.lor VMM_X64_PTE_CACHE_DISABLE VMM_X64_PTE_WRITE_THROUGH) else pte in
  if negb (has_flag map_flags PAGING_MAP_EXEC) then Z.lor pte VMM_X64_PTE_NO_EXEC else pte.

Definition map_flags_from_legacy (legacy_flags : Z) : Z :=
  let map := PAGING_MAP_READ in
  let map := if has_flag legacy_flags VMM_X64_PTE_WRITABLE then Z.lor map PAGING_MAP_WRITE else map in
  let map := if has_flag legacy_flags VMM_X64_PTE_USER then Z.lor map PAGING_MAP_USER else map in
  let map := if negb (has_flag legacy_flags VMM_X64_PTE_NO_EXEC)
             then Z.lor map PAGING_MAP_EXEC else map in
  let map := if has_flag legacy_flags VMM_X64_PTE_GLOBAL then Z.lor map PAGING_MAP_GLOBAL else map in
  if has_flag legacy_flags (Z.lor VMM_X64_PTE_CACHE_DISABLE VMM_X64_PTE_WRITE_THROUGH)
  then Z.lor map PAGING_MAP_DEVICE else map.
