(* ===== verification/Vmm.v ===== *)
(** Address spaces: the public half of [src/mm/vmm_x64.c].

    [walk_to_pt] and the operations built on it: create, clone and destroy an address space; map,
    unmap, protect and query pages; the single-page and MMIO helpers.  Every operation returns its C
    result and the new machine. *)

From S2P Require Import Prelude Pmm Paging.

(** ** Page-table walk *)

Definition pml4_index (va : Z) : Z := Z.land (Z.shiftr va 39) 0x1FF.
Definition pdpt_index (va : Z) : Z := Z.land (Z.shiftr va 30) 0x1FF.
Definition pd_index (va : Z) : Z := Z.land (Z.shiftr va 21) 0x1FF.
Definition pt_index (va : Z) : Z := Z.land (Z.shiftr va 12) 0x1FF.

(** One level of the walk: follow [table->entries[idx]], allocating the next table on demand. *)
Definition walk_level (m : machine) (table idx : Z) (create user : bool) (table_flags : Z)
  : option Z * machine :=
  if negb (has_flag (entry m table idx) VMM_X64_PTE_PRESENT) then
    if negb create then (None, m) else
    let '(new_table, m) := alloc_table_phys m in
    if new_table =? 0 then (None, m) else
    let m := set_entry m table idx (Z.lor new_table table_flags) in
    (Some (table_virt (entry m table idx)), m)
  else if user && negb (has_flag (entry m table idx) VMM_X64_PTE_USER) then (None, m)
  else (Some (table_virt (entry m table idx)), m).

Definition walk_to_pt (m : machine) (pml4_phys virt_addr : Z) (create user : bool)
  : option Z * machine :=
  if pml4_phys =? 0 then (None, m) else
  let pml4 := table_virt pml4_phys in
  let table_flags := Z.lor VMM_X64_PTE_PRESENT VMM_X64_PTE_WRITABLE in
  let table_flags := if user then Z.lor table_flags VMM_X64_PTE_USER else table_flags in
  match walk_level m pml4 (pml4_index virt_addr) create user table_flags with
  | (None, m) => (None, m)
  | (Some pdpt, m) =>
      match walk_level m pdpt (pdpt_index virt_addr) create user table_flags with
      | (None, m) => (None, m)
      | (Some pd, m) => walk_level m pd (pd_index virt_addr) create user table_flags
      end
  end.

Definition tlb_flush_range (pml4_phys virt_addr page_count : Z) (m : machine) : machine :=
  if page_count =? 0 then m else
  let current_pml4 := Z.land (read_cr3 m) VMM_X64_ADDR_MASK in
  if negb (current_pml4 =? Z.land pml4_phys VMM_X64_ADDR_MASK) then m else
  if page_count =? 1 then invlpg_addr virt_addr m else
  if page_count <=? VMM_X64_TLB_INVLPG_THRESHOLD then
    for_up (Z.to_nat page_count) 0
      (fun i m => invlpg_addr (u64 (virt_addr + u64 (i * PAGE_SIZE))) m) m
  else write_cr3 current_pml4 m.

(** ** Address-space lifetime *)

Definition vmm_create_address_space (m : machine) : option Z * machine :=
  let '(new_pml4_phys, m) := alloc_table_phys m in
  if new_pml4_phys =? 0 then (None, m) else
  let kernel_pml4_phys := vmm_get_current_pml4 m in
  if kernel_pml4_phys =? 0 then
    (None, m <| m_pmm := pmm_free_pages (m_pmm m) new_pml4_phys 1 |>)
  else
    let new_pml4 := table_virt new_pml4_phys in
    let kernel_pml4 := table_virt kernel_pml4_phys in
    (Some new_pml4_phys,
     for_up 256 256 (fun i m => set_entry m new_pml4 i (entry m kernel_pml4 i)) m).

Definition vmm_clone_address_space (m : machine) (src_pml4_phys : Z) : option Z * machine :=
  if src_pml4_phys =? 0 then (None, m) else
  let '(new_pml4_phys, m) := alloc_table_phys m in
  if new_pml4_phys =? 0 then (None, m) else
  let new_pml4 := table_virt new_pml4_phys in
  let src_pml4 := table_virt src_pml4_phys in
  (Some new_pml4_phys,
   for_up 256 256 (fun i m => set_entry m new_pml4 i (entry m src_pml4 i)) m).

Definition free_page (phys : Z) (m : machine) : machine :=
  m <| m_pmm := pmm_free_pages (m_pmm m) phys 1 |>.

Definition destroy_pd (pd : Z) (m : machine) : machine :=
  for_up 512 0 (fun pd_idx m =>
    let pt_entry := entry m pd pd_idx in
    if negb (has_flag pt_entry VMM_X64_PTE_PRESENT) then m else
    if has_flag pt_entry 0x80 then m else
    let pt_phys := Z.land pt_entry VMM_X64_ADDR_MASK in
    if negb (pt_phys =? 0) then free_page pt_phys m else m) m.

Definition destroy_pdpt (pdpt : Z) (m : machine) : machine :=
  for_up 512 0 (fun pdpt_idx m =>
    let pd_entry := entry m pdpt pdpt_idx in
    if negb (has_flag pd_entry VMM_X64_PTE_PRESENT) then m else
    let pd_phys := Z.land pd_entry VMM_X64_ADDR_MASK in
    free_page pd_phys (destroy_pd (table_virt pd_phys) m)) m.

Definition vmm_destroy_address_space (m : machine) (pml4_phys : Z) : Z * machine :=
  if (pml4_phys =? 0) || negb (paging_is_page_aligned pml4_phys) then (-1, m) else
  if Z.land pml4_phys VMM_X64_ADDR_MASK =? vmm_get_current_pml4 m then (-1, m) else
  let pml4 := table_virt pml4_phys in
  let m := for_up 256 0 (fun pml4_idx m =>
    let pdpt_entry := entry m pml4 pml4_idx in
    if negb (has_flag pdpt_entry VMM_X64_PTE_PRESENT) then m else
    let pdpt_phys := Z.land pdpt_entry VMM_X64_ADDR_MASK in
    free_page pdpt_phys (destroy_pdpt (table_virt pdpt_phys) m)) m in
  (0, free_page pml4_phys m).

(** ** Queries and updates *)

(** [i * PAGE_SIZE] past [base], in 64-bit arithmetic. *)
Definition page_at (base i : Z) : Z := u64 (base + u64 (i * PAGE_SIZE)).

(** [Some (phys, flags)] for the C result 0 with its two out-parameters, [None] for -1. *)
Definition vmm_query_page (m : machine) (pml4_phys virt_addr : Z) : option (Z * Z) :=
  if (pml4_phys =? 0) || negb (paging_is_page_aligned virt_addr) then None else
  if negb (paging_range_is_user virt_addr PAGE_SIZE)
     && negb (paging_range_is_kernel virt_addr PAGE_SIZE) then None else
  let user := paging_range_is_user virt_addr PAGE_SIZE in
  match walk_to_pt m pml4_phys virt_addr false user with
  | (None, _) => None
  | (Some pt, _) =>
      let e := entry m pt (pt_index virt_addr) in
      if negb (has_flag e VMM_X64_PTE_PRESENT) then None
      else Some (Z.land e VMM_X64_ADDR_MASK, Z.land e (u64 (Z.lnot VMM_X64_ADDR_MASK)))
  end.

(** The first loop of [vmm_unmap_pages]: every page of the span is mapped. *)
Fixpoint all_mapped (n : nat) (m : machine) (pml4_phys virt_addr i : Z) : bool :=
  match n with
  | O => true
  | S n' => match vmm_query_page m pml4_phys (page_at virt_addr i) with
            | None => false
            | Some _ => all_mapped n' m pml4_phys virt_addr (i + 1)
            end
  end.

(** The second loop: clear the entries. *)
Fixpoint clear_pages (n : nat) (m : machine) (pml4_phys virt_addr i : Z) (user : bool) : Z * machine :=
  match n with
  | O => (0, m)
  | S n' =>
      let va := page_at virt_addr i in
      match walk_to_pt m pml4_phys va false user with
      | (None, m) => (-1, m)
      | (Some pt, m) => clear_pages n' (set_entry m pt (pt_index va) 0) pml4_phys virt_addr (i + 1) user
      end
  end.

Definition vmm_unmap_pages (m : machine) (pml4_phys virt_addr page_count : Z) : Z * machine :=
  if pml4_phys =? 0 then (-1, m) else
  if negb (validate_span virt_addr 0 page_count false =? 0) then (-1, m) else
  let user := paging_range_is_user virt_addr (u64 (page_count * PAGE_SIZE)) in
  if negb (all_mapped (Z.to_nat page_count) m pml4_phys virt_addr 0) then (-1, m) else
  match clear_pages (Z.to_nat page_count) m pml4_phys virt_addr 0 user with
  | (0, m) => (0, tlb_flush_range pml4_phys virt_addr page_count m)
  | (rc, m) => (rc, m)
  end.

(** The loop of [vmm_map_pages]; a failure at page [i] unmaps the [i] pages mapped so far. *)
Fixpoint map_pages_loop (n : nat) (m : machine) (pml4_phys virt_addr phys_addr i : Z)
  (user : bool) (pte_flags : Z) : Z * machine :=
  match n with
  | O => (0, m)
  | S n' =>
      let va := page_at virt_addr i in
      let pa := page_at phys_addr i in
      let undo m := if 0 <? i then (vmm_unmap_pages m pml4_phys virt_addr i).2 else m in
      match walk_to_pt m pml4_phys va true user with
      | (None, m) => (-1, undo m)
      | (Some pt, m) =>
          if has_flag (entry m pt (pt_index va)) VMM_X64_PTE_PRESENT then (-1, undo m)
          else
            let e := Z.lor (Z.lor (Z.land pa VMM_X64_ADDR_MASK) pte_flags) VMM_X64_PTE_PRESENT in
            map_pages_loop n' (set_entry m pt (pt_index va) e) pml4_phys virt_addr phys_addr (i + 1)
              user pte_flags
      end
  end.

Definition vmm_map_pages (m : machine) (pml4_phys virt_addr phys_addr page_count map_flags : Z)
  : Z * machine :=
  if pml4_phys =? 0 then (-1, m) else
  if negb (validate_map_request virt_addr phys_addr page_count map_flags =? 0) then (-1, m) else
  let pte_flags := pte_flags_from_map map_flags in
  let user := has_flag map_flags PAGING_MAP_USER in
  match map_pages_loop (Z.to_nat page_count) m pml4_phys virt_addr phys_addr 0 user pte_flags with
  | (0, m) => (0, tlb_flush_range pml4_phys virt_addr page_count m)
  | (rc, m) => (rc, m)
  end.

Fixpoint protect_pages_loop (n : nat) (m : machine) (pml4_phys virt_addr i : Z) (user : bool)
  (pte_flags : Z) : Z * machine :=
  match n with
  | O => (0, m)
  | S n' =>
      let va := page_at virt_addr i in
      match walk_to_pt m pml4_phys va false user with
      | (None, m) => (-1, m)
      | (Some pt, m) =>
          let e := entry m pt (pt_index va) in
          if negb (has_flag e VMM_X64_PTE_PRESENT) then (-1, m)
          else
            let e' := Z.lor (Z.lor (Z.land e VMM_X64_ADDR_MASK) pte_flags) VMM_X64_PTE_PRESENT in
            protect_pages_loop n' (set_entry m pt (pt_index va) e') pml4_phys virt_addr (i + 1)
              user pte_flags
      end
  end.

Definition vmm_protect_pages (m : machine) (pml4_phys virt_addr page_count map_flags : Z) : Z * machine :=
  if pml4_phys =? 0 then (-1, m) else
  if negb (has_flag map_flags PAGING_MAP_READ) then (-1, m) else
  if negb (validate_span virt_addr 0 page_count false =? 0) then (-1, m) else
  let user := has_flag map_flags PAGING_MAP_USER in
  if user && negb (paging_range_is_user virt_addr (u64 (page_count * PAGE_SIZE))) then (-1, m) else
  if negb user && negb (paging_range_is_kernel virt_addr (u64 (page_count * PAGE_SIZE))) then (-1, m)
  else
  let pte_flags := pte_flags_from_map map_flags in
  match protect_pages_loop (Z.to_nat page_count) m pml4_phys virt_addr 0 user pte_flags with
  | (0, m) => (0, tlb_flush_range pml4_phys virt_addr page_count m)
  | (rc, m) => (rc, m)
  end.

Definition vmm_map_page (m : machine) (virt_addr phys_addr flags : Z) : Z * machine :=
  vmm_map_pages m (vmm_get_current_pml4 m) virt_addr phys_addr 1 (map_flags_from_legacy flags).

Definition vmm_unmap_page (m : machine) (virt_addr : Z) : Z * machine :=
  vmm_unmap_pages m (vmm_get_current_pml4 m) virt_addr 1.

(** The loop of [vmm_map_io_region]: pages already mapped to the right frame are kept. *)
Fixpoint map_io_loop (n : nat) (m : machine) (pml4_phys virt_page phys_page i : Z) : Z * machine :=
  match n with
  | O => (0, m)
  | S n' =>
      let va := page_at virt_page i in
      let pa := page_at phys_page i in
      match vmm_query_page m pml4_phys va with
      | Some (existing_pa, _) =>
          if negb (Z.land existing_pa VMM_X64_ADDR_MASK =? Z.land pa VMM_X64_ADDR_MASK) then (-1, m)
          else map_io_loop n' m pml4_phys virt_page phys_page (i + 1)
      | None =>
          match vmm_map_pages m pml4_phys va pa 1
                  (Z.lor (Z.lor PAGING_MAP_READ PAGING_MAP_WRITE)
                         (Z.lor PAGING_MAP_GLOBAL PAGING_MAP_DEVICE)) with
          | (0, m) => map_io_loop n' m pml4_phys virt_page phys_page (i + 1)
          | (_, m) => (-1, m)
          end
      end
  end.

(** [Some virt_base] is the C result 0 with its out-parameter. *)
Definition vmm_map_io_region (m : machine) (phys_base size : Z) : option Z * machine :=
  if size =? 0 then (None, m) else
  if u64 (u64 (phys_base + size) - 1) <? phys_base then (None, m) else
  let phys_page := page_down phys_base in
  let page_offset := phys_base - phys_page in
  let phys_end := u64 (u64 (phys_base + size) - 1) in
  let page_count := u64 ((phys_end - phys_page) / PAGE_SIZE + 1) in
  let virt_page := vmm_phys_to_virt m phys_page in
  let pml4_phys := vmm_get_current_pml4 m in
  if (pml4_phys =? 0) || (page_count =? 0) then (None, m) else
  if negb (paging_range_is_kernel virt_page (u64 (page_count * PAGE_SIZE))) then (None, m) else
  match map_io_loop (Z.to_nat page_count) m pml4_phys virt_page phys_page 0 with
  | (0, m) => (Some (u64 (virt_page + page_offset)), m)
  | (_, m) => (None, m)
  end.

(** * Page-table trees *)

(** A table address: page aligned, inside the 52-bit physical space. *)
Definition table_addr (t : Z) : Prop := 0 < t < 0x10000000000000 /\ t mod 4096 = 0.
Definition slot (i : Z) : Prop := 0 <= i < 512.

Lemma addr_mask_spec a : is_u64 a -> Z.land a VMM_X64_ADDR_MASK = (a mod 2 ^ 52) / 4096 * 4096.
Proof.
  intros Ha. change VMM_X64_ADDR_MASK with (Z.land (2 ^ 52 - 1) (2 ^ 64 - 2 ^ 12)).
  rewrite Z.land_assoc, land_ones_mod by lia.
  rewrite (land_high_mask _ 12 64); [done|lia|].
  pose proof (Z.mod_pos_bound a (2 ^ 52) ltac:(lia)). lia.
Qed.

Lemma table_virt_id t : table_addr t -> table_virt t = t.
Proof.
  intros [Ht Ha]. unfold table_virt. rewrite addr_mask_spec by wsolve.
  rewrite Z.mod_small by lia. pose proof (Z.div_mod t 4096). lia.
Qed.

Lemma land_lor_low t f mask : Z.land f mask = 0 -> Z.land (Z.lor t f) mask = Z.land t mask.
Proof. intros H. rewrite Z.land_lor_distr_l, H. apply Z.lor_0_r. Qed.

Lemma entry_set_entry m t i v t' j :
  table_addr t -> table_addr t' -> slot i -> slot j ->
  entry (set_entry m t i v) t' j = if decide (t = t' /\ i = j) then v else entry m t' j.
Proof.
  intros [H1 A1] [H2 A2] Hi Hj. unfold entry, set_entry, slot in *. fields. simpl.
  case_decide as Hd.
  - destruct Hd as [-> ->]. by rewrite lookup_insert_eq.
  - rewrite lookup_insert_ne; [done|]. intros Heq. apply Hd. Z.div_mod_to_equations. lia.
Qed.

Lemma entry_set_entry_eq m t i v :
  table_addr t -> slot i -> entry (set_entry m t i v) t i = v.
Proof. intros. rewrite entry_set_entry by done. by rewrite decide_True. Qed.

(** What one entry points to. *)
Definition step (m : machine) (t i : Z) : option Z :=
  if has_flag (entry m t i) VMM_X64_PTE_PRESENT then Some (table_virt (entry m t i)) else None.

(** The table at the end of a path of slots. *)
Fixpoint descend (m : machine) (t : Z) (path : list Z) : option Z :=
  match path with
  | [] => Some t
  | i :: path' => match step m t i with Some t' => descend m t' path' | None => None end
  end.

Lemma descend_snoc m t path i :
  descend m t (path ++ [i]) = match descend m t path with Some u => step m u i | None => None end.
Proof.
  revert t. induction path as [|j path IH]; intros t; simpl.
  - by destruct (step m t i).
  - destruct (step m t j); [apply IH|done].
Qed.

(** Paths of the user half: at most three slots, the first below 256. *)
Definition user_path (path : list Z) : Prop :=
  (length path <= 3)%nat /\ Forall slot path /\ (forall i, path !! 0%nat = Some i -> i < 256).

Lemma user_path_snoc_inv path i :
  user_path (path ++ [i]) -> user_path path /\ slot i /\ (length path <= 2)%nat.
Proof.
  intros (Hl & Hs & Hh). rewrite length_app in Hl. simpl in Hl.
  apply Forall_app in Hs as [Hs Hi]. apply Forall_inv in Hi.
  split; [|split; [done|lia]]. split; [lia|]. split; [done|].
  intros j Hj. apply Hh. by apply lookup_app_l_Some.
Qed.

Lemma user_path_snoc path i :
  user_path path -> slot i -> (length path <= 2)%nat -> (path = [] -> i < 256) ->
  user_path (path ++ [i]).
Proof.
  intros (Hl & Hs & Hh) Hi Hlen H256. split; [rewrite length_app; simpl; lia|]. split.
  - apply Forall_app. split; [done|]. by apply Forall_singleton.
  - intros j. destruct path as [|k path]; simpl; [intros [= <-]; by apply H256|apply Hh].
Qed.

(** The invariant of the user half of an address space: the tables are distinct, well placed, and
    owned (not free in the frame allocator). *)
Record space_wf (m : machine) (root : Z) : Prop := {
  sw_pmm : pmm_wf (m_pmm m);
  sw_table : forall path t, user_path path -> descend m root path = Some t ->
    table_addr t /\ t / 4096 < pmm_total_frames (m_pmm m)
    /\ bitmap_get (m_pmm m) (t / 4096) = false;
  sw_inj : forall p q t, user_path p -> user_path q ->
    descend m root p = Some t -> descend m root q = Some t -> p = q;
}.

Lemma user_path_nil : user_path [].
Proof. split; [simpl; lia|]. split; [constructor|done]. Qed.
#[export] Hint Resolve user_path_nil : tsk.

Lemma space_wf_root m root : space_wf m root -> table_addr root.
Proof. intros W. apply (sw_table _ _ W [] root); [apply user_path_nil|done]. Qed.

(** Writing an entry of a last-level table leaves the tree alone. *)
Lemma descend_leaf_write m root p0 t i v q :
  space_wf m root -> user_path p0 -> length p0 = 3%nat -> descend m root p0 = Some t -> slot i ->
  user_path q -> descend (set_entry m t i v) root q = descend m root q.
Proof.
  intros W Hp0 Hlen Ht Hi. induction q as [|j q IH] using rev_ind; intros Hq; [done|].
  apply user_path_snoc_inv in Hq as (Hq & Hj & Hl). rewrite !descend_snoc, IH by done.
  destruct (descend m root q) as [u|] eqn:Hu; [|done].
  unfold step. rewrite entry_set_entry; [|by apply (sw_table _ _ W p0)|by apply (sw_table _ _ W q)|done|done].
  rewrite decide_False; [done|]. intros [-> _].
  assert (p0 = q) as -> by (by apply (sw_inj _ _ W p0 q u)). lia.
Qed.

Lemma space_wf_leaf_write m root p0 t i v :
  space_wf m root -> user_path p0 -> length p0 = 3%nat -> descend m root p0 = Some t -> slot i ->
  space_wf (set_entry m t i v) root.
Proof.
  intros W Hp0 Hlen Ht Hi. pose proof (descend_leaf_write m root p0 t i v) as Hd.
  split; [apply W| |].
  - intros path u Hp Hu. rewrite Hd in Hu by done. by apply (sw_table _ _ W path).
  - intros p q u Hp Hq Hu1 Hu2. rewrite Hd in Hu1, Hu2 by done. by apply (sw_inj _ _ W p q u).
Qed.

(** ** Allocating a table *)

(** Registers and TLB log are untouched. *)
Definition same_regs (m m' : machine) : Prop :=
  m_cr3 m' = m_cr3 m /\ g_hhdm_offset m' = g_hhdm_offset m /\ m_tlb m' = m_tlb m.

#[export] Instance same_regs_preorder : PreOrder same_regs.
Proof. split; [by repeat split|]. intros a b c (?&?&?) (?&?&?). repeat split; congruence. Qed.

Lemma set_entry_regs m t i v : same_regs m (set_entry m t i v).
Proof. by repeat split. Qed.

(** The frame of [t] was free in [p] and is taken in [p']; no other frame changes. *)
Record frame_taken (p p' : pmm) (t : Z) : Prop := {
  ft_free : bitmap_get p (t / 4096) = true;
  ft_bits : forall f, 0 <= f -> bitmap_get p' f = if f =? t / 4096 then false else bitmap_get p f;
  ft_total : pmm_total_frames p' = pmm_total_frames p;
  ft_wf : pmm_wf p';
}.

Record table_allocated (m m' : machine) (new : Z) : Prop := {
  ta_addr : table_addr new;
  ta_total : new / 4096 < pmm_total_frames (m_pmm m);
  ta_frame : frame_taken (m_pmm m) (m_pmm m') new;
  ta_zero : forall j, slot j -> entry m' new j = 0;
  ta_other : forall t j, table_addr t -> t <> new -> slot j -> entry m' t j = entry m t j;
  ta_regs : same_regs m m';
}.

Lemma zero_table_spec m new :
  table_addr new ->
  let m' := for_up 512 0 (fun i m => set_entry m new i 0) m in
  (forall j, slot j -> entry m' new j = 0)
  /\ (forall t j, table_addr t -> t <> new -> slot j -> entry m' t j = entry m t j)
  /\ m_pmm m' = m_pmm m /\ same_regs m m'.
Proof.
  intros Hnew m'. split; [|split; [|split]].
  - intros j Hj.
    pose (I := fun k (x : machine) => 0 <= k <= 512 -> forall i, 0 <= i < k -> entry x new i = 0).
    assert (I (0 + Z.of_nat 512) m') as HI; [|apply HI; unfold slot in Hj; lia].
    apply for_up_inv; [intros ?; lia|]. intros k x Hk IH Hk1 i Hi.
    rewrite entry_set_entry by (done || unfold slot; lia). case_decide; [done|]. apply IH; lia.
  - intros t j Ht Hne Hj.
    apply (for_up_preserves (fun x => entry x t j = entry m t j)); [done|].
    intros k x Hk IH. rewrite entry_set_entry by (done || unfold slot; lia).
    rewrite decide_False; [done|]. intros [-> _]. done.
  - by apply (for_up_preserves (fun x => m_pmm x = m_pmm m)).
  - apply for_up_preserves; [done|]. intros k x _ Hx. etrans; [apply Hx|apply set_entry_regs].
Qed.

Lemma alloc_table_phys_cases m new m' :
  pmm_wf (m_pmm m) -> alloc_table_phys m = (new, m') ->
  (new = 0 /\ m' = m) \/ table_allocated m m' new.
Proof.
  intros W. unfold alloc_table_phys.
  destruct (pmm_alloc_pages (m_pmm m) 1) as [a p'] eqn:Hal.
  destruct (pmm_alloc_pages_cases _ 1 a p' W ltac:(lia) Hal) as [(start & -> & A) | (-> & -> & _)].
  2: { simpl. intros [= <- <-]. left. split; [done|]. by destruct m. }
  pose proof (wf_total _ W). destruct (al_range _ _ _ _ A) as (Hs & _ & Hle).
  assert (table_addr (start * 4096)) as Ht.
  { split; [lia|]. by rewrite Z.mod_mul by lia. }
  rewrite (proj2 (Z.eqb_neq (start * 4096) 0)) by lia. rewrite (table_virt_id _ Ht).
  set (m1 := m <| m_pmm := p' |>).
  destruct (zero_table_spec m1 (start * 4096) Ht) as (Z1 & Z2 & Z3 & Z4).
  set (m2 := for_up 512 0 _ m1) in *. clearbody m2. intros [= <- <-]. right.
  split; [done| | |done| |].
  - rewrite Z.div_mul by lia. lia.
  - rewrite Z3. split; rewrite ?Z.div_mul by lia.
    + pose proof (al_run _ _ _ _ A 0 ltac:(lia)) as Hr. by rewrite Z.add_0_r in Hr.
    + intros f Hf. change (m_pmm m1) with p'. rewrite (al_set _ _ _ _ A) by lia.
      destruct (Z.eqb_spec f start) as [->|]; [by rewrite range_true by lia|by rewrite range_false by lia].
    + apply (al_total _ _ _ _ A).
    + by apply (pmm_allocated_wf _ 1 start p' W).
  - intros t j Hta Hne Hj. by rewrite Z2.
  - etrans; [|apply Z4]. by repeat split.
Qed.

(** ** Linking a fresh table into the tree *)

Definition table_flags_ok (f : Z) : Prop :=
  Z.land f VMM_X64_ADDR_MASK = 0 /\ has_flag f VMM_X64_PTE_PRESENT = true.

Lemma has_flag_spec v k : 0 <= k -> has_flag v (2 ^ k) = Z.testbit v k.
Proof. intros. rewrite <- bit_test_spec by lia. unfold has_flag, bit_test. by rewrite Z.shiftl_1_l. Qed.

Lemma has_flag_lor_r t f k : 0 <= k -> has_flag f (2 ^ k) = true -> has_flag (Z.lor t f) (2 ^ k) = true.
Proof. intros Hk. rewrite !has_flag_spec, Z.lor_spec by lia. intros ->. apply orb_true_r. Qed.

Lemma present_lor t f :
  has_flag f VMM_X64_PTE_PRESENT = true -> has_flag (Z.lor t f) VMM_X64_PTE_PRESENT = true.
Proof. apply (has_flag_lor_r t f 0). lia. Qed.
Lemma user_lor t f :
  has_flag f VMM_X64_PTE_USER = true -> has_flag (Z.lor t f) VMM_X64_PTE_USER = true.
Proof. apply (has_flag_lor_r t f 2). lia. Qed.

Lemma step_fresh m t i new f :
  table_addr t -> slot i -> table_addr new -> table_flags_ok f ->
  step (set_entry m t i (Z.lor new f)) t i = Some new.
Proof.
  intros Ht Hi Hnew [Hf1 Hf2]. unfold step. rewrite entry_set_entry_eq by done.
  rewrite (present_lor new f) by done. f_equal.
  unfold table_virt. rewrite land_lor_low by done. by apply table_virt_id.
Qed.

Section LINK.
Context (m m1 : machine) (root new : Z) (p0 : list Z) (t i f : Z).
Context (W : space_wf m root) (Hp0 : user_path p0) (Hlen : (length p0 <= 2)%nat).
Context (Ht : descend m root p0 = Some t) (Hi : slot i) (Hi256 : p0 = [] -> i < 256).
Context (Habs : step m t i = None) (Hf : table_flags_ok f).
Context (HA : table_allocated m m1 new).

Let m2 := set_entry m1 t i (Z.lor new f).

Lemma link_new_unreached path u : user_path path -> descend m root path = Some u -> u <> new.
Proof.
  intros Hp Hu ->. destruct (sw_table _ _ W path new Hp Hu) as (_ & _ & Hb).
  rewrite (ft_free _ _ _ (ta_frame _ _ _ HA)) in Hb. done.
Qed.

Lemma link_entry path u j :
  user_path path -> descend m root path = Some u -> slot j ->
  entry m2 u j = if decide (u = t /\ j = i) then Z.lor new f else entry m u j.
Proof.
  intros Hp Hu Hj. pose proof (sw_table _ _ W path u Hp Hu) as (Hua & _).
  pose proof (sw_table _ _ W p0 t Hp0 Ht) as (Hta & _).
  unfold m2. rewrite entry_set_entry by done.
  destruct (decide (u = t /\ j = i)) as [[-> ->]|Hne]; [by rewrite decide_True|].
  rewrite decide_False by (intros [-> ->]; by apply Hne).
  apply (ta_other _ _ _ HA); [done|by apply (link_new_unreached path)|done].
Qed.

(** The tree after the link: the old paths, and one new path to the fresh table. *)
Lemma link_descend q :
  user_path q ->
  descend m2 root q = match descend m root q with
                      | Some u => Some u
                      | None => if decide (q = p0 ++ [i]) then Some new else None
                      end.
Proof.
  induction q as [|j q IH] using rev_ind; intros Hq; [done|].
  apply user_path_snoc_inv in Hq as (Hq & Hj & Hl). rewrite !descend_snoc, IH by done.
  pose proof (sw_table _ _ W p0 t Hp0 Ht) as (Hta & _).
  destruct (descend m root q) as [u|] eqn:Hu.
  - unfold step. rewrite (link_entry q u j) by done.
    destruct (decide (u = t /\ j = i)) as [[-> ->]|Hne].
    + assert (q = p0) as -> by (by apply (sw_inj _ _ W q p0 t)).
      unfold step in Habs. destruct (has_flag (entry m t i) _); [done|].
      rewrite decide_True by done.
      pose proof (step_fresh m1 t i new f Hta Hi (ta_addr _ _ _ HA) Hf) as Hs.
      unfold step in Hs. by rewrite entry_set_entry_eq in Hs.
    + destruct (has_flag (entry m u j) _); [done|].
      rewrite decide_False; [done|]. intros [-> [= ->]]%app_inj_tail. apply Hne. split; congruence.
  - destruct (decide (q = p0 ++ [i])) as [->|Hne].
    + unfold step, m2. rewrite entry_set_entry; [|done|apply (ta_addr _ _ _ HA)|done|done].
      rewrite decide_False by (intros [-> _]; by apply (link_new_unreached p0 new)).
      rewrite (ta_zero _ _ _ HA) by done. simpl. rewrite decide_False; [done|].
      intros [E _]%app_inj_tail. apply (f_equal length) in E. rewrite length_app in E. simpl in E. lia.
    + rewrite decide_False; [done|]. intros [-> _]%app_inj_tail. congruence.
Qed.

Lemma link_space_wf : space_wf m2 root.
Proof.
  destruct (ta_frame _ _ _ HA) as [Ffree Fbits Ftot Fwf].
  pose proof (ta_addr _ _ _ HA) as Hna.
  split; [done| |].
  - intros path u Hp. rewrite link_descend by done.
    change (m_pmm m2) with (m_pmm m1). rewrite Ftot.
    destruct (descend m root path) as [u'|] eqn:Hu.
    + intros [= ->]. destruct (sw_table _ _ W path u Hp Hu) as (H1 & H2 & H3).
      split; [done|]. split; [done|]. destruct H1 as [H1 _].
      rewrite Fbits by (apply Z.div_pos; lia). by destruct (_ =? _).
    + case_decide; [|done]. intros [= <-]. split; [done|]. split; [apply (ta_total _ _ _ HA)|].
      destruct Hna as [Hn _]. rewrite Fbits by (apply Z.div_pos; lia). by rewrite Z.eqb_refl.
  - intros p q u Hp Hq. rewrite !link_descend by done.
    destruct (descend m root p) as [u1|] eqn:H1, (descend m root q) as [u2|] eqn:H2;
      repeat case_decide; try done; intros [= E1] [= E2].
    + apply (sw_inj _ _ W p q u1); [done..|congruence].
    + destruct (link_new_unreached p u1 Hp H1). congruence.
    + destruct (link_new_unreached q u2 Hq H2). congruence.
    + congruence.
Qed.
End LINK.

(** ** Views of an address space *)

(** [descend] with the permission check of the walk. *)
Fixpoint udescend (m : machine) (user : bool) (t : Z) (path : list Z) : option Z :=
  match path with
  | [] => Some t
  | i :: path' =>
      match step m t i with
      | Some t' => if user && negb (has_flag (entry m t i) VMM_X64_PTE_USER) then None
                   else udescend m user t' path'
      | None => None
      end
  end.

Lemma udescend_snoc m user t path i :
  udescend m user t (path ++ [i]) =
  match udescend m user t path with
  | Some u => match step m u i with
              | Some t' => if user && negb (has_flag (entry m u i) VMM_X64_PTE_USER) then None else Some t'
              | None => None
              end
  | None => None
  end.
Proof.
  revert t. induction path as [|j path IH]; intros t; simpl; [done|].
  destruct (step m t j); [|done]. destruct (_ && _); [done|apply IH].
Qed.

Lemma udescend_descend m user t path u :
  udescend m user t path = Some u -> descend m t path = Some u.
Proof.
  revert t. induction path as [|j path IH]; intros t; simpl; [done|].
  destruct (step m t j); [|done]. destruct (_ && _); [done|apply IH].
Qed.

(** The present entry at a last-level position. *)
Definition leaf (m : machine) (root : Z) (path : list Z) (j : Z) : option Z :=
  match descend m root path with
  | Some t => if has_flag (entry m t j) VMM_X64_PTE_PRESENT then Some (entry m t j) else None
  | None => None
  end.

Definition pt_path (va : Z) : list Z := [pml4_index va; pdpt_index va; pd_index va].

(** The page-table entry that maps the page of [va], if it is mapped. *)
Definition pte (m : machine) (root va : Z) : option Z := leaf m root (pt_path va) (pt_index va).

(** [m'] has the same mappings as [m], possibly with more intermediate tables. *)
Record extends (root : Z) (m m' : machine) : Prop := {
  ex_wf : space_wf m' root;
  ex_leaf : forall p j, user_path p -> length p = 3%nat -> slot j -> leaf m' root p j = leaf m root p j;
  ex_walk : forall user p t, user_path p -> udescend m user root p = Some t ->
            udescend m' user root p = Some t;
  ex_regs : same_regs m m';
  ex_total : pmm_total_frames (m_pmm m') = pmm_total_frames (m_pmm m);
}.

Lemma extends_refl root m : space_wf m root -> extends root m m.
Proof. intros. split; [done|done|done|reflexivity|done]. Qed.
Lemma extends_trans root a b c : extends root a b -> extends root b c -> extends root a c.
Proof.
  intros [A1 A2 A3 A4 A5] [B1 B2 B3 B4 B5]. split; [done| | | |congruence].
  - intros. by rewrite B2, A2.
  - intros. by apply B3, A3.
  - by etrans.
Qed.
#[export] Hint Resolve extends_refl : tsk.

Lemma link_extends m m1 root new p0 t i f :
  space_wf m root -> user_path p0 -> (length p0 <= 2)%nat -> descend m root p0 = Some t ->
  slot i -> (p0 = [] -> i < 256) -> step m t i = None -> table_flags_ok f ->
  table_allocated m m1 new ->
  extends root m (set_entry m1 t i (Z.lor new f)).
Proof.
  intros W Hp0 Hlen Ht Hi H256 Habs Hf HA.
  pose proof (link_descend m m1 root new p0 t i f W Hp0 Hlen Ht Hi H256 Habs Hf HA) as Hd.
  pose proof (link_entry m m1 root new p0 t i f W Hp0 Ht Hi H256 Habs HA) as He.
  set (m2 := set_entry m1 t i (Z.lor new f)) in *.
  split.
  - by apply (link_space_wf m m1 root new p0 t i f).
  - intros p j Hp Hl Hj. unfold leaf. rewrite Hd by done.
    destruct (descend m root p) as [u|] eqn:Hu.
    + rewrite (He p u j) by done. rewrite decide_False; [done|]. intros [-> _].
      assert (p0 = p) as -> by (by apply (sw_inj _ _ W p0 p t)). lia.
    + case_decide as Hpp; [|done].
      assert (entry m2 new j = 0) as ->; [|done].
      pose proof (ta_addr _ _ _ HA). pose proof (sw_table _ _ W p0 t Hp0 Ht) as (Hta & _).
      unfold m2. rewrite entry_set_entry by done. rewrite decide_False; [by apply (ta_zero _ _ _ HA)|].
      intros [-> _]. by apply (link_new_unreached m m1 root new W HA p0 new).
  - intros user q u Hq. revert u. induction q as [|j q IH] using rev_ind; intros u; [done|].
    apply user_path_snoc_inv in Hq as (Hq & Hj & _). rewrite !udescend_snoc.
    destruct (udescend m user root q) as [v|] eqn:Hv; [|done].
    rewrite (IH Hq v) by done. apply udescend_descend in Hv. unfold step. rewrite (He q v j) by done.
    destruct (decide (v = t /\ j = i)) as [[-> ->]|]; [|done].
    unfold step in Habs. by destruct (has_flag (entry m t i) _).
  - etrans; [apply (ta_regs _ _ _ HA)|apply set_entry_regs].
  - apply (ft_total _ _ _ (ta_frame _ _ _ HA)).
Qed.

(** ** The walk *)

Definition table_flags (user : bool) : Z :=
  let f := Z.lor VMM_X64_PTE_PRESENT VMM_X64_PTE_WRITABLE in
  if user then Z.lor f VMM_X64_PTE_USER else f.

Lemma table_flags_good user : table_flags_ok (table_flags user).
Proof. by destruct user. Qed.

Lemma walk_level_spec m root user p0 t i create r m' :
  space_wf m root -> user_path p0 -> (length p0 <= 2)%nat ->
  udescend m user root p0 = Some t -> slot i -> (p0 = [] -> i < 256) ->
  walk_level m t i create user (table_flags user) = (r, m') ->
  extends root m m'
  /\ (forall t', r = Some t' -> udescend m' user root (p0 ++ [i]) = Some t')
  /\ (create = false -> m' = m /\ r = udescend m user root (p0 ++ [i])).
Proof.
  intros W Hp0 Hlen Hu Hi H256. pose proof (udescend_descend _ _ _ _ _ Hu) as Ht.
  unfold walk_level. destruct (has_flag (entry m t i) VMM_X64_PTE_PRESENT) eqn:Hpres; simpl.
  - pose proof (udescend_snoc m user root p0 i) as Hs. rewrite Hu in Hs. unfold step in Hs.
    rewrite Hpres in Hs.
    destruct (user && _) eqn:Hperm; intros [= <- <-]; (split; [by apply extends_refl|]);
      (split; [by intros t' [= <-]|by rewrite Hs]).
  - assert (step m t i = None) as Habs by (unfold step; by rewrite Hpres).
    destruct create; simpl.
    2: { intros [= <- <-]. split; [by apply extends_refl|]. split; [done|]. intros _.
         by rewrite udescend_snoc, Hu, Habs. }
    destruct (alloc_table_phys m) as [new m1] eqn:Hal.
    destruct (alloc_table_phys_cases m new m1 (sw_pmm _ _ W) Hal) as [[-> ->] | HA].
    { simpl. intros [= <- <-]. split; [by apply extends_refl|]. by split. }
    pose proof (ta_addr _ _ _ HA) as Hna. rewrite (proj2 (Z.eqb_neq new 0)) by (destruct Hna; lia).
    pose proof (table_flags_good user) as Hfl.
    pose proof (link_extends m m1 root new p0 t i _ W Hp0 Hlen Ht Hi H256 Habs Hfl HA) as HE.
    pose proof (sw_table _ _ W p0 t Hp0 Ht) as (Hta & _).
    intros [= <- <-]. split; [done|]. split; [|done].
    intros t' [= <-]. rewrite udescend_snoc, (ex_walk _ _ _ HE user p0 t) by done.
    rewrite (step_fresh m1 t i new) by done.
    rewrite entry_set_entry_eq by done.
    destruct user; simpl; [rewrite user_lor by done|]; simpl; f_equal;
      unfold table_virt; rewrite land_lor_low by done; symmetry; by apply table_virt_id.
Qed.

Lemma index_spec va k : 0 <= va -> 0 <= k -> Z.land (Z.shiftr va k) 0x1FF = (va / 2 ^ k) mod 512.
Proof. intros. rewrite (land_ones_mod _ 9) by lia. by rewrite Z.shiftr_div_pow2 by lia. Qed.

(** A page of the user half. *)
Definition user_page (va : Z) : Prop := 0 <= va < 0x800000000000 /\ va mod 4096 = 0.

Lemma pt_index_slot va : 0 <= va -> slot (pt_index va).
Proof. intros. unfold pt_index, slot. rewrite index_spec by lia. apply Z.mod_pos_bound. lia. Qed.

Lemma pt_path_user va : user_page va -> user_path (pt_path va) /\ length (pt_path va) = 3%nat.
Proof.
  intros [Hr _]. unfold pt_path, pml4_index, pdpt_index, pd_index. rewrite !index_spec by lia.
  split; [|done]. split; [simpl; lia|]. split.
  - repeat constructor; try (apply Z.mod_pos_bound; lia).
  - simpl. intros i [= <-]. change (2 ^ 39) with 549755813888. Z.div_mod_to_equations. lia.
Qed.

(** Distinct user pages sit at distinct positions of the tree. *)
Lemma pt_position_inj va va' :
  user_page va -> user_page va' -> pt_path va = pt_path va' -> pt_index va = pt_index va' -> va = va'.
Proof.
  intros [H1 A1] [H2 A2]. unfold pt_path, pml4_index, pdpt_index, pd_index, pt_index.
  rewrite !index_spec by lia. intros [= E1 E2 E3] E4.
  change (2 ^ 39) with 549755813888 in *. change (2 ^ 30) with 1073741824 in *.
  change (2 ^ 21) with 2097152 in *. change (2 ^ 12) with 4096 in *.
  Z.div_mod_to_equations. lia.
Qed.

Lemma walk_to_pt_spec m pml4 va create user r m' :
  space_wf m pml4 -> user_page va -> walk_to_pt m pml4 va create user = (r, m') ->
  extends pml4 m m'
  /\ (forall pt, r = Some pt -> udescend m' user pml4 (pt_path va) = Some pt)
  /\ (create = false -> m' = m /\ r = udescend m user pml4 (pt_path va)).
Proof.
  intros W Hva. pose proof (space_wf_root _ _ W) as Hroot.
  destruct (pt_path_user va Hva) as [[_ [Hsl H256]] _].
  apply Forall_cons in Hsl as [S1 Hsl]. apply Forall_cons in Hsl as [S2 Hsl].
  apply Forall_cons in Hsl as [S3 _]. specialize (H256 _ eq_refl).
  unfold walk_to_pt. rewrite (proj2 (Z.eqb_neq pml4 0)) by (destruct Hroot; lia).
  rewrite (table_virt_id _ Hroot). fold (table_flags user).
  destruct (walk_level m pml4 _ create user _) as [r1 m1] eqn:E1.
  destruct (walk_level_spec m pml4 user [] pml4 (pml4_index va) create r1 m1 W
    ltac:(auto with tsk) ltac:(simpl; lia) eq_refl S1 ltac:(auto) E1) as (X1 & R1 & C1).
  destruct r1 as [pdpt|].
  2: { intros [= <- <-]. split; [done|]. split; [done|]. intros Hc.
       destruct (C1 Hc) as [-> Hn]. split; [done|]. unfold pt_path. cbn [app udescend] in *.
       destruct (step m pml4 (pml4_index va)); [|done]. by destruct (_ && _). }
  specialize (R1 _ eq_refl). simpl app in R1.
  destruct (walk_level m1 pdpt _ create user _) as [r2 m2] eqn:E2.
  assert (user_path [pml4_index va]) as P1.
  { apply (user_path_snoc []); [auto with tsk|done|simpl; lia|done]. }
  destruct (walk_level_spec m1 pml4 user _ pdpt (pdpt_index va) create r2 m2 (ex_wf _ _ _ X1)
    P1 ltac:(simpl; lia) R1 S2 ltac:(done) E2) as (X2 & R2 & C2).
  destruct r2 as [pd|].
  2: { intros [= <- <-]. split; [by eapply extends_trans|]. split; [done|]. intros Hc.
       destruct (C1 Hc) as [-> _], (C2 Hc) as [-> Hn]. split; [done|].
       unfold pt_path. cbn [app udescend] in *.
       destruct (step m pml4 (pml4_index va)) as [t1|]; [|done]. destruct (_ && _); [done|].
       destruct (step m t1 (pdpt_index va)); [|done]. by destruct (_ && _). }
  specialize (R2 _ eq_refl). simpl app in R2.
  assert (user_path [pml4_index va; pdpt_index va]) as P2.
  { apply (user_path_snoc [pml4_index va]); [done|done|simpl; lia|done]. }
  intros E3.
  destruct (walk_level_spec m2 pml4 user _ pd (pd_index va) create r m' (ex_wf _ _ _ X2)
    P2 ltac:(simpl; lia) R2 S3 ltac:(done) E3) as (X3 & R3 & C3).
  split; [by eapply extends_trans; [|eapply extends_trans]|]. split; [done|].
  intros Hc. by destruct (C1 Hc) as [-> _], (C2 Hc) as [-> _], (C3 Hc) as [-> ?].
Qed.

(** ** One page *)

(** The read-only walk, as a function. *)
Definition walked (m : machine) (pml4 va : Z) (user : bool) : option Z :=
  udescend m user pml4 (pt_path va).

Lemma walk_ro m pml4 va user :
  space_wf m pml4 -> user_page va ->
  walk_to_pt m pml4 va false user = (walked m pml4 va user, m).
Proof.
  intros W Hva. destruct (walk_to_pt m pml4 va false user) as [r m'] eqn:E.
  destruct (walk_to_pt_spec _ _ _ _ _ _ _ W Hva E) as (_ & _ & C). by destruct (C eq_refl) as [-> ->].
Qed.

(** Writing the entry of one page changes the mapping of that page only. *)
Lemma page_write m pml4 va user pt v :
  space_wf m pml4 -> user_page va -> walked m pml4 va user = Some pt ->
  let m' := set_entry m pt (pt_index va) v in
  space_wf m' pml4
  /\ pte m' pml4 va = (if has_flag v VMM_X64_PTE_PRESENT then Some v else None)
  /\ (forall va', user_page va' -> va' <> va -> pte m' pml4 va' = pte m pml4 va')
  /\ (forall va' u, user_page va' -> walked m' pml4 va' u = walked m pml4 va' u).
Proof.
  intros W Hva Hw m'. pose proof (udescend_descend _ _ _ _ _ Hw) as Hd.
  destruct (pt_path_user va Hva) as [Hp Hlen].
  assert (slot (pt_index va)) as Hs by (apply pt_index_slot; destruct Hva; lia).
  pose proof (fun q => descend_leaf_write m pml4 (pt_path va) pt (pt_index va) v q W Hp Hlen Hd Hs) as Hdw.
  destruct (sw_table _ _ W _ _ Hp Hd) as (Hpt & _).
  split; [by apply (space_wf_leaf_write m pml4 (pt_path va))|]. split; [|split].
  - unfold pte, leaf. unfold m'. rewrite Hdw, Hd by done. by rewrite entry_set_entry_eq.
  - intros va' Hva' Hne. destruct (pt_path_user va' Hva') as [Hp' Hlen'].
    unfold pte, leaf, m'. rewrite Hdw by done.
    destruct (descend m pml4 (pt_path va')) as [u|] eqn:Hu; [|done].
    destruct (sw_table _ _ W _ _ Hp' Hu) as (Hua & _).
    rewrite entry_set_entry by (done || apply pt_index_slot; destruct Hva'; lia).
    rewrite decide_False; [done|]. intros [-> Hidx]. apply Hne. symmetry.
    apply pt_position_inj; [done|done| |done]. by apply (sw_inj _ _ W _ _ u).
  - intros va' u Hva'. destruct (pt_path_user va' Hva') as [Hp' Hlen']. unfold walked, m'.
    assert (forall q, user_path q -> (length q <= 3)%nat ->
      udescend (set_entry m pt (pt_index va) v) u pml4 q = udescend m u pml4 q) as Hg; [|apply Hg; [done|lia]].
    induction q as [|j q IH] using rev_ind; intros Hq Hl; [done|].
    apply user_path_snoc_inv in Hq as (Hq & Hj & Hlq). rewrite !udescend_snoc, IH by (done || lia).
    destruct (udescend m u pml4 q) as [w|] eqn:Hwq; [|done].
    apply udescend_descend in Hwq. destruct (sw_table _ _ W _ _ Hq Hwq) as (Hwa & _).
    unfold step. rewrite entry_set_entry by done. rewrite decide_False; [done|].
    intros [-> _]. assert (pt_path va = q) as <- by (by apply (sw_inj _ _ W _ _ w)).
    simpl in Hlq. lia.
Qed.

(** ** Spans of user pages *)

(** What [validate_map_request] and [validate_span] establish for a user request whose byte length
    does not wrap. *)
Record user_span (virt count : Z) : Prop := {
  us_align : virt mod 4096 = 0;
  us_low : PAGING_USER_VA_MIN <= virt;
  us_count : 0 < count;
  us_high : virt + count * 4096 - 1 <= PAGING_USER_VA_MAX;
}.

Lemma paging_range_user_spec virt size :
  is_u64 virt -> is_u64 size ->
  paging_range_is_user virt size = true <->
  0 < size /\ PAGING_USER_VA_MIN <= virt /\ virt + size - 1 <= PAGING_USER_VA_MAX.
Proof.
  intros Hv Hs. unfold paging_range_is_user, PAGING_USER_VA_MIN, PAGING_USER_VA_MAX.
  destruct (Z.eqb_spec size 0); [split; [done|lia]|].
  assert (u64 (u64 (virt + size) - 1) = (virt + size - 1) mod 0x10000000000000000) as ->.
  { unfold u64. by rewrite Zminus_mod_idemp_l. }
  destruct (Z.ltb_spec ((virt + size - 1) mod 0x10000000000000000) virt).
  - split; [done|]. intros H3. rewrite Z.mod_small in *; wsolve.
  - rewrite andb_true_iff, !Z.leb_le. unfold is_u64 in *. Z.div_mod_to_equations. lia.
Qed.

Lemma page_aligned_spec a : paging_is_page_aligned a = true <-> a mod 4096 = 0.
Proof. unfold paging_is_page_aligned. rewrite land_page_low. apply Z.eqb_eq. Qed.

Lemma user_span_of_range virt count :
  is_u64 virt -> 0 <= count < 0x10000000000000 -> virt mod 4096 = 0 ->
  paging_range_is_user virt (u64 (count * PAGE_SIZE)) = true -> user_span virt count.
Proof.
  intros Hv Hc Ha. rewrite u64_id by (unfold PAGE_SIZE; wsolve).
  rewrite paging_range_user_spec by (unfold PAGE_SIZE; wsolve). unfold PAGE_SIZE. intros ?.
  split; (lia || done).
Qed.

Lemma user_span_range virt count :
  user_span virt count -> paging_range_is_user virt (u64 (count * PAGE_SIZE)) = true.
Proof.
  intros [H1 H2 H3 H4]. unfold PAGING_USER_VA_MIN, PAGING_USER_VA_MAX in *.
  rewrite u64_id by (unfold PAGE_SIZE; wsolve).
  apply paging_range_user_spec; unfold PAGE_SIZE, PAGING_USER_VA_MIN, PAGING_USER_VA_MAX; wsolve.
Qed.

Lemma user_span_prefix virt count n : user_span virt count -> 0 < n <= count -> user_span virt n.
Proof. intros [H1 H2 H3 H4] Hn. split; (lia || done). Qed.

Lemma user_span_page virt count i :
  user_span virt count -> 0 <= i < count ->
  page_at virt i = virt + i * 4096 /\ user_page (virt + i * 4096).
Proof.
  intros [H1 H2 H3 H4] Hi. unfold PAGING_USER_VA_MIN, PAGING_USER_VA_MAX in *. unfold page_at, PAGE_SIZE.
  rewrite (u64_id (i * 4096)) by wsolve. rewrite u64_id by wsolve. split; [done|].
  split; [lia|]. by rewrite Z.mod_add.
Qed.

Lemma user_span_validate virt count : user_span virt count -> validate_span virt 0 count false = 0.
Proof.
  intros S. pose proof (user_span_range _ _ S) as Hr. destruct S as [H1 H2 H3 H4].
  unfold PAGING_USER_VA_MIN, PAGING_USER_VA_MAX in *. unfold validate_span.
  rewrite (proj2 (Z.eqb_neq count 0)) by lia.
  rewrite (proj2 (page_aligned_spec virt) H1). simpl negb. cbv iota.
  rewrite Hr. rewrite u64_id by (unfold PAGE_SIZE; wsolve). unfold PAGE_SIZE.
  rewrite (proj2 (Z.eqb_neq (count * 4096) 0)) by lia. rewrite (proj2 (Z.ltb_ge _ _)) by lia. done.
Qed.

Lemma query_user m pml4 va :
  space_wf m pml4 -> user_span va 1 ->
  vmm_query_page m pml4 va =
  match walked m pml4 va true with
  | None => None
  | Some _ => match pte m pml4 va with
              | Some e => Some (Z.land e VMM_X64_ADDR_MASK, Z.land e (u64 (Z.lnot VMM_X64_ADDR_MASK)))
              | None => None
              end
  end.
Proof.
  intros W S. pose proof (user_span_range _ _ S) as Hr. rewrite Z.mul_1_l, u64_id in Hr by (unfold PAGE_SIZE; wsolve).
  destruct (user_span_page va 1 0 S ltac:(lia)) as [_ Hp]. rewrite Z.mul_0_l, Z.add_0_r in Hp.
  pose proof (space_wf_root _ _ W) as [Hroot _].
  unfold vmm_query_page. rewrite (proj2 (Z.eqb_neq pml4 0)) by lia.
  rewrite (proj2 (page_aligned_spec va)) by apply S. simpl orb. cbv iota.
  rewrite Hr. simpl andb. cbv iota. rewrite walk_ro by done.
  destruct (walked m pml4 va true) as [pt|] eqn:Hw; [|done].
  apply udescend_descend in Hw. unfold pte, leaf. rewrite Hw.
  by destruct (has_flag _ VMM_X64_PTE_PRESENT).
Qed.

Lemma user_span_one virt count i :
  user_span virt count -> 0 <= i < count -> user_span (virt + i * 4096) 1.
Proof.
  intros [H1 H2 H3 H4] Hi. split; [by rewrite Z.mod_add|lia|lia|lia].
Qed.

Lemma all_mapped_spec n m pml4 virt count i :
  space_wf m pml4 -> user_span virt count -> 0 <= i -> i + Z.of_nat n <= count ->
  all_mapped n m pml4 virt i = true <->
  forall k, i <= k < i + Z.of_nat n ->
    is_Some (walked m pml4 (virt + k * 4096) true) /\ is_Some (pte m pml4 (virt + k * 4096)).
Proof.
  intros W S. revert i. induction n as [|n IH]; intros i Hi Hn; simpl; [split; [lia|done]|].
  destruct (user_span_page virt count i S ltac:(lia)) as [-> _].
  rewrite query_user by (done || (apply (user_span_one virt count); [done|lia])).
  destruct (walked m pml4 (virt + i * 4096) true) as [pt|] eqn:Hw.
  2: { split; [done|]. intros H. destruct (H i ltac:(lia)) as [[? E] _]. congruence. }
  destruct (pte m pml4 (virt + i * 4096)) as [e|] eqn:Hpte.
  2: { split; [done|]. intros H. destruct (H i ltac:(lia)) as [_ [? E]]. congruence. }
  rewrite IH by lia. split.
  - intros H k Hk. destruct (decide (k = i)) as [->|]; [by rewrite Hw, Hpte|]. apply H. lia.
  - intros H k Hk. apply H. lia.
Qed.

(** ** Loops over a span *)

(** [m'] maps the pages [i .. j-1] of the span as [f] says and every other user page as [m] does. *)
Definition remapped (pml4 virt i j : Z) (f : Z -> option Z) (m m' : machine) : Prop :=
  (forall k, i <= k < j -> pte m' pml4 (virt + k * 4096) = f k)
  /\ (forall va, user_page va -> (forall k, i <= k < j -> va <> virt + k * 4096) ->
        pte m' pml4 va = pte m pml4 va).

Lemma remapped_empty pml4 virt i f m : remapped pml4 virt i i f m m.
Proof. split; [lia|done]. Qed.

(** One more page at the front of the span. *)
Lemma remapped_cons pml4 virt count i j f m m1 m2 :
  user_span virt count -> 0 <= i -> i < j <= count ->
  remapped pml4 virt i (i + 1) f m m1 -> remapped pml4 virt (i + 1) j f m1 m2 ->
  remapped pml4 virt i j f m m2.
Proof.
  intros S Hi Hj [A1 A2] [B1 B2]. split.
  - intros k Hk. destruct (decide (k = i)) as [->|]; [|apply B1; lia].
    rewrite B2; [apply A1; lia|apply (user_span_page virt count); [done|lia]|]. intros k' Hk'. lia.
  - intros va Hva Hne. rewrite B2; [|done|intros k Hk; apply Hne; lia].
    apply A2; [done|]. intros k Hk. apply Hne. lia.
Qed.

Lemma page_write_remapped m pml4 virt count i pt v user :
  space_wf m pml4 -> user_span virt count -> 0 <= i < count ->
  walked m pml4 (virt + i * 4096) user = Some pt ->
  let m' := set_entry m pt (pt_index (virt + i * 4096)) v in
  let e := if has_flag v VMM_X64_PTE_PRESENT then Some v else None in
  space_wf m' pml4 /\ remapped pml4 virt i (i + 1) (fun _ => e) m m'
  /\ (forall va u, user_page va -> walked m' pml4 va u = walked m pml4 va u).
Proof.
  intros W S Hi Hw. destruct (user_span_page virt count i S Hi) as [_ Hp].
  destruct (page_write m pml4 _ user pt v W Hp Hw) as (W' & H1 & H2 & H3).
  split; [done|]. split; [|done]. split.
  - intros k Hk. by assert (k = i) as -> by lia.
  - intros va Hva Hne. apply H2; [done|]. apply Hne. lia.
Qed.

Lemma clear_pages_spec n m pml4 virt count i user :
  space_wf m pml4 -> user_span virt count -> 0 <= i -> i + Z.of_nat n <= count ->
  (forall k, i <= k < i + Z.of_nat n -> is_Some (walked m pml4 (virt + k * 4096) user)) ->
  exists m', clear_pages n m pml4 virt i user = (0, m')
    /\ space_wf m' pml4
    /\ remapped pml4 virt i (i + Z.of_nat n) (fun _ => None) m m'
    /\ (forall va u, user_page va -> walked m' pml4 va u = walked m pml4 va u).
Proof.
  revert m i. induction n as [|n IH]; intros m i W S Hi Hn Hw; simpl.
  - exists m. split; [done|]. split; [done|]. split; [|done]. rewrite Z.add_0_r. apply remapped_empty.
  - destruct (user_span_page virt count i S ltac:(lia)) as [-> Hp].
    rewrite walk_ro by done. destruct (Hw i ltac:(lia)) as [pt Hpt]. rewrite Hpt.
    destruct (page_write_remapped m pml4 virt count i pt 0 user W S ltac:(lia) Hpt) as (W1 & R1 & K1).
    set (m1 := set_entry m pt _ 0) in *.
    destruct (IH m1 (i + 1) W1 S ltac:(lia) ltac:(lia)) as (m' & E & W' & R' & K').
    { intros k Hk. rewrite K1 by (apply (user_span_page virt count); [done|lia]). apply Hw. lia. }
    exists m'. split; [done|]. split; [done|]. split.
    + replace (i + Z.of_nat (Datatypes.S n)) with (i + 1 + Z.of_nat n) by lia.
      apply (remapped_cons pml4 virt count i _ _ m m1 m'); done || lia.
    + intros va u Hva. by rewrite K', K1.
Qed.

(** TLB maintenance does not touch memory. *)
Lemma tlb_flush_range_mem pml4 virt count m :
  m_mem (tlb_flush_range pml4 virt count m) = m_mem m
  /\ m_pmm (tlb_flush_range pml4 virt count m) = m_pmm m.
Proof.
  unfold tlb_flush_range. destruct (count =? 0); [done|]. destruct (negb _); [done|].
  destruct (count =? 1); [done|]. destruct (count <=? _); [|done].
  by apply (for_up_preserves (fun x => m_mem x = m_mem m /\ m_pmm x = m_pmm m)).
Qed.

(** Everything above depends on memory and the frame allocator only. *)
Lemma udescend_mem m m' user t path :
  m_mem m' = m_mem m -> udescend m' user t path = udescend m user t path.
Proof.
  intros E. revert t. induction path as [|i path IH]; intros t; simpl; [done|].
  unfold step, entry. rewrite E. destruct (has_flag _ _); [|done]. by rewrite IH.
Qed.
Lemma descend_mem m m' t path : m_mem m' = m_mem m -> descend m' t path = descend m t path.
Proof.
  intros E. revert t. induction path as [|i path IH]; intros t; simpl; [done|].
  unfold step, entry. rewrite E. destruct (has_flag _ _); [|done]. by rewrite IH.
Qed.
Lemma pte_mem m m' root va : m_mem m' = m_mem m -> pte m' root va = pte m root va.
Proof. intros E. unfold pte, leaf, entry. by rewrite (descend_mem m m' _ _ E), E. Qed.
Lemma space_wf_mem m m' root :
  m_mem m' = m_mem m -> m_pmm m' = m_pmm m -> space_wf m root -> space_wf m' root.
Proof.
  intros E1 E2 W. split; [rewrite E2; apply W| |].
  - intros path t. rewrite (descend_mem m) by done. rewrite E2. apply (sw_table _ _ W).
  - intros p q t. rewrite (descend_mem m m' root p), (descend_mem m m' root q) by done. apply (sw_inj _ _ W).
Qed.

Lemma remapped_mem pml4 virt i j f m m1 m2 :
  m_mem m2 = m_mem m1 -> remapped pml4 virt i j f m m1 -> remapped pml4 virt i j f m m2.
Proof. intros E [A1 A2]. split; intros; rewrite (pte_mem m1) by done; auto. Qed.

(** [vmm_unmap_pages] on a user span whose pages are all mapped. *)
Lemma vmm_unmap_pages_ok m pml4 virt count :
  space_wf m pml4 -> user_span virt count ->
  (forall k, 0 <= k < count -> is_Some (walked m pml4 (virt + k * 4096) true)
                               /\ is_Some (pte m pml4 (virt + k * 4096))) ->
  exists m', vmm_unmap_pages m pml4 virt count = (0, m')
    /\ space_wf m' pml4 /\ remapped pml4 virt 0 count (fun _ => None) m m'.
Proof.
  intros W S Hall. pose proof (us_count _ _ S) as Hc. pose proof (space_wf_root _ _ W) as [Hroot _].
  unfold vmm_unmap_pages. rewrite (proj2 (Z.eqb_neq pml4 0)) by lia.
  rewrite (user_span_validate _ _ S). simpl negb. cbv iota. rewrite (user_span_range _ _ S).
  rewrite (proj2 (all_mapped_spec (Z.to_nat count) m pml4 virt count 0 W S ltac:(lia) ltac:(lia))).
  2: { intros k Hk. apply Hall. lia. }
  destruct (clear_pages_spec (Z.to_nat count) m pml4 virt count 0 true W S ltac:(lia) ltac:(lia))
    as (m' & E & W' & R & _).
  { intros k Hk. apply Hall. lia. }
  simpl negb. cbv iota. rewrite E. eexists. split; [reflexivity|].
  destruct (tlb_flush_range_mem pml4 virt count m') as [E1 E2].
  rewrite Z.add_0_l, Z2Nat.id in R by lia.
  split; [by apply (space_wf_mem m')|by apply (remapped_mem _ _ _ _ _ _ m')].
Qed.

(** A page is in the first [i] pages of the span or is none of them. *)
Lemma span_page_cases virt i va :
  (exists k, 0 <= k < i /\ va = virt + k * 4096) \/ (forall k, 0 <= k < i -> va <> virt + k * 4096).
Proof.
  destruct (decide ((va - virt) mod 4096 = 0 /\ 0 <= (va - virt) / 4096 < i)) as [[Hm Hr]|Hne].
  - left. exists ((va - virt) / 4096). split; [done|]. pose proof (Z.div_mod (va - virt) 4096). lia.
  - right. intros k Hk ->. apply Hne. replace (virt + k * 4096 - virt) with (k * 4096) by lia.
    by rewrite Z.mod_mul, Z.div_mul by lia.
Qed.

(** ** Mapping *)

Definition map_entry (pa pte_flags : Z) : Z :=
  Z.lor (Z.lor (Z.land pa VMM_X64_ADDR_MASK) pte_flags) VMM_X64_PTE_PRESENT.

Lemma map_entry_present pa f : has_flag (map_entry pa f) VMM_X64_PTE_PRESENT = true.
Proof. by apply present_lor. Qed.

Lemma extends_pte root m m' va : extends root m m' -> user_page va -> pte m' root va = pte m root va.
Proof.
  intros X Hva. destruct (pt_path_user va Hva) as [Hp Hl]. unfold pte.
  apply (ex_leaf _ _ _ X); [done|done|apply pt_index_slot; destruct Hva; lia].
Qed.

Section MAP.
Context (m0 : machine) (pml4 virt phys count pte_flags : Z).
Context (Hspan : user_span virt count).

Definition new_pte (k : Z) : option Z := Some (map_entry (page_at phys k) pte_flags).

(** The first [i] pages are mapped, and were not mapped before. *)
Record mapping_stage (i : Z) (m : machine) : Prop := {
  st_wf : space_wf m pml4;
  st_map : remapped pml4 virt 0 i new_pte m0 m;
  st_walk : forall k, 0 <= k < i -> is_Some (walked m pml4 (virt + k * 4096) true);
  st_absent : forall k, 0 <= k < i -> pte m0 pml4 (virt + k * 4096) = None;
}.

Lemma stage_extends i m m' :
  i <= count -> mapping_stage i m -> extends pml4 m m' -> mapping_stage i m'.
Proof.
  intros Hi [W [M1 M2] K A] X. split; [apply (ex_wf _ _ _ X)| | |done].
  - split.
    + intros k Hk. rewrite (extends_pte _ m) by (done || (apply (user_span_page virt count); [done|lia])).
      by apply M1.
    + intros va Hva Hne. rewrite (extends_pte _ m) by done. by apply M2.
  - intros k Hk. destruct (K k Hk) as [t Ht]. exists t.
    destruct (pt_path_user (virt + k * 4096)) as [Hp _].
    { apply (user_span_page virt count); [done|lia]. }
    by apply (ex_walk _ _ _ X).
Qed.

(** Rolling back a stage restores every mapping. *)
Lemma stage_undo i m :
  0 <= i <= count -> mapping_stage i m ->
  let m' := if 0 <? i then (vmm_unmap_pages m pml4 virt i).2 else m in
  space_wf m' pml4 /\ forall va, user_page va -> pte m' pml4 va = pte m0 pml4 va.
Proof.
  intros Hi [W [M1 M2] K A]. destruct (Z.ltb_spec 0 i) as [Hpos|Hneg].
  - destruct (vmm_unmap_pages_ok m pml4 virt i W (user_span_prefix virt count i Hspan ltac:(lia)))
      as (m' & -> & W' & R1 & R2).
    { intros k Hk. split; [by apply K|]. rewrite M1 by done. by eexists. }
    simpl. split; [done|]. intros va Hva.
    destruct (span_page_cases virt i va) as [(k & Hk & ->)|Hne].
    + rewrite R1, A by done. done.
    + by rewrite R2, M2.
  - simpl. split; [done|]. intros va Hva. apply M2; [done|intros k Hk; lia].
Qed.

Lemma stage_write i m pt :
  0 <= i < count -> mapping_stage i m -> walked m pml4 (virt + i * 4096) true = Some pt ->
  pte m pml4 (virt + i * 4096) = None ->
  mapping_stage (i + 1)
    (set_entry m pt (pt_index (virt + i * 4096)) (map_entry (page_at phys i) pte_flags)).
Proof.
  intros Hi [W [M1 M2] K A] Hw Habs.
  destruct (page_write_remapped m pml4 virt count i pt (map_entry (page_at phys i) pte_flags)
    true W Hspan Hi Hw) as (W1 & [R1 R2] & K1).
  rewrite map_entry_present in R1. set (m1 := set_entry _ _ _ _) in *.
  assert (forall k, 0 <= k < i -> pte m1 pml4 (virt + k * 4096) = pte m pml4 (virt + k * 4096)) as Hold.
  { intros k Hk. apply R2; [apply (user_span_page virt count); [done|lia]|]. intros k' Hk'. lia. }
  split; [done| | |].
  - split.
    + intros k Hk. destruct (decide (k = i)) as [->|]; [apply R1; lia|]. rewrite Hold by lia. apply M1. lia.
    + intros va Hva Hne. rewrite R2; [|done|intros k Hk; apply Hne; lia].
      apply M2; [done|]. intros k Hk. apply Hne. lia.
  - intros k Hk. rewrite K1 by (apply (user_span_page virt count); [done|lia]).
    destruct (decide (k = i)) as [->|]; [by eexists|]. apply K. lia.
  - intros k Hk. destruct (decide (k = i)) as [->|]; [|apply A; lia].
    rewrite <- Habs. symmetry. apply M2; [by apply (user_span_page virt count)|]. intros k' Hk'. lia.
Qed.

Lemma map_pages_loop_spec n m i rc m' :
  0 <= i -> i + Z.of_nat n = count -> mapping_stage i m ->
  map_pages_loop n m pml4 virt phys i true pte_flags = (rc, m') ->
  (rc = 0 /\ mapping_stage count m')
  \/ (rc = -1 /\ space_wf m' pml4 /\ forall va, user_page va -> pte m' pml4 va = pte m0 pml4 va).
Proof.
  revert m i. induction n as [|n IH]; intros m i Hi Hn St; cbn [map_pages_loop].
  { intros [= <- <-]. left. split; [done|]. by replace count with i by lia. }
  destruct (user_span_page virt count i Hspan ltac:(lia)) as [Hpa Hp]. rewrite Hpa.
  destruct (walk_to_pt m pml4 (virt + i * 4096) true true) as [r m1] eqn:Hwalk.
  destruct (walk_to_pt_spec _ _ _ _ _ _ _ (st_wf _ _ St) Hp Hwalk) as (X & Hr & _).
  pose proof (stage_extends i m m1 ltac:(lia) St X) as St1.
  pose proof (stage_undo i m1 ltac:(lia) St1) as Hundo.
  destruct r as [pt|]; [|intros [= <- <-]; right; by split].
  specialize (Hr pt eq_refl). fold (walked m1 pml4 (virt + i * 4096) true) in Hr.
  pose proof (udescend_descend _ _ _ _ _ Hr) as Hd.
  assert (pte m1 pml4 (virt + i * 4096) =
    if has_flag (entry m1 pt (pt_index (virt + i * 4096))) VMM_X64_PTE_PRESENT
    then Some (entry m1 pt (pt_index (virt + i * 4096))) else None) as Hpte.
  { unfold pte, leaf. by rewrite Hd. }
  destruct (has_flag (entry m1 pt _) VMM_X64_PTE_PRESENT); [intros [= <- <-]; right; by split|].
  fold (map_entry (page_at phys i) pte_flags). apply IH; [lia|lia|].
  apply stage_write; [lia|done|done|done].
Qed.
End MAP.

(** A request that [vmm_map_pages] does not reject outright. *)
Lemma map_request_user virt phys count flags :
  is_u64 virt -> 0 <= count < 0x10000000000000 -> has_flag flags PAGING_MAP_USER = true ->
  validate_map_request virt phys count flags = 0 -> user_span virt count.
Proof.
  intros Hv Hc Hu. unfold validate_map_request, validate_span.
  destruct (negb (has_flag flags PAGING_MAP_READ)); [done|].
  destruct (Z.eqb_spec count 0); [done|].
  destruct (paging_is_page_aligned virt) eqn:Hal; simpl; [|done].
  apply page_aligned_spec in Hal.
  destruct (negb (paging_is_page_aligned phys)); [done|].
  destruct (_ || _); [done|]. destruct (negb _ && negb _); [done|]. simpl.
  destruct (paging_range_is_user virt (u64 (count * PAGE_SIZE))) eqn:Hr; rewrite Hu; simpl; [|done].
  intros _. by apply user_span_of_range.
Qed.

Lemma vmm_map_pages_cases m pml4 virt phys count flags rc m' :
  space_wf m pml4 -> is_u64 virt -> 0 <= count < 0x10000000000000 ->
  has_flag flags PAGING_MAP_USER = true ->
  vmm_map_pages m pml4 virt phys count flags = (rc, m') ->
  space_wf m' pml4 /\
  ((rc = 0 /\ user_span virt count
    /\ mapping_stage m pml4 virt phys (pte_flags_from_map flags) count m')
   \/ (rc = -1 /\ forall va, user_page va -> pte m' pml4 va = pte m pml4 va)).
Proof.
  intros W Hv Hc Hu. pose proof (space_wf_root _ _ W) as [Hroot _].
  unfold vmm_map_pages. rewrite (proj2 (Z.eqb_neq pml4 0)) by lia.
  destruct (Z.eqb_spec (validate_map_request virt phys count flags) 0) as [Hval|]; simpl.
  2: { intros [= <- <-]. split; [done|]. by right. }
  pose proof (map_request_user _ _ _ _ Hv Hc Hu Hval) as Hspan. rewrite Hu.
  destruct (map_pages_loop _ m pml4 virt phys 0 true _) as [rc1 m1] eqn:Hl.
  destruct (map_pages_loop_spec m pml4 virt phys count (pte_flags_from_map flags) Hspan (Z.to_nat count) m 0 rc1 m1)
    as [[-> St] | (-> & W1 & Hsame)]; [lia|lia| |done| |].
  - split; [done|apply remapped_empty|lia|lia].
  - intros [= <- <-]. destruct (tlb_flush_range_mem pml4 virt count m1) as [E1 E2].
    destruct St as [W1 M K A]. split; [by apply (space_wf_mem m1)|]. left. split; [done|]. split; [done|].
    split; [by apply (space_wf_mem m1)|by apply (remapped_mem _ _ _ _ _ _ m1)| |done].
    intros k Hk. unfold walked. rewrite (udescend_mem m1) by done. by apply K.
  - intros [= <- <-]. split; [done|]. by right.
Qed.

(** ** Flags *)

Lemma pte_flags_no_addr flags : Z.land (pte_flags_from_map flags) VMM_X64_ADDR_MASK = 0.
Proof.
  unfold pte_flags_from_map.
  destruct (has_flag flags PAGING_MAP_WRITE), (has_flag flags PAGING_MAP_USER),
    (has_flag flags PAGING_MAP_GLOBAL), (has_flag flags PAGING_MAP_DEVICE),
    (has_flag flags PAGING_MAP_EXEC); reflexivity.
Qed.

Lemma map_entry_frame pa flags :
  Z.land (map_entry pa (pte_flags_from_map flags)) VMM_X64_ADDR_MASK = Z.land pa VMM_X64_ADDR_MASK.
Proof.
  unfold map_entry. rewrite land_lor_low by done. rewrite land_lor_low by apply pte_flags_no_addr.
  by rewrite <- Z.land_assoc, Z.land_diag.
Qed.

Lemma map_entry_flags pa flags :
  Z.land (map_entry pa (pte_flags_from_map flags)) (u64 (Z.lnot VMM_X64_ADDR_MASK))
  = Z.lor (pte_flags_from_map flags) VMM_X64_PTE_PRESENT.
Proof.
  unfold map_entry. rewrite !Z.land_lor_distr_l, <- Z.land_assoc.
  change (Z.land VMM_X64_ADDR_MASK (u64 (Z.lnot VMM_X64_ADDR_MASK))) with 0. rewrite Z.land_0_r.
  unfold pte_flags_from_map.
  destruct (has_flag flags PAGING_MAP_WRITE), (has_flag flags PAGING_MAP_USER),
    (has_flag flags PAGING_MAP_GLOBAL), (has_flag flags PAGING_MAP_DEVICE),
    (has_flag flags PAGING_MAP_EXEC); reflexivity.
Qed.

(** ** Changing protections *)

Definition frame_of (e : option Z) : option Z := option_map (fun e => Z.land e VMM_X64_ADDR_MASK) e.

Lemma protect_pages_loop_spec n m pml4 virt count i flags rc m' :
  space_wf m pml4 -> user_span virt count -> 0 <= i -> i + Z.of_nat n <= count ->
  protect_pages_loop n m pml4 virt i true (pte_flags_from_map flags) = (rc, m') ->
  space_wf m' pml4 /\ (rc = 0 \/ rc = -1)
  /\ (forall va, user_page va -> frame_of (pte m' pml4 va) = frame_of (pte m pml4 va))
  /\ (forall va, user_page va -> (forall k, i <= k < i + Z.of_nat n -> va <> virt + k * 4096) ->
        pte m' pml4 va = pte m pml4 va)
  /\ (rc = 0 -> forall k, i <= k < i + Z.of_nat n -> exists e,
        pte m pml4 (virt + k * 4096) = Some e
        /\ pte m' pml4 (virt + k * 4096) = Some (map_entry e (pte_flags_from_map flags))).
Proof.
  revert m i. induction n as [|n IH]; intros m i W Sp Hi Hn; cbn [protect_pages_loop].
  { intros [= <- <-]. split; [done|]. split; [auto|]. split; [done|]. split; [done|]. lia. }
  destruct (user_span_page virt count i Sp ltac:(lia)) as [Hpa Hp]. rewrite Hpa, walk_ro by done.
  assert (forall rc0 m0, (-1, m) = (rc0, m0) -> space_wf m0 pml4 /\ (rc0 = 0 \/ rc0 = -1)
    /\ (forall va, user_page va -> frame_of (pte m0 pml4 va) = frame_of (pte m pml4 va))
    /\ (forall va, user_page va -> (forall k, i <= k < i + Z.of_nat (Datatypes.S n) ->
          va <> virt + k * 4096) -> pte m0 pml4 va = pte m pml4 va)
    /\ (rc0 = 0 -> forall k, i <= k < i + Z.of_nat (Datatypes.S n) -> exists e,
          pte m pml4 (virt + k * 4096) = Some e
          /\ pte m0 pml4 (virt + k * 4096) = Some (map_entry e (pte_flags_from_map flags)))) as Hfail.
  { intros rc0 m0 [= <- <-]. split; [done|]. split; [auto|]. split; [done|]. by split. }
  destruct (walked m pml4 (virt + i * 4096) true) as [pt|] eqn:Hw; [|apply Hfail].
  pose proof (udescend_descend _ _ _ _ _ Hw) as Hd.
  set (e := entry m pt (pt_index (virt + i * 4096))).
  assert (pte m pml4 (virt + i * 4096) = if has_flag e VMM_X64_PTE_PRESENT then Some e else None) as Hpte.
  { unfold pte, leaf. by rewrite Hd. }
  destruct (has_flag e VMM_X64_PTE_PRESENT); [|apply Hfail]. simpl negb. cbv iota.
  fold (map_entry e (pte_flags_from_map flags)).
  destruct (page_write_remapped m pml4 virt count i pt (map_entry e (pte_flags_from_map flags)) true
    W Sp ltac:(lia) Hw) as (W1 & [R1 R2] & _).
  rewrite map_entry_present in R1. set (m1 := set_entry _ _ _ _) in *.
  specialize (R1 i ltac:(lia)). intros Hl.
  destruct (IH m1 (i + 1) W1 Sp ltac:(lia) ltac:(lia) Hl) as (W' & Hrc & F & O & D).
  assert (forall va, user_page va -> va <> virt + i * 4096 -> pte m1 pml4 va = pte m pml4 va) as R2'.
  { intros va Hva Hne. apply R2; [done|]. intros k Hk. by assert (k = i) as -> by lia. }
  split; [done|]. split; [done|]. split; [|split].
  - intros va Hva. rewrite F by done. destruct (decide (va = virt + i * 4096)) as [->|]; [|by rewrite R2'].
    rewrite R1, Hpte. simpl. by rewrite map_entry_frame.
  - intros va Hva Hne. rewrite O; [apply R2'; [done|apply Hne; lia]|done|].
    intros k Hk. apply Hne. lia.
  - intros Hz k Hk. destruct (decide (k = i)) as [->|].
    + exists e. split; [done|]. rewrite O; [done|done|]. intros k' Hk'. lia.
    + destruct (D Hz k ltac:(lia)) as (e' & He' & Hm'). exists e'. split; [|done].
      rewrite <- He'. symmetry. apply R2'; [apply (user_span_page virt count); [done|lia]|lia].
Qed.

(** ** TLB *)

(** The operation evicts the translation of [va]. *)
Definition evicts (op : tlb_op) (va : Z) : Prop :=
  match op with Invlpg a => a = va | WriteCr3 _ => True end.

(** Between [m] and [m'] the processor was told to drop its translation of [va]. *)
Definition evicted (m m' : machine) (va : Z) : Prop :=
  exists ops op, m_tlb m' = ops ++ m_tlb m /\ op ∈ ops /\ evicts op va.

Lemma tlb_flush_range_covers pml4 virt count m i :
  vmm_get_current_pml4 m = Z.land pml4 VMM_X64_ADDR_MASK -> 0 <= i < count -> is_u64 virt ->
  evicted m (tlb_flush_range pml4 virt count m) (page_at virt i).
Proof.
  intros Hcur Hi Hv. unfold tlb_flush_range. rewrite (proj2 (Z.eqb_neq count 0)) by lia.
  fold (vmm_get_current_pml4 m). rewrite Hcur, Z.eqb_refl. simpl negb. cbv iota.
  destruct (Z.eqb_spec count 1).
  - assert (i = 0) as -> by lia. exists [Invlpg virt], (Invlpg virt). repeat split; [by left|].
    unfold page_at, evicts. rewrite Z.mul_0_l. change (u64 0) with 0. rewrite Z.add_0_r. by rewrite u64_id.
  - destruct (count <=? _).
    + pose proof (for_up_inv (fun k x => exists ops, m_tlb x = ops ++ m_tlb m
        /\ (i < k -> exists op, op ∈ ops /\ evicts op (page_at virt i))) (Z.to_nat count) 0
        (fun i m => invlpg_addr (u64 (virt + u64 (i * PAGE_SIZE))) m) m) as Hinv.
      destruct Hinv as (ops & E & Hin).
      * exists []. split; [done|lia].
      * intros k x Hk (ops & E & Hin). exists (Invlpg (page_at virt k) :: ops).
        split; [simpl; by rewrite E|]. intros Hlt. destruct (decide (i = k)) as [->|].
        -- exists (Invlpg (page_at virt k)). split; [by left|done].
        -- destruct Hin as (op & ? & ?); [lia|]. exists op. split; [by right|done].
      * destruct Hin as (op & ? & ?); [lia|]. by exists ops, op.
    + eexists [_], _. split; [done|]. split; [by left|done].
Qed.

Lemma walk_level_ro m t i u f r m' : walk_level m t i false u f = (r, m') -> m' = m.
Proof.
  unfold walk_level. destruct (negb (has_flag _ _)); simpl; [by intros [= _ <-]|].
  destruct (u && _); by intros [= _ <-].
Qed.

Lemma walk_to_pt_ro m pml4 va u r m' : walk_to_pt m pml4 va false u = (r, m') -> m' = m.
Proof.
  unfold walk_to_pt. destruct (pml4 =? 0); [by intros [= _ <-]|].
  destruct (walk_level m _ _ false u _) as [[t1|] m1] eqn:E1; apply walk_level_ro in E1 as ->;
    [|by intros [= _ <-]].
  destruct (walk_level m t1 _ false u _) as [[t2|] m2] eqn:E2; apply walk_level_ro in E2 as ->;
    [|by intros [= _ <-]].
  apply walk_level_ro.
Qed.

Lemma clear_pages_cpu n m pml4 virt i u rc m' :
  clear_pages n m pml4 virt i u = (rc, m') -> m_cr3 m' = m_cr3 m /\ m_tlb m' = m_tlb m.
Proof.
  revert m i. induction n as [|n IH]; intros m i; simpl; [by intros [= _ <-]|].
  destruct (walk_to_pt m pml4 _ false u) as [[pt|] m1] eqn:E; apply walk_to_pt_ro in E as ->;
    [|by intros [= _ <-]].
  intros H. by destruct (IH _ _ H) as [-> ->].
Qed.

(** ** Fresh address spaces *)

Lemma fresh_space_wf m root :
  pmm_wf (m_pmm m) -> table_addr root -> root / 4096 < pmm_total_frames (m_pmm m) ->
  bitmap_get (m_pmm m) (root / 4096) = false ->
  (forall i, 0 <= i < 256 -> entry m root i = 0) ->
  space_wf m root /\ forall va, user_page va -> pte m root va = None.
Proof.
  intros W Ht Htot Hb Hz.
  assert (forall path t, user_path path -> descend m root path = Some t -> path = [] /\ t = root) as Hnil.
  { intros [|i path] t (_ & Hs & Hh); simpl; [by intros [= <-]|].
    apply Forall_cons in Hs as [Hi _]. specialize (Hh i eq_refl).
    unfold step. rewrite Hz by (unfold slot in Hi; lia). done. }
  split.
  - split; [done| |].
    + intros path t Hp Hd. by destruct (Hnil path t Hp Hd) as [_ ->].
    + intros p q t Hp Hq H1 H2. destruct (Hnil p t Hp H1) as [-> _]. by destruct (Hnil q t Hq H2) as [-> _].
  - intros va Hva. destruct (pt_path_user va Hva) as [Hp Hl]. unfold pte, leaf.
    destruct (descend m root (pt_path va)) as [t|] eqn:Hd; [|done].
    destruct (Hnil _ t Hp Hd) as [E _]. by rewrite E in Hl.
Qed.

Lemma copy_kernel_half m new src :
  table_addr new -> table_addr src -> new <> src ->
  let m' := for_up 256 256 (fun i m => set_entry m new i (entry m src i)) m in
  (forall i, 256 <= i < 512 -> entry m' new i = entry m src i)
  /\ (forall i, 0 <= i < 256 -> entry m' new i = entry m new i)
  /\ (forall t i, table_addr t -> t <> new -> slot i -> entry m' t i = entry m t i)
  /\ m_pmm m' = m_pmm m.
Proof.
  intros Hn Hs Hne m'.
  pose (I := fun (k : Z) (x : machine) =>
    256 <= k <= 512 ->
    (forall i, 256 <= i < k -> entry x new i = entry m src i)
    /\ (forall i, 0 <= i < 256 -> entry x new i = entry m new i)
    /\ (forall t i, table_addr t -> t <> new -> slot i -> entry x t i = entry m t i)
    /\ m_pmm x = m_pmm m).
  assert (I (256 + Z.of_nat 256) m') as HI.
  { apply for_up_inv; [intros _; split; [lia|done]|].
    intros k x Hk IH Hk1. destruct (IH ltac:(lia)) as (A & B & D & E).
    split; [|split; [|split; [|done]]].
    - intros i Hi. rewrite entry_set_entry by (done || (unfold slot; lia)).
      case_decide as Hd; [destruct Hd as [_ ->]; apply D; [done|done|unfold slot; lia]|apply A].
      destruct (decide (i = k)) as [->|]; [by destruct Hd|lia].
    - intros i Hi. rewrite entry_set_entry by (done || (unfold slot; lia)).
      rewrite decide_False by lia. by apply B.
    - intros t i Ht Htn Hi. rewrite entry_set_entry by (done || (unfold slot; lia)).
      rewrite decide_False by (intros [-> _]; done). by apply D. }
  destruct (HI ltac:(lia)) as (A & B & D & E). split; [exact A|]. by split.
Qed.

(** The table that will be shared is in use, and CR3 points at it. *)
Definition kernel_root_ok (m : machine) : Prop :=
  table_addr (vmm_get_current_pml4 m)
  /\ bitmap_get (m_pmm m) (vmm_get_current_pml4 m / 4096) = false.

Lemma vmm_create_address_space_cases m r m' :
  pmm_wf (m_pmm m) -> kernel_root_ok m -> vmm_create_address_space m = (r, m') ->
  (r = None /\ m' = m)
  \/ exists root, r = Some root /\ space_wf m' root
       /\ (forall va, user_page va -> pte m' root va = None)
       /\ (forall i, 256 <= i < 512 -> entry m' root i = entry m (vmm_get_current_pml4 m) i)
       /\ (forall t i, table_addr t -> t <> root -> slot i -> entry m' t i = entry m t i).
Proof.
  intros W [Hk Hkb]. unfold vmm_create_address_space.
  destruct (alloc_table_phys m) as [new m1] eqn:Hal.
  destruct (alloc_table_phys_cases m new m1 W Hal) as [[-> ->] | HA].
  { simpl. intros [= <- <-]. by left. }
  pose proof (ta_addr _ _ _ HA) as Hn. destruct (ta_frame _ _ _ HA) as [Ff Fb Ft Fw].
  rewrite (proj2 (Z.eqb_neq new 0)) by (destruct Hn; lia).
  assert (vmm_get_current_pml4 m1 = vmm_get_current_pml4 m) as Hcur.
  { unfold vmm_get_current_pml4, read_cr3. by destruct (ta_regs _ _ _ HA) as (-> & _). }
  rewrite Hcur. rewrite (proj2 (Z.eqb_neq (vmm_get_current_pml4 m) 0)) by (destruct Hk; lia).
  rewrite (table_virt_id _ Hn), (table_virt_id _ Hk).
  assert (new <> vmm_get_current_pml4 m) as Hne by (intros E; rewrite <- E in Hkb; congruence).
  destruct (copy_kernel_half m1 new _ Hn Hk Hne) as (C1 & C2 & C3 & C4).
  set (m2 := for_up 256 256 _ m1) in *. clearbody m2.
  intros [= <- <-]. right. exists new. split; [done|].
  destruct (fresh_space_wf m2 new) as [Wn Pn]; rewrite ?C4; [done|done| | | |].
  - rewrite Ft. apply (ta_total _ _ _ HA).
  - rewrite Fb by (destruct Hn; apply Z.div_pos; lia). by rewrite Z.eqb_refl.
  - intros i Hi. rewrite C2 by done. apply (ta_zero _ _ _ HA). unfold slot; lia.
  - split; [done|]. split; [done|]. split.
    + intros i Hi. rewrite C1 by done. apply (ta_other _ _ _ HA); [done|congruence|unfold slot; lia].
    + intros t i Ht Htn Hi. rewrite C3 by done. by apply (ta_other _ _ _ HA).
Qed.

(** ** Properties *)

(** A successful user mapping installs exactly the requested translations.  When
    [vmm_map_pages] returns 0 on a well-formed space, every page of the span queries to its physical
    page with the requested flags, every other user page keeps its entry, and the page-table tree
    stays well formed. *)
Theorem vmm_map_pages_installs m pml4 virt phys count flags m' :
  space_wf m pml4 -> is_u64 virt -> 0 <= count < 0x10000000000000 ->
  has_flag flags PAGING_MAP_USER = true ->
  vmm_map_pages m pml4 virt phys count flags = (0, m') ->
  space_wf m' pml4
  /\ (forall i, 0 <= i < count ->
        vmm_query_page m' pml4 (virt + i * 4096)
        = Some (Z.land (page_at phys i) VMM_X64_ADDR_MASK,
                Z.lor (pte_flags_from_map flags) VMM_X64_PTE_PRESENT))
  /\ (forall va, user_page va -> (forall i, 0 <= i < count -> va <> virt + i * 4096) ->
        pte m' pml4 va = pte m pml4 va).
Proof.
  intros W Hv Hc Hu Hmap.
  destruct (vmm_map_pages_cases m pml4 virt phys count flags 0 m' W Hv Hc Hu Hmap)
    as [W' [(_ & Hspan & [_ [M1 M2] K _]) | [? _]]]; [|done].
  split; [done|]. split; [|exact M2].
  intros i Hi. rewrite query_user; [|done|by apply (user_span_one virt count)].
  destruct (K i Hi) as [t ->]. rewrite M1 by done. unfold new_pte.
  by rewrite map_entry_frame, map_entry_flags.
Qed.

(** C4: mapping is all or nothing.  When [vmm_map_pages] fails, on a bad request, on a page already
    mapped or out of page-table memory half way, every user page translates exactly as before. *)
Theorem vmm_map_pages_rolls_back m pml4 virt phys count flags rc m' :
  space_wf m pml4 -> is_u64 virt -> 0 <= count < 0x10000000000000 ->
  has_flag flags PAGING_MAP_USER = true ->
  vmm_map_pages m pml4 virt phys count flags = (rc, m') -> rc <> 0 ->
  rc = -1 /\ space_wf m' pml4 /\ forall va, user_page va -> pte m' pml4 va = pte m pml4 va.
Proof.
  intros W Hv Hc Hu Hmap Hrc.
  destruct (vmm_map_pages_cases m pml4 virt phys count flags rc m' W Hv Hc Hu Hmap)
    as [W' [(-> & _) | [-> Hsame]]]; done.
Qed.

(** C5: unmapping removes exactly the span.  On a user span [vmm_unmap_pages] either fails without
    touching anything, because some page of the span is not mapped, or leaves no page of the span
    mapped and every other user page as it was. *)
Theorem vmm_unmap_pages_exact m pml4 virt count rc m' :
  space_wf m pml4 -> user_span virt count ->
  vmm_unmap_pages m pml4 virt count = (rc, m') ->
  (rc = 0 /\ space_wf m' pml4
   /\ (forall i, 0 <= i < count -> is_Some (pte m pml4 (virt + i * 4096))
                                   /\ vmm_query_page m' pml4 (virt + i * 4096) = None)
   /\ (forall va, user_page va -> (forall i, 0 <= i < count -> va <> virt + i * 4096) ->
         pte m' pml4 va = pte m pml4 va))
  \/ (rc = -1 /\ m' = m
      /\ exists i, 0 <= i < count /\ vmm_query_page m pml4 (virt + i * 4096) = None).
Proof.
  intros W Sp. pose proof (us_count _ _ Sp) as Hc.
  destruct (all_mapped (Z.to_nat count) m pml4 virt 0) eqn:Hall.
  - pose proof (proj1 (all_mapped_spec (Z.to_nat count) m pml4 virt count 0 W Sp ltac:(lia) ltac:(lia)) Hall) as Hm.
    rewrite Z.add_0_l, Z2Nat.id in Hm by lia.
    destruct (vmm_unmap_pages_ok m pml4 virt count W Sp Hm) as (m1 & -> & W1 & R1 & R2).
    intros [= <- <-]. left. split; [done|]. split; [done|]. split; [|exact R2].
    intros i Hi. split; [by apply Hm|].
    rewrite query_user; [|done|by apply (user_span_one virt count)]. rewrite R1 by done.
    by destruct (walked _ _ _ _).
  - unfold vmm_unmap_pages. pose proof (space_wf_root _ _ W) as [Hroot _].
    rewrite (proj2 (Z.eqb_neq pml4 0)) by lia. rewrite (user_span_validate _ _ Sp), Hall. simpl.
    intros [= <- <-]. right. split; [done|]. split; [done|].
    assert (forall n i, 0 <= i -> i + Z.of_nat n <= count -> all_mapped n m pml4 virt i = false ->
      exists k, i <= k < i + Z.of_nat n /\ vmm_query_page m pml4 (virt + k * 4096) = None) as Hex.
    { intros n. induction n as [|n IH]; intros i Hi Hn; simpl; [done|].
      destruct (user_span_page virt count i Sp ltac:(lia)) as [-> _].
      destruct (vmm_query_page m pml4 (virt + i * 4096)) eqn:Hq.
      - intros Hf. destruct (IH (i + 1) ltac:(lia) ltac:(lia) Hf) as (k & Hk & ?).
        exists k. split; [lia|done].
      - intros _. exists i. split; [lia|done]. }
    destruct (Hex (Z.to_nat count) 0 ltac:(lia) ltac:(lia) Hall) as (k & Hk & ?).
    exists k. split; [lia|done].
Qed.

(** Changing protections never moves a page.  Whatever [vmm_protect_pages] returns for a user
    span, every user page keeps its frame and pages outside the span keep their whole entry; on
    success every page of the span carries the requested flags. *)
Theorem vmm_protect_pages_keeps_frames m pml4 virt count flags rc m' :
  space_wf m pml4 -> user_span virt count -> has_flag flags PAGING_MAP_USER = true ->
  vmm_protect_pages m pml4 virt count flags = (rc, m') ->
  space_wf m' pml4
  /\ (forall va, user_page va -> frame_of (pte m' pml4 va) = frame_of (pte m pml4 va))
  /\ (forall va, user_page va -> (forall i, 0 <= i < count -> va <> virt + i * 4096) ->
        pte m' pml4 va = pte m pml4 va)
  /\ (rc = 0 -> forall i, 0 <= i < count -> exists e,
        pte m pml4 (virt + i * 4096) = Some e
        /\ pte m' pml4 (virt + i * 4096) = Some (map_entry e (pte_flags_from_map flags))).
Proof.
  intros W Sp Hu. pose proof (us_count _ _ Sp) as Hc. unfold vmm_protect_pages.
  assert (forall rc0 m0, (-1, m) = (rc0, m0) -> rc0 <> 0 /\ m0 = m) as Hfail by (by intros ?? [= <- <-]).
  destruct (pml4 =? 0).
  { intros (? & ->)%Hfail. by split. }
  destruct (negb (has_flag flags PAGING_MAP_READ)).
  { intros (? & ->)%Hfail. by split. }
  rewrite (user_span_validate _ _ Sp), Hu, (user_span_range _ _ Sp). simpl.
  destruct (protect_pages_loop _ m pml4 virt 0 true _) as [rc1 m1] eqn:Hl.
  destruct (protect_pages_loop_spec (Z.to_nat count) m pml4 virt count 0 flags rc1 m1 W Sp
    ltac:(lia) ltac:(lia) Hl) as (W1 & Hrc & F & O & D).
  rewrite Z.add_0_l, Z2Nat.id in O, D by lia.
  destruct Hrc as [-> | ->]; intros [= <- <-].
  - destruct (tlb_flush_range_mem pml4 virt count m1) as [E1 E2].
    split; [by apply (space_wf_mem m1)|]. split; [|split].
    + intros va Hva. rewrite (pte_mem m1) by done. by apply F.
    + intros va Hva Hne. rewrite (pte_mem m1) by done. by apply O.
    + intros _ i Hi. destruct (D eq_refl i Hi) as (e & He & He'). exists e. split; [done|].
      by rewrite (pte_mem m1).
  - split; [done|]. split; [done|]. split; [done|]. done.
Qed.

(** No stale translation survives a successful unmap of the active space: after the tables
    were changed, an operation that evicts the translation is issued for every page of the span. *)
Theorem vmm_unmap_pages_flushes_tlb m pml4 virt count m' i :
  is_u64 virt -> vmm_unmap_pages m pml4 virt count = (0, m') ->
  user_span virt count -> vmm_get_current_pml4 m = Z.land pml4 VMM_X64_ADDR_MASK ->
  0 <= i < count ->
  evicted m m' (virt + i * 4096).
Proof.
  intros Hv Hun Sp Hcur Hi. unfold vmm_unmap_pages in Hun.
  destruct (pml4 =? 0); [done|]. destruct (negb _); [done|].
  destruct (all_mapped (Z.to_nat count) m pml4 virt 0) eqn:Hall; simpl in Hun; [|done].
  rewrite (user_span_range _ _ Sp) in Hun.
  destruct (clear_pages _ m pml4 virt 0 true) as [rc1 m1] eqn:Hcl. destruct rc1; [|done|done].
  injection Hun as <-. destruct (clear_pages_cpu _ _ _ _ _ _ _ _ Hcl) as [Ecr3 Etlb].
  destruct (user_span_page virt count i Sp Hi) as [<- _].
  unfold evicted. rewrite <- Etlb. apply tlb_flush_range_covers; [|done|done].
  unfold vmm_get_current_pml4, read_cr3 in *. by rewrite Ecr3.
Qed.

(** A new address space starts empty and shares the kernel.  When [vmm_create_address_space]
    succeeds, the new space is well formed, translates no user page, has the kernel half of the
    current PML4, and no existing table was modified; when it fails, nothing changed. *)
Theorem vmm_create_address_space_fresh m r m' :
  pmm_wf (m_pmm m) -> kernel_root_ok m -> vmm_create_address_space m = (r, m') ->
  match r with
  | None => m' = m
  | Some root =>
      space_wf m' root
      /\ (forall va, user_page va -> pte m' root va = None)
      /\ (forall i, 256 <= i < 512 -> entry m' root i = entry m (vmm_get_current_pml4 m) i)
      /\ (forall t i, table_addr t -> t <> root -> slot i -> entry m' t i = entry m t i)
  end.
Proof.
  intros W Hk Hc. destruct (vmm_create_address_space_cases m r m' W Hk Hc) as [[-> ->] | (root & -> & ?)];
    done.
Qed.

(** The byte length of a span is computed modulo 2^64 and only the wrapped value is checked: a
    request for 2^52 + 1 pages passes the validation of a one-page span. *)
Lemma validate_span_wraps :
  validate_span 0x40000000 0 (2 ^ 52 + 1) true = 0
  /\ validate_map_request 0x40000000 0 (2 ^ 52 + 1)
       (Z.lor PAGING_MAP_READ PAGING_MAP_USER) = 0.
Proof. by vm_compute. Qed.

(** ** A concrete machine

    The machine of [Pmm.ex_pmm] with CR3 in the kernel image, an address space created on it, and
    two user pages mapped there. *)

Definition ex_flags : Z :=
  Z.lor (Z.lor PAGING_MAP_READ PAGING_MAP_WRITE) (Z.lor PAGING_MAP_EXEC PAGING_MAP_USER).
Definition ex_machine0 : machine := mkMachine ex_pmm ∅ 0x101000 0 [].
Definition ex_root : Z := 260 * 4096.
Definition ex_machine1 : machine := (vmm_create_address_space ex_machine0).2.
Definition ex_machine2 : machine := (vmm_map_pages ex_machine1 ex_root 0x40000000 0x170000 2 ex_flags).2.
Definition ex_machine3 : machine := (vmm_unmap_pages ex_machine2 ex_root 0x40000000 2).2.
Strategy expand [ex_machine0 ex_machine1 ex_machine2 ex_machine3].

Lemma ex_kernel_root : kernel_root_ok ex_machine0.
Proof. split; [split; [vm_compute; done|done]|vm_compute; done]. Qed.

Lemma pair_eta {A} (p : Z * A) (x : Z) : p.1 = x -> p = (x, p.2).
Proof. destruct p. by intros <-. Qed.

Lemma ex_create_eq : vmm_create_address_space ex_machine0 = (Some ex_root, ex_machine1).
Proof.
  unfold ex_machine1. destruct (vmm_create_address_space ex_machine0) as [r m] eqn:E. f_equal.
  apply (f_equal fst) in E. vm_compute in E. by symmetry.
Qed.

Lemma ex_space1 : space_wf ex_machine1 ex_root.
Proof.
  destruct (vmm_create_address_space_cases ex_machine0 _ _ ex_pmm_wf ex_kernel_root ex_create_eq)
    as [[? _] | (root & [= <-] & W & _)]; done.
Qed.

Lemma ex_map_eq : vmm_map_pages ex_machine1 ex_root 0x40000000 0x170000 2 ex_flags = (0, ex_machine2).
Proof. unfold ex_machine2. apply pair_eta. vm_compute. reflexivity. Qed.

Lemma ex_space2 : space_wf ex_machine2 ex_root.
Proof.
  apply (vmm_map_pages_cases ex_machine1 ex_root 0x40000000 0x170000 2 ex_flags 0 ex_machine2);
    [apply ex_space1|wsolve|lia|done|apply ex_map_eq].
Qed.

Lemma ex_span : user_span 0x40000000 2.
Proof. split; vm_compute; done. Qed.

Lemma vmm_map_pages_installs_witness :
  space_wf ex_machine2 ex_root
  /\ (forall i, 0 <= i < 2 ->
        vmm_query_page ex_machine2 ex_root (0x40000000 + i * 4096)
        = Some (Z.land (page_at 0x170000 i) VMM_X64_ADDR_MASK,
                Z.lor (pte_flags_from_map ex_flags) VMM_X64_PTE_PRESENT))
  /\ (forall va, user_page va -> (forall i, 0 <= i < 2 -> va <> 0x40000000 + i * 4096) ->
        pte ex_machine2 ex_root va = pte ex_machine1 ex_root va).
Proof.
  apply vmm_map_pages_installs; [apply ex_space1|wsolve|lia|done|apply ex_map_eq].
Defined.

(** Mapping the first page again fails: the second page of the request is already mapped. *)
Definition ex_remap : machine := (vmm_map_pages ex_machine2 ex_root 0x3FFFF000 0x160000 2 ex_flags).2.
Strategy expand [ex_remap].

Lemma ex_remap_eq : vmm_map_pages ex_machine2 ex_root 0x3FFFF000 0x160000 2 ex_flags = (-1, ex_remap).
Proof. unfold ex_remap. apply pair_eta. vm_compute. reflexivity. Qed.

Lemma vmm_map_pages_rolls_back_witness :
  -1 = -1 /\ space_wf ex_remap ex_root
  /\ forall va, user_page va -> pte ex_remap ex_root va = pte ex_machine2 ex_root va.
Proof.
  apply (vmm_map_pages_rolls_back ex_machine2 ex_root 0x3FFFF000 0x160000 2 ex_flags);
    [apply ex_space2|wsolve|lia|done|apply ex_remap_eq|done].
Defined.

Lemma ex_unmap_eq : vmm_unmap_pages ex_machine2 ex_root 0x40000000 2 = (0, ex_machine3).
Proof. unfold ex_machine3. apply pair_eta. vm_compute. reflexivity. Qed.

Lemma vmm_unmap_pages_exact_witness :
  (0 = 0 /\ space_wf ex_machine3 ex_root
   /\ (forall i, 0 <= i < 2 -> is_Some (pte ex_machine2 ex_root (0x40000000 + i * 4096))
                               /\ vmm_query_page ex_machine3 ex_root (0x40000000 + i * 4096) = None)
   /\ (forall va, user_page va -> (forall i, 0 <= i < 2 -> va <> 0x40000000 + i * 4096) ->
         pte ex_machine3 ex_root va = pte ex_machine2 ex_root va))
  \/ (0 = -1 /\ ex_machine3 = ex_machine2
      /\ exists i, 0 <= i < 2 /\ vmm_query_page ex_machine2 ex_root (0x40000000 + i * 4096) = None).
Proof.
  apply vmm_unmap_pages_exact; [apply ex_space2|apply ex_span|apply ex_unmap_eq].
Defined.

Definition ex_protect_flags : Z := Z.lor PAGING_MAP_READ PAGING_MAP_USER.
Definition ex_protect : machine :=
  (vmm_protect_pages ex_machine2 ex_root 0x40000000 2 ex_protect_flags).2.
Strategy expand [ex_protect].

Lemma ex_protect_eq :
  vmm_protect_pages ex_machine2 ex_root 0x40000000 2 ex_protect_flags = (0, ex_protect).
Proof. unfold ex_protect. apply pair_eta. vm_compute. reflexivity. Qed.

Lemma vmm_protect_pages_keeps_frames_witness :
  space_wf ex_protect ex_root
  /\ (forall va, user_page va -> frame_of (pte ex_protect ex_root va) = frame_of (pte ex_machine2 ex_root va))
  /\ (forall va, user_page va -> (forall i, 0 <= i < 2 -> va <> 0x40000000 + i * 4096) ->
        pte ex_protect ex_root va = pte ex_machine2 ex_root va)
  /\ (0 = 0 -> forall i, 0 <= i < 2 -> exists e,
        pte ex_machine2 ex_root (0x40000000 + i * 4096) = Some e
        /\ pte ex_protect ex_root (0x40000000 + i * 4096)
           = Some (map_entry e (pte_flags_from_map ex_protect_flags))).
Proof.
  apply (vmm_protect_pages_keeps_frames ex_machine2 ex_root 0x40000000 2
           ex_protect_flags 0);
    [apply ex_space2|apply ex_span|done|apply ex_protect_eq].
Defined.

(** The same space while it is the active one. *)
Definition ex_active : machine := vmm_switch_pml4 ex_root ex_machine2.
Definition ex_active_unmapped : machine := (vmm_unmap_pages ex_active ex_root 0x40000000 2).2.
Strategy expand [ex_active ex_active_unmapped].

Lemma ex_active_eq : vmm_unmap_pages ex_active ex_root 0x40000000 2 = (0, ex_active_unmapped).
Proof. unfold ex_active_unmapped. apply pair_eta. vm_compute. reflexivity. Qed.

Lemma vmm_unmap_pages_flushes_tlb_witness :
  evicted ex_active ex_active_unmapped (0x40000000 + 1 * 4096).
Proof.
  apply (vmm_unmap_pages_flushes_tlb ex_active ex_root 0x40000000 2 ex_active_unmapped 1);
    [wsolve|apply ex_active_eq|apply ex_span|vm_compute; reflexivity|lia].
Defined.

Lemma vmm_create_address_space_fresh_witness :
  space_wf ex_machine1 ex_root
  /\ (forall va, user_page va -> pte ex_machine1 ex_root va = None)
  /\ (forall i, 256 <= i < 512 ->
        entry ex_machine1 ex_root i = entry ex_machine0 (vmm_get_current_pml4 ex_machine0) i)
  /\ (forall t i, table_addr t -> t <> ex_root -> slot i -> entry ex_machine1 t i = entry ex_machine0 t i).
Proof.
  apply (vmm_create_address_space_fresh ex_machine0 (Some ex_root));
    [apply ex_pmm_wf|apply ex_kernel_root|apply ex_create_eq].
Defined.
