(* ===== verification/VmSpace.v ===== *)
(** Per-process virtual address spaces: [src/mm/vm_space.c] over the page tables of [Vmm].

    A [vm_space_t *] that is never NULL is a record passed and returned; the NULL checks of the C
    functions guard pointers every caller of the kernel takes from a live process, except in
    [vm_space_clone], whose source is an option. *)

From S2P Require Import Prelude Pmm Paging Vmm.

Definition VM_SPACE_SHM_BASE : Z := 0x0000000040000000.
Definition VM_SPACE_SHM_LIMIT : Z := 0x0000000080000000.

Record vm_space := mkVmSpace {
  pml4_phys : Z;
  user_min : Z;
  user_max : Z;
  shm_cursor : Z;
  mapped_pages : Z;
  shm_pages : Z;
  owns_pml4 : Z;
}.
#[export] Instance vm_space_rebuild : Rebuild vm_space := fun s =>
  mkVmSpace (pml4_phys s) (user_min s) (user_max s) (shm_cursor s) (mapped_pages s) (shm_pages s)
            (owns_pml4 s).

(** A process slot before any space is created: all bytes zero. *)
Definition vm_space_zero : vm_space := mkVmSpace 0 0 0 0 0 0 0.
#[export] Instance vm_space_inhabited : Inhabited vm_space := populate vm_space_zero.

(** ** Operations *)

Definition align_up_page (v : Z) : Z :=
  Z.land (u64 (v + (PAGE_SIZE - 1))) (u64 (Z.lnot (PAGE_SIZE - 1))).

Definition vm_space_init_kernel (m : machine) (space : vm_space) : Z * vm_space :=
  let space := space <| pml4_phys := vmm_get_current_pml4 m |> in
  if pml4_phys space =? 0 then (-1, space) else
  (0, space <| user_min := PAGING_USER_VA_MIN |> <| user_max := PAGING_USER_VA_MAX |>
            <| shm_cursor := VM_SPACE_SHM_BASE |> <| mapped_pages := 0 |> <| shm_pages := 0 |>
            <| owns_pml4 := 0 |>).

Definition vm_space_create (m : machine) (space : vm_space) : Z * vm_space * machine :=
  match vmm_create_address_space m with
  | (None, m) => (-1, space, m)
  | (Some pml4, m) =>
      (0, space <| pml4_phys := pml4 |> <| user_min := PAGING_USER_VA_MIN |>
                <| user_max := PAGING_USER_VA_MAX |> <| shm_cursor := VM_SPACE_SHM_BASE |>
                <| mapped_pages := 0 |> <| shm_pages := 0 |> <| owns_pml4 := 1 |>, m)
  end.

Definition vm_space_clone (m : machine) (src : option vm_space) (dst : vm_space)
  : Z * vm_space * machine :=
  match src with
  | None => vm_space_create m dst
  | Some src =>
      if pml4_phys src =? 0 then vm_space_create m dst else
      match vmm_clone_address_space m (pml4_phys src) with
      | (None, m) => (-1, dst, m)
      | (Some pml4, m) =>
          (0, dst <| pml4_phys := pml4 |> <| user_min := user_min src |>
                  <| user_max := user_max src |> <| shm_cursor := VM_SPACE_SHM_BASE |>
                  <| mapped_pages := 0 |> <| shm_pages := 0 |> <| owns_pml4 := 1 |>, m)
      end
  end.

Definition vm_space_destroy (m : machine) (space : vm_space) : vm_space * machine :=
  let m := if negb (owns_pml4 space =? 0) && negb (pml4_phys space =? 0)
           then (vmm_destroy_address_space m (pml4_phys space)).2 else m in
  (space <| pml4_phys := 0 |> <| mapped_pages := 0 |> <| shm_pages := 0 |>
         <| shm_cursor := VM_SPACE_SHM_BASE |> <| owns_pml4 := 0 |>, m).

Definition vm_space_contains_user_range (space : vm_space) (base size : Z) : bool :=
  if size =? 0 then false else
  if negb (paging_is_page_aligned base) then false else
  if negb (Z.land size (PAGE_SIZE - 1) =? 0) then false else
  if negb (paging_range_is_user base size) then false else
  (user_min space <=? base) && (u64 (u64 (base + size) - 1) <=? user_max space).

Definition vm_space_reserve_shm_range (space : vm_space) (page_count : Z) : Z * vm_space :=
  if page_count =? 0 then (0, space) else
  let span := u64 (page_count * PAGE_SIZE) in
  if (span =? 0) || (U64_MAX <? span) then (0, space) else
  let base := align_up_page (shm_cursor space) in
  let next := u64 (base + span) in
  if next <? base then (0, space) else
  if (base <? VM_SPACE_SHM_BASE) || (VM_SPACE_SHM_LIMIT <? next) then (0, space) else
  (base, space <| shm_cursor := next |>).

Definition vm_space_map_user_pages (m : machine) (space : vm_space)
  (virt_addr phys_addr page_count map_flags : Z) : Z * vm_space * machine :=
  let span := u64 (page_count * PAGE_SIZE) in
  if page_count =? 0 then (-1, space, m) else
  if negb (has_flag map_flags PAGING_MAP_USER) then (-1, space, m) else
  if negb (vm_space_contains_user_range space virt_addr span) then (-1, space, m) else
  if negb (paging_is_page_aligned phys_addr) then (-1, space, m) else
  let '(rc, m) := vmm_map_pages m (pml4_phys space) virt_addr phys_addr page_count map_flags in
  if negb (rc =? 0) then (-1, space, m) else
  (0, space <| mapped_pages := u32 (mapped_pages space + u32 page_count) |>, m).

Definition vm_space_unmap_user_pages (m : machine) (space : vm_space) (virt_addr page_count : Z)
  : Z * vm_space * machine :=
  let span := u64 (page_count * PAGE_SIZE) in
  if page_count =? 0 then (-1, space, m) else
  if negb (vm_space_contains_user_range space virt_addr span) then (-1, space, m) else
  let '(rc, m) := vmm_unmap_pages m (pml4_phys space) virt_addr page_count in
  if negb (rc =? 0) then (-1, space, m) else
  if page_count <? mapped_pages space
  then (0, space <| mapped_pages := u32 (mapped_pages space - u32 page_count) |>, m)
  else (0, space <| mapped_pages := 0 |>, m).

Definition vm_space_protect_user_pages (m : machine) (space : vm_space)
  (virt_addr page_count map_flags : Z) : Z * machine :=
  let span := u64 (page_count * PAGE_SIZE) in
  if page_count =? 0 then (-1, m) else
  if negb (has_flag map_flags PAGING_MAP_USER) then (-1, m) else
  if negb (vm_space_contains_user_range space virt_addr span) then (-1, m) else
  vmm_protect_pages m (pml4_phys space) virt_addr page_count map_flags.

Definition vm_space_note_shm_attach (space : vm_space) (page_count : Z) : vm_space :=
  if page_count =? 0 then space else
  space <| shm_pages := u32 (shm_pages space + u32 page_count) |>.

Definition vm_space_note_shm_detach (space : vm_space) (page_count : Z) : vm_space :=
  if page_count =? 0 then space else
  if page_count <? shm_pages space
  then space <| shm_pages := u32 (shm_pages space - u32 page_count) |>
  else space <| shm_pages := 0 |>.

(** ** Invariant *)

(** The limits are the paging limits and the SHM cursor is in its window. *)
Record vm_space_ok (s : vm_space) : Prop := {
  vs_min : user_min s = PAGING_USER_VA_MIN;
  vs_max : user_max s = PAGING_USER_VA_MAX;
  vs_cursor : VM_SPACE_SHM_BASE <= shm_cursor s <= VM_SPACE_SHM_LIMIT;
  vs_align : shm_cursor s mod 4096 = 0;
  vs_mapped : is_u32 (mapped_pages s);
  vs_shm : is_u32 (shm_pages s);
}.

Lemma align_up_page_spec v : is_u64 (v + 4095) -> align_up_page v = (v + 4095) / 4096 * 4096.
Proof.
  intros Hv. unfold align_up_page, PAGE_SIZE. rewrite (u64_id (v + (4096 - 1))) by done.
  apply land_page_mask. done.
Qed.

Lemma contains_user_range_spec s base count :
  vm_space_ok s -> is_u64 base -> 0 <= count < 0x10000000000000 ->
  vm_space_contains_user_range s base (u64 (count * PAGE_SIZE)) = true <-> user_span base count.
Proof.
  intros [Hmin Hmax _ _ _ _] Hb Hc. unfold vm_space_contains_user_range. split.
  - destruct (_ =? 0); [done|]. destruct (paging_is_page_aligned base) eqn:Ha; simpl; [|done].
    apply page_aligned_spec in Ha. destruct (negb _); [done|].
    destruct (paging_range_is_user base _) eqn:Hr; simpl; [|done].
    intros _. by apply user_span_of_range.
  - intros Sp. pose proof Sp as [H1 H2 H3 H4].
    rewrite (user_span_range _ _ Sp), (proj2 (page_aligned_spec base) H1), land_page_low.
    unfold PAGING_USER_VA_MIN, PAGING_USER_VA_MAX, PAGE_SIZE in *.
    rewrite (u64_id (count * 4096)), Z.mod_mul by wsolve.
    rewrite (proj2 (Z.eqb_neq (count * 4096) 0)) by lia. simpl.
    rewrite Hmin, Hmax, (u64_id (base + count * 4096)), u64_id by wsolve.
    by rewrite andb_true_iff, !Z.leb_le.
Qed.

(** ** Reservations in the SHM window *)

(** What one request takes out of the window: the span is the 64-bit product of the count and the page
    size, so that a count of 2^52 pages or more takes less than it asked for. *)
Lemma vm_space_reserve_shm_range_span s count base s' :
  vm_space_ok s ->
  let span := u64 (count * PAGE_SIZE) in
  vm_space_reserve_shm_range s count = (base, s') ->
  (base = 0 /\ s' = s /\ (span = 0 \/ VM_SPACE_SHM_LIMIT < shm_cursor s + span))
  \/ (0 < span /\ base = shm_cursor s /\ s' = s <| shm_cursor := base + span |>
      /\ base + span <= VM_SPACE_SHM_LIMIT /\ span mod 4096 = 0 /\ vm_space_ok s').
Proof.
  intros W span. pose proof W as [_ _ Hcur Hal _ _].
  assert (0 <= span < 2 ^ 64) as Hspan by (apply Z.mod_pos_bound; lia).
  assert (span mod 4096 = 0) as Hsp4 by (unfold span, u64, PAGE_SIZE; Z.div_mod_to_equations; lia).
  unfold vm_space_reserve_shm_range. fold span.
  destruct (Z.eqb_spec count 0) as [->|]; [intros [= <- <-]; auto|].
  unfold VM_SPACE_SHM_BASE, VM_SPACE_SHM_LIMIT in *. rewrite (proj2 (Z.ltb_ge _ span)), orb_false_r by lia.
  destruct (Z.eqb_spec span 0); [intros [= <- <-]; auto|].
  rewrite align_up_page_spec by wsolve.
  assert ((shm_cursor s + 4095) / 4096 * 4096 = shm_cursor s) as -> by (Z.div_mod_to_equations; lia).
  unfold VM_SPACE_SHM_BASE, VM_SPACE_SHM_LIMIT.
  destruct (Z.ltb_spec (u64 (shm_cursor s + span)) (shm_cursor s)).
  { intros [= <- <-]. left. split; [done|]. split; [done|]. right. wsolve. }
  rewrite (proj2 (Z.ltb_ge (shm_cursor s) _)) by lia. simpl orb.
  destruct (Z.ltb_spec 0x80000000 (u64 (shm_cursor s + span))).
  { intros [= <- <-]. left. split; [done|]. split; [done|]. right. wsolve. }
  assert (u64 (shm_cursor s + span) = shm_cursor s + span) as E by (apply u64_id; wsolve).
  rewrite E in *. intros [= <- <-]. right. repeat (split; [done || lia|]).
  destruct W as [W1 W2 _ _ W5 W6]. split; fields; simpl; try done; [unfold VM_SPACE_SHM_BASE, VM_SPACE_SHM_LIMIT; lia|].
  by rewrite Z.add_mod, Hal, Hsp4 by lia.
Qed.

Lemma vm_space_reserve_shm_range_cases s count base s' :
  vm_space_ok s -> 0 <= count < 0x10000000000000 ->
  vm_space_reserve_shm_range s count = (base, s') ->
  (base = 0 /\ s' = s
   /\ (count = 0 \/ VM_SPACE_SHM_LIMIT < shm_cursor s + count * 4096))
  \/ (0 < count /\ base = shm_cursor s /\ s' = s <| shm_cursor := base + count * 4096 |>
      /\ base + count * 4096 <= VM_SPACE_SHM_LIMIT /\ vm_space_ok s').
Proof.
  intros W Hc Hr. apply (vm_space_reserve_shm_range_span s count base s' W) in Hr. unfold PAGE_SIZE in Hr.
  rewrite (u64_id (count * 4096)) in Hr by wsolve.
  destruct Hr as [(-> & -> & [?|?])|(? & ? & ? & ? & _ & ?)]; [left|left|right]; repeat (split; [done || lia|]);
    [left; lia|by right|done].
Qed.

(** Successive requests of [counts] pages: the granted ranges, oldest first, and the final space. *)
Fixpoint reserve_all (s : vm_space) (counts : list Z) : list (Z * Z) * vm_space :=
  match counts with
  | [] => ([], s)
  | c :: cs =>
      let '(base, s) := vm_space_reserve_shm_range s c in
      let '(rs, s) := reserve_all s cs in
      (if base =? 0 then rs else (base, c) :: rs, s)
  end.

Lemma reserve_all_spec counts : forall s rs s',
  vm_space_ok s -> reserve_all s counts = (rs, s') ->
  vm_space_ok s' /\ shm_cursor s <= shm_cursor s'
  /\ (forall i b c, rs !! i = Some (b, c) ->
        c ∈ counts /\ b mod 4096 = 0 /\ 0 < u64 (c * PAGE_SIZE) /\ shm_cursor s <= b
        /\ b + u64 (c * PAGE_SIZE) <= shm_cursor s')
  /\ (forall i j b c b' c', (i < j)%nat -> rs !! i = Some (b, c) -> rs !! j = Some (b', c') ->
        b + u64 (c * PAGE_SIZE) <= b').
Proof.
  induction counts as [|c cs IH]; intros s rs s' W.
  { intros [= <- <-]. split; [done|]. split; [lia|]. split; [intros ???; by rewrite lookup_nil|].
    intros ???????; by rewrite lookup_nil. }
  simpl. destruct (vm_space_reserve_shm_range s c) as [base s1] eqn:Hr.
  destruct (reserve_all s1 cs) as [rs1 s2] eqn:Hrs. intros [= <- <-].
  destruct (vm_space_reserve_shm_range_span s c base s1 W Hr)
    as [(-> & -> & _) | (Hpos & -> & Hs1 & Hlim & _ & W1)].
  { simpl. destruct (IH s rs1 s2 W Hrs) as (? & ? & Hin & ?). repeat (split; [done|]). split; [|done].
    intros i b k (? & ?)%Hin. split; [by right|done]. }
  destruct (IH s1 rs1 s2 W1 Hrs) as (W2 & Hcur & Hin & Hord).
  pose proof (vs_cursor _ W) as Hb. unfold VM_SPACE_SHM_BASE in Hb.
  rewrite (proj2 (Z.eqb_neq (shm_cursor s) 0)) by lia.
  assert (shm_cursor s1 = shm_cursor s + u64 (c * PAGE_SIZE)) as E1 by (by rewrite Hs1; fields).
  rewrite E1 in Hcur, Hin. split; [done|]. split; [lia|]. split.
  - intros [|i] b k; simpl.
    + intros [= <- <-]. split; [by left|]. repeat split; [apply (vs_align _ W)|lia|lia|lia].
    + intros (? & ? & ? & ? & ?)%Hin. split; [by right|]. repeat split; lia || done.
  - intros [|i] [|j] b k b' k' Hij; simpl; try lia.
    + intros [= <- <-] (? & ? & ? & ? & ?)%Hin. lia.
    + apply Hord. lia.
Qed.

(** ** Effect on the frame allocator *)

(** Only frames outside the bitmap's used set were taken. *)
Record pmm_grows (p p' : pmm) : Prop := {
  pg_wf : pmm_wf p';
  pg_total : pmm_total_frames p' = pmm_total_frames p;
  pg_used : forall f, 0 <= f -> bitmap_get p f = false -> bitmap_get p' f = false;
}.

Lemma pmm_grows_refl p : pmm_wf p -> pmm_grows p p.
Proof. by split. Qed.
Lemma pmm_grows_trans p q r : pmm_grows p q -> pmm_grows q r -> pmm_grows p r.
Proof. intros [A1 A2 A3] [B1 B2 B3]. split; [done|congruence|auto]. Qed.

Lemma frame_taken_grows p p' t : frame_taken p p' t -> pmm_grows p p'.
Proof.
  intros [_ F2 F3 F4]. split; [done|done|]. intros f Hf Hu. rewrite F2 by done. by destruct (f =? _).
Qed.

Lemma walk_level_grows m t i c u f r m' :
  pmm_wf (m_pmm m) -> walk_level m t i c u f = (r, m') -> pmm_grows (m_pmm m) (m_pmm m').
Proof.
  intros W. unfold walk_level. destruct (negb (has_flag _ _)).
  - destruct c; simpl; [|intros [= _ <-]; by apply pmm_grows_refl].
    destruct (alloc_table_phys m) as [new m1] eqn:Hal.
    destruct (alloc_table_phys_cases m new m1 W Hal) as [[-> ->] | A].
    + intros [= _ <-]. by apply pmm_grows_refl.
    + pose proof (frame_taken_grows _ _ _ (ta_frame _ _ _ A)) as G.
      destruct (new =? 0); by intros [= _ <-].
  - destruct (u && _); intros [= _ <-]; by apply pmm_grows_refl.
Qed.

Lemma walk_to_pt_grows m pml4 va c u r m' :
  pmm_wf (m_pmm m) -> walk_to_pt m pml4 va c u = (r, m') -> pmm_grows (m_pmm m) (m_pmm m').
Proof.
  intros W. unfold walk_to_pt. destruct (pml4 =? 0); [intros [= _ <-]; by apply pmm_grows_refl|].
  destruct (walk_level m _ _ c u _) as [[t1|] m1] eqn:E1;
    pose proof (walk_level_grows _ _ _ _ _ _ _ _ W E1) as G1; [|by intros [= _ <-]].
  destruct (walk_level m1 t1 _ c u _) as [[t2|] m2] eqn:E2;
    pose proof (walk_level_grows _ _ _ _ _ _ _ _ (pg_wf _ _ G1) E2) as G2;
    [|intros [= _ <-]; by apply (pmm_grows_trans _ (m_pmm m1))].
  intros E3. pose proof (walk_level_grows _ _ _ _ _ _ _ _ (pg_wf _ _ G2) E3).
  apply (pmm_grows_trans _ (m_pmm m1)); [done|]. by apply (pmm_grows_trans _ (m_pmm m2)).
Qed.

Lemma clear_pages_pmm n m pml4 virt i u rc m' :
  clear_pages n m pml4 virt i u = (rc, m') -> m_pmm m' = m_pmm m.
Proof.
  revert m i. induction n as [|n IH]; intros m i; simpl; [by intros [= _ <-]|].
  destruct (walk_to_pt m pml4 _ false u) as [[pt|] m1] eqn:E; apply walk_to_pt_ro in E as ->;
    [|by intros [= _ <-]].
  intros H. by rewrite (IH _ _ H).
Qed.

Lemma vmm_unmap_pages_pmm m pml4 virt count rc m' :
  vmm_unmap_pages m pml4 virt count = (rc, m') -> m_pmm m' = m_pmm m.
Proof.
  unfold vmm_unmap_pages. destruct (pml4 =? 0); [by intros [= _ <-]|].
  destruct (negb _); [by intros [= _ <-]|]. destruct (negb _); [by intros [= _ <-]|].
  destruct (clear_pages _ m pml4 virt 0 _) as [rc1 m1] eqn:E. apply clear_pages_pmm in E.
  destruct rc1; intros [= _ <-]; [|done|done]. by rewrite (proj2 (tlb_flush_range_mem _ _ _ _)).
Qed.

Lemma map_pages_loop_grows n m pml4 virt phys i u f rc m' :
  pmm_wf (m_pmm m) -> map_pages_loop n m pml4 virt phys i u f = (rc, m') ->
  pmm_grows (m_pmm m) (m_pmm m').
Proof.
  revert m i. induction n as [|n IH]; intros m i W; simpl; [intros [= _ <-]; by apply pmm_grows_refl|].
  assert (forall x, pmm_grows (m_pmm m) (m_pmm x) ->
    pmm_grows (m_pmm m) (m_pmm (if 0 <? i then (vmm_unmap_pages x pml4 virt i).2 else x))) as Hundo.
  { intros x Hx. destruct (0 <? i); [|done].
    destruct (vmm_unmap_pages x pml4 virt i) as [rc1 x1] eqn:E. simpl.
    by rewrite (vmm_unmap_pages_pmm _ _ _ _ _ _ E). }
  destruct (walk_to_pt m pml4 _ true u) as [[pt|] m1] eqn:E;
    pose proof (walk_to_pt_grows _ _ _ _ _ _ _ W E) as G; [|intros [= _ <-]; by apply Hundo].
  destruct (has_flag _ _); [intros [= _ <-]; by apply Hundo|].
  intros H. apply (pmm_grows_trans _ (m_pmm m1)); [done|].
  by apply IH in H; [|apply G].
Qed.

Lemma vmm_map_pages_grows m pml4 virt phys count flags rc m' :
  pmm_wf (m_pmm m) -> vmm_map_pages m pml4 virt phys count flags = (rc, m') ->
  pmm_grows (m_pmm m) (m_pmm m').
Proof.
  intros W. unfold vmm_map_pages. destruct (pml4 =? 0); [intros [= _ <-]; by apply pmm_grows_refl|].
  destruct (negb _); [intros [= _ <-]; by apply pmm_grows_refl|].
  destruct (map_pages_loop _ m _ _ _ _ _ _) as [rc1 m1] eqn:E. apply map_pages_loop_grows in E; [|done].
  destruct rc1; intros [= _ <-]; [|done|done]. by rewrite (proj2 (tlb_flush_range_mem _ _ _ _)).
Qed.

(** What a space operation keeps besides the page tables. *)
Record space_step (m : machine) (s : vm_space) (m' : machine) (s' : vm_space) : Prop := {
  ss_grows : pmm_grows (m_pmm m) (m_pmm m');
  ss_ok : vm_space_ok s -> vm_space_ok s';
  ss_cursor : shm_cursor s' = shm_cursor s;
  ss_pml4 : pml4_phys s' = pml4_phys s;
}.

Lemma space_step_refl m s : pmm_wf (m_pmm m) -> space_step m s m s.
Proof. intros W. split; [by apply pmm_grows_refl|done..]. Qed.

Lemma space_step_trans m1 s1 m2 s2 m3 s3 :
  space_step m1 s1 m2 s2 -> space_step m2 s2 m3 s3 -> space_step m1 s1 m3 s3.
Proof.
  intros [A1 A2 A3 A4] [B1 B2 B3 B4]. split; [by apply (pmm_grows_trans _ (m_pmm m2))|auto|congruence|congruence].
Qed.

Lemma set_mapped_ok s v : is_u32 v -> vm_space_ok s -> vm_space_ok (s <| mapped_pages := v |>).
Proof. intros Hv [W1 W2 W3 W4 W5 W6]. by split. Qed.
Lemma set_shm_pages_ok s v : is_u32 v -> vm_space_ok s -> vm_space_ok (s <| shm_pages := v |>).
Proof. intros Hv [W1 W2 W3 W4 W5 W6]. by split. Qed.

Lemma vm_space_map_step m s virt phys count flags rc s' m' :
  pmm_wf (m_pmm m) -> vm_space_map_user_pages m s virt phys count flags = (rc, s', m') ->
  space_step m s m' s'.
Proof.
  intros W. unfold vm_space_map_user_pages. pose proof (space_step_refl m s W) as Hr.
  do 4 (destruct (_ : bool); [by intros [= _ <- <-]|]).
  destruct (vmm_map_pages m _ virt phys count flags) as [rc1 m1] eqn:E.
  apply vmm_map_pages_grows in E; [|done].
  destruct (negb _); intros [= _ <- <-]; (split; [done| |done|done]); [done|].
  intros. apply set_mapped_ok; [apply u32_range|done].
Qed.

Lemma vm_space_unmap_step m s virt count rc s' m' :
  pmm_wf (m_pmm m) -> vm_space_unmap_user_pages m s virt count = (rc, s', m') ->
  space_step m s m' s' /\ m_pmm m' = m_pmm m.
Proof.
  intros W. unfold vm_space_unmap_user_pages. pose proof (space_step_refl m s W) as Hr.
  do 2 (destruct (_ : bool); [by intros [= _ <- <-]|]).
  destruct (vmm_unmap_pages m _ virt count) as [rc1 m1] eqn:E.
  apply vmm_unmap_pages_pmm in E.
  assert (pmm_grows (m_pmm m) (m_pmm m1)) as G by (rewrite E; by apply pmm_grows_refl).
  destruct (negb _); [intros [= _ <- <-]; by split|].
  destruct (_ <? _); intros [= _ <- <-]; (split; [|done]); (split; [done| |done|done]);
    intros; apply set_mapped_ok; (done || apply u32_range || wsolve).
Qed.

Lemma note_attach_step m s count :
  pmm_wf (m_pmm m) -> space_step m s m (vm_space_note_shm_attach s count).
Proof.
  intros W. unfold vm_space_note_shm_attach. pose proof (space_step_refl m s W) as [].
  destruct (_ =? _); split; try done. intros. apply set_shm_pages_ok; [apply u32_range|done].
Qed.

Lemma note_detach_step m s count :
  pmm_wf (m_pmm m) -> space_step m s m (vm_space_note_shm_detach s count).
Proof.
  intros W. unfold vm_space_note_shm_detach. pose proof (space_step_refl m s W) as [].
  destruct (_ =? _); [by split|].
  destruct (_ <? _); split; try done; intros; apply set_shm_pages_ok; (done || apply u32_range || wsolve).
Qed.

(** ** Properties *)

(** C6: SHM reservations never collide.  Whatever sequence of page counts is requested, the ranges
    that [vm_space_reserve_shm_range] takes out of the window for the granted requests are page
    aligned, non-empty, inside the SHM window and pairwise disjoint.  A range has the bytes of the
    64-bit span the function computes: all the pages asked for when the count is below 2^52, fewer
    beyond (see [reserve_span_wraps]). *)
Theorem vm_space_reservations_disjoint s counts rs s' :
  vm_space_ok s -> reserve_all s counts = (rs, s') ->
  vm_space_ok s'
  /\ (forall i b c, rs !! i = Some (b, c) ->
        c ∈ counts /\ b mod 4096 = 0 /\ 0 < u64 (c * PAGE_SIZE)
        /\ VM_SPACE_SHM_BASE <= b /\ b + u64 (c * PAGE_SIZE) <= VM_SPACE_SHM_LIMIT
        /\ (0 <= c < 0x10000000000000 -> u64 (c * PAGE_SIZE) = c * 4096))
  /\ (forall i j b c b' c' a, i <> j -> rs !! i = Some (b, c) -> rs !! j = Some (b', c') ->
        b <= a < b + u64 (c * PAGE_SIZE) -> ~ (b' <= a < b' + u64 (c' * PAGE_SIZE))).
Proof.
  intros W Hrs. destruct (reserve_all_spec counts s rs s' W Hrs) as (W' & _ & Hin & Hord).
  split; [done|]. pose proof (vs_cursor _ W). pose proof (vs_cursor _ W'). split.
  - intros i b c (? & ? & ? & ? & ?)%Hin. repeat (split; [lia || done|]). unfold PAGE_SIZE.
    intros. apply u64_id. wsolve.
  - intros i j b c b' c' a Hij Hi Hj Ha.
    destruct (decide (i < j)%nat); [pose proof (Hord i j _ _ _ _ ltac:(done) Hi Hj)
                                   |pose proof (Hord j i _ _ _ _ ltac:(lia) Hj Hi)]; lia.
Qed.

(** A request for 2^52 + 1 pages is granted a single one: the span wraps. *)
Lemma reserve_span_wraps s :
  vm_space_ok s -> shm_cursor s + 4096 <= VM_SPACE_SHM_LIMIT ->
  vm_space_reserve_shm_range s (2 ^ 52 + 1) = (shm_cursor s, s <| shm_cursor := shm_cursor s + 4096 |>).
Proof.
  intros W Hlim. destruct (vm_space_reserve_shm_range s (2 ^ 52 + 1)) as [b s'] eqn:Hr.
  pose proof (vm_space_reserve_shm_range_span s _ b s' W Hr) as H.
  change (u64 ((2 ^ 52 + 1) * PAGE_SIZE)) with 4096 in H.
  destruct H as [(_ & _ & [?|?])|(_ & -> & -> & _)]; [lia|lia|done].
Qed.

(** User mapping through a space is confined, accounted and all or nothing.  On success the
    span lies inside the limits of the space, queries to the requested frames, every other user page
    is untouched and the page counter grew by the span; otherwise the space is unchanged and every
    user page translates as before. *)
Theorem vm_space_map_user_pages_spec m s virt phys count flags rc s' m' :
  vm_space_ok s -> space_wf m (pml4_phys s) -> is_u64 virt -> 0 <= count < 0x10000000000000 ->
  vm_space_map_user_pages m s virt phys count flags = (rc, s', m') ->
  space_wf m' (pml4_phys s) /\
  ((rc = 0 /\ user_min s <= virt /\ virt + count * 4096 - 1 <= user_max s
    /\ s' = s <| mapped_pages := u32 (mapped_pages s + count) |>
    /\ (forall i, 0 <= i < count ->
          vmm_query_page m' (pml4_phys s) (virt + i * 4096)
          = Some (Z.land (page_at phys i) VMM_X64_ADDR_MASK,
                  Z.lor (pte_flags_from_map flags) VMM_X64_PTE_PRESENT))
    /\ (forall va, user_page va -> (forall i, 0 <= i < count -> va <> virt + i * 4096) ->
          pte m' (pml4_phys s) va = pte m (pml4_phys s) va))
   \/ (rc = -1 /\ s' = s
       /\ forall va, user_page va -> pte m' (pml4_phys s) va = pte m (pml4_phys s) va)).
Proof.
  intros W Sw Hv Hc. unfold vm_space_map_user_pages.
  assert (forall rc0 s0 m0, (-1, s, m) = (rc0, s0, m0) -> rc0 = -1 /\ s0 = s /\ m0 = m) as Hfail
    by (by intros ??? [= <- <- <-]).
  destruct (Z.eqb_spec count 0); [intros (-> & -> & ->)%Hfail; split; [done|by right]|].
  destruct (has_flag flags PAGING_MAP_USER) eqn:Hu; simpl;
    [|intros (-> & -> & ->)%Hfail; split; [done|by right]].
  destruct (vm_space_contains_user_range s virt _) eqn:Hr; simpl;
    [|intros (-> & -> & ->)%Hfail; split; [done|by right]].
  apply contains_user_range_spec in Hr; [|done..].
  destruct (paging_is_page_aligned phys) eqn:Hp; simpl;
    [|intros (-> & -> & ->)%Hfail; split; [done|by right]].
  destruct (vmm_map_pages m (pml4_phys s) virt phys count flags) as [rc1 m1] eqn:Hmap.
  destruct (vmm_map_pages_cases m _ virt phys count flags rc1 m1 Sw Hv Hc Hu Hmap)
    as [Sw' [(-> & Hspan & [_ [M1 M2] K _]) | [-> Hsame]]]; simpl.
  - intros [= <- <- <-]. split; [done|]. left. split; [done|].
    rewrite (vs_min _ W), (vs_max _ W). split; [apply Hspan|]. split; [apply Hspan|].
    split; [fields; f_equal; unfold u32; by rewrite Zplus_mod_idemp_r|]. split; [|exact M2].
    intros i Hi. rewrite query_user; [|done|by apply (user_span_one virt count)].
    destruct (K i Hi) as [t ->]. rewrite M1 by done. unfold new_pte.
    by rewrite map_entry_frame, map_entry_flags.
  - intros [= <- <- <-]. split; [done|]. by right.
Qed.

(** ** A concrete space *)

Definition ex_space : vm_space :=
  mkVmSpace ex_root PAGING_USER_VA_MIN PAGING_USER_VA_MAX VM_SPACE_SHM_BASE 0 0 1.

Lemma ex_space_ok : vm_space_ok ex_space.
Proof. split; vm_compute; (done || split; done). Qed.

(** The third request does not fit the window and is refused; the fourth is served after it; the last
    one wraps and is served one page. *)
Definition ex_counts : list Z := [3; 0x30000; 0x20000; 5; 2 ^ 52 + 1].
Definition ex_ranges : list (Z * Z) :=
  [(0x40000000, 3); (0x40003000, 0x30000); (0x70003000, 5); (0x70008000, 2 ^ 52 + 1)].

Lemma ex_reserve_eq :
  reserve_all ex_space ex_counts = (ex_ranges, ex_space <| shm_cursor := 0x70009000 |>).
Proof. vm_compute. reflexivity. Qed.

Lemma vm_space_reservations_disjoint_witness :
  vm_space_ok (ex_space <| shm_cursor := 0x70009000 |>)
  /\ (forall i b c, ex_ranges !! i = Some (b, c) ->
        c ∈ ex_counts /\ b mod 4096 = 0 /\ 0 < u64 (c * PAGE_SIZE)
        /\ VM_SPACE_SHM_BASE <= b /\ b + u64 (c * PAGE_SIZE) <= VM_SPACE_SHM_LIMIT
        /\ (0 <= c < 0x10000000000000 -> u64 (c * PAGE_SIZE) = c * 4096))
  /\ (forall i j b c b' c' a, i <> j -> ex_ranges !! i = Some (b, c) -> ex_ranges !! j = Some (b', c') ->
        b <= a < b + u64 (c * PAGE_SIZE) -> ~ (b' <= a < b' + u64 (c' * PAGE_SIZE))).
Proof.
  apply (vm_space_reservations_disjoint ex_space ex_counts); [apply ex_space_ok|apply ex_reserve_eq].
Defined.

Definition ex_map : Z * vm_space * machine :=
  vm_space_map_user_pages ex_machine1 ex_space 0x40000000 0x170000 2 ex_flags.
Definition ex_map_m : machine := ex_map.2.

Lemma ex_map_user_eq :
  vm_space_map_user_pages ex_machine1 ex_space 0x40000000 0x170000 2 ex_flags
  = (0, ex_space <| mapped_pages := 2 |>, ex_map_m).
Proof.
  unfold ex_map_m, ex_map. destruct (vm_space_map_user_pages _ _ _ _ _ _) as [[rc s] m] eqn:E.
  apply (f_equal fst) in E. vm_compute in E. injection E as <- <-. reflexivity.
Qed.

Lemma vm_space_map_user_pages_spec_witness :
  space_wf ex_map_m ex_root /\
  ((0 = 0 /\ user_min ex_space <= 0x40000000 /\ 0x40000000 + 2 * 4096 - 1 <= user_max ex_space
    /\ ex_space <| mapped_pages := 2 |> = ex_space <| mapped_pages := u32 (mapped_pages ex_space + 2) |>
    /\ (forall i, 0 <= i < 2 ->
          vmm_query_page ex_map_m ex_root (0x40000000 + i * 4096)
          = Some (Z.land (page_at 0x170000 i) VMM_X64_ADDR_MASK,
                  Z.lor (pte_flags_from_map ex_flags) VMM_X64_PTE_PRESENT))
    /\ (forall va, user_page va -> (forall i, 0 <= i < 2 -> va <> 0x40000000 + i * 4096) ->
          pte ex_map_m ex_root va = pte ex_machine1 ex_root va))
   \/ (0 = -1 /\ ex_space <| mapped_pages := 2 |> = ex_space
       /\ forall va, user_page va -> pte ex_map_m ex_root va = pte ex_machine1 ex_root va)).
Proof.
  apply (vm_space_map_user_pages_spec ex_machine1 ex_space 0x40000000 0x170000 2 ex_flags);
    [apply ex_space_ok|apply ex_space1|wsolve|lia|apply ex_map_user_eq].
Defined.
