(* ===== verification/ProcessData.v ===== *)
(** The process record: [src/proc/process.h].

    A [process_t *] into [g_processes] is a slot number, [None] for NULL.  A C character buffer is
    the list of its characters before the terminating NUL.  Function pointers, stack pointers and
    open-file handles are addresses, 0 for NULL. *)

From S2P Require Import Prelude Pmm Paging Vmm VmSpace.

Definition PROCESS_MAX_COUNT : Z := 256.
Definition PROCESS_NAME_MAX : Z := 48.
Definition PROCESS_CMDLINE_MAX : Z := 256.
Definition PROCESS_STACK_SIZE : Z := 32 * 1024.
Definition PROCESS_MAX_SIGNALS : Z := 64.
Definition PROCESS_MAX_CHILDREN : Z := 32.
Definition PROCESS_CWD_MAX : Z := 256.
Definition PROCESS_MAX_OPEN_FILES : Z := 32.
Definition PROCESS_PRIORITY_LEVELS : Z := 256.
Definition PROCESS_DEFAULT_PRIORITY : Z := 128.
Definition PROCESS_DEFAULT_TIMESLICE : Z := 4.
Definition PROCESS_WAIT_WNOHANG : Z := 0x1.
Definition PROCESS_SIG_DFL : Z := 0.
Definition PROCESS_SIG_IGN : Z := 1.
Definition PROCESS_SIGINT : Z := 2.
Definition PROCESS_SIGKILL : Z := 9.
Definition PROCESS_SIGUSR1 : Z := 10.

Inductive process_state : Type :=
  | PROCESS_CREATED | PROCESS_READY | PROCESS_RUNNING | PROCESS_BLOCKED | PROCESS_SLEEPING
  | PROCESS_STOPPED | PROCESS_ZOMBIE | PROCESS_DEAD.
#[export] Instance process_state_eq_dec : EqDecision process_state.
Proof. solve_decision. Defined.

Inductive thread_state : Type :=
  | THREAD_CREATED | THREAD_READY | THREAD_RUNNING | THREAD_BLOCKED | THREAD_SLEEPING
  | THREAD_STOPPED | THREAD_ZOMBIE | THREAD_DEAD.
#[export] Instance thread_state_eq_dec : EqDecision thread_state.
Proof. solve_decision. Defined.

Inductive signal_action : Type :=
  | SIGNAL_ACTION_DEFAULT | SIGNAL_ACTION_IGNORE | SIGNAL_ACTION_HANDLER.

Record signal_action_slot := mkSigAction {
  sa_handler : Z;
  sa_mask : Z;
  sa_flags : Z;
  sa_action : signal_action;
}.
#[export] Instance signal_action_slot_rebuild : Rebuild signal_action_slot := fun s =>
  mkSigAction (sa_handler s) (sa_mask s) (sa_flags s) (sa_action s).
Definition sig_action_zero : signal_action_slot := mkSigAction 0 0 0 SIGNAL_ACTION_DEFAULT.
#[export] Instance signal_action_slot_inhabited : Inhabited signal_action_slot := populate sig_action_zero.

Record fd_entry := mkFd {
  fd_fd : Z;
  fd_flags : Z;
  fd_offset : Z;
  fd_file_desc : Z;
}.
#[export] Instance fd_entry_rebuild : Rebuild fd_entry := fun f =>
  mkFd (fd_fd f) (fd_flags f) (fd_offset f) (fd_file_desc f).
Definition fd_zero : fd_entry := mkFd 0 0 0 0.
#[export] Instance fd_entry_inhabited : Inhabited fd_entry := populate fd_zero.

Record thread := mkThread {
  tid : Z;
  th_cpu_id : Z;
  th_state : thread_state;
  th_priority : Z;
  th_time_slice : Z;
  th_sched_ticks : Z;
  th_kernel_rsp : Z;
  th_kernel_stack : Z;
  th_user_rsp : Z;
  th_entry : Z;
  th_process : option Z;
  th_next_queue : option Z;
  th_prev_queue : option Z;
}.
#[export] Instance thread_rebuild : Rebuild thread := fun t =>
  mkThread (tid t) (th_cpu_id t) (th_state t) (th_priority t) (th_time_slice t) (th_sched_ticks t)
    (th_kernel_rsp t) (th_kernel_stack t) (th_user_rsp t) (th_entry t) (th_process t)
    (th_next_queue t) (th_prev_queue t).
Definition thread_zero : thread := mkThread 0 0 THREAD_CREATED 0 0 0 0 0 0 0 None None None.

Record process := mkProcess {
  pid : Z;
  ppid : Z;
  pgid : Z;
  sid : Z;
  uid : Z;
  gid : Z;
  cpu_id : Z;
  state : process_state;
  is_idle : bool;
  kill_pending : Z;
  kernel_rsp : Z;
  kernel_stack : Z;
  kernel_stack_phys : Z;
  kernel_stack_from_pmm : bool;
  p_entry : Z;
  main_thread : thread;
  va_space : bool;                 (* NULL, or the address of this record's own vm_space *)
  user_stack : Z;
  user_entry : Z;
  wait_status : Z;
  exit_code : Z;
  exit_signal : Z;
  ticks : Z;
  created_time : Z;
  exit_time : Z;
  signal_mask : Z;
  signal_pending : Z;
  signal_handlers : list Z;
  sig_actions : list signal_action_slot;
  p_vm_space : vm_space;
  shm_attachment_count : Z;
  tty_id : Z;
  cwd : list Z;
  cmdline : list Z;
  open_files : list Z;
  fds : list fd_entry;
  next_fd : Z;
  used : bool;
  name : list Z;
  priority : Z;
  time_slice : Z;
  sched_ticks : Z;
  next_queue : option Z;
  prev_queue : option Z;
  parent : option Z;
  children : list (option Z);
  child_count : Z;
  rq_next : option Z;
  parent_next_child : option Z;
  children_head : option Z;
}.
#[export] Instance process_rebuild : Rebuild process := fun p =>
  mkProcess (pid p) (ppid p) (pgid p) (sid p) (uid p) (gid p) (cpu_id p) (state p) (is_idle p)
    (kill_pending p) (kernel_rsp p) (kernel_stack p) (kernel_stack_phys p) (kernel_stack_from_pmm p)
    (p_entry p) (main_thread p) (va_space p) (user_stack p) (user_entry p) (wait_status p)
    (exit_code p) (exit_signal p) (ticks p) (created_time p) (exit_time p) (signal_mask p)
    (signal_pending p) (signal_handlers p) (sig_actions p) (p_vm_space p) (shm_attachment_count p)
    (tty_id p) (cwd p) (cmdline p) (open_files p) (fds p) (next_fd p) (used p) (name p) (priority p)
    (time_slice p) (sched_ticks p) (next_queue p) (prev_queue p) (parent p) (children p)
    (child_count p) (rq_next p) (parent_next_child p) (children_head p).

(** A process record whose bytes are all zero. *)
Definition process_zero : process :=
  mkProcess 0 0 0 0 0 0 0 PROCESS_CREATED false 0 0 0 0 false 0 thread_zero false 0 0 0 0 0 0 0 0 0 0
    (repeat 0 64) (repeat sig_action_zero 64) vm_space_zero 0 0 [] [] (repeat 0 32) (repeat fd_zero 32)
    0 false [] 0 0 0 None None None (repeat None 32) 0 None None None.
#[export] Instance process_inhabited : Inhabited process := populate process_zero.

(** Where the SHM window of a process starts: [VM_SPACE_SHM_BASE + (pid % 64) * 16 MiB]. *)
Definition shm_window (pid : Z) : Z := u64 (VM_SPACE_SHM_BASE + pid mod 64 * 0x01000000).
