(* ===== verification/Shm.v ===== *)
(** Shared-memory regions: the x86_64 half of [src/ipc/shm.c].

    The tables behind [g_shm_lock] are [shm_sys]; each stretch of code between [spin_lock] and
    [spin_unlock] is one definition, and each public function is the composition of its sections
    with the calls it makes between them.  A pointer into a table is an index. *)

From S2P Require Import Prelude Pmm Paging Vmm VmSpace ProcessData.

Definition SHM_MAX_REGIONS : Z := 64.
Definition SHM_MAX_ATTACHMENTS : Z := 256.
Definition SHM_CLEANUP_BATCH : Z := 256.

Record shm_region := mkRegion {
  rg_id : Z;
  owner_pid : Z;
  phys_base : Z;
  rg_size : Z;
  rg_page_count : Z;
  ref_count : Z;
  destroy_pending : bool;
  rg_in_use : bool;
}.
#[export] Instance shm_region_rebuild : Rebuild shm_region := fun r =>
  mkRegion (rg_id r) (owner_pid r) (phys_base r) (rg_size r) (rg_page_count r) (ref_count r)
    (destroy_pending r) (rg_in_use r).
Definition region_zero : shm_region := mkRegion 0 0 0 0 0 0 false false.
#[export] Instance shm_region_inhabited : Inhabited shm_region := populate region_zero.

Record shm_attachment := mkAttachment {
  at_in_use : bool;
  at_shm_id : Z;
  at_pid : Z;
  virt_base : Z;
  at_page_count : Z;
}.
#[export] Instance shm_attachment_rebuild : Rebuild shm_attachment := fun a =>
  mkAttachment (at_in_use a) (at_shm_id a) (at_pid a) (virt_base a) (at_page_count a).
Definition attachment_zero : shm_attachment := mkAttachment false 0 0 0 0.
#[export] Instance shm_attachment_inhabited : Inhabited shm_attachment := populate attachment_zero.

Record shm_sys := mkShm {
  g_regions : list shm_region;
  g_attachments : list shm_attachment;
  g_next_shm_id : Z;
}.
#[export] Instance shm_sys_rebuild : Rebuild shm_sys := fun s =>
  mkShm (g_regions s) (g_attachments s) (g_next_shm_id s).
Definition shm_zero : shm_sys := mkShm (repeat region_zero 64) (repeat attachment_zero 256) 1.

Definition set_region (k : Z) (r : shm_region) (sh : shm_sys) : shm_sys :=
  sh <| g_regions := aset k r (g_regions sh) |>.
Definition set_attachment (k : Z) (a : shm_attachment) (sh : shm_sys) : shm_sys :=
  sh <| g_attachments := aset k a (g_attachments sh) |>.

(** ** Table searches *)

Definition shm_find_region_locked (id : Z) (sh : shm_sys) : option Z :=
  find_index (fun r => rg_in_use r && (rg_id r =? id)) (g_regions sh).

Definition shm_alloc_region_locked (sh : shm_sys) : option Z :=
  find_index (fun r => negb (rg_in_use r)) (g_regions sh).

Definition shm_find_attachment_locked (pid shm_id : Z) (sh : shm_sys) : option Z :=
  find_index (fun a => at_in_use a && ((at_pid a =? pid) && (at_shm_id a =? shm_id)))
    (g_attachments sh).

Definition shm_find_attachment_by_addr_locked (pid virt_addr : Z) (sh : shm_sys) : option Z :=
  find_index (fun a => at_in_use a && ((at_pid a =? pid) && (virt_base a =? virt_addr)))
    (g_attachments sh).

Definition shm_alloc_attachment_locked (sh : shm_sys) : option Z :=
  find_index (fun a => negb (at_in_use a)) (g_attachments sh).

(** ** Regions *)

Definition shm_reap_region_locked (k : Z) (m : machine) (sh : shm_sys) : machine * shm_sys :=
  let r := aget (g_regions sh) k in
  if negb (rg_in_use r) then (m, sh) else
  if negb (destroy_pending r) || negb (ref_count r =? 0) then (m, sh) else
  let phys := phys_base r in
  let pages := rg_page_count r in
  let sh := set_region k (mkRegion 0 0 0 0 0 0 false false) sh in
  if negb (phys =? 0) && negb (pages =? 0)
  then (m <| m_pmm := pmm_free_pages (m_pmm m) phys pages |>, sh)
  else (m, sh).

(** [find_region(id)] followed by a reap when it is found. *)
Definition shm_reap_id (id : Z) (m : machine) (sh : shm_sys) : machine * shm_sys :=
  match shm_find_region_locked id sh with
  | Some k => shm_reap_region_locked k m sh
  | None => (m, sh)
  end.

(** [r = find_region(id); if (r && r->ref_count > 0) r->ref_count--;] *)
Definition shm_unref (id : Z) (sh : shm_sys) : shm_sys :=
  match shm_find_region_locked id sh with
  | Some k =>
      let r := aget (g_regions sh) k in
      if 0 <? ref_count r then set_region k (r <| ref_count := ref_count r - 1 |>) sh else sh
  | None => sh
  end.

(** The two statements on [g_next_shm_id] in [shm_create]. *)
Definition next_shm_id (id : Z) : Z := let n := i32 (id + 1) in if n <? 1 then 1 else n.

Definition shm_create (cur : option process) (size : Z) (m : machine) (sh : shm_sys)
  : Z * machine * shm_sys :=
  if size =? 0 then (-1, m, sh) else
  let page_count := u64 (u64 (size + PAGE_SIZE) - 1) / PAGE_SIZE in
  let '(phys, p) := pmm_alloc_pages (m_pmm m) page_count in
  let m := m <| m_pmm := p |> in
  if phys =? 0 then (-1, m, sh) else
  match shm_alloc_region_locked sh with
  | None => (-1, m <| m_pmm := pmm_free_pages (m_pmm m) phys page_count |>, sh)
  | Some k =>
      let new_id := g_next_shm_id sh in
      let sh := sh <| g_next_shm_id := next_shm_id new_id |> in
      let owner := match cur with Some p => pid p | None => 0 end in
      (new_id, m, set_region k (mkRegion new_id owner phys (u64 (page_count * PAGE_SIZE)) page_count
                                  0 false true) sh)
  end.

(** ** Attaching *)

Inductive attach_start : Type :=
  | AttachNull                                       (* return NULL *)
  | AttachExisting (virt_addr : Z)                   (* already attached *)
  | AttachReserved (virt_addr phys_base page_count : Z).

(** The first locked section of [shm_attach]. *)
Definition shm_attach_reserve (cur : process) (shm_id : Z) (sh : shm_sys)
  : attach_start * process * shm_sys :=
  match shm_find_region_locked shm_id sh with
  | None => (AttachNull, cur, sh)
  | Some k =>
      match shm_find_attachment_locked (pid cur) shm_id sh with
      | Some a => (AttachExisting (virt_base (aget (g_attachments sh) a)), cur, sh)
      | None =>
          let r := aget (g_regions sh) k in
          let '(virt_addr, space) := vm_space_reserve_shm_range (p_vm_space cur) (rg_page_count r) in
          let cur := cur <| p_vm_space := space |> in
          if virt_addr =? 0 then (AttachNull, cur, sh) else
          match shm_alloc_attachment_locked sh with
          | None => (AttachNull, cur, sh)
          | Some a =>
              let sh := set_attachment a (mkAttachment true shm_id (pid cur) virt_addr
                                            (rg_page_count r)) sh in
              let sh := set_region k (r <| ref_count := u32 (ref_count r + 1) |>) sh in
              (AttachReserved virt_addr (phys_base r) (rg_page_count r), cur, sh)
          end
      end
  end.

(** The locked section that undoes a reservation whose mapping failed. *)
Definition shm_attach_undo (pid virt_addr shm_id : Z) (sh : shm_sys) : shm_sys :=
  let sh := match shm_find_attachment_by_addr_locked pid virt_addr sh with
            | Some a => set_attachment a (aget (g_attachments sh) a <| at_in_use := false |>) sh
            | None => sh
            end in
  shm_unref shm_id sh.

Definition shm_attach_flags : Z :=
  Z.lor (Z.lor PAGING_MAP_READ PAGING_MAP_WRITE) (Z.lor PAGING_MAP_EXEC PAGING_MAP_USER).

(** The address is the C result, 0 for NULL. *)
Definition shm_attach (cur : option process) (shm_id : Z) (m : machine) (sh : shm_sys)
  : Z * option process * machine * shm_sys :=
  match cur with
  | None => (0, cur, m, sh)
  | Some p =>
      if shm_id <=? 0 then (0, cur, m, sh) else
      match shm_attach_reserve p shm_id sh with
      | (AttachNull, p, sh) => (0, Some p, m, sh)
      | (AttachExisting virt_addr, p, sh) => (virt_addr, Some p, m, sh)
      | (AttachReserved virt_addr phys page_count, p, sh) =>
          let '(rc, space, m) := vm_space_map_user_pages m (p_vm_space p) virt_addr phys page_count
                                   shm_attach_flags in
          let p := p <| p_vm_space := space |> in
          if negb (rc =? 0) then (0, Some p, m, shm_attach_undo (pid p) virt_addr shm_id sh) else
          let p := p <| p_vm_space := vm_space_note_shm_attach (p_vm_space p) page_count |>
                     <| shm_attachment_count := u32 (shm_attachment_count p + 1) |> in
          (virt_addr, Some p, m, sh)
      end
  end.

(** ** Detaching *)

(** The first locked section of [shm_detach]: [Some (shm_id, page_count, needs_reap)]. *)
Definition shm_detach_release (pid virt_addr : Z) (sh : shm_sys) : option (Z * Z * bool) * shm_sys :=
  match shm_find_attachment_by_addr_locked pid virt_addr sh with
  | None => (None, sh)
  | Some a =>
      let att := aget (g_attachments sh) a in
      let shm_id := at_shm_id att in
      let sh := set_attachment a (att <| at_in_use := false |>) sh in
      let sh := shm_unref shm_id sh in
      let needs_reap := match shm_find_region_locked shm_id sh with
                        | Some k => let r := aget (g_regions sh) k in
                                    destroy_pending r && (ref_count r =? 0)
                        | None => false
                        end in
      (Some (shm_id, at_page_count att, needs_reap), sh)
  end.

Definition shm_detach (cur : option process) (addr : Z) (m : machine) (sh : shm_sys)
  : Z * option process * machine * shm_sys :=
  match cur with
  | None => (-1, cur, m, sh)
  | Some p =>
      if addr =? 0 then (-1, cur, m, sh) else
      match shm_detach_release (pid p) addr sh with
      | (None, sh) => (-1, cur, m, sh)
      | (Some (shm_id, page_count, needs_reap), sh) =>
          let '(unmap_rc, space, m) := vm_space_unmap_user_pages m (p_vm_space p) addr page_count in
          let p := p <| p_vm_space := vm_space_note_shm_detach space page_count |> in
          let p := if 0 <? shm_attachment_count p
                   then p <| shm_attachment_count := shm_attachment_count p - 1 |> else p in
          let p := if shm_attachment_count p =? 0
                   then p <| p_vm_space := p_vm_space p <| shm_cursor := shm_window (pid p) |> |>
                   else p in
          let '(m, sh) := if needs_reap then shm_reap_id shm_id m sh else (m, sh) in
          (unmap_rc, Some p, m, sh)
      end
  end.

(** ** Destroying *)

Definition shm_destroy (shm_id : Z) (m : machine) (sh : shm_sys) : Z * machine * shm_sys :=
  if shm_id <=? 0 then (-1, m, sh) else
  match shm_find_region_locked shm_id sh with
  | None => (-1, m, sh)
  | Some k =>
      let r := aget (g_regions sh) k in
      if 0 <? ref_count r then (-1, m, sh) else
      let sh := set_region k (r <| destroy_pending := true |>) sh in
      let '(m, sh) := shm_reap_region_locked k m sh in
      (0, m, sh)
  end.

(** ** Process exit *)

(** The attachment loop of the first section of [shm_process_cleanup], with its batch of
    (address, pages, id). *)
Definition shm_cleanup_attachments (pid : Z) (sh : shm_sys) : list (Z * Z * Z) * shm_sys :=
  for_up (Z.to_nat SHM_MAX_ATTACHMENTS) 0 (fun i '(batch, sh) =>
    let att := aget (g_attachments sh) i in
    if negb (at_in_use att) || negb (at_pid att =? pid) then (batch, sh) else
    let batch := if Z.of_nat (length batch) <? SHM_CLEANUP_BATCH
                 then batch ++ [(virt_base att, at_page_count att, at_shm_id att)] else batch in
    let sh := shm_unref (at_shm_id att) sh in
    (batch, set_attachment i (att <| at_in_use := false |>) sh)) ([], sh).

(** The region loop of that section: the regions of the process are orphaned. *)
Definition shm_orphan_regions (pid : Z) (sh : shm_sys) : shm_sys :=
  for_up (Z.to_nat SHM_MAX_REGIONS) 0 (fun i sh =>
    let r := aget (g_regions sh) i in
    if negb (rg_in_use r) then sh else
    if owner_pid r =? pid
    then set_region i (r <| owner_pid := 0 |> <| destroy_pending := true |>) sh else sh) sh.

(** The unmapping loop between the sections. *)
Fixpoint shm_cleanup_unmap (batch : list (Z * Z * Z)) (m : machine) (space : vm_space)
  : machine * vm_space :=
  match batch with
  | [] => (m, space)
  | (addr, pages, _) :: batch =>
      let '(_, space, m) := vm_space_unmap_user_pages m space addr pages in
      shm_cleanup_unmap batch m (vm_space_note_shm_detach space pages)
  end.

(** The last section: reap the ids of the batch, then sweep the table. *)
Fixpoint shm_reap_batch (batch : list (Z * Z * Z)) (m : machine) (sh : shm_sys) : machine * shm_sys :=
  match batch with
  | [] => (m, sh)
  | (_, _, id) :: batch => let '(m, sh) := shm_reap_id id m sh in shm_reap_batch batch m sh
  end.

Definition shm_cleanup_reap (batch : list (Z * Z * Z)) (m : machine) (sh : shm_sys)
  : machine * shm_sys :=
  let '(m, sh) := shm_reap_batch batch m sh in
  for_up (Z.to_nat SHM_MAX_REGIONS) 0 (fun i '(m, sh) =>
    if rg_in_use (aget (g_regions sh) i) then shm_reap_region_locked i m sh else (m, sh)) (m, sh).

Definition shm_process_cleanup (p : process) (m : machine) (sh : shm_sys)
  : process * machine * shm_sys :=
  let '(batch, sh) := shm_cleanup_attachments (pid p) sh in
  let sh := shm_orphan_regions (pid p) sh in
  let '(m, space) := shm_cleanup_unmap batch m (p_vm_space p) in
  let p := p <| p_vm_space := space |> <| shm_attachment_count := 0 |> in
  let p := p <| p_vm_space := p_vm_space p <| shm_cursor := shm_window (pid p) |> |> in
  let '(m, sh) := shm_cleanup_reap batch m sh in
  (p, m, sh).

(** ** Statistics *)

Record shm_stats := mkShmStats { region_count : Z; attachment_count : Z; reserved_pages : Z }.
#[export] Instance shm_stats_rebuild : Rebuild shm_stats := fun s =>
  mkShmStats (region_count s) (attachment_count s) (reserved_pages s).

Definition shm_get_stats (sh : shm_sys) : shm_stats :=
  let st := for_up (Z.to_nat SHM_MAX_REGIONS) 0 (fun i st =>
    let r := aget (g_regions sh) i in
    if negb (rg_in_use r) then st else
    st <| region_count := u64 (region_count st + 1) |>
       <| reserved_pages := u64 (reserved_pages st + rg_page_count r) |>) (mkShmStats 0 0 0) in
  for_up (Z.to_nat SHM_MAX_ATTACHMENTS) 0 (fun i st =>
    if at_in_use (aget (g_attachments sh) i)
    then st <| attachment_count := u64 (attachment_count st + 1) |> else st) st.

(** ** Invariant *)

Definition reg (sh : shm_sys) (k : Z) : shm_region := aget (g_regions sh) k.
Definition att (sh : shm_sys) (i : Z) : shm_attachment := aget (g_attachments sh) i.
Definition region_at (sh : shm_sys) (k : Z) : Prop := 0 <= k < 64 /\ rg_in_use (reg sh k) = true.
Definition att_at (sh : shm_sys) (i : Z) : Prop := 0 <= i < 256 /\ at_in_use (att sh i) = true.

(** Attachment [i] is live and belongs to region [id], or to process [pid]. *)
Definition attached (sh : shm_sys) (id i : Z) : bool := at_in_use (att sh i) && (at_shm_id (att sh i) =? id).
Definition held (sh : shm_sys) (pid i : Z) : bool := at_in_use (att sh i) && (at_pid (att sh i) =? pid).
Definition refs (sh : shm_sys) (id : Z) : Z := count_true (attached sh id) 256.
Definition holds (sh : shm_sys) (pid : Z) : Z := count_true (held sh pid) 256.

Definition in_block (r : shm_region) (f : Z) : Prop :=
  phys_base r / 4096 <= f < phys_base r / 4096 + rg_page_count r.

(** The pages of [r] are allocated frames of [p]. *)
Record block_ok (p : pmm) (r : shm_region) : Prop := {
  bk_align : phys_base r mod 4096 = 0;
  bk_base : 0 < phys_base r;
  bk_pages : 0 < rg_page_count r;
  bk_size : rg_size r = rg_page_count r * 4096;
  bk_end : phys_base r / 4096 + rg_page_count r <= pmm_total_frames p;
  bk_used : forall f, in_block r f -> bitmap_get p f = false;
}.

Record shm_ok (p : pmm) (sh : shm_sys) : Prop := {
  sk_pmm : pmm_wf p;
  sk_regions : length (g_regions sh) = 64%nat;
  sk_atts : length (g_attachments sh) = 256%nat;
  sk_next : 1 <= g_next_shm_id sh;
  sk_id : forall k, region_at sh k -> 1 <= rg_id (reg sh k) < g_next_shm_id sh;
  sk_uniq : forall j k, region_at sh j -> region_at sh k -> rg_id (reg sh j) = rg_id (reg sh k) -> j = k;
  sk_refs : forall k, region_at sh k -> ref_count (reg sh k) = refs sh (rg_id (reg sh k));
  sk_live : forall i, att_at sh i -> exists k, region_at sh k /\ rg_id (reg sh k) = at_shm_id (att sh i)
                                              /\ rg_page_count (reg sh k) = at_page_count (att sh i);
  sk_addr : forall i j, att_at sh i -> att_at sh j -> at_pid (att sh i) = at_pid (att sh j) ->
            virt_base (att sh i) = virt_base (att sh j) -> i = j;
  sk_block : forall k, region_at sh k -> block_ok p (reg sh k);
  sk_disjoint : forall j k f, region_at sh j -> region_at sh k -> in_block (reg sh j) f ->
                in_block (reg sh k) f -> j = k;
}.

(** What the invariant says of a process: its space, its attachment count, and that its
    attachments lie below its SHM cursor. *)
Record proc_ok (sh : shm_sys) (p : process) : Prop := {
  po_space : vm_space_ok (p_vm_space p);
  po_count : shm_attachment_count p = holds sh (pid p);
  po_below : forall i, att_at sh i -> at_pid (att sh i) = pid p ->
             virt_base (att sh i) + at_page_count (att sh i) * 4096 <= shm_cursor (p_vm_space p);
}.

(** [(p', sh')] holds no more regions than [(p, sh)], each with its pages, and a frame released
    on the way belonged to a region that is gone. *)
Record shm_shrinks (p : pmm) (sh : shm_sys) (p' : pmm) (sh' : shm_sys) : Prop := {
  sr_region : forall k, region_at sh' k -> region_at sh k /\ rg_id (reg sh' k) = rg_id (reg sh k)
              /\ phys_base (reg sh' k) = phys_base (reg sh k)
              /\ rg_page_count (reg sh' k) = rg_page_count (reg sh k);
  sr_freed : forall f, 0 <= f -> bitmap_get p f = false -> bitmap_get p' f = true ->
             exists k, region_at sh k /\ in_block (reg sh k) f /\ ~ region_at sh' k;
}.

#[export] Instance region_at_dec sh k : Decision (region_at sh k).
Proof. unfold region_at. apply _. Defined.

Lemma shm_shrinks_refl p sh : shm_shrinks p sh p sh.
Proof. split; [done|]. intros f _ H1 H2. by rewrite H1 in H2. Qed.

Lemma shm_shrinks_trans p1 s1 p2 s2 p3 s3 :
  shm_shrinks p1 s1 p2 s2 -> shm_shrinks p2 s2 p3 s3 -> shm_shrinks p1 s1 p3 s3.
Proof.
  intros [A1 A2] [B1 B2]. split.
  - intros k Hk. destruct (B1 k Hk) as (H2 & -> & -> & ->). by apply A1.
  - intros f Hf H1 H3. destruct (bitmap_get p2 f) eqn:H2.
    + destruct (A2 f Hf H1 H2) as (k & ? & ? & Hn). exists k. split; [done|]. split; [done|].
      intros Hk. apply Hn. by apply B1.
    + destruct (B2 f Hf H2 H3) as (k & Hk & Hin & Hn). destruct (A1 k Hk) as (? & _ & E1 & E2).
      exists k. split; [done|]. split; [|done]. unfold in_block in *. by rewrite <- E1, <- E2.
Qed.

(** ** Table updates *)

Lemma length_set_region k r sh : length (g_regions (set_region k r sh)) = length (g_regions sh).
Proof. apply length_aset. Qed.
Lemma length_set_attachment i a sh :
  length (g_attachments (set_attachment i a sh)) = length (g_attachments sh).
Proof. apply length_aset. Qed.

Lemma reg_set_region sh k r j :
  length (g_regions sh) = 64%nat -> 0 <= k < 64 -> 0 <= j ->
  reg (set_region k r sh) j = if decide (j = k) then r else reg sh j.
Proof.
  intros Hl Hk Hj. unfold reg, set_region. fields. case_decide as E.
  - rewrite E. apply aget_aset_eq. rewrite Hl. lia.
  - apply aget_aset_ne; lia.
Qed.

Lemma att_set_attachment sh i a j :
  length (g_attachments sh) = 256%nat -> 0 <= i < 256 -> 0 <= j ->
  att (set_attachment i a sh) j = if decide (j = i) then a else att sh j.
Proof.
  intros Hl Hi Hj. unfold att, set_attachment. fields. case_decide as E.
  - rewrite E. apply aget_aset_eq. rewrite Hl. lia.
  - apply aget_aset_ne; lia.
Qed.

Lemma find_region_Some id sh k :
  length (g_regions sh) = 64%nat ->
  shm_find_region_locked id sh = Some k -> region_at sh k /\ rg_id (reg sh k) = id.
Proof.
  intros Hl (Hk & Hp & _)%find_index_Some. apply andb_true_iff in Hp as [? ?%Z.eqb_eq].
  unfold region_at, reg. rewrite Hl in Hk. split; [split; [lia|done]|done].
Qed.

Lemma find_region_None id sh :
  length (g_regions sh) = 64%nat ->
  shm_find_region_locked id sh = None -> forall k, region_at sh k -> rg_id (reg sh k) <> id.
Proof.
  intros Hl Hf k [Hk Hu] E. unfold shm_find_region_locked in Hf.
  rewrite find_index_None in Hf. specialize (Hf k). rewrite Hl in Hf.
  unfold reg in *. rewrite Hu, E, Z.eqb_refl in Hf. specialize (Hf ltac:(lia)). done.
Qed.

Lemma find_region_is p sh k id :
  shm_ok p sh -> region_at sh k -> rg_id (reg sh k) = id -> shm_find_region_locked id sh = Some k.
Proof.
  intros W Hk E. destruct (shm_find_region_locked id sh) as [j|] eqn:Hf.
  - apply find_region_Some in Hf as [Hj Ej]; [|apply W]. f_equal. apply (sk_uniq _ _ W); [done|done|congruence].
  - destruct (find_region_None id sh (sk_regions _ _ W) Hf k Hk E).
Qed.

Lemma find_att_Some pid v sh i :
  length (g_attachments sh) = 256%nat ->
  shm_find_attachment_by_addr_locked pid v sh = Some i ->
  att_at sh i /\ at_pid (att sh i) = pid /\ virt_base (att sh i) = v.
Proof.
  intros Hl (Hi & Hp & _)%find_index_Some.
  apply andb_true_iff in Hp as [? [?%Z.eqb_eq ?%Z.eqb_eq]%andb_true_iff].
  unfold att_at, att. rewrite Hl in Hi. split; [split; [lia|done]|done].
Qed.

Lemma find_att_is p sh i :
  shm_ok p sh -> att_at sh i ->
  shm_find_attachment_by_addr_locked (at_pid (att sh i)) (virt_base (att sh i)) sh = Some i.
Proof.
  intros W Hi. destruct (shm_find_attachment_by_addr_locked _ _ sh) as [j|] eqn:Hf.
  - apply find_att_Some in Hf as (Hj & E1 & E2); [|apply W]. f_equal. by apply (sk_addr _ _ W).
  - exfalso. unfold shm_find_attachment_by_addr_locked in Hf. rewrite find_index_None in Hf.
    destruct Hi as [Hi Hu]. specialize (Hf i). rewrite (sk_atts _ _ W) in Hf.
    unfold att in *. rewrite Hu, !Z.eqb_refl in Hf. specialize (Hf ltac:(lia)). done.
Qed.

(** ** Primitive transitions *)

Lemma refs_pos sh id i : att_at sh i -> at_shm_id (att sh i) = id -> 0 < refs sh id.
Proof.
  intros [Hi Hu] E. apply (count_true_pos _ _ i); [exact Hi|]. unfold attached.
  by rewrite Hu, E, Z.eqb_refl.
Qed.

Lemma refs_ext sh sh' id : (forall i, att sh' i = att sh i) -> refs sh' id = refs sh id.
Proof. intros E. apply count_true_ext. intros. unfold attached. by rewrite E. Qed.

(** Regions disappear when unreferenced, keep their identity and pages otherwise; attachments stay. *)
Lemma shm_ok_sub p sh p' sh' :
  shm_ok p sh -> pmm_wf p' -> pmm_total_frames p' = pmm_total_frames p ->
  length (g_regions sh') = 64%nat -> g_attachments sh' = g_attachments sh ->
  g_next_shm_id sh' = g_next_shm_id sh ->
  (forall k, region_at sh' k -> region_at sh k /\ rg_id (reg sh' k) = rg_id (reg sh k)
     /\ phys_base (reg sh' k) = phys_base (reg sh k) /\ rg_page_count (reg sh' k) = rg_page_count (reg sh k)
     /\ rg_size (reg sh' k) = rg_size (reg sh k) /\ ref_count (reg sh' k) = ref_count (reg sh k)) ->
  (forall k, region_at sh k -> ~ region_at sh' k -> refs sh (rg_id (reg sh k)) = 0) ->
  (forall k f, region_at sh' k -> in_block (reg sh k) f -> bitmap_get p' f = false) ->
  shm_ok p' sh'.
Proof.
  intros [W1 W2 W3 W4 W5 W6 W7 W8 W9 W10 W11] Wp Et Hl Ea En Hsub Hgone Hused.
  assert (forall i, att sh' i = att sh i) as Eatt by (intros; unfold att; by rewrite Ea).
  assert (forall i, att_at sh' i <-> att_at sh i) as Eat by (intros; unfold att_at; by rewrite Eatt).
  assert (forall id, refs sh' id = refs sh id) as Erefs by (intros; by apply refs_ext).
  split; [done|done|by rewrite Ea|by rewrite En| | | | | | | ].
  - intros k (? & -> & _)%Hsub. rewrite En. by apply W5.
  - intros j k (Hj & -> & _)%Hsub (Hk & -> & _)%Hsub. by apply W6.
  - intros k (Hk & -> & _ & _ & _ & ->)%Hsub. rewrite Erefs. by apply W7.
  - intros i [Hi Hu]%Eat. destruct (W8 i (conj Hi Hu)) as (k & Hk & Eid & Ec).
    destruct (decide (region_at sh' k)) as [Hk'|Hn].
    + exists k. destruct (Hsub k Hk') as (_ & -> & _ & -> & _). by rewrite Eatt.
    + specialize (Hgone k Hk Hn). pose proof (refs_pos sh (rg_id (reg sh k)) i) as Hp.
      exfalso. apply (Z.lt_irrefl 0). rewrite <- Hgone at 2. apply Hp; [done|]. by rewrite Eid.
  - intros i j Hi%Eat Hj%Eat. rewrite !Eatt. by apply W9.
  - intros k Hk. destruct (Hsub k Hk) as (Hk' & _ & E1 & E2 & E3 & _).
    destruct (W10 k Hk') as [B1 B2 B3 B4 B5 B6].
    split; rewrite ?E1, ?E2, ?E3, ?Et; try done.
    intros f Hf. apply (Hused k); [done|]. unfold in_block in *. by rewrite <- E1, <- E2.
  - intros j k f Hj Hk. destruct (Hsub j Hj) as (Hj' & _ & E1 & E2 & _).
    destruct (Hsub k Hk) as (Hk' & _ & E3 & E4 & _). unfold in_block. rewrite E1, E2, E3, E4.
    by apply W11.
Qed.

Lemma block_frame_nonneg p r f : block_ok p r -> in_block r f -> 0 <= f.
Proof.
  intros [B1 B2 _ _ _ _] [Hf _]. etrans; [|exact Hf]. apply Z.div_pos; lia.
Qed.

Lemma shm_ok_grows p p' sh : shm_ok p sh -> pmm_grows p p' -> shm_ok p' sh.
Proof.
  intros W [G1 G2 G3]. apply (shm_ok_sub p sh); [done|done|done|apply W|done|done|done|done|].
  intros k f Hk Hf. pose proof (sk_block _ _ W k Hk) as B. apply G3; [by apply (block_frame_nonneg p (reg sh k))|].
  by apply (bk_used _ _ B).
Qed.

Lemma pmm_grows_shrinks p p' sh : pmm_grows p p' -> shm_shrinks p sh p' sh.
Proof. intros [_ _ G]. split; [done|]. intros f Hf H1 H2. by rewrite G in H2. Qed.

(** A region update that keeps its identity, pages and reference count. *)
Lemma set_region_meta p sh k r :
  shm_ok p sh -> region_at sh k -> rg_in_use r = true -> rg_id r = rg_id (reg sh k) ->
  phys_base r = phys_base (reg sh k) -> rg_page_count r = rg_page_count (reg sh k) ->
  rg_size r = rg_size (reg sh k) -> ref_count r = ref_count (reg sh k) ->
  shm_ok p (set_region k r sh) /\ shm_shrinks p sh p (set_region k r sh).
Proof.
  intros W Hk Hu E1 E2 E3 E4 E5. pose proof (sk_regions _ _ W) as Hl. destruct Hk as [Hk Hin].
  assert (forall j, 0 <= j < 64 -> rg_in_use (reg (set_region k r sh) j) = rg_in_use (reg sh j)
    /\ rg_id (reg (set_region k r sh) j) = rg_id (reg sh j)
    /\ phys_base (reg (set_region k r sh) j) = phys_base (reg sh j)
    /\ rg_page_count (reg (set_region k r sh) j) = rg_page_count (reg sh j)
    /\ rg_size (reg (set_region k r sh) j) = rg_size (reg sh j)
    /\ ref_count (reg (set_region k r sh) j) = ref_count (reg sh j)) as Hsame.
  { intros j Hj. rewrite reg_set_region by (done || lia). case_decide as E; [|done].
    rewrite E, Hu, Hin. done. }
  assert (forall j, region_at (set_region k r sh) j <-> region_at sh j) as Hat.
  { intros j. unfold region_at. split; intros [Hj ?]; (split; [done|]);
      destruct (Hsame j Hj) as (Hx & _); congruence. }
  split.
  - apply (shm_ok_sub p sh); [done|apply W|done|by rewrite length_set_region|done|done| | |].
    + intros j Hj. split; [by apply Hat|]. apply Hsame. apply Hj.
    + intros j Hj Hn. destruct Hn. by apply Hat.
    + intros j f Hj%Hat Hf. by apply (bk_used _ _ (sk_block _ _ W j Hj)).
  - split; [|by intros f _ -> ?].
    intros j Hj. split; [by apply Hat|]. destruct (Hsame j (proj1 Hj)) as (_ & ? & ? & ? & _). done.
Qed.

(** ** Reaping *)

Lemma shm_reap_region_spec k m sh m' sh' :
  shm_ok (m_pmm m) sh -> 0 <= k < 64 -> shm_reap_region_locked k m sh = (m', sh') ->
  shm_ok (m_pmm m') sh' /\ shm_shrinks (m_pmm m) sh (m_pmm m') sh'
  /\ g_attachments sh' = g_attachments sh /\ g_next_shm_id sh' = g_next_shm_id sh
  /\ (forall j, 0 <= j < 64 -> j <> k -> reg sh' j = reg sh j)
  /\ (if decide (region_at sh k /\ destroy_pending (reg sh k) = true /\ ref_count (reg sh k) = 0)
      then ~ region_at sh' k
           /\ (forall f, in_block (reg sh k) f -> bitmap_get (m_pmm m') f = true)
      else m' = m /\ sh' = sh).
Proof.
  intros W Hk. unfold shm_reap_region_locked. fold (reg sh k).
  assert (shm_ok (m_pmm m) sh /\ shm_shrinks (m_pmm m) sh (m_pmm m) sh) as [_ Hrefl]
    by (split; [done|apply shm_shrinks_refl]).
  destruct (rg_in_use (reg sh k)) eqn:Hu; simpl.
  2: { intros [= <- <-]. rewrite decide_False; [done|]. intros ([_ H] & _). congruence. }
  destruct (destroy_pending (reg sh k)) eqn:Hd; simpl.
  2: { intros [= <- <-]. rewrite decide_False; [done|]. intros (_ & H & _). congruence. }
  destruct (Z.eqb_spec (ref_count (reg sh k)) 0) as [Hr|Hr]; simpl.
  2: { intros [= <- <-]. rewrite decide_False; [done|]. intros (_ & _ & H). congruence. }
  assert (region_at sh k) as Hat by done.
  rewrite decide_True by done.
  destruct (sk_block _ _ W k Hat) as [B1 B2 B3 B4 B5 B6].
  rewrite (proj2 (Z.eqb_neq (phys_base _) 0)), (proj2 (Z.eqb_neq (rg_page_count _) 0)) by lia. simpl.
  intros [= <- <-]. fields.
  set (r := reg sh k) in *. set (s := phys_base r / 4096).
  pose proof (sk_pmm _ _ W) as Wp. pose proof (wf_total _ Wp) as Wt.
  assert (phys_base r = s * 4096) as Ephys by (subst s; Z.div_mod_to_equations; lia).
  destruct (pmm_free_pages_spec (m_pmm m) s (rg_page_count r) Wp ltac:(lia) ltac:(subst s; lia) ltac:(lia))
    as (Wq & Etot & _ & Hbits).
  rewrite <- Ephys in *. set (q := pmm_free_pages _ _ _) in *.
  set (sh1 := set_region k _ sh).
  pose proof (sk_regions _ _ W) as Hl.
  assert (forall j, 0 <= j < 64 -> j <> k -> reg sh1 j = reg sh j) as Hother.
  { intros j Hj Hne. subst sh1. rewrite reg_set_region by (done || lia). by rewrite decide_False. }
  assert (~ region_at sh1 k) as Hgone.
  { intros [_ Hx]. subst sh1. rewrite reg_set_region, decide_True in Hx by (done || lia). done. }
  assert (forall j, region_at sh1 j -> j <> k /\ region_at sh j) as Hsub.
  { intros j Hj. assert (j <> k) as Hne by (by intros ->). split; [done|].
    destruct Hj as [Hj Hju]. split; [done|]. by rewrite <- Hother. }
  assert (forall f, bitmap_get q f = true -> bitmap_get (m_pmm m) f = false -> 0 <= f -> in_block r f) as Hfreed.
  { intros f. unfold in_block. fold s. destruct (decide (s <= f < s + rg_page_count r)); [done|].
    intros H1 H2 Hf. rewrite Hbits in H1 by done. rewrite range_false in H1 by lia. congruence. }
  split; [|split; [|split; [|split; [|split; [|split]]]]]; try done.
  - apply (shm_ok_sub (m_pmm m) sh); [done|done|done|subst sh1; by rewrite length_set_region|done|done| | |].
    + intros j Hj. destruct (Hsub j Hj) as [Hne Hj']. split; [done|]. rewrite Hother; [done|apply Hj|done].
    + intros j Hj Hn. destruct (decide (j = k)) as [->|Hne].
      * rewrite <- (sk_refs _ _ W k Hat). done.
      * destruct Hn. destruct Hj as [Hj Hju]. split; [done|]. by rewrite Hother.
    + intros j f Hj Hf. destruct (Hsub j Hj) as [Hne Hj'].
      pose proof (sk_block _ _ W j Hj') as Bj. pose proof (block_frame_nonneg _ _ _ Bj Hf).
      destruct (bitmap_get q f) eqn:Hq; [|done]. exfalso. apply Hne.
      apply (sk_disjoint _ _ W j k f Hj' Hat Hf). apply Hfreed; [done| |done]. by apply (bk_used _ _ Bj).
  - split.
    + intros j Hj. destruct (Hsub j Hj) as [Hne Hj']. split; [done|]. rewrite Hother; [done|apply Hj|done].
    + intros f Hf H1 H2. exists k. split; [done|]. split; [by apply Hfreed|done].
  - intros f Hf. unfold in_block in Hf. fold s in Hf, B5. rewrite Hbits by lia. by rewrite range_true by lia.
Qed.

(** ** Linking and unlinking attachments *)

Lemma refs_set_attachment sh i a id :
  length (g_attachments sh) = 256%nat -> 0 <= i < 256 ->
  refs (set_attachment i a sh) id
  = refs sh id + b2z (at_in_use a && (at_shm_id a =? id)) - b2z (attached sh id i).
Proof.
  intros Hl Hi. unfold refs.
  rewrite (count_true_update _ (attached sh id) 256 i) by
    (try exact Hi; intros j Hj Hne; unfold attached; by rewrite att_set_attachment, decide_False by (done || lia)).
  unfold attached at 2. rewrite att_set_attachment, decide_True by (done || lia). done.
Qed.

Lemma holds_set_attachment sh i a pid :
  length (g_attachments sh) = 256%nat -> 0 <= i < 256 ->
  holds (set_attachment i a sh) pid
  = holds sh pid + b2z (at_in_use a && (at_pid a =? pid)) - b2z (held sh pid i).
Proof.
  intros Hl Hi. unfold holds.
  rewrite (count_true_update _ (held sh pid) 256 i) by
    (try exact Hi; intros j Hj Hne; unfold held; by rewrite att_set_attachment, decide_False by (done || lia)).
  unfold held at 2. rewrite att_set_attachment, decide_True by (done || lia). done.
Qed.

Lemma holds_ext sh sh' pid : (forall i, att sh' i = att sh i) -> holds sh' pid = holds sh pid.
Proof. intros E. apply count_true_ext. intros. unfold held. by rewrite E. Qed.

Lemma holds_same sh sh' q :
  (forall i, 0 <= i < 256 -> held sh' q i = held sh q i) -> holds sh' q = holds sh q.
Proof. intros. by apply count_true_ext. Qed.

Lemma refs_le sh id : 0 <= refs sh id <= 256.
Proof. apply (count_true_bounds (attached sh id) 256). Qed.

Lemma holds_le sh q : 0 <= holds sh q <= 256.
Proof. apply (count_true_bounds (held sh q) 256). Qed.

Lemma holds_pos sh q i : att_at sh i -> at_pid (att sh i) = q -> 0 < holds sh q.
Proof.
  intros [Hi Hu] E. apply (count_true_pos _ _ i); [exact Hi|]. unfold held. by rewrite Hu, E, Z.eqb_refl.
Qed.

Lemma refs_witness sh id : 0 < refs sh id -> exists i, att_at sh i /\ at_shm_id (att sh i) = id.
Proof.
  unfold refs. intros H. destruct (count_true_witness (attached sh id) 256 H) as (i & Hi & Hu).
  change (Z.of_nat 256) with 256 in Hi. apply andb_true_iff in Hu as [Hu E%Z.eqb_eq].
  exists i. done.
Qed.

Lemma holds_none sh q : (forall i, 0 <= i < 256 -> held sh q i = false) -> holds sh q = 0.
Proof.
  intros H. unfold holds. rewrite (count_true_ext _ (fun _ => false)) by exact H.
  by rewrite count_true_false.
Qed.

#[local] Opaque refs holds.

Lemma shm_unref_set_attachment id i a sh :
  shm_unref id (set_attachment i a sh) = set_attachment i a (shm_unref id sh).
Proof.
  unfold shm_unref, shm_find_region_locked, set_attachment, set_region. fields.
  destruct (find_index _ _); [|done]. by destruct (_ <? _).
Qed.

(** What an unlink leaves of a region: everything but the reference count. *)
Definition same_region (r' r : shm_region) : Prop :=
  r' = r <| ref_count := ref_count r' |>.

Lemma same_region_refl r : same_region r r.
Proof. by destruct r. Qed.
Lemma same_region_trans a b c : same_region a b -> same_region b c -> same_region a c.
Proof. unfold same_region. intros -> ->. done. Qed.

(** [release i] clears attachment [i] and drops its reference. *)
Definition release (i : Z) (sh : shm_sys) : shm_sys :=
  set_attachment i (att sh i <| at_in_use := false |>) (shm_unref (at_shm_id (att sh i)) sh).

Lemma release_spec p sh i :
  shm_ok p sh -> att_at sh i ->
  shm_ok p (release i sh) /\ shm_shrinks p sh p (release i sh)
  /\ (forall j, 0 <= j -> att (release i sh) j
                = if decide (j = i) then att sh i <| at_in_use := false |> else att sh j)
  /\ (forall k, 0 <= k < 64 -> same_region (reg (release i sh) k) (reg sh k))
  /\ g_next_shm_id (release i sh) = g_next_shm_id sh.
Proof.
  intros W Hi. destruct (sk_live _ _ W i Hi) as (k & Hk & Eid & Epg).
  unfold release, shm_unref. rewrite (find_region_is p sh k _ W Hk Eid). fold (reg sh k).
  pose proof (refs_pos sh _ i Hi eq_refl) as Hpos. rewrite <- Eid in Hpos.
  pose proof (sk_refs _ _ W k Hk) as Er. rewrite (proj2 (Z.ltb_lt 0 _)) by lia.
  set (r' := reg sh k <| ref_count := _ |>). set (a' := att sh i <| at_in_use := false |>).
  set (sh1 := set_attachment i a' (set_region k r' sh)).
  pose proof (sk_regions _ _ W) as Hlr. pose proof (sk_atts _ _ W) as Hla.
  pose proof (proj1 Hi) as Hi1. pose proof (proj1 Hk) as Hk1.
  assert (forall j, 0 <= j -> att sh1 j = if decide (j = i) then a' else att sh j) as Eatt.
  { intros j Hj. unfold sh1. by rewrite att_set_attachment. }
  assert (forall j, 0 <= j -> reg sh1 j = if decide (j = k) then r' else reg sh j) as Ereg.
  { intros j Hj. change (reg sh1 j) with (reg (set_region k r' sh) j). by rewrite reg_set_region. }
  assert (forall j, 0 <= j -> same_region (reg sh1 j) (reg sh j)) as Hsame.
  { intros j Hj. rewrite Ereg by done. case_decide as E; [|apply same_region_refl].
    rewrite E. unfold same_region, r'. fields. done. }
  assert (forall j, region_at sh1 j <-> region_at sh j) as Hat.
  { intros j. unfold region_at. split; intros [Hj Hu]; (split; [done|]);
      rewrite (Hsame j) in * by lia; exact Hu. }
  assert (forall j, att_at sh1 j -> j <> i /\ att_at sh j) as Haat.
  { intros j [Hj Hu]. rewrite Eatt in Hu by lia. unfold att_at. case_decide; [done|]. done. }
  assert (forall id, refs sh1 id = refs sh id - b2z (attached sh id i)) as Erefs.
  { intros id. unfold sh1. rewrite refs_set_attachment by done. change (at_in_use a') with false. simpl.
    rewrite (refs_ext sh (set_region k r' sh)) by done.
    change (attached (set_region k r' sh) id i) with (attached sh id i). lia. }
  assert (forall j, region_at sh1 j -> region_at sh j /\ rg_id (reg sh1 j) = rg_id (reg sh j)
    /\ phys_base (reg sh1 j) = phys_base (reg sh j)
    /\ rg_page_count (reg sh1 j) = rg_page_count (reg sh j)
    /\ rg_size (reg sh1 j) = rg_size (reg sh j)) as Hsub.
  { intros j Hj. split; [by apply Hat|]. pose proof (Hsame j ltac:(destruct Hj; lia)) as E.
    rewrite E. fields. done. }
  split; [|split; [|split; [|split]]]; [|split| | |done].
  - destruct W as [W1 W2 W3 W4 W5 W6 W7 W8 W9 W10 W11].
    split; [done|by rewrite <- W2; apply (length_set_region k r')|by rewrite <- W3; apply (length_set_attachment i a' (set_region k r' sh))|done| | | | | | |].
    + intros j (Hj & -> & _)%Hsub. by apply W5.
    + intros j l (Hj & -> & _)%Hsub (Hl & -> & _)%Hsub. by apply W6.
    + intros j Hj. destruct (Hsub j Hj) as (Hj' & -> & _). rewrite Erefs.
      unfold attached. rewrite (proj2 Hi). simpl. rewrite Ereg by (destruct Hj; lia).
      case_decide as E.
      * rewrite E, Eid, Z.eqb_refl. unfold r'. fields. simpl. rewrite Er, Eid. done.
      * rewrite (W7 j Hj'). destruct (Z.eqb_spec (at_shm_id (att sh i)) (rg_id (reg sh j))) as [E2|];
          [|simpl; lia]. destruct E. apply W6; [done|done|congruence].
    + intros j (Hne & Hj)%Haat. destruct (W8 j Hj) as (l & Hl & E1 & E2). exists l.
      rewrite Eatt, decide_False by (destruct Hj; lia || done).
      assert (region_at sh1 l) as Hl' by (by apply Hat). destruct (Hsub l Hl') as (_ & -> & _ & -> & _). done.
    + intros j l (Hj1 & Hj)%Haat (Hl1 & Hl)%Haat.
      rewrite !Eatt, !decide_False by (done || destruct Hj, Hl; lia). by apply W9.
    + intros j Hj. destruct (Hsub j Hj) as (Hj' & _ & E1 & E2 & E3).
      destruct (W10 j Hj') as [B1 B2 B3 B4 B5 B6]. split; rewrite ?E1, ?E2, ?E3; try done.
      intros f Hf. apply B6. unfold in_block in *. by rewrite <- E1, <- E2.
    + intros j l f Hj Hl. destruct (Hsub j Hj) as (Hj' & _ & E1 & E2 & _).
      destruct (Hsub l Hl) as (Hl' & _ & E3 & E4 & _). unfold in_block. rewrite E1, E2, E3, E4. by apply W11.
  - intros j Hj. by destruct (Hsub j Hj) as (? & ? & ? & ? & _).
  - intros f _ H1 H2. congruence.
  - exact Eatt.
  - intros j Hj. apply Hsame. lia.
Qed.

(** Attachments of processes other than [q] are untouched. *)
Definition only_pid (q : Z) (sh sh' : shm_sys) : Prop :=
  forall r i, r <> q -> 0 <= i < 256 ->
    held sh' r i = held sh r i /\ (held sh r i = true -> att sh' i = att sh i).

Lemma only_pid_refl q sh : only_pid q sh sh.
Proof. by split. Qed.
Lemma only_pid_trans q a b c : only_pid q a b -> only_pid q b c -> only_pid q a c.
Proof.
  intros H1 H2 r i Hr Hi. destruct (H1 r i Hr Hi) as [A1 A2], (H2 r i Hr Hi) as [B1 B2].
  split; [congruence|]. intros Hh. rewrite B2 by congruence. auto.
Qed.
Lemma only_pid_same_att q sh sh' : (forall i, att sh' i = att sh i) -> only_pid q sh sh'.
Proof. intros E r i _ _. unfold held. by rewrite E. Qed.

Lemma proc_ok_frame q sh sh' p :
  only_pid q sh sh' -> pid p <> q -> proc_ok sh p -> proc_ok sh' p.
Proof.
  intros Ho Hne [P1 P2 P3]. split; [done| |].
  - rewrite P2. symmetry. apply holds_same. intros i Hi. by apply (Ho (pid p) i).
  - intros i [Hi Hu] Hp. destruct (Ho (pid p) i Hne Hi) as [H1 H2]. unfold held in H1, H2.
    rewrite Hu, Hp, Z.eqb_refl in H1. rewrite <- H1 in H2. rewrite H2 in * by done.
    by apply P3.
Qed.

Lemma release_only p sh i :
  shm_ok p sh -> att_at sh i -> only_pid (at_pid (att sh i)) sh (release i sh).
Proof.
  intros W Hi r j Hr Hj. destruct (release_spec p sh i W Hi) as (_ & _ & E & _).
  unfold held. rewrite E by lia. case_decide as D; [|done]. rewrite D. fields. simpl.
  rewrite (proj2 (Z.eqb_neq _ r)) by done. rewrite andb_false_r. by split.
Qed.

Lemma release_holds p sh i q :
  shm_ok p sh -> att_at sh i ->
  holds (release i sh) q = holds sh q - b2z (at_pid (att sh i) =? q).
Proof.
  intros W [Hi Hu]. unfold release.
  assert (forall j, att (shm_unref (at_shm_id (att sh i)) sh) j = att sh j) as E.
  { intros j. unfold shm_unref. destruct (shm_find_region_locked _ _); [|done]. by destruct (_ <? _). }
  assert (length (g_attachments (shm_unref (at_shm_id (att sh i)) sh)) = 256%nat) as Hl.
  { unfold shm_unref. rewrite <- (sk_atts _ _ W). destruct (shm_find_region_locked _ _); [|done].
    by destruct (_ <? _). }
  rewrite holds_set_attachment by done. rewrite (holds_ext sh) by done. unfold held. rewrite E, Hu.
  simpl. lia.
Qed.

(** A new attachment of a live region at an address its process does not use. *)
Definition linked (i k : Z) (a : shm_attachment) (sh : shm_sys) : shm_sys :=
  set_region k (reg sh k <| ref_count := u32 (ref_count (reg sh k) + 1) |>) (set_attachment i a sh).

Lemma refs_free_slot p sh i id :
  shm_ok p sh -> 0 <= i < 256 -> at_in_use (att sh i) = false -> refs sh id <= 255.
Proof.
  intros W Hi Hu.
  pose proof (refs_set_attachment sh i (mkAttachment true id 0 0 0) id (sk_atts _ _ W) Hi) as E.
  simpl in E. rewrite Z.eqb_refl in E. unfold attached in E. rewrite Hu in E. simpl in E.
  pose proof (refs_le (set_attachment i (mkAttachment true id 0 0 0) sh) id). lia.
Qed.

Lemma linked_spec p sh i k a :
  shm_ok p sh -> region_at sh k -> 0 <= i < 256 -> at_in_use (att sh i) = false ->
  at_in_use a = true -> at_shm_id a = rg_id (reg sh k) -> at_page_count a = rg_page_count (reg sh k) ->
  (forall j, att_at sh j -> at_pid (att sh j) = at_pid a -> virt_base (att sh j) <> virt_base a) ->
  shm_ok p (linked i k a sh) /\ shm_shrinks p sh p (linked i k a sh)
  /\ (forall j, 0 <= j -> att (linked i k a sh) j = if decide (j = i) then a else att sh j)
  /\ only_pid (at_pid a) sh (linked i k a sh)
  /\ holds (linked i k a sh) (at_pid a) = holds sh (at_pid a) + 1.
Proof.
  intros W Hk Hi Hfree Hu Eid Epg Hfresh. unfold linked.
  set (r' := reg sh k <| ref_count := _ |>). set (sh1 := set_region k r' (set_attachment i a sh)).
  pose proof (sk_regions _ _ W) as Hlr. pose proof (sk_atts _ _ W) as Hla. pose proof (proj1 Hk) as Hk1.
  assert (forall j, 0 <= j -> att sh1 j = if decide (j = i) then a else att sh j) as Eatt.
  { intros j Hj. change (att sh1 j) with (att (set_attachment i a sh) j). by rewrite att_set_attachment. }
  assert (forall j, 0 <= j -> reg sh1 j = if decide (j = k) then r' else reg sh j) as Ereg.
  { intros j Hj. unfold sh1. by rewrite reg_set_region. }
  assert (forall j, 0 <= j -> same_region (reg sh1 j) (reg sh j)) as Hsame.
  { intros j Hj. rewrite Ereg by done. case_decide as E; [|apply same_region_refl]. by rewrite E. }
  assert (forall j, region_at sh1 j <-> region_at sh j) as Hat.
  { intros j. unfold region_at. split; intros [Hj Hx]; (split; [done|]);
      rewrite (Hsame j) in * by lia; exact Hx. }
  assert (forall id, refs sh1 id = refs sh id + b2z (at_shm_id a =? id)) as Erefs.
  { intros id. rewrite (refs_ext (set_attachment i a sh) sh1) by done.
    rewrite refs_set_attachment by done. unfold attached. rewrite Hu, Hfree. simpl. lia. }
  assert (forall j, region_at sh1 j -> region_at sh j /\ rg_id (reg sh1 j) = rg_id (reg sh j)
    /\ phys_base (reg sh1 j) = phys_base (reg sh j)
    /\ rg_page_count (reg sh1 j) = rg_page_count (reg sh j)
    /\ rg_size (reg sh1 j) = rg_size (reg sh j)) as Hsub.
  { intros j Hj. split; [by apply Hat|]. pose proof (Hsame j ltac:(destruct Hj; lia)) as E.
    rewrite E. fields. done. }
  assert (forall j, 0 <= j < 256 -> at_in_use (att sh1 j) = true -> j = i \/ (j <> i /\ att_at sh j)) as Haat.
  { intros j Hj Hx. destruct (decide (j = i)) as [->|Hne]; [by left|right]. split; [done|].
    rewrite Eatt, decide_False in Hx by (done || lia). done. }
  split; [|split; [|split; [done|split]]].
  - pose proof (fun id => refs_free_slot p sh i id W Hi Hfree) as Hle.
    destruct W as [W1 W2 W3 W4 W5 W6 W7 W8 W9 W10 W11].
    split; [done|unfold sh1; by rewrite length_set_region|by rewrite <- W3; apply (length_set_attachment i a)|done| | | | | | |].
    + intros j (Hj & -> & _)%Hsub. by apply W5.
    + intros j l (Hj & -> & _)%Hsub (Hl & -> & _)%Hsub. by apply W6.
    + intros j Hj. destruct (Hsub j Hj) as (Hj' & -> & _). rewrite Erefs.
      rewrite Ereg by (destruct Hj; lia). case_decide as E.
      * rewrite E, Eid, Z.eqb_refl. unfold r'. fields. simpl. rewrite (W7 k Hk).
        pose proof (Hle (rg_id (reg sh k))). pose proof (refs_le sh (rg_id (reg sh k))).
        rewrite u32_id; [done|]. wsolve.
      * rewrite (W7 j Hj'). rewrite Eid. destruct (Z.eqb_spec (rg_id (reg sh k)) (rg_id (reg sh j))) as [E2|];
          [|simpl; lia]. destruct E. by apply W6.
    + intros j [Hj Hx]. destruct (Haat j Hj Hx) as [->|(Hne & Hj')].
      * exists k. rewrite Eatt, decide_True by (done || lia).
        assert (region_at sh1 k) as Hk' by (by apply Hat). destruct (Hsub k Hk') as (_ & -> & _ & -> & _). done.
      * destruct (W8 j Hj') as (l & Hl & E1 & E2). exists l.
        rewrite Eatt, decide_False by (done || lia).
        assert (region_at sh1 l) as Hl' by (by apply Hat). destruct (Hsub l Hl') as (_ & -> & _ & -> & _). done.
    + intros j l [Hj Hjx] [Hl Hlx].
      destruct (Haat j Hj Hjx) as [->|(Hnj & Hj')], (Haat l Hl Hlx) as [->|(Hnl & Hl')]; [done| | |];
        rewrite !Eatt by lia; rewrite ?(decide_True (P := i = i)), ?decide_False by done; intros E1 E2.
      * exfalso. apply (Hfresh l Hl'); symmetry; [exact E1|exact E2].
      * exfalso. apply (Hfresh j Hj'); [exact E1|exact E2].
      * by apply W9.
    + intros j Hj. destruct (Hsub j Hj) as (Hj' & _ & E1 & E2 & E3).
      destruct (W10 j Hj') as [B1 B2 B3 B4 B5 B6]. split; rewrite ?E1, ?E2, ?E3; try done.
      intros f Hf. apply B6. unfold in_block in *. by rewrite <- E1, <- E2.
    + intros j l f Hj Hl. destruct (Hsub j Hj) as (Hj' & _ & E1 & E2 & _).
      destruct (Hsub l Hl) as (Hl' & _ & E3 & E4 & _). unfold in_block. rewrite E1, E2, E3, E4. by apply W11.
  - split; [|by intros f _ -> ?]. intros j Hj. by destruct (Hsub j Hj) as (? & ? & ? & ? & _).
  - intros q j Hq Hj. unfold held. rewrite Eatt by lia. case_decide as D; [|done].
    rewrite D, Hu, Hfree. simpl. rewrite (proj2 (Z.eqb_neq _ q)) by done. done.
  - rewrite (holds_ext (set_attachment i a sh) sh1) by done.
    rewrite holds_set_attachment by done. unfold held. rewrite Hu, Hfree, Z.eqb_refl. simpl. lia.
Qed.

(** ** The operations *)

(** What every operation run by process [q] guarantees. *)
Record shm_op_ok (q : Z) (m : machine) (sh : shm_sys) (m' : machine) (sh' : shm_sys) : Prop := {
  so_ok : shm_ok (m_pmm m') sh';
  so_shrinks : shm_shrinks (m_pmm m) sh (m_pmm m') sh';
  so_only : only_pid q sh sh';
}.

Lemma shm_op_refl q m sh : shm_ok (m_pmm m) sh -> shm_op_ok q m sh m sh.
Proof. intros W. split; [done|apply shm_shrinks_refl|apply only_pid_refl]. Qed.
Lemma shm_op_trans q m1 s1 m2 s2 m3 s3 :
  shm_op_ok q m1 s1 m2 s2 -> shm_op_ok q m2 s2 m3 s3 -> shm_op_ok q m1 s1 m3 s3.
Proof.
  intros [A1 A2 A3] [B1 B2 B3]. split; [done| |by apply (only_pid_trans _ _ s2)].
  by apply (shm_shrinks_trans _ _ (m_pmm m2) s2).
Qed.

(** Machine steps that only take free frames. *)
Lemma shm_op_machine q m sh m' :
  shm_ok (m_pmm m) sh -> pmm_grows (m_pmm m) (m_pmm m') -> shm_op_ok q m sh m' sh.
Proof.
  intros W G. split; [by apply (shm_ok_grows (m_pmm m))|by apply pmm_grows_shrinks|apply only_pid_refl].
Qed.

Lemma shm_op_release m sh i :
  shm_ok (m_pmm m) sh -> att_at sh i -> shm_op_ok (at_pid (att sh i)) m sh m (release i sh).
Proof.
  intros W Hi. destruct (release_spec _ sh i W Hi) as (? & ? & _). split; [done|done|].
  by apply (release_only (m_pmm m)).
Qed.

(** Releasing leaves the other attachments of the process where they are. *)
Lemma release_below p sh i q c :
  shm_ok p sh -> att_at sh i ->
  (forall j, att_at sh j -> at_pid (att sh j) = q ->
     virt_base (att sh j) + at_page_count (att sh j) * 4096 <= c) ->
  forall j, att_at (release i sh) j -> at_pid (att (release i sh) j) = q ->
     j <> i /\ att_at sh j /\
     virt_base (att (release i sh) j) + at_page_count (att (release i sh) j) * 4096 <= c.
Proof.
  intros W Hi Hb j [Hj Hu]. destruct (release_spec p sh i W Hi) as (_ & _ & E & _).
  unfold att_at. rewrite E in Hu |- * by lia. case_decide; [done|]. intros Hq.
  split; [done|]. split; [done|]. by apply Hb.
Qed.

Lemma shm_window_spec pid :
  VM_SPACE_SHM_BASE <= shm_window pid < VM_SPACE_SHM_LIMIT /\ shm_window pid mod 4096 = 0.
Proof.
  unfold shm_window, VM_SPACE_SHM_BASE, VM_SPACE_SHM_LIMIT.
  pose proof (Z.mod_pos_bound pid 64 ltac:(lia)). set (w := pid mod 64) in *. clearbody w.
  rewrite u64_id by wsolve. split; [lia|]. Z.div_mod_to_equations. lia.
Qed.

Lemma set_cursor_ok s c :
  VM_SPACE_SHM_BASE <= c <= VM_SPACE_SHM_LIMIT -> c mod 4096 = 0 -> vm_space_ok s ->
  vm_space_ok (s <| shm_cursor := c |>).
Proof. intros Hc Ha [W1 W2 W3 W4 W5 W6]. by split. Qed.

Lemma alloc_attachment_Some p sh i :
  shm_ok p sh -> shm_alloc_attachment_locked sh = Some i ->
  0 <= i < 256 /\ at_in_use (att sh i) = false.
Proof.
  intros W (Hi & Hp & _)%find_index_Some. rewrite (sk_atts _ _ W) in Hi.
  unfold att. destruct (at_in_use _); [done|]. split; [lia|done].
Qed.

(** The undo section of a failed attach removes exactly the reservation. *)
Lemma shm_attach_undo_release p sh i :
  shm_ok p sh -> att_at sh i ->
  shm_attach_undo (at_pid (att sh i)) (virt_base (att sh i)) (at_shm_id (att sh i)) sh = release i sh.
Proof.
  intros W Hi. unfold shm_attach_undo. rewrite (find_att_is p sh i W Hi).
  apply shm_unref_set_attachment.
Qed.

Lemma region_count_bound p sh k : shm_ok p sh -> region_at sh k -> 0 < rg_page_count (reg sh k) < 0x10000000000000.
Proof.
  intros W Hk. destruct (sk_block _ _ W k Hk) as [B1 B2 B3 B4 B5 B6].
  pose proof (wf_total _ (sk_pmm _ _ W)). pose proof (Z.div_pos (phys_base (reg sh k)) 4096). lia.
Qed.

(** The reservation section: it either links a fresh attachment or changes no table. *)
Lemma shm_attach_reserve_spec p sh cur id st cur' sh' :
  shm_ok p sh -> proc_ok sh cur -> shm_attach_reserve cur id sh = (st, cur', sh') ->
  pid cur' = pid cur /\ shm_attachment_count cur' = shm_attachment_count cur
  /\ pml4_phys (p_vm_space cur') = pml4_phys (p_vm_space cur)
  /\ match st with
     | AttachNull | AttachExisting _ => sh' = sh /\ proc_ok sh cur'
     | AttachReserved v phys count =>
         vm_space_ok (p_vm_space cur') /\ v = shm_cursor (p_vm_space cur)
         /\ shm_cursor (p_vm_space cur') = v + count * 4096
         /\ exists i k, region_at sh k /\ rg_id (reg sh k) = id /\ 0 <= i < 256
            /\ at_in_use (att sh i) = false
            /\ phys = phys_base (reg sh k) /\ count = rg_page_count (reg sh k)
            /\ sh' = linked i k (mkAttachment true id (pid cur) v count) sh
            /\ forall j, att_at sh j -> at_pid (att sh j) = pid cur -> virt_base (att sh j) <> v
     end.
Proof.
  intros W [P1 P2 P3]. unfold shm_attach_reserve.
  destruct (shm_find_region_locked id sh) as [k|] eqn:Hf; [|by intros [= <- <- <-]].
  apply find_region_Some in Hf as [Hk Hid]; [|apply W]. fold (reg sh k).
  destruct (shm_find_attachment_locked _ _ _); [by intros [= <- <- <-]|].
  pose proof (region_count_bound p sh k W Hk) as Hcnt.
  destruct (vm_space_reserve_shm_range _ _) as [v space] eqn:Hr.
  destruct (vm_space_reserve_shm_range_cases (p_vm_space cur) (rg_page_count (reg sh k)) v space
    P1 ltac:(lia) Hr)
    as [(-> & -> & _) | (_ & -> & Hs & Hlim & Wsp)].
  { simpl. intros [= <- <- <-]. fields. simpl. done. }
  assert (shm_cursor space = shm_cursor (p_vm_space cur) + rg_page_count (reg sh k) * 4096
          /\ pml4_phys space = pml4_phys (p_vm_space cur)) as [Ecur Epml] by (by rewrite Hs; fields).
  pose proof (vs_cursor _ P1) as Hb. unfold VM_SPACE_SHM_BASE in Hb.
  rewrite (proj2 (Z.eqb_neq (shm_cursor _) 0)) by lia.
  destruct (shm_alloc_attachment_locked sh) as [i|] eqn:Ha.
  2: { intros [= <- <- <-]. fields. simpl. repeat (split; [done|]). split; [done|done|].
       simpl. intros j Hj Hp. rewrite Ecur. specialize (P3 j Hj Hp). clear - P3 Hcnt. lia. }
  destruct (alloc_attachment_Some p sh i W Ha) as [Hi Hfree].
  intros [= <- <- <-]. fields. simpl. repeat (split; [done|]).
  exists i, k. repeat (split; [done|]).
  intros j Hj Hp. specialize (P3 j Hj Hp). destruct (sk_live _ _ W j Hj) as (l & Hl & _ & <-) in P3.
  pose proof (region_count_bound p sh l W Hl). lia.
Qed.

Lemma shm_attach_spec m sh cur id v r m' sh' :
  shm_ok (m_pmm m) sh -> proc_ok sh cur -> shm_attach (Some cur) id m sh = (v, r, m', sh') ->
  exists cur', r = Some cur' /\ pid cur' = pid cur /\ shm_op_ok (pid cur) m sh m' sh' /\ proc_ok sh' cur'.
Proof.
  intros W P. unfold shm_attach.
  destruct (id <=? 0); [intros [= <- <- <- <-]; exists cur; repeat (split; [done|]); split; [by apply shm_op_refl|done]|].
  destruct (shm_attach_reserve cur id sh) as [[st c1] sh1] eqn:Hr.
  destruct (shm_attach_reserve_spec _ sh cur id st c1 sh1 W P Hr) as (Epid & Ecnt & Epml & Hst).
  destruct st as [|v0|v0 phys count].
  - destruct Hst as [-> P']. intros [= <- <- <- <-]. exists c1. repeat (split; [done|]). split; [by apply shm_op_refl|done].
  - destruct Hst as [-> P']. intros [= <- <- <- <-]. exists c1. repeat (split; [done|]). split; [by apply shm_op_refl|done].
  - destruct Hst as (Wsp & Ev & Ecur & i & k & Hk & Hid & Hi & Hfree & Ephys & Ecount & -> & Hfresh).
    set (a := mkAttachment true id (pid cur) v0 count).
    destruct (linked_spec _ sh i k a W Hk Hi Hfree eq_refl (eq_sym Hid) Ecount Hfresh)
      as (W1 & S1 & Eatt & O1 & Hh).
    set (sh1 := linked i k a sh) in *.
    assert (shm_op_ok (pid cur) m sh m sh1) as Op1 by (by split).
    assert (forall j, att_at sh1 j -> at_pid (att sh1 j) = pid cur ->
       virt_base (att sh1 j) + at_page_count (att sh1 j) * 4096 <= v0 + count * 4096) as Hbelow.
    { intros j [Hj Hu] Hp. rewrite Eatt in Hu, Hp |- * by lia. case_decide; [simpl; lia|].
      pose proof (po_below _ _ P j (conj Hj Hu) Hp). pose proof (region_count_bound _ _ _ W Hk). lia. }
    destruct (vm_space_map_user_pages m _ v0 phys count _) as [[rc space] m1] eqn:Hmap.
    destruct (vm_space_map_step _ _ _ _ _ _ _ _ _ (sk_pmm _ _ W) Hmap) as [G So Sc Sp].
    assert (shm_op_ok (pid cur) m sh1 m1 sh1) as Op2 by (by apply shm_op_machine).
    assert (att_at sh1 i) as Hati.
    { split; [done|]. rewrite Eatt by lia. by rewrite decide_True. }
    assert (att sh1 i = a) as Ea by (rewrite Eatt by lia; by rewrite decide_True).
    destruct (negb (rc =? 0)).
    + intros [= <- <- <- <-]. eexists. split; [done|]. fields. simpl. split; [done|].
      assert (shm_attach_undo (pid c1) v0 id sh1 = release i sh1) as ->.
      { rewrite <- (shm_attach_undo_release _ sh1 i W1 Hati), Ea, Epid. done. }
      pose proof (shm_op_release m1 sh1 i (so_ok _ _ _ _ _ Op2) Hati) as Op3. rewrite Ea in Op3. simpl in Op3.
      split; [apply (shm_op_trans _ _ _ m sh1); [done|]; by apply (shm_op_trans _ _ _ m1 sh1)|].
      split; simpl.
      * apply So. done.
      * rewrite Ecnt, (po_count _ _ P), Epid, (release_holds _ sh1 i _ W1 Hati), Ea. simpl.
        rewrite Z.eqb_refl. change (pid cur) with (at_pid a) at 1 2. rewrite Hh. simpl. lia.
      * rewrite Epid, Sc, Ecur. intros j Hj Hp.
        by destruct (release_below _ sh1 i _ _ W1 Hati Hbelow j Hj Hp) as (_ & _ & ?).
    + intros [= <- <- <- <-]. eexists. split; [done|]. fields. simpl. split; [done|].
      split; [by apply (shm_op_trans _ _ _ m sh1)|].
      destruct (note_attach_step m1 space count ltac:(apply G)) as [_ No Nc Np].
      split; simpl.
      * by apply No, So.
      * rewrite Ecnt, (po_count _ _ P), Epid. change (pid cur) with (at_pid a) at 2. rewrite Hh. simpl.
        rewrite u32_id; [done|]. pose proof (holds_le sh (pid cur)). wsolve.
      * rewrite Epid, Nc, Sc, Ecur. exact Hbelow.
Qed.

Lemma shm_op_reap q m sh k m' sh' :
  shm_ok (m_pmm m) sh -> 0 <= k < 64 -> shm_reap_region_locked k m sh = (m', sh') ->
  shm_op_ok q m sh m' sh' /\ (forall i, att sh' i = att sh i).
Proof.
  intros W Hk Hr. destruct (shm_reap_region_spec k m sh m' sh' W Hk Hr) as (W' & S & Ea & _).
  assert (forall i, att sh' i = att sh i) as E by (intros i; unfold att; by rewrite Ea).
  split; [split; [done|done|by apply only_pid_same_att]|done].
Qed.

Lemma shm_op_reap_id q m sh id m' sh' :
  shm_ok (m_pmm m) sh -> shm_reap_id id m sh = (m', sh') ->
  shm_op_ok q m sh m' sh' /\ (forall i, att sh' i = att sh i).
Proof.
  intros W. unfold shm_reap_id. destruct (shm_find_region_locked id sh) as [k|] eqn:Hf.
  - apply find_region_Some in Hf as [[Hk _] _]; [|apply W]. by apply shm_op_reap.
  - intros [= <- <-]. split; [by apply shm_op_refl|done].
Qed.

Lemma shm_reap_id_reg id m sh m' sh' k :
  shm_ok (m_pmm m) sh -> shm_reap_id id m sh = (m', sh') -> region_at sh' k -> reg sh' k = reg sh k.
Proof.
  intros W. unfold shm_reap_id. destruct (shm_find_region_locked id sh) as [j|] eqn:Hf; [|by intros [= <- <-]].
  apply find_region_Some in Hf as [[Hj _] _]; [|apply W]. intros Hr Hk.
  destruct (shm_reap_region_spec _ _ _ _ _ W Hj Hr) as (_ & _ & _ & _ & Ej & Hcase).
  destruct (decide (k = j)) as [->|]; [|apply Ej; [apply Hk|done]].
  case_decide; [by destruct Hcase|]. by destruct Hcase as [_ ->].
Qed.

(** Attachments and their owner's record, when only regions and frames changed. *)
Lemma proc_ok_att sh sh' p : (forall i, att sh' i = att sh i) -> proc_ok sh p -> proc_ok sh' p.
Proof.
  intros E [P1 P2 P3]. split; [done|by rewrite (holds_ext sh)|].
  intros i [Hi Hu] Hp. rewrite E in Hu, Hp |- *. by apply P3.
Qed.

Lemma shm_detach_release_is p sh q v r sh' :
  shm_ok p sh -> shm_detach_release q v sh = (r, sh') ->
  match r with
  | None => sh' = sh
  | Some (id, count, _) => exists i, att_at sh i /\ at_pid (att sh i) = q /\ virt_base (att sh i) = v
                             /\ at_shm_id (att sh i) = id /\ at_page_count (att sh i) = count
                             /\ sh' = release i sh
  end.
Proof.
  intros W. unfold shm_detach_release.
  destruct (shm_find_attachment_by_addr_locked q v sh) as [i|] eqn:Hf; [|by intros [= <- <-]].
  apply find_att_Some in Hf as (Hi & Ep & Ev); [|apply W].
  intros [= <- <-]. exists i. fold (att sh i). repeat (split; [done|]). apply shm_unref_set_attachment.
Qed.

Lemma shm_detach_spec m sh cur v rc r m' sh' :
  shm_ok (m_pmm m) sh -> proc_ok sh cur -> shm_detach (Some cur) v m sh = (rc, r, m', sh') ->
  exists cur', r = Some cur' /\ pid cur' = pid cur /\ shm_op_ok (pid cur) m sh m' sh' /\ proc_ok sh' cur'.
Proof.
  intros W P. unfold shm_detach.
  destruct (v =? 0); [intros [= <- <- <- <-]; exists cur; repeat (split; [done|]); split; [by apply shm_op_refl|done]|].
  destruct (shm_detach_release (pid cur) v sh) as [d sh1] eqn:Hd.
  pose proof (shm_detach_release_is _ _ _ _ _ _ W Hd) as Hrel.
  destruct d as [[[id count] reap]|].
  2: { subst sh1. intros [= <- <- <- <-]. exists cur. repeat (split; [done|]). split; [by apply shm_op_refl|done]. }
  destruct Hrel as (i & Hi & Ep & _ & _ & _ & ->).
  pose proof (shm_op_release m sh i W Hi) as Op1. rewrite Ep in Op1.
  destruct (vm_space_unmap_user_pages m _ v count) as [[rc1 space] m1] eqn:Hun.
  destruct (vm_space_unmap_step _ _ _ _ _ _ _ (sk_pmm _ _ W) Hun) as [[G So Sc Sp] Epmm].
  assert (shm_op_ok (pid cur) m (release i sh) m1 (release i sh)) as Op2.
  { apply shm_op_machine; [apply Op1|done]. }
  destruct (note_detach_step m1 space count ltac:(apply G)) as [_ No Nc Np].
  set (p1 := cur <| p_vm_space := vm_space_note_shm_detach space count |>).
  pose proof (holds_le sh (pid cur)) as Hle.
  pose proof (release_holds _ sh i (pid cur) W Hi) as Hh. rewrite Ep, Z.eqb_refl in Hh. simpl b2z in Hh.
  pose proof (holds_le (release i sh) (pid cur)) as Hle'.
  assert (shm_attachment_count p1 = holds sh (pid cur)) as Ec1 by apply (po_count _ _ P).
  rewrite (proj2 (Z.ltb_lt 0 (shm_attachment_count p1))) by lia. cbv iota.
  set (p2 := p1 <| shm_attachment_count := shm_attachment_count p1 - 1 |>).
  set (p3 := if shm_attachment_count p2 =? 0 then _ else p2).
  assert (pid p3 = pid cur /\ proc_ok (release i sh) p3) as [Epid P3].
  { assert (shm_attachment_count p2 = holds (release i sh) (pid cur)) as Ec2.
    { change (shm_attachment_count p2) with (shm_attachment_count p1 - 1). lia. }
    assert (forall j, att_at (release i sh) j -> at_pid (att (release i sh) j) = pid cur ->
      virt_base (att (release i sh) j) + at_page_count (att (release i sh) j) * 4096
      <= shm_cursor (p_vm_space cur)) as Hb.
    { intros j Hj Hp. by destruct (release_below _ sh i _ _ W Hi (po_below _ _ P) j Hj Hp) as (_ & _ & ?). }
    assert (vm_space_ok (p_vm_space p2)) as Wsp by (apply No, So, P).
    unfold p3. destruct (Z.eqb_spec (shm_attachment_count p2) 0) as [Ez|].
    - split; [done|]. split.
      + destruct (shm_window_spec (pid cur)). apply (set_cursor_ok (p_vm_space p2) (shm_window (pid cur))); [lia|done|exact Wsp].
      + exact Ec2.
      + intros j Hj Hp. exfalso. rewrite Ec2 in Ez. revert Ez. apply Z.neq_sym, Z.lt_neq.
        by apply (holds_pos _ _ j).
    - split; [done|]. split; [done|done|].
      intros j Hj Hp. unfold p2, p1. fields. simpl. rewrite Nc, Sc. by apply Hb. }
  clearbody p3. destruct reap.
  - destruct (shm_reap_id id m1 (release i sh)) as [m2 sh2] eqn:Hr. intros [= <- <- <- <-].
    destruct (shm_op_reap_id (pid cur) _ _ _ _ _ (so_ok _ _ _ _ _ Op2) Hr) as [Op3 Ea].
    exists p3. split; [done|]. split; [done|]. split; [|by apply (proc_ok_att (release i sh))].
    apply (shm_op_trans _ _ _ m (release i sh)); [done|]. by apply (shm_op_trans _ _ _ m1 (release i sh)).
  - intros [= <- <- <- <-]. exists p3. split; [done|]. split; [done|]. split; [|done].
    by apply (shm_op_trans _ _ _ m (release i sh)).
Qed.

Lemma shm_destroy_spec q m sh id rc m' sh' :
  shm_ok (m_pmm m) sh -> shm_destroy id m sh = (rc, m', sh') ->
  shm_op_ok q m sh m' sh' /\ (forall i, att sh' i = att sh i)
  /\ ((rc = -1 /\ m' = m /\ sh' = sh
       /\ (id <= 0 \/ (forall k, region_at sh k -> rg_id (reg sh k) <> id)
           \/ exists i, att_at sh i /\ at_shm_id (att sh i) = id))
      \/ (rc = 0 /\ exists k, region_at sh k /\ rg_id (reg sh k) = id /\ ~ region_at sh' k
            /\ (forall i, att_at sh i -> at_shm_id (att sh i) <> id)
            /\ (forall f, in_block (reg sh k) f -> bitmap_get (m_pmm m') f = true))).
Proof.
  intros W. unfold shm_destroy.
  assert (shm_op_ok q m sh m sh /\ (forall i, att sh i = att sh i)) as [Hr _] by (split; [by apply shm_op_refl|done]).
  destruct (Z.leb_spec id 0).
  { intros [= <- <- <-]. split; [done|]. split; [done|]. left. auto. }
  destruct (shm_find_region_locked id sh) as [k|] eqn:Hf.
  2: { intros [= <- <- <-]. split; [done|]. split; [done|]. left. repeat (split; [done|]). right. left.
       by apply find_region_None; [apply W|]. }
  apply find_region_Some in Hf as [Hk Hid]; [|apply W]. fold (reg sh k).
  pose proof (sk_refs _ _ W k Hk) as Eref. rewrite Hid in Eref.
  destruct (Z.ltb_spec 0 (ref_count (reg sh k))).
  { intros [= <- <- <-]. split; [done|]. split; [done|]. left. repeat (split; [done|]). right. right.
    apply refs_witness. lia. }
  set (r' := reg sh k <| destroy_pending := true |>).
  destruct (set_region_meta _ sh k r' W Hk (proj2 Hk) eq_refl eq_refl eq_refl eq_refl eq_refl) as [W1 S1].
  set (sh1 := set_region k r' sh) in *.
  assert (reg sh1 k = r') as Er.
  { unfold sh1. pose proof (proj1 Hk). rewrite reg_set_region by (apply W || lia). by rewrite decide_True. }
  destruct (shm_reap_region_locked k m sh1) as [m1 sh2] eqn:Hreap. intros [= <- <- <-].
  destruct (shm_reap_region_spec k m sh1 m1 sh2 W1 (proj1 Hk) Hreap) as (W2 & S2 & Ea & _ & _ & Hgone).
  pose proof (refs_le sh id).
  rewrite decide_True in Hgone.
  2: { rewrite Er. split; [split; [apply Hk|rewrite Er; apply Hk]|]. split; [done|]. change (ref_count r') with (ref_count (reg sh k)). lia. }
  destruct Hgone as [Hgone Hfree]. rewrite Er in Hfree.
  assert (forall i, att sh2 i = att sh i) as E by (intros i; unfold att; by rewrite Ea).
  split; [split; [done|by apply (shm_shrinks_trans _ _ (m_pmm m) sh1)|by apply only_pid_same_att]|].
  split; [done|]. right. split; [done|]. exists k. split; [done|]. split; [done|]. split; [done|].
  split; [|done]. intros i Hi Hx. pose proof (refs_pos sh id i Hi Hx). lia.
Qed.

(** ** Process exit *)

(** The regions of [sh'] are those of [sh] with other reference counts. *)
Definition regions_kept (sh sh' : shm_sys) : Prop :=
  forall k, 0 <= k < 64 -> same_region (reg sh' k) (reg sh k).

Lemma regions_kept_trans a b c : regions_kept a b -> regions_kept b c -> regions_kept a c.
Proof. intros H1 H2 k Hk. apply (same_region_trans _ (reg b k)); auto. Qed.

Record cleanup_stage (q : Z) (m : machine) (sh : shm_sys) (i : Z) (batch : list (Z * Z * Z))
  (sh' : shm_sys) : Prop := {
  cs_op : shm_op_ok q m sh m sh';
  cs_done : forall j, 0 <= j < i -> held sh' q j = false;
  cs_rest : forall j, i <= j -> att sh' j = att sh j;
  cs_regions : regions_kept sh sh';
  cs_next : g_next_shm_id sh' = g_next_shm_id sh;
  cs_batch : forall j, 0 <= j < i -> held sh q j = true ->
             (virt_base (att sh j), at_page_count (att sh j), at_shm_id (att sh j)) ∈ batch;
  cs_length : Z.of_nat (length batch) <= i;
}.

Lemma cleanup_attachments_spec q m sh batch sh' :
  shm_ok (m_pmm m) sh -> shm_cleanup_attachments q sh = (batch, sh') ->
  cleanup_stage q m sh 256 batch sh'.
Proof.
  intros W Hrun. unfold shm_cleanup_attachments in Hrun.
  set (body := fun i bs => _) in Hrun.
  assert (forall i b s, 0 <= i < 256 -> cleanup_stage q m sh i b s ->
    cleanup_stage q m sh (i + 1) (body i (b, s)).1 (body i (b, s)).2) as Hstep.
  { intros i b s Hi [Op Hdone Hrest Hreg Hnext Hb Hlen].
    unfold body. fold (att s i).
    assert (negb (at_in_use (att s i)) || negb (at_pid (att s i) =? q) = negb (held s q i)) as ->.
    { unfold held. by destruct (at_in_use _), (_ =? _). }
    destruct (held s q i) eqn:Hh; simpl.
    - apply andb_true_iff in Hh as [Hu Hp%Z.eqb_eq].
      assert (att_at s i) as Hat by done.
      pose proof (shm_op_release m s i (so_ok _ _ _ _ _ Op) Hat) as Op1. rewrite Hp in Op1.
      destruct (release_spec _ s i (so_ok _ _ _ _ _ Op) Hat) as (_ & _ & Ea & Er & En).
      rewrite (proj2 (Z.ltb_lt _ SHM_CLEANUP_BATCH)) by (unfold SHM_CLEANUP_BATCH; lia).
      change (set_attachment i _ _) with (release i s). split.
      + by apply (shm_op_trans _ _ _ m s).
      + intros j Hj. unfold held. rewrite Ea by lia. case_decide; [done|]. apply Hdone. lia.
      + intros j Hj. rewrite Ea by lia. rewrite decide_False by lia. apply Hrest. lia.
      + by apply (regions_kept_trans _ s).
      + congruence.
      + intros j Hj Hh. apply elem_of_app. destruct (decide (j = i)) as [->|].
        * right. rewrite <- Hrest by lia. by left.
        * left. apply Hb; [lia|done].
      + rewrite length_app. simpl. lia.
    - split; try done.
      + intros j Hj. destruct (decide (j = i)) as [->|]; [done|]. apply Hdone. lia.
      + intros j Hj. apply Hrest. lia.
      + intros j Hj Hh'. destruct (decide (j = i)) as [->|]; [|apply Hb; [lia|done]].
        unfold held in *. rewrite Hrest in Hh by lia. congruence.
      + lia. }
  pose proof (for_up_inv (fun i bs => cleanup_stage q m sh i bs.1 bs.2) (Z.to_nat SHM_MAX_ATTACHMENTS)
    0 body ([], sh)) as Hinv. rewrite Hrun in Hinv. apply Hinv.
  - split; try done; try (intros; lia); [by apply shm_op_refl|]. intros k Hk. apply same_region_refl.
  - intros i [b s] Hi. apply Hstep. unfold SHM_MAX_ATTACHMENTS in Hi. lia.
Qed.

(** [shm_orphan_regions]: the regions of [q] lose their owner and become pending. *)
Lemma orphan_regions_spec q m sh :
  shm_ok (m_pmm m) sh ->
  let sh' := shm_orphan_regions q sh in
  shm_op_ok q m sh m sh' /\ (forall i, att sh' i = att sh i)
  /\ (forall k, region_at sh k -> region_at sh' k /\ rg_id (reg sh' k) = rg_id (reg sh k)
        /\ phys_base (reg sh' k) = phys_base (reg sh k) /\ rg_page_count (reg sh' k) = rg_page_count (reg sh k)
        /\ (owner_pid (reg sh k) = q \/ destroy_pending (reg sh k) = true ->
            destroy_pending (reg sh' k) = true)).
Proof.
  intros W sh'. unfold sh', shm_orphan_regions. set (body := fun i s => _).
  pose (I := fun i s => shm_op_ok q m sh m s /\ (forall j, att s j = att sh j)
    /\ (forall k, i <= k < 64 -> reg s k = reg sh k)
    /\ (forall k, region_at sh k -> region_at s k /\ rg_id (reg s k) = rg_id (reg sh k)
        /\ phys_base (reg s k) = phys_base (reg sh k) /\ rg_page_count (reg s k) = rg_page_count (reg sh k)
        /\ (destroy_pending (reg sh k) = true -> destroy_pending (reg s k) = true)
        /\ (k < i -> owner_pid (reg sh k) = q -> destroy_pending (reg s k) = true))).
  assert (I (0 + Z.of_nat (Z.to_nat SHM_MAX_REGIONS)) (for_up (Z.to_nat SHM_MAX_REGIONS) 0 body sh)) as HI.
  { apply for_up_inv.
    - split; [by apply shm_op_refl|]. split; [done|]. split; [done|].
      intros k Hk. repeat (split; [done|]). destruct Hk. lia.
    - intros i s Hi (Op & Ea & Er & Hk). unfold SHM_MAX_REGIONS in Hi.
      assert (0 <= i < 64) as Hi' by lia. unfold body. fold (reg s i).
      pose proof (Er i ltac:(lia)) as Ei.
      destruct (rg_in_use (reg s i)) eqn:Hu; simpl.
      2: { split; [done|]. split; [done|]. split; [intros; apply Er; lia|].
           intros k Hkat. destruct (Hk k Hkat) as (H1 & H2 & H3 & H4 & H5 & H6).
           repeat (split; [done|]). intros Hlt. apply H6.
           destruct (decide (k = i)) as [->|]; [|lia]. destruct Hkat. congruence. }
      destruct (Z.eqb_spec (owner_pid (reg s i)) q) as [Hq|Hq].
      + set (r' := reg s i <| owner_pid := 0 |> <| destroy_pending := true |>).
        destruct (set_region_meta _ s i r' (so_ok _ _ _ _ _ Op) (conj Hi' Hu) Hu
          eq_refl eq_refl eq_refl eq_refl eq_refl) as [W1 S1].
        assert (forall j, 0 <= j -> reg (set_region i r' s) j = if decide (j = i) then r' else reg s j) as Ej.
        { intros j Hj. apply reg_set_region; [apply (so_ok _ _ _ _ _ Op)|done|done]. }
        split; [|split; [exact Ea|split]].
        * apply (shm_op_trans _ _ _ m s); [done|]. split; [done|done|by apply only_pid_same_att].
        * intros k Hk1. rewrite Ej, decide_False by lia. apply Er. lia.
        * intros k Hkat. destruct (Hk k Hkat) as ([_ H1] & H2 & H3 & H4 & H5 & H6).
          unfold region_at. rewrite Ej by (destruct Hkat; lia). case_decide as D.
          -- rewrite D in *. unfold r'. fields. simpl. repeat (split; [done|]). done.
          -- split; [split; [apply Hkat|done]|]. repeat (split; [done|]). intros Hlt. apply H6. lia.
      + split; [done|]. split; [done|]. split; [intros; apply Er; lia|].
        intros k Hkat. destruct (Hk k Hkat) as (H1 & H2 & H3 & H4 & H5 & H6).
        repeat (split; [done|]). intros Hlt. destruct (decide (k = i)) as [->|]; [|apply H6; lia].
        rewrite <- Ei. congruence. }
  unfold SHM_MAX_REGIONS in HI. rewrite Z2Nat.id in HI by lia. destruct HI as (Op & Ea & _ & Hk).
  split; [done|]. split; [done|]. intros k Hkat. destruct (Hk k Hkat) as (H1 & H2 & H3 & H4 & H5 & H6).
  repeat (split; [done|]). intros [Ho|Hd]; [|auto]. apply H6; [destruct Hkat; lia|done].
Qed.

Lemma cleanup_unmap_spec batch : forall m s m' s',
  pmm_wf (m_pmm m) -> shm_cleanup_unmap batch m s = (m', s') -> space_step m s m' s'.
Proof.
  induction batch as [|[[addr pages] id] batch IH]; intros m s m' s' W; simpl.
  { intros [= <- <-]. by apply space_step_refl. }
  destruct (vm_space_unmap_user_pages m s addr pages) as [[rc s1] m1] eqn:Hun.
  destruct (vm_space_unmap_step _ _ _ _ _ _ _ W Hun) as [St _]. intros H.
  pose proof (note_detach_step m1 s1 pages ltac:(apply St)) as Sn.
  apply IH in H; [|apply St]. apply (space_step_trans _ _ m1 s1); [done|].
  by apply (space_step_trans _ _ m1 (vm_space_note_shm_detach s1 pages)).
Qed.

Lemma reap_batch_spec q batch : forall m sh m' sh',
  shm_ok (m_pmm m) sh -> shm_reap_batch batch m sh = (m', sh') ->
  shm_op_ok q m sh m' sh' /\ (forall i, att sh' i = att sh i)
  /\ (forall k, region_at sh' k -> reg sh' k = reg sh k).
Proof.
  induction batch as [|[[addr pages] id] batch IH]; intros m sh m' sh' W; simpl.
  { intros [= <- <-]. split; [by apply shm_op_refl|done]. }
  destruct (shm_reap_id id m sh) as [m1 sh1] eqn:Hr. intros Hb.
  destruct (shm_op_reap_id q _ _ _ _ _ W Hr) as [Op1 Ea1].
  destruct (IH m1 sh1 m' sh' (so_ok _ _ _ _ _ Op1) Hb) as (Op2 & Ea2 & Er2).
  split; [by apply (shm_op_trans _ _ _ m1 sh1)|]. split; [intros i; by rewrite Ea2|].
  intros k Hk. rewrite Er2 by done. apply (shm_reap_id_reg id m sh m1 sh1 k W Hr).
  by apply (sr_region _ _ _ _ (so_shrinks _ _ _ _ _ Op2)).
Qed.

(** The last section: nothing pending and unreferenced is left. *)
Lemma cleanup_reap_spec q batch m sh m' sh' :
  shm_ok (m_pmm m) sh -> shm_cleanup_reap batch m sh = (m', sh') ->
  shm_op_ok q m sh m' sh' /\ (forall i, att sh' i = att sh i)
  /\ (forall k, region_at sh' k -> reg sh' k = reg sh k
        /\ ~ (destroy_pending (reg sh' k) = true /\ ref_count (reg sh' k) = 0)).
Proof.
  intros W. unfold shm_cleanup_reap.
  destruct (shm_reap_batch batch m sh) as [m1 sh1] eqn:Hb.
  destruct (reap_batch_spec q batch m sh m1 sh1 W Hb) as (Op1 & Ea1 & Er1).
  set (body := fun i ms => _). intros Hloop.
  pose (I := fun i (ms : machine * shm_sys) => shm_op_ok q m sh ms.1 ms.2 /\ (forall j, att ms.2 j = att sh j)
    /\ (forall k, region_at ms.2 k -> reg ms.2 k = reg sh k)
    /\ (forall k, region_at ms.2 k -> k < i ->
          ~ (destroy_pending (reg ms.2 k) = true /\ ref_count (reg ms.2 k) = 0))).
  assert (I (0 + Z.of_nat (Z.to_nat SHM_MAX_REGIONS)) (for_up (Z.to_nat SHM_MAX_REGIONS) 0 body (m1, sh1))) as HI.
  { apply for_up_inv.
    - split; [done|]. split; [done|]. split; [done|]. simpl. intros k [Hk _] ?. lia.
    - intros i [m2 sh2] Hi (Op & Ea & Er & Hlt). simpl in Op, Ea, Er, Hlt. unfold SHM_MAX_REGIONS in Hi.
      assert (0 <= i < 64) as Hi' by lia. unfold body. fold (reg sh2 i).
      destruct (rg_in_use (reg sh2 i)) eqn:Hu.
      2: { repeat (split; [done|]). simpl. intros k Hk Hki. apply Hlt; [done|].
           destruct (decide (k = i)) as [->|]; [|lia]. destruct Hk. congruence. }
      destruct (shm_reap_region_locked i m2 sh2) as [m3 sh3] eqn:Hr. unfold I. simpl.
      pose proof (so_ok _ _ _ _ _ Op) as W2.
      destruct (shm_op_reap q _ _ _ _ _ W2 Hi' Hr) as [Op3 Ea3].
      destruct (shm_reap_region_spec _ _ _ _ _ W2 Hi' Hr) as (_ & S3 & _ & _ & Ej & Hcase).
      split; [by apply (shm_op_trans _ _ _ m2 sh2)|]. split; [intros j; by rewrite Ea3|].
      case_decide as Hd.
      + destruct Hcase as [Hgone _].
        assert (forall k, region_at sh3 k -> k <> i /\ region_at sh2 k /\ reg sh3 k = reg sh2 k) as Hk3.
        { intros k Hk. assert (k <> i) by (by intros ->). split; [done|].
          split; [by apply (sr_region _ _ _ _ S3)|]. apply Ej; [apply Hk|done]. }
        split; intros k (Hne & Hk & ->)%Hk3; [by apply Er|]. intros Hki. apply Hlt; [done|lia].
      + destruct Hcase as [_ ->]. split; [done|]. intros k Hk Hki.
        destruct (decide (k = i)) as [->|]; [|apply Hlt; [done|lia]]. intros [? ?]. by apply Hd. }
  unfold I in HI. rewrite Hloop in HI. change (0 + Z.of_nat (Z.to_nat SHM_MAX_REGIONS)) with 64 in HI.
  destruct HI as (Op & Ea & Er & Hlt).
  split; [done|]. split; [done|]. intros k Hk. split; [by apply Er|]. apply Hlt; [done|destruct Hk; lia].
Qed.

(** [shm_process_cleanup]: the process holds nothing afterwards, its regions without another
    attachment are gone, and the others are pending. *)
Lemma shm_process_cleanup_spec m sh p p' m' sh' :
  shm_ok (m_pmm m) sh -> vm_space_ok (p_vm_space p) ->
  shm_process_cleanup p m sh = (p', m', sh') ->
  shm_op_ok (pid p) m sh m' sh' /\ pid p' = pid p /\ proc_ok sh' p'
  /\ (forall i, att_at sh' i -> at_pid (att sh' i) <> pid p)
  /\ (forall k, region_at sh k -> region_at sh' k ->
        owner_pid (reg sh k) = pid p \/ destroy_pending (reg sh k) = true ->
        destroy_pending (reg sh' k) = true /\ exists i, att_at sh' i /\ at_shm_id (att sh' i) = rg_id (reg sh k)).
Proof.
  intros W Wsp. unfold shm_process_cleanup.
  destruct (shm_cleanup_attachments (pid p) sh) as [batch sh1] eqn:Hc.
  destruct (cleanup_attachments_spec (pid p) m sh batch sh1 W Hc) as [Op1 Hdone _ Hreg _ _ _].
  pose proof (orphan_regions_spec (pid p) m sh1 (so_ok _ _ _ _ _ Op1)) as (Op2 & Ea2 & Hk2).
  set (sh2 := shm_orphan_regions (pid p) sh1) in *.
  destruct (shm_cleanup_unmap batch m (p_vm_space p)) as [m1 space] eqn:Hu.
  destruct (cleanup_unmap_spec batch m _ m1 space (sk_pmm _ _ W) Hu) as [G So _ _].
  pose proof (shm_op_machine (pid p) m sh2 m1 (so_ok _ _ _ _ _ Op2) G) as Op3.
  destruct (shm_cleanup_reap batch m1 sh2) as [m2 sh3] eqn:Hr.
  destruct (cleanup_reap_spec (pid p) batch m1 sh2 m2 sh3 (so_ok _ _ _ _ _ Op3) Hr) as (Op4 & Ea4 & Hk4).
  intros [= <- <- <-].
  assert (forall i, 0 <= i < 256 -> held sh3 (pid p) i = false) as Hnone.
  { intros i Hi. unfold held. rewrite Ea4, Ea2. by apply Hdone. }
  assert (shm_op_ok (pid p) m sh m2 sh3) as Op.
  { apply (shm_op_trans _ _ _ m sh1); [done|]. apply (shm_op_trans _ _ _ m sh2); [done|].
    by apply (shm_op_trans _ _ _ m1 sh2). }
  assert (forall i, att_at sh3 i -> at_pid (att sh3 i) <> pid p) as Hfree.
  { intros i [Hi Hx] Hp. specialize (Hnone i Hi). unfold held in Hnone.
    by rewrite Hx, Hp, Z.eqb_refl in Hnone. }
  split; [done|]. split; [done|]. split; [|split; [done|]].
  - destruct (shm_window_spec (pid p)). split.
    + apply (set_cursor_ok space (shm_window (pid p))); [lia|done|by apply So].
    + change (0 = holds sh3 (pid p)). symmetry. by apply holds_none.
    + intros i Hi Hp. by destruct (Hfree i Hi).
  - intros k Hk Hk' Hwas. destruct (Hk4 k Hk') as [Ereg Hnot].
    assert (region_at sh2 k) as Hat2 by (by apply (sr_region _ _ _ _ (so_shrinks _ _ _ _ _ Op4))).
    assert (region_at sh1 k) as Hat1 by (by apply (sr_region _ _ _ _ (so_shrinks _ _ _ _ _ Op2))).
    destruct (Hk2 k Hat1) as (_ & Eid & _ & _ & Hpend).
    pose proof (Hreg k (proj1 Hk)) as Esame.
    assert (destroy_pending (reg sh3 k) = true) as Hd.
    { rewrite Ereg. apply Hpend. rewrite Esame. exact Hwas. }
    split; [done|]. apply refs_witness.
    assert (rg_id (reg sh k) = rg_id (reg sh3 k)) as ->.
    { rewrite Ereg, Eid, Esame. done. }
    rewrite <- (sk_refs _ _ (so_ok _ _ _ _ _ Op) k Hk').
    pose proof (sk_refs _ _ (so_ok _ _ _ _ _ Op) k Hk') as Er.
    pose proof (refs_le sh3 (rg_id (reg sh3 k))).
    destruct (decide (ref_count (reg sh3 k) = 0)); [|lia]. by destruct Hnot.
Qed.

(** ** Creation *)

Lemma alloc_then_free_grows p count start p1 :
  pmm_wf p -> 0 < count -> pmm_allocated p count start p1 ->
  pmm_grows p (pmm_free_pages p1 (start * 4096) count).
Proof.
  intros W Hc A. pose proof (pmm_allocated_wf p count start p1 W Hc A) as W1.
  destruct A as [Ar Al _ As _ At _]. pose proof (wf_total _ W) as Wt.
  destruct (pmm_free_pages_spec p1 start count W1 ltac:(lia) ltac:(lia) ltac:(lia)) as (Wq & Et & _ & Eb).
  split; [done|congruence|]. intros f Hf Hu. rewrite Eb by done.
  destruct (decide (start <= f < Z.min (start + count) (pmm_total_frames p1))) as [Hin|Hout].
  - specialize (Al (f - start) ltac:(lia)). replace (start + (f - start)) with f in Al by lia. congruence.
  - rewrite range_false by done. rewrite As by done. rewrite Hu. by destruct (_ && _).
Qed.

(** The rounded page count; sizes within a page of 2^64 wrap to 0, which no allocation serves. *)
Lemma shm_page_count size :
  is_u64 size ->
  u64 (u64 (size + 4096) - 1) / 4096 = (size + 4095) / 4096
  \/ (u64 (u64 (size + 4096) - 1) / 4096 = 0 /\ 0xFFFFFFFFFFFFF000 < size).
Proof.
  intros Hs. assert (u64 (u64 (size + 4096) - 1) = u64 (size + 4095)) as ->.
  { unfold u64. rewrite Zminus_mod_idemp_l. f_equal. lia. }
  destruct (decide (size + 4095 < 0x10000000000000000)).
  - left. by rewrite u64_id by wsolve.
  - right. split; [wsolve|lia].
Qed.

(** A new region: a free slot, the next id and pages that no other region has. *)
Lemma region_added_spec p sh k r :
  shm_ok p sh -> 0 <= k < 64 -> rg_in_use (reg sh k) = false -> g_next_shm_id sh < 0x7FFFFFFF ->
  rg_in_use r = true -> rg_id r = g_next_shm_id sh -> ref_count r = 0 -> block_ok p r ->
  (forall j f, region_at sh j -> in_block (reg sh j) f -> in_block r f -> False) ->
  let sh1 := set_region k r (sh <| g_next_shm_id := next_shm_id (g_next_shm_id sh) |>) in
  shm_ok p sh1 /\ g_next_shm_id sh1 = g_next_shm_id sh + 1 /\ region_at sh1 k /\ reg sh1 k = r
  /\ (forall j, region_at sh1 j -> j = k \/ region_at sh j)
  /\ (forall j, region_at sh j -> j <> k /\ reg sh1 j = reg sh j)
  /\ (forall i, att sh1 i = att sh i).
Proof.
  intros W Hk Hku Hnext Hru Hrid Hr0 Bk Hdis sh1. set (new_id := g_next_shm_id sh) in *.
  pose proof (sk_next _ _ W) as Hn.
  assert (next_shm_id new_id = new_id + 1) as En.
  { unfold next_shm_id, i32. rewrite u32_id by (subst new_id; wsolve).
    rewrite (proj2 (Z.ltb_lt (new_id + 1) _)) by (subst new_id; lia).
    by rewrite (proj2 (Z.ltb_ge (new_id + 1) 1)) by (subst new_id; lia). }
  assert (forall j, 0 <= j -> reg sh1 j = if decide (j = k) then r else reg sh j) as Ereg.
  { intros j Hj. pose proof (sk_regions _ _ W). unfold sh1. by rewrite reg_set_region. }
  assert (forall j, region_at sh1 j -> j = k \/ (j <> k /\ region_at sh j /\ reg sh1 j = reg sh j)) as Hat.
  { intros j [Hj Hu]. destruct (decide (j = k)) as [->|Hne]; [by left|right].
    rewrite Ereg, decide_False in Hu by (done || lia). split; [done|]. split; [done|].
    rewrite Ereg by lia. by rewrite decide_False. }
  assert (reg sh1 k = r) as Ek by (rewrite Ereg by lia; by rewrite decide_True).
  assert (region_at sh1 k) as Hatk by (split; [done|by rewrite Ek]).
  assert (forall j, region_at sh j -> j <> k /\ reg sh1 j = reg sh j) as Eold.
  { intros j [Hj Hu]. assert (j <> k) by congruence. split; [done|]. rewrite Ereg by lia. by rewrite decide_False. }
  assert (refs sh new_id = 0) as Hrefs0.
  { pose proof (refs_le sh new_id). destruct (decide (0 < refs sh new_id)) as [Hp|]; [|lia].
    destruct (refs_witness _ _ Hp) as (i & Hi & Hid). destruct (sk_live _ _ W i Hi) as (j & Hj & Ej & _).
    pose proof (sk_id _ _ W j Hj). subst new_id. lia. }
  split; [|split; [exact En|split; [done|split; [done|split; [|by split]]]]].
  2: { intros j [->|(_ & Hj & _)]%Hat; auto. }
  destruct W as [V1 V2 V3 V4 V5 V6 V7 V8 V9 V10 V11].
  assert (forall id, refs sh1 id = refs sh id) as Er by (intros; by apply refs_ext).
  assert (g_next_shm_id sh1 = new_id + 1) as Enx by exact En.
  split; [done|unfold sh1; rewrite length_set_region; exact V2|done| | | | | |exact V9| |].
  - rewrite Enx. subst new_id. lia.
  - intros j [->|(_ & Hj & ->)]%Hat; rewrite Enx; [rewrite Ek, Hrid; subst new_id; lia|].
    specialize (V5 j Hj). subst new_id. lia.
  - intros j l [->|(Hnj & Hj & ->)]%Hat [->|(Hnl & Hl & ->)]%Hat; rewrite ?Ek, ?Hrid; [done| | |by apply V6].
    + specialize (V5 l Hl). subst new_id. lia.
    + specialize (V5 j Hj). subst new_id. lia.
  - intros j [->|(_ & Hj & ->)]%Hat; rewrite Er; [by rewrite Ek, Hr0, Hrid|by apply V7].
  - intros i Hi. destruct (V8 i Hi) as (j & Hj & E1 & E2). exists j. destruct (Eold j Hj) as [_ E]. rewrite E.
    split; [|done]. destruct Hj as [Hj Hu]. split; [done|]. by rewrite E.
  - intros j [->|(_ & Hj & ->)]%Hat; [by rewrite Ek|by apply V10].
  - intros j l f [->|(Hnj & Hj & ->)]%Hat [->|(Hnl & Hl & ->)]%Hat; rewrite ?Ek; intros Hf1 Hf2;
      [done|by destruct (Hdis l f)|by destruct (Hdis j f)|by apply (V11 j l f)].
Qed.

Lemma alloc_region_Some p sh k :
  shm_ok p sh -> shm_alloc_region_locked sh = Some k -> 0 <= k < 64 /\ rg_in_use (reg sh k) = false.
Proof.
  intros W (H1 & H2 & _)%find_index_Some. rewrite (sk_regions _ _ W) in H1.
  unfold reg. destruct (rg_in_use _); [done|]. split; [lia|done].
Qed.

(** The pages an allocation returns, as the block of a region to be. *)
Lemma allocated_block p count s p1 r :
  pmm_wf p -> 0 < count < 0x10000000000000 -> pmm_allocated p count s p1 ->
  phys_base r = s * 4096 -> rg_page_count r = count -> rg_size r = u64 (count * 4096) ->
  block_ok p1 r /\ (forall f, in_block r f -> bitmap_get p f = true) /\ pmm_grows p p1.
Proof.
  intros Wp Hc A Eb Ec Es. pose proof (al_range _ _ _ _ A) as Ar. pose proof (wf_total _ Wp) as Wt.
  assert (phys_base r / 4096 = s) as Ed by (by rewrite Eb, Z.div_mul).
  split; [|split].
  - split; unfold in_block; rewrite ?Ed, ?Ec; [by rewrite Eb, Z.mod_mul|lia|lia|rewrite Es; by rewrite u64_id by wsolve| |].
    + rewrite (al_total _ _ _ _ A). lia.
    + intros f Hf. rewrite (al_set _ _ _ _ A) by lia. by rewrite range_true by lia.
  - unfold in_block. rewrite Ed, Ec. intros f Hf. pose proof (al_run _ _ _ _ A (f - s) ltac:(lia)) as Hfree.
    by replace (s + (f - s)) with f in Hfree by lia.
  - split; [by apply (pmm_allocated_wf p count s p1 Wp ltac:(lia))|apply A|].
    intros f Hf Hu. rewrite (al_set _ _ _ _ A) by done. rewrite Hu. by destruct (_ && _).
Qed.

(** [shm_create] either changes no table and releases what it took, or adds one region with a
    fresh id on newly allocated frames. *)
Lemma shm_create_spec cur size m sh rc m' sh' :
  shm_ok (m_pmm m) sh -> is_u64 size -> g_next_shm_id sh < 0x7FFFFFFF ->
  shm_create cur size m sh = (rc, m', sh') ->
  shm_ok (m_pmm m') sh' /\ pmm_grows (m_pmm m) (m_pmm m')
  /\ (forall i, att sh' i = att sh i)
  /\ (forall k, region_at sh k -> reg sh' k = reg sh k)
  /\ ((rc = -1 /\ sh' = sh)
      \/ (rc = g_next_shm_id sh /\ g_next_shm_id sh' = rc + 1
          /\ exists k, ~ region_at sh k /\ region_at sh' k /\ rg_id (reg sh' k) = rc
             /\ owner_pid (reg sh' k) = match cur with Some p => pid p | None => 0 end
             /\ rg_page_count (reg sh' k) = (size + 4095) / 4096
             /\ (forall f, in_block (reg sh' k) f -> bitmap_get (m_pmm m) f = true)
             /\ (forall j, region_at sh' j -> j = k \/ region_at sh j))).
Proof.
  intros W Hsz Hnext. pose proof (sk_pmm _ _ W) as Wp. unfold shm_create.
  assert (forall rc0 m0 sh0, (-1, m, sh) = (rc0, m0, sh0) -> rc0 = -1 /\ m0 = m /\ sh0 = sh) as Hfail
    by (by intros ??? [= <- <- <-]).
  destruct (Z.eqb_spec size 0) as [|Hsz0].
  { intros (-> & -> & ->)%Hfail. split; [done|]. split; [by apply pmm_grows_refl|]. auto. }
  unfold PAGE_SIZE. set (count := u64 (u64 (size + 4096) - 1) / 4096).
  assert (0 <= count < 0x10000000000000) as Hcnt by (subst count; wsolve).
  destruct (pmm_alloc_pages (m_pmm m) count) as [a p1] eqn:Hal.
  destruct (decide (count = 0)) as [Ez|Hnz].
  { rewrite Ez in Hal. unfold pmm_alloc_pages in Hal. simpl in Hal. injection Hal as <- <-. simpl.
    intros [= <- <- <-]. fields. split; [done|]. split; [by apply pmm_grows_refl|]. auto. }
  destruct (pmm_alloc_pages_cases (m_pmm m) count a p1 Wp ltac:(lia) Hal)
    as [(s & -> & A) | (-> & -> & _)].
  2: { simpl. intros [= <- <- <-]. fields. split; [done|]. split; [by apply pmm_grows_refl|]. auto. }
  pose proof (al_range _ _ _ _ A) as Ar. pose proof (wf_total _ Wp) as Wt.
  pose proof (pmm_allocated_wf (m_pmm m) count s p1 Wp ltac:(lia) A) as Wp1.
  rewrite (proj2 (Z.eqb_neq (s * 4096) 0)) by lia.
  destruct (shm_alloc_region_locked sh) as [k|] eqn:Hk.
  2: { intros [= <- <- <-]. pose proof (alloc_then_free_grows (m_pmm m) count s p1 Wp ltac:(lia) A) as G.
       split; [by apply (shm_ok_grows (m_pmm m))|]. split; [done|]. auto. }
  destruct (alloc_region_Some _ sh k W Hk) as [Hk1 Hku].
  set (r := mkRegion (g_next_shm_id sh) (match cur with Some p => pid p | None => 0 end) (s * 4096)
              (u64 (count * 4096)) count 0 false true).
  destruct (allocated_block (m_pmm m) count s p1 r Wp ltac:(lia) A eq_refl eq_refl eq_refl) as (Bk & Hfree & G).
  assert (forall j f, region_at sh j -> in_block (reg sh j) f -> in_block r f -> False) as Hdis.
  { intros j f Hj Hf1 Hf2. pose proof (bk_used _ _ (sk_block _ _ W j Hj) f Hf1). rewrite Hfree in * by done. done. }
  intros [= <- <- <-]. change (m_pmm (m <| m_pmm := p1 |>)) with p1.
  destruct (region_added_spec p1 sh k r (shm_ok_grows _ _ _ W G) Hk1 Hku Hnext eq_refl eq_refl eq_refl Bk Hdis)
    as (W1 & En & Hatk & Ek & Hat & Eold & Ea).
  split; [done|]. split; [done|]. split; [done|]. split; [by intros j [_ ?]%Eold|right].
  split; [done|]. split; [exact En|]. exists k. split; [by intros [? _]%Eold|]. split; [done|].
  fold r. rewrite Ek. split; [done|]. split; [done|]. split; [|by split].
  destruct (shm_page_count size Hsz) as [E|[E _]]; [exact E|]. by destruct Hnz.
Qed.

(** ** The system of processes

    Processes share the tables; every step is one whole call by one process ([ShmSections] splits
    the calls at their locks).  [shm_env] is any other
    activity of the kernel: it may allocate and free frames, but not the pages of a region. *)

Record shm_world := mkWorld {
  w_machine : machine;
  w_shm : shm_sys;
  w_procs : gmap Z process;
}.

Inductive shm_step : shm_world -> shm_world -> Prop :=
  | step_create m sh ps cur size rc m' sh' :
      is_u64 size -> g_next_shm_id sh < 0x7FFFFFFF ->
      shm_create cur size m sh = (rc, m', sh') ->
      shm_step (mkWorld m sh ps) (mkWorld m' sh' ps)
  | step_attach m sh ps q p id v p' m' sh' :
      ps !! q = Some p -> shm_attach (Some p) id m sh = (v, Some p', m', sh') ->
      shm_step (mkWorld m sh ps) (mkWorld m' sh' (<[q := p']> ps))
  | step_detach m sh ps q p v rc p' m' sh' :
      ps !! q = Some p -> shm_detach (Some p) v m sh = (rc, Some p', m', sh') ->
      shm_step (mkWorld m sh ps) (mkWorld m' sh' (<[q := p']> ps))
  | step_destroy m sh ps id rc m' sh' :
      shm_destroy id m sh = (rc, m', sh') ->
      shm_step (mkWorld m sh ps) (mkWorld m' sh' ps)
  | step_cleanup m sh ps q p p' m' sh' :
      ps !! q = Some p -> shm_process_cleanup p m sh = (p', m', sh') ->
      shm_step (mkWorld m sh ps) (mkWorld m' sh' (<[q := p']> ps)).

Inductive shm_env : shm_world -> shm_world -> Prop :=
  | env_frames m sh ps m' :
      pmm_wf (m_pmm m') -> pmm_total_frames (m_pmm m') = pmm_total_frames (m_pmm m) ->
      (forall k f, region_at sh k -> in_block (reg sh k) f -> bitmap_get (m_pmm m') f = false) ->
      shm_env (mkWorld m sh ps) (mkWorld m' sh ps)
  | env_process m sh ps q p :
      pid p = q -> vm_space_ok (p_vm_space p) -> shm_attachment_count p = 0 ->
      (forall i, att_at sh i -> at_pid (att sh i) <> q) ->
      shm_env (mkWorld m sh ps) (mkWorld m sh (<[q := p]> ps)).

Definition shm_run : shm_world -> shm_world -> Prop := rtc (fun a b => shm_step a b \/ shm_env a b).

Record world_ok (w : shm_world) : Prop := {
  wo_shm : shm_ok (m_pmm (w_machine w)) (w_shm w);
  wo_procs : forall q p, w_procs w !! q = Some p -> pid p = q /\ proc_ok (w_shm w) p;
}.

(** An operation of [q] keeps every process in order. *)
Lemma procs_after q m sh m' sh' (ps : gmap Z process) p' :
  (forall r p, ps !! r = Some p -> pid p = r /\ proc_ok sh p) ->
  shm_op_ok q m sh m' sh' -> pid p' = q -> proc_ok sh' p' ->
  forall r p, <[q := p']> ps !! r = Some p -> pid p = r /\ proc_ok sh' p.
Proof.
  intros Hps Op Hq Hp' r p. destruct (decide (q = r)) as [->|Hne].
  - rewrite lookup_insert_eq. intros [= <-]. done.
  - rewrite lookup_insert_ne by done. intros Hr. destruct (Hps r p Hr) as [Ep Hp]. split; [done|].
    apply (proc_ok_frame q sh sh'); [apply Op|congruence|done].
Qed.

Lemma shm_step_world_ok w w' : world_ok w -> shm_step w w' -> world_ok w'.
Proof.
  intros [W Hps] Hstep. destruct Hstep as [m sh ps cur size rc m' sh' Hs Hn Hc|m sh ps q p id v p' m' sh' Hq Ha
    |m sh ps q p v rc p' m' sh' Hq Hd|m sh ps id rc m' sh' Hd|m sh ps q p p' m' sh' Hq Hc]; simpl in W, Hps.
  - destruct (shm_create_spec cur size m sh rc m' sh' W Hs Hn Hc) as (W' & _ & Ea & _).
    split; simpl; [done|]. intros q p Hq. destruct (Hps q p Hq). split; [done|]. by apply (proc_ok_att sh).
  - destruct (Hps q p Hq) as [Ep P].
    destruct (shm_attach_spec m sh p id v _ m' sh' W P Ha) as (p1 & [= <-] & Epid & Op & P').
    split; simpl; [apply Op|]. rewrite Ep in *. by apply (procs_after q m sh m').
  - destruct (Hps q p Hq) as [Ep P].
    destruct (shm_detach_spec m sh p v rc _ m' sh' W P Hd) as (p1 & [= <-] & Epid & Op & P').
    split; simpl; [apply Op|]. rewrite Ep in *. by apply (procs_after q m sh m').
  - destruct (shm_destroy_spec 0 m sh id rc m' sh' W Hd) as (Op & Ea & _).
    split; simpl; [apply Op|]. intros q p Hq. destruct (Hps q p Hq). split; [done|]. by apply (proc_ok_att sh).
  - destruct (Hps q p Hq) as [Ep P].
    destruct (shm_process_cleanup_spec m sh p p' m' sh' W (po_space _ _ P) Hc) as (Op & Epid & P' & _).
    split; simpl; [apply Op|]. rewrite Ep in *. by apply (procs_after q m sh m').
Qed.

Lemma shm_env_world_ok w w' : world_ok w -> shm_env w w' -> world_ok w'.
Proof.
  intros [W Hps] Henv. destruct Henv as [m sh ps m' Hwf Ht Hused|m sh ps q p Hq Hsp Hz Hnone]; simpl in W, Hps.
  - split; simpl; [|done]. apply (shm_ok_sub (m_pmm m) sh); [done|done|done|apply W|done|done|done|done|done].
  - split; simpl; [done|]. apply (procs_after q m sh m sh ps p Hps); [by apply shm_op_refl|done|].
    split; [done| |].
    + rewrite Hz. symmetry. apply holds_none. intros i Hi. unfold held.
      destruct (at_in_use (att sh i)) eqn:Hu; [|done]. simpl. apply Z.eqb_neq. rewrite Hq. by apply Hnone.
    + intros i Hi Hp. destruct (Hnone i Hi). congruence.
Qed.

(** ** Properties *)

(** Over calls as whole steps the tables stay consistent.  After any sequence of creations,
    attachments, detachments, destructions and process cleanups by any processes, with the rest of
    the kernel allocating and freeing other frames in between: region ids are unique, every reference
    count is the number of live attachments of the region, no attachment names a missing region, the
    pages of every region are allocated and disjoint from those of any other, and every process's
    attachment count is exact.  [ShmSections] has the interleavings inside the calls. *)
Theorem shm_run_invariant w w' : world_ok w -> shm_run w w' -> world_ok w'.
Proof.
  intros W Hrun. induction Hrun as [w|w1 w2 w3 [Hs|He] _ IH]; [done| |].
  - apply IH. by apply (shm_step_world_ok w1).
  - apply IH. by apply (shm_env_world_ok w1).
Qed.

(** No use after free.  If a frame was allocated before a step and is free after it, it was a
    page of a region that is gone and that no process is attached to any more. *)
Theorem shm_frees_only_unattached w w' f :
  world_ok w -> shm_step w w' -> 0 <= f ->
  bitmap_get (m_pmm (w_machine w)) f = false -> bitmap_get (m_pmm (w_machine w')) f = true ->
  exists k, region_at (w_shm w) k /\ in_block (reg (w_shm w) k) f /\ ~ region_at (w_shm w') k
            /\ forall i, att_at (w_shm w') i -> at_shm_id (att (w_shm w') i) <> rg_id (reg (w_shm w) k).
Proof.
  intros W Hstep Hf H1 H2. pose proof (shm_step_world_ok _ _ W Hstep) as W'.
  assert (shm_shrinks (m_pmm (w_machine w)) (w_shm w) (m_pmm (w_machine w')) (w_shm w')
          \/ bitmap_get (m_pmm (w_machine w')) f = false) as [S|]; [|clear Hstep|congruence].
  - destruct W as [W Hps].
    destruct Hstep as [m sh ps cur size rc m' sh' Hs Hn Hc|m sh ps q p id v p' m' sh' Hq Ha
      |m sh ps q p v rc p' m' sh' Hq Hd|m sh ps id rc m' sh' Hd|m sh ps q p p' m' sh' Hq Hc]; simpl in *.
    + right. destruct (shm_create_spec cur size m sh rc m' sh' W Hs Hn Hc) as (_ & G & _).
      by apply (pg_used _ _ G).
    + left. destruct (Hps q p Hq) as [Ep P].
      destruct (shm_attach_spec m sh p id v _ m' sh' W P Ha) as (_ & _ & _ & Op & _). apply Op.
    + left. destruct (Hps q p Hq) as [Ep P].
      destruct (shm_detach_spec m sh p v rc _ m' sh' W P Hd) as (_ & _ & _ & Op & _). apply Op.
    + left. destruct (shm_destroy_spec 0 m sh id rc m' sh' W Hd) as (Op & _). apply Op.
    + left. destruct (Hps q p Hq) as [Ep P].
      destruct (shm_process_cleanup_spec m sh p p' m' sh' W (po_space _ _ P) Hc) as (Op & _). apply Op.
  - destruct (sr_freed _ _ _ _ S f Hf H1 H2) as (k & Hk & Hin & Hgone).
    exists k. split; [done|]. split; [done|]. split; [done|]. intros i Hi Heq.
    destruct (sk_live _ _ (wo_shm _ W') i Hi) as (l & Hl & El & _).
    destruct (sr_region _ _ _ _ S l Hl) as (Hl' & Eid & _).
    assert (l = k) as ->; [|done]. apply (sk_uniq _ _ (wo_shm _ W)); [done|done|congruence].
Qed.

(** Destroying a region succeeds exactly when it exists and nobody is attached.  On success
    the region is gone and all its pages are free; a refused call changes nothing. *)
Theorem shm_destroy_exact m sh id rc m' sh' :
  shm_ok (m_pmm m) sh -> shm_destroy id m sh = (rc, m', sh') ->
  (rc = 0 /\ (forall i, att_at sh i -> at_shm_id (att sh i) <> id)
   /\ exists k, region_at sh k /\ rg_id (reg sh k) = id /\ ~ region_at sh' k
        /\ forall f, in_block (reg sh k) f -> bitmap_get (m_pmm m') f = true)
  \/ (rc = -1 /\ m' = m /\ sh' = sh
      /\ ((forall k, region_at sh k -> rg_id (reg sh k) <> id)
          \/ exists i, att_at sh i /\ at_shm_id (att sh i) = id)).
Proof.
  intros W Hd. destruct (shm_destroy_spec 0 m sh id rc m' sh' W Hd)
    as (_ & _ & [(-> & -> & -> & Hwhy) | (-> & k & Hk & Hid & Hgone & Hnone & Hfree)]).
  - right. repeat (split; [done|]). destruct Hwhy as [Hneg|[?|?]]; [left|by left|by right].
    intros k Hk. pose proof (sk_id _ _ W k Hk). lia.
  - left. split; [done|]. split; [done|]. by exists k.
Qed.

(** A process leaves nothing behind.  After [shm_process_cleanup] no attachment belongs to the
    process and its count is zero; each region it owned is either gone or pending and still attached
    by another process; the other processes keep all their attachments. *)
Theorem shm_process_cleanup_complete m sh p p' m' sh' :
  shm_ok (m_pmm m) sh -> proc_ok sh p -> shm_process_cleanup p m sh = (p', m', sh') ->
  shm_ok (m_pmm m') sh' /\ shm_attachment_count p' = 0
  /\ (forall i, att_at sh' i -> at_pid (att sh' i) <> pid p)
  /\ (forall k, region_at sh k -> owner_pid (reg sh k) = pid p -> region_at sh' k ->
        destroy_pending (reg sh' k) = true
        /\ exists i, att_at sh' i /\ at_shm_id (att sh' i) = rg_id (reg sh k) /\ at_pid (att sh' i) <> pid p)
  /\ (forall i, att_at sh i -> at_pid (att sh i) <> pid p -> att sh' i = att sh i).
Proof.
  intros W P Hc.
  destruct (shm_process_cleanup_spec m sh p p' m' sh' W (po_space _ _ P) Hc) as (Op & Epid & P' & Hnone & Hown).
  split; [apply Op|]. split; [|split; [done|split]].
  - rewrite (po_count _ _ P'), Epid. apply holds_none. intros i Hi. unfold held.
    destruct (at_in_use (att sh' i)) eqn:Hu; [|done]. apply Z.eqb_neq. by apply Hnone.
  - intros k Hk Ho Hk'. destruct (Hown k Hk Hk' (or_introl Ho)) as (Hd & i & Hi & Hid).
    split; [done|]. exists i. split; [done|]. split; [done|]. by apply Hnone.
  - intros i [Hi Hu] Hp. destruct (so_only _ _ _ _ _ Op (at_pid (att sh i)) i Hp Hi) as [_ E].
    apply E. unfold held. by rewrite Hu, Z.eqb_refl.
Qed.

(** ** Concrete runs

    Two processes that share the address space [ex_root]: process 1 creates a region of two pages
    and attaches it, process 2 attaches it too and process 1 exits. *)

Lemma reg_zero k : reg shm_zero k = region_zero.
Proof.
  unfold reg, aget. rewrite list_lookup_total_alt.
  destruct (g_regions shm_zero !! Z.to_nat k) as [r|] eqn:E; [|done]. simpl.
  by apply list_elem_of_lookup_2, list_elem_of_In, repeat_spec in E.
Qed.
Lemma att_zero i : att shm_zero i = attachment_zero.
Proof.
  unfold att, aget. rewrite list_lookup_total_alt.
  destruct (g_attachments shm_zero !! Z.to_nat i) as [r|] eqn:E; [|done]. simpl.
  by apply list_elem_of_lookup_2, list_elem_of_In, repeat_spec in E.
Qed.

Lemma shm_zero_ok p : pmm_wf p -> shm_ok p shm_zero.
Proof.
  intros W.
  assert (forall k, ~ region_at shm_zero k) as Hr by (intros k [_ H]; by rewrite reg_zero in H).
  assert (forall i, ~ att_at shm_zero i) as Ha by (intros i [_ H]; by rewrite att_zero in H).
  split; try done; intros; exfalso; (by eapply Hr) || (by eapply Ha).
Qed.

Definition ex_proc (q : Z) : process :=
  process_zero <| pid := q |> <| p_vm_space := ex_space <| shm_cursor := shm_window q |> |>.

Definition ex_world0 : shm_world :=
  mkWorld ex_machine1 shm_zero (<[1 := ex_proc 1]> (<[2 := ex_proc 2]> ∅)).

Lemma ex_world0_ok : world_ok ex_world0.
Proof.
  split; unfold ex_world0; cbn [w_machine w_shm w_procs].
  - apply shm_zero_ok. apply (sw_pmm _ _ ex_space1).
  - intros q p [[<- <-]|[_ [[<- <-]|[_ Hq]]%lookup_insert_Some]]%lookup_insert_Some; [| |done];
      (split; [done|]); (split; [split; vm_compute; (done || by split)| |]).
    1, 3: simpl; symmetry; apply holds_none; intros i Hi; unfold held; by rewrite att_zero.
    all: intros i [_ Hu]; by rewrite att_zero in Hu.
Qed.

Lemma create_eta {B C} (x : Z * B * C) v : x.1.1 = v -> x = (v, x.1.2, x.2).
Proof. destruct x as [[a b] c]. simpl. by intros <-. Qed.

Lemma attach_eta {B C} (x : Z * option process * B * C) v :
  x.1.1.1 = v -> (if x.1.1.2 is Some _ then true else false) = true ->
  x = (v, Some (default process_zero x.1.1.2), x.1.2, x.2).
Proof. destruct x as [[[a [p|]] b] c]; simpl; [by intros <-|done]. Qed.

Definition ex_created := shm_create (Some (ex_proc 1)) 5000 ex_machine1 shm_zero.
Definition ex_att1 := shm_attach (Some (ex_proc 1)) 1 ex_created.1.2 ex_created.2.
Definition ex_p1 : process := default process_zero ex_att1.1.1.2.
Definition ex_att2 := shm_attach (Some (ex_proc 2)) 1 ex_att1.1.2 ex_att1.2.
Definition ex_p2 : process := default process_zero ex_att2.1.1.2.
Definition ex_exit := shm_process_cleanup ex_p1 ex_att2.1.2 ex_att2.2.
Strategy expand [w_machine w_shm w_procs].
Strategy expand [ex_created ex_att1 ex_p1 ex_att2 ex_p2 ex_exit].

Lemma ex_created_eq : shm_create (Some (ex_proc 1)) 5000 ex_machine1 shm_zero
  = (1, ex_created.1.2, ex_created.2).
Proof. unfold ex_created. apply create_eta. vm_compute. reflexivity. Qed.

Lemma ex_att1_eq : shm_attach (Some (ex_proc 1)) 1 ex_created.1.2 ex_created.2
  = (0x41000000, Some ex_p1, ex_att1.1.2, ex_att1.2).
Proof. unfold ex_p1, ex_att1. apply attach_eta; vm_compute; reflexivity. Qed.

Lemma ex_att2_eq : shm_attach (Some (ex_proc 2)) 1 ex_att1.1.2 ex_att1.2
  = (0x42000000, Some ex_p2, ex_att2.1.2, ex_att2.2).
Proof. unfold ex_p2, ex_att2. apply attach_eta; vm_compute; reflexivity. Qed.

Lemma ex_exit_eq : shm_process_cleanup ex_p1 ex_att2.1.2 ex_att2.2
  = (ex_exit.1.1, ex_exit.1.2, ex_exit.2).
Proof. unfold ex_exit. by destruct (shm_process_cleanup _ _ _) as [[? ?] ?]. Qed.

Definition ex_world1 : shm_world :=
  mkWorld ex_created.1.2 ex_created.2 (w_procs ex_world0).
Definition ex_world2 : shm_world :=
  mkWorld ex_att1.1.2 ex_att1.2 (<[1 := ex_p1]> (w_procs ex_world0)).
Definition ex_world3 : shm_world :=
  mkWorld ex_att2.1.2 ex_att2.2 (<[2 := ex_p2]> (<[1 := ex_p1]> (w_procs ex_world0))).
Strategy expand [ex_world1 ex_world2 ex_world3].

Lemma ex_step1 : shm_step ex_world0 ex_world1.
Proof. apply (step_create _ _ _ (Some (ex_proc 1)) 5000 1); [wsolve|done|apply ex_created_eq]. Qed.
Lemma ex_step2 : shm_step ex_world1 ex_world2.
Proof. apply (step_attach _ _ _ 1 (ex_proc 1) 1 0x41000000); [done|apply ex_att1_eq]. Qed.
Lemma ex_step3 : shm_step ex_world2 ex_world3.
Proof. apply (step_attach _ _ _ 2 (ex_proc 2) 1 0x42000000); [done|apply ex_att2_eq]. Qed.

Lemma ex_world3_ok : world_ok ex_world3.
Proof.
  apply (shm_step_world_ok ex_world2), ex_step3. apply (shm_step_world_ok ex_world1), ex_step2.
  apply (shm_step_world_ok ex_world0), ex_step1. apply ex_world0_ok.
Qed.

Lemma shm_run_invariant_witness : world_ok ex_world3.
Proof.
  apply (shm_run_invariant ex_world0); [apply ex_world0_ok|].
  eapply rtc_l; [left; apply ex_step1|]. eapply rtc_l; [left; apply ex_step2|].
  eapply rtc_l; [left; apply ex_step3|]. apply rtc_refl.
Defined.

(** Before anyone attaches, the region can be destroyed and its two pages are free again. *)
Definition ex_destroyed := shm_destroy 1 ex_created.1.2 ex_created.2.
Strategy expand [ex_destroyed].
Definition ex_world4 : shm_world := mkWorld ex_destroyed.1.2 ex_destroyed.2 (w_procs ex_world0).

Lemma ex_destroyed_eq :
  shm_destroy 1 ex_created.1.2 ex_created.2 = (0, ex_destroyed.1.2, ex_destroyed.2).
Proof. unfold ex_destroyed. apply create_eta. vm_compute. reflexivity. Qed.

Lemma ex_world1_ok : world_ok ex_world1.
Proof. apply (shm_step_world_ok ex_world0), ex_step1. apply ex_world0_ok. Qed.

Lemma ex_step4 : shm_step ex_world1 ex_world4.
Proof. apply (step_destroy _ _ _ 1 0), ex_destroyed_eq. Qed.

Lemma ex_freed :
  bitmap_get (m_pmm (w_machine ex_world1)) 261 = false
  /\ bitmap_get (m_pmm (w_machine ex_world4)) 261 = true.
Proof. split; vm_compute; reflexivity. Qed.

Lemma shm_frees_only_unattached_witness :
  exists k, region_at (w_shm ex_world1) k /\ in_block (reg (w_shm ex_world1) k) 261
            /\ ~ region_at (w_shm ex_world4) k
            /\ forall i, att_at (w_shm ex_world4) i ->
                 at_shm_id (att (w_shm ex_world4) i) <> rg_id (reg (w_shm ex_world1) k).
Proof.
  apply (shm_frees_only_unattached ex_world1 ex_world4 261);
    [apply ex_world1_ok|apply ex_step4|lia|apply ex_freed|apply ex_freed].
Defined.

Lemma ex_created_ok : shm_ok (m_pmm ex_created.1.2) ex_created.2.
Proof. destruct ex_world1_ok as [W _]. unfold ex_world1 in W. cbn [w_machine w_shm] in W. exact W. Qed.

Lemma ex_att2_ok : shm_ok (m_pmm ex_att2.1.2) ex_att2.2.
Proof. destruct ex_world3_ok as [W _]. unfold ex_world3 in W. cbn [w_machine w_shm] in W. exact W. Qed.

Lemma shm_destroy_exact_witness :
  (0 = 0 /\ (forall i, att_at ex_created.2 i -> at_shm_id (att ex_created.2 i) <> 1)
   /\ exists k, region_at ex_created.2 k /\ rg_id (reg ex_created.2 k) = 1 /\ ~ region_at ex_destroyed.2 k
        /\ forall f, in_block (reg ex_created.2 k) f -> bitmap_get (m_pmm ex_destroyed.1.2) f = true)
  \/ (0 = -1 /\ ex_destroyed.1.2 = ex_created.1.2 /\ ex_destroyed.2 = ex_created.2
      /\ ((forall k, region_at ex_created.2 k -> rg_id (reg ex_created.2 k) <> 1)
          \/ exists i, att_at ex_created.2 i /\ at_shm_id (att ex_created.2 i) = 1)).
Proof.
  apply (shm_destroy_exact ex_created.1.2 ex_created.2 1 0);
    [exact ex_created_ok|exact ex_destroyed_eq].
Defined.

Lemma ex_p1_ok : proc_ok ex_att2.2 ex_p1.
Proof.
  destruct ex_world3_ok as [_ P]. unfold ex_world3 in P. cbn [w_procs w_shm] in P.
  refine (proj2 (P 1 ex_p1 _)). rewrite lookup_insert_ne by done. apply lookup_insert_eq.
Qed.

Lemma shm_process_cleanup_complete_witness :
  shm_ok (m_pmm ex_exit.1.2) ex_exit.2 /\ shm_attachment_count ex_exit.1.1 = 0
  /\ (forall i, att_at ex_exit.2 i -> at_pid (att ex_exit.2 i) <> pid ex_p1)
  /\ (forall k, region_at ex_att2.2 k -> owner_pid (reg ex_att2.2 k) = pid ex_p1 -> region_at ex_exit.2 k ->
        destroy_pending (reg ex_exit.2 k) = true
        /\ exists i, att_at ex_exit.2 i /\ at_shm_id (att ex_exit.2 i) = rg_id (reg ex_att2.2 k)
             /\ at_pid (att ex_exit.2 i) <> pid ex_p1)
  /\ (forall i, att_at ex_att2.2 i -> at_pid (att ex_att2.2 i) <> pid ex_p1 ->
        att ex_exit.2 i = att ex_att2.2 i).
Proof.
  apply (shm_process_cleanup_complete ex_att2.1.2 ex_att2.2 ex_p1);
    [exact ex_att2_ok|exact ex_p1_ok|exact ex_exit_eq].
Defined.

(** ** A race

    [shm_attach] drops the lock between recording an attachment and mapping it.  If the process is
    cleaned up by another processor in that window and the mapping then fails, the undo section
    finds no attachment but still takes a reference away: here process 2 stays attached to region 1
    while its reference count is 0, so that [shm_destroy] frees pages that are still mapped. *)

Definition ex_race_sh : shm_sys :=
  let sh := ex_att2.2 in                                         (* 1 and 2 attached *)
  let '(_, _, sh) := shm_attach_reserve (ex_proc 3) 1 sh in      (* 3 reserves *)
  let '(_, sh) := shm_cleanup_attachments 3 sh in                (* 3 is killed *)
  let sh := shm_attach_undo 3 (shm_window 3) 1 sh in             (* its mapping failed *)
  (shm_detach_release 1 0x41000000 sh).2.                        (* 1 detaches *)

Lemma shm_attach_undo_race :
  at_in_use (att ex_race_sh 1) = true /\ at_pid (att ex_race_sh 1) = 2
  /\ at_shm_id (att ex_race_sh 1) = 1
  /\ rg_id (reg ex_race_sh 0) = 1 /\ ref_count (reg ex_race_sh 0) = 0
  /\ (shm_destroy 1 ex_att2.1.2 ex_race_sh).1.1 = 0
  /\ bitmap_get (m_pmm (shm_destroy 1 ex_att2.1.2 ex_race_sh).1.2) 261 = true.
Proof. vm_compute. repeat split. Qed.
