(* ===== verification/ShmSections.v ===== *)
(** Shared memory at the grain of its lock: [src/ipc/shm.c] with the other processors' calls in
    between.

    [Shm] models each call as one step.  In the source a call is a sequence of sections that hold
    [g_shm_lock] and of work outside it: [shm_create] takes its pages before the lock, [shm_attach]
    maps, and [shm_detach] and [shm_process_cleanup] unmap, between two sections.  Here every section
    and every such piece of work is a step of its own, a process that is inside a call has a [phase],
    and any steps of other processes may come between two steps of a call.  A process makes one call
    at a time; its cleanup may start in the middle of one, and then the interrupted call is not
    resumed.  (When it is, on another processor, the invariant is lost: [Shm.shm_attach_undo_race].) *)

From S2P Require Import Prelude Pmm Paging Vmm VmSpace ProcessData Shm.

(** ** Sections *)

(** [shm_create] up to the lock: the pages of the region to be. *)
Definition shm_create_begin (size : Z) (m : machine) : option (Z * Z) * machine :=
  if size =? 0 then (None, m) else
  let page_count := u64 (u64 (size + PAGE_SIZE) - 1) / PAGE_SIZE in
  let '(phys, p) := pmm_alloc_pages (m_pmm m) page_count in
  let m := m <| m_pmm := p |> in
  if phys =? 0 then (None, m) else (Some (phys, page_count), m).

(** Its locked section, with the release of the pages when the table is full. *)
Definition shm_create_end (cur : option process) (phys page_count : Z) (m : machine) (sh : shm_sys)
  : Z * machine * shm_sys :=
  match shm_alloc_region_locked sh with
  | None => (-1, m <| m_pmm := pmm_free_pages (m_pmm m) phys page_count |>, sh)
  | Some k =>
      let new_id := g_next_shm_id sh in
      let sh := sh <| g_next_shm_id := next_shm_id new_id |> in
      let owner := match cur with Some p => pid p | None => 0 end in
      (new_id, m, set_region k (mkRegion new_id owner phys (u64 (page_count * PAGE_SIZE)) page_count
                                  0 false true) sh)
  end.

(** The mapping of [shm_attach] between its sections, with the accounting that follows a success. *)
Definition shm_attach_map (p : process) (virt_addr phys page_count : Z) (m : machine)
  : bool * process * machine :=
  let '(rc, space, m) := vm_space_map_user_pages m (p_vm_space p) virt_addr phys page_count
                           shm_attach_flags in
  let p := p <| p_vm_space := space |> in
  if negb (rc =? 0) then (false, p, m) else
  (true, p <| p_vm_space := vm_space_note_shm_attach (p_vm_space p) page_count |>
           <| shm_attachment_count := u32 (shm_attachment_count p + 1) |>, m).

(** The unmapping of [shm_detach] between its sections. *)
Definition shm_detach_unmap (p : process) (addr page_count : Z) (m : machine) : Z * process * machine :=
  let '(unmap_rc, space, m) := vm_space_unmap_user_pages m (p_vm_space p) addr page_count in
  let p := p <| p_vm_space := vm_space_note_shm_detach space page_count |> in
  let p := if 0 <? shm_attachment_count p
           then p <| shm_attachment_count := shm_attachment_count p - 1 |> else p in
  (unmap_rc,
   if shm_attachment_count p =? 0
   then p <| p_vm_space := p_vm_space p <| shm_cursor := shm_window (pid p) |> |> else p, m).

(** The first section of [shm_process_cleanup]. *)
Definition shm_cleanup_begin (pid : Z) (sh : shm_sys) : list (Z * Z * Z) * shm_sys :=
  let '(batch, sh) := shm_cleanup_attachments pid sh in (batch, shm_orphan_regions pid sh).

(** One turn of its unmapping loop, and the reset after the loop. *)
Definition shm_cleanup_unmap_one (p : process) (addr pages : Z) (m : machine) : process * machine :=
  let '(_, space, m) := vm_space_unmap_user_pages m (p_vm_space p) addr pages in
  (p <| p_vm_space := vm_space_note_shm_detach space pages |>, m).
Definition shm_cleanup_reset (p : process) : process :=
  let p := p <| shm_attachment_count := 0 |> in
  p <| p_vm_space := p_vm_space p <| shm_cursor := shm_window (pid p) |> |>.

(** Where a process is inside a call, with the local variables it carries on. *)
Inductive phase :=
  | Creating (phys page_count : Z)
  | Mapping (virt_addr phys page_count shm_id : Z)
  | Undoing (virt_addr shm_id : Z)
  | Unmapping (virt_addr page_count shm_id : Z) (needs_reap : bool)
  | Reaping (shm_id : Z)
  | Cleaning (todo batch : list (Z * Z * Z))
  | Sweeping (batch : list (Z * Z * Z)).

(** [w_procs] are the processes; a key of [s_phase] without a process is a kernel thread, whose
    [process_current()] is NULL. *)
Record sections := mkSections { s_world : shm_world; s_phase : gmap Z phase }.

Definition in_cleanup (ph : option phase) : bool :=
  match ph with Some (Cleaning _ _) | Some (Sweeping _) => true | _ => false end.

(** [q] is in phase [ph] next, or outside any call. *)
Definition go (q : Z) (ph : option phase) (phs : gmap Z phase) : gmap Z phase :=
  match ph with Some x => <[q := x]> phs | None => delete q phs end.

Inductive sec_step : sections -> sections -> Prop :=
  | sec_create_begin m sh ps phs q size st m' :
      phs !! q = None -> is_u64 size -> shm_create_begin size m = (st, m') ->
      sec_step (mkSections (mkWorld m sh ps) phs)
               (mkSections (mkWorld m' sh ps) (go q (option_map (uncurry Creating) st) phs))
  | sec_create_end m sh ps phs q phys count rc m' sh' :
      phs !! q = Some (Creating phys count) -> g_next_shm_id sh < 0x7FFFFFFF ->
      shm_create_end (ps !! q) phys count m sh = (rc, m', sh') ->
      sec_step (mkSections (mkWorld m sh ps) phs) (mkSections (mkWorld m' sh' ps) (go q None phs))
  | sec_attach_begin m sh ps phs q p id st p' sh' :
      phs !! q = None -> ps !! q = Some p -> 0 < id -> shm_attach_reserve p id sh = (st, p', sh') ->
      sec_step (mkSections (mkWorld m sh ps) phs)
               (mkSections (mkWorld m sh' (<[q := p']> ps))
                  (go q (match st with
                         | AttachReserved v phys count => Some (Mapping v phys count id)
                         | _ => None
                         end) phs))
  | sec_attach_map m sh ps phs q p v phys count id ok p' m' :
      phs !! q = Some (Mapping v phys count id) -> ps !! q = Some p ->
      shm_attach_map p v phys count m = (ok, p', m') ->
      sec_step (mkSections (mkWorld m sh ps) phs)
               (mkSections (mkWorld m' sh (<[q := p']> ps))
                  (go q (if ok then None else Some (Undoing v id)) phs))
  | sec_attach_undo m sh ps phs q p v id :
      phs !! q = Some (Undoing v id) -> ps !! q = Some p ->
      sec_step (mkSections (mkWorld m sh ps) phs)
               (mkSections (mkWorld m (shm_attach_undo (pid p) v id sh) ps) (go q None phs))
  | sec_detach_begin m sh ps phs q p v r sh' :
      phs !! q = None -> ps !! q = Some p -> v <> 0 -> shm_detach_release (pid p) v sh = (r, sh') ->
      sec_step (mkSections (mkWorld m sh ps) phs)
               (mkSections (mkWorld m sh' ps)
                  (go q (option_map (fun '(id, count, reap) => Unmapping v count id reap) r) phs))
  | sec_detach_unmap m sh ps phs q p v count id reap rc p' m' :
      phs !! q = Some (Unmapping v count id reap) -> ps !! q = Some p ->
      shm_detach_unmap p v count m = (rc, p', m') ->
      sec_step (mkSections (mkWorld m sh ps) phs)
               (mkSections (mkWorld m' sh (<[q := p']> ps))
                  (go q (if reap : bool then Some (Reaping id) else None) phs))
  | sec_detach_reap m sh ps phs q id m' sh' :
      phs !! q = Some (Reaping id) -> shm_reap_id id m sh = (m', sh') ->
      sec_step (mkSections (mkWorld m sh ps) phs) (mkSections (mkWorld m' sh' ps) (go q None phs))
  | sec_destroy m sh ps phs id rc m' sh' :
      shm_destroy id m sh = (rc, m', sh') ->
      sec_step (mkSections (mkWorld m sh ps) phs) (mkSections (mkWorld m' sh' ps) phs)
  | sec_cleanup_begin m sh ps phs q p batch sh' :
      in_cleanup (phs !! q) = false -> ps !! q = Some p -> shm_cleanup_begin (pid p) sh = (batch, sh') ->
      sec_step (mkSections (mkWorld m sh ps) phs)
               (mkSections (mkWorld m sh' ps) (go q (Some (Cleaning batch batch)) phs))
  | sec_cleanup_unmap m sh ps phs q p addr pages id todo batch p' m' :
      phs !! q = Some (Cleaning ((addr, pages, id) :: todo) batch) -> ps !! q = Some p ->
      shm_cleanup_unmap_one p addr pages m = (p', m') ->
      sec_step (mkSections (mkWorld m sh ps) phs)
               (mkSections (mkWorld m' sh (<[q := p']> ps)) (go q (Some (Cleaning todo batch)) phs))
  | sec_cleanup_reset m sh ps phs q p batch :
      phs !! q = Some (Cleaning [] batch) -> ps !! q = Some p ->
      sec_step (mkSections (mkWorld m sh ps) phs)
               (mkSections (mkWorld m sh (<[q := shm_cleanup_reset p]> ps)) (go q (Some (Sweeping batch)) phs))
  | sec_cleanup_sweep m sh ps phs q batch m' sh' :
      phs !! q = Some (Sweeping batch) -> shm_cleanup_reap batch m sh = (m', sh') ->
      sec_step (mkSections (mkWorld m sh ps) phs) (mkSections (mkWorld m' sh' ps) (go q None phs)).

(** The pages a creation has taken and not registered yet, as the region they will be. *)
Definition fresh_block (phys page_count : Z) : shm_region :=
  mkRegion 0 0 phys (u64 (page_count * PAGE_SIZE)) page_count 0 false true.

(** The rest of the kernel: frames come and go, but not those of a region or of a creation under way,
    and processes without attachments appear. *)
Inductive sec_env : sections -> sections -> Prop :=
  | env_sec_frames m sh ps phs m' :
      pmm_wf (m_pmm m') -> pmm_total_frames (m_pmm m') = pmm_total_frames (m_pmm m) ->
      (forall k f, region_at sh k -> in_block (reg sh k) f -> bitmap_get (m_pmm m') f = false) ->
      (forall q phys count f, phs !! q = Some (Creating phys count) -> in_block (fresh_block phys count) f ->
         bitmap_get (m_pmm m') f = false) ->
      sec_env (mkSections (mkWorld m sh ps) phs) (mkSections (mkWorld m' sh ps) phs)
  | env_sec_process m sh ps phs q p :
      phs !! q = None -> pid p = q -> vm_space_ok (p_vm_space p) -> shm_attachment_count p = 0 ->
      (forall i, att_at sh i -> at_pid (att sh i) <> q) ->
      sec_env (mkSections (mkWorld m sh ps) phs) (mkSections (mkWorld m sh (<[q := p]> ps)) phs).

Definition sec_run : sections -> sections -> Prop := rtc (fun a b => sec_step a b \/ sec_env a b).

(** ** Invariant *)

(** How far the attachment count of a process is from the attachments it holds. *)
Definition drift (ph : option phase) : Z :=
  match ph with
  | Some (Mapping _ _ _ _) | Some (Undoing _ _) => -1
  | Some (Unmapping _ _ _ _) => 1
  | _ => 0
  end.

Definition holds_at (sh : shm_sys) (q v id i : Z) : Prop :=
  att_at sh i /\ at_pid (att sh i) = q /\ at_shm_id (att sh i) = id /\ virt_base (att sh i) = v.

(** What the local variables of a call in progress are worth: an attach that is about to map holds
    its attachment, and the pages it maps are those of the live region; a process being cleaned up
    holds nothing. *)
Definition phase_self (sh : shm_sys) (q : Z) (ph : option phase) : Prop :=
  match ph with
  | Some (Mapping v phys count id) =>
      (exists i, holds_at sh q v id i)
      /\ exists k, region_at sh k /\ rg_id (reg sh k) = id /\ phys_base (reg sh k) = phys
                   /\ rg_page_count (reg sh k) = count
  | Some (Undoing v id) => exists i, holds_at sh q v id i
  | Some (Cleaning _ _) | Some (Sweeping _) => forall i, att_at sh i -> at_pid (att sh i) <> q
  | _ => True
  end.

Record phase_ok (sh : shm_sys) (p : process) (ph : option phase) : Prop := {
  ph_space : vm_space_ok (p_vm_space p);
  ph_count : (forall todo batch, ph <> Some (Cleaning todo batch)) ->
             shm_attachment_count p = holds sh (pid p) + drift ph;
  ph_below : forall i, att_at sh i -> at_pid (att sh i) = pid p ->
             virt_base (att sh i) + at_page_count (att sh i) * 4096 <= shm_cursor (p_vm_space p);
  ph_self : phase_self sh (pid p) ph;
}.

Record sections_ok (w : sections) : Prop := {
  sc_shm : shm_ok (m_pmm (w_machine (s_world w))) (w_shm (s_world w));
  sc_procs : forall q p, w_procs (s_world w) !! q = Some p ->
             pid p = q /\ phase_ok (w_shm (s_world w)) p (s_phase w !! q);
  sc_fresh : forall q phys count, s_phase w !! q = Some (Creating phys count) ->
             block_ok (m_pmm (w_machine (s_world w))) (fresh_block phys count)
             /\ forall k f, region_at (w_shm (s_world w)) k -> in_block (reg (w_shm (s_world w)) k) f ->
                            in_block (fresh_block phys count) f -> False;
  sc_apart : forall q r phys count phys' count' f, q <> r ->
             s_phase w !! q = Some (Creating phys count) -> s_phase w !! r = Some (Creating phys' count') ->
             in_block (fresh_block phys count) f -> in_block (fresh_block phys' count') f -> False;
}.

(** Outside any call the phase adds nothing to the invariant of [Shm]. *)
Lemma phase_ok_none sh p : phase_ok sh p None <-> proc_ok sh p.
Proof.
  split.
  - intros [H1 H2 H3 _]. split; [done| |done]. rewrite H2 by done. simpl. lia.
  - intros [H1 H2 H3]. split; [done| |done|done]. intros _. rewrite H2. simpl. lia.
Qed.

Lemma go_eq q ph phs : go q ph phs !! q = ph.
Proof. destruct ph; simpl; [apply lookup_insert_eq|apply lookup_delete_eq]. Qed.
Lemma go_ne q r ph phs : q <> r -> go q ph phs !! r = phs !! r.
Proof. intros. destruct ph; simpl; [by apply lookup_insert_ne|by apply lookup_delete_ne]. Qed.

(** *** Frame *)

(** A region of the old tables that is still there under its id has kept its pages. *)
Definition ids_kept (sh sh' : shm_sys) : Prop :=
  forall k, region_at sh' k -> rg_id (reg sh' k) < g_next_shm_id sh ->
    region_at sh k /\ rg_id (reg sh' k) = rg_id (reg sh k)
    /\ phys_base (reg sh' k) = phys_base (reg sh k)
    /\ rg_page_count (reg sh' k) = rg_page_count (reg sh k).

Lemma ids_kept_shrinks p sh p' sh' : shm_shrinks p sh p' sh' -> ids_kept sh sh'.
Proof. intros [S _] k Hk _. by apply S. Qed.
Lemma ids_kept_refl sh : ids_kept sh sh.
Proof. by intros k Hk _. Qed.

(** The attachments of process [q] are the same. *)
Definition keeps (q : Z) (sh sh' : shm_sys) : Prop :=
  forall i, 0 <= i < 256 ->
    held sh' q i = held sh q i /\ (held sh q i = true -> att sh' i = att sh i).

Lemma keeps_only q r sh sh' : only_pid q sh sh' -> r <> q -> keeps r sh sh'.
Proof. intros Ho Hr i Hi. by apply Ho. Qed.
Lemma keeps_att q sh sh' : (forall i, att sh' i = att sh i) -> keeps q sh sh'.
Proof. intros E i _. unfold held. by rewrite E. Qed.

Lemma held_spec sh q i : held sh q i = true <-> at_in_use (att sh i) = true /\ at_pid (att sh i) = q.
Proof. unfold held. by rewrite andb_true_iff, Z.eqb_eq. Qed.

Lemma keeps_new q sh sh' i :
  keeps q sh sh' -> att_at sh' i -> at_pid (att sh' i) = q -> att_at sh i /\ att sh' i = att sh i.
Proof.
  intros Hk [Hi Hu] Hp. destruct (Hk i Hi) as [H1 H2].
  assert (held sh q i = true) as Hh by (rewrite <- H1; by apply held_spec).
  split; [|auto]. split; [done|]. by apply held_spec in Hh as [? _].
Qed.

Lemma keeps_old q sh sh' i :
  keeps q sh sh' -> att_at sh i -> at_pid (att sh i) = q -> att_at sh' i /\ att sh' i = att sh i.
Proof.
  intros Hk [Hi Hu] Hp. destruct (Hk i Hi) as [_ H2].
  assert (att sh' i = att sh i) as E by (apply H2; by apply held_spec).
  split; [split; [done|by rewrite E]|done].
Qed.

Lemma holds_at_keeps q sh sh' v id i : keeps q sh sh' -> holds_at sh q v id i -> holds_at sh' q v id i.
Proof.
  intros Hk (Hi & Hp & Hid & Hv). destruct (keeps_old q sh sh' i Hk Hi Hp) as [Hi' E].
  unfold holds_at. by rewrite E.
Qed.

Lemma phase_self_keeps pm pm' q sh sh' ph :
  shm_ok pm sh -> shm_ok pm' sh' -> ids_kept sh sh' -> keeps q sh sh' ->
  phase_self sh q ph -> phase_self sh' q ph.
Proof.
  intros W W' Hids Hk. destruct ph as [[]|]; simpl; try done.
  - intros [(i & Hi) (k & Hat & Hid & Hb & Hc)].
    pose proof (holds_at_keeps _ _ _ _ _ _ Hk Hi) as Hi'. split; [by exists i|].
    destruct Hi' as (Hat' & _ & Hsid & _). destruct (sk_live _ _ W' i Hat') as (l & Hl & El & _).
    pose proof (sk_id _ _ W k Hat).
    destruct (Hids l Hl ltac:(lia)) as (Hl0 & E1 & E2 & E3).
    assert (l = k) as -> by (apply (sk_uniq _ _ W); [done|done|congruence]).
    exists k. by rewrite E1, E2, E3.
  - intros (i & Hi). exists i. by apply (holds_at_keeps q sh).
  - intros Hn i Hi Hp. destruct (keeps_new q sh sh' i Hk Hi Hp) as [Hi0 E]. rewrite E in Hp. by apply (Hn i).
  - intros Hn i Hi Hp. destruct (keeps_new q sh sh' i Hk Hi Hp) as [Hi0 E]. rewrite E in Hp. by apply (Hn i).
Qed.

Lemma phase_ok_keeps pm pm' sh sh' p ph :
  shm_ok pm sh -> shm_ok pm' sh' -> ids_kept sh sh' -> keeps (pid p) sh sh' ->
  phase_ok sh p ph -> phase_ok sh' p ph.
Proof.
  intros W W' Hids Hk [H1 H2 H3 H4]. split; [done| | |by apply (phase_self_keeps pm pm' _ sh)].
  - intros Hc. rewrite H2 by done. f_equal. symmetry. apply holds_same. intros i Hi. by apply Hk.
  - intros i Hi Hp. destruct (keeps_new _ _ _ i Hk Hi Hp) as [Hi0 E]. rewrite E in *. by apply H3.
Qed.

(** Pages that belong to no region survive every operation on regions. *)
Lemma fresh_kept q m sh m' sh' b :
  shm_op_ok q m sh m' sh' -> pmm_total_frames (m_pmm m') = pmm_total_frames (m_pmm m) ->
  block_ok (m_pmm m) b -> (forall k f, region_at sh k -> in_block (reg sh k) f -> in_block b f -> False) ->
  block_ok (m_pmm m') b /\ forall k f, region_at sh' k -> in_block (reg sh' k) f -> in_block b f -> False.
Proof.
  intros [_ S _] Et B Hd. split.
  - pose proof B as [B1 B2 B3 B4 B5 B6]. split; try done; [by rewrite Et|]. intros f Hf.
    destruct (bitmap_get (m_pmm m') f) eqn:Hb; [|done]. exfalso.
    destruct (sr_freed _ _ _ _ S f) as (k & Hk & Hin & _);
      [by apply (block_frame_nonneg (m_pmm m) b)|by apply B6|done|]. by apply (Hd k f).
  - intros k f Hk Hf. destruct (sr_region _ _ _ _ S k Hk) as (Hk0 & _ & E1 & E2).
    unfold in_block in Hf. rewrite E1, E2 in Hf. by apply (Hd k f).
Qed.

(** A step of [q] inside an operation keeps the invariant when it leaves [q] in order. *)
Lemma sections_after q m sh ps phs m' sh' ps' phs' :
  sections_ok (mkSections (mkWorld m sh ps) phs) -> shm_op_ok q m sh m' sh' ->
  pmm_total_frames (m_pmm m') = pmm_total_frames (m_pmm m) ->
  (forall r, r <> q -> ps' !! r = ps !! r /\ phs' !! r = phs !! r) ->
  (forall p, ps' !! q = Some p -> pid p = q /\ phase_ok sh' p (phs' !! q)) ->
  (forall phys count, phs' !! q = Some (Creating phys count) -> phs !! q = Some (Creating phys count)) ->
  sections_ok (mkSections (mkWorld m' sh' ps') phs').
Proof.
  intros [W Hps Hf Ha] Op Et Hother Hq Hcr. cbn [s_world s_phase w_machine w_shm w_procs] in *.
  pose proof (so_ok _ _ _ _ _ Op) as W'.
  assert (forall r phys count, phs' !! r = Some (Creating phys count) -> phs !! r = Some (Creating phys count)) as Hcr'.
  { intros r phys count Hr. destruct (decide (r = q)) as [->|Hne]; [by apply Hcr|].
    by rewrite <- (proj2 (Hother r Hne)). }
  split; cbn [s_world s_phase w_machine w_shm w_procs]; [done| | |].
  - intros r p Hr. destruct (decide (r = q)) as [->|Hne]; [by apply Hq|].
    destruct (Hother r Hne) as [E1 E2]. rewrite E1 in Hr. rewrite E2. destruct (Hps r p Hr) as [Ep P].
    split; [done|]. apply (phase_ok_keeps (m_pmm m) (m_pmm m') sh sh'); [done|done| | |done].
    + by apply (ids_kept_shrinks (m_pmm m) sh (m_pmm m')), Op.
    + apply (keeps_only q (pid p)); [apply Op|congruence].
  - intros r phys count Hr. destruct (Hf r phys count (Hcr' _ _ _ Hr)) as [B Hd].
    by apply (fresh_kept q m sh).
  - intros r1 r2 ph1 c1 ph2 c2 f Hne H1 H2. apply (Ha r1 r2); auto.
Qed.

(** The usual form: [q] is a process whose record and phase change. *)
Lemma sections_after_proc q m sh ps phs m' sh' p' ph :
  sections_ok (mkSections (mkWorld m sh ps) phs) -> shm_op_ok q m sh m' sh' ->
  pmm_total_frames (m_pmm m') = pmm_total_frames (m_pmm m) ->
  pid p' = q -> phase_ok sh' p' ph -> (forall phys count, ph <> Some (Creating phys count)) ->
  sections_ok (mkSections (mkWorld m' sh' (<[q := p']> ps)) (go q ph phs)).
Proof.
  intros I Op Et Ep P Hnc. apply (sections_after q m sh ps phs); try done.
  - intros r Hr. by rewrite lookup_insert_ne, go_ne.
  - intros p. rewrite lookup_insert_eq, go_eq. by intros [= <-].
  - intros phys count. rewrite go_eq. intros E. by destruct (Hnc phys count).
Qed.

(** Only tables and frames change: the attachments stay, and [q] changes phase or does not. *)
Lemma sections_after_tables q m sh ps phs m' sh' phs' :
  sections_ok (mkSections (mkWorld m sh ps) phs) -> shm_op_ok q m sh m' sh' ->
  pmm_total_frames (m_pmm m') = pmm_total_frames (m_pmm m) ->
  (forall i, att sh' i = att sh i) ->
  (forall r, r <> q -> phs' !! r = phs !! r) ->
  (forall p, ps !! q = Some p -> phase_ok sh p (phs !! q) -> phase_ok sh p (phs' !! q)) ->
  (forall phys count, phs' !! q = Some (Creating phys count) -> phs !! q = Some (Creating phys count)) ->
  sections_ok (mkSections (mkWorld m' sh' ps) phs').
Proof.
  intros I Op Et Ea Hother Hq Hcr. apply (sections_after q m sh ps phs); try done.
  - intros r Hr. split; [done|by apply Hother].
  - intros p Hp. destruct (sc_procs _ I q p Hp) as [Ep P]. split; [done|].
    apply (phase_ok_keeps (m_pmm m) (m_pmm m') sh sh'); [apply (sc_shm _ I)|apply Op| | |].
    + by apply (ids_kept_shrinks (m_pmm m) sh (m_pmm m')), Op.
    + by apply keeps_att.
    + by apply Hq.
Qed.

(** *** Frame counts *)

Lemma free_loop_total n : forall p start i count,
  pmm_total_frames (free_loop n p start i count) = pmm_total_frames p.
Proof.
  induction n as [|n IH]; intros p start i count; simpl; [done|].
  destruct (_ && _); [|done]. rewrite IH. by destruct (bitmap_get _ _).
Qed.
Lemma pmm_free_pages_total p a count : pmm_total_frames (pmm_free_pages p a count) = pmm_total_frames p.
Proof.
  unfold pmm_free_pages. destruct (_ || _); [done|]. destruct (negb _); [done|].
  set (q := free_loop _ _ _ _ _). assert (pmm_total_frames q = pmm_total_frames p) as E by apply free_loop_total.
  by destruct (_ <? _).
Qed.

Lemma shm_reap_region_total k m sh m' sh' :
  shm_reap_region_locked k m sh = (m', sh') -> pmm_total_frames (m_pmm m') = pmm_total_frames (m_pmm m).
Proof.
  unfold shm_reap_region_locked. repeat (destruct (_ : bool); [by intros [= <- _]|]).
  destruct (_ && _); intros [= <- _]; [apply pmm_free_pages_total|done].
Qed.
Lemma shm_reap_id_total id m sh m' sh' :
  shm_reap_id id m sh = (m', sh') -> pmm_total_frames (m_pmm m') = pmm_total_frames (m_pmm m).
Proof.
  unfold shm_reap_id. destruct (shm_find_region_locked id sh); [apply shm_reap_region_total|by intros [= <- _]].
Qed.
Lemma shm_destroy_total id m sh rc m' sh' :
  shm_destroy id m sh = (rc, m', sh') -> pmm_total_frames (m_pmm m') = pmm_total_frames (m_pmm m).
Proof.
  unfold shm_destroy. destruct (id <=? 0); [by intros [= _ <- _]|].
  destruct (shm_find_region_locked id sh) as [k|]; [|by intros [= _ <- _]].
  destruct (0 <? _); [by intros [= _ <- _]|]. destruct (shm_reap_region_locked _ _ _) as [m1 sh1] eqn:E.
  intros [= _ <- _]. by apply shm_reap_region_total in E.
Qed.
Lemma shm_reap_batch_total batch : forall m sh m' sh',
  shm_reap_batch batch m sh = (m', sh') -> pmm_total_frames (m_pmm m') = pmm_total_frames (m_pmm m).
Proof.
  induction batch as [|[[a n] id] batch IH]; intros m sh m' sh'; simpl; [by intros [= <- _]|].
  destruct (shm_reap_id id m sh) as [m1 sh1] eqn:E. intros H. apply IH in H. apply shm_reap_id_total in E. congruence.
Qed.
Lemma shm_cleanup_reap_total batch m sh m' sh' :
  shm_cleanup_reap batch m sh = (m', sh') -> pmm_total_frames (m_pmm m') = pmm_total_frames (m_pmm m).
Proof.
  unfold shm_cleanup_reap. destruct (shm_reap_batch batch m sh) as [m1 sh1] eqn:E.
  apply shm_reap_batch_total in E. set (body := fun i ms => _). intros H.
  pose proof (for_up_preserves (fun ms : machine * shm_sys => pmm_total_frames (m_pmm ms.1) = pmm_total_frames (m_pmm m1))
    (Z.to_nat SHM_MAX_REGIONS) 0 body (m1, sh1)) as Hp. rewrite H in Hp. simpl in Hp. rewrite <- E. apply Hp; [done|]. clear H Hp.
  intros k [m2 sh2] _ E2. unfold body. destruct (rg_in_use _); [|done].
  destruct (shm_reap_region_locked k m2 sh2) as [m3 sh3] eqn:E3. apply shm_reap_region_total in E3. cbn [fst] in E2 |- *. congruence.
Qed.

(** *** Creation *)

Lemma phase_ok_creating sh p phys count : phase_ok sh p (Some (Creating phys count)) <-> phase_ok sh p None.
Proof. split; intros [H1 H2 H3 _]; (split; [done| |done|done]); intros _; rewrite H2 by done; done. Qed.

Lemma shm_create_begin_spec size m st m' :
  pmm_wf (m_pmm m) -> is_u64 size -> shm_create_begin size m = (st, m') ->
  match st with
  | None => m_pmm m' = m_pmm m
  | Some (phys, count) =>
      block_ok (m_pmm m') (fresh_block phys count) /\ pmm_grows (m_pmm m) (m_pmm m')
      /\ forall f, in_block (fresh_block phys count) f -> bitmap_get (m_pmm m) f = true
  end.
Proof.
  intros Wp Hsz. unfold shm_create_begin. destruct (size =? 0); [by intros [= <- <-]|].
  unfold PAGE_SIZE. set (count := u64 (u64 (size + 4096) - 1) / 4096).
  assert (0 <= count < 0x10000000000000) as Hcnt by (subst count; wsolve).
  destruct (pmm_alloc_pages (m_pmm m) count) as [a p1] eqn:Hal.
  destruct (decide (count = 0)) as [Ez|Hnz].
  { rewrite Ez in Hal. unfold pmm_alloc_pages in Hal. simpl in Hal. injection Hal as <- <-. simpl.
    by intros [= <- <-]. }
  destruct (pmm_alloc_pages_cases (m_pmm m) count a p1 Wp ltac:(lia) Hal)
    as [(s & -> & A) | (-> & -> & _)]; [|simpl; by intros [= <- <-]].
  pose proof (al_range _ _ _ _ A). pose proof (wf_total _ Wp).
  rewrite (proj2 (Z.eqb_neq (s * 4096) 0)) by lia. intros [= <- <-].
  destruct (allocated_block (m_pmm m) count s p1 (fresh_block (s * 4096) count) Wp ltac:(lia) A
    eq_refl eq_refl eq_refl) as (B & Hf & G). done.
Qed.

Lemma create_begin_ok m sh ps phs q size st m' :
  sections_ok (mkSections (mkWorld m sh ps) phs) -> phs !! q = None -> is_u64 size ->
  shm_create_begin size m = (st, m') ->
  sections_ok (mkSections (mkWorld m' sh ps) (go q (option_map (uncurry Creating) st) phs)).
Proof.
  intros I Hq Hsz Hb. pose proof (sc_shm _ I) as W. cbn [s_world w_machine w_shm] in W.
  pose proof (shm_create_begin_spec size m st m' (sk_pmm _ _ W) Hsz Hb) as Hst.
  assert (pmm_grows (m_pmm m) (m_pmm m')) as G.
  { destruct st as [[phys count]|]; [apply Hst|]. rewrite Hst. apply pmm_grows_refl, W. }
  assert (sections_ok (mkSections (mkWorld m' sh ps) phs)) as I'.
  { apply (sections_after_tables q m sh ps phs); try done; [by apply shm_op_machine|apply G]. }
  destruct st as [[phys count]|]; simpl.
  2: { by rewrite delete_id. }
  destruct Hst as (B & _ & Hfree). destruct I' as [W' Hps Hf Ha]. cbn [s_world s_phase w_machine w_shm w_procs] in *.
  split; cbn [s_world s_phase w_machine w_shm w_procs]; [done| | |].
  - intros r p Hr. destruct (Hps r p Hr) as [Ep P]. split; [done|].
    destruct (decide (q = r)) as [<-|Hne]; [|by rewrite lookup_insert_ne].
    rewrite lookup_insert_eq. apply phase_ok_creating. by rewrite Hq in P.
  - intros r ph c. destruct (decide (q = r)) as [<-|Hne]; [|rewrite lookup_insert_ne by done; apply Hf].
    rewrite lookup_insert_eq. intros [= <- <-]. split; [done|]. intros k f Hk Hin Hin'.
    pose proof (bk_used _ _ (sk_block _ _ W k Hk) f Hin). rewrite Hfree in * by done. done.
  - assert (forall r ph c f, phs !! r = Some (Creating ph c) -> in_block (fresh_block ph c) f ->
      in_block (fresh_block phys count) f -> False) as Hnew.
    { intros r ph c f Hr Hin Hin'. destruct (sc_fresh _ I r ph c Hr) as [Bo _].
      pose proof (bk_used _ _ Bo f Hin) as Hu. cbn [s_world w_machine] in Hu. rewrite Hfree in Hu by done. done. }
    intros r1 r2 a1 c1 a2 c2 f Hne.
    destruct (decide (q = r1)) as [<-|], (decide (q = r2)) as [<-|]; [done| | |];
      rewrite ?lookup_insert_eq, ?lookup_insert_ne by done.
    + intros [= <- <-] H2 Hin Hin'. by apply (Hnew r2 a2 c2 f).
    + intros H1 [= <- <-] Hin Hin'. by apply (Hnew r1 a1 c1 f).
    + apply Ha. done.
Qed.

(** Frames change hands outside the regions and the creations that stay under way. *)
Lemma sections_frames m sh ps phs m' phs' :
  sections_ok (mkSections (mkWorld m sh ps) phs) ->
  pmm_wf (m_pmm m') -> pmm_total_frames (m_pmm m') = pmm_total_frames (m_pmm m) ->
  (forall k f, region_at sh k -> in_block (reg sh k) f -> bitmap_get (m_pmm m') f = false) ->
  (forall r, phs' !! r = phs !! r \/ (phs' !! r = None /\ exists a c, phs !! r = Some (Creating a c))) ->
  (forall q phys count f, phs' !! q = Some (Creating phys count) -> in_block (fresh_block phys count) f ->
     bitmap_get (m_pmm m') f = false) ->
  sections_ok (mkSections (mkWorld m' sh ps) phs').
Proof.
  intros [W Hps Hf Ha] Wp Et Hreg Hphs Hcr. cbn [s_world s_phase w_machine w_shm w_procs] in *.
  assert (forall r a c, phs' !! r = Some (Creating a c) -> phs !! r = Some (Creating a c)) as Hold.
  { intros r a c Hr. destruct (Hphs r) as [<-|[Hn _]]; [done|]. by rewrite Hn in Hr. }
  split; cbn [s_world s_phase w_machine w_shm w_procs].
  - apply (shm_ok_sub (m_pmm m) sh); [done|done|done|apply W|done|done|done|done|done].
  - intros r p Hr. destruct (Hps r p Hr) as [Ep P]. split; [done|].
    destruct (Hphs r) as [->|[-> (a & c & E)]]; [done|]. rewrite E in P. by apply phase_ok_creating in P.
  - intros r a c Hr. destruct (Hf r a c (Hold _ _ _ Hr)) as [[B1 B2 B3 B4 B5 B6] Hd]. split; [|done].
    split; try done; [by rewrite Et|]. intros f. by apply (Hcr r).
  - intros r1 r2 a1 c1 a2 c2 f Hne H1 H2. apply (Ha r1 r2); auto.
Qed.

Lemma create_full_ok m sh ps phs q phys count :
  sections_ok (mkSections (mkWorld m sh ps) phs) -> phs !! q = Some (Creating phys count) ->
  sections_ok (mkSections (mkWorld (m <| m_pmm := pmm_free_pages (m_pmm m) phys count |>) sh ps) (delete q phs)).
Proof.
  intros I Hq. pose proof (sc_shm _ I) as W. pose proof (sc_fresh _ I q phys count Hq) as [B Hd].
  cbn [s_world w_machine w_shm] in *. pose proof (wf_total _ (sk_pmm _ _ W)).
  destruct B as [B1 B2 B3 B4 B5 B6]. unfold in_block in *. cbn [fresh_block phys_base rg_page_count] in *.
  assert (phys = phys / 4096 * 4096) as Ep by (Z.div_mod_to_equations; lia).
  destruct (pmm_free_pages_spec (m_pmm m) (phys / 4096) count (sk_pmm _ _ W) ltac:(lia) ltac:(lia) ltac:(lia))
    as (Wq & Et & _ & Eb). rewrite <- Ep in Wq, Et, Eb.
  assert (forall r f, block_ok (m_pmm m) r -> in_block r f ->
    ~ (phys / 4096 <= f < phys / 4096 + count) -> bitmap_get (pmm_free_pages (m_pmm m) phys count) f = false) as Hkeep.
  { intros r f Br Hin Hout. rewrite Eb by (by apply (block_frame_nonneg (m_pmm m) r)).
    rewrite range_false by lia. by apply Br. }
  apply (sections_frames m sh ps phs); [done|exact Wq|exact Et| | |].
  - intros k f Hk Hin. apply (Hkeep (reg sh k)); [by apply W|done|]. intros Hb. by apply (Hd k f).
  - intros r. destruct (decide (q = r)) as [<-|]; [right|left; by apply lookup_delete_ne].
    rewrite lookup_delete_eq. eauto.
  - intros r a c f [Hne Hr]%lookup_delete_Some Hin. apply (Hkeep (fresh_block a c)); [|done|].
    + by apply (sc_fresh _ I r).
    + intros Hb. by apply (sc_apart _ I q r phys count a c f Hne Hq Hr).
Qed.

Lemma create_end_ok m sh ps phs q cur phys count rc m' sh' :
  sections_ok (mkSections (mkWorld m sh ps) phs) -> phs !! q = Some (Creating phys count) ->
  g_next_shm_id sh < 0x7FFFFFFF -> shm_create_end cur phys count m sh = (rc, m', sh') ->
  sections_ok (mkSections (mkWorld m' sh' ps) (delete q phs)).
Proof.
  intros I Hq Hn. unfold shm_create_end. pose proof (sc_shm _ I) as W. cbn [s_world w_machine w_shm] in W.
  destruct (shm_alloc_region_locked sh) as [k|] eqn:Hk; [|intros [= _ <- <-]; by apply create_full_ok].
  destruct (alloc_region_Some _ sh k W Hk) as [Hk1 Hku].
  destruct (sc_fresh _ I q phys count Hq) as [B Hd]. cbn [s_world w_machine w_shm] in B, Hd.
  set (r := mkRegion _ _ phys _ count 0 false true).
  assert (block_ok (m_pmm m) r) as Br by (destruct B; by split).
  destruct (region_added_spec (m_pmm m) sh k r W Hk1 Hku Hn eq_refl eq_refl eq_refl Br Hd)
    as (W1 & En & Hatk & Ek & Hat & Eold & Ea).
  set (sh1 := set_region k r _) in *. intros [= _ <- <-].
  assert (ids_kept sh sh1) as Hids.
  { intros j Hj Hlt. destruct (Hat j Hj) as [->|Hj0]; [rewrite Ek in Hlt; simpl in Hlt; lia|].
    destruct (Eold j Hj0) as [_ ->]. done. }
  destruct I as [_ Hps Hf Ha]. cbn [s_world s_phase w_machine w_shm w_procs] in *.
  split; cbn [s_world s_phase w_machine w_shm w_procs]; [done| | |].
  - intros s p Hs. destruct (Hps s p Hs) as [Ep P]. split; [done|].
    apply (phase_ok_keeps (m_pmm m) (m_pmm m) sh sh1); [done|done|done|by apply keeps_att|].
    destruct (decide (q = s)) as [<-|Hne]; [|by rewrite lookup_delete_ne].
    rewrite lookup_delete_eq. rewrite Hq in P. by apply phase_ok_creating in P.
  - intros s a c [Hne Hs]%lookup_delete_Some. destruct (Hf s a c Hs) as [Bs Hds]. split; [done|].
    intros j f Hj. destruct (Hat j Hj) as [->|Hj0]; [rewrite Ek; intros Hin Hin'|].
    + by apply (Ha q s phys count a c f Hne Hq Hs).
    + destruct (Eold j Hj0) as [_ ->]. by apply Hds.
  - intros s1 s2 a1 c1 a2 c2 f Hne [_ H1]%lookup_delete_Some [_ H2]%lookup_delete_Some.
    by apply (Ha s1 s2 a1 c1 a2 c2 f).
Qed.

(** *** Attaching *)

Lemma attach_begin_ok m sh ps phs q p id st p' sh' :
  sections_ok (mkSections (mkWorld m sh ps) phs) -> phs !! q = None -> ps !! q = Some p ->
  shm_attach_reserve p id sh = (st, p', sh') ->
  sections_ok (mkSections (mkWorld m sh' (<[q := p']> ps))
    (go q (match st with AttachReserved v phys count => Some (Mapping v phys count id) | _ => None end) phs)).
Proof.
  intros I Hq Hp Hr. pose proof (sc_shm _ I) as W. destruct (sc_procs _ I q p Hp) as [Epid P].
  cbn [s_world s_phase w_machine w_shm w_procs] in *. rewrite Hq in P. apply phase_ok_none in P.
  destruct (shm_attach_reserve_spec _ sh p id st p' sh' W P Hr) as (Epid' & Ecnt & Epml & Hst).
  assert (pid p' = q) as Ep' by congruence.
  destruct st as [|v0|v0 phys count].
  1, 2: destruct Hst as [-> P']; apply (sections_after_proc q m sh ps phs); try done;
    [by apply shm_op_refl|by apply phase_ok_none].
  destruct Hst as (Wsp & Ev & Ecur & i & k & Hk & Hid & Hi & Hfree & Ephys & Ecount & -> & Hfresh).
  set (a := mkAttachment true id (pid p) v0 count).
  destruct (linked_spec _ sh i k a W Hk Hi Hfree eq_refl (eq_sym Hid) Ecount Hfresh)
    as (W1 & S1 & Eatt & O1 & Hh). set (sh1 := linked i k a sh) in *.
  simpl in O1, Hh. rewrite Epid in O1, Hh.
  apply (sections_after_proc q m sh ps phs); try done.
  assert (att sh1 i = a) as Ea by (rewrite Eatt by lia; by rewrite decide_True).
  split; [done| | |].
  - intros _. rewrite Ecnt, (po_count _ _ P), Ep', Hh, Epid. simpl. lia.
  - rewrite Ecur, Ep'. intros j [Hj Hu] Hpj. rewrite Eatt in Hu, Hpj |- * by lia. case_decide; [simpl; lia|].
    pose proof (po_below _ _ P j (conj Hj Hu) ltac:(congruence)). pose proof (region_count_bound _ _ _ W Hk). lia.
  - assert (att_at sh1 i) as Hati by (split; [done|by rewrite Ea]).
    split; [exists i; unfold holds_at; rewrite Ea, Ep'; simpl; auto|].
    destruct (sk_live _ _ W1 i Hati) as (l & Hl & El & _). rewrite Ea in El. simpl in El.
    destruct (sr_region _ _ _ _ S1 l Hl) as (Hl0 & E1 & E2 & E3).
    assert (l = k) as -> by (apply (sk_uniq _ _ W); [done|done|congruence]).
    exists k. rewrite E2, E3. by rewrite El.
Qed.

Lemma attach_map_ok m sh ps phs q p v phys count id ok p' m' :
  sections_ok (mkSections (mkWorld m sh ps) phs) -> phs !! q = Some (Mapping v phys count id) ->
  ps !! q = Some p -> shm_attach_map p v phys count m = (ok, p', m') ->
  sections_ok (mkSections (mkWorld m' sh (<[q := p']> ps)) (go q (if ok then None else Some (Undoing v id)) phs)).
Proof.
  intros I Hq Hp. pose proof (sc_shm _ I) as W. destruct (sc_procs _ I q p Hp) as [Epid P].
  cbn [s_world s_phase w_machine w_shm w_procs] in *. rewrite Hq in P. destruct P as [P1 P2 P3 [Pi _]].
  unfold shm_attach_map.
  destruct (vm_space_map_user_pages m _ v phys count _) as [[rc space] m1] eqn:Hmap.
  destruct (vm_space_map_step _ _ _ _ _ _ _ _ _ (sk_pmm _ _ W) Hmap) as [G So Sc Sp].
  specialize (P2 ltac:(done)). simpl in P2.
  destruct (negb (rc =? 0)); intros [= <- <- <-]; (apply (sections_after_proc q m sh ps phs);
    [done|by apply shm_op_machine|apply G|done| |done]).
  - split; [by apply So|by intros _|intros i; simpl; rewrite Sc; apply P3|exact Pi].
  - destruct (note_attach_step m1 space count ltac:(apply G)) as [_ No Nc Np].
    split; [by apply No, So| |intros i; simpl; rewrite Nc, Sc; apply P3|done].
    intros _. simpl. rewrite P2. pose proof (holds_le sh (pid p)).
    destruct Pi as (i & Hi & Hpi & _). pose proof (holds_pos sh (pid p) i Hi Hpi).
    rewrite u32_id by wsolve. lia.
Qed.

Lemma attach_undo_ok m sh ps phs q p v id :
  sections_ok (mkSections (mkWorld m sh ps) phs) -> phs !! q = Some (Undoing v id) -> ps !! q = Some p ->
  sections_ok (mkSections (mkWorld m (shm_attach_undo (pid p) v id sh) ps) (delete q phs)).
Proof.
  intros I Hq Hp. pose proof (sc_shm _ I) as W. destruct (sc_procs _ I q p Hp) as [Epid P].
  cbn [s_world s_phase w_machine w_shm w_procs] in *. rewrite Hq in P.
  destruct P as [P1 P2 P3 (i & Hi & Hpi & Hid & Hv)]. specialize (P2 ltac:(done)). simpl in P2.
  rewrite <- Hpi, <- Hid, <- Hv, (shm_attach_undo_release _ sh i W Hi).
  pose proof (shm_op_release m sh i W Hi) as Op. rewrite Hpi, Epid in Op.
  apply (sections_after q m sh ps phs); try done.
  - intros r Hr. by rewrite lookup_delete_ne.
  - rewrite lookup_delete_eq. intros p0 Hp0. rewrite Hp in Hp0. injection Hp0 as <-. split; [done|].
    apply phase_ok_none. split; [done| |].
    + rewrite (release_holds _ sh i _ W Hi), Hpi, Z.eqb_refl, P2. cbn [b2z]. lia.
    + intros j Hj Hpj. by destruct (release_below _ sh i _ _ W Hi P3 j Hj Hpj) as (_ & _ & ?).
  - intros phys count. by rewrite lookup_delete_eq.
Qed.

(** *** Detaching and destroying *)

Lemma detach_begin_ok m sh ps phs q p v r sh' :
  sections_ok (mkSections (mkWorld m sh ps) phs) -> phs !! q = None -> ps !! q = Some p ->
  shm_detach_release (pid p) v sh = (r, sh') ->
  sections_ok (mkSections (mkWorld m sh' ps)
    (go q (option_map (fun '(id, count, reap) => Unmapping v count id reap) r) phs)).
Proof.
  intros I Hq Hp Hd. pose proof (sc_shm _ I) as W. destruct (sc_procs _ I q p Hp) as [Epid P].
  cbn [s_world s_phase w_machine w_shm w_procs] in *. rewrite Hq in P.
  pose proof (shm_detach_release_is _ _ _ _ _ _ W Hd) as Hrel.
  destruct r as [[[id count] reap]|]; cbn [option_map].
  2: { subst sh'. simpl. by rewrite delete_id. }
  destruct Hrel as (i & Hi & Ep & _ & _ & _ & ->).
  pose proof (shm_op_release m sh i W Hi) as Op. rewrite Ep, Epid in Op. destruct P as [P1 P2 P3 _].
  apply (sections_after q m sh ps phs); try done.
  - intros s Hs. by rewrite go_ne.
  - rewrite go_eq. intros p0 Hp0. rewrite Hp in Hp0. injection Hp0 as <-. split; [done|]. split; [done| | |done].
    + intros _. rewrite P2 by done. rewrite (release_holds _ sh i _ W Hi), Ep, Z.eqb_refl. cbn [b2z drift]. lia.
    + intros j Hj Hpj. by destruct (release_below _ sh i _ _ W Hi P3 j Hj Hpj) as (_ & _ & ?).
  - intros phys n. by rewrite go_eq.
Qed.

Lemma detach_unmap_ok m sh ps phs q p v count id reap rc p' m' :
  sections_ok (mkSections (mkWorld m sh ps) phs) -> phs !! q = Some (Unmapping v count id reap) ->
  ps !! q = Some p -> shm_detach_unmap p v count m = (rc, p', m') ->
  sections_ok (mkSections (mkWorld m' sh (<[q := p']> ps))
    (go q (if reap : bool then Some (Reaping id) else None) phs)).
Proof.
  intros I Hq Hp. pose proof (sc_shm _ I) as W. destruct (sc_procs _ I q p Hp) as [Epid P].
  cbn [s_world s_phase w_machine w_shm w_procs] in *. rewrite Hq in P. destruct P as [P1 P2 P3 _].
  specialize (P2 ltac:(done)). cbn [drift] in P2. pose proof (holds_le sh (pid p)) as Hle.
  unfold shm_detach_unmap. destruct (vm_space_unmap_user_pages m _ v count) as [[rc1 space] m1] eqn:Hun.
  destruct (vm_space_unmap_step _ _ _ _ _ _ _ (sk_pmm _ _ W) Hun) as [[G So Sc Sp] Epmm].
  destruct (note_detach_step m1 space count ltac:(apply G)) as [_ No Nc Np].
  set (p1 := p <| p_vm_space := vm_space_note_shm_detach space count |>).
  assert (shm_attachment_count p1 = holds sh (pid p) + 1) as Ec1 by exact P2.
  rewrite (proj2 (Z.ltb_lt 0 (shm_attachment_count p1))) by lia. cbv iota.
  set (p2 := p1 <| shm_attachment_count := shm_attachment_count p1 - 1 |>).
  assert (shm_attachment_count p2 = holds sh (pid p)) as Ec2.
  { change (shm_attachment_count p2) with (shm_attachment_count p1 - 1). lia. }
  assert (vm_space_ok (p_vm_space p2)) as Wsp by (by apply No, So).
  set (p3 := if shm_attachment_count p2 =? 0 then _ else p2). intros [= <- <- <-].
  assert (pid p3 = q /\ phase_ok sh p3 None) as [Epid3 P3'].
  { unfold p3. destruct (Z.eqb_spec (shm_attachment_count p2) 0) as [Ez|]; (split; [done|]); apply phase_ok_none.
    - destruct (shm_window_spec (pid p)). split; [apply (set_cursor_ok (p_vm_space p2) (shm_window (pid p))); [lia|done|exact Wsp]|exact Ec2|].
      intros j Hj Hpj. exfalso. pose proof (holds_pos sh (pid p) j Hj Hpj). lia.
    - split; [done|exact Ec2|]. intros j Hj Hpj. simpl. rewrite Nc, Sc. by apply P3. }
  clearbody p3. apply (sections_after_proc q m sh ps phs); [done|by apply shm_op_machine|apply G|done| |by destruct reap].
  destruct reap; [|done]. destruct P3' as [Q1 Q2 Q3 _]. split; [done| |done|done]. intros _. by rewrite Q2.
Qed.

Lemma detach_reap_ok m sh ps phs q id m' sh' :
  sections_ok (mkSections (mkWorld m sh ps) phs) -> phs !! q = Some (Reaping id) ->
  shm_reap_id id m sh = (m', sh') -> sections_ok (mkSections (mkWorld m' sh' ps) (delete q phs)).
Proof.
  intros I Hq Hr. destruct (shm_op_reap_id q _ _ _ _ _ (sc_shm _ I) Hr) as [Op Ea].
  apply (sections_after_tables q m sh ps phs); [done|done|by apply shm_reap_id_total in Hr|done| | |].
  - intros r Hne. by rewrite lookup_delete_ne.
  - rewrite lookup_delete_eq, Hq. intros p _ [P1 P2 P3 _]. split; [done| |done|done]. intros _. by rewrite P2.
  - intros phys count. by rewrite lookup_delete_eq.
Qed.

Lemma destroy_ok m sh ps phs id rc m' sh' :
  sections_ok (mkSections (mkWorld m sh ps) phs) -> shm_destroy id m sh = (rc, m', sh') ->
  sections_ok (mkSections (mkWorld m' sh' ps) phs).
Proof.
  intros I Hd. destruct (shm_destroy_spec 0 m sh id rc m' sh' (sc_shm _ I) Hd) as (Op & Ea & _).
  by apply (sections_after_tables 0 m sh ps phs); try done; apply shm_destroy_total in Hd.
Qed.

(** *** Process cleanup *)

Lemma held_none sh q : (forall i, 0 <= i < 256 -> held sh q i = false) ->
  (forall i, att_at sh i -> at_pid (att sh i) <> q) /\ holds sh q = 0.
Proof.
  intros Hn. split; [|by apply holds_none]. intros i [Hi Hu] Hp.
  assert (held sh q i = true) by (by apply held_spec). rewrite Hn in * by done. done.
Qed.

Lemma none_held sh q : (forall i, att_at sh i -> at_pid (att sh i) <> q) -> holds sh q = 0.
Proof.
  intros Hn. apply holds_none. intros i Hi. destruct (held sh q i) eqn:E; [|done].
  apply held_spec in E as [Hu Hp]. by destruct (Hn i (conj Hi Hu)).
Qed.

Lemma cleanup_begin_ok m sh ps phs q p batch sh' :
  sections_ok (mkSections (mkWorld m sh ps) phs) -> ps !! q = Some p ->
  shm_cleanup_begin (pid p) sh = (batch, sh') ->
  sections_ok (mkSections (mkWorld m sh' ps) (go q (Some (Cleaning batch batch)) phs)).
Proof.
  intros I Hp. pose proof (sc_shm _ I) as W. destruct (sc_procs _ I q p Hp) as [Epid P].
  cbn [s_world s_phase w_machine w_shm w_procs] in *. unfold shm_cleanup_begin.
  destruct (shm_cleanup_attachments (pid p) sh) as [b sh1] eqn:Hc. intros [= <- <-].
  destruct (cleanup_attachments_spec (pid p) m sh b sh1 W Hc) as [Op1 Hdone _ _ _ _ _].
  pose proof (orphan_regions_spec (pid p) m sh1 (so_ok _ _ _ _ _ Op1)) as (Op2 & Ea2 & _).
  set (sh2 := shm_orphan_regions (pid p) sh1) in *. rewrite Epid in *.
  destruct (held_none sh2 q) as [Hnone _]; [intros i Hi; unfold held; rewrite Ea2; by apply Hdone|].
  apply (sections_after q m sh ps phs); [done|by apply (shm_op_trans _ _ _ m sh1)|done| | |].
  - intros r Hr. by rewrite go_ne.
  - rewrite go_eq. intros p0 Hp0. rewrite Hp in Hp0. injection Hp0 as <-. split; [done|].
    split; [apply P|by intros Hn; destruct (Hn b b)| |by rewrite Epid].
    intros i Hi Hpi. by destruct (Hnone i Hi); rewrite Hpi.
  - intros phys count. by rewrite go_eq.
Qed.

Lemma cleanup_unmap_ok m sh ps phs q p addr pages id todo batch p' m' :
  sections_ok (mkSections (mkWorld m sh ps) phs) ->
  phs !! q = Some (Cleaning ((addr, pages, id) :: todo) batch) -> ps !! q = Some p ->
  shm_cleanup_unmap_one p addr pages m = (p', m') ->
  sections_ok (mkSections (mkWorld m' sh (<[q := p']> ps)) (go q (Some (Cleaning todo batch)) phs)).
Proof.
  intros I Hq Hp. pose proof (sc_shm _ I) as W. destruct (sc_procs _ I q p Hp) as [Epid P].
  cbn [s_world s_phase w_machine w_shm w_procs] in *. rewrite Hq in P. destruct P as [P1 _ _ Hnone].
  unfold shm_cleanup_unmap_one. destruct (vm_space_unmap_user_pages m _ addr pages) as [[rc space] m1] eqn:Hun.
  destruct (vm_space_unmap_step _ _ _ _ _ _ _ (sk_pmm _ _ W) Hun) as [[G So _ _] _].
  destruct (note_detach_step m1 space pages ltac:(apply G)) as [_ No _ _]. intros [= <- <-].
  apply (sections_after_proc q m sh ps phs); [done|by apply shm_op_machine|apply G|done| |done].
  split; [by apply No, So|by intros Hn; destruct (Hn todo batch)| |exact Hnone].
  intros i Hi Hpi. by destruct (Hnone i Hi).
Qed.

Lemma cleanup_reset_ok m sh ps phs q p batch :
  sections_ok (mkSections (mkWorld m sh ps) phs) -> phs !! q = Some (Cleaning [] batch) -> ps !! q = Some p ->
  sections_ok (mkSections (mkWorld m sh (<[q := shm_cleanup_reset p]> ps)) (go q (Some (Sweeping batch)) phs)).
Proof.
  intros I Hq Hp. pose proof (sc_shm _ I) as W. destruct (sc_procs _ I q p Hp) as [Epid P].
  cbn [s_world s_phase w_machine w_shm w_procs] in *. rewrite Hq in P. destruct P as [P1 _ _ Hnone].
  apply (sections_after_proc q m sh ps phs); [done|by apply shm_op_refl|done|done| |done].
  destruct (shm_window_spec (pid p)). split.
  - apply (set_cursor_ok (p_vm_space p) (shm_window (pid p))); [lia|done|done].
  - intros _. change (0 = holds sh (pid p) + 0). by rewrite (none_held sh (pid p)).
  - intros i Hi Hpi. by destruct (Hnone i Hi).
  - exact Hnone.
Qed.

Lemma cleanup_sweep_ok m sh ps phs q batch m' sh' :
  sections_ok (mkSections (mkWorld m sh ps) phs) -> phs !! q = Some (Sweeping batch) ->
  shm_cleanup_reap batch m sh = (m', sh') -> sections_ok (mkSections (mkWorld m' sh' ps) (delete q phs)).
Proof.
  intros I Hq Hr. destruct (cleanup_reap_spec q batch m sh m' sh' (sc_shm _ I) Hr) as (Op & Ea & _).
  apply (sections_after_tables q m sh ps phs); [done|done|by apply shm_cleanup_reap_total in Hr|done| | |].
  - intros r Hne. by rewrite lookup_delete_ne.
  - rewrite lookup_delete_eq, Hq. intros p _ [P1 P2 P3 _]. split; [done| |done|done]. intros _. by rewrite P2.
  - intros phys count. by rewrite lookup_delete_eq.
Qed.

(** ** Steps and runs *)

Lemma sec_step_ok w w' : sections_ok w -> sec_step w w' -> sections_ok w'.
Proof.
  intros I Hstep; destruct Hstep;
    [ eapply create_begin_ok | eapply create_end_ok | eapply attach_begin_ok | eapply attach_map_ok
    | eapply attach_undo_ok | eapply detach_begin_ok | eapply detach_unmap_ok | eapply detach_reap_ok
    | eapply destroy_ok | eapply cleanup_begin_ok | eapply cleanup_unmap_ok | eapply cleanup_reset_ok
    | eapply cleanup_sweep_ok ]; eassumption.
Qed.

Lemma sec_env_ok w w' : sections_ok w -> sec_env w w' -> sections_ok w'.
Proof.
  intros I He. destruct He as [m sh ps phs m' Wp Et Hreg Hcr|m sh ps phs q p Hq Hp Hsp Hz Hnone].
  - apply (sections_frames m sh ps phs); [exact I|exact Wp|exact Et|exact Hreg|by left|exact Hcr].
  - pose proof (sc_shm _ I) as W. rewrite <- (delete_id phs q Hq).
    apply (sections_after_proc q m sh ps phs _ _ _ None); [done|by apply shm_op_refl|done|done| |done].
    split; [done| | |done].
    + intros _. rewrite Hz, Hp, (none_held sh q) by done. done.
    + intros i Hi Hpi. destruct (Hnone i Hi). congruence.
Qed.

(** ** The calls of [Shm]

    A call that nothing interrupts is the run of its sections: each of the atomic steps of [Shm] is
    such a run, so that the model above only adds interleavings. *)

Lemma go_go q ph ph' phs : go q ph (go q ph' phs) = go q ph phs.
Proof.
  destruct ph, ph'; simpl; [apply insert_insert_eq|apply insert_delete_eq|apply delete_insert_eq|apply delete_delete_eq].
Qed.
Lemma go_none q phs : phs !! q = None -> go q None phs = phs.
Proof. apply delete_id. Qed.

Section CALLS.
  Context (q : Z) (phs : gmap Z phase) (Hq : phs !! q = None).

Lemma shm_create_sections m sh ps size rc m' sh' :
  is_u64 size -> g_next_shm_id sh < 0x7FFFFFFF -> shm_create (ps !! q) size m sh = (rc, m', sh') ->
  rtc sec_step (mkSections (mkWorld m sh ps) phs) (mkSections (mkWorld m' sh' ps) phs).
Proof.
  intros Hs Hn Hc. destruct (shm_create_begin size m) as [st m1] eqn:Hb.
  eapply rtc_l; [by eapply (sec_create_begin _ _ _ _ q)|].
  unfold shm_create, shm_create_begin in *. destruct (size =? 0).
  { injection Hc as <- <- <-. injection Hb as <- <-. cbn [option_map]. by rewrite go_none. }
  destruct (pmm_alloc_pages _ _) as [phys p]. destruct (phys =? 0).
  { injection Hc as <- <- <-. injection Hb as <- <-. cbn [option_map]. by rewrite go_none. }
  injection Hb as <- <-. cbn [option_map uncurry].
  eapply rtc_l; [|apply rtc_refl]. rewrite <- (go_none q phs Hq) at 2.
  erewrite <- (go_go q None (Some _)). eapply sec_create_end; [by rewrite go_eq|done|].
  unfold shm_create_end. exact Hc.
Qed.

Lemma shm_attach_sections m sh ps p id v p' m' sh' :
  ps !! q = Some p -> 0 < id -> shm_attach (Some p) id m sh = (v, Some p', m', sh') ->
  rtc sec_step (mkSections (mkWorld m sh ps) phs) (mkSections (mkWorld m' sh' (<[q := p']> ps)) phs).
Proof.
  intros Hp Hid Ha. unfold shm_attach in Ha. rewrite (proj2 (Z.leb_gt id 0)) in Ha by done.
  destruct (shm_attach_reserve p id sh) as [[st p1] sh1] eqn:Hr.
  eapply rtc_l; [by eapply (sec_attach_begin _ _ _ _ q)|].
  destruct st as [|v0|v0 phys count].
  1, 2: injection Ha as <- <- <- <-; by rewrite go_none.
  destruct (shm_attach_map p1 v0 phys count m) as [[ok p2] m1] eqn:Hmap.
  eapply rtc_l; [by eapply (sec_attach_map _ _ _ _ q p1); [rewrite go_eq|apply lookup_insert_eq|]|].
  rewrite insert_insert_eq, go_go. unfold shm_attach_map in Hmap.
  destruct (vm_space_map_user_pages _ _ _ _ _ _) as [[rc space] m2].
  destruct (negb (rc =? 0)); injection Hmap as <- <- <-; injection Ha as <- <- <- <-.
  - eapply rtc_l; [|apply rtc_refl]. rewrite <- (go_none q phs Hq) at 2.
    rewrite <- (go_go q None (Some (Undoing v0 id))).
    exact (sec_attach_undo m2 sh1 _ _ q (p1 <| p_vm_space := space |>) v0 id (go_eq _ _ _) (lookup_insert_eq _ _ _)).
  - by rewrite go_none.
Qed.

Lemma shm_detach_sections m sh ps p v rc p' m' sh' :
  ps !! q = Some p -> v <> 0 -> shm_detach (Some p) v m sh = (rc, Some p', m', sh') ->
  rtc sec_step (mkSections (mkWorld m sh ps) phs) (mkSections (mkWorld m' sh' (<[q := p']> ps)) phs).
Proof.
  intros Hp Hv Hd. unfold shm_detach in Hd. rewrite (proj2 (Z.eqb_neq v 0)) in Hd by done.
  destruct (shm_detach_release (pid p) v sh) as [r sh1] eqn:Hr.
  eapply rtc_l; [by eapply (sec_detach_begin _ _ _ _ q)|].
  destruct r as [[[id count] reap]|]; cbn [option_map].
  2: { injection Hd as <- <- <- <-. rewrite go_none by done. by rewrite insert_id. }
  destruct (shm_detach_unmap p v count m) as [[rc1 p1] m1] eqn:Hun.
  eapply rtc_l; [by eapply (sec_detach_unmap _ _ _ _ q p); [rewrite go_eq| |]|].
  rewrite go_go. unfold shm_detach_unmap in Hun.
  destruct (vm_space_unmap_user_pages _ _ _ _) as [[rc2 space] m2]. injection Hun as <- <- <-.
  destruct reap.
  - destruct (shm_reap_id id m2 sh1) as [m3 sh2] eqn:Hrp. injection Hd as <- <- <- <-.
    eapply rtc_l; [|apply rtc_refl]. rewrite <- (go_none q phs Hq) at 2.
    erewrite <- (go_go q None (Some _)). by eapply sec_detach_reap; [rewrite go_eq|].
  - injection Hd as <- <- <- <-. by rewrite go_none.
Qed.

Lemma cleanup_unmap_sections todo batch : forall m sh ps p m' space,
  ps !! q = Some p -> shm_cleanup_unmap todo m (p_vm_space p) = (m', space) ->
  rtc sec_step (mkSections (mkWorld m sh ps) (go q (Some (Cleaning todo batch)) phs))
    (mkSections (mkWorld m' sh (<[q := p <| p_vm_space := space |>]> ps)) (go q (Some (Cleaning [] batch)) phs)).
Proof.
  induction todo as [|[[addr pages] id] todo IH]; intros m sh ps p m' space Hp Hu; simpl in Hu.
  { injection Hu as <- <-. rewrite insert_id; [done|]. rewrite Hp. by destruct p. }
  destruct (shm_cleanup_unmap_one p addr pages m) as [p1 m1] eqn:H1.
  eapply rtc_l; [by eapply (sec_cleanup_unmap _ _ _ _ q p); [rewrite go_eq| |]|].
  rewrite go_go. unfold shm_cleanup_unmap_one in H1.
  destruct (vm_space_unmap_user_pages _ _ _ _) as [[rc s] m2]. injection H1 as <- <-.
  specialize (IH m2 sh (<[q := p <| p_vm_space := vm_space_note_shm_detach s pages |>]> ps) _ m' space
    (lookup_insert_eq _ _ _) Hu). rewrite insert_insert_eq in IH. exact IH.
Qed.

Lemma shm_process_cleanup_sections m sh ps p p' m' sh' :
  ps !! q = Some p -> shm_process_cleanup p m sh = (p', m', sh') ->
  rtc sec_step (mkSections (mkWorld m sh ps) phs) (mkSections (mkWorld m' sh' (<[q := p']> ps)) phs).
Proof.
  intros Hp Hc. unfold shm_process_cleanup in Hc.
  destruct (shm_cleanup_attachments (pid p) sh) as [batch sh1] eqn:Ha.
  destruct (shm_cleanup_unmap batch m (p_vm_space p)) as [m1 space] eqn:Hu.
  destruct (shm_cleanup_reap batch m1 _) as [m2 sh2] eqn:Hr. injection Hc as <- <- <-.
  eapply rtc_l; [eapply (sec_cleanup_begin _ _ _ _ q p); [by rewrite Hq|done|unfold shm_cleanup_begin; by rewrite Ha]|].
  etransitivity; [by eapply cleanup_unmap_sections|].
  eapply rtc_l; [eapply (sec_cleanup_reset _ _ _ _ q); [by rewrite go_eq|apply lookup_insert_eq]|].
  rewrite insert_insert_eq, go_go. eapply rtc_l; [|apply rtc_refl].
  rewrite <- (go_none q phs Hq) at 2. erewrite <- (go_go q None (Some _)).
  by eapply sec_cleanup_sweep; [rewrite go_eq|].
Qed.

End CALLS.

(** ** Property *)

(** C7: the shared-memory tables are consistent in every interleaving of the sections of the SHM
    calls: any processes create, attach, detach, destroy and exit at the same time, with the locked
    sections and the work outside the lock as separate steps, a process may be cleaned up in the
    middle of a call it does not resume, and the rest of the kernel allocates and frees other frames
    and starts processes in between; ids run up to 2^31 - 2.  Region ids are unique, every reference
    count is the number of live attachments of the region, no attachment names a missing region, and
    the pages of every region are allocated and disjoint from those of any other and of a creation
    under way.  The attachment count of a process is exact outside its calls and off by the one
    attachment in flight inside them; an attach that is about to map still holds its attachment, and
    the pages it maps are those of the live region; a process being cleaned up holds nothing. *)
Theorem shm_interleaving_invariant w w' : sections_ok w -> sec_run w w' -> sections_ok w'.
Proof.
  intros I Hrun. induction Hrun as [w|w1 w2 w3 [Hs|He] _ IH]; [done| |]; apply IH.
  - by apply (sec_step_ok w1).
  - by apply (sec_env_ok w1).
Qed.

(** ** A run

    Process 1 creates a region and reserves an attachment; before it maps, process 2 reserves one
    too, and process 1 is cleaned up; then process 2 maps. *)

Definition ex_secs0 : sections := mkSections ex_world0 ∅.

Lemma ex_secs0_ok : sections_ok ex_secs0.
Proof.
  destruct ex_world0_ok as [W P]. split; [exact W| |by intros|by intros].
  intros q p Hq. destruct (P q p Hq) as [Ep Po]. split; [exact Ep|]. apply phase_ok_none. exact Po.
Qed.

Definition ex_sb := shm_create_begin 5000 ex_machine1.
Definition ex_se := shm_create_end (Some (ex_proc 1)) 0x105000 2 ex_sb.2 shm_zero.
Definition ex_sa1 := shm_attach_reserve (ex_proc 1) 1 ex_se.2.
Definition ex_sa2 := shm_attach_reserve (ex_proc 2) 1 ex_sa1.2.
Definition ex_sc := shm_cleanup_begin 1 ex_sa2.2.
Definition ex_sm := shm_attach_map ex_sa2.1.2 0x42000000 0x105000 2 ex_se.1.2.
Lemma ex_sb_eq : shm_create_begin 5000 ex_machine1 = (Some (0x105000, 2), ex_sb.2).
Proof.
  assert (ex_sb.1 = Some (0x105000, 2)) as <- by (vm_compute; reflexivity).
  unfold ex_sb. by destruct (shm_create_begin _ _).
Qed.
Lemma ex_sa1_eq :
  shm_attach_reserve (ex_proc 1) 1 ex_se.2 = (AttachReserved 0x41000000 0x105000 2, ex_sa1.1.2, ex_sa1.2).
Proof.
  assert (ex_sa1.1.1 = AttachReserved 0x41000000 0x105000 2) as <- by (vm_compute; reflexivity).
  unfold ex_sa1. by destruct (shm_attach_reserve _ _ _) as [[? ?] ?].
Qed.
Lemma ex_sa2_eq :
  shm_attach_reserve (ex_proc 2) 1 ex_sa1.2 = (AttachReserved 0x42000000 0x105000 2, ex_sa2.1.2, ex_sa2.2).
Proof.
  assert (ex_sa2.1.1 = AttachReserved 0x42000000 0x105000 2) as <- by (vm_compute; reflexivity).
  unfold ex_sa2. by destruct (shm_attach_reserve _ _ _) as [[? ?] ?].
Qed.
Lemma ex_sc_eq : shm_cleanup_begin (pid ex_sa1.1.2) ex_sa2.2 = ([(0x41000000, 2, 1)], ex_sc.2).
Proof.
  assert (pid ex_sa1.1.2 = 1) as -> by (vm_compute; reflexivity).
  assert (ex_sc.1 = [(0x41000000, 2, 1)]) as <- by (vm_compute; reflexivity).
  unfold ex_sc. by destruct (shm_cleanup_begin _ _).
Qed.
Lemma ex_sm_eq :
  shm_attach_map ex_sa2.1.2 0x42000000 0x105000 2 ex_se.1.2 = (true, ex_sm.1.2, ex_sm.2).
Proof.
  assert (ex_sm.1.1 = true) as <- by (vm_compute; reflexivity).
  unfold ex_sm. by destruct (shm_attach_map _ _ _ _ _) as [[? ?] ?].
Qed.

Definition ex_secs1 : sections :=
  mkSections (mkWorld ex_sm.2 ex_sc.2 (<[2 := ex_sm.1.2]> (<[2 := ex_sa2.1.2]> (<[1 := ex_sa1.1.2]> (w_procs ex_world0)))))
    (go 2 None (go 1 (Some (Cleaning [(0x41000000, 2, 1)] [(0x41000000, 2, 1)]))
       (go 2 (Some (Mapping 0x42000000 0x105000 2 1)) (go 1 (Some (Mapping 0x41000000 0x105000 2 1))
          (go 1 None (go 1 (Some (Creating 0x105000 2)) ∅)))))).

Lemma ex_sec_run : sec_run ex_secs0 ex_secs1.
Proof.
  eapply rtc_l.
  { left. apply (sec_create_begin _ _ _ _ 1 5000 (Some (0x105000, 2)) ex_sb.2); [done|wsolve|exact ex_sb_eq]. }
  eapply rtc_l.
  { left. apply (sec_create_end _ _ _ _ 1 0x105000 2 ex_se.1.1 ex_se.1.2 ex_se.2); [apply lookup_insert_eq|done|].
    change (ex_se = (ex_se.1.1, ex_se.1.2, ex_se.2)). by destruct ex_se as [[? ?] ?]. }
  eapply rtc_l.
  { left. apply (sec_attach_begin _ _ _ _ 1 (ex_proc 1) 1); [apply lookup_delete_eq|apply lookup_insert_eq|lia|exact ex_sa1_eq]. }
  eapply rtc_l.
  { left. apply (sec_attach_begin _ _ _ _ 2 (ex_proc 2) 1);
      [by rewrite !go_ne by lia|by rewrite lookup_insert_ne by lia|lia|exact ex_sa2_eq]. }
  eapply rtc_l.
  { left. apply (sec_cleanup_begin _ _ _ _ 1 ex_sa1.1.2);
      [by rewrite go_ne by lia; rewrite go_eq|rewrite lookup_insert_ne by lia; apply lookup_insert_eq|exact ex_sc_eq]. }
  eapply rtc_l; [|apply rtc_refl].
  left. apply (sec_attach_map _ _ _ _ 2 ex_sa2.1.2 0x42000000 0x105000 2 1 true);
    [rewrite go_ne by lia; apply go_eq|apply lookup_insert_eq|exact ex_sm_eq].
Qed.

(** In the last state process 2 is attached to the region, which lost its owner, and its count is 1. *)
Lemma shm_interleaving_invariant_witness :
  sections_ok ex_secs1
  /\ (shm_attachment_count ex_sm.1.2, ref_count (reg ex_sc.2 0), destroy_pending (reg ex_sc.2 0)) = (1, 1, true).
Proof.
  split; [|vm_compute; reflexivity].
  exact (shm_interleaving_invariant ex_secs0 ex_secs1 ex_secs0_ok ex_sec_run).
Defined.
