(* ===== verification/Process.v ===== *)
(** The process table, run queues, signals and scheduler: [src/proc/process.c] up to its self
    tests.

    [sched E] is the file's static state together with an environment [E]: the rest of the kernel
    as this file sees it, through the operations of the class [ProcessEnv].  The spin lock and the
    interrupt flag protect whole functions, so each function is one atomic step.  A call of a signal
    handler is an output of [process_schedule_tick]. *)

From S2P Require Import Prelude Pmm Paging Vmm VmSpace ProcessData.

Definition WAIT_STATUS_EXIT (code : Z) : Z := Z.shiftl (Z.land code 0xFF) 8.
Definition WAIT_STATUS_SIGNAL (sig : Z) : Z := Z.land sig 0x7F.
Definition WAIT_EXIT_CODE (st : Z) : Z := Z.land (Z.shiftr st 8) 0xFF.
Definition WAIT_TERM_SIGNAL (st : Z) : Z := Z.land st 0x7F.
Definition SIG_BLOCK : Z := 0.
Definition SIG_UNBLOCK : Z := 1.
Definition SIG_SETMASK : Z := 2.
Definition PROCESS_STACK_PAGES : Z := (PROCESS_STACK_SIZE + PAGE_SIZE - 1) / PAGE_SIZE.
Definition PROCESS_CONTEXT_TOTAL_QWORDS : Z := 21.
Definition PROCESS_CONTEXT_GUARD_QWORDS : Z := 16.
Definition PROCESS_CONTEXT_TOP_BIAS : Z := 24.
Definition PROCESS_CONTEXT_IRET_INDEX : Z := 19.
Definition X64_GDT_KERNEL_CS : Z := 0x08.
Definition X64_GDT_KERNEL_DS : Z := 0x10.

(** ** The rest of the kernel *)

(** What [process.c] calls. *)
Class ProcessEnv (E : Type) := {
  env_machine : E -> machine;
  env_put_machine : machine -> E -> E;
  shm_cleanup : process -> E -> process * E;                   (* shm_process_cleanup *)
  vfs_cleanup : process -> E -> process * E;                   (* vfs_process_cleanup *)
  vfs_inherit : process -> process -> E -> process * E;        (* vfs_process_inherit(dst, src) *)
  vfs_dup2 : process -> Z -> process -> Z -> E -> Z * process * E;
  gui_cleanup : Z -> E -> E;                                   (* gui_srv_process_cleanup *)
  kfree_env : Z -> E -> E;                                     (* kfree *)
  tss_set_rsp0 : Z -> E -> E;
}.

(** ** State *)

Record sched (E : Type) := mkSched {
  g_processes : list process;
  g_current : option Z;
  g_idle : option Z;
  g_runq_head : list (option Z);
  g_runq_tail : list (option Z);
  g_next_pid : Z;
  g_sched_ticks : Z;
  g_ctx_warned : bool;
  g_inited : bool;
  s_env : E;
}.
Arguments mkSched {E}.
Arguments g_processes {E}.
Arguments g_current {E}.
Arguments g_idle {E}.
Arguments g_runq_head {E}.
Arguments g_runq_tail {E}.
Arguments g_next_pid {E}.
Arguments g_sched_ticks {E}.
Arguments g_ctx_warned {E}.
Arguments g_inited {E}.
Arguments s_env {E}.
#[export] Instance sched_rebuild {E} : Rebuild (sched E) := fun s =>
  mkSched (g_processes s) (g_current s) (g_idle s) (g_runq_head s) (g_runq_tail s) (g_next_pid s)
    (g_sched_ticks s) (g_ctx_warned s) (g_inited s) (s_env s).

Definition sched_zero {E} (e : E) : sched E :=
  mkSched (repeat process_zero 256) None None (repeat None 256) (repeat None 256) 1 0 false false e.

Definition proc {E} (s : sched E) (k : Z) : process := aget (g_processes s) k.
Definition set_proc {E} (k : Z) (p : process) (s : sched E) : sched E :=
  s <| g_processes := aset k p (g_processes s) |>.
Definition upd {E} (k : Z) (f : process -> process) (s : sched E) : sched E := set_proc k (f (proc s k)) s.

(** The [main_thread] mirror of a state change. *)
Definition set_state (st : process_state) (th : thread_state) (p : process) : process :=
  p <| state := st |> <| main_thread := main_thread p <| th_state := th |> |>.

(** ** Strings and initial records *)

(** The characters kept by a copy of at most [cap - 1] of them: NULL gives the empty string. *)
Fixpoint copy_chars (src : list Z) (n : nat) : list Z :=
  match n, src with
  | S n', c :: src' => c :: copy_chars src' n'
  | _, _ => []
  end.
Definition name_copy (src : option (list Z)) (cap : Z) : list Z :=
  match src with
  | None => []
  | Some src => copy_chars src (Z.to_nat (cap - 1))
  end.

Definition process_init_io_state (p : process) (parent : option process) : process :=
  let p := p <| open_files := repeat 0 (Z.to_nat PROCESS_MAX_OPEN_FILES) |>
             <| fds := repeat (mkFd (-1) 0 0 (-1)) (Z.to_nat PROCESS_MAX_OPEN_FILES) |>
             <| next_fd := 0 |> in
  let p := p <| cwd := match parent with
                       | Some par => match cwd par with
                                     | [] => name_copy (Some [47]) PROCESS_CWD_MAX
                                     | _ => name_copy (Some (cwd par)) PROCESS_CWD_MAX
                                     end
                       | None => name_copy (Some [47]) PROCESS_CWD_MAX
                       end |> in
  p <| cmdline := [] |>.

(** [self] is the slot of the record, [parent] the parent's slot and record. *)
Definition process_init_sched_state (now self : Z) (p : process) (par : option (Z * process)) : process :=
  let p := p <| priority := match par with Some (_, q) => priority q | None => PROCESS_DEFAULT_PRIORITY end |>
             <| time_slice := PROCESS_DEFAULT_TIMESLICE |> <| sched_ticks := 0 |>
             <| created_time := now |> <| next_queue := None |> <| prev_queue := None |>
             <| parent := option_map fst par |> <| child_count := 0 |> in
  let t := main_thread p <| tid := pid p |> <| th_cpu_id := cpu_id p |> <| th_state := THREAD_READY |>
             <| th_priority := priority p |> <| th_time_slice := time_slice p |> <| th_sched_ticks := 0 |>
             <| th_kernel_rsp := kernel_rsp p |> <| th_kernel_stack := kernel_stack p |>
             <| th_user_rsp := 0 |> <| th_entry := p_entry p |> <| th_process := Some self |>
             <| th_next_queue := None |> <| th_prev_queue := None |> in
  p <| main_thread := t |>.

(** ** Table searches *)

Definition find_by_pid_locked {E} (pid0 : Z) (s : sched E) : option Z :=
  find_index (fun p => used p && (i32 (pid p) =? pid0)) (g_processes s).

Definition alloc_process_slot_locked {E} (s : sched E) : option Z :=
  find_index (fun p => negb (used p)) (g_processes s).

(** ** Run queues *)

(** The queue a priority selects, clamped to the last one. *)
Definition queue_of (pri : Z) : Z :=
  if PROCESS_PRIORITY_LEVELS <=? pri then PROCESS_PRIORITY_LEVELS - 1 else pri.

Definition runq_push_locked {E} (k : Z) (s : sched E) : sched E :=
  let pri := queue_of (priority (proc s k)) in
  let s := upd k (fun p => p <| rq_next := None |> <| next_queue := None |>
                             <| prev_queue := aget (g_runq_tail s) pri |>) s in
  match aget (g_runq_head s) pri with
  | None => s <| g_runq_head := aset pri (Some k) (g_runq_head s) |>
              <| g_runq_tail := aset pri (Some k) (g_runq_tail s) |>
  | Some _ =>
      let s := match aget (g_runq_tail s) pri with
               | Some t => upd t (fun p => p <| rq_next := Some k |> <| next_queue := Some k |>) s
               | None => s
               end in
      s <| g_runq_tail := aset pri (Some k) (g_runq_tail s) |>
  end.

(** The loop over priorities of [runq_pop_locked] and [runq_best_priority_locked]. *)
Definition runq_best_priority_locked {E} (s : sched E) : Z :=
  match find_index (fun h => bool_decide (is_Some h)) (g_runq_head s) with
  | Some pri => pri
  | None => -1
  end.

Definition runq_pop_locked {E} (s : sched E) : option Z * sched E :=
  match find_index (fun h => bool_decide (is_Some h)) (g_runq_head s) with
  | None => (None, s)
  | Some pri =>
      match aget (g_runq_head s) pri with
      | None => (None, s)
      | Some k =>
          let next := rq_next (proc s k) in
          let s := s <| g_runq_head := aset pri next (g_runq_head s) |> in
          let s := match next with
                   | None => s <| g_runq_tail := aset pri None (g_runq_tail s) |>
                   | Some n => upd n (fun p => p <| prev_queue := None |>) s
                   end in
          (Some k, upd k (fun p => p <| rq_next := None |> <| next_queue := None |>
                                     <| prev_queue := None |>) s)
      end
  end.

(** The walk of [runq_remove_locked]: [prev] trails [cur] along [rq_next].  The fuel bounds the
    length of a queue: a queue holds each of the 256 slots at most once. *)
Fixpoint runq_remove_walk {E} (fuel : nat) (target pri : Z) (prev cur : option Z) (s : sched E) : sched E :=
  match fuel, cur with
  | S fuel', Some c =>
      if c =? target then
        let next := rq_next (proc s c) in
        let s := match prev with
                 | Some p => upd p (fun q => q <| rq_next := next |>) s
                 | None => s <| g_runq_head := aset pri next (g_runq_head s) |>
                 end in
        let s := if bool_decide (aget (g_runq_tail s) pri = Some c)
                 then s <| g_runq_tail := aset pri prev (g_runq_tail s) |> else s in
        let s := match next with
                 | Some n => upd n (fun q => q <| prev_queue := prev |>) s
                 | None => s
                 end in
        let s := match prev with
                 | Some p => upd p (fun q => q <| next_queue := next |>) s
                 | None => s
                 end in
        upd c (fun q => q <| rq_next := None |> <| next_queue := None |> <| prev_queue := None |>) s
      else runq_remove_walk fuel' target pri cur (rq_next (proc s c)) s
  | _, _ => s
  end.

Definition runq_remove_locked {E} (target : Z) (s : sched E) : sched E :=
  let pri := queue_of (priority (proc s target)) in
  runq_remove_walk (Z.to_nat PROCESS_MAX_COUNT + 1) target pri None (aget (g_runq_head s) pri) s.

(** ** Children *)

Definition parent_link_child_locked {E} (par child : Z) (s : sched E) : sched E :=
  let s := upd child (fun c => c <| parent_next_child := children_head (proc s par) |>) s in
  let s := upd par (fun p => p <| children_head := Some child |>) s in
  let s := upd child (fun c => c <| parent := Some par |>) s in
  if child_count (proc s par) <? PROCESS_MAX_CHILDREN
  then upd par (fun p => p <| children := aset (child_count p) (Some child) (children p) |>
                           <| child_count := child_count p + 1 |>) s
  else s.

(** The list walk of [parent_unlink_child_locked]. *)
Fixpoint unlink_walk {E} (fuel : nat) (par child : Z) (prev cur : option Z) (s : sched E) : sched E :=
  match fuel, cur with
  | S fuel', Some c =>
      if c =? child then
        let next := parent_next_child (proc s c) in
        let s := match prev with
                 | Some p => upd p (fun q => q <| parent_next_child := next |>) s
                 | None => upd par (fun q => q <| children_head := next |>) s
                 end in
        upd child (fun q => q <| parent_next_child := None |> <| parent := None |>) s
      else unlink_walk fuel' par child cur (parent_next_child (proc s c)) s
  | _, _ => s
  end.

(** The array part: the entries after the child move down by one. *)
Definition remove_child_entry (child : Z) (p : process) : process :=
  match find_index (fun c => bool_decide (c = Some child)) (take (Z.to_nat (child_count p)) (children p)) with
  | None => p
  | Some idx =>
      let cs := for_up (Z.to_nat (child_count p - (idx + 1))) (idx + 1)
                  (fun j cs => aset (j - 1) (aget cs j) cs) (children p) in
      let p := p <| children := cs |> <| child_count := child_count p - 1 |> in
      p <| children := aset (child_count p) None (children p) |>
  end.

Definition parent_unlink_child_locked {E} (par child : Z) (s : sched E) : sched E :=
  let s := unlink_walk (Z.to_nat PROCESS_MAX_COUNT + 1) par child None (children_head (proc s par)) s in
  upd par (remove_child_entry child) s.

(** The parent of a dying process becomes ready if it was blocked. *)
Definition wake_parent_if_waiting_locked {E} (child : Z) (s : sched E) : sched E :=
  if ppid (proc s child) =? 0 then s else
  match find_by_pid_locked (i32 (ppid (proc s child))) s with
  | None => s
  | Some par =>
      if bool_decide (state (proc s par) = PROCESS_BLOCKED)
      then runq_push_locked par (upd par (set_state PROCESS_READY THREAD_READY) s)
      else s
  end.

Definition process_stack_top_aligned (p : process) : Z :=
  if kernel_stack p =? 0 then 0
  else Z.land (u64 (kernel_stack p + PROCESS_STACK_SIZE)) (u64 (Z.lnot 0xF)).

(** [sp[i] = v] for a 64-bit stack slot at a virtual address of the direct map. *)
Definition write_qword (va v : Z) (m : machine) : machine :=
  m <| m_mem := <[vmm_virt_to_phys m va := v]> (m_mem m) |>.
Definition read_qword (m : machine) (va : Z) : Z := default 0 (m_mem m !! vmm_virt_to_phys m va).

Section process.
Context {E : Type} `{ProcessEnv E}.
(** The address of the assembly entry stub [process_entry_resume]. *)
Variable process_entry_resume : Z.

Definition on_machine (f : machine -> machine) (s : sched E) : sched E :=
  s <| s_env := env_put_machine (f (env_machine (s_env s))) (s_env s) |>.

(** Run a cleanup hook on slot [k]. *)
Definition on_proc (f : process -> E -> process * E) (k : Z) (s : sched E) : sched E :=
  let '(p, e) := f (proc s k) (s_env s) in set_proc k p (s <| s_env := e |>).

Definition space_destroy (p : process) (e : E) : process * E :=
  let '(sp, m) := vm_space_destroy (env_machine e) (p_vm_space p) in
  (p <| p_vm_space := sp |>, env_put_machine m e).

Definition free_process_resources_locked (k : Z) (s : sched E) : sched E :=
  let s := s <| s_env := gui_cleanup (i32 (pid (proc s k))) (s_env s) |> in
  let s := on_proc vfs_cleanup k s in
  let s := on_proc shm_cleanup k s in
  let s := on_proc space_destroy k s in
  let p := proc s k in
  if kernel_stack p =? 0 then s else
  let s := if kernel_stack_from_pmm p then
             if kernel_stack_phys p =? 0 then s
             else on_machine (fun m => m <| m_pmm := pmm_free_pages (m_pmm m) (kernel_stack_phys p)
                                                       PROCESS_STACK_PAGES |>) s
           else s <| s_env := kfree_env (kernel_stack p) (s_env s) |> in
  upd k (fun p => p <| kernel_stack := 0 |> <| kernel_stack_phys := 0 |>
                    <| kernel_stack_from_pmm := false |>) s.

Definition reset_process_slot_locked (k : Z) (s : sched E) : sched E :=
  let s := free_process_resources_locked k s in
  upd k (fun p => p <| used := false |> <| state := PROCESS_DEAD |> <| shm_attachment_count := 0 |>
                    <| rq_next := None |> <| next_queue := None |> <| prev_queue := None |>
                    <| parent := None |> <| child_count := 0 |> <| children_head := None |>
                    <| parent_next_child := None |>) s.

(** ** Kernel stacks *)

(** [top] of the initial context of a stack. *)
Definition context_top (stack : Z) : Z :=
  u64 (Z.land (u64 (stack + PROCESS_STACK_SIZE)) (u64 (Z.lnot 0xF)) - PROCESS_CONTEXT_TOP_BIAS).
Definition context_sp (stack : Z) : Z := u64 (context_top stack - 8 * PROCESS_CONTEXT_IRET_INDEX).

(** The stores of [setup_initial_context_locked]. *)
Definition write_context (sp top : Z) (m : machine) : machine :=
  let slot i := u64 (sp + 8 * i) in
  let m := for_up 15 0 (fun i m => write_qword (slot i) 0 m) m in
  let m := write_qword (slot 15) 0 m in
  let m := write_qword (slot 16) process_entry_resume m in
  let m := write_qword (slot 17) X64_GDT_KERNEL_CS m in
  let m := write_qword (slot 18) 0x202 m in
  let m := write_qword (slot 19) top m in
  let m := write_qword (slot 20) X64_GDT_KERNEL_DS m in
  for_up (Z.to_nat PROCESS_CONTEXT_GUARD_QWORDS) 0
    (fun i m => write_qword (slot (PROCESS_CONTEXT_TOTAL_QWORDS + i)) 0 m) m.

Definition setup_initial_context_locked (k : Z) (s : sched E) : Z * sched E :=
  let p := proc s k in
  if kernel_stack p =? 0 then (-1, s) else
  let top := context_top (kernel_stack p) in
  let sp := context_sp (kernel_stack p) in
  let s := on_machine (write_context sp top) s in
  (0, upd k (fun p => p <| kernel_rsp := sp |>
                        <| main_thread := main_thread p <| th_kernel_rsp := sp |>
                                                        <| th_kernel_stack := kernel_stack p |> |>) s).

(** The frame at [kernel_rsp] is one [iretq] can return through. *)
Definition context_valid (m : machine) (p : process) : bool :=
  let low := kernel_stack p in
  let high := u64 (low + PROCESS_STACK_SIZE) in
  let ctx i := read_qword m (u64 (kernel_rsp p + 8 * i)) in
  negb ((kernel_rsp p <? low) || (u64 (high - PROCESS_CONTEXT_TOTAL_QWORDS * 8) <? kernel_rsp p))
  && negb (negb (ctx 17 =? X64_GDT_KERNEL_CS) || (ctx 16 =? 0) || (ctx 19 <? low)
           || (u64 (high - 8) <? ctx 19) || negb (ctx 20 =? X64_GDT_KERNEL_DS)).

Definition validate_or_repair_context_locked (k : Z) (s : sched E) : Z * sched E :=
  let p := proc s k in
  if kernel_stack p =? 0 then (-1, s) else
  if context_valid (env_machine (s_env s)) p then (0, s) else
  setup_initial_context_locked k (s <| g_ctx_warned := true |>).

Definition alloc_process_stack_locked (k : Z) (s : sched E) : Z * sched E :=
  let m := env_machine (s_env s) in
  let '(stack_phys, pm) := pmm_alloc_pages (m_pmm m) PROCESS_STACK_PAGES in
  let s := on_machine (fun m => m <| m_pmm := pm |>) s in
  if stack_phys =? 0 then (-1, s) else
  let stack_virt := u64 (vmm_phys_to_virt m stack_phys) in
  if stack_virt =? 0 then (-1, s) else
  (0, upd k (fun p => p <| kernel_stack := stack_virt |> <| kernel_stack_phys := stack_phys |>
                        <| kernel_stack_from_pmm := true |>
                        <| main_thread := main_thread p <| th_kernel_stack := stack_virt |> |>) s).

(** ** Death and signals *)

Definition mark_zombie_locked (k : Z) (st : Z) (s : sched E) : sched E :=
  if bool_decide (state (proc s k) = PROCESS_ZOMBIE) || bool_decide (state (proc s k) = PROCESS_DEAD)
  then s else
  let s := on_proc vfs_cleanup k s in
  let s := on_proc shm_cleanup k s in
  let s := upd k (fun p =>
    set_state PROCESS_ZOMBIE THREAD_ZOMBIE
      (p <| wait_status := st |> <| exit_code := WAIT_EXIT_CODE st |>
         <| exit_signal := WAIT_TERM_SIGNAL st |> <| exit_time := g_sched_ticks s |>)
    <| kill_pending := 0 |>) s in
  wake_parent_if_waiting_locked k s.

Definition sig_bit (sig : Z) : Z := u64 (Z.shiftl 1 sig).

(** The lowest signal number from 1 to 63 in the mask, -1 for none. *)
Fixpoint signal_pick_from (n : nat) (sig mask : Z) : Z :=
  match n with
  | O => -1
  | S n' => if negb (Z.land mask (sig_bit sig) =? 0) then sig else signal_pick_from n' (sig + 1) mask
  end.
Definition signal_pick_lowest (mask : Z) : Z := signal_pick_from 63 1 mask.

(** [Some (handler, sig)] when a handler is to be run. *)
Definition prepare_signal_action_locked (k : Z) (s : sched E) : option (Z * Z) * sched E :=
  let p := proc s k in
  if bool_decide (state p = PROCESS_ZOMBIE) || bool_decide (state p = PROCESS_DEAD) then (None, s) else
  let pending := Z.land (signal_pending p) (u64 (Z.lnot (signal_mask p))) in
  if pending =? 0 then (None, s) else
  let sig := signal_pick_lowest pending in
  if sig <? 0 then (None, s) else
  let s := upd k (fun p => p <| signal_pending :=
                                  Z.land (signal_pending p) (u64 (Z.lnot (sig_bit sig))) |>) s in
  let handler := aget (signal_handlers p) sig in
  if handler =? PROCESS_SIG_IGN then (None, s) else
  if (handler =? PROCESS_SIG_DFL) || (sig =? PROCESS_SIGKILL) || (sig =? PROCESS_SIGINT)
  then (None, mark_zombie_locked k (WAIT_STATUS_SIGNAL sig) s)
  else (Some (handler, sig), s).

(** ** Creation *)

Definition str_proc : list Z := [112; 114; 111; 99].        (* "proc" *)
Definition str_bootstrap : list Z := [98; 111; 111; 116; 115; 116; 114; 97; 112].
Definition str_idle0 : list Z := [105; 100; 108; 101; 48].

(** The record before its address space and stack are set up. *)
Definition new_process (s : sched E) (k : Z) (nm : option (list Z)) (entry : Z)
  (par : option (Z * process)) : process :=
  let mypid := g_next_pid s in
  let p := process_zero <| used := true |> <| pid := mypid |>
             <| ppid := match par with Some (_, q) => pid q | None => 0 end |>
             <| pgid := mypid |>
             <| sid := match par with Some (_, q) => sid q | None => mypid end |>
             <| uid := match par with Some (_, q) => uid q | None => 0 end |>
             <| gid := match par with Some (_, q) => gid q | None => 0 end |>
             <| cpu_id := 0 |> <| state := PROCESS_READY |> <| p_entry := entry |>
             <| tty_id := match par with Some (_, q) => tty_id q | None => 0 end |>
             <| shm_attachment_count := 0 |> in
  let p := process_init_sched_state (g_sched_ticks s) k p par in
  process_init_io_state p (option_map snd par).

(** The template address space: the parent's, or the current process's. *)
Definition template_space (s : sched E) (par : option (Z * process)) : option vm_space :=
  match par with
  | Some (_, q) => Some (p_vm_space q)
  | None => match g_current s with Some c => Some (p_vm_space (proc s c)) | None => None end
  end.

Definition create_space (k : Z) (s : sched E) : Z * sched E :=
  let '(rc, sp, m) := vm_space_create (env_machine (s_env s)) (p_vm_space (proc s k)) in
  (rc, upd k (fun p => p <| p_vm_space := sp |>) (on_machine (fun _ => m) s)).

(** Give slot [k] an address space: the template's tables, or new ones. *)
Definition init_space (k : Z) (tmpl : option vm_space) (s : sched E) : Z * sched E :=
  match tmpl with
  | Some t =>
      if pml4_phys t =? 0 then create_space k s else
      (0, upd k (fun p => p <| p_vm_space :=
             mkVmSpace (pml4_phys t) (user_min t) (user_max t) (shm_window (pid p)) 0 0 0 |>) s)
  | None => create_space k s
  end.

Definition create_kernel_process_locked (nm : option (list Z)) (entry : Z) (par : option Z)
  (s : sched E) : option Z * sched E :=
  match alloc_process_slot_locked s with
  | None => (None, s)
  | Some k =>
      let parp := option_map (fun i => (i, proc s i)) par in
      let p := new_process s k nm entry parp in
      let s := set_proc k p s <| g_next_pid := u32 (g_next_pid s + 1) |> in
      let s := match parp with
               | Some (_, q) => on_proc (fun p e => vfs_inherit p q e) k s
               | None => s
               end in
      let s := upd k (fun p => p <| name := name_copy (Some (default str_proc nm)) PROCESS_NAME_MAX |>) s in
      let '(rc, s) := init_space k (template_space s parp) s in
      if negb (rc =? 0) then (None, upd k (fun p => p <| used := false |>) s) else
      let s := upd k (fun p => p <| va_space := true |>) s in
      let '(rc, s) := alloc_process_stack_locked k s in
      if negb (rc =? 0) then
        (None, upd k (fun p => p <| used := false |>) (on_proc space_destroy k s))
      else
      let '(rc, s) := setup_initial_context_locked k s in
      if negb (rc =? 0) then
        (None, upd k (fun p => p <| used := false |>) (free_process_resources_locked k s))
      else
      let s := upd k (fun p => p <| main_thread := main_thread p <| th_state := THREAD_READY |>
                                                                <| th_entry := p_entry p |> |>) s in
      let s := match par with Some i => parent_link_child_locked i k s | None => s end in
      (Some k, runq_push_locked k s)
  end.

(** [process_init]: the empty tables. *)
Definition init_tables (s : sched E) : sched E :=
  s <| g_processes := repeat process_zero (Z.to_nat PROCESS_MAX_COUNT) |>
    <| g_runq_head := repeat None (Z.to_nat PROCESS_PRIORITY_LEVELS) |>
    <| g_runq_tail := repeat None (Z.to_nat PROCESS_PRIORITY_LEVELS) |>
    <| g_sched_ticks := 0 |> <| g_next_pid := 1 |>.

(** The record of the bootstrap process, before its address space. *)
Definition bootstrap_process (mypid now k : Z) (p : process) : process :=
  let p := p <| used := true |> <| pid := mypid |> <| ppid := 0 |> <| pgid := mypid |>
             <| sid := mypid |> <| uid := 0 |> <| gid := 0 |> <| cpu_id := 0 |>
             <| state := PROCESS_BLOCKED |> <| tty_id := 0 |> <| shm_attachment_count := 0 |>
             <| p_entry := 0 |> in
  let p := process_init_sched_state now k p None in
  let p := p <| main_thread := main_thread p <| th_state := THREAD_BLOCKED |> |> in
  let p := process_init_io_state p None in
  p <| name := name_copy (Some str_bootstrap) PROCESS_NAME_MAX |>.

(** The idle process is created like any other, then taken off its queue. *)
Definition create_idle (s : sched E) : sched E :=
  let '(idle, s) := create_kernel_process_locked (Some str_idle0) 0 None s in
  match idle with
  | Some i => runq_remove_locked i (upd i (fun p => p <| is_idle := true |>) s <| g_idle := Some i |>)
  | None => s
  end.

(** The bootstrap record gets the kernel's address space and becomes current; then idle is made. *)
Definition install_bootstrap (k : Z) (p : process) (s : sched E) : sched E :=
  let '(rc, sp) := vm_space_init_kernel (env_machine (s_env s)) (p_vm_space p) in
  let s := set_proc k (p <| p_vm_space := sp |>) s in
  if negb (rc =? 0) then s else
  let s := upd k (fun p => p <| va_space := true |>) s <| g_current := Some k |> in
  create_idle s <| g_inited := true |>.

Definition init_processes (s : sched E) : sched E :=
  match alloc_process_slot_locked s with
  | None => s
  | Some k =>
      let mypid := g_next_pid s in
      let s := s <| g_next_pid := u32 (mypid + 1) |> in
      install_bootstrap k (bootstrap_process mypid (g_sched_ticks s) k (proc s k)) s
  end.

Definition process_init (s : sched E) : sched E :=
  if g_inited s then s else init_processes (init_tables s).

(** [process_current_pid] and the other queries. *)
Definition process_current_pid (s : sched E) : Z :=
  match g_current s with Some c => i32 (pid (proc s c)) | None => -1 end.

Definition process_get_pgid (pid0 : Z) (s : sched E) : Z :=
  match find_by_pid_locked pid0 s with Some k => i32 (pgid (proc s k)) | None => -1 end.

Definition process_spawn_kernel (nm : option (list Z)) (entry : Z) (s : sched E) : option Z * sched E :=
  if entry =? 0 then (None, s) else create_kernel_process_locked nm entry (g_current s) s.

(** ** Exec and exit *)

Definition process_exec (pid0 entry : Z) (nm : option (list Z)) (s : sched E) : Z * sched E :=
  if (entry =? 0) || (pid0 <=? 0) then (-1, s) else
  match find_by_pid_locked pid0 s with
  | None => (-1, s)
  | Some k =>
      let p := proc s k in
      if bool_decide (state p = PROCESS_DEAD) || bool_decide (state p = PROCESS_ZOMBIE)
         || bool_decide (g_current s = Some k) then (-1, s) else
      let s := on_proc shm_cleanup k s in
      let s := upd k (fun p =>
        let p := p <| p_vm_space := p_vm_space p <| shm_cursor := shm_window (pid p) |>
                                      <| mapped_pages := 0 |> <| shm_pages := 0 |> |>
                   <| shm_attachment_count := 0 |> <| p_entry := entry |>
                   <| signal_pending := 0 |> <| signal_mask := 0 |>
                   <| signal_handlers := repeat PROCESS_SIG_DFL (Z.to_nat PROCESS_MAX_SIGNALS) |>
                   <| sig_actions := repeat sig_action_zero (Z.to_nat PROCESS_MAX_SIGNALS) |> in
        let p := match nm with
                 | Some (c :: _ as n) => p <| name := name_copy (Some n) PROCESS_NAME_MAX |>
                 | _ => p
                 end in
        p <| cmdline := [] |>) s in
      let '(rc, s) := setup_initial_context_locked k s in
      if negb (rc =? 0) then (-1, s) else (0, s)
  end.

Definition process_exit_current (code : Z) (s : sched E) : Z * sched E :=
  match g_current s with
  | None => (-1, s)
  | Some k => (0, mark_zombie_locked k (WAIT_STATUS_EXIT code) s)
  end.

(** ** Waiting *)

Definition wait_match_child (caller child : process) (target_pid : Z) : bool :=
  if target_pid =? -1 then true else
  if 0 <? target_pid then i32 (pid child) =? target_pid else
  if target_pid =? 0 then pgid child =? pgid caller else
  pgid child =? u32 (- target_pid).

Inductive wait_scan : Type :=
  | WaitZombie (child : Z)                 (* a zombie that matches *)
  | WaitNone (any matched : bool).         (* no such child *)

Fixpoint wait_scan_children (fuel : nat) (s : sched E) (caller : process) (target_pid : Z)
  (child : option Z) (any matched : bool) : wait_scan :=
  match fuel, child with
  | S fuel', Some c =>
      if wait_match_child caller (proc s c) target_pid then
        if bool_decide (state (proc s c) = PROCESS_ZOMBIE) then WaitZombie c
        else wait_scan_children fuel' s caller target_pid (parent_next_child (proc s c)) true true
      else wait_scan_children fuel' s caller target_pid (parent_next_child (proc s c)) true matched
  | _, _ => WaitNone any matched
  end.

Inductive wait_result : Type :=
  | WaitReturn (rc : Z) (status : option Z)     (* return rc, *status_out when written *)
  | WaitBlock.                                  (* blocked: yield, then run the call again *)

(** One round of the loop of [process_waitpid]. *)
Definition process_waitpid (caller_pid target_pid options : Z) (s : sched E) : wait_result * sched E :=
  match find_by_pid_locked caller_pid s with
  | None => (WaitReturn (-1) None, s)
  | Some k =>
      let caller := proc s k in
      match wait_scan_children (Z.to_nat PROCESS_MAX_COUNT + 1) s caller target_pid
              (children_head caller) false false with
      | WaitZombie c =>
          let child := proc s c in
          let s := parent_unlink_child_locked k c s in
          let s := reset_process_slot_locked c s in
          (WaitReturn (i32 (pid child)) (Some (wait_status child)), s)
      | WaitNone any matched =>
          if negb any || negb matched then (WaitReturn (-1) None, s) else
          if negb (Z.land options PROCESS_WAIT_WNOHANG =? 0) then (WaitReturn 0 None, s) else
          match g_current s with
          | Some c =>
              if pid (proc s c) =? pid caller
              then (WaitBlock, upd c (set_state PROCESS_BLOCKED THREAD_BLOCKED) s)
              else (WaitReturn (-2) None, s)
          | None => (WaitReturn (-2) None, s)
          end
      end
  end.

(** ** Signals *)

(** The part of [process_kill] and [process_kill_pgid] that acts on one process. *)
Definition signal_process (k sig : Z) (s : sched E) : sched E :=
  if sig =? PROCESS_SIGKILL then mark_zombie_locked k (WAIT_STATUS_SIGNAL sig) s else
  let s := upd k (fun p => p <| signal_pending := Z.lor (signal_pending p) (sig_bit sig) |>) s in
  if bool_decide (state (proc s k) = PROCESS_BLOCKED)
  then runq_push_locked k (upd k (set_state PROCESS_READY THREAD_READY) s)
  else s.

Definition process_kill (pid0 sig : Z) (s : sched E) : Z * sched E :=
  if pid0 <=? 0 then (-1, s) else
  match find_by_pid_locked pid0 s with
  | None => (-1, s)
  | Some k =>
      if bool_decide (state (proc s k) = PROCESS_DEAD) then (-1, s) else
      if sig =? 0 then (0, s) else
      if (sig <=? 0) || (PROCESS_MAX_SIGNALS <=? sig) then (-1, s) else
      (0, signal_process k sig s)
  end.

Definition process_kill_pgid (pgid0 sig : Z) (s : sched E) : Z * sched E :=
  if (pgid0 <=? 0) || (sig <=? 0) || (PROCESS_MAX_SIGNALS <=? sig) then (-1, s) else
  for_up (Z.to_nat PROCESS_MAX_COUNT) 0 (fun i '(count, s) =>
    let p := proc s i in
    if negb (used p) || bool_decide (state p = PROCESS_DEAD) || bool_decide (state p = PROCESS_ZOMBIE)
    then (count, s) else
    if negb (i32 (pgid p) =? pgid0) then (count, s) else
    (count + 1, signal_process i sig s)) (0, s).

Definition process_signal_register (pid0 sig h : Z) (s : sched E) : Z * sched E :=
  if (sig <=? 0) || (PROCESS_MAX_SIGNALS <=? sig) then (-1, s) else
  if (sig =? PROCESS_SIGKILL) && negb (h =? PROCESS_SIG_DFL) then (-1, s) else
  match find_by_pid_locked pid0 s with
  | None => (-1, s)
  | Some k =>
      (0, upd k (fun p =>
        p <| signal_handlers := aset sig h (signal_handlers p) |>
          <| sig_actions := aset sig (aget (sig_actions p) sig
               <| sa_handler := if 1 <? h then h else 0 |>
               <| sa_action := if h =? PROCESS_SIG_IGN then SIGNAL_ACTION_IGNORE else
                               if h =? PROCESS_SIG_DFL then SIGNAL_ACTION_DEFAULT
                               else SIGNAL_ACTION_HANDLER |>) (sig_actions p) |>) s)
  end.

(** The second component is [*old_set], when it was written. *)
Definition process_signal_mask (pid0 how set : Z) (s : sched E) : Z * option Z * sched E :=
  match find_by_pid_locked pid0 s with
  | None => (-1, None, s)
  | Some k =>
      let old := signal_mask (proc s k) in
      let finish v := (0, Some old,
        upd k (fun p => p <| signal_mask := Z.land v (u64 (Z.lnot (sig_bit PROCESS_SIGKILL))) |>) s) in
      if how =? SIG_BLOCK then finish (Z.lor old set) else
      if how =? SIG_UNBLOCK then finish (Z.land old (u64 (Z.lnot set))) else
      if how =? SIG_SETMASK then finish set else (-1, Some old, s)
  end.

Definition process_signal_pending (pid0 : Z) (s : sched E) : option Z :=
  match find_by_pid_locked pid0 s with Some k => Some (signal_pending (proc s k)) | None => None end.

Definition process_signal_send (pid0 sig : Z) (s : sched E) : Z * sched E := process_kill pid0 sig s.

(** ** Attributes *)

Definition process_set_tty (pid0 tty : Z) (s : sched E) : Z * sched E :=
  match find_by_pid_locked pid0 s with
  | None => (-1, s)
  | Some k => (0, upd k (fun p => p <| tty_id := tty |>) s)
  end.

Definition process_set_priority (pid0 pri : Z) (s : sched E) : Z * sched E :=
  if (pid0 <=? 0) || (PROCESS_PRIORITY_LEVELS <=? pri) then (-1, s) else
  match find_by_pid_locked pid0 s with
  | None => (-1, s)
  | Some k =>
      if negb (used (proc s k)) || bool_decide (state (proc s k) = PROCESS_DEAD) then (-1, s) else
      let s := if bool_decide (state (proc s k) = PROCESS_READY) then runq_remove_locked k s else s in
      let s := upd k (fun p => p <| priority := pri |>
                                 <| main_thread := main_thread p <| th_priority := pri |> |>) s in
      let s := if bool_decide (state (proc s k) = PROCESS_READY) then runq_push_locked k s else s in
      (0, s)
  end.

Definition process_set_cmdline (pid0 : Z) (cmd : option (list Z)) (s : sched E) : Z * sched E :=
  match find_by_pid_locked pid0 s with
  | None => (-1, s)
  | Some k => (0, upd k (fun p => p <| cmdline := name_copy cmd PROCESS_CMDLINE_MAX |>) s)
  end.

(** The string copied into a non-NULL buffer of [size] bytes. *)
Definition process_get_cmdline (pid0 size : Z) (s : sched E) : option (list Z) :=
  if size =? 0 then None else
  match find_by_pid_locked pid0 s with
  | None => None
  | Some k => Some (copy_chars (cmdline (proc s k)) (Z.to_nat (i32 size - 1)))
  end.

Definition process_current_cmdline (s : sched E) : list Z :=
  match g_current s with Some c => cmdline (proc s c) | None => [] end.

Definition process_clone_fd (dst_pid dst_fd src_pid src_fd : Z) (s : sched E) : Z * sched E :=
  match find_by_pid_locked dst_pid s, find_by_pid_locked src_pid s with
  | Some d, Some c =>
      let '(rc, p, e) := vfs_dup2 (proc s d) dst_fd (proc s c) src_fd (s_env s) in
      (rc, set_proc d p (s <| s_env := e |>))
  | _, _ => (-1, s)
  end.
End process.

(** ** The scheduler *)

Section schedule.
Context {E : Type} `{ProcessEnv E}.
Variable process_entry_resume : Z.

(** The bookkeeping at the head of a tick: the interrupted context and the counters. *)
Definition tick_account (current_rsp : Z) (c : Z) (s : sched E) : sched E :=
  upd c (fun p => p <| kernel_rsp := current_rsp |> <| ticks := u64 (ticks p + 1) |>
                    <| sched_ticks := u64 (sched_ticks p + 1) |>
                    <| main_thread := main_thread p <| th_kernel_rsp := current_rsp |>
                         <| th_sched_ticks := u64 (th_sched_ticks (main_thread p) + 1) |> |>) s.

(** A running process spends a tick; [Some rsp] when it keeps the processor, otherwise it goes
    back to the queue (the idle process to no queue). *)
Definition tick_running (current_rsp c : Z) (s : sched E) : option Z * sched E :=
  if negb (bool_decide (state (proc s c) = PROCESS_RUNNING)) then (None, s) else
  let best_pri := runq_best_priority_locked s in
  let s := if negb (is_idle (proc s c)) && (0 <? time_slice (proc s c))
           then upd c (fun p => p <| time_slice := time_slice p - 1 |>
                  <| main_thread := main_thread p <| th_time_slice := time_slice p - 1 |> |>) s
           else s in
  let p := proc s c in
  if negb (is_idle p) && (0 <? time_slice p) && ((best_pri <? 0) || (priority p <=? best_pri))
  then (Some (if kernel_rsp p =? 0 then current_rsp else kernel_rsp p), s)
  else
  if is_idle p then (None, upd c (set_state PROCESS_READY THREAD_READY) s) else
  let s := upd c (fun p => set_state PROCESS_READY THREAD_READY p
             <| time_slice := PROCESS_DEFAULT_TIMESLICE |>
             <| main_thread := main_thread (set_state PROCESS_READY THREAD_READY p)
                  <| th_time_slice := PROCESS_DEFAULT_TIMESLICE |> |>) s in
  (None, runq_push_locked c s).

Definition run_process (k : Z) (s : sched E) : sched E :=
  upd k (set_state PROCESS_RUNNING THREAD_RUNNING) s <| g_current := Some k |>.

(** The choice of the next process: the best queue's head, then idle, then the current one. *)
Definition pick_next (s : sched E) : option Z * sched E :=
  let cur := g_current s in
  let '(next, s) := runq_pop_locked s in
  let next := match next with Some _ => next | None =>
              match g_idle s with Some _ => g_idle s | None => cur end end in
  match next with
  | Some n => (next, run_process n s)
  | None => (None, s <| g_current := None |>)
  end.

(** The switch: check the saved frame, set the TSS stack and the page tables. *)
Definition switch_to (cur next : option Z) (s : sched E) : option Z * sched E :=
  let '(next, s) :=
    match next with
    | None => (next, s)
    | Some n =>
        if kernel_stack (proc s n) =? 0 then (next, s) else
        let '(rc, s) := validate_or_repair_context_locked process_entry_resume n s in
        let '(next, s) :=
          if rc =? 0 then (next, s) else
          match (match cur with Some _ => cur | None => g_idle s end) with
          | Some f => (Some f, run_process f s)
          | None => (next, s)
          end in
        match next with
        | Some n =>
            if kernel_stack (proc s n) =? 0 then (next, s)
            else (next, s <| s_env := tss_set_rsp0 (process_stack_top_aligned (proc s n)) (s_env s) |>)
        | None => (next, s)
        end
    end in
  match next with
  | Some n =>
      let pml4 := pml4_phys (p_vm_space (proc s n)) in
      (next, if pml4 =? 0 then s else on_machine (vmm_switch_pml4 pml4) s)
  | None => (next, s)
  end.

(** The handler call that follows, when there is one. *)
Definition handler_call (sg : option (Z * Z)) : option (Z * Z) :=
  match sg with
  | Some (h, sig) => if 1 <? h then Some (h, sig) else None
  | None => None
  end.

(** [(rsp, handler call, state)] *)
Definition process_schedule_tick (current_rsp : Z) (s : sched E) : Z * option (Z * Z) * sched E :=
  let s := s <| g_sched_ticks := u64 (g_sched_ticks s + 1) |> in
  let cur := g_current s in
  let '(sg, early, s) :=
    match cur with
    | None => (None, None, s)
    | Some c =>
        let s := tick_account current_rsp c s in
        let '(sg, s) := if bool_decide (state (proc s c) = PROCESS_RUNNING)
                        then prepare_signal_action_locked c s else (None, s) in
        let '(early, s) := tick_running current_rsp c s in
        (sg, early, s)
    end in
  match early with
  | Some rsp => (rsp, handler_call sg, s)
  | None =>
      let '(next, s) := pick_next s in
      let '(next, s) := switch_to cur next s in
      let rsp := match next with Some n => kernel_rsp (proc s n) | None => current_rsp end in
      (if rsp =? 0 then current_rsp else rsp, handler_call sg, s)
  end.

(** The stores of [process_yield], before it raises the timer vector. *)
Definition process_yield (s : sched E) : sched E :=
  match g_current s with
  | None => s
  | Some c => upd c (fun p => p <| time_slice := 0 |>
                                <| main_thread := main_thread p <| th_time_slice := 0 |> |>) s
  end.

Definition process_ticks (s : sched E) : Z := g_sched_ticks s.

(** ** Snapshots *)

Record process_snapshot_t := mkSnapshot {
  sn_pid : Z; sn_ppid : Z; sn_pgid : Z; sn_cpu_id : Z; sn_state : process_state; sn_priority : Z;
  sn_time_slice : Z; sn_ticks : Z; sn_sched_ticks : Z; sn_shm_attachments : Z; sn_tty_id : Z;
  sn_is_idle : bool; sn_name : list Z; sn_cwd : list Z; sn_cmdline : list Z;
}.

Definition snapshot_of (p : process) : process_snapshot_t :=
  mkSnapshot (pid p) (ppid p) (pgid p) (cpu_id p) (state p) (priority p) (time_slice p) (ticks p)
    (sched_ticks p) (shm_attachment_count p) (tty_id p) (is_idle p)
    (name_copy (Some (name p)) PROCESS_NAME_MAX) (name_copy (Some (cwd p)) PROCESS_CWD_MAX)
    (name_copy (Some (cmdline p)) PROCESS_CMDLINE_MAX).

(** The entries written to a non-NULL array of [max] entries; its length is the C result. *)
Definition process_snapshot (max : Z) (s : sched E) : option (list process_snapshot_t) :=
  if max <=? 0 then None else
  Some (for_up (Z.to_nat PROCESS_MAX_COUNT) 0 (fun i out =>
    if negb (Z.of_nat (length out) <? max) then out else
    let p := proc s i in
    if negb (used p) || bool_decide (state p = PROCESS_DEAD) then out else out ++ [snapshot_of p]) []).

Definition process_get_info (pid0 : Z) (s : sched E) : option process_snapshot_t :=
  if pid0 <=? 0 then None else
  match find_by_pid_locked pid0 s with
  | None => None
  | Some k =>
      let p := proc s k in
      if negb (used p) || bool_decide (state p = PROCESS_DEAD) then None else Some (snapshot_of p)
  end.

(** (processes, mapped pages, SHM pages, SHM attachments) *)
Definition process_get_memory_totals (s : sched E) : Z * Z * Z * Z :=
  for_up (Z.to_nat PROCESS_MAX_COUNT) 0 (fun i '(n, mp, sp, sa) =>
    let p := proc s i in
    if negb (used p) || bool_decide (state p = PROCESS_DEAD) then (n, mp, sp, sa) else
    (u64 (n + 1), u64 (mp + mapped_pages (p_vm_space p)), u64 (sp + shm_pages (p_vm_space p)),
     u64 (sa + shm_attachment_count p))) (0, 0, 0, 0).
End schedule.
