(* ===== verification/RunQueue.v ===== *)
(** The run queues of [src/proc/process.c] implement 256 FIFO queues.

    The abstract state is a function [Q] from priorities to lists of slots.  [queues s Q] says that
    the intrusive doubly linked lists of [s] are exactly [Q]; the lemmas below say that push, pop and
    remove act on [Q] as append, take-first-of-best and filter. *)

From S2P Require Import Prelude Pmm Paging Vmm VmSpace ProcessData Process.

(** ** Slots *)

Definition slot_ok (k : Z) : Prop := 0 <= k < 256.
#[export] Instance slot_ok_dec k : Decision (slot_ok k).
Proof. unfold slot_ok. apply _. Defined.

(** [p'] is [p] with other queue links. *)
Definition links_only (p p' : process) : Prop :=
  p' = p <| rq_next := rq_next p' |> <| next_queue := next_queue p' |> <| prev_queue := prev_queue p' |>.

Lemma links_only_refl p : links_only p p.
Proof. by destruct p. Qed.
Lemma links_only_trans a b c : links_only a b -> links_only b c -> links_only a c.
Proof. unfold links_only. intros -> ->. done. Qed.
#[export] Hint Resolve links_only_refl : tsk.

(** Closes [links_step] goals where the process table is the same. *)
Ltac links_same := split; try done; intros; apply links_only_refl.

Section queues.
Context {E : Type}.
Implicit Types (s : sched E) (k pri : Z).

Lemma length_set_proc k p s : length (g_processes (set_proc k p s)) = length (g_processes s).
Proof. apply length_aset. Qed.

Lemma proc_set_proc s k p j :
  length (g_processes s) = 256%nat -> slot_ok k -> 0 <= j ->
  proc (set_proc k p s) j = if decide (j = k) then p else proc s j.
Proof.
  intros Hl Hk Hj. unfold proc, set_proc. fields. case_decide as D.
  - rewrite D. apply aget_aset_eq. rewrite Hl. unfold slot_ok in Hk. lia.
  - apply aget_aset_ne; unfold slot_ok in Hk; lia.
Qed.

(** What a queue operation may change: links, heads and tails. *)
Record links_step s s' : Prop := {
  lk_len : length (g_processes s') = length (g_processes s);
  lk_proc : forall j, 0 <= j -> links_only (proc s j) (proc s' j);
  lk_current : g_current s' = g_current s;
  lk_idle : g_idle s' = g_idle s;
  lk_next_pid : g_next_pid s' = g_next_pid s;
  lk_ticks : g_sched_ticks s' = g_sched_ticks s;
  lk_env : s_env s' = s_env s;
}.

Lemma links_step_refl s : links_step s s.
Proof. split; try done. intros. apply links_only_refl. Qed.
Lemma links_step_trans a b c : links_step a b -> links_step b c -> links_step a c.
Proof.
  intros [A1 A2 A3 A4 A5 A6 A7] [B1 B2 B3 B4 B5 B6 B7]. split; try congruence.
  intros j Hj. apply (links_only_trans _ (proc b j)); auto.
Qed.

(** ** The abstraction *)

(** The element before index [i]. *)
Definition before (l : list Z) (i : nat) : option Z :=
  match i with O => None | S i' => l !! i' end.

(** The links of a slot: [rq_next], [next_queue], [prev_queue]. *)
Definition links s (k : Z) : option Z * option Z * option Z :=
  (rq_next (proc s k), next_queue (proc s k), prev_queue (proc s k)).

(** Queue [pri] of [s] is the list [l]. *)
Record is_queue s (pri : Z) (l : list Z) : Prop := {
  iq_head : aget (g_runq_head s) pri = head l;
  iq_tail : aget (g_runq_tail s) pri = last l;
  iq_links : forall i k, l !! i = Some k -> links s k = (l !! S i, l !! S i, before l i);
}.

Record queues s (Q : Z -> list Z) : Prop := {
  q_len : length (g_processes s) = 256%nat;
  q_heads : length (g_runq_head s) = 256%nat;
  q_tails : length (g_runq_tail s) = 256%nat;
  q_queue : forall pri, slot_ok pri -> is_queue s pri (Q pri);
  q_nodup : forall pri, slot_ok pri -> NoDup (Q pri);
  q_member : forall pri k, slot_ok pri -> k ∈ Q pri -> slot_ok k /\ queue_of (priority (proc s k)) = pri;
}.

(** [Q] with one queue replaced. *)
Definition with_queue (Q : Z -> list Z) (pri : Z) (l : list Z) : Z -> list Z :=
  fun p => if decide (p = pri) then l else Q p.

(** Slot [k] is in no queue. *)
Definition unqueued (Q : Z -> list Z) (k : Z) : Prop := forall pri, slot_ok pri -> k ∉ Q pri.

Lemma queue_of_slot pri : 0 <= pri -> slot_ok (queue_of pri).
Proof. intros. unfold queue_of, slot_ok, PROCESS_PRIORITY_LEVELS. destruct (Z.leb_spec 256 pri); lia. Qed.

Lemma links_only_priority s s' k : links_step s s' -> 0 <= k -> priority (proc s' k) = priority (proc s k).
Proof. intros L Hk. by rewrite (lk_proc _ _ L k Hk). Qed.

(** The effect of a queue operation on the abstraction, from its effect on one queue: [l'] is the
    new content of queue [pri], and the links of the members of the others are kept. *)
Lemma queues_update s s' Q pri l' :
  queues s Q -> links_step s s' -> slot_ok pri ->
  length (g_runq_head s') = 256%nat -> length (g_runq_tail s') = 256%nat ->
  (forall p, slot_ok p -> p <> pri -> aget (g_runq_head s') p = aget (g_runq_head s) p
     /\ aget (g_runq_tail s') p = aget (g_runq_tail s) p) ->
  (forall p k, slot_ok p -> p <> pri -> k ∈ Q p -> links s' k = links s k) ->
  is_queue s' pri l' -> NoDup l' ->
  (forall k, k ∈ l' -> slot_ok k /\ queue_of (priority (proc s k)) = pri) ->
  queues s' (with_queue Q pri l').
Proof.
  intros [W1 W2 W3 W4 W5 W6] L Hpri Hh Ht Hother Hlinks Hq Hnd Hmem. unfold with_queue.
  split; [by rewrite (lk_len _ _ L)|done|done| | |].
  - intros p Hp. case_decide as D; [by rewrite D|]. destruct (W4 p Hp) as [H1 H2 H3].
    destruct (Hother p Hp D) as [E1 E2]. split; [congruence|congruence|].
    intros i k Hi. rewrite (Hlinks p k Hp D (list_elem_of_lookup_2 _ _ _ Hi)). by apply H3.
  - intros p Hp. case_decide; auto.
  - intros p k Hp Hk. assert (slot_ok k /\ queue_of (priority (proc s k)) = p) as [Hs Hq'].
    { case_decide as D; [rewrite D; by apply Hmem|by apply W6]. }
    split; [done|]. rewrite (links_only_priority s s') by (done || apply Hs). done.
Qed.

Lemma upd_links s k f a b c :
  slot_ok k -> length (g_processes s) = 256%nat -> (forall p, links_only p (f p)) ->
  rq_next (f (proc s k)) = a -> next_queue (f (proc s k)) = b -> prev_queue (f (proc s k)) = c ->
  links_step s (upd k f s) /\
  (forall j, 0 <= j -> links (upd k f s) j = if decide (j = k) then (a, b, c) else links s j).
Proof.
  intros Hk Hl Hf <- <- <-. split.
  - unfold upd. split; try done; [by rewrite length_set_proc|].
    intros j Hj. rewrite proc_set_proc by done. case_decide as D; [by rewrite D|apply links_only_refl].
  - intros j Hj. unfold links, upd. rewrite proc_set_proc by done. by case_decide.
Qed.

(** ** Push *)

Lemma push_links (lk : Z -> option Z * option Z * option Z) l k t :
  NoDup l -> k ∉ l -> last l = Some t ->
  (forall i x, l !! i = Some x -> lk x = (l !! S i, l !! S i, before l i)) ->
  let lk' j := if decide (j = t) then (Some k, Some k, (lk t).2)
               else if decide (j = k) then (None, None, Some t) else lk j in
  forall i x, (l ++ [k]) !! i = Some x -> lk' x = ((l ++ [k]) !! S i, (l ++ [k]) !! S i, before (l ++ [k]) i).
Proof.
  intros Hnd Hk Hlast Hlk lk' i x Hi. rewrite last_lookup in Hlast.
  destruct (decide (i < length l)%nat) as [Hlt|Hge].
  - rewrite lookup_app_l in Hi by done.
    assert (x ∈ l) as Hx by (by eapply list_elem_of_lookup_2).
    assert (before (l ++ [k]) i = before l i) as ->.
    { destruct i; simpl; [done|]. by rewrite lookup_app_l by lia. }
    unfold lk'. case_decide as D.
    + assert (i = pred (length l)) as -> by (apply (NoDup_lookup l _ _ t); congruence).
      replace (S (pred (length l))) with (length l) by lia.
      rewrite list_lookup_middle by done. rewrite <- D, (Hlk _ _ Hi). done.
    + rewrite decide_False by (by intros ->).
      assert (i <> pred (length l)) by (intros ->; congruence).
      rewrite lookup_app_l by lia. by apply Hlk.
  - apply lookup_app_Some in Hi as [Hi|[Hle Hi]]; [apply lookup_lt_Some in Hi; lia|].
    apply list_lookup_singleton_Some in Hi as [Hz <-].
    assert (i = length l) as -> by lia.
    unfold lk'. rewrite decide_False.
    2: { intros ->. apply Hk. by eapply list_elem_of_lookup_2. }
    rewrite decide_True by done. rewrite lookup_ge_None_2 by (rewrite length_app; simpl; lia).
    destruct l as [|y l]; [done|]. cbn [length before]. rewrite lookup_app_l by (simpl; lia).
    by rewrite <- Hlast.
Qed.

Lemma runq_push_queues s Q k :
  queues s Q -> slot_ok k -> unqueued Q k -> 0 <= priority (proc s k) ->
  let pri := queue_of (priority (proc s k)) in
  queues (runq_push_locked k s) (with_queue Q pri (Q pri ++ [k]))
  /\ links_step s (runq_push_locked k s).
Proof.
  intros W Hk Hun Hpri pri. pose proof W as [W1 W2 W3 W4 W5 W6].
  pose proof (queue_of_slot _ Hpri) as Hp. fold pri in Hp. unfold runq_push_locked. fold pri.
  destruct (W4 pri Hp) as [H1 H2 H3].
  destruct (upd_links s k (fun p => p <| rq_next := None |> <| next_queue := None |>
    <| prev_queue := aget (g_runq_tail s) pri |>) None None (last (Q pri)) Hk W1 ltac:(done)
    eq_refl eq_refl H2) as [L1 E1].
  set (s1 := upd k _ s) in *.
  change (g_runq_head s1) with (g_runq_head s). change (g_runq_tail s1) with (g_runq_tail s).
  rewrite H1, H2.
  assert (forall p x, slot_ok p -> x ∈ Q p -> x <> k /\ slot_ok x) as Hne.
  { intros p x Hpp Hx. split; [intros ->; by apply (Hun p)|by apply (W6 p)]. }
  assert (NoDup (Q pri ++ [k])) as Hnd.
  { apply NoDup_app. split; [by apply W5|]. split; [|apply NoDup_singleton].
    intros x Hx ->%list_elem_of_singleton. by apply (Hun pri). }
  assert (forall x, x ∈ Q pri ++ [k] -> slot_ok x /\ queue_of (priority (proc s x)) = pri) as Hmem.
  { intros x [Hx| ->%list_elem_of_singleton]%elem_of_app; [by apply W6|done]. }
  assert (forall (l : list (option Z)) p (x : option Z), length l = 256%nat -> slot_ok p ->
    p <> pri -> aget (aset pri x l) p = aget l p) as Haset.
  { intros l p x _ Hpp Hd. apply aget_aset_ne; unfold slot_ok in *; lia. }
  assert (forall (l : list (option Z)) (x : option Z), length l = 256%nat -> aget (aset pri x l) pri = x) as Haget.
  { intros l x Hl. apply aget_aset_eq. rewrite Hl. unfold slot_ok in Hp. lia. }
  destruct (last (Q pri)) as [t|] eqn:Elast.
  - destruct (head (Q pri)) as [h|] eqn:Eh; [|by apply head_None in Eh; rewrite Eh in Elast].
    pose proof (last_Some_elem_of _ _ Elast) as Ht. destruct (Hne pri t Hp Ht) as [Htk Hts].
    assert (length (g_processes s1) = 256%nat) as Hl1 by (by rewrite (lk_len _ _ L1)).
    destruct (upd_links s1 t (fun p => p <| rq_next := Some k |> <| next_queue := Some k |>)
      (Some k) (Some k) (prev_queue (proc s1 t)) Hts Hl1 ltac:(done) eq_refl eq_refl eq_refl) as [L2 E2].
    set (s2 := upd t _ s1) in *.
    set (s3 := s2 <| g_runq_tail := aset pri (Some k) (g_runq_tail s2) |>).
    assert (links_step s s3) as L3.
    { apply (links_step_trans _ s1); [done|]. apply (links_step_trans _ s2); [done|]. links_same. }
    assert (forall j, 0 <= j -> links s3 j = if decide (j = t) then (Some k, Some k, (links s t).2)
               else if decide (j = k) then (None, None, Some t) else links s j) as E3.
    { intros j Hj. change (links s3 j) with (links s2 j). rewrite E2 by done. case_decide; [|by apply E1].
      unfold slot_ok in Hts. pose proof (E1 t ltac:(lia)) as Et. rewrite decide_False in Et by done.
      injection Et as _ _ ->. done. }
    split; [|exact L3]. apply (queues_update s); try done.
    + change (length (aset pri (Some k) (g_runq_tail s)) = 256%nat). by rewrite length_aset.
    + intros p Hpp Hd. split; [done|]. change (aget (aset pri (Some k) (g_runq_tail s)) p = aget (g_runq_tail s) p).
      by apply Haset.
    + intros p x Hpp Hd Hx. destruct (Hne p x Hpp Hx) as [Hxk Hxs]. rewrite E3 by apply Hxs.
      rewrite decide_False; [by rewrite decide_False|].
      intros ->. destruct (W6 p t Hpp Hx), (W6 pri t Hp Ht). congruence.
    + split.
      * change (aget (g_runq_head s) pri = head (Q pri ++ [k])). rewrite H1. by destruct (Q pri).
      * change (aget (aset pri (Some k) (g_runq_tail s)) pri = last (Q pri ++ [k])).
        rewrite Haget by done. by rewrite last_snoc.
      * intros i x Hi. rewrite E3.
        -- by apply (push_links (links s) (Q pri) k t (W5 pri Hp) (Hun pri Hp) Elast H3).
        -- destruct (Hmem x (list_elem_of_lookup_2 _ _ _ Hi)) as [Hx _]. apply Hx.
  - apply last_None in Elast. rewrite Elast in *. cbn [head app] in *.
    set (s3 := s1 <| g_runq_head := _ |> <| g_runq_tail := _ |>).
    assert (links_step s s3) as L3 by (apply (links_step_trans _ s1); [done|links_same]).
    split; [|exact L3]. apply (queues_update s); try done.
    + change (length (aset pri (Some k) (g_runq_head s)) = 256%nat). by rewrite length_aset.
    + change (length (aset pri (Some k) (g_runq_tail s)) = 256%nat). by rewrite length_aset.
    + intros p Hpp Hd. by split; apply Haset.
    + intros p x Hpp Hd Hx. destruct (Hne p x Hpp Hx) as [Hxk Hxs].
      change (links s1 x = links s x). rewrite E1 by apply Hxs. by rewrite decide_False.
    + split; [by apply Haget|by apply Haget|].
      intros [|i] x; [|done]. intros [= <-]. change (links s1 k = (None, None, None)).
      rewrite E1 by apply Hk. by rewrite decide_True.
Qed.

(** ** Unlinking *)

Lemma unlink_links (lk : Z -> option Z * option Z * option Z) l i c :
  NoDup l -> l !! i = Some c ->
  (forall i x, l !! i = Some x -> lk x = (l !! S i, l !! S i, before l i)) ->
  forall i' x, delete i l !! i' = Some x ->
    (if decide (Some x = before l i) then l !! S i else (lk x).1.1,
     if decide (Some x = before l i) then l !! S i else (lk x).1.2,
     if decide (Some x = l !! S i) then before l i else (lk x).2)
    = (delete i l !! S i', delete i l !! S i', before (delete i l) i').
Proof.
  intros Hnd Hc Hlk i' x Hx. rewrite list_lookup_delete in Hx.
  remember (if decide (i' < i)%nat then i' else S i') as m eqn:Em.
  rewrite (Hlk m x Hx). cbn [fst snd].
  assert (Some x = before l i <-> i = S m) as Hp.
  { destruct i as [|q]; simpl; [by split|].
    split; [|intros Hq; assert (q = m) as -> by lia; done].
    intros Hq. f_equal. by apply (NoDup_lookup l _ _ x). }
  assert (Some x = l !! S i <-> m = S i) as Hn.
  { split; [|by intros <-]. intros Hq. by apply (NoDup_lookup l _ _ x). }
  assert ((if decide (Some x = before l i) then l !! S i else l !! S m) = delete i l !! S i') as E1.
  { rewrite list_lookup_delete. subst m.
    destruct (decide (i' < i)%nat), (decide (S i' < i)%nat); case_decide as D; try done; try lia;
      rewrite Hp in D; try lia; f_equal; lia. }
  rewrite !E1. f_equal. clear E1. subst m.
  destruct (decide (i' < i)%nat); case_decide as D; rewrite Hn in D; try lia.
  - destruct i'; simpl; [done|]. by rewrite list_lookup_delete_lt by lia.
  - assert (i' = i) as -> by lia. destruct i; simpl; [done|]. by rewrite list_lookup_delete_lt by lia.
  - destruct i' as [|q]; simpl; [lia|]. by rewrite list_lookup_delete_ge by lia.
Qed.

Lemma head_lookup0 (l : list Z) : head l = l !! 0%nat.
Proof. by destruct l. Qed.

Lemma in_delete (l : list Z) i x : x ∈ delete i l -> x ∈ l.
Proof.
  intros [j Hj]%list_elem_of_lookup. rewrite list_lookup_delete in Hj. by eapply list_elem_of_lookup_2.
Qed.

Lemma nodup_delete (l : list Z) i c : l !! i = Some c -> NoDup l -> NoDup (delete i l) /\ c ∉ delete i l.
Proof.
  intros Hc Hnd. rewrite (delete_Permutation l i c Hc) in Hnd. apply NoDup_cons in Hnd. tauto.
Qed.

Lemma head_delete (l : list Z) i c :
  l !! i = Some c ->
  head (delete i l) = match before l i with Some _ => head l | None => l !! S i end.
Proof.
  destruct l as [|x l]; [done|]. destruct i as [|i]; simpl.
  - intros _. by destruct l.
  - destruct i as [|i]; simpl; [done|]. intros Hi. apply lookup_lt_Some in Hi.
    destruct (l !! i) eqn:El; [done|]. apply lookup_ge_None in El. lia.
Qed.

Lemma last_delete (l : list Z) i c :
  NoDup l -> l !! i = Some c ->
  last (delete i l) = if decide (last l = Some c) then before l i else last l.
Proof.
  intros Hnd Hi. pose proof (lookup_lt_Some _ _ _ Hi).
  rewrite !last_lookup, length_delete by done. case_decide as D.
  - assert (i = pred (length l)) as -> by (by apply (NoDup_lookup l _ _ c)).
    destruct (length l) as [|[|n]] eqn:El; simpl; [lia| |].
    + apply lookup_ge_None. rewrite length_delete, El by done. simpl. lia.
    + replace (n - 0)%nat with n by lia. apply list_lookup_delete_lt. lia.
  - assert (i <> pred (length l)) by (intros ->; done).
    rewrite list_lookup_delete_ge by lia. f_equal. lia.
Qed.

Definition upd_opt (o : option Z) (f : process -> process) s : sched E :=
  match o with Some k => upd k f s | None => s end.

(** The found branch of [runq_remove_walk]. *)
Definition unlink_at (pri c : Z) (prev : option Z) s : sched E :=
  let next := rq_next (proc s c) in
  let s := match prev with
           | Some p => upd p (fun q => q <| rq_next := next |>) s
           | None => s <| g_runq_head := aset pri next (g_runq_head s) |>
           end in
  let s := if bool_decide (aget (g_runq_tail s) pri = Some c)
           then s <| g_runq_tail := aset pri prev (g_runq_tail s) |> else s in
  let s := upd_opt next (fun q => q <| prev_queue := prev |>) s in
  let s := upd_opt prev (fun q => q <| next_queue := next |>) s in
  upd c (fun q => q <| rq_next := None |> <| next_queue := None |> <| prev_queue := None |>) s.

Lemma upd_opt_links s o f :
  (forall k, o = Some k -> slot_ok k) -> length (g_processes s) = 256%nat -> (forall p, links_only p (f p)) ->
  links_step s (upd_opt o f s) /\ g_runq_head (upd_opt o f s) = g_runq_head s
  /\ g_runq_tail (upd_opt o f s) = g_runq_tail s
  /\ (forall j, 0 <= j -> links (upd_opt o f s) j
       = if decide (Some j = o) then (rq_next (f (proc s j)), next_queue (f (proc s j)), prev_queue (f (proc s j)))
         else links s j).
Proof.
  intros Hk Hl Hf. destruct o as [k|]; simpl.
  - destruct (upd_links s k f _ _ _ (Hk k eq_refl) Hl Hf eq_refl eq_refl eq_refl) as [L1 E1].
    split; [done|]. split; [done|]. split; [done|].
    intros j Hj. rewrite E1 by done. repeat case_decide; congruence.
  - split; [apply links_step_refl|]. done.
Qed.

Lemma unlink_at_queues s Q pri i c :
  queues s Q -> slot_ok pri -> Q pri !! i = Some c ->
  let s' := unlink_at pri c (before (Q pri) i) s in
  queues s' (with_queue Q pri (delete i (Q pri))) /\ links_step s s' /\ rq_next (proc s' c) = None.
Proof.
  intros W Hp Hc s'. pose proof W as [W1 W2 W3 W4 W5 W6].
  pose proof (W5 pri Hp) as Hnd. destruct (W4 pri Hp) as [H1 H2 H3].
  set (l := Q pri) in *. set (prev := before l i) in *.
  assert (forall x, x ∈ l -> slot_ok x) as Hsl by (intros; by apply (W6 pri)).
  assert (slot_ok c) as Hcs by (apply Hsl; by eapply list_elem_of_lookup_2).
  assert (forall x, prev = Some x -> x ∈ l /\ x <> c) as Hprev.
  { unfold prev. intros x Hx. destruct i as [|q]; [done|]. simpl in Hx.
    split; [by eapply list_elem_of_lookup_2|]. intros ->.
    assert (q = S q); [|lia]. by apply (NoDup_lookup l _ _ c). }
  assert (forall x, l !! S i = Some x -> x ∈ l /\ x <> c) as Hnext.
  { intros x Hx. split; [by eapply list_elem_of_lookup_2|]. intros ->.
    assert (i = S i); [|lia]. by apply (NoDup_lookup l _ _ c). }
  pose proof (H3 i c Hc) as Hlc. assert (rq_next (proc s c) = l !! S i) as Enext by (by injection Hlc).
  unfold s', unlink_at. rewrite Enext. set (next := l !! S i) in *.
  (* the first store: the predecessor's link, or the head *)
  set (s1 := match prev with Some p => _ | None => _ end).
  assert (links_step s s1 /\ g_runq_tail s1 = g_runq_tail s
    /\ g_runq_head s1 = (if prev then g_runq_head s else aset pri next (g_runq_head s))
    /\ (forall j, 0 <= j -> links s1 j = if decide (Some j = prev)
          then (next, next_queue (proc s j), prev_queue (proc s j)) else links s j))
    as (L1 & T1 & D1 & E1).
  { unfold s1. destruct prev as [p|] eqn:Ep.
    - destruct (Hprev p eq_refl) as [Hpl Hpc].
      destruct (upd_opt_links s (Some p) (fun q => q <| rq_next := next |>)) as (A & B & C & D);
        [intros k [= <-]; by apply Hsl|done|done|]. done.
    - split; [links_same|]. done. }
  set (s2 := if bool_decide _ then _ else s1).
  assert (links_step s1 s2 /\ g_runq_head s2 = g_runq_head s1
    /\ g_runq_tail s2 = (if decide (last l = Some c) then aset pri prev (g_runq_tail s) else g_runq_tail s)
    /\ (forall j, links s2 j = links s1 j)) as (L2 & D2 & T2 & E2).
  { unfold s2. rewrite T1, H2. case_bool_decide; case_decide; try done; (split; [links_same|]); done. }
  clearbody s1 s2.
  assert (length (g_processes s2) = 256%nat) as Hl2 by (by rewrite (lk_len _ _ L2), (lk_len _ _ L1)).
  destruct (upd_opt_links s2 next (fun q => q <| prev_queue := prev |>)) as (L3 & D3 & T3 & E3);
    [intros k Hk; by apply Hsl, Hnext|done|done|].
  set (s3 := upd_opt next _ s2) in *. clearbody s3.
  assert (length (g_processes s3) = 256%nat) as Hl3 by (by rewrite (lk_len _ _ L3)).
  destruct (upd_opt_links s3 prev (fun q => q <| next_queue := next |>)) as (L4 & D4 & T4 & E4);
    [intros k Hk; by apply Hsl, Hprev|done|done|].
  set (s4 := upd_opt prev _ s3) in *. clearbody s4.
  assert (length (g_processes s4) = 256%nat) as Hl4 by (by rewrite (lk_len _ _ L4)).
  destruct (upd_links s4 c (fun q => q <| rq_next := None |> <| next_queue := None |> <| prev_queue := None |>)
    None None None Hcs Hl4 ltac:(done) eq_refl eq_refl eq_refl) as [L5 E5].
  pose proof (eq_refl : g_runq_head (upd c (fun q => q <| rq_next := None |> <| next_queue := None |>
    <| prev_queue := None |>) s4) = g_runq_head s4) as D5.
  pose proof (eq_refl : g_runq_tail (upd c (fun q => q <| rq_next := None |> <| next_queue := None |>
    <| prev_queue := None |>) s4) = g_runq_tail s4) as T5.
  set (s5 := upd c _ s4) in *. clearbody s5.
  assert (links_step s s5) as L.
  { apply (links_step_trans _ s1); [done|]. apply (links_step_trans _ s2); [done|].
    apply (links_step_trans _ s3); [done|]. by apply (links_step_trans _ s4). }
  assert (g_runq_head s5 = if prev then g_runq_head s else aset pri next (g_runq_head s)) as D by congruence.
  assert (g_runq_tail s5 = if decide (last l = Some c) then aset pri prev (g_runq_tail s) else g_runq_tail s)
    as T by congruence.
  assert (forall j, 0 <= j -> j <> c -> links s5 j =
    (if decide (Some j = prev) then next else (links s j).1.1,
     if decide (Some j = prev) then next else (links s j).1.2,
     if decide (Some j = next) then prev else (links s j).2)) as Ej.
  { intros j Hj Hjc. rewrite E5, decide_False by done.
    pose proof (E4 j Hj) as F4. pose proof (E3 j Hj) as F3. pose proof (E2 j) as F2. pose proof (E1 j Hj) as F1.
    unfold links in *. cbn [fst snd].
    repeat case_decide; injection F1 as ? ? ?; injection F2 as ? ? ?; injection F3 as ? ? ?;
      injection F4 as ? ? ?; simpl in *; congruence. }
  assert (forall p x, slot_ok p -> p <> pri -> x ∈ Q p -> x ∉ l) as Hdisj.
  { intros p x Hpp Hd Hx Hx'. destruct (W6 p x Hpp Hx), (W6 pri x Hp Hx'). congruence. }
  assert (forall (t : list (option Z)) p (x : option Z), slot_ok p -> p <> pri ->
    aget (aset pri x t) p = aget t p) as Haset.
  { intros t p x Hpp Hd. apply aget_aset_ne; unfold slot_ok in *; lia. }
  assert (forall (t : list (option Z)) (x : option Z), length t = 256%nat -> aget (aset pri x t) pri = x) as Haget.
  { intros t x Hl. apply aget_aset_eq. rewrite Hl. unfold slot_ok in Hp. lia. }
  split; [|split; [exact L|]].
  - apply (queues_update s); try done.
    + rewrite D. destruct prev; [done|by rewrite length_aset].
    + rewrite T. case_decide; [by rewrite length_aset|done].
    + intros p Hpp Hd. rewrite D, T. split; [destruct prev; [done|by apply Haset]|].
      case_decide; [by apply Haset|done].
    + intros p x Hpp Hd Hx. pose proof (Hdisj p x Hpp Hd Hx) as Hxl. destruct (W6 p x Hpp Hx) as [Hxs _].
      rewrite Ej; [|apply Hxs|intros ->; apply Hxl; by eapply list_elem_of_lookup_2].
      assert (Some x <> next) by (intros Hq; symmetry in Hq; by apply Hxl, Hnext).
      assert (Some x <> prev) by (intros Hq; symmetry in Hq; by apply Hxl, Hprev).
      rewrite !decide_False by done. by destruct (links s x) as [[? ?] ?].
    + split.
      * rewrite D, (head_delete l i c Hc). fold prev next. destruct prev; [done|by apply Haget].
      * rewrite T, (last_delete l i c Hnd Hc). fold prev. case_decide; [by apply Haget|done].
      * intros i' x Hx. rewrite Ej.
        -- by apply (unlink_links (links s) l i c).
        -- apply Hsl. by eapply in_delete, list_elem_of_lookup_2.
        -- intros ->. rewrite list_lookup_delete in Hx.
           pose proof (NoDup_lookup l _ _ c Hnd Hc Hx). case_decide; lia.
    + by apply (nodup_delete l i c).
    + intros x Hx. apply W6; [done|]. by eapply in_delete.
  - pose proof (E5 c ltac:(apply Hcs)) as F. rewrite decide_True in F by done. by injection F.
Qed.

(** ** Remove and pop *)

(** Removing a queued slot deletes it from its queue; other slots are left alone. *)
Lemma remove_walk_found s l pri target m : forall fuel i,
  is_queue s pri l -> NoDup l -> l !! m = Some target -> (i <= m)%nat -> (m - i < fuel)%nat ->
  runq_remove_walk fuel target pri (before l i) (l !! i) s = unlink_at pri target (before l m) s.
Proof.
  induction fuel as [|fuel IH]; intros i Hq Hnd Hm Hi Hf; [lia|]. simpl.
  pose proof (lookup_lt_Some _ _ _ Hm).
  destruct (l !! i) as [c|] eqn:Hc; [|apply lookup_ge_None in Hc; lia].
  destruct (Z.eqb_spec c target) as [->|Hne].
  - assert (i = m) as -> by (by apply (NoDup_lookup l _ _ target)). done.
  - assert (i <> m) by congruence. pose proof (iq_links _ _ _ Hq i c Hc) as Hl. injection Hl as -> _ _.
    change (Some c) with (Some c). rewrite <- Hc. change (l !! i) with (before l (S i)). apply IH; done || lia.
Qed.

Lemma remove_walk_absent s l pri target : forall fuel i prev,
  is_queue s pri l -> target ∉ l -> runq_remove_walk fuel target pri prev (l !! i) s = s.
Proof.
  induction fuel as [|fuel IH]; intros i prev Hq Hn; [done|]. simpl.
  destruct (l !! i) as [c|] eqn:Hc; [|done].
  rewrite (proj2 (Z.eqb_neq c target)).
  - pose proof (iq_links _ _ _ Hq i c Hc) as Hl. injection Hl as -> _ _. by apply IH.
  - intros ->. apply Hn. by eapply list_elem_of_lookup_2.
Qed.

Lemma queue_length s Q pri : queues s Q -> slot_ok pri -> (length (Q pri) <= 256)%nat.
Proof.
  intros W Hp. assert (length (Q pri) <= length (seqZ 0 256))%nat as Hle; [|by rewrite length_seqZ in Hle].
  apply submseteq_length, NoDup_submseteq; [by apply W|].
  intros x Hx. apply elem_of_seqZ. apply (q_member _ _ W pri x Hp Hx).
Qed.

(** A list without one element. *)
Definition without (l : list Z) (c : Z) : list Z := filter (fun x => x <> c) l.

Lemma without_absent l c : c ∉ l -> without l c = l.
Proof.
  unfold without. induction l as [|x l IH]; intros Hc; [done|]. apply not_elem_of_cons in Hc as [Hx Hl].
  rewrite filter_cons_True by congruence. f_equal. by apply IH.
Qed.

Lemma without_delete l i c : NoDup l -> l !! i = Some c -> without l c = delete i l.
Proof.
  revert i. induction l as [|x l IH]; intros i Hnd Hi; [done|].
  apply NoDup_cons in Hnd as [Hx Hnd]. unfold without in *. destruct i as [|i]; simpl in Hi |- *.
  - injection Hi as ->. rewrite filter_cons_False by tauto. by apply without_absent.
  - rewrite filter_cons_True; [|intros ->; apply Hx; by eapply list_elem_of_lookup_2].
    f_equal. by apply IH.
Qed.

Lemma elem_without l c x : x ∈ without l c <-> x <> c /\ x ∈ l.
Proof. unfold without. by rewrite list_elem_of_filter. Qed.

Lemma runq_remove_queues s Q k :
  queues s Q -> slot_ok k -> 0 <= priority (proc s k) ->
  let pri := queue_of (priority (proc s k)) in
  let s' := runq_remove_locked k s in
  queues s' (with_queue Q pri (without (Q pri) k)) /\ links_step s s'.
Proof.
  intros W Hk Hpri pri s'. pose proof (queue_of_slot _ Hpri) as Hp. fold pri in Hp.
  pose proof (q_queue _ _ W pri Hp) as Hq. unfold s', runq_remove_locked. fold pri.
  rewrite (iq_head _ _ _ Hq), (head_lookup0 (Q pri)).
  destruct (decide (k ∈ Q pri)) as [Hin|Hout].
  - apply list_elem_of_lookup in Hin as [m Hm].
    pose proof (lookup_lt_Some _ _ _ Hm). pose proof (queue_length s Q pri W Hp).
    change (@None Z) with (before (Q pri) 0).
    rewrite (remove_walk_found s (Q pri) pri k m); [|done|by apply W|done|lia|unfold PROCESS_MAX_COUNT; lia].
    destruct (unlink_at_queues s Q pri m k W Hp Hm) as (A & B & _). split; [|done].
    by rewrite (without_delete _ m k (q_nodup _ _ W pri Hp) Hm).
  - rewrite (remove_walk_absent s (Q pri)) by done. split; [|apply links_step_refl].
    rewrite without_absent by done.
    apply (queues_update s s Q pri);
      [done|apply links_step_refl|done|apply (q_heads _ _ W)|apply (q_tails _ _ W)|done|done|done
      |by apply (q_nodup _ _ W)|].
    intros x Hx. by apply (q_member _ _ W).
Qed.

(** [pri] is the first non-empty queue. *)
Definition best_queue (Q : Z -> list Z) (pri : Z) : Prop :=
  slot_ok pri /\ Q pri <> [] /\ forall p, 0 <= p < pri -> Q p = [].

Lemma runq_best_spec s Q :
  queues s Q ->
  match find_index (fun h => bool_decide (is_Some h)) (g_runq_head s) with
  | Some pri => best_queue Q pri
  | None => forall p, slot_ok p -> Q p = []
  end.
Proof.
  intros W. assert (forall p, slot_ok p -> aget (g_runq_head s) p = head (Q p)) as Eh.
  { intros p Hp. by apply (q_queue _ _ W p Hp). }
  destruct (find_index _ _) as [pri|] eqn:Hf.
  - apply find_index_Some in Hf as (Hp & Hs & Hlt). rewrite (q_heads _ _ W) in Hp.
    assert (slot_ok pri) as Hpp by (unfold slot_ok; lia).
    apply bool_decide_eq_true in Hs. rewrite Eh in Hs by done.
    split; [done|]. split; [by intros Hn; rewrite Hn in Hs; apply is_Some_None in Hs|].
    intros p Hq. specialize (Hlt p Hq). apply bool_decide_eq_false in Hlt.
    rewrite Eh in Hlt by (unfold slot_ok in *; lia). destruct (Q p); [done|]. by destruct Hlt; eexists.
  - intros p Hp. rewrite find_index_None in Hf. specialize (Hf p).
    rewrite (q_heads _ _ W), Eh in Hf by done. specialize (Hf ltac:(unfold slot_ok in Hp; lia)).
    apply bool_decide_eq_false in Hf. destruct (Q p); [done|]. by destruct Hf; eexists.
Qed.

(** [runq_pop_locked] takes the head of the best queue. *)
Lemma runq_pop_queues s Q r s' :
  queues s Q -> runq_pop_locked s = (r, s') ->
  match r with
  | None => s' = s /\ forall p, slot_ok p -> Q p = []
  | Some k => exists pri l, best_queue Q pri /\ Q pri = k :: l
                /\ queues s' (with_queue Q pri l) /\ links_step s s'
  end.
Proof.
  intros W. unfold runq_pop_locked. pose proof (runq_best_spec s Q W) as Hb.
  destruct (find_index _ _) as [pri|]; [|by intros [= <- <-]].
  destruct Hb as (Hp & Hne & Hlt). pose proof (q_queue _ _ W pri Hp) as Hq.
  destruct (Q pri) as [|k l] eqn:EQ; [done|]. rewrite (iq_head _ _ _ Hq). cbn [head].
  intros [= <- <-]. exists pri, l. split; [split; [done|]; by rewrite EQ|]. split; [done|].
  assert (Q pri !! 0%nat = Some k) as Hk by (by rewrite EQ).
  destruct (unlink_at_queues s Q pri 0 k W Hp Hk) as (A & B & _).
  pose proof (iq_links _ _ _ Hq 0%nat k eq_refl) as Hl. injection Hl as Enext _ _.
  pose proof (iq_tail _ _ _ Hq) as Etail. pose proof (q_nodup _ _ W pri Hp) as Hnd. rewrite EQ in Hnd.
  cbn [before] in *. rewrite EQ in A. cbn [before] in A, B.
  unfold unlink_at in A, B. rewrite Enext in A, B |- *.
  change (g_runq_tail (s <| g_runq_head := ?h |>)) with (g_runq_tail s) in A, B.
  rewrite Etail in A, B. destruct l as [|y l]; cbn [lookup list_lookup] in *.
  - rewrite bool_decide_true in A, B by done. done.
  - rewrite bool_decide_false in A, B; [done|..].
    all: intros [= E1]; apply NoDup_cons in Hnd as [Hk' _]; apply Hk'; cbn [last] in E1.
    all: change (last (y :: l) = Some k) in E1; by apply last_Some_elem_of.
Qed.

(** ** The abstract scheduler queues

    256 FIFO lists.  [pri] gives the queue of a slot; queue operations do not change priorities. *)

Inductive runq_op : Type :=
  | RqPush (k : Z) | RqPop | RqRemove (k : Z) | RqBest.

(** The C functions; the first component is the returned slot or priority. *)
Definition runq_exec (op : runq_op) s : option Z * sched E :=
  match op with
  | RqPush k => (None, runq_push_locked k s)
  | RqPop => runq_pop_locked s
  | RqRemove k => (None, runq_remove_locked k s)
  | RqBest => (Some (runq_best_priority_locked s), s)
  end.

Definition fifo_best (Q : Z -> list Z) : option Z :=
  find_index (fun p => bool_decide (Q p <> [])) (seqZ 0 256).

Definition fifo_exec (pri : Z -> Z) (op : runq_op) (Q : Z -> list Z) : option Z * (Z -> list Z) :=
  match op with
  | RqPush k => (None, with_queue Q (pri k) (Q (pri k) ++ [k]))
  | RqPop => match fifo_best Q with
             | Some p => (head (Q p), with_queue Q p (tail (Q p)))
             | None => (None, Q)
             end
  | RqRemove k => (None, with_queue Q (pri k) (without (Q (pri k)) k))
  | RqBest => (Some (default (-1) (fifo_best Q)), Q)
  end.

(** What the callers guarantee: slots of the table, and no second push of a queued slot. *)
Definition fifo_legal (op : runq_op) (Q : Z -> list Z) : bool :=
  match op with
  | RqPush k => bool_decide (slot_ok k) && forallb (fun p => bool_decide (k ∉ Q p)) (seqZ 0 256)
  | RqRemove k => bool_decide (slot_ok k)
  | _ => true
  end.

Fixpoint runq_run (ops : list runq_op) s : list (option Z) * sched E :=
  match ops with
  | [] => ([], s)
  | op :: ops' => let '(r, s) := runq_exec op s in let '(rs, s) := runq_run ops' s in (r :: rs, s)
  end.

Fixpoint fifo_run (pri : Z -> Z) (ops : list runq_op) (Q : Z -> list Z) : list (option Z) * (Z -> list Z) :=
  match ops with
  | [] => ([], Q)
  | op :: ops' => let '(r, Q) := fifo_exec pri op Q in let '(rs, Q) := fifo_run pri ops' Q in (r :: rs, Q)
  end.

Fixpoint fifo_legal_run (pri : Z -> Z) (ops : list runq_op) (Q : Z -> list Z) : bool :=
  match ops with
  | [] => true
  | op :: ops' => fifo_legal op Q && fifo_legal_run pri ops' (fifo_exec pri op Q).2
  end.

(** The queue every slot belongs to. *)
Definition slot_queue s (k : Z) : Z := queue_of (priority (proc s k)).

Lemma fifo_best_spec Q :
  match fifo_best Q with Some p => best_queue Q p | None => forall p, slot_ok p -> Q p = [] end.
Proof.
  unfold fifo_best.
  assert (forall p, slot_ok p -> aget (seqZ 0 256) p = p) as Hget.
  { intros p Hp. unfold aget, slot_ok in *. rewrite (list_lookup_total_correct _ _ p); [done|].
    rewrite lookup_seqZ. lia. }
  destruct (find_index _ _) as [p|] eqn:Hf.
  - apply find_index_Some in Hf as (Hp & Hs & Hlt). rewrite length_seqZ in Hp.
    assert (slot_ok p) as Hpp by (unfold slot_ok; lia). rewrite Hget in Hs by done.
    apply bool_decide_eq_true in Hs. split; [done|]. split; [done|]. intros q Hq. specialize (Hlt q Hq).
    rewrite Hget in Hlt by (unfold slot_ok in *; lia). apply bool_decide_eq_false in Hlt.
    by destruct (Q q); [|destruct Hlt].
  - intros p Hp. rewrite find_index_None in Hf. specialize (Hf p).
    rewrite length_seqZ, Hget in Hf by done.
    specialize (Hf ltac:(unfold slot_ok in Hp; lia)). apply bool_decide_eq_false in Hf.
    by destruct (Q p); [|destruct Hf].
Qed.

Lemma best_queue_unique Q p q : best_queue Q p -> best_queue Q q -> p = q.
Proof.
  intros (Hp & Hne & Hlt) (Hq & Hne' & Hlt'). unfold slot_ok in *.
  destruct (Z.lt_trichotomy p q) as [H|[H|H]]; [|done|]; [destruct Hne; apply Hlt'|destruct Hne'; apply Hlt]; lia.
Qed.

Lemma runq_best_fifo s Q : queues s Q -> runq_best_priority_locked s = default (-1) (fifo_best Q).
Proof.
  intros W. unfold runq_best_priority_locked. pose proof (runq_best_spec s Q W) as A.
  pose proof (fifo_best_spec Q) as B.
  destruct (find_index _ _) as [p|], (fifo_best Q) as [q|]; simpl; [by eapply best_queue_unique| | |done].
  - destruct A as (Hp & Hne & _). by destruct Hne; apply B.
  - destruct B as (Hp & Hne & _). by destruct Hne; apply A.
Qed.

(** One operation: same result, and the abstract state follows. *)
Lemma runq_exec_refines s Q op r s' :
  queues s Q -> (forall k, slot_ok k -> 0 <= priority (proc s k)) -> fifo_legal op Q = true ->
  runq_exec op s = (r, s') ->
  r = (fifo_exec (slot_queue s) op Q).1 /\ queues s' (fifo_exec (slot_queue s) op Q).2 /\ links_step s s'.
Proof.
  intros W Hpri Hl. destruct op as [k| |k|]; cbn [fifo_legal fifo_exec runq_exec fst snd] in Hl |- *.
  - intros [= <- <-]. apply andb_true_iff in Hl as [Hk Hu]. apply bool_decide_eq_true in Hk.
    rewrite forallb_forall in Hu. split; [done|]. apply runq_push_queues; [done|done| |by apply Hpri].
    intros p Hp. apply (bool_decide_eq_true (k ∉ Q p)), Hu, list_elem_of_In, elem_of_seqZ.
    unfold slot_ok in Hp. lia.
  - intros Hr. pose proof (runq_pop_queues s Q r s' W Hr) as Hpop. pose proof (fifo_best_spec Q) as B.
    destruct r as [k|].
    + destruct Hpop as (p & l & Hb & HQ & W' & L).
      destruct (fifo_best Q) as [q|]; [|by rewrite B in HQ by apply Hb].
      assert (q = p) as -> by (by eapply best_queue_unique). simpl. by rewrite HQ.
    + destruct Hpop as [-> He]. destruct (fifo_best Q) as [q|]; [|by split; [|split; [|apply links_step_refl]]].
      destruct B as (Hp & Hne & _). by destruct Hne; apply He.
  - intros [= <- <-]. apply bool_decide_eq_true in Hl. split; [done|].
    apply runq_remove_queues; [done|done|by apply Hpri].
  - intros [= <- <-]. rewrite (runq_best_fifo s Q W). by split; [|split; [|apply links_step_refl]].
Qed.

Lemma slot_queue_links s s' k : links_step s s' -> slot_ok k -> slot_queue s' k = slot_queue s k.
Proof. intros L Hk. unfold slot_queue. by rewrite (links_only_priority s s' k L) by apply Hk. Qed.

Lemma fifo_exec_ext (pri pri' : Z -> Z) op Q :
  (forall k, slot_ok k -> pri k = pri' k) -> fifo_legal op Q = true -> fifo_exec pri op Q = fifo_exec pri' op Q.
Proof.
  intros Heq Hl. destruct op as [k| |k|]; cbn [fifo_legal fifo_exec] in *; [|done| |done].
  - apply andb_true_iff in Hl as [Hk _]. apply bool_decide_eq_true in Hk. by rewrite Heq.
  - apply bool_decide_eq_true in Hl. by rewrite Heq.
Qed.

(** C8. The intrusive run queues refine 256 FIFO lists: every legal sequence of pushes, pops,
    removes and best-priority queries returns, operation by operation, what the abstract queues
    return, and ends in a state that represents the abstract one. *)
Theorem runq_refines_fifo s0 Q0 (pri : Z -> Z) ops :
  queues s0 Q0 -> (forall k, slot_ok k -> 0 <= priority (proc s0 k) /\ pri k = slot_queue s0 k) ->
  fifo_legal_run pri ops Q0 = true ->
  (runq_run ops s0).1 = (fifo_run pri ops Q0).1 /\ queues (runq_run ops s0).2 (fifo_run pri ops Q0).2.
Proof.
  revert s0 Q0. induction ops as [|op ops IH]; intros s Q W Hpri Hl; [done|].
  cbn [runq_run fifo_run fifo_legal_run] in *.
  apply andb_true_iff in Hl as [Hl Hr].
  destruct (runq_exec op s) as [r s1] eqn:E1.
  destruct (runq_exec_refines s Q op r s1 W ltac:(intros; by apply Hpri) Hl E1) as (Hret & W1 & L1).
  assert (fifo_exec (slot_queue s) op Q = fifo_exec pri op Q) as Ex.
  { apply fifo_exec_ext; [intros k Hk; symmetry; by apply Hpri|exact Hl]. }
  rewrite Ex in Hret, W1.
  specialize (IH s1 _ W1). destruct (fifo_exec pri op Q) as [r' Q1]. simpl in *.
  destruct IH as [H1 H2]; [|done|].
  { intros k Hk. rewrite (slot_queue_links s s1 k L1 Hk).
    rewrite (links_only_priority s s1 k L1) by apply Hk. by apply Hpri. }
  destruct (runq_run ops s1), (fifo_run pri ops Q1). simpl in *. by subst.
Qed.

(** The queues of a state with a fresh table are empty. *)
Lemma queues_empty s :
  length (g_processes s) = 256%nat -> g_runq_head s = repeat None 256 -> g_runq_tail s = repeat None 256 ->
  queues s (fun _ => []).
Proof.
  intros Hl Hh Ht. split; [done|by rewrite Hh|by rewrite Ht| | |].
  - intros p Hp. assert (aget (repeat (@None Z) 256) p = None) as E0.
    { unfold aget. change (repeat (@None Z) 256) with (replicate 256 (@None Z)).
    apply list_lookup_total_correct, lookup_replicate_2. unfold slot_ok in Hp. lia. }
    split; [by rewrite Hh|by rewrite Ht|done].
  - intros. apply NoDup_nil_2.
  - intros p k _ Hk. by apply not_elem_of_nil in Hk.
Qed.
End queues.

(** Five slots of three priorities; the pops come out by priority, then in arrival order. *)
Definition ex_runq : sched unit :=
  sched_zero tt <| g_processes :=
    map (fun p => process_zero <| priority := p |>) [7; 3; 7; 300; 3] ++ repeat process_zero 251 |>.
Definition ex_runq_ops : list runq_op :=
  [RqPush 0; RqPush 1; RqPush 2; RqPush 3; RqBest; RqPush 4; RqPop; RqRemove 0; RqPop; RqPop; RqPop; RqPop].

Lemma runq_refines_fifo_witness :
  (runq_run ex_runq_ops ex_runq).1
    = [None; None; None; None; Some 3; None; Some 1; None; Some 4; Some 2; Some 3; None]
  /\ queues (runq_run ex_runq_ops ex_runq).2 (fifo_run (slot_queue ex_runq) ex_runq_ops (fun _ => [])).2.
Proof.
  assert (forallb (fun k => 0 <=? priority (proc ex_runq k)) (seqZ 0 256) = true) as Hp by (vm_compute; reflexivity).
  rewrite forallb_forall in Hp.
  destruct (runq_refines_fifo ex_runq (fun _ => []) (slot_queue ex_runq) ex_runq_ops) as [H1 H2].
  - apply queues_empty; vm_compute; reflexivity.
  - intros k Hk. split; [|reflexivity]. apply Z.leb_le, Hp, list_elem_of_In, elem_of_seqZ.
    unfold slot_ok in Hk. lia.
  - vm_compute. reflexivity.
  - split; [|exact H2]. vm_compute. reflexivity.
Defined.
