(* ===== verification/ProcessSched.v ===== *)
(** The scheduling invariant of [src/proc/process.c].

    [sched_inv None s Q]: the run queues of [s] are the lists [Q], and a process is queued exactly
    when its slot is used, its state is [PROCESS_READY] and it is not the idle process; a process in
    state [PROCESS_RUNNING] is the current one.  [sched_inv (Some k)] is the same with slot [k]
    taken out, which is how the functions work inside: they unqueue a slot, change it, and queue it
    again.  Every call of the module keeps the invariant. *)

From S2P Require Import Prelude Pmm Paging Vmm VmSpace ProcessData Process RunQueue.

(** [p'] is [p] with other resource fields. *)
Definition resources_only (p p' : process) : Prop :=
  p' = p <| p_vm_space := p_vm_space p' |> <| shm_attachment_count := shm_attachment_count p' |>
         <| open_files := open_files p' |> <| fds := fds p' |> <| next_fd := next_fd p' |> <| cwd := cwd p' |>.

(** What the scheduler relies on: the hooks of the other subsystems change resource fields only, and
    the machine is a component of the environment. *)
Class ProcessEnvLaws (E : Type) `{ProcessEnv E} := {
  env_machine_put m e : env_machine (env_put_machine m e) = m;
  shm_cleanup_fields p e : resources_only p (shm_cleanup p e).1;
  vfs_cleanup_fields p e : resources_only p (vfs_cleanup p e).1;
  vfs_inherit_fields p q e : resources_only p (vfs_inherit p q e).1;
  vfs_dup2_fields p fd q fd' e : resources_only p (vfs_dup2 p fd q fd' e).1.2;
}.

(** The fields the scheduler's decisions depend on. *)
Definition core (p : process) :=
  (used p, is_idle p, state p, priority p, (rq_next p, next_queue p, prev_queue p)).

Lemma resources_only_core p p' : resources_only p p' -> core p' = core p.
Proof. intros ->. reflexivity. Qed.

Section invariant.
Context {E : Type}.
Implicit Types (s : sched E) (k : Z) (Q : Z -> list Z).

Definition ready s k : Prop :=
  used (proc s k) = true /\ state (proc s k) = PROCESS_READY /\ g_idle s <> Some k.
Definition queued Q k : Prop := exists p, slot_ok p /\ k ∈ Q p.

(** The child pointers of [p] lead to slots other than the idle process. *)
Definition ptrs_ok s (p : process) : Prop :=
  forall c, children_head p = Some c \/ parent_next_child p = Some c -> slot_ok c /\ g_idle s <> Some c.

Record sched_inv (h : option Z) s Q : Prop := {
  si_q : queues s Q;
  si_pri : forall k, slot_ok k -> 0 <= priority (proc s k);
  si_ready : forall k, slot_ok k -> queued Q k <-> ready s k /\ h <> Some k;
  si_running : forall k, slot_ok k -> h <> Some k ->
    state (proc s k) = PROCESS_RUNNING -> used (proc s k) = true /\ g_current s = Some k;
  si_idle : forall k, g_idle s = Some k ->
    slot_ok k /\ (h <> Some k -> used (proc s k) = true /\ state (proc s k) <> PROCESS_BLOCKED);
  si_flag : forall k, slot_ok k -> h <> Some k ->
    used (proc s k) = true -> is_idle (proc s k) = bool_decide (g_idle s = Some k);
  si_cur : forall k, g_current s = Some k -> slot_ok k;
  si_ptr : forall k, slot_ok k -> ptrs_ok s (proc s k);
}.

Definition sched_ok s : Prop := exists Q, sched_inv None s Q.

Lemma queues_frame s s' Q :
  queues s Q -> length (g_processes s') = length (g_processes s) ->
  g_runq_head s' = g_runq_head s -> g_runq_tail s' = g_runq_tail s ->
  (forall k, slot_ok k -> queued Q k -> links s' k = links s k /\ priority (proc s' k) = priority (proc s k)) ->
  queues s' Q.
Proof.
  intros [W1 W2 W3 W4 W5 W6] El Eh Et Ek.
  assert (forall p k, slot_ok p -> k ∈ Q p ->
    slot_ok k /\ links s' k = links s k /\ priority (proc s' k) = priority (proc s k)) as Hm.
  { intros p k Hp Hk. destruct (W6 p k Hp Hk) as [Hs _]. split; [done|]. apply Ek; [done|by exists p]. }
  split; [by rewrite El|by rewrite Eh|by rewrite Et| |done|].
  - intros p Hp. destruct (W4 p Hp) as [H1 H2 H3]. split; [by rewrite Eh|by rewrite Et|].
    intros i k Hi. destruct (Hm p k Hp (list_elem_of_lookup_2 _ _ _ Hi)) as (_ & -> & _). by apply H3.
  - intros p k Hp Hk. destruct (Hm p k Hp Hk) as (Hs & _ & ->). by apply W6.
Qed.

(** ** Moves *)

(** Everything but the table, the queues and the two current pointers is irrelevant. *)
Lemma inv_same h s s' Q :
  sched_inv h s Q -> g_processes s' = g_processes s -> g_current s' = g_current s -> g_idle s' = g_idle s ->
  g_runq_head s' = g_runq_head s -> g_runq_tail s' = g_runq_tail s -> sched_inv h s' Q.
Proof.
  intros [I1 I2 I3 I4 I5 I8 I6 I7] Ep Ec Ei Eh Et.
  assert (forall k, proc s' k = proc s k) as Hp by (intros; unfold proc; by rewrite Ep).
  split; intros *; unfold ready, ptrs_ok in *; rewrite ?Hp, ?Ec, ?Ei; auto.
  - apply (queues_frame s); [done|by rewrite Ep|done|done|]. intros. unfold links. by rewrite Hp.
  - by apply I7.
Qed.

Lemma proc_upd s k p j :
  length (g_processes s) = 256%nat -> slot_ok k -> slot_ok j ->
  proc (set_proc k p s) j = if decide (j = k) then p else proc s j.
Proof. intros Hl Hk Hj. apply proc_set_proc; [done|done|apply Hj]. Qed.

(** A store that keeps [core]: only child pointers may change, to acceptable ones. *)
Lemma inv_upd h s Q k p' :
  sched_inv h s Q -> slot_ok k -> core p' = core (proc s k) -> ptrs_ok s p' -> sched_inv h (set_proc k p' s) Q.
Proof.
  intros [I1 I2 I3 I4 I5 I8 I6 I7] Hk [= Eu Ef Es Ep E1 E2 E3] Hptr.
  pose proof (q_len _ _ I1) as Hl.
  assert (forall j, slot_ok j -> used (proc (set_proc k p' s) j) = used (proc s j)
    /\ is_idle (proc (set_proc k p' s) j) = is_idle (proc s j)
    /\ state (proc (set_proc k p' s) j) = state (proc s j)
    /\ priority (proc (set_proc k p' s) j) = priority (proc s j)
    /\ links (set_proc k p' s) j = links s j /\ ptrs_ok s (proc (set_proc k p' s) j)) as Hj.
  { intros j Hj. unfold links. rewrite proc_upd by done. case_decide as D; [rewrite D|by auto 7].
    by rewrite Eu, Ef, Es, Ep, E1, E2, E3. }
  split.
  - apply (queues_frame s); [done|by rewrite length_set_proc|done|done|].
    intros j Hj' _. by destruct (Hj j Hj') as (_ & _ & _ & ? & ? & _).
  - intros j Hj'. destruct (Hj j Hj') as (_ & _ & _ & -> & _). by apply I2.
  - intros j Hj'. rewrite I3 by done. unfold ready. destruct (Hj j Hj') as (-> & _ & -> & _). done.
  - intros j Hj'. destruct (Hj j Hj') as (-> & _ & -> & _). by apply I4.
  - intros j Hi. destruct (I5 j Hi) as [Hj' H5]. destruct (Hj j Hj') as (-> & _ & -> & _). done.
  - intros j Hj'. destruct (Hj j Hj') as (-> & -> & _). by apply I8.
  - done.
  - intros j Hj'. by destruct (Hj j Hj') as (_ & _ & _ & _ & _ & ?).
Qed.

(** Any store into the slot that is out. *)
Lemma inv_hole s Q k p' :
  sched_inv (Some k) s Q -> slot_ok k -> 0 <= priority p' -> ptrs_ok s p' -> sched_inv (Some k) (set_proc k p' s) Q.
Proof.
  intros [I1 I2 I3 I4 I5 I8 I6 I7] Hk Hpri Hptr. pose proof (q_len _ _ I1) as Hl.
  assert (forall j, slot_ok j -> j <> k -> proc (set_proc k p' s) j = proc s j) as Hj.
  { intros j Hj D. rewrite proc_upd by done. by rewrite decide_False. }
  assert (proc (set_proc k p' s) k = p') as Hk' by (rewrite proc_upd, decide_True; done).
  split.
  - apply (queues_frame s); [done|by rewrite length_set_proc|done|done|].
    intros j Hj' Hq. unfold links. rewrite Hj; [done|done|]. intros ->. by apply I3 in Hq as [_ ?].
  - intros j Hj'. destruct (decide (j = k)) as [->|D]; [by rewrite Hk'|rewrite Hj by done; by apply I2].
  - intros j Hj'. rewrite I3 by done. unfold ready. destruct (decide (j = k)) as [->|D]; [tauto|].
    by rewrite Hj.
  - intros j Hj' Hh. rewrite Hj by congruence. by apply I4.
  - intros j Hi. destruct (I5 j Hi) as [Hj' H5]. split; [done|]. intros Hh. rewrite Hj by congruence. by apply H5.
  - intros j Hj' Hh. rewrite Hj by congruence. by apply I8.
  - done.
  - intros j Hj'. destruct (decide (j = k)) as [->|D]; [by rewrite Hk'|]. rewrite Hj by done. by apply I7.
Qed.

(** Taking out a slot that is not queued, and putting it back. *)
Lemma inv_open s Q k : sched_inv None s Q -> slot_ok k -> ~ ready s k -> sched_inv (Some k) s Q.
Proof.
  intros [I1 I2 I3 I4 I5 I8 I6 I7] Hk Hr. split; [exact I1|exact I2| | | | |exact I6|exact I7].
  - intros j Hj. rewrite I3 by done. destruct (decide (j = k)) as [->|]; naive_solver.
  - intros j Hj _. by apply I4.
  - intros j Hi. destruct (I5 j Hi) as [? H5]. split; [done|]. intros _. by apply H5.
  - intros j Hj _. by apply I8.
Qed.

Lemma inv_close s Q k :
  sched_inv (Some k) s Q -> slot_ok k -> ~ ready s k ->
  (state (proc s k) = PROCESS_RUNNING -> used (proc s k) = true /\ g_current s = Some k) ->
  (g_idle s = Some k -> used (proc s k) = true /\ state (proc s k) <> PROCESS_BLOCKED) ->
  (used (proc s k) = true -> is_idle (proc s k) = bool_decide (g_idle s = Some k)) ->
  sched_inv None s Q.
Proof.
  intros [I1 I2 I3 I4 I5 I8 I6 I7] Hk Hr Hrun Hidle Hflag. split; [exact I1|exact I2| | | | |exact I6|exact I7].
  - intros j Hj. rewrite I3 by done. destruct (decide (j = k)) as [->|]; naive_solver.
  - intros j Hj _. destruct (decide (j = k)) as [->|]; [done|]. apply I4; congruence.
  - intros j Hi. destruct (I5 j Hi) as [Hj H5]. split; [done|]. intros _.
    destruct (decide (j = k)) as [->|]; [by apply Hidle|]. apply H5. congruence.
  - intros j Hj _. destruct (decide (j = k)) as [->|]; [done|]. apply I8; congruence.
Qed.

Lemma si_ready_hole s Q k j h :
  sched_inv (Some k) s Q -> slot_ok j -> j <> k -> h <> Some j ->
  ready s j /\ h <> Some j <-> queued Q j.
Proof.
  intros I Hj D Hh. pose proof (si_ready _ _ _ I j Hj) as Hq. split; [intros [Hr _]|intros Hin].
  - apply Hq. split; [done|]. congruence.
  - split; [by apply Hq|done].
Qed.

(** Queue operations keep every other part of the invariant. *)
Lemma inv_links h h' s s' Q Q' :
  sched_inv h s Q -> links_step s s' -> queues s' Q' ->
  (forall k, slot_ok k -> queued Q' k <-> ready s k /\ h' <> Some k) ->
  (forall k, slot_ok k -> h' <> Some k -> h = Some k ->
     ~ (state (proc s k) = PROCESS_RUNNING) /\ g_idle s <> Some k /\ is_idle (proc s k) = false) ->
  sched_inv h' s' Q'.
Proof.
  intros [I1 I2 I3 I4 I5 I8 I6 I7] L W Hr Hh.
  assert (forall k, slot_ok k -> links_only (proc s k) (proc s' k)) as Hl.
  { intros k Hk. apply (lk_proc _ _ L), Hk. }
  split.
  - done.
  - intros k Hk. rewrite (Hl k Hk). by apply I2.
  - intros k Hk. rewrite Hr by done. unfold ready. rewrite (Hl k Hk), (lk_idle _ _ L). done.
  - intros k Hk Hh'. rewrite (Hl k Hk), (lk_current _ _ L). intros Hs. apply I4; [done| |done].
    intros ->. by destruct (Hh k Hk Hh' eq_refl) as (? & _).
  - intros k. rewrite (lk_idle _ _ L). intros Hi. destruct (I5 k Hi) as [Hk H5]. split; [done|].
    intros Hh'. rewrite (Hl k Hk). apply H5. intros ->. by destruct (Hh k Hk Hh' eq_refl) as (_ & ? & _).
  - intros k Hk Hh'. rewrite (Hl k Hk), (lk_idle _ _ L). intros Hu.
    destruct (decide (h = Some k)) as [Eh|]; [|by apply I8]. destruct (Hh k Hk Hh' Eh) as (_ & Hi & Hf).
    change (is_idle (proc s k) = bool_decide (g_idle s = Some k)). by rewrite bool_decide_false.
  - intros k. rewrite (lk_current _ _ L). apply I6.
  - intros k Hk. unfold ptrs_ok. rewrite (Hl k Hk), (lk_idle _ _ L). by apply I7.
Qed.

Lemma queued_with_queue Q pri l k :
  slot_ok pri -> queued (with_queue Q pri l) k <-> k ∈ l \/ (exists p, slot_ok p /\ p <> pri /\ k ∈ Q p).
Proof.
  intros Hp. unfold queued, with_queue. split.
  - intros (p & Hpp & Hk). case_decide; [by left|right; eauto].
  - intros [Hk|(p & Hpp & Hne & Hk)]; [exists pri|exists p]; (split; [done|]).
    + by rewrite decide_True.
    + by rewrite decide_False.
Qed.

Lemma inv_push s Q k :
  sched_inv (Some k) s Q -> slot_ok k -> ready s k -> is_idle (proc s k) = false ->
  sched_inv None (runq_push_locked k s)
    (with_queue Q (slot_queue s k) (Q (slot_queue s k) ++ [k])).
Proof.
  intros I Hk Hr Hf. pose proof (si_q _ _ _ I) as W.
  assert (unqueued Q k) as Hun.
  { intros p Hp Hin. by destruct (proj1 (si_ready _ _ _ I k Hk) (ex_intro _ p (conj Hp Hin))). }
  destruct (runq_push_queues s Q k W Hk Hun (si_pri _ _ _ I k Hk)) as [W' L].
  pose proof (queue_of_slot _ (si_pri _ _ _ I k Hk)) as Hpri.
  apply (inv_links (Some k) None s _ Q); [done|done|done| |].
  - intros j Hj. unfold slot_queue. rewrite queued_with_queue by done.
    rewrite elem_of_app, list_elem_of_singleton. pose proof (si_ready _ _ _ I j Hj) as Hq.
    destruct (decide (j = k)) as [->|D]; [naive_solver|].
    rewrite (si_ready_hole s Q k j None I Hj D) by done. unfold queued. split.
    + intros [[Hin| ->]|(p & Hp & _ & Hin)]; eauto; done.
    + intros (p & Hp & Hin). destruct (decide (p = queue_of (priority (proc s k)))) as [->|]; eauto.
  - intros j Hj _ [= <-]. destruct Hr as (_ & Hst & Hi). split; [by rewrite Hst|done].
Qed.

Lemma inv_remove s Q k :
  sched_inv None s Q -> slot_ok k ->
  exists Q', sched_inv (Some k) (runq_remove_locked k s) Q' /\ links_step s (runq_remove_locked k s).
Proof.
  intros I Hk. pose proof (si_q _ _ _ I) as W.
  destruct (runq_remove_queues s Q k W Hk (si_pri _ _ _ I k Hk)) as [W' L].
  pose proof (queue_of_slot _ (si_pri _ _ _ I k Hk)) as Hpri.
  eexists. split; [|exact L].
  apply (inv_links None (Some k) s _ Q); [done|done|exact W'| |done].
  intros j Hj. rewrite queued_with_queue by done. rewrite elem_without.
  pose proof (si_ready _ _ _ I j Hj) as Hq. split.
  - intros [[Hne Hin]|(p & Hp & Hne & Hin)].
    + split; [apply Hq; by exists (slot_queue s k)|congruence].
    + split; [apply Hq; by exists p|]. intros [= <-].
      by destruct Hne; destruct (q_member _ _ W p k Hp Hin).
  - intros [Hr Hne]. assert (queued Q j) as (p & Hp & Hin) by (by apply Hq).
    destruct (decide (p = queue_of (priority (proc s k)))) as [->|]; [left|right; eauto].
    split; [congruence|done].
Qed.

Lemma inv_pop s Q r s' :
  sched_inv None s Q -> runq_pop_locked s = (r, s') ->
  match r with
  | None => s' = s /\ forall p, slot_ok p -> Q p = []
  | Some k => exists pri l, best_queue Q pri /\ Q pri = k :: l /\ slot_ok k /\ ready s k /\ links_step s s'
                /\ sched_inv (Some k) s' (with_queue Q pri l)
  end.
Proof.
  intros I Hr. pose proof (si_q _ _ _ I) as W. pose proof (runq_pop_queues s Q r s' W Hr) as Hp.
  destruct r as [k|]; [|done]. destruct Hp as (pri & l & Hb & HQ & W' & L). exists pri, l.
  destruct Hb as (Hpri & Hne & Hlt).
  assert (k ∈ Q pri) as Hin by (rewrite HQ; constructor).
  destruct (q_member _ _ W pri k Hpri Hin) as [Hk Hkq].
  destruct (proj1 (si_ready _ _ _ I k Hk) (ex_intro _ pri (conj Hpri Hin))) as [Hrk _].
  pose proof (q_nodup _ _ W pri Hpri) as Hnd. rewrite HQ in Hnd. apply NoDup_cons in Hnd as [Hkl _].
  do 5 (split; [done|]). apply (inv_links None (Some k) s _ Q); [done|done|exact W'| |done].
  intros j Hj. rewrite queued_with_queue by done. pose proof (si_ready _ _ _ I j Hj) as Hq. split.
  - intros Hor. assert (queued Q j /\ j <> k) as [Hqj Hne'].
    { destruct Hor as [Hl|(p & Hp & Hd & Hl)].
      - split; [exists pri; split; [done|]; rewrite HQ; by constructor|by intros ->].
      - split; [by exists p|]. intros ->. destruct (q_member _ _ W p k Hp Hl). congruence. }
    split; [by apply Hq|congruence].
  - intros [Hrj Hne']. assert (queued Q j) as (p & Hp & Hl) by (by apply Hq).
    destruct (decide (p = pri)) as [->|]; [left|right; eauto]. rewrite HQ in Hl.
    apply elem_of_cons in Hl as [->|]; done.
Qed.

(** A store that keeps [core] and the child pointers. *)
Lemma inv_keep h s Q k p' :
  sched_inv h s Q -> slot_ok k -> core p' = core (proc s k) ->
  children_head p' = children_head (proc s k) -> parent_next_child p' = parent_next_child (proc s k) ->
  sched_inv h (set_proc k p' s) Q.
Proof.
  intros I Hk Hc E1 E2. apply inv_upd; [done|done|done|]. unfold ptrs_ok. rewrite E1, E2. by apply (si_ptr _ _ _ I).
Qed.

Lemma inv_not_idle s Q k :
  sched_inv None s Q -> slot_ok k -> used (proc s k) = true -> g_idle s <> Some k -> is_idle (proc s k) = false.
Proof. intros I Hk Hu Hi. rewrite (si_flag _ _ _ I) by done. by rewrite bool_decide_false. Qed.

Lemma inv_find_pid h s Q pid0 k :
  sched_inv h s Q -> find_by_pid_locked pid0 s = Some k ->
  slot_ok k /\ used (proc s k) = true /\ i32 (pid (proc s k)) = pid0.
Proof.
  intros I Hf. unfold find_by_pid_locked in Hf. apply find_index_Some in Hf as (Hk & Hp & _).
  rewrite (q_len _ _ (si_q _ _ _ I)) in Hk. apply andb_true_iff in Hp as [Hu Hpid].
  split; [unfold slot_ok; lia|]. split; [exact Hu|]. by apply Z.eqb_eq.
Qed.

Lemma set_proc_twice s k p q : set_proc k p (set_proc k q s) = set_proc k p s.
Proof.
  change (set_proc k p (set_proc k q s)) with (s <| g_processes := aset k p (aset k q (g_processes s)) |>).
  unfold aset. by rewrite list_insert_insert_eq.
Qed.

Lemma proc_set_same s k p : length (g_processes s) = 256%nat -> slot_ok k -> proc (set_proc k p s) k = p.
Proof. intros. rewrite proc_upd by done. by rewrite decide_True. Qed.
(** A store into an unqueued slot that stays unqueued. *)
Lemma inv_store s Q k p' :
  sched_inv None s Q -> slot_ok k -> ~ ready s k -> 0 <= priority p' -> ptrs_ok s p' ->
  (used p' = true -> state p' <> PROCESS_READY) ->
  (state p' = PROCESS_RUNNING -> used p' = true /\ g_current s = Some k) ->
  (g_idle s = Some k -> used p' = true /\ state p' <> PROCESS_BLOCKED) ->
  (used p' = true -> is_idle p' = bool_decide (g_idle s = Some k)) ->
  sched_inv None (set_proc k p' s) Q.
Proof.
  intros I Hk Hr Hp Hptr H1 H2 H3 H4. pose proof (q_len _ _ (si_q _ _ _ I)) as Hl.
  apply (inv_close _ _ k); [|done|..].
  - apply inv_hole; [by apply inv_open|done|done|done].
  - unfold ready. rewrite proc_set_same by done. intros (Hu & Hs & _). by apply H1.
  - by rewrite proc_set_same.
  - by rewrite proc_set_same.
  - by rewrite proc_set_same.
Qed.
End invariant.

(** [inv_frame] closes [sched_inv h s' Q] when [s'] differs from a known state in fields the
    invariant does not read. *)
Ltac inv_frame I := apply (inv_same _ _ _ _ I); reflexivity.

(** ** The operations *)

Section operations.
Context {E : Type} `{ProcessEnvLaws E}.
Variable process_entry_resume : Z.
Implicit Types (s : sched E) (k : Z) (Q : Z -> list Z).

(** [s'] is [s] as far as the scheduler and slot [k] are concerned. *)
Definition kids s k : option Z * option Z := (children_head (proc s k), parent_next_child (proc s k)).
Definition keeps k s s' : Prop := forall h Q, sched_inv h s Q ->
  sched_inv h s' Q /\ g_idle s' = g_idle s /\ g_current s' = g_current s /\ core (proc s' k) = core (proc s k)
  /\ (forall j, slot_ok j -> kids s' j = kids s j)
  /\ (forall j, slot_ok j -> j <> k -> proc s' j = proc s j).

Lemma keeps_refl k s : keeps k s s.
Proof. by intros h Q I. Qed.
Lemma keeps_trans k a b c : keeps k a b -> keeps k b c -> keeps k a c.
Proof.
  intros H1 H2 h Q I. destruct (H1 h Q I) as (I1 & A & B & C & D & F).
  destruct (H2 h Q I1) as (I2 & A' & B' & C' & D' & F').
  split; [done|]. split; [by rewrite A'|]. split; [by rewrite B'|]. split; [by rewrite C'|].
  split; intros j Hj; [by rewrite D', D|]. intros Hne. by rewrite F', F.
Qed.
Lemma keeps_ok k s s' : keeps k s s' -> sched_ok s -> sched_ok s'.
Proof. intros Hk [Q I]. exists Q. by apply Hk. Qed.

Lemma keeps_same k s s' :
  g_processes s' = g_processes s -> g_current s' = g_current s -> g_idle s' = g_idle s ->
  g_runq_head s' = g_runq_head s -> g_runq_tail s' = g_runq_tail s -> keeps k s s'.
Proof.
  intros E1 E2 E3 E4 E5 h Q I. split; [by apply (inv_same h s)|]. unfold kids, proc. rewrite E1. done.
Qed.

Lemma keeps_upd k s p' :
  slot_ok k -> core p' = core (proc s k) -> children_head p' = children_head (proc s k) ->
  parent_next_child p' = parent_next_child (proc s k) -> keeps k s (set_proc k p' s).
Proof.
  intros Hk Hc E1 E2 h Q I. split; [by apply inv_keep|]. split; [done|]. split; [done|].
  pose proof (q_len _ _ (si_q _ _ _ I)) as Hl. split; [by rewrite proc_set_same|].
  split; intros j Hj; [|intros Hne; rewrite proc_upd by done; by rewrite decide_False].
  unfold kids. rewrite proc_upd by done. case_decide as D; [by rewrite D, E1, E2|done].
Qed.

Lemma keeps_on_machine k f s : keeps k s (on_machine f s).
Proof. by apply keeps_same. Qed.

Lemma on_proc_eq f k s :
  on_proc f k s = set_proc k (f (proc s k) (s_env s)).1 (s <| s_env := (f (proc s k) (s_env s)).2 |>).
Proof. unfold on_proc. by destruct (f (proc s k) (s_env s)). Qed.

Lemma keeps_on_proc k f s :
  slot_ok k -> (forall p e, resources_only p (f p e).1) -> keeps k s (on_proc f k s).
Proof.
  intros Hk Hf. rewrite on_proc_eq. pose proof (Hf (proc s k) (s_env s)) as Hr.
  apply (keeps_trans _ _ (s <| s_env := (f (proc s k) (s_env s)).2 |>)); [by apply keeps_same|].
  apply keeps_upd; [done|by apply resources_only_core|by rewrite Hr|by rewrite Hr].
Qed.

Lemma space_destroy_fields p e : resources_only p (space_destroy p e).1.
Proof. unfold space_destroy. destruct (vm_space_destroy _ _). reflexivity. Qed.

Lemma keeps_free_resources k s : slot_ok k -> keeps k s (free_process_resources_locked k s).
Proof.
  intros Hk. unfold free_process_resources_locked.
  set (s1 := s <| s_env := _ |>). apply (keeps_trans _ _ s1); [by apply keeps_same|].
  eapply keeps_trans; [apply (keeps_on_proc k _ s1 Hk vfs_cleanup_fields)|].
  eapply keeps_trans; [apply (keeps_on_proc k _ _ Hk shm_cleanup_fields)|].
  eapply keeps_trans; [apply (keeps_on_proc k _ _ Hk space_destroy_fields)|].
  set (s4 := on_proc space_destroy k _). clearbody s4. cbv zeta.
  destruct (kernel_stack (proc s4 k) =? 0); [apply keeps_refl|].
  eapply keeps_trans; [|by apply keeps_upd].
  destruct (kernel_stack_from_pmm (proc s4 k)); [|by apply keeps_same].
  destruct (kernel_stack_phys (proc s4 k) =? 0); [apply keeps_refl|apply keeps_on_machine].
Qed.

Lemma keeps_setup_context k s rc s' :
  slot_ok k -> setup_initial_context_locked process_entry_resume k s = (rc, s') -> keeps k s s'.
Proof.
  intros Hk. unfold setup_initial_context_locked.
  destruct (_ =? 0); intros [= <- <-]; [apply keeps_refl|].
  eapply keeps_trans; [apply keeps_on_machine|by apply keeps_upd].
Qed.

Lemma keeps_alloc_stack k s rc s' :
  slot_ok k -> alloc_process_stack_locked k s = (rc, s') -> keeps k s s'.
Proof.
  intros Hk. unfold alloc_process_stack_locked. destruct (pmm_alloc_pages _ _) as [ph pm].
  destruct (ph =? 0); [intros [= <- <-]; apply keeps_on_machine|].
  destruct (_ =? 0); intros [= <- <-]; [apply keeps_on_machine|].
  eapply keeps_trans; [apply keeps_on_machine|by apply keeps_upd].
Qed.

Lemma keeps_init_space k tmpl s rc s' : slot_ok k -> init_space k tmpl s = (rc, s') -> keeps k s s'.
Proof.
  intros Hk. assert (create_space k s = (rc, s') -> keeps k s s') as Hc.
  { unfold create_space. destruct (vm_space_create _ _) as [[rc1 sp] m]. intros [= <- <-].
    eapply keeps_trans; [apply keeps_on_machine|by apply keeps_upd]. }
  unfold init_space. destruct tmpl as [t|]; [|done]. destruct (_ =? 0); [done|]. intros [= <- <-].
  by apply keeps_upd.
Qed.

(** A blocked process other than idle becomes ready. *)
Lemma inv_wake s Q k :
  sched_inv None s Q -> slot_ok k -> used (proc s k) = true -> state (proc s k) = PROCESS_BLOCKED ->
  sched_ok (runq_push_locked k (upd k (set_state PROCESS_READY THREAD_READY) s)).
Proof.
  intros I Hk Hu Hs. pose proof (q_len _ _ (si_q _ _ _ I)) as Hl.
  assert (g_idle s <> Some k) as Hi by (intros Hi; destruct (si_idle _ _ _ I k Hi) as [_ []]; done).
  pose proof (inv_not_idle s Q k I Hk Hu Hi) as Hf.
  eexists. apply inv_push; [|done|..].
  - unfold upd. apply inv_hole; [|done|exact (si_pri _ _ _ I k Hk)|exact (si_ptr _ _ _ I k Hk)].
    apply inv_open; [done|done|]. intros (_ & Hr & _). congruence.
  - unfold ready, upd. rewrite proc_set_same by done. done.
  - unfold upd. by rewrite proc_set_same.
Qed.

Lemma ok_wake_parent s k : sched_ok s -> sched_ok (wake_parent_if_waiting_locked k s).
Proof.
  intros [Q I]. unfold wake_parent_if_waiting_locked. destruct (_ =? 0); [by exists Q|].
  destruct (find_by_pid_locked _ s) as [par|] eqn:Hf; [|by exists Q].
  destruct (inv_find_pid _ _ _ _ _ I Hf) as (Hp & Hu & _).
  case_bool_decide as Hs; [|by exists Q]. by apply (inv_wake s Q).
Qed.

(** [mark_zombie_locked] stores a zombie record, then looks for the parent. *)
Lemma mark_zombie_shape s k st :
  length (g_processes s) = 256%nat -> slot_ok k ->
  state (proc s k) <> PROCESS_ZOMBIE -> state (proc s k) <> PROCESS_DEAD ->
  exists p' e, mark_zombie_locked k st s = wake_parent_if_waiting_locked k (set_proc k p' (s <| s_env := e |>))
    /\ state p' = PROCESS_ZOMBIE /\ wait_status p' = st /\ ppid p' = ppid (proc s k) /\ pid p' = pid (proc s k)
    /\ used p' = used (proc s k) /\ priority p' = priority (proc s k) /\ is_idle p' = is_idle (proc s k)
    /\ children_head p' = children_head (proc s k) /\ parent_next_child p' = parent_next_child (proc s k).
Proof.
  intros Hl Hk H1 H2. unfold mark_zombie_locked. rewrite !bool_decide_false by done. cbn [orb].
  rewrite !on_proc_eq. pose proof (vfs_cleanup_fields (proc s k) (s_env s)) as F1.
  destruct (vfs_cleanup (proc s k) (s_env s)) as [p1 e1]. cbn [fst snd] in *.
  rewrite proc_set_same by done. cbn [s_env set_proc field_set].
  pose proof (shm_cleanup_fields p1 e1) as F2.
  change (s_env (set_proc k p1 (s <| s_env := e1 |>))) with e1.
  destruct (shm_cleanup p1 e1) as [p2 e2]. cbn [fst snd] in *.
  change (set_proc k p1 (s <| s_env := e1 |>) <| s_env := e2 |>) with (set_proc k p1 (s <| s_env := e2 |>)).
  rewrite set_proc_twice. unfold upd. rewrite set_proc_twice, proc_set_same by done.
  eexists _, e2. split; [reflexivity|]. rewrite F2, F1. done.
Qed.

Lemma ok_mark_zombie s k st : sched_ok s -> slot_ok k -> ~ ready s k -> sched_ok (mark_zombie_locked k st s).
Proof.
  intros [Q I] Hk Hr. pose proof (q_len _ _ (si_q _ _ _ I)) as Hl.
  destruct (decide (state (proc s k) = PROCESS_ZOMBIE)) as [Hz|Hz].
  { unfold mark_zombie_locked. rewrite bool_decide_true by done. by exists Q. }
  destruct (decide (state (proc s k) = PROCESS_DEAD)) as [Hd|Hd].
  { unfold mark_zombie_locked. rewrite (bool_decide_true _ Hd), orb_true_r. by exists Q. }
  destruct (mark_zombie_shape s k st Hl Hk Hz Hd) as (p' & e & -> & Es & _ & _ & _ & Eu & Ep & Ef & E1 & E2).
  apply ok_wake_parent. exists Q.
  assert (sched_inv None (s <| s_env := e |>) Q) as I' by (inv_frame I).
  apply inv_store; [done|done|done|rewrite Ep; exact (si_pri _ _ _ I k Hk)| |by rewrite Es|by rewrite Es|..].
  - unfold ptrs_ok. rewrite E1, E2. exact (si_ptr _ _ _ I k Hk).
  - rewrite Es, Eu. intros Hi. by destruct (si_idle _ _ _ I k Hi) as [_ [? _]].
  - rewrite Eu, Ef. by apply (si_flag _ _ _ I).
Qed.

(** ** Children *)

(** A store of child pointers. *)
Lemma inv_ptr_upd h s Q k p' :
  sched_inv h s Q -> slot_ok k -> core p' = core (proc s k) -> ptrs_ok s p' ->
  sched_inv h (set_proc k p' s) Q /\ g_idle (set_proc k p' s) = g_idle s.
Proof. intros I Hk Hc Hp. split; [by apply inv_upd|done]. Qed.

Lemma ptrs_ok_idle s s' p : g_idle s' = g_idle s -> ptrs_ok s p -> ptrs_ok s' p.
Proof. unfold ptrs_ok. by intros ->. Qed.

Lemma inv_link_child h s Q par child :
  sched_inv h s Q -> slot_ok par -> slot_ok child -> g_idle s <> Some child ->
  let s' := parent_link_child_locked par child s in
  sched_inv h s' Q /\ g_idle s' = g_idle s /\ g_current s' = g_current s /\ core (proc s' child) = core (proc s child).
Proof.
  intros I Hp Hc Hi. cbv zeta. unfold parent_link_child_locked.
  assert (forall s0 k (f : process -> process), sched_inv h s0 Q -> slot_ok k -> (forall p, core (f p) = core p) ->
    core (proc (upd k f s0) child) = core (proc s0 child)) as Hcore.
  { intros s0 k f I0 Hk Hf. unfold upd. rewrite proc_upd by (done || apply (q_len _ _ (si_q _ _ _ I0))).
    case_decide as D; [by rewrite D, Hf|done]. }
  assert (sched_inv h (upd child (fun c => c <| parent_next_child := children_head (proc s par) |>) s) Q) as I1.
  { apply inv_upd; [done|done|done|]. intros c [Hx|Hx]; [by apply (si_ptr _ _ _ I child Hc); left|].
    by apply (si_ptr _ _ _ I par Hp); left. }
  set (s1 := upd child _ s) in *.
  assert (core (proc s1 child) = core (proc s child)) as C1 by (by apply Hcore).
  assert (sched_inv h (upd par (fun p => p <| children_head := Some child |>) s1) Q) as I2.
  { apply inv_upd; [done|done|done|]. intros c [[= <-]|Hx]; [done|]. by apply (si_ptr _ _ _ I1 par Hp); right. }
  set (s2 := upd par _ s1) in *.
  assert (core (proc s2 child) = core (proc s1 child)) as C2 by (by apply Hcore).
  assert (sched_inv h (upd child (fun c => c <| parent := Some par |>) s2) Q) as I3 by (by apply inv_keep).
  set (s3 := upd child _ s2) in *.
  assert (core (proc s3 child) = core (proc s2 child)) as C3 by (by apply Hcore).
  assert (g_idle s3 = g_idle s /\ g_current s3 = g_current s) as [G1 G2] by done.
  assert (core (proc s3 child) = core (proc s child)) as G3 by congruence.
  clearbody s3. rewrite <- G1, <- G2, <- G3.
  destruct (_ <? _); [|done]. split; [by apply inv_keep|]. split; [done|]. split; [done|]. by apply Hcore.
Qed.

Lemma inv_unlink_walk par child Q : forall fuel prev cur s,
  sched_inv None s Q -> slot_ok par -> slot_ok child ->
  (forall p, prev = Some p -> slot_ok p) -> (forall c, cur = Some c -> slot_ok c) ->
  sched_inv None (unlink_walk fuel par child prev cur s) Q
  /\ core (proc (unlink_walk fuel par child prev cur s) child) = core (proc s child)
  /\ g_idle (unlink_walk fuel par child prev cur s) = g_idle s
  /\ g_current (unlink_walk fuel par child prev cur s) = g_current s.
Proof.
  induction fuel as [|fuel IH]; intros prev cur s I Hp Hc Hprev Hcur; [done|]. simpl.
  destruct cur as [c|]; [|done]. pose proof (Hcur c eq_refl) as Hcs.
  destruct (c =? child).
  - assert (forall x, parent_next_child (proc s c) = Some x -> slot_ok x /\ g_idle s <> Some x) as Hnext.
    { intros x Hx. apply (si_ptr _ _ _ I c Hcs). by right. }
    set (s1 := match prev with Some p => _ | None => _ end).
    assert (sched_inv None s1 Q /\ core (proc s1 child) = core (proc s child) /\ g_idle s1 = g_idle s
            /\ g_current s1 = g_current s) as (I1 & E1 & E2 & E3).
    { pose proof (q_len _ _ (si_q _ _ _ I)) as Hl. unfold s1. destruct prev as [p|].
      - pose proof (Hprev p eq_refl) as Hps. split; [|split; [|done]].
        + apply inv_upd; [done|done|done|]. intros x [Hx|Hx]; [by apply (si_ptr _ _ _ I p Hps); left|by apply Hnext].
        + unfold upd. rewrite proc_upd by done. case_decide as D; [by rewrite D|done].
      - split; [|split; [|done]].
        + apply inv_upd; [done|done|done|]. intros x [Hx|Hx]; [by apply Hnext|by apply (si_ptr _ _ _ I par Hp); right].
        + unfold upd. rewrite proc_upd by done. case_decide as D; [by rewrite D|done]. }
    clearbody s1. split; [|split; [|done]].
    + apply inv_upd; [done|done|done|]. intros x [Hx|Hx]; [|done]. by apply (si_ptr _ _ _ I1 child Hc); left.
    + unfold upd. rewrite proc_set_same by (done || apply (q_len _ _ (si_q _ _ _ I1))). done.
  - apply IH; [done|done|done|by intros ? [= <-]|]. intros x Hx. apply (si_ptr _ _ _ I c Hcs). by right.
Qed.

Lemma remove_child_entry_keeps child p :
  core (remove_child_entry child p) = core p /\ children_head (remove_child_entry child p) = children_head p
  /\ parent_next_child (remove_child_entry child p) = parent_next_child p.
Proof. unfold remove_child_entry. by destruct (find_index _ _). Qed.

Lemma inv_unlink_child s Q par child :
  sched_inv None s Q -> slot_ok par -> slot_ok child ->
  sched_inv None (parent_unlink_child_locked par child s) Q
  /\ core (proc (parent_unlink_child_locked par child s) child) = core (proc s child)
  /\ g_idle (parent_unlink_child_locked par child s) = g_idle s
  /\ g_current (parent_unlink_child_locked par child s) = g_current s.
Proof.
  intros I Hp Hc. unfold parent_unlink_child_locked.
  destruct (inv_unlink_walk par child Q (Z.to_nat PROCESS_MAX_COUNT + 1) None (children_head (proc s par)) s)
    as (I1 & E1 & E2 & E3); [done|done|done|done| |].
  { intros c Hx. apply (si_ptr _ _ _ I par Hp). by left. }
  set (s1 := unlink_walk _ _ _ _ _ s) in *. clearbody s1.
  destruct (remove_child_entry_keeps child (proc s1 par)) as (A & B & C).
  split; [by apply inv_keep|]. split; [|done].
  unfold upd. rewrite proc_upd by (done || apply (q_len _ _ (si_q _ _ _ I1))).
  case_decide as D; [by rewrite A, <- D|done].
Qed.

(** ** Creation *)

Lemma new_process_core s k nm entry par :
  core (new_process s k nm entry par)
  = (true, false, PROCESS_READY, match par with Some (_, q) => priority q | None => PROCESS_DEFAULT_PRIORITY end,
     (None, None, None))
  /\ children_head (new_process s k nm entry par) = None /\ parent_next_child (new_process s k nm entry par) = None.
Proof. done. Qed.

Lemma alloc_slot_spec s k :
  length (g_processes s) = 256%nat -> alloc_process_slot_locked s = Some k ->
  slot_ok k /\ used (proc s k) = false.
Proof.
  intros Hl Hf. unfold alloc_process_slot_locked in Hf. apply find_index_Some in Hf as (Hk & Hu & _).
  rewrite Hl in Hk. split; [unfold slot_ok; lia|]. by apply negb_true_iff in Hu.
Qed.

(** A slot that is taken out and marked unused goes back as it is. *)
Lemma ok_release s Q k :
  sched_inv (Some k) s Q -> slot_ok k -> g_idle s <> Some k -> state (proc s k) = PROCESS_READY ->
  sched_ok (upd k (fun p => p <| used := false |>) s).
Proof.
  intros I Hk Hi Hs. pose proof (q_len _ _ (si_q _ _ _ I)) as Hl. exists Q. apply (inv_close _ _ k); [|done|..].
  - unfold upd. apply inv_hole; [done|done|by apply (si_pri _ _ _ I)|by apply (si_ptr _ _ _ I)].
  - unfold ready, upd. rewrite proc_set_same by done. naive_solver.
  - unfold upd. rewrite proc_set_same by done. change (state (proc s k) = PROCESS_RUNNING -> used (proc s k <| used := false |>) = true /\ g_current s = Some k).
    by rewrite Hs.
  - done.
  - unfold upd. by rewrite proc_set_same.
Qed.

Lemma ok_create s nm entry par r s' :
  sched_ok s -> (forall i, par = Some i -> slot_ok i) ->
  create_kernel_process_locked process_entry_resume nm entry par s = (r, s') ->
  sched_ok s' /\ g_current s' = g_current s /\ g_idle s' = g_idle s
  /\ (forall k, r = Some k -> slot_ok k /\ used (proc s' k) = true /\ state (proc s' k) = PROCESS_READY
       /\ (par = None -> (forall j, slot_ok j -> kids s j = (None, None)) ->
             forall j, slot_ok j -> kids s' j = (None, None))).
Proof.
  intros [Q I] Hpar. pose proof (q_len _ _ (si_q _ _ _ I)) as Hl. unfold create_kernel_process_locked.
  destruct (alloc_process_slot_locked s) as [k|] eqn:Ha; [|intros [= <- <-]; split; [by exists Q|done]].
  destruct (alloc_slot_spec s k Hl Ha) as [Hk Hu].
  assert (g_idle s <> Some k) as Hi.
  { intros Hi. destruct (si_idle _ _ _ I k Hi) as [_ [Hx _]]; [done|congruence]. }
  set (parp := option_map _ par). destruct (new_process_core s k nm entry parp) as (Hc & Hc1 & Hc2).
  set (np := new_process s k nm entry parp) in *. clearbody np.
  set (s1 := set_proc k np s <| g_next_pid := u32 (g_next_pid s + 1) |>).
  assert (sched_inv (Some k) s1 Q) as I1.
  { assert (sched_inv (Some k) (set_proc k np s) Q) as I'; [|inv_frame I'].
    apply inv_hole; [|done| |].
    - apply inv_open; [done|done|]. unfold ready. rewrite Hu. naive_solver.
    - injection Hc as _ _ _ -> _ _ _. unfold parp. destruct par as [i|]; simpl; [|done].
      apply (si_pri _ _ _ I), Hpar. done.
    - unfold ptrs_ok. rewrite Hc1, Hc2. naive_solver. }
  assert (core (proc s1 k) = core np) as Hc1'.
  { change (proc s1 k) with (proc (set_proc k np s) k). by rewrite proc_set_same. }
  set (s2 := match parp with Some _ => _ | None => s1 end).
  assert (keeps k s1 s2) as K2.
  { unfold s2. destruct parp as [[i q]|]; [|apply keeps_refl]. apply keeps_on_proc; [done|].
    intros. apply vfs_inherit_fields. }
  clearbody s2. set (s3 := upd k (fun p => p <| name := _ |>) s2).
  assert (keeps k s1 s3) as K3 by (eapply keeps_trans; [exact K2|by apply keeps_upd]). clearbody s3.
  destruct (init_space k (template_space s3 parp) s3) as [rc s4] eqn:E4.
  pose proof (keeps_trans _ _ _ _ K3 (keeps_init_space k _ _ _ _ Hk E4)) as K4.
  destruct (negb (rc =? 0)).
  { intros [= <- <-]. destruct (K4 _ _ I1) as (I4 & A & B & C & D).
    split; [|by split; [|split]]. apply (ok_release s4 Q); [done|done|by rewrite A|]. rewrite Hc1', Hc in C. by injection C. }
  set (s5 := upd k (fun p => p <| va_space := true |>) s4).
  assert (keeps k s1 s5) as K5 by (eapply keeps_trans; [exact K4|by apply keeps_upd]). clearbody s5.
  destruct (alloc_process_stack_locked k s5) as [rc6 s6] eqn:E6.
  pose proof (keeps_trans _ _ _ _ K5 (keeps_alloc_stack k _ _ _ Hk E6)) as K6.
  destruct (negb (rc6 =? 0)).
  { intros [= <- <-].
    pose proof (keeps_trans _ _ _ _ K6 (keeps_on_proc k _ s6 Hk space_destroy_fields)) as K7.
    destruct (K7 _ _ I1) as (I7 & A & B & C & D).
    split; [|by split; [|split]]. apply (ok_release _ Q); [done|done|by rewrite A|]. rewrite Hc1', Hc in C. by injection C. }
  destruct (setup_initial_context_locked _ k s6) as [rc8 s8] eqn:E8.
  pose proof (keeps_trans _ _ _ _ K6 (keeps_setup_context k _ _ _ Hk E8)) as K8.
  destruct (negb (rc8 =? 0)).
  { intros [= <- <-].
    pose proof (keeps_trans _ _ _ _ K8 (keeps_free_resources k s8 Hk)) as K9.
    destruct (K9 _ _ I1) as (I9 & A & B & C & D).
    split; [|by split; [|split]]. apply (ok_release _ Q); [done|done|by rewrite A|]. rewrite Hc1', Hc in C. by injection C. }
  set (s9 := upd k _ s8).
  assert (keeps k s1 s9) as K9 by (eapply keeps_trans; [exact K8|by apply keeps_upd]). clearbody s9.
  destruct (K9 _ _ I1) as (I9 & A9 & B9 & C9 & D9 & _).
  set (s10 := match par with Some _ => _ | None => s9 end).
  assert (sched_inv (Some k) s10 Q /\ g_idle s10 = g_idle s9 /\ g_current s10 = g_current s9
          /\ core (proc s10 k) = core (proc s9 k)) as (I10 & A10 & B10 & C10).
  { unfold s10. destruct par as [i|]; [|done]. apply inv_link_child; [done|by apply Hpar|done|by rewrite A9]. }
  assert (par = None -> s10 = s9) as E10 by (by unfold s10; intros ->).
  clearbody s10. intros [= <- <-].
  assert (core (proc s10 k) = core np) as C by congruence. rewrite Hc in C.
  injection C as Cu Cf Cs _ _ _ _.
  assert (ready s10 k) as Hr by (split; [done|]; split; [done|by rewrite A10, A9]).
  pose proof (inv_push s10 Q k I10 Hk Hr Cf) as I11.
  destruct (runq_push_queues s10 Q k (si_q _ _ _ I10) Hk) as [_ L];
    [|by apply (si_pri _ _ _ I10)|].
  { intros p Hp Hin. by destruct (proj1 (si_ready _ _ _ I10 k Hk) (ex_intro _ p (conj Hp Hin))). }
  split; [by eexists|]. rewrite (lk_current _ _ L), (lk_idle _ _ L).
  split; [by rewrite B10, B9|]. split; [by rewrite A10, A9|].
  intros ? [= <-]. split; [done|]. rewrite (lk_proc _ _ L k) by apply Hk. split; [done|]. split; [done|].
  intros Ep Hnone j Hj. unfold kids. rewrite (lk_proc _ _ L j) by apply Hj.
  change (kids s10 j = (None, None)). rewrite E10, D9 by done. unfold kids.
  change (proc s1 j) with (proc (set_proc k np s) j). rewrite proc_upd by done. case_decide; [by rewrite Hc1, Hc2|].
  by apply Hnone.
Qed.

Lemma ok_spawn s nm entry : sched_ok s -> sched_ok (process_spawn_kernel process_entry_resume nm entry s).2.
Proof.
  intros Hok. unfold process_spawn_kernel. destruct (entry =? 0); [done|].
  destruct (create_kernel_process_locked _ nm entry (g_current s) s) as [r s'] eqn:Ec.
  eapply (ok_create s nm entry (g_current s)) in Ec; [by destruct Ec|done|].
  destruct Hok as [Q I]. apply (si_cur _ _ _ I).
Qed.

Lemma zero_table s : g_processes s = repeat process_zero 256 -> forall k, slot_ok k -> proc s k = process_zero.
Proof.
  intros Ep k Hk. unfold proc, aget. rewrite Ep. change (repeat process_zero 256) with (replicate 256 process_zero).
  apply list_lookup_total_correct, lookup_replicate_2. unfold slot_ok in Hk. lia.
Qed.

(** The tables [process_init] starts from. *)
Lemma ok_fresh s :
  g_processes s = repeat process_zero 256 -> g_runq_head s = repeat None 256 -> g_runq_tail s = repeat None 256 ->
  g_current s = None -> g_idle s = None -> sched_inv None s (fun _ => []).
Proof.
  intros Ep Eh Et Ec Ei.
  pose proof (zero_table s Ep) as Hz.
  split.
  - apply queues_empty; [by rewrite Ep, repeat_length|done|done].
  - intros k Hk. by rewrite Hz.
  - intros k Hk. unfold ready. rewrite Hz by done. split; [|naive_solver].
    intros (p & _ & Hin). by apply not_elem_of_nil in Hin.
  - intros k Hk _. by rewrite Hz.
  - intros k. by rewrite Ei.
  - intros k Hk _. by rewrite Hz.
  - intros k. by rewrite Ec.
  - intros k Hk. rewrite Hz by done. intros c [Hc|Hc]; done.
Qed.

Lemma remove_walk_idle x target pri : forall fuel prev cur s,
  runq_remove_walk fuel target pri prev cur (s <| g_idle := x |>)
  = runq_remove_walk fuel target pri prev cur s <| g_idle := x |>.
Proof.
  induction fuel as [|fuel IH]; intros prev cur s; [done|]. simpl.
  destruct cur as [c|]; [|done]. destruct (c =? target); [|apply IH].
  change (proc (s <| g_idle := x |>) c) with (proc s c).
  destruct prev, (rq_next (proc s c)); cbv zeta; case_bool_decide as D1; case_bool_decide as D2; try done.
Qed.

Lemma runq_remove_idle k x s : runq_remove_locked k (s <| g_idle := x |>) = runq_remove_locked k s <| g_idle := x |>.
Proof. apply remove_walk_idle. Qed.

(** No slot has a child. *)
Definition childless s : Prop := forall j, slot_ok j -> kids s j = (None, None).

Lemma init_tables_inv e :
  sched_inv None (init_tables (sched_zero e)) (fun _ => []) /\ childless (init_tables (sched_zero e))
  /\ forall j, slot_ok j -> is_idle (proc (init_tables (sched_zero e)) j) = false.
Proof.
  assert (g_processes (init_tables (sched_zero e)) = repeat process_zero 256) as Ep by done.
  split; [by apply ok_fresh|]. split; intros j Hj; [unfold kids|]; by rewrite (zero_table _ Ep j Hj).
Qed.

Lemma bootstrap_process_fields mypid now k p :
  used (bootstrap_process mypid now k p) = true /\ is_idle (bootstrap_process mypid now k p) = is_idle p
  /\ state (bootstrap_process mypid now k p) = PROCESS_BLOCKED
  /\ priority (bootstrap_process mypid now k p) = PROCESS_DEFAULT_PRIORITY
  /\ children_head (bootstrap_process mypid now k p) = children_head p
  /\ parent_next_child (bootstrap_process mypid now k p) = parent_next_child p.
Proof. done. Qed.

(** A blocked process is stored in an unused slot. *)
Lemma inv_store_blocked s Q k p :
  sched_inv None s Q -> childless s -> slot_ok k -> used (proc s k) = false -> g_idle s = None ->
  is_idle p = false -> state p = PROCESS_BLOCKED -> 0 <= priority p -> children_head p = None -> parent_next_child p = None ->
  sched_inv None (set_proc k p s) Q /\ childless (set_proc k p s).
Proof.
  intros I K Hk Hu Hi Hf Hs Hp H1 H2. pose proof (q_len _ _ (si_q _ _ _ I)) as Hl. split.
  - apply inv_store; try done; [unfold ready; rewrite Hu; naive_solver|unfold ptrs_ok; rewrite H1, H2; naive_solver
      |by rewrite Hs|by rewrite Hs|by rewrite Hi|by rewrite Hf, Hi].
  - intros j Hj. unfold kids. rewrite proc_upd by done. case_decide; [by rewrite H1, H2|by apply K].
Qed.

Lemma inv_set_current s Q k :
  sched_inv None s Q -> slot_ok k -> g_current s = None -> sched_inv None (s <| g_current := Some k |>) Q.
Proof.
  intros [I1 I2 I3 I4 I5 I8 I6 I7] Hk Hc.
  split; [by apply (queues_frame s)|exact I2|exact I3| |exact I5|exact I8| |exact I7].
  - intros j Hj Hh Hs. destruct (I4 j Hj Hh Hs) as [_ Hj']. by rewrite Hc in Hj'.
  - by intros ? [= <-].
Qed.

(** A ready slot becomes the idle process and leaves its queue. *)
Lemma inv_make_idle s Q i :
  sched_inv None s Q -> childless s -> slot_ok i -> used (proc s i) = true -> state (proc s i) = PROCESS_READY ->
  g_idle s = None ->
  sched_ok (runq_remove_locked i (upd i (fun p => p <| is_idle := true |>) s <| g_idle := Some i |>)).
Proof.
  intros I K Hi Hu Hs Ei. pose proof (q_len _ _ (si_q _ _ _ I)) as Hl. rewrite runq_remove_idle.
  set (s2 := upd i (fun p => p <| is_idle := true |>) s).
  assert (forall j, slot_ok j -> proc s2 j = if decide (j = i) then proc s i <| is_idle := true |> else proc s j) as P2.
  { intros j Hj. unfold s2, upd. by rewrite proc_upd. }
  assert (queues s2 Q) as W2.
  { apply (queues_frame s); [apply (si_q _ _ _ I)|by unfold s2, upd; rewrite length_set_proc|done|done|].
    intros j Hj _. unfold links. rewrite P2 by done. case_decide as D; [by rewrite D|done]. }
  assert (0 <= priority (proc s2 i)) as Hp2.
  { rewrite P2, decide_True by done. exact (si_pri _ _ _ I i Hi). }
  destruct (runq_remove_queues s2 Q i W2 Hi Hp2) as [W3 L3].
  set (pri := queue_of (priority (proc s2 i))) in *.
  assert (slot_ok pri) as Hpri by (by apply queue_of_slot).
  assert (forall j, slot_ok j -> used (proc (runq_remove_locked i s2) j) = used (proc s j)
    /\ state (proc (runq_remove_locked i s2) j) = state (proc s j)
    /\ priority (proc (runq_remove_locked i s2) j) = priority (proc s j)
    /\ is_idle (proc (runq_remove_locked i s2) j) = (if decide (j = i) then true else is_idle (proc s j))
    /\ kids (runq_remove_locked i s2) j = (None, None)) as P3.
  { intros j Hj. unfold kids. rewrite (lk_proc _ _ L3 j) by apply Hj. rewrite P2 by done.
    pose proof (K j Hj) as Kj. case_decide as D; [rewrite D in *|]; by repeat split. }
  assert (g_current (runq_remove_locked i s2) = g_current s) as Ec by (by rewrite (lk_current _ _ L3)).
  set (s3 := runq_remove_locked i s2) in *. clearbody s3 s2.
  eexists. split; [apply (queues_frame s3); [exact W3|done..]| | | | | | |].
  - intros k Hk. change (0 <= priority (proc s3 k)). destruct (P3 k Hk) as (_ & _ & -> & _). by apply (si_pri _ _ _ I).
  - intros k Hk. rewrite queued_with_queue by done. rewrite elem_without. unfold ready.
    change (proc (s3 <| g_idle := Some i |>) k) with (proc s3 k).
    change (g_idle (s3 <| g_idle := Some i |>)) with (Some i).
    destruct (P3 k Hk) as (-> & -> & _). pose proof (si_ready _ _ _ I k Hk) as Hr. unfold ready in Hr.
    rewrite Ei in Hr. split.
    + intros Hor. assert (queued Q k /\ k <> i) as [Hq Hne].
      { destruct Hor as [[? ?]|(p & Hp & Hne & Hin)]; [split; [by exists pri|done]|split; [by exists p|]].
        intros ->. by destruct Hne; destruct (q_member _ _ W2 p i Hp Hin). }
      apply Hr in Hq as [(? & ? & _) _]. split; [|done]. split; [done|]. split; [done|]. congruence.
    + intros [(Hu' & Hs' & Hne) _]. assert (queued Q k) as (p & Hp & Hin) by (by apply Hr).
      destruct (decide (p = pri)) as [->|]; [left; split; [congruence|done]|right; eauto].
  - intros k Hk _. change (proc (s3 <| g_idle := Some i |>) k) with (proc s3 k).
    destruct (P3 k Hk) as (-> & -> & _). intros Hks.
    change (g_current (s3 <| g_idle := Some i |>)) with (g_current s3). rewrite Ec. by apply (si_running _ _ _ I).
  - intros k [= <-]. split; [done|]. intros _. change (proc (s3 <| g_idle := Some i |>) i) with (proc s3 i).
    destruct (P3 i Hi) as (-> & -> & _). by rewrite Hs.
  - intros k Hk _. change (proc (s3 <| g_idle := Some i |>) k) with (proc s3 k).
    change (g_idle (s3 <| g_idle := Some i |>)) with (Some i).
    destruct (P3 k Hk) as (-> & _ & _ & -> & _). intros Hku. case_decide as D; [by rewrite D, bool_decide_true|].
    rewrite bool_decide_false by congruence. by apply (inv_not_idle s Q); [..|rewrite Ei].
  - intros k. change (g_current s3 = Some k -> slot_ok k). rewrite Ec. apply (si_cur _ _ _ I).
  - intros k Hk c. change (proc (s3 <| g_idle := Some i |>) k) with (proc s3 k).
    destruct (P3 k Hk) as (_ & _ & _ & _ & [= E1 E2]). rewrite E1, E2. naive_solver.
Qed.

Lemma ok_create_idle s :
  sched_ok s -> childless s -> g_idle s = None -> sched_ok (create_idle process_entry_resume s).
Proof.
  intros Hok K Hi. unfold create_idle.
  destruct (create_kernel_process_locked _ _ _ _ s) as [r s1] eqn:E1.
  apply ok_create in E1 as ([Q1 I1] & _ & Ei1 & Hr1); [|done|done].
  destruct r as [i|]; [|by exists Q1].
  destruct (Hr1 i eq_refl) as (Hs & Hu & Hst & K1). specialize (K1 eq_refl K).
  apply (inv_make_idle s1 Q1); [done|done|done|done|done|by rewrite Ei1].
Qed.

Lemma ok_install_bootstrap s k p :
  sched_inv None s (fun _ => []) -> childless s -> g_current s = None -> g_idle s = None ->
  slot_ok k -> used (proc s k) = false ->
  is_idle p = false -> state p = PROCESS_BLOCKED -> 0 <= priority p -> children_head p = None -> parent_next_child p = None ->
  sched_ok (install_bootstrap process_entry_resume k p s).
Proof.
  intros I K Ec Ei Hk Hu P0 P1 P2 P3 P4. unfold install_bootstrap.
  destruct (vm_space_init_kernel _ _) as [rc sp].
  destruct (inv_store_blocked s (fun _ => []) k (p <| p_vm_space := sp |>)) as [I2 K2]; [done..|].
  set (s2 := set_proc k _ s) in *. assert (g_idle s2 = None /\ g_current s2 = None) as [Ei2 Ec2] by done.
  clearbody s2. destruct (negb (rc =? 0)); [by eexists|].
  set (s3 := upd k (fun p => p <| va_space := true |>) s2).
  assert (keeps k s2 s3) as K' by (by apply keeps_upd).
  destruct (K' _ _ I2) as (I3 & Ei3 & Ec3 & _ & K3 & _).
  assert (sched_ok (create_idle process_entry_resume (s3 <| g_current := Some k |>))) as [Q4 I4].
  { apply ok_create_idle.
    - eexists. apply inv_set_current; [exact I3|done|by rewrite Ec3].
    - intros j Hj. change (kids s3 j = (None, None)). rewrite K3 by done. by apply K2.
    - change (g_idle s3 = None). by rewrite Ei3. }
  exists Q4. inv_frame I4.
Qed.

Lemma ok_init_processes s :
  sched_inv None s (fun _ => []) -> childless s -> (forall j, slot_ok j -> is_idle (proc s j) = false) ->
  g_current s = None -> g_idle s = None -> sched_ok (init_processes process_entry_resume s).
Proof.
  intros I K F Ec Ei. unfold init_processes.
  destruct (alloc_process_slot_locked s) as [k|] eqn:Ha; [|by eexists].
  destruct (alloc_slot_spec s k (q_len _ _ (si_q _ _ _ I)) Ha) as [Hk Hu].
  assert (sched_inv None (s <| g_next_pid := u32 (g_next_pid s + 1) |>) (fun _ => [])) as I1 by (inv_frame I).
  pose proof (K k Hk) as [= Kh Kn]. pose proof (F k Hk) as Fk.
  apply ok_install_bootstrap; try done.
Qed.

(** Start-up establishes the invariant. *)
Lemma ok_process_init e : sched_ok (process_init process_entry_resume (sched_zero e)).
Proof.
  unfold process_init. change (g_inited (sched_zero e)) with false.
  destruct (init_tables_inv e) as (I0 & K0 & F0). by apply ok_init_processes.
Qed.

(** ** Calls of a process *)

Lemma ok_slot s k : sched_ok s -> g_current s = Some k -> slot_ok k.
Proof. intros [Q I]. apply (si_cur _ _ _ I). Qed.

Lemma ok_find s pid0 k : sched_ok s -> find_by_pid_locked pid0 s = Some k -> slot_ok k /\ used (proc s k) = true.
Proof. intros [Q I] Hf. by destruct (inv_find_pid _ _ _ _ _ I Hf) as (? & ? & _). Qed.

(** A store into a slot that keeps [core] and the child pointers. *)
Lemma ok_upd s k f :
  sched_ok s -> slot_ok k -> (forall p, core (f p) = core p /\ children_head (f p) = children_head p
    /\ parent_next_child (f p) = parent_next_child p) -> sched_ok (upd k f s).
Proof. intros [Q I] Hk Hf. exists Q. destruct (Hf (proc s k)) as (? & ? & ?). by apply inv_keep. Qed.

Lemma ok_exec s pid0 entry nm : sched_ok s -> sched_ok (process_exec process_entry_resume pid0 entry nm s).2.
Proof.
  intros Hok. unfold process_exec. destruct (_ || _); [done|].
  destruct (find_by_pid_locked pid0 s) as [k|] eqn:Hf; [|done].
  destruct (ok_find s pid0 k Hok Hf) as [Hk _].
  destruct (_ || _); [done|]. set (s1 := on_proc shm_cleanup k s).
  pose proof (keeps_ok k s s1 (keeps_on_proc k _ s Hk shm_cleanup_fields) Hok) as H1. clearbody s1.
  set (s2 := upd k _ s1).
  assert (sched_ok s2) as H2 by (apply ok_upd; [done|done|]; intros p; by destruct nm as [[|]|]).
  clearbody s2. destruct (setup_initial_context_locked _ k s2) as [rc s3] eqn:E3.
  pose proof (keeps_ok k s2 s3 (keeps_setup_context k _ _ _ Hk E3) H2). by destruct (negb _).
Qed.

Lemma ok_exit s code :
  sched_ok s -> (forall k, g_current s = Some k -> ~ ready s k) -> sched_ok (process_exit_current code s).2.
Proof.
  intros Hok Hc. unfold process_exit_current. destruct (g_current s) as [k|] eqn:Ec; [|done].
  apply ok_mark_zombie; [done|by apply (ok_slot s)|by apply Hc].
Qed.

Lemma wait_scan_zombie s caller target Q c : forall fuel child any matched,
  sched_inv None s Q -> (forall x, child = Some x -> slot_ok x /\ g_idle s <> Some x) ->
  wait_scan_children fuel s caller target child any matched = WaitZombie c ->
  slot_ok c /\ g_idle s <> Some c /\ state (proc s c) = PROCESS_ZOMBIE /\ wait_match_child caller (proc s c) target = true.
Proof.
  induction fuel as [|fuel IH]; intros child any matched I Hc; [done|]. simpl.
  destruct child as [x|]; [|done]. destruct (Hc x eq_refl) as [Hx Hi].
  assert (forall y, parent_next_child (proc s x) = Some y -> slot_ok y /\ g_idle s <> Some y) as Hn.
  { intros y Hy. apply (si_ptr _ _ _ I x Hx). by right. }
  destruct (wait_match_child caller (proc s x) target) eqn:Hm; [|by apply IH].
  case_bool_decide as Hz; [|by apply IH]. by intros [= <-].
Qed.

Lemma ok_waitpid s caller target options :
  sched_ok s -> (forall k, g_current s = Some k -> ~ ready s k /\ g_idle s <> Some k) ->
  sched_ok (process_waitpid caller target options s).2.
Proof.
  intros [Q I] Hc. unfold process_waitpid.
  destruct (find_by_pid_locked caller s) as [k|] eqn:Hf; [|by exists Q].
  destruct (inv_find_pid _ _ _ _ _ I Hf) as (Hk & Hu & _).
  destruct (wait_scan_children _ _ _ _ _ _ _) as [c|any matched] eqn:Hw.
  - apply (wait_scan_zombie s _ target Q) in Hw as (Hcs & Hci & Hz & _);
      [|done|intros x Hx; apply (si_ptr _ _ _ I k Hk); by left].
    destruct (inv_unlink_child s Q k c I Hk Hcs) as (I1 & C1 & Ei1 & _).
    set (s1 := parent_unlink_child_locked k c s) in *. clearbody s1. injection C1 as _ _ Cs _ _ _ _.
    destruct (keeps_free_resources c s1 Hcs None Q I1) as (I2 & Ei2 & _ & C2 & _).
    injection C2 as _ _ Cs2 _ _ _ _. cbn [snd]. unfold reset_process_slot_locked.
    set (s2 := free_process_resources_locked c s1) in *. clearbody s2.
    exists Q. apply inv_store; [done|done| |exact (si_pri _ _ _ I2 c Hcs)|by intros x [Hx|Hx]|done|done| |done].
    + unfold ready. rewrite Cs2, Cs, Hz. naive_solver.
    + rewrite Ei2, Ei1. done.
  - destruct (_ || _); [by exists Q|]. destruct (negb _); [by exists Q|].
    destruct (g_current s) as [c|] eqn:Ec; [|by exists Q]. destruct (_ =? _); [|by exists Q].
    destruct (Hc c eq_refl) as [Hr Hi]. pose proof (si_cur _ _ _ I c Ec) as Hcs.
    exists Q. cbn [snd].
    by apply inv_store; [done|done|done|exact (si_pri _ _ _ I c Hcs)|exact (si_ptr _ _ _ I c Hcs)|done|done|done
      |exact (si_flag _ _ _ I c Hcs ltac:(done))].
Qed.

(** ** Signals *)

Lemma ok_signal_process s k sig :
  sched_ok s -> slot_ok k -> used (proc s k) = true -> (sig = PROCESS_SIGKILL -> ~ ready s k) ->
  sched_ok (signal_process k sig s).
Proof.
  intros Hok Hk Hu Hkill. unfold signal_process. destruct (Z.eqb_spec sig PROCESS_SIGKILL) as [->|].
  { apply ok_mark_zombie; auto. }
  set (s1 := upd k _ s). assert (sched_ok s1) as [Q I1] by (by apply ok_upd).
  assert (used (proc s1 k) = true) as Hu1.
  { unfold s1, upd. destruct Hok as [Q0 I0]. by rewrite proc_set_same by (done || apply (q_len _ _ (si_q _ _ _ I0))). }
  clearbody s1. case_bool_decide; [|by exists Q]. by apply (inv_wake s1 Q).
Qed.

Lemma ok_kill s pid0 sig :
  sched_ok s -> (sig = PROCESS_SIGKILL -> forall k, find_by_pid_locked pid0 s = Some k -> ~ ready s k) ->
  sched_ok (process_kill pid0 sig s).2.
Proof.
  intros Hok Hkill. unfold process_kill. destruct (pid0 <=? 0); [done|].
  destruct (find_by_pid_locked pid0 s) as [k|] eqn:Hf; [|done].
  destruct (ok_find s pid0 k Hok Hf) as [Hk Hu].
  case_bool_decide; [done|]. destruct (sig =? 0); [done|]. destruct (_ || _); [done|].
  apply ok_signal_process; auto.
Qed.

Lemma ok_kill_pgid s pg sig :
  sched_ok s -> sig <> PROCESS_SIGKILL -> sched_ok (process_kill_pgid pg sig s).2.
Proof.
  intros Hok Hs. unfold process_kill_pgid. destruct (_ || _); [done|].
  apply (for_up_preserves (fun r : Z * sched E => sched_ok r.2)); [done|].
  intros i [c s1] Hi H1. cbn [snd] in *. destruct (used (proc s1 i)) eqn:Hu; [|done]. cbn [negb orb].
  destruct (bool_decide _ || bool_decide _); [done|]. destruct (negb _); [done|]. cbn [snd].
  apply ok_signal_process; [done| |done|done]. unfold slot_ok, PROCESS_MAX_COUNT in *. lia.
Qed.

(** Take a slot off its queue, change it, and queue it again. *)
Lemma ok_requeue s k f :
  sched_ok s -> slot_ok k -> used (proc s k) = true -> g_idle s <> Some k ->
  (forall p, 0 <= priority (f p) /\ used (f p) = used p /\ is_idle (f p) = is_idle p /\ state (f p) = state p
     /\ children_head (f p) = children_head p /\ parent_next_child (f p) = parent_next_child p) ->
  let s1 := if bool_decide (state (proc s k) = PROCESS_READY) then runq_remove_locked k s else s in
  let s2 := upd k f s1 in
  sched_ok (if bool_decide (state (proc s2 k) = PROCESS_READY) then runq_push_locked k s2 else s2).
Proof.
  intros [Q I] Hk Hu Hi Hf. pose proof (q_len _ _ (si_q _ _ _ I)) as Hl. cbv zeta.
  assert (forall s0 Q0, sched_inv (Some k) s0 Q0 -> sched_inv (Some k) (upd k f s0) Q0) as Hset.
  { intros s0 Q0 I0. destruct (Hf (proc s0 k)) as (? & _ & _ & _ & E1 & E2).
    apply inv_hole; [done|done|done|]. unfold ptrs_ok. rewrite E1, E2. exact (si_ptr _ _ _ I0 k Hk). }
  assert (forall s0, length (g_processes s0) = 256%nat -> state (proc (upd k f s0) k) = state (proc s0 k)
            /\ used (proc (upd k f s0) k) = used (proc s0 k) /\ is_idle (proc (upd k f s0) k) = is_idle (proc s0 k)) as Hst.
  { intros s0 Hl0. unfold upd. rewrite proc_set_same by done. by destruct (Hf (proc s0 k)) as (_ & ? & ? & ? & _). }
  pose proof (inv_not_idle s Q k I Hk Hu Hi) as Hfl.
  destruct (decide (state (proc s k) = PROCESS_READY)) as [Hr|Hr];
    [rewrite (bool_decide_true _ Hr)|rewrite (bool_decide_false _ Hr)].
  - destruct (inv_remove s Q k I Hk) as (Q1 & I1 & L1). set (s1 := runq_remove_locked k s) in *.
    destruct (Hst s1) as (E1 & E2 & E3); [by rewrite (lk_len _ _ L1)|].
    rewrite (lk_proc _ _ L1 k) in E1, E2, E3 by apply Hk. rewrite E1. rewrite bool_decide_true by done.
    eexists. apply inv_push; [by apply Hset|done| |by rewrite E3]. split; [by rewrite E2|]. split; [by rewrite E1|].
    change (g_idle s1 <> Some k). by rewrite (lk_idle _ _ L1).
  - destruct (Hst s Hl) as (E1 & E2 & E3). rewrite E1. rewrite bool_decide_false by done. exists Q.
    apply (inv_close _ _ k); [apply Hset, inv_open; [done|done|intros (_ & ? & _); done]|done|..].
    + intros (_ & Hx & _). by rewrite E1 in Hx.
    + rewrite E1, E2. by apply (si_running _ _ _ I).
    + done.
    + rewrite E2, E3. by apply (si_flag _ _ _ I).
Qed.

Lemma ok_set_priority s pid0 pri :
  sched_ok s -> 0 <= pri -> (forall k, find_by_pid_locked pid0 s = Some k -> g_idle s <> Some k) ->
  sched_ok (process_set_priority pid0 pri s).2.
Proof.
  intros Hok Hpri Hi. unfold process_set_priority. destruct (_ || _); [done|].
  destruct (find_by_pid_locked pid0 s) as [k|] eqn:Hf; [|done].
  destruct (ok_find s pid0 k Hok Hf) as [Hk Hu]. rewrite Hu. cbn [negb orb]. case_bool_decide; [done|].
  by apply ok_requeue; [..|apply Hi|].
Qed.

(** ** The tick *)

Lemma push_pointers k s :
  g_current (runq_push_locked k s) = g_current s /\ g_idle (runq_push_locked k s) = g_idle s.
Proof. unfold runq_push_locked. cbv zeta. destruct (aget _ _); [|done]. by destruct (aget _ _). Qed.

Lemma wake_parent_pointers k s :
  g_current (wake_parent_if_waiting_locked k s) = g_current s /\ g_idle (wake_parent_if_waiting_locked k s) = g_idle s.
Proof.
  unfold wake_parent_if_waiting_locked. destruct (_ =? 0); [done|].
  destruct (find_by_pid_locked _ s); [|done]. case_bool_decide; [|done].
  match goal with |- context [runq_push_locked ?a ?b] => destruct (push_pointers a b) as [-> ->] end. done.
Qed.

Lemma mark_zombie_pointers k st s :
  g_current (mark_zombie_locked k st s) = g_current s /\ g_idle (mark_zombie_locked k st s) = g_idle s.
Proof.
  unfold mark_zombie_locked. destruct (_ || _); [done|]. rewrite !on_proc_eq.
  match goal with |- context [wake_parent_if_waiting_locked ?a ?b] =>
    destruct (wake_parent_pointers a b) as [-> ->] end. done.
Qed.

Lemma ok_prepare_signal s k r s' :
  sched_ok s -> slot_ok k -> state (proc s k) = PROCESS_RUNNING -> prepare_signal_action_locked k s = (r, s') ->
  sched_ok s' /\ g_current s' = g_current s /\ g_idle s' = g_idle s.
Proof.
  intros Hok Hk Hs. unfold prepare_signal_action_locked. destruct (_ || _); [by intros [= <- <-]|].
  destruct (_ =? 0); [by intros [= <- <-]|]. destruct (_ <? 0); [by intros [= <- <-]|].
  set (s1 := upd k _ s). assert (sched_ok s1) as H1 by (by apply ok_upd).
  assert (~ ready s1 k) as Hr.
  { destruct Hok as [Q I]. unfold ready, s1, upd.
    rewrite proc_set_same by (done || apply (q_len _ _ (si_q _ _ _ I))).
    intros (_ & Hx & _). change (state (proc s k) = PROCESS_READY) in Hx. congruence. }
  assert (g_current s1 = g_current s /\ g_idle s1 = g_idle s) as [<- <-] by done. clearbody s1.
  destruct (_ =? PROCESS_SIG_IGN); [by intros [= <- <-]|]. destruct (_ || _); intros [= <- <-]; [|done].
  split; [by apply ok_mark_zombie|apply mark_zombie_pointers].
Qed.

Definition no_running s : Prop := forall k, slot_ok k -> state (proc s k) <> PROCESS_RUNNING.

Lemma only_current_runs s Q c :
  sched_inv None s Q -> g_current s = Some c -> state (proc s c) <> PROCESS_RUNNING -> no_running s.
Proof. intros I Hc Hs k Hk Hx. destruct (si_running _ _ _ I k Hk) as [_ Hk']; [done|done|]. congruence. Qed.

Lemma ok_tick_account s c rsp : sched_ok s -> slot_ok c -> sched_ok (tick_account rsp c s).
Proof. intros. by apply ok_upd. Qed.

Lemma tick_running_idle s Q c : sched_inv None s Q -> g_current s = Some c -> state (proc s c) = PROCESS_RUNNING ->
  is_idle (proc s c) = true ->
  sched_inv None (upd c (set_state PROCESS_READY THREAD_READY) s) Q
  /\ no_running (upd c (set_state PROCESS_READY THREAD_READY) s).
Proof.
  intros I Hc Hs Hf. pose proof (si_cur _ _ _ I c Hc) as Hk. pose proof (q_len _ _ (si_q _ _ _ I)) as Hl.
  destruct (si_running _ _ _ I c Hk ltac:(done) Hs) as [Hu _].
  pose proof (si_flag _ _ _ I c Hk ltac:(done) Hu) as Hi. rewrite Hf in Hi. symmetry in Hi.
  apply bool_decide_eq_true in Hi.
  assert (sched_inv None (upd c (set_state PROCESS_READY THREAD_READY) s) Q) as I1.
  { apply (inv_close _ _ c); [|done|..].
    - apply inv_hole; [|done|exact (si_pri _ _ _ I c Hk)|exact (si_ptr _ _ _ I c Hk)].
      apply inv_open; [done|done|]. intros (_ & Hx & _). congruence.
    - by intros (_ & _ & Hx).
    - unfold upd. by rewrite proc_set_same.
    - unfold upd. rewrite proc_set_same by done. done.
    - unfold upd. rewrite proc_set_same by done. intros _. exact (si_flag _ _ _ I c Hk ltac:(done) Hu). }
  split; [done|]. apply (only_current_runs _ Q c); [done|done|].
  unfold upd. by rewrite proc_set_same.
Qed.

(** The running process goes back to its queue. *)
Lemma tick_running_requeue s Q c f : sched_inv None s Q -> g_current s = Some c -> state (proc s c) = PROCESS_RUNNING ->
  is_idle (proc s c) = false ->
  (forall p, used (f p) = used p /\ is_idle (f p) = is_idle p /\ state (f p) = PROCESS_READY /\ priority (f p) = priority p
     /\ children_head (f p) = children_head p /\ parent_next_child (f p) = parent_next_child p) ->
  sched_inv None (runq_push_locked c (upd c f s)) (with_queue Q (slot_queue s c) (Q (slot_queue s c) ++ [c]))
  /\ no_running (runq_push_locked c (upd c f s)) /\ links_step (upd c f s) (runq_push_locked c (upd c f s)).
Proof.
  intros I Hc Hs Hf Hfp. pose proof (si_cur _ _ _ I c Hc) as Hk. pose proof (q_len _ _ (si_q _ _ _ I)) as Hl.
  destruct (si_running _ _ _ I c Hk ltac:(done) Hs) as [Hu _].
  pose proof (si_flag _ _ _ I c Hk ltac:(done) Hu) as Hi. rewrite Hf in Hi. symmetry in Hi.
  apply bool_decide_eq_false in Hi. destruct (Hfp (proc s c)) as (E1 & E2 & E3 & E4 & E5 & E6).
  assert (sched_inv (Some c) (upd c f s) Q) as I1.
  { apply inv_hole; [|done|rewrite E4; exact (si_pri _ _ _ I c Hk)|].
    - apply inv_open; [done|done|]. intros (_ & Hx & _). congruence.
    - unfold ptrs_ok. rewrite E5, E6. exact (si_ptr _ _ _ I c Hk). }
  assert (proc (upd c f s) c = f (proc s c)) as Ep by (unfold upd; by rewrite proc_set_same).
  assert (slot_queue (upd c f s) c = slot_queue s c) as Eq by (unfold slot_queue; by rewrite Ep, E4).
  pose proof (inv_push (upd c f s) Q c I1 Hk) as I2. rewrite Eq in I2.
  specialize (I2 ltac:(unfold ready; by rewrite Ep, E1, E3) ltac:(by rewrite Ep, E2)).
  destruct (runq_push_queues (upd c f s) Q c (si_q _ _ _ I1) Hk) as [_ L]; [|exact (si_pri _ _ _ I1 c Hk)|].
  { intros p Hp Hin. by destruct (proj1 (si_ready _ _ _ I1 c Hk) (ex_intro _ p (conj Hp Hin))). }
  split; [done|]. split; [|done]. apply (only_current_runs _ _ c I2); [by rewrite (proj1 (push_pointers c _))|].
  rewrite (lk_proc _ _ L c) by apply Hk. change (state (proc (upd c f s) c) <> PROCESS_RUNNING). by rewrite Ep, E3.
Qed.

(** The decisions of a tick on the abstract queues. *)
Definition next_slice (idle : bool) (slice : Z) : Z := if negb idle && (0 <? slice) then slice - 1 else slice.
Definition keeps_cpu (idle : bool) (slice pri : Z) Q : bool :=
  negb idle && (0 <? slice) && match fifo_best Q with Some b => pri <=? b | None => true end.
Definition requeue (idle : bool) (c pri : Z) Q : Z -> list Z :=
  if idle then Q else with_queue Q (queue_of pri) (Q (queue_of pri) ++ [c]).

Lemma best_priority_test s Q pri :
  queues s Q -> (runq_best_priority_locked s <? 0) || (pri <=? runq_best_priority_locked s)
    = match fifo_best Q with Some b => pri <=? b | None => true end.
Proof.
  intros W. rewrite (runq_best_fifo s Q W). pose proof (fifo_best_spec Q) as B.
  destruct (fifo_best Q) as [b|]; simpl; [|done]. destruct B as ([Hb _] & _).
  by rewrite (proj2 (Z.ltb_ge b 0) Hb).
Qed.

Lemma tick_running_spec s Q c rsp early s' :
  sched_inv None s Q -> g_current s = Some c -> tick_running rsp c s = (early, s') ->
  g_current s' = Some c /\ g_idle s' = g_idle s /\ (early = None -> no_running s') /\
  let p := proc s c in
  if bool_decide (state p = PROCESS_RUNNING) then
    if keeps_cpu (is_idle p) (next_slice (is_idle p) (time_slice p)) (priority p) Q
    then sched_inv None s' Q /\ early = Some (if kernel_rsp p =? 0 then rsp else kernel_rsp p)
         /\ time_slice (proc s' c) = next_slice (is_idle p) (time_slice p) /\ core (proc s' c) = core p
    else sched_inv None s' (requeue (is_idle p) c (priority p) Q) /\ early = None
  else s' = s /\ early = None.
Proof.
  intros I Hc. unfold tick_running. case_bool_decide as Hs; cbn [negb].
  2: { intros [= <- <-]. split; [done|]. split; [done|]. split; [|done]. intros _. by apply (only_current_runs s Q c). }
  pose proof (si_cur _ _ _ I c Hc) as Hk. pose proof (q_len _ _ (si_q _ _ _ I)) as Hl.
  set (s1 := if _ && _ then _ else s).
  assert (sched_inv None s1 Q /\ g_current s1 = Some c /\ g_idle s1 = g_idle s
    /\ core (proc s1 c) = core (proc s c) /\ kernel_rsp (proc s1 c) = kernel_rsp (proc s c)
    /\ time_slice (proc s1 c) = next_slice (is_idle (proc s c)) (time_slice (proc s c)))
    as (I1 & Hc1 & <- & Ec1 & Er1 & Et1).
  { unfold s1, next_slice. destruct (_ && _); [|done]. split; [by apply inv_keep|]. split; [done|]. split; [done|].
    unfold upd. by rewrite proc_set_same. }
  rewrite (best_priority_test s Q _ (si_q _ _ _ I)).
  clearbody s1. pose proof Ec1 as [= _ Ef1 Es1 Ep1 _ _ _]. cbv zeta. unfold keeps_cpu. rewrite Ef1, Et1, Ep1, Er1.
  destruct (_ && _ && _); [by intros [= <- <-]|].
  destruct (is_idle (proc s c)) eqn:Hf; intros [= <- <-].
  - destruct (tick_running_idle s1 Q c I1 Hc1) as [A B]; [congruence|congruence|].
    split; [done|]. split; [done|]. by split.
  - match goal with |- context [runq_push_locked c (upd c ?f s1)] =>
      destruct (tick_running_requeue s1 Q c f I1 Hc1 ltac:(congruence) ltac:(congruence) ltac:(done)) as (A & B & _);
      destruct (push_pointers c (upd c f s1)) as [-> ->] end.
    unfold slot_queue in A. rewrite Ep1 in A. split; [done|]. split; [done|]. by split.
Qed.

Lemma ok_tick_running s c rsp early s' :
  sched_ok s -> g_current s = Some c -> tick_running rsp c s = (early, s') ->
  sched_ok s' /\ g_current s' = Some c /\ g_idle s' = g_idle s /\ (early = None -> no_running s').
Proof.
  intros [Q I] Hc Ht. destruct (tick_running_spec s Q c rsp early s' I Hc Ht) as (A & B & C & D).
  split; [|done]. cbv zeta in D. case_bool_decide; [|destruct D as [-> _]; by exists Q].
  destruct (keeps_cpu _ _ _ _); [destruct D as (D & _)|destruct D as [D _]]; eexists; exact D.
Qed.

Lemma run_process_state s k :
  length (g_processes s) = 256%nat -> slot_ok k -> state (proc (run_process k s) k) = PROCESS_RUNNING.
Proof.
  intros Hl Hk.
  assert (proc (upd k (set_state PROCESS_RUNNING THREAD_RUNNING) s) k
          = set_state PROCESS_RUNNING THREAD_RUNNING (proc s k)) as Hp by (unfold upd; by rewrite proc_set_same).
  unfold run_process. change (state (proc (upd k (set_state PROCESS_RUNNING THREAD_RUNNING) s) k) = PROCESS_RUNNING).
  by rewrite Hp.
Qed.

Lemma inv_run_process s Q k :
  sched_inv (Some k) s Q -> slot_ok k -> no_running s -> used (proc s k) = true ->
  is_idle (proc s k) = bool_decide (g_idle s = Some k) -> sched_inv None (run_process k s) Q.
Proof.
  intros I Hk Hn Hu Hf. pose proof (q_len _ _ (si_q _ _ _ I)) as Hl. unfold run_process.
  set (s1 := upd k (set_state PROCESS_RUNNING THREAD_RUNNING) s).
  assert (sched_inv (Some k) s1 Q) as I1.
  { apply inv_hole; [done|done|exact (si_pri _ _ _ I k Hk)|exact (si_ptr _ _ _ I k Hk)]. }
  assert (forall j, slot_ok j -> j <> k -> proc s1 j = proc s j) as Hj.
  { intros j Hj D. unfold s1, upd. rewrite proc_upd by done. by rewrite decide_False. }
  assert (proc s1 k = set_state PROCESS_RUNNING THREAD_RUNNING (proc s k)) as Hk1.
  { unfold s1, upd. by rewrite proc_set_same. }
  assert (sched_inv (Some k) (s1 <| g_current := Some k |>) Q) as I2.
  { destruct I1 as [J1 J2 J3 J4 J5 J8 J6 J7].
    split; [by apply (queues_frame s1)|exact J2|exact J3| |exact J5|exact J8| |exact J7].
    - intros j Hjs Hh Hs. assert (j <> k) by congruence.
      change (state (proc s1 j) = PROCESS_RUNNING) in Hs. rewrite Hj in Hs by done. by destruct (Hn j Hjs).
    - by intros ? [= <-]. }
  apply (inv_close _ _ k); [done|done|..]; unfold ready; change (proc (s1 <| g_current := Some k |>) k) with (proc s1 k);
    rewrite Hk1.
  - naive_solver.
  - done.
  - done.
  - done.
Qed.

(** The best queue's head runs next, and the idle process when all queues are empty. *)
Definition fifo_next (i : Z) Q : Z * (Z -> list Z) :=
  match fifo_best Q with
  | Some p => (default i (head (Q p)), with_queue Q p (tail (Q p)))
  | None => (i, Q)
  end.

Lemma pick_next_spec s Q i r s' :
  sched_inv None s Q -> no_running s -> g_idle s = Some i -> pick_next s = (r, s') ->
  let '(n, Q') := fifo_next i Q in
  r = Some n /\ sched_inv None s' Q' /\ g_current s' = Some n /\ g_idle s' = g_idle s /\ slot_ok n
  /\ state (proc s' n) = PROCESS_RUNNING.
Proof.
  intros I Hn Hi. unfold pick_next, fifo_next. destruct (runq_pop_locked s) as [n s1] eqn:Ep.
  pose proof (inv_pop s Q n s1 I Ep) as Hp. pose proof (fifo_best_spec Q) as B. destruct n as [k|].
  - destruct Hp as (pri & l & Hb & HQ & Hk & (Hu & Hs & Hni) & L & I1). intros [= <- <-].
    destruct (fifo_best Q) as [p|]; [|by rewrite B in HQ by apply Hb].
    assert (p = pri) as -> by (by eapply best_queue_unique). rewrite HQ. cbn [head default tail].
    split; [done|]. split; [|split; [done|split; [by rewrite <- (lk_idle _ _ L)|split; [done|]]]].
    + apply inv_run_process; [exact I1|done|..].
      * intros j Hj. rewrite (lk_proc _ _ L j) by apply Hj. by apply Hn.
      * by rewrite (lk_proc _ _ L k) by apply Hk.
      * rewrite (lk_proc _ _ L k) by apply Hk. rewrite (lk_idle _ _ L). by apply (si_flag _ _ _ I).
    + apply run_process_state; [apply (si_q _ _ _ I1)|done].
  - destruct Hp as [-> He]. rewrite Hi. intros [= <- <-].
    destruct (fifo_best Q) as [p|]; [destruct B as (Hp & Hne & _); by destruct Hne; apply He|].
    destruct (si_idle _ _ _ I i Hi) as [Hk [Hu _]]; [done|].
    split; [done|]. split; [|split; [done|split; [done|split; [done|]]]].
    + apply inv_run_process; [|done|done|done|].
      * apply inv_open; [done|done|]. by intros (_ & _ & Hx).
      * by apply (si_flag _ _ _ I).
    + apply run_process_state; [apply (si_q _ _ _ I)|done].
Qed.

(** The saved frame of a process with a stack is valid or repaired. *)
Lemma validate_or_repair_ok k s :
  kernel_stack (proc s k) <> 0 ->
  (validate_or_repair_context_locked process_entry_resume k s).1 = 0.
Proof.
  intros Hs. unfold validate_or_repair_context_locked. rewrite (proj2 (Z.eqb_neq _ _) Hs).
  destruct (context_valid _ _); [done|]. unfold setup_initial_context_locked.
  change (proc (s <| g_ctx_warned := true |>) k) with (proc s k). by rewrite (proj2 (Z.eqb_neq _ _) Hs).
Qed.

Lemma keeps_validate k s rc s' :
  slot_ok k -> validate_or_repair_context_locked process_entry_resume k s = (rc, s') -> keeps k s s'.
Proof.
  intros Hk. unfold validate_or_repair_context_locked. destruct (_ =? 0); [intros [= <- <-]; apply keeps_refl|].
  destruct (context_valid _ _); [intros [= <- <-]; apply keeps_refl|]. intros Hs.
  apply (keeps_trans k s (s <| g_ctx_warned := true |>)); [by apply keeps_same|].
  exact (keeps_setup_context k _ _ _ Hk Hs).
Qed.

(** The switch keeps the choice: its fallback is never taken. *)
Lemma switch_to_spec s Q cur n r s' :
  sched_inv None s Q -> slot_ok n -> g_current s = Some n -> switch_to process_entry_resume cur (Some n) s = (r, s') ->
  r = Some n /\ sched_inv None s' Q /\ g_current s' = Some n /\ g_idle s' = g_idle s
  /\ core (proc s' n) = core (proc s n).
Proof.
  intros I Hn Hc. unfold switch_to.
  assert (forall s1 : sched E, sched_inv None s1 Q /\ g_current s1 = Some n /\ g_idle s1 = g_idle s
      /\ core (proc s1 n) = core (proc s n) ->
    forall s2, s2 = (if pml4_phys (p_vm_space (proc s1 n)) =? 0 then s1
      else on_machine (vmm_switch_pml4 (pml4_phys (p_vm_space (proc s1 n)))) s1) ->
    Some n = Some n /\ sched_inv None s2 Q /\ g_current s2 = Some n /\ g_idle s2 = g_idle s
    /\ core (proc s2 n) = core (proc s n)) as Hend.
  { intros s1 (I1 & A & B & C) s2 ->. destruct (_ =? 0); [done|]. split; [done|]. split; [inv_frame I1|done]. }
  destruct (Z.eqb_spec (kernel_stack (proc s n)) 0) as [Hz|Hz].
  { intros [= <- <-]. by apply (Hend s). }
  pose proof (validate_or_repair_ok n s Hz) as Hrc.
  destruct (validate_or_repair_context_locked _ n s) as [rc s1] eqn:Ev. cbn [fst] in Hrc. rewrite Hrc.
  change (0 =? 0) with true. cbn iota beta.
  pose proof (keeps_validate n s rc s1 Hn Ev) as K. destruct (K _ _ I) as (I1 & A & B & C & _).
  destruct (kernel_stack (proc s1 n) =? 0); intros [= <- <-]; (eapply Hend; [|reflexivity]).
  - split; [done|]. by rewrite B, A.
  - split; [inv_frame I1|]. split; [by rewrite <- Hc, <- B|]. split; [by rewrite <- A|by rewrite <- C].
Qed.

(** The second half of a tick: choose and switch. *)
Definition choose_and_switch (cur : option Z) s : option Z * sched E :=
  let '(next, s) := pick_next s in switch_to process_entry_resume cur next s.

Lemma choose_and_switch_spec s Q i cur r s' :
  sched_inv None s Q -> no_running s -> g_idle s = Some i -> choose_and_switch cur s = (r, s') ->
  let '(n, Q') := fifo_next i Q in
  r = Some n /\ sched_inv None s' Q' /\ g_current s' = Some n /\ g_idle s' = g_idle s
  /\ state (proc s' n) = PROCESS_RUNNING.
Proof.
  intros I Hn Hi. unfold choose_and_switch. destruct (pick_next s) as [n s1] eqn:E1.
  pose proof (pick_next_spec s Q i n s1 I Hn Hi E1) as Hp. destruct (fifo_next i Q) as [n' Q'].
  destruct Hp as (-> & I1 & Hc1 & Hi1 & Hs1 & Hr1). intros E2.
  destruct (switch_to_spec s1 Q' cur n' r s' I1 Hs1 Hc1 E2) as (A & B & C & D & [= _ _ F _ _ _ _]).
  split; [done|]. split; [done|]. split; [done|]. split; congruence.
Qed.

Lemma ok_schedule_tick s rsp :
  sched_ok s -> g_idle s <> None -> sched_ok (process_schedule_tick process_entry_resume rsp s).2.
Proof.
  intros Hok Hi. unfold process_schedule_tick.
  set (s1 := s <| g_sched_ticks := _ |>).
  assert (sched_ok s1) as H1 by (destruct Hok as [Q I]; exists Q; inv_frame I).
  change (g_current s) with (g_current s1). change (g_idle s) with (g_idle s1) in Hi. clearbody s1.
  match goal with |- context [match g_current s1 with Some c => @?f c | None => ?n end] =>
    set (head := match g_current s1 with Some c => f c | None => n end) end.
  assert (sched_ok head.2 /\ (head.1.2 = None -> no_running head.2) /\ g_idle head.2 = g_idle s1) as (H2 & Hn & Ei).
  { subst head. destruct (g_current s1) as [c|] eqn:Hc.
    2: { split; [done|]. split; [|done]. intros _ k Hk Hs. destruct H1 as [Q I].
         destruct (si_running _ _ _ I k Hk) as [_ Hx]; [done|done|]. cbn in Hx. congruence. }
    pose proof (ok_slot s1 c H1 Hc) as Hk. pose proof (ok_tick_account s1 c rsp H1 Hk) as H2.
    assert (g_current (tick_account rsp c s1) = Some c /\ g_idle (tick_account rsp c s1) = g_idle s1) as [Hc2 Hi2] by done.
    set (s2 := tick_account rsp c s1) in *. clearbody s2.
    match goal with |- context [if bool_decide ?P then ?a else ?b] =>
      assert (exists sg s3, (if bool_decide P then a else b) = (sg, s3) /\ sched_ok s3
        /\ g_current s3 = Some c /\ g_idle s3 = g_idle s1) as (sg & s3 & -> & H3 & Hc3 & Hi3) end.
    { case_bool_decide as Hs; [|by eexists _, _].
      destruct (prepare_signal_action_locked c s2) as [sg s3] eqn:E3. exists sg, s3. split; [done|].
      apply ok_prepare_signal in E3 as (A & B & C); [|done..]. by rewrite B, C. }
    destruct (tick_running rsp c s3) as [early s4] eqn:E4.
    apply ok_tick_running in E4 as (A & B & C & D); [|done|done]. cbn [fst snd].
    split; [done|]. split; [done|]. by rewrite C, Hi3. }
  destruct head as [[sg early] s2]. cbn [fst snd] in *. destruct early as [r|]; [done|].
  destruct (g_idle s1) as [i|] eqn:Ei1; [|done]. destruct H2 as [Q I2].
  pose proof (choose_and_switch_spec s2 Q i (g_current s1)) as Hcs. unfold choose_and_switch in Hcs.
  destruct (pick_next s2) as [n s3]. destruct (switch_to _ _ n s3) as [r s4].
  specialize (Hcs r s4 I2 (Hn eq_refl) Ei eq_refl). destruct (fifo_next i Q) as [n' Q'].
  destruct Hcs as (_ & I4 & _). by exists Q'.
Qed.
End operations.
