(* ===== verification/Scheduler.v ===== *)
(** What the process module of [src/proc/process.c] guarantees: the run-queue invariant over every
    sequence of calls, and the scheduling policy of the timer tick as a refinement of an abstract
    scheduler of FIFO queues. *)

From S2P Require Import Prelude Pmm Paging Vmm VmSpace ProcessData Shm Process RunQueue ProcessSched.

(** ** Calls *)

Inductive call : Type :=
  | CallSpawn (nm : option (list Z)) (entry : Z)
  | CallExec (pid entry : Z) (nm : option (list Z))
  | CallExit (code : Z)
  | CallWait (caller target options : Z)
  | CallKill (pid sig : Z)
  | CallKillPgid (pgid sig : Z)
  | CallRegister (pid sig handler : Z)
  | CallMask (pid how set : Z)
  | CallSetTty (pid tty : Z)
  | CallSetPriority (pid pri : Z)
  | CallSetCmdline (pid : Z) (cmd : option (list Z))
  | CallCloneFd (dst_pid dst_fd src_pid src_fd : Z)
  | CallTick (rsp : Z)
  | CallYield.

Section scheduler.
Context {E : Type} `{ProcessEnvLaws E}.
Variable process_entry_resume : Z.
Implicit Types (s : sched E) (k : Z) (Q : Z -> list Z).

Definition run_call (c : call) s : sched E :=
  match c with
  | CallSpawn nm entry => (process_spawn_kernel process_entry_resume nm entry s).2
  | CallExec p entry nm => (process_exec process_entry_resume p entry nm s).2
  | CallExit code => (process_exit_current code s).2
  | CallWait caller target options => (process_waitpid caller target options s).2
  | CallKill p sig => (process_kill p sig s).2
  | CallKillPgid pg sig => (process_kill_pgid pg sig s).2
  | CallRegister p sig h => (process_signal_register p sig h s).2
  | CallMask p how set => (process_signal_mask p how set s).2
  | CallSetTty p tty => (process_set_tty p tty s).2
  | CallSetPriority p pri => (process_set_priority p pri s).2
  | CallSetCmdline p cmd => (process_set_cmdline p cmd s).2
  | CallCloneFd dp df sp sf => (process_clone_fd dp df sp sf s).2
  | CallTick rsp => (process_schedule_tick process_entry_resume rsp s).2
  | CallYield => process_yield s
  end.

Definition readyb s k : bool :=
  used (proc s k) && bool_decide (state (proc s k) = PROCESS_READY) && negb (bool_decide (g_idle s = Some k)).

Lemma readyb_false s k : readyb s k = false -> ~ ready s k.
Proof.
  intros Hb (Hu & Hs & Hi). unfold readyb in Hb. rewrite Hu, (bool_decide_true _ Hs), (bool_decide_false _ Hi) in Hb.
  done.
Qed.

(** The calls under which the invariant is kept.  The restrictions are the cases the C code does
    not handle: a READY process killed at once, the idle process waiting or given a priority, and
    a tick with neither a queued nor an idle process. *)
Definition call_allowed (c : call) s : bool :=
  match c with
  | CallExit _ => match g_current s with Some k => negb (readyb s k) | None => true end
  | CallWait _ _ _ =>
      match g_current s with Some k => negb (readyb s k) && negb (bool_decide (g_idle s = Some k)) | None => true end
  | CallKill p sig =>
      negb (sig =? PROCESS_SIGKILL)
      || match find_by_pid_locked p s with Some k => negb (readyb s k) | None => true end
  | CallKillPgid _ sig => negb (sig =? PROCESS_SIGKILL)
  | CallSetPriority p pri =>
      (0 <=? pri) && match find_by_pid_locked p s with Some k => negb (bool_decide (g_idle s = Some k)) | None => true end
  | CallTick _ => bool_decide (is_Some (g_idle s))
  | _ => true
  end.

(** States reached from start-up by allowed calls. *)
Inductive reachable : sched E -> Prop :=
  | reach_init e : reachable (process_init process_entry_resume (sched_zero e))
  | reach_call c s : reachable s -> call_allowed c s = true -> reachable (run_call c s).

Lemma ok_attribute s pid0 f rc :
  sched_ok s -> (forall p, core (f p) = core p /\ children_head (f p) = children_head p
    /\ parent_next_child (f p) = parent_next_child p) ->
  sched_ok (match find_by_pid_locked pid0 s with None => (-1, s) | Some k => (rc, upd k f s) end).2.
Proof.
  intros Hok Hf. destruct (find_by_pid_locked pid0 s) as [k|] eqn:E0; [|done].
  destruct (ok_find s pid0 k Hok E0) as [Hk _]. by apply ok_upd.
Qed.

Lemma ok_signal_mask s pid0 how set : sched_ok s -> sched_ok (process_signal_mask pid0 how set s).2.
Proof.
  intros Hok. unfold process_signal_mask. destruct (find_by_pid_locked pid0 s) as [k|] eqn:E0; [|done].
  destruct (ok_find s pid0 k Hok E0) as [Hk _].
  destruct (how =? _); [by apply ok_upd|]. destruct (how =? _); [by apply ok_upd|].
  destruct (how =? _); [by apply ok_upd|done].
Qed.

Lemma ok_clone_fd s dp df sp sf : sched_ok s -> sched_ok (process_clone_fd dp df sp sf s).2.
Proof.
  intros Hok. unfold process_clone_fd. destruct (find_by_pid_locked dp s) as [d|] eqn:Ed; [|done].
  destruct (find_by_pid_locked sp s) as [c|]; [|done]. destruct (ok_find s dp d Hok Ed) as [Hd _].
  pose proof (vfs_dup2_fields (proc s d) df (proc s c) sf (s_env s)) as Hr.
  destruct (vfs_dup2 _ _ _ _ _) as [[rc p] e]. cbn [fst snd] in *.
  apply (keeps_ok d s); [|done].
  apply (keeps_trans _ _ (s <| s_env := e |>)); [by apply keeps_same|].
  apply keeps_upd; [done|by apply resources_only_core|by rewrite Hr|by rewrite Hr].
Qed.

Lemma run_call_ok c s : sched_ok s -> call_allowed c s = true -> sched_ok (run_call c s).
Proof.
  intros Hok Ha. destruct c; cbn [run_call call_allowed] in *.
  - by apply ok_spawn.
  - by apply ok_exec.
  - apply ok_exit; [done|]. intros k Hk. rewrite Hk in Ha. by apply readyb_false, negb_true_iff.
  - apply ok_waitpid; [done|]. intros k Hk. rewrite Hk in Ha. apply andb_true_iff in Ha as [H1 H2].
    split; [by apply readyb_false, negb_true_iff|]. by apply negb_true_iff, bool_decide_eq_false in H2.
  - apply ok_kill; [done|]. intros -> k Hk. rewrite Hk in Ha. by apply readyb_false, negb_true_iff.
  - apply ok_kill_pgid; [done|]. intros ->. done.
  - unfold process_signal_register. destruct (_ || _); [done|]. destruct (_ && _); [done|].
    apply ok_attribute; [done|]. intros p. done.
  - by apply ok_signal_mask.
  - by apply ok_attribute.
  - apply andb_true_iff in Ha as [H1 H2]. apply ok_set_priority; [done|lia|].
    intros k Hk. rewrite Hk in H2. by apply negb_true_iff, bool_decide_eq_false in H2.
  - by apply ok_attribute.
  - by apply ok_clone_fd.
  - apply ok_schedule_tick; [done|]. apply bool_decide_eq_true in Ha as [i ->]. done.
  - unfold process_yield. destruct (g_current s) as [k|] eqn:Ec; [|done]. apply ok_upd; [done|by apply (ok_slot s)|done].
Qed.

Lemma reachable_ok s : reachable s -> sched_ok s.
Proof. induction 1; [apply ok_process_init|by apply run_call_ok]. Qed.

(** C9. In every state reached from start-up by allowed calls, the run queues are well-formed
    doubly linked lists without repetition; a slot is in a queue exactly when it is used, READY
    and not the idle process (so no ready process is lost and none is queued twice); and only the
    current process is RUNNING.  Allowed ([call_allowed]) are all calls of the module but those after
    which this fails or may fail: SIGKILL to a process that is READY, which stays queued
    ([Lifecycle.kill_ready_resurrected]), and SIGKILL to a process group; an exit or a wait of a
    current process that is queued again ([Lifecycle.reap_queued_cuts_queue]); a wait by the idle
    process and a change of its priority ([Lifecycle.set_priority_queues_idle]), or a negative
    priority; and a tick before the idle process exists. *)
Theorem sched_run_invariant s :
  reachable s -> exists Q, queues s Q
    /\ (forall k, slot_ok k -> (exists pri, slot_ok pri /\ k ∈ Q pri) <-> ready s k)
    /\ (forall k, slot_ok k -> state (proc s k) = PROCESS_RUNNING -> used (proc s k) = true /\ g_current s = Some k).
Proof.
  intros [Q I]%reachable_ok.
  exists Q. split; [apply (si_q _ _ _ I)|]. split.
  - intros k Hk. pose proof (si_ready _ _ _ I k Hk) as Hq. split.
    + intros Hin. by apply Hq in Hin as [? _].
    + intros Hrd. by apply Hq.
  - intros k Hk. by apply (si_running _ _ _ I).
Qed.

(** ** The policy of the tick *)

(** The abstract scheduler: a running process keeps the processor while it has time left and no
    better queue is occupied; otherwise it goes to the back of its queue and the head of the best
    queue runs, or the idle process [i]. *)
Definition abstract_tick (i c : Z) (idle : bool) (slice pri : Z) Q : Z * (Z -> list Z) :=
  if keeps_cpu idle slice pri Q then (c, Q) else fifo_next i (requeue idle c pri Q).

(** No unmasked signal is pending. *)
Definition no_signal (p : process) : Prop := Z.land (signal_pending p) (u64 (Z.lnot (signal_mask p))) = 0.

Lemma prepare_no_signal s k : no_signal (proc s k) -> prepare_signal_action_locked k s = (None, s).
Proof.
  intros Hn. unfold prepare_signal_action_locked. destruct (_ || _); [done|]. rewrite Hn. done.
Qed.

(** The head of a tick on a running process. *)
Lemma tick_head s Q c rsp :
  sched_inv None s Q -> g_current s = Some c -> no_signal (proc s c) ->
  let s2 := tick_account rsp c (s <| g_sched_ticks := u64 (g_sched_ticks s + 1) |>) in
  sched_inv None s2 Q /\ g_current s2 = Some c /\ g_idle s2 = g_idle s /\ core (proc s2 c) = core (proc s c)
  /\ time_slice (proc s2 c) = time_slice (proc s c) /\ kernel_rsp (proc s2 c) = rsp
  /\ prepare_signal_action_locked c s2 = (None, s2).
Proof.
  intros I Hc Hn. cbv zeta. pose proof (si_cur _ _ _ I c Hc) as Hk. set (s1 := s <| g_sched_ticks := _ |>).
  assert (sched_inv None s1 Q) as I1 by (inv_frame I).
  assert (no_signal (proc s1 c) /\ g_current s1 = Some c /\ g_idle s1 = g_idle s /\ proc s1 c = proc s c)
    as (Hn1 & Hc1 & <- & Ep) by done. clearbody s1. rewrite <- Ep.
  assert (sched_inv None (tick_account rsp c s1) Q) as I2 by (by apply inv_keep).
  assert (exists p', proc (tick_account rsp c s1) c = p' /\ core p' = core (proc s1 c)
    /\ time_slice p' = time_slice (proc s1 c) /\ kernel_rsp p' = rsp /\ (no_signal (proc s1 c) -> no_signal p'))
    as (p' & E1 & E2 & E3 & E4 & E5).
  { unfold tick_account, upd. eexists. rewrite proc_set_same by (done || apply (q_len _ _ (si_q _ _ _ I1))). done. }
  rewrite E1. split; [done|]. split; [done|]. split; [done|]. split; [done|]. split; [done|]. split; [done|].
  apply prepare_no_signal. rewrite E1. by apply E5.
Qed.

Lemma schedule_tick_spec s Q i c rsp :
  sched_inv None s Q -> g_idle s = Some i -> g_current s = Some c -> state (proc s c) = PROCESS_RUNNING ->
  no_signal (proc s c) ->
  let p := proc s c in
  let slice := next_slice (is_idle p) (time_slice p) in
  let '(n, Q') := abstract_tick i c (is_idle p) slice (priority p) Q in
  let '(rsp', handler, s') := process_schedule_tick process_entry_resume rsp s in
  sched_inv None s' Q' /\ g_current s' = Some n /\ g_idle s' = Some i /\ state (proc s' n) = PROCESS_RUNNING
  /\ handler = None
  /\ (if keeps_cpu (is_idle p) slice (priority p) Q then rsp' = rsp /\ time_slice (proc s' c) = slice
      else rsp' = if kernel_rsp (proc s' n) =? 0 then rsp else kernel_rsp (proc s' n)).
Proof.
  intros I Hi Hc Hs Hn. cbv zeta. unfold abstract_tick, process_schedule_tick.
  change (g_current (s <| g_sched_ticks := u64 (g_sched_ticks s + 1) |>)) with (g_current s). rewrite Hc.
  destruct (tick_head s Q c rsp I Hc Hn) as (I2 & Hc2 & Hi2 & [= _ Ef Es Ep _ _ _] & Et & Er & Eprep).
  set (s2 := tick_account rsp c _) in *. clearbody s2. rewrite Es, (bool_decide_true _ Hs), Eprep.
  destruct (tick_running rsp c s2) as [early s3] eqn:E3.
  destruct (tick_running_spec s2 Q c rsp early s3 I2 Hc2 E3) as (Hc3 & Hi3 & Hn3 & Hspec).
  cbv zeta in Hspec. rewrite Es, (bool_decide_true _ Hs), Ef, Et, Ep, Er in Hspec.
  destruct (keeps_cpu _ _ _ _).
  - destruct Hspec as (I3 & -> & Et3 & [= _ _ Es3 _ _ _ _]). split; [done|]. split; [done|]. split; [congruence|].
    split; [congruence|]. split; [done|]. split; [by destruct (Z.eqb_spec rsp 0)|done].
  - destruct Hspec as [I3 ->].
    pose proof (fun r s' => choose_and_switch_spec process_entry_resume s3 _ i (Some c) r s' I3 (Hn3 eq_refl)
      ltac:(congruence)) as Hcs. unfold choose_and_switch in Hcs.
    destruct (pick_next s3) as [n s4]. destruct (switch_to _ _ n s4) as [r s5].
    specialize (Hcs r s5 eq_refl).
    destruct (fifo_next i _) as [n' Q']. destruct Hcs as (-> & I5 & Hc5 & Hi5 & Hs5).
    split; [done|]. split; [done|]. split; [congruence|]. split; [done|]. by split.
Qed.

(** C10. A timer tick refines the abstract scheduler.  In any state reached by allowed calls
    ([call_allowed], as in [sched_run_invariant]) with an idle process, whose current process is
    RUNNING and has no signal to take, the run queues represent FIFO queues [Q]; the tick ends in a
    state that represents what [abstract_tick] makes of them, with the process it chooses current
    and RUNNING; the stack pointer returned is the chosen process's saved one (the interrupted one
    when the process keeps the processor, whose time slice then is one tick shorter). *)
Theorem schedule_tick_refines s i c rsp :
  reachable s -> g_idle s = Some i -> g_current s = Some c -> state (proc s c) = PROCESS_RUNNING ->
  no_signal (proc s c) ->
  let p := proc s c in
  let slice := next_slice (is_idle p) (time_slice p) in
  exists Q, queues s Q /\
    let '(n, Q') := abstract_tick i c (is_idle p) slice (priority p) Q in
    let '(rsp', handler, s') := process_schedule_tick process_entry_resume rsp s in
    queues s' Q' /\ g_current s' = Some n /\ state (proc s' n) = PROCESS_RUNNING /\ handler = None
    /\ (if keeps_cpu (is_idle p) slice (priority p) Q then rsp' = rsp /\ time_slice (proc s' c) = slice
        else rsp' = if kernel_rsp (proc s' n) =? 0 then rsp else kernel_rsp (proc s' n)).
Proof.
  intros [Q I]%reachable_ok Hi Hc Hs Hn p slice. exists Q. split; [apply (si_q _ _ _ I)|].
  pose proof (schedule_tick_spec s Q i c rsp I Hi Hc Hs Hn) as R. cbv zeta in R. fold p slice in R.
  destruct (abstract_tick _ _ _ _ _ _) as [n Q']. destruct (process_schedule_tick _ rsp s) as [[rsp' h] s'].
  destruct R as (I' & A & _ & B & C & D). split; [apply (si_q _ _ _ I')|]. done.
Qed.
End scheduler.

(** ** An environment with shared memory

    The machine, the SHM tables and the TSS stack; a process without open files. *)

Record shm_env := mkShmEnv { se_machine : machine; se_shm : shm_sys; se_rsp0 : Z }.

#[export] Instance shm_env_ops : ProcessEnv shm_env := {
  env_machine := se_machine;
  env_put_machine m e := mkShmEnv m (se_shm e) (se_rsp0 e);
  shm_cleanup p e := let '(p', m, sh) := shm_process_cleanup p (se_machine e) (se_shm e) in
                     (p', mkShmEnv m sh (se_rsp0 e));
  vfs_cleanup p e := (p, e);
  vfs_inherit p _ e := (p, e);
  vfs_dup2 p _ _ _ e := (-1, p, e);
  gui_cleanup _ e := e;
  kfree_env _ e := e;
  tss_set_rsp0 v e := mkShmEnv (se_machine e) (se_shm e) v;
}.

#[export] Instance shm_env_laws : ProcessEnvLaws shm_env.
Proof.
  split; intros; [done| |by destruct p..].
  cbn [shm_cleanup shm_env_ops]. unfold shm_process_cleanup.
  destruct (shm_cleanup_attachments _ _) as [b sh1]. destruct (shm_cleanup_unmap _ _ _) as [m sp].
  destruct (shm_cleanup_reap _ _ _) as [m2 sh2]. reflexivity.
Qed.


Definition ex_calls : list call :=
  [CallSpawn None 0x1000; CallSpawn None 0x2000; CallTick 0x5000; CallSetPriority 4 7; CallTick 0x6000;
   CallKill 1 PROCESS_SIGUSR1; CallExit 3; CallTick 0x7000; CallWait 1 4 0; CallYield].
Definition ex_env : shm_env := mkShmEnv ex_machine0 shm_zero 0.
Definition ex_sched0 : sched shm_env := process_init 0xdead (sched_zero ex_env).

Fixpoint run_calls (cs : list call) (s : sched shm_env) : sched shm_env :=
  match cs with [] => s | c :: cs' => run_calls cs' (run_call 0xdead c s) end.
Fixpoint calls_allowed (cs : list call) (s : sched shm_env) : bool :=
  match cs with [] => true | c :: cs' => call_allowed c s && calls_allowed cs' (run_call 0xdead c s) end.

Lemma run_calls_reachable cs s :
  reachable 0xdead s -> calls_allowed cs s = true -> reachable 0xdead (run_calls cs s).
Proof.
  revert s. induction cs as [|c cs IH]; intros s Hr Ha; [done|]. simpl in *.
  apply andb_true_iff in Ha as [Ha1 Ha2]. apply IH; [|done]. by apply reach_call.
Qed.

Lemma sched_run_invariant_witness :
  calls_allowed ex_calls ex_sched0 = true /\
  exists Q, queues (run_calls ex_calls ex_sched0) Q
    /\ (forall k, slot_ok k -> (exists pri, slot_ok pri /\ k ∈ Q pri) <-> ready (run_calls ex_calls ex_sched0) k)
    /\ (forall k, slot_ok k -> state (proc (run_calls ex_calls ex_sched0) k) = PROCESS_RUNNING ->
          used (proc (run_calls ex_calls ex_sched0) k) = true /\ g_current (run_calls ex_calls ex_sched0) = Some k).
Proof.
  assert (calls_allowed ex_calls ex_sched0 = true) as Ha by (vm_compute; reflexivity).
  split; [exact Ha|]. apply (sched_run_invariant 0xdead), run_calls_reachable; [apply reach_init|exact Ha].
Defined.

(** After the first tick: slot 2 runs, slot 3 is queued behind it. *)
Definition ex_sched1 : sched shm_env := run_calls (take 3 ex_calls) ex_sched0.

Lemma run_calls_ok cs s : sched_ok s -> calls_allowed cs s = true -> sched_ok (run_calls cs s).
Proof.
  revert s. induction cs as [|c cs IH]; intros s Hok Ha; [done|]. simpl in *. apply andb_true_iff in Ha as [H1 H2].
  apply IH; [by apply run_call_ok|done].
Qed.

Lemma ex_sched1_inv : sched_ok ex_sched1.
Proof. apply run_calls_ok; [apply ok_process_init|vm_compute; reflexivity]. Qed.

Lemma ex_sched1_reachable : reachable 0xdead ex_sched1.
Proof. apply run_calls_reachable; [apply reach_init|vm_compute; reflexivity]. Qed.

Lemma schedule_tick_refines_witness :
  let p := proc ex_sched1 2 in
  let slice := next_slice (is_idle p) (time_slice p) in
  exists Q, queues ex_sched1 Q /\
    let '(n, Q') := abstract_tick 1 2 (is_idle p) slice (priority p) Q in
    let '(rsp', handler, s') := process_schedule_tick 0xdead 0x6000 ex_sched1 in
    queues s' Q' /\ g_current s' = Some n /\ state (proc s' n) = PROCESS_RUNNING /\ handler = None
    /\ (if keeps_cpu (is_idle p) slice (priority p) Q then rsp' = 0x6000 /\ time_slice (proc s' 2) = slice
        else rsp' = if kernel_rsp (proc s' n) =? 0 then 0x6000 else kernel_rsp (proc s' n)).
Proof.
  apply (schedule_tick_refines 0xdead ex_sched1 1 2 0x6000 ex_sched1_reachable); vm_compute; reflexivity.
Defined.
