(* ===== verification/Lifecycle.v ===== *)
(** Waiting, signals and kernel stacks of [src/proc/process.c]: what [process_waitpid] reaps, which
    signal is taken, and the frame a new process starts from. *)

From S2P Require Import Prelude Pmm Paging Vmm VmSpace ProcessData Shm Process RunQueue ProcessSched Scheduler.

(** ** The children list *)

Section children.
Context {E : Type}.
Implicit Types (s : sched E) (l : list Z).

(** [l] is the list of slots linked by [parent_next_child] from [o] up to [o']. *)
Fixpoint segment s (o : option Z) l (o' : option Z) : Prop :=
  match l with
  | [] => o = o'
  | c :: l' => o = Some c /\ slot_ok c /\ segment s (parent_next_child (proc s c)) l' o'
  end.
Definition child_list s o l : Prop := segment s o l None.

Lemma segment_app s o l1 l2 o' :
  segment s o (l1 ++ l2) o' <-> exists m, segment s o l1 m /\ segment s m l2 o'.
Proof.
  revert o. induction l1 as [|c l1 IH]; intros o; simpl.
  - split; [intros Hs; by exists o|by intros (m & -> & ?)].
  - rewrite IH. split; [intros (-> & Hc & m & H1 & H2); by exists m|intros (m & (-> & Hc & H1) & H2)].
    split; [done|]. split; [done|]. by exists m.
Qed.

Lemma segment_frame s s' o l o' :
  (forall c, c ∈ l -> parent_next_child (proc s' c) = parent_next_child (proc s c)) ->
  segment s o l o' -> segment s' o l o'.
Proof.
  revert o. induction l as [|c l IH]; intros o Hf; simpl; [done|].
  intros (-> & Hc & Hs). split; [done|]. split; [done|]. rewrite Hf by constructor.
  apply IH; [|done]. intros. apply Hf. by constructor.
Qed.

Lemma segment_slots s o l o' : segment s o l o' -> Forall slot_ok l.
Proof.
  revert o. induction l as [|c l IH]; intros o; simpl; [done|]. intros (_ & Hc & Hs).
  constructor; [done|by eapply IH].
Qed.

Lemma child_list_short s o l : child_list s o l -> NoDup l -> (length l <= 256)%nat.
Proof.
  intros Hs Hnd. apply segment_slots in Hs. rewrite Forall_forall in Hs.
  assert (length l <= length (seqZ 0 256))%nat as Hle; [|by rewrite length_seqZ in Hle].
  apply submseteq_length, NoDup_submseteq; [done|]. intros x Hx. apply elem_of_seqZ. apply Hs. done.
Qed.

(** ** The scan of [process_waitpid] *)

Definition reapable s (caller : process) (target c : Z) : bool :=
  wait_match_child caller (proc s c) target && bool_decide (state (proc s c) = PROCESS_ZOMBIE).

(** The list split at its first element with [p]. *)
Fixpoint split_at_first (p : Z -> bool) l : option (list Z * Z * list Z) :=
  match l with
  | [] => None
  | c :: l' =>
      if p c then Some ([], c, l') else
      match split_at_first p l' with
      | Some (l1, x, l2) => Some (c :: l1, x, l2)
      | None => None
      end
  end.

Lemma split_at_first_Some p l l1 c l2 :
  split_at_first p l = Some (l1, c, l2) -> l = l1 ++ c :: l2 /\ p c = true /\ Forall (fun x => p x = false) l1.
Proof.
  revert l1. induction l as [|x l IH]; intros l1; simpl; [done|].
  destruct (p x) eqn:Hp; [by intros [= <- -> ->]|].
  destruct (split_at_first p l) as [[[a y] b]|] eqn:Hs; [|done]. intros [= <- -> ->].
  destruct (IH a eq_refl) as (-> & ? & ?). split; [done|]. split; [done|]. by constructor.
Qed.

Lemma scan_spec s caller target : forall l fuel o any matched,
  child_list s o l -> (length l < fuel)%nat ->
  wait_scan_children fuel s caller target o any matched
  = match split_at_first (reapable s caller target) l with
    | Some (_, c, _) => WaitZombie c
    | None => WaitNone (any || negb (bool_decide (l = [])))
                (matched || existsb (fun c => wait_match_child caller (proc s c) target) l)
    end.
Proof.
  induction l as [|c l IH]; intros fuel o any matched Hl Hf; (destruct fuel as [|fuel]; simpl in Hf; [lia|]).
  - unfold child_list in Hl. simpl in Hl |- *. subst o. by rewrite !orb_false_r.
  - destruct Hl as (-> & Hc & Hl). cbn [wait_scan_children split_at_first existsb].
    assert (forall m, wait_scan_children fuel s caller target (parent_next_child (proc s c)) true m
      = match split_at_first (reapable s caller target) l with
        | Some (_, c, _) => WaitZombie c
        | None => WaitNone true (m || existsb (fun c => wait_match_child caller (proc s c) target) l)
        end) as Hrec.
    { intros m. by rewrite (IH fuel _ true m Hl) by lia. }
    rewrite (bool_decide_false (c :: l = [])) by done. rewrite orb_true_r.
    change (reapable s caller target c) with
      (wait_match_child caller (proc s c) target && bool_decide (state (proc s c) = PROCESS_ZOMBIE)).
    destruct (wait_match_child caller (proc s c) target); cbn [andb];
      [destruct (bool_decide (state (proc s c) = PROCESS_ZOMBIE)); [done|]|];
      rewrite Hrec; (destruct (split_at_first _ l) as [[[? ?] ?]|]; [done|by destruct matched]).
Qed.

(** ** Unlinking a child *)

Lemma upd_next s k f j :
  length (g_processes s) = 256%nat -> slot_ok k -> slot_ok j ->
  parent_next_child (proc (upd k f s) j) = if decide (j = k) then parent_next_child (f (proc s k)) else parent_next_child (proc s j).
Proof. intros. unfold upd. rewrite proc_upd by done. by case_decide. Qed.

(** The stores made when the walk reaches the child. *)
Definition unlink_here (par child : Z) (prev : option Z) s : sched E :=
  let next := parent_next_child (proc s child) in
  let s := match prev with
           | Some p => upd p (fun q => q <| parent_next_child := next |>) s
           | None => upd par (fun q => q <| children_head := next |>) s
           end in
  upd child (fun q => q <| parent_next_child := None |> <| parent := None |>) s.

Lemma unlink_walk_found s par child l2 : forall l1 fuel prev o,
  segment s o (l1 ++ child :: l2) None -> child ∉ l1 -> (length l1 < fuel)%nat ->
  unlink_walk fuel par child prev o s = unlink_here par child (match last l1 with Some p => Some p | None => prev end) s.
Proof.
  induction l1 as [|c l1 IH]; intros fuel prev o Hs Hn Hf; (destruct fuel as [|fuel]; simpl in Hf; [lia|]);
    destruct Hs as (-> & Hc & Hs); cbn [unlink_walk].
  - by rewrite Z.eqb_refl.
  - apply not_elem_of_cons in Hn as [Hne Hn]. rewrite (proj2 (Z.eqb_neq c child)) by done.
    rewrite (IH fuel (Some c) _ Hs Hn) by lia. rewrite last_cons. by destruct (last l1).
Qed.

Lemma unlink_here_list s par c l1 l2 :
  length (g_processes s) = 256%nat -> slot_ok par -> NoDup (l1 ++ c :: l2) -> par ∉ l1 ++ c :: l2 ->
  child_list s (children_head (proc s par)) (l1 ++ c :: l2) ->
  let s' := unlink_here par c (last l1) s in
  child_list s' (children_head (proc s' par)) (l1 ++ l2).
Proof.
  intros Hl Hp Hnd Hpar Hs s'. unfold child_list in *.
  pose proof (segment_slots _ _ _ _ Hs) as Hsl. rewrite Forall_forall in Hsl.
  assert (slot_ok c) as Hc by (apply Hsl; set_solver).
  apply segment_app in Hs as (m & H1 & (-> & _ & H2)).
  apply NoDup_app in Hnd as (Hnd1 & Hd & Hnd2). apply NoDup_cons in Hnd2 as [Hc2 Hnd2].
  assert (c ∉ l1) as Hc1 by (intros Hx; apply (Hd c Hx); set_solver).
  destruct l1 as [|x l1'] using rev_ind; [|clear IHl1'].
  - cbn [segment] in H1. subst s'. unfold unlink_here. cbn [last app].
    set (s1 := upd par _ s).
    assert (length (g_processes s1) = 256%nat) as Hl1 by (unfold s1, upd; by rewrite length_set_proc).
    assert (children_head (proc (upd c (fun q => q <| parent_next_child := None |> <| parent := None |>) s1) par)
            = parent_next_child (proc s c)) as ->.
    { unfold upd at 1. rewrite proc_upd by done. rewrite decide_False by set_solver.
      unfold s1, upd. by rewrite proc_set_same. }
    eapply segment_frame; [|exact H2]. intros y Hy. assert (slot_ok y) by (apply Hsl; set_solver).
    rewrite upd_next by done. rewrite decide_False by (intros ->; done).
    unfold s1. rewrite upd_next by done. by case_decide as D; [rewrite D|].
  - assert (slot_ok x) as Hx by (apply Hsl; set_solver).
    apply segment_app in H1 as (m & H1 & (-> & _ & Hnx)).
    subst s'. unfold unlink_here. rewrite last_snoc. set (s1 := upd x _ s).
    assert (length (g_processes s1) = 256%nat) as Hl1 by (unfold s1, upd; by rewrite length_set_proc).
    set (s2 := upd c _ s1).
    assert (children_head (proc s2 par) = children_head (proc s par)) as ->.
    { unfold s2, upd. rewrite proc_upd by done. rewrite decide_False by set_solver.
      unfold s1, upd. rewrite proc_upd by done. by rewrite decide_False by set_solver. }
    assert (forall y, y ∈ l1' ++ l2 -> y <> x -> parent_next_child (proc s2 y) = parent_next_child (proc s y)) as Hk.
    { intros y Hy Hne. assert (slot_ok y) by (apply Hsl; set_solver).
      unfold s2. rewrite upd_next by done. rewrite decide_False by (intros ->; set_solver).
      unfold s1. rewrite upd_next by done. by rewrite decide_False. }
    assert (parent_next_child (proc s2 x) = parent_next_child (proc s c)) as Hx2.
    { unfold s2. rewrite upd_next by done. rewrite decide_False by set_solver.
      unfold s1. rewrite upd_next by done. by rewrite decide_True. }
    apply NoDup_app in Hnd1 as (_ & Hx1 & _).
    apply segment_app. exists (parent_next_child (proc s c)). split.
    + apply segment_app. exists (Some x). split; [|by cbn [segment]].
      eapply segment_frame; [|exact H1]. intros y Hy. apply Hk; [set_solver|]. intros ->. apply (Hx1 x Hy). set_solver.
    + eapply segment_frame; [|exact H2]. intros y Hy. apply Hk; [set_solver|]. intros ->.
      apply (Hd x); set_solver.
Qed.
End children.

Section wait.
Context {E : Type} `{ProcessEnvLaws E}.
Implicit Types (s : sched E) (l : list Z).

Lemma core_upd s k f j :
  length (g_processes s) = 256%nat -> slot_ok k -> slot_ok j -> (forall p, core (f p) = core p) ->
  core (proc (upd k f s) j) = core (proc s j).
Proof. intros Hl Hk Hj Hf. unfold upd. rewrite proc_upd by done. case_decide as D; [by rewrite D, Hf|done]. Qed.

Lemma unlink_here_core s par c prev j :
  length (g_processes s) = 256%nat -> slot_ok par -> slot_ok c -> (forall p, prev = Some p -> slot_ok p) -> slot_ok j ->
  core (proc (unlink_here par c prev s) j) = core (proc s j)
  /\ length (g_processes (unlink_here par c prev s)) = 256%nat.
Proof.
  intros Hl Hp Hc Hprev Hj. unfold unlink_here. set (s1 := match prev with Some _ => _ | None => _ end).
  assert (core (proc s1 j) = core (proc s j) /\ length (g_processes s1) = 256%nat) as [E1 L1].
  { unfold s1. destruct prev as [p|]; (split; [|unfold upd; by rewrite length_set_proc]);
      apply core_upd; try done. by apply Hprev. }
  clearbody s1. split; [rewrite <- E1; by apply core_upd|]. unfold upd. by rewrite length_set_proc.
Qed.

(** Reaping child [c] of slot [k]. *)
Lemma reap_spec s Q k l1 c l2 :
  sched_inv None s Q -> slot_ok k -> child_list s (children_head (proc s k)) (l1 ++ c :: l2) ->
  NoDup (l1 ++ c :: l2) -> k ∉ l1 ++ c :: l2 ->
  let s' := reset_process_slot_locked c (parent_unlink_child_locked k c s) in
  used (proc s' c) = false /\ child_list s' (children_head (proc s' k)) (l1 ++ l2)
  /\ forall j, slot_ok j -> j <> c -> core (proc s' j) = core (proc s j).
Proof.
  intros I Hk Hl Hnd Hkl s'. pose proof (q_len _ _ (si_q _ _ _ I)) as Hlen.
  pose proof (segment_slots _ _ _ _ Hl) as Hsl. rewrite Forall_forall in Hsl.
  assert (slot_ok c) as Hc by (apply Hsl; set_solver).
  destruct (inv_unlink_child s Q k c I Hk Hc) as (I1 & _).
  assert (parent_unlink_child_locked k c s = upd k (remove_child_entry c) (unlink_here k c (last l1) s)) as Eu.
  { unfold parent_unlink_child_locked. f_equal. rewrite (unlink_walk_found s k c l2 l1); [by destruct (last l1)|done| |].
    - apply NoDup_app in Hnd as (_ & Hd & _). intros Hx. apply (Hd c Hx). set_solver.
    - pose proof (child_list_short s _ _ Hl Hnd) as Hs. rewrite length_app in Hs. simpl in Hs.
      unfold PROCESS_MAX_COUNT. lia. }
  assert (forall p, last l1 = Some p -> slot_ok p) as Hlast.
  { intros p Hp%last_Some_elem_of. apply Hsl. set_solver. }
  pose proof (unlink_here_list s k c l1 l2 Hlen Hk Hnd Hkl Hl) as H1. cbv zeta in H1.
  pose proof (fun j Hj => unlink_here_core s k c (last l1) j Hlen Hk Hc Hlast Hj) as H2.
  set (s1 := unlink_here k c (last l1) s) in *. clearbody s1.
  assert (length (g_processes s1) = 256%nat) as Hlen1 by (apply (H2 k Hk)).
  set (s2 := parent_unlink_child_locked k c s) in *.
  assert (forall j, slot_ok j -> core (proc s2 j) = core (proc s j) /\ kids s2 j = kids s1 j) as H3.
  { intros j Hj. destruct (H2 j Hj) as [Ej _]. rewrite Eu, <- Ej.
    destruct (remove_child_entry_keeps c (proc s1 k)) as (A & B & C).
    unfold kids, upd. rewrite proc_upd by done. case_decide as D; [by rewrite D, A, B, C|done]. }
  destruct (keeps_free_resources c s2 Hc None Q I1) as (I3 & _ & _ & _ & K3 & F3).
  assert (s' = upd c (fun p => p <| used := false |> <| state := PROCESS_DEAD |> <| shm_attachment_count := 0 |>
    <| rq_next := None |> <| next_queue := None |> <| prev_queue := None |> <| parent := None |>
    <| child_count := 0 |> <| children_head := None |> <| parent_next_child := None |>)
    (free_process_resources_locked c s2)) as -> by done.
  set (s3 := free_process_resources_locked c s2) in *. clearbody s3 s2.
  pose proof (q_len _ _ (si_q _ _ _ I3)) as Hlen3. unfold upd. split; [by rewrite proc_set_same|]. split.
  - rewrite (proc_upd _ _ _ k) by done. rewrite decide_False by set_solver.
    pose proof (K3 k Hk) as [= E3 _]. destruct (H3 k Hk) as [_ [= E4 _]]. rewrite E3, E4.
    eapply segment_frame; [|exact H1]. intros y Hy. assert (slot_ok y) as Hy' by (apply Hsl; set_solver).
    rewrite (proc_upd _ _ _ y) by done. rewrite decide_False.
    + pose proof (K3 y Hy') as [= _ E5]. destruct (H3 y Hy') as [_ [= _ E6]]. congruence.
    + intros ->. apply NoDup_app in Hnd as (_ & Hd & Hn). apply NoDup_cons in Hn as [Hn _].
      apply elem_of_app in Hy as [Hy|Hy]; [apply (Hd c Hy); set_solver|done].
  - intros j Hj Hne. rewrite (proc_upd _ _ _ j) by done. rewrite decide_False by done. rewrite F3 by done. by apply H3.
Qed.

(** C12. [process_waitpid] on a process with children list [l]: the first child of the list that
    matches the request and is a zombie is reaped (its pid and wait status are returned, its slot
    is freed, it leaves the list, and no other process's state or queue links change); without
    one the call fails when no child matches, returns 0 under WNOHANG, blocks the caller when the
    caller is the current process, and otherwise returns -2. *)
Theorem process_waitpid_spec s Q caller target options k l :
  sched_inv None s Q -> find_by_pid_locked caller s = Some k ->
  child_list s (children_head (proc s k)) l -> NoDup l -> k ∉ l ->
  match split_at_first (reapable s (proc s k) target) l with
  | Some (l1, c, l2) =>
      exists s', process_waitpid caller target options s
                 = (WaitReturn (i32 (pid (proc s c))) (Some (wait_status (proc s c))), s')
        /\ used (proc s' c) = false /\ child_list s' (children_head (proc s' k)) (l1 ++ l2)
        /\ forall j, slot_ok j -> j <> c -> core (proc s' j) = core (proc s j)
  | None =>
      process_waitpid caller target options s =
        if negb (existsb (fun c => wait_match_child (proc s k) (proc s c) target) l) then (WaitReturn (-1) None, s)
        else if negb (Z.land options PROCESS_WAIT_WNOHANG =? 0) then (WaitReturn 0 None, s)
        else match g_current s with
             | Some c => if pid (proc s c) =? pid (proc s k)
                         then (WaitBlock, upd c (set_state PROCESS_BLOCKED THREAD_BLOCKED) s)
                         else (WaitReturn (-2) None, s)
             | None => (WaitReturn (-2) None, s)
             end
  end.
Proof.
  intros I Hf Hl Hnd Hkl. destruct (inv_find_pid _ _ _ _ _ I Hf) as (Hk & _ & _).
  unfold process_waitpid. rewrite Hf. cbv zeta.
  rewrite (scan_spec s (proc s k) target l) by (done || (pose proof (child_list_short s _ _ Hl Hnd);
    unfold PROCESS_MAX_COUNT; lia)).
  destruct (split_at_first _ l) as [[[l1 c] l2]|] eqn:Hs.
  - apply split_at_first_Some in Hs as (-> & _). eexists. split; [done|]. by apply (reap_spec s Q).
  - cbn [orb]. assert (existsb (fun c => wait_match_child (proc s k) (proc s c) target) l = true -> l <> []) as Hne
      by (by intros ? ->).
    destruct (existsb _ l); [|by rewrite orb_true_r]. by rewrite (bool_decide_false _ (Hne eq_refl)).
Qed.
End wait.

(** Slot 3 (pid 4) has exited; slot 0 has the children 3 and 2. *)
Definition ex_wait : sched shm_env := run_calls (take 8 ex_calls) ex_sched0.

Lemma process_waitpid_spec_witness :
  split_at_first (reapable ex_wait (proc ex_wait 0) 4) [3; 2] = Some ([], 3, [2])
  /\ exists s', process_waitpid 1 4 0 ex_wait
                = (WaitReturn (i32 (pid (proc ex_wait 3))) (Some (wait_status (proc ex_wait 3))), s')
       /\ used (proc s' 3) = false /\ child_list s' (children_head (proc s' 0)) [2]
       /\ forall j, slot_ok j -> j <> 3 -> core (proc s' j) = core (proc ex_wait j).
Proof.
  assert (sched_ok ex_wait) as [Q I].
  { apply run_calls_ok; [apply ok_process_init|vm_compute; reflexivity]. }
  assert (split_at_first (reapable ex_wait (proc ex_wait 0) 4) [3; 2] = Some ([], 3, [2])) as Hs
    by (vm_compute; reflexivity).
  split; [exact Hs|].
  pose proof (process_waitpid_spec ex_wait Q 1 4 0 0 [3; 2] I) as Hw. rewrite Hs in Hw. apply Hw.
  - vm_compute. reflexivity.
  - vm_compute. by repeat split.
  - apply (proj1 (bool_decide_eq_true _)). reflexivity.
  - apply (proj1 (bool_decide_eq_true _)). reflexivity.
Defined.

(** ** Signals *)

Section signals.
Context {E : Type} `{ProcessEnvLaws E}.
Implicit Types (s : sched E).

(** Signal [sig] is pending and not blocked. *)
Definition deliverable (p : process) (sig : Z) : bool :=
  Z.testbit (signal_pending p) sig && negb (Z.testbit (signal_mask p) sig).

Lemma sig_bit_shift sig : 0 <= sig < 64 -> sig_bit sig = Z.shiftl 1 sig.
Proof.
  intros Hs. unfold sig_bit. apply u64_id. unfold is_u64. rewrite Z.shiftl_1_l. split; [lia|].
  change 0x10000000000000000 with (2 ^ 64). apply Z.pow_lt_mono_r; lia.
Qed.

Lemma lnot_testbit z i : 0 <= i < 64 -> Z.testbit (u64 (Z.lnot z)) i = negb (Z.testbit z i).
Proof. intros. unfold u64. change 0x10000000000000000 with (2 ^ 64). rewrite testbit_mod_pow2, Z.lnot_spec by lia. done. Qed.

Lemma signal_pick_from_spec mask : forall n sig, 0 <= sig -> sig + Z.of_nat n <= 64 ->
  let r := signal_pick_from n sig mask in
  (r = -1 /\ forall j, sig <= j < sig + Z.of_nat n -> Z.testbit mask j = false)
  \/ (sig <= r < sig + Z.of_nat n /\ Z.testbit mask r = true /\ forall j, sig <= j < r -> Z.testbit mask j = false).
Proof.
  induction n as [|n IH]; intros sig Hs Hn; simpl.
  - left. split; [done|]. lia.
  - rewrite sig_bit_shift by lia. change (negb (Z.land mask (Z.shiftl 1 sig) =? 0)) with (bit_test mask sig).
    rewrite bit_test_spec by done. destruct (Z.testbit mask sig) eqn:Ht.
    + right. split; [lia|]. split; [done|]. lia.
    + destruct (IH (sig + 1)) as [[E1 Hno]|(Hr & Htr & Hlt)]; [lia|lia| |].
      * left. split; [done|]. intros j Hj. destruct (decide (j = sig)) as [->|]; [done|]. apply Hno. lia.
      * right. split; [lia|]. split; [done|]. intros j Hj.
        destruct (decide (j = sig)) as [->|]; [done|]. apply Hlt. lia.
Qed.

(** C13. The signal a running process takes is the lowest deliverable one from 1 to 63, and
    exactly its pending bit is cleared: an ignored signal has no other effect, a default action,
    SIGKILL and SIGINT end the process with that signal as its status, and any other handler is
    returned to be called.  Without a deliverable signal nothing changes. *)
Theorem signal_delivery s k :
  length (g_processes s) = 256%nat -> slot_ok k ->
  state (proc s k) <> PROCESS_ZOMBIE -> state (proc s k) <> PROCESS_DEAD ->
  let p := proc s k in
  (forall sig, 1 <= sig < 64 -> deliverable p sig = true -> (forall j, 1 <= j < sig -> deliverable p j = false) ->
    exists s1, s1 = upd k (fun p => p <| signal_pending := signal_pending (proc s1 k) |>) s
      /\ (forall j, 0 <= j < 64 ->
            Z.testbit (signal_pending (proc s1 k)) j = if sig =? j then false else Z.testbit (signal_pending p) j)
      /\ prepare_signal_action_locked k s =
           let h := aget (signal_handlers p) sig in
           if h =? PROCESS_SIG_IGN then (None, s1) else
           if (h =? PROCESS_SIG_DFL) || (sig =? PROCESS_SIGKILL) || (sig =? PROCESS_SIGINT)
           then (None, mark_zombie_locked k (WAIT_STATUS_SIGNAL sig) s1) else (Some (h, sig), s1))
  /\ ((forall j, 1 <= j < 64 -> deliverable p j = false) -> prepare_signal_action_locked k s = (None, s)).
Proof.
  intros Hl Hk Hz Hd p. unfold prepare_signal_action_locked. fold p.
  rewrite (bool_decide_false _ Hz), (bool_decide_false _ Hd). cbn [orb].
  set (mask := Z.land (signal_pending p) (u64 (Z.lnot (signal_mask p)))).
  assert (forall j, 0 <= j < 64 -> Z.testbit mask j = deliverable p j) as Hm.
  { intros j Hj. unfold mask. by rewrite Z.land_spec, lnot_testbit. }
  destruct (signal_pick_from_spec mask 63 1) as [[E1 Hno]|(Hr & Htr & Hlt)]; [lia|lia|..];
    fold (signal_pick_lowest mask) in *.
  - split.
    + intros sig Hs Hdel _. rewrite <- Hm, Hno in Hdel by lia. done.
    + intros _. rewrite E1. by destruct (mask =? 0).
  - assert (mask <> 0) as Hne by (intros E0; by rewrite E0, Z.bits_0 in Htr).
    rewrite (proj2 (Z.eqb_neq _ _) Hne). split.
    + intros sig Hs Hdel Hlow.
      assert (signal_pick_lowest mask = sig) as ->.
      { destruct (Z.lt_trichotomy (signal_pick_lowest mask) sig) as [Hx|[Hx|Hx]]; [|done|].
        - rewrite Hm, Hlow in Htr by lia. done.
        - rewrite <- Hm, Hlt in Hdel by lia. done. }
      rewrite (proj2 (Z.ltb_ge sig 0)) by lia.
      set (s1 := upd k _ s). exists s1.
      assert (signal_pending (proc s1 k) = Z.land (signal_pending p) (u64 (Z.lnot (sig_bit sig)))) as Ep.
      { unfold s1, upd. by rewrite proc_set_same. }
      split; [by rewrite Ep|]. split; [|done]. intros j Hj. rewrite Ep, sig_bit_shift by lia.
      apply (testbit_clear_bit _ 64); lia.
    + intros Hno. rewrite Hm, Hno in Htr by lia. done.
Qed.
End signals.

Definition ex_sig : sched shm_env :=
  upd 2 (fun p => p <| signal_pending := Z.lor (Z.shiftl 1 10) (Z.shiftl 1 12) |>
                    <| signal_handlers := aset 10 0x9000 (signal_handlers p) |>) ex_sched1.

Lemma signal_delivery_witness :
  (prepare_signal_action_locked 2 ex_sig).1 = Some (0x9000, 10)
  /\ Z.testbit (signal_pending (proc (prepare_signal_action_locked 2 ex_sig).2 2)) 12 = true.
Proof.
  destruct (signal_delivery ex_sig 2) as [A _].
  - vm_compute. reflexivity.
  - unfold slot_ok. lia.
  - vm_compute. discriminate.
  - vm_compute. discriminate.
  - destruct (A 10) as (s1 & _ & Hb & ->).
    + lia.
    + vm_compute. reflexivity.
    + intros j Hj. assert (forallb (fun j => negb (deliverable (proc ex_sig 2) j)) (seqZ 1 9) = true) as Hf
        by (vm_compute; reflexivity).
      rewrite forallb_forall in Hf. apply negb_true_iff, Hf, list_elem_of_In, elem_of_seqZ. lia.
    + assert (aget (signal_handlers (proc ex_sig 2)) 10 = 0x9000) as -> by (vm_compute; reflexivity).
      split; [reflexivity|]. cbn [snd]. change (0x9000 =? PROCESS_SIG_IGN) with false.
      change ((0x9000 =? PROCESS_SIG_DFL) || (10 =? PROCESS_SIGKILL) || (10 =? PROCESS_SIGINT)) with false.
      cbn [snd]. rewrite Hb by lia. vm_compute. reflexivity.
Defined.

(** ** The initial frame *)

Section context.
Context {E : Type} `{ProcessEnvLaws E}.
Variable process_entry_resume : Z.

(** A kernel stack in the direct map, with the words behind it. *)
Definition stack_ok (m : machine) (stack : Z) : Prop :=
  0 < stack /\ stack mod 16 = 0 /\ stack + PROCESS_STACK_SIZE + 128 <= 2 ^ 64
  /\ 0 <= g_hhdm_offset m <= stack.

Lemma stack_phys m stack d :
  stack_ok m stack -> 0 <= d < PROCESS_STACK_SIZE + 128 ->
  vmm_virt_to_phys m (stack + d) = stack - g_hhdm_offset m + d.
Proof.
  intros (H1 & H2 & H3 & H4) Hd. unfold vmm_virt_to_phys. destruct (Z.eqb_spec (g_hhdm_offset m) 0) as [->|Hne].
  - cbn [negb andb]. lia.
  - rewrite (proj2 (Z.leb_le _ _)) by lia. cbn [negb andb]. rewrite u64_id; [lia|].
    unfold is_u64, PROCESS_STACK_SIZE in *. lia.
Qed.

Lemma context_top_eq m stack : stack_ok m stack -> context_top stack = stack + PROCESS_STACK_SIZE - 24.
Proof.
  intros (H1 & H2 & H3 & _). unfold context_top, PROCESS_STACK_SIZE, PROCESS_CONTEXT_TOP_BIAS in *.
  rewrite (u64_id (stack + _)) by (unfold is_u64; lia).
  change (u64 (Z.lnot 15)) with (2 ^ 64 - 2 ^ 4). rewrite (land_high_mask _ 4 64) by lia.
  change (2 ^ 4) with 16.
  replace ((stack + 32 * 1024) / 16 * 16) with (stack + 32 * 1024) by (Z.div_mod_to_equations; lia).
  apply u64_id. unfold is_u64. lia.
Qed.

Lemma context_sp_eq m stack : stack_ok m stack -> context_sp stack = stack + PROCESS_STACK_SIZE - 176.
Proof.
  intros Hs. unfold context_sp. rewrite (context_top_eq m) by done. destruct Hs as (H1 & H2 & H3 & _).
  unfold PROCESS_CONTEXT_IRET_INDEX, PROCESS_STACK_SIZE in *. rewrite u64_id by (unfold is_u64; lia). lia.
Qed.

(** Word [i] of the frame of a stack, as a virtual address. *)
Definition frame_slot (stack i : Z) : Z := stack + PROCESS_STACK_SIZE - 176 + 8 * i.

Lemma frame_slot_eq m stack i : stack_ok m stack -> 0 <= i < 37 -> u64 (context_sp stack + 8 * i) = frame_slot stack i.
Proof.
  intros Hs Hi. rewrite (context_sp_eq m) by done. destruct Hs as (H1 & H2 & H3 & _). unfold frame_slot.
  apply u64_id. unfold is_u64, PROCESS_STACK_SIZE in *. lia.
Qed.

Lemma write_qword_offset va v m : g_hhdm_offset (write_qword va v m) = g_hhdm_offset m.
Proof. done. Qed.

Lemma virt_to_phys_offset m m' va : g_hhdm_offset m' = g_hhdm_offset m -> vmm_virt_to_phys m' va = vmm_virt_to_phys m va.
Proof. unfold vmm_virt_to_phys. by intros ->. Qed.

(** Reading a frame word after writing one. *)
Lemma read_write_slot m0 m stack i j v :
  stack_ok m0 stack -> g_hhdm_offset m = g_hhdm_offset m0 -> 0 <= i < 37 -> 0 <= j < 37 ->
  read_qword (write_qword (frame_slot stack i) v m) (frame_slot stack j)
  = if i =? j then v else read_qword m (frame_slot stack j).
Proof.
  intros Hs Ho Hi Hj. unfold read_qword. rewrite (virt_to_phys_offset m) by done.
  change (m_mem (write_qword (frame_slot stack i) v m)) with (<[vmm_virt_to_phys m (frame_slot stack i) := v]> (m_mem m)).
  rewrite !(virt_to_phys_offset m0 m) by done. unfold frame_slot.
  replace (stack + PROCESS_STACK_SIZE - 176 + 8 * i) with (stack + (PROCESS_STACK_SIZE - 176 + 8 * i)) by lia.
  replace (stack + PROCESS_STACK_SIZE - 176 + 8 * j) with (stack + (PROCESS_STACK_SIZE - 176 + 8 * j)) by lia.
  rewrite !stack_phys by (done || (unfold PROCESS_STACK_SIZE; lia)).
  destruct (Z.eqb_spec i j) as [->|Hne].
  - by rewrite lookup_insert_eq.
  - by rewrite lookup_insert_ne by lia.
Qed.

(** A machine that differs from [m] only in the frame words [0 .. 36] of the stack. *)
Definition frame_only (stack : Z) (m m' : machine) : Prop :=
  g_hhdm_offset m' = g_hhdm_offset m /\ m_pmm m' = m_pmm m /\ m_cr3 m' = m_cr3 m
  /\ forall a, (forall i, 0 <= i < 37 -> a <> vmm_virt_to_phys m (frame_slot stack i)) -> m_mem m' !! a = m_mem m !! a.

Lemma frame_only_refl stack m : frame_only stack m m.
Proof. done. Qed.

Lemma frame_only_write stack m m' i v :
  frame_only stack m m' -> 0 <= i < 37 -> frame_only stack m (write_qword (frame_slot stack i) v m').
Proof.
  intros (Ho & Hp & Hc & Hf) Hi. split; [done|]. split; [done|]. split; [done|]. intros a Ha.
  change (m_mem (write_qword (frame_slot stack i) v m')) with (<[vmm_virt_to_phys m' (frame_slot stack i) := v]> (m_mem m')).
  rewrite lookup_insert_ne; [by apply Hf|]. rewrite (virt_to_phys_offset m m') by done. intros Hx. by apply (Ha i).
Qed.

(** A loop of zero stores at the words [lo ..]. *)
Lemma zero_words m0 stack lo n (addr : Z -> Z) m :
  stack_ok m0 stack -> frame_only stack m0 m -> 0 <= lo -> lo + Z.of_nat n <= 37 ->
  (forall i, 0 <= i < Z.of_nat n -> addr i = frame_slot stack (lo + i)) ->
  let m' := for_up n 0 (fun i m => write_qword (addr i) 0 m) m in
  frame_only stack m0 m' /\ forall j, 0 <= j < 37 ->
    read_qword m' (frame_slot stack j) = (if (lo <=? j) && (j <? lo + Z.of_nat n) then 0 else read_qword m (frame_slot stack j)).
Proof.
  intros Hs Hf Hlo Hn Haddr. cbv zeta.
  set (I := fun (k : Z) (m' : machine) => frame_only stack m0 m' /\ forall j, 0 <= j < 37 ->
    read_qword m' (frame_slot stack j) = (if (lo <=? j) && (j <? lo + k) then 0 else read_qword m (frame_slot stack j))).
  pose proof (for_up_inv I n 0 (fun i m => write_qword (addr i) 0 m) m) as Hinv.
  unfold I in Hinv. rewrite Z.add_0_l in Hinv. apply Hinv; clear Hinv.
  - split; [done|]. intros j Hj. destruct (Z.leb_spec lo j); [|done].
    by rewrite (proj2 (Z.ltb_ge j (lo + 0))) by lia.
  - intros k m' Hk [Hf' Hr]. rewrite Haddr by lia. split; [apply frame_only_write; [done|lia]|].
    intros j Hj. rewrite (read_write_slot m0) by (done || lia || apply Hf'). rewrite Hr by done.
    destruct (Z.eqb_spec (lo + k) j) as [<-|Hne].
    + by rewrite (proj2 (Z.leb_le lo (lo + k))), (proj2 (Z.ltb_lt (lo + k) (lo + (k + 1)))) by lia.
    + destruct (Z.leb_spec lo j), (Z.ltb_spec j (lo + k)), (Z.ltb_spec j (lo + (k + 1))); try done; lia.
Qed.

(** The words of the frame that [write_context] leaves. *)
Lemma write_context_spec m stack :
  stack_ok m stack ->
  let m' := write_context process_entry_resume (context_sp stack) (context_top stack) m in
  frame_only stack m m' /\ forall j, 0 <= j < 37 -> read_qword m' (frame_slot stack j) =
    if j =? 16 then process_entry_resume else if j =? 17 then X64_GDT_KERNEL_CS else if j =? 18 then 0x202
    else if j =? 19 then context_top stack else if j =? 20 then X64_GDT_KERNEL_DS else 0.
Proof.
  intros Hs. cbv zeta. unfold write_context.
  assert (forall i, 0 <= i < 37 -> u64 (context_sp stack + 8 * i) = frame_slot stack i) as Hslot
    by (intros; by apply (frame_slot_eq m)).
  destruct (zero_words m stack 0 15 (fun i => u64 (context_sp stack + 8 * i)) m) as [F1 R1];
    [done|apply frame_only_refl|done|done|intros i Hi; rewrite Hslot by lia; done|].
  set (m1 := for_up 15 0 _ m) in *. clearbody m1.
  rewrite !Hslot by lia.
  match goal with |- context [for_up _ 0 _ ?x] => set (m2 := x) end.
  assert (frame_only stack m m2 /\ forall j, 0 <= j < 21 -> read_qword m2 (frame_slot stack j) =
    if j =? 16 then process_entry_resume else if j =? 17 then X64_GDT_KERNEL_CS else if j =? 18 then 0x202
    else if j =? 19 then context_top stack else if j =? 20 then X64_GDT_KERNEL_DS else 0) as [F2 R2].
  { split; [unfold m2; repeat (apply frame_only_write; [|lia]); done|].
    intros j Hj. unfold m2. rewrite !(read_write_slot m) by (done || lia || apply F1). rewrite R1 by lia.
    repeat match goal with |- context [?a =? ?b] => destruct (Z.eqb_spec a b); try lia; try done end.
    rewrite (proj2 (Z.leb_le 0 j)), (proj2 (Z.ltb_lt j _)) by lia. done. }
  clearbody m2.
  destruct (zero_words m stack 21 16 (fun i => u64 (context_sp stack + 8 * (PROCESS_CONTEXT_TOTAL_QWORDS + i))) m2)
    as [F3 R3]; [done|done|done|done| |].
  { intros i Hi. unfold PROCESS_CONTEXT_TOTAL_QWORDS. apply Hslot. lia. }
  split; [exact F3|]. intros j Hj. change (Z.to_nat PROCESS_CONTEXT_GUARD_QWORDS) with 16%nat.
  rewrite R3 by lia. destruct (Z.leb_spec 21 j); cbn [andb].
  - rewrite (proj2 (Z.ltb_lt j _)) by lia.
    repeat match goal with |- context [?a =? ?b] => destruct (Z.eqb_spec a b); try lia end.
  - apply R2. lia.
Qed.

(** A new process starts from a valid frame: with a 16-byte aligned stack in the direct map,
    [setup_initial_context_locked] succeeds, the saved stack pointer is 176 bytes below the end of
    the stack, [validate_or_repair_context_locked] accepts the frame, the registers are zero and
    the frame returns to [process_entry_resume] with interrupts enabled and the kernel's segments.
    The stores touch exactly the 37 words from 176 bytes below the end of the stack to 120 bytes
    above it. *)
Theorem setup_initial_context_spec s k rc s' :
  let m := env_machine (s_env s) in
  let stack := kernel_stack (proc s k) in
  length (g_processes s) = 256%nat -> slot_ok k -> stack_ok m stack -> process_entry_resume <> 0 ->
  setup_initial_context_locked process_entry_resume k s = (rc, s') ->
  let m' := env_machine (s_env s') in
  rc = 0 /\ kernel_rsp (proc s' k) = stack + PROCESS_STACK_SIZE - 176
  /\ context_valid m' (proc s' k) = true
  /\ (forall j, 0 <= j < 15 -> read_qword m' (frame_slot stack j) = 0)
  /\ read_qword m' (frame_slot stack 16) = process_entry_resume
  /\ read_qword m' (frame_slot stack 18) = 0x202
  /\ read_qword m' (frame_slot stack 19) = stack + PROCESS_STACK_SIZE - 24
  /\ frame_only stack m m'.
Proof.
  intros m stack Hl Hk Hs He. unfold setup_initial_context_locked. fold stack.
  rewrite (proj2 (Z.eqb_neq stack 0)) by (destruct Hs; lia). intros [= <- <-]. cbv zeta.
  destruct (write_context_spec m stack Hs) as [F R].
  set (s1 := on_machine _ s).
  assert (env_machine (s_env s1) = write_context process_entry_resume (context_sp stack) (context_top stack) m) as Em
    by apply env_machine_put.
  assert (length (g_processes s1) = 256%nat) as Hl1 by done.
  assert (kernel_stack (proc s1 k) = stack) as Est by done. clearbody s1.
  set (m' := write_context _ _ _ m) in *. clearbody m'.
  match goal with |- context [upd k ?f s1] => set (g := f) end.
  assert (proc (upd k g s1) k = g (proc s1 k)) as -> by (unfold upd; by rewrite proc_set_same).
  change (s_env (upd k g s1)) with (s_env s1). rewrite Em.
  change (kernel_rsp (g (proc s1 k))) with (context_sp stack). rewrite (context_sp_eq m) by done.
  split; [done|]. split; [done|]. split.
  2: { split; [|rewrite !R by lia; rewrite (context_top_eq m) by done; done].
       intros j Hj. rewrite R by lia.
       repeat match goal with |- context [?a =? ?b] => destruct (Z.eqb_spec a b); try lia end. }
  unfold context_valid. change (kernel_rsp (g (proc s1 k))) with (context_sp stack).
  change (kernel_stack (g (proc s1 k))) with (kernel_stack (proc s1 k)). rewrite Est. cbv zeta.
  rewrite !(frame_slot_eq m) by (done || lia). rewrite !R by lia. rewrite (context_sp_eq m), (context_top_eq m) by done.
  destruct Hs as (H1 & H2 & H3 & _). unfold PROCESS_STACK_SIZE, PROCESS_CONTEXT_TOTAL_QWORDS in *.
  rewrite (u64_id (stack + 32 * 1024)) by (unfold is_u64; lia).
  rewrite !u64_id by (unfold is_u64; lia).
  change (17 =? 16) with false. change (17 =? 17) with true. change (16 =? 16) with true.
  change (19 =? 16) with false. change (19 =? 17) with false. change (19 =? 18) with false. change (19 =? 19) with true.
  change (20 =? 16) with false. change (20 =? 17) with false. change (20 =? 18) with false. change (20 =? 19) with false.
  change (20 =? 20) with true. cbn iota.
  rewrite (proj2 (Z.ltb_ge _ stack)) by lia. rewrite (proj2 (Z.ltb_ge _ (stack + 32 * 1024 - 176))) by lia.
  rewrite !Z.eqb_refl. rewrite (proj2 (Z.eqb_neq _ 0)) by done. rewrite (proj2 (Z.ltb_ge _ stack)) by lia.
  by rewrite (proj2 (Z.ltb_ge _ (stack + 32 * 1024 - 24))) by lia.
Qed.
End context.

(** Slot 2 of [ex_sched1] gets a fresh frame. *)
Definition ex_setup := setup_initial_context_locked 0xdead 2 ex_sched1.

Lemma setup_initial_context_spec_witness :
  let m := env_machine (s_env ex_sched1) in
  let stack := kernel_stack (proc ex_sched1 2) in
  let s' := ex_setup.2 in
  let m' := env_machine (s_env s') in
  0 = 0 /\ kernel_rsp (proc s' 2) = stack + PROCESS_STACK_SIZE - 176
  /\ context_valid m' (proc s' 2) = true
  /\ (forall j, 0 <= j < 15 -> read_qword m' (frame_slot stack j) = 0)
  /\ read_qword m' (frame_slot stack 16) = 0xdead
  /\ read_qword m' (frame_slot stack 18) = 0x202
  /\ read_qword m' (frame_slot stack 19) = stack + PROCESS_STACK_SIZE - 24
  /\ frame_only stack m m'.
Proof.
  apply (setup_initial_context_spec 0xdead ex_sched1 2 0 ex_setup.2).
  - vm_compute. reflexivity.
  - unfold slot_ok. lia.
  - assert (kernel_stack (proc ex_sched1 2) = 0x112000) as -> by (vm_compute; reflexivity).
    assert (g_hhdm_offset (env_machine (s_env ex_sched1)) = 0) as E0 by (vm_compute; reflexivity).
    unfold stack_ok, PROCESS_STACK_SIZE. rewrite E0. repeat split; lia.
  - lia.
  - unfold ex_setup. apply pair_eta. vm_compute. reflexivity.
Defined.

(** ** Behaviours the code does not intend *)

(** The frame reaches past the stack: the word at its end, and the 14 words after it, become zero. *)
Lemma setup_context_overruns m stack entry j :
  stack_ok m stack -> 22 <= j < 37 ->
  stack + PROCESS_STACK_SIZE <= frame_slot stack j
  /\ read_qword (write_context entry (context_sp stack) (context_top stack) m) (frame_slot stack j) = 0.
Proof.
  intros Hs Hj. split; [unfold frame_slot; lia|]. destruct (write_context_spec entry m stack Hs) as [_ R].
  rewrite R by lia. repeat match goal with |- context [?a =? ?b] => destruct (Z.eqb_spec a b); try lia end.
Qed.

(** Two children of the bootstrap process, pids 3 and 4 in slots 2 and 3, are READY. *)
Definition ex_two : sched shm_env := run_calls (take 2 ex_calls) ex_sched0.

(** SIGKILL of a READY process leaves the zombie in its queue, and the next tick runs it. *)
Lemma kill_ready_resurrected :
  let s := run_call 0xdead (CallKill 3 PROCESS_SIGKILL) ex_two in
  let s' := run_call 0xdead (CallTick 0x5000) s in
  state (proc s 2) = PROCESS_ZOMBIE /\ g_current s' = Some 2 /\ state (proc s' 2) = PROCESS_RUNNING.
Proof. vm_compute. repeat split. Qed.

(** Reaping such a zombie cuts the queue: slot 3 stays READY but no queue reaches it any more. *)
Lemma reap_queued_cuts_queue :
  let s := run_call 0xdead (CallWait 1 3 0) (run_call 0xdead (CallKill 3 PROCESS_SIGKILL) ex_two) in
  state (proc s 3) = PROCESS_READY /\ aget (g_runq_head s) 128 = Some 2 /\ rq_next (proc s 2) = None
  /\ used (proc s 2) = false
  /\ let s' := run_call 0xdead (CallTick 0x5000) s in
     forallb (fun h => bool_decide (h = None)) (g_runq_head s') = true /\ state (proc s' 3) = PROCESS_READY.
Proof. vm_compute. repeat split. Qed.

(** A priority given to the READY idle process puts it in a run queue. *)
Lemma set_priority_queues_idle :
  let s := run_call 0xdead (CallSetPriority 2 10) ex_two in
  g_idle s = Some 1 /\ aget (g_runq_head s) 10 = Some 1.
Proof. vm_compute. repeat split. Qed.
