(* ===== verification/Fairness.v ===== *)
(** Round robin is fair: under ticks alone, a process of the best occupied queue gets the processor
    within four ticks for each process in front of it. *)

From S2P Require Import Prelude Pmm Paging Vmm VmSpace ProcessData Shm Process RunQueue ProcessSched Scheduler.

Section fairness.
Context {E : Type} `{ProcessEnvLaws E}.
Variable process_entry_resume : Z.
Implicit Types (s : sched E) (Q : Z -> list Z).

(** Signals are as before, and time slices still within the default. *)
Definition calm (p p' : process) : Prop :=
  signal_pending p' = signal_pending p /\ signal_mask p' = signal_mask p /\ priority p' = priority p
  /\ (time_slice p <= PROCESS_DEFAULT_TIMESLICE -> time_slice p' <= PROCESS_DEFAULT_TIMESLICE).
Definition calm_step s s' : Prop :=
  length (g_processes s') = length (g_processes s) /\ forall j, slot_ok j -> calm (proc s j) (proc s' j).

Lemma calm_refl p : calm p p.
Proof. done. Qed.
Lemma calm_step_refl s : calm_step s s.
Proof. done. Qed.
Lemma calm_step_trans a b c : calm_step a b -> calm_step b c -> calm_step a c.
Proof.
  intros [L1 H1] [L2 H2]. split; [congruence|]. intros j Hj.
  destruct (H1 j Hj) as (A & B & C & D), (H2 j Hj) as (A' & B' & C' & D').
  split; [congruence|]. split; [congruence|]. split; [congruence|]. auto.
Qed.

Lemma calm_same s s' : g_processes s' = g_processes s -> calm_step s s'.
Proof. intros Ep. split; [by rewrite Ep|]. intros j _. unfold proc. by rewrite Ep. Qed.

Lemma calm_upd s k f :
  length (g_processes s) = 256%nat -> slot_ok k -> calm (proc s k) (f (proc s k)) -> calm_step s (upd k f s).
Proof.
  intros Hl Hk Hf. split; [unfold upd; by rewrite length_set_proc|]. intros j Hj. unfold upd.
  rewrite proc_upd by done. case_decide as D; [by rewrite D|apply calm_refl].
Qed.

Lemma calm_links s s' : links_step s s' -> calm_step s s'.
Proof.
  intros L. split; [apply (lk_len _ _ L)|]. intros j Hj. by rewrite (lk_proc _ _ L j) by apply Hj.
Qed.

Lemma calm_tick_running s Q c rsp early s' :
  sched_inv None s Q -> g_current s = Some c -> tick_running rsp c s = (early, s') -> calm_step s s'.
Proof.
  intros I Hc. pose proof (si_cur _ _ _ I c Hc) as Hk. pose proof (q_len _ _ (si_q _ _ _ I)) as Hl.
  unfold tick_running. case_bool_decide as Hs; cbn [negb]; [|by intros [= <- <-]].
  set (s1 := if _ && _ then _ else s).
  assert (calm_step s s1 /\ sched_inv None s1 Q /\ g_current s1 = Some c /\ state (proc s1 c) = PROCESS_RUNNING)
    as (C1 & I1 & Hc1 & Hs1).
  { unfold s1. destruct (_ && _); [|done]. split; [|split; [by apply inv_keep|split; [done|]]].
    - apply calm_upd; [done|done|]. split; [done|]. split; [done|]. split; [done|]. intros Ht.
      change (time_slice (proc s c) - 1 <= PROCESS_DEFAULT_TIMESLICE). lia.
    - unfold upd. by rewrite proc_set_same. }
  clearbody s1. pose proof (q_len _ _ (si_q _ _ _ I1)) as Hl1. cbv zeta.
  destruct (_ && _ && _); [by intros [= <- <-]|].
  destruct (is_idle (proc s1 c)) eqn:Hf; intros [= <- <-]; (apply (calm_step_trans _ _ _ C1)).
  - by apply calm_upd.
  - match goal with |- context [upd c ?f s1] => set (g := f);
      destruct (tick_running_requeue s1 Q c g I1 Hc1 Hs1 Hf ltac:(done)) as (_ & _ & L) end.
    apply (calm_step_trans _ (upd c g s1)); [|by apply calm_links].
    apply calm_upd; [done|done|]. split; [done|]. split; [done|]. split; [done|]. intros _.
    change (PROCESS_DEFAULT_TIMESLICE <= PROCESS_DEFAULT_TIMESLICE). lia.
Qed.

Lemma calm_pick_next s Q i r s' :
  sched_inv None s Q -> no_running s -> g_idle s = Some i -> pick_next s = (r, s') -> calm_step s s'.
Proof.
  intros I Hn Hi. unfold pick_next. destruct (runq_pop_locked s) as [n s1] eqn:Ep.
  pose proof (inv_pop s Q n s1 I Ep) as Hp. pose proof (q_len _ _ (si_q _ _ _ I)) as Hl. destruct n as [k|].
  - destruct Hp as (pri & l & _ & _ & Hk & _ & L & I1). intros [= <- <-].
    apply (calm_step_trans _ s1); [by apply calm_links|].
    apply (calm_step_trans _ (upd k (set_state PROCESS_RUNNING THREAD_RUNNING) s1)); [|by apply calm_same].
    apply calm_upd; [apply (q_len _ _ (si_q _ _ _ I1))|done|done].
  - destruct Hp as [-> _]. rewrite Hi. intros [= <- <-]. destruct (si_idle _ _ _ I i Hi) as [Hk _].
    apply (calm_step_trans _ (upd i (set_state PROCESS_RUNNING THREAD_RUNNING) s)); [|by apply calm_same].
    by apply calm_upd.
Qed.

Lemma calm_validate k s rc s' :
  length (g_processes s) = 256%nat -> slot_ok k ->
  validate_or_repair_context_locked process_entry_resume k s = (rc, s') -> calm_step s s'.
Proof.
  intros Hl Hk. unfold validate_or_repair_context_locked. destruct (_ =? 0); [by intros [= <- <-]|].
  destruct (context_valid _ _); [by intros [= <- <-]|]. unfold setup_initial_context_locked.
  destruct (_ =? 0); intros [= <- <-]; [by apply calm_same|].
  match goal with |- calm_step _ (upd k _ ?x) => apply (calm_step_trans _ x); [by apply calm_same|] end.
  by apply calm_upd.
Qed.

Lemma calm_switch_to s cur n r s' :
  length (g_processes s) = 256%nat -> slot_ok n -> switch_to process_entry_resume cur (Some n) s = (r, s') -> calm_step s s'.
Proof.
  intros Hl Hn. unfold switch_to.
  assert (forall s1 : sched E, calm_step s s1 -> forall s2,
    s2 = (if pml4_phys (p_vm_space (proc s1 n)) =? 0 then s1
          else on_machine (vmm_switch_pml4 (pml4_phys (p_vm_space (proc s1 n)))) s1) -> calm_step s s2) as Hend.
  { intros s1 C s2 ->. destruct (_ =? 0); [done|]. apply (calm_step_trans _ s1); [done|by apply calm_same]. }
  destruct (Z.eqb_spec (kernel_stack (proc s n)) 0) as [Hz|Hz]; [intros [= <- <-]; by apply (Hend s)|].
  pose proof (validate_or_repair_ok process_entry_resume n s Hz) as Hrc.
  destruct (validate_or_repair_context_locked _ n s) as [rc s1] eqn:Ev. cbn [fst] in Hrc. rewrite Hrc.
  change (0 =? 0) with true. cbn iota beta. pose proof (calm_validate n s rc s1 Hl Hn Ev) as C1.
  destruct (kernel_stack (proc s1 n) =? 0); intros [= <- <-]; (eapply Hend; [|reflexivity]); [done|].
  apply (calm_step_trans _ s1); [done|by apply calm_same].
Qed.

(** A whole tick on a running process without signals. *)
Lemma calm_tick s Q i c rsp :
  sched_inv None s Q -> g_idle s = Some i -> g_current s = Some c -> state (proc s c) = PROCESS_RUNNING ->
  no_signal (proc s c) -> calm_step s (process_schedule_tick process_entry_resume rsp s).2.
Proof.
  intros I Hi Hc Hs Hn. unfold process_schedule_tick.
  change (g_current (s <| g_sched_ticks := u64 (g_sched_ticks s + 1) |>)) with (g_current s). rewrite Hc.
  destruct (tick_head s Q c rsp I Hc Hn) as (I2 & Hc2 & Hi2 & [= _ Ef Es Ep _ _ _] & Et & Er & Eprep).
  assert (calm_step s (tick_account rsp c (s <| g_sched_ticks := u64 (g_sched_ticks s + 1) |>))) as C2.
  { apply (calm_step_trans _ (s <| g_sched_ticks := u64 (g_sched_ticks s + 1) |>)); [by apply calm_same|].
    apply calm_upd; [apply (q_len _ _ (si_q _ _ _ I))|apply (si_cur _ _ _ I c Hc)|done]. }
  set (s2 := tick_account rsp c _) in *. clearbody s2. cbv zeta. rewrite Es, (bool_decide_true _ Hs), Eprep.
  destruct (tick_running rsp c s2) as [early s3] eqn:E3.
  destruct (tick_running_spec s2 Q c rsp early s3 I2 Hc2 E3) as (Hc3 & Hi3 & Hn3 & Hspec).
  pose proof (calm_step_trans _ _ _ C2 (calm_tick_running s2 Q c rsp early s3 I2 Hc2 E3)) as C3.
  destruct early as [r|]; [done|].
  assert (exists Q3, sched_inv None s3 Q3) as [Q3 I3] by (eapply ok_tick_running; [by exists Q|exact Hc2|exact E3]).
  assert (g_idle s3 = Some i) as Hi3' by congruence.
  pose proof (pick_next_spec s3 Q3 i) as Hp. pose proof (calm_pick_next s3 Q3 i) as C4.
  destruct (pick_next s3) as [n s4] eqn:E4. specialize (Hp n s4 I3 (Hn3 eq_refl) Hi3' eq_refl).
  specialize (C4 n s4 I3 (Hn3 eq_refl) Hi3' eq_refl). destruct (fifo_next i Q3) as [n' Q4].
  destruct Hp as (-> & I4 & Hc4 & _ & Hk4 & _).
  destruct (switch_to _ _ (Some n') s4) as [r5 s5] eqn:E5.
  pose proof (calm_switch_to s4 _ n' r5 s5 (q_len _ _ (si_q _ _ _ I4)) Hk4 E5) as C5.
  apply (calm_step_trans _ _ _ C3), (calm_step_trans _ _ _ C4 C5).
Qed.

(** ** Waiting for the processor *)

(** No process has a signal to take, and no slice exceeds the default. *)
Definition quiet s : Prop :=
  forall j, slot_ok j -> no_signal (proc s j) /\ time_slice (proc s j) <= PROCESS_DEFAULT_TIMESLICE.

Lemma quiet_calm s s' : quiet s -> calm_step s s' -> quiet s'.
Proof.
  intros Hq [_ Hc] j Hj. destruct (Hq j Hj) as [Hn Ht], (Hc j Hj) as (E1 & E2 & _ & E3).
  unfold no_signal. rewrite E1, E2. auto.
Qed.

Fixpoint run_ticks (rsps : list Z) s : sched E :=
  match rsps with
  | [] => s
  | rsp :: rsps' => run_ticks rsps' (process_schedule_tick process_entry_resume rsp s).2
  end.

(** [k] waits at index [n] of the best queue [q] while [c], not of a better queue, runs. *)
Record waiting s Q (i c q k : Z) (n : nat) : Prop := {
  wt_inv : sched_inv None s Q;
  wt_idle : g_idle s = Some i;
  wt_current : g_current s = Some c;
  wt_running : state (proc s c) = PROCESS_RUNNING;
  wt_quiet : quiet s;
  wt_best : best_queue Q q;
  wt_index : Q q !! n = Some k;
  wt_priority : is_idle (proc s c) = true \/ q <= priority (proc s c);
}.

(** How long [k] may still wait. *)
Definition patience (n : nat) (slice : Z) : Z := 4 * Z.of_nat n + Z.max 1 slice.

Lemma best_queue_fifo Q q : best_queue Q q -> fifo_best Q = Some q.
Proof.
  intros Hb. pose proof (fifo_best_spec Q) as B. destruct (fifo_best Q) as [p|].
  - f_equal. by eapply best_queue_unique.
  - destruct Hb as (Hq & Hne & _). by destruct Hne; apply B.
Qed.

(** Requeueing the current process does not disturb the front of the best queue. *)
Lemma requeue_best Q q c (idle : bool) pri :
  best_queue Q q -> idle = true \/ q <= pri ->
  best_queue (requeue idle c pri Q) q /\ exists l, requeue idle c pri Q q = Q q ++ l.
Proof.
  intros (Hq & Hne & Hlt) Hp. unfold requeue. destruct idle; [split; [done|by exists []; rewrite app_nil_r]|].
  destruct Hp as [|Hp]; [done|].
  assert (q <= queue_of pri) as Hqp.
  { unfold queue_of, slot_ok, PROCESS_PRIORITY_LEVELS in *. destruct (Z.leb_spec 256 pri); lia. }
  assert (exists l, with_queue Q (queue_of pri) (Q (queue_of pri) ++ [c]) q = Q q ++ l) as [l Hl].
  { unfold with_queue. case_decide as D; [exists [c]; by rewrite D|exists []; by rewrite app_nil_r]. }
  split; [|by exists l]. split; [done|]. split; [rewrite Hl; by destruct (Q q)|].
  intros p Hpq. unfold with_queue. rewrite decide_False by lia. by apply Hlt.
Qed.

Lemma waiting_tick s Q i c q k n rsp :
  waiting s Q i c q k n ->
  let s' := (process_schedule_tick process_entry_resume rsp s).2 in
  g_current s' = Some k \/ exists Q' c' n', waiting s' Q' i c' q k n'
    /\ patience n' (time_slice (proc s' c')) < patience n (time_slice (proc s c)).
Proof.
  intros [I Hi Hc Hr Hq Hb Hk Hp] s'. pose proof (si_cur _ _ _ I c Hc) as Hcs. destruct (Hq c Hcs) as [Hns Hts].
  pose proof (calm_tick s Q i c rsp I Hi Hc Hr Hns) as C. pose proof (quiet_calm _ _ Hq C) as Hq'. fold s' in C, Hq'.
  pose proof (schedule_tick_spec process_entry_resume s Q i c rsp I Hi Hc Hr Hns) as R. cbv zeta in R.
  unfold abstract_tick in R. subst s'. destruct (process_schedule_tick _ rsp s) as [[rsp' h] s']. cbn [snd] in *.
  destruct (keeps_cpu _ _ _ _) eqn:Hkeep.
  - destruct R as (I' & Hc' & Hi' & Hr' & _ & _ & Hslice). right. exists Q, c, n.
    unfold keeps_cpu in Hkeep. apply andb_true_iff in Hkeep as [[Hni Hpos]%andb_true_iff _].
    apply negb_true_iff in Hni. unfold next_slice in *. rewrite Hni in *. cbn [negb andb] in *.
    destruct C as [_ C]. destruct (C c Hcs) as (_ & _ & Epri & _). split.
    + split; try done. right. rewrite Epri. destruct Hp; [congruence|done].
    + rewrite Hslice. unfold patience. destruct (Z.ltb_spec 0 (time_slice (proc s c))); lia.
  - destruct (requeue_best Q q c (is_idle (proc s c)) (priority (proc s c)) Hb Hp) as [Hb1 [l Hl]].
    unfold fifo_next in R. rewrite (best_queue_fifo _ _ Hb1) in R. rewrite Hl in R.
    destruct (Q q) as [|x rest] eqn:EQ; [done|]. cbn [app head tail default] in R.
    destruct R as (I' & Hc' & Hi' & Hr' & _ & _). destruct n as [|n].
    + left. injection Hk as ->. done.
    + right. cbn [lookup list_lookup] in Hk. exists (with_queue (requeue (is_idle (proc s c)) c (priority (proc s c)) Q) q (rest ++ l)), x, n.
      destruct Hb as (Hqs & _ & _). destruct Hb1 as (_ & _ & Hlt).
      assert (x ∈ Q q) as Hxq by (rewrite EQ; constructor).
      destruct (q_member _ _ (si_q _ _ _ I) q x Hqs Hxq) as [Hxs Hxp].
      assert ((rest ++ l) !! n = Some k) as Hkl by (by apply lookup_app_l_Some).
      destruct C as [_ C]. destruct (C x Hxs) as (_ & _ & Epri & _). split.
      * split; try done.
        -- split; [done|]. unfold with_queue. split; [rewrite decide_True by done; by intros Hn0; rewrite Hn0 in Hkl|].
           intros p Hpq. rewrite decide_False by lia. by apply Hlt.
        -- unfold with_queue. by rewrite decide_True.
        -- right. rewrite Epri, <- Hxp. unfold queue_of. destruct (Z.leb_spec PROCESS_PRIORITY_LEVELS (priority (proc s x))); lia.
      * destruct (Hq' x Hxs) as [_ Hx4]. unfold patience, PROCESS_DEFAULT_TIMESLICE in *. lia.
Qed.

(** C11. Round robin is fair within the best queue.  In a state of the scheduling invariant with an
    idle process, where no process has a signal pending and no time slice is above four ticks, and
    where the running process is the idle one or has no better priority than the best occupied queue
    (a better one keeps the processor for ever, by design), a process at index [n] of that queue gets
    the processor within four ticks for each of the [n] processes before it, plus the rest of the
    running process's slice, as long as ticks are the only calls. *)
Theorem ready_process_runs s Q i c q k n rsps :
  waiting s Q i c q k n -> patience n (time_slice (proc s c)) <= Z.of_nat (length rsps) ->
  exists m, (m <= length rsps)%nat /\ g_current (run_ticks (take m rsps) s) = Some k.
Proof.
  revert s Q c n. induction rsps as [|rsp rsps IH]; intros s Q c n Hw Hl.
  - unfold patience in Hl. simpl in Hl. lia.
  - destruct (waiting_tick s Q i c q k n rsp Hw) as [Hrun|(Q' & c' & n' & Hw' & Hlt)].
    + exists 1%nat. split; [simpl; lia|exact Hrun].
    + destruct (IH _ Q' c' n' Hw') as (m & Hm & Hrun); [simpl in Hl; lia|].
      exists (S m). split; [simpl; lia|exact Hrun].
Qed.
End fairness.

(** Slot 2 runs in [ex_sched1] with a full slice, and slot 3 waits behind nobody. *)
Definition all_slots (f : Z -> bool) : bool := forallb f (seqZ 0 256).

Lemma all_slots_spec f : all_slots f = true -> forall k, slot_ok k -> f k = true.
Proof.
  intros Ha k Hk. unfold all_slots in Ha. rewrite forallb_forall in Ha.
  apply Ha, list_elem_of_In, elem_of_seqZ. unfold slot_ok in Hk. lia.
Qed.

Lemma waiting_check (s : sched shm_env) Q i c q k :
  sched_inv None s Q -> g_idle s = Some i -> g_current s = Some c -> state (proc s c) = PROCESS_RUNNING ->
  all_slots (fun j => (Z.land (signal_pending (proc s j)) (u64 (Z.lnot (signal_mask (proc s j)))) =? 0)
                      && (time_slice (proc s j) <=? PROCESS_DEFAULT_TIMESLICE)) = true ->
  all_slots (fun p => (q <=? p) || bool_decide (aget (g_runq_head s) p = None)) = true ->
  slot_ok q -> aget (g_runq_head s) q = Some k -> q <= priority (proc s c) ->
  waiting s Q i c q k 0.
Proof.
  intros I Hi Hc Hr Hq Hlow Hqs Hk Hp. pose proof (si_q _ _ _ I) as W.
  assert (forall p, slot_ok p -> head (Q p) = aget (g_runq_head s) p) as Eh.
  { intros p Hps. symmetry. by apply (iq_head _ _ _ (q_queue _ _ W p Hps)). }
  rewrite <- Eh in Hk by done. split; [done|done|done|done| | | |by right].
  - intros j Hj. pose proof (all_slots_spec _ Hq j Hj) as Hx. cbn beta in Hx. apply andb_true_iff in Hx as [H1 H2].
    split; [by apply Z.eqb_eq|by apply Z.leb_le].
  - split; [done|]. split; [by intros Hn; rewrite Hn in Hk|].
    intros p Hpq. assert (slot_ok p) as Hs by (unfold slot_ok in *; lia).
    pose proof (all_slots_spec _ Hlow p Hs) as Hx. cbn beta in Hx. rewrite (proj2 (Z.leb_gt q p)) in Hx by lia.
    cbn [orb] in Hx. apply bool_decide_eq_true in Hx. rewrite <- Eh in Hx by done. by destruct (Q p).
  - by rewrite head_lookup0 in Hk.
Qed.

Lemma ex_waiting Q : sched_inv None ex_sched1 Q -> waiting ex_sched1 Q 1 2 128 3 0.
Proof.
  intros I. apply waiting_check; [exact I|vm_compute; reflexivity..|unfold slot_ok; lia|vm_compute; reflexivity|].
  assert (priority (proc ex_sched1 2) = 128) as -> by (vm_compute; reflexivity). lia.
Qed.

Lemma ready_process_runs_witness :
  exists m, (m <= 4)%nat /\ g_current (run_ticks 0xdead (take m [0x10; 0x20; 0x30; 0x40]) ex_sched1) = Some 3.
Proof.
  destruct ex_sched1_inv as [Q I].
  apply (ready_process_runs 0xdead ex_sched1 Q 1 2 128 3 0 [0x10; 0x20; 0x30; 0x40] (ex_waiting Q I)).
  assert (time_slice (proc ex_sched1 2) = 4) as -> by (vm_compute; reflexivity).
  unfold patience. simpl. lia.
Defined.
