(* ===== verification/CString.v ===== *)
(** C strings and byte buffers as [src/fs] handles them.

    A C string is the list of its characters before the terminating NUL, each read as an
    [unsigned char]; a [const char *] argument that may be NULL is an [option].  A byte buffer is
    the list of its bytes.  The copying loops of the file systems are the functions of this file;
    the lemmas below turn them into [take], [drop] and [++]. *)

From S2P Require Import Prelude.

Abbreviation cstr := (list Z).
Definition ch_slash : Z := 47.
Definition ch_dot : Z := 46.

Definition zlen {A} (l : list A) : Z := Z.of_nat (length l).

(** ** Strings *)

Fixpoint strcmp_loop (a b : cstr) : Z :=
  match a, b with
  | x :: a', y :: b' => if x =? y then strcmp_loop a' b' else x - y
  | x :: _, [] => x
  | [], y :: _ => - y
  | [], [] => 0
  end.

Definition kstrlen (s : option cstr) : Z := match s with Some s => zlen s | None => 0 end.

Definition kstrcmp (a b : option cstr) : Z :=
  match a, b with
  | Some a, Some b => strcmp_loop a b
  | None, None => 0
  | _, _ => 1
  end.

Definition kstreq (a b : cstr) : bool := kstrcmp (Some a) (Some b) =? 0.

(** The characters a bounded copy moves: at most [room] of them; and what is left of the source. *)
Fixpoint copy_upto (room : nat) (src : cstr) : cstr * cstr :=
  match room, src with
  | S n, c :: src' => let '(d, r) := copy_upto n src' in (c :: d, r)
  | _, _ => ([], src)
  end.

(** [kstrncpy(dst, src, cap)]: the new contents of [dst] and the return value. *)
Definition kstrncpy (dst : cstr) (src : option cstr) (cap : Z) : cstr * Z :=
  if cap <=? 0 then (dst, -1) else
  match src with
  | None => ([], 0)
  | Some src => let '(d, r) := copy_upto (Z.to_nat (cap - 1)) src in
                (d, match r with [] => 0 | _ => -1 end)
  end.

(** [memfs.c] has its own copies of these helpers. *)
Definition mstrlen (s : cstr) : Z := zlen s.
Fixpoint mstreq (a b : cstr) : bool :=
  match a, b with
  | x :: a', y :: b' => if x =? y then mstreq a' b' else false
  | [], [] => true
  | _, _ => false
  end.
Definition mstrcpy (src : cstr) (max : Z) : cstr := (copy_upto (Z.to_nat (max - 1)) src).1.

(** ** Buffers *)

(** [for (i = 0; i < n; i++) out[i] = src[pos + i]] *)
Fixpoint copy_out (src : list Z) (pos : Z) (n : nat) : list Z :=
  match n with
  | O => []
  | S n' => aget src pos :: copy_out src (pos + 1) n'
  end.

(** [for (i = 0; i < n; i++) dst[pos + i] = src[i]] *)
Definition copy_in (dst : list Z) (pos : Z) (src : list Z) (n : nat) : list Z :=
  for_up n 0 (fun i d => aset (pos + i) (aget src i) d) dst.

(** ** Lemmas on strings *)

Definition char_ok (c : Z) : Prop := 1 <= c < 256.

Lemma strcmp_loop_eq a b :
  Forall char_ok a -> Forall char_ok b -> (strcmp_loop a b = 0 <-> a = b).
Proof.
  revert b. induction a as [|x a IH]; intros [|y b] Ha Hb; simpl.
  - done.
  - apply Forall_cons in Hb as [Hy _]. unfold char_ok in Hy. split; [lia|done].
  - apply Forall_cons in Ha as [Hx _]. unfold char_ok in Hx. split; [lia|done].
  - apply Forall_cons in Ha as [_ Ha]. apply Forall_cons in Hb as [_ Hb].
    destruct (Z.eqb_spec x y) as [->|Hne].
    + rewrite IH by done. split; congruence.
    + split; [lia|congruence].
Qed.

Lemma strcmp_loop_refl a : strcmp_loop a a = 0.
Proof. induction a as [|x a IH]; [done|]. simpl. by rewrite Z.eqb_refl. Qed.

Lemma kstreq_refl a : kstreq a a = true.
Proof. unfold kstreq, kstrcmp. by rewrite strcmp_loop_refl. Qed.

Lemma kstreq_spec a b : Forall char_ok a -> Forall char_ok b -> (kstreq a b = true <-> a = b).
Proof. intros. unfold kstreq, kstrcmp. by rewrite Z.eqb_eq, strcmp_loop_eq. Qed.

Lemma mstreq_spec a b : mstreq a b = true <-> a = b.
Proof.
  revert b. induction a as [|x a IH]; intros [|y b]; simpl; [done..|].
  destruct (Z.eqb_spec x y) as [->|Hne]; [rewrite IH|]; split; congruence.
Qed.

Lemma copy_upto_eq n s : copy_upto n s = (take n s, drop n s).
Proof. revert s. induction n as [|n IH]; intros [|c s]; simpl; try done. by rewrite IH. Qed.

Lemma zlen_nonneg {A} (l : list A) : 0 <= zlen l.
Proof. unfold zlen. lia. Qed.
Lemma zlen_app {A} (l k : list A) : zlen (l ++ k) = zlen l + zlen k.
Proof. unfold zlen. rewrite length_app. lia. Qed.
Lemma zlen_cons {A} (x : A) l : zlen (x :: l) = 1 + zlen l.
Proof. unfold zlen. simpl. lia. Qed.
Lemma zlen_nil {A} : zlen (@nil A) = 0.
Proof. done. Qed.

Lemma kstrncpy_fits dst s cap : zlen s < cap -> kstrncpy dst (Some s) cap = (s, 0).
Proof.
  intros Hs. unfold kstrncpy. pose proof (zlen_nonneg s). rewrite (proj2 (Z.leb_gt _ _)) by lia.
  unfold zlen in *. rewrite copy_upto_eq, take_ge, drop_ge by lia. done.
Qed.

Lemma kstrncpy_too_long dst s cap :
  0 < cap -> cap <= zlen s -> kstrncpy dst (Some s) cap = (take (Z.to_nat (cap - 1)) s, -1).
Proof.
  intros Hc Hs. unfold kstrncpy. rewrite (proj2 (Z.leb_gt _ _)) by lia. rewrite copy_upto_eq.
  destruct (drop _ s) eqn:E; [|done]. apply (f_equal length) in E. rewrite length_drop in E.
  unfold zlen in Hs. simpl in E. lia.
Qed.

Lemma kstrncpy_len dst s cap : 0 < cap -> zlen (kstrncpy dst s cap).1 < cap.
Proof.
  intros Hc. unfold kstrncpy. rewrite (proj2 (Z.leb_gt _ _)) by lia.
  destruct s as [s|]; [|simpl; rewrite zlen_nil; lia]. rewrite copy_upto_eq. cbn [fst].
  unfold zlen. rewrite length_take. lia.
Qed.

(** ** Lemmas on buffers *)

Lemma length_copy_out src pos n : length (copy_out src pos n) = n.
Proof. revert pos. induction n as [|n IH]; intros pos; simpl; [done|]. by rewrite IH. Qed.

Lemma copy_out_slice src pos n :
  0 <= pos -> (Z.to_nat pos + n <= length src)%nat ->
  copy_out src pos n = take n (drop (Z.to_nat pos) src).
Proof.
  revert pos. induction n as [|n IH]; intros pos Hp Hl; simpl; [done|].
  rewrite IH by lia. unfold aget. replace (Z.to_nat (pos + 1)) with (S (Z.to_nat pos)) by lia.
  destruct (lookup_lt_is_Some_2 src (Z.to_nat pos)) as [x Hx]; [lia|].
  rewrite (list_lookup_total_correct _ _ _ Hx). by rewrite (drop_S _ _ _ Hx).
Qed.

Lemma copy_in_succ dst pos src n :
  copy_in dst pos src (S n) = aset (pos + Z.of_nat n) (aget src (Z.of_nat n)) (copy_in dst pos src n).
Proof.
  unfold copy_in. set (f := fun i d => _).
  assert (forall m i d, for_up (S m) i f d = f (i + Z.of_nat m) (for_up m i f d)) as Hs.
  { induction m as [|m IH]; intros i d; [simpl; by rewrite Z.add_0_r|].
    change (for_up (S (S m)) i f d) with (for_up (S m) (i + 1) f (f i d)).
    rewrite IH. change (for_up (S m) i f d) with (for_up m (i + 1) f (f i d)).
    f_equal. lia. }
  by rewrite Hs.
Qed.

Lemma copy_in_ext dst pos src src' n :
  (forall i, 0 <= i < Z.of_nat n -> aget src i = aget src' i) ->
  copy_in dst pos src n = copy_in dst pos src' n.
Proof.
  induction n as [|n IH]; intros He; [done|]. rewrite !copy_in_succ, IH by (intros; apply He; lia).
  by rewrite He by lia.
Qed.

Lemma length_copy_in dst pos src n : length (copy_in dst pos src n) = length dst.
Proof.
  induction n as [|n IH]; [done|]. rewrite copy_in_succ, length_aset. done.
Qed.

Lemma copy_in_splice dst pos src :
  0 <= pos -> (Z.to_nat pos + length src <= length dst)%nat ->
  copy_in dst pos src (length src)
  = take (Z.to_nat pos) dst ++ src ++ drop (Z.to_nat pos + length src) dst.
Proof.
  intros Hp Hl.
  assert (forall n, (n <= length src)%nat -> copy_in dst pos src n
    = take (Z.to_nat pos) dst ++ take n src ++ drop (Z.to_nat pos + n) dst) as Hn.
  { induction n as [|n IH]; intros Hle.
    - rewrite Nat.add_0_r. simpl. symmetry. apply take_drop.
    - rewrite copy_in_succ, IH by lia. unfold aset, aget. rewrite Nat2Z.id.
      replace (Z.to_nat (pos + Z.of_nat n)) with (Z.to_nat pos + n)%nat by lia.
      destruct (lookup_lt_is_Some_2 src n) as [x Hx]; [lia|].
      destruct (lookup_lt_is_Some_2 dst (Z.to_nat pos + n)) as [y Hy]; [lia|].
      rewrite (list_lookup_total_correct _ _ _ Hx), (take_S_r _ _ _ Hx), (drop_S _ _ _ Hy).
      rewrite insert_app_r_alt by (rewrite length_take; lia).
      rewrite length_take, Nat.min_l by lia. rewrite Nat.add_comm, Nat.add_sub.
      rewrite insert_app_r_alt by (rewrite length_take; lia).
      rewrite length_take, Nat.min_l by lia. rewrite Nat.sub_diag. simpl.
      rewrite Nat.add_succ_r, <- app_assoc, (Nat.add_comm n). done. }
  rewrite Hn, firstn_all by lia. done.
Qed.

(** Copying the first [n] bytes of a buffer over another one. *)
Lemma copy_in_prefix dst src n :
  (n <= length src)%nat -> (n <= length dst)%nat -> copy_in dst 0 src n = take n src ++ drop n dst.
Proof.
  intros Hs Hd. rewrite (copy_in_ext dst 0 src (take n src)).
  2: { intros i Hi. unfold aget. rewrite !list_lookup_total_alt, lookup_take_lt by lia. done. }
  assert (length (take n src) = n) as Hn by (rewrite length_take; lia).
  pose proof (copy_in_splice dst 0 (take n src) ltac:(lia)) as E. rewrite Hn in E. by apply E.
Qed.

(** The first [s] bytes, or up to the end of the stored range, after a store at [p]. *)
Lemma take_gap {A} (d : list A) (p s : nat) :
  (s <= length d)%nat -> take p (take s d) ++ take (p - s) (drop s d) = take p d.
Proof.
  intros Hs. rewrite <- (take_drop s d) at 3. rewrite firstn_app, length_take, Nat.min_l by lia. done.
Qed.

Lemma splice_take {A} (d src : list A) (p s : nat) :
  (s <= length d)%nat -> (p + length src <= length d)%nat ->
  take (s `max` (p + length src)) (take p d ++ src ++ drop (p + length src) d)
  = take p (take s d) ++ take (p - s) (drop s d) ++ src ++ drop (p + length src) (take s d).
Proof.
  intros Hs Hp. rewrite (app_assoc (take p (take s d))), take_gap by done.
  rewrite take_app_ge by (rewrite length_take; lia). f_equal.
  rewrite length_take, Nat.min_l by lia. rewrite take_app_ge by lia. f_equal.
  rewrite skipn_firstn_comm. f_equal. lia.
Qed.
