(* ===== verification/Path.v ===== *)
(** Path names: the string helpers and [normalize_path_for_process] of [src/fs/vfs.c].

    [normalize_path] is the C function, with its buffer limits.  The reference definition splits
    the text at the slashes and folds the segments over a stack; the theorems show that the C
    code computes it, and that its results are canonical. *)

From S2P Require Import Prelude CString.

Definition VFS_NAME_MAX : Z := 64.
Definition VFS_PATH_MAX : Z := 256.

(** ** The code *)

Definition path_is_abs (path : option cstr) : bool :=
  match path with
  | Some (c :: _) => c =? ch_slash
  | _ => false
  end.

(** [while (src[i] && oi < cap - 1) out[oi++] = src[i++]]: the new [out] and the rest of [src]. *)
Definition append_upto (cap : Z) (out src : cstr) : cstr * cstr :=
  let '(d, r) := copy_upto (Z.to_nat (cap - 1 - zlen out)) src in (out ++ d, r).

(** [None] is the return value -1, [Some out] is 0 with the contents of [out]. *)
Definition path_copy_join (cap : Z) (base extra : option cstr) : option cstr :=
  if cap <=? 1 then None else
  let out := match base with Some b => (append_upto cap [] b).1 | None => [] end in
  let ends_in_slash := match last out with Some c => c =? ch_slash | None => false end in
  match (if ends_in_slash then Some out
         else if cap - 1 <=? zlen out then None else Some (out ++ [ch_slash])) with
  | None => None
  | Some out =>
      match extra with
      | None => Some out
      | Some e => let '(out, r) := append_upto cap out e in
                  match r with [] => Some out | _ => None end
      end
  end.

Fixpoint skip_slashes (scan : cstr) : cstr :=
  match scan with
  | c :: scan' => if c =? ch_slash then skip_slashes scan' else scan
  | [] => []
  end.

(** One segment: its first [VFS_NAME_MAX - 1] characters are kept, all are consumed. *)
Fixpoint read_seg (seg scan : cstr) : cstr * cstr :=
  match scan with
  | c :: scan' => if c =? ch_slash then (seg, scan)
                  else read_seg (if zlen seg <? VFS_NAME_MAX - 1 then seg ++ [c] else seg) scan'
  | [] => (seg, [])
  end.

Definition MAX_SEGS : Z := 32.

(** What one segment does to the [seg_count] segments collected so far. *)
Definition seg_step (segs : list cstr) (seg : cstr) : option (list cstr) :=
  if bool_decide (seg = [] \/ seg = [ch_dot]) then Some segs
  else if bool_decide (seg = [ch_dot; ch_dot]) then Some (removelast segs)
  else if MAX_SEGS <=? zlen segs then None
  else Some (segs ++ [(kstrncpy [] (Some seg) VFS_NAME_MAX).1]).

Fixpoint scan_segs (fuel : nat) (scan : cstr) (segs : list cstr) : option (list cstr) :=
  match fuel with
  | O => None
  | S fuel' =>
      match scan with
      | [] => Some segs
      | _ => let '(seg, scan) := read_seg [] scan in
             let scan := skip_slashes scan in
             match seg_step segs seg with
             | None => None
             | Some segs => scan_segs fuel' scan segs
             end
      end
  end.

Fixpoint put_chars (cap : Z) (out s : cstr) : option cstr :=
  match s with
  | [] => Some out
  | c :: s' => if cap - 1 <=? zlen out then None else put_chars cap (out ++ [c]) s'
  end.

(** The output loop from segment [i] on; [first] is [i == 0]. *)
Fixpoint put_segs (cap : Z) (first : bool) (out : cstr) (segs : list cstr) : option cstr :=
  match segs with
  | [] => Some out
  | seg :: segs' =>
      match (if first then Some out else put_chars cap out [ch_slash]) with
      | None => None
      | Some out => match put_chars cap out seg with
                    | None => None
                    | Some out => put_segs cap false out segs'
                    end
      end
  end.

(** The absolute text the segments are read from. *)
Definition raw_path (cwd path : cstr) : option cstr :=
  if path_is_abs (Some path) then
    let '(raw, rc) := kstrncpy [] (Some path) VFS_PATH_MAX in
    if rc =? 0 then Some raw else None
  else path_copy_join VFS_PATH_MAX (Some (match cwd with [] => [ch_slash] | _ => cwd end)) (Some path).

(** [normalize_path_for_process], given the working directory of the process. *)
Definition normalize_path (cwd : cstr) (path : option cstr) (cap : Z) : option cstr :=
  match path with
  | None => None
  | Some path =>
      if cap <=? 1 then None else
      match raw_path cwd path with
      | None => None
      | Some raw =>
          let scan := skip_slashes raw in
          match scan_segs (S (length scan)) scan [] with
          | None => None
          | Some segs => put_segs cap true [ch_slash] segs
          end
      end
  end.

(** ** Reference: split at the slashes, fold over a stack *)

Fixpoint split_path (s : cstr) : list cstr :=
  match s with
  | [] => [[]]
  | c :: s' =>
      if c =? ch_slash then [] :: split_path s'
      else match split_path s' with
           | seg :: segs => (c :: seg) :: segs
           | [] => [[c]]
           end
  end.

(** The stack after a segment: [None] once more than 32 segments are on it. *)
Definition resolve_step (st : option (list cstr)) (seg : cstr) : option (list cstr) :=
  match st with
  | None => None
  | Some st =>
      if bool_decide (seg = [] \/ seg = [ch_dot]) then Some st
      else if bool_decide (seg = [ch_dot; ch_dot]) then Some (removelast st)
      else if bool_decide (length st < 32)%nat then Some (st ++ [take 63 seg]) else None
  end.
Definition resolve (raw : cstr) : option (list cstr) := fold_left resolve_step (split_path raw) (Some []).

Definition render (segs : list cstr) : cstr :=
  match segs with
  | [] => [ch_slash]
  | _ => concat (map (cons ch_slash) segs)
  end.

(** ** Small facts *)

Lemma put_chars_eq cap out s :
  put_chars cap out s = if bool_decide (s = [] \/ zlen out + zlen s < cap) then Some (out ++ s) else None.
Proof.
  revert out. induction s as [|c s IH]; intros out; cbn [put_chars].
  - rewrite bool_decide_true by auto. by rewrite app_nil_r.
  - pose proof (zlen_nonneg s). destruct (Z.leb_spec (cap - 1) (zlen out)).
    + rewrite bool_decide_false; [done|]. intros [?|Hl]; [done|]. rewrite zlen_cons in Hl. lia.
    + rewrite IH. rewrite zlen_app, !zlen_cons, zlen_nil, <- app_assoc.
      rewrite (bool_decide_ext (s = [] \/ zlen out + (1 + 0) + zlen s < cap)
                               (c :: s = [] \/ zlen out + (1 + zlen s) < cap)); [done|].
      split; [intros [->|?]; right; rewrite ?zlen_nil; lia | intros [?|?]; [done|right; lia]].
Qed.

(** The text up to the first slash, and the rest. *)
Fixpoint span_seg (s : cstr) : cstr * cstr :=
  match s with
  | c :: s' => if c =? ch_slash then ([], s) else let '(p, r) := span_seg s' in (c :: p, r)
  | [] => ([], [])
  end.

Lemma split_span s :
  split_path s = (span_seg s).1 :: match (span_seg s).2 with [] => [] | _ :: t => split_path t end.
Proof.
  induction s as [|c s IH]; [done|]. simpl. destruct (c =? ch_slash) eqn:Hc; [done|].
  rewrite IH. by destruct (span_seg s) as [p r].
Qed.

Lemma span_seg_length s : (length (span_seg s).1 + length (span_seg s).2 = length s)%nat.
Proof.
  induction s as [|c s IH]; [done|]. simpl. destruct (c =? ch_slash) eqn:Hc; [done|].
  destruct (span_seg s) as [p r]. simpl in *. lia.
Qed.

Lemma span_seg_rest s c r : (span_seg s).2 = c :: r -> c = ch_slash.
Proof.
  induction s as [|x s IH]; [done|]. simpl. destruct (Z.eqb_spec x ch_slash) as [->|]; [by intros [= <-]|].
  by destruct (span_seg s).
Qed.

Lemma read_seg_span seg s :
  (length seg <= 63)%nat -> read_seg seg s = (take 63 (seg ++ (span_seg s).1), (span_seg s).2).
Proof.
  revert seg. induction s as [|c s IH]; intros seg Hl; simpl.
  - by rewrite app_nil_r, take_ge.
  - destruct (c =? ch_slash) eqn:Hc; [by rewrite app_nil_r, take_ge|].
    destruct (span_seg s) as [p r] eqn:Hs. cbn [fst snd] in *. unfold VFS_NAME_MAX.
    destruct (Z.ltb_spec (zlen seg) (64 - 1)) as [Hlt|Hge]; unfold zlen in *.
    + rewrite IH by (rewrite length_app; simpl; lia). by rewrite <- app_assoc.
    + rewrite IH by lia. f_equal. by rewrite !take_app_le by lia.
Qed.

Lemma seg_step_resolve segs seg : seg_step segs (take 63 seg) = resolve_step (Some segs) seg.
Proof.
  unfold seg_step, resolve_step.
  assert ((take 63 seg = [] \/ take 63 seg = [ch_dot]) <-> (seg = [] \/ seg = [ch_dot])) as H1.
  { destruct seg as [|a [|b s]]; simpl; naive_solver. }
  assert ((take 63 seg = [ch_dot; ch_dot]) <-> (seg = [ch_dot; ch_dot])) as H2.
  { destruct seg as [|a [|b [|c s]]]; simpl; naive_solver. }
  rewrite (bool_decide_ext _ _ H1), (bool_decide_ext _ _ H2).
  case_bool_decide; [done|]. case_bool_decide; [done|].
  rewrite kstrncpy_fits by (unfold zlen, VFS_NAME_MAX; rewrite length_take; lia).
  unfold MAX_SEGS, zlen. case_bool_decide; [rewrite (proj2 (Z.leb_gt _ _)) by lia|
    rewrite (proj2 (Z.leb_le _ _)) by lia]; done.
Qed.

Lemma fold_resolve_None l : fold_left resolve_step l None = None.
Proof. by induction l. Qed.

Lemma fold_skip_slashes s st :
  fold_left resolve_step (split_path (skip_slashes s)) st = fold_left resolve_step (split_path s) st.
Proof.
  induction s as [|c s IH]; [done|]. simpl. destruct (c =? ch_slash) eqn:Hc; [|by simpl; rewrite Hc].
  rewrite IH. simpl. by destruct st.
Qed.

Lemma skip_slashes_length s : (length (skip_slashes s) <= length s)%nat.
Proof. induction s as [|c s IH]; [done|]. simpl. destruct (c =? ch_slash); simpl; lia. Qed.

(** Fuel above the length of the text is enough, and the loop is the fold. *)
Lemma scan_segs_resolve fuel scan segs :
  (length scan < fuel)%nat -> scan_segs fuel scan segs = fold_left resolve_step (split_path scan) (Some segs).
Proof.
  revert scan segs. induction fuel as [|fuel IH]; intros scan segs Hf; [lia|].
  destruct scan as [|c0 scan0]; [done|]. set (scan := c0 :: scan0) in *.
  cbn [scan_segs]. change (c0 :: scan0) with scan. rewrite read_seg_span by (simpl; lia). cbn [app].
  rewrite seg_step_resolve, split_span. cbn [fold_left].
  destruct (resolve_step (Some segs) (span_seg scan).1) as [segs'|] eqn:Hstep; [|by rewrite fold_resolve_None].
  pose proof (span_seg_length scan) as Hlen.
  destruct (span_seg scan).2 as [|c r] eqn:Hr.
  - simpl. destruct fuel; [simpl in Hf; lia|done].
  - pose proof (span_seg_rest _ _ _ Hr) as ->. rewrite <- fold_skip_slashes.
    change (skip_slashes (ch_slash :: r)) with (skip_slashes r). apply IH.
    pose proof (skip_slashes_length r). cbn [length] in Hlen. lia.
Qed.

(** ** The output loop *)

Definition slashed (segs : list cstr) : cstr := concat (map (cons ch_slash) segs).

Lemma put_segs_slashed cap out segs :
  zlen out < cap ->
  put_segs cap false out segs
  = if bool_decide (zlen out + zlen (slashed segs) < cap) then Some (out ++ slashed segs) else None.
Proof.
  revert out. induction segs as [|seg segs IH]; intros out Hout; unfold slashed; cbn [put_segs map concat].
  - rewrite zlen_nil, app_nil_r, bool_decide_true by lia. done.
  - fold (slashed segs). cbn [app]. rewrite zlen_cons, zlen_app, put_chars_eq.
    pose proof (zlen_nonneg seg). pose proof (zlen_nonneg (slashed segs)).
    change (zlen [ch_slash]) with 1.
    case_bool_decide as D1.
    2: { rewrite bool_decide_false; [done|]. intros ?. apply D1. right. lia. }
    rewrite put_chars_eq. assert (zlen (out ++ [ch_slash]) = zlen out + 1) as Hlen by (by rewrite zlen_app).
    case_bool_decide as D2.
    2: { rewrite bool_decide_false; [done|]. intros ?. apply D2. right. lia. }
    assert (zlen ((out ++ [ch_slash]) ++ seg) < cap) as Hlt.
    { rewrite zlen_app, Hlen. destruct D1 as [?|?]; [done|].
      destruct D2 as [->|?]; [rewrite zlen_nil|]; lia. }
    rewrite IH by done. rewrite zlen_app, Hlen.
    rewrite <- !app_assoc. cbn [app].
    rewrite (bool_decide_ext (zlen out + 1 + zlen seg + zlen (slashed segs) < cap)
                             (zlen out + (1 + (zlen seg + zlen (slashed segs))) < cap)) by lia.
    done.
Qed.

Lemma put_segs_render cap segs :
  1 < cap -> put_segs cap true [ch_slash] segs
             = if bool_decide (zlen (render segs) < cap) then Some (render segs) else None.
Proof.
  intros Hc. destruct segs as [|seg segs]; [simpl; by rewrite bool_decide_true by (change (zlen [ch_slash]) with 1; lia)|].
  cbn [put_segs]. rewrite put_chars_eq. unfold render. fold (slashed (seg :: segs)).
  change (slashed (seg :: segs)) with (ch_slash :: seg ++ slashed segs).
  rewrite (zlen_cons ch_slash (seg ++ slashed segs)), zlen_app. change (zlen [ch_slash]) with 1. pose proof (zlen_nonneg (slashed segs)).
  case_bool_decide as D.
  - rewrite put_segs_slashed by (rewrite zlen_app; change (zlen [ch_slash]) with 1;
      destruct D as [->|?]; [rewrite zlen_nil|]; lia).
    rewrite zlen_app. change (zlen [ch_slash]) with 1. cbn [app].
    by rewrite (bool_decide_ext (1 + zlen seg + zlen (slashed segs) < cap)
                             (1 + (zlen seg + zlen (slashed segs)) < cap)) by lia.
  - rewrite bool_decide_false; [done|]. intros ?. apply D. right. lia.
Qed.

(** ** The result fits in the buffer *)

Lemma slashed_app a b : slashed (a ++ b) = slashed a ++ slashed b.
Proof. unfold slashed. by rewrite map_app, concat_app. Qed.

Lemma slashed_removelast st : zlen (slashed (removelast st)) <= zlen (slashed st).
Proof.
  destruct st as [|seg st _] using rev_ind; [done|]. rewrite removelast_last, slashed_app, zlen_app.
  pose proof (zlen_nonneg (slashed [seg])). lia.
Qed.

Lemma resolve_step_weight st seg st' :
  resolve_step (Some st) seg = Some st' -> zlen (slashed st') <= zlen (slashed st) + 1 + zlen seg.
Proof.
  pose proof (zlen_nonneg seg). unfold resolve_step.
  case_bool_decide; [intros [= <-]; lia|].
  case_bool_decide; [intros [= <-]; pose proof (slashed_removelast st); lia|].
  case_bool_decide; [|done]. intros [= <-]. rewrite slashed_app, zlen_app. unfold slashed at 2.
  cbn [map concat]. rewrite app_nil_r, zlen_cons. unfold zlen. rewrite length_take. lia.
Qed.

Lemma fold_resolve_weight l st st' :
  fold_left resolve_step l (Some st) = Some st' ->
  zlen (slashed st') <= zlen (slashed st) + zlen (slashed l).
Proof.
  revert st. induction l as [|seg l IH]; intros st.
  - cbn [fold_left]. intros [= <-]. change (slashed []) with (@nil Z). rewrite zlen_nil. lia.
  - cbn [fold_left]. destruct (resolve_step (Some st) seg) as [st1|] eqn:Hs; [|by rewrite fold_resolve_None].
    intros Hf. pose proof (IH _ Hf). pose proof (resolve_step_weight _ _ _ Hs).
    change (slashed (seg :: l)) with ((ch_slash :: seg) ++ slashed l). rewrite zlen_app, zlen_cons. lia.
Qed.

Lemma split_path_weight s : zlen (slashed (split_path s)) = 1 + zlen s.
Proof.
  induction s as [|c s IH]; [done|]. cbn [split_path]. rewrite zlen_cons.
  destruct (c =? ch_slash).
  - change (slashed ([] :: split_path s)) with ([ch_slash] ++ slashed (split_path s)).
    rewrite zlen_app, IH. change (zlen [ch_slash]) with 1. lia.
  - rewrite split_span in IH |- *. set (rest := match _ with [] => [] | _ :: _ => _ end) in *.
    change (slashed ((span_seg s).1 :: rest)) with (ch_slash :: (span_seg s).1 ++ slashed rest) in IH.
    change (slashed ((c :: (span_seg s).1) :: rest)) with (ch_slash :: c :: (span_seg s).1 ++ slashed rest).
    rewrite zlen_cons in IH. rewrite !zlen_cons. lia.
Qed.

Lemma resolve_fits raw st :
  path_is_abs (Some raw) = true -> resolve raw = Some st -> zlen (render st) <= zlen raw.
Proof.
  destruct raw as [|c raw]; [done|]. cbn [path_is_abs]. intros ->%Z.eqb_eq Hr.
  unfold resolve in Hr. cbn [split_path fold_left] in Hr. rewrite Z.eqb_refl in Hr. cbn [fold_left] in Hr.
  change (resolve_step (Some []) []) with (Some (@nil cstr)) in Hr.
  apply fold_resolve_weight in Hr. rewrite split_path_weight in Hr. change (zlen (slashed [])) with 0 in Hr.
  rewrite zlen_cons. pose proof (zlen_nonneg raw). destruct st as [|seg st]; [change (zlen (render [])) with 1; lia|].
  unfold render. fold (slashed (seg :: st)). lia.
Qed.

(** ** The text that is resolved *)

(** A relative path is taken from the working directory, ["/"] when that is empty. *)
Definition full_path (cwd path : cstr) : cstr :=
  if path_is_abs (Some path) then path else
  let base := match cwd with [] => [ch_slash] | _ => cwd end in
  base ++ (if bool_decide (last base = Some ch_slash) then [] else [ch_slash]) ++ path.

Lemma append_upto_fits cap out src :
  zlen out + zlen src < cap -> append_upto cap out src = (out ++ src, []).
Proof.
  intros Hl. unfold append_upto. unfold zlen in *. rewrite copy_upto_eq, take_ge, drop_ge by lia. done.
Qed.
Lemma append_upto_cut cap out src :
  zlen out < cap -> cap <= zlen out + zlen src -> (append_upto cap out src).2 <> [].
Proof.
  intros Ho Hl. unfold append_upto. rewrite copy_upto_eq. cbn [snd]. intros E.
  apply (f_equal length) in E. rewrite length_drop in E. unfold zlen in *. simpl in E. lia.
Qed.

Lemma path_copy_join_spec base extra :
  zlen base < VFS_PATH_MAX -> base <> [] ->
  path_copy_join VFS_PATH_MAX (Some base) (Some extra)
  = let raw := base ++ (if bool_decide (last base = Some ch_slash) then [] else [ch_slash]) ++ extra in
    if bool_decide (zlen raw < VFS_PATH_MAX) then Some raw else None.
Proof.
  unfold VFS_PATH_MAX. intros Hb Hne. cbv zeta. unfold path_copy_join. cbn [Z.leb Z.compare Pos.compare Pos.compare_cont].
  rewrite append_upto_fits by (rewrite zlen_nil; lia). cbn [fst app].
  pose proof (zlen_nonneg extra).
  assert (match last base with Some c => c =? ch_slash | None => false end
          = bool_decide (last base = Some ch_slash)) as ->.
  { destruct (last base) as [c|]; [|done]. destruct (Z.eqb_spec c ch_slash) as [->|];
      [by rewrite bool_decide_true|rewrite bool_decide_false; congruence]. }
  assert (forall out, zlen out < 256 ->
    (let '(out0, r) := append_upto 256 out extra in match r with [] => Some out0 | _ => None end)
    = if bool_decide (zlen (out ++ extra) < 256) then Some (out ++ extra) else None) as Hext.
  { intros out Ho. rewrite zlen_app. case_bool_decide as D; [by rewrite append_upto_fits|].
    pose proof (append_upto_cut 256 out extra Ho ltac:(lia)) as Hc.
    destruct (append_upto 256 out extra) as [o r]. by destruct r. }
  case_bool_decide.
  - cbn [app]. by apply Hext.
  - destruct (Z.leb_spec (256 - 1) (zlen base)) as [Hge|Hlt].
    + rewrite bool_decide_false; [done|]. rewrite !zlen_app. change (zlen [ch_slash]) with 1. lia.
    + rewrite Hext by (rewrite zlen_app; change (zlen [ch_slash]) with 1; lia).
      by rewrite <- app_assoc.
Qed.

Lemma raw_path_spec cwd path :
  zlen cwd < VFS_PATH_MAX ->
  raw_path cwd path = if bool_decide (zlen (full_path cwd path) < VFS_PATH_MAX)
                      then Some (full_path cwd path) else None.
Proof.
  intros Hc. unfold raw_path, full_path. destruct (path_is_abs (Some path)) eqn:Habs.
  - case_bool_decide; [by rewrite kstrncpy_fits|]. by rewrite kstrncpy_too_long by (unfold VFS_PATH_MAX in *; lia).
  - rewrite path_copy_join_spec by (destruct cwd; done). done.
Qed.

Lemma full_path_abs cwd path :
  path_is_abs (Some cwd) = true \/ cwd = [] -> path_is_abs (Some (full_path cwd path)) = true.
Proof.
  intros Hc. unfold full_path. destruct (path_is_abs (Some path)) eqn:Habs; [done|].
  destruct cwd as [|c cwd]; [done|]. destruct Hc as [Hc|]; done.
Qed.

(** The C function computes the reference: shared content of the two theorems below. *)
Lemma normalize_resolves cwd path :
  zlen cwd < VFS_PATH_MAX -> path_is_abs (Some cwd) = true \/ cwd = [] ->
  normalize_path cwd (Some path) VFS_PATH_MAX
  = if bool_decide (zlen (full_path cwd path) < VFS_PATH_MAX)
    then option_map render (resolve (full_path cwd path)) else None.
Proof.
  intros Hl Habs. unfold normalize_path. change (VFS_PATH_MAX <=? 1) with false. cbv iota.
  rewrite raw_path_spec by done. case_bool_decide as D; [|done].
  rewrite scan_segs_resolve by lia. rewrite fold_skip_slashes.
  fold (resolve (full_path cwd path)).
  destruct (resolve (full_path cwd path)) as [st|] eqn:Hr; [|done]. cbn [option_map].
  rewrite put_segs_render by done. rewrite bool_decide_true; [done|].
  pose proof (resolve_fits _ _ (full_path_abs cwd path Habs) Hr). lia.
Qed.

(** ** Canonical paths *)

(** A segment that stands for itself. *)
Definition plain_seg (seg : cstr) : Prop :=
  seg <> [] /\ seg <> [ch_dot] /\ seg <> [ch_dot; ch_dot] /\ (length seg <= 63)%nat /\ ch_slash ∉ seg.

#[export] Instance plain_seg_dec seg : Decision (plain_seg seg).
Proof. unfold plain_seg. apply _. Defined.

Definition canonical (path : cstr) : Prop :=
  zlen path < VFS_PATH_MAX
  /\ exists segs, path = render segs /\ Forall plain_seg segs /\ (length segs <= 32)%nat.

Lemma span_seg_noslash s : ch_slash ∉ (span_seg s).1.
Proof.
  induction s as [|c s IH]; simpl; [apply not_elem_of_nil|].
  destruct (Z.eqb_spec c ch_slash) as [->|Hne]; [apply not_elem_of_nil|].
  destruct (span_seg s) as [p r]. cbn [fst] in *. rewrite not_elem_of_cons. auto.
Qed.

Lemma split_path_noslash s : Forall (fun seg => ch_slash ∉ seg) (split_path s).
Proof.
  induction s as [|c s IH]; simpl; [by apply Forall_singleton, not_elem_of_nil|].
  destruct (Z.eqb_spec c ch_slash) as [->|Hne]; [apply Forall_cons; split; [apply not_elem_of_nil|done]|].
  destruct (split_path s) as [|p r]; [apply Forall_singleton; set_solver|].
  apply Forall_cons in IH as [H1 H2]. apply Forall_cons. split; [set_solver|done].
Qed.

Lemma resolve_step_plain st seg st' :
  Forall plain_seg st -> (length st <= 32)%nat -> ch_slash ∉ seg ->
  resolve_step (Some st) seg = Some st' -> Forall plain_seg st' /\ (length st' <= 32)%nat.
Proof.
  intros Hst Hl Hseg. unfold resolve_step.
  case_bool_decide as D1; [by intros [= <-]|].
  case_bool_decide as D2.
  - intros [= <-]. destruct st as [|s st _] using rev_ind; [done|]. rewrite removelast_last.
    rewrite length_app in Hl. apply Forall_app in Hst as [? _]. split; [done|lia].
  - case_bool_decide; [|done]. intros [= <-]. rewrite length_app. split; [|simpl; lia].
    apply Forall_app. split; [done|]. apply Forall_singleton.
    assert (ch_slash ∉ take 63 seg) by (intros ?; apply Hseg; rewrite <- (take_drop 63 seg); set_solver).
    assert (forall k, length k = 0%nat \/ length k = 1%nat \/ length k = 2%nat ->
            take 63 seg = k -> seg = k) as Hsh.
    { intros k Hk E. destruct (decide (length seg <= 63)%nat); [by rewrite take_ge in E|].
      apply (f_equal length) in E. rewrite length_take in E. lia. }
    split; [intros E%(Hsh []); auto|]. split; [intros E%Hsh; auto|]. split; [intros E%Hsh; auto|].
    split; [rewrite length_take; lia|done].
Qed.

Lemma fold_resolve_plain l st st' :
  Forall (fun seg => ch_slash ∉ seg) l -> Forall plain_seg st -> (length st <= 32)%nat ->
  fold_left resolve_step l (Some st) = Some st' -> Forall plain_seg st' /\ (length st' <= 32)%nat.
Proof.
  revert st. induction l as [|seg l IH]; intros st Hl Hst Hn; cbn [fold_left]; [by intros [= <-]|].
  apply Forall_cons in Hl as [Hs Hl]. destruct (resolve_step (Some st) seg) as [st1|] eqn:E;
    [|by rewrite fold_resolve_None].
  destruct (resolve_step_plain _ _ _ Hst Hn Hs E). by apply IH.
Qed.

(** Splitting a rendered path gives the segments back. *)
Lemma split_noslash_app seg s : ch_slash ∉ seg -> split_path (seg ++ ch_slash :: s) = seg :: split_path s.
Proof.
  induction seg as [|c seg IH]; intros Hs; cbn [app split_path]; [done|].
  apply not_elem_of_cons in Hs as [Hne Hs]. rewrite (proj2 (Z.eqb_neq _ _)) by congruence.
  by rewrite IH.
Qed.
Lemma split_noslash seg : ch_slash ∉ seg -> split_path seg = [seg].
Proof.
  induction seg as [|c seg IH]; intros Hs; cbn [split_path]; [done|].
  apply not_elem_of_cons in Hs as [Hne Hs]. rewrite (proj2 (Z.eqb_neq _ _)) by congruence.
  by rewrite IH.
Qed.
Lemma split_slashed segs :
  Forall plain_seg segs -> segs <> [] -> split_path (slashed segs) = [] :: segs.
Proof.
  induction segs as [|seg segs IH]; [done|]. intros [Hs Hf]%Forall_cons _.
  change (slashed (seg :: segs)) with (ch_slash :: seg ++ slashed segs). cbn [split_path]. rewrite Z.eqb_refl.
  destruct Hs as (_ & _ & _ & _ & Hs). destruct segs as [|seg2 segs].
  - unfold slashed. cbn [map concat]. rewrite app_nil_r, split_noslash by done. done.
  - specialize (IH Hf ltac:(done)).
    change (slashed (seg2 :: segs)) with (ch_slash :: seg2 ++ slashed segs) in *.
    rewrite split_noslash_app by done. cbn [split_path] in IH. rewrite Z.eqb_refl in IH. congruence.
Qed.

Lemma resolve_push st seg :
  plain_seg seg -> (length st < 32)%nat -> resolve_step (Some st) seg = Some (st ++ [seg]).
Proof.
  intros (H1 & H2 & H3 & H4 & H5) Hl. unfold resolve_step.
  rewrite bool_decide_false by tauto. rewrite bool_decide_false by done.
  rewrite bool_decide_true by done. by rewrite take_ge.
Qed.

Lemma fold_resolve_push segs st :
  Forall plain_seg segs -> (length st + length segs <= 32)%nat ->
  fold_left resolve_step segs (Some st) = Some (st ++ segs).
Proof.
  revert st. induction segs as [|seg segs IH]; intros st Hf Hl; [by rewrite app_nil_r|].
  apply Forall_cons in Hf as [Hs Hf]. cbn [fold_left]. simpl in Hl. rewrite resolve_push by (done || lia).
  rewrite IH by (rewrite ?length_app; simpl; done || lia). by rewrite <- app_assoc.
Qed.

Lemma resolve_render segs : Forall plain_seg segs -> (length segs <= 32)%nat -> resolve (render segs) = Some segs.
Proof.
  intros Hf Hl. unfold resolve. destruct segs as [|seg segs]; [done|].
  change (render (seg :: segs)) with (slashed (seg :: segs)).
  rewrite split_slashed by done. cbn [fold_left].
  change (resolve_step (Some []) []) with (Some (@nil cstr)). by apply (fold_resolve_push (seg :: segs) []).
Qed.

Lemma render_abs segs : path_is_abs (Some (render segs)) = true.
Proof. by destruct segs. Qed.

Lemma normalize_canonical_id cwd path :
  zlen cwd < VFS_PATH_MAX -> path_is_abs (Some cwd) = true \/ cwd = [] ->
  canonical path -> normalize_path cwd (Some path) VFS_PATH_MAX = Some path.
Proof.
  intros Hl Habs (Hp & segs & -> & Hf & Hn). rewrite normalize_resolves by done.
  assert (full_path cwd (render segs) = render segs) as -> by (unfold full_path; by rewrite render_abs).
  rewrite bool_decide_true by done. by rewrite resolve_render.
Qed.

Lemma normalize_result_canonical cwd path out :
  zlen cwd < VFS_PATH_MAX -> path_is_abs (Some cwd) = true \/ cwd = [] ->
  normalize_path cwd (Some path) VFS_PATH_MAX = Some out -> canonical out.
Proof.
  intros Hl Habs. rewrite normalize_resolves by done. case_bool_decide as D; [|done].
  destruct (resolve (full_path cwd path)) as [st|] eqn:Hr; [|done]. intros [= <-].
  destruct (fold_resolve_plain (split_path (full_path cwd path)) [] st) as [Hf Hn];
    [apply split_path_noslash|constructor|simpl; lia|done|].
  split; [|by exists st]. pose proof (resolve_fits _ _ (full_path_abs cwd path Habs) Hr). lia.
Qed.

(** ** The theorems *)

(** C18: [normalize_path_for_process] computes the reference.  For a working directory that is
    empty or absolute and fits its buffer, the result is the stack of segments left by resolving
    the full text from the left (empty and dot segments skipped, dot-dot popping, other segments
    cut to 63 characters), written with a slash before each; it fails exactly when the full text
    does not fit in 255 characters or more than 32 segments are on the stack at once. *)
Theorem normalize_path_equiv cwd path :
  zlen cwd < VFS_PATH_MAX -> path_is_abs (Some cwd) = true \/ cwd = [] ->
  normalize_path cwd (Some path) VFS_PATH_MAX
  = if bool_decide (zlen (full_path cwd path) < VFS_PATH_MAX)
    then option_map render (resolve (full_path cwd path)) else None.
Proof. apply normalize_resolves. Qed.

(** C19: the result of [normalize_path_for_process] is canonical (absolute, at most 32 segments of
    1 to 63 characters, none of them empty, dot or dot-dot, no trailing slash), and canonical paths
    are fixed points of it whatever the working directory. *)
Theorem normalize_path_canonical cwd path out :
  zlen cwd < VFS_PATH_MAX -> path_is_abs (Some cwd) = true \/ cwd = [] ->
  normalize_path cwd (Some path) VFS_PATH_MAX = Some out ->
  canonical out /\ forall cwd', canonical cwd' -> normalize_path cwd' (Some out) VFS_PATH_MAX = Some out.
Proof.
  intros Hl Habs H. pose proof (normalize_result_canonical _ _ _ Hl Habs H) as Hc. split; [done|].
  intros cwd' (Hl' & segs & -> & _). apply normalize_canonical_id; [done| |done].
  left. apply render_abs.
Qed.

(** "/home" and "../tmp//./a/b/.." *)
Definition ex_cwd : cstr := [47; 104; 111; 109; 101].
Definition ex_path : cstr := [46; 46; 47; 116; 109; 112; 47; 47; 46; 47; 97; 47; 98; 47; 46; 46].
Definition ex_norm : cstr := [47; 116; 109; 112; 47; 97].

Lemma normalize_path_equiv_witness :
  zlen ex_cwd < VFS_PATH_MAX /\ normalize_path ex_cwd (Some ex_path) VFS_PATH_MAX = Some ex_norm
  /\ option_map render (resolve (full_path ex_cwd ex_path)) = Some ex_norm.
Proof.
  split; [reflexivity|]. split; [|vm_compute; reflexivity].
  rewrite (normalize_path_equiv ex_cwd ex_path); [vm_compute; reflexivity|reflexivity|left; reflexivity].
Defined.

Lemma normalize_path_canonical_witness :
  canonical ex_norm /\ normalize_path ex_norm (Some ex_norm) VFS_PATH_MAX = Some ex_norm.
Proof.
  destruct (normalize_path_canonical ex_cwd ex_path ex_norm) as [Hc Hid];
    [reflexivity|left; reflexivity|vm_compute; reflexivity|].
  split; [exact Hc|]. apply Hid. exact Hc.
Defined.
