(* ===== verification/Mounts.v ===== *)
(** The mount table of [src/fs/vfs.c]: registration, lookup by path, and the path below a mount. *)

From S2P Require Import Prelude CString Path.

Definition VFS_MAX_MOUNTS : Z := 13.

Inductive vfs_backend : Type :=
  | VFS_BACKEND_NONE | VFS_BACKEND_INITRD | VFS_BACKEND_FAT12 | VFS_BACKEND_MEMFS
  | VFS_BACKEND_FAT32 | VFS_BACKEND_PROCFS | VFS_BACKEND_SYSFS | VFS_BACKEND_BOOTFS
  | VFS_BACKEND_DEVFS | VFS_BACKEND_PIPE.
#[export] Instance vfs_backend_eq_dec : EqDecision vfs_backend.
Proof. solve_decision. Defined.

Record vfs_mount := mkMount {
  m_used : bool;
  m_path : cstr;
  m_path_len : Z;
  m_backend : vfs_backend;
  m_read_only : bool;
  m_name : cstr;
}.
#[export] Instance mount_rebuild : Rebuild vfs_mount := fun m =>
  mkMount (m_used m) (m_path m) (m_path_len m) (m_backend m) (m_read_only m) (m_name m).
Definition mount_zero : vfs_mount := mkMount false [] 0 VFS_BACKEND_NONE false [].
#[export] Instance mount_inhabited : Inhabited vfs_mount := populate mount_zero.

(** "none", "unknown" *)
Definition name_none : cstr := [110; 111; 110; 101].
Definition name_unknown : cstr := [117; 110; 107; 110; 111; 119; 110].

Definition mount_table_reset (t : list vfs_mount) : list vfs_mount :=
  for_up (Z.to_nat VFS_MAX_MOUNTS) 0
    (fun i t => aset i (aget t i <| m_used := false |> <| m_path := [] |> <| m_path_len := 0 |>
                          <| m_backend := VFS_BACKEND_NONE |> <| m_read_only := true |>
                          <| m_name := name_none |>) t) t.

(** [cwd] is the kernel's working directory, used for a relative [path]. *)
Definition mount_register (cwd : cstr) (path : cstr) (b : vfs_backend) (read_only : bool)
    (name : option cstr) (t : list vfs_mount) : Z * list vfs_mount :=
  match normalize_path cwd (Some path) VFS_PATH_MAX with
  | None => (-1, t)
  | Some norm =>
      match find_index (fun m => negb (m_used m)) t with
      | None => (-1, t)
      | Some i =>
          let m := aget t i <| m_used := true |> in
          let m := m <| m_path := (kstrncpy (m_path m) (Some norm) VFS_PATH_MAX).1 |> in
          let m := m <| m_path_len := kstrlen (Some (m_path m)) |> in
          (0, aset i (m <| m_backend := b |> <| m_read_only := read_only |>
                        <| m_name := match name with Some n => n | None => name_unknown end |>) t)
      end
  end.

(** [m->path_len == 1 && m->path[0] == '/'] *)
Definition is_root_mount (m : vfs_mount) : bool :=
  (m_path_len m =? 1) && match m_path m with c :: _ => c =? ch_slash | [] => false end.

(** [while (j < path_len && path[j] && path[j] == m->path[j]) j++] *)
Fixpoint match_len (n : nat) (path mp : cstr) : Z :=
  match n, path, mp with
  | S n', c :: path', d :: mp' => if c =? d then 1 + match_len n' path' mp' else 0
  | _, _, _ => 0
  end.

(** Whether the mount is kept by the two tests after that loop. *)
Definition mount_matches (m : vfs_mount) (path : cstr) : bool :=
  let j := match_len (Z.to_nat (m_path_len m)) path (m_path m) in
  (j =? m_path_len m)
  && match drop (Z.to_nat j) path with [] => true | c :: _ => c =? ch_slash end.

Definition lookup_step (t : list vfs_mount) (path : cstr) (i : Z) (acc : option Z * Z) : option Z * Z :=
  let '(best, best_len) := acc in
  let m := aget t i in
  if negb (m_used m) then acc else
  if is_root_mount m then (if best_len <? 1 then (Some i, 1) else acc) else
  if negb (mount_matches m path) then acc else
  if best_len <? m_path_len m then (Some i, m_path_len m) else acc.

Definition mount_lookup (t : list vfs_mount) (path : cstr) : option Z :=
  (for_up (Z.to_nat VFS_MAX_MOUNTS) 0 (lookup_step t path) (None, -1)).1.

Definition mount_subpath (m : vfs_mount) (abs_path : cstr) (cap : Z) : option cstr :=
  if cap <=? 1 then None else
  let copy s := let '(out, rc) := kstrncpy [] (Some s) cap in if rc =? 0 then Some out else None in
  if is_root_mount m then copy abs_path else
  match drop (Z.to_nat (m_path_len m)) abs_path with
  | [] => copy [ch_slash]
  | p => copy p
  end.

(** The entries [vfs_get_mounts] fills in: path, file system name, read-only flag. *)
Definition vfs_get_mounts (t : list vfs_mount) (max : Z) : option (list (cstr * cstr * bool)) :=
  if max <=? 0 then None else
  Some (for_up (Z.to_nat VFS_MAX_MOUNTS) 0
    (fun i out =>
       if (zlen out <? max) && m_used (aget t i)
       then out ++ [((kstrncpy [] (Some (m_path (aget t i))) VFS_PATH_MAX).1,
                     (kstrncpy [] (Some (m_name (aget t i))) 16).1, m_read_only (aget t i))]
       else out) []).

(** The first component of a mount path, and whether a name of the list is equal to it. *)
Definition mount_base (m : vfs_mount) : cstr := (span_seg (drop 1 (m_path m))).1.

Definition append_root_mount_names (t : list vfs_mount) (names : list cstr) (max : Z) : list cstr :=
  for_up (Z.to_nat VFS_MAX_MOUNTS) 0
    (fun i names =>
       let m := aget t i in
       let base := mount_base m in
       if negb (zlen names <? max) then names else
       if negb (m_used m) || (m_path_len m <=? 1) || (zlen base <=? 0) then names else
       if existsb (fun n => bool_decide (n = base)) names then names else
       names ++ [take (Z.to_nat (VFS_NAME_MAX - 1)) base]) names.

(** ** Which mount a path belongs to *)

(** [mp] is [path] or a directory above it. *)
Definition covers (mp path : cstr) : Prop :=
  mp = [ch_slash] \/ path = mp \/ exists r, path = mp ++ ch_slash :: r.

Definition mount_ok (m : vfs_mount) : Prop :=
  m_path_len m = zlen (m_path m) /\ canonical (m_path m).

Definition mounts_ok (t : list vfs_mount) : Prop :=
  length t = 13%nat /\ forall i, 0 <= i < VFS_MAX_MOUNTS -> m_used (aget t i) = true -> mount_ok (aget t i).

Lemma match_len_bounds n path mp : 0 <= match_len n path mp <= Z.of_nat n.
Proof.
  revert path mp. induction n as [|n IH]; intros [|c path] [|d mp]; cbn [match_len]; try lia.
  pose proof (IH path mp). destruct (c =? d); lia.
Qed.

Lemma match_len_full path mp :
  match_len (length mp) path mp = zlen mp <-> exists r, path = mp ++ r.
Proof.
  revert path. induction mp as [|d mp IH]; intros path.
  { split; [intros _; by exists path|done]. }
  destruct path as [|c path]; cbn [match_len length].
  - rewrite zlen_cons. pose proof (zlen_nonneg mp). split; [lia|intros [r ?]; done].
  - rewrite zlen_cons. pose proof (match_len_bounds (length mp) path mp) as Hb. destruct (Z.eqb_spec c d) as [->|Hne].
    + split.
      * intros H. destruct (proj1 (IH path)) as [r ->]; [lia|]. by exists r.
      * intros [r [= ->]]. assert (match_len (length mp) (mp ++ r) mp = zlen mp) by (apply IH; eauto). lia.
    + pose proof (zlen_nonneg mp). split; [lia|]. intros [r [= -> _]]. done.
Qed.

Lemma mount_matches_spec m path :
  m_path_len m = zlen (m_path m) ->
  mount_matches m path = true <-> path = m_path m \/ exists r, path = m_path m ++ ch_slash :: r.
Proof.
  intros Hl. unfold mount_matches. rewrite Hl.
  assert (Z.to_nat (zlen (m_path m)) = length (m_path m)) as -> by (unfold zlen; lia).
  rewrite andb_true_iff, Z.eqb_eq.
  split.
  - intros [H1 H2]. rewrite H1 in H2. apply match_len_full in H1 as [r ->].
    unfold zlen in H2. rewrite Nat2Z.id, drop_app_length in H2.
    destruct r as [|c r]; [left; by rewrite app_nil_r|]. apply Z.eqb_eq in H2 as ->. right. by exists r.
  - intros H. assert (match_len (length (m_path m)) path (m_path m) = zlen (m_path m)) as E.
    { apply match_len_full. destruct H as [->|[r ->]]; [exists []; by rewrite app_nil_r|eauto]. }
    split; [done|]. rewrite E. unfold zlen. rewrite Nat2Z.id.
    destruct H as [->|[r ->]]; [by rewrite drop_all|]. by rewrite drop_app_length.
Qed.

Lemma is_root_spec m : m_path_len m = zlen (m_path m) -> is_root_mount m = true <-> m_path m = [ch_slash].
Proof.
  intros Hl. unfold is_root_mount. rewrite Hl, andb_true_iff, Z.eqb_eq.
  destruct (m_path m) as [|c [|d p]].
  - split; [intros [? ?]; done|done].
  - rewrite Z.eqb_eq. split; [by intros [_ ->]|by intros [= ->]].
  - rewrite !zlen_cons. pose proof (zlen_nonneg p). split; [lia|done].
Qed.

(** The candidate test of the loop. *)
Definition candidate (m : vfs_mount) (path : cstr) : bool :=
  m_used m && (is_root_mount m || mount_matches m path).

Lemma candidate_covers m path :
  m_path_len m = zlen (m_path m) -> candidate m path = true <-> m_used m = true /\ covers (m_path m) path.
Proof.
  intros Hl. unfold candidate, covers.
  rewrite andb_true_iff, orb_true_iff, is_root_spec, mount_matches_spec by done. done.
Qed.

(** After [k] rounds: the best candidate among the first [k] mounts. *)
Definition lookup_inv (t : list vfs_mount) (path : cstr) (k : Z) (acc : option Z * Z) : Prop :=
  match acc.1 with
  | Some i => 0 <= i < k /\ acc.2 = m_path_len (aget t i) /\ candidate (aget t i) path = true
              /\ (forall j, 0 <= j < k -> candidate (aget t j) path = true ->
                    m_path_len (aget t j) <= acc.2 /\ (m_path_len (aget t j) = acc.2 -> i <= j))
  | None => acc.2 = -1 /\ forall j, 0 <= j < k -> candidate (aget t j) path = false
  end.

Lemma lookup_step_inv t path k acc :
  mounts_ok t -> 0 <= k < VFS_MAX_MOUNTS -> lookup_inv t path k acc ->
  lookup_inv t path (k + 1) (lookup_step t path k acc).
Proof.
  intros [_ Hok] Hk Hinv. specialize (Hok k Hk). destruct acc as [best bl].
  assert (candidate (aget t k) path = false -> lookup_inv t path (k + 1) (best, bl)) as Hskip.
  { intros Hc. unfold lookup_inv in *. cbn [fst snd] in *. destruct best as [i|].
    - destruct Hinv as (Hi & Hb & Hci & Hall). split; [lia|]. split; [done|]. split; [done|].
      intros j Hj Hcj. destruct (decide (j = k)) as [->|]; [congruence|]. apply Hall; [lia|done].
    - destruct Hinv as [? Hall]. split; [done|]. intros j Hj.
      destruct (decide (j = k)) as [->|]; [done|]. apply Hall. lia. }
  assert (candidate (aget t k) path = true ->
          lookup_inv t path (k + 1) (if bl <? m_path_len (aget t k) then (Some k, m_path_len (aget t k)) else (best, bl)))
    as Htake.
  { intros Hc. unfold lookup_inv in *. cbn [fst snd] in *.
    destruct (Z.ltb_spec bl (m_path_len (aget t k))) as [Hlt|Hge]; cbn [fst snd].
    - split; [lia|]. split; [done|]. split; [done|]. intros j Hj Hcj.
      destruct (decide (j = k)) as [->|]; [lia|]. destruct best as [i|].
      + destruct Hinv as (Hi & Hb & Hci & Hall). destruct (Hall j ltac:(lia) Hcj). lia.
      + destruct Hinv as [? Hall]. rewrite Hall in Hcj by lia. done.
    - destruct best as [i|].
      + destruct Hinv as (Hi & Hb & Hci & Hall). split; [lia|]. split; [done|]. split; [done|].
        intros j Hj Hcj. destruct (decide (j = k)) as [->|]; [lia|]. apply Hall; [lia|done].
      + destruct Hinv as [-> Hall]. unfold candidate in Hc. apply andb_true_iff in Hc as [Hu _].
        destruct (Hok Hu) as [E _]. rewrite E in Hge. pose proof (zlen_nonneg (m_path (aget t k))). lia. }
  unfold lookup_step. unfold candidate in Hskip, Htake. destruct (m_used (aget t k)) eqn:Hu; cbn [negb andb] in *.
  2: by apply Hskip.
  destruct (is_root_mount (aget t k)) eqn:Hr; cbn [orb] in *.
  - assert (m_path_len (aget t k) = 1) as E.
    { unfold is_root_mount in Hr. apply andb_true_iff in Hr as [Hr _]. by apply Z.eqb_eq. }
    rewrite E in Htake. by apply Htake.
  - destruct (mount_matches (aget t k) path); cbn [negb]; auto.
Qed.

Lemma mount_lookup_inv t path :
  mounts_ok t ->
  match mount_lookup t path with
  | Some i => 0 <= i < VFS_MAX_MOUNTS /\ candidate (aget t i) path = true
              /\ (forall j, 0 <= j < VFS_MAX_MOUNTS -> candidate (aget t j) path = true ->
                    m_path_len (aget t j) <= m_path_len (aget t i)
                    /\ (m_path_len (aget t j) = m_path_len (aget t i) -> i <= j))
  | None => forall j, 0 <= j < VFS_MAX_MOUNTS -> candidate (aget t j) path = false
  end.
Proof.
  intros Hok. unfold mount_lookup.
  assert (forall n, (n <= 13)%nat -> lookup_inv t path (Z.of_nat n) (for_up n 0 (lookup_step t path) (None, -1))) as Hn.
  { intros n Hn. rewrite <- (Z.add_0_l (Z.of_nat n)).
    apply (for_up_inv (lookup_inv t path)); [split; [done|lia]|].
    intros k acc Hk. apply lookup_step_inv; [done|]. unfold VFS_MAX_MOUNTS. lia. }
  specialize (Hn 13%nat ltac:(lia)). change (Z.to_nat VFS_MAX_MOUNTS) with 13%nat.
  destruct (for_up 13 0 (lookup_step t path) (None, -1)) as [[i|] bl];
    unfold lookup_inv in Hn; cbn [fst snd] in *; change (Z.of_nat 13) with VFS_MAX_MOUNTS in Hn.
  - destruct Hn as (Hi & -> & Hc & Hall). done.
  - apply Hn.
Qed.

(** ** The path below a mount *)

Lemma mount_subpath_spec m path :
  mount_ok m -> canonical path -> candidate m path = true ->
  exists sub, mount_subpath m path VFS_PATH_MAX = Some sub /\ path_is_abs (Some sub) = true
    /\ zlen sub < VFS_PATH_MAX
    /\ (if bool_decide (m_path m = [ch_slash]) then sub = path
        else if bool_decide (path = m_path m) then sub = [ch_slash] else path = m_path m ++ sub).
Proof.
  intros [Hl Hcan] [Hp (segs & Hsegs & _)] [_ Hc]%andb_true_iff.
  assert (path_is_abs (Some path) = true) as Habs by (rewrite Hsegs; apply render_abs).
  unfold mount_subpath. change (VFS_PATH_MAX <=? 1) with false. cbv iota.
  apply orb_true_iff in Hc. destruct (is_root_mount m) eqn:Hr.
  - apply is_root_spec in Hr; [|done]. rewrite bool_decide_true by done.
    rewrite kstrncpy_fits by done. exists path. done.
  - destruct Hc as [?|Hm]; [done|]. apply mount_matches_spec in Hm; [|done].
    rewrite bool_decide_false by (intros E; apply is_root_spec in E; congruence).
    rewrite Hl. unfold zlen at 1. rewrite Nat2Z.id. destruct Hm as [->|[r ->]].
    + rewrite drop_all, bool_decide_true by done. exists [ch_slash]. done.
    + rewrite drop_app_length. rewrite bool_decide_false.
      2: { intros E. apply (f_equal length) in E. rewrite length_app in E. simpl in E. lia. }
      rewrite zlen_app in Hp. pose proof (zlen_nonneg (m_path m)).
      rewrite kstrncpy_fits by lia. exists (ch_slash :: r). split; [done|]. split; [done|]. split; [lia|done].
Qed.

Lemma mounts_ok_reset t : length t = 13%nat -> mounts_ok (mount_table_reset t).
Proof.
  intros Hl. unfold mount_table_reset.
  set (f := fun (i : Z) (t : list vfs_mount) => _).
  assert (length (for_up (Z.to_nat VFS_MAX_MOUNTS) 0 f t) = 13%nat
          /\ forall k, 0 <= k < 0 + Z.of_nat (Z.to_nat VFS_MAX_MOUNTS) ->
             m_used (aget (for_up (Z.to_nat VFS_MAX_MOUNTS) 0 f t) k) = false) as [H1 H2].
  { apply (for_up_inv (fun k t => length t = 13%nat /\ forall j, 0 <= j < k -> m_used (aget t j) = false));
      [split; [done|lia]|].
    intros k t' Hk [Hlen Hall]. unfold f. split; [by rewrite length_aset|]. intros j Hj.
    unfold VFS_MAX_MOUNTS in Hk. destruct (decide (j = k)) as [->|].
    - rewrite aget_aset_eq by lia. done.
    - rewrite aget_aset_ne by lia. apply Hall. lia. }
  split; [done|]. intros i Hi Hu. rewrite H2 in Hu; [done|]. unfold VFS_MAX_MOUNTS in *. lia.
Qed.

Lemma mounts_ok_register cwd path b ro name t :
  mounts_ok t -> canonical cwd -> mounts_ok (mount_register cwd path b ro name t).2.
Proof.
  intros [Hl Hok] [Hcl (segs & Hcs & _)]. unfold mount_register.
  assert (path_is_abs (Some cwd) = true \/ cwd = []) as Habs by (left; rewrite Hcs; apply render_abs).
  destruct (normalize_path cwd (Some path) VFS_PATH_MAX) as [norm|] eqn:Hn; [|done].
  apply normalize_result_canonical in Hn; [|done..].
  destruct (find_index _ t) as [i|] eqn:Hf; [|done]. apply find_index_Some in Hf as (Hi & _).
  split; cbn [snd]; [by rewrite length_aset|]. intros j Hj. unfold VFS_MAX_MOUNTS in *.
  destruct (decide (j = i)) as [->|Hne]; [|rewrite aget_aset_ne by lia; by apply Hok].
  rewrite aget_aset_eq by lia. intros _. split; [done|].
  change (canonical (kstrncpy (m_path (aget t i)) (Some norm) VFS_PATH_MAX).1).
  rewrite kstrncpy_fits by apply Hn. done.
Qed.

(** Which file system a path belongs to.  In a well-formed mount table, [mount_lookup] on a
    canonical path returns the used mount with the longest mount point that is the path itself or
    a directory above it (whole components: "/tmp" is not above "/tmpfile"), the first of them if
    several are equal, and fails only if there is none.  [mount_subpath] then succeeds: the mount
    point followed by its result is the path. *)
Theorem mount_lookup_longest t path :
  mounts_ok t -> canonical path ->
  match mount_lookup t path with
  | Some i =>
      let m := aget t i in
      0 <= i < VFS_MAX_MOUNTS /\ m_used m = true /\ covers (m_path m) path
      /\ (forall j, 0 <= j < VFS_MAX_MOUNTS -> m_used (aget t j) = true -> covers (m_path (aget t j)) path ->
           zlen (m_path (aget t j)) <= zlen (m_path m)
           /\ (zlen (m_path (aget t j)) = zlen (m_path m) -> i <= j))
      /\ exists sub, mount_subpath m path VFS_PATH_MAX = Some sub /\ path_is_abs (Some sub) = true
           /\ (if bool_decide (m_path m = [ch_slash]) then sub = path
               else if bool_decide (path = m_path m) then sub = [ch_slash] else path = m_path m ++ sub)
  | None => forall j, 0 <= j < VFS_MAX_MOUNTS -> m_used (aget t j) = true -> ~ covers (m_path (aget t j)) path
  end.
Proof.
  intros Hok Hp. pose proof (mount_lookup_inv t path Hok) as Hinv. destruct Hok as [_ Hok].
  destruct (mount_lookup t path) as [i|].
  - destruct Hinv as (Hi & Hc & Hall). cbv zeta. set (m := aget t i) in *.
    assert (m_used m = true) as Hu by (unfold candidate in Hc; by apply andb_true_iff in Hc as [? _]).
    destruct (Hok i Hi Hu) as [Hl Hcan]. fold m in Hl, Hcan.
    split; [done|]. split; [done|]. split; [by apply candidate_covers|]. split.
    + intros j Hj Huj Hcj. destruct (Hok j Hj Huj) as [Hlj _]. rewrite <- Hlj, <- Hl.
      apply Hall; [done|]. by apply candidate_covers.
    + destruct (mount_subpath_spec m path) as (sub & ? & ? & _ & ?); [by split|done..|]. eauto.
  - intros j Hj Hu Hc. destruct (Hok j Hj Hu) as [Hl _]. specialize (Hinv j Hj).
    assert (candidate (aget t j) path = true) by (by apply candidate_covers). congruence.
Qed.

(** The table [vfs_init] builds without a boot module: "/" and "/tmp" on memfs, "/proc", "/sys", "/dev". *)
Definition str_tmp : cstr := [47; 116; 109; 112].
Definition str_proc : cstr := [47; 112; 114; 111; 99].
Definition str_sys : cstr := [47; 115; 121; 115].
Definition str_dev : cstr := [47; 100; 101; 118].
Definition name_memfs : cstr := [109; 101; 109; 102; 115].

Definition ex_mounts : list vfs_mount :=
  let t := mount_table_reset (repeat mount_zero 13) in
  let t := (mount_register [47] [47] VFS_BACKEND_MEMFS false (Some name_memfs) t).2 in
  let t := (mount_register [47] str_tmp VFS_BACKEND_MEMFS false (Some name_memfs) t).2 in
  (mount_register [47] str_dev VFS_BACKEND_DEVFS false None t).2.

Lemma canonical_root : canonical [ch_slash].
Proof. split; [done|]. exists []. split; [done|]. split; [constructor|simpl; lia]. Qed.

Lemma ex_mounts_ok : mounts_ok ex_mounts.
Proof.
  unfold ex_mounts. apply mounts_ok_register; [|apply canonical_root].
  apply mounts_ok_register; [|apply canonical_root]. apply mounts_ok_register; [|apply canonical_root].
  apply mounts_ok_reset. reflexivity.
Qed.

(** "/tmp/a" *)
Definition ex_tmp_file : cstr := [47; 116; 109; 112; 47; 97].

Lemma mount_lookup_longest_witness :
  mount_lookup ex_mounts ex_tmp_file = Some 1
  /\ covers (m_path (aget ex_mounts 1)) ex_tmp_file
  /\ mount_subpath (aget ex_mounts 1) ex_tmp_file VFS_PATH_MAX = Some [47; 97].
Proof.
  pose proof (mount_lookup_longest ex_mounts ex_tmp_file ex_mounts_ok) as H.
  assert (mount_lookup ex_mounts ex_tmp_file = Some 1) as E by (vm_compute; reflexivity).
  rewrite E in H. destruct H as (_ & _ & Hc & _).
  { split; [reflexivity|]. exists [[116; 109; 112]; [97]].
    split; [reflexivity|]. split; [|simpl; lia].
    apply (bool_decide_unpack _). vm_compute. exact I. }
  split; [exact E|]. split; [exact Hc|vm_compute; reflexivity].
Defined.
