(* ===== verification/Memfs.v ===== *)
(** The in-memory file system: [src/fs/memfs.c].

    The inode table is a list of 16 records.  A file's data pointer is [None] for NULL, otherwise
    the address of its heap block and the bytes of the block.  The heap is used through the class
    [Heap]; its laws are the contract of [kmalloc]. *)

From S2P Require Import Prelude CString.

(** ** The kernel heap as its clients see it *)

(** [kmalloc n] returns NULL or the address of a block and the bytes found there. *)
Class Heap (B : Type) := {
  kmalloc : Z -> B -> option (Z * list Z) * B;
  kfree : Z -> B -> B;
}.

Class HeapLaws (B : Type) `{Heap B} := {
  kmalloc_block n b a d b' :
    kmalloc n b = (Some (a, d), b') -> 0 <= n -> zlen d = n /\ 0 < a /\ n <= 2 ^ 62;
}.

(** [while (new_cap < need) new_cap *= 2], on [size_t]; [None] when the fuel is used up. *)
Fixpoint grow_cap (fuel : nat) (new_cap need : Z) : option Z :=
  match fuel with
  | O => None
  | S fuel' => if new_cap <? need then grow_cap fuel' (u64 (new_cap * 2)) need else Some new_cap
  end.

(** Sixty-four doublings take any capacity to zero. *)
Definition GROW_FUEL : nat := 65.

(** ** The code *)

Definition MEMFS_MAX_FILES : Z := 16.
Definition MEMFS_MAX_NAME : Z := 64.
Definition MEMFS_INIT_CAP : Z := 4096.

Record memfs_inode_t := mkInode {
  i_name : cstr;
  i_data : option (Z * list Z);
  i_size : Z;
  i_capacity : Z;
  i_used : bool;
}.
#[export] Instance inode_rebuild : Rebuild memfs_inode_t := fun n =>
  mkInode (i_name n) (i_data n) (i_size n) (i_capacity n) (i_used n).
Definition inode_zero : memfs_inode_t := mkInode [] None 0 0 false.
#[export] Instance inode_inhabited : Inhabited memfs_inode_t := populate inode_zero.

Definition memfs := list memfs_inode_t.

Definition memfs_init (m : memfs) : memfs :=
  for_up (Z.to_nat MEMFS_MAX_FILES) 0
    (fun i m => aset i (aget m i <| i_used := false |> <| i_data := None |> <| i_size := 0 |>
                          <| i_capacity := 0 |> <| i_name := [] |>) m) m.

Definition bytes_of (d : option (Z * list Z)) : list Z := match d with Some (_, l) => l | None => [] end.
Definition addr_of (d : option (Z * list Z)) : Z := match d with Some (a, _) => a | None => 0 end.

(** [inode < 0 || inode >= MEMFS_MAX_FILES || !g_inodes[inode].used] *)
Definition bad_inode (m : memfs) (ino : Z) : bool :=
  (ino <? 0) || (MEMFS_MAX_FILES <=? ino) || negb (i_used (aget m ino)).

Definition memfs_open (m : memfs) (name : cstr) : Z :=
  match find_index (fun n => i_used n && mstreq (i_name n) name) m with
  | Some i => i
  | None => -1
  end.

Definition memfs_read (m : memfs) (ino pos count : Z) : list Z :=
  if bad_inode m ino then [] else
  let n := aget m ino in
  if i_size n <=? pos then [] else
  let count := if i_size n - pos <? count then i_size n - pos else count in
  copy_out (bytes_of (i_data n)) pos (Z.to_nat count).

Definition memfs_size (m : memfs) (ino : Z) : Z :=
  if bad_inode m ino then 0 else i_size (aget m ino).

Definition memfs_list (m : memfs) (max : Z) : list cstr :=
  for_up (Z.to_nat MEMFS_MAX_FILES) 0
    (fun i names => if (zlen names <? max) && i_used (aget m i)
                    then names ++ [mstrcpy (i_name (aget m i)) MEMFS_MAX_NAME] else names) [].

Definition memfs_truncate (m : memfs) (ino : Z) : Z * memfs :=
  if bad_inode m ino then (-1, m) else (0, aset ino (aget m ino <| i_size := 0 |>) m).

Definition memfs_stat (m : memfs) (name : cstr) : option Z :=
  let ino := memfs_open m name in
  if ino <? 0 then None else Some (i_size (aget m ino)).

Section heap.
Context {B : Type} `{Heap B}.
Implicit Types (m : memfs) (b : B).

Definition new_inode (name : cstr) (d : option (Z * list Z)) (n : memfs_inode_t) : memfs_inode_t :=
  n <| i_name := mstrcpy name MEMFS_MAX_NAME |> <| i_data := d |> <| i_size := 0 |>
    <| i_capacity := match d with Some _ => MEMFS_INIT_CAP | None => 0 end |> <| i_used := true |>.

Definition memfs_create (name : cstr) m b : Z * memfs * B :=
  if mstrlen name =? 0 then (-1, m, b) else
  match find_index (fun n => i_used n && mstreq (i_name n) name) m with
  | Some i => (i, m, b)
  | None =>
      match find_index (fun n => negb (i_used n)) m with
      | None => (-1, m, b)
      | Some i => let '(d, b) := kmalloc MEMFS_INIT_CAP b in
                  (i, aset i (new_inode name d (aget m i)) m, b)
      end
  end.

(** The growth branch of [memfs_write]: [None] when its loop does not end, [Some (None, _)] when
    [kmalloc] fails. *)
Definition memfs_grow (n : memfs_inode_t) (needed : Z) b : option (option memfs_inode_t * B) :=
  if needed <=? i_capacity n then Some (Some n, b) else
  let new_cap := if i_capacity n =? 0 then MEMFS_INIT_CAP else u64 (i_capacity n * 2) in
  match grow_cap GROW_FUEL new_cap needed with
  | None => None
  | Some new_cap =>
      match kmalloc new_cap b with
      | (None, b) => Some (None, b)
      | (Some (a, fresh), b) =>
          let data := copy_in fresh 0 (bytes_of (i_data n)) (Z.to_nat (i_size n)) in
          let b := kfree (addr_of (i_data n)) b in
          Some (Some (n <| i_data := Some (a, data) |> <| i_capacity := new_cap |>), b)
      end
  end.

(** The stores of [memfs_write] and the new size. *)
Definition memfs_store (n : memfs_inode_t) (pos : Z) (src : list Z) (count : Z) : memfs_inode_t :=
  let n := n <| i_data := match i_data n with
                          | Some (a, d) => Some (a, copy_in d pos src (Z.to_nat count))
                          | None => None
                          end |> in
  if i_size n <? u64 (pos + count) then n <| i_size := u64 (pos + count) |> else n.

(** [None]: the call does not return. *)
Definition memfs_write (ino pos : Z) (buf : option (list Z)) (count : Z) m b : option (Z * memfs * B) :=
  if bad_inode m ino then Some (0, m, b) else
  match memfs_grow (aget m ino) (u64 (pos + count)) b with
  | None => None
  | Some (None, b) => Some (0, m, b)
  | Some (Some n, b) =>
      match buf with
      | None => if 0 <? count then Some (0, aset ino n m, b)
                else Some (count, aset ino (memfs_store n pos [] count) m, b)
      | Some src => Some (count, aset ino (memfs_store n pos src count) m, b)
      end
  end.

End heap.

(** ** The doubling loop *)

(** Doubling reaches any need of at most 2^63 without wrapping; the result is the least
    [cap * 2^k] that is large enough. *)
Lemma grow_cap_reaches k cap need :
  0 < cap -> cap < 2 ^ 64 -> need <= 2 ^ 63 -> need <= cap * 2 ^ Z.of_nat k ->
  forall fuel, (k < fuel)%nat ->
  exists c, grow_cap fuel cap need = Some c /\ need <= c < 2 ^ 64 /\ cap <= c /\ (c = cap \/ c < 2 * need).
Proof.
  revert cap. induction k as [|k IH]; intros cap Hc Hc64 Hn Hk fuel Hf.
  - change (2 ^ Z.of_nat 0) with 1 in Hk. destruct fuel as [|fuel]; [lia|]. cbn [grow_cap].
    rewrite (proj2 (Z.ltb_ge _ _)) by lia. exists cap. repeat split; lia.
  - destruct fuel as [|fuel]; [lia|]. cbn [grow_cap]. destruct (Z.ltb_spec cap need) as [Hlt|Hge].
    + rewrite u64_id by (unfold is_u64; lia).
      assert (need <= cap * 2 * 2 ^ Z.of_nat k) as Hk2.
      { rewrite Nat2Z.inj_succ, Z.pow_succ_r in Hk by lia. lia. }
      destruct (IH (cap * 2) ltac:(lia) ltac:(lia) Hn Hk2 fuel ltac:(lia)) as (c & Hg & H1 & H2 & H3).
      exists c. repeat split; [done|lia|lia|lia|]. right. destruct H3; lia.
    + exists cap. repeat split; lia.
Qed.

Lemma grow_cap_total cap need :
  0 < cap < 2 ^ 64 -> need <= 2 ^ 63 ->
  exists c, grow_cap GROW_FUEL cap need = Some c /\ need <= c < 2 ^ 64 /\ cap <= c
            /\ (c = cap \/ c < 2 * need).
Proof.
  intros Hc Hn. apply (grow_cap_reaches 63); [lia|lia|done| |unfold GROW_FUEL; lia].
  change (2 ^ Z.of_nat 63) with (2 ^ 63). nia.
Qed.

Lemma grow_cap_zero fuel need : 0 < need -> grow_cap fuel 0 need = None.
Proof.
  intros Hn. induction fuel as [|fuel IH]; [done|]. cbn [grow_cap].
  rewrite (proj2 (Z.ltb_lt _ _)) by lia. apply IH.
Qed.

(** A power of two never exceeds a need above 2^63: it wraps to zero and stays there. *)
Lemma grow_cap_diverges k need fuel :
  0 <= k < 64 -> 2 ^ 63 < need -> grow_cap fuel (2 ^ k) need = None.
Proof.
  intros Hk Hn. revert k Hk. induction fuel as [|fuel IH]; intros k Hk; [done|]. cbn [grow_cap].
  assert (2 ^ k <= 2 ^ 63) by (apply Z.pow_le_mono_r; lia).
  rewrite (proj2 (Z.ltb_lt _ _)) by lia.
  replace (2 ^ k * 2) with (2 ^ (k + 1)) by (rewrite Z.pow_add_r by lia; lia).
  destruct (decide (k = 63)) as [->|].
  - apply grow_cap_zero. lia.
  - rewrite u64_id; [apply IH; lia|]. unfold is_u64.
    pose proof (Z.pow_pos_nonneg 2 (k + 1)). pose proof (Z.pow_lt_mono_r 2 (k + 1) 64). lia.
Qed.

(** ** Well-formed tables *)

Definition node_ok (n : memfs_inode_t) : Prop :=
  0 <= i_size n <= i_capacity n /\ i_capacity n = zlen (bytes_of (i_data n)) /\ i_capacity n <= 2 ^ 62
  /\ i_name n <> [] /\ zlen (i_name n) < MEMFS_MAX_NAME.

Definition memfs_ok (m : memfs) : Prop :=
  length m = 16%nat /\ forall i, 0 <= i < MEMFS_MAX_FILES -> i_used (aget m i) = true -> node_ok (aget m i).

(** The contents of a file. *)
Definition node_content (n : memfs_inode_t) : list Z := take (Z.to_nat (i_size n)) (bytes_of (i_data n)).
Definition content (m : memfs) (ino : Z) : list Z := node_content (aget m ino).

Lemma bad_inode_false m ino :
  bad_inode m ino = false <-> 0 <= ino < MEMFS_MAX_FILES /\ i_used (aget m ino) = true.
Proof.
  unfold bad_inode. rewrite !orb_false_iff, Z.ltb_ge, Z.leb_gt, negb_false_iff. tauto.
Qed.

Lemma memfs_ok_get m ino : memfs_ok m -> bad_inode m ino = false -> node_ok (aget m ino).
Proof. intros [_ Hok] [Hi Hu]%bad_inode_false. auto. Qed.

Lemma aget_set m i j n :
  memfs_ok m -> 0 <= i < MEMFS_MAX_FILES -> 0 <= j ->
  aget (aset i n m) j = if decide (i = j) then n else aget m j.
Proof.
  intros [Hl _] Hi Hj. unfold MEMFS_MAX_FILES in *. case_decide as D.
  - subst j. apply aget_aset_eq. lia.
  - apply aget_aset_ne; lia.
Qed.

Lemma memfs_ok_set m i n :
  memfs_ok m -> 0 <= i < MEMFS_MAX_FILES -> (i_used n = true -> node_ok n) -> memfs_ok (aset i n m).
Proof.
  intros Hok Hi Hn. split; [rewrite length_aset; apply Hok|]. intros j Hj.
  rewrite aget_set by (done || lia). case_decide; [done|]. by apply Hok.
Qed.

Lemma zlen_content n : node_ok n -> zlen (node_content n) = i_size n.
Proof. intros (Hs & Hc & _). unfold node_content, zlen in *. rewrite length_take. lia. Qed.

Lemma memfs_read_content m ino pos count :
  memfs_ok m -> 0 <= pos ->
  memfs_read m ino pos count
  = if bad_inode m ino then [] else take (Z.to_nat count) (drop (Z.to_nat pos) (content m ino)).
Proof.
  intros Hok Hp. unfold memfs_read. destruct (bad_inode m ino) eqn:Hb; [done|].
  pose proof (memfs_ok_get _ _ Hok Hb) as Hn. pose proof (zlen_content _ Hn) as Hz.
  destruct Hn as (Hs & Hc & _). unfold content. set (n := aget m ino) in *. unfold zlen in *.
  destruct (Z.leb_spec (i_size n) pos) as [Hle|Hgt].
  - rewrite drop_ge by lia. by rewrite take_nil.
  - set (c := if _ <? _ then _ else _).
    assert (Z.to_nat c = (Z.to_nat count `min` (Z.to_nat (i_size n) - Z.to_nat pos))%nat) as Hcc.
    { unfold c. destruct (Z.ltb_spec (i_size n - pos) count); lia. }
    rewrite copy_out_slice by lia. rewrite Hcc. unfold node_content. rewrite skipn_firstn_comm, take_take. done.
Qed.

(** ** Growing and storing *)

Section heap_laws.
Context {B : Type} `{HeapLaws B}.
Implicit Types (m : memfs) (b : B).

(** [n'] is [n] with a larger block. *)
Definition regrown (n n' : memfs_inode_t) : Prop :=
  node_ok n' /\ i_size n' = i_size n /\ i_name n' = i_name n /\ i_used n' = i_used n
  /\ node_content n' = node_content n.

Lemma memfs_grow_spec n needed b :
  node_ok n -> 0 <= needed <= 2 ^ 63 ->
  (exists b', memfs_grow n needed b = Some (None, b') /\ i_capacity n < needed)
  \/ (exists n' b', memfs_grow n needed b = Some (Some n', b') /\ regrown n n' /\ needed <= i_capacity n').
Proof.
  intros Hn Hneed. unfold memfs_grow. destruct (Z.leb_spec needed (i_capacity n)) as [Hle|Hgt].
  { right. exists n, b. split; [done|]. split; [by split|done]. }
  pose proof Hn as (Hs & Hc & Hm & Hname).
  set (cap0 := if _ =? 0 then _ else _).
  assert (0 < cap0 < 2 ^ 64) as Hcap0.
  { unfold cap0, MEMFS_INIT_CAP. destruct (Z.eqb_spec (i_capacity n) 0); [lia|].
    rewrite u64_id by (unfold is_u64; lia). lia. }
  assert (i_capacity n <= cap0) as Hcc.
  { unfold cap0, MEMFS_INIT_CAP. destruct (Z.eqb_spec (i_capacity n) 0); [lia|].
    rewrite u64_id by (unfold is_u64; lia). lia. }
  destruct (grow_cap_total cap0 needed) as (c & -> & Hc1 & Hc2 & _); [lia|lia|].
  destruct (kmalloc c b) as [[[a fresh]|] b'] eqn:Hk; [right|left; eauto].
  destruct (kmalloc_block _ _ _ _ _ Hk) as (Hf & Ha & Hc62); [lia|].
  eexists _, _. split; [reflexivity|].
  assert (Z.to_nat (i_size n) = length (node_content n)) as Hsz.
  { pose proof (zlen_content _ Hn) as E. unfold zlen in E. lia. }
  unfold zlen in *. rewrite copy_in_prefix by lia. fold (node_content n).
  set (data := node_content n ++ drop (Z.to_nat (i_size n)) fresh).
  assert (length data = Z.to_nat c) as Hd by (unfold data; rewrite length_app, length_drop; lia).
  split; [|cbn; lia]. split; [|split; [done|split; [done|split; [done|]]]].
  - unfold node_ok, zlen. cbn. rewrite Hd. repeat split; try lia; apply Hname.
  - unfold node_content at 1. cbn. unfold data. rewrite take_app_le by lia. by rewrite Hsz, firstn_all.
Qed.

(** Storing [src] at [pos] of a file whose block has room. *)
Definition gap_of (n : memfs_inode_t) (pos : Z) : list Z :=
  take (Z.to_nat (pos - i_size n)) (drop (Z.to_nat (i_size n)) (bytes_of (i_data n))).

Lemma memfs_store_spec n pos src :
  node_ok n -> 0 <= pos -> pos + zlen src <= i_capacity n ->
  let n' := memfs_store n pos src (zlen src) in
  node_ok n' /\ i_name n' = i_name n /\ i_used n' = i_used n
  /\ i_size n' = Z.max (i_size n) (pos + zlen src) /\ zlen (gap_of n pos) = Z.max 0 (pos - i_size n)
  /\ node_content n' = take (Z.to_nat pos) (node_content n) ++ gap_of n pos ++ src
                       ++ drop (Z.to_nat (pos + zlen src)) (node_content n).
Proof.
  intros (Hs & Hc & Hm & Hname) Hp Hroom. cbv zeta.
  set (d := bytes_of (i_data n)) in *.
  set (d' := take (Z.to_nat pos) d ++ src ++ drop (Z.to_nat pos + length src) d).
  assert (length d' = length d) as Hd'.
  { unfold d', zlen in *. rewrite !length_app, length_take, length_drop. lia. }
  assert (bytes_of (i_data (memfs_store n pos src (zlen src))) = d') as Hb.
  { transitivity (bytes_of (match i_data n with
                            | Some (a, l) => Some (a, copy_in l pos src (length src)) | None => None end)).
    { unfold memfs_store, zlen. rewrite Nat2Z.id. by destruct (_ <? _). }
    unfold d', d, zlen in *. destruct (i_data n) as [[a l]|]; cbn [bytes_of] in *.
    - apply copy_in_splice; lia.
    - assert (src = []) as -> by (destruct src; [done|simpl in *; lia]). by rewrite drop_nil, take_nil. }
  assert (i_size (memfs_store n pos src (zlen src)) = Z.max (i_size n) (pos + zlen src)) as Hsize.
  { unfold memfs_store. unfold zlen in *. rewrite u64_id by (unfold is_u64; lia). cbn.
    destruct (Z.ltb_spec (i_size n) (pos + Z.of_nat (length src))); cbn; lia. }
  assert (i_capacity (memfs_store n pos src (zlen src)) = i_capacity n /\ i_name (memfs_store n pos src (zlen src)) = i_name n /\ i_used (memfs_store n pos src (zlen src)) = i_used n) as (Hcap & Hnm & Hu).
  { unfold memfs_store. destruct (_ <? _); done. }
  set (n' := memfs_store n pos src (zlen src)) in *. clearbody n'.
  pose proof (zlen_nonneg src).
  split; [|split; [done|split; [done|split; [done|split]]]].
  - unfold node_ok. rewrite Hsize, Hcap, Hb, Hnm. unfold zlen in *. rewrite Hd'. repeat split; try lia; apply Hname.
  - unfold gap_of, zlen in *. fold d. rewrite length_take, length_drop. lia.
  - unfold node_content, gap_of. rewrite Hsize, Hb. fold d. unfold d', zlen in *. clear Hb Hsize.
    replace (Z.to_nat (Z.max _ _)) with (Z.to_nat (i_size n) `max` (Z.to_nat pos + length src))%nat by lia.
    rewrite splice_take by lia. do 2 f_equal; [f_equal; lia|]. do 2 f_equal. lia.
Qed.
Lemma memfs_write_spec m b ino pos src :
  memfs_ok m -> bad_inode m ino = false -> 0 <= pos -> pos + zlen src <= 2 ^ 63 ->
  exists r m' b', memfs_write ino pos (Some src) (zlen src) m b = Some (r, m', b') /\ memfs_ok m'
    /\ (forall j, 0 <= j -> j <> ino -> aget m' j = aget m j)
    /\ ((r = 0 /\ m' = m /\ i_capacity (aget m ino) < pos + zlen src)
        \/ (r = zlen src /\ i_used (aget m' ino) = true /\ i_name (aget m' ino) = i_name (aget m ino)
            /\ i_size (aget m' ino) = Z.max (i_size (aget m ino)) (pos + zlen src)
            /\ exists gap, zlen gap = Z.max 0 (pos - i_size (aget m ino))
                 /\ content m' ino = take (Z.to_nat pos) (content m ino) ++ gap ++ src
                                      ++ drop (Z.to_nat (pos + zlen src)) (content m ino))).
Proof.
  intros Hok Hb Hp Hlen. unfold memfs_write. rewrite Hb. pose proof (memfs_ok_get _ _ Hok Hb) as Hn.
  apply bad_inode_false in Hb as [Hi Hu].
  pose proof (zlen_nonneg src). rewrite (u64_id (pos + _)) by (unfold is_u64; lia).
  destruct (memfs_grow_spec (aget m ino) (pos + zlen src) b Hn) as [(b' & -> & Hc)|(n & b' & -> & Hr & Hc)]; [lia| |].
  { exists 0, m, b'. split; [done|]. split; [done|]. split; [done|]. by left. }
  destruct Hr as (Hn1 & Hs1 & Hnm1 & Hu1 & Hc1).
  pose proof (memfs_store_spec n pos src Hn1 Hp Hc) as (Hn2 & Hnm2 & Hu2 & Hs2 & Hg2 & Hc2).
  eexists (zlen src), _, b'. split; [reflexivity|]. split; [by apply memfs_ok_set|].
  split; [intros j Hj Hne; rewrite aget_set by done; by rewrite decide_False|].
  right. unfold content. rewrite !aget_set by (done || lia). rewrite !decide_True by done.
  rewrite <- Hs1, <- Hc1. split; [done|]. split; [congruence|]. split; [congruence|]. split; [done|]. eauto.
Qed.

Lemma content_read_back (pre gap src post : list Z) pos :
  Z.to_nat pos = length (pre ++ gap) -> take (length src) (drop (Z.to_nat pos) (pre ++ gap ++ src ++ post)) = src.
Proof. intros ->. by rewrite app_assoc, drop_app_length, take_app_length. Qed.

(** Reading back what was written.  In a well-formed table, a write of [src] at [pos] to an
    existing file returns (the doubling loop ends), keeps the table well formed and leaves every
    other file alone.  Either the block could not grow and nothing changed, or all of [src] is
    stored: a read at [pos] returns it, the size is the larger of the old size and the end of the
    write, and every other byte of the old contents keeps its place. *)
Theorem memfs_write_read m b ino pos src :
  memfs_ok m -> bad_inode m ino = false -> 0 <= pos -> pos + zlen src <= 2 ^ 63 ->
  exists r m' b', memfs_write ino pos (Some src) (zlen src) m b = Some (r, m', b') /\ memfs_ok m'
    /\ (forall j p c, 0 <= j -> j <> ino -> memfs_read m' j p c = memfs_read m j p c)
    /\ ((r = 0 /\ m' = m /\ i_capacity (aget m ino) < pos + zlen src)
        \/ (r = zlen src /\ memfs_read m' ino pos r = src
            /\ memfs_size m' ino = Z.max (memfs_size m ino) (pos + r)
            /\ forall q, 0 <= q < memfs_size m ino -> ~ (pos <= q < pos + r) ->
                 memfs_read m' ino q 1 = memfs_read m ino q 1)).
Proof.
  intros Hok Hb Hp Hlen. destruct (memfs_write_spec m b ino pos src Hok Hb Hp Hlen)
    as (r & m' & b' & Hw & Hok' & Hne & Hcase).
  exists r, m', b'. split; [done|]. split; [done|].
  split. { intros j p c Hj Hjne. unfold memfs_read, bad_inode. by rewrite Hne. }
  destruct Hcase as [?|(-> & Hu & Hnm & Hs & gap & Hg & Hc)]; [by left|right].
  pose proof Hb as [Hi Hu0]%bad_inode_false.
  assert (bad_inode m' ino = false) as Hb' by (by apply bad_inode_false).
  pose proof (zlen_content _ (memfs_ok_get _ _ Hok Hb)) as Hz. fold (content m ino) in Hz.
  pose proof (memfs_ok_get _ _ Hok Hb) as (Hs0 & _).
  unfold memfs_size. rewrite Hb, Hb'. split; [done|]. split.
  - rewrite memfs_read_content, Hb', Hc by done. unfold zlen in *. rewrite Nat2Z.id.
    apply content_read_back. rewrite length_app, length_take. lia.
  - split; [done|]. intros q Hq Hout. rewrite !memfs_read_content, Hb, Hb', Hc by (done || lia).
    change (Z.to_nat 1) with 1%nat. unfold zlen in *. destruct (decide (q < pos)) as [Hlt|Hge].
    + set (C := content m ino) in *.
      assert (forall rest, take 1 (drop (Z.to_nat q) (take (Z.to_nat pos) C ++ rest))
                           = take 1 (drop (Z.to_nat q) (take (Z.to_nat pos) C))) as Hcut.
      { intros rest. rewrite drop_app_le by (rewrite length_take; lia).
        apply take_app_le. rewrite length_drop, length_take. lia. }
      rewrite Hcut, <- (Hcut (drop (Z.to_nat pos) C)), take_drop. done.
    + assert (gap = []) as -> by (apply length_zero_iff_nil; lia). cbn [app].
      rewrite drop_app_ge by (rewrite length_take; lia). rewrite length_take.
      rewrite drop_app_ge, drop_drop by lia. do 2 f_equal. lia.
Qed.

(** Creating a file under a name that fits makes [memfs_open] find it, empty. *)
Lemma find_index_aset {A} `{!Inhabited A} (p : A -> bool) (l : list A) i x :
  0 <= i < Z.of_nat (length l) -> find_index p l = None -> p x = true ->
  find_index p (aset i x l) = Some i.
Proof.
  intros Hi Hnone Hx. rewrite find_index_None in Hnone.
  destruct (find_index p (aset i x l)) as [k|] eqn:Hf.
  - apply find_index_Some in Hf as (Hk & Hpk & _). rewrite length_aset in Hk.
    destruct (decide (k = i)) as [->|Hne]; [done|]. rewrite aget_aset_ne in Hpk by lia.
    by rewrite Hnone in Hpk.
  - rewrite find_index_None in Hf. specialize (Hf i). rewrite length_aset, aget_aset_eq in Hf by lia.
    rewrite Hx in Hf. by specialize (Hf Hi).
Qed.

Lemma memfs_create_spec m b name :
  memfs_ok m -> name <> [] -> zlen name < MEMFS_MAX_NAME ->
  let '(ino, m', b') := memfs_create name m b in
  memfs_ok m' /\ (forall j, 0 <= j < 16 -> i_used (aget m j) = true -> aget m' j = aget m j)
  /\ memfs_open m' name = ino
  /\ (ino = -1 -> m' = m /\ forall j, 0 <= j < 16 -> i_used (aget m j) = true)
  /\ (ino <> -1 -> 0 <= ino < 16 /\ i_used (aget m' ino) = true /\ i_name (aget m' ino) = name
      /\ content m' ino = if memfs_open m name <? 0 then [] else content m ino).
Proof.
  intros Hok Hne Hl. unfold memfs_create, mstrlen. pose proof (zlen_nonneg name).
  destruct (Z.eqb_spec (zlen name) 0) as [E|_]; [destruct name; [done|rewrite zlen_cons in E; pose proof (zlen_nonneg name); lia]|].
  unfold memfs_open at 2. pose proof Hok as [Hlen _].
  destruct (find_index (fun n => i_used n && mstreq (i_name n) name) m) as [i|] eqn:Hf.
  - pose proof (find_index_Some _ _ _ Hf) as (Hi & [Hu Hnm]%andb_true_iff & _). apply mstreq_spec in Hnm.
    unfold memfs_open. rewrite Hf. rewrite (proj2 (Z.ltb_ge _ _)) by lia.
    split; [done|]. split; [done|]. split; [done|]. split; [lia|]. intros _. split; [lia|done].
  - destruct (find_index (fun n => negb (i_used n)) m) as [i|] eqn:Hf2.
    + apply find_index_Some in Hf2 as (Hi & Hu%negb_true_iff & _). rewrite Hlen in Hi.
      destruct (kmalloc MEMFS_INIT_CAP b) as [d b'] eqn:Hk.
      assert (mstrcpy name MEMFS_MAX_NAME = name) as Hcpy.
      { unfold mstrcpy. rewrite copy_upto_eq. cbn [fst]. unfold zlen, MEMFS_MAX_NAME in *. by rewrite take_ge by lia. }
      assert (node_ok (new_inode name d (aget m i))) as Hn.
      { unfold node_ok, new_inode. cbn. rewrite Hcpy. destruct d as [[a l]|]; cbn.
        - destruct (kmalloc_block _ _ _ _ _ Hk) as (Hz & _); [done|]. unfold MEMFS_INIT_CAP in *. repeat split; done || lia.
        - repeat split; done || lia. }
      split; [apply memfs_ok_set; done|].
      split. { intros j Hj Huj. rewrite aget_set by (done || lia). case_decide; [congruence|done]. }
      split. { unfold memfs_open. rewrite find_index_aset; [done|lia|done|]. cbn. rewrite Hcpy. by apply mstreq_spec. }
      split; [lia|]. intros _. split; [lia|]. unfold content. rewrite aget_set by (done || lia).
      rewrite decide_True by done. cbn. done.
    + rewrite find_index_None, Hlen in Hf2. split; [done|]. split; [done|]. split; [unfold memfs_open; by rewrite Hf|].
      split; [|done]. intros _. split; [done|]. intros j Hj. apply negb_false_iff, Hf2. done.
Qed.
End heap_laws.

(** ** Concrete runs *)

(** A heap that hands out increasing addresses; its blocks are zero-filled. *)
Definition bump := positive.
#[export] Instance bump_heap : Heap bump := {
  kmalloc n b := if (0 <=? n) && (n <=? 65536)
                 then (Some (Zpos b, repeat 0 (Z.to_nat n)), (b + 65536)%positive) else (None, b);
  kfree _ b := b;
}.
#[export] Instance bump_heap_laws : HeapLaws bump.
Proof.
  split. intros n b a d b'. cbn. destruct ((0 <=? n) && (n <=? 65536)) eqn:E; [|done].
  apply andb_true_iff in E as [E1%Z.leb_le E2%Z.leb_le]. intros [= <- <- <-] _.
  unfold zlen. rewrite repeat_length. lia.
Qed.

Definition ex_memfs0 : memfs := memfs_init (repeat inode_zero 16).
Definition ex_file : cstr := [102; 111; 111].   (* "foo" *)
Definition ex_memfs1 : memfs := (memfs_create (B:=bump) ex_file ex_memfs0 1%positive).1.2.

Lemma memfs_ok_init : memfs_ok ex_memfs0.
Proof.
  split; [vm_compute; reflexivity|]. intros i Hi.
  assert (forall k, (k < 16)%nat -> i_used (ex_memfs0 !!! k) = false) as Hu.
  { intros k Hk. do 16 (destruct k as [|k]; [vm_compute; reflexivity|]). lia. }
  unfold aget. rewrite Hu; [done|]. unfold MEMFS_MAX_FILES in Hi. lia.
Qed.
Lemma memfs_ok_ex1 : memfs_ok ex_memfs1.
Proof.
  pose proof (memfs_create_spec (B:=bump) ex_memfs0 1%positive ex_file memfs_ok_init ltac:(done)
                ltac:(vm_compute; reflexivity)) as Hc.
  unfold ex_memfs1. destruct (memfs_create _ _ _) as [[i m] b]. apply Hc.
Qed.

Lemma memfs_write_read_witness :
  bad_inode ex_memfs1 0 = false /\
  exists r m' b', memfs_write (B:=bump) 0 0 (Some [1; 2; 3]) 3 ex_memfs1 1%positive = Some (r, m', b') /\ memfs_ok m'
    /\ (forall j p c, 0 <= j -> j <> 0 -> memfs_read m' j p c = memfs_read ex_memfs1 j p c)
    /\ ((r = 0 /\ m' = ex_memfs1 /\ i_capacity (aget ex_memfs1 0) < 0 + zlen [1; 2; 3])
        \/ (r = zlen [1; 2; 3] /\ memfs_read m' 0 0 r = [1; 2; 3]
            /\ memfs_size m' 0 = Z.max (memfs_size ex_memfs1 0) (0 + r)
            /\ forall q, 0 <= q < memfs_size ex_memfs1 0 -> ~ (0 <= q < 0 + r) ->
                 memfs_read m' 0 q 1 = memfs_read ex_memfs1 0 q 1)).
Proof.
  split; [vm_compute; reflexivity|].
  apply (memfs_write_read (B:=bump) ex_memfs1 1%positive 0 0 [1; 2; 3] memfs_ok_ex1);
    [vm_compute; reflexivity|lia|vm_compute; discriminate].
Defined.

(** A file written, truncated through another descriptor and written past its end shows the old
    bytes again: the gap is not cleared. *)
Definition ex_stale : option (list Z) :=
  match memfs_write (B:=bump) 0 0 (Some [7; 8; 9]) 3 ex_memfs1 1%positive with
  | Some (_, m, b) =>
      match memfs_write 0 3 (Some [1]) 1 (memfs_truncate m 0).2 b with
      | Some (_, m, _) => Some (memfs_read m 0 0 10)
      | None => None
      end
  | None => None
  end.
Lemma memfs_truncate_stale : ex_stale = Some [7; 8; 9; 1].
Proof. vm_compute. reflexivity. Qed.

(** A name of 64 or more characters is stored cut to 63: opening it again fails, and creating it
    again makes a second file under the same stored name. *)
Definition ex_long : cstr := repeat 97 70.
Lemma memfs_long_name :
  let '(i, m, b) := memfs_create (B:=bump) ex_long ex_memfs0 1%positive in
  let '(j, m, b) := memfs_create (B:=bump) ex_long m b in
  i = 0 /\ j = 1 /\ memfs_open m ex_long = -1 /\ i_name (aget m 0) = i_name (aget m 1).
Proof. vm_compute. repeat split; reflexivity. Qed.
