(* ===== verification/VfsData.v ===== *)
(** The data of [src/fs/vfs.c]: open files, pipes, devices, and the interface of the file systems
    behind the mounts.

    A [vfs_file_t *] is an index into [g_open_files]; a descriptor table holds the handle 16 + index,
    0 for NULL, and 1 for the reservation mark of [vfs_pipe].  The union of a file is the inductive
    [file_u]: the member the code stored last.  A freshly zeroed record is an empty [URegular];
    reading [u.regular] of a device, a memfs file or a pipe gives what the bytes there hold. *)

From S2P Require Import Prelude CString Path Mounts Memfs ProcessData.

Definition VFS_MAX_OPEN_GLOBAL : Z := 128.
Definition VFS_MAX_PIPES : Z := 16.
Definition VFS_PIPE_CAPACITY : Z := 4096.
Definition VFS_SEEK_SET : Z := 0.
Definition VFS_SEEK_CUR : Z := 1.
Definition VFS_SEEK_END : Z := 2.
Definition VFS_O_RDONLY : Z := 0x0001.
Definition VFS_O_WRONLY : Z := 0x0002.
Definition VFS_O_APPEND : Z := 0x0004.
Definition VFS_O_CREAT : Z := 0x0008.
Definition VFS_O_TRUNC : Z := 0x0010.
Definition VFS_O_NONBLOCK : Z := 0x0020.
Definition VFS_F_GETFL : Z := 1.
Definition VFS_F_SETFL : Z := 2.
Definition VFS_POLLIN : Z := 0x0001.
Definition VFS_POLLOUT : Z := 0x0004.
Definition VFS_POLLERR : Z := 0x0008.
Definition VFS_POLLHUP : Z := 0x0010.
Definition VFS_PROT_READ : Z := 0x1.
Definition VFS_PROT_WRITE : Z := 0x2.
Definition VFS_MAP_SHARED : Z := 0x01.
Definition VFS_FB_TYPE_PACKED_PIXELS : Z := 0.
Definition VFS_FB_VISUAL_TRUECOLOR : Z := 2.
Definition VFS_FBIOGET_VSCREENINFO : Z := 0x4600.
Definition VFS_FBIOGET_FSCREENINFO : Z := 0x4602.
Definition VFS_KDSETMODE : Z := 0x4B3A.
Definition VFS_KD_TEXT : Z := 0x00.
Definition VFS_KD_GRAPHICS : Z := 0x01.
Definition VFS_TYPE_UNKNOWN : Z := 0.
Definition VFS_TYPE_FILE : Z := 1.
Definition VFS_TYPE_DIR : Z := 2.
Definition VFS_TYPE_PIPE : Z := 3.
Definition VFS_TYPE_CHAR : Z := 4.
Definition VFS_MODE_READ : Z := 0x01.
Definition VFS_MODE_WRITE : Z := 0x02.

Inductive vfs_device_kind : Type := VFS_DEV_NONE | VFS_DEV_FB0 | VFS_DEV_TTY | VFS_DEV_KEYBOARD | VFS_DEV_MOUSE.
#[export] Instance vfs_device_kind_eq_dec : EqDecision vfs_device_kind.
Proof. solve_decision. Defined.

Record vfs_stat_t := mkStat { st_size : Z; st_type : Z; st_mode : Z; st_blocks : Z }.
#[export] Instance stat_rebuild : Rebuild vfs_stat_t := fun s =>
  mkStat (st_size s) (st_type s) (st_mode s) (st_blocks s).

Record vfs_pipe_t := mkPipe {
  p_used : bool;
  p_data : list Z;
  p_read_pos : Z;
  p_write_pos : Z;
  p_size : Z;
  p_readers : Z;
  p_writers : Z;
}.
#[export] Instance pipe_rebuild : Rebuild vfs_pipe_t := fun p =>
  mkPipe (p_used p) (p_data p) (p_read_pos p) (p_write_pos p) (p_size p) (p_readers p) (p_writers p).
Definition pipe_zero : vfs_pipe_t := mkPipe false (repeat 0 (Z.to_nat 4096)) 0 0 0 0 0.
#[export] Instance pipe_inhabited : Inhabited vfs_pipe_t := populate pipe_zero.

Inductive file_u : Type :=
  | URegular (buf : option (Z * list Z)) (size capacity : Z) (owns_buf : bool)
  | UMemfs (inode : Z)
  | UPipe (pipe : option Z) (can_read can_write : bool)
  | UDevice (kind : vfs_device_kind) (index : Z).

Definition reg_buf (u : file_u) : option (Z * list Z) := match u with URegular b _ _ _ => b | _ => None end.
(** Bytes 8 to 15 of the union: zero except for a pipe's two flags. *)
Definition reg_size (u : file_u) : Z :=
  match u with URegular _ s _ _ => s | UPipe _ r w => b2z r + b2z w * 0x100000000 | _ => 0 end.
Definition reg_capacity (u : file_u) : Z := match u with URegular _ _ c _ => c | _ => 0 end.
Definition reg_owns (u : file_u) : bool := match u with URegular _ _ _ o => o | _ => false end.
Definition u_inode (u : file_u) : Z := match u with UMemfs i => i | _ => 0 end.
Definition u_pipe (u : file_u) : option Z := match u with UPipe p _ _ => p | _ => None end.
Definition u_can_read (u : file_u) : bool := match u with UPipe _ r _ => r | _ => false end.
Definition u_can_write (u : file_u) : bool := match u with UPipe _ _ w => w | _ => false end.
Definition u_kind (u : file_u) : vfs_device_kind := match u with UDevice k _ => k | _ => VFS_DEV_NONE end.

Record vfs_file_t := mkFile {
  f_used : bool;
  f_refcount : Z;
  f_flags : Z;
  f_mode : Z;
  f_dirty : bool;
  f_backend : vfs_backend;
  f_pos : Z;
  f_path : cstr;
  f_u : file_u;
}.
#[export] Instance file_rebuild : Rebuild vfs_file_t := fun f =>
  mkFile (f_used f) (f_refcount f) (f_flags f) (f_mode f) (f_dirty f) (f_backend f) (f_pos f) (f_path f) (f_u f).
Definition file_zero : vfs_file_t := mkFile false 0 0 0 false VFS_BACKEND_NONE 0 [] (URegular None 0 0 false).
#[export] Instance file_inhabited : Inhabited vfs_file_t := populate file_zero.

Record fb_info_t := mkFbInfo { fb_addr : Z; fb_pitch : Z; fb_width : Z; fb_height : Z; fb_bpp : Z }.

(** The argument of [vfs_init]: what the boot loader passed. *)
Inductive boot_arg : Type :=
  | BootNull
  | BootTsukasa (modules : list (Z * Z))                 (* address, size *)
  | BootMultiboot (flags : Z) (mods : list (Z * Z)).     (* mod_start, mod_end *)

(** ** The file systems and drivers behind the VFS *)

Class VfsEnv (B : Type) := {
  vfs_heap :: Heap B;
  fat12_stat : cstr -> B -> option (bool * Z);                  (* is_dir, size *)
  fat12_read_file : cstr -> Z -> B -> Z * list Z;               (* return value, bytes stored *)
  fat12_write_file : cstr -> list Z -> B -> Z * B;
  fat12_list_dir : cstr -> B -> option (list cstr);
  fat32_stat : cstr -> B -> option (bool * Z);
  fat32_read_file : cstr -> Z -> B -> Z * list Z;
  fat32_write_file : cstr -> list Z -> B -> Z * B;
  fat32_list_dir : cstr -> B -> option (list cstr);
  initrd_lookup : cstr -> B -> option (option (Z * list Z) * Z);
  procfs_stat : cstr -> vfs_stat_t -> B -> option vfs_stat_t;
  procfs_list : cstr -> Z -> B -> option (list cstr);
  procfs_read_file : cstr -> B -> option (option (Z * list Z) * Z) * B;
  sysfs_stat : cstr -> vfs_stat_t -> B -> option vfs_stat_t;
  sysfs_list : cstr -> Z -> B -> option (list cstr);
  sysfs_read_file : cstr -> B -> option (option (Z * list Z) * Z) * B;
  bootfs_stat : cstr -> vfs_stat_t -> B -> option vfs_stat_t;
  bootfs_list : cstr -> Z -> B -> option (list cstr);
  bootfs_read_file : cstr -> B -> option (option (Z * list Z) * Z * bool) * B;
  bootfs_module_count : B -> Z;
  fb_info : B -> fb_info_t;
  fb_mem : B -> list Z;                                         (* the bytes at fb_info.addr *)
  set_fb_mem : list Z -> B -> B;
  procfs_init : B -> B;
  sysfs_init : B -> B;
  bootfs_init : boot_arg -> B -> B;
  fat12_init : Z -> Z -> B -> Z * B;
  ata_init : B -> bool * B;
  fat32_init : B -> Z * B;
  initrd_init_from_multiboot : boot_arg -> B -> B;
}.

(** The contract of that interface: buffers are as long as the sizes returned with them, reads
    return at most what was asked for, and the frame buffer memory keeps its length. *)
Definition file_data_ok (buf : option (Z * list Z)) (size : Z) : Prop :=
  0 <= size <= zlen (bytes_of buf) /\ size <= 2 ^ 62.

Class VfsEnvLaws (B : Type) `{VfsEnv B} := {
  vfs_heap_laws :: HeapLaws B;
  fat12_stat_size path b d s : fat12_stat path b = Some (d, s) -> 0 <= s < 2 ^ 32;
  fat32_stat_size path b d s : fat32_stat path b = Some (d, s) -> 0 <= s < 2 ^ 32;
  fat12_read_len path n b r l : 0 <= n -> fat12_read_file path n b = (r, l) -> r <= n /\ zlen l <= n;
  fat32_read_len path n b r l : 0 <= n -> fat32_read_file path n b = (r, l) -> r <= n /\ zlen l <= n;
  initrd_data path b buf n : initrd_lookup path b = Some (buf, n) -> file_data_ok buf n;
  procfs_data path b buf n b' : procfs_read_file path b = (Some (buf, n), b') -> file_data_ok buf n;
  sysfs_data path b buf n b' : sysfs_read_file path b = (Some (buf, n), b') -> file_data_ok buf n;
  bootfs_data path b buf n o b' : bootfs_read_file path b = (Some (buf, n, o), b') -> file_data_ok buf n;
}.

(** ** State *)

Record vfs (B : Type) := mkVfs {
  g_mounts : list vfs_mount;
  g_open_files : list vfs_file_t;
  g_pipes : list vfs_pipe_t;
  g_kernel_open_files : list Z;
  g_kernel_cwd : cstr;
  g_fat12_ok : bool;
  g_fat32_ok : bool;
  g_initrd_ok : bool;
  g_kd_mode : Z;
  v_memfs : memfs;
  v_env : B;
}.
Arguments mkVfs {B}.
Arguments g_mounts {B}.
Arguments g_open_files {B}.
Arguments g_pipes {B}.
Arguments g_kernel_open_files {B}.
Arguments g_kernel_cwd {B}.
Arguments g_fat12_ok {B}.
Arguments g_fat32_ok {B}.
Arguments g_initrd_ok {B}.
Arguments g_kd_mode {B}.
Arguments v_memfs {B}.
Arguments v_env {B}.
#[export] Instance vfs_rebuild {B} : Rebuild (vfs B) := fun v =>
  mkVfs (g_mounts v) (g_open_files v) (g_pipes v) (g_kernel_open_files v) (g_kernel_cwd v) (g_fat12_ok v)
    (g_fat32_ok v) (g_initrd_ok v) (g_kd_mode v) (v_memfs v) (v_env v).

(** The static initial values. *)
Definition vfs_zero {B} (b : B) : vfs B :=
  mkVfs (repeat mount_zero 13) (repeat file_zero 128) (repeat pipe_zero 16) (repeat 0 32) [ch_slash]
    false false false VFS_KD_TEXT (repeat inode_zero 16) b.

(** A call runs for a process ([process_current()]) or for the kernel. *)
Record vst (B : Type) := mkVst { cur : option process; vs : vfs B }.
Arguments mkVst {B}.
Arguments cur {B}.
Arguments vs {B}.
#[export] Instance vst_rebuild {B} : Rebuild (vst B) := fun s => mkVst (cur s) (vs s).

Section state.
Context {B : Type}.
Implicit Types (v : vfs B) (s : vst B).

Definition file v (i : Z) : vfs_file_t := aget (g_open_files v) i.
Definition set_file (i : Z) (f : vfs_file_t) v : vfs B := v <| g_open_files := aset i f (g_open_files v) |>.
Definition pipe v (i : Z) : vfs_pipe_t := aget (g_pipes v) i.
Definition set_pipe (i : Z) (p : vfs_pipe_t) v : vfs B := v <| g_pipes := aset i p (g_pipes v) |>.

Definition handle (i : Z) : Z := 16 + i.
Definition index_of (h : Z) : Z := h - 16.

Definition fd_table_for_process s : list Z :=
  match cur s with Some p => open_files p | None => g_kernel_open_files (vs s) end.
Definition set_fd_table (t : list Z) s : vst B :=
  match cur s with
  | Some p => s <| cur := Some (p <| open_files := t |>) |>
  | None => s <| vs := vs s <| g_kernel_open_files := t |> |>
  end.
Definition cwd_for_process s : cstr :=
  match cur s with Some p => cwd p | None => g_kernel_cwd (vs s) end.
Definition set_cwd (c : cstr) s : vst B :=
  match cur s with
  | Some p => s <| cur := Some (p <| cwd := c |>) |>
  | None => s <| vs := vs s <| g_kernel_cwd := c |> |>
  end.
End state.
