(* ===== verification/Vfs.v ===== *)
(** The operations of [src/fs/vfs.c].

    A call that can fail to return (the capacity loops) yields an [option]; every other call is a
    function of the state [vst].  A successful [vfs_read] returns the bytes it stores in the
    caller's buffer; a buffer argument that may be NULL is an [option] or a flag. *)

From S2P Require Import Prelude CString Path Mounts Memfs ProcessData VfsData.

Section vfs.
Context {B : Type} `{VfsEnv B}.
Implicit Types (v : vfs B) (s : vst B) (t : list Z).

Definition fd_valid (fd : Z) : bool := (0 <=? fd) && (fd <? PROCESS_MAX_OPEN_FILES).

Definition has_flag (x f : Z) : bool := negb (Z.land x f =? 0).

Definition flags_to_mode (flags : Z) : Z :=
  let has_rd := has_flag flags VFS_O_RDONLY in
  let has_wr := has_flag flags VFS_O_WRONLY in
  let has_rd := if negb has_rd && negb has_wr then true else has_rd in
  let mode := if has_rd then Z.lor 0 VFS_MODE_READ else 0 in
  if has_wr then Z.lor mode VFS_MODE_WRITE else mode.

(** ** Pools *)

Definition file_pool_reset v : vfs B :=
  let v := for_up (Z.to_nat VFS_MAX_OPEN_GLOBAL) 0
    (fun i v => set_file i (file v i <| f_used := false |> <| f_refcount := 0 |>) v) v in
  let v := for_up (Z.to_nat VFS_MAX_PIPES) 0
    (fun i v => set_pipe i (pipe v i <| p_used := false |> <| p_read_pos := 0 |> <| p_write_pos := 0 |>
                              <| p_size := 0 |> <| p_readers := 0 |> <| p_writers := 0 |>) v) v in
  let v := v <| g_kernel_open_files :=
    for_up (Z.to_nat PROCESS_MAX_OPEN_FILES) 0 (fun i t => aset i 0 t) (g_kernel_open_files v) |> in
  v <| g_kernel_cwd := (kstrncpy (g_kernel_cwd v) (Some [ch_slash]) VFS_PATH_MAX).1 |>.

Definition file_alloc v : option Z * vfs B :=
  match find_index (fun f => negb (f_used f)) (g_open_files v) with
  | None => (None, v)
  | Some i => (Some i, set_file i (file_zero <| f_used := true |> <| f_refcount := 1 |>) v)
  end.

Definition pipe_alloc v : option Z * vfs B :=
  match find_index (fun p => negb (p_used p)) (g_pipes v) with
  | None => (None, v)
  | Some i => (Some i, set_pipe i (pipe v i <| p_used := true |> <| p_read_pos := 0 |> <| p_write_pos := 0 |>
                                     <| p_size := 0 |> <| p_readers := 0 |> <| p_writers := 0 |>) v)
  end.

(** [None]: the doubling loop does not end; otherwise the return value and the file. *)
Definition ensure_regular_capacity (f : vfs_file_t) (need : Z) (b : B) : option (Z * vfs_file_t * B) :=
  if bool_decide (f_backend f = VFS_BACKEND_MEMFS \/ f_backend f = VFS_BACKEND_PIPE) then Some (-1, f, b) else
  if need <=? reg_capacity (f_u f) then Some (0, f, b) else
  let new_cap := if reg_capacity (f_u f) =? 0 then 64 else reg_capacity (f_u f) in
  match grow_cap GROW_FUEL new_cap need with
  | None => None
  | Some new_cap =>
      match kmalloc new_cap b with
      | (None, b) => Some (-1, f, b)
      | (Some (a, fresh), b) =>
          let data := copy_in fresh 0 (bytes_of (reg_buf (f_u f))) (Z.to_nat (reg_size (f_u f))) in
          let b := match reg_buf (f_u f) with
                   | Some (old, _) => if reg_owns (f_u f) then kfree old b else b
                   | None => b
                   end in
          Some (0, f <| f_u := URegular (Some (a, data)) (reg_size (f_u f)) new_cap true |>, b)
      end
  end.

Definition flush_regular_file (f : vfs_file_t) (b : B) : Z * vfs_file_t * B :=
  if negb (f_dirty f) then (0, f, b) else
  if negb (has_flag (f_mode f) VFS_MODE_WRITE) then (0, f, b) else
  let data := take (Z.to_nat (reg_size (f_u f))) (bytes_of (reg_buf (f_u f))) in
  match f_backend f with
  | VFS_BACKEND_FAT12 =>
      let '(rc, b) := fat12_write_file (f_path f) data b in
      if negb (rc =? 0) then (-1, f, b) else (0, f <| f_dirty := false |>, b)
  | VFS_BACKEND_FAT32 =>
      let '(rc, b) := fat32_write_file (f_path f) data b in
      if rc <? 0 then (-1, f, b) else (0, f <| f_dirty := false |>, b)
  | _ => (0, f <| f_dirty := false |>, b)
  end.

(** Dropping an end of a pipe; the pipe is free when both ends are gone. *)
Definition pipe_drop (u : file_u) (p : vfs_pipe_t) : vfs_pipe_t :=
  let p := if u_can_read u && (0 <? p_readers p) then p <| p_readers := p_readers p - 1 |> else p in
  let p := if u_can_write u && (0 <? p_writers p) then p <| p_writers := p_writers p - 1 |> else p in
  if (p_readers p =? 0) && (p_writers p =? 0) then p <| p_used := false |> else p.

(** The last reference of a file goes away. *)
Definition file_destroy (i : Z) v : vfs B :=
  let '(_, f, b) := flush_regular_file (file v i) (v_env v) in
  let v := set_file i f v <| v_env := b |> in
  let v := match f_backend f, u_pipe (f_u f) with
           | VFS_BACKEND_PIPE, Some p => set_pipe p (pipe_drop (f_u f) (pipe v p)) v
           | _, _ => v
           end in
  let v := match reg_buf (f_u f) with
           | Some (a, _) => if reg_owns (f_u f) then v <| v_env := kfree a (v_env v) |> else v
           | None => v
           end in
  set_file i (f <| f_used := false |> <| f_refcount := 0 |>) v.

Definition file_release (i : Z) v : vfs B :=
  let f := file v i in
  if negb (f_used f) then v else
  if 1 <? f_refcount f then set_file i (f <| f_refcount := f_refcount f - 1 |>) v else
  file_destroy i v.

(** ** Descriptor tables *)

Definition process_fd_alloc s : Z :=
  match find_index (fun h => h =? 0) (fd_table_for_process s) with Some i => i | None => -1 end.

Definition fd_lookup_on_table t (fd : Z) : option Z :=
  if negb (fd_valid fd) then None else
  if aget t fd =? 0 then None else Some (index_of (aget t fd)).

Definition fd_lookup s (fd : Z) : option Z := fd_lookup_on_table (fd_table_for_process s) fd.

Definition fd_close_on_table t (fd : Z) v : list Z * vfs B :=
  match fd_lookup_on_table t fd with
  | None => (t, v)
  | Some i => (aset fd 0 t, file_release i v)
  end.

(** The same on the table of the calling process. *)
Definition close_fd (fd : Z) s : vst B :=
  let '(t, v) := fd_close_on_table (fd_table_for_process s) fd (vs s) in
  set_fd_table t (s <| vs := v |>).

Definition file_ref (i : Z) v : vfs B := set_file i (file v i <| f_refcount := f_refcount (file v i) + 1 |>) v.

(** ** Devices *)

Definition fb_byte_size (b : B) : Z :=
  let fb := fb_info b in
  if (fb_addr fb =? 0) || (fb_pitch fb =? 0) || (fb_height fb =? 0) then 0
  else u64 (fb_pitch fb * fb_height fb).

Definition name_fb0 : cstr := [102; 98; 48].
Definition name_tty : cstr := [116; 116; 121].
Definition name_keyboard : cstr := [107; 101; 121; 98; 111; 97; 114; 100].
Definition name_mouse : cstr := [109; 111; 117; 115; 101].
Definition g_dev_names : list cstr :=
  [name_fb0; name_tty] ++ map (fun d => name_tty ++ [48 + Z.of_nat d]) (seq 0 10) ++ [name_keyboard; name_mouse].

(** Kind and [*index_out]. *)
Definition dev_lookup (subpath : cstr) : vfs_device_kind * Z :=
  let name := skip_slashes subpath in
  if kstreq name name_fb0 then (VFS_DEV_FB0, 0) else
  if kstreq name name_tty then (VFS_DEV_TTY, -1) else
  match name with
  | [c0; c1; c2; d] =>
      if (c0 =? 116) && (c1 =? 116) && (c2 =? 121) && (48 <=? d) && (d <=? 57) then (VFS_DEV_TTY, d - 48)
      else if kstreq name name_keyboard then (VFS_DEV_KEYBOARD, 0)
      else if kstreq name name_mouse then (VFS_DEV_MOUSE, 0) else (VFS_DEV_NONE, 0)
  | _ => if kstreq name name_keyboard then (VFS_DEV_KEYBOARD, 0)
         else if kstreq name name_mouse then (VFS_DEV_MOUSE, 0) else (VFS_DEV_NONE, 0)
  end.

Definition blocks_of (size : Z) : Z := u64 (size + 511) / 512.

Definition dev_stat (subpath : cstr) (b : B) : option vfs_stat_t :=
  if kstreq subpath [ch_slash] then Some (mkStat 0 VFS_TYPE_DIR VFS_MODE_READ 0) else
  let '(kind, _) := dev_lookup subpath in
  if bool_decide (kind = VFS_DEV_NONE) then None else
  let size := if bool_decide (kind = VFS_DEV_FB0) then fb_byte_size b else 0 in
  Some (mkStat size VFS_TYPE_CHAR (Z.lor VFS_MODE_READ VFS_MODE_WRITE) (blocks_of size)).

Definition dev_list (subpath : cstr) (max : Z) : option (list cstr) :=
  if (max <=? 0) || negb (kstreq subpath [ch_slash]) then None
  else Some (map (fun n => (kstrncpy [] (Some n) VFS_NAME_MAX).1) (take (Z.to_nat max) g_dev_names)).

(** What the frame buffer ioctls store through [arg]. *)
Inductive ioctl_out : Type :=
  | IoNone
  | IoVar (xres yres xres_virtual yres_virtual bits_per_pixel : Z)
  | IoFix (id : cstr) (smem_start smem_len type visual line_length : Z).

Definition dev_fill_fb_var (arg : Z) (b : B) : Z * ioctl_out :=
  let fb := fb_info b in
  if (arg =? 0) || (fb_addr fb =? 0) then (-1, IoNone)
  else (0, IoVar (fb_width fb) (fb_height fb) (fb_width fb) (fb_height fb) (fb_bpp fb)).

(** "tsukasa-fb" *)
Definition fb_id : cstr := [116; 115; 117; 107; 97; 115; 97; 45; 102; 98].

Definition dev_fill_fb_fix (arg : Z) (b : B) : Z * ioctl_out :=
  let fb := fb_info b in
  if (arg =? 0) || (fb_addr fb =? 0) then (-1, IoNone)
  else (0, IoFix (take 15 fb_id) (fb_addr fb) (u32 (fb_byte_size b)) VFS_FB_TYPE_PACKED_PIXELS
             VFS_FB_VISUAL_TRUECOLOR (fb_pitch fb)).

(** ** Status of a path *)

Definition fat_result (r : option (bool * Z)) (out : vfs_stat_t) : option vfs_stat_t :=
  match r with
  | None => None
  | Some (is_dir, size) =>
      Some (out <| st_type := if is_dir then VFS_TYPE_DIR else VFS_TYPE_FILE |> <| st_size := size |>
                <| st_blocks := u32 (size + 511) / 512 |>)
  end.

Definition backend_stat (m : vfs_mount) (subpath : cstr) v : option vfs_stat_t :=
  let b := v_env v in
  let out := mkStat 0 VFS_TYPE_UNKNOWN
               (Z.lor VFS_MODE_READ (if m_read_only m then 0 else VFS_MODE_WRITE)) 0 in
  if kstreq subpath [ch_slash] then Some (out <| st_type := VFS_TYPE_DIR |>) else
  match m_backend m with
  | VFS_BACKEND_MEMFS =>
      match memfs_stat (v_memfs v) (skip_slashes subpath) with
      | None => None
      | Some sz => Some (out <| st_type := VFS_TYPE_FILE |> <| st_size := sz |> <| st_blocks := blocks_of sz |>)
      end
  | VFS_BACKEND_FAT12 => if negb (g_fat12_ok v) then None else fat_result (fat12_stat subpath b) out
  | VFS_BACKEND_FAT32 => if negb (g_fat32_ok v) then None else fat_result (fat32_stat subpath b) out
  | VFS_BACKEND_INITRD =>
      match initrd_lookup subpath b with
      | None => None
      | Some (_, sz) => Some (out <| st_type := VFS_TYPE_FILE |> <| st_size := sz |> <| st_blocks := blocks_of sz |>)
      end
  | VFS_BACKEND_PROCFS => procfs_stat subpath out b
  | VFS_BACKEND_SYSFS => sysfs_stat subpath out b
  | VFS_BACKEND_BOOTFS => bootfs_stat subpath out b
  | VFS_BACKEND_DEVFS => dev_stat subpath b
  | _ => None
  end.

(** The mount of a path and the path below it: the first steps of open, stat, chdir and list. *)
Definition resolve_path (path : option cstr) s : option (cstr * vfs_mount * cstr) :=
  match normalize_path (cwd_for_process s) path VFS_PATH_MAX with
  | None => None
  | Some abs =>
      match mount_lookup (g_mounts (vs s)) abs with
      | None => None
      | Some i =>
          let m := aget (g_mounts (vs s)) i in
          match mount_subpath m abs VFS_PATH_MAX with
          | None => None
          | Some sub => Some (abs, m, sub)
          end
      end
  end.

(** ** Open and close *)

Definition open_memfs_file (i : Z) (subpath : cstr) (flags : Z) v : Z * vfs B :=
  let name := skip_slashes subpath in
  match name with
  | [] => (-1, v)
  | _ =>
      let ino := memfs_open (v_memfs v) name in
      let '(ino, v) :=
        if (ino <? 0) && has_flag flags VFS_O_CREAT
        then let '(ino, m, b) := memfs_create name (v_memfs v) (v_env v) in
             (ino, v <| v_memfs := m |> <| v_env := b |>)
        else (ino, v) in
      if ino <? 0 then (-1, v) else
      let v := if has_flag flags VFS_O_TRUNC then v <| v_memfs := (memfs_truncate (v_memfs v) ino).2 |> else v in
      (0, set_file i (file v i <| f_backend := VFS_BACKEND_MEMFS |> <| f_u := UMemfs ino |>
                        <| f_pos := if has_flag flags VFS_O_APPEND then memfs_size (v_memfs v) ino else 0 |>) v)
  end.

(** Reading a whole FAT file into a fresh buffer: the buffer, the size that is kept, and whether
    the allocation succeeded. *)
Definition load_file (read : B -> Z * list Z) (file_size : Z) (b : B) : option (option (Z * list Z) * Z) * B :=
  if file_size <=? 0 then (Some (None, file_size), b) else
  match kmalloc file_size b with
  | (None, b) => (None, b)
  | (Some (a, fresh), b) =>
      let '(read_bytes, data) := read b in
      let read_bytes := if read_bytes <? 0 then 0 else read_bytes in
      (Some (Some (a, copy_in fresh 0 data (length data)), read_bytes), b)
  end.

(** Buffer, size and heap after the part of [open_regular_buffered] that depends on the backend. *)
Definition load_regular (backend : vfs_backend) (subpath : cstr) (flags : Z) (b : B)
    : option (option (Z * list Z) * Z) * B :=
  let trunc := has_flag flags VFS_O_TRUNC in
  match backend with
  | VFS_BACKEND_FAT12 =>
      match fat12_stat subpath b with
      | None =>
          if has_flag flags VFS_O_CREAT then
            let '(rc, b) := fat12_write_file subpath [] b in
            if negb (rc =? 0) then (None, b) else (Some (None, 0), b)
          else (None, b)
      | Some (true, _) => (None, b)
      | Some (false, size) =>
          let file_size := if trunc then 0 else size in
          load_file (fat12_read_file subpath file_size) file_size b
      end
  | VFS_BACKEND_FAT32 =>
      match fat32_stat subpath b with
      | None => (None, b)
      | Some (true, _) => (None, b)
      | Some (false, size) =>
          let file_size := if trunc then 0 else size in
          load_file (fat32_read_file subpath file_size) file_size b
      end
  | _ => (None, b)
  end.

Definition open_regular_buffered (i : Z) (backend : vfs_backend) (subpath : cstr) (flags : Z) v : Z * vfs B :=
  match load_regular backend subpath flags (v_env v) with
  | (None, b) => (-1, v <| v_env := b |>)
  | (Some (buf, size), b) =>
      let v := v <| v_env := b |> in
      let f := file v i <| f_backend := backend |> <| f_u := URegular buf size size true |>
                 <| f_pos := if has_flag flags VFS_O_APPEND then size else 0 |> in
      (0, set_file i (if has_flag flags VFS_O_TRUNC then f <| f_dirty := true |> else f) v)
  end.

(** The read-only backends: the file gets the buffer the backend returned. *)
Definition open_buffer (i : Z) (backend : vfs_backend) (r : option (option (Z * list Z) * Z * bool)) v : Z * vfs B :=
  match r with
  | None => (-1, v)
  | Some (buf, size, owns) =>
      (0, set_file i (file v i <| f_backend := backend |> <| f_mode := VFS_MODE_READ |>
                        <| f_u := URegular buf size size owns |>) v)
  end.

Definition with_owner (owns : bool) (r : option (option (Z * list Z) * Z)) : option (option (Z * list Z) * Z * bool) :=
  match r with Some (buf, size) => Some (buf, size, owns) | None => None end.

Definition open_device (i : Z) (sub : cstr) (flags : Z) v : Z * vfs B :=
  let '(kind, idx) := dev_lookup sub in
  if bool_decide (kind = VFS_DEV_NONE) then (-1, v) else
  (0, set_file i (file v i <| f_backend := VFS_BACKEND_DEVFS |> <| f_mode := flags_to_mode flags |>
                    <| f_u := UDevice kind idx |> <| f_pos := 0 |>) v).

(** The switch of [vfs_open_flags]. *)
Definition open_backend (i : Z) (m : vfs_mount) (sub : cstr) (flags : Z) v : Z * vfs B :=
  match m_backend m with
  | VFS_BACKEND_MEMFS => open_memfs_file i sub flags v
  | VFS_BACKEND_FAT12 => open_regular_buffered i VFS_BACKEND_FAT12 sub flags v
  | VFS_BACKEND_FAT32 => open_regular_buffered i VFS_BACKEND_FAT32 sub flags v
  | VFS_BACKEND_INITRD => open_buffer i VFS_BACKEND_INITRD (with_owner false (initrd_lookup sub (v_env v))) v
  | VFS_BACKEND_PROCFS =>
      let '(r, b) := procfs_read_file sub (v_env v) in
      open_buffer i VFS_BACKEND_PROCFS (with_owner true r) (v <| v_env := b |>)
  | VFS_BACKEND_SYSFS =>
      let '(r, b) := sysfs_read_file sub (v_env v) in
      open_buffer i VFS_BACKEND_SYSFS (with_owner true r) (v <| v_env := b |>)
  | VFS_BACKEND_BOOTFS =>
      let '(r, b) := bootfs_read_file sub (v_env v) in
      open_buffer i VFS_BACKEND_BOOTFS r (v <| v_env := b |>)
  | VFS_BACKEND_DEVFS => open_device i sub flags v
  | _ => (-1, v)
  end.

Definition vfs_open_flags (path : option cstr) (flags : Z) s : Z * vst B :=
  match resolve_path path s with
  | None => (-1, s)
  | Some (_, m, sub) =>
      if m_read_only m && (has_flag flags VFS_O_WRONLY || has_flag flags VFS_O_CREAT || has_flag flags VFS_O_TRUNC)
      then (-1, s) else
      match file_alloc (vs s) with
      | (None, v) => (-1, s <| vs := v |>)
      | (Some i, v) =>
          let v := set_file i (file v i <| f_flags := flags |> <| f_mode := flags_to_mode flags |>
                                 <| f_path := (kstrncpy (f_path (file v i)) (Some sub) VFS_PATH_MAX).1 |>) v in
          let '(rc, v) := open_backend i m sub flags v in
          if negb (rc =? 0) then (-1, s <| vs := file_release i v |>) else
          let fd := process_fd_alloc s in
          if fd <? 0 then (-1, s <| vs := file_release i v |>) else
          let s := s <| vs := v |> in
          (fd, set_fd_table (aset fd (handle i) (fd_table_for_process s)) s)
      end
  end.

Definition vfs_open (path : option cstr) s : Z * vst B := vfs_open_flags path VFS_O_RDONLY s.
Definition vfs_create (path : option cstr) s : Z * vst B :=
  vfs_open_flags path (Z.lor (Z.lor VFS_O_WRONLY VFS_O_CREAT) VFS_O_TRUNC) s.
Definition vfs_close (fd : Z) s : vst B := close_fd fd s.

(** ** Read, write, seek *)

(** [while (got < count && p->size > 0)]: the bytes taken and the pipe. *)
Fixpoint pipe_read_loop (n : nat) (p : vfs_pipe_t) : list Z * vfs_pipe_t :=
  match n with
  | O => ([], p)
  | S n' =>
      if 0 <? p_size p then
        let c := aget (p_data p) (p_read_pos p) in
        let p := p <| p_read_pos := u64 (p_read_pos p + 1) mod VFS_PIPE_CAPACITY |> <| p_size := p_size p - 1 |> in
        let '(l, p) := pipe_read_loop n' p in (c :: l, p)
      else ([], p)
  end.

(** [while (wr < count && p->size < VFS_PIPE_CAPACITY)]: the number stored and the pipe. *)
Fixpoint pipe_write_loop (src : list Z) (p : vfs_pipe_t) : Z * vfs_pipe_t :=
  match src with
  | [] => (0, p)
  | c :: src' =>
      if p_size p <? VFS_PIPE_CAPACITY then
        let p := p <| p_data := aset (p_write_pos p) c (p_data p) |>
                   <| p_write_pos := u64 (p_write_pos p + 1) mod VFS_PIPE_CAPACITY |>
                   <| p_size := p_size p + 1 |> in
        let '(n, p) := pipe_write_loop src' p in (1 + n, p)
      else (0, p)
  end.

(** A read of at most [count] bytes at [pos] of [size] bytes: what [vfs_read] does for buffers and
    for the frame buffer. *)
Definition clamp_count (size pos count : Z) : Z := if size - pos <? count then size - pos else count.

(** The bytes stored at [buf]; [buf] tells whether the pointer is not NULL. *)
Definition vfs_read (fd : Z) (buf : bool) (count : Z) s : list Z * vst B :=
  match fd_lookup s fd with
  | None => ([], s)
  | Some i =>
      let v := vs s in
      let f := file v i in
      if negb buf || negb (has_flag (f_mode f) VFS_MODE_READ) then ([], s) else
      match f_backend f with
      | VFS_BACKEND_MEMFS =>
          let got := memfs_read (v_memfs v) (u_inode (f_u f)) (f_pos f) count in
          (got, s <| vs := set_file i (f <| f_pos := u64 (f_pos f + zlen got) |>) v |>)
      | VFS_BACKEND_PIPE =>
          match u_pipe (f_u f) with
          | None => ([], s)
          | Some p => if negb (u_can_read (f_u f)) then ([], s) else
                      (* the loop stops at [size] bytes at the latest *)
                      let '(got, q) := pipe_read_loop (Z.to_nat (Z.min count (p_size (pipe v p)))) (pipe v p) in
                      (got, s <| vs := set_pipe p q v |>)
          end
      | VFS_BACKEND_DEVFS =>
          let size := fb_byte_size (v_env v) in
          if bool_decide (u_kind (f_u f) <> VFS_DEV_FB0) || (fb_addr (fb_info (v_env v)) =? 0) || (size <=? f_pos f)
          then ([], s) else
          let count := clamp_count size (f_pos f) count in
          (copy_out (fb_mem (v_env v)) (f_pos f) (Z.to_nat count),
           s <| vs := set_file i (f <| f_pos := u64 (f_pos f + count) |>) v |>)
      | _ =>
          match reg_buf (f_u f) with
          | None => ([], s)
          | Some (_, data) =>
              if reg_size (f_u f) <=? f_pos f then ([], s) else
              let count := clamp_count (reg_size (f_u f)) (f_pos f) count in
              (copy_out data (f_pos f) (Z.to_nat count),
               s <| vs := set_file i (f <| f_pos := u64 (f_pos f + count) |>) v |>)
          end
      end
  end.

(** The position of an O_APPEND file before a write. *)
Definition append_pos (f : vfs_file_t) v : vfs_file_t :=
  if negb (has_flag (f_flags f) VFS_O_APPEND) then f else
  match f_backend f with
  | VFS_BACKEND_MEMFS => f <| f_pos := memfs_size (v_memfs v) (u_inode (f_u f)) |>
  | VFS_BACKEND_PIPE => f
  | _ => f <| f_pos := reg_size (f_u f) |>
  end.

(** The stores into the buffer of a regular file, the new position, size and dirty mark. *)
Definition regular_store (f : vfs_file_t) (src : list Z) (count : Z) : vfs_file_t :=
  match f_u f with
  | URegular buf size cap owns =>
      let buf := match buf with
                 | Some (a, d) => Some (a, copy_in d (f_pos f) src (Z.to_nat count))
                 | None => None
                 end in
      let pos := u64 (f_pos f + count) in
      f <| f_u := URegular buf (if size <? pos then pos else size) cap owns |> <| f_pos := pos |>
        <| f_dirty := true |>
  | _ => f
  end.

(** [vfs_write] with [count] bytes at [src]; [None]: the call does not return. *)
Definition vfs_write (fd : Z) (src : option (list Z)) (count : Z) s : option (Z * vst B) :=
  match fd_lookup s fd, src with
  | Some i, Some src =>
      let v := vs s in
      if negb (has_flag (f_mode (file v i)) VFS_MODE_WRITE) then Some (0, s) else
      let f := append_pos (file v i) v in
      let v := set_file i f v in
      let s := s <| vs := v |> in
      match f_backend f with
      | VFS_BACKEND_MEMFS =>
          match memfs_write (u_inode (f_u f)) (f_pos f) (Some src) count (v_memfs v) (v_env v) with
          | None => None
          | Some (wr, m, b) =>
              let v := v <| v_memfs := m |> <| v_env := b |> in
              Some (wr, s <| vs := set_file i (f <| f_pos := u64 (f_pos f + wr) |>) v |>)
          end
      | VFS_BACKEND_PIPE =>
          match u_pipe (f_u f) with
          | None => Some (0, s)
          | Some p => if negb (u_can_write (f_u f)) || (p_readers (pipe v p) =? 0) then Some (0, s) else
                      let '(wr, q) := pipe_write_loop (take (Z.to_nat count) src) (pipe v p) in
                      Some (wr, s <| vs := set_pipe p q v |>)
          end
      | VFS_BACKEND_DEVFS =>
          let size := fb_byte_size (v_env v) in
          if bool_decide (u_kind (f_u f) <> VFS_DEV_FB0) || (fb_addr (fb_info (v_env v)) =? 0) || (size <=? f_pos f)
          then Some (0, s) else
          let count := clamp_count size (f_pos f) count in
          let v := v <| v_env := set_fb_mem (copy_in (fb_mem (v_env v)) (f_pos f) src (Z.to_nat count)) (v_env v) |> in
          Some (count, s <| vs := set_file i (f <| f_pos := u64 (f_pos f + count) |>) v |>)
      | VFS_BACKEND_INITRD | VFS_BACKEND_PROCFS | VFS_BACKEND_SYSFS | VFS_BACKEND_BOOTFS => Some (0, s)
      | _ =>
          match ensure_regular_capacity f (u64 (f_pos f + count)) (v_env v) with
          | None => None
          | Some (rc, f, b) =>
              let v := v <| v_env := b |> in
              if negb (rc =? 0) then Some (0, s <| vs := v |>) else
              Some (count, s <| vs := set_file i (regular_store f src count) v |>)
          end
      end
  | _, _ => Some (0, s)
  end.

Definition SIZE_MAX : Z := U64_MAX.

Definition size_for_seek (f : vfs_file_t) v : Z :=
  match f_backend f with
  | VFS_BACKEND_MEMFS => memfs_size (v_memfs v) (u_inode (f_u f))
  | VFS_BACKEND_DEVFS => if bool_decide (u_kind (f_u f) = VFS_DEV_FB0) then fb_byte_size (v_env v) else 0
  | _ => reg_size (f_u f)
  end.

Definition vfs_seek (fd offset whence : Z) s : Z * vst B :=
  match fd_lookup s fd with
  | None => (SIZE_MAX, s)
  | Some i =>
      let f := file (vs s) i in
      if bool_decide (f_backend f = VFS_BACKEND_PIPE) then (SIZE_MAX, s) else
      let size := size_for_seek f (vs s) in
      match (if whence =? VFS_SEEK_SET then Some offset
             else if whence =? VFS_SEEK_CUR then Some (u64 (f_pos f + offset))
             else if whence =? VFS_SEEK_END then Some (u64 (size + offset)) else None) with
      | None => (SIZE_MAX, s)
      | Some pos => let pos := if size <? pos then size else pos in
                    (pos, s <| vs := set_file i (f <| f_pos := pos |>) (vs s) |>)
      end
  end.

Definition vfs_tell (fd : Z) s : Z :=
  match fd_lookup s fd with None => SIZE_MAX | Some i => f_pos (file (vs s) i) end.

Definition vfs_size (fd : Z) s : Z :=
  match fd_lookup s fd with
  | None => 0
  | Some i =>
      let f := file (vs s) i in
      match f_backend f with
      | VFS_BACKEND_PIPE => match u_pipe (f_u f) with None => 0 | Some p => p_size (pipe (vs s) p) end
      | _ => size_for_seek f (vs s)
      end
  end.

(** ** dup, dup2, pipe, fcntl *)

Definition vfs_dup (oldfd : Z) s : Z * vst B :=
  let newfd := process_fd_alloc s in
  match fd_lookup s oldfd with
  | None => (-1, s)
  | Some i => if newfd <? 0 then (-1, s) else
              let s := s <| vs := file_ref i (vs s) |> in
              (newfd, set_fd_table (aset newfd (handle i) (fd_table_for_process s)) s)
  end.

Definition vfs_dup2 (oldfd newfd : Z) s : Z * vst B :=
  match fd_lookup s oldfd with
  | None => (-1, s)
  | Some i =>
      if negb (fd_valid newfd) then (-1, s) else
      if oldfd =? newfd then (newfd, s) else
      let s := close_fd newfd s in
      let s := s <| vs := file_ref i (vs s) |> in
      (newfd, set_fd_table (aset newfd (handle i) (fd_table_for_process s)) s)
  end.

Definition opt_release (o : option Z) v : vfs B := match o with Some i => file_release i v | None => v end.

(** The two ends, when all three allocations succeed. *)
Definition pipe_ends (p fr fw : Z) v : vfs B :=
  let v := set_file fr (file v fr <| f_backend := VFS_BACKEND_PIPE |> <| f_mode := VFS_MODE_READ |>
                          <| f_flags := VFS_O_RDONLY |> <| f_u := UPipe (Some p) true false |>) v in
  let v := set_file fw (file v fw <| f_backend := VFS_BACKEND_PIPE |> <| f_mode := VFS_MODE_WRITE |>
                          <| f_flags := VFS_O_WRONLY |> <| f_u := UPipe (Some p) false true |>) v in
  set_pipe p (pipe v p <| p_readers := 1 |> <| p_writers := 1 |>) v.

(** Return value with the two descriptors. *)
Definition vfs_pipe s : option (Z * Z) * vst B :=
  let set fd h s := set_fd_table (aset fd h (fd_table_for_process s)) s in
  let fd_r := process_fd_alloc s in
  if fd_r <? 0 then (None, s) else
  let s := set fd_r 1 s in
  let fd_w := process_fd_alloc s in
  if fd_w <? 0 then (None, set fd_r 0 s) else
  let s := set fd_w 1 s in
  let '(p, v) := pipe_alloc (vs s) in
  let '(fr, v) := file_alloc v in
  let '(fw, v) := file_alloc v in
  match p, fr, fw with
  | Some p, Some fr, Some fw =>
      let s := s <| vs := pipe_ends p fr fw v |> in
      (Some (fd_r, fd_w), set fd_w (handle fw) (set fd_r (handle fr) s))
  | _, _, _ =>
      let v := opt_release fw (opt_release fr v) in
      let v := match p with Some p => set_pipe p (pipe v p <| p_used := false |>) v | None => v end in
      (None, set fd_w 0 (set fd_r 0 (s <| vs := v |>)))
  end.

Definition vfs_fcntl (fd cmd arg : Z) s : Z * vst B :=
  match fd_lookup s fd with
  | None => (-1, s)
  | Some i =>
      let f := file (vs s) i in
      let mask := Z.lor VFS_O_APPEND VFS_O_NONBLOCK in
      if cmd =? VFS_F_GETFL then (f_flags f, s)
      else if cmd =? VFS_F_SETFL then
        (0, s <| vs := set_file i (f <| f_flags := Z.lor (Z.land (f_flags f) (Z.lnot mask)) (Z.land arg mask) |>) (vs s) |>)
      else (-1, s)
  end.

(** [arg] is the pointer argument, [pointee] the [int] it points to. *)
Definition vfs_ioctl (fd request arg pointee : Z) s : Z * ioctl_out * vst B :=
  if request =? VFS_KDSETMODE then
    let mode := if arg <=? 0xFFFF then arg else pointee in
    if negb (mode =? VFS_KD_TEXT) && negb (mode =? VFS_KD_GRAPHICS) then (-1, IoNone, s)
    else (0, IoNone, s <| vs := vs s <| g_kd_mode := mode |> |>)
  else
  match fd_lookup s fd with
  | None => (-1, IoNone, s)
  | Some i =>
      let f := file (vs s) i in
      if bool_decide (f_backend f <> VFS_BACKEND_DEVFS \/ u_kind (f_u f) <> VFS_DEV_FB0) then (-1, IoNone, s) else
      if request =? VFS_FBIOGET_VSCREENINFO then (dev_fill_fb_var arg (v_env (vs s)), s)
      else if request =? VFS_FBIOGET_FSCREENINFO then (dev_fill_fb_fix arg (v_env (vs s)), s)
      else (-1, IoNone, s)
  end.

Definition vfs_mmap (length prot flags fd offset : Z) s : Z :=
  match fd_lookup s fd with
  | None => SIZE_MAX
  | Some i =>
      let f := file (vs s) i in
      let fb := fb_info (v_env (vs s)) in
      let size := fb_byte_size (v_env (vs s)) in
      if length =? 0 then SIZE_MAX else
      if negb (has_flag flags VFS_MAP_SHARED) || negb (has_flag prot (Z.lor VFS_PROT_READ VFS_PROT_WRITE)) then SIZE_MAX else
      if bool_decide (f_backend f <> VFS_BACKEND_DEVFS \/ u_kind (f_u f) <> VFS_DEV_FB0) then SIZE_MAX else
      if (fb_addr fb =? 0) || (size <=? offset) || (size - offset <? length) then SIZE_MAX
      else u64 (fb_addr fb + offset)
  end.

Definition vfs_munmap (addr length : Z) s : Z :=
  let fb := fb_addr (fb_info (v_env (vs s))) in
  let size := fb_byte_size (v_env (vs s)) in
  if (addr =? 0) || (length =? 0) || (fb =? 0) then -1 else
  if (addr <? fb) || (u64 (fb + size) <=? addr) then -1 else
  if u64 (u64 (fb + size) - addr) <? length then -1 else 0.

(** ** Poll *)

Definition vfs_file_poll_mask (fo : option Z) v : Z :=
  match fo with
  | None => VFS_POLLERR
  | Some i =>
      let f := file v i in
      let bit (c : bool) x mask := if c then Z.lor mask x else mask in
      let rd := has_flag (f_mode f) VFS_MODE_READ in
      let wr := has_flag (f_mode f) VFS_MODE_WRITE in
      match f_backend f with
      | VFS_BACKEND_PIPE =>
          match u_pipe (f_u f) with
          | None => VFS_POLLERR
          | Some pi =>
              let p := pipe v pi in
              let mask := if u_can_read (f_u f)
                          then bit (p_writers p =? 0) VFS_POLLHUP (bit (0 <? p_size p) VFS_POLLIN 0) else 0 in
              if u_can_write (f_u f)
              then if p_readers p =? 0 then Z.lor mask VFS_POLLHUP
                   else bit (p_size p <? VFS_PIPE_CAPACITY) VFS_POLLOUT mask
              else mask
          end
      | VFS_BACKEND_DEVFS =>
          if bool_decide (u_kind (f_u f) = VFS_DEV_FB0) && negb (fb_addr (fb_info (v_env v)) =? 0)
          then bit wr VFS_POLLOUT (bit rd VFS_POLLIN 0)
          else bit wr VFS_POLLOUT 0
      | _ => bit wr VFS_POLLOUT (bit rd VFS_POLLIN 0)
      end
  end.

(** [fds] as pairs of descriptor and requested events: the number that are ready and the revents. *)
Definition vfs_poll (fds : list (Z * Z)) s : Z * list Z :=
  let revents '(fd, events) :=
    let mask := vfs_file_poll_mask (fd_lookup s fd) (vs s) in
    let hard := Z.land mask (Z.lor VFS_POLLERR VFS_POLLHUP) in
    if negb (hard =? 0) then Z.lor (Z.land mask events) hard else Z.land mask events in
  let rs := map revents fds in
  (zlen (filter (fun r => r <> 0) rs), rs).

(** ** stat, working directory, directory listing *)

Definition vfs_stat (path : option cstr) s : option vfs_stat_t :=
  match resolve_path path s with
  | None => None
  | Some (_, m, sub) => backend_stat m sub (vs s)
  end.

Definition vfs_fstat (fd : Z) s : option vfs_stat_t :=
  match fd_lookup s fd with
  | None => None
  | Some i =>
      let f := file (vs s) i in
      let size := vfs_size fd s in
      Some (mkStat size
              (match f_backend f with
               | VFS_BACKEND_PIPE => VFS_TYPE_PIPE
               | VFS_BACKEND_DEVFS => VFS_TYPE_CHAR
               | _ => VFS_TYPE_FILE
               end) (f_mode f) (blocks_of size))
  end.

(** Return value and the string left in the caller's buffer [buf] of [size] bytes. *)
Definition vfs_getcwd (buf : cstr) (size : Z) s : Z * cstr :=
  if size =? 0 then (-1, buf) else
  let '(out, rc) := kstrncpy buf (Some (cwd_for_process s)) (i32 size) in (rc, out).

Definition vfs_chdir (path : option cstr) s : Z * vst B :=
  match resolve_path path s with
  | None => (-1, s)
  | Some (abs, m, sub) =>
      match backend_stat m sub (vs s) with
      | None => (-1, s)
      | Some st =>
          if negb (st_type st =? VFS_TYPE_DIR) then (-1, s) else
          let '(c, rc) := kstrncpy (cwd_for_process s) (Some abs) VFS_PATH_MAX in (rc, set_cwd c s)
      end
  end.

Definition fat_names (r : option (list cstr)) (max : Z) : option (list cstr) :=
  match r with
  | None => None
  | Some names => Some (map (fun n => (kstrncpy [] (Some n) VFS_NAME_MAX).1) (take (Z.to_nat max) names))
  end.

(** "initrd" *)
Definition name_initrd : cstr := [105; 110; 105; 116; 114; 100].

Definition backend_list (m : vfs_mount) (sub : cstr) (max : Z) v : option (list cstr) :=
  let b := v_env v in
  match m_backend m with
  | VFS_BACKEND_MEMFS => if kstreq sub [ch_slash] then Some (memfs_list (v_memfs v) max) else None
  | VFS_BACKEND_FAT12 => fat_names (fat12_list_dir sub b) max
  | VFS_BACKEND_FAT32 => fat_names (fat32_list_dir sub b) max
  | VFS_BACKEND_PROCFS => procfs_list sub max b
  | VFS_BACKEND_SYSFS => sysfs_list sub max b
  | VFS_BACKEND_BOOTFS => bootfs_list sub max b
  | VFS_BACKEND_DEVFS => dev_list sub max
  | VFS_BACKEND_INITRD => if kstreq sub [ch_slash] then Some (if g_initrd_ok v then [name_initrd] else []) else None
  | _ => None
  end.

Definition vfs_list (dir : option cstr) (max : Z) s : option (list cstr) :=
  if max <=? 0 then None else
  match resolve_path dir s with
  | None => None
  | Some (abs, m, sub) =>
      match backend_list m sub max (vs s) with
      | None => None
      | Some names => Some (if kstreq abs [ch_slash] then append_root_mount_names (g_mounts (vs s)) names max else names)
      end
  end.

(** ** Processes *)

Definition close_all t v : list Z * vfs B :=
  for_up (Z.to_nat PROCESS_MAX_OPEN_FILES) 0 (fun i '(t, v) => fd_close_on_table t i v) (t, v).

(** [dst] and [src] are different records. *)
Definition vfs_process_inherit (dst : process) (src : option process) v : process * vfs B :=
  let '(t, v) := close_all (open_files dst) v in
  match src with
  | None => (dst <| open_files := t |>, v)
  | Some src =>
      let '(t, v) :=
        for_up (Z.to_nat PROCESS_MAX_OPEN_FILES) 0
          (fun i '(t, v) => match fd_lookup_on_table (open_files src) i with
                            | None => (t, v)
                            | Some f => (aset i (handle f) t, file_ref f v)
                            end) (t, v) in
      (dst <| open_files := t |>, v)
  end.

(** [dst] and [src] may be the same record: [src]'s table is read before [dst]'s changes. *)
Definition vfs_process_dup2 (dst : process) (dst_fd : Z) (src : process) (src_fd : Z) v : Z * process * vfs B :=
  if negb (fd_valid dst_fd) || negb (fd_valid src_fd) then (-1, dst, v) else
  match fd_lookup_on_table (open_files src) src_fd with
  | None => (-1, dst, v)
  | Some f =>
      let '(t, v) := fd_close_on_table (open_files dst) dst_fd v in
      (0, dst <| open_files := aset dst_fd (handle f) t |>, file_ref f v)
  end.

Definition vfs_process_cleanup (p : process) v : process * vfs B :=
  let '(t, v) := close_all (open_files p) v in
  let p := p <| open_files := t |> in
  (match cwd p with
   | [] => p <| cwd := (kstrncpy (cwd p) (Some [ch_slash]) PROCESS_CWD_MAX).1 |>
   | _ => p
   end, v).

(** ** Initialisation *)

(** The ramdisk to hand to FAT12: address and size. *)
Definition boot_disk (boot : boot_arg) : option (Z * Z) :=
  match boot with
  | BootTsukasa ((addr, size) :: _) => Some (addr, size)
  | BootMultiboot flags ((mod_start, mod_end) :: _) =>
      if has_flag flags 8 then Some (mod_start, u32 (mod_end - mod_start)) else None
  | _ => None
  end.

Definition str_root : cstr := [ch_slash].
Definition str_fat12 : cstr := [47; 102; 97; 116; 49; 50].
Definition str_disk : cstr := [47; 100; 105; 115; 107].
Definition str_boot : cstr := [47; 98; 111; 111; 116].

(** "bootfs", "fat12", "fat32", "procfs", "sysfs", "devfs" *)
Definition name_bootfs : cstr := [98; 111; 111; 116; 102; 115].
Definition name_fat12 : cstr := [102; 97; 116; 49; 50].
Definition name_fat32 : cstr := [102; 97; 116; 51; 50].
Definition name_procfs : cstr := [112; 114; 111; 99; 102; 115].
Definition name_sysfs : cstr := [115; 121; 115; 102; 115].
Definition name_devfs : cstr := [100; 101; 118; 102; 115].

Definition register (path : cstr) (b : vfs_backend) (ro : bool) (name : cstr) v : vfs B :=
  v <| g_mounts := (mount_register (g_kernel_cwd v) path b ro (Some name) (g_mounts v)).2 |>.

(** The backends found at boot. *)
Definition vfs_probe (boot : boot_arg) v : vfs B :=
  let v := v <| g_fat12_ok := false |> in
  let v := match boot_disk boot with
           | None => v
           | Some (disk, sz) => let '(rc, b) := fat12_init disk sz (v_env v) in
                                v <| v_env := b |> <| g_fat12_ok := rc =? 0 |>
           end in
  let v := v <| g_fat32_ok := false |> in
  let '(ata, b) := ata_init (v_env v) in
  let v := v <| v_env := b |> in
  let v := if ata then let '(rc, b) := fat32_init (v_env v) in v <| v_env := b |> <| g_fat32_ok := rc =? 0 |>
           else v in
  let v := v <| v_env := initrd_init_from_multiboot boot (v_env v) |> in
  v <| g_initrd_ok := match initrd_lookup str_root (v_env v) with Some _ => true | None => false end |>.

(** The mounts. *)
Definition vfs_mount_all v : vfs B :=
  let has_boot := 0 <? bootfs_module_count (v_env v) in
  let v := if has_boot then register str_root VFS_BACKEND_BOOTFS true name_bootfs v
           else if g_initrd_ok v then register str_root VFS_BACKEND_INITRD true name_initrd v
           else register str_root VFS_BACKEND_MEMFS false name_memfs v in
  let v := if g_fat12_ok v then register str_fat12 VFS_BACKEND_FAT12 false name_fat12 v else v in
  let v := register str_tmp VFS_BACKEND_MEMFS false name_memfs v in
  let v := if g_fat32_ok v then register str_disk VFS_BACKEND_FAT32 false name_fat32 v else v in
  let v := register str_proc VFS_BACKEND_PROCFS true name_procfs v in
  let v := register str_sys VFS_BACKEND_SYSFS true name_sysfs v in
  let v := register str_dev VFS_BACKEND_DEVFS false name_devfs v in
  if has_boot then register str_boot VFS_BACKEND_BOOTFS true name_bootfs v else v.

Definition vfs_init (boot : boot_arg) v : vfs B :=
  let v := v <| g_mounts := mount_table_reset (g_mounts v) |> in
  let v := file_pool_reset v in
  let v := v <| v_memfs := memfs_init (v_memfs v) |> in
  let v := v <| v_env := bootfs_init boot (sysfs_init (procfs_init (v_env v))) |> in
  vfs_mount_all (vfs_probe boot v).

End vfs.
