(* ===== verification/VfsPipe.v ===== *)
(** The pipe buffer of [src/fs/vfs.c] is a FIFO queue of at most 4096 bytes. *)

From S2P Require Import Prelude CString Path Mounts Memfs ProcessData VfsData Vfs.

(** ** The ring *)

(** [n] bytes from position [rp] on, around the end of the array. *)
Fixpoint ring (data : list Z) (rp : Z) (n : nat) : list Z :=
  match n with
  | O => []
  | S n' => aget data rp :: ring data ((rp + 1) mod VFS_PIPE_CAPACITY) n'
  end.

(** The bytes in a pipe, oldest first. *)
Definition pipe_content (p : vfs_pipe_t) : list Z := ring (p_data p) (p_read_pos p) (Z.to_nat (p_size p)).

Definition pipe_ok (p : vfs_pipe_t) : Prop :=
  length (p_data p) = Z.to_nat VFS_PIPE_CAPACITY /\ 0 <= p_read_pos p < VFS_PIPE_CAPACITY
  /\ 0 <= p_size p <= VFS_PIPE_CAPACITY
  /\ p_write_pos p = (p_read_pos p + p_size p) mod VFS_PIPE_CAPACITY.

Lemma length_ring d rp n : length (ring d rp n) = n.
Proof. revert rp. induction n as [|n IH]; intros rp; simpl; [done|]. by rewrite IH. Qed.

Lemma zlen_pipe_content p : pipe_ok p -> zlen (pipe_content p) = p_size p.
Proof. intros (_ & _ & Hs & _). unfold pipe_content, zlen. rewrite length_ring. lia. Qed.

Lemma ring_mod_step rp k : ((rp + 1) mod VFS_PIPE_CAPACITY + k) mod VFS_PIPE_CAPACITY = (rp + (1 + k)) mod VFS_PIPE_CAPACITY.
Proof. rewrite Zplus_mod_idemp_l. f_equal. lia. Qed.

(** A store outside the occupied positions does not change what is read. *)
Lemma ring_aset d rp n w c :
  0 <= rp < VFS_PIPE_CAPACITY -> 0 <= w < VFS_PIPE_CAPACITY ->
  (forall k, 0 <= k < Z.of_nat n -> (rp + k) mod VFS_PIPE_CAPACITY <> w) ->
  ring (aset w c d) rp n = ring d rp n.
Proof.
  revert rp. induction n as [|n IH]; intros rp Hr Hw Hne; [done|]. cbn [ring]. f_equal.
  - apply aget_aset_ne; [lia|lia|]. specialize (Hne 0 ltac:(lia)). rewrite Z.add_0_r, Z.mod_small in Hne by lia. congruence.
  - apply IH; [apply Z.mod_pos_bound; done|done|]. intros k Hk. rewrite ring_mod_step. apply Hne. lia.
Qed.

Lemma ring_snoc d rp n :
  0 <= rp < VFS_PIPE_CAPACITY ->
  ring d rp (S n) = ring d rp n ++ [aget d ((rp + Z.of_nat n) mod VFS_PIPE_CAPACITY)].
Proof.
  revert rp. induction n as [|n IH]; intros rp Hr.
  - cbn [ring app]. by rewrite Z.add_0_r, Z.mod_small by lia.
  - change (ring d rp (S (S n))) with (aget d rp :: ring d ((rp + 1) mod VFS_PIPE_CAPACITY) (S n)).
    rewrite IH by (apply Z.mod_pos_bound; done). cbn [ring app]. do 3 f_equal.
    rewrite ring_mod_step. do 2 f_equal. lia.
Qed.

(** Distinct offsets below the capacity are distinct positions. *)
Lemma ring_pos_inj rp j k :
  0 <= j < VFS_PIPE_CAPACITY -> 0 <= k < VFS_PIPE_CAPACITY -> j <> k ->
  (rp + j) mod VFS_PIPE_CAPACITY <> (rp + k) mod VFS_PIPE_CAPACITY.
Proof.
  unfold VFS_PIPE_CAPACITY. intros Hj Hk Hne E.
  pose proof (Z.div_mod (rp + j) 4096 ltac:(lia)). pose proof (Z.div_mod (rp + k) 4096 ltac:(lia)). lia.
Qed.

(** One byte in. *)
Definition pipe_put (c : Z) (p : vfs_pipe_t) : vfs_pipe_t :=
  p <| p_data := aset (p_write_pos p) c (p_data p) |>
    <| p_write_pos := u64 (p_write_pos p + 1) mod VFS_PIPE_CAPACITY |> <| p_size := p_size p + 1 |>.
(** One byte out. *)
Definition pipe_get (p : vfs_pipe_t) : vfs_pipe_t :=
  p <| p_read_pos := u64 (p_read_pos p + 1) mod VFS_PIPE_CAPACITY |> <| p_size := p_size p - 1 |>.

Lemma pipe_put_ok c p :
  pipe_ok p -> p_size p < VFS_PIPE_CAPACITY ->
  pipe_ok (pipe_put c p) /\ pipe_content (pipe_put c p) = pipe_content p ++ [c].
Proof.
  intros (Hl & Hr & Hs & Hw) Hroom. unfold pipe_ok, pipe_content, pipe_put. cbn.
  assert (0 <= p_write_pos p < 4096) as Hwr by (rewrite Hw; by apply Z.mod_pos_bound).
  split.
  - split; [by rewrite length_aset|]. split; [done|]. split; [lia|].
    rewrite u64_id by (unfold is_u64, VFS_PIPE_CAPACITY in *; lia).
    rewrite Hw, Zplus_mod_idemp_l. f_equal. lia.
  - replace (Z.to_nat (p_size p + 1)) with (S (Z.to_nat (p_size p))) by lia.
    rewrite ring_snoc by done. rewrite Z2Nat.id by lia. rewrite <- Hw. f_equal.
    + apply ring_aset; [done|unfold VFS_PIPE_CAPACITY; lia|]. intros k Hk. rewrite Hw. apply ring_pos_inj; lia.
    + rewrite aget_aset_eq; [done|]. rewrite Hl. unfold VFS_PIPE_CAPACITY in *. lia.
Qed.

Lemma pipe_get_ok p :
  pipe_ok p -> 0 < p_size p ->
  pipe_ok (pipe_get p) /\ pipe_content p = aget (p_data p) (p_read_pos p) :: pipe_content (pipe_get p).
Proof.
  intros (Hl & Hr & Hs & Hw) Hne. unfold pipe_ok, pipe_content, pipe_get. cbn.
  rewrite u64_id by (unfold is_u64, VFS_PIPE_CAPACITY in *; lia). split.
  - split; [done|]. split; [apply Z.mod_pos_bound; done|]. split; [lia|].
    rewrite Hw, Zplus_mod_idemp_l. f_equal. lia.
  - replace (Z.to_nat (p_size p)) with (S (Z.to_nat (p_size p - 1))) by lia. done.
Qed.

(** The ends and the flag are not touched by the transfers. *)
Definition same_ends (p q : vfs_pipe_t) : Prop :=
  p_used q = p_used p /\ p_readers q = p_readers p /\ p_writers q = p_writers p.

Lemma pipe_read_loop_spec n p :
  pipe_ok p ->
  let '(got, q) := pipe_read_loop n p in
  got = take n (pipe_content p) /\ pipe_ok q /\ pipe_content q = drop n (pipe_content p) /\ same_ends p q.
Proof.
  revert p. induction n as [|n IH]; intros p Hp; cbn [pipe_read_loop]; [by split_and!|].
  destruct (Z.ltb_spec 0 (p_size p)) as [Hlt|Hge].
  - change (p <| p_read_pos := u64 (p_read_pos p + 1) mod VFS_PIPE_CAPACITY |> <| p_size := p_size p - 1 |>)
      with (pipe_get p).
    destruct (pipe_get_ok p Hp Hlt) as [Hg Hc]. specialize (IH (pipe_get p) Hg).
    destruct (pipe_read_loop n (pipe_get p)) as [l q]. destruct IH as (-> & Hq & Hcq & He).
    rewrite Hc. split; [done|]. split; [done|]. split; [done|exact He].
  - pose proof (zlen_pipe_content p Hp) as Hz. destruct Hp as (Hl & Hr & Hs & Hw).
    assert (pipe_content p = []) as -> by (apply length_zero_iff_nil; unfold zlen in Hz; lia).
    by split_and!.
Qed.

Lemma pipe_write_loop_spec src p :
  pipe_ok p ->
  let '(wr, q) := pipe_write_loop src p in
  let room := Z.to_nat (VFS_PIPE_CAPACITY - p_size p) in
  wr = Z.min (zlen src) (VFS_PIPE_CAPACITY - p_size p) /\ pipe_ok q
  /\ pipe_content q = pipe_content p ++ take room src /\ same_ends p q.
Proof.
  revert p. induction src as [|c src IH]; intros p Hp; cbn [pipe_write_loop]; cbv zeta.
  - pose proof Hp as (_ & _ & Hs & _). change (zlen (@nil Z)) with 0.
    split; [lia|]. split; [done|]. split; [by rewrite take_nil, app_nil_r|done].
  - pose proof Hp as (_ & _ & Hs & _). destruct (Z.ltb_spec (p_size p) VFS_PIPE_CAPACITY) as [Hlt|Hge].
    + change (p <| p_data := aset (p_write_pos p) c (p_data p) |>
                <| p_write_pos := u64 (p_write_pos p + 1) mod VFS_PIPE_CAPACITY |> <| p_size := p_size p + 1 |>)
        with (pipe_put c p).
      destruct (pipe_put_ok c p Hp Hlt) as [Hg Hc]. specialize (IH (pipe_put c p) Hg).
      destruct (pipe_write_loop src (pipe_put c p)) as [wr q]. destruct IH as (-> & Hq & Hcq & He).
      replace (p_size (pipe_put c p)) with (p_size p + 1) in Hcq |- * by done. rewrite zlen_cons. split; [lia|].
      split; [done|]. split; [|exact He]. rewrite Hcq, Hc, <- app_assoc. f_equal.
      replace (Z.to_nat (VFS_PIPE_CAPACITY - p_size p)) with (S (Z.to_nat (VFS_PIPE_CAPACITY - (p_size p + 1)))) by lia.
      done.
    + replace (Z.to_nat (VFS_PIPE_CAPACITY - p_size p)) with 0%nat by lia. rewrite app_nil_r.
      pose proof (zlen_nonneg src). rewrite zlen_cons. split; [lia|]. by split_and!.
Qed.

(** ** Transfers through descriptors *)

Section fifo.
Context {B : Type} `{VfsEnv B}.
Implicit Types (v : vfs B) (s : vst B) (q : list Z).

Inductive chan_op : Type := ChWrite (src : list Z) | ChRead (n : Z).

(** What a call returns: the number of bytes written, or the bytes read. *)
Definition chan_out := (Z + list Z)%type.

Fixpoint run_chan (fd_r fd_w : Z) (ops : list chan_op) s : option (list chan_out * vst B) :=
  match ops with
  | [] => Some ([], s)
  | op :: ops =>
      match op with
      | ChWrite src => match vfs_write fd_w (Some src) (zlen src) s with
                       | None => None
                       | Some (n, s) => match run_chan fd_r fd_w ops s with
                                        | None => None
                                        | Some (l, s) => Some (inl n :: l, s)
                                        end
                       end
      | ChRead n => let '(got, s) := vfs_read fd_r true n s in
                    match run_chan fd_r fd_w ops s with
                    | None => None
                    | Some (l, s) => Some (inr got :: l, s)
                    end
      end
  end.

(** The specification: a queue that holds at most 4096 bytes. *)
Fixpoint run_fifo (ops : list chan_op) q : list chan_out * list Z :=
  match ops with
  | [] => ([], q)
  | ChWrite src :: ops =>
      let src := take (Z.to_nat VFS_PIPE_CAPACITY - length q) src in
      let '(l, q') := run_fifo ops (q ++ src) in (inl (zlen src) :: l, q')
  | ChRead n :: ops =>
      let '(l, q') := run_fifo ops (drop (Z.to_nat n) q) in (inr (take (Z.to_nat n) q) :: l, q')
  end.

(** Descriptors [fd_r] and [fd_w] are the two ends of pipe [p], which holds [q]. *)
Record channel (fd_r fd_w i j p : Z) s q : Prop := {
  ch_r : fd_lookup s fd_r = Some i;
  ch_w : fd_lookup s fd_w = Some j;
  ch_j : 0 <= j < VFS_MAX_OPEN_GLOBAL /\ length (g_open_files (vs s)) = 128%nat;
  ch_fr : f_backend (file (vs s) i) = VFS_BACKEND_PIPE /\ f_mode (file (vs s) i) = VFS_MODE_READ
          /\ f_u (file (vs s) i) = UPipe (Some p) true false;
  ch_fw : f_backend (file (vs s) j) = VFS_BACKEND_PIPE /\ f_mode (file (vs s) j) = VFS_MODE_WRITE
          /\ f_u (file (vs s) j) = UPipe (Some p) false true;
  ch_p : 0 <= p < VFS_MAX_PIPES /\ length (g_pipes (vs s)) = 16%nat;
  ch_ok : pipe_ok (pipe (vs s) p) /\ p_readers (pipe (vs s) p) <> 0;
  ch_q : pipe_content (pipe (vs s) p) = q;
}.

Lemma channel_set_pipe fd_r fd_w i j p s q pi q' :
  channel fd_r fd_w i j p s q -> pipe_ok pi -> same_ends (pipe (vs s) p) pi -> pipe_content pi = q' ->
  channel fd_r fd_w i j p (s <| vs := set_pipe p pi (vs s) |>) q'.
Proof.
  intros [H1 H2 H3 H4 H5 H6 H7 H8] Hok He Hq. split; try done.
  - cbn. by rewrite length_aset.
  - assert (pipe (set_pipe p pi (vs s)) p = pi) as E.
    { unfold pipe, set_pipe. cbn. apply aget_aset_eq. unfold VFS_MAX_PIPES in *. lia. }
    change (pipe_ok (pipe (set_pipe p pi (vs s)) p) /\ p_readers (pipe (set_pipe p pi (vs s)) p) <> 0).
    rewrite E. split; [done|]. destruct He as (_ & -> & _). apply H7.
  - change (pipe_content (pipe (set_pipe p pi (vs s)) p) = q').
    unfold pipe, set_pipe. cbn. rewrite aget_aset_eq; [done|]. unfold VFS_MAX_PIPES in *. lia.
Qed.

Lemma set_file_same v i :
  0 <= i < Z.of_nat (length (g_open_files v)) -> set_file i (file v i) v = v.
Proof.
  intros Hi. unfold set_file, file, aset, aget.
  destruct (lookup_lt_is_Some_2 (g_open_files v) (Z.to_nat i)) as [x Hx]; [lia|].
  rewrite (list_lookup_total_correct _ _ _ Hx), list_insert_id by done. by destruct v.
Qed.

Lemma channel_write fd_r fd_w i j p s q src :
  channel fd_r fd_w i j p s q ->
  let src' := take (Z.to_nat VFS_PIPE_CAPACITY - length q) src in
  exists s', vfs_write fd_w (Some src) (zlen src) s = Some (zlen src', s')
             /\ channel fd_r fd_w i j p s' (q ++ src').
Proof.
  intros C. pose proof C as [H1 H2 H3 H4 H5 H6 H7 H8]. cbv zeta. destruct H5 as (Hb & Hm & Hu).
  unfold vfs_write. rewrite H2, Hm. change (negb (has_flag VFS_MODE_WRITE VFS_MODE_WRITE)) with false. cbv iota.
  assert (append_pos (file (vs s) j) (vs s) = file (vs s) j) as ->.
  { unfold append_pos. rewrite Hb. by destruct (negb _). }
  rewrite set_file_same by (unfold VFS_MAX_OPEN_GLOBAL in *; lia).
  assert (s <| vs := vs s |> = s) as -> by (by destruct s). rewrite Hb, Hu. cbn [u_pipe u_can_write negb orb].
  rewrite (proj2 (Z.eqb_neq _ _)) by apply H7.
  replace (take (Z.to_nat (zlen src)) src) with src by (unfold zlen; by rewrite Nat2Z.id, firstn_all).
  pose proof (pipe_write_loop_spec src _ (proj1 H7)) as Hw.
  pose proof (zlen_pipe_content _ (proj1 H7)) as Hz. rewrite H8 in Hz.
  destruct (pipe_write_loop src (pipe (vs s) p)) as [wr pi]. cbv zeta in Hw.
  destruct Hw as (-> & Hok & Hc & He). rewrite H8 in Hc.
  replace (Z.to_nat (VFS_PIPE_CAPACITY - p_size (pipe (vs s) p)))
    with (Z.to_nat VFS_PIPE_CAPACITY - length q)%nat in Hc by (unfold zlen in Hz; lia).
  exists (s <| vs := set_pipe p pi (vs s) |>). split; [|by apply (channel_set_pipe fd_r fd_w i j p s q)].
  do 2 f_equal.
  destruct H7 as [(_ & _ & Hs & _) _]. unfold zlen in *. rewrite length_take. lia.
Qed.

Lemma channel_read fd_r fd_w i j p s q n :
  channel fd_r fd_w i j p s q -> 0 <= n ->
  exists s', vfs_read fd_r true n s = (take (Z.to_nat n) q, s')
             /\ channel fd_r fd_w i j p s' (drop (Z.to_nat n) q).
Proof.
  intros C Hn. pose proof C as [H1 H2 H3 H4 H5 H6 H7 H8]. destruct H4 as (Hb & Hm & Hu).
  unfold vfs_read. rewrite H1, Hm, Hb, Hu. cbn [u_pipe u_can_read negb orb].
  change (has_flag VFS_MODE_READ VFS_MODE_READ) with true. cbn [negb].
  pose proof (pipe_read_loop_spec (Z.to_nat (Z.min n (p_size (pipe (vs s) p)))) _ (proj1 H7)) as Hr.
  destruct (pipe_read_loop _ (pipe (vs s) p)) as [got pi]. destruct Hr as (-> & Hok & Hc & He).
  pose proof (zlen_pipe_content _ (proj1 H7)) as Hz. rewrite H8 in *.
  assert (Z.to_nat (Z.min n (p_size (pipe (vs s) p))) = (Z.to_nat n `min` length q)%nat) as Hmin
    by (unfold zlen in Hz; lia).
  assert (take (Z.to_nat n `min` length q) q = take (Z.to_nat n) q) as Ht.
  { destruct (Nat.min_spec (Z.to_nat n) (length q)) as [[? ->]|[? ->]]; [done|]. by rewrite !take_ge by lia. }
  assert (drop (Z.to_nat n `min` length q) q = drop (Z.to_nat n) q) as Hd.
  { destruct (Nat.min_spec (Z.to_nat n) (length q)) as [[? ->]|[? ->]]; [done|]. by rewrite !drop_ge by lia. }
  rewrite Hmin in *. rewrite Ht. rewrite Hd in Hc. exists (s <| vs := set_pipe p pi (vs s) |>).
  split; [done|]. by apply (channel_set_pipe fd_r fd_w i j p s q).
Qed.

Lemma run_chan_fifo fd_r fd_w i j p ops s q :
  channel fd_r fd_w i j p s q -> Forall (fun op => match op with ChRead n => 0 <= n | _ => True end) ops ->
  exists s', run_chan fd_r fd_w ops s = Some ((run_fifo ops q).1, s')
             /\ channel fd_r fd_w i j p s' (run_fifo ops q).2.
Proof.
  revert s q. induction ops as [|[src|n] ops IH]; intros s q C Hops;
    cbn [run_chan run_fifo]; cbv zeta; [by exists s| |];
    apply Forall_cons in Hops as [Ho Hops].
  - destruct (channel_write _ _ _ _ _ _ _ src C) as (s1 & -> & C1).
    destruct (IH _ _ C1 Hops) as (s2 & -> & C2). revert C2.
    destruct (run_fifo ops _) as [l q2]. intros C2. by exists s2.
  - destruct (channel_read _ _ _ _ _ _ _ n C Ho) as (s1 & -> & C1).
    destruct (IH _ _ C1 Hops) as (s2 & -> & C2). revert C2.
    destruct (run_fifo ops _) as [l q2]. intros C2. by exists s2.
Qed.
End fifo.
