(* ===== verification/VfsInv.v ===== *)
(** The invariant of [src/fs/vfs.c]: reference counts, pipe ends, buffers.

    [vfs_inv x o t v] is about one descriptor table [t]; [o i] counts the references to file [i]
    from everywhere else (other tables, and a call that holds a file it has not put into a table
    yet).  [x] is a pipe that was just allocated and has no ends yet.  Each lemma is about one
    helper of the file and says how it moves a reference between [o] and [t]. *)

From S2P Require Import Prelude CString Path Mounts Memfs ProcessData VfsData Vfs VfsPipe.

Section inv.
Context {B : Type} `{VfsEnvLaws B}.
Implicit Types (v : vfs B) (t : list Z) (o : Z -> Z) (x : option Z) (f : vfs_file_t).

Definition file_slot (i : Z) : Prop := 0 <= i < VFS_MAX_OPEN_GLOBAL.
Definition pipe_slot (p : Z) : Prop := 0 <= p < VFS_MAX_PIPES.
Definition table_slot (fd : Z) : Prop := 0 <= fd < PROCESS_MAX_OPEN_FILES.

(** Number of descriptors of [t] that lead to file [i]. *)
Definition cnt t (i : Z) : Z := count_true (fun fd => aget t fd =? handle i) 32.

(** File [f] is an end of pipe [p]: a read end ([b]) or a write end. *)
Definition end_of (b : bool) (p : Z) f : bool :=
  f_used f && bool_decide (u_pipe (f_u f) = Some p) && (if b then u_can_read (f_u f) else u_can_write (f_u f)).
Definition ends (b : bool) (p : Z) v : Z := count_true (fun i => end_of b p (file v i)) 128.

#[local] Arguments cnt : simpl never.
#[local] Arguments ends : simpl never.

(** What the members of the union hold, by backend. *)
Definition file_ok (m : memfs) f : Prop :=
  match f_u f with
  | URegular buf size cap _ =>
      f_backend f <> VFS_BACKEND_PIPE /\ f_backend f <> VFS_BACKEND_MEMFS /\ f_backend f <> VFS_BACKEND_DEVFS
      /\ 0 <= f_pos f <= size /\ size <= cap /\ cap <= zlen (bytes_of buf) /\ cap <= 2 ^ 62
  | UMemfs ino => f_backend f = VFS_BACKEND_MEMFS /\ bad_inode m ino = false /\ 0 <= f_pos f <= 2 ^ 62
  | UPipe po r w => f_backend f = VFS_BACKEND_PIPE /\ w = negb r /\ exists p, po = Some p /\ pipe_slot p
  | UDevice _ _ => f_backend f = VFS_BACKEND_DEVFS /\ 0 <= f_pos f < 2 ^ 64
  end.

Record vfs_inv x o t v : Prop := {
  vi_len : length t = 32%nat /\ length (g_open_files v) = 128%nat /\ length (g_pipes v) = 16%nat;
  vi_tab : forall fd, table_slot fd -> aget t fd = 0 \/ exists i, file_slot i /\ aget t fd = handle i;
  vi_o : forall i, 0 <= o i;
  vi_ref : forall i, file_slot i ->
    if f_used (file v i) then f_refcount (file v i) = o i + cnt t i /\ 0 < o i + cnt t i else o i + cnt t i = 0;
  vi_file : forall i, file_slot i -> f_used (file v i) = true -> file_ok (v_memfs v) (file v i);
  vi_data : forall p, pipe_slot p -> length (p_data (pipe v p)) = Z.to_nat VFS_PIPE_CAPACITY;
  vi_pipe : forall p, pipe_slot p ->
    if p_used (pipe v p)
    then pipe_ok (pipe v p) /\ p_readers (pipe v p) = ends true p v /\ p_writers (pipe v p) = ends false p v
         /\ (x = Some p \/ 0 < ends true p v + ends false p v)
    else ends true p v = 0 /\ ends false p v = 0;
  vi_mem : memfs_ok (v_memfs v);
}.

(** One more reference to [i]. *)
Definition plus_ref o (i : Z) : Z -> Z := fun k => o k + b2z (k =? i).
#[local] Arguments plus_ref : simpl never.

Lemma inv_o_ext x o o' t v : (forall i, o i = o' i) -> vfs_inv x o t v -> vfs_inv x o' t v.
Proof.
  intros E [H1 H2 H3 H4 H5 H6 H7 H8].
  split; [exact H1|exact H2|intros i; by rewrite <- E| |exact H5|exact H6|exact H7|exact H8].
  intros i Hi. specialize (H4 i Hi). by rewrite <- E.
Qed.

(** The parts of the state the invariant does not look at. *)
Lemma inv_ext x o t v v' :
  g_open_files v' = g_open_files v -> g_pipes v' = g_pipes v -> v_memfs v' = v_memfs v ->
  vfs_inv x o t v -> vfs_inv x o t v'.
Proof.
  intros E1 E2 E3 [I1 I2 I3 I4 I5 I6 I7 I8].
  assert (forall b p, ends b p v' = ends b p v) as Ee by (intros b p; unfold ends, file; by rewrite E1).
  split; rewrite ?E1, ?E2, ?E3; [exact I1|exact I2|exact I3| | | | |exact I8].
  - intros i Hi. unfold file. rewrite E1. by apply I4.
  - intros i Hi. unfold file. rewrite E1. by apply I5.
  - intros p Hp. unfold pipe. rewrite E2. by apply I6.
  - intros p Hp. rewrite !Ee. unfold pipe. rewrite E2. by apply I7.
Qed.

Lemma inv_env x o t v (b : B) : vfs_inv x o t v -> vfs_inv x o t (v <| v_env := b |>).
Proof. by apply inv_ext. Qed.

Lemma file_set i j f v :
  length (g_open_files v) = 128%nat -> file_slot i -> file_slot j ->
  file (set_file i f v) j = if decide (i = j) then f else file v j.
Proof.
  unfold file_slot, VFS_MAX_OPEN_GLOBAL. intros Hl Hi Hj. unfold file, set_file. cbn.
  case_decide as D; [subst j; apply aget_aset_eq; lia|apply aget_aset_ne; lia].
Qed.
Lemma pipe_set i j p v :
  length (g_pipes v) = 16%nat -> pipe_slot i -> pipe_slot j ->
  pipe (set_pipe i p v) j = if decide (i = j) then p else pipe v j.
Proof.
  unfold pipe_slot, VFS_MAX_PIPES. intros Hl Hi Hj. unfold pipe, set_pipe. cbn.
  case_decide as D; [subst j; apply aget_aset_eq; lia|apply aget_aset_ne; lia].
Qed.

Lemma ends_set b p i f v :
  length (g_open_files v) = 128%nat -> file_slot i ->
  ends b p (set_file i f v) = ends b p v - b2z (end_of b p (file v i)) + b2z (end_of b p f).
Proof.
  intros Hl Hi. unfold ends.
  rewrite (count_true_update (fun k => end_of b p (file (set_file i f v) k)) (fun k => end_of b p (file v k)) 128 i).
  - rewrite file_set, decide_True by done. lia.
  - exact Hi.
  - intros k Hk Hne. rewrite file_set by done. by rewrite decide_False.
Qed.

Lemma ends_ext b j v v' : g_open_files v' = g_open_files v -> ends b j v' = ends b j v.
Proof. intros E. unfold ends, file. by rewrite E. Qed.
Lemma ends_set_pipe b j p q v : ends b j (set_pipe p q v) = ends b j v.
Proof. by apply ends_ext. Qed.

Lemma ends_pos b p i v : file_slot i -> end_of b p (file v i) = true -> 0 < ends b p v.
Proof. intros Hi He. by apply (count_true_pos _ 128 i). Qed.

Lemma ends_nonneg b p v : 0 <= ends b p v.
Proof. apply count_true_bounds. Qed.

Lemma cnt_nonneg t i : 0 <= cnt t i.
Proof. apply count_true_bounds. Qed.

Lemma cnt_set t fd h i :
  length t = 32%nat -> table_slot fd ->
  cnt (aset fd h t) i = cnt t i - b2z (aget t fd =? handle i) + b2z (h =? handle i).
Proof.
  intros Hl Hf. unfold table_slot, PROCESS_MAX_OPEN_FILES in *. unfold cnt.
  rewrite (count_true_update (fun k => aget (aset fd h t) k =? handle i) (fun k => aget t k =? handle i) 32 fd).
  - rewrite aget_aset_eq by lia. lia.
  - lia.
  - intros k Hk Hne. by rewrite aget_aset_ne by lia.
Qed.

Lemma cnt_pos t fd i : table_slot fd -> aget t fd = handle i -> 0 < cnt t i.
Proof. intros Hf E. apply (count_true_pos _ 32 fd); [exact Hf|]. rewrite E. apply Z.eqb_refl. Qed.

(** ** Updating a record *)

(** A file changes in place: its count and the pipe it belongs to stay. *)
Lemma inv_set_file x o t v i f :
  vfs_inv x o t v -> file_slot i -> f_used f = f_used (file v i) -> f_refcount f = f_refcount (file v i) ->
  (forall b p, end_of b p f = end_of b p (file v i)) -> (f_used f = true -> file_ok (v_memfs v) f) ->
  vfs_inv x o t (set_file i f v).
Proof.
  intros [I1 I2 I3 I4 I5 I6 I7 I8] Hi Hu Hr He Hf. pose proof I1 as (_ & Hl & _).
  split; [|exact I2|exact I3| | |exact I6| |exact I8].
  - split; [apply I1|]. split; [|apply I1]. cbn. by rewrite length_aset.
  - intros j Hj. rewrite file_set by done. case_decide as D; [subst j; rewrite Hu, Hr|]; by apply I4.
  - intros j Hj. rewrite file_set by done. case_decide; [done|by apply I5].
  - intros p Hp.
    assert (forall b, ends b p (set_file i f v) = ends b p v) as Ee.
    { intros b. rewrite ends_set by assumption. rewrite He. lia. }
    rewrite !Ee. exact (I7 p Hp).
Qed.

(** Bytes move through a pipe. *)
Lemma inv_set_pipe x o t v p q :
  vfs_inv x o t v -> pipe_slot p -> pipe_ok q -> same_ends (pipe v p) q -> vfs_inv x o t (set_pipe p q v).
Proof.
  intros [I1 I2 I3 I4 I5 I6 I7 I8] Hp Hq (E1 & E2 & E3). pose proof I1 as (_ & _ & Hl).
  split; [|exact I2|exact I3|exact I4|exact I5| | |exact I8].
  - split; [apply I1|]. split; [apply I1|]. cbn. by rewrite length_aset.
  - intros j Hj. rewrite pipe_set by done. case_decide; [apply Hq|by apply I6].
  - intros j Hj. rewrite pipe_set by done.
    rewrite !ends_set_pipe.
    specialize (I7 j Hj). case_decide as D; [|done]. subst j. rewrite E1, E2, E3.
    destruct (p_used (pipe v p)); [|done]. split; [done|]. apply I7.
Qed.

(** The memfs table changes; no inode goes away. *)
Lemma inv_set_memfs x o t v m :
  vfs_inv x o t v -> memfs_ok m -> (forall ino, bad_inode (v_memfs v) ino = false -> bad_inode m ino = false) ->
  vfs_inv x o t (v <| v_memfs := m |>).
Proof.
  intros [I1 I2 I3 I4 I5 I6 I7 I8] Hm Hb.
  split; [exact I1|exact I2|exact I3|exact I4| |exact I6| |exact Hm].
  2: { intros p Hp. rewrite (ends_ext true p v), (ends_ext false p v) by reflexivity. exact (I7 p Hp). }
  intros i Hi Hu. specialize (I5 i Hi Hu). unfold file_ok in *.
  change (file (v <| v_memfs := m |>) i) with (file v i). destruct (f_u (file v i)); [exact I5| |exact I5..].
  destruct I5 as (? & ? & ?). split; [done|]. split; [by apply Hb|done].
Qed.

(** ** Descriptors *)

Lemma plus_ref_same o i : plus_ref o i i = o i + 1.
Proof. unfold plus_ref. rewrite Z.eqb_refl. done. Qed.

Lemma handle_inj i j : handle i = handle j -> i = j.
Proof. unfold handle. lia. Qed.
Lemma handle_eqb i j : (handle i =? handle j) = (i =? j).
Proof. unfold handle. destruct (Z.eqb_spec i j), (Z.eqb_spec (16 + i) (16 + j)); lia. Qed.
Lemma handle_not_0 i : file_slot i -> (0 =? handle i) = false.
Proof. unfold file_slot, handle. intros. apply Z.eqb_neq. lia. Qed.

(** The table entry of a valid descriptor. *)
Lemma lookup_spec x o t v fd i :
  vfs_inv x o t v -> fd_lookup_on_table t fd = Some i ->
  table_slot fd /\ file_slot i /\ aget t fd = handle i /\ f_used (file v i) = true.
Proof.
  intros I. unfold fd_lookup_on_table, fd_valid. destruct ((0 <=? fd) && (fd <? PROCESS_MAX_OPEN_FILES)) eqn:Ev; [|done].
  cbn [negb]. apply andb_true_iff in Ev as [E1%Z.leb_le E2%Z.ltb_lt]. assert (table_slot fd) as Hf by done.
  destruct (vi_tab _ _ _ _ I fd Hf) as [E|(j & Hj & E)]; rewrite E; [done|].
  rewrite Z.eqb_sym, handle_not_0 by done. unfold index_of, handle. intros [= <-].
  replace (16 + j - 16) with j by lia. split; [done|]. split; [done|]. split; [done|].
  pose proof (vi_ref _ _ _ _ I j Hj) as Hr. pose proof (cnt_pos t fd j Hf E). pose proof (vi_o _ _ _ _ I j).
  destruct (f_used (file v j)); [done|lia].
Qed.

(** Setting an entry: [o] changes by what the entry loses and gains. *)
Lemma inv_set_entry x o t v fd h o' :
  vfs_inv x o t v -> table_slot fd -> h = 0 \/ (exists i, file_slot i /\ h = handle i) ->
  (forall i, file_slot i -> o' i = o i + b2z (aget t fd =? handle i) - b2z (h =? handle i)) ->
  (forall i, 0 <= o' i) -> vfs_inv x o' (aset fd h t) v.
Proof.
  intros [I1 I2 I3 I4 I5 I6 I7 I8] Hf Hh Ho' Hpos. pose proof I1 as (Hl & _).
  split; [|intros j Hj|exact Hpos| |exact I5|exact I6|exact I7|exact I8].
  - rewrite length_aset. exact I1.
  - destruct (decide (j = fd)) as [->|Hne].
    + rewrite aget_aset_eq by (unfold table_slot, PROCESS_MAX_OPEN_FILES in *; lia). exact Hh.
    + rewrite aget_aset_ne by (unfold table_slot in *; lia). by apply I2.
  - intros i Hi. specialize (I4 i Hi). rewrite cnt_set, Ho' by assumption.
    replace (o i + _ - _ + _) with (o i + cnt t i) by lia. exact I4.
Qed.

(** A held file is put into a free entry. *)
Lemma inv_put x o t v fd i :
  vfs_inv x (plus_ref o i) t v -> (forall k, 0 <= o k) -> table_slot fd -> file_slot i -> aget t fd = 0 ->
  vfs_inv x o (aset fd (handle i) t) v.
Proof.
  intros I Hp Hf Hi E. apply (inv_set_entry x (plus_ref o i) t v fd); [done..|right; by exists i| |done].
  intros k Hk. rewrite E, handle_not_0, handle_eqb by done. unfold plus_ref. rewrite (Z.eqb_sym k i). simpl. lia.
Qed.

(** An entry is emptied; its reference is held. *)
Lemma inv_take x o t v fd i :
  vfs_inv x o t v -> table_slot fd -> aget t fd = handle i -> vfs_inv x (plus_ref o i) (aset fd 0 t) v.
Proof.
  intros I Hf E. apply (inv_set_entry x o t v fd); [done..|by left| |].
  - intros k Hk. rewrite E, handle_not_0, handle_eqb by done. unfold plus_ref. rewrite (Z.eqb_sym k i). simpl. lia.
  - intros k. pose proof (vi_o _ _ _ _ I k). unfold plus_ref. destruct (k =? i); simpl; lia.
Qed.

(** ** References *)

(** What a change of the record of file [i] must satisfy. *)
Lemma inv_set_ref x o o' t v i f :
  vfs_inv x o t v -> file_slot i -> (forall k, k <> i -> o' k = o k) -> 0 <= o' i ->
  (if f_used f then f_refcount f = o' i + cnt t i /\ 0 < o' i + cnt t i else o' i + cnt t i = 0) ->
  (f_used f = true -> file_ok (v_memfs v) f) -> (forall b p, end_of b p f = end_of b p (file v i)) ->
  vfs_inv x o' t (set_file i f v).
Proof.
  intros [I1 I2 I3 I4 I5 I6 I7 I8] Hi Ho Hoi Hr Hf He. pose proof I1 as (_ & Hl & _).
  split; [|exact I2| | | |exact I6| |exact I8].
  - split; [apply I1|]. split; [|apply I1]. cbn. by rewrite length_aset.
  - intros k. destruct (decide (k = i)) as [->|]; [done|]. by rewrite Ho.
  - intros j Hj. rewrite file_set by done. case_decide as D; [subst j; exact Hr|].
    rewrite Ho by congruence. by apply I4.
  - intros j Hj. rewrite file_set by done. case_decide; [done|by apply I5].
  - intros p Hp.
    assert (forall b, ends b p (set_file i f v) = ends b p v) as Ee.
    { intros b. rewrite ends_set by assumption. rewrite He. lia. }
    rewrite !Ee. exact (I7 p Hp).
Qed.

Lemma inv_file_ref x o t v i :
  vfs_inv x o t v -> file_slot i -> f_used (file v i) = true -> vfs_inv x (plus_ref o i) t (file_ref i v).
Proof.
  intros I Hi Hu. unfold file_ref. pose proof (vi_ref _ _ _ _ I i Hi) as Hr. rewrite Hu in Hr.
  pose proof (vi_o _ _ _ _ I i) as Ho.
  apply (inv_set_ref x o); [done|done| |by rewrite plus_ref_same; lia| | |].
  - intros k Hk. unfold plus_ref. rewrite (proj2 (Z.eqb_neq _ _)) by done. simpl. lia.
  - cbn. rewrite Hu, plus_ref_same. lia.
  - intros _. exact (vi_file _ _ _ _ I i Hi Hu).
  - intros b p. unfold end_of. cbn. by rewrite Hu.
Qed.

(** An unused slot is no end of a pipe. *)
Lemma unused_no_end b p f : f_used f = false -> end_of b p f = false.
Proof. intros E. unfold end_of. by rewrite E. Qed.

Lemma file_ok_fresh m f :
  f_u f = URegular None 0 0 false -> f_backend f = VFS_BACKEND_NONE -> f_pos f = 0 -> file_ok m f.
Proof. intros E1 E2 E3. unfold file_ok. rewrite E1, E2, E3. split_and!; done || lia. Qed.

(** [file_alloc] gives a held, zeroed file. *)
Lemma inv_file_alloc x o t v i v' :
  vfs_inv x o t v -> file_alloc v = (Some i, v') ->
  file_slot i /\ f_used (file v i) = false
  /\ v' = set_file i (file_zero <| f_used := true |> <| f_refcount := 1 |>) v
  /\ vfs_inv x (plus_ref o i) t v'.
Proof.
  intros I. unfold file_alloc. destruct (find_index _ (g_open_files v)) as [k|] eqn:Hf; [|done]. intros [= -> <-].
  apply find_index_Some in Hf as (Hi & Hu & _). pose proof (vi_len _ _ _ _ I) as (_ & Hl & _). rewrite Hl in Hi.
  assert (file_slot i) as Hs by exact Hi. apply negb_true_iff in Hu. fold (file v i) in Hu.
  split; [done|]. split; [done|]. split; [done|].
  pose proof (vi_ref _ _ _ _ I i Hs) as Hr. rewrite Hu in Hr. pose proof (vi_o _ _ _ _ I i). pose proof (cnt_nonneg t i).
  apply (inv_set_ref x o); [done|done| |rewrite plus_ref_same; lia| | |].
  - intros k Hk. unfold plus_ref. rewrite (proj2 (Z.eqb_neq _ _)) by done. simpl. lia.
  - cbn. rewrite plus_ref_same. lia.
  - intros _. by apply file_ok_fresh.
  - intros b p. rewrite (unused_no_end b p (file v i)) by done. reflexivity.
Qed.

Lemma file_alloc_none v v' : file_alloc v = (None, v') -> v' = v.
Proof. unfold file_alloc. destruct (find_index _ _); [done|]. by intros [= <-]. Qed.

(** ** Releasing *)

Lemma plus_ref_other o i k : k <> i -> plus_ref o i k = o k.
Proof. intros Hk. unfold plus_ref. rewrite (proj2 (Z.eqb_neq _ _)) by done. simpl. lia. Qed.

Lemma end_of_pipe b p q f r :
  f_used f = true -> f_u f = UPipe (Some q) r (negb r) ->
  end_of b p f = bool_decide (q = p) && (if b then r else negb r).
Proof.
  intros Hu E. unfold end_of. rewrite Hu, E. cbn.
  rewrite (bool_decide_ext (Some q = Some p) (q = p)); [done|]. split; congruence.
Qed.

Lemma pipe_drop_spec (po : option Z) (r : bool) (p : vfs_pipe_t) :
  (if r then 0 < p_readers p else 0 < p_writers p) ->
  let q := pipe_drop (UPipe po r (negb r)) p in
  p_readers q = p_readers p - b2z r /\ p_writers q = p_writers p - b2z (negb r)
  /\ p_used q = p_used p && negb ((p_readers q =? 0) && (p_writers q =? 0))
  /\ p_data q = p_data p /\ (pipe_ok p -> pipe_ok q).
Proof.
  intros Hr. cbv zeta. unfold pipe_drop. cbn [u_can_read u_can_write].
  destruct r; cbn [negb andb b2z]; rewrite (proj2 (Z.ltb_lt _ _) Hr);
    match goal with |- context [if ?c then _ else _] => destruct c eqn:E end;
    split_and!; try (intros K; exact K); cbn in *; rewrite ?E, ?andb_false_r, ?andb_true_r; done || lia.
Qed.

(** The last reference to an end of pipe [p] goes away. *)
Lemma inv_close_end x o t v i p r f :
  vfs_inv x (plus_ref o i) t v -> (forall k, 0 <= o k) -> file_slot i -> o i + cnt t i = 0 ->
  f_used (file v i) = true -> f_u (file v i) = UPipe (Some p) r (negb r) -> pipe_slot p -> f_used f = false ->
  vfs_inv x o t (set_file i f (set_pipe p (pipe_drop (f_u (file v i)) (pipe v p)) v)).
Proof.
  intros [I1 I2 I3 I4 I5 I6 I7 I8] Hpos Hi Hz Hu Eu Hp Hf. pose proof I1 as (_ & Hl & Hlp).
  assert (forall b, end_of b p (file v i) = if b then r else negb r) as Hend.
  { intros b. rewrite (end_of_pipe _ _ p _ r) by done. by rewrite bool_decide_true. }
  pose proof (ends_nonneg true p v) as Hn1. pose proof (ends_nonneg false p v) as Hn2.
  assert (if r then 0 < ends true p v else 0 < ends false p v) as Hends.
  { destruct r; apply (ends_pos _ p i); done || by rewrite Hend. }
  pose proof (I7 p Hp) as Ip. destruct (p_used (pipe v p)) eqn:Hup; [|destruct r; lia].
  destruct Ip as (Hok & Hr & Hw & Hx).
  destruct (pipe_drop_spec (Some p) r (pipe v p)) as (Q1 & Q2 & Q3 & Q4 & Q5); [by rewrite Hr, Hw|].
  rewrite <- Eu in Q1, Q2, Q3, Q4, Q5. set (q := pipe_drop (f_u (file v i)) (pipe v p)) in *. clearbody q.
  split; [|exact I2|exact Hpos| | | | |exact I8].
  - split; [apply I1|]. cbn. by rewrite !length_aset.
  - intros j Hj. rewrite file_set by done. case_decide as D; [subst j; by rewrite Hf|].
    specialize (I4 j Hj). by rewrite plus_ref_other in I4.
  - intros j Hj. rewrite file_set by done. case_decide; [congruence|by apply I5].
  - intros j Hj. change (pipe (set_file i f (set_pipe p q v)) j) with (pipe (set_pipe p q v) j).
    rewrite pipe_set by done. case_decide as D; [|by apply I6]. rewrite Q4. by apply I6.
  - intros j Hj. change (pipe (set_file i f (set_pipe p q v)) j) with (pipe (set_pipe p q v) j).
    rewrite pipe_set, !ends_set, !ends_set_pipe by done. change (file (set_pipe p q v) i) with (file v i).
    rewrite !(unused_no_end _ _ f) by done. specialize (I7 j Hj). case_decide as D.
    + subst j. rewrite !Hend, Q3, Hup, Q1, Q2, Hr, Hw. cbn [andb].
      assert (forall b, b2z (if b : bool then r else negb r) = 0 \/ b2z (if b then r else negb r) = 1) as Hb
        by (intros []; destruct r; auto).
      pose proof (Hb true). pose proof (Hb false).
      assert (ends true p v - b2z r >= 0 /\ ends false p v - b2z (negb r) >= 0) by (destruct r; simpl; lia).
      destruct (Z.eqb_spec (ends true p v - b2z r) 0), (Z.eqb_spec (ends false p v - b2z (negb r)) 0);
        cbn [andb negb]; change (b2z false) with 0; [lia|..];
        (split; [by apply Q5|split; [lia|split; [lia|right; lia]]]).
    + rewrite !(end_of_pipe _ _ p _ r), !bool_decide_false by done. cbn [andb b2z].
      rewrite !Z.sub_0_r, !Z.add_0_r. exact I7.
Qed.

Lemma flush_same f (b : B) :
  (flush_regular_file f b).1.2 = f \/ (flush_regular_file f b).1.2 = f <| f_dirty := false |>.
Proof.
  unfold flush_regular_file. destruct (negb (f_dirty f)); [by left|]. destruct (negb (has_flag _ _)); [by left|].
  destruct (f_backend f); try (by right).
  - destruct (fat12_write_file _ _ _) as [rc b']. destruct (negb (rc =? 0)); [by left|by right].
  - destruct (fat32_write_file _ _ _) as [rc b']. destruct (rc <? 0); [by left|by right].
Qed.

Lemma aset_aset {A} i (a b : A) l : aset i b (aset i a l) = aset i b l.
Proof. unfold aset. by rewrite list_insert_insert_eq. Qed.

(** What [file_destroy] leaves: the record marked unused, its pipe end dropped, the rest as it was. *)
Lemma file_destroy_state i v :
  exists f b, f_used f = false /\ f_refcount f = 0
    /\ file_destroy i v
       = set_file i f (match f_backend (file v i), u_pipe (f_u (file v i)) with
                       | VFS_BACKEND_PIPE, Some p => set_pipe p (pipe_drop (f_u (file v i)) (pipe v p)) v
                       | _, _ => v
                       end) <| v_env := b |>.
Proof.
  destruct v as [ms fs ps kt kc a1 a2 a3 kd mm ev]. set (v := mkVfs _ _ _ _ _ _ _ _ _ _ _).
  unfold file_destroy. pose proof (flush_same (file v i) (v_env v)) as Hf.
  destruct (flush_regular_file (file v i) (v_env v)) as [[rc f1] b1]. cbn [fst snd] in Hf.
  assert (f_backend f1 = f_backend (file v i) /\ f_u f1 = f_u (file v i)) as [-> ->] by (by destruct Hf as [->| ->]).
  clear Hf. destruct (f_u (file v i)) as [buf sz cap ow|ino|po r w|k idx]; cbn [reg_buf reg_owns u_pipe].
  1: destruct buf as [[a d]|]; [destruct ow|].
  all: try (destruct po as [p|]).
  all: destruct (f_backend (file v i)); exists (f1 <| f_used := false |> <| f_refcount := 0 |>); eexists; (split; [reflexivity|split; [reflexivity|]]);
    unfold set_file, set_pipe, pipe; cbn; rewrite aset_aset; reflexivity.
Qed.

Lemma inv_file_release x o t v i :
  vfs_inv x (plus_ref o i) t v -> (forall k, 0 <= o k) -> file_slot i -> vfs_inv x o t (file_release i v).
Proof.
  intros I Hpos Hi. pose proof (vi_ref _ _ _ _ I i Hi) as Hr. rewrite plus_ref_same in Hr.
  pose proof (cnt_nonneg t i). pose proof (Hpos i). unfold file_release.
  destruct (f_used (file v i)) eqn:Hu; [|lia]. cbn [negb]. destruct Hr as [Hr _].
  pose proof (vi_file _ _ _ _ I i Hi Hu) as Hok.
  destruct (Z.ltb_spec 1 (f_refcount (file v i))) as [Hlt|Hge].
  - apply (inv_set_ref x (plus_ref o i)); [done|done| |done| | |].
    + intros k Hk. by rewrite plus_ref_other.
    + cbn. rewrite Hu. lia.
    + intros _. exact Hok.
    + intros b p. unfold end_of. cbn. by rewrite Hu.
  - destruct (file_destroy_state i v) as (f & b & Hf & _ & ->).
    apply inv_env.
    assert (f_backend (file v i) = VFS_BACKEND_PIPE ->
            exists p r, f_u (file v i) = UPipe (Some p) r (negb r) /\ pipe_slot p) as Hpipe.
    { intros E. unfold file_ok in Hok. destruct (f_u (file v i)) as [buf sz cap ow|ino|po r w|k idx].
      - by destruct Hok as (? & _).
      - destruct Hok as (? & _). congruence.
      - destruct Hok as (_ & -> & p & -> & Hp). eauto.
      - destruct Hok as (? & _). congruence. }
    assert (f_backend (file v i) <> VFS_BACKEND_PIPE -> u_pipe (f_u (file v i)) = None) as Hnone.
    { intros E. unfold file_ok in Hok. destruct (f_u (file v i)); try done. by destruct Hok as (? & _). }
    destruct (decide (f_backend (file v i) = VFS_BACKEND_PIPE)) as [E|E].
    + destruct (Hpipe E) as (p & r & Eu & Hp). rewrite E, Eu. cbn [u_pipe]. rewrite <- Eu.
      apply (inv_close_end x o t v i p r); done || lia.
    + rewrite Hnone by done.
      assert (match f_backend (file v i) with VFS_BACKEND_PIPE => v | _ => v end = v) as -> by (by destruct (f_backend _)).
      apply (inv_set_ref x (plus_ref o i)); [done|done| |done| | |].
      * intros k Hk. by rewrite plus_ref_other.
      * rewrite Hf. lia.
      * congruence.
      * intros c p. rewrite unused_no_end by done. unfold end_of. rewrite Hnone by done.
        rewrite bool_decide_false by done. by rewrite andb_false_r.
Qed.

Lemma file_release_ktab i v : g_kernel_open_files (file_release i v) = g_kernel_open_files v.
Proof.
  unfold file_release. destruct (negb _); [done|]. destruct (_ <? _); [done|].
  destruct (file_destroy_state i v) as (f & b & _ & _ & ->).
  by destruct (f_backend (file v i)), (u_pipe (f_u (file v i))).
Qed.

(** [fd_close_on_table] and the loop of [vfs_process_cleanup]. *)
Lemma inv_fd_close x o t v fd :
  vfs_inv x o t v ->
  vfs_inv x o (fd_close_on_table t fd v).1 (fd_close_on_table t fd v).2
  /\ g_kernel_open_files (fd_close_on_table t fd v).2 = g_kernel_open_files v
  /\ forall k, table_slot k ->
       aget (fd_close_on_table t fd v).1 k = if decide (k = fd) then 0 else aget t k.
Proof.
  intros I. pose proof (vi_len _ _ _ _ I) as (Hl & _).
  unfold fd_close_on_table. destruct (fd_lookup_on_table t fd) as [i|] eqn:El; cbn [fst snd].
  - destruct (lookup_spec _ _ _ _ _ _ I El) as (Hf & Hi & E & Hu). split; [|split; [apply file_release_ktab|]].
    + apply inv_file_release; [by apply inv_take|exact (vi_o _ _ _ _ I)|done].
    + intros k Hk. unfold table_slot, PROCESS_MAX_OPEN_FILES in *.
      case_decide as D; [subst k; apply aget_aset_eq; lia|apply aget_aset_ne; lia].
  - split; [done|]. split; [done|]. intros k Hk. case_decide as D; [|done]. subst k.
    unfold fd_lookup_on_table, fd_valid in El. unfold table_slot in Hk.
    rewrite (proj2 (Z.leb_le _ _)), (proj2 (Z.ltb_lt _ _)) in El by lia. cbn [andb negb] in El.
    destruct (Z.eqb_spec (aget t fd) 0); [done|done].
Qed.

Lemma inv_close_all x o t v :
  vfs_inv x o t v ->
  vfs_inv x o (close_all t v).1 (close_all t v).2
  /\ g_kernel_open_files (close_all t v).2 = g_kernel_open_files v
  /\ forall k, table_slot k -> aget (close_all t v).1 k = 0.
Proof.
  intros I. unfold close_all. set (f := fun (i : Z) '(t, v) => _).
  assert (forall n, (n <= 32)%nat ->
    let r := for_up n 0 f (t, v) in
    vfs_inv x o r.1 r.2 /\ g_kernel_open_files r.2 = g_kernel_open_files v
    /\ forall k, table_slot k -> k < Z.of_nat n -> aget r.1 k = 0) as Hn.
  { intros n Hn. cbv zeta.
    apply (for_up_inv (fun k (r : list Z * vfs B) => vfs_inv x o r.1 r.2
      /\ g_kernel_open_files r.2 = g_kernel_open_files v
      /\ forall j, table_slot j -> j < k -> aget r.1 j = 0)).
    - split; [done|]. split; [done|]. unfold table_slot. lia.
    - intros k [t1 v1] Hk (I1 & Hk1 & Hz). cbn [fst snd] in *.
      destruct (inv_fd_close x o t1 v1 k I1) as (I2 & Hk2 & Hg). unfold f.
      split; [done|]. split; [congruence|]. intros j Hj Hlt. rewrite Hg by done.
      case_decide; [done|]. apply Hz; [done|lia]. }
  destruct (Hn 32%nat) as (I1 & Hk & Hz); [lia|].
  change (Z.to_nat PROCESS_MAX_OPEN_FILES) with 32%nat. split; [done|]. split; [done|].
  intros k Hk1. apply Hz; [done|]. unfold table_slot, PROCESS_MAX_OPEN_FILES in Hk1. lia.
Qed.

(** ** Opening *)

Definition no_pipe f : Prop := u_pipe (f_u f) = None.

Lemma no_pipe_end b p f : no_pipe f -> end_of b p f = false.
Proof. intros E. unfold end_of. rewrite E, bool_decide_false by done. by rewrite andb_false_r. Qed.

(** A used file whose union is not a pipe is given new contents. *)
Lemma inv_fill x o t v i f :
  vfs_inv x o t v -> file_slot i -> no_pipe (file v i) -> no_pipe f ->
  f_used f = f_used (file v i) -> f_refcount f = f_refcount (file v i) -> file_ok (v_memfs v) f ->
  vfs_inv x o t (set_file i f v).
Proof.
  intros I Hi H1 H2 Hu Hr Hok. apply inv_set_file; [done..| |done].
  intros b p. by rewrite !no_pipe_end.
Qed.

(** ** memfs through the VFS *)

Lemma bad_inode_mono m m' ino :
  (forall j, 0 <= j < 16 -> i_used (aget m j) = true -> i_used (aget m' j) = true) ->
  bad_inode m ino = false -> bad_inode m' ino = false.
Proof.
  intros Hm [Hi Hu]%bad_inode_false. apply bad_inode_false. split; [done|]. by apply Hm.
Qed.

Lemma memfs_ok_create m (b : B) nm :
  memfs_ok m ->
  let '(ino, m', _) := memfs_create nm m b in
  memfs_ok m' /\ (forall j, bad_inode m j = false -> bad_inode m' j = false)
  /\ (ino < 0 \/ bad_inode m' ino = false).
Proof.
  intros Hok. unfold memfs_create. unfold mstrlen. destruct (Z.eqb_spec (zlen nm) 0) as [|Hz]; [split; [done|split; [done|left; lia]]|].
  pose proof Hok as [Hlen _].
  destruct (find_index (fun n => i_used n && mstreq (i_name n) nm) m) as [i|] eqn:Hf.
  { apply find_index_Some in Hf as (Hi & [Hu _]%andb_true_iff & _). rewrite Hlen in Hi.
    split; [done|]. split; [done|]. right. apply bad_inode_false. split; [exact Hi|done]. }
  destruct (find_index (fun n => negb (i_used n)) m) as [i|] eqn:Hf2; [|split; [done|split; [done|left; lia]]].
  apply find_index_Some in Hf2 as (Hi & Hu%negb_true_iff & _). rewrite Hlen in Hi.
  assert (0 <= i < MEMFS_MAX_FILES) as Hi16 by exact Hi.
  destruct (kmalloc MEMFS_INIT_CAP b) as [d b'] eqn:Hk.
  assert (nm <> []) as Hne by (intros ->; done).
  assert (mstrcpy nm MEMFS_MAX_NAME <> [] /\ zlen (mstrcpy nm MEMFS_MAX_NAME) < MEMFS_MAX_NAME) as [Hc1 Hc2].
  { unfold mstrcpy. rewrite copy_upto_eq. cbn [fst]. unfold MEMFS_MAX_NAME, zlen. rewrite length_take.
    split; [|lia]. destruct nm; done. }
  assert (node_ok (new_inode nm d (aget m i))) as Hn.
  { unfold node_ok, new_inode. destruct d as [[a l]|]; cbn.
    - destruct (kmalloc_block _ _ _ _ _ Hk) as (Hzl & _); [done|]. unfold MEMFS_INIT_CAP in *. split_and!; done || lia.
    - split_and!; done || lia. }
  split; [by apply memfs_ok_set|]. split.
  - intros j. apply bad_inode_mono. intros k Hk16 Huk. rewrite aget_set by (done || lia).
    case_decide; [done|done].
  - right. apply bad_inode_false. split; [done|]. rewrite aget_set by (done || lia). by rewrite decide_True.
Qed.

Lemma memfs_ok_truncate m ino :
  memfs_ok m -> memfs_ok (memfs_truncate m ino).2
  /\ forall j, bad_inode m j = false -> bad_inode (memfs_truncate m ino).2 j = false.
Proof.
  intros Hok. unfold memfs_truncate. destruct (bad_inode m ino) eqn:Hb; cbn [snd]; [done|].
  pose proof (memfs_ok_get _ _ Hok Hb) as (N1 & N2 & N3 & N4). apply bad_inode_false in Hb as [Hi Hu].
  split.
  - apply memfs_ok_set; [done|done|]. intros _. unfold node_ok. cbn. split_and!; try done; try lia; apply N4.
  - intros j. apply bad_inode_mono. intros k Hk Huk. rewrite aget_set by (done || lia). by case_decide.
Qed.

Lemma memfs_open_good m nm : memfs_ok m -> 0 <= memfs_open m nm -> bad_inode m (memfs_open m nm) = false.
Proof.
  intros [Hlen _]. unfold memfs_open. destruct (find_index _ m) as [i|] eqn:Hf; [|lia]. intros _.
  apply find_index_Some in Hf as (Hi & [Hu _]%andb_true_iff & _). rewrite Hlen in Hi. by apply bad_inode_false.
Qed.

Lemma memfs_size_bounds m ino : memfs_ok m -> 0 <= memfs_size m ino <= 2 ^ 62.
Proof.
  intros Hok. unfold memfs_size. destruct (bad_inode m ino) eqn:Hb; [lia|].
  pose proof (memfs_ok_get _ _ Hok Hb) as (N1 & N2 & N3 & N4). lia.
Qed.

Definition fresh_file v (i : Z) : Prop :=
  file_slot i /\ f_used (file v i) = true /\ f_u (file v i) = URegular None 0 0 false /\ f_pos (file v i) = 0.

Lemma fresh_no_pipe v i : fresh_file v i -> no_pipe (file v i).
Proof. intros (_ & _ & E & _). unfold no_pipe. by rewrite E. Qed.

(** The contents a backend gives to a fresh file. *)
Lemma inv_fill_fresh x o t v i f :
  vfs_inv x o t v -> fresh_file v i -> no_pipe f ->
  f_used f = f_used (file v i) -> f_refcount f = f_refcount (file v i) -> file_ok (v_memfs v) f ->
  vfs_inv x o t (set_file i f v) /\ g_kernel_open_files (set_file i f v) = g_kernel_open_files v.
Proof.
  intros I Hf Hn Hu Hr Hok. split; [|done]. apply inv_fill; [done|apply Hf|by apply fresh_no_pipe|done..].
Qed.

Lemma inv_open_buffer x o t v i bk r K :
  vfs_inv x o t v -> fresh_file v i -> g_kernel_open_files v = K -> bk <> VFS_BACKEND_PIPE -> bk <> VFS_BACKEND_MEMFS -> bk <> VFS_BACKEND_DEVFS ->
  (forall buf size owns, r = Some (buf, size, owns) -> file_data_ok buf size) ->
  vfs_inv x o t (open_buffer i bk r v).2 /\ g_kernel_open_files (open_buffer i bk r v).2 = K.
Proof.
  intros I Hf <- H1 H2 H3 Hr. unfold open_buffer. destruct r as [[[buf size] owns]|]; cbn [snd]; [|done].
  destruct (Hr _ _ _ eq_refl) as [[Hs1 Hs2] Hs3].
  apply inv_fill_fresh; [done|done|done|done|done|]. destruct Hf as (_ & _ & _ & Hp).
  unfold file_ok. cbn. rewrite Hp. split_and!; done || lia.
Qed.

Lemma load_file_ok (read : B -> Z * list Z) size b buf n b' :
  (forall b r l, read b = (r, l) -> r <= size /\ zlen l <= size) -> 0 <= size <= 2 ^ 32 ->
  load_file read size b = (Some (buf, n), b') -> file_data_ok buf n.
Proof.
  intros Hread Hs. unfold load_file, file_data_ok. destruct (Z.leb_spec size 0).
  - intros [= <- <- <-]. assert (size = 0) as -> by lia. cbn. unfold zlen; simpl length; lia.
  - destruct (kmalloc size b) as [[[a fr]|] b1] eqn:Hk; [|done].
    destruct (kmalloc_block _ _ _ _ _ Hk) as (Hz & _ & _); [lia|].
    destruct (read b1) as [rb data] eqn:Hrd. destruct (Hread _ _ _ Hrd) as [Hrb Hdl].
    intros [= <- <- <-]. cbn [bytes_of]. unfold zlen in *. rewrite length_copy_in, Hz.
    destruct (Z.ltb_spec rb 0); lia.
Qed.

Lemma load_regular_ok bk sub flags b buf n b' :
  load_regular bk sub flags b = (Some (buf, n), b') -> file_data_ok buf n.
Proof.
  assert (forall r b1 b2, (None, b1) = (@Some (option (Z * list Z) * Z) r, b2 : B) -> False) as Habs by (intros ? ? ? [=]).
  unfold load_regular. destruct bk; try (by intros ?%Habs).
  - destruct (fat12_stat sub b) as [[[] size]|] eqn:Hst; [by intros ?%Habs| |].
    + pose proof (fat12_stat_size _ _ _ _ Hst) as Hsz. apply load_file_ok.
      * intros ? ? ? Hr. apply (fat12_read_len _ _ _ _ _) in Hr; [done|destruct (has_flag _ _); lia].
      * destruct (has_flag _ _); lia.
    + destruct (has_flag _ _); [|by intros ?%Habs].
      destruct (fat12_write_file _ _ _) as [rc b1]. destruct (negb _); [by intros ?%Habs|].
      intros [= <- <- <-]. unfold file_data_ok. cbn. unfold zlen; simpl length; lia.
  - destruct (fat32_stat sub b) as [[[] size]|] eqn:Hst; [by intros ?%Habs| |by intros ?%Habs].
    pose proof (fat32_stat_size _ _ _ _ Hst) as Hsz. apply load_file_ok.
    + intros ? ? ? Hr. apply (fat32_read_len _ _ _ _ _) in Hr; [done|destruct (has_flag _ _); lia].
    + destruct (has_flag _ _); lia.
Qed.

Lemma inv_open_regular x o t v i bk sub flags :
  vfs_inv x o t v -> fresh_file v i -> bk <> VFS_BACKEND_PIPE -> bk <> VFS_BACKEND_MEMFS -> bk <> VFS_BACKEND_DEVFS ->
  vfs_inv x o t (open_regular_buffered i bk sub flags v).2
  /\ g_kernel_open_files (open_regular_buffered i bk sub flags v).2 = g_kernel_open_files v.
Proof.
  intros I Hf H1 H2 H3. unfold open_regular_buffered.
  destruct (load_regular bk sub flags (v_env v)) as [[[buf size]|] b] eqn:Hl; cbn [snd]; [|split; [by apply inv_env|done]].
  destruct (load_regular_ok _ _ _ _ _ _ _ Hl) as [[Hs1 Hs2] Hs3].
  set (f := if has_flag flags VFS_O_TRUNC then _ else _).
  destruct (inv_fill_fresh x o t (v <| v_env := b |>) i f) as [I2 E]; [by apply inv_env|done|..|by split].
  1-3: unfold f; by destruct (has_flag flags VFS_O_TRUNC).
  unfold file_ok, f. destruct (has_flag flags VFS_O_TRUNC), (has_flag flags VFS_O_APPEND); cbn; split_and!; done || lia.
Qed.

Lemma inv_open_memfs x o t v i sub flags :
  vfs_inv x o t v -> fresh_file v i ->
  vfs_inv x o t (open_memfs_file i sub flags v).2
  /\ g_kernel_open_files (open_memfs_file i sub flags v).2 = g_kernel_open_files v.
Proof.
  intros I Hf. unfold open_memfs_file. destruct (skip_slashes sub) as [|c nm] eqn:Hnm; [done|]. rewrite <- Hnm.
  set (name := skip_slashes sub).
  set (r := if (memfs_open (v_memfs v) name <? 0) && has_flag flags VFS_O_CREAT then _ else _).
  assert (vfs_inv x o t r.2 /\ g_kernel_open_files r.2 = g_kernel_open_files v /\ fresh_file r.2 i
          /\ (r.1 < 0 \/ bad_inode (v_memfs r.2) r.1 = false)) as (I1 & K1 & F1 & G1).
  { unfold r. pose proof (vi_mem _ _ _ _ I) as Hm.
    destruct (Z.ltb_spec (memfs_open (v_memfs v) name) 0) as [Hlt|Hge]; cbn [andb].
    2: { split; [done|]. split; [done|]. split; [done|]. right. by apply memfs_open_good. }
    destruct (has_flag flags VFS_O_CREAT); [|split; [done|split; [done|split; [done|by left]]]].
    pose proof (memfs_ok_create (v_memfs v) (v_env v) name Hm) as Hc.
    destruct (memfs_create name (v_memfs v) (v_env v)) as [[ino m'] b]. destruct Hc as (Hm' & Hmono & Hg).
    cbn [fst snd]. split; [apply inv_env, inv_set_memfs; done|]. done. }
  clearbody r. destruct r as [ino v1]. cbn [fst snd] in *.
  destruct (Z.ltb_spec ino 0) as [Hlt|Hge]; cbn [snd]; [done|]. destruct G1 as [?|Hg]; [lia|].
  set (v2 := if has_flag flags VFS_O_TRUNC then _ else _).
  assert (vfs_inv x o t v2 /\ g_kernel_open_files v2 = g_kernel_open_files v /\ fresh_file v2 i
          /\ bad_inode (v_memfs v2) ino = false) as (I2 & K2 & F2 & G2).
  { unfold v2. destruct (has_flag flags VFS_O_TRUNC); [|done].
    destruct (memfs_ok_truncate (v_memfs v1) ino (vi_mem _ _ _ _ I1)) as [T1 T2].
    split; [by apply inv_set_memfs|]. split; [done|]. split; [done|]. by apply T2. }
  clearbody v2. set (f := field_set _ _).
  assert (file_ok (v_memfs v2) f) as Hok.
  { unfold file_ok, f. cbn. split; [done|]. split; [done|].
    pose proof (memfs_size_bounds (v_memfs v2) ino (vi_mem _ _ _ _ I2)). destruct (has_flag flags VFS_O_APPEND); lia. }
  destruct (inv_fill_fresh x o t v2 i f I2 F2) as [I3 E]; [done..|]. split; [exact I3|].
  etransitivity; [exact E|exact K2].
Qed.

Lemma inv_open_device x o t v i sub flags :
  vfs_inv x o t v -> fresh_file v i ->
  vfs_inv x o t (open_device i sub flags v).2
  /\ g_kernel_open_files (open_device i sub flags v).2 = g_kernel_open_files v.
Proof.
  intros I Hf. unfold open_device. destruct (dev_lookup sub) as [kind idx].
  destruct (bool_decide _); cbn [snd]; [done|]. apply inv_fill_fresh; done.
Qed.

Lemma inv_open_backend x o t v i m sub flags :
  vfs_inv x o t v -> fresh_file v i ->
  vfs_inv x o t (open_backend i m sub flags v).2
  /\ g_kernel_open_files (open_backend i m sub flags v).2 = g_kernel_open_files v.
Proof.
  intros I Hf. unfold open_backend. destruct (m_backend m); try done.
  - apply inv_open_buffer; [done..|]. intros buf size owns. unfold with_owner.
    destruct (initrd_lookup sub (v_env v)) as [[buf' size']|] eqn:E; [|done]. intros [= <- <- <-].
    by apply (initrd_data _ _ _ _ E).
  - by apply inv_open_regular.
  - by apply inv_open_memfs.
  - by apply inv_open_regular.
  - destruct (procfs_read_file sub (v_env v)) as [r b] eqn:E.
    apply inv_open_buffer; [by apply inv_env|done..|]. intros buf size owns. unfold with_owner.
    destruct r as [[buf' size']|]; [|done]. intros [= <- <- <-]. by apply (procfs_data _ _ _ _ _ E).
  - destruct (sysfs_read_file sub (v_env v)) as [r b] eqn:E.
    apply inv_open_buffer; [by apply inv_env|done..|]. intros buf size owns. unfold with_owner.
    destruct r as [[buf' size']|]; [|done]. intros [= <- <- <-]. by apply (sysfs_data _ _ _ _ _ E).
  - destruct (bootfs_read_file sub (v_env v)) as [r b] eqn:E.
    apply inv_open_buffer; [by apply inv_env|done..|]. intros buf size owns ->. by apply (bootfs_data _ _ _ _ _ _ E).
  - by apply inv_open_device.
Qed.
End inv.

#[global] Arguments cnt : simpl never.
#[global] Arguments ends : simpl never.
#[global] Arguments plus_ref : simpl never.
