(* ===== verification/VfsOps.v ===== *)
(** Every call of [src/fs/vfs.c] keeps the invariant of [VfsInv]. *)

From S2P Require Import Prelude CString Path Mounts Memfs ProcessData VfsData Vfs VfsPipe VfsInv.

Section ops.
Context {B : Type} `{VfsEnvLaws B}.
Implicit Types (v : vfs B) (s : vst B) (t : list Z) (o : Z -> Z).

Definition st_inv o s : Prop := vfs_inv None o (fd_table_for_process s) (vs s).

(** The same caller; a process leaves the kernel's table alone. *)
Definition same_who s s' : Prop :=
  match cur s, cur s' with
  | None, None => True
  | Some _, Some _ => g_kernel_open_files (vs s') = g_kernel_open_files (vs s)
  | _, _ => False
  end.

Definition keeps_inv s s' : Prop := (forall o, st_inv o s -> st_inv o s') /\ same_who s s'.

Lemma keeps_inv_refl s : keeps_inv s s.
Proof. split; [done|]. unfold same_who. by destruct (cur s). Qed.

(** A change of the VFS state under an unchanged table. *)
Lemma keeps_vs s v :
  (forall o t, vfs_inv None o t (vs s) -> vfs_inv None o t v) ->
  g_kernel_open_files v = g_kernel_open_files (vs s) -> keeps_inv s (s <| vs := v |>).
Proof.
  intros Hv Hk. split.
  - intros o I. unfold st_inv in *.
    assert (fd_table_for_process (s <| vs := v |>) = fd_table_for_process s) as ->.
    { unfold fd_table_for_process. cbn. by rewrite Hk. }
    by apply Hv.
  - unfold same_who. cbn. by destruct (cur s).
Qed.

Lemma table_set t s : fd_table_for_process (set_fd_table t s) = t.
Proof. unfold fd_table_for_process, set_fd_table. by destruct s as [[p|] v]. Qed.

Lemma vs_set x o u t s : vfs_inv x o u (vs s) -> vfs_inv x o u (vs (set_fd_table t s)).
Proof. unfold set_fd_table. destruct s as [[p|] v]; [done|]. by apply inv_ext. Qed.

Lemma same_who_set t s s' : same_who s s' -> same_who s (set_fd_table t s').
Proof. unfold same_who, set_fd_table. destruct s as [[p|] v], s' as [[p'|] v']; done. Qed.

Lemma same_who_vs s v : g_kernel_open_files v = g_kernel_open_files (vs s) -> same_who s (s <| vs := v |>).
Proof. unfold same_who. intros E. cbn. by destruct (cur s). Qed.

Lemma lookup_file o s fd i :
  st_inv o s -> fd_lookup s fd = Some i ->
  table_slot fd /\ file_slot i /\ aget (fd_table_for_process s) fd = handle i /\ f_used (file (vs s) i) = true
  /\ file_ok (v_memfs (vs s)) (file (vs s) i).
Proof.
  intros I Hl. destruct (lookup_spec _ _ _ _ _ _ I Hl) as (? & ? & ? & ?). split_and!; try done.
  by apply (vi_file _ _ _ _ I).
Qed.

Lemma fd_alloc_spec o s :
  st_inv o s -> 0 <= process_fd_alloc s ->
  table_slot (process_fd_alloc s) /\ aget (fd_table_for_process s) (process_fd_alloc s) = 0.
Proof.
  intros I. unfold process_fd_alloc.
  destruct (find_index _ _) as [i|] eqn:Hf; [|lia]. intros _.
  apply find_index_Some in Hf as (Hi & E%Z.eqb_eq & _). destruct (vi_len _ _ _ _ I) as (Hl & _). rewrite Hl in Hi.
  by split.
Qed.

(** ** Calls that change one file *)

(** The calls that change a file in place need the invariant only to know the file. *)
Lemma keeps_file s fd i f :
  fd_lookup s fd = Some i ->
  (forall o, st_inv o s -> f_used f = f_used (file (vs s) i) /\ f_refcount f = f_refcount (file (vs s) i)
     /\ f_u f = f_u (file (vs s) i) /\ file_ok (v_memfs (vs s)) f) ->
  keeps_inv s (s <| vs := set_file i f (vs s) |>).
Proof.
  intros Hl Hf. split; [|by apply same_who_vs].
  intros o I. destruct (Hf o I) as (Hu & Hr & Eu & Hok). destruct (lookup_file o s fd i I Hl) as (_ & Hi & _).
  unfold st_inv in *. change (fd_table_for_process (s <| vs := set_file i f (vs s) |>)) with (fd_table_for_process s).
  cbn. apply inv_set_file; [done..| |done]. intros b p. unfold end_of. by rewrite Hu, Eu.
Qed.

Lemma keeps_close fd s : keeps_inv s (close_fd fd s).
Proof.
  unfold close_fd. destruct (fd_close_on_table (fd_table_for_process s) fd (vs s)) as [t v] eqn:E. split.
  - intros o I. pose proof (inv_fd_close _ _ _ _ fd I) as (Hi & _ & _). rewrite E in Hi. cbn [fst snd] in Hi.
    unfold st_inv. rewrite table_set. by apply vs_set.
  - apply same_who_set, same_who_vs. unfold fd_close_on_table in E.
    destruct (fd_lookup_on_table _ fd) as [i|]; injection E as <- <-; [apply file_release_ktab|done].
Qed.

Lemma keeps_fcntl fd cmd arg s : keeps_inv s (vfs_fcntl fd cmd arg s).2.
Proof.
  unfold vfs_fcntl. destruct (fd_lookup s fd) as [i|] eqn:El; [|apply keeps_inv_refl].
  destruct (cmd =? VFS_F_GETFL); [apply keeps_inv_refl|]. destruct (cmd =? VFS_F_SETFL); [|apply keeps_inv_refl].
  cbn [snd]. apply (keeps_file s fd i); [done|]. intros o I.
  destruct (lookup_file o s fd i I El) as (_ & _ & _ & _ & Hok). done.
Qed.

Lemma keeps_ioctl fd request arg pointee s : keeps_inv s (vfs_ioctl fd request arg pointee s).2.
Proof.
  unfold vfs_ioctl. destruct (request =? VFS_KDSETMODE).
  - set (mode := if arg <=? 0xFFFF then arg else pointee). destruct (negb (mode =? _) && _); [apply keeps_inv_refl|].
    cbn [snd]. apply keeps_vs; [|done]. intros o t. by apply inv_ext.
  - destruct (fd_lookup s fd) as [i|]; [|apply keeps_inv_refl].
    repeat match goal with |- context [if ?c then _ else _] => destruct c; try apply keeps_inv_refl end.
Qed.

Lemma keeps_chdir path s : keeps_inv s (vfs_chdir path s).2.
Proof.
  unfold vfs_chdir. destruct (resolve_path path s) as [[[abs m] sub]|]; [|apply keeps_inv_refl].
  destruct (backend_stat m sub (vs s)) as [st|]; [|apply keeps_inv_refl].
  destruct (negb _); [apply keeps_inv_refl|]. destruct (kstrncpy _ _ _) as [c rc]. cbn [snd].
  split.
  - intros o. unfold st_inv, set_cwd, fd_table_for_process. destruct s as [[p|] v]; [done|]. by apply inv_ext.
  - unfold same_who, set_cwd. by destruct s as [[p|] v].
Qed.

Lemma fb_size_bounds (b : B) : 0 <= fb_byte_size b < 2 ^ 64.
Proof.
  unfold fb_byte_size. destruct (_ || _); [lia|]. pose proof (u64_range (fb_pitch (fb_info b) * fb_height (fb_info b))) as Hr.
  unfold is_u64 in Hr. lia.
Qed.

Lemma clamp_bounds size pos count : pos < size -> 0 <= count -> 0 <= clamp_count size pos count <= size - pos.
Proof. intros. unfold clamp_count. destruct (Z.ltb_spec (size - pos) count); lia. Qed.

(** A new position within bounds. *)
Definition pos_ok (m : memfs) (b : B) (f : vfs_file_t) (pos : Z) : Prop :=
  match f_u f with
  | URegular _ size _ _ => 0 <= pos <= size
  | UMemfs _ => 0 <= pos <= 2 ^ 62
  | UPipe _ _ _ => True
  | UDevice _ _ => 0 <= pos < 2 ^ 64
  end.

Lemma file_ok_pos m (b : B) f pos : file_ok m f -> pos_ok m b f pos -> file_ok m (f <| f_pos := pos |>).
Proof.
  unfold file_ok, pos_ok. cbn. destruct (f_u f); [|tauto..].
  intros (? & ? & ? & ? & ? & ? & ?) ?. split_and!; done || lia.
Qed.

Lemma keeps_pos s fd i pos :
  fd_lookup s fd = Some i ->
  (file_ok (v_memfs (vs s)) (file (vs s) i) -> memfs_ok (v_memfs (vs s)) ->
   pos_ok (v_memfs (vs s)) (v_env (vs s)) (file (vs s) i) pos) ->
  keeps_inv s (s <| vs := set_file i (file (vs s) i <| f_pos := pos |>) (vs s) |>).
Proof.
  intros El Hp. apply (keeps_file s fd i); [done|]. intros o I.
  destruct (lookup_file o s fd i I El) as (_ & _ & _ & _ & Hok). split_and!; try done.
  apply (file_ok_pos _ (v_env (vs s))); [done|]. apply Hp; [done|]. apply (vi_mem _ _ _ _ I).
Qed.

Lemma keeps_seek fd offset whence s : 0 <= offset < 2 ^ 64 -> keeps_inv s (vfs_seek fd offset whence s).2.
Proof.
  intros Ho. unfold vfs_seek. destruct (fd_lookup s fd) as [i|] eqn:El; [|apply keeps_inv_refl].
  case_bool_decide as Hpipe; [apply keeps_inv_refl|]. set (f := file (vs s) i) in *.
  set (pos := if whence =? VFS_SEEK_SET then Some offset else _).
  assert (forall p, pos = Some p -> 0 <= p) as Hpos.
  { intros p. unfold pos. repeat (match goal with |- context [if ?c then _ else _] => destruct c end); intros [= <-];
      try lia; apply u64_range. }
  destruct pos as [p|]; [|apply keeps_inv_refl]. specialize (Hpos p eq_refl). cbn [snd].
  apply (keeps_pos s fd i); [done|]. fold f. intros Hok Hm.
  set (q := if size_for_seek f (vs s) <? p then _ else _).
  assert (0 <= size_for_seek f (vs s) -> 0 <= q <= size_for_seek f (vs s)) as Hq.
  { unfold q. destruct (Z.ltb_spec (size_for_seek f (vs s)) p); lia. }
  unfold pos_ok, file_ok, size_for_seek in *. destruct (f_u f) as [buf sz cap ow|ino|po r w|k idx] eqn:Eu.
  - destruct Hok as (H1 & H2 & H3 & H4 & H5 & _). destruct (f_backend f); try done; cbn [reg_size] in *; apply Hq; lia.
  - destruct Hok as (Hb & _). rewrite Hb in Hq. cbn [u_inode] in Hq.
    pose proof (memfs_size_bounds (v_memfs (vs s)) ino Hm). lia.
  - done.
  - destruct Hok as (Hb & _). rewrite Hb in Hq. cbn [u_kind] in Hq.
    pose proof (fb_size_bounds (v_env (vs s))). destruct (bool_decide (k = VFS_DEV_FB0)); lia.
Qed.

(** ** Reading *)

Lemma memfs_read_len m ino pos count :
  memfs_ok m -> 0 <= pos -> zlen (memfs_read m ino pos count) <= Z.max 0 (memfs_size m ino - pos).
Proof.
  intros Hok Hp. rewrite memfs_read_content by done. unfold memfs_size.
  destruct (bad_inode m ino) eqn:Hb; [change (zlen []) with 0; lia|].
  pose proof (zlen_content _ (memfs_ok_get _ _ Hok Hb)) as Hz. fold (content m ino) in Hz.
  unfold zlen in *. rewrite length_take, length_drop. lia.
Qed.

(** The pipe of an open end is in use and well formed. *)
Lemma file_pipe_ok o s fd i p :
  st_inv o s -> fd_lookup s fd = Some i -> u_pipe (f_u (file (vs s) i)) = Some p -> pipe_slot p /\ pipe_ok (pipe (vs s) p).
Proof.
  intros I El Eu. destruct (lookup_file o s fd i I El) as (_ & Hi & _ & Hu & Hok). unfold file_ok in Hok.
  destruct (f_u (file (vs s) i)) as [| |po r w|] eqn:E; try done. cbn [u_pipe] in Eu. subst po.
  destruct Hok as (_ & -> & p' & [= <-] & Hp).
  pose proof (vi_pipe _ _ _ _ I p Hp) as Ip.
  assert (p_used (pipe (vs s) p) = true) as Hpu.
  { destruct (p_used (pipe (vs s) p)); [done|]. destruct Ip as [E1 E2].
    pose proof (ends_pos r p i (vs s) Hi) as Hpos. rewrite (end_of_pipe _ _ p _ r) in Hpos by done.
    rewrite bool_decide_true in Hpos by done. specialize (Hpos ltac:(by destruct r)). destruct r; lia. }
  rewrite Hpu in Ip. by destruct Ip.
Qed.

Lemma keeps_pipe_data s fd i p q :
  fd_lookup s fd = Some i -> u_pipe (f_u (file (vs s) i)) = Some p ->
  (pipe_ok (pipe (vs s) p) -> pipe_ok q /\ same_ends (pipe (vs s) p) q) ->
  keeps_inv s (s <| vs := set_pipe p q (vs s) |>).
Proof.
  intros El Eu Hq. split; [|by apply same_who_vs]. intros o I.
  destruct (file_pipe_ok o s fd i p I El Eu) as [Hp Hpok]. destruct (Hq Hpok) as [Q1 Q2].
  unfold st_inv in *. change (fd_table_for_process (s <| vs := set_pipe p q (vs s) |>)) with (fd_table_for_process s).
  by apply inv_set_pipe.
Qed.

Lemma pos_range m f : file_ok m f -> 0 <= f_pos f \/ exists po r w, f_u f = UPipe po r w.
Proof.
  unfold file_ok. destruct (f_u f); intros; [left; lia|left; lia|right; eauto|left; lia].
Qed.

Lemma keeps_read fd buf count s : 0 <= count -> keeps_inv s (vfs_read fd buf count s).2.
Proof.
  intros Hc. unfold vfs_read. destruct (fd_lookup s fd) as [i|] eqn:El; [|apply keeps_inv_refl].
  set (f := file (vs s) i). destruct (negb buf || _); [apply keeps_inv_refl|].
  assert (keeps_inv s (match reg_buf (f_u f) with
          | None => ([], s)
          | Some (_, data) =>
              if reg_size (f_u f) <=? f_pos f then ([], s) else
              (copy_out data (f_pos f) (Z.to_nat (clamp_count (reg_size (f_u f)) (f_pos f) count)),
               s <| vs := set_file i (f <| f_pos := u64 (f_pos f + clamp_count (reg_size (f_u f)) (f_pos f) count) |>) (vs s) |>)
          end).2) as Hreg.
  { destruct (reg_buf (f_u f)) as [[a data]|] eqn:Eb; [|apply keeps_inv_refl].
    destruct (Z.leb_spec (reg_size (f_u f)) (f_pos f)); [apply keeps_inv_refl|]. cbn [snd].
    apply (keeps_pos s fd i); [done|]. fold f. intros Hok _. unfold file_ok, pos_ok in *.
    destruct (f_u f) as [b0 sz cap ow| | |]; try done. cbn [reg_size] in *. destruct Hok as (_ & _ & _ & ? & ? & ? & ?).
    pose proof (clamp_bounds sz (f_pos f) count ltac:(lia) Hc). rewrite u64_id by (unfold is_u64; lia). lia. }
  destruct (f_backend f) eqn:Eb; try exact Hreg.
  - cbn [snd]. apply (keeps_pos s fd i); [done|]. fold f. intros Hok Hm. unfold file_ok, pos_ok in *.
    destruct (f_u f) as [b0 sz cap ow|ino|po r w|k idx].
    + by destruct Hok as (_ & ? & _).
    + destruct Hok as (_ & _ & Hp). cbn [u_inode].
      pose proof (memfs_read_len (v_memfs (vs s)) ino (f_pos f) count Hm ltac:(lia)).
      pose proof (memfs_size_bounds (v_memfs (vs s)) ino Hm).
      pose proof (zlen_nonneg (memfs_read (v_memfs (vs s)) ino (f_pos f) count)).
      rewrite u64_id by (unfold is_u64; lia). lia.
    + done.
    + destruct Hok as [? _]. congruence.
  - set (size := fb_byte_size (v_env (vs s))). destruct (bool_decide _ || _); cbn [orb]; [apply keeps_inv_refl|].
    destruct (Z.leb_spec size (f_pos f)); [apply keeps_inv_refl|]. cbn [snd].
    apply (keeps_pos s fd i); [done|]. fold f. intros Hok _. unfold file_ok, pos_ok in *.
    destruct (f_u f) as [b0 sz cap ow|ino|po r w|k idx].
    + by destruct Hok as (_ & _ & ? & _).
    + destruct Hok as [? _]. congruence.
    + done.
    + pose proof (clamp_bounds size (f_pos f) count ltac:(lia) Hc). pose proof (fb_size_bounds (v_env (vs s))).
      rewrite u64_id by (unfold is_u64; lia). lia.
  - destruct (u_pipe (f_u f)) as [p|] eqn:Ep; [|apply keeps_inv_refl].
    destruct (negb _); [apply keeps_inv_refl|].
    destruct (pipe_read_loop _ (pipe (vs s) p)) as [got q] eqn:Er. cbn [snd].
    apply (keeps_pipe_data s fd i p); [done|done|]. intros Hok.
    pose proof (pipe_read_loop_spec (Z.to_nat (Z.min count (p_size (pipe (vs s) p)))) _ Hok) as Hs.
    rewrite Er in Hs. by destruct Hs as (_ & ? & _ & ?).
Qed.

(** ** Writing *)

Lemma ensure_spec f need b m :
  file_ok m f -> (exists buf sz cap ow, f_u f = URegular buf sz cap ow) -> 0 <= need <= 2 ^ 63 ->
  exists f2 b2,
    (ensure_regular_capacity f need b = Some (-1, f, b2))
    \/ (ensure_regular_capacity f need b = Some (0, f2, b2) /\
        exists buf' cap' ow', f2 = f <| f_u := URegular buf' (reg_size (f_u f)) cap' ow' |>
          /\ file_ok m f2 /\ need <= cap' /\ (0 < need -> buf' <> None)
          /\ take (Z.to_nat (reg_size (f_u f))) (bytes_of buf')
             = take (Z.to_nat (reg_size (f_u f))) (bytes_of (reg_buf (f_u f)))).
Proof.
  intros Hok (buf & sz & cap & ow & Eu) Hneed. pose proof Hok as Hok0. unfold file_ok in Hok. rewrite Eu in Hok.
  destruct Hok as (H1 & H2 & H3 & H4 & H5 & H6 & H7). unfold ensure_regular_capacity.
  rewrite bool_decide_false by tauto. rewrite Eu. cbn [reg_capacity reg_size reg_buf reg_owns].
  destruct (Z.leb_spec need cap) as [Hle|Hgt].
  { exists f, b. right. split; [done|]. exists buf, cap, ow. rewrite <- Eu. split; [by destruct f|]. split; [done|].
    split; [lia|]. split; [|done]. intros Hn ->. cbn in H6. change (zlen (@nil Z)) with 0 in H6. lia. }
  set (c0 := if cap =? 0 then 64 else cap).
  assert (0 < c0 < 2 ^ 64 /\ cap <= c0) as [Hc0 Hcc] by (unfold c0; destruct (Z.eqb_spec cap 0); lia).
  destruct (grow_cap_total c0 need Hc0) as (c & -> & Hc1 & Hc2 & _); [lia|].
  destruct (kmalloc c b) as [[[a fr]|] b1] eqn:Hk; [|exists f, b1; by left].
  destruct (kmalloc_block _ _ _ _ _ Hk) as (Hf & _ & Hc62); [lia|].
  eexists _, _. right. split; [reflexivity|].
  set (data := copy_in fr 0 (bytes_of buf) (Z.to_nat sz)). exists (Some (a, data)), c, true.
  split; [done|]. unfold zlen in *.
  assert (data = take (Z.to_nat sz) (bytes_of buf) ++ drop (Z.to_nat sz) fr) as Hdata
    by (apply copy_in_prefix; lia).
  assert (length data = length fr) as Hlen by apply length_copy_in.
  split; [unfold file_ok; cbn; unfold zlen; rewrite Hlen; split_and!; done || lia|].
  split; [lia|]. split; [done|]. cbn [bytes_of]. rewrite Hdata.
  rewrite take_app_le by (rewrite length_take; lia). rewrite take_take. f_equal. lia.
Qed.

(** Position of an append, then the file that is written. *)
Lemma append_pos_ok v f :
  file_ok (v_memfs v) f -> memfs_ok (v_memfs v) -> file_ok (v_memfs v) (append_pos f v).
Proof.
  intros Hok Hm. unfold append_pos. destruct (negb _); [done|].
  pose proof (memfs_size_bounds (v_memfs v) (u_inode (f_u f)) Hm) as Hs.
  assert (match f_backend f with
          | VFS_BACKEND_MEMFS => f <| f_pos := memfs_size (v_memfs v) (u_inode (f_u f)) |>
          | VFS_BACKEND_PIPE => f
          | _ => f <| f_pos := reg_size (f_u f) |>
          end = f \/ exists pos, pos_ok (v_memfs v) (v_env v) f pos /\
          match f_backend f with
          | VFS_BACKEND_MEMFS => f <| f_pos := memfs_size (v_memfs v) (u_inode (f_u f)) |>
          | VFS_BACKEND_PIPE => f
          | _ => f <| f_pos := reg_size (f_u f) |>
          end = f <| f_pos := pos |>) as [->|(pos & Hpos & ->)]; [|done|by apply (file_ok_pos _ (v_env v))].
  unfold file_ok, pos_ok in *. destruct (f_u f) as [buf sz cap ow|ino|po r w|k idx]; cbn [reg_size u_inode] in *.
  - destruct Hok as (H1 & H2 & H3 & H4 & H5 & H6 & H7).
    destruct (f_backend f); try done; right; exists sz; (split; [lia|done]).
  - destruct Hok as (-> & _). right. eexists. split; [|done]. lia.
  - destruct Hok as (-> & _). by left.
  - destruct Hok as (-> & _). right. exists 0. split; [lia|done].
Qed.

Lemma append_pos_same v f :
  f_used (append_pos f v) = f_used f /\ f_refcount (append_pos f v) = f_refcount f
  /\ f_u (append_pos f v) = f_u f /\ f_backend (append_pos f v) = f_backend f.
Proof. unfold append_pos. destruct (negb _); [done|]. destruct (f_backend f) eqn:E; split_and!; try done; by rewrite <- E. Qed.

(** The part of [vfs_write] after the O_APPEND adjustment, for the file [f] in slot [i]. *)
Definition write_at (i : Z) (src : list Z) (count : Z) s : option (Z * vst B) :=
  let v := vs s in
  let f := file v i in
  match f_backend f with
  | VFS_BACKEND_MEMFS =>
      match memfs_write (u_inode (f_u f)) (f_pos f) (Some src) count (v_memfs v) (v_env v) with
      | None => None
      | Some (wr, m, b) =>
          let v := v <| v_memfs := m |> <| v_env := b |> in
          Some (wr, s <| vs := set_file i (f <| f_pos := u64 (f_pos f + wr) |>) v |>)
      end
  | VFS_BACKEND_PIPE =>
      match u_pipe (f_u f) with
      | None => Some (0, s)
      | Some p => if negb (u_can_write (f_u f)) || (p_readers (pipe v p) =? 0) then Some (0, s) else
                  let '(wr, q) := pipe_write_loop (take (Z.to_nat count) src) (pipe v p) in
                  Some (wr, s <| vs := set_pipe p q v |>)
      end
  | VFS_BACKEND_DEVFS =>
      let size := fb_byte_size (v_env v) in
      if bool_decide (u_kind (f_u f) <> VFS_DEV_FB0) || (fb_addr (fb_info (v_env v)) =? 0) || (size <=? f_pos f)
      then Some (0, s) else
      let count := clamp_count size (f_pos f) count in
      let v := v <| v_env := set_fb_mem (copy_in (fb_mem (v_env v)) (f_pos f) src (Z.to_nat count)) (v_env v) |> in
      Some (count, s <| vs := set_file i (f <| f_pos := u64 (f_pos f + count) |>) v |>)
  | VFS_BACKEND_INITRD | VFS_BACKEND_PROCFS | VFS_BACKEND_SYSFS | VFS_BACKEND_BOOTFS => Some (0, s)
  | _ =>
      match ensure_regular_capacity f (u64 (f_pos f + count)) (v_env v) with
      | None => None
      | Some (rc, f, b) =>
          let v := v <| v_env := b |> in
          if negb (rc =? 0) then Some (0, s <| vs := v |>) else
          Some (count, s <| vs := set_file i (regular_store f src count) v |>)
      end
  end.

Lemma vfs_write_at fd i src count s :
  fd_lookup s fd = Some i -> file_slot i -> length (g_open_files (vs s)) = 128%nat ->
  vfs_write fd (Some src) count s
  = if negb (has_flag (f_mode (file (vs s) i)) VFS_MODE_WRITE) then Some (0, s)
    else write_at i src count (s <| vs := set_file i (append_pos (file (vs s) i) (vs s)) (vs s) |>).
Proof.
  intros El Hi Hl. unfold vfs_write. rewrite El. destruct (negb _); [done|].
  unfold write_at. cbn [vs field_set]. rewrite file_set, decide_True by done. done.
Qed.

(** What a write keeps, when the caller's buffer has a possible length. *)
Definition writes s (r : option (Z * vst B)) : Prop := exists n s', r = Some (n, s') /\ keeps_inv s s'.

Lemma same_who_trans s1 s2 s3 : same_who s1 s2 -> same_who s2 s3 -> same_who s1 s3.
Proof. unfold same_who. destruct (cur s1), (cur s2), (cur s3); try done. intros; etransitivity; eassumption. Qed.
Lemma keeps_inv_trans s1 s2 s3 : keeps_inv s1 s2 -> keeps_inv s2 s3 -> keeps_inv s1 s3.
Proof. intros [A B1] [C D]. split; [auto|]. by eapply same_who_trans. Qed.

Lemma write_memfs s fd i src :
  fd_lookup s fd = Some i -> f_backend (file (vs s) i) = VFS_BACKEND_MEMFS -> (exists o, st_inv o s) ->
  zlen src <= 2 ^ 62 -> writes s (write_at i src (zlen src) s).
Proof.
  intros El Eb [o0 I0] Hsrc. unfold write_at. rewrite Eb. set (f := file (vs s) i) in *.
  destruct (lookup_file o0 s fd i I0 El) as (_ & Hi & _ & Hu & Hok). fold f in Hu, Hok.
  unfold file_ok in Hok. destruct (f_u f) as [b0 sz cap ow|ino|po r w|k idx] eqn:Eu.
  1: by destruct Hok as (_ & ? & _). 2,3: by destruct Hok as [? _]; congruence.
  destruct Hok as (_ & Hb & Hp). cbn [u_inode]. pose proof (vi_mem _ _ _ _ I0) as Hm.
  destruct (memfs_write_spec (v_memfs (vs s)) (v_env (vs s)) ino (f_pos f) src Hm Hb ltac:(lia) ltac:(lia))
    as (wr & m' & b' & -> & Hm' & Hne & Hcase).
  eexists _, _. split; [reflexivity|].
  assert (forall j, bad_inode (v_memfs (vs s)) j = false -> bad_inode m' j = false) as Hmono.
  { intros j. apply bad_inode_mono. intros k Hk Huk. destruct (decide (k = ino)) as [->|Hk2]; [|by rewrite Hne by lia].
    destruct Hcase as [(_ & -> & _)|(_ & Hu' & _)]; done. }
  assert (0 <= f_pos f + wr <= 2 ^ 62) as Hpos.
  { destruct Hcase as [(-> & _)|(-> & Hu' & _ & Hs' & _)]; [lia|].
    pose proof (memfs_size_bounds m' ino Hm') as Hb2. unfold memfs_size in Hb2. rewrite (Hmono ino Hb) in Hb2.
    pose proof (zlen_nonneg src). lia. }
  rewrite u64_id by (unfold is_u64; lia).
  apply (keeps_vs s). 2: done.
  intros o t I. apply (inv_set_file None o t (vs s <| v_memfs := m' |> <| v_env := b' |>));
    [by apply inv_env, inv_set_memfs|done|done|done| |].
  - intros b p. unfold end_of. change (file (vs s <| v_memfs := m' |> <| v_env := b' |>) i) with f. cbn. by rewrite Eu.
  - intros _. unfold file_ok. cbn. rewrite Eu. split; [done|]. split; [by apply Hmono|done].
Qed.

Lemma write_pipe s fd i src :
  fd_lookup s fd = Some i -> f_backend (file (vs s) i) = VFS_BACKEND_PIPE -> writes s (write_at i src (zlen src) s).
Proof.
  intros El Eb. unfold write_at. rewrite Eb. set (f := file (vs s) i) in *.
  destruct (u_pipe (f_u f)) as [p|] eqn:Ep; [|exists 0, s; split; [done|apply keeps_inv_refl]].
  destruct (_ || _); [exists 0, s; split; [done|apply keeps_inv_refl]|].
  destruct (pipe_write_loop (take (Z.to_nat (zlen src)) src) (pipe (vs s) p)) as [wr q] eqn:Er.
  eexists _, _. split; [reflexivity|]. apply (keeps_pipe_data s fd i p); [done|done|]. intros Hok.
  pose proof (pipe_write_loop_spec (take (Z.to_nat (zlen src)) src) _ Hok) as Hs. rewrite Er in Hs.
  by destruct Hs as (_ & ? & _ & ?).
Qed.

Lemma write_device s fd i src :
  fd_lookup s fd = Some i -> f_backend (file (vs s) i) = VFS_BACKEND_DEVFS -> (exists o, st_inv o s) ->
  writes s (write_at i src (zlen src) s).
Proof.
  intros El Eb [o0 I0]. unfold write_at. rewrite Eb. set (f := file (vs s) i) in *.
  destruct (lookup_file o0 s fd i I0 El) as (_ & Hi & _).
  set (size := fb_byte_size (v_env (vs s))). destruct (bool_decide _ || _); cbn [orb];
    [exists 0, s; split; [done|apply keeps_inv_refl]|].
  destruct (Z.leb_spec size (f_pos f)) as [Hle|Hlt]; [exists 0, s; split; [done|apply keeps_inv_refl]|].
  eexists _, _. split; [reflexivity|]. set (b := set_fb_mem _ _).
  apply keeps_vs; [|done]. intros o t I.
  apply (inv_set_file None o t (vs s <| v_env := b |>)); [by apply inv_env|done|done|done|done|].
  intros Hu. pose proof (vi_file _ _ _ _ I i Hi Hu) as Hok. apply (file_ok_pos _ (v_env (vs s))); [exact Hok|].
  unfold file_ok, pos_ok in *. fold f in Hok. pose proof (zlen_nonneg src) as Hc.
  destruct (f_u f) as [b0 sz cap ow|ino|po r w|k idx].
  - by destruct Hok as (_ & _ & ? & _).
  - destruct Hok as [? _]. congruence.
  - done.
  - pose proof (clamp_bounds size (f_pos f) (zlen src) Hlt Hc). pose proof (fb_size_bounds (v_env (vs s))).
    rewrite u64_id by (unfold is_u64; lia). lia.
Qed.

(** The stores into a buffer with room. *)
Lemma regular_store_ok m f src buf sz cap ow :
  file_ok m f -> f_u f = URegular buf sz cap ow -> f_pos f + zlen src <= cap ->
  file_ok m (regular_store f src (zlen src)).
Proof.
  intros Hok Eu Hroom. unfold file_ok in Hok. rewrite Eu in Hok. destruct Hok as (H1 & H2 & H3 & H4 & H5 & H6 & H7).
  pose proof (zlen_nonneg src). unfold regular_store. rewrite Eu. unfold file_ok. cbn.
  rewrite u64_id by (unfold is_u64; lia).
  assert (zlen (bytes_of (match buf with
                | Some (a, d) => Some (a, copy_in d (f_pos f) src (Z.to_nat (zlen src)))
                | None => None end)) = zlen (bytes_of buf)) as Hz.
  { destruct buf as [[a d]|]; [|done]. cbn [bytes_of]. unfold zlen. by rewrite length_copy_in. }
  rewrite Hz. destruct (Z.ltb_spec sz (f_pos f + zlen src)); split_and!; done || lia.
Qed.

Lemma write_regular s fd i src :
  fd_lookup s fd = Some i -> (exists o, st_inv o s) -> zlen src <= 2 ^ 62 ->
  (exists buf sz cap ow, f_u (file (vs s) i) = URegular buf sz cap ow) ->
  writes s (match ensure_regular_capacity (file (vs s) i) (u64 (f_pos (file (vs s) i) + zlen src)) (v_env (vs s)) with
            | None => None
            | Some (rc, f, b) =>
                let v := vs s <| v_env := b |> in
                if negb (rc =? 0) then Some (0, s <| vs := v |>) else
                Some (zlen src, s <| vs := set_file i (regular_store f src (zlen src)) v |>)
            end).
Proof.
  intros El [o0 I0] Hsrc Hreg. set (f := file (vs s) i) in *. pose proof (zlen_nonneg src).
  destruct (lookup_file o0 s fd i I0 El) as (_ & Hi & _ & Hu & Hok). fold f in Hu, Hok.
  assert (0 <= f_pos f <= 2 ^ 62) as Hp.
  { unfold file_ok in Hok. destruct Hreg as (buf & sz & cap & ow & Eu). rewrite Eu in Hok.
    destruct Hok as (_ & _ & _ & ? & ? & ? & ?). lia. }
  rewrite u64_id by (unfold is_u64; lia).
  destruct (ensure_spec f (f_pos f + zlen src) (v_env (vs s)) (v_memfs (vs s)) Hok Hreg ltac:(lia))
    as (f2 & b2 & [->|[-> (buf' & cap' & ow' & Ef2 & Hok2 & Hroom & _)]]).
  - eexists _, _. split; [reflexivity|]. apply keeps_vs; [|done]. intros o t. apply inv_env.
  - eexists _, _. split; [reflexivity|]. apply keeps_vs; [|done]. intros o t I.
    assert (f_u f2 = URegular buf' (reg_size (f_u f)) cap' ow') as Eu2 by (by rewrite Ef2).
    destruct Hreg as (buf & sz & cap & ow & Eu).
    assert (forall g, (g = f2 \/ g = regular_store f2 src (zlen src)) ->
            f_used g = f_used f /\ f_refcount g = f_refcount f /\ no_pipe g) as Hg.
    { intros g [->| ->]; [rewrite Ef2; done|]. unfold regular_store, no_pipe. rewrite Eu2, Ef2. done. }
    destruct (Hg (regular_store f2 src (zlen src))) as (G1 & G2 & G3); [by right|].
    apply (inv_set_file None o t (vs s <| v_env := b2 |>)); [by apply inv_env|done|done|done| |].
    + intros b p. rewrite no_pipe_end by done. symmetry. apply no_pipe_end. unfold no_pipe.
      change (u_pipe (f_u f) = None). by rewrite Eu.
    + intros _. apply (regular_store_ok _ f2 src buf' (reg_size (f_u f)) cap' ow' Hok2 Eu2).
      rewrite Ef2. exact Hroom.
Qed.

Lemma write_at_ok s fd i src :
  fd_lookup s fd = Some i -> (exists o, st_inv o s) -> zlen src <= 2 ^ 62 -> writes s (write_at i src (zlen src) s).
Proof.
  intros El Hex Hsrc. pose proof Hex as [o0 I0].
  destruct (lookup_file o0 s fd i I0 El) as (_ & Hi & _ & Hu & Hok).
  assert (f_backend (file (vs s) i) <> VFS_BACKEND_PIPE -> f_backend (file (vs s) i) <> VFS_BACKEND_MEMFS ->
          f_backend (file (vs s) i) <> VFS_BACKEND_DEVFS ->
          exists buf sz cap ow, f_u (file (vs s) i) = URegular buf sz cap ow) as Hr.
  { intros H1 H2 H3. unfold file_ok in Hok. destruct (f_u (file (vs s) i)) as [buf sz cap ow|ino|po r w|k idx].
    - eauto 10. - by destruct Hok. - by destruct Hok. - by destruct Hok. }
  destruct (f_backend (file (vs s) i)) eqn:Eb.
  all: try (unfold write_at; rewrite Eb; exists 0, s; split; [done|apply keeps_inv_refl]).
  1,2,4: pose proof (write_regular s fd i src El Hex Hsrc (Hr ltac:(done) ltac:(done) ltac:(done))) as Hw;
    unfold write_at; rewrite Eb; exact Hw.
  - by apply (write_memfs s fd).
  - by apply (write_device s fd).
  - by apply (write_pipe s fd).
Qed.

Lemma keeps_write fd src s :
  (exists o, st_inv o s) -> (forall l, src = Some l -> zlen l <= 2 ^ 62) ->
  writes s (vfs_write fd src (match src with Some l => zlen l | None => 0 end) s).
Proof.
  intros Hex Hsrc. destruct (fd_lookup s fd) as [i|] eqn:El.
  2: { unfold vfs_write. rewrite El. exists 0, s. split; [done|apply keeps_inv_refl]. }
  destruct src as [src|]; [|unfold vfs_write; rewrite El; exists 0, s; split; [done|apply keeps_inv_refl]].
  pose proof Hex as [o0 I0]. destruct (lookup_file o0 s fd i I0 El) as (_ & Hi & _ & Hu & Hok).
  pose proof (vi_len _ _ _ _ I0) as (_ & Hl & _). rewrite (vfs_write_at fd i) by done.
  destruct (negb _); [exists 0, s; split; [done|apply keeps_inv_refl]|].
  set (f := append_pos (file (vs s) i) (vs s)). set (s1 := s <| vs := _ |>).
  assert (keeps_inv s s1) as K1.
  { apply (keeps_file s fd i); [done|]. intros o I.
    destruct (append_pos_same (vs s) (file (vs s) i)) as (A1 & A2 & A3 & _).
    split_and!; try done. apply append_pos_ok; [|apply (vi_mem _ _ _ _ I)].
    by destruct (lookup_file o s fd i I El) as (_ & _ & _ & _ & ?). }
  destruct (write_at_ok s1 fd i src) as (n & s' & E & K2).
  - exact El.
  - exists o0. by apply K1.
  - by apply Hsrc.
  - exists n, s'. split; [exact E|]. by eapply keeps_inv_trans.
Qed.

(** ** New descriptors *)

(** A held file goes into a free entry of the caller's table. *)
Lemma put_fd o s fd i :
  vfs_inv None (plus_ref o i) (fd_table_for_process s) (vs s) -> (forall k, 0 <= o k) -> table_slot fd -> file_slot i ->
  aget (fd_table_for_process s) fd = 0 ->
  st_inv o (set_fd_table (aset fd (handle i) (fd_table_for_process s)) s).
Proof. intros. unfold st_inv. rewrite table_set. apply vs_set. by apply inv_put. Qed.

Lemma keeps_dup fd s : keeps_inv s (vfs_dup fd s).2.
Proof.
  unfold vfs_dup. destruct (fd_lookup s fd) as [i|] eqn:El; [|apply keeps_inv_refl].
  destruct (Z.ltb_spec (process_fd_alloc s) 0); [apply keeps_inv_refl|]. cbn [snd]. split.
  - intros o I. destruct (lookup_file o s fd i I El) as (_ & Hi & _ & Hu & _).
    destruct (fd_alloc_spec o s I ltac:(lia)) as [Ht Hz].
    assert (fd_table_for_process (s <| vs := file_ref i (vs s) |>) = fd_table_for_process s) as Et
      by (unfold fd_table_for_process; by destruct s as [[p|] v]).
    apply put_fd; rewrite ?Et; [by apply inv_file_ref|apply (vi_o _ _ _ _ I)|done..].
  - apply same_who_set, same_who_vs. done.
Qed.

Lemma keeps_dup2 oldfd newfd s : keeps_inv s (vfs_dup2 oldfd newfd s).2.
Proof.
  unfold vfs_dup2. destruct (fd_lookup s oldfd) as [i|] eqn:El; [|apply keeps_inv_refl].
  destruct (fd_valid newfd) eqn:Ev; cbn [negb]; [|apply keeps_inv_refl].
  destruct (Z.eqb_spec oldfd newfd) as [|Hne]; [apply keeps_inv_refl|]. cbn [snd].
  pose proof (keeps_close newfd s) as [Kc Kw]. split.
  - intros o I. destruct (lookup_file o s oldfd i I El) as (Ht & Hi & E & _).
    assert (table_slot newfd) as Hn.
    { unfold fd_valid in Ev. apply andb_true_iff in Ev as [E1%Z.leb_le E2%Z.ltb_lt]. done. }
    pose proof (inv_fd_close _ _ _ _ newfd I) as (_ & _ & Hg).
    set (s1 := close_fd newfd s) in *. pose proof (Kc o I) as I1.
    assert (forall k, table_slot k -> aget (fd_table_for_process s1) k
            = if decide (k = newfd) then 0 else aget (fd_table_for_process s) k) as Hg1.
    { intros k Hk. unfold s1, close_fd. rewrite <- Hg by done.
      destruct (fd_close_on_table _ _ _) as [t v]. by rewrite table_set. }
    assert (f_used (file (vs s1) i) = true) as Hu1.
    { apply (lookup_file o s1 oldfd i I1). unfold fd_lookup, fd_lookup_on_table in *.
      rewrite Hg1, decide_False by done. exact El. }
    assert (fd_table_for_process (s1 <| vs := file_ref i (vs s1) |>) = fd_table_for_process s1) as Et
      by (unfold fd_table_for_process; by destruct s1 as [[p|] v]).
    apply put_fd; rewrite ?Et; [by apply inv_file_ref|apply (vi_o _ _ _ _ I)|done..|].
    rewrite Hg1 by done. by rewrite decide_True.
  - apply same_who_set. eapply same_who_trans; [exact Kw|]. by apply same_who_vs.
Qed.

Lemma open_memfs_ktab i sub flags v :
  g_kernel_open_files (open_memfs_file i sub flags v).2 = g_kernel_open_files v.
Proof.
  unfold open_memfs_file. destruct (skip_slashes sub) as [|c nm]; [done|].
  destruct (_ && has_flag flags VFS_O_CREAT).
  - destruct (memfs_create _ _ _) as [[ino m] b]. destruct (ino <? 0), (has_flag flags VFS_O_TRUNC); done.
  - destruct (_ <? 0), (has_flag flags VFS_O_TRUNC); done.
Qed.

Lemma open_backend_ktab i m sub flags v :
  g_kernel_open_files (open_backend i m sub flags v).2 = g_kernel_open_files v.
Proof.
  unfold open_backend. destruct (m_backend m); try done; try apply open_memfs_ktab;
    unfold open_regular_buffered, open_buffer, open_device;
    repeat (match goal with |- context [match ?c with _ => _ end] => destruct c end; try done).
Qed.

Lemma file_alloc_ktab v : g_kernel_open_files (file_alloc v).2 = g_kernel_open_files v.
Proof. unfold file_alloc. by destruct (find_index _ _). Qed.

(** The file [vfs_open_flags] has filled in before it asks for a descriptor. *)
Lemma inv_opened o t v i v1 g m sub flags :
  vfs_inv None o t v -> file_alloc v = (Some i, v1) ->
  (forall f, f_used (g f) = f_used f /\ f_refcount (g f) = f_refcount f /\ f_u (g f) = f_u f
             /\ f_backend (g f) = f_backend f /\ f_pos (g f) = f_pos f) ->
  file_slot i /\ vfs_inv None (plus_ref o i) t (open_backend i m sub flags (set_file i (g (file v1 i)) v1)).2.
Proof.
  intros I Ea Hg. destruct (inv_file_alloc _ _ _ _ _ _ I Ea) as (Hi & _ & Ev1 & I1).
  pose proof (vi_len _ _ _ _ I) as (_ & Hl & _). split; [done|].
  assert (file v1 i = file_zero <| f_used := true |> <| f_refcount := 1 |>) as Ef.
  { rewrite Ev1, file_set by done. by rewrite decide_True. }
  assert (length (g_open_files v1) = 128%nat) as Hl1 by apply (vi_len _ _ _ _ I1).
  destruct (Hg (file v1 i)) as (G1 & G2 & G3 & G4 & G5). set (f := g (file v1 i)) in *.
  rewrite Ef in G1, G2, G3, G4, G5. cbn in G1, G2, G3, G4, G5.
  apply inv_open_backend.
  - apply inv_fill; [done|done|unfold no_pipe; by rewrite Ef|unfold no_pipe; by rewrite G3|by rewrite Ef|by rewrite Ef|].
    by apply file_ok_fresh.
  - unfold fresh_file. rewrite file_set, decide_True by done. done.
Qed.

Lemma table_same_ktab s v :
  g_kernel_open_files v = g_kernel_open_files (vs s) -> fd_table_for_process (s <| vs := v |>) = fd_table_for_process s.
Proof. intros E. unfold fd_table_for_process. destruct s as [[p|] w]; [done|exact E]. Qed.

Lemma keeps_open path flags s : keeps_inv s (vfs_open_flags path flags s).2.
Proof.
  unfold vfs_open_flags. destruct (resolve_path path s) as [[[abs m] sub]|]; [|apply keeps_inv_refl].
  destruct (m_read_only m && _); [apply keeps_inv_refl|].
  pose proof (file_alloc_ktab (vs s)) as K1.
  destruct (file_alloc (vs s)) as [[i|] v1] eqn:Ea; cbn [snd] in K1.
  2: { apply file_alloc_none in Ea as ->. cbn [snd]. by apply keeps_vs. }
  set (g := fun f => f <| f_flags := flags |> <| f_mode := flags_to_mode flags |>
                       <| f_path := (kstrncpy (f_path (file v1 i)) (Some sub) VFS_PATH_MAX).1 |>).
  change (set_file i _ v1) with (set_file i (g (file v1 i)) v1).
  pose proof (fun o t I => inv_opened o t (vs s) i v1 g m sub flags I Ea ltac:(done)) as Hopen.
  pose proof (open_backend_ktab i m sub flags (set_file i (g (file v1 i)) v1)) as K2.
  destruct (open_backend i m sub flags (set_file i (g (file v1 i)) v1)) as [rc v3]. cbn [snd] in Hopen, K2.
  assert (g_kernel_open_files v3 = g_kernel_open_files (vs s)) as K3 by (rewrite K2; exact K1).
  assert (keeps_inv s (s <| vs := file_release i v3 |>)) as Hfail.
  { apply keeps_vs; [|by rewrite file_release_ktab]. intros o t I. destruct (Hopen o t I) as [Hi I3].
    apply inv_file_release; [done|apply (vi_o _ _ _ _ I)|done]. }
  destruct (negb (rc =? 0)); [exact Hfail|].
  destruct (Z.ltb_spec (process_fd_alloc s) 0); [exact Hfail|]. cbn [snd]. split.
  - intros o I. destruct (Hopen o _ I) as [Hi I3]. destruct (fd_alloc_spec o s I ltac:(lia)) as [Ht Hz].
    pose proof (table_same_ktab s v3 K3) as Et.
    apply put_fd; rewrite ?Et; [done|apply (vi_o _ _ _ _ I)|done..].
  - by apply same_who_set, same_who_vs.
Qed.

(** ** Pipes *)

Lemma inv_pipe_alloc o t v p v' :
  vfs_inv None o t v -> pipe_alloc v = (Some p, v') ->
  pipe_slot p /\ g_open_files v' = g_open_files v /\ g_kernel_open_files v' = g_kernel_open_files v
  /\ p_used (pipe v' p) = true /\ p_readers (pipe v' p) = 0 /\ p_writers (pipe v' p) = 0
  /\ pipe_content (pipe v' p) = [] /\ vfs_inv (Some p) o t v'.
Proof.
  intros I. unfold pipe_alloc. destruct (find_index _ (g_pipes v)) as [k|] eqn:Hf; [|done]. intros [= -> <-].
  apply find_index_Some in Hf as (Hi & Hu%negb_true_iff & _). pose proof (vi_len _ _ _ _ I) as (_ & _ & Hl). rewrite Hl in Hi.
  fold (pipe v p) in Hu. assert (pipe_slot p) as Hp by exact Hi. set (q := field_set _ _).
  assert (pipe (set_pipe p q v) p = q) as Eq by (rewrite pipe_set by done; by rewrite decide_True).
  rewrite Eq. split_and!; try done.
  destruct I as [I1 I2 I3 I4 I5 I6 I7 I8]. split; [|exact I2|exact I3|exact I4|exact I5| | |exact I8].
  - split; [apply I1|]. split; [apply I1|]. cbn. by rewrite length_aset.
  - intros j Hj. rewrite pipe_set by done. case_decide; [|by apply I6]. exact (I6 p Hp).
  - intros j Hj. rewrite pipe_set by done. rewrite !ends_set_pipe. specialize (I7 j Hj). case_decide as D.
    + subst j. rewrite Hu in I7. destruct I7 as [E1 E2]. change (p_used q) with true. cbv iota. rewrite E1, E2.
      split; [|split; [done|split; [done|by left]]].
      split; [exact (I6 p Hp)|]. cbn. unfold VFS_PIPE_CAPACITY. split_and!; done || lia.
    + destruct (p_used (pipe v j)); [|done]. destruct I7 as (? & ? & ? & [?|?]); [done|].
      split_and!; try done. by right.
Qed.

Lemma pipe_alloc_none v v' : pipe_alloc v = (None, v') -> v' = v.
Proof. unfold pipe_alloc. destruct (find_index _ _); [done|]. by intros [= <-]. Qed.

(** A pipe without ends, and a caller that gives it up. *)
Lemma inv_pipe_free p o t v :
  vfs_inv (Some p) o t v -> pipe_slot p -> p_used (pipe v p) = true -> ends true p v = 0 -> ends false p v = 0 ->
  vfs_inv None o t (set_pipe p (pipe v p <| p_used := false |>) v).
Proof.
  intros [I1 I2 I3 I4 I5 I6 I7 I8] Hp Hu E1 E2. pose proof I1 as (_ & _ & Hl).
  split; [|exact I2|exact I3|exact I4|exact I5| | |exact I8].
  - split; [apply I1|]. split; [apply I1|]. cbn. by rewrite length_aset.
  - intros j Hj. rewrite pipe_set by done. case_decide; [exact (I6 p Hp)|by apply I6].
  - intros j Hj. rewrite pipe_set by done. rewrite !ends_set_pipe. case_decide as D; [subst j; done|].
    specialize (I7 j Hj). destruct (p_used (pipe v j)); [|done].
    destruct I7 as (? & ? & ? & [[= ?]|?]); [congruence|]. split_and!; try done. by right.
Qed.

Lemma inv_exempt p o t v : vfs_inv None o t v -> vfs_inv (Some p) o t v.
Proof.
  intros [I1 I2 I3 I4 I5 I6 I7 I8]. split; try assumption. intros j Hj. specialize (I7 j Hj).
  destruct (p_used (pipe v j)); [|done]. destruct I7 as (? & ? & ? & [?|?]); [done|]. split_and!; try done. by right.
Qed.

(** Two fresh files become the ends of a fresh pipe. *)
Lemma inv_pipe_ends p fr fw o t v :
  vfs_inv (Some p) o t v -> pipe_slot p -> fresh_file v fr -> fresh_file v fw -> fr <> fw ->
  p_used (pipe v p) = true -> ends true p v = 0 -> ends false p v = 0 -> vfs_inv None o t (pipe_ends p fr fw v).
Proof.
  intros [I1 I2 I3 I4 I5 I6 I7 I8] Hp Hfr Hfw Hne Hu E1 E2. pose proof I1 as (_ & Hl & Hlp).
  pose proof (fresh_no_pipe _ _ Hfr) as Nr. pose proof (fresh_no_pipe _ _ Hfw) as Nw.
  destruct Hfr as (Hr & Hur & _ & _), Hfw as (Hw & Huw & _ & _).
  unfold pipe_ends. set (f1 := file v fr <| f_backend := _ |> <| f_mode := _ |> <| f_flags := _ |> <| f_u := _ |>).
  set (v1 := set_file fr f1 v). assert (length (g_open_files v1) = 128%nat) as Hl1 by (cbn; by rewrite length_aset).
  assert (file v1 fw = file v fw) as Ew by (unfold v1; rewrite file_set by done; by rewrite decide_False).
  rewrite Ew. set (f2 := file v fw <| f_backend := _ |> <| f_mode := _ |> <| f_flags := _ |> <| f_u := _ |>).
  set (v2 := set_file fw f2 v1). set (q := pipe v2 p <| p_readers := 1 |> <| p_writers := 1 |>).
  assert (forall j, file_slot j -> file (set_pipe p q v2) j
          = if decide (fw = j) then f2 else if decide (fr = j) then f1 else file v j) as Hfile.
  { intros j Hj. change (file (set_pipe p q v2) j) with (file v2 j). unfold v2, v1. by rewrite !file_set by done. }
  assert (length (g_open_files v2) = 128%nat) as Hl2 by (cbn; by rewrite !length_aset).
  assert (forall b j, ends b j (set_pipe p q v2) = ends b j v + b2z (bool_decide (p = j))) as Hends.
  { intros b j. rewrite ends_set_pipe. unfold v2, v1. rewrite !ends_set by done. fold v1. rewrite Ew.
    rewrite (no_pipe_end b j (file v fr)), (no_pipe_end b j (file v fw)) by done. rewrite (end_of_pipe b j p f1 true), (end_of_pipe b j p f2 false) by done.
    destruct (bool_decide (p = j)), b; simpl; lia. }
  assert (forall j, pipe_slot j -> pipe (set_pipe p q v2) j = if decide (p = j) then q else pipe v j) as Hpipe.
  { intros j Hj. rewrite pipe_set by done. done. }
  split; [|exact I2|exact I3| | | | |exact I8].
  - split; [apply I1|]. cbn. by rewrite !length_aset.
  - intros j Hj. rewrite Hfile by done. specialize (I4 j Hj).
    case_decide as D1; [subst j; exact I4|]. case_decide as D2; [subst j; exact I4|exact I4].
  - intros j Hj. rewrite Hfile by done.
    case_decide; [intros _; unfold file_ok; cbn; eauto|]. case_decide; [intros _; unfold file_ok; cbn; eauto|by apply I5].
  - intros j Hj. rewrite Hpipe by done. case_decide; [exact (I6 p Hp)|by apply I6].
  - intros j Hj. rewrite !Hends, Hpipe by done. specialize (I7 j Hj). case_decide as D.
    + subst j. rewrite bool_decide_true by done. change (p_used q) with (p_used (pipe v p)). rewrite Hu in *.
      rewrite E1, E2 in *. destruct I7 as (Hok & _). split; [exact Hok|]. split_and!; [done|done|right; simpl; lia].
    + rewrite bool_decide_false by done. simpl b2z. rewrite !Z.add_0_r.
      destruct (p_used (pipe v j)); [|done]. destruct I7 as (? & ? & ? & [[= ?]|?]); [congruence|].
      split_and!; try done. by right.
Qed.

(** The state after the two reservations: the file pools are as before. *)
Definition pipe_reserved (r w : Z) s : vst B :=
  set_fd_table (aset w 1 (aset r 1 (fd_table_for_process s))) s.

Lemma set_set_table t u s : set_fd_table t (set_fd_table u s) = set_fd_table t s.
Proof. unfold set_fd_table. by destruct s as [[p|] v]. Qed.

Lemma set_table_same s : set_fd_table (fd_table_for_process s) s = s.
Proof.
  unfold set_fd_table, fd_table_for_process. destruct s as [[p|] v]; cbn.
  - by destruct p.
  - by destruct v.
Qed.

Lemma aset_same {A} `{!Inhabited A} i (l : list A) : 0 <= i < Z.of_nat (length l) -> aset i (aget l i) l = l.
Proof.
  intros Hi. unfold aset, aget. destruct (lookup_lt_is_Some_2 l (Z.to_nat i)) as [y Hy]; [lia|].
  rewrite (list_lookup_total_correct _ _ _ Hy). by apply list_insert_id.
Qed.

Lemma aset_comm {A} i j (a b : A) l : 0 <= i -> 0 <= j -> i <> j -> aset i a (aset j b l) = aset j b (aset i a l).
Proof. intros. unfold aset. apply list_insert_insert_ne. lia. Qed.

(** Undoing the reservations. *)
Lemma unreserve t r w :
  length t = 32%nat -> table_slot r -> table_slot w -> r <> w -> aget t r = 0 -> aget t w = 0 ->
  aset w 0 (aset r 0 (aset w 1 (aset r 1 t))) = t.
Proof.
  unfold table_slot, PROCESS_MAX_OPEN_FILES. intros Hl Hr Hw Hne E1 E2.
  rewrite (aset_comm r w 0 1), aset_aset, aset_aset by lia.
  assert (aset r 0 t = t) as -> by (rewrite <- E1 at 1; apply aset_same; lia).
  rewrite <- E2 at 1. apply aset_same. lia.
Qed.

Lemma reserve_put t r w a b :
  length t = 32%nat -> table_slot r -> table_slot w -> r <> w ->
  aset w b (aset r a (aset w 1 (aset r 1 t))) = aset w b (aset r a t).
Proof.
  unfold table_slot. intros Hl Hr Hw Hne. rewrite (aset_comm r w a 1), !aset_aset by lia. done.
Qed.

(** The three allocations of [vfs_pipe]. *)
Definition pipe_allocs v : option Z * option Z * option Z * vfs B :=
  let '(p, v) := pipe_alloc v in
  let '(fr, v) := file_alloc v in
  let '(fw, v) := file_alloc v in (p, fr, fw, v).

Definition pipe_undo (p fr fw : option Z) v : vfs B :=
  let v := opt_release fw (opt_release fr v) in
  match p with Some p => set_pipe p (pipe v p <| p_used := false |>) v | None => v end.

Lemma vfs_pipe_eq s :
  vfs_pipe s =
  let r := process_fd_alloc s in
  if r <? 0 then (None, s) else
  let s1 := set_fd_table (aset r 1 (fd_table_for_process s)) s in
  let w := process_fd_alloc s1 in
  if w <? 0 then (None, set_fd_table (aset r 0 (aset r 1 (fd_table_for_process s))) s) else
  let s2 := pipe_reserved r w s in
  match pipe_allocs (vs s2) with
  | (Some p, Some fr, Some fw, v) =>
      let s3 := s2 <| vs := pipe_ends p fr fw v |> in
      (Some (r, w), set_fd_table (aset w (handle fw) (aset r (handle fr) (fd_table_for_process s3))) s3)
  | (p, fr, fw, v) =>
      let s3 := s2 <| vs := pipe_undo p fr fw v |> in
      (None, set_fd_table (aset w 0 (aset r 0 (fd_table_for_process s3))) s3)
  end.
Proof.
  unfold vfs_pipe, pipe_reserved, pipe_allocs, pipe_undo. cbv zeta.
  destruct (process_fd_alloc s <? 0); [done|].
  rewrite !table_set, !set_set_table.
  destruct (process_fd_alloc _ <? 0); [done|].
  destruct (pipe_alloc _) as [p v1]. destruct (file_alloc v1) as [fr v2]. destruct (file_alloc v2) as [fw v3].
  destruct p as [p|], fr as [fr|], fw as [fw|]; rewrite ?table_set, ?set_set_table; done.
Qed.

(** [x] pipe ends are zero when the counters of the pipe are. *)
Lemma no_ends x o t v p :
  vfs_inv x o t v -> pipe_slot p -> p_used (pipe v p) = true -> p_readers (pipe v p) = 0 -> p_writers (pipe v p) = 0 ->
  ends true p v = 0 /\ ends false p v = 0.
Proof.
  intros I Hp Hu E1 E2. pose proof (vi_pipe _ _ _ _ I p Hp) as Ip. rewrite Hu in Ip.
  destruct Ip as (_ & <- & <- & _). done.
Qed.

(** Allocating a file: what else it leaves alone. *)
Lemma file_alloc_frame x o t v i v' :
  vfs_inv x o t v -> file_alloc v = (i, v') ->
  g_pipes v' = g_pipes v /\ g_kernel_open_files v' = g_kernel_open_files v
  /\ vfs_inv x (match i with Some i => plus_ref o i | None => o end) t v'
  /\ (forall k, i = Some k -> fresh_file v' k) /\ (forall j, fresh_file v j -> fresh_file v' j /\ i <> Some j).
Proof.
  intros I E. destruct i as [i|].
  2: { apply file_alloc_none in E as ->. done. }
  destruct (inv_file_alloc _ _ _ _ _ _ I E) as (Hi & Hu & Ev & I').
  pose proof (vi_len _ _ _ _ I) as (_ & Hl & _). rewrite Ev.
  split; [done|]. split; [done|]. split; [by rewrite <- Ev|]. split.
  - intros k [= <-]. unfold fresh_file. rewrite file_set, decide_True by done. done.
  - intros j (Hj & Huj & Hj2). assert (i <> j) by congruence. split; [|congruence].
    unfold fresh_file. rewrite file_set, decide_False by done. done.
Qed.

Lemma fresh_ext v v' i : g_open_files v' = g_open_files v -> fresh_file v i -> fresh_file v' i.
Proof. unfold fresh_file, file. by intros ->. Qed.

(** What the allocations give. *)
Record allocated (o : Z -> Z) t (v : vfs B) (p fr fw : option Z) (v' : vfs B) : Prop := {
  al_ktab : g_kernel_open_files v' = g_kernel_open_files v;
  al_inv : let o1 := match fr with Some i => plus_ref o i | None => o end in
           vfs_inv p (match fw with Some i => plus_ref o1 i | None => o1 end) t v';
  al_pipe : forall q, p = Some q -> pipe_slot q /\ p_used (pipe v' q) = true
              /\ p_readers (pipe v' q) = 0 /\ p_writers (pipe v' q) = 0 /\ pipe_content (pipe v' q) = [];
  al_fr : forall i, fr = Some i -> fresh_file v' i;
  al_fw : forall i, fw = Some i -> fresh_file v' i;
  al_ne : forall i, fr = Some i -> fw <> Some i;
}.

Lemma pipe_allocs_spec o t v p fr fw v' :
  vfs_inv None o t v -> pipe_allocs v = (p, fr, fw, v') -> allocated o t v p fr fw v'.
Proof.
  intros I. unfold pipe_allocs. destruct (pipe_alloc v) as [p1 v1] eqn:E1.
  destruct (file_alloc v1) as [fr1 v2] eqn:E2. destruct (file_alloc v2) as [fw1 v3] eqn:E3.
  intros [= <- <- <- <-].
  assert (vfs_inv p1 o t v1 /\ g_kernel_open_files v1 = g_kernel_open_files v
          /\ forall q, p1 = Some q -> pipe_slot q /\ p_used (pipe v1 q) = true
              /\ p_readers (pipe v1 q) = 0 /\ p_writers (pipe v1 q) = 0 /\ pipe_content (pipe v1 q) = [])
    as (I1 & K1 & P1).
  { destruct p1 as [p1|].
    - destruct (inv_pipe_alloc _ _ _ _ _ I E1) as (? & ? & ? & ? & ? & ? & ? & ?). split_and!; try done.
      intros q [= <-]. done.
    - apply pipe_alloc_none in E1 as ->. done. }
  destruct (file_alloc_frame _ _ _ _ _ _ I1 E2) as (G2 & K2 & I2 & F2 & _).
  destruct (file_alloc_frame _ _ _ _ _ _ I2 E3) as (G3 & K3 & I3 & F3 & N3).
  split; [congruence|exact I3| |..].
  - intros q Hq. unfold pipe. rewrite G3, G2. by apply P1.
  - intros i Hi. by apply N3, F2.
  - exact F3.
  - intros i Hi. by apply N3, F2.
Qed.

(** Releasing a file that was only allocated does not touch the pipes. *)
Lemma release_fresh x o t v i :
  vfs_inv x (plus_ref o i) t v -> (forall k, 0 <= o k) -> fresh_file v i ->
  vfs_inv x o t (file_release i v) /\ g_pipes (file_release i v) = g_pipes v
  /\ (forall j, fresh_file v j -> i <> j -> fresh_file (file_release i v) j).
Proof.
  intros I Hpos Hf. pose proof Hf as (Hi & Hu & Eu & _). split; [by apply inv_file_release|].
  pose proof (vi_len _ _ _ _ I) as (_ & Hl & _). unfold file_release. rewrite Hu. cbn [negb].
  destruct (1 <? _).
  - split; [done|]. intros j (Hj & ? & ? & ?) Hne. unfold fresh_file. rewrite file_set, decide_False by done. done.
  - destruct (file_destroy_state i v) as (f & b & _ & _ & ->). rewrite Eu. cbn [u_pipe].
    assert (match f_backend (file v i) with VFS_BACKEND_PIPE => v | _ => v end = v) as -> by (by destruct (f_backend _)).
    split; [done|]. intros j (Hj & ? & ? & ?) Hne. apply (fresh_ext (set_file i f v)); [done|].
    unfold fresh_file. rewrite file_set, decide_False by done. done.
Qed.

Lemma plus_ref_pos o i : (forall k, 0 <= o k) -> forall k, 0 <= plus_ref o i k.
Proof. intros Hp k. specialize (Hp k). unfold plus_ref. destruct (k =? i); simpl; lia. Qed.

Lemma plus_ref_comm x o i j t v : vfs_inv x (plus_ref (plus_ref o i) j) t v -> vfs_inv x (plus_ref (plus_ref o j) i) t v.
Proof. apply inv_o_ext. intros k. unfold plus_ref. lia. Qed.

Lemma inv_pipe_undo o t v p fr fw v' :
  allocated o t v p fr fw v' -> (forall k, 0 <= o k) -> vfs_inv None o t (pipe_undo p fr fw v').
Proof.
  intros [_ I P F G N] Hpos. unfold pipe_undo. cbv zeta in I.
  set (v1 := opt_release fr v'). set (v2 := opt_release fw v1).
  assert (vfs_inv p (match fw with Some i => plus_ref o i | None => o end) t v1 /\ g_pipes v1 = g_pipes v'
          /\ forall i, fw = Some i -> fresh_file v1 i) as (I1 & G1 & F1).
  { unfold v1. destruct fr as [i|]; cbn [opt_release]; [|done].
    destruct (release_fresh p (match fw with Some j => plus_ref o j | None => o end) t v' i) as (A & B1 & C).
    - destruct fw as [j|]; [by apply plus_ref_comm|done].
    - destruct fw; [by apply plus_ref_pos|done].
    - by apply F.
    - split; [done|]. split; [done|]. intros j Hj. apply C; [by apply G|]. specialize (N i eq_refl). congruence. }
  assert (vfs_inv p o t v2 /\ g_pipes v2 = g_pipes v') as (I2 & G2).
  { unfold v2. destruct fw as [j|]; cbn [opt_release]; [|done].
    destruct (release_fresh p o t v1 j I1 Hpos (F1 j eq_refl)) as (A & B1 & C). split; [done|congruence]. }
  clearbody v2. destruct p as [p|]; [|done]. destruct (P p eq_refl) as (Hp & Hu & E1 & E2 & _).
  assert (pipe v2 p = pipe v' p) as Ep by (unfold pipe; by rewrite G2).
  destruct (no_ends _ _ _ _ p I2 Hp) as [Z1 Z2]; [by rewrite Ep..|].
  apply inv_pipe_free; try done. by rewrite Ep.
Qed.

Lemma pipe_allocs_ktab v : g_kernel_open_files (pipe_allocs v).2 = g_kernel_open_files v.
Proof.
  unfold pipe_allocs.
  assert (g_kernel_open_files (pipe_alloc v).2 = g_kernel_open_files v) as K1 by (unfold pipe_alloc; by destruct (find_index _ _)).
  destruct (pipe_alloc v) as [p v1]. cbn [snd] in K1. pose proof (file_alloc_ktab v1) as K2.
  destruct (file_alloc v1) as [fr v2]. cbn [snd] in K2. pose proof (file_alloc_ktab v2) as K3.
  destruct (file_alloc v2) as [fw v3]. cbn [snd] in *. congruence.
Qed.

Lemma pipe_undo_ktab p fr fw v : g_kernel_open_files (pipe_undo p fr fw v) = g_kernel_open_files v.
Proof. unfold pipe_undo. destruct p, fr, fw; cbn; by rewrite ?file_release_ktab. Qed.

(** The descriptors [vfs_pipe] picks. *)
Lemma pipe_slots o s :
  st_inv o s -> let t := fd_table_for_process s in let r := process_fd_alloc s in
  let w := process_fd_alloc (set_fd_table (aset r 1 t) s) in
  0 <= r -> length t = 32%nat /\ table_slot r /\ aget t r = 0 /\ (0 <= w -> table_slot w /\ aget t w = 0 /\ r <> w).
Proof.
  intros I t r w Hr. destruct (vi_len _ _ _ _ I) as (Hl & _). destruct (fd_alloc_spec o s I Hr) as [H1 H2].
  fold t in Hl, H2. fold r in H1, H2. split; [done|]. split; [done|]. split; [done|]. intros Hw.
  unfold w, process_fd_alloc in *. rewrite table_set in *.
  destruct (find_index (fun h => h =? 0) (aset r 1 t)) as [k|] eqn:Hf; [|lia].
  apply find_index_Some in Hf as (Hk & E%Z.eqb_eq & _). rewrite length_aset, Hl in Hk.
  unfold table_slot, PROCESS_MAX_OPEN_FILES in *. destruct (decide (r = k)) as [->|Hne].
  - rewrite aget_aset_eq in E by lia. done.
  - rewrite aget_aset_ne in E by lia. split; [lia|done].
Qed.

Lemma keeps_pipe s : keeps_inv s (vfs_pipe s).2.
Proof.
  rewrite vfs_pipe_eq. cbv zeta. pose proof (fun o I => pipe_slots o s I) as Hslots. cbv zeta in Hslots.
  set (t := fd_table_for_process s) in *. set (r := process_fd_alloc s) in *.
  destruct (Z.ltb_spec r 0) as [|Hr]; [apply keeps_inv_refl|].
  set (w := process_fd_alloc (set_fd_table (aset r 1 t) s)) in *.
  destruct (Z.ltb_spec w 0) as [|Hw]; cbn [snd].
  { split; [|apply same_who_set, keeps_inv_refl]. intros o I. destruct (Hslots o I Hr) as (Hl & Ht & E & _).
    rewrite aset_aset, <- E, aset_same by (unfold table_slot, PROCESS_MAX_OPEN_FILES in *; lia).
    unfold t. by rewrite set_table_same. }
  set (s2 := pipe_reserved r w s).
  assert (same_who s s2) as W2 by (apply same_who_set, keeps_inv_refl).
  assert (fd_table_for_process s2 = aset w 1 (aset r 1 t)) as T2 by apply table_set.
  assert (forall o, st_inv o s -> vfs_inv None o t (vs s2)) as I2 by (intros o I; by apply vs_set).
  pose proof (pipe_allocs_ktab (vs s2)) as K3.
  destruct (pipe_allocs (vs s2)) as [[[p fr] fw] v3] eqn:Ea. cbn [snd] in K3.
  assert (keeps_inv s (set_fd_table (aset w 0 (aset r 0 (fd_table_for_process (s2 <| vs := pipe_undo p fr fw v3 |>))))
            (s2 <| vs := pipe_undo p fr fw v3 |>))) as Hfail.
  { split; [|apply same_who_set, (same_who_trans s s2); [done|]; apply same_who_vs; by rewrite pipe_undo_ktab].
    intros o I. destruct (Hslots o I Hr) as (Hl & Ht & E & Hws). destruct (Hws Hw) as (Htw & Ew & Hne).
    rewrite table_same_ktab by (by rewrite pipe_undo_ktab). rewrite T2, unreserve by done.
    unfold st_inv. rewrite table_set. apply vs_set. cbn [vs field_set].
    apply (inv_pipe_undo o t (vs s2)); [|apply (vi_o _ _ _ _ I)]. by apply pipe_allocs_spec; [apply I2|]. }
  destruct p as [p|], fr as [fr|], fw as [fw|]; try exact Hfail. cbn [snd]. clear Hfail.
  split; [|apply same_who_set, (same_who_trans s s2); [done|]; apply same_who_vs; exact K3].
  intros o I. destruct (Hslots o I Hr) as (Hl & Ht & E & Hws). destruct (Hws Hw) as (Htw & Ew & Hne).
  destruct (pipe_allocs_spec o t _ _ _ _ _ (I2 o I) Ea) as [_ I3 P F G N]. cbv zeta in I3.
  destruct (P p eq_refl) as (Hp & Hu & E1 & E2 & _). destruct (no_ends _ _ _ _ p I3 Hp Hu E1 E2) as [Z1 Z2].
  pose proof (F fr eq_refl) as Fr. pose proof (G fw eq_refl) as Fw.
  assert (fr <> fw) as Hff by (specialize (N fr eq_refl); congruence).
  assert (vfs_inv None (plus_ref (plus_ref o fr) fw) t (pipe_ends p fr fw v3)) as I4 by (by apply inv_pipe_ends).
  unfold st_inv. rewrite table_set. apply vs_set. cbn [vs field_set].
  rewrite (table_same_ktab s2) by exact K3. rewrite T2, reserve_put by done.
  pose proof (vi_o _ _ _ _ I) as Hpos.
  apply inv_put; [|done|done|apply Fw|].
  - apply inv_put; [by apply plus_ref_comm|by apply plus_ref_pos|done|apply Fr|done].
  - rewrite aget_aset_ne; [done|apply Ht|apply Htw|done].
Qed.

(** ** Other processes' tables *)

Definition table_ok t : Prop :=
  length t = 32%nat /\ forall fd, table_slot fd -> aget t fd = 0 \/ exists i, file_slot i /\ aget t fd = handle i.

(** Looking at the same state from another table. *)
Lemma inv_switch x o o' o0 t t' v :
  vfs_inv x o t v -> table_ok t' -> (forall i, o i = o0 i + cnt t' i) -> (forall i, o' i = o0 i + cnt t i) ->
  (forall i, 0 <= o0 i) -> vfs_inv x o' t' v.
Proof.
  intros [I1 I2 I3 I4 I5 I6 I7 I8] [T1 T2] E E' Hp.
  split; [|exact T2| | |exact I5|exact I6|exact I7|exact I8].
  - split; [done|apply I1].
  - intros i. rewrite E'. pose proof (cnt_nonneg t i). specialize (Hp i). lia.
  - intros i Hi. specialize (I4 i Hi). rewrite E in I4. rewrite E'.
    replace (o0 i + cnt t i + cnt t' i) with (o0 i + cnt t' i + cnt t i) by lia. exact I4.
Qed.

(** A file that some other table refers to is in use. *)
Lemma held_used x o t v i : vfs_inv x o t v -> file_slot i -> 0 < o i -> f_used (file v i) = true.
Proof.
  intros I Hi Ho. pose proof (vi_ref _ _ _ _ I i Hi) as Hr. pose proof (cnt_nonneg t i).
  destruct (f_used (file v i)); [done|lia].
Qed.

(** A reference to a used file is put into an emptied entry. *)
Lemma inv_ref_put o t v fd i :
  vfs_inv None o t v -> table_slot fd -> file_slot i -> aget t fd = 0 -> f_used (file v i) = true ->
  vfs_inv None o (aset fd (handle i) t) (file_ref i v).
Proof.
  intros I Hf Hi E Hu. apply inv_put; [by apply inv_file_ref|apply (vi_o _ _ _ _ I)|done..].
Qed.

Lemma lookup_table_ok t fd i :
  table_ok t -> fd_lookup_on_table t fd = Some i -> table_slot fd /\ file_slot i /\ aget t fd = handle i.
Proof.
  intros [Hl Ht]. unfold fd_lookup_on_table, fd_valid.
  destruct ((0 <=? fd) && (fd <? PROCESS_MAX_OPEN_FILES)) eqn:Ev; [|done].
  cbn [negb]. apply andb_true_iff in Ev as [E1%Z.leb_le E2%Z.ltb_lt]. assert (table_slot fd) as Hf by done.
  destruct (Ht fd Hf) as [E|(j & Hj & E)]; rewrite E; [done|].
  rewrite Z.eqb_sym, handle_not_0 by done. unfold index_of, handle. intros [= <-].
  replace (16 + j - 16) with j by lia. done.
Qed.

Lemma inv_inherit o dst src v :
  vfs_inv None o (open_files dst) v ->
  (forall p, src = Some p -> table_ok (open_files p) /\ forall i, cnt (open_files p) i <= o i) ->
  let '(p', v') := vfs_process_inherit dst src v in
  vfs_inv None o (open_files p') v' /\ g_kernel_open_files v' = g_kernel_open_files v.
Proof.
  intros I Hsrc. unfold vfs_process_inherit.
  destruct (inv_close_all None o _ v I) as (I1 & K1 & Z1).
  destruct (close_all (open_files dst) v) as [t v1]. cbn [fst snd] in *.
  destruct src as [src|]; [|done]. destruct (Hsrc src eq_refl) as [Hok Hle].
  set (f := fun (i : Z) '(t, v) => _).
  assert (forall n, (n <= 32)%nat ->
    let r := for_up n 0 f (t, v1) in
    vfs_inv None o r.1 r.2 /\ g_kernel_open_files r.2 = g_kernel_open_files v
    /\ forall k, table_slot k -> Z.of_nat n <= k -> aget r.1 k = 0) as Hn.
  { intros n Hn. cbv zeta.
    apply (for_up_inv (fun k (r : list Z * vfs B) => vfs_inv None o r.1 r.2
      /\ g_kernel_open_files r.2 = g_kernel_open_files v
      /\ forall j, table_slot j -> k <= j -> aget r.1 j = 0)).
    - split; [done|]. split; [done|]. intros j Hj _. by apply Z1.
    - intros k [t1 w] Hk (I2 & K2 & Z2). cbn [fst snd] in *. unfold f.
      destruct (fd_lookup_on_table (open_files src) k) as [i|] eqn:El; cbn [fst snd].
      2: { split; [done|]. split; [done|]. intros j Hj Hlt. apply Z2; [done|lia]. }
      destruct (lookup_table_ok _ _ _ Hok El) as (Hf & Hi & E).
      split; [|split; [exact K2|]].
      + apply inv_ref_put; [done|done|done|apply Z2; [done|lia]|].
        apply (held_used None o t1 w i I2 Hi). pose proof (cnt_pos _ _ _ Hf E). specialize (Hle i). lia.
      + intros j Hj Hlt. unfold table_slot in *. rewrite aget_aset_ne by lia. apply Z2; [done|lia]. }
  specialize (Hn 32%nat ltac:(lia)). change (Z.to_nat PROCESS_MAX_OPEN_FILES) with 32%nat.
  destruct (for_up 32 0 f (t, v1)) as [t2 v2]. cbn [fst snd] in Hn. destruct Hn as (I2 & K2 & _). done.
Qed.

Lemma inv_process_dup2 o dst dfd src sfd v :
  vfs_inv None o (open_files dst) v ->
  ((table_ok (open_files src) /\ forall i, cnt (open_files src) i <= o i)
   \/ (open_files src = open_files dst /\ sfd <> dfd)) ->
  let '(_, p', v') := vfs_process_dup2 dst dfd src sfd v in
  vfs_inv None o (open_files p') v' /\ g_kernel_open_files v' = g_kernel_open_files v.
Proof.
  intros I Hsrc. unfold vfs_process_dup2. destruct (fd_valid dfd) eqn:Ev; cbn [negb orb]; [|done].
  destruct (negb (fd_valid sfd)); [done|].
  destruct (fd_lookup_on_table (open_files src) sfd) as [i|] eqn:El; [|done].
  assert (table_slot dfd) as Hd.
  { unfold fd_valid in Ev. apply andb_true_iff in Ev as [E1%Z.leb_le E2%Z.ltb_lt]. done. }
  destruct (inv_fd_close None o _ v dfd I) as (I1 & K1 & Hg).
  destruct (fd_close_on_table (open_files dst) dfd v) as [t v1] eqn:Ec. cbn [fst snd] in *.
  assert (file_slot i /\ f_used (file v1 i) = true) as [Hi Hu].
  { destruct Hsrc as [[Hok Hle]|[E Hne]].
    - destruct (lookup_table_ok _ _ _ Hok El) as (Hf & Hi & E). split; [done|].
      apply (held_used None o t v1 i I1 Hi). pose proof (cnt_pos _ _ _ Hf E). specialize (Hle i). lia.
    - rewrite E in El. destruct (lookup_spec _ _ _ _ _ _ I El) as (Hf & Hi & E2 & _). split; [done|].
      assert (fd_lookup_on_table t sfd = Some i) as El2.
      { unfold fd_lookup_on_table in *. rewrite Hg, decide_False by done. exact El. }
      by destruct (lookup_spec _ _ _ _ _ _ I1 El2) as (_ & _ & _ & ?). }
  split; [|exact K1]. cbn. apply inv_ref_put; [done|done|done| |done].
  rewrite Hg by done. by rewrite decide_True.
Qed.

Lemma inv_cleanup o p v :
  vfs_inv None o (open_files p) v ->
  let '(p', v') := vfs_process_cleanup p v in
  vfs_inv None o (open_files p') v' /\ g_kernel_open_files v' = g_kernel_open_files v
  /\ forall fd, table_slot fd -> aget (open_files p') fd = 0.
Proof.
  intros I. unfold vfs_process_cleanup. destruct (inv_close_all None o _ v I) as (I1 & K1 & Z1).
  destruct (close_all (open_files p) v) as [t v1]. cbn [fst snd] in *.
  change (cwd (p <| open_files := t |>)) with (cwd p). by destruct (cwd p).
Qed.
End ops.
