(* ===== verification/VfsSys.v ===== *)
(** The file layer as a system: one VFS, the kernel's descriptor table and those of the processes.

    A step is one call of [src/fs/vfs.c], made by the kernel or by a process, or one of the three
    process operations.  The theorems are about every state reached from [vfs_init]. *)

From S2P Require Import Prelude CString Path Mounts Memfs ProcessData VfsData Vfs VfsPipe VfsInv VfsOps.

Section system.
Context {B : Type} `{VfsEnvLaws B}.
Implicit Types (v : vfs B) (t : list Z).

Record vsys := mkVsys { sy_vfs : vfs B; sy_procs : list process }.
Implicit Types (y : vsys).

Inductive vcall : Type :=
  | VOpen (path : option cstr) (flags : Z)
  | VClose (fd : Z)
  | VRead (fd : Z) (buf : bool) (count : Z)
  | VWrite (fd : Z) (src : option (list Z))
  | VSeek (fd offset whence : Z)
  | VDup (fd : Z)
  | VDup2 (oldfd newfd : Z)
  | VPipe
  | VFcntl (fd cmd arg : Z)
  | VIoctl (fd request arg pointee : Z)
  | VChdir (path : option cstr).

Inductive vstep : Type :=
  | VCall (who : option nat) (c : vcall)             (* [None]: the kernel *)
  | VInherit (dst : nat) (src : option nat)
  | VProcessDup2 (dst : nat) (dst_fd : Z) (src : nat) (src_fd : Z)
  | VCleanup (k : nat).

(** [None]: the call does not return. *)
Definition run_vcall (c : vcall) (s : vst B) : option (vst B) :=
  match c with
  | VOpen path flags => Some (vfs_open_flags path flags s).2
  | VClose fd => Some (vfs_close fd s)
  | VRead fd buf count => Some (vfs_read fd buf count s).2
  | VWrite fd src => match vfs_write fd src (match src with Some l => zlen l | None => 0 end) s with
                     | Some (_, s) => Some s
                     | None => None
                     end
  | VSeek fd offset whence => Some (vfs_seek fd offset whence s).2
  | VDup fd => Some (vfs_dup fd s).2
  | VDup2 a b => Some (vfs_dup2 a b s).2
  | VPipe => Some (vfs_pipe s).2
  | VFcntl fd cmd arg => Some (vfs_fcntl fd cmd arg s).2
  | VIoctl fd request arg pointee => Some (vfs_ioctl fd request arg pointee s).2
  | VChdir path => Some (vfs_chdir path s).2
  end.

Definition caller y (who : option nat) : vst B :=
  mkVst (match who with Some k => sy_procs y !! k | None => None end) (sy_vfs y).

Definition after_call y (who : option nat) (s : vst B) : vsys :=
  mkVsys (vs s) (match who, cur s with Some k, Some p => <[k := p]> (sy_procs y) | _, _ => sy_procs y end).

Definition run_vstep (st : vstep) y : option vsys :=
  let proc k := sy_procs y !!! k in
  match st with
  | VCall who c => match run_vcall c (caller y who) with
                   | Some s => Some (after_call y who s)
                   | None => None
                   end
  | VInherit dst src =>
      let '(p, v) := vfs_process_inherit (proc dst) (match src with Some k => Some (proc k) | None => None end) (sy_vfs y) in
      Some (mkVsys v (<[dst := p]> (sy_procs y)))
  | VProcessDup2 dst dst_fd src src_fd =>
      let '(_, p, v) := vfs_process_dup2 (proc dst) dst_fd (proc src) src_fd (sy_vfs y) in
      Some (mkVsys v (<[dst := p]> (sy_procs y)))
  | VCleanup k =>
      let '(p, v) := vfs_process_cleanup (proc k) (sy_vfs y) in
      Some (mkVsys v (<[k := p]> (sy_procs y)))
  end.

(** Arguments a caller can pass: a buffer has a possible length, [size_t] arguments are in range,
    processes exist, [vfs_process_inherit] gets two records, and [vfs_process_dup2] is not asked to
    copy a descriptor onto itself. *)
Definition vstep_allowed (st : vstep) y : bool :=
  let exists_ k := (k <? length (sy_procs y))%nat in
  match st with
  | VCall who c =>
      (match who with Some k => exists_ k | None => true end)
      && match c with
         | VRead _ _ count => 0 <=? count
         | VWrite _ (Some l) => zlen l <=? 2 ^ 62
         | VSeek _ offset _ => (0 <=? offset) && (offset <? 2 ^ 64)
         | _ => true
         end
  | VInherit dst src =>
      exists_ dst && match src with Some k => exists_ k && negb (k =? dst)%nat | None => true end
  | VProcessDup2 dst dst_fd src src_fd =>
      exists_ dst && exists_ src && negb ((dst =? src)%nat && (dst_fd =? src_fd))
  | VCleanup k => exists_ k
  end.

(** [n] processes with empty tables after [vfs_init]. *)
Definition vsys_init (boot : boot_arg) (b : B) (n : nat) : vsys :=
  mkVsys (vfs_init boot (vfs_zero b)) (repeat process_zero n).

Inductive vreachable : vsys -> Prop :=
  | vreach_init boot b n : vreachable (vsys_init boot b n)
  | vreach_step y st y' : vreachable y -> vstep_allowed st y = true -> run_vstep st y = Some y' -> vreachable y'.

(** ** Counting over all tables *)

Definition all_tables y : list (list Z) := g_kernel_open_files (sy_vfs y) :: map open_files (sy_procs y).

(** Descriptors that lead to file [i]. *)
Fixpoint total (ts : list (list Z)) (i : Z) : Z :=
  match ts with [] => 0 | t :: ts => cnt t i + total ts i end.

Lemma total_nonneg ts i : 0 <= total ts i.
Proof. induction ts as [|t ts IH]; [done|]. cbn [total]. pose proof (cnt_nonneg t i). lia. Qed.

Lemma total_delete ts k t i : ts !! k = Some t -> total ts i = cnt t i + total (delete k ts) i.
Proof.
  revert k. induction ts as [|u ts IH]; intros [|k]; [done..| |].
  - by intros [= ->].
  - intros Hk. change (cnt u i + total ts i = cnt t i + (cnt u i + total (delete k ts) i)).
    rewrite (IH k Hk). lia.
Qed.

Lemma delete_insert (ts : list (list Z)) k t : delete k (<[k := t]> ts) = delete k ts.
Proof. revert k. induction ts as [|u ts IH]; intros [|k]; [done..|]. cbn. f_equal. apply IH. Qed.

Definition vsys_inv y : Prop :=
  vfs_inv None (fun i => total (map open_files (sy_procs y)) i) (g_kernel_open_files (sy_vfs y)) (sy_vfs y)
  /\ Forall table_ok (map open_files (sy_procs y)).

(** The references a process's table does not hold. *)
Definition rest y k i : Z := cnt (g_kernel_open_files (sy_vfs y)) i + total (delete k (map open_files (sy_procs y))) i.

Lemma kernel_table_ok x o t v : vfs_inv x o t v -> table_ok t.
Proof. intros I. split; [apply (vi_len _ _ _ _ I)|apply (vi_tab _ _ _ _ I)]. Qed.

(** From the kernel's view to a process's view, and back with new contents. *)
Lemma view_process y k p :
  vsys_inv y -> sy_procs y !! k = Some p -> vfs_inv None (rest y k) (open_files p) (sy_vfs y).
Proof.
  intros [I T] Hp.
  assert (map open_files (sy_procs y) !! k = Some (open_files p)) as Hk by (by rewrite list_lookup_fmap, Hp).
  eapply (inv_switch None _ _ (fun i => total (delete k (map open_files (sy_procs y))) i)); [exact I| | | |].
  - rewrite Forall_lookup in T. by apply (T k).
  - intros i. cbn beta. rewrite (total_delete _ k _ i Hk). lia.
  - intros i. unfold rest. lia.
  - intros i. apply total_nonneg.
Qed.

Lemma unview_process y k p' v' :
  vsys_inv y -> (k < length (sy_procs y))%nat -> g_kernel_open_files v' = g_kernel_open_files (sy_vfs y) ->
  vfs_inv None (rest y k) (open_files p') v' -> vsys_inv (mkVsys v' (<[k := p']> (sy_procs y))).
Proof.
  intros [I T] Hk Ek I'. unfold vsys_inv. cbn [sy_vfs sy_procs].
  assert (map open_files (<[k := p']> (sy_procs y)) = <[k := open_files p']> (map open_files (sy_procs y))) as ->
    by apply list_fmap_insert.
  split.
  - rewrite Ek. eapply (inv_switch None _ _ (fun i => total (delete k (map open_files (sy_procs y))) i)); [exact I'| | | |].
    + by eapply kernel_table_ok.
    + intros i. unfold rest. lia.
    + intros i. rewrite (total_delete _ k (open_files p')).
      * rewrite delete_insert. lia.
      * apply list_lookup_insert_eq. by rewrite length_map.
    + intros i. apply total_nonneg.
  - apply Forall_insert; [done|]. by eapply kernel_table_ok.
Qed.

Lemma total_member ts t i : t ∈ ts -> cnt t i <= total ts i.
Proof.
  induction ts as [|u ts IH]; [by intros ?%elem_of_nil|]. cbn [total].
  intros [->|Hin]%elem_of_cons; [pose proof (total_nonneg ts i); lia|].
  pose proof (cnt_nonneg u i). specialize (IH Hin). lia.
Qed.

(** The table of another process. *)
Lemma other_table y k j q :
  vsys_inv y -> sy_procs y !! j = Some q -> k <> j ->
  table_ok (open_files q) /\ forall i, cnt (open_files q) i <= rest y k i.
Proof.
  intros [_ T] Hq Hne. assert (map open_files (sy_procs y) !! j = Some (open_files q)) as Hj by (by rewrite list_lookup_fmap, Hq).
  split; [rewrite Forall_lookup in T; by apply (T j)|]. intros i.
  assert (open_files q ∈ delete k (map open_files (sy_procs y))) as Hin.
  { destruct (decide (j < k)%nat).
    - apply (list_elem_of_lookup_2 _ j). by rewrite list_lookup_delete_lt.
    - destruct j as [|j]; [lia|]. apply (list_elem_of_lookup_2 _ j). by rewrite list_lookup_delete_ge by lia. }
  pose proof (total_member _ _ i Hin). pose proof (cnt_nonneg (g_kernel_open_files (sy_vfs y)) i). unfold rest. lia.
Qed.

(** ** Steps *)

Lemma vcall_keeps c s :
  (exists o, st_inv o s) ->
  (match c with
   | VRead _ _ count => 0 <=? count
   | VWrite _ (Some l) => zlen l <=? 2 ^ 62
   | VSeek _ offset _ => (0 <=? offset) && (offset <? 2 ^ 64)
   | _ => true
   end) = true ->
  exists s', run_vcall c s = Some s' /\ keeps_inv s s'.
Proof.
  intros Hex Ha. destruct c; cbn [run_vcall].
  - eexists. split; [done|]. apply keeps_open.
  - eexists. split; [done|]. apply keeps_close.
  - eexists. split; [done|]. apply keeps_read. lia.
  - destruct (keeps_write fd src s Hex) as (n & s' & -> & K); [|eauto].
    intros l ->. lia.
  - eexists. split; [done|]. apply keeps_seek. lia.
  - eexists. split; [done|]. apply keeps_dup.
  - eexists. split; [done|]. apply keeps_dup2.
  - eexists. split; [done|]. apply keeps_pipe.
  - eexists. split; [done|]. apply keeps_fcntl.
  - eexists. split; [done|]. apply keeps_ioctl.
  - eexists. split; [done|]. apply keeps_chdir.
Qed.

Lemma vstep_keeps st y :
  vsys_inv y -> vstep_allowed st y = true -> exists y', run_vstep st y = Some y' /\ vsys_inv y'.
Proof.
  intros Hy Ha. unfold vstep_allowed in Ha. destruct st as [who c|dst src|dst dfd src sfd|k]; cbn [run_vstep].
  - apply andb_true_iff in Ha as [Hw Hc]. destruct who as [k|].
    + apply Nat.ltb_lt in Hw. destruct (lookup_lt_is_Some_2 (sy_procs y) k Hw) as [p Hp].
      pose proof (view_process y k p Hy Hp) as I. unfold caller. rewrite Hp.
      destruct (vcall_keeps c (mkVst (Some p) (sy_vfs y))) as (s' & -> & K1 & K2); [by eexists|done|].
      eexists. split; [done|]. specialize (K1 _ I). unfold same_who in K2. cbn [cur vs] in K2. unfold after_call.
      unfold st_inv, fd_table_for_process in K1. destruct s' as [[p'|] v']; [|done]. cbn [cur vs] in *.
      by apply unview_process.
    + change (caller y None) with (mkVst None (sy_vfs y)).
      destruct (vcall_keeps c (mkVst None (sy_vfs y))) as (s' & -> & K1 & K2); [eexists; apply Hy|done|].
      eexists. split; [done|]. specialize (K1 _ (proj1 Hy)). unfold same_who in K2. cbn [cur vs] in K2.
      unfold after_call, st_inv, fd_table_for_process in *. destruct s' as [[p'|] v']; [done|]. cbn [cur vs] in *.
      split; [exact K1|apply Hy].
  - apply andb_true_iff in Ha as [Hd Hs]. apply Nat.ltb_lt in Hd.
    destruct (lookup_lt_is_Some_2 (sy_procs y) dst Hd) as [p Hp].
    pose proof (view_process y dst p Hy Hp) as I. rewrite (list_lookup_total_correct _ _ _ Hp).
    set (sp := match src with Some k => Some (sy_procs y !!! k) | None => None end).
    assert (forall q, sp = Some q -> table_ok (open_files q) /\ forall i, cnt (open_files q) i <= rest y dst i) as Hsp.
    { intros q Hq. unfold sp in Hq. destruct src as [k|]; [|done]. injection Hq as <-.
      apply andb_true_iff in Hs as [Hk Hne%negb_true_iff]. apply Nat.ltb_lt in Hk. apply Nat.eqb_neq in Hne.
      destruct (lookup_lt_is_Some_2 (sy_procs y) k Hk) as [q Hq]. rewrite (list_lookup_total_correct _ _ _ Hq).
      apply (other_table y dst k q); [done|done|congruence]. }
    pose proof (inv_inherit (rest y dst) p sp (sy_vfs y) I Hsp) as Hi.
    destruct (vfs_process_inherit p sp (sy_vfs y)) as [p' v']. destruct Hi as [I' K'].
    eexists. split; [done|]. by apply unview_process.
  - apply andb_true_iff in Ha as [[Hd Hs]%andb_true_iff Hne]. apply Nat.ltb_lt in Hd, Hs. apply negb_true_iff in Hne.
    destruct (lookup_lt_is_Some_2 (sy_procs y) dst Hd) as [p Hp], (lookup_lt_is_Some_2 (sy_procs y) src Hs) as [q Hq].
    pose proof (view_process y dst p Hy Hp) as I.
    rewrite (list_lookup_total_correct _ _ _ Hp), (list_lookup_total_correct _ _ _ Hq).
    pose proof (inv_process_dup2 (rest y dst) p dfd q sfd (sy_vfs y) I) as Hi.
    destruct (vfs_process_dup2 p dfd q sfd (sy_vfs y)) as [[rc p'] v'].
    destruct Hi as [I' K'].
    { destruct (decide (dst = src)) as [->|Hd2].
      - right. split; [congruence|]. rewrite Nat.eqb_refl in Hne. cbn in Hne. apply Z.eqb_neq in Hne. congruence.
      - left. by apply (other_table y dst src q). }
    eexists. split; [done|]. by apply unview_process.
  - apply Nat.ltb_lt in Ha. destruct (lookup_lt_is_Some_2 (sy_procs y) k Ha) as [p Hp].
    pose proof (view_process y k p Hy Hp) as I. rewrite (list_lookup_total_correct _ _ _ Hp).
    pose proof (inv_cleanup (rest y k) p (sy_vfs y) I) as Hi.
    destruct (vfs_process_cleanup p (sy_vfs y)) as [p' v']. destruct Hi as (I' & K' & _).
    eexists. split; [done|]. by apply unview_process.
Qed.

(** ** Initialisation *)

(** The parts of the state the probes and the mounts do not touch. *)
Definition same_pools v v' : Prop :=
  g_open_files v' = g_open_files v /\ g_pipes v' = g_pipes v /\ v_memfs v' = v_memfs v
  /\ g_kernel_open_files v' = g_kernel_open_files v.

Lemma same_pools_trans v1 v2 v3 : same_pools v1 v2 -> same_pools v2 v3 -> same_pools v1 v3.
Proof. unfold same_pools. intros (-> & -> & -> & ->). done. Qed.

Lemma probe_pools boot v : same_pools v (vfs_probe boot v).
Proof.
  unfold vfs_probe. destruct (boot_disk boot) as [[disk sz]|]; [destruct (fat12_init _ _ _) as [rc b1]|];
    destruct (ata_init _) as [[] b2]; try destruct (fat32_init _) as [rc2 b3]; done.
Qed.

Lemma register_pools path bk ro nm v : same_pools v (register path bk ro nm v).
Proof. done. Qed.

Lemma if_pools (c : bool) v v1 v2 : same_pools v v1 -> same_pools v v2 -> same_pools v (if c then v1 else v2).
Proof. by destruct c. Qed.

Lemma mount_all_pools v : same_pools v (vfs_mount_all v).
Proof.
  unfold vfs_mount_all. cbv zeta.
  repeat (first [apply if_pools | (eapply same_pools_trans; [|apply register_pools])]; try done).
Qed.

Lemma init_pools boot b :
  let v := vfs_init boot (vfs_zero b) in
  g_open_files v = repeat file_zero 128 /\ g_pipes v = repeat pipe_zero 16 /\ v_memfs v = ex_memfs0
  /\ g_kernel_open_files v = repeat 0 32.
Proof.
  cbv zeta. unfold vfs_init. cbv zeta. set (v0 := _ <| v_env := _ |>).
  assert (g_open_files v0 = repeat file_zero 128 /\ g_pipes v0 = repeat pipe_zero 16 /\ v_memfs v0 = ex_memfs0
          /\ g_kernel_open_files v0 = repeat 0 32) as Hv0 by (vm_compute; repeat split; reflexivity).
  clearbody v0.
  pose proof (same_pools_trans _ _ _ (probe_pools boot v0) (mount_all_pools _)) as (-> & -> & -> & ->). exact Hv0.
Qed.

Lemma cnt_zero i : file_slot i -> cnt (repeat 0 32) i = 0.
Proof.
  intros Hi. unfold cnt. rewrite (count_true_ext _ (fun _ => false)); [apply count_true_false|].
  intros k Hk. rewrite aget_repeat by done. by apply handle_not_0.
Qed.

Lemma zero_table_ok : table_ok (repeat 0 32).
Proof. split; [done|]. intros fd Hf. left. by apply aget_repeat. Qed.

Lemma vsys_init_inv boot b n : vsys_inv (vsys_init boot b n).
Proof.
  unfold vsys_init, vsys_inv. cbn [sy_vfs sy_procs].
  destruct (init_pools boot b) as (E1 & E2 & E3 & E4). set (v := vfs_init boot (vfs_zero b)) in *. clearbody v.
  assert (map open_files (repeat process_zero n) = repeat (repeat 0 32) n) as Em.
  { induction n as [|n IH]; [done|]. change (repeat 0 32 :: map open_files (repeat process_zero n)
      = repeat 0 32 :: repeat (repeat 0 32) n). by rewrite IH. }
  assert (forall i, file_slot i -> file v i = file_zero) as Hf.
  { intros i Hi. unfold file. rewrite E1. by apply aget_repeat. }
  assert (forall b p, ends b p v = 0) as He.
  { intros c p. unfold ends. rewrite (count_true_ext _ (fun _ => false)); [apply count_true_false|].
    intros k Hk. rewrite Hf by done. done. }
  assert (forall i, file_slot i -> total (repeat (repeat 0 32) n) i = 0) as Ht.
  { intros i Hi. clear -Hi. induction n as [|n IH]; [done|]. change (cnt (repeat 0 32) i + total (repeat (repeat 0 32) n) i = 0).
    rewrite IH, cnt_zero by done. done. }
  rewrite Em, E4. split.
  - split.
    + by rewrite E1, E2.
    + apply zero_table_ok.
    + intros i. apply total_nonneg.
    + intros i Hi. rewrite Hf, Ht, cnt_zero by done. done.
    + intros i Hi. by rewrite Hf.
    + intros p Hp. unfold pipe. rewrite E2, aget_repeat by done. reflexivity.
    + intros p Hp. rewrite !He. unfold pipe. rewrite E2, aget_repeat by done. done.
    + rewrite E3. apply memfs_ok_init.
  - clear. induction n as [|n IH]; constructor; [apply zero_table_ok|exact IH].
Qed.

Lemma vreachable_inv y : vreachable y -> vsys_inv y.
Proof.
  induction 1 as [boot b n|y st y' Hr IH Ha Hs]; [apply vsys_init_inv|].
  destruct (vstep_keeps st y IH Ha) as (y2 & E & Hi). congruence.
Qed.
End system.
