(* ===== verification/VfsProps.v ===== *)
(** What the file layer guarantees: the theorems about [src/fs/vfs.c], with runs on a small
    concrete machine. *)

From S2P Require Import Prelude CString Path Mounts Memfs ProcessData VfsData Vfs VfsPipe VfsInv VfsOps VfsSys.

Section props.
Context {B : Type} `{VfsEnvLaws B}.
Implicit Types (v : vfs B) (s : vst B) (y : vsys (B:=B)).

(** ** Pipes *)

Lemma lookup_entry t fd i :
  table_slot fd -> file_slot i -> aget t fd = handle i -> fd_lookup_on_table t fd = Some i.
Proof.
  intros Hf Hi E. unfold fd_lookup_on_table, fd_valid. unfold table_slot in Hf.
  rewrite (proj2 (Z.leb_le _ _)), (proj2 (Z.ltb_lt _ _)) by lia. cbn [andb negb].
  rewrite E, Z.eqb_sym, handle_not_0 by done. unfold index_of, handle. f_equal. lia.
Qed.

(** The records of a new pipe and its ends. *)
Lemma pipe_ends_spec p fr fw v :
  length (g_open_files v) = 128%nat -> length (g_pipes v) = 16%nat -> pipe_slot p -> file_slot fr -> file_slot fw ->
  fr <> fw ->
  let v' := pipe_ends p fr fw v in
  (f_backend (file v' fr) = VFS_BACKEND_PIPE /\ f_mode (file v' fr) = VFS_MODE_READ
   /\ f_u (file v' fr) = UPipe (Some p) true false)
  /\ (f_backend (file v' fw) = VFS_BACKEND_PIPE /\ f_mode (file v' fw) = VFS_MODE_WRITE
      /\ f_u (file v' fw) = UPipe (Some p) false true)
  /\ p_readers (pipe v' p) = 1 /\ pipe_content (pipe v' p) = pipe_content (pipe v p).
Proof.
  intros Hl Hlp Hp Hfr Hfw Hne. cbv zeta. unfold pipe_ends.
  set (f1 := file v fr <| f_backend := _ |> <| f_mode := _ |> <| f_flags := _ |> <| f_u := _ |>).
  set (v1 := set_file fr f1 v).
  set (f2 := file v1 fw <| f_backend := _ |> <| f_mode := _ |> <| f_flags := _ |> <| f_u := _ |>).
  set (v2 := set_file fw f2 v1). set (q := pipe v2 p <| p_readers := 1 |> <| p_writers := 1 |>).
  assert (length (g_open_files v1) = 128%nat) as Hl1 by (cbn; by rewrite length_aset).
  assert (file (set_pipe p q v2) fr = f1) as ->.
  { change (file v2 fr = f1). unfold v2. rewrite file_set, decide_False by done. unfold v1.
    rewrite file_set by done. by rewrite decide_True. }
  assert (file (set_pipe p q v2) fw = f2) as ->.
  { change (file v2 fw = f2). unfold v2. rewrite file_set by done. by rewrite decide_True. }
  rewrite pipe_set, decide_True by done. done.
Qed.

(** A successful [vfs_pipe] makes an empty channel. *)
Lemma vfs_pipe_channel o s r w s' :
  st_inv o s -> vfs_pipe s = (Some (r, w), s') ->
  exists i j p, channel r w i j p s' [] /\ st_inv o s'.
Proof.
  intros I E. pose proof (proj1 (keeps_pipe s) o I) as I'. rewrite E in I'. cbn [snd] in I'.
  rewrite vfs_pipe_eq in E. cbv zeta in E. pose proof (pipe_slots o s I) as Hslots. cbv zeta in Hslots.
  set (t := fd_table_for_process s) in *. set (r0 := process_fd_alloc s) in *.
  destruct (Z.ltb_spec r0 0) as [|Hr]; [done|].
  set (w0 := process_fd_alloc (set_fd_table (aset r0 1 t) s)) in *.
  destruct (Z.ltb_spec w0 0) as [|Hw]; [done|]. destruct (Hslots Hr) as (Hl & Ht & Er & Hws).
  destruct (Hws Hw) as (Htw & Ew & Hne). set (s2 := pipe_reserved r0 w0 s) in *.
  assert (vfs_inv None o t (vs s2)) as I2 by (by apply vs_set).
  pose proof (pipe_allocs_ktab (vs s2)) as K3.
  destruct (pipe_allocs (vs s2)) as [[[p fr] fw] v3] eqn:Ea. cbn [snd] in K3.
  destruct p as [p|], fr as [fr|], fw as [fw|]; try done. injection E as <- <- <-.
  destruct (pipe_allocs_spec o t _ _ _ _ _ I2 Ea) as [_ I3 P F G N]. cbv zeta in I3.
  destruct (P p eq_refl) as (Hp & Hu & E1 & E2 & Ec).
  pose proof (F fr eq_refl) as (Hfr & _). pose proof (G fw eq_refl) as (Hfw & _).
  assert (fr <> fw) as Hff by (specialize (N fr eq_refl); congruence).
  pose proof (vi_len _ _ _ _ I3) as (_ & Hlf & Hlp).
  destruct (pipe_ends_spec p fr fw v3 Hlf Hlp Hp Hfr Hfw Hff) as (Sr & Sw & Sp & Sc).
  set (v4 := pipe_ends p fr fw v3) in *.
  assert (fd_table_for_process (s2 <| vs := v4 |>) = aset w0 1 (aset r0 1 t)) as Et.
  { rewrite table_same_ktab by exact K3. apply table_set. }
  rewrite Et in I' |- *. set (t4 := aset w0 (handle fw) (aset r0 (handle fr) (aset w0 1 (aset r0 1 t)))) in *.
  assert (g_open_files (vs (set_fd_table t4 (s2 <| vs := v4 |>))) = g_open_files v4
          /\ g_pipes (vs (set_fd_table t4 (s2 <| vs := v4 |>))) = g_pipes v4) as [Gf Gp].
  { unfold set_fd_table. by destruct (cur (s2 <| vs := v4 |>)). }
  pose proof (table_set t4 (s2 <| vs := v4 |>)) as Et4. set (s4 := set_fd_table t4 (s2 <| vs := v4 |>)) in *.
  clearbody s4.
  assert (aget t4 w0 = handle fw /\ aget t4 r0 = handle fr) as [Gw Gr].
  { unfold t4. unfold table_slot, PROCESS_MAX_OPEN_FILES in *. split.
    - rewrite aget_aset_eq; [done|]. rewrite !length_aset. lia.
    - rewrite aget_aset_ne by lia. rewrite aget_aset_eq; [done|]. rewrite !length_aset. lia. }
  assert (forall i, file (vs s4) i = file v4 i) as Gfile by (intros i; unfold file; by rewrite Gf).
  assert (forall i, pipe (vs s4) i = pipe v4 i) as Gpipe by (intros i; unfold pipe; by rewrite Gp).
  exists fr, fw, p. split; [|exact I'].
  pose proof (vi_len _ _ _ _ I') as (_ & Hlf4 & Hlp4).
  split; rewrite ?Gfile, ?Gpipe; try done.
  - unfold fd_lookup. rewrite Et4. by apply lookup_entry.
  - unfold fd_lookup. rewrite Et4. by apply lookup_entry.
  - pose proof (vi_pipe _ _ _ _ I' p Hp) as Ip. rewrite Gpipe in Ip.
    pose proof (ends_pos true p fr (vs s4) Hfr) as Hpos. rewrite Gfile in Hpos.
    destruct (p_used (pipe v4 p)) eqn:Hup; [split; [apply Ip|lia]|].
    exfalso. destruct Ip as [Z1 _].
    destruct (lookup_file o s4 r0 fr I') as (_ & _ & _ & Hu4 & _).
    { unfold fd_lookup. rewrite Et4. by apply lookup_entry. }
    rewrite Gfile in Hu4. destruct Sr as (_ & _ & Su).
    rewrite (end_of_pipe true p p _ true), bool_decide_true in Hpos by done. specialize (Hpos eq_refl). lia.
  - by rewrite Sc.
Qed.

(** A caller that exists. *)
Definition caller_ok y (who : option nat) : bool :=
  match who with Some k => (k <? length (sy_procs y))%nat | None => true end.

Lemma caller_inv y who : vreachable y -> caller_ok y who = true -> exists o, st_inv o (caller y who).
Proof.
  intros Hr Hw. pose proof (vreachable_inv y Hr) as Hy. destruct who as [k|]; cbn in Hw.
  - apply Nat.ltb_lt in Hw. destruct (lookup_lt_is_Some_2 (sy_procs y) k Hw) as [p Hp].
    exists (rest y k). unfold st_inv, caller. rewrite Hp. by apply view_process.
  - eexists. apply Hy.
Qed.

(** ** Opening *)

(** Two states with the same references agree on which files are in use and how often. *)
Lemma same_refs x o t v v' i :
  vfs_inv x o t v -> vfs_inv x o t v' -> file_slot i ->
  f_used (file v' i) = f_used (file v i)
  /\ (f_used (file v i) = true -> f_refcount (file v' i) = f_refcount (file v i)).
Proof.
  intros I I' Hi. pose proof (vi_ref _ _ _ _ I i Hi) as R. pose proof (vi_ref _ _ _ _ I' i Hi) as R'.
  destruct (f_used (file v i)), (f_used (file v' i)); split; try done; lia.
Qed.

Lemma vfs_open_cases o s path flags :
  st_inv o s ->
  let '(fd, s') := vfs_open_flags path flags s in
  (fd = -1 /\ fd_table_for_process s' = fd_table_for_process s)
  \/ (fd = process_fd_alloc s /\ 0 <= fd /\ exists i, file_slot i /\ f_used (file (vs s) i) = false
      /\ fd_table_for_process s' = aset fd (handle i) (fd_table_for_process s)).
Proof.
  intros I. unfold vfs_open_flags. destruct (resolve_path path s) as [[[abs m] sub]|]; [|by left].
  destruct (m_read_only m && _); [by left|].
  pose proof (file_alloc_ktab (vs s)) as K1.
  destruct (file_alloc (vs s)) as [[i|] v1] eqn:Ea; cbn [snd] in K1.
  2: { left. split; [done|]. by apply table_same_ktab. }
  set (v2 := set_file i _ v1). pose proof (open_backend_ktab i m sub flags v2) as K2.
  destruct (open_backend i m sub flags v2) as [rc v3]. cbn [snd] in K2.
  assert (g_kernel_open_files v3 = g_kernel_open_files (vs s)) as K3 by (rewrite K2; exact K1).
  destruct (negb (rc =? 0)); [left; split; [done|]; apply table_same_ktab; by rewrite file_release_ktab|].
  destruct (Z.ltb_spec (process_fd_alloc s) 0); [left; split; [done|]; apply table_same_ktab; by rewrite file_release_ktab|].
  right. split; [done|]. split; [lia|]. destruct (inv_file_alloc _ _ _ _ _ _ I Ea) as (Hi & Hu & _).
  exists i. split; [done|]. split; [done|]. rewrite table_set. f_equal. by apply table_same_ktab.
Qed.

(** C16: what opening a file does to the descriptors.  In a reachable state, for the kernel or any
    process, an open that fails returns -1 and leaks nothing: the caller's table and the use and
    reference count of every file are as before.  An open that succeeds returns the lowest free
    descriptor; that entry, and no other, now leads to a file that was not in use and has exactly
    one reference; all other files keep their counts. *)
Theorem vfs_open_no_leak y who path flags :
  vreachable y -> caller_ok y who = true ->
  let s := caller y who in
  let '(fd, s') := vfs_open_flags path flags s in
  if fd <? 0
  then fd = -1 /\ fd_table_for_process s' = fd_table_for_process s
       /\ forall j, file_slot j -> f_used (file (vs s') j) = f_used (file (vs s) j)
            /\ (f_used (file (vs s) j) = true -> f_refcount (file (vs s') j) = f_refcount (file (vs s) j))
  else fd_lookup s fd = None /\ (forall k, 0 <= k < fd -> aget (fd_table_for_process s) k <> 0)
       /\ exists i, file_slot i /\ f_used (file (vs s) i) = false
            /\ fd_table_for_process s' = aset fd (handle i) (fd_table_for_process s)
            /\ f_used (file (vs s') i) = true /\ f_refcount (file (vs s') i) = 1
            /\ forall j, file_slot j -> j <> i -> f_used (file (vs s') j) = f_used (file (vs s) j)
                 /\ (f_used (file (vs s) j) = true -> f_refcount (file (vs s') j) = f_refcount (file (vs s) j)).
Proof.
  intros Hr Hw s. destruct (caller_inv y who Hr Hw) as [o I]. fold s in I.
  pose proof (proj1 (keeps_open path flags s) o I) as I'. pose proof (vfs_open_cases o s path flags I) as Hc.
  destruct (vfs_open_flags path flags s) as [fd s']. cbn [snd] in I'.
  destruct Hc as [[-> Et]|(-> & Hfd & i & Hi & Hu & Et)].
  - cbn. split; [done|]. split; [done|]. intros j Hj. apply (same_refs None o (fd_table_for_process s)); [done| |done].
    unfold st_inv in I'. by rewrite Et in I'.
  - rewrite (proj2 (Z.ltb_ge _ _)) by lia. destruct (fd_alloc_spec o s I Hfd) as [Ht Hz].
    split. { unfold fd_lookup, fd_lookup_on_table. rewrite Hz. by destruct (negb _). }
    split. { unfold process_fd_alloc in *. destruct (find_index _ _) as [k0|] eqn:Hf; [|lia].
             apply find_index_Some in Hf as (_ & _ & Hlt). intros k Hk E. specialize (Hlt k Hk).
             apply Z.eqb_neq in Hlt. done. }
    exists i. split; [done|]. split; [done|]. split; [done|].
    destruct (vi_len _ _ _ _ I) as (Hl & _). unfold st_inv in I'. rewrite Et in I'.
    assert (forall j, file_slot j -> cnt (aset (process_fd_alloc s) (handle i) (fd_table_for_process s)) j
            = cnt (fd_table_for_process s) j + b2z (i =? j)) as Hcnt.
    { intros j Hj. rewrite cnt_set by done. rewrite Hz, handle_not_0, handle_eqb by done. simpl b2z. lia. }
    pose proof (vi_ref _ _ _ _ I i Hi) as R. rewrite Hu in R.
    pose proof (vi_ref _ _ _ _ I' i Hi) as R'. rewrite Hcnt, Z.eqb_refl in R' by done. simpl b2z in R'.
    destruct (f_used (file (vs s') i)) eqn:Hu'; [|lia]. split; [done|]. split; [lia|].
    intros j Hj Hne. pose proof (vi_ref _ _ _ _ I j Hj) as Rj. pose proof (vi_ref _ _ _ _ I' j Hj) as Rj'.
    rewrite Hcnt, (proj2 (Z.eqb_neq i j)) in Rj' by done. simpl b2z in Rj'.
    destruct (f_used (file (vs s) j)), (f_used (file (vs s') j)); split; try done; lia.
Qed.

(** ** Reachable states *)

(** C14: the invariant of the file layer.  In every state reached from [vfs_init] by calls of the
    kernel and of any processes, a file is in use exactly when some descriptor of some table leads
    to it, and its reference count is the number of those descriptors; a pipe is in use exactly
    when a file in use is an end of it, its reader and writer counts are the numbers of read and
    write ends, and its ring indices are consistent; and the position of a buffered file never
    exceeds its size, which never exceeds the bytes of its buffer. *)
Theorem vfs_reachable_invariant y :
  vreachable y ->
  let v := sy_vfs y in
  (forall i, file_slot i ->
     if f_used (file v i) then f_refcount (file v i) = total (all_tables y) i /\ 0 < f_refcount (file v i)
     else total (all_tables y) i = 0)
  /\ (forall p, pipe_slot p ->
     if p_used (pipe v p)
     then pipe_ok (pipe v p) /\ p_readers (pipe v p) = ends true p v /\ p_writers (pipe v p) = ends false p v
          /\ 0 < ends true p v + ends false p v
     else ends true p v = 0 /\ ends false p v = 0)
  /\ (forall i, file_slot i -> f_used (file v i) = true -> file_ok (v_memfs v) (file v i)).
Proof.
  intros Hr. destruct (vreachable_inv y Hr) as [[_ _ _ I4 I5 _ I7 _] _]. cbv zeta. split; [|split; [|done]].
  - intros i Hi. specialize (I4 i Hi). cbn [all_tables total]. destruct (f_used (file (sy_vfs y) i)); lia.
  - intros p Hp. specialize (I7 p Hp). destruct (p_used (pipe (sy_vfs y) p)); [|done].
    destruct I7 as (? & ? & ? & [?|?]); [done|]. done.
Qed.

(** Every call returns.  In a reachable state, any allowed call - in particular any write of up
    to 2^62 bytes, through the doubling loops of [ensure_regular_capacity] and [memfs_write] -
    terminates, and the state it leaves is reachable, so the next call returns as well. *)
Theorem vfs_calls_return y st :
  vreachable y -> vstep_allowed st y = true -> exists y', run_vstep st y = Some y' /\ vreachable y'.
Proof.
  intros Hr Ha. destruct (vstep_keeps st y (vreachable_inv y Hr) Ha) as (y' & E & _).
  exists y'. split; [done|]. by eapply vreach_step.
Qed.

(** C15: a pipe is a FIFO queue of 4096 bytes.  After a successful [vfs_pipe] in a reachable state,
    any sequence of writes to the write end and reads from the read end returns exactly what the
    abstract queue returns: each write stores as much as fits and says how much, each read takes
    the oldest bytes; no byte is lost, duplicated or reordered, across any number of wrap-arounds
    of the ring buffer. *)
Theorem vfs_pipe_refines_fifo y who r w s ops :
  vreachable y -> caller_ok y who = true -> vfs_pipe (caller y who) = (Some (r, w), s) ->
  Forall (fun op => match op with ChRead n => 0 <= n | ChWrite _ => True end) ops ->
  exists s' p, run_chan r w ops s = Some ((run_fifo ops []).1, s')
               /\ pipe_content (pipe (vs s') p) = (run_fifo ops []).2.
Proof.
  intros Hr Hw E Hops. destruct (caller_inv y who Hr Hw) as [o I].
  destruct (vfs_pipe_channel o _ r w s I E) as (i & j & p & C & _).
  destruct (run_chan_fifo r w i j p ops s [] C) as (s' & E' & C').
  { eapply Forall_impl; [exact Hops|]. by intros []. }
  exists s', p. split; [exact E'|]. apply (ch_q _ _ _ _ _ _ _ C').
Qed.

(** ** Buffered files *)

(** The bytes of a buffered file. *)
Definition file_data (f : vfs_file_t) : list Z := take (Z.to_nat (reg_size (f_u f))) (bytes_of (reg_buf (f_u f))).

(** A file of a writable FAT mount, open for reading and writing. *)
Definition fat_file (f : vfs_file_t) : Prop :=
  (f_backend f = VFS_BACKEND_FAT12 \/ f_backend f = VFS_BACKEND_FAT32)
  /\ has_flag (f_mode f) VFS_MODE_READ = true /\ has_flag (f_mode f) VFS_MODE_WRITE = true.

Lemma fat_regular m f : file_ok m f -> fat_file f -> exists buf sz cap ow, f_u f = URegular buf sz cap ow.
Proof.
  intros Hok [Hb _]. unfold file_ok in Hok. destruct (f_u f) as [buf sz cap ow|ino|po r w|k idx]; [eauto|..];
    destruct Hok as (E & _); destruct Hb as [Hb|Hb]; congruence.
Qed.

Lemma zlen_file_data m f : file_ok m f -> fat_file f -> zlen (file_data f) = reg_size (f_u f) /\ 0 <= f_pos f <= reg_size (f_u f).
Proof.
  intros Hok Hf. destruct (fat_regular _ _ Hok Hf) as (buf & sz & cap & ow & Eu). unfold file_ok, file_data in *.
  rewrite Eu in *. cbn [reg_size reg_buf]. destruct Hok as (_ & _ & _ & ? & ? & ? & ?).
  unfold zlen in *. rewrite length_take. lia.
Qed.

(** What the stores of a write leave. *)
Lemma regular_store_data m f src buf sz cap ow :
  file_ok m f -> f_u f = URegular buf sz cap ow -> f_pos f + zlen src <= cap -> (0 < f_pos f + zlen src -> buf <> None) ->
  file_data (regular_store f src (zlen src))
  = take (Z.to_nat (f_pos f)) (file_data f) ++ src ++ drop (Z.to_nat (f_pos f + zlen src)) (file_data f)
  /\ f_pos (regular_store f src (zlen src)) = f_pos f + zlen src.
Proof.
  intros Hok Eu Hroom Hbuf. unfold file_ok in Hok. rewrite Eu in Hok. destruct Hok as (_ & _ & _ & H4 & H5 & H6 & H7).
  pose proof (zlen_nonneg src) as Hs. unfold regular_store, file_data. rewrite Eu. cbn.
  rewrite u64_id by (unfold is_u64; lia). split; [|done].
  assert (zlen src = Z.of_nat (length src)) as Ez by done.
  replace (Z.to_nat (if sz <? f_pos f + zlen src then f_pos f + zlen src else sz))
    with (Z.to_nat sz `max` (Z.to_nat (f_pos f) + length src))%nat
    by (destruct (Z.ltb_spec sz (f_pos f + zlen src)); lia).
  replace (Z.to_nat (f_pos f + zlen src)) with (Z.to_nat (f_pos f) + length src)%nat by lia.
  destruct buf as [[a d]|]; cbn [bytes_of] in *.
  - unfold zlen in *. rewrite Nat2Z.id, copy_in_splice, splice_take by lia.
    replace (Z.to_nat (f_pos f) - Z.to_nat sz)%nat with 0%nat by lia. done.
  - destruct (decide (0 < f_pos f + zlen src)) as [Hlt|Hge]; [by destruct (Hbuf Hlt)|].
    assert (src = []) as -> by (apply length_zero_iff_nil; lia). by rewrite !take_nil, drop_nil.
Qed.

Lemma file_after_set s i f : file_slot i -> length (g_open_files (vs s)) = 128%nat ->
  forall v, g_open_files v = g_open_files (vs s) -> file (set_file i f v) i = f.
Proof. intros Hi Hl v E. rewrite file_set by (rewrite ?E; done). by rewrite decide_True. Qed.

(** The outcomes of a write to a FAT file. *)
Lemma fat_write_spec o s fd i src :
  st_inv o s -> fd_lookup s fd = Some i -> let f := file (vs s) i in
  fat_file f -> has_flag (f_flags f) VFS_O_APPEND = false -> zlen src <= 2 ^ 62 ->
  exists n s', vfs_write fd (Some src) (zlen src) s = Some (n, s') /\ st_inv o s' /\ fd_lookup s' fd = Some i
    /\ fat_file (file (vs s') i)
    /\ ((n = 0 /\ file_data (file (vs s') i) = file_data f)
        \/ (n = zlen src /\ f_pos (file (vs s') i) = f_pos f + n
            /\ file_data (file (vs s') i)
               = take (Z.to_nat (f_pos f)) (file_data f) ++ src ++ drop (Z.to_nat (f_pos f + n)) (file_data f))).
Proof.
  intros I El f Hfat Hna Hsrc. destruct (lookup_file o s fd i I El) as (_ & Hi & _ & Hu & Hok). fold f in Hu, Hok.
  pose proof (vi_len _ _ _ _ I) as (_ & Hl & _). pose proof (zlen_nonneg src).
  destruct (keeps_write fd (Some src) s) as (n & s' & E & K & _); [by exists o|by intros ? [= <-]|].
  specialize (K o I). exists n, s'. split; [exact E|]. split; [done|].
  rewrite (vfs_write_at fd i) in E by done. destruct Hfat as (Hb & Hmr & Hmw). fold f in E. rewrite Hmw in E. cbn [negb] in E.
  assert (append_pos f (vs s) = f) as Ea by (unfold append_pos; by rewrite Hna).
  rewrite Ea in E. unfold f in E at 1. rewrite set_file_same in E by (rewrite Hl; exact Hi).
  assert (s <| vs := vs s |> = s) as Es by (by destruct s). rewrite Es in E.
  destruct (fat_regular _ _ Hok (conj Hb (conj Hmr Hmw))) as (buf & sz & cap & ow & Eu).
  pose proof (zlen_file_data _ _ Hok (conj Hb (conj Hmr Hmw))) as [_ Hpos].
  assert (sz <= 2 ^ 62) as Hsz.
  { unfold file_ok in Hok. rewrite Eu in Hok. destruct Hok as (_ & _ & _ & ? & ? & ? & ?). lia. }
  rewrite Eu in Hpos. cbn [reg_size] in Hpos.
  assert (write_at i src (zlen src) s
          = match ensure_regular_capacity f (u64 (f_pos f + zlen src)) (v_env (vs s)) with
            | None => None
            | Some (rc, f2, b) =>
                if negb (rc =? 0) then Some (0, s <| vs := vs s <| v_env := b |> |>) else
                Some (zlen src, s <| vs := set_file i (regular_store f2 src (zlen src)) (vs s <| v_env := b |>) |>)
            end) as Ew by (unfold write_at; fold f; destruct Hb as [-> | ->]; done).
  rewrite Ew in E. rewrite u64_id in E by (unfold is_u64; lia).
  destruct (ensure_spec f (f_pos f + zlen src) (v_env (vs s)) (v_memfs (vs s)) Hok ltac:(eauto 10) ltac:(lia))
    as (f2 & b2 & [Ec|[Ec (buf' & cap' & ow' & Ef2 & Hok2 & Hroom & Hnn & Htake)]]); rewrite Ec in E; cbn in E; injection E as <- <-.
  - split; [exact El|]. split; [exact (conj Hb (conj Hmr Hmw))|]. left. done.
  - cbn [vs field_set]. split; [exact El|].
    rewrite (file_after_set s) by done.
    assert (f_u f2 = URegular buf' (reg_size (f_u f)) cap' ow') as Eu2 by (by rewrite Ef2).
    assert (f_pos f2 = f_pos f) as Ep2 by (by rewrite Ef2).
    assert (file_data f2 = file_data f) as Ed2 by (unfold file_data at 1; by rewrite Eu2).
    destruct (regular_store_data (v_memfs (vs s)) f2 src buf' (reg_size (f_u f)) cap' ow' Hok2 Eu2) as [D P];
      [by rewrite Ep2|by rewrite Ep2|].
    split. { unfold fat_file, regular_store. rewrite Eu2, Ef2. exact (conj Hb (conj Hmr Hmw)). }
    right. split; [done|]. rewrite P, D, Ed2, Ep2. done.
Qed.

(** Reading and seeking in a FAT file. *)
Lemma fat_seek_read o s fd i pos n :
  st_inv o s -> fd_lookup s fd = Some i -> fat_file (file (vs s) i) ->
  0 <= pos -> 0 <= n -> pos + n <= zlen (file_data (file (vs s) i)) ->
  exists s2 s3, vfs_seek fd pos VFS_SEEK_SET s = (pos, s2)
    /\ vfs_read fd true n s2 = (take (Z.to_nat n) (drop (Z.to_nat pos) (file_data (file (vs s) i))), s3).
Proof.
  intros I El Hfat Hp Hn Hle. set (f := file (vs s) i) in *.
  destruct (lookup_file o s fd i I El) as (_ & Hi & _ & Hu & Hok). fold f in Hu, Hok.
  pose proof (vi_len _ _ _ _ I) as (_ & Hl & _).
  destruct (zlen_file_data _ _ Hok Hfat) as [Hz _]. destruct (fat_regular _ _ Hok Hfat) as (buf & sz & cap & ow & Eu).
  pose proof Hok as Hok'. unfold file_ok in Hok'. rewrite Eu in Hok'. destruct Hok' as (_ & _ & _ & H4 & H5 & H6 & H7).
  rewrite Hz, Eu in Hle. cbn [reg_size] in Hle. destruct Hfat as (Hb & Hmr & _).
  assert (size_for_seek f (vs s) = sz) as Esz by (unfold size_for_seek; rewrite Eu; destruct Hb as [-> | ->]; done).
  set (f2 := f <| f_pos := pos |>). exists (s <| vs := set_file i f2 (vs s) |>).
  assert (vfs_seek fd pos VFS_SEEK_SET s = (pos, s <| vs := set_file i f2 (vs s) |>)) as ->.
  { unfold vfs_seek. rewrite El. fold f. rewrite bool_decide_false by (destruct Hb; congruence).
    rewrite Esz. cbn [Z.eqb VFS_SEEK_SET]. change (0 =? VFS_SEEK_SET) with true. cbv iota.
    rewrite (proj2 (Z.ltb_ge sz pos)) by lia. done. }
  unfold vfs_read. change (fd_lookup (s <| vs := set_file i f2 (vs s) |>) fd) with (fd_lookup s fd). rewrite El.
  cbn [vs field_set]. rewrite (file_after_set s) by done.
  change (f_mode f2) with (f_mode f). change (f_backend f2) with (f_backend f). change (f_u f2) with (f_u f).
  change (f_pos f2) with pos. rewrite Hmr, Eu. cbn [negb orb reg_buf reg_size].
  assert (exists s3, (match buf with
     | None => ([], s <| vs := set_file i f2 (vs s) |>)
     | Some (_, data) => if sz <=? pos then ([], s <| vs := set_file i f2 (vs s) |>) else
         (copy_out data pos (Z.to_nat (clamp_count sz pos n)),
          s <| vs := set_file i f2 (vs s) |> <| vs := set_file i (f2 <| f_pos := u64 (pos + clamp_count sz pos n) |>) (set_file i f2 (vs s)) |>)
     end) = (take (Z.to_nat n) (drop (Z.to_nat pos) (file_data f)), s3)) as [s3 E3].
  { unfold file_data. rewrite Eu. cbn [reg_size reg_buf]. destruct buf as [[a d]|]; cbn [bytes_of] in *.
    - destruct (Z.leb_spec sz pos) as [Hge|Hlt].
      + eexists. replace (Z.to_nat n) with 0%nat by lia. by rewrite take_0.
      + eexists. f_equal. unfold clamp_count. rewrite (proj2 (Z.ltb_ge _ _)) by lia.
        unfold zlen in *. rewrite copy_out_slice by lia. rewrite skipn_firstn_comm, take_take. f_equal. lia.
    - eexists. by rewrite take_nil, drop_nil, take_nil. }
  exists s3. split; [done|]. destruct Hb as [Hb|Hb]; rewrite Hb; exact E3.
Qed.

(** C17: what was written is read back.  In a reachable state, for a file on a FAT mount open for
    reading and writing without O_APPEND, a write returns; it either stores nothing and leaves the
    contents alone, or it stores every byte at the file's position, keeping the bytes before and
    after, and seeking back and reading the same number of bytes returns exactly the bytes written. *)
Theorem vfs_write_read y who fd i src :
  vreachable y -> caller_ok y who = true ->
  let s := caller y who in let f := file (vs s) i in
  fd_lookup s fd = Some i -> fat_file f -> has_flag (f_flags f) VFS_O_APPEND = false -> zlen src <= 2 ^ 62 ->
  exists n s1, vfs_write fd (Some src) (zlen src) s = Some (n, s1)
    /\ ((n = 0 /\ file_data (file (vs s1) i) = file_data f)
        \/ (n = zlen src
            /\ file_data (file (vs s1) i)
               = take (Z.to_nat (f_pos f)) (file_data f) ++ src ++ drop (Z.to_nat (f_pos f + n)) (file_data f)
            /\ exists s2 s3, vfs_seek fd (f_pos f) VFS_SEEK_SET s1 = (f_pos f, s2)
                             /\ vfs_read fd true n s2 = (src, s3))).
Proof.
  intros Hr Hw s f El Hfat Hna Hsrc. destruct (caller_inv y who Hr Hw) as [o I]. fold s in I.
  destruct (fat_write_spec o s fd i src I El Hfat Hna Hsrc) as (n & s1 & E & I1 & El1 & Hf1 & Hc).
  exists n, s1. split; [exact E|]. destruct Hc as [Hc|(En & _ & D)]; [by left|right]. fold f in D.
  split; [done|]. split; [done|]. destruct (lookup_file o s fd i I El) as (_ & _ & _ & _ & Hok). fold f in Hok.
  destruct (zlen_file_data _ _ Hok Hfat) as [Hz Hp]. rewrite <- Hz in Hp. pose proof (zlen_nonneg src).
  assert (length (take (Z.to_nat (f_pos f)) (file_data f)) = Z.to_nat (f_pos f)) as Hlt
    by (unfold zlen in Hp; rewrite length_take; lia).
  destruct (fat_seek_read o s1 fd i (f_pos f) n I1 El1 Hf1) as (s2 & s3 & E2 & E3); [lia..| |].
  { rewrite D. unfold zlen in *. rewrite !length_app, Hlt. lia. }
  exists s2, s3. split; [exact E2|]. rewrite E3, D. f_equal.
  rewrite drop_app_length' by lia. apply take_app_length'. unfold zlen in En. lia.
Qed.

(** Releasing the buffer a file owns. *)
Definition free_buffer (f : vfs_file_t) (b : B) : B :=
  match reg_buf (f_u f) with Some (a, _) => if reg_owns (f_u f) then kfree a b else b | None => b end.

(** What destroying a file that is no pipe does. *)
Lemma file_destroy_regular i v rc f b :
  flush_regular_file (file v i) (v_env v) = (rc, f, b) -> f_backend f <> VFS_BACKEND_PIPE ->
  file_slot i -> length (g_open_files v) = 128%nat ->
  f_used (file (file_destroy i v) i) = false /\ v_env (file_destroy i v) = free_buffer f b.
Proof.
  intros E Hb Hi Hl. unfold file_destroy, free_buffer. rewrite E.
  destruct (f_backend f); try done;
    (destruct (reg_buf (f_u f)) as [[a d]|]; [destruct (reg_owns (f_u f))|];
     (split; [rewrite file_set by (try exact Hi; cbn; by rewrite length_aset); by rewrite decide_True|done])).
Qed.

(** Closing writes back.  Closing one of several descriptors of a FAT12 file open for writing
    changes nothing on the disk and drops one reference.  Closing the last one hands the disk driver
    the file's path and exactly its contents - when there are unwritten changes, and only then -
    and the file's record is free.  In both cases the descriptor is free and the others are as before. *)
Theorem vfs_close_flushes y who fd i :
  vreachable y -> caller_ok y who = true ->
  let s := caller y who in let f := file (vs s) i in
  fd_lookup s fd = Some i -> f_backend f = VFS_BACKEND_FAT12 -> has_flag (f_mode f) VFS_MODE_WRITE = true ->
  let s' := vfs_close fd s in
  fd_table_for_process s' = aset fd 0 (fd_table_for_process s)
  /\ if 1 <? f_refcount f
     then v_env (vs s') = v_env (vs s) /\ f_used (file (vs s') i) = true /\ f_refcount (file (vs s') i) = f_refcount f - 1
     else f_used (file (vs s') i) = false
          /\ v_env (vs s') = free_buffer f (if f_dirty f then (fat12_write_file (f_path f) (file_data f) (v_env (vs s))).2
                                            else v_env (vs s)).
Proof.
  intros Hr Hw s f El Hb Hm s'. destruct (caller_inv y who Hr Hw) as [o I]. fold s in I.
  destruct (lookup_file o s fd i I El) as (_ & Hi & _ & Hu & _). fold f in Hu.
  pose proof (vi_len _ _ _ _ I) as (_ & Hl & _).
  unfold s', vfs_close, close_fd, fd_close_on_table. fold (fd_lookup s fd). rewrite El.
  split; [apply table_set|].
  assert (forall t s0, vs (set_fd_table t s0) = vs s0 \/ exists k, vs (set_fd_table t s0) = vs s0 <| g_kernel_open_files := k |>) as Hv.
  { intros t s0. unfold set_fd_table. destruct (cur s0); [by left|right; by eexists]. }
  set (t' := aset fd 0 _). set (s1 := s <| vs := file_release i (vs s) |>).
  assert (v_env (vs (set_fd_table t' s1)) = v_env (file_release i (vs s))) as ->
    by (destruct (Hv t' s1) as [->|[k ->]]; done).
  assert (file (vs (set_fd_table t' s1)) i = file (file_release i (vs s)) i) as ->
    by (destruct (Hv t' s1) as [->|[k ->]]; done).
  clear Hv. unfold file_release. fold f. rewrite Hu. cbn [negb].
  destruct (Z.ltb_spec 1 (f_refcount f)) as [Hrc|Hrc].
  - split; [done|]. rewrite file_set by done. rewrite decide_True by done. done.
  - pose proof (file_destroy_regular i (vs s)) as Hd. fold f in Hd. unfold flush_regular_file in Hd.
    rewrite Hb, Hm in Hd. destruct (f_dirty f); cbn [negb] in Hd; [|apply (Hd 0 f); congruence].
    fold (file_data f) in Hd. destruct (fat12_write_file (f_path f) (file_data f) (v_env (vs s))) as [rc b]. cbn [snd].
    destruct (negb (rc =? 0)); [apply (Hd (-1) f); congruence|].
    change (free_buffer f b) with (free_buffer (f <| f_dirty := false |>) b).
    apply (Hd 0 (f <| f_dirty := false |>) b); [done|cbn; congruence|done|done].
Qed.
End props.

(** ** A concrete machine

    The bump heap of [Memfs], a FAT12 disk that is a list of paths and contents, and no other
    devices. *)
Record machine := mkMachine { m_heap : bump; m_disk : list (cstr * list Z); m_fb : list Z }.

Definition disk_find (path : cstr) (d : list (cstr * list Z)) : option (list Z) :=
  match find (fun e => kstreq (e.1) path) d with Some (_, l) => Some l | None => None end.

#[export] Instance machine_heap : Heap machine := {
  kmalloc n b := let '(r, h) := kmalloc n (m_heap b) in (r, mkMachine h (m_disk b) (m_fb b));
  kfree a b := mkMachine (kfree a (m_heap b)) (m_disk b) (m_fb b);
}.
#[export] Instance machine_heap_laws : HeapLaws machine.
Proof.
  split. intros n b a d b'. cbn [kmalloc machine_heap]. destruct (kmalloc n (m_heap b)) as [r h] eqn:E.
  intros [= -> <-]. exact (kmalloc_block (B:=bump) _ _ _ _ _ E).
Qed.

#[export] Instance machine_env : VfsEnv machine := {
  vfs_heap := machine_heap;
  fat12_stat path b := match disk_find path (m_disk b) with
                       | Some l => if zlen l <? 2 ^ 32 then Some (false, zlen l) else None
                       | None => None
                       end;
  fat12_read_file path n b := match disk_find path (m_disk b) with
                              | Some l => (zlen (take (Z.to_nat n) l), take (Z.to_nat n) l)
                              | None => (-1, [])
                              end;
  fat12_write_file path l b :=
    (0, mkMachine (m_heap b) ((path, l) :: filter (fun e => negb (kstreq (e.1) path)) (m_disk b)) (m_fb b));
  fat12_list_dir path b := Some (map fst (m_disk b));
  fat32_stat path b := None;
  fat32_read_file path n b := (-1, []);
  fat32_write_file path l b := (-1, b);
  fat32_list_dir path b := None;
  initrd_lookup path b := None;
  procfs_stat path st b := None;
  procfs_list path n b := None;
  procfs_read_file path b := (None, b);
  sysfs_stat path st b := None;
  sysfs_list path n b := None;
  sysfs_read_file path b := (None, b);
  bootfs_stat path st b := None;
  bootfs_list path n b := None;
  bootfs_read_file path b := (None, b);
  bootfs_module_count b := 0;
  fb_info b := mkFbInfo 0xE0000000 16 4 2 32;
  fb_mem b := m_fb b;
  set_fb_mem l b := mkMachine (m_heap b) (m_disk b) l;
  procfs_init b := b;
  sysfs_init b := b;
  bootfs_init boot b := b;
  fat12_init addr size b := (0, b);
  ata_init b := (false, b);
  fat32_init b := (-1, b);
  initrd_init_from_multiboot boot b := b;
}.
#[export] Instance machine_laws : VfsEnvLaws machine.
Proof.
  split; try done.
  - exact machine_heap_laws.
  - intros path b d s. cbn. destruct (disk_find _ _) as [l|]; [|done].
    destruct (Z.ltb_spec (zlen l) (2 ^ 32)); [|done]. intros [= _ <-]. pose proof (zlen_nonneg l). lia.
  - intros path n b r l Hn. cbn. assert (forall k : list Z, zlen (take (Z.to_nat n) k) <= n) as Hk
      by (intros k; unfold zlen; rewrite length_take; lia).
    destruct (disk_find _ _) as [k|]; intros [= <- <-]; [by split|]. unfold zlen; simpl length; lia.
  - intros path n b r l Hn. cbn. intros [= <- <-]. unfold zlen; simpl length; lia.
Qed.

(** Two processes; the disk of the boot module holds the file "a". *)
Definition ex_boot : boot_arg := BootTsukasa [(0x100000, 4096)].
Definition ex_machine : machine := mkMachine 1%positive [([47; 97], [1; 2; 3; 4; 5])] (repeat 0 32).
Definition ex_y : vsys (B:=machine) := vsys_init ex_boot ex_machine 2.
Definition ex_path : option cstr := Some [47; 102; 97; 116; 49; 50; 47; 97].   (* "/fat12/a" *)
Definition ex_open : vstep := VCall (Some 0%nat) (VOpen ex_path (Z.lor VFS_O_RDONLY VFS_O_WRONLY)).
Definition ex_y1 : vsys (B:=machine) := match run_vstep ex_open ex_y with Some y => y | None => ex_y end.
Definition ex_seek : vstep := VCall (Some 0%nat) (VSeek 0 4 VFS_SEEK_SET).
Definition ex_y2 : vsys (B:=machine) := match run_vstep ex_seek ex_y1 with Some y => y | None => ex_y end.
Definition ex_write : vstep := VCall (Some 0%nat) (VWrite 0 (Some [9; 8; 7])).
Definition ex_y3 : vsys (B:=machine) := match run_vstep ex_write ex_y2 with Some y => y | None => ex_y end.

Lemma ex_reach : vreachable ex_y.
Proof. constructor. Qed.
Lemma ex_reach1 : vreachable ex_y1.
Proof. apply (vreach_step ex_y ex_open); [exact ex_reach|vm_compute; reflexivity..]. Qed.
Lemma ex_reach2 : vreachable ex_y2.
Proof. apply (vreach_step ex_y1 ex_seek); [exact ex_reach1|vm_compute; reflexivity..]. Qed.
Lemma ex_reach3 : vreachable ex_y3.
Proof. apply (vreach_step ex_y2 ex_write); [exact ex_reach2|vm_compute; reflexivity..]. Qed.

Definition ex_s : vst machine := caller ex_y3 (Some 0%nat).

Lemma ex_fat : fat_file (file (vs (caller ex_y2 (Some 0%nat))) 0).
Proof. split; [left; vm_compute; reflexivity|]. split; vm_compute; reflexivity. Qed.

Lemma vfs_open_no_leak_witness :
  let s := caller ex_y2 (Some 1%nat) in
  let '(fd, s') := vfs_open_flags ex_path VFS_O_RDONLY s in
  if fd <? 0
  then fd = -1 /\ fd_table_for_process s' = fd_table_for_process s
       /\ forall j, file_slot j -> f_used (file (vs s') j) = f_used (file (vs s) j)
            /\ (f_used (file (vs s) j) = true -> f_refcount (file (vs s') j) = f_refcount (file (vs s) j))
  else fd_lookup s fd = None /\ (forall k, 0 <= k < fd -> aget (fd_table_for_process s) k <> 0)
       /\ exists i, file_slot i /\ f_used (file (vs s) i) = false
            /\ fd_table_for_process s' = aset fd (handle i) (fd_table_for_process s)
            /\ f_used (file (vs s') i) = true /\ f_refcount (file (vs s') i) = 1
            /\ forall j, file_slot j -> j <> i -> f_used (file (vs s') j) = f_used (file (vs s) j)
                 /\ (f_used (file (vs s) j) = true -> f_refcount (file (vs s') j) = f_refcount (file (vs s) j)).
Proof. apply (vfs_open_no_leak ex_y2 (Some 1%nat) ex_path VFS_O_RDONLY ex_reach2). vm_compute. reflexivity. Defined.

Lemma vfs_reachable_invariant_witness :
  exists i, f_used (file (sy_vfs ex_y3) i) = true /\ f_refcount (file (sy_vfs ex_y3) i) = total (all_tables ex_y3) i.
Proof.
  exists 0. destruct (vfs_reachable_invariant ex_y3 ex_reach3) as (H1 & _ & _).
  assert (f_used (file (sy_vfs ex_y3) 0) = true) as E by (vm_compute; reflexivity).
  assert (file_slot 0) as H0 by (unfold file_slot, VFS_MAX_OPEN_GLOBAL; lia).
  specialize (H1 0 H0). rewrite E in H1. split; [exact E|apply H1].
Defined.

Lemma vfs_calls_return_witness : exists y', run_vstep ex_write ex_y2 = Some y' /\ vreachable y'.
Proof. apply (vfs_calls_return ex_y2 ex_write ex_reach2). vm_compute. reflexivity. Defined.

Lemma vfs_pipe_refines_fifo_witness :
  let ops := [ChWrite [1; 2; 3]; ChRead 2; ChWrite [4]; ChRead 9] in
  exists r w s s' p, vfs_pipe ex_s = (Some (r, w), s)
    /\ run_chan r w ops s = Some ((run_fifo ops []).1, s') /\ pipe_content (pipe (vs s') p) = (run_fifo ops []).2.
Proof.
  intros ops. destruct (vfs_pipe ex_s) as [[[r w]|] s] eqn:E; [|exfalso; revert E; vm_compute; discriminate].
  exists r, w, s. destruct (vfs_pipe_refines_fifo ex_y3 (Some 0%nat) r w s ops ex_reach3) as (s' & p & E1 & E2).
  - vm_compute. reflexivity.
  - exact E.
  - repeat constructor; lia.
  - exists s', p. split; [reflexivity|]. by split.
Defined.

Lemma vfs_write_read_witness :
  let s := caller ex_y2 (Some 0%nat) in let f := file (vs s) 0 in
  exists n s1, vfs_write 0 (Some [6; 6]) 2 s = Some (n, s1)
    /\ ((n = 0 /\ file_data (file (vs s1) 0) = file_data f)
        \/ (n = 2
            /\ file_data (file (vs s1) 0)
               = take (Z.to_nat (f_pos f)) (file_data f) ++ [6; 6] ++ drop (Z.to_nat (f_pos f + n)) (file_data f)
            /\ exists s2 s3, vfs_seek 0 (f_pos f) VFS_SEEK_SET s1 = (f_pos f, s2)
                             /\ vfs_read 0 true n s2 = ([6; 6], s3))).
Proof.
  apply (vfs_write_read ex_y2 (Some 0%nat) 0 0 [6; 6] ex_reach2).
  - vm_compute. reflexivity.
  - vm_compute. reflexivity.
  - exact ex_fat.
  - vm_compute. reflexivity.
  - vm_compute. discriminate.
Defined.

Lemma vfs_close_flushes_witness :
  let s' := vfs_close 0 ex_s in
  m_disk (v_env (vs s')) = [([47; 97], [1; 2; 3; 4; 9; 8; 7])] /\ f_used (file (vs s') 0) = false.
Proof.
  destruct (vfs_close_flushes ex_y3 (Some 0%nat) 0 0 ex_reach3) as [_ H1].
  1-4: vm_compute; reflexivity.
  fold ex_s in H1. assert ((1 <? f_refcount (file (vs ex_s) 0)) = false) as E by (vm_compute; reflexivity).
  rewrite E in H1. destruct H1 as [H1 H2]. split; [|exact H1]. rewrite H2. vm_compute. reflexivity.
Defined.
