(* ===== verification/Tlsf.v ===== *)
(** The two-level segregated fit allocator, [src/mm/tlsf.c], on x86_64.

    Memory is a map from 8-aligned addresses to 64-bit words.  A block header is the 32-bit [size]
    at the block's address (the upper half of the word is padding), [prev_free] at +8 and
    [next_free] at +16; a payload starts at +8 and a footer is the last word of the payload.  The
    control structure is a record; an access of [free_lists] or [sl_bitmap] with an index outside
    their bounds is undefined in C and is [None] here. *)

From S2P Require Import Prelude.

Definition FL_INDEX_MAX : Z := 28.
Definition SL_INDEX_BITS : Z := 4.
Definition SL_INDEX_COUNT : Z := Z.shiftl 1 SL_INDEX_BITS.
Definition FL_INDEX_COUNT : Z := FL_INDEX_MAX - SL_INDEX_BITS + 1.
Definition BLOCK_ALIGN : Z := 8.      (* the size of a pointer *)
Definition BLOCK_MIN : Z := 24.       (* sizeof(block_t) *)
Definition HDR_SIZE : Z := 8.         (* offsetof(block_t, prev_free) *)
Definition FOOTER_SIZE : Z := 8.      (* sizeof(footer_t) *)
Definition CONTROL_SIZE : Z := 3328.  (* sizeof(control_t) *)
Definition BLOCK_FREE : Z := 1.
Definition BLOCK_PREV_FREE : Z := 2.
Definition SZ_MASK : Z := 0xFFFFFFFC.
Definition NULL : Z := 0.

Definition u32_not (x : Z) : Z := 0xFFFFFFFF - x.

(** ** Memory *)

Abbreviation words := (gmap Z Z).
Definition ld (m : words) (a : Z) : Z := default 0 (m !! a).
Definition st (a v : Z) (m : words) : words := <[a := v]> m.

(** The 32-bit value at an 8-aligned address. *)
Definition ld32 (m : words) (a : Z) : Z := u32 (ld m a).
Definition st32 (a v : Z) (m : words) : words := st a (ld m a / 0x100000000 * 0x100000000 + v) m.

(** ** Blocks *)

Definition block_size (m : words) (b : Z) : Z := Z.land (ld32 m b) SZ_MASK.
Definition block_is_free (m : words) (b : Z) : bool := negb (Z.land (ld32 m b) BLOCK_FREE =? 0).
Definition block_prev_free (m : words) (b : Z) : bool := negb (Z.land (ld32 m b) BLOCK_PREV_FREE =? 0).
Definition block_set_size (b sz : Z) (m : words) : words :=
  st32 b (Z.lor (Z.land (ld32 m b) (u32_not SZ_MASK)) (Z.land sz SZ_MASK)) m.
Definition block_set_free (b : Z) (f : bool) (m : words) : words :=
  st32 b (if f then Z.lor (ld32 m b) BLOCK_FREE else Z.land (ld32 m b) (u32_not BLOCK_FREE)) m.
Definition block_set_prev_free (b : Z) (f : bool) (m : words) : words :=
  st32 b (if f then Z.lor (ld32 m b) BLOCK_PREV_FREE else Z.land (ld32 m b) (u32_not BLOCK_PREV_FREE)) m.

Definition prev_free (m : words) (b : Z) : Z := ld m (b + 8).
Definition next_free (m : words) (b : Z) : Z := ld m (b + 16).
Definition set_prev_free (b v : Z) (m : words) : words := st (b + 8) v m.
Definition set_next_free (b v : Z) (m : words) : words := st (b + 16) v m.

Definition block_to_ptr (b : Z) : Z := b + HDR_SIZE.
Definition ptr_to_block (p : Z) : Z := p - HDR_SIZE.
Definition block_phys_next (m : words) (b : Z) : Z := b + HDR_SIZE + block_size m b.
Definition block_phys_prev (m : words) (b : Z) : Z := ld m (b - FOOTER_SIZE).
Definition block_footer (m : words) (b : Z) : Z := b + HDR_SIZE + block_size m b - FOOTER_SIZE.
Definition block_write_footer (b : Z) (m : words) : words := st (block_footer m b) b m.

(** ** Bit scans: [bsrl] and [bsfl], for a nonzero argument *)

Definition fls (v : Z) : Z := Z.log2 v.
Definition ffs (v : Z) : Z :=
  match find_index (Z.testbit v) (seqZ 0 32) with Some i => i | None => 0 end.

(** ** The control structure *)

Record control := mkControl {
  free_lists : list Z;      (* [fl][sl] at fl * 16 + sl *)
  fl_bitmap : Z;
  sl_bitmap : list Z;
}.
#[export] Instance control_rebuild : Rebuild control := fun c =>
  mkControl (free_lists c) (fl_bitmap c) (sl_bitmap c).

Definition mapping_insert (size : Z) : Z * Z :=
  if size <? Z.shiftl 1 SL_INDEX_BITS then (0, size) else
  let fl := fls size in
  (fl, Z.land (Z.shiftr size (fl - SL_INDEX_BITS)) (SL_INDEX_COUNT - 1)).

Definition mapping_search (size : Z) : Z * Z :=
  let size := if Z.shiftl 1 SL_INDEX_BITS <=? size
              then u32 (size + (Z.shiftl 1 (fls size - SL_INDEX_BITS) - 1)) else size in
  mapping_insert size.

(** The element of [free_lists] for a first and second level index, if there is one. *)
Definition bucket (fs : Z * Z) : option Z :=
  if fs.1 <? FL_INDEX_COUNT then Some (fs.1 * SL_INDEX_COUNT + fs.2) else None.

Definition fl_sl_set (fl sl : Z) (c : control) : control :=
  let c := c <| sl_bitmap := aset fl (Z.lor (aget (sl_bitmap c) fl) (Z.shiftl 1 sl)) (sl_bitmap c) |> in
  c <| fl_bitmap := Z.lor (fl_bitmap c) (Z.shiftl 1 fl) |>.

Definition fl_sl_clear (fl sl : Z) (c : control) : control :=
  let c := c <| sl_bitmap := aset fl (Z.land (aget (sl_bitmap c) fl) (u32_not (Z.shiftl 1 sl))) (sl_bitmap c) |> in
  if aget (sl_bitmap c) fl =? 0 then c <| fl_bitmap := Z.land (fl_bitmap c) (u32_not (Z.shiftl 1 fl)) |> else c.

(** ** Free lists *)

Definition insert_block (b : Z) (c : control) (m : words) : option (control * words) :=
  let fs := mapping_insert (block_size m b) in
  match bucket fs with
  | None => None
  | Some k =>
      let head := aget (free_lists c) k in
      let m := set_next_free b head m in
      let m := set_prev_free b NULL m in
      let m := if head =? NULL then m else set_prev_free head b m in
      let c := c <| free_lists := aset k b (free_lists c) |> in
      Some (fl_sl_set (fs.1) (fs.2) c, m)
  end.

Definition remove_block (b : Z) (c : control) (m : words) : option (control * words) :=
  let fs := mapping_insert (block_size m b) in
  match bucket fs with
  | None => None
  | Some k =>
      let '(c, m) := if prev_free m b =? NULL
                     then (c <| free_lists := aset k (next_free m b) (free_lists c) |>, m)
                     else (c, set_next_free (prev_free m b) (next_free m b) m) in
      let m := if next_free m b =? NULL then m else set_prev_free (next_free m b) (prev_free m b) m in
      let c := if aget (free_lists c) k =? NULL then fl_sl_clear (fs.1) (fs.2) c else c in
      Some (c, m)
  end.

(** The block, or [NULL]. *)
Definition find_suitable (size : Z) (c : control) : option Z :=
  let '(fl, sl) := mapping_search size in
  if FL_INDEX_COUNT <=? fl then None else
  let sl_map := Z.land (aget (sl_bitmap c) fl) (u32 (Z.shiftl 0xFFFFFFFF sl)) in
  let head fl sl_map := match bucket (fl, ffs sl_map) with
                        | Some k => Some (aget (free_lists c) k)
                        | None => None
                        end in
  if sl_map =? 0 then
    let fl_map := Z.land (fl_bitmap c) (u32 (Z.shiftl 0xFFFFFFFF (fl + 1))) in
    if fl_map =? 0 then Some NULL else
    let fl := ffs fl_map in head fl (aget (sl_bitmap c) fl)
  else head fl sl_map.

(** ** Merging and splitting *)

Definition coalesce_prev (b : Z) (c : control) (m : words) : option (Z * control * words) :=
  if block_prev_free m b then
    let prev := block_phys_prev m b in
    match remove_block prev c m with
    | None => None
    | Some (c, m) => Some (prev, c, block_set_size prev (u32 (block_size m prev + HDR_SIZE + block_size m b)) m)
    end
  else Some (b, c, m).

Definition coalesce_next (b : Z) (c : control) (m : words) : option (Z * control * words) :=
  let next := block_phys_next m b in
  if block_is_free m next then
    match remove_block next c m with
    | None => None
    | Some (c, m) => Some (b, c, block_set_size b (u32 (block_size m b + HDR_SIZE + block_size m next)) m)
    end
  else Some (b, c, m).

Definition split_block (b size : Z) (m : words) : Z * words :=
  let remain := u32 (block_size m b - size - HDR_SIZE) in
  if remain <? BLOCK_MIN then (NULL, m) else
  let rest := b + HDR_SIZE + size in
  let m := st32 rest remain m in
  let m := block_set_free rest false m in
  let m := block_set_prev_free rest false m in
  let m := block_set_size b size m in
  (rest, m).

(** ** Pools *)

Definition pool_add (mem size : Z) (c : control) (m : words) : option (control * words) :=
  if size <? HDR_SIZE + BLOCK_MIN + HDR_SIZE + FOOTER_SIZE + 4 then Some (c, m) else
  let b := mem in
  let bsz := Z.land (u32 (size - HDR_SIZE - HDR_SIZE - FOOTER_SIZE)) SZ_MASK in
  let m := st32 b 0 m in
  let m := block_set_size b bsz m in
  let m := block_set_free b true m in
  let m := block_set_prev_free b false m in
  let m := block_write_footer b m in
  let sent := block_phys_next m b in
  let m := st32 sent 0 m in
  let m := block_set_prev_free sent true m in
  insert_block b c m.

(** ** The interface

    [None] in the first component of [tlsf_create] is the NULL handle; the other functions are
    called with a handle, which [kmalloc] and [kfree] check. *)

Definition control_zero : control := mkControl (repeat NULL 400) 0 (repeat 0 25).

Definition tlsf_create (mem size : Z) (m : words) : option (option control * words) :=
  if (mem =? NULL) || (size <? CONTROL_SIZE + 64) then Some (None, m) else
  match pool_add (mem + CONTROL_SIZE) (size - CONTROL_SIZE) control_zero m with
  | None => None
  | Some (c, m) => Some (Some c, m)
  end.

Definition tlsf_add_pool (mem size : Z) (c : control) (m : words) : option (control * words) :=
  if mem =? NULL then Some (c, m) else pool_add mem size c m.

(** [size] after alignment and clamping. *)
Definition adjust_size (size : Z) : Z :=
  let size := Z.land (u64 (size + BLOCK_ALIGN - 1)) (0xFFFFFFFFFFFFFFFF - (BLOCK_ALIGN - 1)) in
  if size <? BLOCK_MIN then BLOCK_MIN else size.

Definition tlsf_malloc (size : Z) (c : control) (m : words) : option (Z * control * words) :=
  if size =? 0 then Some (NULL, c, m) else
  let size := adjust_size size in
  match find_suitable (u32 size) c with
  | None => None
  | Some b =>
      if b =? NULL then Some (NULL, c, m) else
      match remove_block b c m with
      | None => None
      | Some (c, m) =>
          let m := block_set_free b false m in
          let '(rest, m) := split_block b (u32 size) m in
          if rest =? NULL then
            Some (block_to_ptr b, c, block_set_prev_free (block_phys_next m b) false m)
          else
            let m := block_set_free rest true m in
            let m := block_write_footer rest m in
            let m := block_set_prev_free (block_phys_next m rest) true m in
            match insert_block rest c m with
            | None => None
            | Some (c, m) => Some (block_to_ptr b, c, m)
            end
      end
  end.

Definition tlsf_free (ptr : Z) (c : control) (m : words) : option (control * words) :=
  if ptr =? NULL then Some (c, m) else
  let b := ptr_to_block ptr in
  let m := block_set_free b true m in
  let m := block_write_footer b m in
  match coalesce_prev b c m with
  | None => None
  | Some (b, c, m) =>
      match coalesce_next b c m with
      | None => None
      | Some (b, c, m) =>
          let m := block_set_prev_free (block_phys_next m b) true m in
          let m := block_write_footer b m in
          insert_block b c m
      end
  end.

(** ** Bytes, for the two functions that clear or copy a block *)

Definition ld8 (m : words) (a : Z) : Z := Z.land (Z.shiftr (ld m (a - a mod 8)) (8 * (a mod 8))) 0xFF.
Definition st8 (a v : Z) (m : words) : words :=
  let w := a - a mod 8 in
  let s := 8 * (a mod 8) in
  st w (Z.lor (Z.ldiff (ld m w) (Z.shiftl 0xFF s)) (Z.shiftl (u8 v) s)) m.

Definition tlsf_calloc (nmemb size : Z) (c : control) (m : words) : option (Z * control * words) :=
  let total := u64 (nmemb * size) in
  match tlsf_malloc total c m with
  | None => None
  | Some (p, c, m) =>
      Some (p, c, if p =? NULL then m else for_up (Z.to_nat total) 0 (fun i m => st8 (p + i) 0 m) m)
  end.

Definition tlsf_realloc (ptr size : Z) (c : control) (m : words) : option (Z * control * words) :=
  if ptr =? NULL then tlsf_malloc size c m else
  if size =? 0 then match tlsf_free ptr c m with Some (c, m) => Some (NULL, c, m) | None => None end else
  match tlsf_malloc size c m with
  | None => None
  | Some (np, c, m) =>
      if np =? NULL then Some (NULL, c, m) else
      let old_size := block_size m (ptr_to_block ptr) in
      let copy := if old_size <? size then old_size else size in
      let m := for_up (Z.to_nat copy) 0 (fun i m => st8 (np + i) (ld8 m (ptr + i)) m) m in
      match tlsf_free ptr c m with
      | None => None
      | Some (c, m) => Some (np, c, m)
      end
  end.
