(* ===== verification/TlsfInv.v ===== *)
(** The invariant of the TLSF heap: headers, the physical chain of blocks, free lists, bitmaps.

    The blocks are described by a map from header addresses to what the header says.  The first
    part is about that map alone; the second relates it to memory; the third is the free lists. *)

From S2P Require Import Prelude Tlsf.

(** * Header words *)

Definition hdr (s : Z) (f p : bool) : Z := s + b2z f + 2 * b2z p.

Definition size_word (s : Z) : Prop := s mod 4 = 0 /\ 0 <= s < 0x100000000.

Lemma hdr_lor s f p : s mod 4 = 0 -> hdr s f p = Z.lor s (b2z f + 2 * b2z p).
Proof.
  intros Hs. unfold hdr. rewrite <- Z.add_assoc. apply Z.add_nocarry_lor. change 4 with (2 ^ 2) in Hs.
  apply Z.bits_inj'. intros n Hn. rewrite Z.land_spec, Z.bits_0. destruct (decide (n < 2)) as [Hlt|Hge].
  - rewrite <- (Z.mod_pow2_bits_low s 2 n) by lia. by rewrite Hs, Z.bits_0.
  - rewrite (testbit_pow2_range (b2z f + 2 * b2z p) 2 n) by (destruct f, p; cbv [b2z]; lia). apply andb_false_r.
Qed.

Lemma hdr_bit s f p n : s mod 4 = 0 -> 0 <= n ->
  Z.testbit (hdr s f p) n = if n =? 0 then f else if n =? 1 then p else Z.testbit s n.
Proof.
  intros Hs Hn. rewrite hdr_lor, Z.lor_spec by done. change 4 with (2 ^ 2) in Hs.
  destruct (Z.eqb_spec n 0) as [->|H0]; [|destruct (Z.eqb_spec n 1) as [->|H1]].
  - rewrite <- (Z.mod_pow2_bits_low s 2 0), Hs by lia. by destruct f, p.
  - rewrite <- (Z.mod_pow2_bits_low s 2 1), Hs by lia. by destruct f, p.
  - rewrite (testbit_pow2_range (b2z f + 2 * b2z p) 2 n) by (destruct f, p; cbv [b2z]; lia). apply orb_false_r.
Qed.

Lemma hdr_range s f p : size_word s -> 0 <= hdr s f p < 0x100000000.
Proof. intros [Hm Hr]. assert (s <= 0xFFFFFFFC) by (pose proof (Z.div_mod s 4); lia). unfold hdr. destruct f, p; cbv [b2z]; lia. Qed.

Lemma mask_bit n : 0 <= n -> Z.testbit SZ_MASK n = (2 <=? n) && (n <? 32).
Proof.
  intros Hn. change SZ_MASK with (Z.shiftl (Z.ones 30) 2). rewrite Z.shiftl_spec by done.
  destruct (Z.leb_spec 2 n), (Z.ltb_spec n 32); cbn [andb].
  - apply Z.ones_spec_low. lia.
  - apply Z.ones_spec_high. lia.
  - apply Z.testbit_neg_r. lia.
  - apply Z.testbit_neg_r. lia.
Qed.

Lemma not_bit j n : 0 <= j < 32 -> 0 <= n -> Z.testbit (u32_not (2 ^ j)) n = (n <? 32) && negb (n =? j).
Proof.
  intros Hj Hn.
  assert (u32_not (2 ^ j) = Z.ldiff (Z.ones 32) (2 ^ j)) as ->.
  { unfold u32_not. change 0xFFFFFFFF with (Z.ones 32). apply Z.sub_nocarry_ldiff.
    apply Z.bits_inj'. intros i Hi. rewrite Z.ldiff_spec, Z.bits_0, Z.pow2_bits_eqb by lia.
    destruct (Z.eqb_spec j i) as [->|]; [|done]. by rewrite Z.ones_spec_low by lia. }
  rewrite Z.ldiff_spec, Z.pow2_bits_eqb by lia. rewrite (Z.eqb_sym j n). f_equal.
  destruct (Z.ltb_spec n 32); [apply Z.ones_spec_low; lia|apply Z.ones_spec_high; lia].
Qed.

Lemma size_word_bit s n : size_word s -> 0 <= n -> (n < 2 \/ 32 <= n) -> Z.testbit s n = false.
Proof.
  intros [Hm Hr] Hn [Hlt|Hge].
  - change 4 with (2 ^ 2) in Hm. rewrite <- (Z.mod_pow2_bits_low s 2 n) by lia. by rewrite Hm, Z.bits_0.
  - by apply (testbit_pow2_range _ 32).
Qed.

Lemma hdr_size s f p : size_word s -> Z.land (hdr s f p) SZ_MASK = s.
Proof.
  intros Hs. pose proof Hs as [Hm _]. apply Z.bits_inj'. intros n Hn.
  rewrite Z.land_spec, hdr_bit, mask_bit by done.
  destruct (Z.leb_spec 2 n), (Z.ltb_spec n 32); cbn [andb].
  - rewrite andb_true_r. destruct (Z.eqb_spec n 0); [lia|]. by destruct (Z.eqb_spec n 1); [lia|].
  - rewrite (size_word_bit s n) by (done || lia). apply andb_false_r.
  - rewrite (size_word_bit s n) by (done || lia). apply andb_false_r.
  - lia.
Qed.

Lemma hdr_flag s f p j : size_word s -> (j = 0 \/ j = 1) ->
  negb (Z.land (hdr s f p) (2 ^ j) =? 0) = if j =? 0 then f else p.
Proof.
  intros [Hm _] Hj. pose proof (bit_test_spec (hdr s f p) j ltac:(lia)) as Hb. unfold bit_test in Hb.
  rewrite Z.shiftl_1_l in Hb. rewrite Hb, hdr_bit by lia. destruct Hj as [-> | ->]; done.
Qed.

Lemma hdr_set s f p j : size_word s -> (j = 0 \/ j = 1) ->
  Z.lor (hdr s f p) (2 ^ j) = if j =? 0 then hdr s true p else hdr s f true.
Proof.
  intros [Hm _] Hj. apply Z.bits_inj'. intros n Hn. rewrite Z.lor_spec, hdr_bit, Z.pow2_bits_eqb by lia.
  destruct Hj as [-> | ->]; [change (0 =? 0) with true|change (1 =? 0) with false]; cbv iota;
    rewrite hdr_bit by lia; destruct (Z.eqb_spec n 0) as [->|H0];
    try destruct (Z.eqb_spec n 1) as [->|H1]; try (by rewrite ?orb_false_r, ?orb_true_r).
  - rewrite (proj2 (Z.eqb_neq 0 n)) by lia. apply orb_false_r.
  - rewrite (proj2 (Z.eqb_neq 1 n)) by lia. apply orb_false_r.
Qed.

Lemma hdr_clear s f p j : size_word s -> (j = 0 \/ j = 1) ->
  Z.land (hdr s f p) (u32_not (2 ^ j)) = if j =? 0 then hdr s false p else hdr s f false.
Proof.
  intros Hs Hj. pose proof Hs as [Hm _]. apply Z.bits_inj'. intros n Hn.
  rewrite Z.land_spec, hdr_bit, not_bit by lia.
  assert (2 <= n -> Z.testbit s n && (n <? 32) = Z.testbit s n) as Hlt.
  { intros Hn2. destruct (Z.ltb_spec n 32); [apply andb_true_r|]. by rewrite (size_word_bit s n) by (done || lia). }
  destruct Hj as [-> | ->]; [change (0 =? 0) with true|change (1 =? 0) with false]; cbv iota;
    rewrite hdr_bit by lia; destruct (Z.eqb_spec n 0) as [->|H0];
    try destruct (Z.eqb_spec n 1) as [->|H1]; cbn [negb]; rewrite ?andb_true_r, ?andb_false_r; try done;
    apply Hlt; lia.
Qed.

Lemma hdr_resize s s' f p : size_word s -> size_word s' ->
  Z.lor (Z.land (hdr s f p) (u32_not SZ_MASK)) (Z.land s' SZ_MASK) = hdr s' f p.
Proof.
  intros Hs Hs'. pose proof Hs as [Hm _]. pose proof Hs' as [Hm' _].
  change (u32_not SZ_MASK) with (Z.ones 2).
  apply Z.bits_inj'. intros n Hn. rewrite Z.lor_spec, !Z.land_spec, !hdr_bit, mask_bit by lia.
  destruct (decide (n < 2)) as [Hlt|Hge].
  - rewrite Z.ones_spec_low, (size_word_bit s' n) by (done || lia). cbn. rewrite orb_false_r, andb_true_r.
    destruct (Z.eqb_spec n 0), (Z.eqb_spec n 1); try done. lia.
  - rewrite Z.ones_spec_high by lia. rewrite andb_false_r. cbn [orb].
    destruct (Z.eqb_spec n 0); [lia|]. destruct (Z.eqb_spec n 1); [lia|].
    destruct (Z.leb_spec 2 n); [|lia]. cbn [andb]. destruct (Z.ltb_spec n 32); [by rewrite andb_true_r|].
    rewrite (size_word_bit s' n) by (done || lia). done.
Qed.

(** * Header operations *)

Lemma ld_st a v m b : ld (st a v m) b = if decide (a = b) then v else ld m b.
Proof. unfold ld, st. destruct (decide (a = b)) as [->|]; [by rewrite lookup_insert_eq|by rewrite lookup_insert_ne]. Qed.
Lemma ld_st_eq a v m : ld (st a v m) a = v.
Proof. rewrite ld_st. by rewrite decide_True. Qed.
Lemma ld_st_ne a v m b : a <> b -> ld (st a v m) b = ld m b.
Proof. intros. rewrite ld_st. by rewrite decide_False. Qed.
Lemma ld_st32_ne a v m b : a <> b -> ld (st32 a v m) b = ld m b.
Proof. apply ld_st_ne. Qed.
Lemma ld32_st32 a v m : 0 <= v < 0x100000000 -> ld32 (st32 a v m) a = v.
Proof.
  intros Hv. unfold ld32, st32. rewrite ld_st_eq. unfold u32.
  rewrite Z.add_comm, Z.mod_add by lia. by apply Z.mod_small.
Qed.

(** The header of [b] says [s], [f], [p]. *)
Definition hdr_at (m : words) (b s : Z) (f p : bool) : Prop := size_word s /\ ld32 m b = hdr s f p.

Lemma hdr_at_same m m' b s f p : ld m' b = ld m b -> hdr_at m b s f p -> hdr_at m' b s f p.
Proof. intros E [H1 H2]. split; [done|]. unfold ld32 in *. by rewrite E. Qed.

Section header.
Context {m : words} {b s : Z} {f p : bool} (H : hdr_at m b s f p).

Lemma at_size : block_size m b = s.
Proof. destruct H as [H1 H2]. unfold block_size. rewrite H2. by apply hdr_size. Qed.
Lemma at_free : block_is_free m b = f.
Proof. destruct H as [H1 H2]. unfold block_is_free. rewrite H2. apply (hdr_flag s f p 0 H1). by left. Qed.
Lemma at_prev : block_prev_free m b = p.
Proof. destruct H as [H1 H2]. unfold block_prev_free. rewrite H2. apply (hdr_flag s f p 1 H1). by right. Qed.

Lemma at_set_free f' : hdr_at (block_set_free b f' m) b s f' p.
Proof.
  destruct H as [H1 H2]. split; [done|]. unfold block_set_free. rewrite H2. change BLOCK_FREE with (2 ^ 0). rewrite ld32_st32.
  - destruct f'; [apply (hdr_set s f p 0 H1)|apply (hdr_clear s f p 0 H1)]; by left.
  - destruct f'; [rewrite (hdr_set s f p 0 H1 ltac:(by left))|rewrite (hdr_clear s f p 0 H1 ltac:(by left))];
      by apply hdr_range.
Qed.
Lemma at_set_prev p' : hdr_at (block_set_prev_free b p' m) b s f p'.
Proof.
  destruct H as [H1 H2]. split; [done|]. unfold block_set_prev_free. rewrite H2. change BLOCK_PREV_FREE with (2 ^ 1). rewrite ld32_st32.
  - destruct p'; [apply (hdr_set s f p 1 H1)|apply (hdr_clear s f p 1 H1)]; by right.
  - destruct p'; [rewrite (hdr_set s f p 1 H1 ltac:(by right))|rewrite (hdr_clear s f p 1 H1 ltac:(by right))];
      by apply hdr_range.
Qed.
Lemma at_set_size s' : size_word s' -> hdr_at (block_set_size b s' m) b s' f p.
Proof.
  intros Hs'. destruct H as [H1 H2]. split; [done|]. unfold block_set_size. rewrite H2, hdr_resize by done.
  apply ld32_st32. by apply hdr_range.
Qed.
End header.

(** * The physical chain *)

Record blk := mkBlk {
  bk_size : Z;      (* bytes of payload; 0 for the sentinel *)
  bk_free : bool;
  bk_prev : bool;   (* the block before it is free *)
  bk_end : bool;    (* the sentinel of a pool *)
  bk_lo : Z;        (* where its pool starts *)
}.
#[export] Instance blk_rebuild : Rebuild blk := fun k =>
  mkBlk (bk_size k) (bk_free k) (bk_prev k) (bk_end k) (bk_lo k).

Abbreviation blocks := (gmap Z blk).
Implicit Types (B : blocks) (k : blk).

(** Where the next header is. *)
Definition after x k : Z := x + 8 + bk_size k.

(** Pools have at most 32 MiB: sizes below 2^25 have a bucket. *)
Definition POOL_MAX : Z := 0x2000000.

Record chain B : Prop := {
  ch_pos x k : B !! x = Some k -> 0 < bk_lo k <= x /\ x mod 8 = 0;
  ch_size x k : B !! x = Some k -> bk_end k = false ->
    24 <= bk_size k /\ bk_size k mod 8 = 0 /\ x + 8 + bk_size k <= bk_lo k + POOL_MAX;
  ch_end x k : B !! x = Some k -> bk_end k = true -> bk_size k = 0 /\ bk_free k = false;
  ch_next x k : B !! x = Some k -> bk_end k = false ->
    exists k', B !! after x k = Some k' /\ bk_prev k' = bk_free k /\ bk_lo k' = bk_lo k;
  ch_prev x k : B !! x = Some k -> bk_prev k = true ->
    exists y k', B !! y = Some k' /\ after y k' = x /\ bk_free k' = true;
  ch_apart x y k k' : B !! x = Some k -> B !! y = Some k' -> x < y -> after x k <= y;
}.

(** No two neighbours are free. *)
Definition merged B : Prop := forall x k, B !! x = Some k -> bk_free k = true -> bk_prev k = false.

(** Lookups in an updated map, case by case. *)
Ltac look H :=
  repeat first
    [ apply lookup_insert_Some in H as [[<- <-]|[? H]]
    | apply lookup_delete_Some in H as [? H] ].

Section chain.
Context {B : blocks} (C : chain B).

Lemma blk_eta k : k = mkBlk (bk_size k) (bk_free k) (bk_prev k) (bk_end k) (bk_lo k).
Proof. by destruct k. Qed.

Lemma size_nonneg x k : B !! x = Some k -> 0 <= bk_size k.
Proof.
  intros Hx. destruct (bk_end k) eqn:E.
  - destruct (ch_end _ C x k Hx E). lia.
  - destruct (ch_size _ C x k Hx E). lia.
Qed.

(** Different blocks are apart, in one order or the other. *)
Lemma blocks_apart x y k k' : B !! x = Some k -> B !! y = Some k' -> x <> y -> after x k <= y \/ after y k' <= x.
Proof.
  intros Hx Hy Hne. destruct (Z.lt_total x y) as [|[|]]; [left|done|right]; by eapply (ch_apart _ C).
Qed.

(** Only one block ends where another starts. *)
Lemma after_inj x y k k' : B !! x = Some k -> B !! y = Some k' -> after x k = after y k' -> x = y.
Proof.
  intros Hx Hy E. destruct (decide (x = y)) as [|Hne]; [done|].
  pose proof (size_nonneg x k Hx). pose proof (size_nonneg y k' Hy). unfold after in E.
  destruct (blocks_apart x y k k' Hx Hy Hne) as [Ha|Ha]; unfold after in Ha; lia.
Qed.
End chain.

(** Marking a block free or used tells its successor. *)
Definition flip (f : bool) x k kn B : blocks :=
  <[after x k := mkBlk (bk_size kn) (bk_free kn) f (bk_end kn) (bk_lo kn)]>
    (<[x := mkBlk (bk_size k) f (bk_prev k) false (bk_lo k)]> B).

Lemma chain_flip f x k kn B :
  chain B -> B !! x = Some k -> bk_end k = false -> B !! after x k = Some kn -> chain (flip f x k kn B).
Proof.
  intros C Hx He Hn. pose proof (size_nonneg C x k Hx) as Hsz.
  assert (after x k <> x) as Hne by (unfold after; lia). unfold flip. split.
  - intros y k0 Hy. look Hy; cbn; by eapply (ch_pos _ C).
  - intros y k0 Hy. look Hy; cbn.
    + intros E. by apply (ch_size _ C (after x k) kn).
    + intros _. by apply (ch_size _ C x k).
    + by apply (ch_size _ C).
  - intros y k0 Hy. look Hy; cbn; [|done|by apply (ch_end _ C y k0)].
    intros E. destruct (ch_end _ C (after x k) kn Hn E) as [H1 H2]. done.
  - intros y k0 Hy. look Hy.
    + cbn. intros E. destruct (ch_next _ C (after x k) kn Hn E) as (k' & H1 & H2 & H3).
      assert (after (after x k) kn <> after x k) as N1
        by (pose proof (size_nonneg C (after x k) kn Hn); unfold after; lia).
      assert (after (after x k) kn <> x) as N2 by (pose proof (size_nonneg C (after x k) kn Hn); unfold after in *; lia).
      exists k'. unfold after at 2. cbn. fold (after (after x k) kn). by rewrite !lookup_insert_ne.
    + intros _. exists (mkBlk (bk_size kn) (bk_free kn) f (bk_end kn) (bk_lo kn)).
      unfold after at 2. cbn. fold (after x k). rewrite lookup_insert_eq. split; [done|]. split; [done|].
      destruct (ch_next _ C x k Hx He) as (k' & H1 & _ & H3). congruence.
    + intros E. destruct (ch_next _ C y k0 Hy E) as (k' & H1 & H2 & H3).
      assert (after y k0 <> after x k) as N1 by (intros E1; eapply (after_inj C) in E1; eauto).
      destruct (decide (after y k0 = x)) as [E2|N2].
      * exists (mkBlk (bk_size k) f (bk_prev k) false (bk_lo k)). rewrite lookup_insert_ne by congruence.
        rewrite E2, lookup_insert_eq. split; [done|]. cbn. rewrite E2, Hx in H1. injection H1 as <-. done.
      * exists k'. by rewrite !lookup_insert_ne by congruence.
  - intros y k0 Hy. look Hy; cbn.
    + intros ->. exists x, (mkBlk (bk_size k) true (bk_prev k) false (bk_lo k)).
      rewrite lookup_insert_ne, lookup_insert_eq by done. done.
    + intros E. destruct (ch_prev _ C x k Hx E) as (z & kz & H1 & H2 & H3).
      exists z, kz. pose proof (size_nonneg C z kz H1). unfold after in H2.
      rewrite !lookup_insert_ne by (unfold after; lia). done.
    + intros E. destruct (ch_prev _ C y k0 Hy E) as (z & kz & H1 & H2 & H3).
      destruct (decide (z = x)) as [->|Hzx]; [exfalso; congruence|].
      destruct (decide (z = after x k)) as [->|Hzn].
      * rewrite Hn in H1. injection H1 as <-. eexists (after x k), _. rewrite lookup_insert_eq. split; [done|]. done.
      * exists z, kz. by rewrite !lookup_insert_ne by congruence.
  - assert (forall y k0, (<[after x k := mkBlk (bk_size kn) (bk_free kn) f (bk_end kn) (bk_lo kn)]>
      (<[x := mkBlk (bk_size k) f (bk_prev k) false (bk_lo k)]> B)) !! y = Some k0 ->
      exists k1, B !! y = Some k1 /\ after y k0 = after y k1) as Hsame.
    { intros y k0 Hy. look Hy; eauto. }
    intros y z k1 k2 Hy Hz Hlt. destruct (Hsame _ _ Hy) as (k1' & H1 & ->).
    destruct (Hsame _ _ Hz) as (k2' & H2 & _). by eapply (ch_apart _ C).
Qed.

(** A free block takes in the free block after it. *)
Definition merge x k kn B : blocks :=
  <[x := mkBlk (bk_size k + 8 + bk_size kn) true (bk_prev k) false (bk_lo k)]> (delete (after x k) B).

Lemma after_merge x k kn : after x (mkBlk (bk_size k + 8 + bk_size kn) true (bk_prev k) false (bk_lo k)) = after (after x k) kn.
Proof. unfold after. cbn. lia. Qed.

Lemma chain_merge x k kn B :
  chain B -> B !! x = Some k -> bk_end k = false -> B !! after x k = Some kn -> bk_free kn = true ->
  chain (merge x k kn B).
Proof.
  intros C Hx He Hn Hfn. pose proof (size_nonneg C x k Hx) as Hsz.
  assert (bk_end kn = false) as Hen.
  { destruct (bk_end kn) eqn:E; [|done]. destruct (ch_end _ C _ kn Hn E). congruence. }
  destruct (ch_size _ C x k Hx He) as (S1 & S2 & S3). destruct (ch_size _ C _ kn Hn Hen) as (T1 & T2 & T3).
  destruct (ch_next _ C x k Hx He) as (kn' & Hn' & _ & Hlo). rewrite Hn in Hn'. injection Hn' as <-.
  destruct (ch_next _ C _ kn Hn Hen) as (k2 & H2 & Hp2 & Hlo2).
  assert (x < after x k /\ after x k < after (after x k) kn) as [L1 L2] by (unfold after; lia).
  unfold merge. split.
  - intros y k0 Hy. look Hy; cbn; by eapply (ch_pos _ C).
  - intros y k0 Hy. look Hy; cbn; [|by apply (ch_size _ C)]. intros _. unfold after in *.
    split; [lia|]. split; [|lia]. rewrite (Z.div_mod (bk_size k) 8), (Z.div_mod (bk_size kn) 8), S2, T2 by lia.
    replace (8 * (bk_size k / 8) + 0 + 8 + (8 * (bk_size kn / 8) + 0)) with ((bk_size k / 8 + 1 + bk_size kn / 8) * 8) by lia.
    by apply Z.mod_mul.
  - intros y k0 Hy. look Hy; cbn; [done|by apply (ch_end _ C y k0)].
  - intros y k0 Hy. look Hy; cbn.
    + intros _. exists k2. rewrite after_merge, lookup_insert_ne, lookup_delete_ne by lia.
      split; [done|]. split; congruence.
    + intros E. destruct (ch_next _ C y k0 Hy E) as (k' & H1 & H3 & H4).
      assert (after y k0 <> after x k) as N1 by (intros E1; eapply (after_inj C) in E1; eauto).
      destruct (decide (after y k0 = x)) as [E2|N2].
      * rewrite E2, lookup_insert_eq. eexists. split; [done|]. cbn. rewrite E2, Hx in H1. by injection H1 as <-.
      * exists k'. by rewrite lookup_insert_ne, lookup_delete_ne by congruence.
  - intros y k0 Hy. look Hy; cbn; intros E.
    + destruct (ch_prev _ C x k Hx E) as (z & kz & H1 & H3 & H4).
      pose proof (size_nonneg C z kz H1). exists z, kz. unfold after in H3.
      rewrite lookup_insert_ne, lookup_delete_ne by (unfold after in *; lia). done.
    + destruct (ch_prev _ C y k0 Hy E) as (z & kz & H1 & H3 & H4).
      destruct (decide (z = after x k)) as [->|Hz].
      * rewrite Hn in H1. injection H1 as <-. eexists x, _. rewrite lookup_insert_eq, after_merge. done.
      * destruct (decide (z = x)) as [->|Hzx]; [exfalso; congruence|].
        exists z, kz. by rewrite lookup_insert_ne, lookup_delete_ne by congruence.
  - intros y z k1 k3 Hy Hz Hlt. look Hy; look Hz.
    + lia.
    + rewrite after_merge. pose proof (ch_apart _ C x z k k3 Hx Hz Hlt). eapply (ch_apart _ C); [done..|lia].
    + by apply (ch_apart _ C y x k1 k).
    + by eapply (ch_apart _ C).
Qed.

(** The front of a free block is taken, the rest stays free. *)
Definition split_at x k s B : blocks :=
  <[x + 8 + s := mkBlk (bk_size k - s - 8) true false false (bk_lo k)]>
    (<[x := mkBlk s false (bk_prev k) false (bk_lo k)]> B).

Lemma inside_absent x k y B : chain B -> B !! x = Some k -> x < y < after x k -> B !! y = None.
Proof.
  intros C Hx Hy. destruct (B !! y) as [k'|] eqn:E; [|done]. exfalso.
  pose proof (ch_apart _ C x y k k' Hx E). lia.
Qed.

Lemma chain_split x k s B :
  chain B -> B !! x = Some k -> bk_end k = false -> bk_free k = true ->
  24 <= s -> s mod 8 = 0 -> s + 32 <= bk_size k -> chain (split_at x k s B).
Proof.
  intros C Hx He Hf H24 H8 Hfit. set (r := x + 8 + s).
  destruct (ch_size _ C x k Hx He) as (S1 & S2 & S3). destruct (ch_pos _ C x k Hx) as (P1 & P2).
  destruct (ch_next _ C x k Hx He) as (k2 & H2 & Hp2 & Hlo2).
  assert (x < r < after x k) as Hr by (unfold r, after; lia).
  pose proof (inside_absent x k r B C Hx Hr) as Hrn. unfold split_at. fold r.
  assert ((bk_size k - s - 8) mod 8 = 0 /\ r mod 8 = 0) as [M1 M2].
  { unfold r. rewrite (Z.div_mod (bk_size k) 8), (Z.div_mod s 8), (Z.div_mod x 8), S2, H8, P2 by lia.
    replace (8 * (bk_size k / 8) + 0 - (8 * (s / 8) + 0) - 8) with ((bk_size k / 8 - s / 8 - 1) * 8) by lia.
    replace (8 * (x / 8) + 0 + 8 + (8 * (s / 8) + 0)) with ((x / 8 + 1 + s / 8) * 8) by lia.
    by rewrite !Z.mod_mul. }
  assert (after r (mkBlk (bk_size k - s - 8) true false false (bk_lo k)) = after x k) as Ea by (unfold after, r; cbn; lia).
  split.
  - intros y k0 Hy. look Hy; cbn; [lia|by eapply (ch_pos _ C)..].
  - intros y k0 Hy. look Hy; cbn; [intros _; unfold r in *; lia|intros _; lia|by apply (ch_size _ C)].
  - intros y k0 Hy. look Hy; cbn; [done|done|by apply (ch_end _ C y k0)].
  - intros y k0 Hy. look Hy.
    + intros _. exists k2. rewrite Ea, !lookup_insert_ne by lia. cbn. split; [done|]. split; congruence.
    + intros _. eexists. change (after x (mkBlk s false (bk_prev k) false (bk_lo k))) with r.
      by rewrite lookup_insert_eq.
    + intros E. destruct (ch_next _ C y k0 Hy E) as (k' & H1 & H3 & H4).
      assert (after y k0 <> r) as N1 by (intros E1; congruence).
      destruct (decide (after y k0 = x)) as [E2|N2].
      * rewrite lookup_insert_ne by congruence. rewrite E2, lookup_insert_eq. eexists. split; [done|].
        cbn. rewrite E2, Hx in H1. by injection H1 as <-.
      * exists k'. by rewrite !lookup_insert_ne by congruence.
  - intros y k0 Hy. look Hy; cbn; [done|..]; intros E.
    + destruct (ch_prev _ C x k Hx E) as (z & kz & H1 & H3 & H4).
      pose proof (size_nonneg C z kz H1). exists z, kz.
      rewrite !lookup_insert_ne by (unfold after in *; lia). done.
    + destruct (ch_prev _ C y k0 Hy E) as (z & kz & H1 & H3 & H4).
      destruct (decide (z = x)) as [->|Hzx].
      * rewrite Hx in H1. injection H1 as <-. eexists r, _. rewrite lookup_insert_eq. split; [done|]. by rewrite Ea.
      * exists z, kz. rewrite !lookup_insert_ne by congruence. done.
  - intros y z k1 k3 Hy Hz Hlt. look Hy; look Hz.
    + lia.
    + lia.
    + rewrite Ea. eapply (ch_apart _ C x z); [done..|].
      destruct (decide (x < z)) as [|Hge]; [done|]. lia.
    + unfold after. cbn. unfold r in *. lia.
    + lia.
    + pose proof (ch_apart _ C x z k k3 Hx Hz Hlt) as Ha. unfold after in *. cbn. unfold r in *. lia.
    + assert (y <> x) by done. destruct (blocks_apart C x y k k1 Hx Hy) as [Ha|Ha]; [done|lia|].
      unfold after in *. lia.
    + by apply (ch_apart _ C y x k1 k).
    + by eapply (ch_apart _ C).
Qed.
