(* ===== verification/TlsfLists.v ===== *)
(** The free lists and bitmaps of the TLSF heap. *)

From S2P Require Import Prelude Tlsf TlsfInv.

(** * Bitmaps *)

Record bits_ok (c : control) : Prop := {
  bo_lists : length (free_lists c) = 400%nat;
  bo_maps : length (sl_bitmap c) = 25%nat;
  bo_sl fl sl : 0 <= fl < 25 -> 0 <= sl < 16 ->
    Z.testbit (aget (sl_bitmap c) fl) sl = negb (aget (free_lists c) (fl * 16 + sl) =? 0);
  bo_sl_range fl : 0 <= fl < 25 -> 0 <= aget (sl_bitmap c) fl < 2 ^ 16;
  bo_fl fl : 0 <= fl < 25 -> Z.testbit (fl_bitmap c) fl = negb (aget (sl_bitmap c) fl =? 0);
  bo_fl_range : 0 <= fl_bitmap c < 2 ^ 25;
}.

Lemma bits_below v n : 0 <= n -> 0 <= v -> (v < 2 ^ n <-> forall i, n <= i -> Z.testbit v i = false).
Proof. intros. by apply Z.bounded_iff_bits_nonneg. Qed.

Lemma lor_bit_range v n i : 0 <= v < 2 ^ n -> 0 <= i < n -> 0 <= Z.lor v (Z.shiftl 1 i) < 2 ^ n /\ Z.lor v (Z.shiftl 1 i) <> 0.
Proof.
  intros Hv Hi. rewrite Z.shiftl_1_l. assert (0 <= Z.lor v (2 ^ i)) as H0
    by (apply Z.lor_nonneg; split; [lia|apply Z.pow_nonneg; lia]).
  split; [split; [done|]|].
  - apply bits_below; [lia|done|]. intros j Hj. rewrite Z.lor_spec, Z.pow2_bits_eqb by lia.
    rewrite (testbit_pow2_range v n j) by lia. destruct (Z.eqb_spec i j); [lia|done].
  - intros E. assert (Z.testbit (Z.lor v (2 ^ i)) i = true) as Hb; [|by rewrite E, Z.bits_0 in Hb].
    rewrite Z.lor_spec, Z.pow2_bits_true by lia. apply orb_true_r.
Qed.

Lemma lor_bit v i j : 0 <= i -> 0 <= j -> Z.testbit (Z.lor v (Z.shiftl 1 i)) j = Z.testbit v j || (i =? j).
Proof. intros. by rewrite Z.shiftl_1_l, Z.lor_spec, Z.pow2_bits_eqb. Qed.

Lemma clear_bit v n i j : 0 <= v < 2 ^ n -> n <= 32 -> 0 <= i < 32 -> 0 <= j ->
  Z.testbit (Z.land v (u32_not (Z.shiftl 1 i))) j = Z.testbit v j && negb (j =? i).
Proof.
  intros Hv Hn Hi Hj. rewrite Z.shiftl_1_l, Z.land_spec, not_bit by lia.
  destruct (Z.ltb_spec j 32); [done|]. by rewrite (testbit_pow2_range v n j) by lia.
Qed.

Lemma clear_bit_range v n i : 0 <= v < 2 ^ n -> 0 <= n <= 32 -> 0 <= i < 32 ->
  0 <= Z.land v (u32_not (Z.shiftl 1 i)) < 2 ^ n.
Proof.
  intros Hv Hn Hi. assert (0 <= Z.land v (u32_not (Z.shiftl 1 i))) as H0 by (apply Z.land_nonneg; lia).
  split; [done|]. apply bits_below; [lia|done|]. intros j Hj. rewrite (clear_bit v n) by lia.
  by rewrite (testbit_pow2_range v n j) by lia.
Qed.

(** A list gets its first element, or a new one. *)
Lemma bits_put c fl sl b :
  bits_ok c -> 0 <= fl < 25 -> 0 <= sl < 16 -> b <> 0 ->
  bits_ok (fl_sl_set fl sl (c <| free_lists := aset (fl * 16 + sl) b (free_lists c) |>)).
Proof.
  intros [L1 L2 Hsl Hslr Hfl Hflr] Hf Hs Hb. destruct (lor_bit_range _ 16 sl (Hslr fl Hf) ltac:(lia)) as [R1 R2].
  destruct (lor_bit_range _ 25 fl Hflr ltac:(lia)) as [R3 _].
  unfold fl_sl_set, field_set. split; cbn [free_lists sl_bitmap fl_bitmap]; rewrite ?length_aset; try done.
  - intros fl' sl' Hf' Hs'. destruct (decide (fl' = fl)) as [->|Hne].
    + rewrite aget_aset_eq by (rewrite L2; lia). rewrite lor_bit, (Hsl fl sl') by lia.
      destruct (Z.eqb_spec sl sl') as [->|Hn].
      * rewrite aget_aset_eq by (rewrite L1; lia). rewrite orb_true_r. by rewrite (proj2 (Z.eqb_neq b 0)).
      * rewrite aget_aset_ne by lia. apply orb_false_r.
    + rewrite !aget_aset_ne by lia. by apply Hsl.
  - intros fl' Hf'. destruct (decide (fl' = fl)) as [->|Hne];
      [rewrite aget_aset_eq by (rewrite L2; lia); done|rewrite aget_aset_ne by lia; by apply Hslr].
  - intros fl' Hf'. rewrite lor_bit, (Hfl fl') by lia. destruct (Z.eqb_spec fl fl') as [->|Hne].
    + rewrite aget_aset_eq by (rewrite L2; lia). rewrite (proj2 (Z.eqb_neq (Z.lor _ _) 0)) by done. apply orb_true_r.
    + rewrite aget_aset_ne by lia. apply orb_false_r.
Qed.

(** A list loses an element; [v] is its new head. *)
Lemma bits_drop c fl sl v :
  bits_ok c -> 0 <= fl < 25 -> 0 <= sl < 16 -> aget (free_lists c) (fl * 16 + sl) <> 0 ->
  let c1 := c <| free_lists := aset (fl * 16 + sl) v (free_lists c) |> in
  bits_ok (if v =? 0 then fl_sl_clear fl sl c1 else c1).
Proof.
  intros [L1 L2 Hsl Hslr Hfl Hflr] Hf Hs Hold c1. pose proof (clear_bit_range _ 16 sl (Hslr fl Hf) ltac:(lia) ltac:(lia)) as R1.
  pose proof (clear_bit_range _ 25 fl Hflr ltac:(lia) ltac:(lia)) as R3.
  set (w := Z.land (aget (sl_bitmap c) fl) (u32_not (Z.shiftl 1 sl))) in *.
  destruct (Z.eqb_spec v 0) as [->|Hv].
  - assert (forall fl' sl', 0 <= fl' < 25 -> 0 <= sl' < 16 ->
      Z.testbit (aget (aset fl w (sl_bitmap c)) fl') sl' = negb (aget (aset (fl * 16 + sl) 0 (free_lists c)) (fl' * 16 + sl') =? 0)) as HA.
    { intros fl' sl' Hf' Hs'. destruct (decide (fl' = fl)) as [->|Hne].
      - rewrite aget_aset_eq by (rewrite L2; lia). unfold w. rewrite (clear_bit _ 16) by (auto; lia).
        rewrite (Hsl fl sl') by lia. destruct (Z.eqb_spec sl' sl) as [->|Hn].
        + rewrite aget_aset_eq by (rewrite L1; lia). apply andb_false_r.
        + rewrite aget_aset_ne by lia. apply andb_true_r.
      - rewrite !aget_aset_ne by lia. by apply Hsl. }
    assert (forall fl', 0 <= fl' < 25 -> 0 <= aget (aset fl w (sl_bitmap c)) fl' < 2 ^ 16) as HB.
    { intros fl' Hf'. destruct (decide (fl' = fl)) as [->|Hne];
        [rewrite aget_aset_eq by (rewrite L2; lia); done|rewrite aget_aset_ne by lia; by apply Hslr]. }
    assert (aget (aset fl w (sl_bitmap c)) fl = w) as Ew by (apply aget_aset_eq; rewrite L2; lia).
    unfold fl_sl_clear, c1, field_set. cbn [free_lists sl_bitmap fl_bitmap]. fold w. rewrite Ew.
    destruct (Z.eqb_spec w 0) as [Hw|Hw]; split; cbn [free_lists sl_bitmap fl_bitmap]; rewrite ?length_aset; try done.
    + intros fl' Hf'. rewrite (clear_bit _ 25), (Hfl fl') by lia. destruct (Z.eqb_spec fl' fl) as [->|Hne].
      * rewrite Ew, Hw. apply andb_false_r.
      * rewrite aget_aset_ne by lia. apply andb_true_r.
    + intros fl' Hf'. rewrite (Hfl fl') by lia. destruct (decide (fl' = fl)) as [->|Hne].
      * rewrite Ew, (proj2 (Z.eqb_neq w 0)) by done. assert (aget (sl_bitmap c) fl <> 0) as Hn0.
        { intros E0. unfold w in Hw. by rewrite E0 in Hw. }
        by rewrite (proj2 (Z.eqb_neq (aget (sl_bitmap c) fl) 0)).
      * by rewrite aget_aset_ne by lia.
  - unfold c1, field_set. split; cbn [free_lists sl_bitmap fl_bitmap]; rewrite ?length_aset; try done.
    intros fl' sl' Hf' Hs'. rewrite (Hsl fl' sl') by done.
    destruct (decide (fl' * 16 + sl' = fl * 16 + sl)) as [E|Hne].
    + rewrite E, aget_aset_eq by (rewrite L1; lia).
      rewrite (proj2 (Z.eqb_neq v 0)) by done. by rewrite (proj2 (Z.eqb_neq (aget _ _) 0)).
    + by rewrite aget_aset_ne by lia.
Qed.

(** * Doubly linked lists *)

(** From pointer [a], with predecessor [p], the list [l] ends at pointer [z]. *)
Fixpoint dseg (m : words) (p a : Z) (l : list Z) (z : Z) : Prop :=
  match l with
  | [] => a = z
  | x :: l' => a = x /\ x <> 0 /\ prev_free m x = p /\ dseg m x (next_free m x) l' z
  end.

(** The last element of [l], or [p]. *)
Definition last_or (p : Z) (l : list Z) : Z := default p (last l).

Lemma dseg_app m p a l1 l2 z :
  dseg m p a (l1 ++ l2) z <-> exists y, dseg m p a l1 y /\ dseg m (last_or p l1) y l2 z.
Proof.
  revert p a. induction l1 as [|x l1 IH]; intros p a.
  - cbn. split; [by exists a|]. by intros (y & -> & ?).
  - cbn [dseg app]. rewrite IH. assert (last_or p (x :: l1) = last_or x l1) as ->.
    { unfold last_or. rewrite last_cons. by destruct (last l1). }
    split; [intros (E1 & E2 & E3 & y & E4 & E5); by exists y|intros (y & (E1 & E2 & E3 & E4) & E5); eauto 10].
Qed.

(** The link fields of [x] in two memories. *)
Definition same_links (m m' : words) (x : Z) : Prop :=
  prev_free m' x = prev_free m x /\ next_free m' x = next_free m x.

Lemma dseg_frame m m' p a l z : (forall x, x ∈ l -> same_links m m' x) -> dseg m p a l z -> dseg m' p a l z.
Proof.
  revert p a. induction l as [|x l IH]; intros p a Hs; [done|]. cbn [dseg]. intros (E1 & E2 & E3 & E4).
  destruct (Hs x ltac:(left)) as [P N]. rewrite P, N. split; [done|]. split; [done|]. split; [done|].
  apply IH; [|done]. intros y Hy. apply Hs. by right.
Qed.

(** Another end after the last element [q]. *)
Lemma dseg_reend m m' p a l q z z' :
  (forall x, x ∈ l -> same_links m m' x) -> ~ q ∈ l -> prev_free m' q = prev_free m q -> next_free m' q = z' ->
  dseg m p a (l ++ [q]) z -> dseg m' p a (l ++ [q]) z'.
Proof.
  intros Hs Hq Hp Hn. rewrite !dseg_app. intros (y & H1 & H2). exists y.
  split; [by apply (dseg_frame m)|]. cbn in *. rewrite Hp, Hn. naive_solver.
Qed.

(** Another predecessor before the first element. *)
Lemma dseg_rehead m m' p p' x l z :
  (forall y, y ∈ l -> same_links m m' y) -> prev_free m' x = p' -> next_free m' x = next_free m x ->
  dseg m p x (x :: l) z -> dseg m' p' x (x :: l) z.
Proof.
  intros Hs Hp Hn. cbn [dseg]. intros (E1 & E2 & E3 & E4). rewrite Hn.
  split; [done|]. split; [done|]. split; [done|]. by apply (dseg_frame m).
Qed.

(** * The lists as a whole

    [F] is the free blocks with their sizes. *)

Definition free_map : Type := Z -> option Z.
Implicit Types (F : free_map) (L : Z -> list Z).

(** Free blocks are at least 32 bytes apart. *)
Definition spaced F : Prop := forall x y s t, F x = Some s -> F y = Some t -> x <> y -> x + 32 <= y \/ y + 32 <= x.

Record lists_ok (c : control) (m : words) F L : Prop := {
  li_bits : bits_ok c;
  li_spaced : spaced F;
  li_pos x s : F x = Some s -> 0 < x /\ 0 <= s < POOL_MAX;
  li_seg k : 0 <= k < 400 -> dseg m 0 (aget (free_lists c) k) (L k) 0;
  li_nodup k : 0 <= k < 400 -> NoDup (L k);
  li_mem k x : 0 <= k < 400 -> (x ∈ L k <-> exists s, F x = Some s /\ bucket (mapping_insert s) = Some k);
}.

(** A memory that differs in link fields of free blocks only. *)
Definition links_only F (m m' : words) : Prop :=
  forall a, (forall x s, F x = Some s -> a <> x + 8 /\ a <> x + 16) -> ld m' a = ld m a.

Lemma list_links_refl F m : links_only F m m.
Proof. done. Qed.

Lemma prev_set x y v m : prev_free (set_prev_free x v m) y = if decide (x = y) then v else prev_free m y.
Proof.
  unfold prev_free, set_prev_free. rewrite ld_st.
  destruct (decide (x = y)), (decide (x + 8 = y + 8)); try done; lia.
Qed.
Lemma next_set x y v m : next_free (set_next_free x v m) y = if decide (x = y) then v else next_free m y.
Proof.
  unfold next_free, set_next_free. rewrite ld_st.
  destruct (decide (x = y)), (decide (x + 16 = y + 16)); try done; lia.
Qed.
Lemma prev_set_next x y v m : x + 16 <> y + 8 -> prev_free (set_next_free x v m) y = prev_free m y.
Proof. intros. unfold prev_free, set_next_free. by apply ld_st_ne. Qed.
Lemma next_set_prev x y v m : x + 8 <> y + 16 -> next_free (set_prev_free x v m) y = next_free m y.
Proof. intros. unfold next_free, set_prev_free. by apply ld_st_ne. Qed.

(** Buckets. *)
Lemma mapping_range s : 0 <= s -> 0 <= (mapping_insert s).1 /\ 0 <= (mapping_insert s).2 < 16.
Proof.
  intros Hs. unfold mapping_insert. change (Z.shiftl 1 SL_INDEX_BITS) with 16.
  destruct (Z.ltb_spec s 16); cbn [fst snd]; [lia|]. split; [apply Z.log2_nonneg|].
  change (SL_INDEX_COUNT - 1) with (2 ^ 4 - 1). rewrite land_ones_mod by lia. apply Z.mod_pos_bound. lia.
Qed.

Lemma bucket_range s k : 0 <= s -> bucket (mapping_insert s) = Some k ->
  exists fl sl, mapping_insert s = (fl, sl) /\ 0 <= fl < 25 /\ 0 <= sl < 16 /\ k = fl * 16 + sl.
Proof.
  intros Hs. pose proof (mapping_range s Hs) as Hr. destruct (mapping_insert s) as [fl sl] eqn:E. cbn in Hr.
  unfold bucket. cbn [fst snd]. change FL_INDEX_COUNT with 25. change SL_INDEX_COUNT with 16.
  destruct (Z.ltb_spec fl 25); [|done]. intros [= <-]. exists fl, sl. split; [done|]. lia.
Qed.

Lemma bucket_small s : 0 <= s < POOL_MAX -> exists k, bucket (mapping_insert s) = Some k /\ 0 <= k < 400.
Proof.
  intros Hs. pose proof (mapping_range s ltac:(lia)) as Hr.
  assert ((mapping_insert s).1 < 25) as Hlt.
  { unfold mapping_insert. change (Z.shiftl 1 SL_INDEX_BITS) with 16.
    destruct (Z.ltb_spec s 16); cbn [fst]; [lia|]. unfold fls, POOL_MAX in *. apply Z.log2_lt_pow2; lia. }
  unfold bucket. change FL_INDEX_COUNT with 25. change SL_INDEX_COUNT with 16.
  rewrite (proj2 (Z.ltb_lt _ _)) by lia. eexists. split; [done|]. lia.
Qed.

(** * Unlinking *)

(** The stores of [remove_block] around the block between [q] and [n]. *)
Definition unlinked (q n : Z) (m : words) : words :=
  let m := if q =? NULL then m else set_next_free q n m in
  if n =? NULL then m else set_prev_free n q m.

Lemma unlinked_links q n m x : (q <> 0 -> x + 8 <> q + 16) -> (n <> 0 -> x + 16 <> n + 8) ->
  prev_free (unlinked q n m) x = (if decide (n <> 0 /\ n = x) then q else prev_free m x)
  /\ next_free (unlinked q n m) x = (if decide (q <> 0 /\ q = x) then n else next_free m x).
Proof.
  intros Hq Hn. unfold unlinked, NULL. destruct (Z.eqb_spec q 0) as [->|Hq0], (Z.eqb_spec n 0) as [->|Hn0].
  - rewrite !decide_False by tauto. done.
  - rewrite prev_set, next_set_prev, (decide_False (P := 0 <> 0 /\ _)) by (try tauto; apply not_eq_sym; by apply Hn).
    split; [|done]. destruct (decide (n = x)); [by rewrite decide_True|by rewrite decide_False by tauto].
  - rewrite next_set, prev_set_next, (decide_False (P := 0 <> 0 /\ _)) by (try tauto; apply not_eq_sym; by apply Hq).
    split; [done|]. destruct (decide (q = x)); [by rewrite decide_True|by rewrite decide_False by tauto].
  - rewrite prev_set, next_set_prev, next_set, prev_set_next
      by (apply not_eq_sym; first [by apply Hn|by apply Hq]). split.
    + destruct (decide (n = x)); [by rewrite decide_True|by rewrite decide_False by tauto].
    + destruct (decide (q = x)); [by rewrite decide_True|by rewrite decide_False by tauto].
Qed.

Section unlink.
Context {m : words} {F : free_map} (Hsp : spaced F).

Lemma spaced_fields x y s t : F x = Some s -> F y = Some t -> x + 8 <> y + 16 /\ x + 16 <> y + 8.
Proof.
  intros Hx Hy. destruct (decide (x = y)) as [->|Hne]; [lia|]. pose proof (Hsp x y s t Hx Hy Hne). lia.
Qed.

Lemma dseg_unlink a l1 b l2 :
  (forall x, x ∈ l1 ++ b :: l2 -> exists s, F x = Some s) -> NoDup (l1 ++ b :: l2) ->
  dseg m 0 a (l1 ++ b :: l2) 0 ->
  let q := prev_free m b in let n := next_free m b in
  dseg (unlinked q n m) 0 (if q =? NULL then n else a) (l1 ++ l2) 0
  /\ (q <> 0 -> q ∈ l1 /\ a <> 0) /\ (q = 0 -> a = b) /\ (n <> 0 -> n ∈ l2).
Proof.
  intros Hin Hnd Hd q n. apply dseg_app in Hd as (b' & H1 & H2). cbn [dseg] in H2.
  destruct H2 as (-> & Hb0 & Hq & H2). fold q in Hq. fold n in H2. clearbody q n.
  assert (forall x, x ∈ l1 -> exists s, F x = Some s) as In1 by (intros x Hx; apply Hin; apply elem_of_app; by left).
  assert (forall x, x ∈ l2 -> exists s, F x = Some s) as In2
    by (intros x Hx; apply Hin; apply elem_of_app; right; by right).
  apply NoDup_app in Hnd as (N1 & Nd & N2). apply NoDup_cons in N2 as [N2 N3].
  assert (q <> 0 -> q ∈ l1 /\ a <> 0) as Aq.
  { intros Hq0. destruct l1 as [|x l1]; [cbn in Hq; congruence|]. cbn [dseg] in H1. split; [|naive_solver].
    rewrite Hq. unfold last_or. destruct (last (x :: l1)) eqn:E; [|by apply last_None in E].
    cbn. apply last_Some in E as [l' ->]. apply elem_of_app. right. by left. }
  assert (q = 0 -> l1 = []) as Bq.
  { intros Hq0. destruct l1 as [|x l1] using rev_ind; [done|]. exfalso.
    unfold last_or in Hq. rewrite last_snoc in Hq. cbn in Hq. apply dseg_app in H1 as (y & _ & H1).
    cbn in H1. destruct H1 as (_ & Hx & _). congruence. }
  assert (n <> 0 -> exists l, l2 = n :: l) as An.
  { intros Hn0. destruct l2 as [|x l2]; [cbn in H2; congruence|]. cbn in H2. exists l2. f_equal. naive_solver. }
  assert (forall x, x ∈ l1 -> (q <> 0 -> x + 8 <> q + 16) /\ (n <> 0 -> x + 16 <> n + 8)) as S1.
  { intros x Hx. destruct (In1 x Hx) as [s Hs]. split; intros H0.
    - destruct (Aq H0) as [Hq1 _]. destruct (In1 q Hq1) as [t Ht]. by eapply spaced_fields.
    - destruct (An H0) as [l E]. destruct (In2 n ltac:(rewrite E; left)) as [t Ht]. by eapply spaced_fields. }
  assert (forall x, x ∈ l2 -> (q <> 0 -> x + 8 <> q + 16) /\ (n <> 0 -> x + 16 <> n + 8)) as S2.
  { intros x Hx. destruct (In2 x Hx) as [s Hs]. split; intros H0.
    - destruct (Aq H0) as [Hq1 _]. destruct (In1 q Hq1) as [t Ht]. by eapply spaced_fields.
    - destruct (An H0) as [l E]. destruct (In2 n ltac:(rewrite E; left)) as [t Ht]. by eapply spaced_fields. }
  assert (forall x, x ∈ l1 -> x ∈ l2 -> False) as Dis
    by (intros x Hx Hx2; apply (Nd x Hx); by right).
  split; [|split; [done|split]].
  - apply dseg_app. exists n. split.
    + destruct l1 as [|q' l1 _] using rev_ind.
      * cbn. cbn in Hq. by rewrite Hq.
      * assert (q' = q) as -> by (rewrite Hq; unfold last_or; by rewrite last_snoc).
        assert (q <> 0) as Hq0 by (apply dseg_app in H1 as (y & _ & H1); cbn in H1; naive_solver).
        rewrite (proj2 (Z.eqb_neq q NULL)) by done. apply NoDup_app in N1 as (_ & N1 & _).
        assert (~ q ∈ l1) as Hql by (intros Hql; apply (N1 q Hql); left).
        assert (forall x, x ∈ l1 ++ [q] -> n <> 0 /\ n = x -> False) as Hnl.
        { intros x Hx [H0 <-]. destruct (An H0) as [l ->]. apply (Dis n Hx). left. }
        eapply (dseg_reend m); [| |..|exact H1]; [|done|..].
        -- intros x Hx. assert (x ∈ l1 ++ [q]) as Hx' by (apply elem_of_app; by left).
           destruct (S1 x Hx') as [A1 A2]. destruct (unlinked_links q n m x A1 A2) as [U1 U2]. split.
           ++ rewrite U1, decide_False; [done|]. intros HH. by eapply Hnl.
           ++ rewrite U2, decide_False; [done|]. by intros [_ <-].
        -- assert (q ∈ l1 ++ [q]) as Hx' by (apply elem_of_app; right; left).
           destruct (S1 q Hx') as [A1 A2]. destruct (unlinked_links q n m q A1 A2) as [U1 _].
           rewrite U1, decide_False; [done|]. intros HH. by eapply Hnl.
        -- assert (q ∈ l1 ++ [q]) as Hx' by (apply elem_of_app; right; left).
           destruct (S1 q Hx') as [A1 A2]. destruct (unlinked_links q n m q A1 A2) as [_ U2].
           by rewrite U2, decide_True.
    + destruct (decide (n = 0)) as [E0|Hn0].
      { destruct l2 as [|x l2]; [done|]. cbn in H2. destruct H2 as (? & ? & _). congruence. }
      destruct (An Hn0) as [l ->]. rewrite <- Hq. apply NoDup_cons in N3 as [N3 _].
      assert (forall x, x ∈ n :: l -> q <> 0 /\ q = x -> False) as Hql.
      { intros x Hx [H0 <-]. destruct (Aq H0) as [Hq1 _]. by apply (Dis q). }
      apply (dseg_rehead m _ b).
      * intros y Hy. destruct (S2 y ltac:(by right)) as [A1 A2]. destruct (unlinked_links q n m y A1 A2) as [U1 U2].
        split; [rewrite U1, decide_False; [done|]|rewrite U2, decide_False; [done|]].
        -- by intros [_ <-].
        -- intros HH. eapply Hql; [|exact HH]. by right.
      * destruct (S2 n ltac:(left)) as [A1 A2]. destruct (unlinked_links q n m n A1 A2) as [U1 _].
        by rewrite U1, decide_True.
      * destruct (S2 n ltac:(left)) as [A1 A2]. destruct (unlinked_links q n m n A1 A2) as [_ U2].
        rewrite U2, decide_False; [done|]. intros HH. eapply Hql; [|exact HH]. left.
      * exact H2.
  - intros Hq0. rewrite (Bq Hq0) in H1. exact H1.
  - intros Hn0. destruct (An Hn0) as [l ->]. left.
Qed.
End unlink.

Definition without (b : Z) F : free_map := fun x => if decide (x = b) then None else F x.
Definition with_block (b s : Z) F : free_map := fun x => if decide (x = b) then Some s else F x.
Definition upd_list (k : Z) (l : list Z) L : Z -> list Z := fun j => if decide (j = k) then l else L j.

Lemma without_Some b F x s : without b F x = Some s <-> x <> b /\ F x = Some s.
Proof. unfold without. destruct (decide (x = b)); naive_solver. Qed.

Lemma free_lists_clear fl sl c : free_lists (fl_sl_clear fl sl c) = free_lists c.
Proof. unfold fl_sl_clear, field_set. cbn. by destruct (_ =? 0). Qed.

Lemma unlinked_only F q n m :
  (q <> 0 -> exists s, F q = Some s) -> (n <> 0 -> exists s, F n = Some s) -> links_only F m (unlinked q n m).
Proof.
  intros Hq Hn a Ha. unfold unlinked, NULL. destruct (Z.eqb_spec n 0), (Z.eqb_spec q 0); try done.
  - destruct Hq as [s Hs]; [done|]. apply ld_st_ne. destruct (Ha q s Hs). done.
  - destruct Hn as [s Hs]; [done|]. apply ld_st_ne. destruct (Ha n s Hs). done.
  - destruct Hn as [s Hs]; [done|]. destruct Hq as [t Ht]; [done|]. unfold set_prev_free, set_next_free.
    rewrite !ld_st_ne; [done|..]; destruct (Ha n s Hs), (Ha q t Ht); done.
Qed.

Lemma remove_block_ok c m F L b s k :
  lists_ok c m F L -> F b = Some s -> 0 <= s -> block_size m b = s -> bucket (mapping_insert s) = Some k ->
  exists c' m' L', remove_block b c m = Some (c', m') /\ lists_ok c' m' (without b F) L'
    /\ links_only (without b F) m m'.
Proof.
  intros [Hbits Hsp Hpos Hseg Hnd Hmem] Hb Hs Hsz Hk. destruct (bucket_range s k Hs Hk) as (fl & sl & Em & Hfl & Hsl & ->).
  set (k := fl * 16 + sl) in *. assert (0 <= k < 400) as Hk4 by (unfold k; lia).
  assert (b ∈ L k) as Hin by (apply Hmem; [done|by exists s]).
  destruct (list_elem_of_split _ _ Hin) as (l1 & l2 & El).
  assert (forall x, x ∈ L k -> exists t, F x = Some t) as HF
    by (intros x Hx; apply Hmem in Hx as (t & Ht & _); [by exists t|done]).
  pose proof (Hnd k Hk4) as Hndk. pose proof (Hseg k Hk4) as Hsk. set (a := aget (free_lists c) k) in *.
  rewrite El in HF, Hndk, Hsk. destruct (dseg_unlink Hsp a l1 b l2 HF Hndk Hsk) as (Hd & Hq1 & Hq0 & Hn).
  set (q := prev_free m b) in *. set (n := next_free m b) in *.
  assert (q <> 0 -> exists t, F q = Some t /\ q <> b) as Fq.
  { intros H0. destruct (Hq1 H0) as [Hq _]. destruct (HF q) as [t Ht]; [apply elem_of_app; by left|].
    exists t. split; [done|]. intros ->. apply NoDup_app in Hndk as (_ & Hd1 & _). apply (Hd1 b Hq). left. }
  assert (n <> 0 -> exists t, F n = Some t /\ n <> b) as Fn.
  { intros H0. pose proof (Hn H0) as Hn1. destruct (HF n) as [t Ht]; [apply elem_of_app; right; by right|].
    exists t. split; [done|]. intros ->. apply NoDup_app in Hndk as (_ & _ & Hd1).
    apply NoDup_cons in Hd1 as [Hd1 _]. done. }
  set (c1 := c <| free_lists := aset k n (free_lists c) |>).
  set (c' := if q =? 0 then (if n =? 0 then fl_sl_clear fl sl c1 else c1) else c).
  assert (a <> 0) as Ha0.
  { destruct (Z.eq_dec q 0) as [E|E]; [|by apply Hq1]. rewrite (Hq0 E).
    apply dseg_app in Hsk as (y & _ & Hy). cbn in Hy. naive_solver. }
  assert (free_lists c' = if q =? 0 then aset k n (free_lists c) else free_lists c) as El'.
  { unfold c'. destruct (q =? 0); [|done]. destruct (n =? 0); [by rewrite free_lists_clear|done]. }
  exists c', (unlinked q n m), (upd_list k (l1 ++ l2) L). split; [|split].
  - unfold remove_block. rewrite Hsz, Em. assert (bucket (fl, sl) = Some k) as -> by (rewrite <- Em; exact Hk).
    fold q n. cbn [fst snd]. unfold c', unlinked, NULL. destruct (Z.eqb_spec q 0) as [E|E].
    + fold n q c1. assert (aget (free_lists c1) k = n) as -> by (unfold c1, field_set; cbn; apply aget_aset_eq;
        rewrite (bo_lists _ Hbits); lia).
      rewrite E. destruct (n =? 0); done.
    + destruct (Fq E) as (t & Ht & Hqb).
      assert (next_free (set_next_free q n m) b = n) as -> by (rewrite next_set; by rewrite decide_False).
      assert (prev_free (set_next_free q n m) b = q) as ->.
      { rewrite prev_set_next; [done|]. destruct (spaced_fields Hsp q b t s Ht Hb). done. }
      fold a. by rewrite (proj2 (Z.eqb_neq a 0)).
  - assert (spaced (without b F)) as Hsp'.
    { intros x y t u Hx%without_Some Hy%without_Some. destruct Hx as [_ Hx], Hy as [_ Hy]. by apply (Hsp x y t u). }
    split; [|done|..].
    + unfold c'. destruct (q =? 0); [|done]. by apply (bits_drop c fl sl n).
    + intros x t [_ Hx]%without_Some. by apply (Hpos x t).
    + intros j Hj. unfold upd_list. rewrite El'. destruct (decide (j = k)) as [->|Hne].
      * assert (aget (if q =? 0 then aset k n (free_lists c) else free_lists c) k = if q =? NULL then n else a) as ->; [|done].
        unfold NULL. destruct (q =? 0); [|done]. apply aget_aset_eq. rewrite (bo_lists _ Hbits). lia.
      * assert (aget (if q =? 0 then aset k n (free_lists c) else free_lists c) j = aget (free_lists c) j) as ->
          by (destruct (q =? 0); [by rewrite aget_aset_ne by lia|done]).
        apply (dseg_frame m); [|by apply Hseg]. intros x Hx. apply Hmem in Hx as (t & Ht & Hbt); [|done].
        assert (forall y, y ∈ L k -> y <> x) as Hny.
        { intros y Hy ->. apply Hmem in Hy as (u & Hu & Hbu); [|done]. congruence. }
        destruct (unlinked_links q n m x) as [U1 U2].
        { intros H0. destruct (Fq H0) as (u & Hu & _). by eapply (spaced_fields Hsp). }
        { intros H0. destruct (Fn H0) as (u & Hu & _). by eapply (spaced_fields Hsp). }
        split; [rewrite U1, decide_False|rewrite U2, decide_False]; try done; intros [H0 E].
        -- apply (Hny n); [rewrite El; apply elem_of_app; right; right; by apply Hn|done].
        -- apply (Hny q); [rewrite El; apply elem_of_app; left; by apply Hq1|done].
    + intros j Hj. unfold upd_list. destruct (decide (j = k)) as [->|]; [|by apply Hnd].
      apply NoDup_app in Hndk as (N1 & N2 & N3). apply NoDup_cons in N3 as [N3 N4]. apply NoDup_app.
      split; [done|]. split; [|done]. intros x Hx Hx2. apply (N2 x Hx). by right.
    + intros j x Hj. unfold upd_list. setoid_rewrite without_Some. destruct (decide (j = k)) as [->|Hne].
      * assert (x ∈ L k <-> x = b \/ x ∈ l1 ++ l2) as Hx.
        { rewrite El, !elem_of_app, elem_of_cons. tauto. }
        assert (~ b ∈ l1 ++ l2) as Hbn.
        { apply NoDup_app in Hndk as (N1 & N2 & N3). apply NoDup_cons in N3 as [N3 N4].
          intros [Hb1|Hb2]%elem_of_app; [|done]. apply (N2 b Hb1). left. }
        rewrite (Hmem k x Hk4) in Hx. split.
        -- intros Hx2. destruct (proj2 Hx (or_intror Hx2)) as (t & Ht & Hbt). exists t. split; [|done].
           split; [|done]. by intros ->.
        -- intros (t & (Hxb & Ht) & Hbt). destruct (proj1 Hx) as [|]; [by exists t|done|done].
      * rewrite (Hmem j x Hj). split; [|naive_solver]. intros (t & Ht & Hbt). exists t. split; [|done]. split; [|done].
        intros ->. congruence.
  - apply unlinked_only.
    + intros H0. destruct (Fq H0) as (t & Ht & Hne). exists t. by apply without_Some.
    + intros H0. destruct (Fn H0) as (t & Ht & Hne). exists t. by apply without_Some.
Qed.

Lemma free_lists_set fl sl c : free_lists (fl_sl_set fl sl c) = free_lists c.
Proof. done. Qed.

(** * Linking in *)

Lemma with_block_Some b s F x t : F b = None ->
  with_block b s F x = Some t <-> (x = b /\ t = s) \/ F x = Some t.
Proof.
  intros Hb. unfold with_block. destruct (decide (x = b)) as [->|]; [|naive_solver].
  rewrite Hb. naive_solver.
Qed.

Lemma insert_block_ok c m F L b s :
  lists_ok c m F L -> F b = None -> 0 <= s < POOL_MAX -> block_size m b = s -> 0 < b ->
  spaced (with_block b s F) ->
  exists c' m' L', insert_block b c m = Some (c', m') /\ lists_ok c' m' (with_block b s F) L'
    /\ links_only (with_block b s F) m m'.
Proof.
  intros [Hbits Hsp Hpos Hseg Hnd Hmem] Hb Hs Hsz Hb0 Hsp'.
  destruct (bucket_small s Hs) as (k & Hk & Hk4). destruct (bucket_range s k (proj1 Hs) Hk) as (fl & sl & Em & Hfl & Hsl & ->).
  set (k := fl * 16 + sl) in *. set (h := aget (free_lists c) k).
  set (m1 := set_prev_free b NULL (set_next_free b h m)).
  set (m' := if h =? NULL then m1 else set_prev_free h b m1).
  pose proof (Hseg k Hk4) as Hsk. fold h in Hsk.
  assert (forall x t, F x = Some t -> x <> b) as Hxb by (intros x t Hx ->; congruence).
  assert (forall x t, F x = Some t -> with_block b s F x = Some t) as HFw
    by (intros x t Hx; apply with_block_Some; [done|by right]).
  assert (with_block b s F b = Some s) as Hbw by (apply with_block_Some; [done|by left]).
  assert (h <> 0 -> exists l, L k = h :: l) as Hh.
  { intros H0. destruct (L k) as [|x l]; [cbn in Hsk; congruence|]. exists l. cbn in Hsk. f_equal. naive_solver. }
  assert (h <> 0 -> exists t, F h = Some t) as Fh.
  { intros H0. destruct (Hh H0) as [l E]. destruct (proj1 (Hmem k h Hk4)) as (t & Ht & _); [rewrite E; left|eauto]. }
  assert (forall x t, F x = Some t -> prev_free m' x = (if decide (h = x) then b else prev_free m x)
            /\ next_free m' x = next_free m x) as Hlinks.
  { intros x t Hx. destruct (spaced_fields Hsp' x b t s (HFw _ _ Hx) Hbw) as [A1 A2].
    assert (b <> x) as Hbx by (apply not_eq_sym; by eapply Hxb).
    assert (prev_free m1 x = prev_free m x /\ next_free m1 x = next_free m x) as [B1 B2].
    { unfold m1. rewrite prev_set, next_set_prev, decide_False, prev_set_next, next_set, decide_False by (done || lia). done. }
    unfold m', NULL. destruct (Z.eqb_spec h 0) as [E|E].
    - rewrite B1, B2, decide_False; [done|]. intros ->. destruct (Hpos x t Hx). lia.
    - destruct (Fh E) as [u Hu]. destruct (spaced_fields Hsp x h t u Hx Hu).
      rewrite prev_set, next_set_prev, B1, B2 by lia. done. }
  assert (prev_free m' b = 0 /\ next_free m' b = h) as [Hpb Hnb].
  { assert (prev_free m1 b = 0 /\ next_free m1 b = h) as [B1 B2].
    { unfold m1. rewrite prev_set, next_set_prev, next_set, !decide_True by (done || lia). done. }
    unfold m', NULL. destruct (Z.eqb_spec h 0) as [E|E]; [done|]. destruct (Fh E) as [u Hu].
    destruct (spaced_fields Hsp' b h s u Hbw (HFw _ _ Hu)).
    rewrite prev_set, next_set_prev, decide_False by (try lia; by eapply Hxb). done. }
  exists (fl_sl_set fl sl (c <| free_lists := aset k b (free_lists c) |>)), m', (upd_list k (b :: L k) L).
  split; [|split].
  - unfold insert_block. rewrite Hsz, Em. assert (bucket (fl, sl) = Some k) as -> by (rewrite <- Em; exact Hk). done.
  - split; [by apply bits_put; [..|lia]|done|..].
    + intros x t [[-> ->]|Hx]%with_block_Some; [done| |done]. by apply (Hpos x t).
    + intros j Hj. rewrite free_lists_set. unfold field_set. cbn [free_lists]. unfold upd_list.
      destruct (decide (j = k)) as [->|Hne].
      * rewrite aget_aset_eq by (rewrite (bo_lists _ Hbits); lia). cbn [dseg]. rewrite Hpb, Hnb.
        split; [done|]. split; [lia|]. split; [done|]. destruct (decide (h = 0)) as [E|E].
        -- rewrite E in Hsk |- *. destruct (L k) as [|x l]; [done|]. cbn in Hsk. destruct Hsk as (? & ? & _). congruence.
        -- destruct (Hh E) as [l El]. rewrite El in Hsk |- *. assert (h ∈ L k) as Hin by (rewrite El; left).
           apply (dseg_rehead m m' 0).
           ++ intros y Hy. assert (y ∈ L k) as Hyk by (rewrite El; by right).
              destruct (proj1 (Hmem k y Hk4) Hyk) as (t & Ht & _). destruct (Hlinks y t Ht) as [U1 U2].
              split; [|done]. rewrite U1, decide_False; [done|]. intros <-.
              pose proof (Hnd k Hk4) as Hn. rewrite El in Hn. by apply NoDup_cons in Hn as [? _].
           ++ destruct (Fh E) as [u Hu]. destruct (Hlinks h u Hu) as [U1 _]. by rewrite U1, decide_True.
           ++ destruct (Fh E) as [u Hu]. by destruct (Hlinks h u Hu) as [_ U2].
           ++ exact Hsk.
      * rewrite aget_aset_ne by lia. apply (dseg_frame m); [|by apply Hseg]. intros x Hx.
        apply Hmem in Hx as (t & Ht & Hbt); [|done]. destruct (Hlinks x t Ht) as [U1 U2]. split; [|done].
        rewrite U1, decide_False; [done|]. intros <-.
        destruct (decide (h = 0)) as [E|E]; [destruct (Hpos h t Ht); lia|]. destruct (Hh E) as [l El].
        assert (h ∈ L k) as Hin by (rewrite El; left). apply Hmem in Hin as (u & Hu & Hbu); [|done]. congruence.
    + intros j Hj. unfold upd_list. destruct (decide (j = k)) as [->|]; [|by apply Hnd].
      apply NoDup_cons. split; [|by apply Hnd]. intros Hin. apply Hmem in Hin as (t & Ht & _); [|done]. congruence.
    + intros j x Hj. unfold upd_list. setoid_rewrite with_block_Some; [|done]. destruct (decide (j = k)) as [->|Hne].
      * rewrite elem_of_cons, (Hmem k x Hk4). split; [|naive_solver].
        intros [->|(t & Ht & Hbt)]; [exists s; split; [by left|done]|exists t; split; [by right|done]].
      * rewrite (Hmem j x Hj). split; [naive_solver|]. intros (t & [[-> ->]|Ht] & Hbt); [congruence|by exists t].
  - intros a Ha. destruct (Ha b s Hbw) as [A1 A2]. assert (ld m1 a = ld m a) as E1.
    { unfold m1, set_prev_free, set_next_free. by rewrite !ld_st_ne by done. }
    unfold m', NULL. destruct (Z.eqb_spec h 0) as [E|E]; [done|]. destruct (Fh E) as [u Hu].
    unfold set_prev_free. rewrite ld_st_ne; [done|]. destruct (Ha h u (HFw _ _ Hu)). done.
Qed.

(** * Searching *)

Lemma ffs_spec v : 0 < v < 2 ^ 32 ->
  0 <= ffs v < 32 /\ Z.testbit v (ffs v) = true /\ forall i, 0 <= i < ffs v -> Z.testbit v i = false.
Proof.
  intros Hv. assert (length (seqZ 0 32) = 32%nat) as Hlen by done.
  assert (forall i, 0 <= i < 32 -> aget (seqZ 0 32) i = i) as Hget.
  { intros i Hi. unfold aget. rewrite (list_lookup_total_correct _ _ i); [done|]. rewrite lookup_seqZ. lia. }
  unfold ffs. destruct (find_index _ _) as [i|] eqn:E.
  - apply find_index_Some in E as (Hi & Hb & Hlow). rewrite Hlen in Hi. rewrite Hget in Hb by lia.
    split; [lia|]. split; [done|]. intros j Hj. specialize (Hlow j Hj). by rewrite Hget in Hlow by lia.
  - pose proof (proj1 (find_index_None _ _) E (Z.log2 v)) as Hn. rewrite Hlen in Hn.
    assert (Z.log2 v < 32) by (apply Z.log2_lt_pow2; lia). pose proof (Z.log2_nonneg v).
    rewrite Hget, Z.bit_log2 in Hn by lia. specialize (Hn ltac:(lia)). done.
Qed.

(** First and second level index of a size. *)
Lemma mapping_insert_eq s : 16 <= s ->
  mapping_insert s = (Z.log2 s, s / 2 ^ (Z.log2 s - 4) - 16) /\ 16 <= s / 2 ^ (Z.log2 s - 4) < 32 /\ 4 <= Z.log2 s.
Proof.
  intros Hs. assert (4 <= Z.log2 s) as H4 by (change 4 with (Z.log2 16); by apply Z.log2_le_mono).
  destruct (Z.log2_spec s ltac:(lia)) as [L1 L2]. set (g := 2 ^ (Z.log2 s - 4)).
  assert (0 < g) as Hg by (apply Z.pow_pos_nonneg; lia).
  assert (2 ^ Z.log2 s = 16 * g) as E1 by (unfold g; change 16 with (2 ^ 4); rewrite <- Z.pow_add_r by lia; f_equal; lia).
  rewrite Z.pow_succ_r in L2 by lia. rewrite E1 in *.
  assert (16 <= s / g < 32) as Hd.
  { split; [apply Z.div_le_lower_bound; lia|apply Z.div_lt_upper_bound; lia]. }
  split; [|done]. unfold mapping_insert. change (Z.shiftl 1 SL_INDEX_BITS) with 16.
  rewrite (proj2 (Z.ltb_ge s 16)) by lia. unfold fls. f_equal. change SL_INDEX_BITS with 4.
  rewrite Z.shiftr_div_pow2 by lia. fold g. change (SL_INDEX_COUNT - 1) with (2 ^ 4 - 1).
  rewrite land_ones_mod by lia. change (2 ^ 4) with 16. symmetry. apply Z.mod_unique with 1; lia.
Qed.

(** Buckets in the order of the search. *)
Definition lex (a b : Z * Z) : Prop := a.1 < b.1 \/ (a.1 = b.1 /\ a.2 <= b.2).

Lemma mapping_mono s t : 16 <= s <= t -> lex (mapping_insert s) (mapping_insert t).
Proof.
  intros Hst. destruct (mapping_insert_eq s ltac:(lia)) as (-> & _ & _).
  destruct (mapping_insert_eq t ltac:(lia)) as (-> & _ & _). unfold lex. cbn [fst snd].
  pose proof (Z.log2_le_mono s t ltac:(lia)). destruct (decide (Z.log2 s = Z.log2 t)) as [E|]; [right|left; lia].
  split; [done|]. rewrite E. pose proof (Z.div_le_mono s t (2 ^ (Z.log2 t - 4))).
  assert (0 < 2 ^ (Z.log2 t - 4)).
  { apply Z.pow_pos_nonneg; [lia|]. pose proof (Z.log2_le_mono 16 t ltac:(lia)) as Hl. change (Z.log2 16) with 4 in Hl. lia. }
  lia.
Qed.

(** The rounded request: every block of its bucket and of later ones is large enough. *)
Definition rounded (req : Z) : Z := req + 2 ^ (Z.log2 req - 4) - 1.

Lemma mapping_search_eq req : 16 <= req <= 0x2000000 -> mapping_search req = mapping_insert (rounded req).
Proof.
  intros Hr. unfold mapping_search. change (Z.shiftl 1 SL_INDEX_BITS) with 16. rewrite (proj2 (Z.leb_le 16 req)) by lia.
  rewrite Z.shiftl_1_l. unfold fls. change SL_INDEX_BITS with 4.
  assert (2 ^ (Z.log2 req - 4) <= 2 ^ 21).
  { apply Z.pow_le_mono_r; [lia|]. pose proof (Z.log2_le_mono req 0x2000000 ltac:(lia)) as Hl.
    change (Z.log2 0x2000000) with 25 in Hl. lia. }
  pose proof (Z.pow_nonneg 2 (Z.log2 req - 4)). f_equal. unfold rounded. rewrite u32_id; [lia|]. unfold is_u32. lia.
Qed.

Lemma rounded_bounds req : 16 <= req -> req <= rounded req.
Proof.
  intros Hr. assert (0 < 2 ^ (Z.log2 req - 4)); [|unfold rounded; lia]. apply Z.pow_pos_nonneg; [lia|].
  pose proof (Z.log2_le_mono 16 req ltac:(lia)) as Hl. change (Z.log2 16) with 4 in Hl. lia.
Qed.

Lemma bucket_fits req s : 16 <= s -> 16 <= req -> lex (mapping_insert (rounded req)) (mapping_insert s) -> req <= s.
Proof.
  intros Hs Hr Hl. destruct (Z.le_gt_cases req s) as [|Hlt]; [done|exfalso].
  pose proof (rounded_bounds req Hr) as Hrb.
  destruct (mapping_insert_eq s Hs) as (Es & _ & _). destruct (mapping_insert_eq (rounded req) ltac:(lia)) as (Er & _ & _).
  rewrite Es, Er in Hl. unfold lex in Hl. cbn [fst snd] in Hl.
  pose proof (Z.log2_le_mono s req ltac:(lia)). pose proof (Z.log2_le_mono req (rounded req) ltac:(lia)).
  destruct Hl as [|[E1 E2]]; [lia|]. rewrite E1 in E2. assert (Z.log2 s = Z.log2 req) as E3 by lia.
  rewrite E3 in E2. set (g := 2 ^ (Z.log2 req - 4)) in *.
  assert (0 < g).
  { apply Z.pow_pos_nonneg; [lia|]. pose proof (Z.log2_le_mono 16 req ltac:(lia)) as Hl. change (Z.log2 16) with 4 in Hl. lia. }
  assert (rounded req / g = (req - 1) / g + 1) as E4.
  { unfold rounded. fold g. replace (req + g - 1) with ((req - 1) + 1 * g) by lia. by rewrite Z.div_add by lia. }
  pose proof (Z.div_le_mono s (req - 1) g). lia.
Qed.

(** The bits of a word from bit [i] on. *)
Lemma high_bits v n i j : 0 <= v < 2 ^ n -> n <= 32 -> 0 <= i <= 32 -> 0 <= j ->
  Z.testbit (Z.land v (u32 (Z.shiftl 0xFFFFFFFF i))) j = Z.testbit v j && (i <=? j).
Proof.
  intros Hv Hn Hi Hj. rewrite Z.land_spec. destruct (Z.ltb_spec j 32) as [Hlt|Hge].
  - f_equal. unfold u32. change 0x100000000 with (2 ^ 32). rewrite testbit_mod_pow2 by lia.
    change 0xFFFFFFFF with (Z.ones 32). rewrite Z.shiftl_spec by lia.
    destruct (Z.leb_spec i j); [apply Z.ones_spec_low; lia|apply Z.testbit_neg_r; lia].
  - by rewrite (testbit_pow2_range v n j) by lia.
Qed.

Lemma high_range v n i : 0 <= v < 2 ^ n -> 0 <= n <= 32 -> 0 <= i -> 0 <= Z.land v (u32 (Z.shiftl 0xFFFFFFFF i)) < 2 ^ 32.
Proof.
  intros Hv Hn Hi. assert (0 <= Z.land v (u32 (Z.shiftl 0xFFFFFFFF i))) as H0 by (apply Z.land_nonneg; lia).
  split; [done|]. apply bits_below; [lia|done|]. intros j Hj. rewrite Z.land_spec.
  by rewrite (testbit_pow2_range v n j) by lia.
Qed.

Lemma list_head c m F L fl sl :
  lists_ok c m F L -> (forall x s, F x = Some s -> 16 <= s) -> 0 <= fl < 25 -> 0 <= sl < 16 ->
  aget (free_lists c) (fl * 16 + sl) <> 0 ->
  exists s, F (aget (free_lists c) (fl * 16 + sl)) = Some s /\ mapping_insert s = (fl, sl).
Proof.
  intros Hok H16 Hfl Hsl Hne. set (h := aget (free_lists c) (fl * 16 + sl)) in *.
  pose proof (li_seg _ _ _ _ Hok (fl * 16 + sl) ltac:(lia)) as Hd. fold h in Hd.
  assert (h ∈ L (fl * 16 + sl)) as Hin.
  { destruct (L (fl * 16 + sl)) as [|x l]; [done|]. cbn in Hd. destruct Hd as [-> _]. left. }
  apply (li_mem _ _ _ _ Hok) in Hin as (s & Hs & Hb); [|lia]. exists s. split; [done|].
  pose proof (H16 _ _ Hs). destruct (bucket_range s _ ltac:(lia) Hb) as (fl' & sl' & -> & ? & ? & ?).
  f_equal; lia.
Qed.

Lemma list_nonempty c m F L x s :
  lists_ok c m F L -> F x = Some s ->
  exists fl sl, mapping_insert s = (fl, sl) /\ 0 <= fl < 25 /\ 0 <= sl < 16 /\ aget (free_lists c) (fl * 16 + sl) <> 0.
Proof.
  intros Hok Hx. destruct (li_pos _ _ _ _ Hok x s Hx) as [_ Hs]. destruct (bucket_small s Hs) as (k & Hk & Hk4).
  destruct (bucket_range s k ltac:(lia) Hk) as (fl & sl & Em & Hfl & Hsl & ->). exists fl, sl.
  split; [done|]. split; [done|]. split; [done|]. intros E.
  assert (x ∈ L (fl * 16 + sl)) as Hin by (apply (li_mem _ _ _ _ Hok); [done|by exists s]).
  pose proof (li_seg _ _ _ _ Hok _ Hk4) as Hd. rewrite E in Hd.
  destruct (L (fl * 16 + sl)) as [|y l]; [by apply elem_of_nil in Hin|]. cbn in Hd. destruct Hd as (? & ? & _). congruence.
Qed.

Lemma head_of c fl w : 0 <= fl < 25 ->
  match bucket (fl, ffs w) with Some k => Some (aget (free_lists c) k) | None => None end
  = Some (aget (free_lists c) (fl * 16 + ffs w)).
Proof.
  intros Hfl. unfold bucket. cbn [fst snd]. change FL_INDEX_COUNT with 25. by rewrite (proj2 (Z.ltb_lt fl 25)) by lia.
Qed.

(** The largest request whose rounded size still has a bucket. *)
Definition REQ_MAX : Z := 0x1F00000.

Lemma rounded_max req : 16 <= req <= REQ_MAX -> rounded req < POOL_MAX.
Proof.
  intros Hr. unfold rounded, REQ_MAX, POOL_MAX in *.
  assert (2 ^ (Z.log2 req - 4) <= 2 ^ 20); [|lia]. apply Z.pow_le_mono_r; [lia|].
  pose proof (Z.log2_le_mono req 0x1F00000 ltac:(lia)) as Hl. change (Z.log2 0x1F00000) with 24 in Hl. lia.
Qed.

(** The first non-empty list at or after the bucket of the rounded request. *)
Lemma find_suitable_ok c m F L req :
  lists_ok c m F L -> (forall x s, F x = Some s -> 16 <= s) -> 16 <= req <= REQ_MAX ->
  exists b, find_suitable req c = Some b
    /\ ((b = 0 /\ forall x s, F x = Some s -> s < rounded req) \/ (exists s, F b = Some s /\ req <= s)).
Proof.
  intros Hok H16 Hr. pose proof (rounded_max req Hr) as Hrm. pose proof (rounded_bounds req ltac:(lia)) as Hrb.
  assert (forall fl sl, 0 <= fl < 25 -> 0 <= sl < 16 -> aget (free_lists c) (fl * 16 + sl) <> 0 ->
            lex (mapping_insert (rounded req)) (fl, sl) ->
            exists s, F (aget (free_lists c) (fl * 16 + sl)) = Some s /\ req <= s) as Hgood.
  { intros fl sl Hfl Hsl Hne Hl. destruct (list_head c m F L fl sl Hok H16 Hfl Hsl Hne) as (s & Hs & E).
    exists s. split; [done|]. rewrite <- E in Hl. pose proof (H16 _ _ Hs). apply bucket_fits; [done|lia|done]. }
  assert (forall x s, F x = Some s -> rounded req <= s -> exists fl sl, lex (mapping_insert (rounded req)) (fl, sl)
            /\ 0 <= fl < 25 /\ 0 <= sl < 16 /\ aget (free_lists c) (fl * 16 + sl) <> 0) as Hbig.
  { intros x s Hx Hge. destruct (list_nonempty c m F L x s Hok Hx) as (fl & sl & E & Hfl & Hsl & Hne).
    exists fl, sl. split; [rewrite <- E; apply mapping_mono; lia|done]. }
  destruct (bucket_small (rounded req) ltac:(lia)) as (k & Hk & _).
  destruct (bucket_range (rounded req) k ltac:(lia) Hk) as (fl & sl & Em & Hfl & Hsl & _).
  rewrite Em in Hgood, Hbig. pose proof (li_bits _ _ _ _ Hok) as Hb.
  unfold find_suitable. rewrite mapping_search_eq, Em by (unfold REQ_MAX in Hr; lia).
  change FL_INDEX_COUNT with 25. rewrite (proj2 (Z.leb_gt 25 fl)) by lia.
  set (sm := Z.land (aget (sl_bitmap c) fl) (u32 (Z.shiftl 0xFFFFFFFF sl))).
  pose proof (bo_sl_range _ Hb fl Hfl) as Rsl. pose proof (bo_fl_range _ Hb) as Rfl.
  pose proof (high_range _ 16 sl Rsl ltac:(lia) ltac:(lia)) as Rsm. fold sm in Rsm.
  assert (forall w f, 0 <= f < 25 -> 0 < w < 2 ^ 32 -> (forall j, 0 <= j -> Z.testbit w j = true -> Z.testbit (aget (sl_bitmap c) f) j = true) ->
            0 <= ffs w < 16 /\ Z.testbit w (ffs w) = true /\ aget (free_lists c) (f * 16 + ffs w) <> 0) as Hffs.
  { intros w f Hf Hw Hsub. destruct (ffs_spec w Hw) as (F1 & F2 & _). pose proof (Hsub _ (proj1 F1) F2) as F3.
    assert (ffs w < 16) as Hlt.
    { destruct (Z.lt_ge_cases (ffs w) 16) as [|Hge]; [done|].
      rewrite (testbit_pow2_range _ 16) in F3; [done|by apply (bo_sl_range _ Hb)|done]. }
    split; [lia|]. split; [done|]. rewrite (bo_sl _ Hb) in F3 by lia.
    apply negb_true_iff in F3. by apply Z.eqb_neq. }
  destruct (Z.eqb_spec sm 0) as [E0|E0].
  - assert (forall j, sl <= j < 16 -> aget (free_lists c) (fl * 16 + j) = 0) as Hz.
    { intros j Hj. assert (Z.testbit sm j = false) as Ht by (rewrite E0; apply Z.bits_0).
      unfold sm in Ht. rewrite (high_bits _ 16) in Ht by lia. rewrite (proj2 (Z.leb_le sl j)), andb_true_r in Ht by lia.
      rewrite (bo_sl _ Hb) in Ht by lia. apply negb_false_iff in Ht. by apply Z.eqb_eq. }
    set (fm := Z.land (fl_bitmap c) (u32 (Z.shiftl 0xFFFFFFFF (fl + 1)))).
    pose proof (high_range _ 25 (fl + 1) Rfl ltac:(lia) ltac:(lia)) as Rfm. fold fm in Rfm.
    destruct (Z.eqb_spec fm 0) as [E1|E1].
    + exists NULL. split; [done|]. left. split; [done|]. intros x s Hx.
      destruct (Z.lt_ge_cases s (rounded req)) as [|Hge]; [done|exfalso].
      destruct (Hbig x s Hx Hge) as (f & j & Hl & Hf & Hj & Hne). unfold lex in Hl. cbn [fst snd] in Hl.
      destruct (decide (f = fl)) as [->|Hnf]; [apply Hne, Hz; lia|].
      assert (Z.testbit fm f = false) as Ht by (rewrite E1; apply Z.bits_0).
      unfold fm in Ht. rewrite (high_bits _ 25) in Ht by lia. rewrite (proj2 (Z.leb_le (fl + 1) f)), andb_true_r in Ht by lia.
      rewrite (bo_fl _ Hb) in Ht by lia. apply negb_false_iff, Z.eqb_eq in Ht.
      pose proof (bo_sl _ Hb f j Hf Hj) as Hs. rewrite Ht, Z.bits_0 in Hs.
      symmetry in Hs. apply negb_false_iff, Z.eqb_eq in Hs. done.
    + destruct (ffs_spec fm ltac:(lia)) as (F1 & F2 & _). unfold fm at 1 in F2. rewrite (high_bits _ 25) in F2 by lia.
      apply andb_true_iff in F2 as [F2 F3%Z.leb_le].
      assert (ffs fm < 25) as Hf.
      { destruct (Z.lt_ge_cases (ffs fm) 25) as [|Hge]; [done|]. by rewrite (testbit_pow2_range _ 25) in F2. }
      rewrite (bo_fl _ Hb) in F2 by lia. apply negb_true_iff, Z.eqb_neq in F2.
      pose proof (bo_sl_range _ Hb (ffs fm) ltac:(lia)) as Rw.
      destruct (Hffs (aget (sl_bitmap c) (ffs fm)) (ffs fm)) as (G1 & _ & G2); [lia|lia|done|].
      rewrite head_of by lia. eexists. split; [done|]. right. apply Hgood; [lia|done|done|]. left. cbn [fst]. lia.
  - destruct (Hffs sm fl Hfl ltac:(lia)) as (G1 & G2 & G3).
    { intros j Hj Ht. unfold sm in Ht. rewrite Z.land_spec in Ht. by apply andb_true_iff in Ht as [? _]. }
    rewrite head_of by lia. eexists. split; [done|]. right. apply Hgood; [done|done|done|]. right. cbn [fst snd].
    split; [done|]. unfold sm at 1 in G2. rewrite (high_bits _ 16) in G2 by lia.
    by apply andb_true_iff in G2 as [_ G2%Z.leb_le].
Qed.
