(* ===== verification/TlsfHeap.v ===== *)
(** Allocation and release keep the TLSF heap: [tlsf_malloc], [tlsf_free], [tlsf_create],
    [tlsf_add_pool] against the blocks of [TlsfInv]. *)

From S2P Require Import Prelude Tlsf TlsfInv TlsfLists.

Implicit Types (B : blocks) (k : blk) (m : words) (c : control).

(** * The heap invariant *)

Definition free_of B : free_map := fun x =>
  match B !! x with Some k => if bk_free k then Some (bk_size k) else None | None => None end.

(** Memory says what block [k] at [x] is: the header, and the footer of a free block. *)
Definition says m x k : Prop :=
  hdr_at m x (bk_size k) (bk_free k) (bk_prev k) /\ (bk_free k = true -> ld m (x + bk_size k) = x).

Definition agree m B : Prop := forall x k, B !! x = Some k -> says m x k.

Record heap_ok c m B : Prop := {
  hp_chain : chain B;
  hp_merged : merged B;
  hp_agree : agree m B;
  hp_lists : exists L, lists_ok c m (free_of B) L;
}.

(** An allocated block: header address and size of the payload. *)
Definition used B x s : Prop := exists k, B !! x = Some k /\ bk_free k = false /\ bk_end k = false /\ bk_size k = s.

(** Addresses the allocator may change: headers and the space of free blocks. *)
Definition owned B (a : Z) : Prop :=
  (exists k, B !! a = Some k) \/ (exists x k, B !! x = Some k /\ bk_free k = true /\ x <= a < after x k).

(** The addresses the blocks cover. *)
Definition span B (a : Z) : Prop := exists x k, B !! x = Some k /\ x <= a < after x k.

Definition keeps_users B m m' : Prop := forall a, ~ owned B a -> ld m' a = ld m a.

(** * Frames *)

Lemma free_of_Some B x s : free_of B x = Some s <-> exists k, B !! x = Some k /\ bk_free k = true /\ bk_size k = s.
Proof.
  unfold free_of. destruct (B !! x) as [k|]; [destruct (bk_free k) eqn:E|]; split.
  - intros [= <-]. by exists k.
  - by intros (k' & [= <-] & _ & <-).
  - done.
  - intros (k' & [= <-] & Hf & _). congruence.
  - done.
  - by intros (k' & ? & _).
Qed.

Lemma span_flip f x k kn B a : B !! x = Some k -> B !! after x k = Some kn -> after x k <> x ->
  span (flip f x k kn B) a <-> span B a.
Proof.
  intros Hx Hn Hne. unfold span, flip. split.
  - intros (y & k0 & Hy & Ha). look Hy; [by exists (after x k), kn|by exists x, k|by exists y, k0].
  - intros (y & k0 & Hy & Ha). destruct (decide (y = after x k)) as [->|N1].
    + rewrite Hn in Hy. injection Hy as <-. eexists _, _. rewrite lookup_insert_eq. by split.
    + destruct (decide (y = x)) as [->|N2].
      * rewrite Hx in Hy. injection Hy as <-. eexists x, _. rewrite lookup_insert_ne, lookup_insert_eq by done. by split.
      * exists y, k0. by rewrite !lookup_insert_ne by congruence.
Qed.

Lemma span_merge x k kn B a : B !! x = Some k -> B !! after x k = Some kn -> 0 <= bk_size k -> 0 <= bk_size kn ->
  span (merge x k kn B) a <-> span B a.
Proof.
  intros Hx Hn H1 H2. unfold span, merge. split.
  - intros (y & k0 & Hy & Ha). look Hy; [|by exists y, k0]. rewrite after_merge in Ha.
    destruct (Z.lt_ge_cases a (after x k)); [exists x, k|exists (after x k), kn]; (split; [done|lia]).
  - intros (y & k0 & Hy & Ha). destruct (decide (y = x \/ y = after x k)) as [Hxy|Hxy].
    + eexists x, _. rewrite lookup_insert_eq, after_merge. split; [done|].
      assert (x <= after x k /\ after x k <= after (after x k) kn) by (unfold after; lia).
      destruct Hxy as [-> | ->]; [rewrite Hx in Hy|rewrite Hn in Hy]; injection Hy as <-; lia.
    + exists y, k0. rewrite lookup_insert_ne, lookup_delete_ne by (intros <-; tauto). by split.
Qed.

Lemma span_split x k s B a : B !! x = Some k -> 0 <= s -> s + 8 <= bk_size k -> B !! (x + 8 + s) = None ->
  span (split_at x k s B) a <-> span B a.
Proof.
  intros Hx H1 H2 Hr. unfold span, split_at. split.
  - intros (y & k0 & Hy & Ha). look Hy; [exists x, k|exists x, k|by exists y, k0];
      unfold after in *; cbn in Ha; (split; [done|lia]).
  - intros (y & k0 & Hy & Ha). destruct (decide (y = x)) as [->|N1].
    + rewrite Hx in Hy. injection Hy as <-. unfold after in *. destruct (Z.lt_ge_cases a (x + 8 + s)).
      * eexists x, _. rewrite lookup_insert_ne, lookup_insert_eq by lia. split; [done|]. cbn. lia.
      * eexists (x + 8 + s), _. rewrite lookup_insert_eq. split; [done|]. cbn. lia.
    + exists y, k0. rewrite !lookup_insert_ne; [done|congruence|]. intros <-. congruence.
Qed.

Lemma says_frame m m' x k : ld m' x = ld m x -> ld m' (x + bk_size k) = ld m (x + bk_size k) -> says m x k -> says m' x k.
Proof. intros E1 E2 [H1 H2]. split; [by apply (hdr_at_same m)|]. intros Hf. rewrite E2. auto. Qed.

Lemma lists_frame c m m' F L :
  (forall x s, F x = Some s -> same_links m m' x) -> lists_ok c m F L -> lists_ok c m' F L.
Proof.
  intros Hs [H1 H2 H3 H4 H5 H6]. split; try done. intros k Hk. apply (dseg_frame m); [|by apply H4].
  intros x Hx. apply H6 in Hx as (s & Hx & _); [|done]. by apply (Hs x s).
Qed.

Lemma lists_ext c m F F' L : (forall x, F x = F' x) -> lists_ok c m F L -> lists_ok c m F' L.
Proof.
  intros E [H1 H2 H3 H4 H5 H6]. split; try done.
  - intros x y s t. rewrite <- !E. apply H2.
  - intros x s. rewrite <- E. apply H3.
  - intros k x Hk. setoid_rewrite <- E. by apply H6.
Qed.

Section frames.
Context {B : blocks} (C : chain B).

Lemma free_not_end x k : B !! x = Some k -> bk_free k = true -> bk_end k = false.
Proof. intros Hx Hf. destruct (bk_end k) eqn:E; [|done]. destruct (ch_end _ C x k Hx E). congruence. Qed.

Lemma free_size x k : B !! x = Some k -> bk_free k = true -> 24 <= bk_size k /\ bk_size k < POOL_MAX.
Proof.
  intros Hx Hf. destruct (ch_size _ C x k Hx (free_not_end x k Hx Hf)) as (S1 & _ & S3).
  destruct (ch_pos _ C x k Hx). lia.
Qed.

(** An address inside one block is not in another. *)
Lemma not_inside x y k k' a :
  B !! x = Some k -> B !! y = Some k' -> x <> y -> x <= a < after x k -> y <= a < after y k' -> False.
Proof. intros Hx Hy Hne H1 H2. destruct (blocks_apart C x y k k' Hx Hy Hne); lia. Qed.

Lemma spaced_free : spaced (free_of B).
Proof.
  intros x y s t (k & Hx & Hf & <-)%free_of_Some (k' & Hy & Hf' & <-)%free_of_Some Hne.
  destruct (free_size x k Hx Hf), (free_size y k' Hy Hf').
  destruct (blocks_apart C x y k k' Hx Hy Hne) as [Ha|Ha]; unfold after in Ha; lia.
Qed.

(** Link fields lie strictly between a free block's header and its footer. *)
Lemma says_links F m m' x k :
  (forall y s, F y = Some s -> free_of B y = Some s) -> links_only F m m' -> B !! x = Some k -> says m x k -> says m' x k.
Proof.
  intros HF Hl Hx. pose proof (size_nonneg C x k Hx) as Hsz.
  assert (forall a, a = x \/ a = x + bk_size k -> ld m' a = ld m a) as E; [|apply says_frame; apply E; auto].
  intros a Ha. apply Hl. intros y s Hy%HF. apply free_of_Some in Hy as (ky & Hy & Hf & <-).
  destruct (free_size y ky Hy Hf) as [Hs _]. destruct (decide (y = x)) as [->|Hne].
  - rewrite Hx in Hy. injection Hy as <-. lia.
  - split; intros E; apply (not_inside x y k ky a Hx Hy ltac:(done)); unfold after; lia.
Qed.

Lemma agree_links F m m' :
  (forall y s, F y = Some s -> free_of B y = Some s) -> links_only F m m' -> agree m B -> agree m' B.
Proof. intros HF Hl Ha x k Hx. by apply (says_links F m); [..|apply Ha]. Qed.

Lemma links_owned F m m' :
  (forall y s, F y = Some s -> free_of B y = Some s) -> links_only F m m' -> keeps_users B m m'.
Proof.
  intros HF Hl a Ha. apply Hl. intros y s Hy%HF. apply free_of_Some in Hy as (ky & Hy & Hf & <-).
  destruct (free_size y ky Hy Hf) as [Hs _]. split; intros ->; apply Ha; right; exists y, ky; unfold after; split_and!; done || lia.
Qed.
End frames.

Lemma keeps_users_trans B m m' m'' : keeps_users B m m' -> keeps_users B m' m'' -> keeps_users B m m''.
Proof. intros H1 H2 a Ha. by rewrite H2, H1. Qed.

(** The last step of every operation: the new free block enters its list. *)
Lemma finish c m B b k L :
  chain B -> merged B -> agree m B -> B !! b = Some k -> bk_free k = true ->
  lists_ok c m (without b (free_of B)) L ->
  exists c' m', insert_block b c m = Some (c', m') /\ heap_ok c' m' B /\ keeps_users B m m'.
Proof.
  intros C M A Hb Hf Hl. destruct (free_size C b k Hb Hf) as [Hs1 Hs2]. destruct (ch_pos _ C b k Hb) as [Hp _].
  assert (forall x, with_block b (bk_size k) (without b (free_of B)) x = free_of B x) as HF.
  { intros x. unfold with_block, without. destruct (decide (x = b)) as [->|]; [|done].
    symmetry. apply free_of_Some. by exists k. }
  destruct (insert_block_ok c m _ L b (bk_size k) Hl) as (c' & m' & L' & E & Hl' & Ho).
  - unfold without. by rewrite decide_True.
  - lia.
  - destruct (A b k Hb) as [Hh _]. by apply (at_size Hh).
  - lia.
  - intros x y s t. rewrite !HF. by apply spaced_free.
  - exists c', m'. split; [done|].
    assert (forall y s, with_block b (bk_size k) (without b (free_of B)) y = Some s -> free_of B y = Some s) as Hsub
      by (intros y s; by rewrite HF).
    split; [|by eapply links_owned].
    split; [done|done|by eapply agree_links|]. exists L'. by eapply lists_ext.
Qed.

(** * Stores

    Each operation stores at a few addresses; every one of them lies in some block, and a block
    that none of them lies in still says the same. *)

Definition stores (l : list Z) m m' : Prop := forall a, ~ a ∈ l -> ld m' a = ld m a.

Lemma stores_st a v m : stores [a] m (st a v m).
Proof. intros x Hx. apply ld_st_ne. intros ->. apply Hx. left. Qed.
Lemma stores_trans l1 l2 m m' m'' : stores l1 m m' -> stores l2 m' m'' -> stores (l1 ++ l2) m m''.
Proof.
  intros H1 H2 a Ha. rewrite H2, H1; [done|..]; intros Hin; apply Ha, elem_of_app; auto.
Qed.

Section away.
Context {B : blocks} (C : chain B) {l : list Z} {m m' : words} (Hst : stores l m m').

(** [y] is clear of the stores. *)
Definition clear_of y : Prop := forall a, a ∈ l -> exists x kx, B !! x = Some kx /\ x <> y /\ x <= a < after x kx.

Lemma clear_ld y k a : B !! y = Some k -> clear_of y -> y <= a < after y k -> ld m' a = ld m a.
Proof.
  intros Hy Hc Ha. apply Hst. intros Hin. destruct (Hc a Hin) as (x & kx & Hx & Hne & Hax).
  by apply (not_inside C x y kx k a).
Qed.

Lemma says_clear y k : B !! y = Some k -> clear_of y -> says m y k -> says m' y k.
Proof.
  intros Hy Hc. pose proof (size_nonneg C y k Hy). apply says_frame; apply (clear_ld y k); try done; unfold after; lia.
Qed.

Lemma links_clear y k : B !! y = Some k -> bk_free k = true -> clear_of y -> same_links m m' y.
Proof.
  intros Hy Hf Hc. destruct (free_size C y k Hy Hf). unfold same_links, prev_free, next_free.
  split; apply (clear_ld y k); try done; unfold after; lia.
Qed.

Lemma stores_owned : (forall a, a ∈ l -> owned B a) -> keeps_users B m m'.
Proof. intros Ho a Ha. apply Hst. intros Hin. by apply Ha, Ho. Qed.
End away.

Lemma adjust_size_eq n : 0 < n <= REQ_MAX -> adjust_size n = Z.max 24 ((n + 7) / 8 * 8).
Proof.
  unfold REQ_MAX. intros Hn. unfold adjust_size, BLOCK_ALIGN, BLOCK_MIN.
  rewrite u64_id by (unfold is_u64; lia).
  assert (Z.land (n + 8 - 1) (0xFFFFFFFFFFFFFFFF - (8 - 1)) = (n + 7) / 8 * 8) as ->.
  { replace (n + 8 - 1) with (n + 7) by lia.
    pose proof (land_high_mask (n + 7) 3 64) as Hm. cbn in Hm. apply Hm; lia. }
  destruct (Z.ltb_spec ((n + 7) / 8 * 8) 24); lia.
Qed.

Lemma adjust_size_spec n : 0 < n <= REQ_MAX ->
  n <= adjust_size n /\ 24 <= adjust_size n <= REQ_MAX /\ adjust_size n mod 8 = 0.
Proof.
  intros Hn. rewrite adjust_size_eq by done. unfold REQ_MAX in *.
  pose proof (Z.div_mod (n + 7) 8 ltac:(lia)). pose proof (Z.mod_pos_bound (n + 7) 8 ltac:(lia)).
  split; [lia|]. split; [lia|]. destruct (Z.max_spec 24 ((n + 7) / 8 * 8)) as [[_ ->]|[_ ->]]; [|done]. by apply Z.mod_mul.
Qed.

(** * Allocation *)

Lemma size_word_8 s : s mod 8 = 0 -> 0 <= s < POOL_MAX -> size_word s.
Proof.
  unfold POOL_MAX. intros H8 Hs. split; [|lia]. rewrite (Z.div_mod s 8), H8 by lia.
  replace (8 * (s / 8) + 0) with (s / 8 * 2 * 4) by lia. by apply Z.mod_mul.
Qed.

Lemma mod8_sub a b : a mod 8 = 0 -> b mod 8 = 0 -> (a - b - 8) mod 8 = 0 /\ (a + 8 + b) mod 8 = 0.
Proof.
  intros Ha Hb. rewrite (Z.div_mod a 8), (Z.div_mod b 8), Ha, Hb by lia.
  replace (8 * (a / 8) + 0 - (8 * (b / 8) + 0) - 8) with ((a / 8 - b / 8 - 1) * 8) by lia.
  replace (8 * (a / 8) + 0 + 8 + (8 * (b / 8) + 0)) with ((a / 8 + 1 + b / 8) * 8) by lia.
  split; by apply Z.mod_mul.
Qed.

Lemma split_block_none b s m s0 f p :
  hdr_at m b s0 f p -> 0 < s -> s + 8 <= s0 < s + 32 -> split_block b s m = (NULL, m).
Proof.
  intros H Hs Hr. unfold split_block. rewrite (at_size H). destruct H as [[_ Hw] _]. change HDR_SIZE with 8.
  rewrite u32_id by (unfold is_u32; lia). unfold BLOCK_MIN. by rewrite (proj2 (Z.ltb_lt _ _)) by lia.
Qed.

Lemma split_block_some b s m s0 p :
  hdr_at m b s0 false p -> 24 <= s -> s mod 8 = 0 -> s0 mod 8 = 0 -> s + 32 <= s0 < POOL_MAX ->
  let r := b + 8 + s in
  exists m', split_block b s m = (r, m') /\ stores [b; r] m m'
    /\ hdr_at m' b s false p /\ hdr_at m' r (s0 - s - 8) false false.
Proof.
  intros H H24 H8 H80 Hr r. unfold split_block. rewrite (at_size H). change HDR_SIZE with 8.
  rewrite u32_id by (unfold is_u32, POOL_MAX in *; lia). unfold BLOCK_MIN. rewrite (proj2 (Z.ltb_ge _ _)) by lia. fold r.
  set (n := s0 - s - 8). assert (size_word n) as Hn by (apply size_word_8; [apply mod8_sub; done|unfold n; lia]).
  set (m1 := st32 r n m). assert (hdr_at m1 r n false false) as H1.
  { split; [done|]. unfold m1. rewrite ld32_st32 by (destruct Hn; lia). unfold hdr. cbn. lia. }
  pose proof (at_set_free H1 false) as H2. set (m2 := block_set_free r false m1) in *.
  pose proof (at_set_prev H2 false) as H3. set (m3 := block_set_prev_free r false m2) in *.
  assert (b <> r) as Hbr by (unfold r; lia).
  assert (hdr_at m3 b s0 false p) as Hb.
  { apply (hdr_at_same m); [|done]. unfold m3, m2, m1, block_set_prev_free, block_set_free. by rewrite !ld_st32_ne. }
  exists (block_set_size b s m3). split; [done|]. split; [|split].
  - intros a Ha. apply not_elem_of_cons in Ha as [A1 [A2 _]%not_elem_of_cons].
    unfold m3, m2, m1, block_set_size, block_set_prev_free, block_set_free. by rewrite !ld_st32_ne.
  - apply (at_set_size Hb). apply size_word_8; [done|lia].
  - apply (hdr_at_same m3); [|done]. by apply ld_st32_ne.
Qed.

(** Allocating a block whose size is exactly the (adjusted) request. *)
Definition exact_fit (size : Z) c m : bool :=
  match find_suitable (adjust_size size) c with
  | Some b => negb (b =? NULL) && (block_size m b =? adjust_size size)
  | None => false
  end.

(** What an allocation gives the caller. *)
Definition allocated B B' b s : Prop :=
  used B' b s /\ (exists k, B !! b = Some k /\ bk_free k = true /\ s <= bk_size k)
  /\ (forall x t, x <> b -> (used B' x t <-> used B x t)) /\ (forall a, span B' a <-> span B a).

(** The whole of a free block is taken. *)
Lemma take_whole c m B b k kn c1 m1 L1 :
  heap_ok c m B -> B !! b = Some k -> bk_free k = true -> B !! after b k = Some kn ->
  links_only (without b (free_of B)) m m1 -> lists_ok c1 m1 (without b (free_of B)) L1 ->
  let m2 := block_set_free b false m1 in
  let m3 := block_set_prev_free (after b k) false m2 in
  heap_ok c1 m3 (flip false b k kn B) /\ keeps_users B m m3 /\ allocated B (flip false b k kn B) b (bk_size k).
Proof.
  intros [C M A _] Hb Hf Hn Hl1 Hok1 m2 m3. pose proof (free_not_end C b k Hb Hf) as He.
  pose proof (size_nonneg C b k Hb) as Hsz. assert (after b k <> b) as Hne by (unfold after; lia).
  assert (forall y s, without b (free_of B) y = Some s -> free_of B y = Some s) as Hsub
    by (intros y s Hy; by apply without_Some in Hy as [_ Hy]).
  pose proof (agree_links C _ _ _ Hsub Hl1 A) as A1.
  assert (bk_prev kn = true) as Hpn.
  { destruct (ch_next _ C b k Hb He) as (k' & Hk' & Hp & _). rewrite Hn in Hk'. injection Hk' as <-. congruence. }
  assert (bk_free kn = false) as Hfn.
  { destruct (bk_free kn) eqn:E; [|done]. rewrite (M _ kn Hn E) in Hpn. done. }
  assert (stores [b; after b k] m1 m3) as Hst
    by (apply (stores_trans [b] [after b k] m1 m2); unfold m3, m2, block_set_prev_free, block_set_free; apply stores_st).
  assert (forall y, y <> b -> y <> after b k -> clear_of (B:=B) (l:=[b; after b k]) y) as Hclear.
  { intros y Y1 Y2 a [->|[->|[]%elem_of_nil]%elem_of_cons]%elem_of_cons; [exists b, k|exists (after b k), kn];
      (split; [done|]; split; [done|]); [unfold after; lia|].
    pose proof (size_nonneg C _ kn Hn). change (after (after b k) kn) with (after b k + 8 + bk_size kn). lia. }
  destruct (A1 b k Hb) as [Hhb _]. pose proof (at_set_free Hhb false) as Hhb2. fold m2 in Hhb2.
  destruct (A1 _ kn Hn) as [Hhn _].
  assert (hdr_at m2 (after b k) (bk_size kn) (bk_free kn) (bk_prev kn)) as Hhn2
    by (apply (hdr_at_same m1); [by apply ld_st32_ne|done]).
  pose proof (at_set_prev Hhn2 false) as Hhn3. fold m3 in Hhn3.
  assert (hdr_at m3 b (bk_size k) false (bk_prev k)) as Hhb3
    by (apply (hdr_at_same m2); [by apply ld_st32_ne|done]).
  assert (forall y, free_of (flip false b k kn B) y = without b (free_of B) y) as HF.
  { intros y. unfold free_of, without, flip. destruct (decide (y = b)) as [->|Hyb].
    - rewrite lookup_insert_ne, lookup_insert_eq by done. done.
    - destruct (decide (y = after b k)) as [->|Hyn].
      + rewrite lookup_insert_eq, Hn. cbn. by rewrite Hfn.
      + by rewrite !lookup_insert_ne by congruence. }
  split; [split|split].
  - by apply chain_flip.
  - intros y k0 Hy. unfold flip in Hy. look Hy; cbn; [done|done|by apply (M y k0)].
  - intros y k0 Hy. unfold flip in Hy. look Hy.
    + split; [exact Hhn3|]. cbn. congruence.
    + split; [exact Hhb3|]. done.
    + apply (says_clear C Hst y k0 Hy); [by apply Hclear|by apply A1].
  - exists L1. apply (lists_ext _ _ (without b (free_of B))); [intros x; by rewrite HF|].
    apply (lists_frame _ m1); [|done]. intros x s (Hxb & (kx & Hx & Hfx & _)%free_of_Some)%without_Some.
    apply (links_clear C Hst x kx Hx Hfx). apply Hclear; [done|]. intros ->. congruence.
  - apply (keeps_users_trans _ _ m1); [by apply (links_owned C _ _ _ Hsub)|]. apply (stores_owned Hst).
    intros a [->|[->|[]%elem_of_nil]%elem_of_cons]%elem_of_cons; left; by eexists.
  - split; [|split].
    + eexists. unfold flip. rewrite lookup_insert_ne, lookup_insert_eq by done. done.
    + exists k. split; [done|]. split; [done|]. lia.
    + split; [|intros a; by apply span_flip].
      intros x t Hx. unfold used, flip. destruct (decide (x = after b k)) as [->|Hxn].
      * rewrite lookup_insert_eq, Hn. split; intros (k' & [= <-] & H2 & H3 & H4); eexists; split; done.
      * by rewrite !lookup_insert_ne by congruence.
Qed.

(** A footer is the last word of the payload. *)
Lemma footer_store m b s f p : hdr_at m b s f p -> block_write_footer b m = st (b + s) b m.
Proof. intros H. unfold block_write_footer, block_footer. rewrite (at_size H). f_equal. change HDR_SIZE with 8. change FOOTER_SIZE with 8. lia. Qed.

Lemma phys_next_at m b s f p : hdr_at m b s f p -> block_phys_next m b = b + 8 + s.
Proof. intros H. unfold block_phys_next. by rewrite (at_size H). Qed.

(** The front of a free block is taken and the rest is free again. *)
Lemma take_split c m B b k kn s c1 m1 L1 :
  heap_ok c m B -> B !! b = Some k -> bk_free k = true -> B !! after b k = Some kn ->
  links_only (without b (free_of B)) m m1 -> lists_ok c1 m1 (without b (free_of B)) L1 ->
  24 <= s -> s mod 8 = 0 -> s + 32 <= bk_size k ->
  let r := b + 8 + s in
  exists m3, split_block b s (block_set_free b false m1) = (r, m3) /\
  let m4 := block_set_free r true m3 in let m5 := block_write_footer r m4 in
  let m6 := block_set_prev_free (block_phys_next m5 r) true m5 in
  exists c' m', insert_block r c1 m6 = Some (c', m') /\ heap_ok c' m' (split_at b k s B) /\ keeps_users B m m'
    /\ allocated B (split_at b k s B) b s.
Proof.
  intros [C M A _] Hb Hf Hn Hl1 Hok1 H24 H8 Hfit r. pose proof (free_not_end C b k Hb Hf) as He.
  destruct (ch_size _ C b k Hb He) as (S1 & S2 & _). destruct (free_size C b k Hb Hf) as [_ S3].
  set (B' := split_at b k s B). pose proof (chain_split b k s B C Hb He Hf H24 H8 Hfit) as C'. fold B' in C'.
  assert (forall y t, without b (free_of B) y = Some t -> free_of B y = Some t) as Hsub
    by (intros y t Hy; by apply without_Some in Hy as [_ Hy]).
  pose proof (agree_links C _ _ _ Hsub Hl1 A) as A1.
  assert (bk_prev kn = true) as Hpn.
  { destruct (ch_next _ C b k Hb He) as (k' & Hk' & Hp & _). rewrite Hn in Hk'. injection Hk' as <-. congruence. }
  assert (bk_free kn = false) as Hfn.
  { destruct (bk_free kn) eqn:E; [|done]. rewrite (M _ kn Hn E) in Hpn. done. }
  destruct (A1 b k Hb) as [Hhb _]. rewrite (M b k Hb Hf) in Hhb. pose proof (at_set_free Hhb false) as Hhb2.
  set (m2 := block_set_free b false m1) in *.
  destruct (split_block_some b s m2 (bk_size k) false Hhb2 H24 H8 S2 ltac:(lia)) as (m3 & E3 & St3 & Hb3 & Hr3).
  fold r in E3, St3, Hr3. exists m3. split; [exact E3|]. intros m4 m5 m6.
  set (n := after b k) in *. set (q := bk_size k - s - 8) in *.
  assert (r + q = b + bk_size k /\ n = b + 8 + bk_size k /\ b < r < n /\ r + q < n) as (Q1 & Q2 & Q3 & Q4)
    by (unfold n, after, q, r; lia).
  pose proof (at_set_free Hr3 true) as Hr4. fold m4 in Hr4.
  assert (m5 = st (r + q) r m4) as E5 by (exact (footer_store _ _ _ _ _ Hr4)).
  assert (hdr_at m5 r q true false) as Hr5 by (rewrite E5; apply (hdr_at_same m4); [apply ld_st_ne; unfold q; lia|done]).
  assert (block_phys_next m5 r = n) as En by (rewrite (phys_next_at _ _ _ _ _ Hr5); unfold n, after, q, r; lia).
  assert (stores [b; b; r; r; b + bk_size k; n] m1 m6) as Hst.
  { apply (stores_trans [b] [b; r; r; b + bk_size k; n] m1 m2); [apply stores_st|].
    apply (stores_trans [b; r] [r; b + bk_size k; n] m2 m3); [done|].
    apply (stores_trans [r] [b + bk_size k; n] m3 m4); [apply stores_st|].
    apply (stores_trans [b + bk_size k] [n] m4 m5); [rewrite E5, Q1; apply stores_st|].
    unfold m6. rewrite En. apply stores_st. }
  assert (forall a, a ∈ [b; b; r; r; b + bk_size k; n] -> a = n \/ b <= a < after b k) as Hin.
  { intros a Ha. fold n. repeat (apply elem_of_cons in Ha as [->|Ha]; [lia|]). by apply elem_of_nil in Ha. }
  assert (forall y, y <> b -> y <> n -> clear_of (B:=B) (l:=[b; b; r; r; b + bk_size k; n]) y) as Hclear.
  { intros y Y1 Y2 a Ha. destruct (Hin a Ha) as [->|Ha']; [exists n, kn|by exists b, k].
    pose proof (size_nonneg C _ kn Hn). change (after n kn) with (n + 8 + bk_size kn). split_and!; done || lia. }
  assert (hdr_at m6 b s false false /\ hdr_at m6 r q true false /\ ld m6 (r + q) = r) as (Hb6 & Hr6 & Hf6).
  { unfold m6. rewrite En. split; [|split].
    - apply (hdr_at_same m3); [|done]. unfold m4 in E5. rewrite E5. unfold block_set_prev_free, block_set_free.
      rewrite ld_st32_ne, ld_st_ne, ld_st32_ne by lia. done.
    - apply (hdr_at_same m5); [|done]. apply ld_st32_ne. lia.
    - unfold block_set_prev_free. rewrite ld_st32_ne by lia. rewrite E5. apply ld_st_eq. }
  assert (hdr_at m6 n (bk_size kn) (bk_free kn) true) as Hn6.
  { unfold m6. rewrite En. destruct (A1 n kn Hn) as [Hhn _]. apply (at_set_prev (p := bk_prev kn)).
    apply (hdr_at_same m1); [|done]. assert (stores [b; b; r; r; b + bk_size k] m1 m5) as Hst5.
    { apply (stores_trans [b] [b; r; r; b + bk_size k] m1 m2); [apply stores_st|].
      apply (stores_trans [b; r] [r; b + bk_size k] m2 m3); [done|].
      apply (stores_trans [r] [b + bk_size k] m3 m4); [apply stores_st|]. rewrite E5, Q1. apply stores_st. }
    apply Hst5. intros Ha. repeat (apply elem_of_cons in Ha as [Ha|Ha]; [lia|]). by apply elem_of_nil in Ha. }
  assert (B' !! r = Some (mkBlk q true false false (bk_lo k))) as Hr' by (apply lookup_insert_eq).
  pose proof (inside_absent b k r B C Hb Q3) as Hrn.
  assert (forall y, without r (free_of B') y = without b (free_of B) y) as HF.
  { intros y. unfold free_of, without, B', split_at. fold r. destruct (decide (y = r)) as [->|Hyr].
    - rewrite decide_False by lia. by rewrite Hrn.
    - rewrite lookup_insert_ne by done. destruct (decide (y = b)) as [->|Hyb]; [by rewrite lookup_insert_eq|].
      by rewrite lookup_insert_ne by done. }
  assert (agree m6 B') as A6.
  { intros y k0 Hy. unfold B', split_at in Hy. fold r in Hy. look Hy; [by split|split; [cbn; by rewrite (M b k Hb Hf)|done]|].
    destruct (decide (y = n)) as [->|Hyn].
    - rewrite Hn in Hy. injection Hy as <-. split; [by rewrite Hpn|]. congruence.
    - apply (says_clear C Hst y k0 Hy); [by apply Hclear|by apply A1]. }
  assert (merged B') as M'.
  { intros y k0 Hy. unfold B', split_at in Hy. look Hy; cbn; [done|done|by apply (M y k0)]. }
  destruct (finish c1 m6 B' r (mkBlk q true false false (bk_lo k)) L1 C' M' A6 Hr' eq_refl) as (c' & m' & E' & H' & K').
  { apply (lists_ext _ _ (without b (free_of B))); [intros x; by rewrite HF|].
    apply (lists_frame _ m1); [|done]. intros x t (Hxb & (kx & Hx & Hfx & _)%free_of_Some)%without_Some.
    apply (links_clear C Hst x kx Hx Hfx). apply Hclear; [done|]. intros ->. congruence. }
  exists c', m'. split; [done|]. split; [done|]. split.
  - apply (keeps_users_trans _ _ m1); [by apply (links_owned C _ _ _ Hsub)|].
    apply (keeps_users_trans _ _ m6).
    + apply (stores_owned Hst). intros a Ha. destruct (Hin a Ha) as [->|Ha']; [left; by eexists|right; by exists b, k].
    + intros a Ha. apply K'. intros [[k0 Hk0]|(x & k0 & Hx & Hfx & Hax)]; apply Ha.
      * unfold B', split_at in Hk0. look Hk0; [right; exists b, k; fold r; unfold after; split_and!; done || lia|left; by eexists|left; by eexists].
      * unfold B', split_at in Hx. look Hx; [|done|right; by exists x, k0].
        right. exists b, k. split; [done|]. split; [done|]. unfold after in *. cbn in Hax. lia.
  - split; [|split].
    + eexists. unfold B', split_at. rewrite lookup_insert_ne, lookup_insert_eq by lia. done.
    + exists k. split; [done|]. split; [done|]. lia.
    + split; [|intros a; apply span_split; [done|lia|lia|done]].
      intros x t Hx. unfold used, B', split_at. fold r. destruct (decide (x = r)) as [->|Hxr].
      * rewrite lookup_insert_eq, Hrn. split; [intros (k' & [= <-] & ? & _)|intros (k' & ? & _)]; done.
      * by rewrite !lookup_insert_ne by congruence.
Qed.

Lemma tlsf_malloc_ok c m B size :
  heap_ok c m B -> 0 < size <= REQ_MAX -> exact_fit size c m = false ->
  exists p c' m' B', tlsf_malloc size c m = Some (p, c', m') /\ heap_ok c' m' B' /\ keeps_users B m m'
    /\ ((p = NULL /\ c' = c /\ m' = m /\ B' = B
         /\ forall x k, B !! x = Some k -> bk_free k = true -> bk_size k < rounded (adjust_size size))
        \/ (exists b s, p = block_to_ptr b /\ 0 < b /\ size <= s /\ allocated B B' b s)).
Proof.
  intros Hok Hsize Hfit. pose proof Hok as [C M A [L HL]]. destruct (adjust_size_spec size Hsize) as (Z1 & Z2 & Z3).
  set (s := adjust_size size) in *.
  assert (forall x t, free_of B x = Some t -> 16 <= t) as H16.
  { intros x t (k & Hx & Hf & <-)%free_of_Some. destruct (free_size C x k Hx Hf). lia. }
  destruct (find_suitable_ok c m _ L s HL H16 ltac:(lia)) as (b & Ef & Hcase).
  unfold tlsf_malloc. rewrite (proj2 (Z.eqb_neq size 0)) by lia. fold s.
  rewrite u32_id by (unfold is_u32, REQ_MAX in *; lia). rewrite Ef.
  destruct Hcase as [[-> Hnone]|(t & Hb & Hst)].
  - change (0 =? NULL) with true. cbv iota. exists NULL, c, m, B. split; [done|]. split; [done|]. split; [done|].
    left. do 4 (split; [done|]). intros x k Hx Hf. apply (Hnone x). apply free_of_Some. by exists k.
  - pose proof (li_pos _ _ _ _ HL b t Hb) as [Hb0 Ht]. rewrite (proj2 (Z.eqb_neq b NULL)) by (unfold NULL; lia).
    destruct (proj1 (free_of_Some B b t) Hb) as (k & Hk & Hf & Hsk).
    pose proof (free_not_end C b k Hk Hf) as He. destruct (ch_size _ C b k Hk He) as (_ & S2 & _).
    destruct (A b k Hk) as [Hhb _]. pose proof (at_size Hhb) as Esz.
    assert (s <> bk_size k) as Hne.
    { intros E. unfold exact_fit in Hfit. fold s in Hfit. rewrite Ef, Esz, (proj2 (Z.eqb_neq b NULL)) in Hfit by (unfold NULL; lia).
      by rewrite E, Z.eqb_refl in Hfit. }
    assert (s + 8 <= bk_size k) as H8.
    { pose proof (Z.div_mod s 8). pose proof (Z.div_mod (bk_size k) 8). lia. }
    destruct (bucket_small t Ht) as (kb & Hkb & _).
    destruct (remove_block_ok c m _ L b t kb HL Hb ltac:(lia) ltac:(congruence) Hkb) as (c1 & m1 & L1 & Er & HL1 & Ho1).
    rewrite Er. destruct (ch_next _ C b k Hk He) as (kn & Hn & _ & _).
    assert (forall y u, without b (free_of B) y = Some u -> free_of B y = Some u) as Hsub
      by (intros y u Hy; by apply without_Some in Hy as [_ Hy]).
    destruct (agree_links C _ _ _ Hsub Ho1 A b k Hk) as [Hhb1 _].
    pose proof (at_set_free Hhb1 false) as Hhb2.
    destruct (Z.lt_ge_cases (bk_size k) (s + 32)) as [Hlt|Hge].
    + rewrite (split_block_none _ _ _ _ _ _ Hhb2) by lia. change (NULL =? NULL) with true. cbv iota.
      rewrite (phys_next_at _ _ _ _ _ Hhb2).
      destruct (take_whole c m B b k kn c1 m1 L1 Hok Hk Hf Hn Ho1 HL1) as (H1 & H2 & H3).
      eexists _, _, _, (flip false b k kn B). split; [done|]. split; [exact H1|]. split; [exact H2|].
      right. exists b, (bk_size k). split; [done|]. split; [done|]. split; [lia|done].
    + destruct (take_split c m B b k kn s c1 m1 L1 Hok Hk Hf Hn Ho1 HL1) as (m3 & E3 & c' & m' & E4 & H1 & H2 & H3); [lia|done|lia|].
      rewrite E3. rewrite (proj2 (Z.eqb_neq (b + 8 + s) NULL)) by (unfold NULL; lia). rewrite E4.
      eexists _, _, _, (split_at b k s B). split; [done|]. split; [exact H1|]. split; [exact H2|].
      right. exists b, s. split; [done|]. split; [done|]. split; [lia|done].
Qed.

(** * Release

    Between its first store and its last, [tlsf_free] holds a free block [b] that is in no list yet
    and whose successor [n] may not know that [b] is free. *)

Record pending c m B b n : Prop := {
  pd_chain : chain B;
  pd_blk : exists k, B !! b = Some k /\ bk_free k = true /\ after b k = n /\ hdr_at m b (bk_size k) true (bk_prev k);
  pd_next : exists kn p, B !! n = Some kn /\ bk_prev kn = true /\ hdr_at m n (bk_size kn) (bk_free kn) p
                         /\ (bk_free kn = true -> ld m (n + bk_size kn) = n);
  pd_says y k : B !! y = Some k -> y <> b -> y <> n -> says m y k;
  pd_merged y k : B !! y = Some k -> bk_free k = true -> y <> b -> y <> n -> bk_prev k = false;
  pd_lists : exists L, lists_ok c m (without b (free_of B)) L;
}.

(** What a stage of the release leaves alone. *)
Definition stage B m B' m' : Prop :=
  keeps_users B m m' /\ (forall a, owned B' a -> owned B a) /\ (forall x t, used B' x t <-> used B x t) /\ (forall a, span B' a <-> span B a).

Lemma stage_refl B m : stage B m B m.
Proof. by split. Qed.
Lemma stage_trans B m B' m' B'' m'' : stage B m B' m' -> stage B' m' B'' m'' -> stage B m B'' m''.
Proof.
  intros (H1 & H2 & H3 & H4) (G1 & G2 & G3 & G4). split; [|split; [|split]].
  - intros a Ha. rewrite G1, H1; [done..|]. intros Ha'. by apply Ha, H2.
  - intros a Ha. by apply H2, G2.
  - intros x t. by rewrite G3.
  - intros a. by rewrite G4.
Qed.

Lemma links_header B F m m' x k a : chain B ->
  (forall y s, F y = Some s -> free_of B y = Some s) -> links_only F m m' -> B !! x = Some k ->
  a = x \/ a = x + bk_size k -> ld m' a = ld m a.
Proof.
  intros C HF Hl Hx Ha. pose proof (size_nonneg C x k Hx) as Hsz. apply Hl.
  intros y s Hy%HF. apply free_of_Some in Hy as (ky & Hy & Hf & <-).
  destruct (free_size C y ky Hy Hf) as [Hs _]. destruct (decide (y = x)) as [->|Hne].
  - rewrite Hx in Hy. injection Hy as <-. lia.
  - split; intros E; apply (not_inside C x y k ky a Hx Hy ltac:(done)); unfold after; lia.
Qed.

(** Merging [b] with the free block [n'] after it: the common part of the two coalescing steps.  The
    header that grows is [b]'s; the list loses [g], which is [b] or its successor. *)
Lemma merge_stage B b k n kn m m1 s' F :
  chain B -> B !! b = Some k -> bk_free k = true -> after b k = n -> B !! n = Some kn -> bk_free kn = true ->
  (forall y s, F y = Some s -> free_of B y = Some s) -> links_only F m m1 ->
  stage B m (merge b k kn B) (block_set_size b s' m1).
Proof.
  intros C Hb Hf <- Hn Hfn HF Hl. split; [|split; [|split]].
  - apply (keeps_users_trans _ _ m1); [by apply (links_owned C F)|].
    apply (stores_owned (l := [b])); [apply stores_st|]. intros a [->|[]%elem_of_nil]%elem_of_cons. left. by eexists.
  - intros a [[k0 Hk0]|(x & k0 & Hx & Hfx & Ha)].
    + unfold merge in Hk0. look Hk0; left; by eexists.
    + unfold merge in Hx. look Hx; [|right; by exists x, k0]. right. rewrite after_merge in Ha.
      destruct (Z.lt_ge_cases a (after b k)); [exists b, k|exists (after b k), kn]; split_and!; done || lia.
  - intros x t. unfold used, merge. split.
    + intros (k0 & Hx & H1 & H2 & H3). look Hx; [done|]. by exists k0.
    + intros (k0 & Hx & H1 & H2 & H3). exists k0. split; [|done].
      assert (x <> b) by congruence. assert (x <> after b k) by congruence.
      by rewrite lookup_insert_ne, lookup_delete_ne.
  - intros a. apply span_merge; [done|done|by apply (size_nonneg C b k)|by apply (size_nonneg C (after b k) kn)].
Qed.

Lemma free_of_merge b k kn B x : B !! b = Some k -> after b k <> b ->
  without b (free_of (merge b k kn B)) x = without (after b k) (without b (free_of B)) x.
Proof.
  intros Hb Hne. unfold without, free_of, merge. destruct (decide (x = b)) as [->|Hxb].
  - by rewrite decide_False by congruence.
  - rewrite lookup_insert_ne by done. destruct (decide (x = after b k)) as [->|Hxn].
    + by rewrite lookup_delete_eq.
    + by rewrite lookup_delete_ne.
Qed.

Lemma sum_word x y : x mod 8 = 0 -> y mod 8 = 0 -> 24 <= x -> 24 <= y -> x + 8 + y < POOL_MAX ->
  u32 (x + 8 + y) = x + 8 + y /\ size_word (x + 8 + y).
Proof.
  intros Hx Hy H1 H2 H3. split; [apply u32_id; unfold is_u32, POOL_MAX in *; lia|].
  apply size_word_8; [apply mod8_sub; done|lia].
Qed.

Lemma coalesce_prev_ok c m B b n :
  pending c m B b n ->
  exists b1 c1 m1 B1 k1, coalesce_prev b c m = Some (b1, c1, m1) /\ pending c1 m1 B1 b1 n
    /\ B1 !! b1 = Some k1 /\ bk_prev k1 = false /\ stage B m B1 m1.
Proof.
  intros P. pose proof P as [C (k & Hb & Hf & <- & Hh) (kn & p & Hn & Hpn & Hhn & Hfn) Hs HM (L & HL)].
  unfold coalesce_prev. rewrite (at_prev Hh). destruct (bk_prev k) eqn:Ep.
  2: { exists b, c, m, B, k. split; [done|]. split; [done|]. split; [done|]. split; [done|]. apply stage_refl. }
  destruct (ch_prev _ C b k Hb Ep) as (y & ky & Hy & Ey & Hfy). subst b.
  pose proof (size_nonneg C y ky Hy). pose proof (size_nonneg C _ k Hb).
  set (b := after y ky) in *. set (n := after b k) in *.
  assert (y < b < n) as Hlt by (unfold n, b, after in *; lia).
  destruct (Hs y ky Hy ltac:(lia) ltac:(lia)) as [Hhy Hfty]. specialize (Hfty Hfy).
  assert (block_phys_prev m b = y) as ->.
  { unfold block_phys_prev. change FOOTER_SIZE with 8. rewrite <- Hfty. f_equal. unfold b, after. lia. }
  pose proof (HM y ky Hy Hfy ltac:(lia) ltac:(lia)) as Hpy.
  destruct (free_size C y ky Hy Hfy) as [Y1 Y2]. destruct (free_size C b k Hb Hf) as [B1 B2].
  destruct (ch_size _ C y ky Hy (free_not_end C y ky Hy Hfy)) as (_ & Y3 & _).
  destruct (ch_size _ C b k Hb (free_not_end C b k Hb Hf)) as (_ & B3 & B4).
  assert (without b (free_of B) y = Some (bk_size ky)) as HFy
    by (apply without_Some; split; [lia|]; apply free_of_Some; by exists ky).
  destruct (bucket_small (bk_size ky) ltac:(lia)) as (kb & Hkb & _).
  destruct (remove_block_ok c m _ L y (bk_size ky) kb HL HFy ltac:(lia) (at_size Hhy) Hkb) as (c1 & m1 & L1 & Er & HL1 & Ho).
  rewrite Er. set (F := without y (without b (free_of B))) in *.
  assert (forall x s, F x = Some s -> free_of B x = Some s) as HF
    by (intros x s Hx; apply without_Some in Hx as [_ Hx]; by apply without_Some in Hx as [_ Hx]).
  assert (hdr_at m1 y (bk_size ky) true false) as Hhy1.
  { apply (hdr_at_same m); [by apply (links_header B F m m1 y ky); auto|]. by rewrite <- Hfy, <- Hpy. }
  assert (hdr_at m1 b (bk_size k) true true) as Hhb1
    by (apply (hdr_at_same m); [by apply (links_header B F m m1 b k); auto|done]).
  rewrite (at_size Hhy1), (at_size Hhb1). change HDR_SIZE with 8.
  assert (bk_lo k = bk_lo ky) as Hlo.
  { destruct (ch_next _ C y ky Hy (free_not_end C y ky Hy Hfy)) as (k' & Hk' & _ & Hl). fold b in Hk'. congruence. }
  destruct (ch_pos _ C y ky Hy) as [Hposy _].
  destruct (sum_word (bk_size ky) (bk_size k) Y3 B3 Y1 B1) as [Eu Hw].
  { unfold POOL_MAX in *. unfold b, after in B4. lia. }
  rewrite Eu. set (m2 := block_set_size y (bk_size ky + 8 + bk_size k) m1).
  pose proof (at_set_size Hhy1 _ Hw) as Hhy2. fold m2 in Hhy2.
  pose proof (chain_merge y ky k B C Hy (free_not_end C y ky Hy Hfy) Hb Hf) as C1.
  assert (stores [y] m1 m2) as St by (apply stores_st).
  assert (forall x, x <> y -> clear_of (B:=B) (l:=[y]) x) as Hcl.
  { intros x Hx a [->|[]%elem_of_nil]%elem_of_cons. exists y, ky. unfold after. split_and!; done || lia. }
  exists y, c1, m2, (merge y ky k B), (mkBlk (bk_size ky + 8 + bk_size k) true (bk_prev ky) false (bk_lo ky)).
  split; [done|]. split; [|split; [apply lookup_insert_eq|split; [done|by apply (merge_stage B y ky b k m m1 _ F)]]].
  split; [done|..].
  - eexists. split; [apply lookup_insert_eq|]. split; [done|]. split; [by rewrite after_merge|]. cbn. by rewrite Hpy.
  - exists kn, p. unfold merge. fold b. rewrite lookup_insert_ne, lookup_delete_ne by lia. split; [done|]. split; [done|].
    assert (forall a, a = n \/ a = n + bk_size kn -> ld m2 a = ld m a) as En.
    { intros a Ha. pose proof (size_nonneg C n kn Hn).
      rewrite (clear_ld C St n kn a Hn); [by apply (links_header B F m m1 n kn)|apply Hcl; lia|unfold after; lia]. }
    split; [apply (hdr_at_same m); [apply En; auto|done]|]. intros Hfk. rewrite En by auto. by apply Hfn.
  - intros x kx Hx N1 N2. unfold merge in Hx. look Hx; [done|]. apply (says_clear C St x kx Hx); [by apply Hcl|].
    apply (says_links C F m m1 x kx HF Ho Hx). by apply Hs.
  - intros x kx Hx Hfx N1 N2. unfold merge in Hx. look Hx; [done|]. by apply (HM x kx).
  - exists L1. apply (lists_ext _ _ F).
    { intros x. rewrite free_of_merge by (done || lia). fold b. unfold F, without.
      destruct (decide (x = y)), (decide (x = b)); done. }
    apply (lists_frame _ m1); [|done]. intros x s Hx. pose proof (HF x s Hx) as (kx & Hx' & Hfx & _)%free_of_Some.
    apply (links_clear C St x kx Hx' Hfx), Hcl. intros ->. unfold F, without in Hx. by rewrite decide_True in Hx.
Qed.

Lemma coalesce_next_ok c m B b n k :
  pending c m B b n -> B !! b = Some k -> bk_prev k = false ->
  exists c1 m1 B1 n1 k1 kn1, coalesce_next b c m = Some (b, c1, m1) /\ pending c1 m1 B1 b n1
    /\ B1 !! b = Some k1 /\ bk_prev k1 = false /\ B1 !! n1 = Some kn1 /\ bk_free kn1 = false /\ stage B m B1 m1.
Proof.
  intros P Hbk Ep. pose proof P as [C (k' & Hb & Hf & <- & Hh) (kn & p & Hn & Hpn & Hhn & Hfn) Hs HM (L & HL)].
  rewrite Hbk in Hb. injection Hb as <-. rename Hbk into Hb.
  unfold coalesce_next. rewrite (phys_next_at _ _ _ _ _ Hh). fold (after b k). rewrite (at_free Hhn).
  destruct (bk_free kn) eqn:Efn.
  2: { exists c, m, B, (after b k), k, kn. split; [done|]. split; [done|]. split; [done|]. split; [done|].
       split; [done|]. split; [done|]. apply stage_refl. }
  set (n := after b k) in *. pose proof (size_nonneg C b k Hb). assert (b < n) as Hlt by (unfold n, after; lia).
  destruct (free_size C n kn Hn Efn) as [N1 N2]. destruct (free_size C b k Hb Hf) as [B1 B2].
  pose proof (free_not_end C n kn Hn Efn) as Hen. pose proof (free_not_end C b k Hb Hf) as Heb.
  destruct (ch_size _ C n kn Hn Hen) as (_ & N3 & N4). destruct (ch_size _ C b k Hb Heb) as (_ & B3 & _).
  destruct (ch_next _ C n kn Hn Hen) as (kn1 & Hn1 & Hpn1 & _). set (n1 := after n kn) in *.
  assert (n < n1) as Hlt1 by (unfold n1, after; lia).
  assert (bk_free kn1 = false) as Hfn1.
  { destruct (bk_free kn1) eqn:E; [|done]. rewrite (HM n1 kn1 Hn1 E) in Hpn1 by lia. congruence. }
  assert (without b (free_of B) n = Some (bk_size kn)) as HFn
    by (apply without_Some; split; [lia|]; apply free_of_Some; by exists kn).
  destruct (bucket_small (bk_size kn) ltac:(lia)) as (kb & Hkb & _).
  destruct (remove_block_ok c m _ L n (bk_size kn) kb HL HFn ltac:(lia) (at_size Hhn) Hkb) as (c1 & m1 & L1 & Er & HL1 & Ho).
  rewrite Er. set (F := without n (without b (free_of B))) in *.
  assert (forall x s, F x = Some s -> free_of B x = Some s) as HF
    by (intros x s Hx; apply without_Some in Hx as [_ Hx]; by apply without_Some in Hx as [_ Hx]).
  assert (hdr_at m1 n (bk_size kn) true p) as Hhn2
    by (apply (hdr_at_same m); [by apply (links_header B F m m1 n kn); auto|done]).
  assert (hdr_at m1 b (bk_size k) true (bk_prev k)) as Hhb1
    by (apply (hdr_at_same m); [by apply (links_header B F m m1 b k); auto|done]).
  rewrite (at_size Hhb1), (at_size Hhn2). change HDR_SIZE with 8.
  assert (bk_lo kn = bk_lo k) as Hlo.
  { destruct (ch_next _ C b k Hb Heb) as (k' & Hk' & _ & Hl). fold n in Hk'. congruence. }
  destruct (ch_pos _ C b k Hb) as [Hposb _].
  destruct (sum_word (bk_size k) (bk_size kn) B3 N3 B1 N1) as [Eu Hw].
  { unfold POOL_MAX in *. unfold n, after in N4. lia. }
  rewrite Eu. set (m2 := block_set_size b (bk_size k + 8 + bk_size kn) m1).
  pose proof (at_set_size Hhb1 _ Hw) as Hhb2. fold m2 in Hhb2.
  pose proof (chain_merge b k kn B C Hb Heb Hn Efn) as C1.
  assert (stores [b] m1 m2) as St by (apply stores_st).
  assert (forall x, x <> b -> clear_of (B:=B) (l:=[b]) x) as Hcl.
  { intros x Hx a [->|[]%elem_of_nil]%elem_of_cons. exists b, k. unfold n, after in *. split_and!; done || lia. }
  set (B' := merge b k kn B).
  assert (B' !! n1 = Some kn1) as Hn1'
    by (unfold B', merge; fold n; by rewrite lookup_insert_ne, lookup_delete_ne by lia).
  exists c1, m2, B', n1, (mkBlk (bk_size k + 8 + bk_size kn) true (bk_prev k) false (bk_lo k)), kn1.
  split; [done|]. split; [|split; [apply lookup_insert_eq|split; [done|split; [done|split; [done|]]]]].
  2: { by apply (merge_stage B b k n kn m m1 _ F). }
  split; [done|..].
  - eexists. split; [apply lookup_insert_eq|]. split; [done|]. split; [apply after_merge|]. done.
  - exists kn1, (bk_prev kn1). split; [done|]. split; [congruence|]. rewrite Hfn1. split; [|done].
    destruct (says_clear C St n1 kn1 Hn1 (Hcl n1 ltac:(lia))) as [Hx _].
    { apply (says_links C F m m1 n1 kn1 HF Ho Hn1). apply Hs; [done|lia|lia]. }
    by rewrite <- Hfn1.
  - intros x kx Hx N5 N6. unfold B', merge in Hx. look Hx; [done|]. apply (says_clear C St x kx Hx); [by apply Hcl|].
    apply (says_links C F m m1 x kx HF Ho Hx). by apply Hs.
  - intros x kx Hx Hfx N5 N6. unfold B', merge in Hx. look Hx; [done|]. by apply (HM x kx).
  - exists L1. apply (lists_ext _ _ F).
    { intros x. unfold B'. rewrite free_of_merge by (done || lia). done. }
    apply (lists_frame _ m1); [|done]. intros x s Hx. pose proof (HF x s Hx) as (kx & Hx' & Hfx & _)%free_of_Some.
    apply (links_clear C St x kx Hx' Hfx), Hcl. intros ->. unfold F, without in Hx.
    rewrite (decide_True (P := b = b)) in Hx by done. by destruct (decide (b = n)).
Qed.

(** The successor learns that the block is free, the footer is written, the block enters its list. *)
Lemma pending_finish c m B b n k kn :
  pending c m B b n -> B !! b = Some k -> bk_prev k = false -> B !! n = Some kn -> bk_free kn = false ->
  let m1 := block_set_prev_free (block_phys_next m b) true m in
  exists c' m', insert_block b c (block_write_footer b m1) = Some (c', m') /\ heap_ok c' m' B /\ keeps_users B m m'.
Proof.
  intros P Hbk Ep Hnk Hfn m1. pose proof P as [C (k' & Hb & Hf & <- & Hh) (kn' & p & Hn & Hpn & Hhn & _) Hs HM (L & HL)].
  rewrite Hbk in Hb. injection Hb as <-. rewrite Hnk in Hn. injection Hn as <-. rename Hbk into Hb, Hnk into Hn.
  pose proof (size_nonneg C b k Hb). pose proof (size_nonneg C _ kn Hn). set (n := after b k) in *.
  assert (b < n) as Hlt by (unfold n, after; lia). destruct (free_size C b k Hb Hf) as [S1 _].
  assert (block_phys_next m b = n) as En by (exact (phys_next_at _ _ _ _ _ Hh)).
  assert (hdr_at m1 b (bk_size k) true (bk_prev k)) as Hh1
    by (apply (hdr_at_same m); [unfold m1; rewrite En; apply ld_st32_ne; lia|done]).
  rewrite (footer_store _ _ _ _ _ Hh1). set (m2 := st (b + bk_size k) b m1).
  assert (stores [n; b + bk_size k] m m2) as St
    by (apply (stores_trans [n] [b + bk_size k] m m1); [unfold m1; rewrite En|]; apply stores_st).
  assert (forall a, a ∈ [n; b + bk_size k] -> a = n \/ b <= a < after b k) as Hin.
  { intros a [->|[->|[]%elem_of_nil]%elem_of_cons]%elem_of_cons; [by left|right; unfold after; lia]. }
  assert (forall x, x <> b -> x <> n -> clear_of (B:=B) (l:=[n; b + bk_size k]) x) as Hcl.
  { intros x N1 N2 a Ha. destruct (Hin a Ha) as [->|Ha']; [exists n, kn|by exists b, k].
    change (after n kn) with (n + 8 + bk_size kn). split_and!; done || lia. }
  assert (hdr_at m2 n (bk_size kn) (bk_free kn) true) as Hn2.
  { apply (hdr_at_same m1); [apply ld_st_ne; unfold n, after; lia|]. unfold m1. rewrite En. exact (at_set_prev Hhn true). }
  destruct (finish c m2 B b k L C) as (c' & m' & E & H' & K').
  - intros x kx Hx Hfx. destruct (decide (x = b)) as [->|]; [congruence|].
    destruct (decide (x = n)) as [->|]; [congruence|]. by apply (HM x kx).
  - intros x kx Hx. destruct (decide (x = b)) as [->|N1].
    + rewrite Hb in Hx. injection Hx as <-. split; [|intros _; apply ld_st_eq].
      apply (hdr_at_same m1); [apply ld_st_ne; lia|]. by rewrite Hf.
    + destruct (decide (x = n)) as [->|N2].
      * rewrite Hn in Hx. injection Hx as <-. split; [by rewrite Hpn|congruence].
      * apply (says_clear C St x kx Hx); [by apply Hcl|]. by apply Hs.
  - exact Hb.
  - exact Hf.
  - apply (lists_frame _ m); [|done]. intros x s (N1 & (kx & Hx & Hfx & _)%free_of_Some)%without_Some.
    apply (links_clear C St x kx Hx Hfx), Hcl; [done|]. intros ->. congruence.
  - exists c', m'. split; [done|]. split; [done|]. apply (keeps_users_trans _ _ m2); [|done].
    apply (stores_owned St). intros a Ha. destruct (Hin a Ha) as [->|Ha']; [left; by eexists|right; by exists b, k].
Qed.

Lemma tlsf_free_ok c m B b s :
  heap_ok c m B -> used B b s ->
  exists c' m' B', tlsf_free (block_to_ptr b) c m = Some (c', m') /\ heap_ok c' m' B'
    /\ (forall a, ~ owned B a -> ~ b <= a < b + 8 + s -> ld m' a = ld m a)
    /\ (forall x t, used B' x t <-> used B x t /\ x <> b) /\ (forall a, span B' a <-> span B a).
Proof.
  intros [C M A [L HL]] (k & Hb & Hf & He & <-). destruct (ch_size _ C b k Hb He) as (S1 & S2 & S3).
  destruct (ch_pos _ C b k Hb) as [P1 _]. destruct (ch_next _ C b k Hb He) as (kn & Hn & Hpn & _).
  rewrite Hf in Hpn. set (n := after b k) in *. pose proof (size_nonneg C _ kn Hn) as Hsn.
  assert (b < n) as Hlt by (unfold n, after; lia).
  unfold tlsf_free. rewrite (proj2 (Z.eqb_neq _ NULL)) by (unfold block_to_ptr, HDR_SIZE, NULL; lia).
  assert (ptr_to_block (block_to_ptr b) = b) as -> by (unfold ptr_to_block, block_to_ptr; lia).
  destruct (A b k Hb) as [Hh _]. pose proof (at_set_free Hh true) as Hh1. set (m1 := block_set_free b true m) in *.
  rewrite (footer_store _ _ _ _ _ Hh1). set (m2 := st (b + bk_size k) b m1).
  assert (stores [b; b + bk_size k] m m2) as St by (apply (stores_trans [b] [b + bk_size k] m m1); apply stores_st).
  assert (forall x, x <> b -> clear_of (B:=B) (l:=[b; b + bk_size k]) x) as Hcl.
  { intros x N1 a [->|[->|[]%elem_of_nil]%elem_of_cons]%elem_of_cons; exists b, k;
      (split; [done|split; [done|unfold after; lia]]). }
  set (B1 := flip true b k kn B). pose proof (chain_flip true b k kn B C Hb He Hn) as C1. fold B1 in C1.
  assert (forall x, without b (free_of B1) x = without b (free_of B) x) as HF.
  { intros x. unfold without, free_of, B1, flip. fold n. destruct (decide (x = b)) as [|N1]; [done|].
    destruct (decide (x = n)) as [->|N2]; [by rewrite lookup_insert_eq, Hn|by rewrite !lookup_insert_ne]. }
  assert (free_of B b = None) as HFb by (unfold free_of; by rewrite Hb, Hf).
  assert (pending c m2 B1 b n) as P.
  { split; [done|..].
    - eexists. unfold B1, flip. fold n. rewrite lookup_insert_ne, lookup_insert_eq by lia. split; [done|]. split; [done|].
      split; [done|]. apply (hdr_at_same m1); [apply ld_st_ne; lia|done].
    - eexists _, false. unfold B1, flip. fold n. rewrite lookup_insert_eq. split; [done|]. split; [done|]. cbn.
      destruct (says_clear C St n kn Hn (Hcl n ltac:(lia)) (A n kn Hn)) as [Hhn Hfn]. by rewrite <- Hpn.
    - intros y ky Hy N1 N2. unfold B1, flip in Hy. look Hy; [done|done|]. apply (says_clear C St y ky Hy); auto.
    - intros y ky Hy Hfy N1 N2. unfold B1, flip in Hy. look Hy; [done|done|]. by apply (M y ky).
    - exists L. apply (lists_ext _ _ (free_of B)).
      { intros x. rewrite HF. unfold without. by destruct (decide (x = b)) as [->|]. }
      apply (lists_frame _ m); [|done]. intros x s (kx & Hx & Hfx & _)%free_of_Some.
      apply (links_clear C St x kx Hx Hfx), Hcl. intros ->. congruence. }
  destruct (coalesce_prev_ok c m2 B1 b n P) as (b2 & c2 & m3 & B2 & k2 & E2 & P2 & Hk2 & Hp2 & T2). rewrite E2.
  destruct (coalesce_next_ok c2 m3 B2 b2 n k2 P2 Hk2 Hp2) as (c3 & m4 & B3 & n3 & k3 & kn3 & E3 & P3 & Hk3 & Hp3 & Hn3 & Hf3 & T3).
  rewrite E3. destruct (pending_finish c3 m4 B3 b2 n3 k3 kn3 P3 Hk3 Hp3 Hn3 Hf3) as (c' & m' & E4 & H4 & K4).
  rewrite E4. exists c', m', B3. split; [done|]. split; [done|].
  destruct (stage_trans _ _ _ _ _ _ T2 T3) as (K3 & O3 & U3 & G3). split; [|split].
  - intros a Ha Hab. assert (~ owned B1 a) as Ha1.
    { intros [[k0 Hk0]|(x & k0 & Hx & Hfx & Hax)]; apply Ha.
      - unfold B1, flip in Hk0. look Hk0; left; by eexists.
      - unfold B1, flip in Hx. look Hx.
        + right. exists (after b k), kn. split; [done|]. split; [done|]. done.
        + exfalso. apply Hab. unfold after in Hax. cbn in Hax. lia.
        + right. by exists x, k0. }
    rewrite K4, K3 by auto. apply St. intros Hin. destruct (decide (a = b)) as [->|]; [apply Hab; lia|].
    apply elem_of_cons in Hin as [|[->|[]%elem_of_nil]%elem_of_cons]; [done|]. apply Hab. lia.
  - intros x t. rewrite U3. unfold used, B1, flip. fold n. destruct (decide (x = b)) as [->|N1].
    + rewrite lookup_insert_ne, lookup_insert_eq by lia. split; [intros (k0 & [= <-] & ? & _)|intros [_ ?]]; done.
    + destruct (decide (x = n)) as [->|N2].
      * rewrite lookup_insert_eq, Hn. split.
        -- intros (k0 & [= <-] & H1 & H2 & H3). split; [by exists kn|done].
        -- intros ((k0 & [= <-] & H1 & H2 & H3) & _). eexists. split; [done|]. done.
      * rewrite !lookup_insert_ne by done. naive_solver.
  - intros a. rewrite G3. apply span_flip; [done|done|fold n; lia].
Qed.

(** * Pools *)

(** The block and the sentinel of a new pool. *)
Definition new_pool mem size B : blocks :=
  <[mem + size - 16 := mkBlk 0 false true true mem]> (<[mem := mkBlk (size - 24) true false false mem]> B).

Definition pool_fresh B mem size : Prop :=
  forall x k, B !! x = Some k -> after x k <= mem \/ mem + size <= x.

Section pool.
Context {B : blocks} (C : chain B) {mem size : Z}.
Context (Hmem : 0 < mem) (Hal : mem mod 8 = 0) (Hsz8 : size mod 8 = 0) (Hsz : 56 <= size <= POOL_MAX).
Context (Hfr : pool_fresh B mem size).

Lemma pool_absent x : mem <= x < mem + size -> B !! x = None.
Proof.
  intros Hx. destruct (B !! x) as [k|] eqn:E; [|done]. exfalso. pose proof (size_nonneg C x k E).
  destruct (Hfr x k E) as [Ha|Ha]; unfold after in *; lia.
Qed.

Lemma chain_pool : chain (new_pool mem size B).
Proof.
  set (s := mem + size - 16). unfold new_pool. fold s.
  assert (after mem (mkBlk (size - 24) true false false mem) = s) as Ea by (unfold after, s; cbn; lia).
  assert (mem <> s /\ s mod 8 = 0 /\ (size - 24) mod 8 = 0) as (Hne & Hs8 & Hz8).
  { split; [unfold s; lia|]. unfold s. rewrite (Z.div_mod mem 8), (Z.div_mod size 8), Hal, Hsz8 by lia.
    replace (8 * (mem / 8) + 0 + (8 * (size / 8) + 0) - 16) with ((mem / 8 + size / 8 - 2) * 8) by lia.
    replace (8 * (size / 8) + 0 - 24) with ((size / 8 - 3) * 8) by lia. split; by apply Z.mod_mul. }
  split.
  - intros x k Hx. look Hx; cbn; [split; [unfold s; lia|done]|split; [lia|done]|by apply (ch_pos _ C x k)].
  - intros x k Hx. look Hx; cbn; [done|intros _; split; [lia|split; [done|lia]]|by apply (ch_size _ C x k)].
  - intros x k Hx. look Hx; cbn; [done|done|by apply (ch_end _ C x k)].
  - intros x k Hx. look Hx; cbn; [done| |].
    + intros _. rewrite Ea, lookup_insert_eq. by eexists.
    + intros He. destruct (ch_next _ C x k Hx He) as (k' & Hk' & H1 & H2). exists k'.
      assert (forall y, mem <= y < mem + size -> after x k <> y) as Hn
        by (intros y Hy E; rewrite E, pool_absent in Hk' by done; done).
      rewrite !lookup_insert_ne; [done|apply not_eq_sym, Hn; lia|apply not_eq_sym, Hn; unfold s; lia].
  - intros x k Hx. look Hx; cbn; [|done|].
    + intros _. eexists mem, _. rewrite lookup_insert_ne, lookup_insert_eq by done. done.
    + intros Hp. destruct (ch_prev _ C x k Hx Hp) as (y & ky & Hy & H1 & H2). exists y, ky.
      assert (forall z, mem <= z < mem + size -> z <> y) as Hn
        by (intros z Hz ->; rewrite pool_absent in Hy by done; done).
      rewrite !lookup_insert_ne; [done|apply Hn; lia|apply Hn; unfold s; lia].
  - intros x y k k' Hx Hy Hlt. look Hx; look Hy.
    + lia.
    + unfold s in *. lia.
    + unfold after, s in *. cbn. destruct (Hfr y k' Hy) as [Ha|Ha]; [|lia].
      pose proof (size_nonneg C y k' Hy). unfold after in Ha. lia.
    + rewrite Ea. lia.
    + lia.
    + rewrite Ea. unfold s. destruct (Hfr y k' Hy) as [Ha|Ha]; [|lia].
      pose proof (size_nonneg C y k' Hy). unfold after in Ha. lia.
    + destruct (Hfr x k Hx) as [Ha|Ha]; unfold s in *; lia.
    + destruct (Hfr x k Hx) as [Ha|Ha]; lia.
    + by apply (ch_apart _ C x y k k').
Qed.
End pool.

Lemma pool_add_ok c m B mem size :
  heap_ok c m B -> 0 < mem -> mem mod 8 = 0 -> size mod 8 = 0 -> 56 <= size <= POOL_MAX -> pool_fresh B mem size ->
  exists c' m', pool_add mem size c m = Some (c', m') /\ heap_ok c' m' (new_pool mem size B)
    /\ (forall a, ~ owned B a -> ~ mem <= a < mem + size -> ld m' a = ld m a).
Proof.
  intros [C M A [L HL]] Hm Hal H8 Hsz Hfr. pose proof (chain_pool C Hm Hal H8 Hsz Hfr) as C'.
  pose proof (pool_absent C (mem:=mem) (size:=size) Hfr) as Habs.
  unfold pool_add, HDR_SIZE, BLOCK_MIN, FOOTER_SIZE. rewrite (proj2 (Z.ltb_ge _ _)) by lia.
  set (s := size - 24). assert (0 <= s < POOL_MAX /\ 32 <= s /\ s mod 8 = 0) as (Hs1 & Hs2 & Hs8).
  { unfold s, POOL_MAX in *. split; [lia|]. split; [lia|]. rewrite (Z.div_mod size 8), H8 by lia.
    replace (8 * (size / 8) + 0 - 24) with ((size / 8 - 3) * 8) by lia. by apply Z.mod_mul. }
  pose proof (size_word_8 s Hs8 ltac:(lia)) as Hw.
  replace (size - 8 - 8 - 8) with s by (unfold s; lia). rewrite u32_id by (unfold is_u32, POOL_MAX in *; lia).
  assert (Z.land s SZ_MASK = s) as ->.
  { pose proof (hdr_size s false false Hw) as E. unfold hdr in E. cbn in E. by rewrite !Z.add_0_r in E. }
  set (m1 := st32 mem 0 m). assert (hdr_at m1 mem 0 false false) as H1 by (split; [by split|]; by apply ld32_st32).
  pose proof (at_set_size H1 s Hw) as H2. set (m2 := block_set_size mem s m1) in *.
  pose proof (at_set_free H2 true) as H3. set (m3 := block_set_free mem true m2) in *.
  pose proof (at_set_prev H3 false) as H4. set (m4 := block_set_prev_free mem false m3) in *.
  rewrite (footer_store _ _ _ _ _ H4). set (m5 := st (mem + s) mem m4).
  assert (hdr_at m5 mem s true false) as H5 by (apply (hdr_at_same m4); [apply ld_st_ne; lia|done]).
  rewrite (phys_next_at _ _ _ _ _ H5). set (t := mem + 8 + s). assert (t = mem + size - 16) as Et by (unfold t, s; lia).
  set (m6 := st32 t 0 m5). assert (hdr_at m6 t 0 false false) as H6 by (split; [by split|]; by apply ld32_st32).
  pose proof (at_set_prev H6 true) as H7. set (m7 := block_set_prev_free t true m6) in *.
  assert (stores [mem; mem; mem; mem; mem + s; t; t] m m7) as St.
  { apply (stores_trans [mem] [mem; mem; mem; mem + s; t; t] m m1); [apply stores_st|].
    apply (stores_trans [mem] [mem; mem; mem + s; t; t] m1 m2); [apply stores_st|].
    apply (stores_trans [mem] [mem; mem + s; t; t] m2 m3); [apply stores_st|].
    apply (stores_trans [mem] [mem + s; t; t] m3 m4); [apply stores_st|].
    apply (stores_trans [mem + s] [t; t] m4 m5); [apply stores_st|].
    apply (stores_trans [t] [t] m5 m6); apply stores_st. }
  set (B' := new_pool mem size B) in *.
  assert (B' !! t = Some (mkBlk 0 false true true mem)) as Ht by (rewrite Et; apply lookup_insert_eq).
  assert (B' !! mem = Some (mkBlk s true false false mem)) as Hb
    by (unfold B', new_pool; rewrite lookup_insert_ne, lookup_insert_eq by lia; done).
  assert (forall x k, B !! x = Some k -> B' !! x = Some k /\ x <> mem /\ x <> t) as Hold.
  { intros x k Hx. assert (x <> mem /\ x <> t) as [N1 N2]
      by (split; intros ->; rewrite Habs in Hx by lia; done).
    split; [|done]. unfold B', new_pool. rewrite <- Et. by rewrite !lookup_insert_ne by done. }
  assert (forall x, x <> mem -> x <> t -> clear_of (B:=B') (l:=[mem; mem; mem; mem; mem + s; t; t]) x) as Hcl.
  { intros x N1 N2 a Ha. assert (a = t \/ mem <= a < t) as [->|Ha'].
    { repeat (apply elem_of_cons in Ha as [->|Ha]; [unfold t; lia|]). by apply elem_of_nil in Ha. }
    - eexists t, _. split; [exact Ht|]. split; [done|]. unfold after. cbn. lia.
    - eexists mem, _. split; [exact Hb|]. split; [done|]. unfold after. cbn. fold t. lia. }
  assert (forall y, without mem (free_of B') y = free_of B y) as HF.
  { intros y. unfold without, free_of. destruct (decide (y = mem)) as [->|N1]; [by rewrite Habs by lia|].
    unfold B', new_pool. rewrite <- Et. destruct (decide (y = t)) as [->|N2].
    - rewrite lookup_insert_eq, Habs by lia. done.
    - by rewrite !lookup_insert_ne by done. }
  destruct (finish c m7 B' mem (mkBlk s true false false mem) L C') as (c' & m' & E & H' & K').
  - intros x k Hx Hf. unfold B', new_pool in Hx. look Hx; [done|done|by apply (M x k)].
  - intros x k Hx. destruct (decide (x = t)) as [->|N1]; [rewrite Ht in Hx; injection Hx as <-; by split|].
    destruct (decide (x = mem)) as [->|N2].
    + rewrite Hb in Hx. injection Hx as <-. split; cbn.
      * apply (hdr_at_same m5); [|done]. unfold m7, m6, block_set_prev_free. rewrite !ld_st32_ne by done. done.
      * intros _. unfold m7, m6, block_set_prev_free. rewrite !ld_st32_ne by (unfold t; lia). apply ld_st_eq.
    + assert (B !! x = Some k) as Hx0.
      { unfold B', new_pool in Hx. rewrite <- Et in Hx. by rewrite !lookup_insert_ne in Hx by done. }
      apply (says_clear C' St x k Hx); [by apply Hcl|by apply A].
  - exact Hb.
  - done.
  - apply (lists_ext _ _ (free_of B)); [intros y; by rewrite HF|]. apply (lists_frame _ m); [|done].
    intros x u (kx & Hx & Hf & _)%free_of_Some. destruct (Hold x kx Hx) as (Hx' & N1 & N2).
    apply (links_clear C' St x kx Hx' Hf). by apply Hcl.
  - exists c', m'. split; [done|]. split; [done|]. intros a Ha Hr. rewrite K'.
    + apply St. intros Hin. apply Hr.
      repeat (apply elem_of_cons in Hin as [->|Hin]; [unfold t, s in *; lia|]). by apply elem_of_nil in Hin.
    + intros [[k Hk]|(x & k & Hx & Hf & Hax)].
      * unfold B', new_pool in Hk. look Hk; [apply Hr; lia|apply Hr; lia|apply Ha; left; by eexists].
      * unfold B', new_pool in Hx. look Hx; [done|apply Hr; unfold after in Hax; cbn in Hax; lia|].
        apply Ha. right. by exists x, k.
Qed.

Lemma used_pool mem size B x t : pool_fresh B mem size -> chain B -> 56 <= size ->
  used (new_pool mem size B) x t <-> used B x t.
Proof.
  intros Hfr C Hsz. pose proof (pool_absent C Hfr) as Habs. unfold used, new_pool. split.
  - intros (k & Hk & H1 & H2 & H3). look Hk; [done|done|]. by exists k.
  - intros (k & Hk & H1 & H2 & H3). exists k. split; [|done].
    assert (forall y, mem <= y < mem + size -> y <> x) as Hn by (intros y Hy ->; rewrite Habs in Hk by done; done).
    rewrite !lookup_insert_ne; [done|apply Hn; lia|apply Hn; lia].
Qed.

Lemma span_pool mem size B a : pool_fresh B mem size -> chain B -> 56 <= size ->
  span (new_pool mem size B) a <-> span B a \/ mem <= a < mem + size - 8.
Proof.
  intros Hfr C Hsz. pose proof (pool_absent C Hfr) as Habs. unfold span, new_pool. split.
  - intros (x & k & Hx & Ha). look Hx; [right|right|left; by exists x, k]; unfold after in Ha; cbn in Ha; lia.
  - intros [(x & k & Hx & Ha)|Ha].
    + assert (forall y, mem <= y < mem + size -> y <> x) as Hn by (intros y Hy ->; rewrite Habs in Hx by done; done).
      exists x, k. rewrite !lookup_insert_ne; [done|apply Hn; lia|apply Hn; lia].
    + destruct (Z.lt_ge_cases a (mem + size - 16)).
      * eexists mem, _. rewrite lookup_insert_ne, lookup_insert_eq by lia. split; [done|]. unfold after. cbn. lia.
      * eexists (mem + size - 16), _. rewrite lookup_insert_eq. split; [done|]. unfold after. cbn. lia.
Qed.

(** A region that the blocks do not cover can become a pool. *)
Lemma fresh_of_span B mem size : chain B -> 0 < size -> (forall a, mem <= a < mem + size -> ~ span B a) -> pool_fresh B mem size.
Proof.
  intros C Hsz Hs x k Hx. pose proof (size_nonneg C x k Hx).
  destruct (Z.le_gt_cases (after x k) mem); [by left|]. destruct (Z.le_gt_cases (mem + size) x); [by right|].
  exfalso. apply (Hs (Z.max x mem)); [lia|]. exists x, k. split; [done|]. unfold after in *. lia.
Qed.

Lemma heap_ok_empty m : heap_ok control_zero m ∅.
Proof.
  split.
  - split; intros *; rewrite ?lookup_empty; done.
  - intros x k. by rewrite lookup_empty.
  - intros x k. by rewrite lookup_empty.
  - exists (fun _ => []). assert (forall x, free_of ∅ x = None) as HF by (intros x; unfold free_of; by rewrite lookup_empty).
    split.
    + split; cbn [free_lists sl_bitmap fl_bitmap control_zero]; try done.
      * intros fl sl Hf Hs. rewrite !aget_repeat, Z.bits_0 by lia. done.
      * intros fl Hf. rewrite aget_repeat by lia. lia.
      * intros fl Hf. rewrite aget_repeat, Z.bits_0 by lia. done.
    + intros x y s t. by rewrite HF.
    + intros x s. by rewrite HF.
    + intros k Hk. cbn [free_lists control_zero]. by rewrite aget_repeat by lia.
    + intros k _. constructor.
    + intros k x _. split; [by intros ?%elem_of_nil|]. intros (s & Hs & _). by rewrite HF in Hs.
Qed.

(** The heap of [tlsf_create]. *)
Lemma tlsf_create_ok m mem size :
  0 < mem -> mem mod 8 = 0 -> size mod 8 = 0 -> CONTROL_SIZE + 64 <= size <= CONTROL_SIZE + POOL_MAX ->
  exists c m', tlsf_create mem size m = Some (Some c, m')
    /\ heap_ok c m' (new_pool (mem + CONTROL_SIZE) (size - CONTROL_SIZE) ∅).
Proof.
  unfold CONTROL_SIZE. intros Hm Hal H8 Hsz. unfold tlsf_create, CONTROL_SIZE, NULL.
  rewrite (proj2 (Z.eqb_neq mem 0)), (proj2 (Z.ltb_ge _ _)) by lia. cbn [orb].
  destruct (pool_add_ok control_zero m ∅ (mem + 3328) (size - 3328) (heap_ok_empty m)) as (c & m' & E & H & _).
  - lia.
  - rewrite (Z.div_mod mem 8), Hal by lia. replace (8 * (mem / 8) + 0 + 3328) with ((mem / 8 + 416) * 8) by lia.
    by apply Z.mod_mul.
  - rewrite (Z.div_mod size 8), H8 by lia. replace (8 * (size / 8) + 0 - 3328) with ((size / 8 - 416) * 8) by lia.
    by apply Z.mod_mul.
  - lia.
  - intros x k. by rewrite lookup_empty.
  - rewrite E. by exists c, m'.
Qed.
