(* ===== verification/TlsfProps.v ===== *)
(** What the TLSF heap guarantees to its users: disjoint blocks whose contents are kept, over every
    sequence of calls; and the two places where [src/mm/tlsf.c] breaks that promise. *)

From S2P Require Import Prelude Tlsf TlsfInv TlsfLists TlsfHeap.

(** * Runs

    The users of the heap allocate, free, and store words into their blocks; now and then the heap
    gets another pool.  A user's block is remembered with the words stored into it. *)

Record lblock := mkLblock { lb_ptr : Z; lb_size : Z; lb_vals : gmap Z Z }.

Record tstate := mkTstate {
  t_ctl : control;
  t_mem : words;
  t_live : list lblock;
  t_pools : list (Z * Z);      (* start, size *)
}.

Inductive hop : Type :=
  | HMalloc (size : Z)
  | HFree (i : nat)
  | HStore (i : nat) (off v : Z)      (* word [off] of block [i] *)
  | HPool (mem size : Z).

Definition run_hop (op : hop) (s : tstate) : option tstate :=
  let '(mkTstate c m live pools) := s in
  match op with
  | HMalloc size =>
      match tlsf_malloc size c m with
      | None => None
      | Some (p, c, m) => Some (mkTstate c m (if p =? NULL then live else mkLblock p size ∅ :: live) pools)
      end
  | HFree i =>
      match live !! i with
      | None => Some s
      | Some b => match tlsf_free (lb_ptr b) c m with
                  | None => None
                  | Some (c, m) => Some (mkTstate c m (delete i live) pools)
                  end
      end
  | HStore i off v =>
      match live !! i with
      | None => Some s
      | Some b => Some (mkTstate c (st (lb_ptr b + 8 * off) v m)
                    (<[i := mkLblock (lb_ptr b) (lb_size b) (<[off := v]> (lb_vals b))]> live) pools)
      end
  | HPool mem size =>
      match tlsf_add_pool mem size c m with
      | None => None
      | Some (c, m) => Some (mkTstate c m live ((mem, size) :: pools))
      end
  end.

(** What the users may do: a request of at most 31 MiB that does not find a block of exactly its
    size (see [tlsf_exact_fit] below), frees and stores within live blocks, and pools of fresh
    memory of at most 32 MiB. *)
Definition hop_allowed (op : hop) (s : tstate) : bool :=
  match op with
  | HMalloc size => (0 <? size) && (size <=? REQ_MAX) && negb (exact_fit size (t_ctl s) (t_mem s))
  | HFree i => (i <? length (t_live s))%nat
  | HStore i off _ => match t_live s !! i with
                      | Some b => (0 <=? off) && (8 * off + 8 <=? lb_size b)
                      | None => false
                      end
  | HPool mem size =>
      (0 <? mem) && (mem mod 8 =? 0) && (size mod 8 =? 0) && (56 <=? size) && (size <=? POOL_MAX)
      && forallb (fun '(a, n) => (mem + size <=? a) || (a + n <=? mem)) (t_pools s)
  end.

Inductive treach : tstate -> Prop :=
  | treach_create mem size m c m' :
      0 < mem -> mem mod 8 = 0 -> size mod 8 = 0 -> CONTROL_SIZE + 64 <= size <= CONTROL_SIZE + POOL_MAX ->
      tlsf_create mem size m = Some (Some c, m') ->
      treach (mkTstate c m' [] [(mem + CONTROL_SIZE, size - CONTROL_SIZE)])
  | treach_step s op s' : treach s -> hop_allowed op s = true -> run_hop op s = Some s' -> treach s'.

(** * The invariant of a run *)

Definition in_pools (pools : list (Z * Z)) (a : Z) : Prop := exists p, p ∈ pools /\ p.1 <= a < p.1 + p.2.

Record live_ok (B : blocks) (m : words) (b : lblock) : Prop := {
  lo_used : exists s, used B (lb_ptr b - 8) s /\ lb_size b <= s;
  lo_size : 0 < lb_size b;
  lo_vals off v : lb_vals b !! off = Some v -> 0 <= off /\ 8 * off + 8 <= lb_size b /\ ld m (lb_ptr b + 8 * off) = v;
}.

Record tinv (s : tstate) (B : blocks) : Prop := {
  ti_heap : heap_ok (t_ctl s) (t_mem s) B;
  ti_live i b : t_live s !! i = Some b -> live_ok B (t_mem s) b;
  ti_apart i j b b' : t_live s !! i = Some b -> t_live s !! j = Some b' -> lb_ptr b = lb_ptr b' -> i = j;
  ti_pools a : span B a -> in_pools (t_pools s) a;
}.

(** The words of a user's block are the user's. *)
Lemma used_not_owned B x s a : chain B -> used B x s -> x + 8 <= a < x + 8 + s -> ~ owned B a.
Proof.
  intros C (k & Hx & Hf & He & <-) Ha [[k' Hk']|(y & ky & Hy & Hfy & Hay)].
  - rewrite (inside_absent x k a B C Hx) in Hk'; [done|]. unfold after. lia.
  - apply (not_inside C x y k ky a Hx Hy); [|unfold after; lia|done]. intros ->. congruence.
Qed.

Lemma used_size B x s t : used B x s -> used B x t -> s = t.
Proof. intros (k & Hx & _ & _ & <-) (k' & Hx' & _ & _ & <-). congruence. Qed.

(** Blocks of two users do not overlap. *)
Lemma used_disjoint B x y s t : chain B -> used B x s -> used B y t -> x <> y -> x + 8 + s <= y \/ y + 8 + t <= x.
Proof.
  intros C (k & Hx & _ & _ & <-) (k' & Hy & _ & _ & <-) Hne. by apply (blocks_apart C x y k k').
Qed.

(** A live block survives an operation that keeps its header in use and its words. *)
Lemma live_ok_keep B B' m m' b : live_ok B m b ->
  (forall s, used B (lb_ptr b - 8) s -> used B' (lb_ptr b - 8) s /\
     forall a, lb_ptr b <= a < lb_ptr b + s -> ld m' a = ld m a) ->
  live_ok B' m' b.
Proof.
  intros [(s & Hu & Hs) Hp Hv] Hk. destruct (Hk s Hu) as [Hu' Hm]. split; [by exists s|done|].
  intros off v Hov. destruct (Hv off v Hov) as (H1 & H2 & H3). split; [done|]. split; [done|]. rewrite Hm; [done|lia].
Qed.

Lemma tinv_malloc c m live pools B size :
  tinv (mkTstate c m live pools) B -> hop_allowed (HMalloc size) (mkTstate c m live pools) = true ->
  exists s' B', run_hop (HMalloc size) (mkTstate c m live pools) = Some s' /\ tinv s' B'.
Proof.
  intros [Hh Hl Ha Hp] Hal. cbn [t_ctl t_mem t_live t_pools hop_allowed] in *.
  apply andb_true_iff in Hal as [[H1%Z.ltb_lt H2%Z.leb_le]%andb_true_iff H3%negb_true_iff].
  destruct (tlsf_malloc_ok c m B size Hh ltac:(lia) H3) as (p & c' & m' & B' & E & Hh' & K & Hc).
  cbn [run_hop]. rewrite E. pose proof (hp_chain _ _ _ Hh) as C.
  destruct Hc as [(-> & -> & -> & -> & _)|(x & s & -> & Hx & Hs & Hu & (k & Hk & Hf & _) & Hsame & Hspan)].
  - eexists _, B. split; [done|]. by split.
  - rewrite (proj2 (Z.eqb_neq _ NULL)) by (unfold block_to_ptr, HDR_SIZE, NULL; lia).
    assert (block_to_ptr x - 8 = x) as Ex by (unfold block_to_ptr, HDR_SIZE; lia).
    assert (forall i b, live !! i = Some b -> lb_ptr b - 8 <> x) as Hne.
    { intros i b Hb E0. destruct (lo_used _ _ _ (Hl i b Hb)) as (t & (k' & Hk' & Hf' & _) & _). rewrite E0 in Hk'. congruence. }
    eexists _, B'. split; [done|]. split; cbn [t_ctl t_mem t_live t_pools]; [done|..].
    + intros [|i] b; cbn; [intros [= <-]|intros Hb].
      * split; cbn; [rewrite Ex; by exists s|lia|]. intros off v. by rewrite lookup_empty.
      * apply (live_ok_keep B B' m m' b (Hl i b Hb)). intros t Ht. split; [apply Hsame; [by apply (Hne i)|done]|].
        intros a Hab. apply K. apply (used_not_owned B (lb_ptr b - 8) t a C Ht). lia.
    + intros [|i] [|j] b b'; cbn; [done|intros [= <-] Hb E0|intros Hb [= <-] E0|intros Hb Hb' E0; f_equal; by apply (Ha i j b b')].
      * exfalso. apply (Hne j b' Hb). cbn in E0. lia.
      * exfalso. apply (Hne i b Hb). cbn in E0. lia.
    + intros a. rewrite Hspan. apply Hp.
Qed.

Lemma lookup_delete_list {A} (l : list A) i j x :
  delete i l !! j = Some x -> exists j', l !! j' = Some x /\ j' <> i /\ j' = (if decide (j < i)%nat then j else S j).
Proof.
  intros H. destruct (decide (j < i)%nat) as [Hlt|Hge].
  - rewrite list_lookup_delete_lt in H by done. exists j. split; [done|]. split; [lia|done].
  - rewrite list_lookup_delete_ge in H by lia. exists (S j). split; [done|]. split; [lia|done].
Qed.

Lemma tinv_free c m live pools B i :
  tinv (mkTstate c m live pools) B -> hop_allowed (HFree i) (mkTstate c m live pools) = true ->
  exists s' B', run_hop (HFree i) (mkTstate c m live pools) = Some s' /\ tinv s' B'.
Proof.
  intros [Hh Hl Ha Hp] Hal. cbn [t_ctl t_mem t_live t_pools hop_allowed] in *. apply Nat.ltb_lt in Hal.
  destruct (lookup_lt_is_Some_2 live i Hal) as [b Hb]. pose proof (hp_chain _ _ _ Hh) as C.
  destruct (Hl i b Hb) as [(s & Hu & Hs) Hsz _].
  destruct (tlsf_free_ok c m B (lb_ptr b - 8) s Hh Hu) as (c' & m' & B' & E & Hh' & K & Hsame & Hspan).
  assert (block_to_ptr (lb_ptr b - 8) = lb_ptr b) as Eb by (unfold block_to_ptr, HDR_SIZE; lia). rewrite Eb in E.
  cbn [run_hop]. rewrite Hb, E. eexists _, B'. split; [done|]. split; cbn [t_ctl t_mem t_live t_pools]; [done|..].
  - intros j b' Hj. apply lookup_delete_list in Hj as (j' & Hj & Hne & _).
    assert (lb_ptr b' - 8 <> lb_ptr b - 8) as Hn by (intros E0; apply Hne, (Ha j' i b' b Hj Hb); lia).
    apply (live_ok_keep B B' m m' b' (Hl j' b' Hj)). intros t Ht. split; [by apply Hsame|].
    intros a Hab. apply K.
    + apply (used_not_owned B (lb_ptr b' - 8) t a C Ht). lia.
    + destruct (used_disjoint B _ _ _ _ C Ht Hu Hn); lia.
  - intros j1 j2 b1 b2 H1 H2 E0. apply lookup_delete_list in H1 as (k1 & H1 & _ & E1).
    apply lookup_delete_list in H2 as (k2 & H2 & _ & E2). pose proof (Ha k1 k2 b1 b2 H1 H2 E0) as Ek.
    rewrite E1, E2 in Ek. destruct (decide (j1 < i)%nat), (decide (j2 < i)%nat); lia.
  - intros a. rewrite Hspan. apply Hp.
Qed.

(** Stores outside headers and free blocks do not disturb the heap. *)
Lemma heap_ok_user c m m' B : heap_ok c m B -> (forall a, owned B a -> ld m' a = ld m a) -> heap_ok c m' B.
Proof.
  intros [C M A [L HL]] Ho. split; [done|done|..].
  - intros x k Hx. destruct (A x k Hx) as [Hh Hf]. split.
    + apply (hdr_at_same m); [|done]. apply Ho. left. by exists k.
    + intros Hfk. rewrite Ho; [by apply Hf|]. right. exists x, k. pose proof (size_nonneg C x k Hx).
      split; [done|]. split; [done|]. unfold after. lia.
  - exists L. apply (lists_frame _ m); [|done]. intros x s (k & Hx & Hf & _)%free_of_Some.
    destruct (free_size C x k Hx Hf). unfold same_links, prev_free, next_free.
    split; apply Ho; right; exists x, k; unfold after; split_and!; done || lia.
Qed.

Lemma tinv_store c m live pools B i off v :
  tinv (mkTstate c m live pools) B -> hop_allowed (HStore i off v) (mkTstate c m live pools) = true ->
  exists s' B', run_hop (HStore i off v) (mkTstate c m live pools) = Some s' /\ tinv s' B'.
Proof.
  intros [Hh Hl Ha Hp] Hal. cbn [t_ctl t_mem t_live t_pools hop_allowed] in *.
  destruct (live !! i) as [b|] eqn:Hb; [|done]. apply andb_true_iff in Hal as [H1%Z.leb_le H2%Z.leb_le].
  pose proof (hp_chain _ _ _ Hh) as C. destruct (Hl i b Hb) as [(s & Hu & Hs) Hsz Hv].
  cbn [run_hop]. rewrite Hb. set (m' := st (lb_ptr b + 8 * off) v m). set (b1 := mkLblock _ _ _).
  assert (~ owned B (lb_ptr b + 8 * off)) as Hno by (apply (used_not_owned B (lb_ptr b - 8) s _ C Hu); lia).
  eexists _, B. split; [done|]. split; cbn [t_ctl t_mem t_live t_pools]; [|..|done].
  - apply (heap_ok_user _ m); [done|]. intros a Hoa. apply ld_st_ne. by intros <-.
  - intros j b' Hj. destruct (decide (j = i)) as [->|Hne].
    + rewrite list_lookup_insert_eq in Hj by (by eapply lookup_lt_Some). injection Hj as <-.
      split; cbn; [by exists s|done|]. intros o w Hw. apply lookup_insert_Some in Hw as [[<- <-]|[Ho Hw]].
      * split; [done|]. split; [done|]. apply ld_st_eq.
      * destruct (Hv o w Hw) as (G1 & G2 & G3). split; [done|]. split; [done|]. unfold m'. rewrite ld_st_ne; [done|lia].
    + rewrite list_lookup_insert_ne in Hj by done. apply (live_ok_keep B B m m' b' (Hl j b' Hj)).
      intros t Ht. split; [done|]. intros a Hab. apply ld_st_ne.
      assert (lb_ptr b - 8 <> lb_ptr b' - 8) as Hn by (intros E0; apply Hne; symmetry; apply (Ha i j b b' Hb Hj); lia).
      destruct (used_disjoint B _ _ _ _ C Hu Ht Hn); lia.
  - assert (forall j b', <[i:=b1]> live !! j = Some b' -> exists b0, live !! j = Some b0 /\ lb_ptr b0 = lb_ptr b') as Hsame.
    { intros j b' Hj. destruct (decide (j = i)) as [->|Hne].
      - rewrite list_lookup_insert_eq in Hj by (by eapply lookup_lt_Some). injection Hj as <-. by exists b.
      - rewrite list_lookup_insert_ne in Hj by done. by exists b'. }
    intros j1 j2 b2 b3 H3 H4 E0. destruct (Hsame _ _ H3) as (b2' & G1 & G2). destruct (Hsame _ _ H4) as (b3' & G3 & G4).
    apply (Ha j1 j2 b2' b3' G1 G3). congruence.
Qed.

Lemma tinv_pool c m live pools B mem size :
  tinv (mkTstate c m live pools) B -> hop_allowed (HPool mem size) (mkTstate c m live pools) = true ->
  exists s', run_hop (HPool mem size) (mkTstate c m live pools) = Some s' /\ tinv s' (new_pool mem size B).
Proof.
  intros [Hh Hl Ha Hp] Hal. cbn [t_ctl t_mem t_live t_pools hop_allowed] in *. pose proof (hp_chain _ _ _ Hh) as C.
  rewrite !andb_true_iff in Hal. destruct Hal as [[[[[H1%Z.ltb_lt H2%Z.eqb_eq] H3%Z.eqb_eq] H4%Z.leb_le] H5%Z.leb_le] H6].
  assert (forall a, mem <= a < mem + size -> ~ span B a) as Hns.
  { intros a Hr Hsp. destruct (Hp a Hsp) as ([p n] & Hin & Hpa). cbn in Hpa.
    rewrite forallb_forall in H6. apply list_elem_of_In in Hin. specialize (H6 _ Hin). cbn in H6.
    apply orb_true_iff in H6 as [H6%Z.leb_le|H6%Z.leb_le]; lia. }
  pose proof (fresh_of_span B mem size C ltac:(lia) Hns) as Hfr.
  destruct (pool_add_ok c m B mem size Hh H1 H2 H3 ltac:(lia) Hfr) as (c' & m' & E & Hh' & K).
  cbn [run_hop]. unfold tlsf_add_pool. rewrite (proj2 (Z.eqb_neq mem NULL)) by (unfold NULL; lia). rewrite E.
  eexists. split; [done|]. split; cbn [t_ctl t_mem t_live t_pools]; [done|..|done|].
  - intros i b Hb. apply (live_ok_keep B _ m m' b (Hl i b Hb)). intros t Ht.
    split; [apply used_pool; [done|done|lia|done]|]. intros a Hab. apply K.
    + apply (used_not_owned B (lb_ptr b - 8) t a C Ht). lia.
    + intros Hr. apply (Hns a Hr). destruct Ht as (k & Hk & _ & _ & <-). exists (lb_ptr b - 8), k. unfold after. split; [done|lia].
  - intros a Hsp. apply span_pool in Hsp as [Hsp|Hr]; [|eexists (mem, size)|done|done|lia].
    + destruct (Hp a Hsp) as (p & Hin & Hpa). exists p. split; [by right|done].
    + cbn. split; [left|lia].
Qed.

Lemma tinv_step s B op : tinv s B -> hop_allowed op s = true -> exists s' B', run_hop op s = Some s' /\ tinv s' B'.
Proof.
  destruct s as [c m live pools]. intros I Hal.
  destruct op; [by eapply tinv_malloc|by eapply tinv_free|by eapply tinv_store|].
  destruct (tinv_pool c m live pools B mem size I Hal) as (s' & E & I'). by exists s', (new_pool mem size B).
Qed.

Lemma treach_inv s : treach s -> exists B, tinv s B.
Proof.
  induction 1 as [mem size m c m' H1 H2 H3 H4 E|s op s' _ [B I] Hal E].
  - destruct (tlsf_create_ok m mem size H1 H2 H3 H4) as (c1 & m1 & E1 & Hh). rewrite E in E1. injection E1 as <- <-.
    eexists. split; [exact Hh|..]; cbn.
    + intros i b. by rewrite lookup_nil.
    + intros i j b b'. by rewrite lookup_nil.
    + intros a Hsp. unfold CONTROL_SIZE in *. apply span_pool in Hsp as [(x & k & Hx & _)|Hr].
      * by rewrite lookup_empty in Hx.
      * eexists. split; [left|]. cbn. lia.
      * intros x k. by rewrite lookup_empty.
      * apply (hp_chain _ _ _ (heap_ok_empty m)).
      * lia.
  - destruct (tinv_step s B op I Hal) as (s1 & B1 & E1 & I1). rewrite E in E1. injection E1 as <-. by exists B1.
Qed.

(** Rounding a request up to its bucket adds less than one sixteenth of it. *)
Lemma rounded_sixteenth r : 16 <= r -> 16 * rounded r <= 17 * r - 16.
Proof.
  intros Hr. unfold rounded. pose proof (Z.log2_le_mono 16 r Hr) as Hl. change (Z.log2 16) with 4 in Hl.
  pose proof (Z.log2_spec r ltac:(lia)) as [H1 _].
  replace (Z.log2 r) with (4 + (Z.log2 r - 4)) in H1 by lia. rewrite Z.pow_add_r in H1 by lia.
  change (2 ^ 4) with 16 in H1. lia.
Qed.

(** * The guarantee *)

(** What the users rely on. *)
Record users_safe (s : tstate) : Prop := {
  us_block i b : t_live s !! i = Some b ->
    0 < lb_ptr b /\ lb_ptr b mod 8 = 0 /\ 0 < lb_size b
    /\ (forall a, lb_ptr b <= a < lb_ptr b + lb_size b -> in_pools (t_pools s) a);
  us_disjoint i j b b' : t_live s !! i = Some b -> t_live s !! j = Some b' -> i <> j ->
    lb_ptr b + lb_size b <= lb_ptr b' \/ lb_ptr b' + lb_size b' <= lb_ptr b;
  us_contents i b off v : t_live s !! i = Some b -> lb_vals b !! off = Some v ->
    ld (t_mem s) (lb_ptr b + 8 * off) = v;
}.

Lemma tinv_safe s B : tinv s B -> users_safe s.
Proof.
  intros [Hh Hl Ha Hp]. pose proof (hp_chain _ _ _ Hh) as C. split.
  - intros i b Hb. destruct (Hl i b Hb) as [(t & (k & Hk & Hf & He & <-) & Ht) Hsz _].
    destruct (ch_pos _ C _ k Hk) as [P1 P2]. split; [lia|]. split.
    + replace (lb_ptr b) with (lb_ptr b - 8 + 1 * 8) by lia. by rewrite Z.mod_add.
    + split; [done|]. intros a Hab. apply Hp. exists (lb_ptr b - 8), k. unfold after. split; [done|lia].
  - intros i j b b' Hb Hb' Hne. destruct (lo_used _ _ _ (Hl i b Hb)) as (s1 & U1 & L1).
    destruct (lo_used _ _ _ (Hl j b' Hb')) as (s2 & U2 & L2).
    destruct (used_disjoint B _ _ _ _ C U1 U2) as [Hd|Hd]; [|lia|lia].
    intros E0. apply Hne, (Ha i j b b' Hb Hb'). lia.
  - intros i b off v Hb Hv. by destruct (lo_vals _ _ _ (Hl i b Hb) off v Hv) as (_ & _ & ?).
Qed.

(** C21: the heap is safe over every run of allowed operations.  After any sequence of allocations,
    releases, stores by users and new pools, the live blocks are aligned, lie inside the pools, do
    not overlap, and hold the words last stored into them; and every allowed operation returns,
    without an access outside the bounds of the bucket tables, into such a state again.  Allowed
    ([hop_allowed]) are requests of 1 byte to 31 MiB for which the search does not end at a free block
    of exactly the adjusted size ([exact_fit]), releases of live blocks, stores inside live blocks,
    and aligned pools of 56 bytes to [POOL_MAX] that meet no other pool.  The two conditions on
    requests are needed: [tlsf_exact_fit], [tlsf_large_request]. *)
Theorem tlsf_run_safe s op :
  treach s -> hop_allowed op s = true ->
  users_safe s /\ exists s', run_hop op s = Some s' /\ treach s' /\ users_safe s'.
Proof.
  intros Hr Hal. destruct (treach_inv s Hr) as [B I]. split; [by apply (tinv_safe s B)|].
  destruct (tinv_step s B op I Hal) as (s' & B' & E & I'). exists s'. split; [done|].
  split; [by eapply treach_step|by apply (tinv_safe s' B')].
Qed.

(** C22: the search is a good fit.  On any well-formed heap an allocation request of 1 byte to 31 MiB
    for which the search does not end at a free block of exactly the adjusted size ([exact_fit];
    without it, [tlsf_exact_fit]) returns.  If it finds a block, that block was free and is at least
    as large as the request; it becomes a used block of at least the requested size, no other block
    changes its status and the heap covers the same memory.  It fails only when every free block is
    smaller than the request rounded up to its bucket, which is less than one sixteenth more than the
    adjusted request; and a failed request changes nothing. *)
Theorem tlsf_malloc_good_fit c m B size :
  heap_ok c m B -> 0 < size <= REQ_MAX -> exact_fit size c m = false ->
  exists p c' m' B', tlsf_malloc size c m = Some (p, c', m') /\ heap_ok c' m' B' /\ keeps_users B m m'
    /\ if p =? NULL
       then c' = c /\ m' = m /\ B' = B
            /\ forall x k, B !! x = Some k -> bk_free k = true ->
                 16 * bk_size k < 17 * adjust_size size
       else exists s, size <= s /\ allocated B B' (ptr_to_block p) s.
Proof.
  intros Hok Hs Hf. destruct (tlsf_malloc_ok c m B size Hok Hs Hf) as (p & c' & m' & B' & E & Hok' & K & Hc).
  exists p, c', m', B'. do 3 (split; [done|]). destruct Hc as [(-> & -> & -> & -> & Hn)|(b & s & -> & Hb & Hsz & Ha)].
  - change (NULL =? NULL) with true. cbv iota. do 3 (split; [done|]). intros x k Hx Hk. specialize (Hn x k Hx Hk).
    destruct (adjust_size_spec size Hs) as (_ & Z1 & _). pose proof (rounded_sixteenth (adjust_size size) ltac:(lia)). lia.
  - rewrite (proj2 (Z.eqb_neq (block_to_ptr b) NULL)) by (unfold block_to_ptr, HDR_SIZE, NULL; lia).
    exists s. split; [done|]. unfold ptr_to_block, block_to_ptr. by replace (b + HDR_SIZE - HDR_SIZE) with b by lia.
Qed.

(** * Where the promise is broken *)

Definition heap_run (ops : list hop) (s : option tstate) : option tstate :=
  foldl (fun s op => match s with Some s => run_hop op s | None => None end) s ops.

Definition heap_1m : option tstate :=
  match tlsf_create 0x100000 0x100000 ∅ with
  | Some (Some c, m) => Some (mkTstate c m [] [(0x100000 + CONTROL_SIZE, 0x100000 - CONTROL_SIZE)])
  | _ => None
  end.

(** Finding: a request that finds a free block of exactly its size makes the remainder in
    [split_block] wrap to 0xFFFFFFF8, and the block made of it is inserted outside [free_lists]. *)
Lemma tlsf_exact_fit :
  exists s, heap_run [HMalloc 64; HMalloc 200; HMalloc 100; HFree 2] heap_1m = Some s
    /\ exact_fit 64 (t_ctl s) (t_mem s) = true /\ run_hop (HMalloc 64) s = None.
Proof. eexists. split; [vm_compute; reflexivity|]. split; vm_compute; reflexivity. Qed.

(** Finding: a request of 32 MiB or more indexes the bucket tables out of their bounds instead of
    failing, so the heap cannot grow for it. *)
Lemma tlsf_large_request :
  exists s, heap_1m = Some s /\ run_hop (HMalloc 0x2000000) s = None.
Proof. eexists. split; vm_compute; reflexivity. Qed.

(** Finding: the size is cut to 32 bits, so a request of 4 GiB and 64 bytes gets 64 bytes. *)
Lemma tlsf_truncated_request :
  exists s, heap_1m = Some s
    /\ match tlsf_malloc 0x100000040 (t_ctl s) (t_mem s) with
       | Some (p, _, m') => p <> NULL /\ block_size m' (ptr_to_block p) = 64
       | None => False
       end.
Proof. eexists. split; [vm_compute; reflexivity|]. vm_compute. by split. Qed.

(** * Witnesses *)

Definition heap_s : tstate := default (mkTstate control_zero ∅ [] []) heap_1m.

Lemma heap_s_reach : treach heap_s.
Proof.
  assert (heap_s = mkTstate (t_ctl heap_s) (t_mem heap_s) [] [(0x100000 + CONTROL_SIZE, 0x100000 - CONTROL_SIZE)]) as ->
    by (vm_compute; reflexivity).
  apply (treach_create 0x100000 0x100000 ∅); unfold CONTROL_SIZE, POOL_MAX; [lia|done|done|lia|vm_compute; reflexivity].
Qed.

Lemma tlsf_run_safe_witness :
  users_safe heap_s /\ exists s', run_hop (HMalloc 64) heap_s = Some s' /\ treach s' /\ users_safe s'.
Proof. apply tlsf_run_safe; [apply heap_s_reach|vm_compute; reflexivity]. Defined.

Lemma tlsf_malloc_good_fit_witness :
  exists c m B p c' m' B', tlsf_malloc 64 c m = Some (p, c', m') /\ heap_ok c' m' B' /\ keeps_users B m m'
    /\ if p =? NULL
       then c' = c /\ m' = m /\ B' = B
            /\ forall x k, B !! x = Some k -> bk_free k = true -> 16 * bk_size k < 17 * adjust_size 64
       else exists s, 64 <= s /\ allocated B B' (ptr_to_block p) s.
Proof.
  destruct (treach_inv heap_s heap_s_reach) as [B [Hh _ _ _]].
  exists (t_ctl heap_s), (t_mem heap_s), B. apply tlsf_malloc_good_fit; [exact Hh|unfold REQ_MAX; lia|vm_compute; reflexivity].
Defined.
