(* ===== verification/Heap.v ===== *)
(** The kernel heap, [src/mm/heap.c]: an accounting layer with a magic word in front of every block,
    over the allocator of [Tlsf], grown with frames of [Pmm].

    Frames are reached through the direct map ([vmm_phys_to_virt]), so the heap's memory is keyed by
    virtual address.  [None] is an access outside the tables of the allocator (see [Tlsf]).  Each
    function runs between spin_lock and spin_unlock and is one step. *)

From S2P Require Import Prelude Pmm Paging Tlsf.

Definition HEAP_INIT_PAGES : Z := 256.
Definition HEAP_GROW_PAGES : Z := 32.
Definition HEAP_ALLOC_MAGIC : Z := 0x4850414C4C4F434F.
Definition ALLOC_HDR : Z := 16.       (* sizeof(heap_alloc_header_t): magic at +0, size at +8 *)

Record kheap := mkHeap {
  g_heap : option control;
  g_pool_bytes : Z;
  g_allocated_bytes : Z;
  g_peak_allocated_bytes : Z;
  g_bad_free_warned : bool;
  h_machine : machine;
  h_mem : words;
}.
#[export] Instance kheap_rebuild : Rebuild kheap := fun h =>
  mkHeap (g_heap h) (g_pool_bytes h) (g_allocated_bytes h) (g_peak_allocated_bytes h)
    (g_bad_free_warned h) (h_machine h) (h_mem h).

(** The statics before [heap_init]. *)
Definition heap_zero (m : machine) (mem : words) : kheap := mkHeap None 0 0 0 false m mem.

Definition alloc_pages (n : Z) (h : kheap) : Z * kheap :=
  let '(phys, p) := pmm_alloc_pages (m_pmm (h_machine h)) n in
  (phys, h <| h_machine := h_machine h <| m_pmm := p |> |>).

Definition heap_init (h : kheap) : option kheap :=
  let '(phys, h) := alloc_pages HEAP_INIT_PAGES h in
  if phys =? 0 then Some h else
  match tlsf_create (vmm_phys_to_virt (h_machine h) phys) (HEAP_INIT_PAGES * 4096) (h_mem h) with
  | None => None
  | Some (t, mem) =>
      let h := h <| g_heap := t |> <| h_mem := mem |> in
      let h := h <| g_pool_bytes := match t with Some _ => HEAP_INIT_PAGES * 4096 | None => 0 end |> in
      Some (h <| g_allocated_bytes := 0 |> <| g_peak_allocated_bytes := 0 |> <| g_bad_free_warned := false |>)
  end.

(** [ptr = tlsf_malloc(g_heap, req_size)] *)
Definition heap_malloc (req_size : Z) (c : control) (h : kheap) : option (Z * control * kheap) :=
  match tlsf_malloc req_size c (h_mem h) with
  | None => None
  | Some (ptr, c, mem) => Some (ptr, c, h <| g_heap := Some c |> <| h_mem := mem |>)
  end.

(** The pages a request grows the heap by. *)
Definition grow_pages (req_size : Z) : Z :=
  let pages := u64 (req_size + 4095) / 4096 in
  if pages <? HEAP_GROW_PAGES then HEAP_GROW_PAGES else pages.

(** Adding pages of the frame allocator to the heap; [false] when it has none. *)
Definition heap_extend (pages : Z) (c : control) (h : kheap) : option (bool * control * kheap) :=
  let '(phys, h) := alloc_pages pages h in
  if phys =? 0 then Some (false, c, h) else
  match tlsf_add_pool (vmm_phys_to_virt (h_machine h) phys) (u64 (pages * 4096)) c (h_mem h) with
  | None => None
  | Some (c, mem) =>
      let h := h <| g_heap := Some c |> <| h_mem := mem |> in
      Some (true, c, h <| g_pool_bytes := u64 (g_pool_bytes h + pages * 4096) |>)
  end.

(** The body of [if (!ptr)]: grow the heap and try once more. *)
Definition heap_grow (req_size : Z) (c : control) (h : kheap) : option (Z * control * kheap) :=
  match heap_extend (grow_pages req_size) c h with
  | None => None
  | Some (false, c, h) => Some (NULL, c, h)
  | Some (true, c, h) => heap_malloc req_size c h
  end.

(** The body of [if (ptr)]: the header and the accounting. *)
Definition heap_record (ptr size : Z) (h : kheap) : Z * kheap :=
  let mem := st ptr HEAP_ALLOC_MAGIC (h_mem h) in
  let mem := st (ptr + 8) size mem in
  let h := h <| h_mem := mem |> <| g_allocated_bytes := u64 (g_allocated_bytes h + size) |> in
  let h := if g_peak_allocated_bytes h <? g_allocated_bytes h
           then h <| g_peak_allocated_bytes := g_allocated_bytes h |> else h in
  (ptr + ALLOC_HDR, h).

Definition kmalloc (size : Z) (h : kheap) : option (Z * kheap) :=
  match g_heap h with
  | None => Some (NULL, h)
  | Some c =>
      if size =? 0 then Some (NULL, h) else
      let req_size := u64 (size + ALLOC_HDR) in
      if req_size <? size then Some (NULL, h) else
      match heap_malloc req_size c h with
      | None => None
      | Some (ptr, c, h) =>
          match (if ptr =? NULL then heap_grow req_size c h else Some (ptr, c, h)) with
          | None => None
          | Some (ptr, _, h) => Some (if ptr =? NULL then (NULL, h) else heap_record ptr size h)
          end
      end
  end.

Definition kfree (ptr : Z) (h : kheap) : option kheap :=
  match g_heap h with
  | None => Some h
  | Some c =>
      if ptr =? NULL then Some h else
      let hdr := ptr - ALLOC_HDR in
      if ld (h_mem h) hdr =? HEAP_ALLOC_MAGIC then
        let h := h <| h_mem := st hdr 0 (h_mem h) |> in
        let size := ld (h_mem h) (hdr + 8) in
        let h := if size <=? g_allocated_bytes h
                 then h <| g_allocated_bytes := g_allocated_bytes h - size |>
                 else h <| g_allocated_bytes := 0 |> in
        match tlsf_free hdr c (h_mem h) with
        | None => None
        | Some (c, mem) => Some (h <| g_heap := Some c |> <| h_mem := mem |>)
        end
      else if g_bad_free_warned h then Some h else Some (h <| g_bad_free_warned := true |>)
  end.

(** pool_bytes, allocated_bytes, peak_allocated_bytes *)
Definition heap_get_stats (h : kheap) : Z * Z * Z :=
  (g_pool_bytes h, g_allocated_bytes h, g_peak_allocated_bytes h).
