(* ===== verification/HeapProps.v ===== *)
(** The kernel heap over every sequence of calls: blocks, contents, frames and accounting. *)

From S2P Require Import Prelude Pmm Paging Tlsf TlsfInv TlsfLists TlsfHeap TlsfProps Heap.

(** * Runs

    The users of the heap and the words they stored into their blocks are ghost state. *)

Record kblock := mkKblock { kb_ptr : Z; kb_size : Z; kb_vals : gmap Z Z }.
Record kstate := mkKstate { ks_heap : kheap; ks_live : list kblock }.

Inductive kop : Type :=
  | KMalloc (size : Z)
  | KFree (i : nat)
  | KFreeBad (ptr : Z)                (* an address that is not a live block *)
  | KStore (i : nat) (off v : Z).

Definition run_kop (op : kop) (s : kstate) : option kstate :=
  let '(mkKstate h live) := s in
  match op with
  | KMalloc size =>
      match kmalloc size h with
      | None => None
      | Some (p, h) => Some (mkKstate h (if p =? NULL then live else mkKblock p size ∅ :: live))
      end
  | KFree i =>
      match live !! i with
      | None => Some s
      | Some b => match kfree (kb_ptr b) h with
                  | None => None
                  | Some h => Some (mkKstate h (delete i live))
                  end
      end
  | KFreeBad ptr => match kfree ptr h with None => None | Some h => Some (mkKstate h live) end
  | KStore i off v =>
      match live !! i with
      | None => Some s
      | Some b => Some (mkKstate (h <| h_mem := st (kb_ptr b + 8 * off) v (h_mem h) |>)
                    (<[i := mkKblock (kb_ptr b) (kb_size b) (<[off := v]> (kb_vals b))]> live))
      end
  end.

(** A request meets a free block of exactly its size, before or after the heap has grown. *)
Definition kmalloc_exact (size : Z) (h : kheap) : bool :=
  match g_heap h with
  | None => false
  | Some c =>
      let req := size + ALLOC_HDR in
      exact_fit req c (h_mem h)
      || match heap_extend (grow_pages req) c h with
         | Some (true, c', h') => exact_fit req c' (h_mem h')
         | _ => false
         end
  end.

Definition kop_allowed (op : kop) (s : kstate) : bool :=
  let '(mkKstate h live) := s in
  match op with
  | KMalloc size => (0 <=? size) && (size + ALLOC_HDR <=? REQ_MAX) && negb (kmalloc_exact size h)
  | KFree i => (i <? length live)%nat
  | KFreeBad ptr => (ptr =? NULL) || negb (ld (h_mem h) (ptr - ALLOC_HDR) =? HEAP_ALLOC_MAGIC)
  | KStore i off _ => match live !! i with
                      | Some b => (0 <=? off) && (8 * off + 8 <=? kb_size b)
                      | None => false
                      end
  end.

(** The direct map covers physical memory without wrapping. *)
Definition direct_map_ok (m : machine) : Prop :=
  0 <= g_hhdm_offset m /\ g_hhdm_offset m mod 4096 = 0
  /\ g_hhdm_offset m + pmm_total_frames (m_pmm m) * 4096 < 0x10000000000000000.

Inductive kreach : kstate -> Prop :=
  | kreach_init m mem h c :
      pmm_wf (m_pmm m) -> direct_map_ok m -> heap_init (heap_zero m mem) = Some h -> g_heap h = Some c ->
      kreach (mkKstate h [])
  | kreach_step s op s' : kreach s -> kop_allowed op s = true -> run_kop op s = Some s' -> kreach s'.

(** * The invariant *)

(** The frame behind an address of the heap is marked used in the frame allocator. *)
Definition frame_taken (m : machine) (a : Z) : Prop :=
  let off := a - g_hhdm_offset m in
  4096 <= off < pmm_total_frames (m_pmm m) * 4096 /\ bitmap_get (m_pmm m) (off / 4096) = false.

Record kcore (c : control) (h : kheap) (tl : list lblock) (pools : list (Z * Z)) (B : blocks) : Prop := {
  kc_tinv : tinv (mkTstate c (h_mem h) tl pools) B;
  kc_heap : g_heap h = Some c;
  kc_pmm : pmm_wf (m_pmm (h_machine h));
  kc_map : direct_map_ok (h_machine h);
  kc_pools a : in_pools pools a -> frame_taken (h_machine h) a;
  kc_pos p : p ∈ pools -> 0 < p.2;
}.

Definition same_stats (h h' : kheap) : Prop :=
  g_allocated_bytes h' = g_allocated_bytes h /\ g_peak_allocated_bytes h' = g_peak_allocated_bytes h
  /\ g_bad_free_warned h' = g_bad_free_warned h.

(** No free block can serve the request. *)
Definition no_fit (B : blocks) (req : Z) : Prop :=
  forall x k, B !! x = Some k -> bk_free k = true -> bk_size k < rounded (adjust_size req).

Lemma tinv_malloc_run c m tl pools B req :
  tinv (mkTstate c m tl pools) B -> 0 < req <= REQ_MAX -> exact_fit req c m = false ->
  exists p c' m' B', tlsf_malloc req c m = Some (p, c', m')
    /\ tinv (mkTstate c' m' (if p =? NULL then tl else mkLblock p req ∅ :: tl) pools) B'
    /\ (p = NULL -> c' = c /\ m' = m /\ no_fit B req).
Proof.
  intros I Hr He. destruct (tinv_malloc c m tl pools B req I) as (s' & B' & E & I').
  - cbn. rewrite He. apply andb_true_iff. split; [|done]. apply andb_true_iff. split; [apply Z.ltb_lt|apply Z.leb_le]; lia.
  - cbn in E. destruct (tlsf_malloc_ok c m B req (ti_heap _ _ I) Hr He) as (p & c' & m' & B1 & E1 & _ & _ & Hc).
    rewrite E1 in E. injection E as <-. exists p, c', m', B'. split; [done|]. split; [done|]. intros ->.
    destruct Hc as [(_ & ? & ? & _ & ?)|(b & s & Hb & ? & _)]; [done|]. unfold block_to_ptr, HDR_SIZE, NULL in Hb. lia.
Qed.

Lemma heap_malloc_ok c h tl pools B req :
  kcore c h tl pools B -> 0 < req <= REQ_MAX -> exact_fit req c (h_mem h) = false ->
  exists p c' h' B', heap_malloc req c h = Some (p, c', h') /\ same_stats h h'
    /\ kcore c' h' (if p =? NULL then tl else mkLblock p req ∅ :: tl) pools B'
    /\ (p = NULL -> c' = c /\ h' = h /\ no_fit B req).
Proof.
  intros [I Hh Hp Hm Hpl Hps] Hr He. destruct (tinv_malloc_run c _ tl pools B req I Hr He) as (p & c' & m' & B' & E & I' & Hn).
  unfold heap_malloc. rewrite E. eexists _, _, _, B'. split; [done|]. split; [done|]. split; [by split|].
  intros Hnull. destruct (Hn Hnull) as (-> & -> & Hnf). split; [done|]. split; [|done].
  destruct h. cbn in *. by subst.
Qed.

(** * Growing the heap *)

Lemma disjoint_ranges mem size a n :
  0 < size -> 0 < n -> (forall x, mem <= x < mem + size -> ~ (a <= x < a + n)) ->
  (mem + size <=? a) || (a + n <=? mem) = true.
Proof.
  intros Hs Hn H. destruct (Z.leb_spec (mem + size) a); [done|]. destruct (Z.leb_spec (a + n) mem); [done|].
  exfalso. apply (H (Z.max mem a)); lia.
Qed.

(** Frames just taken from the allocator are new memory to the heap. *)
Lemma taken_frames m p' n s :
  pmm_wf (m_pmm m) -> 0 < n -> pmm_allocated (m_pmm m) n s p' ->
  let m' := m <| m_pmm := p' |> in
  let a := g_hhdm_offset m + s * 4096 in
  (forall x, a <= x < a + n * 4096 -> frame_taken m' x /\ ~ frame_taken m x)
  /\ (forall x, frame_taken m x -> frame_taken m' x).
Proof.
  intros W Hn A m' a. destruct (al_range _ _ _ _ A) as (H1 & _ & H3). pose proof (al_set _ _ _ _ A) as Hset.
  assert (forall x, 0 <= x -> bitmap_get p' (x / 4096)
            = if (s <=? x / 4096) && (x / 4096 <? s + n) then false else bitmap_get (m_pmm m) (x / 4096)) as Hb.
  { intros x Hx. apply Hset. apply Z.div_pos; lia. }
  split.
  - intros x Hx. unfold a in Hx. set (o := x - g_hhdm_offset m). assert (s <= o / 4096 < s + n) as Ho.
    { split; [apply Z.div_le_lower_bound; lia|apply Z.div_lt_upper_bound; lia]. }
    assert (bitmap_get (m_pmm m) (o / 4096) = true) as Hfree.
    { replace (o / 4096) with (s + (o / 4096 - s)) by lia. apply (al_run _ _ _ _ A). lia. }
    unfold frame_taken. cbn. fold o. rewrite (al_total _ _ _ _ A), Hb by (unfold o; lia). split.
    + split; [unfold o; lia|]. destruct (Z.leb_spec s (o / 4096)), (Z.ltb_spec (o / 4096) (s + n)); done || lia.
    + intros [_ Hf]. congruence.
  - intros x [Hr Hf]. unfold frame_taken. cbn. rewrite (al_total _ _ _ _ A), Hb by lia. split; [done|]. by destruct (_ && _).
Qed.

Lemma direct_map_virt m phys : direct_map_ok m -> 0 <= phys < pmm_total_frames (m_pmm m) * 4096 ->
  vmm_phys_to_virt m phys = g_hhdm_offset m + phys.
Proof.
  intros (H1 & _ & H3) Hp. unfold vmm_phys_to_virt. destruct (Z.eqb_spec (g_hhdm_offset m) 0) as [->|]; [done|].
  cbn. rewrite u64_id by (unfold is_u64; lia). lia.
Qed.

Lemma direct_map_aligned m s : direct_map_ok m -> (g_hhdm_offset m + s * 4096) mod 8 = 0.
Proof.
  intros (_ & H & _). rewrite (Z.div_mod (g_hhdm_offset m) 4096), H by lia.
  replace (4096 * (g_hhdm_offset m / 4096) + 0 + s * 4096) with ((g_hhdm_offset m / 4096 + s) * 512 * 8) by lia.
  by apply Z.mod_mul.
Qed.

(** Growing succeeds or leaves the heap alone; the new pool has all of the new frames. *)
Lemma heap_extend_ok c h tl pools B pages :
  kcore c h tl pools B -> 0 < pages <= 8192 ->
  exists ok c' h' pools' B', heap_extend pages c h = Some (ok, c', h') /\ same_stats h h' /\ kcore c' h' tl pools' B'
    /\ (if ok : bool then exists a, B' = new_pool a (pages * 4096) B
        else c' = c /\ h_mem h' = h_mem h /\ forall s, pmm_first_usable (m_pmm (h_machine h)) <= s ->
               s + pages <= pmm_total_frames (m_pmm (h_machine h)) -> ~ free_run (m_pmm (h_machine h)) s pages).
Proof.
  intros [I Hh Hp Hm Hpl Hps] Hn. unfold heap_extend, alloc_pages.
  destruct (pmm_alloc_pages (m_pmm (h_machine h)) pages) as [phys p'] eqn:Ea.
  destruct (pmm_alloc_pages_cases _ pages phys p' Hp ltac:(lia) Ea) as [(s & -> & A)|(-> & -> & Hnone)].
  2: { exists false, c, (h <| h_machine := h_machine h <| m_pmm := m_pmm (h_machine h) |> |>), pools, B.
       split; [done|]. split; [done|]. split; [|done]. destruct h as [? ? ? ? ? [] ?]. by split. }
  destruct (al_range _ _ _ _ A) as (R1 & _ & R3). destruct (taken_frames _ p' pages s Hp ltac:(lia) A) as [Hnew Hold].
  set (m' := h_machine h <| m_pmm := p' |>) in *. set (a := g_hhdm_offset (h_machine h) + s * 4096) in *.
  assert (direct_map_ok m') as Hm' by (unfold direct_map_ok, m'; cbn; by rewrite (al_total _ _ _ _ A)).
  rewrite (proj2 (Z.eqb_neq (s * 4096) 0)) by lia. cbn.
  rewrite direct_map_virt by (done || (pose proof (al_total _ _ _ _ A) as Et; unfold m'; cbn in *; lia)).
  change (g_hhdm_offset m' + s * 4096) with a. rewrite u64_id by (unfold is_u64; lia).
  destruct (tinv_pool c (h_mem h) tl pools B a (pages * 4096) I) as (s' & E & I').
  { cbn. rewrite !andb_true_iff. destruct Hm as (M1 & M2 & M3).
    split_and!; try (apply Z.ltb_lt; unfold a; lia); try (apply Z.eqb_eq); try (apply Z.leb_le; unfold POOL_MAX; lia).
    - by apply direct_map_aligned.
    - replace (pages * 4096) with (pages * 512 * 8) by lia. by apply Z.mod_mul.
    - apply forallb_forall. intros [b n] Hin%list_elem_of_In. apply disjoint_ranges; [lia|by apply (Hps _ Hin)|].
      intros x Hx Hb. destruct (Hnew x Hx) as [_ Hnot]. apply Hnot, Hpl. by exists (b, n). }
  cbn in E. destruct (tlsf_add_pool a (pages * 4096) c (h_mem h)) as [[c' mem']|]; [|done]. injection E as <-.
  eexists true, c', _, ((a, pages * 4096) :: pools), _. split; [done|]. split; [done|]. split; [|by exists a].
  split; cbn; [done|done|by apply (pmm_allocated_wf _ pages s p' Hp ltac:(lia))|done|..].
  - intros x ([b n] & [Eb|Hin]%elem_of_cons & Hx).
    + injection Eb as -> ->. cbn in Hx. by apply Hnew.
    + apply Hold, Hpl. by exists (b, n).
  - intros q [->|Hin]%elem_of_cons; [cbn; lia|by apply Hps].
Qed.

(** * Packing

    Disjoint blocks below an address add up to at most that address. *)

Definition sum_of {A} (f : A -> Z) (l : list A) : Z := foldr (fun x n => f x + n) 0 l.

Lemma sum_of_delete {A} (f : A -> Z) l i x : l !! i = Some x -> sum_of f l = f x + sum_of f (delete i l).
Proof.
  revert i. induction l as [|y l IH]; [done|]; intros [|i] H; [by injection H as ->|].
  change (delete (S i) (y :: l)) with (y :: delete i l). specialize (IH i H). unfold sum_of in *. cbn [foldr]. lia.
Qed.

Lemma sum_of_insert {A} (f : A -> Z) l i x y : l !! i = Some x -> f y = f x -> sum_of f (<[i := y]> l) = sum_of f l.
Proof.
  intros H E. revert i H. induction l as [|z l IH]; [done|]. intros [|i] H.
  - injection H as ->. change (<[0%nat:=y]> (x :: l)) with (y :: l). unfold sum_of. cbn [foldr]. lia.
  - change (<[S i:=y]> (z :: l)) with (z :: <[i:=y]> l). specialize (IH i H). unfold sum_of in *. cbn [foldr]. lia.
Qed.

Definition cells (a n : Z) : gset Z := list_to_set (seqZ a n).

Lemma elem_of_cells a n x : x ∈ cells a n <-> a <= x < a + n.
Proof. unfold cells. rewrite elem_of_list_to_set, elem_of_seqZ. lia. Qed.

Lemma size_cells a n : 0 <= n -> Z.of_nat (size (cells a n)) = n.
Proof. intros H. unfold cells. rewrite size_list_to_set by apply NoDup_seqZ. rewrite length_seqZ. lia. Qed.

Lemma packed (tl : list lblock) N :
  (forall b, b ∈ tl -> 0 <= lb_size b /\ 0 <= lb_ptr b /\ lb_ptr b + lb_size b <= N) ->
  (forall i j b b', tl !! i = Some b -> tl !! j = Some b' -> i <> j ->
     lb_ptr b + lb_size b <= lb_ptr b' \/ lb_ptr b' + lb_size b' <= lb_ptr b) ->
  0 <= N -> sum_of lb_size tl <= N.
Proof.
  intros Hr Hd HN. set (cell b := cells (lb_ptr b) (lb_size b)).
  assert (Z.of_nat (size (⋃ (cell <$> tl))) = sum_of lb_size tl) as Hs.
  { revert Hr Hd. clear HN. induction tl as [|b tl IH]; intros Hr Hd; [done|].
    change (⋃ (cell <$> b :: tl)) with (cell b ∪ ⋃ (cell <$> tl)).
    rewrite size_union, Nat2Z.inj_add, IH.
    - cbn. unfold cell at 1. rewrite size_cells; [done|]. by apply Hr; left.
    - intros b' Hb'. apply Hr. by right.
    - intros i j b1 b2 H1 H2 Hne. apply (Hd (S i) (S j)); [done|done|congruence].
    - intros x Hx Hy. apply elem_of_cells in Hx. apply elem_of_union_list in Hy as (X & HX & Hy).
      apply list_elem_of_fmap in HX as (b' & -> & Hb'). apply elem_of_cells in Hy.
      apply list_elem_of_lookup in Hb' as [j Hj]. destruct (Hd 0%nat (S j) b b' eq_refl Hj); lia. }
  rewrite <- Hs, <- (size_cells 0 N) by lia. apply inj_le. apply subseteq_size. intros x Hx.
  apply elem_of_union_list in Hx as (X & HX & Hx). apply list_elem_of_fmap in HX as (b & -> & Hb).
  apply elem_of_cells in Hx. apply elem_of_cells. destruct (Hr b Hb) as (? & ? & ?). lia.
Qed.

Lemma kcore_sum c h tl pools B : kcore c h tl pools B -> 0 <= sum_of lb_size tl < 0x10000000000000000.
Proof.
  intros [I _ Hp (M1 & _ & M3) Hpl _]. destruct (tinv_safe _ _ I) as [Sb Sd _]. cbn in Sb, Sd.
  assert (forall b, b ∈ tl -> 0 <= lb_size b /\ 0 <= lb_ptr b
            /\ lb_ptr b + lb_size b <= g_hhdm_offset (h_machine h) + pmm_total_frames (m_pmm (h_machine h)) * 4096) as Hr.
  { intros b Hb. apply list_elem_of_lookup in Hb as [i Hi]. destruct (Sb i b Hi) as (H1 & _ & H2 & H3).
    split; [lia|]. split; [lia|]. destruct (Hpl _ (H3 (lb_ptr b + lb_size b - 1) ltac:(lia))) as [Hx _]. lia. }
  split.
  - clear -Hr. induction tl as [|b tl IH]; cbn; [done|]. destruct (Hr b ltac:(by left)) as (H & _).
    assert (0 <= sum_of lb_size tl); [apply IH; intros b' Hb'; apply Hr; by right|unfold sum_of in *; lia].
  - pose proof (wf_total _ Hp). pose proof (packed tl _ Hr Sd ltac:(lia)). lia.
Qed.

(** * Steps *)

Lemma kcore_store c h tl pools B i b off v :
  kcore c h tl pools B -> tl !! i = Some b -> 0 <= off -> 8 * off + 8 <= lb_size b ->
  exists B', kcore c (h <| h_mem := st (lb_ptr b + 8 * off) v (h_mem h) |>)
    (<[i := mkLblock (lb_ptr b) (lb_size b) (<[off := v]> (lb_vals b))]> tl) pools B'.
Proof.
  intros [I Hh Hp Hm Hpl Hps] Hi H1 H2. destruct (tinv_store c (h_mem h) tl pools B i off v I) as (s' & B' & E & I').
  - cbn. rewrite Hi. apply andb_true_iff. split; apply Z.leb_le; lia.
  - cbn in E. rewrite Hi in E. injection E as <-. exists B'. by split.
Qed.

Lemma kcore_free c h tl pools B i b :
  kcore c h tl pools B -> tl !! i = Some b ->
  exists c' m' B', tlsf_free (lb_ptr b) c (h_mem h) = Some (c', m')
    /\ kcore c' (h <| g_heap := Some c' |> <| h_mem := m' |>) (delete i tl) pools B'.
Proof.
  intros [I Hh Hp Hm Hpl Hps] Hi. destruct (tinv_free c (h_mem h) tl pools B i I) as (s' & B' & E & I').
  - cbn. apply Nat.ltb_lt. by eapply lookup_lt_Some.
  - cbn in E. rewrite Hi in E. destruct (tlsf_free _ _ _) as [[c' m']|]; [|done]. injection E as <-.
    exists c', m', B'. split; [done|]. by split.
Qed.

(** The accounting fields do not matter to the allocator. *)
Lemma kcore_stats c h h' tl pools B :
  kcore c h tl pools B -> g_heap h' = g_heap h -> h_mem h' = h_mem h -> h_machine h' = h_machine h ->
  kcore c h' tl pools B.
Proof. intros [I Hh Hp Hm Hpl Hps] E1 E2 E3. split; rewrite ?E1, ?E2, ?E3; done. Qed.

(** A block of [kmalloc] as a block of the allocator. *)
Record shows (k : kblock) (l : lblock) : Prop := {
  sh_ptr : lb_ptr l = kb_ptr k - 16;
  sh_size : lb_size l = kb_size k + 16;
  sh_pos : 0 < kb_size k;
  sh_magic : lb_vals l !! 0 = Some HEAP_ALLOC_MAGIC;
  sh_count : lb_vals l !! 1 = Some (kb_size k);
  sh_vals off v : kb_vals k !! off = Some v -> 0 <= off /\ 8 * off + 8 <= kb_size k /\ lb_vals l !! (off + 2) = Some v;
}.

Record kinv (s : kstate) c tl pools B : Prop := {
  ki_core : kcore c (ks_heap s) tl pools B;
  ki_shows : Forall2 shows (ks_live s) tl;
  ki_sum : g_allocated_bytes (ks_heap s) = sum_of kb_size (ks_live s);
  ki_peak : g_allocated_bytes (ks_heap s) <= g_peak_allocated_bytes (ks_heap s);
}.

Lemma shows_sum live tl : Forall2 shows live tl -> sum_of kb_size live <= sum_of lb_size tl /\ 0 <= sum_of kb_size live.
Proof.
  unfold sum_of. induction 1 as [|k l live tl [_ H1 H2 _ _ _] _ IH]; cbn; lia.
Qed.

(** Recording a block: the header words and the counters. *)
Lemma heap_record_ok c h tl pools B live p size :
  kcore c h (mkLblock p (size + 16) ∅ :: tl) pools B -> Forall2 shows live tl -> 0 < size ->
  g_allocated_bytes h = sum_of kb_size live -> g_allocated_bytes h <= g_peak_allocated_bytes h ->
  exists h' tl' B', heap_record p size h = (p + 16, h')
    /\ kinv (mkKstate h' (mkKblock (p + 16) size ∅ :: live)) c tl' pools B'.
Proof.
  intros K Hs Hz Ha Hpk. pose proof (kcore_sum _ _ _ _ _ K) as Hsum. destruct (shows_sum live tl Hs) as [S1 S2].
  assert (u64 (g_allocated_bytes h + size) = size + sum_of kb_size live) as Eu.
  { rewrite u64_id; [lia|]. unfold is_u64. unfold sum_of in *. cbn in Hsum. lia. }
  destruct (kcore_store _ _ _ _ _ 0%nat _ 0 HEAP_ALLOC_MAGIC K eq_refl) as (B1 & K1); [lia|cbn; lia|].
  destruct (kcore_store _ _ _ _ _ 0%nat _ 1 size K1 eq_refl) as (B2 & K2); [lia|cbn; lia|]. cbn in K2.
  replace (p + 8 * 0) with p in K2 by lia. change (8 * 1) with 8 in K2. unfold heap_record. rewrite Eu. eexists _, _, B2. split; [done|]. split.
  - eapply kcore_stats; [exact K2|..]; fields; cbn; by destruct (_ <? _).
  - constructor; [|done]. split; cbn; try done; lia.
  - fields. cbn. by destruct (_ <? _).
  - fields. cbn. destruct (Z.ltb_spec (g_peak_allocated_bytes h) (size + sum_of kb_size live)); cbn; unfold sum_of in *; lia.
Qed.

Lemma grow_pages_bounds req : 0 < req <= REQ_MAX ->
  HEAP_GROW_PAGES <= grow_pages req <= 8192 /\ req <= grow_pages req * 4096.
Proof.
  unfold REQ_MAX, HEAP_GROW_PAGES. intros Hr. unfold grow_pages, HEAP_GROW_PAGES.
  rewrite u64_id by (unfold is_u64; lia). pose proof (Z.div_mod (req + 4095) 4096 ltac:(lia)).
  pose proof (Z.mod_pos_bound (req + 4095) 4096). destruct (Z.ltb_spec ((req + 4095) / 4096) 32); lia.
Qed.

Lemma kinv_parts s c tl pools B h' :
  kinv s c tl pools B -> same_stats (ks_heap s) h' ->
  g_allocated_bytes h' = sum_of kb_size (ks_live s) /\ g_allocated_bytes h' <= g_peak_allocated_bytes h'.
Proof. intros [_ _ H1 H2] (-> & -> & _). done. Qed.

(** Growing and trying again. *)
Lemma heap_grow_ok c h tl pools B req :
  kcore c h tl pools B -> 0 < req <= REQ_MAX ->
  match heap_extend (grow_pages req) c h with Some (true, c', h') => exact_fit req c' (h_mem h') | _ => false end = false ->
  exists p c' h' pools' B', heap_grow req c h = Some (p, c', h') /\ same_stats h h'
    /\ kcore c' h' (if p =? NULL then tl else mkLblock p req ∅ :: tl) pools' B'
    /\ (p = NULL ->
         (exists a, no_fit (new_pool a (grow_pages req * 4096) B) req)
         \/ forall s, pmm_first_usable (m_pmm (h_machine h)) <= s ->
              s + grow_pages req <= pmm_total_frames (m_pmm (h_machine h)) ->
              ~ free_run (m_pmm (h_machine h)) s (grow_pages req)).
Proof.
  intros K Hr He. destruct (grow_pages_bounds req Hr) as [Hg _]. unfold HEAP_GROW_PAGES in Hg. unfold heap_grow.
  destruct (heap_extend_ok c h tl pools B (grow_pages req) K ltac:(lia)) as (ok & c1 & h1 & pools1 & B1 & E & S & K1 & Hc).
  rewrite E in *. destruct ok.
  - destruct (heap_malloc_ok c1 h1 tl pools1 B1 req K1 Hr He) as (p & c2 & h2 & B2 & E2 & S2 & K2 & Hn). rewrite E2.
    exists p, c2, h2, pools1, B2. split; [done|]. split; [|split; [done|]].
    + destruct S as (? & ? & ?), S2 as (? & ? & ?). split_and!; congruence.
    + intros Hnull. left. destruct Hc as (a & ->). exists a. by apply Hn.
  - exists NULL, c1, h1, pools1, B1. split; [done|]. split; [done|]. split; [done|]. intros _. right. by destruct Hc as (_ & _ & ?).
Qed.

(** One allocation; [kmalloc] fails only for the reasons stated. *)
Lemma kinv_malloc h live c tl pools B size :
  kinv (mkKstate h live) c tl pools B -> kop_allowed (KMalloc size) (mkKstate h live) = true ->
  exists p h' c' tl' pools' B', kmalloc size h = Some (p, h')
    /\ kinv (mkKstate h' (if p =? NULL then live else mkKblock p size ∅ :: live)) c' tl' pools' B'
    /\ (p = NULL -> size <> 0 ->
         (exists a, no_fit (new_pool a (grow_pages (size + 16) * 4096) B) (size + 16))
         \/ forall s, pmm_first_usable (m_pmm (h_machine h)) <= s ->
              s + grow_pages (size + 16) <= pmm_total_frames (m_pmm (h_machine h)) ->
              ~ free_run (m_pmm (h_machine h)) s (grow_pages (size + 16))).
Proof.
  intros I Hal. pose proof I as [K Hs Hsum Hpk]. cbn [ks_heap ks_live kop_allowed] in *.
  apply andb_true_iff in Hal as [[H1%Z.leb_le H2%Z.leb_le]%andb_true_iff H3%negb_true_iff].
  unfold kmalloc, kmalloc_exact in *. rewrite (kc_heap _ _ _ _ _ K) in *. cbv zeta in H3.
  apply orb_false_iff in H3 as [H3 H4]. unfold ALLOC_HDR in *.
  destruct (Z.eqb_spec size 0) as [->|Hz]; [exists NULL, h, c, tl, pools, B; by split|].
  rewrite (u64_id (size + 16)) by (unfold is_u64, REQ_MAX in *; lia). rewrite (proj2 (Z.ltb_ge _ _)) by lia.
  destruct (heap_malloc_ok c h tl pools B (size + 16) K ltac:(lia) H3) as (p & c1 & h1 & B1 & E1 & S1 & K1 & Hn).
  rewrite E1.
  assert (exists p' c2 h2 pools2 B2, (if p =? NULL then heap_grow (size + 16) c1 h1 else Some (p, c1, h1)) = Some (p', c2, h2)
            /\ same_stats h h2 /\ kcore c2 h2 (if p' =? NULL then tl else mkLblock p' (size + 16) ∅ :: tl) pools2 B2
            /\ (p' = NULL -> (exists a, no_fit (new_pool a (grow_pages (size + 16) * 4096) B) (size + 16))
                  \/ forall s, pmm_first_usable (m_pmm (h_machine h)) <= s ->
                       s + grow_pages (size + 16) <= pmm_total_frames (m_pmm (h_machine h)) ->
                       ~ free_run (m_pmm (h_machine h)) s (grow_pages (size + 16)))) as (p' & c2 & h2 & pools2 & B2 & E2 & S2 & K2 & Hn2).
  { destruct (Z.eqb_spec p NULL) as [Hp|Hp].
    - destruct (Hn Hp) as (-> & -> & _). apply (heap_grow_ok c h tl pools B); [done|lia|done].
    - exists p, c1, h1, pools, B1. rewrite (proj2 (Z.eqb_neq p NULL)) by done. done. }
  rewrite E2. destruct (kinv_parts _ _ _ _ _ h2 I S2) as [A1 A2]. destruct (Z.eqb_spec p' NULL) as [Hp|Hp].
  - exists NULL, h2, c2, tl, pools2, B2. split; [done|]. split; [by split|]. intros _ _. by apply Hn2.
  - destruct (heap_record_ok c2 h2 tl pools2 B2 live p' size K2 Hs ltac:(lia) A1 A2) as (h3 & tl' & B3 & -> & I3).
    assert (0 < p') as Hpos.
    { destruct (us_block _ (tinv_safe _ _ (kc_tinv _ _ _ _ _ K2)) 0%nat _ eq_refl) as [? _]. done. }
    exists (p' + 16), h3, c2, tl', pools2, B3. rewrite (proj2 (Z.eqb_neq (p' + 16) NULL)) by (unfold NULL; lia).
    split; [done|]. split; [done|]. unfold NULL. lia.
Qed.

Lemma shows_insert live tl i k k' l l' :
  Forall2 shows live tl -> live !! i = Some k -> tl !! i = Some l -> shows k' l' ->
  Forall2 shows (<[i := k']> live) (<[i := l']> tl).
Proof. intros. by apply Forall2_insert. Qed.

Lemma kinv_store h live c tl pools B i off v :
  kinv (mkKstate h live) c tl pools B -> kop_allowed (KStore i off v) (mkKstate h live) = true ->
  exists s' c' tl' pools' B', run_kop (KStore i off v) (mkKstate h live) = Some s' /\ kinv s' c' tl' pools' B'.
Proof.
  intros [K Hs Hsum Hpk] Hal. cbn [ks_heap ks_live kop_allowed run_kop] in *.
  destruct (live !! i) as [k|] eqn:Hi; [|done]. apply andb_true_iff in Hal as [H1%Z.leb_le H2%Z.leb_le].
  destruct (Forall2_lookup_l _ _ _ _ _ Hs Hi) as (l & Hl & [P1 P2 P3 P4 P5 P6]).
  destruct (kcore_store c h tl pools B i l (off + 2) v K Hl ltac:(lia) ltac:(lia)) as (B' & K').
  replace (lb_ptr l + 8 * (off + 2)) with (kb_ptr k + 8 * off) in K' by lia.
  eexists _, c, _, pools, B'. split; [done|]. split; cbn [ks_heap ks_live]; [exact K'|..].
  - apply (shows_insert _ _ _ k _ l); [done|done|done|]. split; cbn; [done|done|done|..].
    + by rewrite lookup_insert_ne by lia.
    + by rewrite lookup_insert_ne by lia.
    + intros o w [[<- <-]|[Hne Ho]]%lookup_insert_Some; [by rewrite lookup_insert_eq|].
      destruct (P6 o w Ho) as (? & ? & ?). by rewrite lookup_insert_ne by lia.
  - fields. cbn. rewrite (sum_of_insert _ _ _ k); done.
  - done.
Qed.

Lemma delete_insert_same {A} (l : list A) i x : delete i (<[i := x]> l) = delete i l.
Proof. revert i. induction l as [|y l IH]; intros [|i]; [done..|]. cbn. f_equal. apply IH. Qed.

(** [kfree] of a live block finds its magic word and size, whatever the user stored. *)
Lemma kinv_free h live c tl pools B i k :
  kinv (mkKstate h live) c tl pools B -> live !! i = Some k ->
  exists h' c' tl' B', kfree (kb_ptr k) h = Some h' /\ kinv (mkKstate h' (delete i live)) c' tl' pools B'
    /\ g_allocated_bytes h' = g_allocated_bytes h - kb_size k.
Proof.
  intros [K Hs Hsum Hpk] Hi. cbn [ks_heap ks_live] in *.
  destruct (Forall2_lookup_l _ _ _ _ _ Hs Hi) as (l & Hl & [P1 P2 P3 P4 P5 P6]).
  destruct (tinv_safe _ _ (kc_tinv _ _ _ _ _ K)) as [Sb _ Sc]. cbn in Sb, Sc. destruct (Sb i l Hl) as (Q1 & _).
  pose proof (Sc i l 0 _ Hl P4) as M0. pose proof (Sc i l 1 _ Hl P5) as M1.
  replace (lb_ptr l + 8 * 0) with (kb_ptr k - 16) in M0 by lia. replace (lb_ptr l + 8 * 1) with (kb_ptr k - 16 + 8) in M1 by lia.
  unfold kfree. rewrite (kc_heap _ _ _ _ _ K). rewrite (proj2 (Z.eqb_neq (kb_ptr k) NULL)) by (unfold NULL; lia).
  unfold ALLOC_HDR. rewrite M0, Z.eqb_refl.
  destruct (kcore_store c h tl pools B i l 0 0 K Hl ltac:(lia) ltac:(lia)) as (B1 & K1).
  replace (lb_ptr l + 8 * 0) with (kb_ptr k - 16) in K1 by lia.
  destruct (kcore_free _ _ _ _ _ i _ K1 (list_lookup_insert_eq _ _ _ (lookup_lt_Some _ _ _ Hl))) as (c' & m' & B2 & E & K2).
  cbn [lb_ptr] in E. rewrite P1 in E. fields. cbn [h_mem g_allocated_bytes] in *.
  rewrite ld_st_ne, M1 by lia. pose proof (sum_of_delete kb_size live i k Hi) as Hd.
  assert (0 <= sum_of kb_size (delete i live)) as H0.
  { apply (shows_sum _ (delete i tl)). by apply Forall2_delete. }
  rewrite (proj2 (Z.leb_le _ _)) by lia. cbn [h_mem]. rewrite E. eexists _, c', _, B2. split; [done|].
  split; [|done]. split; cbn [ks_heap ks_live g_allocated_bytes g_peak_allocated_bytes].
  - eapply kcore_stats; [exact K2|done|done|done].
  - rewrite delete_insert_same. by apply Forall2_delete.
  - lia.
  - lia.
Qed.

Lemma kinv_bad h live c tl pools B ptr :
  kinv (mkKstate h live) c tl pools B -> kop_allowed (KFreeBad ptr) (mkKstate h live) = true ->
  exists h', kfree ptr h = Some h' /\ kinv (mkKstate h' live) c tl pools B
    /\ h_mem h' = h_mem h /\ heap_get_stats h' = heap_get_stats h.
Proof.
  intros [K Hs Hsum Hpk] Hal. cbn in Hal. unfold kfree. rewrite (kc_heap _ h _ _ _ K).
  destruct (ptr =? NULL); [by exists h|]. cbn in Hal. apply negb_true_iff in Hal. rewrite Hal.
  destruct (g_bad_free_warned h); [by exists h|]. eexists. split; [done|]. split; [|done].
  split; [|done|done|done]. by eapply kcore_stats.
Qed.

Lemma kinv_step s c tl pools B op : kinv s c tl pools B -> kop_allowed op s = true ->
  exists s' c' tl' pools' B', run_kop op s = Some s' /\ kinv s' c' tl' pools' B'.
Proof.
  destruct s as [h live]. intros I Hal. destruct op as [size|i|ptr|i off v].
  - destruct (kinv_malloc h live c tl pools B size I Hal) as (p & h' & c' & tl' & pools' & B' & E & I' & _).
    cbn [run_kop]. rewrite E. by eexists _, c', tl', pools', B'.
  - cbn in Hal. apply Nat.ltb_lt in Hal. destruct (lookup_lt_is_Some_2 live i Hal) as [k Hk].
    destruct (kinv_free h live c tl pools B i k I Hk) as (h' & c' & tl' & B' & E & I' & _).
    cbn [run_kop]. rewrite Hk, E. by eexists _, c', tl', pools, B'.
  - destruct (kinv_bad h live c tl pools B ptr I Hal) as (h' & E & I' & _).
    cbn [run_kop]. rewrite E. by eexists _, c, tl, pools, B.
  - by eapply kinv_store.
Qed.

(** * Initialisation *)

Lemma kinv_init m mem h c :
  pmm_wf (m_pmm m) -> direct_map_ok m -> heap_init (heap_zero m mem) = Some h -> g_heap h = Some c ->
  exists tl pools B, kinv (mkKstate h []) c tl pools B.
Proof.
  intros W D E Hc. unfold heap_init, alloc_pages, heap_zero, HEAP_INIT_PAGES in E. cbn [h_machine] in E.
  destruct (pmm_alloc_pages (m_pmm m) 256) as [phys p'] eqn:Ea.
  destruct (pmm_alloc_pages_cases _ 256 phys p' W ltac:(lia) Ea) as [(s & -> & A)|(-> & _)].
  2: { cbn in E. injection E as <-. done. }
  destruct (al_range _ _ _ _ A) as (R1 & _ & R3). destruct (taken_frames m p' 256 s W ltac:(lia) A) as [Hnew _].
  set (m' := m <| m_pmm := p' |>) in *. set (a := g_hhdm_offset m + s * 4096) in *.
  assert (direct_map_ok m') as D' by (unfold direct_map_ok, m'; cbn; by rewrite (al_total _ _ _ _ A)).
  rewrite (proj2 (Z.eqb_neq (s * 4096) 0)) in E by lia. cbn in E.
  rewrite direct_map_virt in E by (done || (pose proof (al_total _ _ _ _ A); unfold m'; cbn in *; lia)).
  change (g_hhdm_offset m' + s * 4096) with a in E. change (256 * 4096) with 1048576 in *.
  assert (0 < a) as Ha by (unfold a; destruct D; lia).
  destruct (tlsf_create a 1048576 mem) as [[t mem']|] eqn:Et; [|done]. injection E as <-. fields. cbn in Hc. subst t.
  assert (treach (mkTstate c mem' [] [(a + CONTROL_SIZE, 1048576 - CONTROL_SIZE)])) as Hr.
  { apply (treach_create a 1048576 mem); [done|by apply direct_map_aligned|done|unfold CONTROL_SIZE, POOL_MAX; lia|done]. }
  destruct (treach_inv _ Hr) as [B I]. exists [], [(a + CONTROL_SIZE, 1048576 - CONTROL_SIZE)], B.
  split; cbn; [|done|done|done]. split; cbn; [done|done|by apply (pmm_allocated_wf _ 256 s p' W ltac:(lia))|done|..].
  - intros x (q & ->%list_elem_of_singleton & Hx). cbn in Hx. unfold CONTROL_SIZE in Hx. apply Hnew. lia.
  - intros q ->%list_elem_of_singleton. cbn. unfold CONTROL_SIZE. lia.
Qed.

Lemma kreach_inv s : kreach s -> exists c tl pools B, kinv s c tl pools B.
Proof.
  induction 1 as [m mem h c W D E Hc|s op s' _ (c & tl & pools & B & I) Hal E].
  - exists c. by eapply kinv_init.
  - destruct (kinv_step s c tl pools B op I Hal) as (s1 & c' & tl' & pools' & B' & E1 & I').
    rewrite E in E1. injection E1 as <-. by exists c', tl', pools', B'.
Qed.

(** * The guarantee *)

(** What the kernel relies on. *)
Record kheap_safe (s : kstate) : Prop := {
  ks_block i k : ks_live s !! i = Some k ->
    kb_ptr k mod 8 = 0 /\ 0 < kb_size k
    /\ (forall a, kb_ptr k <= a < kb_ptr k + kb_size k -> frame_taken (h_machine (ks_heap s)) a);
  ks_disjoint i j k k' : ks_live s !! i = Some k -> ks_live s !! j = Some k' -> i <> j ->
    kb_ptr k + kb_size k <= kb_ptr k' \/ kb_ptr k' + kb_size k' <= kb_ptr k;
  ks_contents i k off v : ks_live s !! i = Some k -> kb_vals k !! off = Some v ->
    ld (h_mem (ks_heap s)) (kb_ptr k + 8 * off) = v;
  ks_counter : g_allocated_bytes (ks_heap s) = sum_of kb_size (ks_live s);
  ks_peak : g_allocated_bytes (ks_heap s) <= g_peak_allocated_bytes (ks_heap s);
}.

Lemma kinv_safe s c tl pools B : kinv s c tl pools B -> kheap_safe s.
Proof.
  intros [K Hs Hsum Hpk]. destruct (tinv_safe _ _ (kc_tinv _ _ _ _ _ K)) as [Sb Sd Sc]. cbn in Sb, Sd, Sc.
  assert (forall i k, ks_live s !! i = Some k -> exists l, tl !! i = Some l /\ shows k l) as Hl
    by (intros i k Hi; by apply (Forall2_lookup_l _ _ _ _ _ Hs Hi)).
  split; [| | |done|done].
  - intros i k Hi. destruct (Hl i k Hi) as (l & Hli & [P1 P2 P3 _ _ _]). destruct (Sb i l Hli) as (_ & Q2 & _ & Q4).
    split; [|split; [done|]].
    + replace (kb_ptr k) with (lb_ptr l + 2 * 8) by lia. by rewrite Z.mod_add.
    + intros a Ha. apply (kc_pools _ _ _ _ _ K), Q4. lia.
  - intros i j k k' Hi Hj Hne. destruct (Hl i k Hi) as (l & Hli & [P1 P2 _ _ _ _]).
    destruct (Hl j k' Hj) as (l' & Hlj & [P1' P2' _ _ _ _]). destruct (Sd i j l l' Hli Hlj Hne); lia.
  - intros i k off v Hi Hv. destruct (Hl i k Hi) as (l & Hli & [P1 _ _ _ _ P6]). destruct (P6 off v Hv) as (_ & _ & Hlv).
    rewrite <- (Sc i l (off + 2) v Hli Hlv). f_equal. lia.
Qed.

(** C20: the kernel heap is safe over every run of allowed calls.  After any sequence of [kmalloc],
    [kfree], rejected frees and stores by the owners of blocks, starting from [heap_init] on a
    well-formed frame allocator, live blocks are aligned, disjoint and lie in frames that the frame
    allocator counts as used, so no frame is shared with another owner; they hold what was stored; the
    counter of allocated bytes is exactly the sum of the live blocks' sizes and the peak is at least
    as large.  Every allowed call returns, within the bounds of the allocator's tables, to such a
    state.  Allowed ([kop_allowed]) are the requests of at most 31 MiB, header included, that do not
    meet, in the heap or after its growth, a free block of exactly their adjusted size: for the
    others the allocator leaves its tables ([TlsfProps.tlsf_exact_fit],
    [TlsfProps.tlsf_large_request]). *)
Theorem kheap_run_safe s op :
  kreach s -> kop_allowed op s = true ->
  kheap_safe s /\ exists s', run_kop op s = Some s' /\ kreach s' /\ kheap_safe s'.
Proof.
  intros Hr Hal. destruct (kreach_inv s Hr) as (c & tl & pools & B & I). split; [by eapply kinv_safe|].
  destruct (kinv_step s c tl pools B op I Hal) as (s' & c' & tl' & pools' & B' & E & I'). exists s'. split; [done|].
  split; [by eapply kreach_step|by eapply kinv_safe].
Qed.

Lemma rounded_small r : 16 <= r < 131072 -> rounded r <= r + 4095.
Proof.
  intros Hr. unfold rounded. pose proof (Z.log2_lt_pow2 r 17 ltac:(lia)) as [Hl _].
  pose proof (Z.pow_le_mono_r 2 (Z.log2 r - 4) 12 ltac:(lia)) as Hp. change (2 ^ 12) with 4096 in Hp.
  change (2 ^ 17) with 131072 in Hl. specialize (Hl ltac:(lia)). specialize (Hp ltac:(lia)). lia.
Qed.

(** C23: the heap grows for small requests.  In every state reached by allowed calls
    ([kheap_run_safe]) an allowed request of 1 to 126936 bytes (one that meets no free block of
    exactly its adjusted size, before or after the growth) is served as long as the frame allocator
    has a run of 32 free frames at or above its search hint. *)
Theorem kmalloc_grows h live size s :
  kreach (mkKstate h live) -> kop_allowed (KMalloc size) (mkKstate h live) = true -> 0 < size <= 126936 ->
  let p := m_pmm (h_machine h) in
  pmm_first_usable p <= s -> s + HEAP_GROW_PAGES <= pmm_total_frames p -> free_run p s HEAP_GROW_PAGES ->
  exists ptr h', kmalloc size h = Some (ptr, h') /\ ptr <> NULL.
Proof.
  intros Hr Hal Hs p H1 H2 H3. destruct (kreach_inv _ Hr) as (c & tl & pools & B & I).
  destruct (kinv_malloc h live c tl pools B size I Hal) as (ptr & h' & c' & tl' & pools' & B' & E & _ & Hn).
  exists ptr, h'. split; [done|]. intros ->.
  assert (grow_pages (size + 16) = 32) as Eg.
  { unfold grow_pages, HEAP_GROW_PAGES. rewrite u64_id by (unfold is_u64; lia).
    pose proof (Z.div_lt_upper_bound (size + 16 + 4095) 4096 32 ltac:(lia) ltac:(lia)).
    by rewrite (proj2 (Z.ltb_lt _ _)). }
  rewrite Eg in Hn. destruct (Hn eq_refl ltac:(lia)) as [(a & Hnf)|Hnone]; [|by apply (Hnone s)].
  unfold no_fit, new_pool in Hnf. specialize (Hnf a (mkBlk (32 * 4096 - 24) true false false a)).
  rewrite lookup_insert_ne, lookup_insert_eq in Hnf by lia. specialize (Hnf eq_refl eq_refl). cbn in Hnf.
  rewrite adjust_size_eq in Hnf by (unfold REQ_MAX; lia).
  pose proof (Z.mul_div_le (size + 16 + 7) 8 ltac:(lia)) as Hu.
  set (r := Z.max 24 ((size + 16 + 7) / 8 * 8)) in Hnf. assert (24 <= r <= 126959) as Hr2 by (unfold r; lia).
  assert (r <= 126952) as Hr3.
  { unfold r. pose proof (Z.div_lt_upper_bound (size + 16 + 7) 8 15870 ltac:(lia) ltac:(lia)). lia. }
  pose proof (rounded_small r ltac:(lia)). lia.
Qed.

(** * A concrete heap

    1024 frames, of which 1 MiB to 4 MiB is usable RAM after a kernel of four frames. *)

Definition heap_boot : boot_view :=
  mkBoot (Some (mkBootInfo TSUKASA_BOOT_INFO_MAGIC 0 1
                 (Some (fun _ => mkMemmap 0x100000 0x300000 TSUKASA_BOOT_MEM_USABLE)) 0 None)) None.
Definition heap_pmm_init : Z * pmm := pmm_init 1024 0x100000 0x104000 heap_boot pmm_zero.
Definition heap_pmm : pmm := heap_pmm_init.2.
Definition heap_machine : machine := mkMachine heap_pmm ∅ 0 0xFFFF800000000000 [].
Definition heap_start : option kheap := heap_init (heap_zero heap_machine ∅).
Definition heap_h : kheap := default (heap_zero heap_machine ∅) heap_start.

Lemma heap_boot_typed : boot_view_typed heap_boot.
Proof.
  split; intros; simpl in *; simplify_eq/=; unfold is_u64; try lia; split; unfold is_u32; lia.
Qed.

Lemma heap_pmm_init_eq : pmm_init 1024 0x100000 0x104000 heap_boot pmm_zero = (0, heap_pmm).
Proof.
  unfold heap_pmm, heap_pmm_init. destruct (pmm_init 1024 0x100000 0x104000 heap_boot pmm_zero) eqn:E.
  f_equal. apply (f_equal fst) in E. vm_compute in E. by symmetry.
Qed.

Lemma heap_pmm_wf : pmm_wf heap_pmm.
Proof.
  assert (0 < 1024 <= 0x10000000000 /\ is_u64 0x100000 /\ is_u64 0x104000) as (H1 & H2 & H3) by (unfold is_u64; lia).
  by destruct (pmm_init_ok 1024 0x100000 0x104000 heap_boot H1 H2 H3 heap_boot_typed pmm_zero heap_pmm heap_pmm_init_eq).
Qed.

Lemma heap_h_reach : kreach (mkKstate heap_h []).
Proof.
  destruct (g_heap heap_h) as [c|] eqn:E; [|vm_compute in E; discriminate E].
  apply (kreach_init heap_machine ∅ heap_h c); [exact heap_pmm_wf| |vm_compute; reflexivity|exact E].
  unfold direct_map_ok. vm_compute. split; [discriminate|]. by split.
Qed.

Lemma kheap_run_safe_witness :
  kheap_safe (mkKstate heap_h [])
  /\ exists s', run_kop (KMalloc 100) (mkKstate heap_h []) = Some s' /\ kreach s' /\ kheap_safe s'.
Proof. apply kheap_run_safe; [apply heap_h_reach|vm_compute; reflexivity]. Defined.

Lemma kmalloc_grows_witness : exists ptr h', kmalloc 126936 heap_h = Some (ptr, h') /\ ptr <> NULL.
Proof.
  apply (kmalloc_grows heap_h [] 126936 600); [apply heap_h_reach|vm_compute; reflexivity|lia|..].
  - vm_compute. discriminate.
  - vm_compute. discriminate.
  - intros i Hi. unfold HEAP_GROW_PAGES in Hi.
    assert (forallb (fun k => bitmap_get (m_pmm (h_machine heap_h)) (600 + k)) (seqZ 0 32) = true) as H by (vm_compute; reflexivity).
    rewrite forallb_forall in H. apply H. apply list_elem_of_In, elem_of_seqZ. lia.
Defined.

(** Finding: the heap cannot serve a larger request by growing.  The new pool has the pages of the
    request, less the headers, while the search asks for the next bucket up: the retry fails and the
    frames are gone.  A request of 1 MiB takes 257 frames and returns NULL. *)
Lemma kmalloc_large_growth_wasted :
  match kmalloc 0x100000 heap_h with
  | Some (p, h') => p = NULL /\ pmm_free_frames (m_pmm (h_machine heap_h)) = 508
                    /\ pmm_free_frames (m_pmm (h_machine h')) = 251
  | None => False
  end.
Proof. vm_compute. by split. Qed.
