(* ===== verification/Fat12.v ===== *)
(** The FAT12 driver, [src/fs/fat12.c]: a disk image in memory, root directory only, 8.3 names.

    The image is a map from byte offsets to bytes.  The cached values of the boot sector are a
    record that only [fat12_init] writes; the other functions take it and the image and return the
    new image.  [None] is a read outside the image or a loop that does not end.  Paths and buffers
    are never NULL: [fs/vfs.c] passes its own arrays. *)

From S2P Require Import Prelude CString.

Abbreviation disk := (gmap Z Z).
Definition dbyte (d : disk) (a : Z) : Z := default 0 (d !! a).
Definition dput (a v : Z) (d : disk) : disk := <[a := v]> d.
Definition dbytes (d : disk) (a n : Z) : list Z := map (dbyte d) (seqZ a n).

(** ** Little-endian accessors *)

Definition u16le (d : disk) (p : Z) : Z := Z.lor (dbyte d p) (Z.shiftl (dbyte d (p + 1)) 8).
Definition u32le (d : disk) (p : Z) : Z :=
  Z.lor (Z.lor (Z.lor (dbyte d p) (Z.shiftl (dbyte d (p + 1)) 8)) (Z.shiftl (dbyte d (p + 2)) 16))
        (Z.shiftl (dbyte d (p + 3)) 24).
Definition w16le (p v : Z) (d : disk) : disk :=
  dput (p + 1) (u8 (Z.shiftr v 8)) (dput p (Z.land v 0xFF) d).
Definition w32le (p v : Z) (d : disk) : disk :=
  dput (p + 3) (u8 (Z.shiftr v 24)) (dput (p + 2) (u8 (Z.shiftr v 16)) (dput (p + 1) (u8 (Z.shiftr v 8)) (dput p (u8 v) d))).

(** ** Driver state *)

Record fat12 := mkFat12 {
  g_present : bool;            (* g_disk != NULL *)
  g_size : Z;
  g_bytes_per_sec : Z;
  g_secs_per_clus : Z;
  g_reserved_secs : Z;
  g_num_fats : Z;
  g_root_entry_cnt : Z;
  g_fat_sz16 : Z;
  g_fat_offset : Z;
  g_root_dir_offset : Z;
  g_data_offset : Z;
  g_total_clusters : Z;
}.
#[export] Instance fat12_rebuild : Rebuild fat12 := fun f =>
  mkFat12 (g_present f) (g_size f) (g_bytes_per_sec f) (g_secs_per_clus f) (g_reserved_secs f) (g_num_fats f)
    (g_root_entry_cnt f) (g_fat_sz16 f) (g_fat_offset f) (g_root_dir_offset f) (g_data_offset f) (g_total_clusters f).

Definition fat12_zero : fat12 := mkFat12 false 0 0 0 0 0 0 0 0 0 0 0.

Definition DIR_ENTRY_SIZE : Z := 32.
Definition FAT_ATTR_VOLUME_ID : Z := 0x08.
Definition FAT_ATTR_DIRECTORY : Z := 0x10.
Definition FAT_ATTR_ARCHIVE : Z := 0x20.

(** ** Cluster chains *)

Definition fat12_get_next_cluster (f : fat12) (d : disk) (clus : Z) : Z :=
  if negb (g_present f) || (clus <? 2) then 0xFFF else
  let fat_byte := u32 (g_fat_offset f + clus * 3 / 2) in
  if g_size f <=? u32 (fat_byte + 1) then 0xFFF else
  let val := Z.lor (dbyte d fat_byte) (Z.shiftl (dbyte d (fat_byte + 1)) 8) in
  if Z.odd clus then Z.shiftr val 4 else Z.land val 0x0FFF.

(** One copy of the table. *)
Definition set_in_fat (f : fat12) (clus val fi : Z) (d : disk) : disk :=
  let foff := u32 (g_fat_offset f + u32 (u32 (fi * g_fat_sz16 f) * g_bytes_per_sec f)) in
  let byte := u32 (foff + clus * 3 / 2) in
  if g_size f <=? u32 (byte + 1) then d else
  if Z.odd clus then
    dput (byte + 1) (u8 (Z.shiftr val 4))
      (dput byte (u8 (Z.lor (Z.land (dbyte d byte) 0x0F) (Z.shiftl (Z.land val 0x0F) 4))) d)
  else
    let d := dput byte (u8 (Z.land val 0xFF)) d in
    dput (byte + 1) (u8 (Z.lor (Z.land (dbyte d (byte + 1)) 0xF0) (Z.land (Z.shiftr val 8) 0x0F))) d.

Definition fat12_set_cluster (f : fat12) (clus val : Z) (d : disk) : disk :=
  if negb (g_present f) || (clus <? 2) then d else
  for_up (Z.to_nat (g_num_fats f)) 0 (set_in_fat f clus val) d.

(** [c] is 16 bits wide, so after 65536 steps the loop repeats itself. *)
Fixpoint alloc_loop (fuel : nat) (f : fat12) (d : disk) (c : Z) : option Z :=
  match fuel with
  | O => None
  | S fuel' =>
      if c <? u32 (g_total_clusters f + 2) then
        if fat12_get_next_cluster f d c =? 0 then Some c else alloc_loop fuel' f d ((c + 1) mod 0x10000)
      else Some 0
  end.

Definition ALLOC_FUEL : Z := 65537.

Definition fat12_alloc_cluster (f : fat12) (d : disk) : option (Z * disk) :=
  match alloc_loop (Z.to_nat ALLOC_FUEL) f d 2 with
  | None => None
  | Some c => Some (c, if c =? 0 then d else fat12_set_cluster f c 0xFFF d)
  end.

Definition cluster_bytes (f : fat12) : Z := u32 (g_secs_per_clus f * g_bytes_per_sec f).

Definition cluster_to_offset (f : fat12) (clus : Z) : Z :=
  if clus <? 2 then g_data_offset f
  else u32 (g_data_offset f + u32 (u32 ((clus - 2) * g_secs_per_clus f) * g_bytes_per_sec f)).

(** ** 8.3 names *)

Definition ch_space : Z := 32.

(** The bytes before the first [stop]. *)
Fixpoint before (stop : Z) (l : list Z) : list Z :=
  match l with
  | c :: l' => if c =? stop then [] else c :: before stop l'
  | [] => []
  end.

(** The string in [out]: it ends at the first NUL. *)
Definition fat83_to_str (raw : list Z) : cstr :=
  let base := before ch_space (take 8 raw) in
  let ext := if negb (aget raw 8 =? ch_space) then ch_dot :: before ch_space (take 3 (drop 8 raw)) else [] in
  before 0 (base ++ ext).

Definition upcase (c : Z) : Z := if (97 <=? c) && (c <=? 122) then c - 32 else c.

(** A copying loop of [str_to_fat83]: at most [n] characters, the first one ending at a dot. *)
Fixpoint copy83 (n : nat) (dot : bool) (name : cstr) : list Z * cstr :=
  match n, name with
  | S n', c :: rest =>
      if dot && (c =? ch_dot) then ([], name) else
      let '(o, r) := copy83 n' dot rest in (upcase c :: o, r)
  | _, _ => ([], name)
  end.

Definition pad (n : nat) (l : list Z) : list Z := l ++ repeat ch_space (n - length l).

Definition str_to_fat83 (name : cstr) : list Z :=
  let '(base, rest) := copy83 8 true name in
  let ext := match rest with
             | c :: rest' => if c =? ch_dot then (copy83 3 false rest').1 else []
             | [] => []
             end in
  pad 8 base ++ pad 3 ext.

(** [raw] is the address of a directory entry. *)
Definition fat83_match (d : disk) (raw : Z) (name : cstr) : bool :=
  bool_decide (dbytes d raw 11 = str_to_fat83 name).

(** ** Initialisation *)

Definition fat12_init (disk : option disk) (size : Z) (f : fat12) : Z * fat12 :=
  match disk with
  | None => (-1, f)
  | Some d =>
      if size <? 512 then (-1, f) else
      if negb (dbyte d 510 =? 0x55) || negb (dbyte d 511 =? 0xAA) then (-1, f) else
      let f := f <| g_present := true |> <| g_size := size |> <| g_bytes_per_sec := u16le d 11 |>
                 <| g_secs_per_clus := dbyte d 13 |> <| g_reserved_secs := u16le d 14 |> <| g_num_fats := dbyte d 16 |>
                 <| g_root_entry_cnt := u16le d 17 |> <| g_fat_sz16 := u16le d 22 |> in
      if (g_bytes_per_sec f =? 0) || (g_secs_per_clus f =? 0) then (-1, f) else
      let f := f <| g_fat_offset := u32 (g_reserved_secs f * g_bytes_per_sec f) |> in
      let f := f <| g_root_dir_offset := u32 (g_fat_offset f + u32 (u32 (g_num_fats f * g_fat_sz16 f) * g_bytes_per_sec f)) |> in
      let root_dir_sectors := u32 (u32 (g_root_entry_cnt f * 32 + g_bytes_per_sec f) - 1) / g_bytes_per_sec f in
      let f := f <| g_data_offset := u32 (g_root_dir_offset f + u32 (root_dir_sectors * g_bytes_per_sec f)) |> in
      let total_sectors := u16le d 19 in
      let total_sectors := if total_sectors =? 0 then Z.land (u32le d 32) 0xFFFF else total_sectors in
      (0, f <| g_total_clusters := u32 (total_sectors - g_data_offset f / g_bytes_per_sec f) / g_secs_per_clus f |>)
  end.

(** ** The root directory *)

Record fat12_dirent := mkDirent { d_name : cstr; d_size : Z; d_first_cluster : Z; d_attr : Z; d_is_dir : bool }.

Definition read_dirent (d : disk) (e : Z) : fat12_dirent :=
  mkDirent (fat83_to_str (dbytes d e 11)) (u32le d (e + 28)) (u16le d (e + 26)) (dbyte d (e + 11))
    (negb (Z.land (dbyte d (e + 11)) FAT_ATTR_DIRECTORY =? 0)).

Definition root_end (f : fat12) : Z := u32 (g_root_dir_offset f + u32 (g_root_entry_cnt f * DIR_ENTRY_SIZE)).

(** [while (off < end && off + DIR_ENTRY_SIZE <= g_size)] *)
Definition in_root (f : fat12) (off : Z) : bool := (off <? root_end f) && (u32 (off + DIR_ENTRY_SIZE) <=? g_size f).

(** The loops over the directory run at most once per entry. *)
Definition root_fuel (f : fat12) : nat := Z.to_nat (g_root_entry_cnt f).

Fixpoint list_loop (fuel : nat) (f : fat12) (d : disk) (off : Z) (count max : Z) : list fat12_dirent :=
  match fuel with
  | O => []
  | S fuel' =>
      if in_root f off && (count <? max) then
        let next := u32 (off + DIR_ENTRY_SIZE) in
        let first := dbyte d off in
        if first =? 0 then [] else
        if first =? 0xE5 then list_loop fuel' f d next count max else
        let attr := dbyte d (off + 11) in
        if attr =? 0x0F then list_loop fuel' f d next count max else
        if negb (Z.land attr FAT_ATTR_VOLUME_ID =? 0) then list_loop fuel' f d next count max else
        read_dirent d off :: list_loop fuel' f d next (count + 1) max
      else []
  end.

(** The entries written to [out], or -1. *)
Definition fat12_list_dir (f : fat12) (d : disk) (path : cstr) (max : Z) : option (list fat12_dirent) :=
  if negb (g_present f) || (max <=? 0) then None else
  match path with
  | c :: _ => if c =? ch_slash then Some (list_loop (root_fuel f) f d (g_root_dir_offset f) 0 max) else None
  | [] => Some (list_loop (root_fuel f) f d (g_root_dir_offset f) 0 max)
  end.

Fixpoint find_loop (fuel : nat) (f : fat12) (d : disk) (name : cstr) (off : Z) : Z :=
  match fuel with
  | O => 0
  | S fuel' =>
      if in_root f off then
        let first := dbyte d off in
        if first =? 0 then 0 else
        if negb (first =? 0xE5) && (Z.land (dbyte d (off + 11)) FAT_ATTR_VOLUME_ID =? 0)
           && negb (dbyte d (off + 11) =? 0x0F) && fat83_match d off name
        then off else find_loop fuel' f d name (u32 (off + DIR_ENTRY_SIZE))
      else 0
  end.

Definition find_dirent (f : fat12) (d : disk) (name : cstr) : Z :=
  find_loop (root_fuel f) f d name (g_root_dir_offset f).

Fixpoint path_to_name (path : cstr) : cstr :=
  match path with
  | c :: path' => if c =? ch_slash then path_to_name path' else path
  | [] => []
  end.

Definition fat12_stat (f : fat12) (d : disk) (path : cstr) : option fat12_dirent :=
  let name := path_to_name path in
  if bool_decide (name = []) then None else
  let off := find_dirent f d name in
  if off =? 0 then None else Some (read_dirent d off).

(** ** Reading *)

(** The number of bytes to take from the cluster at [src_off]. *)
Definition read_chunk (f : fat12) (src_off done max : Z) : Z :=
  let to_copy := cluster_bytes f in
  let to_copy := if max <? done + to_copy then u32 (max - done) else to_copy in
  if g_size f <? u32 (src_off + to_copy) then u32 (g_size f - src_off) else to_copy.

Fixpoint read_loop (fuel : nat) (f : fat12) (d : disk) (clus done max : Z) : option (list Z) :=
  match fuel with
  | O => None
  | S fuel' =>
      if (2 <=? clus) && (clus <? 0xFF8) && (done <? max) then
        let src_off := cluster_to_offset f clus in
        let to_copy := read_chunk f src_off done max in
        if g_size f <? src_off + to_copy then None else
        match read_loop fuel' f d (fat12_get_next_cluster f d clus) (done + to_copy) max with
        | None => None
        | Some l => Some (dbytes d src_off to_copy ++ l)
        end
      else Some []
  end.

(** Between two rounds that copy a byte lie at most 4096 rounds that see different clusters. *)
Definition read_fuel (max : Z) : nat := Z.to_nat ((max + 1) * 4097).

(** The return value and the bytes stored to [buf]. *)
Definition fat12_read_file (f : fat12) (d : disk) (path : cstr) (max : Z) : option (Z * list Z) :=
  if negb (g_present f) then Some (-1, []) else
  let name := path_to_name path in
  if bool_decide (name = []) then Some (-1, []) else
  let doff := find_dirent f d name in
  if doff =? 0 then Some (-1, []) else
  if negb (Z.land (dbyte d (doff + 11)) FAT_ATTR_DIRECTORY =? 0) then Some (-1, []) else
  let file_size := u32le d (doff + 28) in
  let max := if file_size <? max then file_size else max in
  match read_loop (read_fuel max) f d (u16le d (doff + 26)) 0 max with
  | None => None
  | Some l => Some (i32 (zlen l), l)
  end.

(** ** Writing *)

(** The first free slot of the root directory, or 0. *)
Fixpoint free_slot (fuel : nat) (f : fat12) (d : disk) (off : Z) : Z :=
  match fuel with
  | O => 0
  | S fuel' =>
      if in_root f off then
        if (dbyte d off =? 0) || (dbyte d off =? 0xE5) then off else free_slot fuel' f d (u32 (off + DIR_ENTRY_SIZE))
      else 0
  end.

Definition put_bytes (a : Z) (l : list Z) (d : disk) : disk :=
  for_up (length l) 0 (fun i d => dput (a + i) (aget l i) d) d.

Definition new_dirent (doff : Z) (name : cstr) (d : disk) : disk :=
  let d := put_bytes doff (repeat 0 32) d in
  let d := put_bytes doff (str_to_fat83 name) d in
  dput (doff + 11) FAT_ATTR_ARCHIVE d.

(** Each round frees the cluster it leaves, so a chain that runs in a circle ends at a freed one. *)
Fixpoint free_chain (fuel : nat) (f : fat12) (d : disk) (old_clus : Z) : option disk :=
  match fuel with
  | O => None
  | S fuel' =>
      if (2 <=? old_clus) && (old_clus <? 0xFF8) then
        let next := fat12_get_next_cluster f d old_clus in
        free_chain fuel' f (fat12_set_cluster f old_clus 0 d) next
      else Some d
  end.

Definition CHAIN_FUEL : Z := 4098.

(** [for (i = 0; i < to_write && dst_off + i < g_size; i++) g_disk[dst_off + i] = src[i]] *)
Fixpoint store_cluster (f : fat12) (dst_off : Z) (src : list Z) (d : disk) : disk :=
  match src with
  | [] => d
  | b :: src' => if dst_off <? g_size f then store_cluster f (u32 (dst_off + 1)) src' (dput dst_off b d) else d
  end.

(** The first cluster, or 0 when the disk is full, and the image. *)
Fixpoint write_loop (fuel : nat) (f : fat12) (d : disk) (src : list Z) (first prev : Z) : option (bool * Z * disk) :=
  match src with
  | [] => Some (true, first, d)
  | _ =>
      match fuel with
      | O => None
      | S fuel' =>
          match fat12_alloc_cluster f d with
          | None => None
          | Some (c, d) =>
              if c =? 0 then Some (false, first, d) else
              let '(first, d) := if prev =? 0 then (c, d) else (first, fat12_set_cluster f prev c d) in
              let to_write := if zlen src <? cluster_bytes f then zlen src else cluster_bytes f in
              let d := store_cluster f (cluster_to_offset f c) (take (Z.to_nat to_write) src) d in
              write_loop fuel' f d (drop (Z.to_nat to_write) src) first c
          end
      end
  end.

(** Finding the directory entry or making one; 0 when the directory is full. *)
Definition open_dirent (f : fat12) (d : disk) (name : cstr) : Z * disk :=
  let doff := find_dirent f d name in
  if negb (doff =? 0) then (doff, d) else
  let doff := free_slot (root_fuel f) f d (g_root_dir_offset f) in
  if doff =? 0 then (0, d) else (doff, new_dirent doff name d).

Definition fat12_write_file (f : fat12) (d : disk) (path : cstr) (data : list Z) : option (Z * disk) :=
  if negb (g_present f) then Some (-1, d) else
  let name := path_to_name path in
  if bool_decide (name = []) then Some (-1, d) else
  let '(doff, d) := open_dirent f d name in
  if doff =? 0 then Some (-1, d) else
  match free_chain (Z.to_nat CHAIN_FUEL) f d (u16le d (doff + 26)) with
  | None => None
  | Some d =>
      let d := w32le (doff + 28) 0 (w16le (doff + 26) 0 d) in
      match write_loop (length data) f d data 0 0 with
      | None => None
      | Some (false, _, d) => Some (-1, d)
      | Some (true, first, d) =>
          if bool_decide (data = []) then Some (0, d) else
          Some (0, w32le (doff + 28) (u32 (zlen data)) (w16le (doff + 26) first d))
      end
  end.
