(* ===== verification/Fat12Table.v ===== *)
(** The FAT of [Fat12] as a function from cluster numbers to 12-bit values. *)

From S2P Require Import Prelude CString Fat12.

(** * Bytes *)

Definition bytes_ok (d : disk) : Prop := forall a, 0 <= dbyte d a < 256.
Definition byte (b : Z) : Prop := 0 <= b < 256.

Lemma dbyte_put a v d a' : dbyte (dput a v d) a' = if decide (a = a') then v else dbyte d a'.
Proof.
  unfold dbyte, dput. destruct (decide (a = a')) as [->|Hne]; [by rewrite lookup_insert_eq|by rewrite lookup_insert_ne].
Qed.
Lemma dbyte_put_eq a v d : dbyte (dput a v d) a = v.
Proof. rewrite dbyte_put. by rewrite decide_True. Qed.
Lemma dbyte_put_ne a v d a' : a <> a' -> dbyte (dput a v d) a' = dbyte d a'.
Proof. intros H. rewrite dbyte_put. by rewrite decide_False. Qed.

Lemma bytes_ok_put a v d : bytes_ok d -> byte v -> bytes_ok (dput a v d).
Proof. intros Hd Hv b. rewrite dbyte_put. by destruct (decide _). Qed.

Lemma byte_u8 v : byte (u8 v).
Proof. unfold byte. wsolve. Qed.

Lemma land_15 a : Z.land a 0x0F = a mod 16.
Proof. apply (land_ones_mod a 4). lia. Qed.
Lemma land_255 a : Z.land a 0xFF = a mod 256.
Proof. apply (land_ones_mod a 8). lia. Qed.
Lemma land_4095 a : Z.land a 0x0FFF = a mod 4096.
Proof. apply (land_ones_mod a 12). lia. Qed.
Lemma land_240 a : byte a -> Z.land a 0xF0 = a / 16 * 16.
Proof. intros Ha. apply (land_high_mask a 4 8); [lia|]. unfold byte in Ha. lia. Qed.

(** ** Little-endian words *)

Lemma u16le_eq d p : bytes_ok d -> u16le d p = dbyte d p + 256 * dbyte d (p + 1).
Proof.
  intros Hd. unfold u16le. pose proof (Hd p). rewrite (lor_shiftl_add _ _ 8) by lia.
  change (2 ^ 8) with 256. lia.
Qed.

Lemma u32le_eq d p : bytes_ok d ->
  u32le d p = dbyte d p + 256 * dbyte d (p + 1) + 65536 * dbyte d (p + 2) + 16777216 * dbyte d (p + 3).
Proof.
  intros Hd. unfold u32le. pose proof (Hd p). pose proof (Hd (p + 1)). pose proof (Hd (p + 2)). pose proof (Hd (p + 3)).
  rewrite (lor_shiftl_add (dbyte d p) _ 8) by lia. rewrite (lor_shiftl_add _ _ 16) by lia.
  rewrite (lor_shiftl_add _ _ 24) by lia. change (2 ^ 8) with 256. change (2 ^ 16) with 65536. change (2 ^ 24) with 16777216. lia.
Qed.

Lemma shiftr_div a n k : 0 <= n -> 2 ^ n = k -> Z.shiftr a n = a / k.
Proof. intros Hn <-. by apply Z.shiftr_div_pow2. Qed.

Lemma w16le_byte p v d a : dbyte (w16le p v d) a =
  if decide (a = p + 1) then u8 (v / 256) else if decide (a = p) then v mod 256 else dbyte d a.
Proof.
  unfold w16le. rewrite dbyte_put, land_255, (shiftr_div v 8 256) by done.
  rewrite dbyte_put. repeat case_decide; lia || done.
Qed.

Lemma w32le_byte p v d a : dbyte (w32le p v d) a =
  if decide (a = p + 3) then u8 (v / 16777216) else if decide (a = p + 2) then u8 (v / 65536)
  else if decide (a = p + 1) then u8 (v / 256) else if decide (a = p) then u8 v else dbyte d a.
Proof.
  unfold w32le. rewrite !dbyte_put, (shiftr_div v 8 256), (shiftr_div v 16 65536), (shiftr_div v 24 16777216) by done.
  repeat case_decide; lia || done.
Qed.

Lemma bytes_ok_w16le p v d : bytes_ok d -> bytes_ok (w16le p v d).
Proof.
  intros Hd a. rewrite w16le_byte. repeat case_decide; try apply byte_u8; try apply Hd; by apply Z.mod_pos_bound.
Qed.

Lemma bytes_ok_w32le p v d : bytes_ok d -> bytes_ok (w32le p v d).
Proof. intros Hd a. rewrite w32le_byte. repeat case_decide; apply byte_u8 || apply Hd. Qed.

Lemma u16le_w16le p v d : bytes_ok d -> 0 <= v < 0x10000 -> u16le (w16le p v d) p = v.
Proof.
  intros Hd Hv. rewrite u16le_eq by (by apply bytes_ok_w16le). rewrite !w16le_byte. repeat case_decide; try lia.
  unfold u8. change 0x100 with 256. rewrite (Z.mod_small (v / 256)); [pose proof (Z.div_mod v 256); lia|].
  split; [apply Z.div_pos; lia|apply Z.div_lt_upper_bound; lia].
Qed.

Lemma u32le_w32le p v d : bytes_ok d -> is_u32 v -> u32le (w32le p v d) p = v.
Proof.
  intros Hd Hv. rewrite u32le_eq by (by apply bytes_ok_w32le). rewrite !w32le_byte. repeat case_decide; try lia.
  wsolve.
Qed.

(** * The geometry of an image

    What [fat12_init] computes for a disk whose parts lie behind each other within the image. *)

Section fat.
Context (f : fat12).

(** The clusters of the disk. *)
Definition valid (c : Z) : Prop := 2 <= c < g_total_clusters f + 2.
Definition fat_bytes : Z := g_fat_sz16 f * g_bytes_per_sec f.
Definition cb : Z := g_secs_per_clus f * g_bytes_per_sec f.
Definition coff (c : Z) : Z := g_data_offset f + (c - 2) * cb.

Record geom_ok : Prop := {
  ge_present : g_present f = true;
  ge_size : g_size f < 0x80000000;
  ge_secs : 0 < g_secs_per_clus f /\ 0 < g_bytes_per_sec f;
  ge_fats : 0 < g_num_fats f /\ 0 < g_fat_offset f /\ 0 <= g_fat_sz16 f;
  ge_fat : (g_total_clusters f + 2) * 3 / 2 + 1 <= fat_bytes;
  ge_root : g_root_dir_offset f = g_fat_offset f + g_num_fats f * fat_bytes;
  ge_entries : 0 <= g_root_entry_cnt f /\ g_root_dir_offset f + g_root_entry_cnt f * 32 <= g_data_offset f;
  ge_data : g_data_offset f + g_total_clusters f * cb <= g_size f;
  ge_total : 0 <= g_total_clusters f <= 0xFF0;
}.
Context (G : geom_ok).

Lemma valid_fat_byte c : valid c -> 3 <= c * 3 / 2 /\ c * 3 / 2 + 2 <= fat_bytes.
Proof.
  unfold valid. intros Hc. pose proof (ge_fat G). split; [apply Z.div_le_lower_bound; lia|].
  pose proof (Z.div_mod (c * 3) 2 ltac:(lia)). pose proof (Z.div_mod ((g_total_clusters f + 2) * 3) 2 ltac:(lia)).
  pose proof (Z.mod_pos_bound (c * 3) 2). pose proof (Z.mod_pos_bound ((g_total_clusters f + 2) * 3) 2). lia.
Qed.

Lemma fat_bytes_pos : 0 < fat_bytes.
Proof.
  pose proof (ge_fat G). pose proof (ge_total G). pose proof (Z.div_pos ((g_total_clusters f + 2) * 3) 2). lia.
Qed.

(** * Reading and writing an entry *)

(** Where the entry of a cluster begins in the first copy. *)
Definition epos (c : Z) : Z := g_fat_offset f + c * 3 / 2.

Lemma fats_below_root n : 0 <= n < g_num_fats f ->
  g_fat_offset f + n * fat_bytes + fat_bytes <= g_root_dir_offset f /\ 0 <= n * fat_bytes.
Proof. intros Hn. pose proof fat_bytes_pos. rewrite (ge_root G). nia. Qed.

Lemma root_pos : 0 < g_root_dir_offset f.
Proof. pose proof (fats_below_root 0). pose proof (ge_fats G). pose proof fat_bytes_pos. lia. Qed.

Lemma root_small : g_root_dir_offset f <= g_data_offset f /\ g_data_offset f <= g_size f /\ g_size f < 0x80000000.
Proof.
  pose proof (ge_entries G). pose proof (ge_data G). pose proof (ge_total G). pose proof (ge_secs G). pose proof (ge_size G).
  assert (0 <= g_total_clusters f * cb) by (unfold cb; nia). lia.
Qed.

Lemma epos_range c : valid c ->
  g_fat_offset f + 3 <= epos c /\ epos c + 2 <= g_fat_offset f + fat_bytes /\ epos c + 2 <= g_root_dir_offset f.
Proof.
  intros Hc. pose proof (valid_fat_byte c Hc). pose proof (fats_below_root 0). pose proof (ge_fats G). unfold epos. lia.
Qed.

Lemma get_eq d c : valid c -> bytes_ok d ->
  fat12_get_next_cluster f d c =
    if Z.odd c then dbyte d (epos c) / 16 + 16 * dbyte d (epos c + 1)
    else dbyte d (epos c) + 256 * (dbyte d (epos c + 1) mod 16).
Proof.
  intros Hc Hd. pose proof (epos_range c Hc) as E. pose proof root_small. pose proof (ge_fats G). unfold valid in Hc.
  unfold fat12_get_next_cluster. rewrite (ge_present G), (proj2 (Z.ltb_ge c 2)) by lia. cbn [negb orb].
  fold (epos c). rewrite (u32_id (epos c)) by (unfold is_u32; lia).
  rewrite (u32_id (epos c + 1)) by (unfold is_u32; lia).
  rewrite (proj2 (Z.leb_gt _ _)) by lia. pose proof (Hd (epos c)) as B0. pose proof (Hd (epos c + 1)) as B1.
  rewrite (lor_shiftl_add _ _ 8) by lia. change (2 ^ 8) with 256. destruct (Z.odd c).
  - rewrite (shiftr_div _ 4 16) by done. replace (_ * 256) with (16 * dbyte d (epos c + 1) * 16) by lia.
    by rewrite Z.div_add.
  - rewrite land_4095. pose proof (Z.div_mod (dbyte d (epos c + 1)) 16 ltac:(lia)) as Hm.
    pose proof (Z.mod_pos_bound (dbyte d (epos c + 1)) 16 ltac:(lia)).
    replace (dbyte d (epos c) + _ * 256) with (dbyte d (epos c) + 256 * (dbyte d (epos c + 1) mod 16) + dbyte d (epos c + 1) / 16 * 4096) by lia.
    rewrite Z.mod_add by lia. apply Z.mod_small. lia.
Qed.

(** What a write puts at the two bytes of the entry. *)
Definition put_entry (e : Z) (odd : bool) (v : Z) (d : disk) (a : Z) : Z :=
  if decide (a = e) then if odd then dbyte d a mod 16 + 16 * (v mod 16) else v mod 256
  else if decide (a = e + 1) then if odd then v / 16 else dbyte d a / 16 * 16 + v / 256
  else dbyte d a.

Lemma set_in_fat_byte d c v n a : valid c -> bytes_ok d -> 0 <= v < 4096 -> 0 <= n < g_num_fats f ->
  dbyte (set_in_fat f c v n d) a = put_entry (epos c + n * fat_bytes) (Z.odd c) v d a.
Proof.
  intros Hc Hd Hv Hn. pose proof (epos_range c Hc) as E. pose proof root_small. pose proof (ge_fats G). unfold valid in Hc.
  pose proof (fats_below_root n Hn) as F. pose proof (valid_fat_byte c Hc).
  assert (0 <= n * g_fat_sz16 f <= n * fat_bytes) as Hs by (unfold fat_bytes; pose proof (ge_secs G); nia).
  unfold set_in_fat. rewrite (u32_id (n * g_fat_sz16 f)) by (unfold is_u32; lia).
  replace (n * g_fat_sz16 f * g_bytes_per_sec f) with (n * fat_bytes) by (unfold fat_bytes; lia).
  rewrite (u32_id (n * fat_bytes)) by (unfold is_u32; lia).
  rewrite (u32_id (g_fat_offset f + n * fat_bytes)) by (unfold is_u32; lia).
  rewrite (u32_id (g_fat_offset f + n * fat_bytes + c * 3 / 2)) by (unfold is_u32; lia).
  replace (g_fat_offset f + n * fat_bytes + c * 3 / 2) with (epos c + n * fat_bytes) by (unfold epos; lia).
  set (e := epos c + n * fat_bytes) in *.
  assert (0 < e /\ e + 2 <= g_root_dir_offset f) as He by (unfold e, epos; lia).
  rewrite (u32_id (e + 1)) by (unfold is_u32; lia). rewrite (proj2 (Z.leb_gt _ _)) by lia.
  pose proof (Hd e) as B0. pose proof (Hd (e + 1)) as B1. pose proof (Z.mod_pos_bound v 16 ltac:(lia)).
  pose proof (Z.mod_pos_bound (dbyte d e) 16 ltac:(lia)).
  assert (0 <= v / 16 < 256) by (split; [apply Z.div_pos; lia|apply Z.div_lt_upper_bound; lia]).
  assert (0 <= v / 256 < 16) by (split; [apply Z.div_pos; lia|apply Z.div_lt_upper_bound; lia]).
  unfold put_entry. destruct (Z.odd c); rewrite !dbyte_put.
  - rewrite land_15, land_15, (lor_shiftl_add _ _ 4) by lia. rewrite (shiftr_div v 4 16) by done.
    change (2 ^ 4) with 16. unfold u8. rewrite !Z.mod_small by lia. repeat case_decide; subst; lia.
  - rewrite (decide_False (P := e = e + 1)) by lia. rewrite land_240, land_15, land_255 by apply Hd.
    rewrite (shiftr_div v 8 256) by done. rewrite (Z.mod_small (v / 256) 16) by lia.
    assert (Z.lor (dbyte d (e + 1) / 16 * 16) (v / 256) = dbyte d (e + 1) / 16 * 16 + v / 256) as ->.
    { rewrite Z.lor_comm. change 16 with (2 ^ 4). rewrite <- (Z.shiftl_mul_pow2 _ 4) by lia.
      rewrite (lor_shiftl_add _ _ 4) by (change (2 ^ 4) with 16; lia). rewrite Z.shiftl_mul_pow2 by lia. lia. }
    pose proof (Z.div_mod (dbyte d (e + 1)) 16 ltac:(lia)). pose proof (Z.mod_pos_bound (dbyte d (e + 1)) 16 ltac:(lia)).
    pose proof (Z.mod_pos_bound v 256 ltac:(lia)). assert (dbyte d (e + 1) / 16 < 16) by (apply Z.div_lt_upper_bound; lia).
    unfold u8. rewrite !Z.mod_small by lia. repeat case_decide; subst; lia.
Qed.

Lemma put_entry_byte e odd v d a : bytes_ok d -> 0 <= v < 4096 -> byte (put_entry e odd v d a).
Proof.
  intros Hd Hv. pose proof (Hd a). pose proof (Z.mod_pos_bound (dbyte d a) 16 ltac:(lia)). pose proof (Z.mod_pos_bound v 16 ltac:(lia)).
  pose proof (Z.mod_pos_bound v 256 ltac:(lia)).
  assert (0 <= v / 16 < 256) by (split; [apply Z.div_pos; lia|apply Z.div_lt_upper_bound; lia]).
  assert (0 <= v / 256 < 16) by (split; [apply Z.div_pos; lia|apply Z.div_lt_upper_bound; lia]).
  assert (0 <= dbyte d a / 16 < 16) by (split; [apply Z.div_pos; lia|apply Z.div_lt_upper_bound; lia]).
  unfold put_entry, byte. destruct odd; repeat case_decide; lia.
Qed.

(** The whole of [fat12_set_cluster]: the entry in the first copy, other copies, nothing else. *)
Lemma set_cluster_byte d c v : valid c -> bytes_ok d -> 0 <= v < 4096 ->
  let d' := fat12_set_cluster f c v d in
  bytes_ok d' /\ (forall a, a < g_fat_offset f + fat_bytes -> dbyte d' a = put_entry (epos c) (Z.odd c) v d a)
  /\ (forall a, a < g_fat_offset f \/ g_root_dir_offset f <= a -> dbyte d' a = dbyte d a).
Proof.
  intros Hc Hd Hv. pose proof (epos_range c Hc) as E. pose proof (ge_fats G) as (Hn & _). unfold valid in Hc.
  unfold fat12_set_cluster. rewrite (ge_present G), (proj2 (Z.ltb_ge c 2)) by lia. cbn [negb orb].
  assert (exists k, Z.to_nat (g_num_fats f) = S k /\ Z.of_nat (S k) = g_num_fats f) as (k & -> & Hk)
    by (exists (Z.to_nat (g_num_fats f) - 1)%nat; lia).
  cbn [for_up]. change (0 + 1) with 1. set (d1 := set_in_fat f c v 0 d).
  assert (forall a, dbyte d1 a = put_entry (epos c) (Z.odd c) v d a) as H1.
  { intros a. unfold d1. rewrite set_in_fat_byte by (done || lia). by rewrite Z.mul_0_l, Z.add_0_r. }
  assert (bytes_ok d1) as Hd1 by (intros a; rewrite H1; by apply put_entry_byte).
  assert (forall a, a < g_fat_offset f \/ g_root_dir_offset f <= a -> dbyte d1 a = dbyte d a) as Ho.
  { intros a Ha. rewrite H1. unfold put_entry. repeat case_decide; lia || done. }
  clearbody d1. apply (for_up_preserves (fun d' => bytes_ok d'
    /\ (forall a, a < g_fat_offset f + fat_bytes -> dbyte d' a = put_entry (epos c) (Z.odd c) v d a)
    /\ (forall a, a < g_fat_offset f \/ g_root_dir_offset f <= a -> dbyte d' a = dbyte d a))); [by auto|].
  intros n d2 Hr (A1 & A2 & A3). pose proof (fats_below_root n ltac:(lia)) as F.
  assert (g_fat_offset f + fat_bytes <= epos c + n * fat_bytes) by (pose proof fat_bytes_pos; nia).
  assert (forall a, dbyte (set_in_fat f c v n d2) a = put_entry (epos c + n * fat_bytes) (Z.odd c) v d2 a) as H2
    by (intros a; apply set_in_fat_byte; done || lia).
  split; [intros a; rewrite H2; by apply put_entry_byte|]. split; intros a Ha; rewrite H2; unfold put_entry.
  - rewrite !decide_False by lia. by apply A2.
  - rewrite !decide_False by lia. by apply A3.
Qed.

Lemma set_cluster_bytes_ok d c v : valid c -> bytes_ok d -> 0 <= v < 4096 -> bytes_ok (fat12_set_cluster f c v d).
Proof. intros Hc Hd Hv. by apply set_cluster_byte. Qed.

Lemma set_cluster_frame d c v a : valid c -> bytes_ok d -> 0 <= v < 4096 -> g_root_dir_offset f <= a ->
  dbyte (fat12_set_cluster f c v d) a = dbyte d a.
Proof. intros Hc Hd Hv Ha. apply set_cluster_byte; auto. Qed.

Lemma odd_half c : c * 3 / 2 = c / 2 * 3 + (if Z.odd c then 1 else 0) /\ c = 2 * (c / 2) + (if Z.odd c then 1 else 0).
Proof.
  pose proof (Z.div_mod c 2 ltac:(lia)) as Hd. rewrite Zmod_odd in Hd. split; [|lia].
  rewrite Hd at 1. destruct (Z.odd c).
  - replace ((2 * (c / 2) + 1) * 3) with (1 + (c / 2 * 3 + 1) * 2) by lia. rewrite Z.div_add by lia. done.
  - replace ((2 * (c / 2) + 0) * 3) with (0 + (c / 2 * 3 + 0) * 2) by lia. rewrite Z.div_add by lia. done.
Qed.

(** Entries share bytes but not bits. *)
Lemma get_set d c c' v : valid c -> valid c' -> bytes_ok d -> 0 <= v < 4096 ->
  fat12_get_next_cluster f (fat12_set_cluster f c v d) c' = if decide (c' = c) then v else fat12_get_next_cluster f d c'.
Proof.
  intros Hc Hc' Hd Hv. destruct (set_cluster_byte d c v Hc Hd Hv) as (A1 & A2 & _).
  pose proof (epos_range c Hc) as E. pose proof (epos_range c' Hc') as E'.
  rewrite !get_eq by done. rewrite !A2 by lia. clear A1 A2.
  pose proof (odd_half c) as [O1 O2]. pose proof (odd_half c') as [O1' O2'].
  unfold put_entry, epos in *. rewrite O1, O1' in *. pose proof (Hd (g_fat_offset f + (c' / 2 * 3 + (if Z.odd c' then 1 else 0)))) as B0.
  pose proof (Hd (g_fat_offset f + (c' / 2 * 3 + (if Z.odd c' then 1 else 0)) + 1)) as B1.
  destruct (decide (c' = c)) as [->|Hne].
  - rewrite !(decide_True (P := _ = _)) by done. rewrite !decide_False by lia. rewrite decide_True by done.
    destruct (Z.odd c).
    + wsolve.
    + wsolve.
  - destruct (Z.odd c), (Z.odd c'); repeat case_decide; try lia; try done; wsolve.
Qed.
End fat.
