(* ===== verification/Fat12Dir.v ===== *)
(** Directory entries and cluster chains of [Fat12]: the invariant of a FAT12 image. *)

From S2P Require Import Prelude CString Fat12 Fat12Table.

Section dir.
Context (f : fat12) (G : geom_ok f).

Abbreviation get := (fat12_get_next_cluster f).
Abbreviation cb := (cb f).
Abbreviation valid := (valid f).
Abbreviation coff := (coff f).

(** * Directory entries *)

Definition ent (i : Z) : Z := g_root_dir_offset f + 32 * i.
Definition slot (i : Z) : Prop := 0 <= i < g_root_entry_cnt f.

Definition dfree (d : disk) (i : Z) : bool := (dbyte d (ent i) =? 0) || (dbyte d (ent i) =? 0xE5).
(** An entry of a file or directory. *)
Definition used (d : disk) (i : Z) : bool := negb (dfree d i) && (Z.land (dbyte d (ent i + 11)) FAT_ATTR_VOLUME_ID =? 0).
Definition dname (d : disk) (i : Z) : list Z := dbytes d (ent i) 11.
Definition dattr (d : disk) (i : Z) : Z := dbyte d (ent i + 11).
Definition dfirst (d : disk) (i : Z) : Z := u16le d (ent i + 26).
Definition dsize (d : disk) (i : Z) : Z := u32le d (ent i + 28).

(** Behind the end marker the directory is empty. *)
Definition end_ok (d : disk) : Prop :=
  forall i j, 0 <= i < j -> slot j -> dbyte d (ent i) = 0 -> dbyte d (ent j) = 0.

Lemma ent_range i : slot i -> 0 < ent i /\ g_root_dir_offset f <= ent i /\ ent i + 32 <= g_data_offset f.
Proof.
  unfold slot, ent. intros Hi. pose proof (ge_entries f G). pose proof (root_pos f G). lia.
Qed.

Lemma root_end_eq : root_end f = g_root_dir_offset f + g_root_entry_cnt f * 32.
Proof.
  pose proof (ge_entries f G). pose proof (root_pos f G). pose proof (root_small f G).
  unfold root_end, DIR_ENTRY_SIZE. rewrite (u32_id (g_root_entry_cnt f * 32)) by (unfold is_u32; lia).
  apply u32_id. unfold is_u32. lia.
Qed.

Lemma in_root_ent i : 0 <= i <= g_root_entry_cnt f -> in_root f (ent i) = (i <? g_root_entry_cnt f).
Proof.
  intros Hi. unfold in_root. rewrite root_end_eq. unfold ent. pose proof (root_small f G). pose proof (ge_entries f G). pose proof (root_pos f G). unfold DIR_ENTRY_SIZE.
  destruct (Z.ltb_spec i (g_root_entry_cnt f)).
  - rewrite (proj2 (Z.ltb_lt _ _)) by lia. rewrite u32_id by (unfold is_u32; lia). apply Z.leb_le. lia.
  - rewrite (proj2 (Z.ltb_ge _ _)) by lia. done.
Qed.

Lemma ent_next i : slot i -> u32 (ent i + DIR_ENTRY_SIZE) = ent (i + 1).
Proof.
  intros Hi. pose proof (ent_range i Hi). pose proof (root_small f G). unfold DIR_ENTRY_SIZE.
  rewrite u32_id by (unfold is_u32; lia). unfold ent. lia.
Qed.

Definition matches (d : disk) (name : cstr) (i : Z) : bool := used d i && bool_decide (dname d i = str_to_fat83 name).

(** A search through the slots from [i] on. *)
Definition search (P : Z -> bool) (i r : Z) : Prop :=
  (exists j, i <= j /\ slot j /\ P j = true /\ r = ent j /\ forall k, i <= k < j -> P k = false)
  \/ (r = 0 /\ forall k, i <= k -> slot k -> P k = false).

Lemma search_here (P : Z -> bool) i : slot i -> P i = true -> search P i (ent i).
Proof. intros Hs Hp. left. exists i. split; [lia|]. split; [done|]. split; [done|]. split; [done|]. lia. Qed.

Lemma search_next (P : Z -> bool) i r : P i = false -> search P (i + 1) r -> search P i r.
Proof.
  intros Hp [(j & H1 & H2 & H3 & H4 & H5)|[H1 H2]].
  - left. exists j. split; [lia|]. do 3 (split; [done|]). intros k Hk. destruct (decide (k = i)) as [->|]; [done|apply H5; lia].
  - right. split; [done|]. intros k Hk Hs. destruct (decide (k = i)) as [->|]; [done|apply H2; [lia|done]].
Qed.

Lemma find_loop_search d name n i : end_ok d -> 0 <= i -> i + Z.of_nat n = g_root_entry_cnt f ->
  search (matches d name) i (find_loop n f d name (ent i)).
Proof.
  intros He. revert i. induction n as [|n IH]; intros i Hi Hn; cbn [find_loop].
  - right. split; [done|]. unfold slot. lia.
  - assert (slot i) as Hs by (unfold slot; lia). rewrite in_root_ent, (proj2 (Z.ltb_lt _ _)) by lia.
    rewrite ent_next by done. destruct (Z.eqb_spec (dbyte d (ent i)) 0) as [E0|E0].
    + right. split; [done|]. intros k Hk Hsk. unfold matches, used, dfree.
      destruct (decide (k = i)) as [->|]; [by rewrite E0|]. by rewrite (He i k) by (done || lia).
    + destruct (_ && _ && _ && _) eqn:Em.
      * apply search_here; [done|]. rewrite !andb_true_iff in Em. destruct Em as [[[H1 H2] _] H3].
        unfold matches, used, dfree. apply Z.eqb_neq in E0. rewrite E0, H2. apply negb_true_iff in H1. rewrite H1.
        unfold fat83_match in H3. exact H3.
      * apply search_next; [|apply IH; lia]. unfold matches, used, dfree. apply Z.eqb_neq in E0. rewrite E0. cbn [orb].
        destruct (Z.eqb_spec (Z.land (dbyte d (ent i + 11)) FAT_ATTR_VOLUME_ID) 0) as [Ea|Ea]; [|by rewrite andb_false_r].
        destruct (Z.eqb_spec (dbyte d (ent i + 11)) 0x0F) as [E15|E15]; [by rewrite E15 in Ea|].
        destruct (dbyte d (ent i) =? 0xE5); [done|]. cbn in *. unfold fat83_match in Em. exact Em.
Qed.

Lemma find_dirent_search d name : end_ok d -> search (matches d name) 0 (find_dirent f d name).
Proof.
  intros He. unfold find_dirent, root_fuel. replace (g_root_dir_offset f) with (ent 0) by (unfold ent; lia).
  pose proof (ge_entries f G). apply find_loop_search; [done|lia|lia].
Qed.

Lemma free_slot_search d n i : 0 <= i -> i + Z.of_nat n = g_root_entry_cnt f ->
  search (dfree d) i (free_slot n f d (ent i)).
Proof.
  revert i. induction n as [|n IH]; intros i Hi Hn; cbn [free_slot].
  - right. split; [done|]. unfold slot. lia.
  - assert (slot i) as Hs by (unfold slot; lia). rewrite in_root_ent, (proj2 (Z.ltb_lt _ _)) by lia.
    rewrite ent_next by done. fold (dfree d i). destruct (dfree d i) eqn:E.
    + by apply search_here.
    + apply search_next; [done|]. apply IH; lia.
Qed.

Lemma free_slot_root d : search (dfree d) 0 (free_slot (root_fuel f) f d (g_root_dir_offset f)).
Proof.
  unfold root_fuel. replace (g_root_dir_offset f) with (ent 0) by (unfold ent; lia).
  pose proof (ge_entries f G). apply free_slot_search; lia.
Qed.

(** * Chains *)

(** The clusters [cs] are linked from [c] on to an end mark. *)
Fixpoint links (d : disk) (c : Z) (cs : list Z) : Prop :=
  match cs with
  | [] => 0xFF8 <= c
  | x :: cs' => c = x /\ valid x /\ links d (get d x) cs'
  end.

(** The chain of an entry; an empty file has first cluster 0. *)
Definition chain (d : disk) (first : Z) (cs : list Z) : Prop :=
  (first = 0 /\ cs = []) \/ (cs <> [] /\ links d first cs).

Lemma links_valid d c cs : links d c cs -> Forall valid cs.
Proof. revert c. induction cs as [|x cs IH]; intros c; [done|]. intros (_ & H & Hl). constructor; [done|by eapply IH]. Qed.

Lemma chain_valid d c cs : chain d c cs -> Forall valid cs.
Proof. intros [[_ ->]|[_ H]]; [done|by eapply links_valid]. Qed.

Lemma links_ext d d' c cs : (forall x, x ∈ cs -> get d' x = get d x) -> links d c cs -> links d' c cs.
Proof.
  revert c. induction cs as [|x cs IH]; intros c He; [done|]. intros (Hc & Hv & Hl). split; [done|]. split; [done|].
  rewrite He by (by left). apply IH; [|done]. intros y Hy. apply He. by right.
Qed.

Lemma chain_ext d d' c cs : (forall x, x ∈ cs -> get d' x = get d x) -> chain d c cs -> chain d' c cs.
Proof. intros He [H|[H1 H2]]; [by left|right]. split; [done|by apply (links_ext d)]. Qed.

(** No cluster of a chain is free. *)
Lemma links_nonzero d c cs x : links d c cs -> x ∈ cs -> get d x <> 0.
Proof.
  revert c. induction cs as [|y cs IH]; intros c; [by intros _ ?%elem_of_nil|]. intros (_ & _ & Hl) [->|Hx]%elem_of_cons.
  - destruct cs as [|z cs]; cbn in Hl; [lia|]. destruct Hl as (-> & Hz & _). unfold Fat12Table.valid in Hz. lia.
  - by eapply IH.
Qed.

Lemma chain_nonzero d c cs x : chain d c cs -> x ∈ cs -> get d x <> 0.
Proof. intros [[_ ->]|[_ H]]; [by intros ?%elem_of_nil|by eapply links_nonzero]. Qed.

(** Appending a cluster. *)
Lemma links_snoc d d' c cs x l : links d c (cs ++ [l]) -> valid x -> NoDup (cs ++ [l]) ->
  (forall y, y ∈ cs -> get d' y = get d y) -> get d' l = x -> 0xFF8 <= get d' x ->
  links d' c ((cs ++ [l]) ++ [x]).
Proof.
  intros Hl Hx Hnd He Hlx Hend. revert c Hl Hnd He. induction cs as [|y cs IH]; intros c Hl Hnd He; cbn in *.
  - destruct Hl as (-> & Hv & _). rewrite Hlx. by split_and!.
  - destruct Hl as (-> & Hv & Hl). apply NoDup_cons in Hnd as [_ Hnd]. split; [done|]. split; [done|].
    rewrite He by (by left). apply IH; [done|done|]. intros z Hz. apply He. by right.
Qed.

Lemma valid_length cs : NoDup cs -> Forall valid cs -> Z.of_nat (length cs) <= g_total_clusters f.
Proof.
  intros Hnd Hv. pose proof (ge_total f G).
  assert (cs ⊆ seqZ 2 (g_total_clusters f)) as Hin.
  { intros x Hx. rewrite Forall_forall in Hv. specialize (Hv x Hx). unfold Fat12Table.valid in Hv. apply elem_of_seqZ. lia. }
  assert (length cs <= length (seqZ 2 (g_total_clusters f)))%nat as Hl
    by (by apply submseteq_length, NoDup_submseteq). rewrite length_seqZ in Hl. lia.
Qed.

(** * The invariant of an image

    [C] gives the clusters of each entry. *)

Record fat_inv (d : disk) (C : Z -> list Z) : Prop := {
  fi_bytes : bytes_ok d;
  fi_end : end_ok d;
  fi_names i j : slot i -> slot j -> used d i = true -> used d j = true -> dname d i = dname d j -> i = j;
  fi_chain i : slot i -> used d i = true -> chain d (dfirst d i) (C i);
  fi_size i : slot i -> used d i = true -> dsize d i <= Z.of_nat (length (C i)) * cb;
  fi_nodup i : slot i -> used d i = true -> NoDup (C i);
  fi_apart i j c : slot i -> slot j -> used d i = true -> used d j = true -> c ∈ C i -> c ∈ C j -> i = j;
}.

Definition upd (C : Z -> list Z) (i : Z) (cs : list Z) (j : Z) : list Z := if decide (j = i) then cs else C j.

(** Two images with the same bytes in an entry agree on it. *)
Definition same_ent (d d' : disk) (i : Z) : Prop := forall a, ent i <= a < ent i + 32 -> dbyte d' a = dbyte d a.

Lemma dbytes_ext d d' a n : (forall x, a <= x < a + n -> dbyte d' x = dbyte d x) -> dbytes d' a n = dbytes d a n.
Proof. intros H. unfold dbytes. apply map_ext_in. intros x Hx%list_elem_of_In%elem_of_seqZ. apply H. lia. Qed.

Lemma same_ent_facts d d' i : same_ent d d' i ->
  dbyte d' (ent i) = dbyte d (ent i) /\ used d' i = used d i /\ dfree d' i = dfree d i /\ dname d' i = dname d i
  /\ dattr d' i = dattr d i /\ dfirst d' i = dfirst d i /\ dsize d' i = dsize d i.
Proof.
  intros H. unfold used, dfree, dname, dattr, dfirst, dsize, u16le, u32le.
  rewrite !(H (ent i)), !(H (ent i + 11)), !(H (ent i + 26)), !(H (ent i + 26 + 1)), !(H (ent i + 28)), !(H (ent i + 28 + 1)),
    !(H (ent i + 28 + 2)), !(H (ent i + 28 + 3)) by lia.
  rewrite (dbytes_ext d d' (ent i) 11); [done|]. intros x Hx. apply H. lia.
Qed.

(** Changing one entry, and the table outside the other entries' chains. *)
Lemma fat_inv_update d d' C i cs :
  fat_inv d C -> slot i -> bytes_ok d' -> (forall j, slot j -> j <> i -> same_ent d d' j) ->
  (forall j c, slot j -> j <> i -> used d j = true -> c ∈ C j -> get d' c = get d c) ->
  dfree d' i = false ->
  (dfree d i = true -> forall j, 0 <= j < i -> dfree d j = false) ->
  (forall j, slot j -> j <> i -> used d j = true -> used d' i = true -> dname d' i = dname d j -> False) ->
  (used d' i = true -> chain d' (dfirst d' i) cs /\ dsize d' i <= Z.of_nat (length cs) * cb /\ NoDup cs
     /\ forall j c, slot j -> j <> i -> used d j = true -> c ∈ cs -> c ∈ C j -> False) ->
  fat_inv d' (upd C i cs).
Proof.
  intros I Hi Hb Hs Hg Hf Hl Hn Hc.
  assert (forall j, slot j -> j <> i -> used d' j = used d j /\ dname d' j = dname d j /\ dfirst d' j = dfirst d j
            /\ dsize d' j = dsize d j /\ dbyte d' (ent j) = dbyte d (ent j)) as Hj.
  { intros j Hsj Hne. destruct (same_ent_facts d d' j (Hs j Hsj Hne)) as (? & ? & _ & ? & _ & ? & ?). done. }
  split.
  - done.
  - intros j k Hjk Hk E. destruct (decide (j = i)) as [->|Hji].
    { unfold dfree in Hf. by rewrite E in Hf. }
    assert (slot j) as Hsj by (unfold slot in *; lia). destruct (Hj j Hsj Hji) as (_ & _ & _ & _ & E1). rewrite E1 in E.
    destruct (decide (k = i)) as [->|Hki]; [|destruct (Hj k Hk Hki) as (_ & _ & _ & _ & ->); by apply (fi_end _ _ I j k)].
    exfalso. pose proof (fi_end _ _ I j i Hjk Hi E) as E2. assert (dfree d j = false) as Hfj; [|unfold dfree in Hfj; by rewrite E in Hfj].
    apply Hl; [unfold dfree; by rewrite E2|lia].
  - intros j k Hsj Hsk Uj Uk E. destruct (decide (j = i)) as [->|Hji], (decide (k = i)) as [->|Hki]; [done|..].
    + destruct (Hj k Hsk Hki) as (E1 & E2 & _). rewrite E1 in Uk. rewrite E2 in E. exfalso. by apply (Hn k).
    + destruct (Hj j Hsj Hji) as (E1 & E2 & _). rewrite E1 in Uj. rewrite E2 in E. exfalso. by apply (Hn j).
    + destruct (Hj j Hsj Hji) as (E1 & E2 & _), (Hj k Hsk Hki) as (E3 & E4 & _). rewrite E1 in Uj. rewrite E3 in Uk.
      rewrite E2, E4 in E. by apply (fi_names _ _ I).
  - intros j Hsj Uj. unfold upd. destruct (decide (j = i)) as [->|Hji]; [by apply Hc|].
    destruct (Hj j Hsj Hji) as (E1 & _ & -> & _). rewrite E1 in Uj.
    apply (chain_ext d); [|by apply (fi_chain _ _ I)]. intros c Hcj. by apply (Hg j).
  - intros j Hsj Uj. unfold upd. destruct (decide (j = i)) as [->|Hji]; [by apply Hc|].
    destruct (Hj j Hsj Hji) as (E1 & _ & _ & -> & _). rewrite E1 in Uj. by apply (fi_size _ _ I).
  - intros j Hsj Uj. unfold upd. destruct (decide (j = i)) as [->|Hji]; [by apply Hc|].
    destruct (Hj j Hsj Hji) as (E1 & _). rewrite E1 in Uj. by apply (fi_nodup _ _ I).
  - intros j k c Hsj Hsk Uj Uk. unfold upd.
    destruct (decide (j = i)) as [->|Hji], (decide (k = i)) as [->|Hki]; [done|..].
    + destruct (Hj k Hsk Hki) as (E1 & _). rewrite E1 in Uk. intros H1 H2. exfalso. destruct (Hc Uj) as (_ & _ & _ & Hd). by apply (Hd k c).
    + destruct (Hj j Hsj Hji) as (E1 & _). rewrite E1 in Uj. intros H1 H2. exfalso. destruct (Hc Uk) as (_ & _ & _ & Hd). by apply (Hd j c).
    + destruct (Hj j Hsj Hji) as (E1 & _), (Hj k Hsk Hki) as (E3 & _). rewrite E1 in Uj. rewrite E3 in Uk. by apply (fi_apart _ _ I).
Qed.

(** * Contents *)

Definition cdata (d : disk) (c : Z) : list Z := dbytes d (coff c) cb.
Definition content (d : disk) (cs : list Z) : list Z := concat (map (cdata d) cs).
(** The bytes of the file of an entry. *)
Definition file_data (d : disk) (C : Z -> list Z) (i : Z) : list Z := take (Z.to_nat (dsize d i)) (content d (C i)).

Lemma cb_pos : 0 < cb.
Proof. pose proof (ge_secs f G). unfold Fat12Table.cb. nia. Qed.

Lemma length_cdata d c : length (cdata d c) = Z.to_nat cb.
Proof. unfold cdata, dbytes. rewrite length_map, length_seqZ. done. Qed.

Lemma length_content d cs : Z.of_nat (length (content d cs)) = Z.of_nat (length cs) * cb.
Proof.
  pose proof cb_pos. induction cs as [|c cs IH]; [done|]. cbn [content map concat]. rewrite length_app, length_cdata.
  change (concat (map (cdata d) cs)) with (content d cs). cbn [length]. lia.
Qed.

Lemma content_ext d d' cs : (forall c, c ∈ cs -> cdata d' c = cdata d c) -> content d' cs = content d cs.
Proof. intros H. unfold content. f_equal. apply map_ext_in. intros c Hc. apply H. by apply list_elem_of_In. Qed.

(** The clusters lie behind the directory, inside the image and apart from each other. *)
Lemma coff_range c : valid c -> g_data_offset f <= coff c /\ coff c + cb <= g_size f.
Proof.
  unfold Fat12Table.valid, Fat12Table.coff. intros Hc. pose proof cb_pos. pose proof (ge_data f G).
  assert ((c - 2) * cb + cb <= g_total_clusters f * cb) by nia. nia.
Qed.

Lemma coff_apart c c' : valid c -> valid c' -> c <> c' -> coff c + cb <= coff c' \/ coff c' + cb <= coff c.
Proof. unfold Fat12Table.coff. intros _ _ Hne. pose proof cb_pos. destruct (Z.lt_ge_cases c c'); [left|right]; nia. Qed.

Lemma cluster_to_offset_eq c : valid c -> cluster_to_offset f c = coff c.
Proof.
  intros Hc. pose proof (coff_range c Hc) as R. pose proof cb_pos. pose proof (root_small f G). pose proof (root_pos f G).
  unfold Fat12Table.valid in Hc. unfold cluster_to_offset. rewrite (proj2 (Z.ltb_ge _ _)) by lia.
  pose proof (ge_secs f G). unfold Fat12Table.coff, Fat12Table.cb in *.
  assert (0 <= (c - 2) * g_secs_per_clus f <= (c - 2) * (g_secs_per_clus f * g_bytes_per_sec f)) by nia.
  rewrite (u32_id ((c - 2) * g_secs_per_clus f)) by (unfold is_u32; lia).
  rewrite <- Z.mul_assoc. rewrite (u32_id ((c - 2) * (g_secs_per_clus f * g_bytes_per_sec f))) by (unfold is_u32; lia).
  apply u32_id. unfold is_u32. lia.
Qed.

Lemma cluster_bytes_eq : 0 < g_total_clusters f -> cluster_bytes f = cb.
Proof.
  intros Ht. pose proof (coff_range 2 ltac:(unfold Fat12Table.valid; lia)) as R. pose proof cb_pos.
  pose proof (root_small f G). pose proof (root_pos f G). apply u32_id. unfold is_u32. unfold Fat12Table.coff, Fat12Table.cb in *. lia.
Qed.
End dir.
