(* ===== verification/Fat12Ops.v ===== *)
(** What the loops of [Fat12] do: freeing, allocating, storing and reading chains. *)

From S2P Require Import Prelude CString Fat12 Fat12Table Fat12Dir.

Section ops.
Context (f : fat12) (G : geom_ok f).

Abbreviation get := (fat12_get_next_cluster f).
Abbreviation cb := (cb f).
Abbreviation valid := (valid f).
Abbreviation coff := (coff f).

(** Everything from the directory on. *)
Definition same_data (d d' : disk) : Prop := forall a, g_root_dir_offset f <= a -> dbyte d' a = dbyte d a.

(** Bytes outside the table do not matter to the table. *)
Lemma get_frame d d' c : valid c -> bytes_ok d -> bytes_ok d' ->
  (forall a, a < g_root_dir_offset f -> dbyte d' a = dbyte d a) -> get d' c = get d c.
Proof.
  intros Hc Hd Hd' H. pose proof (epos_range f G c Hc). rewrite !(get_eq f G) by done. rewrite !H by lia. done.
Qed.

(** ** Freeing *)

Lemma free_chain_ok d c cs n : bytes_ok d -> links f d c cs -> NoDup cs -> (length cs < n)%nat ->
  exists d', free_chain n f d c = Some d' /\ bytes_ok d' /\ same_data d d'
    /\ forall x, valid x -> get d' x = if decide (x ∈ cs) then 0 else get d x.
Proof.
  revert d c cs. induction n as [|n IH]; intros d c cs Hb Hl Hnd Hn; [lia|]. destruct cs as [|x cs]; cbn [free_chain].
  - cbn in Hl. rewrite (proj2 (Z.ltb_ge c _)) by lia. rewrite andb_false_r. exists d.
    split; [done|]. split; [done|]. split; [done|]. intros y _. rewrite decide_False by apply not_elem_of_nil. done.
  - destruct Hl as (-> & Hv & Hl). apply NoDup_cons in Hnd as [Hx Hnd]. pose proof (ge_total f G).
    assert (2 <= x < 0xFF8) by (unfold Fat12Table.valid in Hv; lia).
    rewrite (proj2 (Z.leb_le _ _)), (proj2 (Z.ltb_lt x _)) by lia. cbn [andb]. set (d1 := fat12_set_cluster f x 0 d).
    assert (forall y, valid y -> get d1 y = if decide (y = x) then 0 else get d y) as Hg
      by (intros y Hy; apply (get_set f G); done || lia).
    destruct (IH d1 (get d x) cs) as (d' & E & Hb' & Hs' & Hg').
    + apply (set_cluster_bytes_ok f G); done || lia.
    + apply (links_ext f d); [|done]. intros y Hy. pose proof (links_valid f _ _ _ Hl) as Hvs. rewrite Forall_forall in Hvs.
      rewrite Hg by (by apply Hvs). by rewrite decide_False by (intros E0; by rewrite E0 in Hy).
    + done.
    + cbn in Hn. lia.
    + exists d'. split; [done|]. split; [done|]. split.
      * intros a Ha. rewrite Hs' by done. apply (set_cluster_frame f G); done || lia.
      * intros y Hy. rewrite Hg', Hg by done. destruct (decide (y ∈ cs)), (decide (y = x)), (decide (y ∈ x :: cs)); set_solver.
Qed.

Lemma free_chain_chain d c cs : bytes_ok d -> chain f d c cs -> NoDup cs ->
  exists d', free_chain (Z.to_nat CHAIN_FUEL) f d c = Some d' /\ bytes_ok d' /\ same_data d d'
    /\ forall x, valid x -> get d' x = if decide (x ∈ cs) then 0 else get d x.
Proof.
  intros Hb [[-> ->]|[_ Hl]] Hnd.
  - exists d. split; [done|]. split; [done|]. split; [done|]. intros x _. by rewrite decide_False by apply not_elem_of_nil.
  - apply free_chain_ok; [done|done|done|]. pose proof (ge_total f G).
    pose proof (valid_length f G cs Hnd (links_valid f _ _ _ Hl)). unfold CHAIN_FUEL. lia.
Qed.

(** ** Allocation *)

Definition free_count (d : disk) : Z := count_true (fun k => get d (2 + k) =? 0) (Z.to_nat (g_total_clusters f)).

Lemma alloc_loop_ok d n c : 2 <= c <= g_total_clusters f + 2 -> g_total_clusters f + 2 - c < Z.of_nat n ->
  (exists x, alloc_loop n f d c = Some x /\ valid x /\ get d x = 0)
  \/ (alloc_loop n f d c = Some 0 /\ forall x, c <= x < g_total_clusters f + 2 -> get d x <> 0).
Proof.
  pose proof (ge_total f G). revert c. induction n as [|n IH]; intros c Hc Hn; [lia|]. cbn [alloc_loop].
  rewrite u32_id by (unfold is_u32; lia). destruct (Z.ltb_spec c (g_total_clusters f + 2)) as [Hlt|Hge].
  2: { right. split; [done|]. lia. }
  destruct (Z.eqb_spec (get d c) 0) as [E|E].
  - left. exists c. split; [done|]. split; [unfold Fat12Table.valid; lia|done].
  - rewrite Z.mod_small by lia. destruct (IH (c + 1)) as [H1|[H1 H2]]; [lia|lia|by left|right].
    split; [done|]. intros x Hx. destruct (decide (x = c)) as [->|]; [done|]. apply H2. lia.
Qed.

Lemma alloc_ok d : bytes_ok d ->
  (free_count d = 0 /\ fat12_alloc_cluster f d = Some (0, d))
  \/ (exists c, fat12_alloc_cluster f d = Some (c, fat12_set_cluster f c 0xFFF d) /\ valid c /\ get d c = 0 /\ 0 < free_count d).
Proof.
  intros Hb. pose proof (ge_total f G) as Ht. unfold fat12_alloc_cluster.
  destruct (alloc_loop_ok d (Z.to_nat ALLOC_FUEL) 2) as [(x & -> & Hv & Hx)|[-> Hn]]; [lia|unfold ALLOC_FUEL; lia|right|left].
  - exists x. pose proof Hv as Hv'. unfold Fat12Table.valid in Hv'. rewrite (proj2 (Z.eqb_neq x 0)) by lia.
    do 3 (split; [done|]). unfold free_count. apply (count_true_pos _ _ (x - 2)); [lia|].
    replace (2 + (x - 2)) with x by lia. by apply Z.eqb_eq.
  - split; [|done]. unfold free_count. rewrite (count_true_ext _ (fun _ => false)); [apply count_true_false|].
    intros k Hk. apply Z.eqb_neq. apply Hn. lia.
Qed.

Lemma free_count_take d d' c : valid c -> get d c = 0 -> get d' c <> 0 -> (forall x, valid x -> x <> c -> (get d' x = 0 <-> get d x = 0)) ->
  free_count d' = free_count d - 1.
Proof.
  intros Hv H0 H1 H. unfold free_count. pose proof Hv as Hv'. unfold Fat12Table.valid in Hv'.
  rewrite (count_true_flip (fun k => get d (2 + k) =? 0) (fun k => get d' (2 + k) =? 0) (Z.to_nat (g_total_clusters f)) (c - 2)); [lia|lia|..].
  - replace (2 + (c - 2)) with c by lia. by apply Z.eqb_eq.
  - replace (2 + (c - 2)) with c by lia. by apply Z.eqb_neq.
  - intros k Hk Hne. specialize (H (2 + k) ltac:(unfold Fat12Table.valid; lia) ltac:(lia)).
    destruct (Z.eqb_spec (get d (2 + k)) 0), (Z.eqb_spec (get d' (2 + k)) 0); tauto.
Qed.

(** ** Storing into a cluster *)

Lemma dbytes_lookup d a n k : 0 <= k < n -> dbytes d a n !! Z.to_nat k = Some (dbyte d (a + k)).
Proof.
  intros Hk. unfold dbytes. rewrite list_lookup_fmap, lookup_seqZ_lt by lia. cbn. do 2 f_equal. lia.
Qed.

Lemma length_dbytes d a n : length (dbytes d a n) = Z.to_nat n.
Proof. unfold dbytes. by rewrite length_map, length_seqZ. Qed.

Lemma store_cluster_byte d a l x : 0 <= a -> a + zlen l <= g_size f ->
  dbyte (store_cluster f a l d) x = if decide (a <= x < a + zlen l) then aget l (x - a) else dbyte d x.
Proof.
  pose proof (ge_size f G). revert d a. unfold zlen. induction l as [|b l IH]; intros d a Ha Hl; cbn [store_cluster].
  - rewrite decide_False by (cbn; lia). done.
  - cbn [length] in *. rewrite (proj2 (Z.ltb_lt _ _)) by lia. rewrite u32_id by (unfold is_u32; lia).
    rewrite IH by lia. rewrite dbyte_put. unfold aget. case_decide as H1; case_decide as H2; try lia.
    + rewrite (Z2Nat.inj_sub x a), (Z2Nat.inj_sub x (a + 1)) by lia. replace (Z.to_nat x - Z.to_nat a)%nat with (S (Z.to_nat x - Z.to_nat (a + 1))) by lia. done.
    + rewrite decide_True by lia. replace (x - a) with 0 by lia. done.
    + by rewrite decide_False by lia.
Qed.

Lemma bytes_ok_store d a l : 0 <= a -> a + zlen l <= g_size f -> bytes_ok d -> Forall byte l -> bytes_ok (store_cluster f a l d).
Proof.
  intros Ha Hl Hd Hb x. rewrite store_cluster_byte by done. case_decide as Hx; [|apply Hd]. unfold zlen in *. unfold aget.
  destruct (lookup_lt_is_Some_2 l (Z.to_nat (x - a))) as [y Hy]; [lia|]. rewrite (list_lookup_total_correct _ _ _ Hy).
  rewrite Forall_lookup in Hb. by apply (Hb (Z.to_nat (x - a))).
Qed.

(** The cluster holds the new bytes, then what was there. *)
Lemma cdata_store d c l : valid c -> zlen l <= cb ->
  cdata f (store_cluster f (coff c) l d) c = l ++ drop (length l) (cdata f d c).
Proof.
  intros Hc Hl. pose proof (coff_range f G c Hc). pose proof (root_pos f G). pose proof (root_small f G). unfold zlen in Hl.
  apply list_eq. intros k. destruct (decide (Z.of_nat k < cb)) as [Hk|Hk].
  - replace k with (Z.to_nat (Z.of_nat k)) by lia. unfold cdata. rewrite dbytes_lookup by lia.
    rewrite store_cluster_byte by (unfold zlen; lia). rewrite Nat2Z.id. destruct (decide (k < length l)%nat).
    + rewrite decide_True by (unfold zlen; lia). rewrite lookup_app_l by done. replace (coff c + Z.of_nat k - coff c) with (Z.of_nat k) by lia.
      unfold aget. rewrite Nat2Z.id. symmetry. apply list_lookup_lookup_total_lt. done.
    + rewrite decide_False by (unfold zlen; lia). rewrite lookup_app_r by lia. rewrite lookup_drop.
      replace (length l + (k - length l))%nat with (Z.to_nat (Z.of_nat k)) by lia. by rewrite dbytes_lookup by lia.
  - rewrite !lookup_ge_None_2; [done|..]; rewrite ?length_app, ?length_drop, ?(length_cdata f); lia.
Qed.

Lemma cdata_same_data d d' c : valid c -> same_data d d' -> cdata f d' c = cdata f d c.
Proof.
  intros Hc Hs. apply dbytes_ext. intros x Hx. apply Hs. pose proof (coff_range f G c Hc). pose proof (root_small f G). lia.
Qed.

(** ** Writing a chain *)

Definition first_of (acc : list Z) : Z := default 0 (head acc).
Definition last_of (acc : list Z) : Z := default 0 (last acc).

(** The clusters written so far form a chain. *)
Record writing (d : disk) (acc : list Z) : Prop := {
  wr_bytes : bytes_ok d;
  wr_nodup : NoDup acc;
  wr_valid : Forall valid acc;
  wr_links : acc <> [] -> links f d (first_of acc) acc;
}.

Lemma last_snoc_cases (acc : list Z) : acc = [] \/ exists acc0 l, acc = acc0 ++ [l].
Proof. destruct acc as [|l acc _] using rev_ind; [by left|right]. by exists acc, l. Qed.

(** Taking a cluster, linking it behind the last one, filling it. *)
Definition grown (d : disk) (acc : list Z) (c : Z) (chunk : list Z) : disk :=
  let d1 := fat12_set_cluster f c 0xFFF d in
  let d2 := if last_of acc =? 0 then d1 else fat12_set_cluster f (last_of acc) c d1 in
  store_cluster f (cluster_to_offset f c) chunk d2.

Lemma grown_ok d acc c chunk : writing d acc -> valid c -> get d c = 0 -> zlen chunk <= cb -> Forall byte chunk ->
  let d' := grown d acc c chunk in
  writing d' (acc ++ [c])
  /\ (forall x, valid x -> x <> c -> last acc <> Some x -> get d' x = get d x)
  /\ (forall x, valid x -> x <> c -> (get d' x = 0 <-> get d x = 0)) /\ get d' c = 0xFFF
  /\ (forall a, g_root_dir_offset f <= a < g_data_offset f -> dbyte d' a = dbyte d a)
  /\ (forall x, valid x -> x <> c -> cdata f d' x = cdata f d x)
  /\ cdata f d' c = chunk ++ drop (length chunk) (cdata f d c).
Proof.
  intros [Wb Wn Wv Wl] Hc H0 Hz Hch d'. pose proof (coff_range f G c Hc) as R. pose proof (root_pos f G). pose proof (root_small f G).
  pose proof (ge_total f G) as Ht. assert (0 <= c < 4096) as Hc4 by (unfold Fat12Table.valid in Hc; lia).
  set (d1 := fat12_set_cluster f c 0xFFF d). assert (bytes_ok d1) as Hb1 by (apply (set_cluster_bytes_ok f G); done || lia).
  assert (forall x, valid x -> get d1 x = if decide (x = c) then 0xFFF else get d x) as Hg1
    by (intros x Hx; apply (get_set f G); done || lia).
  set (d2 := if last_of acc =? 0 then d1 else fat12_set_cluster f (last_of acc) c d1).
  assert (c ∉ acc) as Hca.
  { intros Hin. destruct (decide (acc = [])) as [->|Hne]; [by apply elem_of_nil in Hin|]. by apply (links_nonzero f _ _ _ _ (Wl Hne) Hin). }
  assert (bytes_ok d2 /\ same_data d d2 /\ forall x, valid x ->
            get d2 x = if decide (last acc = Some x) then c else if decide (x = c) then 0xFFF else get d x) as (Hb2 & Hs2 & Hg2).
  { assert (same_data d d1) as Hs1 by (intros a Ha; apply (set_cluster_frame f G); done || lia).
    unfold d2, last_of. destruct (last acc) as [l|] eqn:El; cbn.
    - assert (valid l) as Hvl by (rewrite Forall_forall in Wv; apply Wv; by apply last_Some_elem_of).
      rewrite (proj2 (Z.eqb_neq l 0)) by (unfold Fat12Table.valid in Hvl; lia).
      split; [apply (set_cluster_bytes_ok f G); done || lia|]. split.
      + intros a Ha. rewrite (set_cluster_frame f G) by (done || lia). by apply Hs1.
      + intros x Hx. rewrite (get_set f G) by (done || lia). rewrite Hg1 by done.
        destruct (decide (x = l)) as [->|]; [by rewrite (decide_True (P := Some l = Some l))|]. by rewrite (decide_False (P := Some l = Some x)) by congruence.
    - split; [done|]. split; [done|]. intros x Hx. by rewrite Hg1. }
  assert (d' = store_cluster f (coff c) chunk d2) as Ed by (unfold d', grown; rewrite (cluster_to_offset_eq f G c Hc); done).
  assert (forall x, ~ (coff c <= x < coff c + cb) -> dbyte d' x = dbyte d2 x) as Hst.
  { intros x Hx. rewrite Ed, store_cluster_byte by (unfold zlen in *; lia). by rewrite decide_False by (unfold zlen in *; lia). }
  assert (bytes_ok d') as Hb' by (rewrite Ed; apply bytes_ok_store; done || lia).
  assert (forall x, valid x -> get d' x = get d2 x) as Hg' by (intros x Hx; apply get_frame; [done..|]; intros a Ha; apply Hst; lia).
  assert (forall x, valid x -> x <> c -> cdata f d' x = cdata f d x) as Hcd.
  { intros x Hx Hne. rewrite <- (cdata_same_data d d2 x Hx Hs2). apply dbytes_ext. intros a Ha. apply Hst.
    destruct (coff_apart f G x c Hx Hc Hne); lia. }
  assert (last acc <> Some c) as Hlc by (intros El%last_Some_elem_of; done).
  assert (get d' c = 0xFFF) as Hgc by (rewrite Hg', Hg2 by done; by rewrite decide_False, decide_True).
  split; [split|split; [|split; [|split; [done|split; [|split; [done|]]]]]].
  - done.
  - apply NoDup_app. split; [done|]. split; [|apply NoDup_singleton]. intros x Hx ->%list_elem_of_singleton. done.
  - apply Forall_app. by split; [|constructor].
  - intros _. destruct (last_snoc_cases acc) as [->|(acc0 & l & ->)].
    + cbn. rewrite Hgc. by split_and!.
    + replace (first_of ((acc0 ++ [l]) ++ [c])) with (first_of (acc0 ++ [l])) by (by destruct acc0).
      rewrite last_snoc in *. assert (valid l) as Hvl by (rewrite Forall_forall in Wv; apply Wv; set_solver).
      apply (links_snoc f d); [apply Wl; by destruct acc0|done|done|..].
      * intros y Hy. assert (valid y) as Hvy by (rewrite Forall_forall in Wv; apply Wv; set_solver).
        assert (y <> l) by (apply NoDup_app in Wn as (_ & Wn & _); intros ->; apply (Wn l Hy); set_solver).
        rewrite Hg', Hg2 by done. rewrite !decide_False; [done|intros ->; set_solver|congruence].
      * rewrite Hg', Hg2 by done. by rewrite decide_True.
      * by rewrite Hgc.
  - intros x Hx Hne Hl. rewrite Hg', Hg2 by done. by rewrite !decide_False.
  - intros x Hx Hne. rewrite Hg', Hg2 by done. destruct (decide (last acc = Some x)) as [El|]; [|by rewrite decide_False].
    apply last_Some_elem_of in El. assert (acc <> []) as Hne2 by (intros ->; by apply elem_of_nil in El).
    pose proof (links_nonzero f _ _ _ _ (Wl Hne2) El). unfold Fat12Table.valid in Hc. lia.
  - intros a Ha. rewrite Hst by lia. apply Hs2. lia.
  - rewrite Ed, cdata_store by done. by rewrite (cdata_same_data d d2 c Hc Hs2).
Qed.

(** What a run of the writing loop leaves behind. *)
Record written (d d' : disk) (acc new : list Z) (src : list Z) (ok : bool) : Prop := {
  wn_writing : writing d' (acc ++ new);
  wn_free : Forall (fun c => valid c /\ get d c = 0) new;
  wn_get x : valid x -> x ∉ new -> last acc <> Some x -> get d' x = get d x;
  wn_root a : g_root_dir_offset f <= a < g_data_offset f -> dbyte d' a = dbyte d a;
  wn_data x : valid x -> x ∉ new -> cdata f d' x = cdata f d x;
  wn_content : ok = true -> take (length src) (content f d' new) = src /\ zlen src <= Z.of_nat (length new) * cb;
  wn_room : ok = bool_decide (zlen src <= free_count d * cb);
  wn_nonempty : ok = true -> src <> [] -> new <> [];
}.

Lemma free_count_nonneg d : 0 <= free_count d.
Proof. unfold free_count. apply count_true_bounds. Qed.

(** A round that writes nothing. *)
Lemma written_nil d acc src ok : writing d acc -> ok = bool_decide (zlen src <= free_count d * cb) ->
  (ok = true -> src = []) -> written d d acc [] src ok.
Proof.
  intros W Hok Hs. split; [by rewrite app_nil_r|constructor|done|done|done| |done|].
  - intros Ht. rewrite (Hs Ht). split; [done|]. unfold zlen. cbn. lia.
  - intros Ht Hne. by apply Hs in Ht.
Qed.

Lemma write_loop_ok n d src acc : writing d acc -> Forall byte src -> (length src <= n)%nat ->
  exists ok d' new, write_loop n f d src (first_of acc) (last_of acc) = Some (ok, first_of (acc ++ new), d')
    /\ written d d' acc new src ok.
Proof.
  pose proof (cb_pos f G) as Hcb. revert d src acc. induction n as [|n IH]; intros d src acc W Hby Hn.
  { destruct src; cbn in Hn; [|lia]. exists true, d, []. rewrite app_nil_r. split; [done|]. apply written_nil; [done| |done].
    rewrite bool_decide_true; [done|]. pose proof (free_count_nonneg d). unfold zlen. cbn. nia. }
  destruct src as [|b src].
  { exists true, d, []. rewrite app_nil_r. split; [done|]. apply written_nil; [done| |done].
    rewrite bool_decide_true; [done|]. pose proof (free_count_nonneg d). unfold zlen. cbn. nia. }
  assert (0 < zlen (b :: src)) as Hz by (unfold zlen; cbn; lia). cbn [write_loop].
  destruct (alloc_ok d (wr_bytes _ _ W)) as [[Hfc ->]|(c & -> & Hc & H0 & Hfc)].
  { rewrite Z.eqb_refl. exists false, d, []. rewrite app_nil_r. split; [done|]. apply written_nil; [done| |done].
    rewrite bool_decide_false; [done|]. lia. }
  pose proof Hc as Hc'. unfold Fat12Table.valid in Hc'. rewrite (proj2 (Z.eqb_neq c 0)) by lia.
  rewrite (cluster_bytes_eq f G) by lia. set (src0 := b :: src) in *.
  set (k := if zlen src0 <? cb then zlen src0 else cb).
  assert (0 < k <= zlen src0 /\ k <= cb) as Hk by (unfold k; destruct (Z.ltb_spec (zlen src0) cb); lia).
  set (chunk := take (Z.to_nat k) src0). assert (zlen chunk = k) as Hlc by (unfold chunk, zlen in *; rewrite length_take; lia).
  destruct (grown_ok d acc c chunk W Hc H0 ltac:(lia) ltac:(by apply Forall_take)) as (W3 & G1 & G2 & G3 & G4 & G5 & G6).
  set (d3 := grown d acc c chunk) in *.
  assert ((if last_of acc =? 0 then (c, fat12_set_cluster f c 0xFFF d)
           else (first_of acc, fat12_set_cluster f (last_of acc) c (fat12_set_cluster f c 0xFFF d)))
          = (first_of (acc ++ [c]), if last_of acc =? 0 then fat12_set_cluster f c 0xFFF d
               else fat12_set_cluster f (last_of acc) c (fat12_set_cluster f c 0xFFF d))) as ->.
  { unfold first_of, last_of. destruct (last_snoc_cases acc) as [->|(acc0 & l & ->)]; [done|].
    rewrite last_snoc. cbn. assert (valid l) as Hl by (pose proof (wr_valid _ _ W) as Hv; rewrite Forall_forall in Hv; apply Hv; set_solver).
    rewrite (proj2 (Z.eqb_neq l 0)) by (unfold Fat12Table.valid in Hl; lia). by destruct acc0. }
  fold chunk. change (store_cluster f (cluster_to_offset f c) chunk _) with d3.
  assert (last_of (acc ++ [c]) = c) as Elast by (unfold last_of; by rewrite last_snoc).
  destruct (IH d3 (drop (Z.to_nat k) src0) (acc ++ [c]) W3) as (ok & d' & new & E & [V1 V2 V3 V4 V5 V6 V7 V8]).
  { by apply Forall_drop. }
  { rewrite length_drop. unfold zlen in *. lia. }
  exists ok, d', (c :: new). rewrite Elast in E. rewrite <- app_assoc in E, V1. cbn [app] in E, V1. split; [exact E|].
  assert (c ∉ new /\ Forall (fun x => x <> c) new) as [Hcn Hnc].
  { pose proof (wr_nodup _ _ V1) as Hnd. apply NoDup_app in Hnd as (_ & _ & Hnd). apply NoDup_cons in Hnd as [Hcn _].
    split; [done|]. apply Forall_forall. intros x Hx ->. done. }
  rewrite last_snoc in V3. pose proof (free_count_take d d3 c Hc H0 ltac:(lia) G2) as Hfc3.
  split.
  - done.
  - constructor; [done|]. rewrite !Forall_forall in *. intros x Hx. destruct (V2 x Hx) as [Hv Hf]. split; [done|].
    apply G2; [done|by apply Hnc|done].
  - intros x Hv [Hne Hx]%not_elem_of_cons Hl. rewrite V3; [by apply G1|done|done|congruence].
  - intros a Ha. rewrite V4 by done. by apply G4.
  - intros x Hv [Hne Hx]%not_elem_of_cons. rewrite V5 by done. by apply G5.
  - intros Hok. destruct (V6 Hok) as [Ht Hl]. change (content f d' (c :: new)) with (cdata f d' c ++ content f d' new).
    rewrite V5, G6 by done. unfold zlen in Hl. rewrite length_drop in Hl. split; [|unfold zlen in *; cbn [length]; lia].
    destruct (decide (zlen src0 < cb)) as [Hlt|Hge].
    + assert (k = zlen src0) as Ek by (unfold k; by rewrite (proj2 (Z.ltb_lt _ _))).
      assert (chunk = src0) as -> by (unfold chunk; apply take_ge; unfold zlen in *; lia).
      rewrite <- app_assoc. by rewrite take_app_length.
    + assert (k = cb) as Ek by (unfold k; by rewrite (proj2 (Z.ltb_ge _ _)) by lia).
      rewrite drop_ge by (rewrite (length_cdata f); unfold zlen in *; lia). rewrite app_nil_r.
      rewrite take_app_ge by (unfold zlen in *; lia). rewrite length_drop in Ht.
      replace (length src0 - length chunk)%nat with (length src0 - Z.to_nat k)%nat by (unfold zlen in *; lia).
      rewrite Ht. unfold chunk. apply take_drop.
  - rewrite V7, Hfc3. unfold zlen. rewrite length_drop. apply bool_decide_ext. unfold k. unfold zlen in *.
    replace ((free_count d - 1) * cb) with (free_count d * cb - cb) by lia.
    destruct (Z.ltb_spec (Z.of_nat (length src0)) cb); [|lia]. rewrite Nat2Z.id, Nat.sub_diag.
    assert (cb <= free_count d * cb) by nia. lia.
  - done.
Qed.

(** ** Reading a chain *)

Lemma read_chunk_eq c done max : valid c -> 0 <= done < max -> max < 0x80000000 ->
  read_chunk f (cluster_to_offset f c) done max = Z.min cb (max - done)
  /\ (g_size f <? cluster_to_offset f c + Z.min cb (max - done)) = false.
Proof.
  intros Hc Hd Hm. pose proof (coff_range f G c Hc) as R. pose proof (root_small f G). pose proof (root_pos f G).
  pose proof (cb_pos f G). unfold read_chunk.
  rewrite (cluster_to_offset_eq f G c Hc), (cluster_bytes_eq f G) by (unfold Fat12Table.valid in Hc; lia).
  split; [|apply Z.ltb_ge; lia]. destruct (Z.ltb_spec max (done + cb)).
  - rewrite (u32_id (max - done)) by (unfold is_u32; lia). rewrite u32_id by (unfold is_u32; lia).
    rewrite (proj2 (Z.ltb_ge _ _)) by lia. lia.
  - rewrite u32_id by (unfold is_u32; lia). rewrite (proj2 (Z.ltb_ge _ _)) by lia. lia.
Qed.

Lemma dbytes_take d a n k : 0 <= k <= n -> dbytes d a k = take (Z.to_nat k) (dbytes d a n).
Proof.
  intros Hk. unfold dbytes. rewrite firstn_map. f_equal. replace n with (k + (n - k)) by lia.
  rewrite seqZ_app by lia. by rewrite take_app_length' by (rewrite length_seqZ; lia).
Qed.

Lemma read_loop_ok n d c cs done max : links f d c cs -> 0 <= done -> max < 0x80000000 ->
  max - done <= Z.of_nat (length cs) * cb -> Z.max 0 (max - done) < Z.of_nat n ->
  read_loop n f d c done max = Some (take (Z.to_nat (max - done)) (content f d cs)).
Proof.
  pose proof (cb_pos f G) as Hcb. revert c cs done. induction n as [|n IH]; intros c cs done Hl Hd Hm Hlen Hn; [lia|].
  cbn [read_loop]. destruct (Z.ltb_spec done max) as [Hlt|Hge].
  2: { rewrite andb_false_r. by replace (Z.to_nat (max - done)) with 0%nat by lia. }
  destruct cs as [|x cs]; [cbn in Hlen; lia|]. destruct Hl as (-> & Hv & Hl). pose proof (ge_total f G).
  assert (2 <= x < 0xFF8) as Hx by (unfold Fat12Table.valid in Hv; lia).
  rewrite (proj2 (Z.leb_le _ _)), (proj2 (Z.ltb_lt x _)) by lia. cbn [andb].
  destruct (read_chunk_eq x done max Hv ltac:(lia) Hm) as [-> ->]. set (k := Z.min cb (max - done)).
  rewrite (cluster_to_offset_eq f G x Hv). rewrite (dbytes_take d (coff x) cb k) by lia. fold (cdata f d x).
  rewrite (IH _ cs) by (done || (cbn [length] in *; lia)). f_equal.
  change (content f d (x :: cs)) with (cdata f d x ++ content f d cs).
  destruct (decide (max - done <= cb)) as [Hs|Hs].
  - replace (Z.to_nat (max - (done + k))) with 0%nat by lia. rewrite take_0, app_nil_r.
    rewrite take_app_le by (rewrite (length_cdata f); lia). f_equal. lia.
  - rewrite (take_ge (cdata f d x)) by (rewrite (length_cdata f); lia).
    rewrite take_app_ge by (rewrite (length_cdata f); lia). rewrite (length_cdata f). f_equal. f_equal. lia.
Qed.

(** ** New entries *)

Lemma put_bytes_byte a l d x : dbyte (put_bytes a l d) x = if decide (a <= x < a + zlen l) then aget l (x - a) else dbyte d x.
Proof.
  unfold put_bytes, zlen.
  assert (forall n i d, dbyte (for_up n i (fun i d => dput (a + i) (aget l i) d) d) x
            = if decide (a + i <= x < a + i + Z.of_nat n) then aget l (x - a) else dbyte d x) as H.
  { induction n as [|n IH]; intros i d0; cbn [for_up].
    - by rewrite decide_False by lia.
    - rewrite IH, dbyte_put. repeat case_decide; try lia; try done. f_equal. lia. }
  rewrite H. by rewrite Z.add_0_r.
Qed.

Lemma length_pad n l : (length l <= n)%nat -> length (pad n l) = n.
Proof. intros H. unfold pad. rewrite length_app, repeat_length. lia. Qed.

Lemma length_copy83 n dot name : (length (copy83 n dot name).1 <= n)%nat.
Proof.
  revert name. induction n as [|n IH]; intros [|c name]; cbn; try lia. destruct (dot && (c =? ch_dot)); [cbn; lia|].
  specialize (IH name). destruct (copy83 n dot name). cbn in *. lia.
Qed.

Lemma length_str_to_fat83 name : length (str_to_fat83 name) = 11%nat.
Proof.
  unfold str_to_fat83. pose proof (length_copy83 8 true name) as H8. destruct (copy83 8 true name) as [base rest].
  cbn [fst] in H8. rewrite length_app, (length_pad 8) by done. rewrite (length_pad 3); [done|].
  destruct rest as [|c rest]; [cbn; lia|]. destruct (c =? ch_dot); [apply length_copy83|cbn; lia].
Qed.

(** Names a directory entry can hold: printable characters. *)
Definition name_ok (name : cstr) : Prop := name <> [] /\ Forall (fun c => 0 < c < 128) name.

Lemma upcase_range c : 0 < c < 128 -> 0 < upcase c < 128.
Proof. unfold upcase. destruct (Z.leb_spec 97 c), (Z.leb_spec c 122); cbn; lia. Qed.

Lemma copy83_range n dot name : Forall (fun c => 0 < c < 128) name ->
  Forall (fun c => 0 < c < 128) (copy83 n dot name).1 /\ Forall (fun c => 0 < c < 128) (copy83 n dot name).2.
Proof.
  revert name. induction n as [|n IH]; intros [|c name] H; cbn; [by split..|].
  apply Forall_cons in H as [Hc Hn]. destruct (dot && (c =? ch_dot)); [by split; [|constructor]|].
  destruct (IH name Hn) as [H1 H2]. destruct (copy83 n dot name). cbn in *. split; [|done]. constructor; [by apply upcase_range|done].
Qed.

Lemma pad_range n l : Forall (fun c => 0 < c < 128) l -> Forall (fun c => 0 < c < 128) (pad n l).
Proof.
  intros H. apply Forall_app. split; [done|]. apply Forall_forall. intros x Hx%list_elem_of_In%repeat_spec. subst. unfold ch_space. lia.
Qed.

Lemma str_to_fat83_range name : Forall (fun c => 0 < c < 128) name -> Forall (fun c => 0 < c < 128) (str_to_fat83 name).
Proof.
  intros H. unfold str_to_fat83. destruct (copy83_range 8 true name H) as [H1 H2]. destruct (copy83 8 true name) as [base rest].
  apply Forall_app. split; [by apply pad_range|]. apply pad_range. destruct rest as [|c rest]; [constructor|].
  apply Forall_cons in H2 as [_ H2]. destruct (c =? ch_dot); [by apply copy83_range|constructor].
Qed.

Lemma new_dirent_byte e name d x : dbyte (new_dirent e name d) x =
  if decide (x = e + 11) then FAT_ATTR_ARCHIVE
  else if decide (e <= x < e + 11) then aget (str_to_fat83 name) (x - e)
  else if decide (e <= x < e + 32) then 0 else dbyte d x.
Proof.
  unfold new_dirent. rewrite dbyte_put, !put_bytes_byte. unfold zlen. rewrite length_str_to_fat83.
  change (Z.of_nat 11) with 11. change (Z.of_nat (length (repeat 0 32))) with 32.
  repeat case_decide; try lia; try done. apply aget_repeat. lia.
Qed.

Lemma fat83_first name : name_ok name ->
  exists c l, str_to_fat83 name = c :: l /\ 0 < c < 128 /\ Forall (fun c => 0 < c < 128) l.
Proof.
  intros [_ H]. pose proof (length_str_to_fat83 name) as Hl. pose proof (str_to_fat83_range name H) as Hr.
  destruct (str_to_fat83 name) as [|c l]; [done|]. apply Forall_cons in Hr as [Hc Hr]. by exists c, l.
Qed.

(** What the new entry says. *)
Lemma new_dirent_facts i name d : slot f i -> name_ok name -> bytes_ok d ->
  let d' := new_dirent (ent f i) name d in
  bytes_ok d' /\ used f d' i = true /\ dfree f d' i = false /\ dname f d' i = str_to_fat83 name
  /\ dattr f d' i = FAT_ATTR_ARCHIVE /\ dfirst f d' i = 0 /\ dsize f d' i = 0
  /\ (forall x, ~ (ent f i <= x < ent f i + 32) -> dbyte d' x = dbyte d x).
Proof.
  intros Hi Hn Hb d'. destruct (fat83_first name Hn) as (c & l & E & Hc & Hl).
  assert (bytes_ok d') as Hb'.
  { intros x. unfold d'. rewrite new_dirent_byte. repeat case_decide; [unfold FAT_ATTR_ARCHIVE; lia| |lia|apply Hb].
    pose proof (str_to_fat83_range name (proj2 Hn)) as Hr. unfold aget. destruct (lookup_lt_is_Some_2 (str_to_fat83 name) (Z.to_nat (x - ent f i))) as [y Hy].
    { rewrite length_str_to_fat83. lia. }
    rewrite (list_lookup_total_correct _ _ _ Hy). rewrite Forall_lookup in Hr. specialize (Hr _ _ Hy). cbn in Hr. lia. }
  assert (dbyte d' (ent f i) = c) as Ec.
  { unfold d'. rewrite new_dirent_byte. rewrite decide_False by lia. rewrite decide_True by lia. rewrite Z.sub_diag, E. done. }
  assert (dbyte d' (ent f i + 11) = FAT_ATTR_ARCHIVE) as Ea by (unfold d'; rewrite new_dirent_byte; by rewrite decide_True).
  assert (forall k, 12 <= k < 32 -> dbyte d' (ent f i + k) = 0) as Ez.
  { intros k Hk. unfold d'. rewrite new_dirent_byte. rewrite !decide_False by lia. by rewrite decide_True by lia. }
  assert (dfree f d' i = false) as Hf.
  { unfold dfree. rewrite Ec. rewrite (proj2 (Z.eqb_neq c 0)), (proj2 (Z.eqb_neq c 0xE5)) by lia. done. }
  split; [done|]. split; [unfold used; rewrite Hf, Ea; done|]. split; [done|]. split; [|split; [done|]].
  - unfold dname. apply list_eq. intros k. destruct (decide (k < 11)%nat) as [Hk|Hk].
    + replace k with (Z.to_nat (Z.of_nat k)) at 1 by lia. rewrite dbytes_lookup by lia. unfold d'. rewrite new_dirent_byte.
      rewrite decide_False by lia. rewrite decide_True by lia. replace (ent f i + Z.of_nat k - ent f i) with (Z.of_nat k) by lia.
      unfold aget. rewrite Nat2Z.id. symmetry. apply list_lookup_lookup_total_lt. rewrite length_str_to_fat83. lia.
    + rewrite !lookup_ge_None_2; [done|..]; rewrite ?length_dbytes, ?length_str_to_fat83; lia.
  - split; [|split].
    + unfold dfirst. rewrite u16le_eq by done. rewrite <- Z.add_assoc. rewrite !Ez by lia. done.
    + unfold dsize. rewrite u32le_eq by done. rewrite <- !Z.add_assoc. rewrite !Ez by lia. done.
    + intros x Hx. unfold d'. rewrite new_dirent_byte. by rewrite !decide_False by lia.
Qed.
End ops.
