(* ===== verification/Fat12Props.v ===== *)
(** FAT12 files: what is written is read back, and nothing else changes. *)

From S2P Require Import Prelude CString Fat12 Fat12Table Fat12Dir Fat12Ops.

Lemma count_true_add (g g' : Z -> bool) n l : NoDup l -> (forall x, x ∈ l -> 0 <= x < Z.of_nat n /\ g x = false) ->
  (forall x, 0 <= x < Z.of_nat n -> g' x = g x || bool_decide (x ∈ l)) ->
  count_true g' n = count_true g n + Z.of_nat (length l).
Proof.
  revert g'. induction l as [|y l IH]; intros g' Hnd Hl Hg.
  - rewrite (count_true_ext g' g); [cbn; lia|]. intros x Hx. rewrite Hg by done.
    rewrite bool_decide_false by apply not_elem_of_nil. apply orb_false_r.
  - apply NoDup_cons in Hnd as [Hy Hnd]. set (h x := g x || bool_decide (x ∈ l)).
    destruct (Hl y ltac:(by left)) as [Hyn Hyg].
    rewrite (count_true_flip g' h n y Hyn).
    + rewrite (IH h Hnd); [cbn [length]; lia| |done]. intros x Hx. apply Hl. by right.
    + rewrite Hg by done. rewrite (bool_decide_true (y ∈ y :: l)) by (by left). apply orb_true_r.
    + unfold h. by rewrite Hyg, bool_decide_false.
    + intros x Hx Hne. rewrite Hg by done. unfold h. f_equal. apply bool_decide_ext. set_solver.
Qed.

Section props.
Context (f : fat12) (G : geom_ok f).

Abbreviation get := (fat12_get_next_cluster f).
Abbreviation cb := (cb f).
Abbreviation valid := (valid f).
Abbreviation ent := (ent f).
Abbreviation slot := (slot f).

(** ** Finding *)

Definition has_name (d : disk) (name : cstr) (i : Z) : Prop := slot i /\ used f d i = true /\ dname f d i = str_to_fat83 name.

Lemma matches_has_name d name i : slot i -> (matches f d name i = true <-> has_name d name i).
Proof. intros Hi. unfold matches, has_name. rewrite andb_true_iff, bool_decide_eq_true. tauto. Qed.

Lemma find_cases d C name : fat_inv f d C ->
  (exists i, has_name d name i /\ find_dirent f d name = ent i) \/ (find_dirent f d name = 0 /\ forall i, ~ has_name d name i).
Proof.
  intros I. destruct (find_dirent_search f G d name (fi_end _ _ _ I)) as [(j & _ & H2 & H3 & H4 & _)|[H1 H2]].
  - left. exists j. split; [by apply matches_has_name|done].
  - right. split; [done|]. intros i Hi. pose proof (proj1 Hi) as Hs. apply (matches_has_name d name i Hs) in Hi.
    rewrite H2 in Hi; [done|unfold Fat12Dir.slot in Hs; lia|done].
Qed.

Lemma has_name_eq d C name i j : fat_inv f d C -> has_name d name i -> has_name d name j -> i = j.
Proof. intros I (H1 & H2 & H3) (H4 & H5 & H6). apply (fi_names _ _ _ I); [done..|congruence]. Qed.

(** ** Reading *)

Definition is_dir (d : disk) (i : Z) : bool := negb (Z.land (dattr f d i) FAT_ATTR_DIRECTORY =? 0).

(** What [fat12_read_file] returns for the entry [i]. *)
Definition read_result (d : disk) (C : Z -> list Z) (i max : Z) : Z * list Z :=
  if is_dir d i then (-1, []) else
  let l := take (Z.to_nat max) (file_data f d C i) in (zlen l, l).

Lemma u16_range d p : bytes_ok d -> 0 <= u16le d p < 65536.
Proof. intros Hd. rewrite u16le_eq by done. pose proof (Hd p). pose proof (Hd (p + 1)). lia. Qed.
Lemma u32_range' d p : bytes_ok d -> is_u32 (u32le d p).
Proof. intros Hd. rewrite u32le_eq by done. pose proof (Hd p). pose proof (Hd (p + 1)). pose proof (Hd (p + 2)). pose proof (Hd (p + 3)). unfold is_u32. lia. Qed.

Lemma chain_bytes d C i : fat_inv f d C -> slot i -> used f d i = true ->
  0 <= dsize f d i <= Z.of_nat (length (C i)) * cb /\ Z.of_nat (length (C i)) * cb < 0x80000000.
Proof.
  intros I Hs Hu. pose proof (fi_size _ _ _ I i Hs Hu). pose proof (u32_range' d (ent i + 28) (fi_bytes _ _ _ I)) as Hr.
  pose proof (valid_length f G (C i) (fi_nodup _ _ _ I i Hs Hu) (chain_valid f _ _ _ (fi_chain _ _ _ I i Hs Hu))).
  pose proof (cb_pos f G). pose proof (ge_data f G). pose proof (root_small f G). pose proof (root_pos f G).
  unfold dsize in *. unfold is_u32 in Hr. nia.
Qed.

Lemma read_ok d C path i max : fat_inv f d C -> path_to_name path <> [] -> has_name d (path_to_name path) i -> 0 <= max ->
  fat12_read_file f d path max = Some (read_result d C i max).
Proof.
  intros I Hne Hi Hm. unfold fat12_read_file. rewrite (ge_present f G), (bool_decide_false _ Hne). cbn [negb].
  destruct (find_cases d C (path_to_name path) I) as [(j & Hj & ->)|[_ Hn]]; [|by exfalso; apply (Hn i)].
  rewrite <- (has_name_eq d C _ i j I Hi Hj). destruct Hi as (Hs & Hu & _). pose proof (ent_range f G i Hs).
  rewrite (proj2 (Z.eqb_neq _ 0)) by lia. unfold read_result, is_dir. fold (dattr f d i).
  destruct (negb (Z.land (dattr f d i) FAT_ATTR_DIRECTORY =? 0)); [done|].
  fold (dsize f d i). fold (dfirst f d i). destruct (chain_bytes d C i I Hs Hu) as [Hsz Hlen].
  set (m := if dsize f d i <? max then dsize f d i else max).
  assert (m = Z.min (dsize f d i) max) as Em by (unfold m; destruct (Z.ltb_spec (dsize f d i) max); lia).
  assert (read_loop (read_fuel m) f d (dfirst f d i) 0 m = Some (take (Z.to_nat m) (content f d (C i)))) as ->.
  { destruct (fi_chain _ _ _ I i Hs Hu) as [[E1 E2]|[_ Hl]].
    - rewrite E1, E2. unfold read_fuel. replace (Z.to_nat ((m + 1) * 4097)) with (S (Z.to_nat ((m + 1) * 4097) - 1)) by lia. cbn.
      by rewrite take_nil.
    - rewrite (read_loop_ok f G _ _ _ (C i)); [by rewrite Z.sub_0_r|done|lia..|unfold read_fuel; lia]. }
  assert (take (Z.to_nat m) (content f d (C i)) = take (Z.to_nat max) (file_data f d C i)) as ->.
  { unfold file_data. rewrite take_take. f_equal. lia. }
  rewrite i32_small; [done|]. unfold zlen, file_data. rewrite !length_take. pose proof (length_content f G d (C i)). lia.
Qed.

Lemma read_missing d C path max : fat_inv f d C -> (forall i, ~ has_name d (path_to_name path) i) ->
  fat12_read_file f d path max = Some (-1, []).
Proof.
  intros I Hn. unfold fat12_read_file. rewrite (ge_present f G). cbn [negb]. case_bool_decide; [done|].
  destruct (find_cases d C (path_to_name path) I) as [(i & Hi & _)|[-> _]]; [by exfalso; apply (Hn i)|done].
Qed.

(** ** The entry to write to *)

(** Another entry, and the contents of clusters, are the same in both images. *)
Definition others_same (d d' : disk) (i : Z) : Prop := forall j, slot j -> j <> i -> same_ent f d d' j.

Lemma ent_apart i j : i <> j -> forall a, ent i <= a < ent i + 32 -> ~ (ent j <= a < ent j + 32).
Proof. unfold Fat12Dir.ent. intros Hne a Ha Hj. lia. Qed.

Lemma entry_change_same d d' i : slot i -> bytes_ok d -> bytes_ok d' ->
  (forall a, ~ (ent i <= a < ent i + 32) -> dbyte d' a = dbyte d a) ->
  others_same d d' i /\ (forall c, valid c -> get d' c = get d c) /\ (forall c, valid c -> cdata f d' c = cdata f d c).
Proof.
  intros Hi Hb Hb' H. pose proof (ent_range f G i Hi) as R. split; [|split].
  - intros j Hj Hne a Ha. apply H. by apply (ent_apart j i).
  - intros c Hc. apply (get_frame f G); [done..|]. intros a Ha. apply H. lia.
  - intros c Hc. apply dbytes_ext. intros a Ha. apply H. pose proof (coff_range f G c Hc). lia.
Qed.

(** The slot [i] is ready for [name]: its entry exists or was made, with the chain [old]. *)
Record opened (d d1 : disk) (C C1 : Z -> list Z) (name : cstr) (i : Z) : Prop := {
  op_inv : fat_inv f d1 C1;
  op_name : has_name d1 name i;
  op_others : others_same d d1 i;
  op_chains j : j <> i -> C1 j = C j;
  op_get c : valid c -> get d1 c = get d c;
  op_data c : valid c -> cdata f d1 c = cdata f d c;
  op_old : (has_name d name i /\ C1 i = C i /\ d1 = d)
           \/ ((forall j, ~ has_name d name j) /\ dfree f d i = true /\ C1 i = [] /\ is_dir d1 i = false);
}.

Lemma open_dirent_ok d C name : fat_inv f d C -> name_ok name ->
  (exists i d1 C1, open_dirent f d name = (ent i, d1) /\ opened d d1 C C1 name i)
  \/ (open_dirent f d name = (0, d) /\ (forall i, ~ has_name d name i) /\ forall i, slot i -> dfree f d i = false).
Proof.
  intros I Hn. unfold open_dirent. destruct (find_cases d C name I) as [(i & Hi & ->)|[-> Hnone]].
  - left. exists i, d, C. pose proof (ent_range f G i (proj1 Hi)). rewrite (proj2 (Z.eqb_neq (ent i) 0)) by lia.
    split; [done|]. split; try done. by left.
  - cbn [Z.eqb negb]. destruct (free_slot_root f G d) as [(i & _ & Hs & Hf & -> & Hlow)|[-> Hno]].
    2: { right. split; [done|]. split; [done|]. intros i Hi. apply Hno; [|done]. unfold Fat12Dir.slot in Hi. lia. }
    left. pose proof (ent_range f G i Hs). rewrite (proj2 (Z.eqb_neq (ent i) 0)) by lia.
    exists i, (new_dirent (ent i) name d), (upd C i []). split; [done|].
    destruct (new_dirent_facts f i name d Hs Hn (fi_bytes _ _ _ I)) as (B & U & F & N & A & First & Size & Rest).
    destruct (entry_change_same d _ i Hs (fi_bytes _ _ _ I) B Rest) as (S1 & S2 & S3).
    assert (forall j, slot j -> j <> i -> used f d j = true -> dname f d j <> str_to_fat83 name) as Hnn
      by (intros j Hj Hne Uj E; by apply (Hnone j)).
    split; [|done|done| |done|done|right; split; [done|split; [done|split]]].
    + apply (fat_inv_update f d); [done|done|done|done| |done|..].
      * intros j c Hj Hne Uj Hc. apply S2. pose proof (chain_valid f _ _ _ (fi_chain _ _ _ I j Hj Uj)) as Hv.
        rewrite Forall_forall in Hv. by apply Hv.
      * intros _ j Hj. apply Hlow. lia.
      * intros j Hj Hne Uj _ E. rewrite N in E. by apply (Hnn j).
      * intros _. rewrite First, Size. split; [by left|]. split; [cbn; lia|]. split; [constructor|]. intros j c _ _ _ Hc. by apply elem_of_nil in Hc.
    + intros j Hne. unfold upd. by rewrite decide_False.
    + unfold upd. by rewrite decide_True.
    + unfold is_dir. rewrite A. done.
Qed.

(** ** Replacing the chain of an entry *)

(** Writing the last six bytes of an entry: first cluster and size. *)
Definition put_fields (d : disk) (i first size : Z) : disk := w32le (ent i + 28) size (w16le (ent i + 26) first d).

Lemma put_fields_facts d i first size : slot i -> bytes_ok d -> 0 <= first < 65536 -> is_u32 size ->
  let d' := put_fields d i first size in
  bytes_ok d' /\ dfirst f d' i = first /\ dsize f d' i = size /\ used f d' i = used f d i /\ dfree f d' i = dfree f d i
  /\ dname f d' i = dname f d i /\ is_dir d' i = is_dir d i /\ (forall x, ~ (ent i <= x < ent i + 32) -> dbyte d' x = dbyte d x).
Proof.
  intros Hi Hb Hf Hs d'. assert (bytes_ok (w16le (ent i + 26) first d)) as Hb1 by (by apply bytes_ok_w16le).
  assert (forall x, x < ent i + 26 \/ ent i + 32 <= x -> dbyte d' x = dbyte d x) as Hx.
  { intros x Hx. unfold d', put_fields. rewrite w32le_byte, w16le_byte. repeat case_decide; lia || done. }
  assert (bytes_ok d') as Hb' by (by apply bytes_ok_w32le).
  split; [done|]. split; [|split; [by apply u32le_w32le|]].
  - unfold dfirst. rewrite u16le_eq by done. unfold d', put_fields.
    rewrite <- (u16le_w16le (ent i + 26) first d Hb Hf) at 3. rewrite u16le_eq by done. rewrite !(w32le_byte (ent i + 28)).
    repeat case_decide; lia || done.
  - assert (dname f d' i = dname f d i) as E by (apply dbytes_ext; intros x Hxx; apply Hx; lia).
    unfold used, dfree, is_dir, dattr. rewrite !Hx by lia. split_and!; try done. intros x Hxx. apply Hx. lia.
Qed.

(** From [d] to [d']: entry [i] has the new chain [cs], everything else keeps its own. *)
Lemma rechained d d' C i cs : fat_inv f d C -> slot i -> used f d i = true -> bytes_ok d' -> others_same d d' i ->
  used f d' i = true -> dfree f d' i = dfree f d i -> dname f d' i = dname f d i ->
  (forall j c, slot j -> j <> i -> used f d j = true -> c ∈ C j -> get d' c = get d c) ->
  chain f d' (dfirst f d' i) cs -> dsize f d' i <= Z.of_nat (length cs) * cb -> NoDup cs ->
  (forall j c, slot j -> j <> i -> used f d j = true -> c ∈ cs -> c ∈ C j -> False) ->
  fat_inv f d' (upd C i cs).
Proof.
  intros I Hi Hu Hb Ho Hu' Hf Hn Hg Hc Hs Hnd Hd.
  assert (dfree f d i = false) as Hfi by (unfold used in Hu; by destruct (dfree f d i)).
  apply (fat_inv_update f d); [done|done|done|done|done|congruence|congruence| |done].
  intros j Hj Hne Uj _ E. apply Hne. symmetry. apply (fi_names _ _ _ I); [done|done|done|done|congruence].
Qed.

(** Cutting off the old chain. *)
Record emptied (d1 d3 : disk) (C1 : Z -> list Z) (name : cstr) (i : Z) : Prop := {
  em_inv : fat_inv f d3 (upd C1 i []);
  em_name : has_name d3 name i;
  em_others : others_same d1 d3 i;
  em_get c : valid c -> get d3 c = if decide (c ∈ C1 i) then 0 else get d1 c;
  em_data c : valid c -> cdata f d3 c = cdata f d1 c;
  em_first : dfirst f d3 i = 0 /\ dsize f d3 i = 0 /\ is_dir d3 i = is_dir d1 i;
}.

Lemma fat_inv_valid d C j c : fat_inv f d C -> slot j -> used f d j = true -> c ∈ C j -> valid c /\ get d c <> 0.
Proof.
  intros I Hj Uj Hc. pose proof (fi_chain _ _ _ I j Hj Uj) as Hch. split; [|by apply (chain_nonzero f d _ _ c Hch)].
  pose proof (chain_valid f _ _ _ Hch) as Hv. rewrite Forall_forall in Hv. by apply Hv.
Qed.

Lemma empty_ok d1 C1 name i : fat_inv f d1 C1 -> has_name d1 name i ->
  exists d2, free_chain (Z.to_nat CHAIN_FUEL) f d1 (dfirst f d1 i) = Some d2 /\ emptied d1 (put_fields d2 i 0 0) C1 name i.
Proof.
  intros I (Hs & Hu & Hn). destruct (free_chain_chain f G d1 (dfirst f d1 i) (C1 i)) as (d2 & E & Hb2 & Hd2 & Hg2);
    [apply (fi_bytes _ _ _ I)|by apply (fi_chain _ _ _ I)|by apply (fi_nodup _ _ _ I)|].
  exists d2. split; [done|]. set (d3 := put_fields d2 i 0 0).
  destruct (put_fields_facts d2 i 0 0 Hs Hb2 ltac:(lia) ltac:(unfold is_u32; lia)) as (B3 & F3 & S3 & U3 & Fr3 & N3 & D3 & R3).
  fold d3 in B3, F3, S3, U3, Fr3, N3, D3, R3. destruct (entry_change_same d2 d3 i Hs Hb2 B3 R3) as (O3 & G3 & Da3).
  assert (forall j, slot j -> same_ent f d1 d2 j) as Hsame.
  { intros j Hj a Ha. apply Hd2. pose proof (ent_range f G j Hj). lia. }
  destruct (same_ent_facts f d1 d2 i (Hsame i Hs)) as (_ & U2 & Fr2 & N2 & A2 & _).
  assert (others_same d1 d3 i) as O by (intros j Hj Hne a Ha; rewrite (O3 j Hj Hne a Ha); by apply (Hsame j Hj)).
  assert (forall c, valid c -> get d3 c = if decide (c ∈ C1 i) then 0 else get d1 c) as Hg by (intros c Hc; rewrite G3 by done; by apply Hg2).
  split; [|by split; [|split; congruence]|done|done| |split; [done|split; [done|]]].
  - apply (rechained d1); [done..|congruence|congruence|congruence| | | |constructor|].
    + intros j c Hj Hne Uj Hc. destruct (fat_inv_valid d1 C1 j c I Hj Uj Hc) as [Hv _]. rewrite Hg by done.
      rewrite decide_False; [done|]. intros Hci. apply Hne. by apply (fi_apart _ _ _ I j i c).
    + by left.
    + rewrite S3. cbn. lia.
    + intros j c _ _ _ Hc. by apply elem_of_nil in Hc.
  - intros c Hc. rewrite Da3 by done. by apply (cdata_same_data f G).
  - unfold is_dir in *. rewrite D3. by rewrite A2.
Qed.

Lemma free_count_release d d' cs : NoDup cs -> (forall c, c ∈ cs -> valid c /\ get d c <> 0) ->
  (forall c, valid c -> get d' c = if decide (c ∈ cs) then 0 else get d c) ->
  free_count f d' = free_count f d + Z.of_nat (length cs).
Proof.
  intros Hnd Hv Hg. unfold free_count. pose proof (ge_total f G).
  rewrite (count_true_add (fun k => get d (2 + k) =? 0) (fun k => get d' (2 + k) =? 0) _ (map (fun c => c - 2) cs)).
  - by rewrite length_map.
  - apply (NoDup_fmap_2_strong (fun c => c - 2)); [|done]. intros x y _ _ E. lia.
  - intros x Hx. apply list_elem_of_fmap in Hx as (c & -> & Hc). destruct (Hv c Hc) as [Hvc Hnz]. unfold Fat12Table.valid in Hvc.
    split; [lia|]. replace (2 + (c - 2)) with c by lia. by apply Z.eqb_neq.
  - intros k Hk. rewrite Hg by (unfold Fat12Table.valid; lia).
    assert ((k ∈ map (fun c => c - 2) cs) <-> (2 + k ∈ cs)) as Hiff.
    { split; [intros Hx; apply list_elem_of_fmap in Hx as (c & -> & Hc); by replace (2 + (c - 2)) with c by lia|].
      intros Hc. apply list_elem_of_fmap. exists (2 + k). split; [lia|done]. }
    case_decide as Hc.
    + rewrite bool_decide_true by (by apply Hiff). by rewrite orb_true_r.
    + rewrite bool_decide_false by (by rewrite Hiff). by rewrite orb_false_r.
Qed.

(** ** Other files *)

Record keeps (d : disk) (C : Z -> list Z) (d' : disk) (C' : Z -> list Z) (i : Z) (name : cstr) : Prop := {
  kp_inv : fat_inv f d' C';
  kp_others : others_same d d' i;
  kp_chains j : j <> i -> C' j = C j;
  kp_data j c : slot j -> j <> i -> used f d j = true -> c ∈ C j -> cdata f d' c = cdata f d c;
  kp_name : has_name d' name i;
  kp_old : used f d i = true -> dname f d i = str_to_fat83 name;
}.

Lemma keeps_file_read d C d' C' i name path max : fat_inv f d C -> keeps d C d' C' i name ->
  str_to_fat83 (path_to_name path) <> str_to_fat83 name -> 0 <= max ->
  fat12_read_file f d' path max = fat12_read_file f d path max.
Proof.
  intros I [K1 K2 K3 K4 (_ & _ & K5) K6] Hne Hm.
  destruct (decide (path_to_name path = [])) as [E0|Hnil]; [unfold fat12_read_file; rewrite E0; by rewrite (ge_present f G)|].
  assert (forall j, has_name d (path_to_name path) j <-> has_name d' (path_to_name path) j) as Hiff.
  { intros j. destruct (decide (j = i)) as [->|Hji].
    - split; intros (H1 & H2 & H3); exfalso; apply Hne; [rewrite <- H3; by apply K6|congruence].
    - unfold has_name. split; intros (H1 & H2 & H3); destruct (same_ent_facts f d d' j (K2 j H1 Hji)) as (_ & E1 & _ & E2 & _);
        rewrite ?E1, ?E2 in *; done. }
  destruct (find_cases d C (path_to_name path) I) as [(j & Hj & _)|[_ Hn]].
  - rewrite (read_ok d' C' path j) by (done || by apply Hiff). rewrite (read_ok d C path j) by done. f_equal.
    destruct Hj as (Hs & Hu & Hnm). assert (j <> i) as Hji by (intros ->; apply Hne; rewrite <- Hnm; by apply K6).
    destruct (same_ent_facts f d d' j (K2 j Hs Hji)) as (_ & _ & _ & _ & E1 & _ & E2).
    unfold read_result, is_dir, file_data. rewrite E1, E2, K3 by done.
    rewrite (content_ext f d d' (C j)); [done|]. intros c Hc. by apply (K4 j).
  - rewrite (read_missing d' C'), (read_missing d C) by (done || (intros j; rewrite <- Hiff; by apply Hn)). done.
Qed.

(** ** Filling the file *)

Lemma writing_nil d : bytes_ok d -> writing f d [].
Proof. intros Hb. by split; [|constructor|constructor|]. Qed.

Lemma written_same d3 d4 new data ok : written f d3 d4 [] new data ok -> forall j, slot j -> same_ent f d3 d4 j.
Proof.
  intros [_ _ _ Hr _ _ _ _] j Hj a Ha. apply Hr. pose proof (ent_range f G j Hj). lia.
Qed.

(** Only free clusters were taken. *)
Lemma written_old d3 d4 C3 new data ok j c : fat_inv f d3 C3 -> written f d3 d4 [] new data ok ->
  slot j -> used f d3 j = true -> c ∈ C3 j -> valid c /\ c ∉ new /\ get d4 c = get d3 c /\ cdata f d4 c = cdata f d3 c.
Proof.
  intros I [_ Hf Hg _ Hd _ _ _] Hj Uj Hc. destruct (fat_inv_valid d3 C3 j c I Hj Uj Hc) as [Hv Hnz].
  assert (c ∉ new) as Hn by (intros Hin; rewrite Forall_forall in Hf; by apply Hnz, Hf).
  split; [done|]. split; [done|]. split; [by apply Hg|by apply Hd].
Qed.

(** A file that could not be filled stays empty. *)
Lemma unfilled d3 d4 C3 name i new data ok : fat_inv f d3 C3 -> has_name d3 name i -> dfirst f d3 i = 0 -> dsize f d3 i = 0 ->
  written f d3 d4 [] new data ok -> fat_inv f d4 (upd C3 i []) /\ has_name d4 name i.
Proof.
  intros I (Hs & Hu & Hn) Hf Hz W. pose proof (written_same _ _ _ _ _ W) as Hsame.
  destruct (same_ent_facts f d3 d4 i (Hsame i Hs)) as (_ & E1 & E2 & E3 & _ & E4 & E5).
  split; [|by split; [|split; congruence]]. apply (rechained d3); try done; try congruence.
  - apply (wr_bytes _ _ _ (wn_writing _ _ _ _ _ _ _ W)).
  - intros j Hj _. by apply Hsame.
  - intros j c Hj Hne Uj Hc. by apply (written_old d3 d4 C3 new data ok j c I W).
  - left. split; [congruence|done].
  - rewrite E5, Hz. cbn. lia.
  - constructor.
  - intros j c _ _ _ Hc. by apply elem_of_nil in Hc.
Qed.

(** A filled file gets its chain and size, and holds the data. *)
Lemma filled d3 d4 C3 name i new data : fat_inv f d3 C3 -> has_name d3 name i -> data <> [] -> written f d3 d4 [] new data true ->
  let d5 := put_fields d4 i (first_of new) (u32 (zlen data)) in
  fat_inv f d5 (upd C3 i new) /\ has_name d5 name i /\ others_same d3 d5 i /\ is_dir d5 i = is_dir d3 i
  /\ (forall j c, slot j -> j <> i -> used f d3 j = true -> c ∈ C3 j -> cdata f d5 c = cdata f d3 c)
  /\ file_data f d5 (upd C3 i new) i = data.
Proof.
  intros I (Hs & Hu & Hn) Hne W. cbv zeta. pose proof (wn_writing _ _ _ _ _ _ _ W) as [Wb Wn Wv Wl]. cbn [app] in *.
  destruct (wn_content _ _ _ _ _ _ _ W eq_refl) as [Ht Hlen]. pose proof (wn_nonempty _ _ _ _ _ _ _ W eq_refl Hne) as Hnn.
  pose proof (valid_length f G new Wn Wv) as Hvl. pose proof (cb_pos f G). pose proof (ge_data f G). pose proof (root_small f G).
  pose proof (root_pos f G). assert (0 <= zlen data < 0x80000000) as Hz by (unfold zlen in *; nia).
  destruct new as [|c0 new']; [done|]. set (new := c0 :: new') in *. change (first_of new) with c0 in *.
  assert (valid c0) as Hv0 by (by apply Forall_cons in Wv as [? _]). pose proof (ge_total f G). pose proof Hv0 as Hv0'. unfold Fat12Table.valid in Hv0'.
  rewrite (u32_id (zlen data)) by (unfold is_u32; lia). set (d5 := put_fields d4 i c0 (zlen data)).
  destruct (put_fields_facts d4 i c0 (zlen data) Hs Wb ltac:(lia) ltac:(unfold is_u32; lia)) as (B5 & F5 & Z5 & U5 & Fr5 & N5 & D5 & R5).
  fold d5 in B5, F5, Z5, U5, Fr5, N5, D5, R5. destruct (entry_change_same d4 d5 i Hs Wb B5 R5) as (O5 & G5 & Da5).
  pose proof (written_same _ _ _ _ _ W) as Hsame. destruct (same_ent_facts f d3 d4 i (Hsame i Hs)) as (_ & E1 & E2 & E3 & E4 & _).
  assert (others_same d3 d5 i) as O by (intros j Hj Hji a Ha; rewrite (O5 j Hj Hji a Ha); by apply (Hsame j Hj)).
  assert (content f d5 new = content f d4 new) as Hco.
  { apply content_ext. intros c Hc. apply Da5. rewrite Forall_forall in Wv. by apply Wv. }
  split; [|split; [by split; [|split; congruence]|split; [done|split; [|split]]]].
  - apply (rechained d3); try done; try congruence.
    + intros j c Hj Hji Uj Hc. destruct (written_old d3 d4 C3 new data true j c I W Hj Uj Hc) as (Hv & _ & Hg & _). by rewrite G5.
    + right. split; [done|]. rewrite F5. apply (links_ext f d4); [|by apply Wl]. intros c Hc. apply G5. rewrite Forall_forall in Wv. by apply Wv.
    + intros j c Hj Hji Uj Hc Hcj. by destruct (written_old d3 d4 C3 new data true j c I W Hj Uj Hcj) as (_ & Hnot & _).
  - rewrite D5. unfold is_dir. by rewrite E4.
  - intros j c Hj Hji Uj Hc. destruct (written_old d3 d4 C3 new data true j c I W Hj Uj Hc) as (Hv & _ & _ & Hd). by rewrite Da5.
  - unfold file_data, upd. rewrite decide_True by done. rewrite Z5, Hco. unfold zlen. by rewrite Nat2Z.id.
Qed.

(** ** The guarantee *)

(** Room for [len] bytes under a name: an entry or a free slot, and enough clusters, those of the
    old contents included. *)
Definition room (d : disk) (C : Z -> list Z) (name : cstr) (len : Z) : Prop :=
  exists i, (has_name d name i /\ len <= (free_count f d + Z.of_nat (length (C i))) * cb)
            \/ ((forall j, ~ has_name d name j) /\ slot i /\ dfree f d i = true /\ len <= free_count f d * cb).

Lemma opened_room d d1 C C1 name i len : fat_inv f d C -> opened d d1 C C1 name i ->
  (room d C name len <-> len <= (free_count f d1 + Z.of_nat (length (C1 i))) * cb).
Proof.
  intros I [O1 O2 _ _ O5 _ O7].
  assert (free_count f d1 = free_count f d) as ->.
  { unfold free_count. apply count_true_ext. intros k Hk. by rewrite O5 by (unfold Fat12Table.valid; lia). }
  destruct O7 as [(Hi & -> & ->)|(Hn & Hf & -> & _)]; unfold room; split.
  - intros (j & [(Hj & Hl)|(Hnone & _)]); [|by exfalso; apply (Hnone i)]. by rewrite (has_name_eq d C name i j I Hi Hj).
  - intros Hl. exists i. by left.
  - intros (j & [(Hj & _)|(_ & _ & _ & Hl)]); [by exfalso; apply (Hn j)|]. cbn. lia.
  - cbn. intros Hl. exists i. right. split; [done|]. split; [apply O2|]. split; [done|lia].
Qed.

(** The composition of the steps of a write. *)
Lemma keeps_compose d C d1 C1 d3 d5 C5 i name :
  opened d d1 C C1 name i -> emptied d1 d3 C1 name i -> fat_inv f d5 C5 -> has_name d5 name i ->
  others_same d3 d5 i -> (forall j, j <> i -> C5 j = C1 j) ->
  (forall j c, slot j -> j <> i -> used f d3 j = true -> c ∈ C1 j -> cdata f d5 c = cdata f d3 c) ->
  keeps d C d5 C5 i name.
Proof.
  intros [O1 O2 O3 O4 O5 O6 O7] [E1 E2 E3 E4 E5 E6] I5 H5 S5 HC5 D5.
  split; [done| | | |done|].
  - intros j Hj Hne a Ha. by rewrite (S5 j Hj Hne a Ha), (E3 j Hj Hne a Ha), (O3 j Hj Hne a Ha).
  - intros j Hne. by rewrite HC5, O4.
  - intros j c Hj Hne Uj Hc. destruct (same_ent_facts f d d1 j (O3 j Hj Hne)) as (_ & Eu1 & _).
    destruct (same_ent_facts f d1 d3 j (E3 j Hj Hne)) as (_ & Eu3 & _). rewrite <- (O4 j Hne) in Hc.
    rewrite <- Eu1 in Uj. destruct (fat_inv_valid d1 C1 j c O1 Hj Uj Hc) as [Hv _].
    rewrite (D5 j) by (done || congruence). by rewrite E5, O6.
  - intros Uj. destruct O7 as [((_ & _ & Hnm) & _)|(_ & Hf & _)]; [done|]. unfold used in Uj. by rewrite Hf in Uj.
Qed.

Lemma upd_ne C i cs j : j <> i -> upd C i cs j = C j.
Proof. intros H. unfold upd. by rewrite decide_False. Qed.

(** The disk after the loop, when the entry stays empty. *)
Lemma unfilled_keeps d C d1 C1 d3 d4 i name new data ok : opened d d1 C C1 name i -> emptied d1 d3 C1 name i ->
  written f d3 d4 [] new data ok -> exists C5, keeps d C d4 C5 i name /\ dsize f d4 i = 0 /\ is_dir d4 i = is_dir d1 i.
Proof.
  intros O E W. destruct (em_first _ _ _ _ _ E) as (F3 & Z3 & Di3). pose proof (em_inv _ _ _ _ _ E) as I3.
  destruct (unfilled d3 d4 _ name i new data ok I3 (em_name _ _ _ _ _ E) F3 Z3 W) as [I4 H4].
  pose proof (written_same _ _ _ _ _ W) as Hs. eexists. split; [eapply (keeps_compose d C d1 C1 d3 d4); [done|done|exact I4|done|..]|].
  - intros j Hj _. by apply Hs.
  - intros j Hne. by rewrite !upd_ne.
  - intros j c Hj Hne Uj Hc. apply (written_old d3 d4 _ new data ok j c I3 W Hj Uj). by rewrite upd_ne.
  - destruct (same_ent_facts f d3 d4 i (Hs i (proj1 H4))) as (_ & _ & _ & _ & E1 & _ & E2). unfold is_dir in *. rewrite E1, E2. done.
Qed.

Lemma filled_keeps d C d1 C1 d3 d4 i name new data : opened d d1 C C1 name i -> emptied d1 d3 C1 name i ->
  data <> [] -> written f d3 d4 [] new data true ->
  let d5 := put_fields d4 i (first_of new) (u32 (zlen data)) in
  exists C5, keeps d C d5 C5 i name /\ is_dir d5 i = is_dir d1 i /\ file_data f d5 C5 i = data.
Proof.
  intros O E Hne W d5. destruct (em_first _ _ _ _ _ E) as (_ & _ & Di3). pose proof (em_inv _ _ _ _ _ E) as I3.
  destruct (filled d3 d4 _ name i new data I3 (em_name _ _ _ _ _ E) Hne W) as (I5 & H5 & O5 & Di5 & D5 & Hf). fold d5 in I5, H5, O5, Di5, D5, Hf.
  eexists. split; [eapply (keeps_compose d C d1 C1 d3 d5); [done|done|exact I5|done|done|..]|split; [congruence|done]].
  - intros j Hj. by rewrite !upd_ne.
  - intros j c Hj Hji Uj Hc. apply (D5 j); [done|done|done|]. by rewrite upd_ne.
Qed.

(** C24: a FAT12 write is durable and local.  On a well-formed image (a supported geometry, entries
    with distinct names and disjoint, properly ended chains long enough for their sizes), for a
    non-empty name of 7-bit characters that is not the name of a directory (a write to a directory
    replaces its clusters: [fat12_write_directory]), [fat12_write_file] always returns and leaves a
    well-formed image on which every other file reads as before.  It returns 0 exactly when there is
    an entry or a free slot for the name and the free clusters together with those of the old contents
    suffice, and then reading the file returns the data; otherwise it returns -1. *)
Theorem fat12_write_read d C path data :
  fat_inv f d C -> name_ok (path_to_name path) -> Forall byte data ->
  (forall i, has_name d (path_to_name path) i -> is_dir d i = false) ->
  exists r d' C', fat12_write_file f d path data = Some (r, d') /\ fat_inv f d' C'
    /\ (forall path' max, str_to_fat83 (path_to_name path') <> str_to_fat83 (path_to_name path) -> 0 <= max ->
          fat12_read_file f d' path' max = fat12_read_file f d path' max)
    /\ ((r = 0 /\ room d C (path_to_name path) (zlen data)
         /\ forall max, 0 <= max -> fat12_read_file f d' path max
              = Some (Z.min max (zlen data), take (Z.to_nat max) data))
        \/ (r = -1 /\ ~ room d C (path_to_name path) (zlen data))).
Proof.
  intros I Hn Hby Hdir. set (name := path_to_name path) in *. unfold fat12_write_file. fold name.
  rewrite (ge_present f G), (bool_decide_false (name = [])) by apply Hn. cbn [negb].
  destruct (open_dirent_ok d C name I Hn) as [(i & d1 & C1 & -> & O)|(-> & Hnone & Hfull)].
  2: { exists (-1), d, C. split; [done|]. split; [done|]. split; [done|]. right. split; [done|]. intros (i & [(Hi & _)|(_ & Hs & Hf & _)]);
       [by apply (Hnone i)|]. rewrite (Hfull i Hs) in Hf. discriminate Hf. }
  pose proof (op_inv _ _ _ _ _ _ O) as I1. pose proof (op_name _ _ _ _ _ _ O) as H1. pose proof (ent_range f G i (proj1 H1)).
  rewrite (proj2 (Z.eqb_neq (ent i) 0)) by lia. fold (dfirst f d1 i).
  destruct (empty_ok d1 C1 name i I1 H1) as (d2 & -> & E). fold (put_fields d2 i 0 0). set (d3 := put_fields d2 i 0 0) in *.
  pose proof (em_inv _ _ _ _ _ E) as I3. pose proof (em_name _ _ _ _ _ E) as H3. destruct (em_first _ _ _ _ _ E) as (F3 & Z3 & Di3).
  destruct (write_loop_ok f G (length data) d3 data [] (writing_nil d3 (fi_bytes _ _ _ I3)) Hby (le_n _)) as (ok & d4 & new & Ew & W).
  change (write_loop (length data) f d3 data 0 0) with (write_loop (length data) f d3 data (first_of []) (last_of [])).
  rewrite Ew. cbn [app].
  assert (ok = true <-> room d C name (zlen data)) as Hok.
  { rewrite (wn_room _ _ _ _ _ _ _ W), bool_decide_eq_true. rewrite (opened_room d d1 C C1 name i _ I O).
    rewrite (free_count_release d1 d3 (C1 i)); [done|by apply (fi_nodup _ _ _ I1); apply H1| |apply (em_get _ _ _ _ _ E)].
    intros c Hc. destruct H1 as (Hs & Hu & _). by apply (fat_inv_valid d1 C1 i c I1). }
  assert (is_dir d1 i = false) as Hd1.
  { destruct (op_old _ _ _ _ _ _ O) as [(Hi & _ & ->)|(_ & _ & _ & ?)]; [by apply Hdir|done]. }
  destruct ok; [destruct (decide (data = [])) as [->|Hne]|].
  - rewrite bool_decide_true by done. destruct (unfilled_keeps d C d1 C1 d3 d4 i name new [] true O E W) as (C5 & K & Z4 & D4).
    exists 0, d4, C5. split; [done|]. split; [apply (kp_inv _ _ _ _ _ _ K)|]. split; [by intros; apply (keeps_file_read d C d4 C5 i name)|].
    left. split; [done|]. split; [by apply Hok|]. intros max Hm.
    rewrite (read_ok d4 C5 path i) by (apply (kp_inv _ _ _ _ _ _ K) || apply (kp_name _ _ _ _ _ _ K) || apply Hn || done).
    unfold read_result, file_data. rewrite D4, Hd1, Z4, take_0, take_nil. f_equal. f_equal. unfold zlen. cbn. lia.
  - rewrite bool_decide_false by done. fold (put_fields d4 i (first_of new) (u32 (zlen data))).
    destruct (filled_keeps d C d1 C1 d3 d4 i name new data O E Hne W) as (C5 & K & D5 & Hf). set (d5 := put_fields d4 i (first_of new) (u32 (zlen data))) in *.
    exists 0, d5, C5. split; [done|]. split; [apply (kp_inv _ _ _ _ _ _ K)|]. split; [by intros; apply (keeps_file_read d C d5 C5 i name)|].
    left. split; [done|]. split; [by apply Hok|]. intros max Hm.
    rewrite (read_ok d5 C5 path i) by (apply (kp_inv _ _ _ _ _ _ K) || apply (kp_name _ _ _ _ _ _ K) || apply Hn || done).
    unfold read_result. rewrite D5, Hd1, Hf. f_equal. f_equal. unfold zlen. rewrite length_take. lia.
  - destruct (unfilled_keeps d C d1 C1 d3 d4 i name new data false O E W) as (C5 & K & _).
    exists (-1), d4, C5. split; [done|]. split; [apply (kp_inv _ _ _ _ _ _ K)|]. split; [by intros; apply (keeps_file_read d C d4 C5 i name)|].
    right. split; [done|]. intros Hr. by apply Hok in Hr.
Qed.
End props.

(** * A small disk

    20 sectors of 64 bytes: the boot sector in eight, two tables of one sector, a directory of four
    entries, eight clusters. *)

Definition ex_bpb : disk :=
  list_to_map [(510, 0x55); (511, 0xAA); (11, 64); (13, 1); (14, 8); (16, 2); (17, 4); (22, 1); (19, 20)].
Definition ex_f : fat12 := (fat12_init (Some ex_bpb) 1280 fat12_zero).2.

Lemma ex_geom : geom_ok ex_f.
Proof. split; vm_compute; repeat split; done || (intros; discriminate). Qed.

Lemma ex_bytes : bytes_ok ex_bpb.
Proof.
  intros a. unfold dbyte. destruct (ex_bpb !! a) as [v|] eqn:E; [|cbn; lia].
  assert (map_Forall (fun _ v => 0 <= v < 256) ex_bpb) as H by (apply (bool_decide_unpack _); vm_compute; exact I).
  by apply (H a v).
Qed.

Lemma ex_entry i a : 0 <= i < 4 -> 640 <= a < 768 -> dbyte ex_bpb a = 0.
Proof.
  intros _ Ha. unfold dbyte. destruct (ex_bpb !! a) as [v|] eqn:E; [|done].
  assert (map_Forall (fun k _ => k < 640) ex_bpb) as H by (apply (bool_decide_unpack _); vm_compute; exact I).
  specialize (H a v E). cbn in H. lia.
Qed.

Lemma ex_unused i : slot ex_f i -> used ex_f ex_bpb i = false /\ dbyte ex_bpb (ent ex_f i) = 0.
Proof.
  unfold slot, ent. change (g_root_entry_cnt ex_f) with 4. change (g_root_dir_offset ex_f) with 640. intros Hi.
  unfold used, dfree, ent. change (g_root_dir_offset ex_f) with 640. rewrite (ex_entry i (640 + 32 * i)) by lia. done.
Qed.

Lemma ex_inv : fat_inv ex_f ex_bpb (fun _ => []).
Proof.
  split.
  - apply ex_bytes.
  - intros i j _ Hj _. by apply ex_unused.
  - intros i j Hi _ Ui. by rewrite (proj1 (ex_unused i Hi)) in Ui.
  - intros i Hi Ui. by rewrite (proj1 (ex_unused i Hi)) in Ui.
  - intros i Hi Ui. by rewrite (proj1 (ex_unused i Hi)) in Ui.
  - intros i Hi Ui. by rewrite (proj1 (ex_unused i Hi)) in Ui.
  - intros i j c Hi _ Ui. by rewrite (proj1 (ex_unused i Hi)) in Ui.
Qed.

(** "/A.B" and 100 bytes *)
Definition ex_path : cstr := [47; 65; 46; 66].
Definition ex_data : list Z := seqZ 0 100.

Lemma fat12_write_read_witness :
  exists r d' C', fat12_write_file ex_f ex_bpb ex_path ex_data = Some (r, d') /\ fat_inv ex_f d' C'
    /\ (forall path' max, str_to_fat83 (path_to_name path') <> str_to_fat83 (path_to_name ex_path) -> 0 <= max ->
          fat12_read_file ex_f d' path' max = fat12_read_file ex_f ex_bpb path' max)
    /\ ((r = 0 /\ room ex_f ex_bpb (fun _ => []) (path_to_name ex_path) (zlen ex_data)
         /\ forall max, 0 <= max -> fat12_read_file ex_f d' ex_path max
              = Some (Z.min max (zlen ex_data), take (Z.to_nat max) ex_data))
        \/ (r = -1 /\ ~ room ex_f ex_bpb (fun _ => []) (path_to_name ex_path) (zlen ex_data))).
Proof.
  apply (fat12_write_read ex_f ex_geom ex_bpb (fun _ => []) ex_path ex_data ex_inv).
  - split; [done|]. apply (bool_decide_unpack _). vm_compute. exact I.
  - apply (bool_decide_unpack _). vm_compute. exact I.
  - intros i (Hs & Hu & _). by rewrite (proj1 (ex_unused i Hs)) in Hu.
Defined.

(** The file is really there. *)
Example ex_write_read :
  match fat12_write_file ex_f ex_bpb ex_path ex_data with
  | Some (r, d) => r = 0 /\ fat12_read_file ex_f d ex_path 70 = Some (70, seqZ 0 70)
  | None => False
  end.
Proof. vm_compute. by split. Qed.

(** Finding: a write that fills the disk returns -1 and keeps the clusters it took; no file owns them. *)
Lemma fat12_full_leaks :
  match fat12_write_file ex_f ex_bpb ex_path (seqZ 0 600) with
  | Some (r, d) => r = -1 /\ free_count ex_f ex_bpb = 8 /\ free_count ex_f d = 0
                   /\ fat12_read_file ex_f d ex_path 600 = Some (0, [])
  | None => False
  end.
Proof. vm_compute. by split_and!. Qed.

(** Finding: a write to a directory frees the clusters of the directory. *)
Definition ex_dir : disk :=
  fat12_set_cluster ex_f 2 0xFFF
    (w16le (640 + 26) 2 (dput (640 + 11) FAT_ATTR_DIRECTORY (put_bytes 640 (str_to_fat83 [68]) ex_bpb))).
Lemma fat12_write_directory :
  fat12_get_next_cluster ex_f ex_dir 2 = 0xFFF
  /\ match fat12_write_file ex_f ex_dir [47; 68] [] with
     | Some (r, d) => r = 0 /\ fat12_get_next_cluster ex_f d 2 = 0
     | None => False
     end.
Proof. vm_compute. by split_and!. Qed.

(** Finding: a cluster that begins behind the end of the image makes the length of the copy wrap. *)
Lemma fat12_read_outside :
  match fat12_write_file ex_f ex_bpb ex_path ex_data with
  | Some (_, d) => fat12_read_file (ex_f <| g_size := 800 |>) d ex_path 100 = None
  | None => False
  end.
Proof. vm_compute. done. Qed.

(** Finding: names longer than 8.3 lose their extension, so different names are the same file. *)
Lemma fat12_long_names_alias :
  (* LONGFILENAME.TXT and LONGFILEOTHER.DAT *)
  str_to_fat83 [76; 79; 78; 71; 70; 73; 76; 69; 78; 65; 77; 69; 46; 84; 88; 84]
  = str_to_fat83 [76; 79; 78; 71; 70; 73; 76; 69; 79; 84; 72; 69; 82; 46; 68; 65; 84].
Proof. vm_compute. done. Qed.
