(* ===== verification/Ring.v ===== *)
(** Ring buffers as the kernel's event queues use them: an array, the index of the oldest entry, the
    index behind the newest, and a count.  The lemmas relate the array operations to a list. *)

From S2P Require Import Prelude.

Lemma for_up_ext {S} n i (f g : Z -> S -> S) s :
  (forall k s, i <= k < i + Z.of_nat n -> f k s = g k s) -> for_up n i f s = for_up n i g s.
Proof. intros H. apply (for_up_reindex 0 n i f g s). intros k s' Hk. rewrite Z.add_0_l. by apply H. Qed.

Section ring.
Context {E : Type} `{!Inhabited E} (N : Z) (HN : 0 < N).

(** [for (i = rel; i + 1 < count; i++) buf[(head + i) % N] = buf[(head + i + 1) % N]] *)
Definition shift_down (head rel count : Z) (buf : list E) : list E :=
  for_up (Z.to_nat (count - 1 - rel)) rel
    (fun i buf => aset ((head + i) mod N) (aget buf ((head + i + 1) mod N)) buf) buf.

(** The first entry from [rel] on that satisfies [p]. *)
Fixpoint find_rel (p : E -> bool) (head : Z) (buf : list E) (n : nat) (rel : Z) : option Z :=
  match n with
  | O => None
  | S n' => if p (aget buf ((head + rel) mod N)) then Some rel else find_rel p head buf n' (rel + 1)
  end.

(** The array holds the list [q]. *)
Record ring_rep (buf : list E) (head tail count : Z) (q : list E) : Prop := {
  rr_len : Z.of_nat (length buf) = N;
  rr_head : 0 <= head < N;
  rr_tail : tail = (head + count) mod N;
  rr_count : count = Z.of_nat (length q) /\ count <= N;
  rr_at i : 0 <= i < count -> aget buf ((head + i) mod N) = aget q i;
}.

Lemma ring_index head i : 0 <= (head + i) mod N < N.
Proof. by apply Z.mod_pos_bound. Qed.

Lemma ring_index_inj head i j : 0 <= i < N -> 0 <= j < N -> (head + i) mod N = (head + j) mod N -> i = j.
Proof.
  intros Hi Hj E0. pose proof (Z.div_mod (head + i) N ltac:(lia)). pose proof (Z.div_mod (head + j) N ltac:(lia)).
  assert (N * ((head + i) / N - (head + j) / N) = i - j) as Hd by lia.
  assert ((head + i) / N - (head + j) / N = 0) by nia. lia.
Qed.

Lemma ring_prev head count : 0 <= head < N -> 0 < count -> ((head + count) mod N + N - 1) mod N = (head + (count - 1)) mod N.
Proof.
  intros _ _. replace ((head + count) mod N + N - 1) with ((head + count) mod N + (N - 1)) by lia.
  rewrite Z.add_mod_idemp_l by lia. replace (head + count + (N - 1)) with (head + (count - 1) + 1 * N) by lia.
  by rewrite Z.mod_add by lia.
Qed.

Lemma aget_app_l (l1 l2 : list E) i : 0 <= i < Z.of_nat (length l1) -> aget (l1 ++ l2) i = aget l1 i.
Proof. intros Hi. unfold aget. rewrite lookup_total_app_l by lia. done. Qed.

Lemma aget_app_r (l1 l2 : list E) i : Z.of_nat (length l1) <= i -> aget (l1 ++ l2) i = aget l2 (i - Z.of_nat (length l1)).
Proof. intros Hi. unfold aget. rewrite lookup_total_app_r by lia. f_equal. lia. Qed.

(** Appending behind the newest. *)
Lemma ring_push buf head tail count q e : ring_rep buf head tail count q -> count < N ->
  ring_rep (aset tail e buf) head ((tail + 1) mod N) (count + 1) (q ++ [e]).
Proof.
  intros [L H T [C C'] A] Hc. rewrite T. split.
  - by rewrite length_aset.
  - done.
  - rewrite Z.add_mod_idemp_l by lia. f_equal. lia.
  - rewrite length_app. cbn. lia.
  - intros i Hi. pose proof (ring_index head i). pose proof (ring_index head count). destruct (decide (i = count)) as [->|Hne].
    + rewrite aget_aset_eq by lia. rewrite aget_app_r by lia. by replace (count - Z.of_nat (length q)) with 0 by lia.
    + rewrite aget_aset_ne; [|lia|lia|intros E0%ring_index_inj; lia]. rewrite aget_app_l by lia. apply A. lia.
Qed.

(** Taking the oldest. *)
Lemma ring_pop buf head tail count e q : ring_rep buf head tail count (e :: q) ->
  aget buf head = e /\ ring_rep buf ((head + 1) mod N) tail (count - 1) q.
Proof.
  intros [L H T [C C'] A]. cbn [length] in C. split.
  - specialize (A 0 ltac:(lia)). rewrite Z.add_0_r, Z.mod_small in A by done. exact A.
  - split; [done|by apply Z.mod_pos_bound| |lia|].
    + rewrite Z.add_mod_idemp_l by lia. rewrite T. f_equal. lia.
    + intros i Hi. rewrite Z.add_mod_idemp_l by lia. replace (head + 1 + i) with (head + (i + 1)) by lia.
      rewrite A by lia. unfold aget. by replace (Z.to_nat (i + 1)) with (S (Z.to_nat i)) by lia.
Qed.

(** Replacing the newest. *)
Lemma ring_replace_last buf head tail count q l e : ring_rep buf head tail count (q ++ [l]) ->
  aget buf ((tail + N - 1) mod N) = l /\ ring_rep (aset ((tail + N - 1) mod N) e buf) head tail count (q ++ [e]).
Proof.
  intros [L H T [C C'] A]. rewrite length_app in C. cbn in C.
  assert ((tail + N - 1) mod N = (head + (count - 1)) mod N) as ->.
  { rewrite T. apply ring_prev; lia. }
  pose proof (ring_index head (count - 1)). split.
  - rewrite A by lia. rewrite aget_app_r by lia. by replace (count - 1 - Z.of_nat (length q)) with 0 by lia.
  - split; [by rewrite length_aset|done|done|rewrite length_app; cbn; lia|]. intros i Hi. destruct (decide (i = count - 1)) as [->|Hne].
    + rewrite aget_aset_eq by lia. rewrite aget_app_r by lia. by replace (count - 1 - Z.of_nat (length q)) with 0 by lia.
    + pose proof (ring_index head i). rewrite aget_aset_ne; [|lia|lia|intros E0%ring_index_inj; lia].
      rewrite A by lia. rewrite !aget_app_l by lia. done.
Qed.

(** Removing an entry by moving the later ones down. *)
Lemma ring_delete buf head tail count q1 x q2 : ring_rep buf head tail count (q1 ++ x :: q2) ->
  ring_rep (shift_down head (Z.of_nat (length q1)) count buf) head ((tail + N - 1) mod N) (count - 1) (q1 ++ q2).
Proof.
  intros [L H T [C C'] A]. set (rel := Z.of_nat (length q1)) in *. rewrite length_app in C. cbn [length] in C.
  assert (let buf' := shift_down head rel count buf in Z.of_nat (length buf') = N
    /\ forall i, 0 <= i < count -> aget buf' ((head + i) mod N)
         = if (rel <=? i) && (i <? count - 1) then aget buf ((head + (i + 1)) mod N) else aget buf ((head + i) mod N)) as [Hl Hs].
  { unfold shift_down. set (n := Z.to_nat (count - 1 - rel)). assert (rel + Z.of_nat n = count - 1) as Hn by lia.
    pose proof (for_up_inv (fun k (b : list E) => Z.of_nat (length b) = N /\ forall i, 0 <= i < count -> aget b ((head + i) mod N)
         = if (rel <=? i) && (i <? k) then aget buf ((head + (i + 1)) mod N) else aget buf ((head + i) mod N)) n rel
         (fun i buf => aset ((head + i) mod N) (aget buf ((head + i + 1) mod N)) buf) buf) as Hinv.
    cbv beta in Hinv. rewrite Hn in Hinv. apply Hinv.
    - split; [done|]. intros i Hi. destruct (Z.leb_spec rel i), (Z.ltb_spec i rel); try lia; done.
    - intros k b Hk [Hb IH]. split; [by rewrite length_aset|]. intros i Hi. pose proof (ring_index head i). pose proof (ring_index head k).
      destruct (decide (i = k)) as [->|Hne].
      + rewrite aget_aset_eq by lia. rewrite <- Z.add_assoc, IH by lia.
        rewrite (proj2 (Z.leb_le rel k)), (proj2 (Z.ltb_lt k (k + 1))) by lia. cbn [andb].
        destruct (Z.leb_spec rel (k + 1)), (Z.ltb_spec (k + 1) k); try lia; done.
      + rewrite aget_aset_ne; [|lia|lia|intros E0%ring_index_inj; lia]. rewrite IH by lia.
        destruct (Z.leb_spec rel i), (Z.ltb_spec i k), (Z.ltb_spec i (k + 1)); try lia; done. }
  split; [done|done| |rewrite length_app; lia|].
  - rewrite T. apply ring_prev; lia.
  - intros i Hi. rewrite Hs by lia. destruct (Z.leb_spec rel i), (Z.ltb_spec i (count - 1)); try lia; cbn [andb].
    + rewrite A by lia. rewrite !aget_app_r by lia. fold rel. unfold aget. replace (Z.to_nat (i + 1 - rel)) with (S (Z.to_nat (i - rel))) by lia. done.
    + rewrite A by lia. rewrite !aget_app_l by lia. done.
Qed.

(** The search through the ring is a search through the list. *)
Fixpoint split_at (p : E -> bool) (q : list E) : option (list E * E * list E) :=
  match q with
  | [] => None
  | x :: q' => if p x then Some ([], x, q')
               else match split_at p q' with Some (a, y, b) => Some (x :: a, y, b) | None => None end
  end.

Lemma split_at_Some p q a x b : split_at p q = Some (a, x, b) -> q = a ++ x :: b /\ p x = true /\ Forall (fun y => p y = false) a.
Proof.
  revert a. induction q as [|y q IH]; intros a; cbn; [done|]. destruct (p y) eqn:Ey.
  - intros [= <- <- <-]. by split_and!.
  - destruct (split_at p q) as [[[a' z] b']|]; [|done]. intros [= <- <- <-]. destruct (IH a' eq_refl) as (-> & ? & ?).
    split; [done|]. split; [done|]. by constructor.
Qed.

Lemma split_at_None p q : split_at p q = None <-> Forall (fun y => p y = false) q.
Proof.
  induction q as [|y q IH]; cbn; [done|]. rewrite Forall_cons. destruct (p y) eqn:Ey; [split; [done|by intros [? _]]|].
  destruct (split_at p q) as [[[a z] b]|]; [split; [done|intros [_ H]; by apply IH in H]|]. split; [intros _; split; [done|by apply IH]|done].
Qed.

Lemma find_rel_split p buf head tail count q : ring_rep buf head tail count q ->
  find_rel p head buf (Z.to_nat count) 0 = match split_at p q with Some (a, _, _) => Some (Z.of_nat (length a)) | None => None end.
Proof.
  intros [_ _ _ [C _] A].
  assert (forall n rel q0, q0 = drop (Z.to_nat rel) q -> 0 <= rel -> rel + Z.of_nat n = count ->
            find_rel p head buf n rel = match split_at p q0 with Some (a, _, _) => Some (rel + Z.of_nat (length a)) | None => None end) as H.
  { induction n as [|n IH]; intros rel q0 Eq Hr Hn; cbn [find_rel].
    - rewrite Eq, drop_ge by lia. done.
    - destruct (lookup_lt_is_Some_2 q (Z.to_nat rel)) as [x Hx]; [lia|]. rewrite (drop_S _ _ _ Hx) in Eq. subst q0. cbn [split_at].
      rewrite A by lia. unfold aget at 1. rewrite (list_lookup_total_correct _ _ _ Hx).
      destruct (p x); [cbn; f_equal; lia|]. rewrite (IH (rel + 1) (drop (S (Z.to_nat rel)) q)); [|f_equal; lia|lia|lia].
      destruct (split_at p _) as [[[a y] b]|]; [|done]. cbn [length]. f_equal. lia. }
  rewrite (H (Z.to_nat count) 0 q); [|done|lia|lia]. destruct (split_at p q) as [[[a y] b]|]; [|done]. f_equal.
Qed.

(** ** The queue both event modules promise

    A low-priority event replaces the newest entry if that is of the same kind; a full queue loses
    its first low-priority entry, or its oldest one if there is none. *)
Context (low : E -> bool) (same : E -> E -> bool).

Definition make_room (q : list E) : list E :=
  if Z.of_nat (length q) <? N then q else
  match split_at low q with
  | Some (a, _, b) => a ++ b
  | None => tail q
  end.

Definition queue_put (e : E) (q : list E) : list E :=
  match last q with
  | Some l => if low e && same l e then removelast q ++ [e] else make_room q ++ [e]
  | None => make_room q ++ [e]
  end.

Lemma make_room_length q : Z.of_nat (length q) <= N -> Z.of_nat (length (make_room q)) < N.
Proof.
  intros Hq. unfold make_room. destruct (Z.ltb_spec (Z.of_nat (length q)) N); [done|].
  destruct (split_at low q) as [[[a x] b]|] eqn:Es.
  - apply split_at_Some in Es as (-> & _). rewrite length_app in *. cbn [length] in *. lia.
  - destruct q; cbn in *; lia.
Qed.
End ring.

Arguments ring_rep {E _} N.
