(* ===== verification/Event.v ===== *)
(** The input event queue, [src/input/event.c]: a ring of 128 events with coalescing of motion and
    a drop policy.  Each function runs under the queue's spin lock and is one step. *)

From S2P Require Import Prelude Ring.

Definition INPUT_EVENT_NONE : Z := 0.
Definition INPUT_EVENT_PAINT : Z := 1.
Definition INPUT_EVENT_CLICK : Z := 2.
Definition INPUT_EVENT_RIGHT_CLICK : Z := 3.
Definition INPUT_EVENT_CLOSE : Z := 4.
Definition INPUT_EVENT_KEY : Z := 5.
Definition INPUT_EVENT_MOUSE_DOWN : Z := 6.
Definition INPUT_EVENT_MOUSE_UP : Z := 7.
Definition INPUT_EVENT_MOUSE_MOVE : Z := 8.
Definition INPUT_EVENT_MOUSE_WHEEL : Z := 9.
Definition INPUT_EVENT_KEYUP : Z := 10.
Definition INPUT_EVENT_RESIZE : Z := 11.

Definition EVENT_BUF_SIZE : Z := 128.

Record input_event := mkEvent {
  ie_event_id : Z;
  ie_type : Z;
  ie_subtype : Z;
  ie_keycode : Z;
  ie_x : Z;
  ie_y : Z;
  ie_wheel_delta : Z;
  ie_width : Z;
  ie_height : Z;
  ie_modifiers : Z;
  ie_window_id : Z;
}.
#[export] Instance input_event_rebuild : Rebuild input_event := fun e =>
  mkEvent (ie_event_id e) (ie_type e) (ie_subtype e) (ie_keycode e) (ie_x e) (ie_y e) (ie_wheel_delta e)
    (ie_width e) (ie_height e) (ie_modifiers e) (ie_window_id e).
Definition event_zero : input_event := mkEvent 0 0 0 0 0 0 0 0 0 0 0.
#[export] Instance input_event_inhabited : Inhabited input_event := populate event_zero.

Record event_queue := mkEventQueue {
  event_buf : list input_event;
  event_head : Z;
  event_tail : Z;
  event_count : Z;
}.
#[export] Instance event_queue_rebuild : Rebuild event_queue := fun q =>
  mkEventQueue (event_buf q) (event_head q) (event_tail q) (event_count q).

(** The statics before [event_init]. *)
Definition event_queue_zero : event_queue := mkEventQueue (repeat event_zero 128) 0 0 0.

Definition queue_idx_from_head (q : event_queue) (rel : Z) : Z := u32 (event_head q + rel) mod EVENT_BUF_SIZE.

Definition is_low_priority_event (e : input_event) : bool :=
  (ie_event_id e =? INPUT_EVENT_MOUSE_MOVE) || (ie_event_id e =? INPUT_EVENT_PAINT).

Fixpoint drop_search (n : nat) (q : event_queue) (rel : Z) : option Z :=
  match n with
  | O => None
  | S n' => if is_low_priority_event (aget (event_buf q) (queue_idx_from_head q rel)) then Some rel
            else drop_search n' q (rel + 1)
  end.

Definition try_drop_low_priority_locked (q : event_queue) : bool * event_queue :=
  match drop_search (Z.to_nat (event_count q)) q 0 with
  | None => (false, q)
  | Some rel =>
      let buf := for_up (Z.to_nat (event_count q - 1 - rel)) rel
        (fun i buf => aset (queue_idx_from_head q i) (aget buf (queue_idx_from_head q (i + 1))) buf) (event_buf q) in
      let q := q <| event_buf := buf |> in
      let q := q <| event_tail := u32 (event_tail q + EVENT_BUF_SIZE - 1) mod EVENT_BUF_SIZE |> in
      (true, q <| event_count := u32 (event_count q - 1) |>)
  end.

Definition try_coalesce_tail_locked (e : input_event) (q : event_queue) : bool * event_queue :=
  if event_count q =? 0 then (false, q) else
  if negb (is_low_priority_event e) then (false, q) else
  let tail_idx := u32 (event_tail q + EVENT_BUF_SIZE - 1) mod EVENT_BUF_SIZE in
  let tail_ev := aget (event_buf q) tail_idx in
  if negb (ie_event_id tail_ev =? ie_event_id e) then (false, q) else
  if negb (ie_window_id tail_ev =? ie_window_id e) then (false, q) else
  (true, q <| event_buf := aset tail_idx e (event_buf q) |>).

Definition event_init (q : event_queue) : event_queue :=
  q <| event_head := 0 |> <| event_tail := 0 |> <| event_count := 0 |>.

Definition event_enqueue (e : option input_event) (q : event_queue) : Z * event_queue :=
  match e with
  | None => (-1, q)
  | Some e =>
  let '(done, q) := try_coalesce_tail_locked e q in
  if done then (0, q) else
  let q := if EVENT_BUF_SIZE <=? event_count q then
             let '(dropped, q) := try_drop_low_priority_locked q in
             if dropped then q
             else q <| event_head := u32 (event_head q + 1) mod EVENT_BUF_SIZE |> <| event_count := u32 (event_count q - 1) |>
           else q in
  let q := q <| event_buf := aset (event_tail q) e (event_buf q) |> in
  let q := q <| event_tail := u32 (event_tail q + 1) mod EVENT_BUF_SIZE |> in
  (0, q <| event_count := u32 (event_count q + 1) |>)
  end.

Definition event_dequeue (q : event_queue) : option input_event * event_queue :=
  if event_count q =? 0 then (None, q) else
  let e := aget (event_buf q) (event_head q) in
  let q := q <| event_head := u32 (event_head q + 1) mod EVENT_BUF_SIZE |> in
  (Some e, q <| event_count := u32 (event_count q - 1) |>).

(** * Refinement of a list *)

Definition same_kind (l e : input_event) : bool := (ie_event_id l =? ie_event_id e) && (ie_window_id l =? ie_window_id e).

Definition abs_enqueue : input_event -> list input_event -> list input_event :=
  queue_put EVENT_BUF_SIZE is_low_priority_event same_kind.
Definition abs_dequeue (l : list input_event) : option input_event * list input_event :=
  match l with [] => (None, []) | e :: l' => (Some e, l') end.

Definition shows (q : event_queue) (l : list input_event) : Prop :=
  ring_rep EVENT_BUF_SIZE (event_buf q) (event_head q) (event_tail q) (event_count q) l.

Lemma N_pos : 0 < EVENT_BUF_SIZE.
Proof. done. Qed.

Lemma shows_bounds q l : shows q l -> 0 <= event_head q < 128 /\ 0 <= event_tail q < 128 /\ 0 <= event_count q <= 128.
Proof.
  intros [_ H T [C C'] _]. unfold EVENT_BUF_SIZE in *. rewrite T. pose proof (Z.mod_pos_bound (event_head q + event_count q) 128 ltac:(lia)). lia.
Qed.

Lemma idx_eq q l rel : shows q l -> 0 <= rel <= 128 -> queue_idx_from_head q rel = (event_head q + rel) mod EVENT_BUF_SIZE.
Proof. intros H Hr. destruct (shows_bounds q l H) as (? & _ & _). unfold queue_idx_from_head. rewrite u32_id by (unfold is_u32; lia). done. Qed.

Lemma drop_search_eq q l n rel : shows q l -> 0 <= rel -> rel + Z.of_nat n <= event_count q ->
  drop_search n q rel = find_rel EVENT_BUF_SIZE is_low_priority_event (event_head q) (event_buf q) n rel.
Proof.
  intros H. pose proof (shows_bounds q l H). revert rel. induction n as [|n IH]; intros rel Hr Hn; [done|]. cbn [drop_search find_rel].
  rewrite (idx_eq q l rel H) by lia. destruct (is_low_priority_event _); [done|]. apply IH; lia.
Qed.

Lemma last_cases {A} (l : list A) : l = [] \/ exists l0 x, l = l0 ++ [x].
Proof. destruct l as [|x l _] using rev_ind; [by left|right]. by exists l, x. Qed.

Lemma try_drop_ok q l : shows q l ->
  match split_at is_low_priority_event l with
  | Some (a, _, b) => exists q', try_drop_low_priority_locked q = (true, q') /\ shows q' (a ++ b)
  | None => try_drop_low_priority_locked q = (false, q)
  end.
Proof.
  intros H. pose proof (shows_bounds q l H) as B. pose proof (rr_count _ _ _ _ _ _ H) as [C _]. unfold try_drop_low_priority_locked.
  rewrite (drop_search_eq q l) by (done || lia). rewrite (find_rel_split _ _ _ _ _ _ _ H).
  destruct (split_at is_low_priority_event l) as [[[a x] b]|] eqn:Es; [|done].
  apply split_at_Some in Es as (-> & _ & _). eexists. split; [done|]. pose proof (ring_delete _ N_pos _ _ _ _ _ _ _ H) as D.
  unfold shows. fields. cbn [event_buf event_head event_tail event_count].
  rewrite length_app in C. cbn [length] in C. rewrite (u32_id (event_tail q + _ - 1)) by (unfold is_u32, EVENT_BUF_SIZE; lia).
  rewrite (u32_id (event_count q - 1)) by (unfold is_u32; lia).
  assert (for_up (Z.to_nat (event_count q - 1 - Z.of_nat (length a))) (Z.of_nat (length a))
     (fun i buf => aset (queue_idx_from_head q i) (aget buf (queue_idx_from_head q (i + 1))) buf) (event_buf q)
     = shift_down EVENT_BUF_SIZE (event_head q) (Z.of_nat (length a)) (event_count q) (event_buf q)) as ->; [|exact D].
  apply for_up_ext. intros i b0 Hi. rewrite !(idx_eq q (a ++ x :: b)) by (done || lia).
  by rewrite Z.add_assoc.
Qed.

Lemma try_coalesce_ok e q l : shows q l ->
  match last l with
  | Some t => if is_low_priority_event e && same_kind t e
              then exists q', try_coalesce_tail_locked e q = (true, q') /\ shows q' (removelast l ++ [e])
              else try_coalesce_tail_locked e q = (false, q)
  | None => try_coalesce_tail_locked e q = (false, q)
  end.
Proof.
  intros H. pose proof (shows_bounds q l H) as B. pose proof (rr_count _ _ _ _ _ _ H) as [C _]. unfold try_coalesce_tail_locked.
  destruct (last_cases l) as [->|(l0 & t & ->)]; cbn [last].
  - cbn in C. by rewrite C.
  - rewrite last_snoc. rewrite length_app in C. cbn in C. rewrite (proj2 (Z.eqb_neq (event_count q) 0)) by lia.
    rewrite u32_id by (unfold is_u32, EVENT_BUF_SIZE; lia).
    destruct (ring_replace_last _ N_pos _ _ _ _ _ _ e H) as [-> R]. unfold same_kind.
    destruct (is_low_priority_event e); [|done]. destruct (ie_event_id t =? ie_event_id e); [|done].
    destruct (ie_window_id t =? ie_window_id e); [|done]. cbn [andb negb]. eexists. split; [done|].
    rewrite removelast_last. exact R.
Qed.

(** Making room in a full queue. *)
Lemma full_ok q l : shows q l -> EVENT_BUF_SIZE <= event_count q ->
  shows (let '(dropped, q') := try_drop_low_priority_locked q in
         if dropped then q'
         else q' <| event_head := u32 (event_head q' + 1) mod EVENT_BUF_SIZE |> <| event_count := u32 (event_count q' - 1) |>)
    (make_room EVENT_BUF_SIZE is_low_priority_event l).
Proof.
  intros H Hf. pose proof (try_drop_ok q l H) as D. pose proof (shows_bounds q l H) as B.
  pose proof (rr_count _ _ _ _ _ _ H) as [C _]. unfold make_room. rewrite (proj2 (Z.ltb_ge _ _)) by lia.
  destruct (split_at _ l) as [[[a x] b]|]; [by destruct D as (q' & -> & ?)|]. rewrite D.
  destruct l as [|x l]; [unfold EVENT_BUF_SIZE in *; cbn in C; lia|]. cbn [tail].
  rewrite !u32_id by (unfold is_u32, EVENT_BUF_SIZE in *; lia).
  exact (proj2 (ring_pop _ N_pos _ _ _ _ _ _ H)).
Qed.

Lemma event_enqueue_ok e q l : shows q l ->
  exists q', event_enqueue (Some e) q = (0, q') /\ shows q' (abs_enqueue e l).
Proof.
  intros H. pose proof (try_coalesce_ok e q l H) as T. unfold event_enqueue, abs_enqueue, queue_put.
  assert (exists q', (let q := if EVENT_BUF_SIZE <=? event_count q then
             let '(dropped, q) := try_drop_low_priority_locked q in
             if dropped then q
             else q <| event_head := u32 (event_head q + 1) mod EVENT_BUF_SIZE |> <| event_count := u32 (event_count q - 1) |>
           else q in
    let q := q <| event_buf := aset (event_tail q) e (event_buf q) |> in
    let q := q <| event_tail := u32 (event_tail q + 1) mod EVENT_BUF_SIZE |> in
    (0, q <| event_count := u32 (event_count q + 1) |>)) = (0, q')
    /\ shows q' (make_room EVENT_BUF_SIZE is_low_priority_event l ++ [e])) as Hput.
  { eexists. split; [done|]. set (q1 := if _ <=? _ then _ else q).
    assert (shows q1 (make_room EVENT_BUF_SIZE is_low_priority_event l)) as H1.
    { subst q1. destruct (Z.leb_spec EVENT_BUF_SIZE (event_count q)) as [Hf|Hf]; [by apply full_ok|].
      unfold make_room. pose proof (rr_count _ _ _ _ _ _ H) as [C _]. by rewrite (proj2 (Z.ltb_lt _ _)) by lia. }
    clearbody q1. pose proof (shows_bounds q1 _ H1) as B. pose proof (rr_count _ _ _ _ _ _ H1) as [C _].
    pose proof (make_room_length EVENT_BUF_SIZE N_pos is_low_priority_event l) as Hm.
    pose proof (rr_count _ _ _ _ _ _ H) as [C0 C0']. specialize (Hm ltac:(lia)).
    pose proof (ring_push _ N_pos _ _ _ _ _ e H1 ltac:(lia)) as P. unfold shows. fields. cbn.
    rewrite !u32_id by (unfold is_u32; lia). exact P. }
  destruct (last l) as [t|]; [destruct (is_low_priority_event e && same_kind t e)|].
  - destruct T as (q' & -> & ?). by exists q'.
  - by rewrite T.
  - by rewrite T.
Qed.

Lemma event_dequeue_ok q l : shows q l ->
  fst (event_dequeue q) = fst (abs_dequeue l) /\ shows (snd (event_dequeue q)) (snd (abs_dequeue l)).
Proof.
  intros H. pose proof (shows_bounds q l H) as B. pose proof (rr_count _ _ _ _ _ _ H) as [C _]. unfold event_dequeue.
  destruct l as [|x l]; cbn [length] in C.
  - rewrite C. by split.
  - rewrite (proj2 (Z.eqb_neq (event_count q) 0)) by lia. destruct (ring_pop _ N_pos _ _ _ _ _ _ H) as [-> P].
    split; [done|]. unfold shows. fields. cbn [fst snd abs_dequeue event_buf event_head event_tail event_count].
    rewrite !u32_id by (unfold is_u32; lia). exact P.
Qed.

Inductive event_op :=
| OpEnqueue (e : option input_event)
| OpDequeue.

Inductive event_res :=
| ResCode (z : Z)
| ResEvent (e : option input_event).

(** The queue's operations in the order the spin lock gives them. *)
Fixpoint event_run (ops : list event_op) (q : event_queue) : list event_res :=
  match ops with
  | [] => []
  | OpEnqueue e :: ops => let '(r, q) := event_enqueue e q in ResCode r :: event_run ops q
  | OpDequeue :: ops => let '(e, q) := event_dequeue q in ResEvent e :: event_run ops q
  end.

Fixpoint abs_run (ops : list event_op) (l : list input_event) : list event_res :=
  match ops with
  | [] => []
  | OpEnqueue None :: ops => ResCode (-1) :: abs_run ops l
  | OpEnqueue (Some e) :: ops => ResCode 0 :: abs_run ops (abs_enqueue e l)
  | OpDequeue :: ops => let '(e, l) := abs_dequeue l in ResEvent e :: abs_run ops l
  end.

Lemma event_run_shows ops q l : shows q l -> event_run ops q = abs_run ops l.
Proof.
  revert q l. induction ops as [|[[e|]|] ops IH]; intros q l H; cbn [event_run abs_run]; [done| | |].
  - destruct (event_enqueue_ok e q l H) as (q' & -> & H'). f_equal. by apply IH.
  - cbn. f_equal. by apply IH.
  - destruct (event_dequeue_ok q l H) as [E H']. destruct (event_dequeue q), (abs_dequeue l). cbn in *. subst. f_equal. by apply IH.
Qed.

Lemma event_init_shows q : length (event_buf q) = 128%nat -> shows (event_init q) [].
Proof. intros L. split; [cbn; by rewrite L|cbn; unfold EVENT_BUF_SIZE; lia|done|cbn; unfold EVENT_BUF_SIZE; lia|cbn; lia]. Qed.

(** C25: the event ring is a first-in first-out queue of at most 128 events: after [event_init]
    every sequence of enqueue and dequeue calls returns what the list queue returns, in which a
    mouse-move or paint event replaces a newest event of the same kind and window, and a full queue
    gives up its first mouse-move or paint event, or its oldest event if it has none. *)
Theorem event_queue_refines ops : event_run ops (event_init event_queue_zero) = abs_run ops [].
Proof. by apply event_run_shows, event_init_shows. Qed.

(** Keys and clicks are never lost while a motion or paint event is in the queue. *)
Lemma make_room_keeps l e : Exists (fun x => is_low_priority_event x = true) l -> In e l -> is_low_priority_event e = false ->
  In e (make_room EVENT_BUF_SIZE is_low_priority_event l).
Proof.
  intros Hx He Hl. unfold make_room. destruct (_ <? _); [done|]. destruct (split_at _ l) as [[[a x] b]|] eqn:Es.
  - apply split_at_Some in Es as (-> & Hp & _). apply in_app_or in He as [?|[->|?]]; [by apply in_or_app; left|congruence|by apply in_or_app; right].
  - apply split_at_None in Es. exfalso. apply Exists_exists in Hx as (y & Hy & Hy'). rewrite Forall_forall in Es.
    rewrite Es in Hy'; [done|]. done.
Qed.
