(* ===== verification/Wm.v ===== *)
(** The window manager, [src/gfx/wm.c]: a pool of 16 windows on an intrusive z-order list, mouse
    interaction (drag, resize, close, focus), event routing and the queue of dirty rectangles.

    A window pointer is the index of its slot in [win_pool]; NULL is [None].  The callbacks of a
    window are code addresses, called through the class [WmEnv] over the rest of the kernel [W];
    address 0 is NULL.  [int] arithmetic wraps. *)

From S2P Require Import Prelude CString Ring Event.

Definition WM_MAX_WINDOWS : Z := 16.
Definition WM_TITLE_MAX : Z := 48.
Definition WM_FLAG_VISIBLE : Z := 1.
Definition WM_FLAG_ACTIVE : Z := 2.
Definition WM_FLAG_DRAGGING : Z := 4.
Definition WM_FLAG_CLOSABLE : Z := 8.
Definition WM_FLAG_RESIZABLE : Z := 16.
Definition WM_FLAG_AUTOCLOSE : Z := 32.
Definition WM_TITLE_BAR_H : Z := 28.
Definition WM_BORDER_PX : Z := 2.
Definition WM_RESIZE_GRIP : Z := 12.
Definition WM_DIRTY_MAX : Z := 128.
Definition WM_MIN_W : Z := 140.
Definition WM_MIN_H : Z := 90.
Definition UI_SHADOW_R : Z := 6.
Definition UI_TBTN_R : Z := 7.
Definition UI_TBTN_Y_OFF : Z := 14.
Definition EVENT_MOUSE : Z := 1.
Definition KEY_PRESS : Z := 1.
Definition KEY_RELEASE : Z := 0.
Definition MOUSE_MOVE : Z := 2.
Definition MOUSE_BTN_DOWN : Z := 3.
Definition MOUSE_BTN_UP : Z := 4.
Definition MOUSE_BUTTON_LEFT : Z := 1.
Definition MOUSE_BUTTON_RIGHT : Z := 2.

Record wm_window := mkWin {
  w_x : Z; w_y : Z; w_w : Z; w_h : Z;
  w_min_w : Z; w_min_h : Z;
  w_title : cstr;
  w_flags : Z;
  w_opacity : Z;
  w_accent : Z;
  w_draw_content : Z;
  w_handle_event : Z;
  w_app_data : Z;
  w_prev : option Z;
  w_next : option Z;
}.
#[export] Instance wm_window_rebuild : Rebuild wm_window := fun w =>
  mkWin (w_x w) (w_y w) (w_w w) (w_h w) (w_min_w w) (w_min_h w) (w_title w) (w_flags w) (w_opacity w) (w_accent w)
    (w_draw_content w) (w_handle_event w) (w_app_data w) (w_prev w) (w_next w).
Definition win_zero : wm_window := mkWin 0 0 0 0 0 0 [] 0 0 0 0 0 0 None None.
#[export] Instance wm_window_inhabited : Inhabited wm_window := populate win_zero.

Record wm_dirty_rect := mkRect { r_x : Z; r_y : Z; r_w : Z; r_h : Z }.
#[export] Instance wm_dirty_rect_inhabited : Inhabited wm_dirty_rect := populate (mkRect 0 0 0 0).

Record wm := mkWm {
  win_pool : list wm_window;
  win_pool_used : list bool;
  zlist_head : option Z;
  zlist_tail : option Z;
  drag_win : option Z;
  resize_win : option Z;
  drag_offset_x : Z; drag_offset_y : Z;
  resize_start_w : Z; resize_start_h : Z;
  resize_start_mx : Z; resize_start_my : Z;
  prev_buttons : Z;
  dirty_regions : list wm_dirty_rect;
  dirty_count : Z;
  fb_width : Z; fb_height : Z;
}.
#[export] Instance wm_rebuild : Rebuild wm := fun m =>
  mkWm (win_pool m) (win_pool_used m) (zlist_head m) (zlist_tail m) (drag_win m) (resize_win m) (drag_offset_x m)
    (drag_offset_y m) (resize_start_w m) (resize_start_h m) (resize_start_mx m) (resize_start_my m) (prev_buttons m)
    (dirty_regions m) (dirty_count m) (fb_width m) (fb_height m).

(** The statics before [wm_init], on a screen of the given size. *)
Definition wm_zero (width height : Z) : wm :=
  mkWm (repeat win_zero 16) (repeat false 16) None None None None 0 0 0 0 0 0 0 (repeat (mkRect 0 0 0 0) 128) 0 width height.

Definition win (m : wm) (i : Z) : wm_window := aget (win_pool m) i.
Definition set_win (i : Z) (w : wm_window) (m : wm) : wm := m <| win_pool := aset i w (win_pool m) |>.
Definition has_flag (w : wm_window) (f : Z) : bool := negb (Z.land (w_flags w) f =? 0).
Definition set_flag (f : Z) (w : wm_window) : wm_window := w <| w_flags := Z.lor (w_flags w) f |>.
Definition clear_flag (f : Z) (w : wm_window) : wm_window := w <| w_flags := Z.ldiff (w_flags w) f |>.

Definition kstrcpy (src : option cstr) (max : Z) : cstr :=
  match src with Some s => (copy_upto (Z.to_nat (max - 1)) s).1 | None => [] end.

Definition rect_intersects (ax ay aw ah bx by_ bw bh : Z) : bool :=
  negb ((i32 (ax + aw) <=? bx) || (i32 (bx + bw) <=? ax) || (i32 (ay + ah) <=? by_) || (i32 (by_ + bh) <=? ay)).

Definition clampi (v lo hi : Z) : Z := if v <? lo then lo else if hi <? v then hi else v.

(** * Dirty rectangles *)

Definition wm_mark_dirty_rect (x y w h : Z) (m : wm) : wm :=
  if (w <=? 0) || (h <=? 0) then m else
  let '(x, y, w, h) :=
    if negb (fb_width m =? 0) && negb (fb_height m =? 0) then
      let x1 := i32 (x + w) in
      let y1 := i32 (y + h) in
      let x := clampi x 0 (i32 (fb_width m)) in
      let y := clampi y 0 (i32 (fb_height m)) in
      let x1 := clampi x1 0 (i32 (fb_width m)) in
      let y1 := clampi y1 0 (i32 (fb_height m)) in
      (x, y, i32 (x1 - x), i32 (y1 - y))
    else (x, y, w, h) in
  if (w <=? 0) || (h <=? 0) then m else
  if WM_DIRTY_MAX <=? dirty_count m then
    m <| dirty_regions := aset 0 (mkRect 0 0 (i32 (fb_width m)) (i32 (fb_height m))) (dirty_regions m) |> <| dirty_count := 1 |>
  else
    m <| dirty_regions := aset (dirty_count m) (mkRect x y w h) (dirty_regions m) |> <| dirty_count := dirty_count m + 1 |>.

Definition wm_mark_window_dirty (w : option Z) (m : wm) : wm :=
  match w with
  | None => m
  | Some i =>
      let margin := UI_SHADOW_R + 2 in
      let w := win m i in
      wm_mark_dirty_rect (i32 (w_x w - margin)) (i32 (w_y w - margin)) (i32 (w_w w + margin * 2)) (i32 (w_h w + margin * 2)) m
  end.

(** [out] NULL is [false]; the result is the rectangles copied, whose number is returned. *)
Definition wm_collect_dirty_regions (out : bool) (max : Z) (m : wm) : list wm_dirty_rect * wm :=
  if negb out || (max <=? 0) then ([], m) else
  (take (Z.to_nat (Z.min (dirty_count m) max)) (dirty_regions m), m <| dirty_count := 0 |>).

(** * The z-order list *)

Definition zlist_remove (w : option Z) (m : wm) : wm :=
  match w with
  | None => m
  | Some i =>
      let m := match w_prev (win m i) with
               | Some p => set_win p (win m p <| w_next := w_next (win m i) |>) m
               | None => m <| zlist_head := w_next (win m i) |>
               end in
      let m := match w_next (win m i) with
               | Some n => set_win n (win m n <| w_prev := w_prev (win m i) |>) m
               | None => m <| zlist_tail := w_prev (win m i) |>
               end in
      set_win i (win m i <| w_prev := None |> <| w_next := None |>) m
  end.

Definition zlist_push_top (w : option Z) (m : wm) : wm :=
  match w with
  | None => m
  | Some i =>
      let m := set_win i (win m i <| w_prev := zlist_tail m |> <| w_next := None |>) m in
      let m := match zlist_tail m with
               | Some t => set_win t (win m t <| w_next := Some i |>) m
               | None => m <| zlist_head := Some i |>
               end in
      m <| zlist_tail := Some i |>
  end.

(** The walk [for (w = zlist_tail; w; w = w->prev)]; [n] bounds the windows visited. *)
Fixpoint find_loop (n : nat) (w : option Z) (px py : Z) (m : wm) : option Z :=
  match n, w with
  | S n, Some i =>
      let k := win m i in
      if has_flag k WM_FLAG_VISIBLE &&
         ((w_x k <=? px) && (px <? i32 (w_x k + w_w k)) && (w_y k <=? py) && (py <? i32 (w_y k + w_h k)))
      then Some i
      else find_loop n (w_prev k) px py m
  | _, _ => None
  end.

Definition wm_find_window_at (px py : Z) (m : wm) : option Z := find_loop 16 (zlist_tail m) px py m.

Definition wm_client_rect (w : wm_window) : Z * Z * Z * Z :=
  (i32 (w_x w + WM_BORDER_PX), i32 (w_y w + WM_BORDER_PX + WM_TITLE_BAR_H),
   i32 (w_w w - 2 * WM_BORDER_PX), i32 (w_h w - 2 * WM_BORDER_PX - WM_TITLE_BAR_H)).

Definition hit_close_btn (w : wm_window) (px py : Z) : bool :=
  let dx := i32 (px - i32 (w_x w + WM_BORDER_PX + 14)) in
  let dy := i32 (py - i32 (w_y w + WM_BORDER_PX + UI_TBTN_Y_OFF)) in
  let r := UI_TBTN_R + 4 in
  i32 (dx * dx + dy * dy) <=? r * r.

Definition hit_title_bar (w : wm_window) (px py : Z) : bool :=
  (w_x w <=? px) && (px <? i32 (w_x w + w_w w)) && (w_y w <=? py) && (py <? i32 (w_y w + WM_BORDER_PX + WM_TITLE_BAR_H)).

Definition hit_resize_grip (w : wm_window) (px py : Z) : bool :=
  (i32 (w_x w + w_w w - WM_RESIZE_GRIP) <=? px) && (px <? i32 (w_x w + w_w w)) &&
  (i32 (w_y w + w_h w - WM_RESIZE_GRIP) <=? py) && (py <? i32 (w_y w + w_h w)).

Definition wm_bring_to_front (w : option Z) (m : wm) : wm :=
  match w with
  | None => m
  | Some i =>
      if decide (zlist_tail m = Some i) then m else
      let m := match zlist_tail m with
               | Some t => wm_mark_window_dirty (Some t) (set_win t (clear_flag WM_FLAG_ACTIVE (win m t)) m)
               | None => m
               end in
      let m := zlist_remove (Some i) m in
      let m := zlist_push_top (Some i) m in
      let m := set_win i (set_flag WM_FLAG_ACTIVE (win m i)) m in
      wm_mark_window_dirty (Some i) m
  end.

Definition wm_init (m : wm) : wm :=
  m <| win_pool_used := repeat false 16 |> <| zlist_head := None |> <| zlist_tail := None |> <| drag_win := None |>
    <| resize_win := None |> <| drag_offset_x := 0 |> <| drag_offset_y := 0 |> <| resize_start_w := 0 |>
    <| resize_start_h := 0 |> <| resize_start_mx := 0 |> <| resize_start_my := 0 |> <| prev_buttons := 0 |> <| dirty_count := 0 |>.

Definition wm_create_window (x y w h : Z) (title : option cstr) (draw_fn event_fn app_data : Z) (m : wm) : option Z * wm :=
  match find_index negb (win_pool_used m) with
  | None => (None, m)
  | Some slot =>
      let w := if w <? WM_MIN_W then WM_MIN_W else w in
      let h := if h <? WM_MIN_H then WM_MIN_H else h in
      let m := m <| win_pool_used := aset slot true (win_pool_used m) |> in
      let flags := Z.lor (Z.lor (Z.lor WM_FLAG_VISIBLE WM_FLAG_CLOSABLE) WM_FLAG_RESIZABLE) WM_FLAG_AUTOCLOSE in
      let m := set_win slot (mkWin x y w h WM_MIN_W WM_MIN_H
        (kstrcpy (Some (match title with Some t => t | None => [] end)) WM_TITLE_MAX)
        flags 245 0 draw_fn event_fn app_data None None) m in
      let m := match zlist_tail m with
               | Some t => set_win t (clear_flag WM_FLAG_ACTIVE (win m t)) m
               | None => m
               end in
      let m := zlist_push_top (Some slot) m in
      let m := set_win slot (set_flag WM_FLAG_ACTIVE (win m slot)) m in
      (Some slot, wm_mark_window_dirty (Some slot) m)
  end.

Definition wm_set_resizable (w : option Z) (resizable : Z) (m : wm) : wm :=
  match w with
  | None => m
  | Some i =>
      let m := set_win i ((if resizable =? 0 then clear_flag else set_flag) WM_FLAG_RESIZABLE (win m i)) m in
      wm_mark_window_dirty (Some i) m
  end.

Definition wm_set_title (w : option Z) (title : option cstr) (m : wm) : wm :=
  match w with
  | None => m
  | Some i =>
      let t := kstrcpy (Some (match title with Some t => t | None => [] end)) WM_TITLE_MAX in
      wm_mark_window_dirty (Some i) (set_win i (win m i <| w_title := t |>) m)
  end.

Definition wm_set_autoclose (w : option Z) (autoclose : Z) (m : wm) : wm :=
  match w with
  | None => m
  | Some i => set_win i ((if autoclose =? 0 then clear_flag else set_flag) WM_FLAG_AUTOCLOSE (win m i)) m
  end.

Definition wm_get_bottom (m : wm) : option Z := zlist_head m.
Definition wm_get_top (m : wm) : option Z := zlist_tail m.

(** * Callbacks *)

Class WmEnv (W : Type) := {
  call_handle_event : Z -> Z -> input_event -> wm -> W -> wm * W;  (* code address, window, event *)
  call_draw_content : Z -> Z -> wm -> W -> W;
  wm_kfree : Z -> W -> W;
  ui_draw_window : wm_window -> Z -> W -> W;                       (* the frame; active or not *)
}.

Section handlers.
Context {W : Type} `{WmEnv W}.

Definition null_event : input_event := mkEvent INPUT_EVENT_NONE EVENT_MOUSE 0 0 0 0 0 0 0 0 (-1).

Definition dispatch_to_window (w : option Z) (src : option input_event) (event_id subtype keycode x y : Z)
    (m : wm) (e : W) : wm * W :=
  match w with
  | None => (m, e)
  | Some i =>
      if w_handle_event (win m i) =? 0 then (m, e) else
      let ev := match src with Some ev => ev | None => null_event end in
      let ev := ev <| ie_event_id := event_id |> <| ie_subtype := subtype |> <| ie_keycode := u32 keycode |>
                   <| ie_x := x |> <| ie_y := y |> in
      let '(m, e) := call_handle_event (w_handle_event (win m i)) i ev m e in
      (wm_mark_window_dirty (Some i) m, e)
  end.

Definition wm_destroy_window (w : option Z) (m : wm) (e : W) : wm * W :=
  match w with
  | None => (m, e)
  | Some i =>
      let m := wm_mark_window_dirty (Some i) m in
      let m := if decide (drag_win m = Some i) then m <| drag_win := None |> else m in
      let m := if decide (resize_win m = Some i) then m <| resize_win := None |> else m in
      let m := zlist_remove (Some i) m in
      let '(m, e) :=
        if w_app_data (win m i) =? 0 then (m, e)
        else (set_win i (win m i <| w_app_data := 0 |>) m, wm_kfree (w_app_data (win m i)) e) in
      let m := if (0 <=? i) && (i <? WM_MAX_WINDOWS) then m <| win_pool_used := aset i false (win_pool_used m) |> else m in
      let m := match zlist_tail m with
               | Some t => wm_mark_window_dirty (Some t) (set_win t (set_flag WM_FLAG_ACTIVE (win m t)) m)
               | None => m
               end in
      (m, e)
  end.

(** The branch of [wm_handle_mouse] while a window is resized. *)
Definition mouse_resize (i mx my buttons : Z) (left_pressed : bool) (m : wm) (e : W) : Z * wm * W :=
  if left_pressed then
    let old := win m i in
    let new_w := i32 (resize_start_w m + (mx - resize_start_mx m)) in
    let new_h := i32 (resize_start_h m + (my - resize_start_my m)) in
    let new_w := if new_w <? w_min_w old then w_min_w old else new_w in
    let new_h := if new_h <? w_min_h old then w_min_h old else new_h in
    let m := set_win i (old <| w_w := new_w |> <| w_h := new_h |>) m in
    let m := wm_mark_dirty_rect (i32 (w_x old - (UI_SHADOW_R + 2))) (i32 (w_y old - (UI_SHADOW_R + 2)))
               (i32 (w_w old + (UI_SHADOW_R + 2) * 2)) (i32 (w_h old + (UI_SHADOW_R + 2) * 2)) m in
    let m := wm_mark_window_dirty (Some i) m in
    let '(_, _, cw, ch) := wm_client_rect (win m i) in
    let '(m, e) := dispatch_to_window (Some i) None INPUT_EVENT_RESIZE MOUSE_MOVE buttons cw ch m e in
    (1, m <| prev_buttons := buttons |>, e)
  else (1, m <| resize_win := None |> <| prev_buttons := buttons |>, e).

(** The branch while a window is dragged. *)
Definition mouse_drag (i mx my buttons : Z) (left_pressed : bool) (m : wm) : Z * wm :=
  if left_pressed then
    let old := win m i in
    let m := set_win i (win m i <| w_x := i32 (mx - drag_offset_x m) |> <| w_y := i32 (my - drag_offset_y m) |>) m in
    let m := if w_y (win m i) <? 0 then set_win i (win m i <| w_y := 0 |>) m else m in
    let m := wm_mark_dirty_rect (i32 (w_x old - (UI_SHADOW_R + 2))) (i32 (w_y old - (UI_SHADOW_R + 2)))
               (i32 (w_w (win m i) + (UI_SHADOW_R + 2) * 2)) (i32 (w_h (win m i) + (UI_SHADOW_R + 2) * 2)) m in
    let m := wm_mark_window_dirty (Some i) m in
    (1, m <| prev_buttons := buttons |>)
  else
    let m := set_win i (clear_flag WM_FLAG_DRAGGING (win m i)) m in
    (1, m <| drag_win := None |> <| prev_buttons := buttons |>).

(** A button pressed over the window [hit]. *)
Definition mouse_press (hit mx my buttons : Z) (left_down_edge right_down_edge : bool) (m : wm) (e : W) : wm * W :=
  let m := wm_bring_to_front (Some hit) m in
  if left_down_edge && has_flag (win m hit) WM_FLAG_CLOSABLE && hit_close_btn (win m hit) mx my then
    let '(m, e) := dispatch_to_window (Some hit) None INPUT_EVENT_CLOSE MOUSE_BTN_DOWN buttons mx my m e in
    if has_flag (win m hit) WM_FLAG_AUTOCLOSE then wm_destroy_window (Some hit) m e else (m, e)
  else if left_down_edge && has_flag (win m hit) WM_FLAG_RESIZABLE && hit_resize_grip (win m hit) mx my then
    (m <| resize_win := Some hit |> <| resize_start_w := w_w (win m hit) |> <| resize_start_h := w_h (win m hit) |>
       <| resize_start_mx := mx |> <| resize_start_my := my |>, e)
  else if left_down_edge && hit_title_bar (win m hit) mx my then
    let m := m <| drag_win := Some hit |> <| drag_offset_x := i32 (mx - w_x (win m hit)) |>
               <| drag_offset_y := i32 (my - w_y (win m hit)) |> in
    (set_win hit (set_flag WM_FLAG_DRAGGING (win m hit)) m, e)
  else
    let '(m, e) :=
      if left_down_edge then
        let '(m, e) := dispatch_to_window (Some hit) None INPUT_EVENT_MOUSE_DOWN MOUSE_BTN_DOWN buttons mx my m e in
        dispatch_to_window (Some hit) None INPUT_EVENT_CLICK MOUSE_BTN_DOWN buttons mx my m e
      else (m, e) in
    if right_down_edge then dispatch_to_window (Some hit) None INPUT_EVENT_RIGHT_CLICK MOUSE_BTN_DOWN buttons mx my m e
    else (m, e).

Definition bit_set (v b : Z) : bool := negb (Z.land v b =? 0).

Definition wm_handle_mouse (mx my buttons btn_changed : Z) (m : wm) (e : W) : Z * wm * W :=
  let left_pressed := bit_set buttons MOUSE_BUTTON_LEFT in
  let right_pressed := bit_set buttons MOUSE_BUTTON_RIGHT in
  let left_down_edge := left_pressed && bit_set btn_changed MOUSE_BUTTON_LEFT in
  let left_up_edge := negb left_pressed && bit_set btn_changed MOUSE_BUTTON_LEFT in
  let right_down_edge := right_pressed && bit_set btn_changed MOUSE_BUTTON_RIGHT in
  let right_up_edge := negb right_pressed && bit_set btn_changed MOUSE_BUTTON_RIGHT in
  match resize_win m with
  | Some i => mouse_resize i mx my buttons left_pressed m e
  | None =>
  match drag_win m with
  | Some i => (mouse_drag i mx my buttons left_pressed m, e)
  | None =>
  match (if left_down_edge || right_down_edge then wm_find_window_at mx my m else None) with
  | Some hit =>
      let '(m, e) := mouse_press hit mx my buttons left_down_edge right_down_edge m e in
      (1, m <| prev_buttons := buttons |>, e)
  | None =>
  match (if left_up_edge || right_up_edge then wm_find_window_at mx my m else None) with
  | Some hit =>
      let '(m, e) := dispatch_to_window (Some hit) None INPUT_EVENT_MOUSE_UP MOUSE_BTN_UP buttons mx my m e in
      (1, m <| prev_buttons := buttons |>, e)
  | None =>
  match (if btn_changed =? 0 then wm_find_window_at mx my m else None) with
  | Some hit =>
      let '(m, e) := dispatch_to_window (Some hit) None INPUT_EVENT_MOUSE_MOVE MOUSE_MOVE buttons mx my m e in
      (1, m <| prev_buttons := buttons |>, e)
  | None => (0, m <| prev_buttons := buttons |>, e)
  end end end end end.

Definition wm_handle_input (ev : option input_event) (m : wm) (e : W) : Z * wm * W :=
  match ev with
  | None => (0, m, e)
  | Some ev =>
      let id := ie_event_id ev in
      if (id =? INPUT_EVENT_KEY) || (id =? INPUT_EVENT_KEYUP) then
        match wm_get_top m with
        | None => (0, m, e)
        | Some t =>
            if w_handle_event (win m t) =? 0 then (0, m, e) else
            let '(m, e) := dispatch_to_window (Some t) (Some ev) id (if id =? INPUT_EVENT_KEY then KEY_PRESS else KEY_RELEASE)
                             (ie_keycode ev) (ie_x ev) (ie_y ev) m e in
            (1, m, e)
        end
      else if (id =? INPUT_EVENT_MOUSE_MOVE) || (id =? INPUT_EVENT_MOUSE_DOWN) || (id =? INPUT_EVENT_MOUSE_UP) ||
              (id =? INPUT_EVENT_RIGHT_CLICK) || (id =? INPUT_EVENT_CLICK) then
        let buttons := Z.land (ie_keycode ev) 0x07 in
        let changed := Z.lxor buttons (prev_buttons m) in
        wm_handle_mouse (ie_x ev) (ie_y ev) buttons changed m e
      else if id =? INPUT_EVENT_MOUSE_WHEEL then
        let target := wm_find_window_at (ie_x ev) (ie_y ev) m in
        let target := match target with Some t => Some t | None => wm_get_top m end in
        match target with
        | None => (0, m, e)
        | Some t =>
            let '(m, e) := dispatch_to_window (Some t) (Some ev) INPUT_EVENT_MOUSE_WHEEL MOUSE_MOVE
                             (ie_keycode ev) (ie_x ev) (ie_y ev) m e in
            (1, m, e)
        end
      else (0, m, e)
  end.

Definition draw_one (i : Z) (m : wm) (e : W) : W :=
  let w := win m i in
  let e := ui_draw_window w (b2z (has_flag w WM_FLAG_ACTIVE)) e in
  if w_draw_content w =? 0 then e else call_draw_content (w_draw_content w) i m e.

Fixpoint redraw_loop (n : nat) (w : option Z) (skip : wm_window -> bool) (m : wm) (e : W) : W :=
  match n, w with
  | S n, Some i =>
      let e := if negb (has_flag (win m i) WM_FLAG_VISIBLE) || skip (win m i) then e else draw_one i m e in
      redraw_loop n (w_next (win m i)) skip m e
  | _, _ => e
  end.

Definition wm_redraw_all (m : wm) (e : W) : W := redraw_loop 16 (zlist_head m) (fun _ => false) m e.

Definition wm_redraw_region (x y w h : Z) (m : wm) (e : W) : W :=
  let shadow_margin := UI_SHADOW_R + 2 in
  redraw_loop 16 (zlist_head m)
    (fun k => negb (rect_intersects x y w h (i32 (w_x k - shadow_margin)) (i32 (w_y k - shadow_margin))
                      (i32 (w_w k + shadow_margin * 2)) (i32 (w_h k + shadow_margin * 2)))) m e.
End handlers.
