(* ===== verification/WmInv.v ===== *)
(** The window manager's invariant: the z-order list is well formed, its windows are the used
    slots, and only its top is active.  Each list operation acts on the sequence of windows. *)

From S2P Require Import Prelude CString Ring Event Wm.

(** * Doubly linked segments *)

Definition hd_or (l : list Z) (q : option Z) : option Z := match l with [] => q | j :: _ => Some j end.
Definition last_or (p : option Z) (l : list Z) : option Z := match last l with Some j => Some j | None => p end.

(** The windows of [l] are linked in order, after [p] and before [q]. *)
Fixpoint chain (prv nxt : Z -> option Z) (p : option Z) (l : list Z) (q : option Z) : Prop :=
  match l with
  | [] => True
  | i :: l' => prv i = p /\ nxt i = hd_or l' q /\ chain prv nxt (Some i) l' q
  end.

Lemma last_or_cons p i l : last_or p (i :: l) = last_or (Some i) l.
Proof. unfold last_or. destruct l as [|j l]; [done|]. change (last (i :: j :: l)) with (last (j :: l)). by destruct (last (j :: l)) eqn:E; [|apply last_None in E]. Qed.

Lemma last_or_snoc p l i : last_or p (l ++ [i]) = Some i.
Proof. unfold last_or. by rewrite last_snoc. Qed.

Lemma chain_app prv nxt p l1 l2 q :
  chain prv nxt p (l1 ++ l2) q <-> chain prv nxt p l1 (hd_or l2 q) /\ chain prv nxt (last_or p l1) l2 q.
Proof.
  revert p. induction l1 as [|i l1 IH]; intros p; cbn [chain app].
  - unfold last_or. cbn. tauto.
  - rewrite IH, last_or_cons. assert (hd_or (l1 ++ l2) q = hd_or l1 (hd_or l2 q)) as -> by by destruct l1. tauto.
Qed.

(** Only the outer links of a segment depend on its surroundings. *)
Lemma chain_relink prv nxt prv' nxt' p q p' q' l :
  chain prv nxt p l q -> NoDup l ->
  (forall i, In i l -> prv' i = if decide (hd_or l None = Some i) then p' else prv i) ->
  (forall i, In i l -> nxt' i = if decide (last_or None l = Some i) then q' else nxt i) ->
  chain prv' nxt' p' l q'.
Proof.
  revert p p'. induction l as [|i l IH]; intros p p' C N Hp Hn; [done|]. destruct C as (C1 & C2 & C3). apply NoDup_cons in N as [Hi N].
  assert (forall j, In j l -> i <> j) as Hij by (intros j Hj ->; apply Hi; by apply list_elem_of_In).
  cbn [chain]. split_and!.
  - rewrite Hp by (by left). by rewrite decide_True.
  - rewrite Hn by (by left). destruct l as [|j l]; [by rewrite decide_True|].
    rewrite decide_False; [by rewrite C2|]. rewrite last_or_cons. unfold last_or. destruct (last (j :: l)) as [k|] eqn:Ek; [|by apply last_None in Ek].
    intros [= ->]. apply (Hij i); [|done]. apply list_elem_of_In. by apply last_Some_elem_of.
  - apply (IH (Some i)); [done|done| |].
    + intros j Hj. rewrite Hp by (by right). rewrite decide_False by (cbn; intros [= ?]; by eapply Hij).
      destruct l as [|k l]; [done|]. cbn. destruct (decide (Some k = Some j)) as [[= ->]|]; [|done]. by destruct C3.
    + intros j Hj. rewrite Hn by (by right). rewrite last_or_cons.
      destruct l as [|k l]; [done|]. rewrite !last_or_cons. done.
Qed.

Lemma chain_cong prv nxt prv' nxt' p q l :
  chain prv nxt p l q -> (forall i, In i l -> prv' i = prv i /\ nxt' i = nxt i) -> chain prv' nxt' p l q.
Proof.
  revert p. induction l as [|i l IH]; intros p; [done|]. intros (C1 & C2 & C3) H. destruct (H i) as [E1 E2]; [by left|]. cbn [chain].
  rewrite E1, E2. split_and!; [done|done|]. apply IH; [done|]. intros. apply H. by right.
Qed.

(** * The order of the windows *)

Definition prev_of (m : wm) (i : Z) : option Z := w_prev (win m i).
Definition next_of (m : wm) (i : Z) : option Z := w_next (win m i).

Definition slot (i : Z) : Prop := 0 <= i < 16.

Record zorder (m : wm) (l : list Z) : Prop := {
  zo_len : length (win_pool m) = 16%nat;
  zo_head : zlist_head m = hd_or l None;
  zo_tail : zlist_tail m = last_or None l;
  zo_nodup : NoDup l;
  zo_slots : Forall slot l;
  zo_chain : chain (prev_of m) (next_of m) None l None;
}.

Lemma win_set_win m i w j : length (win_pool m) = 16%nat -> slot i -> slot j ->
  win (set_win i w m) j = if decide (j = i) then w else win m j.
Proof.
  unfold slot. intros L Hi Hj. unfold win, set_win. fields. cbn [win_pool]. destruct (decide (j = i)) as [->|Hne].
  - apply aget_aset_eq. lia.
  - apply aget_aset_ne; lia.
Qed.

Lemma len_set_win m i w : length (win_pool (set_win i w m)) = length (win_pool m).
Proof. unfold set_win. fields. cbn [win_pool]. apply length_aset. Qed.

Lemma zo_slot m l i : zorder m l -> In i l -> slot i.
Proof. intros [_ _ _ _ S _] Hi. rewrite Forall_forall in S. apply S. by apply list_elem_of_In. Qed.

Lemma last_or_In l i : last_or None l = Some i -> In i l.
Proof. unfold last_or. destruct (last l) as [j|] eqn:E; [|done]. intros [= ->]. apply list_elem_of_In. by apply last_Some_elem_of. Qed.

Lemma hd_or_In l i : hd_or l None = Some i -> In i l.
Proof. destruct l; [done|]. intros [= ->]. by left. Qed.

(** What the list operations leave alone: everything but links and ends. *)
Definition same_content (a b : wm_window) : Prop := b = a <| w_prev := w_prev b |> <| w_next := w_next b |>.

Record links_only (m m' : wm) : Prop := {
  lo_win : forall i, slot i -> same_content (win m i) (win m' i);
  lo_used : win_pool_used m' = win_pool_used m;
  lo_rest : m' = m <| win_pool := win_pool m' |> <| zlist_head := zlist_head m' |> <| zlist_tail := zlist_tail m' |>;
}.

Lemma same_content_refl a : same_content a a.
Proof. by destruct a. Qed.
Lemma same_content_trans a b c : same_content a b -> same_content b c -> same_content a c.
Proof. unfold same_content. intros -> ->. done. Qed.

Lemma NoDup_middle (l1 l2 : list Z) w : NoDup (l1 ++ w :: l2) ->
  NoDup (l1 ++ l2) /\ ~ In w l1 /\ ~ In w l2 /\ (forall i, In i l1 -> ~ In i l2) /\ NoDup l1 /\ NoDup l2.
Proof.
  rewrite !NoDup_app. intros (N1 & N2 & N3). apply NoDup_cons in N3 as [Hw N3]. rewrite list_elem_of_In in Hw.
  assert (forall i, In i l1 -> ~ In i (w :: l2)) as H2 by (intros i Hi Hi'; apply (N2 i); by apply list_elem_of_In).
  assert (forall i, i ∈ l1 -> i ∉ l2) as H3 by (intros i Hi Hi'; apply (N2 i Hi); by right).
  split_and!; try done.
  - intros Hi. apply (H2 w Hi). by left.
  - intros i Hi Hi'. apply (H3 i); by apply list_elem_of_In.
Qed.

Lemma zlinks_refl m : links_only m m.
Proof. split; [intros; apply same_content_refl|done|by destruct m]. Qed.
Lemma zlinks_trans a b c : links_only a b -> links_only b c -> links_only a c.
Proof.
  intros [A1 A2 A3] [B1 B2 B3]. split.
  - intros i Hi. eapply same_content_trans; eauto.
  - by rewrite B2.
  - rewrite B3, A3. done.
Qed.
Lemma links_only_set m i w : length (win_pool m) = 16%nat -> slot i -> same_content (win m i) w -> links_only m (set_win i w m).
Proof.
  intros L Hi Hw. split; [|done|by destruct m].
  intros j Hj. rewrite win_set_win by done. case_decide; [by subst|apply same_content_refl].
Qed.
Lemma links_only_head m h : links_only m (m <| zlist_head := h |>).
Proof. split; [intros; apply same_content_refl|done|by destruct m]. Qed.
Lemma links_only_tail m t : links_only m (m <| zlist_tail := t |>).
Proof. split; [intros; apply same_content_refl|done|by destruct m]. Qed.

(** [upd i f]: a write to one window; its links afterwards. *)
Lemma prev_of_set m i w j : length (win_pool m) = 16%nat -> slot i -> slot j ->
  prev_of (set_win i w m) j = if decide (j = i) then w_prev w else prev_of m j.
Proof. intros. unfold prev_of. rewrite win_set_win by done. by case_decide. Qed.
Lemma next_of_set m i w j : length (win_pool m) = 16%nat -> slot i -> slot j ->
  next_of (set_win i w m) j = if decide (j = i) then w_next w else next_of m j.
Proof. intros. unfold next_of. rewrite win_set_win by done. by case_decide. Qed.

(** The two halves of unlinking. *)
Definition relink_prev (i : Z) (m : wm) : wm :=
  match w_prev (win m i) with
  | Some p => set_win p (win m p <| w_next := w_next (win m i) |>) m
  | None => m <| zlist_head := w_next (win m i) |>
  end.
Definition relink_next (i : Z) (m : wm) : wm :=
  match w_next (win m i) with
  | Some n => set_win n (win m n <| w_prev := w_prev (win m i) |>) m
  | None => m <| zlist_tail := w_prev (win m i) |>
  end.

Lemma zlist_remove_eq i m :
  zlist_remove (Some i) m = let m := relink_next i (relink_prev i m) in set_win i (win m i <| w_prev := None |> <| w_next := None |>) m.
Proof. done. Qed.

Lemma relink_prev_ok i m : length (win_pool m) = 16%nat -> slot i -> (forall p, prev_of m i = Some p -> slot p /\ p <> i) ->
  let m' := relink_prev i m in
  links_only m m' /\ length (win_pool m') = 16%nat /\ zlist_tail m' = zlist_tail m
  /\ zlist_head m' = (match prev_of m i with Some _ => zlist_head m | None => next_of m i end)
  /\ (forall j, slot j -> prev_of m' j = prev_of m j)
  /\ (forall j, slot j -> next_of m' j = if decide (prev_of m i = Some j) then next_of m i else next_of m j).
Proof.
  intros L Hi Hp. cbv zeta. unfold relink_prev. change (w_prev (win m i)) with (prev_of m i). change (w_next (win m i)) with (next_of m i).
  destruct (prev_of m i) as [p|] eqn:Ep.
  - destruct (Hp p eq_refl) as [Hs Hne]. split_and!; [|by rewrite len_set_win|done|done| |].
    + apply links_only_set; [done|done|]. by destruct (win m p).
    + intros j Hj. rewrite prev_of_set by done. case_decide; [by subst|done].
    + intros j Hj. rewrite next_of_set by done. case_decide as D; [subst; by rewrite decide_True|]. by rewrite decide_False by congruence.
  - split_and!; [apply links_only_head|done|done|done|done|]. intros j Hj. by rewrite decide_False.
Qed.

Lemma relink_next_ok i m : length (win_pool m) = 16%nat -> slot i -> (forall p, next_of m i = Some p -> slot p /\ p <> i) ->
  let m' := relink_next i m in
  links_only m m' /\ length (win_pool m') = 16%nat /\ zlist_head m' = zlist_head m
  /\ zlist_tail m' = (match next_of m i with Some _ => zlist_tail m | None => prev_of m i end)
  /\ (forall j, slot j -> next_of m' j = next_of m j)
  /\ (forall j, slot j -> prev_of m' j = if decide (next_of m i = Some j) then prev_of m i else prev_of m j).
Proof.
  intros L Hi Hp. cbv zeta. unfold relink_next. change (w_prev (win m i)) with (prev_of m i). change (w_next (win m i)) with (next_of m i).
  destruct (next_of m i) as [p|] eqn:Ep.
  - destruct (Hp p eq_refl) as [Hs Hne]. split_and!; [|by rewrite len_set_win|done|done| |].
    + apply links_only_set; [done|done|]. by destruct (win m p).
    + intros j Hj. rewrite next_of_set by done. case_decide; [by subst|done].
    + intros j Hj. rewrite prev_of_set by done. case_decide as D; [subst; by rewrite decide_True|]. by rewrite decide_False by congruence.
  - split_and!; [apply links_only_tail|done|done|done|done|]. intros j Hj. by rewrite decide_False.
Qed.

Lemma chain_hd prv nxt p l q i : chain prv nxt p l q -> hd_or l None = Some i -> prv i = p.
Proof. destruct l; [done|]. intros (? & _) [= ->]. done. Qed.
Lemma chain_last prv nxt p l q i : chain prv nxt p l q -> last_or None l = Some i -> nxt i = q.
Proof.
  destruct l as [|l j _] using rev_ind; [done|]. rewrite last_or_snoc. intros C [= ->]. apply chain_app in C as [_ (_ & C & _)]. done.
Qed.

Lemma chain_set_next prv nxt prv' nxt' p q q' l : chain prv nxt p l q -> NoDup l ->
  (forall i, In i l -> prv' i = prv i) ->
  (forall i, In i l -> nxt' i = if decide (last_or None l = Some i) then q' else nxt i) -> chain prv' nxt' p l q'.
Proof.
  intros C N Hp Hn. eapply chain_relink; [done|done| |done]. intros i Hi. rewrite Hp by done. case_decide as D; [|done].
  by eapply chain_hd.
Qed.
Lemma chain_set_prev prv nxt prv' nxt' p p' q l : chain prv nxt p l q -> NoDup l ->
  (forall i, In i l -> prv' i = if decide (hd_or l None = Some i) then p' else prv i) ->
  (forall i, In i l -> nxt' i = nxt i) -> chain prv' nxt' p' l q.
Proof.
  intros C N Hp Hn. eapply chain_relink; [done|done|done|]. intros i Hi. rewrite Hn by done. case_decide as D; [|done].
  by eapply chain_last.
Qed.

Lemma last_or_app_cons p l1 w l2 : last_or p (l1 ++ w :: l2) = last_or (Some w) l2.
Proof. unfold last_or. rewrite last_app_cons. destruct l2 as [|j l2] using rev_ind; [done|]. by rewrite app_comm_cons, !last_snoc. Qed.
Lemma last_or_app_nil p l1 : last_or p (l1 ++ []) = last_or p l1.
Proof. by rewrite app_nil_r. Qed.
Lemma last_or_or p l : last_or p l = match l with [] => p | _ => last_or None l end.
Proof. destruct l as [|j l _] using rev_ind; [done|]. rewrite !last_or_snoc. by destruct l. Qed.

(** Unlinking removes one window from the order. *)
Lemma zlist_remove_ok m l1 w l2 : zorder m (l1 ++ w :: l2) ->
  let m' := zlist_remove (Some w) m in
  zorder m' (l1 ++ l2) /\ links_only m m' /\ prev_of m' w = None /\ next_of m' w = None.
Proof.
  intros Z. pose proof Z as [L Hh Ht N S C]. cbv zeta. apply NoDup_middle in N as (N & W1 & W2 & N12 & N1 & N2).
  assert (slot w) as Sw by (apply (zo_slot m _ w Z); apply in_or_app; right; by left).
  apply chain_app in C as [C1 (Cp & Cn & C2)]. cbn [hd_or] in C1.
  assert (forall i, In i l1 \/ In i l2 -> slot i /\ i <> w) as Hio.
  { intros i Hi. split; [apply (zo_slot m _ i Z); apply in_or_app; cbn; tauto|]. intros ->. tauto. }
  destruct (relink_prev_ok w m L Sw) as (O1 & L1 & T1 & H1 & P1 & X1).
  { intros p. rewrite Cp. intros Hp%last_or_In. apply Hio. by left. }
  set (m1 := relink_prev w m) in *.
  assert (next_of m1 w = next_of m w) as Hnw.
  { rewrite X1 by done. rewrite decide_False; [done|]. rewrite Cp. by intros Hp%last_or_In. }
  destruct (relink_next_ok w m1 L1 Sw) as (O2 & L2 & H2 & T2 & X2 & P2).
  { intros p. rewrite Hnw, Cn. intros Hp%hd_or_In. apply Hio. by right. }
  rewrite zlist_remove_eq. fold m1. cbv zeta. set (m2 := relink_next w m1) in *. rewrite Hnw in *. rewrite P1 in T2 by done.
  assert (forall j, In j l1 \/ In j l2 -> prev_of (set_win w (win m2 w <| w_prev := None |> <| w_next := None |>) m2) j
     = if decide (next_of m w = Some j) then prev_of m w else prev_of m j) as Pj.
  { intros j Hj. destruct (Hio j Hj). rewrite prev_of_set, decide_False, P2 by done. by rewrite !P1 by done. }
  assert (forall j, In j l1 \/ In j l2 -> next_of (set_win w (win m2 w <| w_prev := None |> <| w_next := None |>) m2) j
     = if decide (prev_of m w = Some j) then next_of m w else next_of m j) as Nj.
  { intros j Hj. destruct (Hio j Hj). rewrite next_of_set, decide_False, X2 by done. by rewrite !X1 by done. }
  split_and!.
  - split.
    + by rewrite len_set_win.
    + unfold set_win. fields. cbn [zlist_head]. rewrite H2, H1, Hh, Cp, Cn. by destruct l1 as [|a l1 _] using rev_ind; [|rewrite last_or_snoc; destruct l1].
    + unfold set_win. fields. cbn [zlist_tail]. rewrite T2, T1, Ht, Cp, Cn, last_or_app_cons. destruct l2 as [|b l2]; [by rewrite last_or_app_nil|].
      cbn [hd_or]. rewrite last_or_app_cons. by rewrite last_or_cons.
    + done.
    + rewrite Forall_app in *. destruct S as [S1 S2]. by apply Forall_cons in S2 as [_ ?].
    + apply chain_app. rewrite Cp, Cn in *. split.
      * eapply chain_set_next; [exact C1|done| |].
        -- intros i Hi. rewrite Pj by by left. rewrite decide_False; [done|]. intros Hn%hd_or_In. by eapply N12.
        -- intros i Hi. by rewrite Nj by by left.
      * eapply chain_set_prev; [exact C2|done| |].
        -- intros i Hi. by rewrite Pj by by right.
        -- intros i Hi. rewrite Nj by by right. rewrite decide_False; [done|]. intros Hn%last_or_In. by eapply N12.
  - eapply zlinks_trans; [exact O1|]. eapply zlinks_trans; [exact O2|]. apply links_only_set; [done|done|]. by destruct (win m2 w).
  - rewrite prev_of_set by done. by rewrite decide_True.
  - rewrite next_of_set by done. by rewrite decide_True.
Qed.

(** Linking on top appends it. *)
Lemma zlist_push_top_ok m l w : zorder m l -> slot w -> ~ In w l ->
  let m' := zlist_push_top (Some w) m in zorder m' (l ++ [w]) /\ links_only m m'.
Proof.
  intros Z Sw Hw. pose proof Z as [L Hh Ht N S C]. cbv zeta. unfold zlist_push_top.
  set (m1 := set_win w _ m). assert (length (win_pool m1) = 16%nat) as L1 by by subst m1; rewrite len_set_win.
  assert (links_only m m1) as O1. { apply links_only_set; [done|done|]. by destruct (win m w). }
  assert (forall i, In i l -> slot i /\ i <> w) as Hl by (intros i Hi; split; [by eapply zo_slot|by intros ->]).
  assert (zlist_tail m1 = zlist_tail m) as -> by done. rewrite Ht.
  assert (prev_of m1 w = last_or None l /\ next_of m1 w = None) as [Pw Nw].
  { subst m1. rewrite prev_of_set, next_of_set, !decide_True by done. by rewrite Ht. }
  assert (forall i, In i l -> prev_of m1 i = prev_of m i /\ next_of m1 i = next_of m i) as Hm1.
  { intros i Hi. destruct (Hl i Hi). subst m1. by rewrite prev_of_set, next_of_set, !decide_False by done. }
  destruct (last_or None l) as [t|] eqn:Et.
  - pose proof (last_or_In _ _ Et) as Htl. destruct (Hl t Htl) as [St Htw].
    set (m2 := set_win t _ m1). assert (links_only m1 m2) as O2. { apply links_only_set; [done|done|]. by destruct (win m1 t). }
    split; [|eapply zlinks_trans; [exact O1|]; eapply zlinks_trans; [exact O2|apply links_only_tail]].
    split; [by change (length (win_pool m2) = 16%nat); subst m2; rewrite len_set_win| | | | |].
    + change (zlist_head m = hd_or (l ++ [w]) None). rewrite Hh. by destruct l.
    + by rewrite last_or_snoc.
    + apply NoDup_app. split_and!; [done| |apply NoDup_singleton]. intros i Hi ->%list_elem_of_singleton. by apply Hw, list_elem_of_In.
    + apply Forall_app. split; [done|]. by constructor.
    + apply chain_app. split.
      * eapply chain_set_next; [exact C|done| |]; intros i Hi; destruct (Hl i Hi), (Hm1 i Hi) as [Q1 Q2].
        -- change (prev_of m2 i = prev_of m i). subst m2. rewrite prev_of_set by done. case_decide; [by subst|done].
        -- change (next_of m2 i = if decide (last_or None l = Some i) then Some w else next_of m i). subst m2. rewrite next_of_set by done. rewrite Et.
           case_decide; [subst; by rewrite decide_True|]. rewrite decide_False by congruence. done.
      * change (prev_of m2 w = last_or None l /\ next_of m2 w = None /\ True). subst m2. rewrite prev_of_set, next_of_set, !decide_False by done.
        by rewrite Pw, Nw, Et.
  - assert (l = []) as ->. { destruct l as [|a l _] using rev_ind; [done|]. by rewrite last_or_snoc in Et. }
    split; [|eapply zlinks_trans; [exact O1|]; eapply zlinks_trans; [apply links_only_head|apply links_only_tail]].
    split; [done|done|done|apply NoDup_singleton|by constructor|]. split_and!; [exact Pw|exact Nw|done].
Qed.

(** * Dirty rectangles *)

(** On a screen with pixels, a rectangle is not empty and inside the screen. *)
Definition rect_ok (m : wm) (r : wm_dirty_rect) : Prop :=
  (fb_width m <> 0 -> fb_height m <> 0 ->
   0 < r_w r /\ 0 < r_h r /\ 0 <= r_x r /\ r_x r + r_w r <= fb_width m /\ 0 <= r_y r /\ r_y r + r_h r <= fb_height m).

Record dirty_ok (m : wm) : Prop := {
  do_len : length (dirty_regions m) = 128%nat;
  do_count : 0 <= dirty_count m <= 128;
  do_rects : forall k, 0 <= k < dirty_count m -> rect_ok m (aget (dirty_regions m) k);
}.

Definition screen_ok (m : wm) : Prop :=
  0 <= fb_width m < 0x80000000 /\ 0 <= fb_height m < 0x80000000.

Lemma clampi_range v hi : 0 <= hi -> 0 <= clampi v 0 hi <= hi.
Proof. unfold clampi. intros. destruct (Z.ltb_spec v 0); [lia|]. destruct (Z.ltb_spec hi v); lia. Qed.

(** What marking a rectangle may change. *)
Definition marks (m m' : wm) : Prop := m' = m <| dirty_regions := dirty_regions m' |> <| dirty_count := dirty_count m' |>.

Lemma mark_marks x y w h m : marks m (wm_mark_dirty_rect x y w h m).
Proof.
  unfold marks, wm_mark_dirty_rect. destruct (_ || _); [by destruct m|]. destruct (if _ && _ then _ else _) as [[[x' y'] w'] h'].
  destruct (_ || _); [by destruct m|]. by destruct (_ <=? _).
Qed.

Lemma mark_dirty_ok x y w h m : screen_ok m -> dirty_ok m -> dirty_ok (wm_mark_dirty_rect x y w h m).
Proof.
  intros (F1 & F2) D. pose proof D as [L C R]. unfold wm_mark_dirty_rect. destruct (_ || _) eqn:E0; [done|].
  destruct (if _ && _ then _ else _) as [[[x' y'] w'] h'] eqn:E1. destruct ((w' <=? 0) || (h' <=? 0)) eqn:E2; [done|].
  assert (rect_ok m (mkRect x' y' w' h')) as Hr.
  { apply orb_false_iff in E2 as [E2%Z.leb_gt E3%Z.leb_gt]. intros Hw Hh. revert E1. cbn [r_x r_y r_w r_h].
    rewrite (proj2 (Z.eqb_neq _ _) Hw), (proj2 (Z.eqb_neq _ _) Hh). cbn [andb negb]. rewrite (i32_fits (fb_width m)), (i32_fits (fb_height m)) by lia.
    pose proof (clampi_range x (fb_width m)). pose proof (clampi_range y (fb_height m)).
    pose proof (clampi_range (i32 (x + w)) (fb_width m)). pose proof (clampi_range (i32 (y + h)) (fb_height m)).
    intros [= <- <- <- <-]. rewrite !(i32_fits (clampi _ _ _ - _)) in * by lia. lia. }
  unfold WM_DIRTY_MAX. destruct (Z.leb_spec 128 (dirty_count m)) as [Hc|Hc].
  - split; cbn [dirty_regions dirty_count fb_width fb_height field_set]; fields; cbn; [by rewrite length_aset|lia|].
    intros k Hk. assert (k = 0) as -> by lia. rewrite aget_aset_eq by lia. rewrite !i32_fits by lia.
    unfold rect_ok. cbn. lia.
  - split; fields; cbn; [by rewrite length_aset|lia|]. intros k Hk. destruct (decide (k = dirty_count m)) as [->|Hne].
    + rewrite aget_aset_eq by lia. exact Hr.
    + rewrite aget_aset_ne by lia. apply R. lia.
Qed.

(** * Flags *)

Lemma land_pow2 f k : 0 <= k -> Z.land f (2 ^ k) = if Z.testbit f k then 2 ^ k else 0.
Proof.
  intros Hk. apply Z.bits_inj'. intros n Hn. rewrite Z.land_spec, Z.pow2_bits_eqb by done. destruct (Z.eqb_spec k n) as [<-|Hne].
  - rewrite andb_true_r. destruct (Z.testbit f k); [by rewrite Z.pow2_bits_true|by rewrite Z.bits_0].
  - rewrite andb_false_r. destruct (Z.testbit f k); [by rewrite Z.pow2_bits_false by done|by rewrite Z.bits_0].
Qed.

Lemma has_flag_bit w k : 0 <= k -> has_flag w (2 ^ k) = Z.testbit (w_flags w) k.
Proof.
  intros Hk. unfold has_flag. rewrite land_pow2 by done. assert (0 < 2 ^ k) by (apply Z.pow_pos_nonneg; lia).
  destruct (Z.testbit _ k); [|done]. by rewrite (proj2 (Z.eqb_neq (2 ^ k) 0)) by lia.
Qed.
Lemma has_set_flag w k j : 0 <= k -> 0 <= j -> has_flag (set_flag (2 ^ k) w) (2 ^ j) = (k =? j) || has_flag w (2 ^ j).
Proof. intros. rewrite !has_flag_bit by done. unfold set_flag. fields. cbn [w_flags]. rewrite Z.lor_spec, Z.pow2_bits_eqb by done. apply orb_comm. Qed.
Lemma has_clear_flag w k j : 0 <= k -> 0 <= j -> has_flag (clear_flag (2 ^ k) w) (2 ^ j) = negb (k =? j) && has_flag w (2 ^ j).
Proof. intros. rewrite !has_flag_bit by done. unfold clear_flag. fields. cbn [w_flags]. rewrite Z.ldiff_spec, Z.pow2_bits_eqb by done. apply andb_comm. Qed.

(** * Steps that keep the windows' data *)

(** Everything but links and flags is the same, and so is the auto-close flag. *)
Definition same_data (a b : wm_window) : Prop :=
  b = a <| w_flags := w_flags b |> <| w_prev := w_prev b |> <| w_next := w_next b |>
  /\ has_flag b WM_FLAG_AUTOCLOSE = has_flag a WM_FLAG_AUTOCLOSE.

Record frame (m m' : wm) : Prop := {
  fr_len : length (win_pool m) = 16%nat -> length (win_pool m') = 16%nat;
  fr_win : forall i, slot i -> same_data (win m i) (win m' i);
  fr_rest : m' = m <| win_pool := win_pool m' |> <| zlist_head := zlist_head m' |> <| zlist_tail := zlist_tail m' |>
                   <| dirty_regions := dirty_regions m' |> <| dirty_count := dirty_count m' |>;
  fr_dirty : screen_ok m -> dirty_ok m -> dirty_ok m';
}.

Lemma same_data_refl a : same_data a a.
Proof. split; [by destruct a|done]. Qed.
Lemma same_data_trans a b c : same_data a b -> same_data b c -> same_data a c.
Proof. intros [A1 A2] [B1 B2]. split; [rewrite B1, A1; done|congruence]. Qed.

Lemma frame_refl m : frame m m.
Proof. split; [done|intros; apply same_data_refl|by destruct m|done]. Qed.
Lemma frame_screen m m' : frame m m' -> screen_ok m -> screen_ok m'.
Proof. intros F. unfold screen_ok. rewrite (fr_rest _ _ F). done. Qed.
Lemma frame_trans a b c : frame a b -> frame b c -> frame a c.
Proof.
  intros A B. pose proof A as [A1 A2 A3 A4]. pose proof B as [B1 B2 B3 B4]. split.
  - auto.
  - intros i Hi. eapply same_data_trans; eauto.
  - rewrite B3, A3. done.
  - intros S D. apply B4; [by eapply frame_screen|auto].
Qed.

Lemma dirty_ok_ext m m' : dirty_regions m' = dirty_regions m -> dirty_count m' = dirty_count m ->
  fb_width m' = fb_width m -> fb_height m' = fb_height m -> dirty_ok m -> dirty_ok m'.
Proof. intros E1 E2 E3 E4 [L C R]. split; rewrite ?E1, ?E2; [done|done|]. intros k Hk. unfold rect_ok. rewrite E3, E4. by apply R. Qed.

Lemma links_frame m m' : length (win_pool m') = 16%nat -> links_only m m' -> frame m m'.
Proof.
  intros L [A B C]. split; [done| | |].
  - intros i Hi. specialize (A i Hi). unfold same_content in A. split; rewrite A; by destruct (win m i).
  - rewrite C. by destruct m.
  - intros _. apply dirty_ok_ext; by rewrite C.
Qed.

Lemma set_win_frame m i w : length (win_pool m) = 16%nat -> slot i -> same_data (win m i) w -> frame m (set_win i w m).
Proof.
  intros L Hi Hw. split; [by rewrite len_set_win| |by destruct m|].
  - intros j Hj. rewrite win_set_win by done. case_decide; [by subst|apply same_data_refl].
  - intros _. by apply dirty_ok_ext.
Qed.

Lemma mark_frame x y w h m : frame m (wm_mark_dirty_rect x y w h m).
Proof.
  pose proof (mark_marks x y w h m) as M. unfold marks in M. split.
  - by rewrite M.
  - intros i Hi. unfold win. rewrite M. apply same_data_refl.
  - rewrite M. by destruct m.
  - intros. by apply mark_dirty_ok.
Qed.
Lemma mark_win_frame i m : frame m (wm_mark_window_dirty i m).
Proof. destruct i; [apply mark_frame|apply frame_refl]. Qed.

Lemma mark_win x y w h m i : win (wm_mark_dirty_rect x y w h m) i = win m i.
Proof. unfold win. by rewrite (mark_marks x y w h m). Qed.
Lemma mark_window_win j m i : win (wm_mark_window_dirty j m) i = win m i.
Proof. destruct j; [apply mark_win|done]. Qed.

Lemma zorder_ext m m' l : win_pool m' = win_pool m -> zlist_head m' = zlist_head m -> zlist_tail m' = zlist_tail m ->
  zorder m l -> zorder m' l.
Proof.
  intros E1 E2 E3 [L H T N S C]. split; [by rewrite E1|by rewrite E2|by rewrite E3|done|done|].
  eapply chain_cong; [exact C|]. intros i _. unfold prev_of, next_of, win. by rewrite E1.
Qed.
Lemma mark_zorder x y w h m l : zorder m l -> zorder (wm_mark_dirty_rect x y w h m) l.
Proof. apply zorder_ext; by rewrite (mark_marks x y w h m). Qed.
Lemma mark_window_zorder i m l : zorder m l -> zorder (wm_mark_window_dirty i m) l.
Proof. destruct i; [apply mark_zorder|done]. Qed.
Lemma set_win_zorder i w m l : slot i -> w_prev w = w_prev (win m i) -> w_next w = w_next (win m i) -> zorder m l -> zorder (set_win i w m) l.
Proof.
  intros Hi E1 E2 Z. pose proof Z as [L H T N S C]. split; [by rewrite len_set_win|done|done|done|done|].
  eapply chain_cong; [exact C|]. intros j Hj. pose proof (zo_slot m l j Z Hj).
  rewrite prev_of_set, next_of_set by done. case_decide; [subst; done|done].
Qed.

(** * Active windows *)

Definition active (m : wm) (i : Z) : bool := has_flag (win m i) WM_FLAG_ACTIVE.

Lemma active_set w : has_flag (set_flag WM_FLAG_ACTIVE w) WM_FLAG_ACTIVE = true.
Proof. apply (has_set_flag w 1 1); lia. Qed.
Lemma active_clear w : has_flag (clear_flag WM_FLAG_ACTIVE w) WM_FLAG_ACTIVE = false.
Proof. apply (has_clear_flag w 1 1); lia. Qed.

Lemma active_set_win m i w j : length (win_pool m) = 16%nat -> slot i -> slot j ->
  active (set_win i w m) j = if decide (j = i) then has_flag w WM_FLAG_ACTIVE else active m j.
Proof. intros. unfold active. rewrite win_set_win by done. by case_decide. Qed.
Lemma active_mark i m j : active (wm_mark_window_dirty i m) j = active m j.
Proof. unfold active. by rewrite mark_window_win. Qed.
Lemma active_links m m' j : links_only m m' -> slot j -> active m' j = active m j.
Proof. intros [A _ _] Hj. specialize (A j Hj). unfold active, has_flag. rewrite A. done. Qed.

(** * The invariant *)

Definition dims_ok (w : wm_window) : Prop := w_min_w w = WM_MIN_W /\ w_min_h w = WM_MIN_H /\ WM_MIN_W <= w_w w /\ WM_MIN_H <= w_h w.

Record wm_ok (m : wm) (l : list Z) : Prop := {
  ok_order : zorder m l;
  ok_used_len : length (win_pool_used m) = 16%nat;
  ok_used : forall i, slot i -> aget (win_pool_used m) i = true <-> In i l;
  ok_active : forall i, In i l -> active m i = true <-> last_or None l = Some i;
  ok_dims : forall i, In i l -> dims_ok (win m i);
  ok_drag : forall i, drag_win m = Some i -> In i l;
  ok_resize : forall i, resize_win m = Some i -> In i l;
  ok_dirty : dirty_ok m;
  ok_screen : screen_ok m;
}.

Lemma wm_ok_slot m l i : wm_ok m l -> In i l -> slot i.
Proof. intros K. apply zo_slot with m. apply K. Qed.
Lemma ok_len m l : wm_ok m l -> length (win_pool m) = 16%nat.
Proof. intros K. apply (zo_len _ _ (ok_order _ _ K)). Qed.

Lemma same_data_dims a b : same_data a b -> dims_ok a -> dims_ok b.
Proof. intros [-> _]. done. Qed.

Lemma ok_frame m l m' l' : wm_ok m l -> frame m m' -> zorder m' l' -> (forall i, In i l' <-> In i l) ->
  (forall i, In i l' -> active m' i = true <-> last_or None l' = Some i) -> wm_ok m' l'.
Proof.
  intros K F Z I A. pose proof F as [F1 F2 F3 F4]. split; [done| | |done| | | | |].
  - rewrite F3. apply (ok_used_len _ _ K).
  - intros i Hi. rewrite I, F3. by apply (ok_used _ _ K).
  - intros i Hi%I. eapply same_data_dims; [|by eapply ok_dims]. apply F2. by eapply wm_ok_slot.
  - intros i. rewrite F3. intros Hi. apply I. by eapply ok_drag.
  - intros i. rewrite F3. intros Hi. apply I. by eapply ok_resize.
  - apply F4; apply K.
  - eapply frame_screen; [done|apply K].
Qed.

(** Steps that keep the order and every active flag. *)
Lemma ok_step m l m' : wm_ok m l -> frame m m' -> zorder m' l -> (forall i, slot i -> active m' i = active m i) -> wm_ok m' l.
Proof.
  intros K F Z A. eapply ok_frame; [done|done|done|done|]. intros i Hi. rewrite A by by eapply wm_ok_slot. by apply (ok_active _ _ K).
Qed.

Lemma ok_mark m l x y w h : wm_ok m l -> wm_ok (wm_mark_dirty_rect x y w h m) l.
Proof.
  intros K. eapply ok_step; [done|apply mark_frame|apply mark_zorder, K|]. intros i _. unfold active. by rewrite mark_win.
Qed.
Lemma ok_mark_window m l i : wm_ok m l -> wm_ok (wm_mark_window_dirty i m) l.
Proof. destruct i; [apply ok_mark|done]. Qed.
#[export] Hint Resolve ok_mark ok_mark_window : tsk.

(** A write to a window that keeps its links and its active flag. *)
Lemma ok_set_win m l i w : wm_ok m l -> slot i -> w_prev w = w_prev (win m i) -> w_next w = w_next (win m i) ->
  has_flag w WM_FLAG_ACTIVE = active m i -> (dims_ok (win m i) -> dims_ok w) -> wm_ok (set_win i w m) l.
Proof.
  intros K Hi E1 E2 A D. pose proof (ok_len _ _ K) as L. split; [by apply set_win_zorder; try apply K|apply K|apply K| | | | | |].
  - intros j Hj. rewrite active_set_win by (try done; by eapply wm_ok_slot). rewrite <- (ok_active _ _ K) by done. case_decide; [subst; by rewrite A|done].
  - intros j Hj. rewrite win_set_win by (try done; by eapply wm_ok_slot). pose proof (ok_dims _ _ K j Hj). case_decide; [subst; by apply D|done].
  - apply (ok_drag _ _ K).
  - apply (ok_resize _ _ K).
  - eapply dirty_ok_ext; [..|apply (ok_dirty _ _ K)]; done.
  - apply (ok_screen _ _ K).
Qed.

(** A write to the other variables. *)
Lemma ok_ext m l m' : wm_ok m l -> win_pool m' = win_pool m -> win_pool_used m' = win_pool_used m ->
  zlist_head m' = zlist_head m -> zlist_tail m' = zlist_tail m -> dirty_regions m' = dirty_regions m -> 0 <= dirty_count m' <= dirty_count m ->
  fb_width m' = fb_width m -> fb_height m' = fb_height m ->
  (forall i, drag_win m' = Some i -> In i l) -> (forall i, resize_win m' = Some i -> In i l) -> wm_ok m' l.
Proof.
  intros K E1 E2 E3 E4 E5 E6 E7 E8 D R. assert (forall i, win m' i = win m i) as Hw by (intros; unfold win; by rewrite E1).
  split; [eapply zorder_ext; [..|apply K]; done|rewrite E2; apply K|rewrite E2; apply K| | |done|done| |].
  - intros i Hi. unfold active. rewrite Hw. by apply (ok_active _ _ K).
  - intros i Hi. rewrite Hw. by apply (ok_dims _ _ K).
  - destruct (ok_dirty _ _ K) as [L C Q]. split; [by rewrite E5|lia|]. rewrite E5. intros k Hk. unfold rect_ok. rewrite E7, E8. apply Q. lia.
  - unfold screen_ok. rewrite E7, E8. apply K.
Qed.

(** * Raising and lowering the top *)

Lemma set_flag_data k w : 0 <= k -> k <> 5 -> same_data w (set_flag (2 ^ k) w).
Proof.
  intros. split; [by destruct w|]. pose proof (has_set_flag w k 5 ltac:(done) ltac:(lia)) as E. rewrite (proj2 (Z.eqb_neq k 5)) in E by done. exact E.
Qed.
Lemma clear_flag_data k w : 0 <= k -> k <> 5 -> same_data w (clear_flag (2 ^ k) w).
Proof.
  intros. split; [by destruct w|]. pose proof (has_clear_flag w k 5 ltac:(done) ltac:(lia)) as E. rewrite (proj2 (Z.eqb_neq k 5)) in E by done. exact E.
Qed.
Lemma set_active_data w : same_data w (set_flag WM_FLAG_ACTIVE w).
Proof. by apply (set_flag_data 1). Qed.
Lemma clear_active_data w : same_data w (clear_flag WM_FLAG_ACTIVE w).
Proof. by apply (clear_flag_data 1). Qed.
#[export] Hint Resolve set_active_data clear_active_data : tsk.

(** The top loses its active flag. *)
Definition lower_top (m : wm) : wm :=
  match zlist_tail m with
  | Some t => set_win t (clear_flag WM_FLAG_ACTIVE (win m t)) m
  | None => m
  end.

Lemma lower_top_ok m l : zorder m l -> (forall i, In i l -> active m i = true <-> last_or None l = Some i) ->
  zorder (lower_top m) l /\ frame m (lower_top m) /\ (forall i, In i l -> active (lower_top m) i = false)
  /\ (forall i, slot i -> ~ In i l -> win (lower_top m) i = win m i).
Proof.
  intros Z A. pose proof (zo_len _ _ Z) as L. unfold lower_top. rewrite (zo_tail _ _ Z). destruct (last_or None l) as [t|] eqn:Et.
  - pose proof (last_or_In _ _ Et) as Ht. pose proof (zo_slot _ _ _ Z Ht) as St. split_and!.
    + by apply set_win_zorder.
    + apply set_win_frame; auto with tsk.
    + intros i Hi. rewrite active_set_win by (try done; by eapply zo_slot). case_decide; [apply active_clear|].
      destruct (active m i) eqn:Ei; [|done]. apply A in Ei; [congruence|done].
    + intros i Si Hi. rewrite win_set_win by done. rewrite decide_False; [done|]. by intros ->.
  - assert (l = []) as -> by (destruct l as [|a l _] using rev_ind; [done|by rewrite last_or_snoc in Et]).
    split_and!; [done|apply frame_refl|by intros i []|done].
Qed.

(** A window linked on top of inactive ones and activated. *)
Definition raise (w : Z) (m : wm) : wm :=
  let m := zlist_push_top (Some w) m in set_win w (set_flag WM_FLAG_ACTIVE (win m w)) m.

Lemma raise_ok m l w : zorder m l -> slot w -> ~ In w l -> (forall i, In i l -> active m i = false) ->
  zorder (raise w m) (l ++ [w]) /\ frame m (raise w m)
  /\ (forall i, In i (l ++ [w]) -> active (raise w m) i = true <-> last_or None (l ++ [w]) = Some i).
Proof.
  intros Z Sw Hw A. destruct (zlist_push_top_ok m l w Z Sw Hw) as [Z1 O1]. unfold raise. set (m1 := zlist_push_top (Some w) m) in *.
  pose proof (zo_len _ _ Z1) as L1. split_and!.
  - by apply set_win_zorder.
  - eapply frame_trans; [by apply links_frame|]. apply set_win_frame; auto with tsk.
  - intros i Hi. pose proof (zo_slot _ _ _ Z1 Hi) as Si. rewrite last_or_snoc, active_set_win by done. case_decide as D.
    + subst. by rewrite active_set.
    + rewrite (active_links m m1) by done. apply in_app_or in Hi as [Hi|[->|[]]]; [|done]. rewrite (A i Hi). split; [done|congruence].
Qed.

Lemma wm_bring_to_front_ok m l1 w l2 : wm_ok m (l1 ++ w :: l2) ->
  let m' := wm_bring_to_front (Some w) m in wm_ok m' (l1 ++ l2 ++ [w]) /\ frame m m'.
Proof.
  intros K. pose proof (ok_order _ _ K) as Z. pose proof (wm_ok_slot _ _ w K ltac:(apply in_or_app; right; by left)) as Sw.
  cbv zeta. unfold wm_bring_to_front. rewrite (zo_tail _ _ Z). destruct (NoDup_middle _ _ _ (zo_nodup _ _ Z)) as (N & W1 & W2 & _).
  destruct (decide (last_or None (l1 ++ w :: l2) = Some w)) as [Hd|Hd].
  - rewrite last_or_app_cons in Hd. destruct l2 as [|b l2 _] using rev_ind; [split; [done|apply frame_refl]|].
    rewrite last_or_snoc in Hd. injection Hd as ->. exfalso. apply W2, in_or_app. right. by left.
  - destruct (lower_top_ok m _ Z (ok_active _ _ K)) as (Z1 & F1 & A1 & _).
    set (m1 := match last_or None (l1 ++ w :: l2) with Some t => _ | None => m end).
    assert (m1 = wm_mark_window_dirty (zlist_tail m) (lower_top m)) as E1.
    { subst m1. unfold lower_top. rewrite (zo_tail _ _ Z). by destruct (last_or None _). }
    clearbody m1. assert (zorder m1 (l1 ++ w :: l2)) as Z1' by (rewrite E1; by apply mark_window_zorder).
    assert (frame m m1) as F1' by (rewrite E1; eapply frame_trans; [done|apply mark_win_frame]).
    destruct (zlist_remove_ok m1 l1 w l2 Z1') as (Z2 & O2 & _). set (m2 := zlist_remove (Some w) m1) in *.
    destruct (raise_ok m2 (l1 ++ l2) w Z2 Sw) as (Z3 & F3 & A3).
    { intros Hi%in_app_or. tauto. }
    { intros i Hi. rewrite (active_links m1 m2) by (try done; by eapply zo_slot). rewrite E1, active_mark. apply A1. rewrite in_app_iff in *. cbn. tauto. }
    fold (raise w m2). rewrite app_assoc.
    assert (frame m (wm_mark_window_dirty (Some w) (raise w m2))) as F.
    { eapply frame_trans; [done|]. eapply frame_trans; [apply links_frame; [apply Z2|done]|]. eapply frame_trans; [done|apply mark_win_frame]. }
    split; [|done]. eapply ok_frame; [done|done|by apply mark_window_zorder| |].
    + intros i. rewrite !in_app_iff. cbn. tauto.
    + intros i Hi. rewrite active_mark. by apply A3.
Qed.

Lemma wm_create_window_ok m l x y w h title draw_fn event_fn app_data : wm_ok m l ->
  match wm_create_window x y w h title draw_fn event_fn app_data m with
  | (Some i, m') => slot i /\ ~ In i l /\ (forall j, In j l -> same_data (win m j) (win m' j))
      /\ w_handle_event (win m' i) = event_fn /\ w_draw_content (win m' i) = draw_fn /\ wm_ok m' (l ++ [i])
  | (None, m') => m' = m /\ forall i, slot i -> In i l
  end.
Proof.
  intros K. unfold wm_create_window. destruct (find_index negb (win_pool_used m)) as [i|] eqn:Ef.
  - apply find_index_Some in Ef as (Hr & Hu & _). rewrite (ok_used_len _ _ K) in Hr. assert (slot i) as Si by (unfold slot; lia).
    apply negb_true_iff in Hu. assert (~ In i l) as Hi by (intros Hi; apply (ok_used _ _ K) in Hi; [congruence|done]).
    split; [done|]. split; [done|]. set (w0 := mkWin _ _ _ _ _ _ _ _ _ _ _ _ _ _ _). set (m0 := set_win i w0 _).
    pose proof (ok_len _ _ K) as L. assert (length (win_pool m0) = 16%nat) as L0 by (subst m0; by rewrite len_set_win).
    assert (forall j, In j l -> win m0 j = win m j) as Hw0.
    { intros j Hj. pose proof (wm_ok_slot _ _ _ K Hj). subst m0. rewrite win_set_win by done. rewrite decide_False; [done|]. by intros ->. }
    assert (zorder m0 l) as Z0.
    { destruct (ok_order _ _ K) as [_ Hh Ht N S C]. split; [done|done|done|done|done|]. eapply chain_cong; [exact C|].
      intros j Hj. unfold prev_of, next_of. by rewrite Hw0. }
    destruct (lower_top_ok m0 l Z0) as (Z1 & F1 & A1 & W1).
    { intros j Hj. unfold active. rewrite Hw0 by done. by apply (ok_active _ _ K). }
    change (match zlist_tail m0 with Some _ => _ | None => m0 end) with (lower_top m0).
    destruct (raise_ok (lower_top m0) l i Z1 Si Hi A1) as (Z2 & F2 & A2). fold (raise i (lower_top m0)).
    assert (frame m0 (wm_mark_window_dirty (Some i) (raise i (lower_top m0)))) as F.
    { eapply frame_trans; [done|]. eapply frame_trans; [done|apply mark_win_frame]. }
    set (m' := wm_mark_window_dirty _ _) in *. destruct F as [G1 G2 G3 G4].
    split; [intros j Hj; rewrite <- Hw0 by done; apply G2; by apply (wm_ok_slot m l)|].
    assert (win m0 i = w0) as Wi by (subst m0; by rewrite win_set_win, decide_True).
    destruct (G2 i Si) as [Ei _]. rewrite Wi in Ei. split; [by rewrite Ei|]. split; [by rewrite Ei|].
    split; [by apply mark_window_zorder| | | | | | | |].
    + rewrite G3. cbn. rewrite length_aset. apply K.
    + intros j Hj. rewrite G3, in_app_iff. cbn. unfold slot in *. destruct (decide (j = i)) as [->|Hne].
      * rewrite aget_aset_eq by (rewrite (ok_used_len _ _ K); lia). split; [by right; left|done].
      * rewrite aget_aset_ne by lia. rewrite (ok_used _ _ K) by done. split; [by left|]. intros [?|[?|[]]]; [done|congruence].
    + intros j Hj. unfold m'. rewrite active_mark. by apply A2.
    + intros j Hj. eapply same_data_dims; [apply G2; by eapply zo_slot; [exact Z2|]|]. apply in_app_or in Hj as [Hj|[<-|[]]].
      * rewrite Hw0 by done. by apply (ok_dims _ _ K).
      * rewrite Wi. unfold dims_ok, w0, WM_MIN_W, WM_MIN_H. cbn. destruct (Z.ltb_spec w 140), (Z.ltb_spec h 90); lia.
    + intros j. rewrite G3. intros Hj. apply in_or_app. left. by apply (ok_drag _ _ K).
    + intros j. rewrite G3. intros Hj. apply in_or_app. left. by apply (ok_resize _ _ K).
    + apply G4; [apply K|]. eapply dirty_ok_ext; [..|apply (ok_dirty _ _ K)]; done.
    + unfold screen_ok. rewrite G3. apply K.
  - split; [done|]. intros i Si. rewrite find_index_None in Ef. specialize (Ef i). rewrite (ok_used_len _ _ K) in Ef.
    apply (ok_used _ _ K); [done|]. specialize (Ef Si). by apply negb_false_iff.
Qed.
