(* ===== verification/WmOps.v ===== *)
(** The window manager's operations keep its invariant, whatever the windows' handlers do within
    their contract; and the walk of the z-order list finds the topmost window under the pointer. *)

From S2P Require Import Prelude CString Ring Event Wm WmInv.

(** A window without the auto-close flag stays, with its callbacks. *)
Definition evolves (m : wm) (l : list Z) (m' : wm) (l' : list Z) : Prop :=
  forall j, In j l -> has_flag (win m j) WM_FLAG_AUTOCLOSE = false ->
    In j l' /\ has_flag (win m' j) WM_FLAG_AUTOCLOSE = false
    /\ w_handle_event (win m' j) = w_handle_event (win m j) /\ w_draw_content (win m' j) = w_draw_content (win m j).

Lemma evolves_refl m l : evolves m l m l.
Proof. by intros j. Qed.
Lemma evolves_trans m l m1 l1 m2 l2 : evolves m l m1 l1 -> evolves m1 l1 m2 l2 -> evolves m l m2 l2.
Proof.
  intros A B j Hj Ha. destruct (A j Hj Ha) as (I1 & A1 & E1 & D1). destruct (B j I1 A1) as (I2 & A2 & E2 & D2).
  split_and!; [done|done|congruence|congruence].
Qed.
Lemma evolves_data m l m' l' : (forall j, In j l -> In j l' /\ same_data (win m j) (win m' j)) -> evolves m l m' l'.
Proof.
  intros H j Hj Ha. destruct (H j Hj) as [Hi [E A]]. rewrite A. split_and!; [done|done|by rewrite E|by rewrite E].
Qed.
Lemma evolves_frame m l m' l' : wm_ok m l -> frame m m' -> (forall j, In j l -> In j l') -> evolves m l m' l'.
Proof. intros K F S. apply evolves_data. intros j Hj. split; [auto|]. apply (fr_win _ _ F). by apply (wm_ok_slot m l). Qed.

(** The contract of the callbacks: an invariant of the rest of the kernel that the window manager's
    own steps keep, and handlers that keep both and destroy no window. *)
Class WmEnvLaws (W : Type) `{WmEnv W} := {
  env_inv : wm -> list Z -> W -> Prop;
  env_stable m l m' l' e : wm_ok m l -> wm_ok m' l' -> evolves m l m' l' -> env_inv m l e -> env_inv m' l' e;
  env_kfree m l p e : env_inv m l e -> env_inv m l (wm_kfree p e);
  env_handler m l i ev e : wm_ok m l -> env_inv m l e -> In i l ->
    exists l' m' e', call_handle_event (w_handle_event (win m i)) i ev m e = (m', e') /\
      wm_ok m' l' /\ env_inv m' l' e' /\ evolves m l m' l' /\ (forall j, In j l -> In j l');
}.

Section ops.
Context {W : Type} `{WmEnvLaws W}.

(** The joint state is good for some order of the windows, reached from [l]. *)
Definition good (m : wm) (l : list Z) (m' : wm) (l' : list Z) (e' : W) : Prop :=
  wm_ok m' l' /\ env_inv m' l' e' /\ evolves m l m' l'.

(** The same, and no window was destroyed. *)
Definition good_keep (m : wm) (l : list Z) (m' : wm) (l' : list Z) (e' : W) : Prop :=
  good m l m' l' e' /\ forall j, In j l -> In j l'.

Lemma good_refl m l e : wm_ok m l -> env_inv m l e -> good_keep m l m l e.
Proof. intros. split; [|done]. split_and!; [done|done|apply evolves_refl]. Qed.
Lemma good_trans m l m1 l1 e1 m2 l2 e2 : good m l m1 l1 e1 -> good m1 l1 m2 l2 e2 -> good m l m2 l2 e2.
Proof. intros (A1 & A2 & A3) (B1 & B2 & B3). split_and!; [done|done|by eapply evolves_trans]. Qed.
Lemma good_keep_trans m l m1 l1 e1 m2 l2 e2 : good_keep m l m1 l1 e1 -> good_keep m1 l1 m2 l2 e2 -> good_keep m l m2 l2 e2.
Proof. intros [A1 A2] [B1 B2]. split; [by eapply good_trans|auto]. Qed.

(** A step of the window manager itself. *)
Lemma good_step m l m' l' e : wm_ok m l -> env_inv m l e -> wm_ok m' l' ->
  (forall j, In j l -> In j l' /\ same_data (win m j) (win m' j)) -> good_keep m l m' l' e.
Proof.
  intros K I K' D. assert (evolves m l m' l') as E by by apply evolves_data.
  split; [|intros j Hj; by apply D]. split_and!; [done|by apply (env_stable m l m' l' e)|done].
Qed.

Lemma good_frame m l m' l' e : wm_ok m l -> env_inv m l e -> wm_ok m' l' -> frame m m' -> (forall j, In j l -> In j l') ->
  good_keep m l m' l' e.
Proof. intros K I K' F S. apply good_step; [done..|]. intros j Hj. split; [auto|]. apply (fr_win _ _ F). by apply (wm_ok_slot m l). Qed.

Lemma good_mark m l i e : wm_ok m l -> env_inv m l e -> good_keep m l (wm_mark_window_dirty i m) l e.
Proof. intros K I. eapply good_frame; [done|done|auto with tsk|apply mark_win_frame|done]. Qed.

Lemma good_mark_rect m l x y w h e : wm_ok m l -> env_inv m l e -> good_keep m l (wm_mark_dirty_rect x y w h m) l e.
Proof. intros K I. eapply good_frame; [done|done|auto with tsk|apply mark_frame|done]. Qed.

(** Closes [wm_ok] for a write to the scalar variables. *)
Ltac ok_vars K :=
  eapply ok_ext; [exact K|..]; try done; try apply K;
  try (split; [exact (proj1 (do_count _ (ok_dirty _ _ K)))|apply Z.le_refl]); try (by intros ? [=]).

(** A write to the scalar variables. *)
Lemma good_vars m l m' e : wm_ok m l -> env_inv m l e -> wm_ok m' l -> win_pool m' = win_pool m -> good_keep m l m' l e.
Proof. intros K I K' E. apply good_step; [done..|]. intros j Hj. split; [done|]. unfold win. rewrite E. apply same_data_refl. Qed.

Lemma dispatch_ok m l i src id sub key x y e : wm_ok m l -> env_inv m l e -> In i l ->
  exists l' m' e', dispatch_to_window (Some i) src id sub key x y m e = (m', e') /\ good_keep m l m' l' e'.
Proof.
  intros K I Hi. unfold dispatch_to_window. destruct (_ =? 0).
  - exists l, m, e. split; [done|]. by apply good_refl.
  - set (ev := field_set _ _). destruct (env_handler m l i ev e K I Hi) as (l' & m' & e' & -> & K' & I' & E' & S').
    exists l', (wm_mark_window_dirty (Some i) m'), e'. split; [done|].
    eapply good_keep_trans; [|by apply good_mark]. by split.
Qed.

(** * Destroying a window *)

Lemma clear_pointers_ok m i :
  let m' := if decide (drag_win m = Some i) then m <| drag_win := None |> else m in
  let m' := if decide (resize_win m' = Some i) then m' <| resize_win := None |> else m' in
  m' = m <| drag_win := drag_win m' |> <| resize_win := resize_win m' |>
  /\ (forall j, drag_win m' = Some j -> drag_win m = Some j /\ j <> i) /\ (forall j, resize_win m' = Some j -> resize_win m = Some j /\ j <> i).
Proof.
  cbv zeta. destruct (decide (drag_win m = Some i)) as [D|D]; fields; cbn [resize_win];
    destruct (decide (resize_win m = Some i)) as [R|R]; fields; cbn; (split; [by destruct m|]; split; intros j; [|]);
    (done || (intros E; split; [done|congruence])).
Qed.

(** The new top is active. *)
Lemma raise_tail_ok m l : zorder m l ->
  let m' := match zlist_tail m with
            | Some t => wm_mark_window_dirty (Some t) (set_win t (set_flag WM_FLAG_ACTIVE (win m t)) m)
            | None => m
            end in
  zorder m' l /\ frame m m' /\ (forall i, slot i -> active m' i = if decide (last_or None l = Some i) then true else active m i).
Proof.
  intros Z. cbv zeta. rewrite (zo_tail _ _ Z). pose proof (zo_len _ _ Z) as L. destruct (last_or None l) as [t|] eqn:Et.
  - pose proof (zo_slot _ _ _ Z (last_or_In _ _ Et)) as St. split_and!.
    + apply mark_window_zorder. by apply set_win_zorder.
    + eapply frame_trans; [|apply mark_win_frame]. apply set_win_frame; auto with tsk.
    + intros i Si. rewrite active_mark, active_set_win by done. destruct (decide (i = t)) as [->|].
      * by rewrite active_set, decide_True.
      * by rewrite decide_False by congruence.
  - split_and!; [done|apply frame_refl|]. intros i _. by rewrite decide_False.
Qed.

Lemma wm_destroy_window_ok m l1 w l2 e : wm_ok m (l1 ++ w :: l2) ->
  let '(m', e') := wm_destroy_window (Some w) m e in
  wm_ok m' (l1 ++ l2) /\ (forall j, In j (l1 ++ l2) -> same_data (win m j) (win m' j))
  /\ e' = (if w_app_data (win m w) =? 0 then e else wm_kfree (w_app_data (win m w)) e).
Proof.
  intros K. assert (In w (l1 ++ w :: l2)) as Hw by (apply in_or_app; right; by left). pose proof (wm_ok_slot _ _ _ K Hw) as Sw.
  destruct (NoDup_middle _ _ _ (zo_nodup _ _ (ok_order _ _ K))) as (N & W1 & W2 & _).
  unfold wm_destroy_window. set (m0 := wm_mark_window_dirty (Some w) m).
  assert (wm_ok m0 (l1 ++ w :: l2)) as K0 by by apply ok_mark_window.
  pose proof (clear_pointers_ok m0 w) as Hc. cbv zeta in Hc. set (m1 := if decide (drag_win m0 = Some w) then _ else m0) in *.
  set (m2 := if decide (resize_win m1 = Some w) then _ else m1) in *. destruct Hc as (E2 & D2 & R2). clearbody m2. clear m1.
  assert (zorder m2 (l1 ++ w :: l2)) as Z2 by (eapply zorder_ext; [..|apply (ok_order _ _ K0)]; by rewrite E2).
  assert (forall j, win m2 j = win m j) as Hw2 by (intros j; unfold win at 1; rewrite E2; exact (mark_window_win (Some w) m j)).
  destruct (zlist_remove_ok m2 l1 w l2 Z2) as (Z3 & O3 & _). set (m3 := zlist_remove (Some w) m2) in *.
  assert (w_app_data (win m3 w) = w_app_data (win m w)) as -> by (rewrite <- Hw2, (lo_win _ _ O3 w Sw); done).
  set (m4 := if w_app_data (win m w) =? 0 then m3 else set_win w (win m3 w <| w_app_data := 0 |>) m3).
  assert ((if w_app_data (win m w) =? 0 then (m3, e) else (set_win w (win m3 w <| w_app_data := 0 |>) m3, wm_kfree (w_app_data (win m w)) e))
     = (m4, if w_app_data (win m w) =? 0 then e else wm_kfree (w_app_data (win m w)) e)) as -> by (subst m4; by destruct (_ =? 0)).
  assert (zorder m4 (l1 ++ l2)) as Z4 by (subst m4; destruct (_ =? 0); [done|by apply set_win_zorder]).
  assert (forall j, slot j -> j <> w -> win m4 j = win m3 j) as Hw4.
  { intros j Hj Hne. subst m4. destruct (_ =? 0); [done|]. rewrite win_set_win by (try done; apply Z3). by rewrite decide_False. }
  assert (m4 = m2 <| win_pool := win_pool m4 |> <| zlist_head := zlist_head m4 |> <| zlist_tail := zlist_tail m4 |>) as E4.
  { subst m4. destruct (_ =? 0); [apply (lo_rest _ _ O3)|]. unfold set_win. by rewrite (lo_rest _ _ O3). }
  clearbody m4. rewrite (proj2 (Z.leb_le 0 w)), (proj2 (Z.ltb_lt w WM_MAX_WINDOWS)) by (unfold slot, WM_MAX_WINDOWS in *; lia). cbn [andb].
  set (m5 := m4 <| win_pool_used := _ |>). assert (zorder m5 (l1 ++ l2)) as Z5 by by eapply zorder_ext; [..|exact Z4].
  destruct (raise_tail_ok m5 _ Z5) as (Z6 & F6 & A6). set (m6 := match zlist_tail m5 with Some _ => _ | None => m5 end) in *.
  assert (win_pool_used m6 = aset w false (win_pool_used m0)) as U6.
  { rewrite (fr_rest _ _ F6). change (aset w false (win_pool_used m4) = aset w false (win_pool_used m0)). by rewrite E4, E2. }
  assert (forall j, In j (l1 ++ l2) -> slot j /\ j <> w) as Hj.
  { intros j Hj. split; [by eapply zo_slot|]. intros ->. apply in_app_or in Hj. tauto. }
  assert (forall j, In j (l1 ++ l2) -> same_content (win m j) (win m5 j)) as Hd5.
  { intros j Hjl. destruct (Hj j Hjl). unfold win at 2. change (win_pool m5) with (win_pool m4). fold (win m4 j). rewrite Hw4, <- Hw2 by done. by apply (lo_win _ _ O3). }
  assert (forall j, In j (l1 ++ l2) -> same_data (win m j) (win m6 j)) as Hd.
  { intros j Hjl. eapply same_data_trans; [|apply (fr_win _ _ F6); by apply Hj]. specialize (Hd5 j Hjl). unfold same_content in Hd5. split; rewrite Hd5; [|done].
    by destruct (win m j). }
  split; [|by split]. split.
  - done.
  - rewrite U6, length_aset. apply (ok_used_len _ _ K0).
  - intros i Si. rewrite U6. unfold slot in *. destruct (decide (i = w)) as [->|Hne].
    + rewrite aget_aset_eq by (rewrite (ok_used_len _ _ K0); lia). split; [done|]. intros Hi%in_app_or. tauto.
    + rewrite aget_aset_ne by lia. rewrite (ok_used _ _ K0) by done. rewrite !in_app_iff. cbn. split; [intros [?|[?|?]]; [by left|congruence|by right]|tauto].
  - intros i Hi. destruct (Hj i Hi) as [Si Hne]. rewrite A6 by done. case_decide as D; [done|]. split; [|done]. intros Ha. exfalso.
    assert (active m i = true) as Ha'.
    { revert Ha. unfold active, has_flag. specialize (Hd5 i Hi). unfold same_content in Hd5. by rewrite Hd5. }
    apply (ok_active _ _ K) in Ha'; [|apply in_or_app; apply in_app_or in Hi; cbn; tauto].
    rewrite last_or_app_cons in Ha'. destruct l2 as [|b l2]; [cbn in Ha'; congruence|]. rewrite last_or_cons in Ha'.
    apply D. by rewrite last_or_app_cons.
  - intros i Hi. eapply same_data_dims; [by apply Hd|]. apply (ok_dims _ _ K). apply in_or_app. apply in_app_or in Hi. cbn. tauto.
  - intros i. rewrite (fr_rest _ _ F6). change (drag_win m4 = Some i -> In i (l1 ++ l2)). rewrite E4. intros Hi%D2. destruct Hi as [Hi Hne].
    pose proof (ok_drag _ _ K0 i Hi) as Q. rewrite in_app_iff in *. cbn in Q. destruct Q as [?|[?|?]]; [by left|congruence|by right].
  - intros i. rewrite (fr_rest _ _ F6). change (resize_win m4 = Some i -> In i (l1 ++ l2)). rewrite E4. intros Hi%R2. destruct Hi as [Hi Hne].
    pose proof (ok_resize _ _ K0 i Hi) as Q. rewrite in_app_iff in *. cbn in Q. destruct Q as [?|[?|?]]; [by left|congruence|by right].
  - assert (screen_ok m5) as S5 by (unfold screen_ok; change (fb_width m5) with (fb_width m4); change (fb_height m5) with (fb_height m4); rewrite E4, E2; apply (ok_screen _ _ K0)).
    apply (fr_dirty _ _ F6 S5). eapply dirty_ok_ext; [..|apply (ok_dirty _ _ K0)]; (change m5 with (m4 <| win_pool_used := win_pool_used m5 |>); rewrite E4, E2; done).
  - eapply frame_screen; [exact F6|]. unfold screen_ok. change (fb_width m5) with (fb_width m4). change (fb_height m5) with (fb_height m4). rewrite E4, E2. apply (ok_screen _ _ K0).
Qed.

(** * Mouse *)

Lemma good_set_win m l i w e : wm_ok m l -> env_inv m l e -> In i l ->
  w_prev w = w_prev (win m i) -> w_next w = w_next (win m i) ->
  has_flag w WM_FLAG_ACTIVE = active m i -> has_flag w WM_FLAG_AUTOCLOSE = has_flag (win m i) WM_FLAG_AUTOCLOSE ->
  w_handle_event w = w_handle_event (win m i) -> w_draw_content w = w_draw_content (win m i) ->
  (dims_ok (win m i) -> dims_ok w) -> good_keep m l (set_win i w m) l e.
Proof.
  intros K I Hi E1 E2 E3 E4 E5 E6 D. pose proof (wm_ok_slot _ _ _ K Hi) as Si.
  assert (wm_ok (set_win i w m) l) as K' by by apply ok_set_win.
  assert (evolves m l (set_win i w m) l) as E.
  { intros j Hj Ha. rewrite win_set_win by (try done; by (apply (wm_ok_slot m l) || eapply ok_len)). case_decide; [subst; split_and!; congruence|done]. }
  split; [|done]. split_and!; [done|by apply (env_stable m l _ l)|done].
Qed.

Lemma good_keep_l m l m' l' e : good_keep m l m' l' e -> wm_ok m' l' /\ env_inv m' l' e /\ forall j, In j l -> In j l'.
Proof. by intros [(? & ? & ?) ?]. Qed.

Lemma dims_resize (w : wm_window) a b : dims_ok w ->
  dims_ok (w <| w_w := if a <? w_min_w w then w_min_w w else a |> <| w_h := if b <? w_min_h w then w_min_h w else b |>).
Proof.
  intros (D1 & D2 & D3 & D4). unfold dims_ok in *. fields. cbn in *. rewrite D1, D2.
  destruct (Z.ltb_spec a WM_MIN_W), (Z.ltb_spec b WM_MIN_H); lia.
Qed.

Lemma good_buttons m l m1 l1 e1 b : good_keep m l m1 l1 e1 -> good_keep m l (m1 <| prev_buttons := b |>) l1 e1.
Proof.
  intros G. destruct (good_keep_l _ _ _ _ _ G) as (K & I & _). eapply good_keep_trans; [exact G|]. apply good_vars; [done|done| |done].
  ok_vars K.
Qed.

Lemma mouse_resize_ok m l i mx my b p e : wm_ok m l -> env_inv m l e -> In i l ->
  exists r l' m' e', mouse_resize i mx my b p m e = (r, m', e') /\ good_keep m l m' l' e'.
Proof.
  intros K I Hi. unfold mouse_resize. destruct p.
  - set (w := field_set (proj := w_h) _ _). set (m1 := set_win i w m).
    assert (good_keep m l m1 l e) as G1 by (apply good_set_win; try done; apply dims_resize).
    set (m2 := wm_mark_dirty_rect _ _ _ _ m1). set (m3 := wm_mark_window_dirty (Some i) m2).
    destruct (good_keep_l _ _ _ _ _ G1) as (K1 & I1 & _). pose proof (good_mark_rect _ _ (i32 (w_x (win m i) - (UI_SHADOW_R + 2)))
      (i32 (w_y (win m i) - (UI_SHADOW_R + 2))) (i32 (w_w (win m i) + (UI_SHADOW_R + 2) * 2)) (i32 (w_h (win m i) + (UI_SHADOW_R + 2) * 2)) e K1 I1) as G2.
    fold m2 in G2. destruct (good_keep_l _ _ _ _ _ G2) as (K2 & I2 & _). pose proof (good_mark _ _ (Some i) e K2 I2) as G3. fold m3 in G3.
    destruct (good_keep_l _ _ _ _ _ G3) as (K3 & I3 & _). destruct (wm_client_rect (win m3 i)) as [[[cx cy] cw] ch].
    destruct (dispatch_ok m3 l i None INPUT_EVENT_RESIZE MOUSE_MOVE b cw ch e K3 I3 Hi) as (l4 & m4 & e4 & -> & G4).
    eexists _, l4, _, _. split; [done|]. apply good_buttons. eauto using good_keep_trans.
  - eexists _, l, _, _. split; [done|]. apply good_vars; try done. ok_vars K.
Qed.

Lemma mouse_drag_ok m l i mx my b p e : wm_ok m l -> env_inv m l e -> In i l ->
  good_keep m l (mouse_drag i mx my b p m).2 l e.
Proof.
  intros K I Hi. unfold mouse_drag. destruct p; cbn [snd].
  - set (m1 := set_win i _ m). assert (good_keep m l m1 l e) as G1 by by apply good_set_win.
    destruct (good_keep_l _ _ _ _ _ G1) as (K1 & I1 & _).
    set (m2 := if _ <? 0 then _ else m1). assert (good_keep m1 l m2 l e) as G2.
    { subst m2. destruct (_ <? 0); [by apply good_set_win|by apply good_refl]. }
    destruct (good_keep_l _ _ _ _ _ G2) as (K2 & I2 & _). set (m3 := wm_mark_dirty_rect _ _ _ _ m2).
    assert (good_keep m2 l m3 l e) as G3 by by apply good_mark_rect. destruct (good_keep_l _ _ _ _ _ G3) as (K3 & I3 & _).
    apply good_buttons. pose proof (good_mark _ _ (Some i) e K3 I3). eauto using good_keep_trans.
  - set (m1 := set_win i _ m). assert (good_keep m l m1 l e) as G1.
    { apply good_set_win; try done; [apply (has_clear_flag _ 2 1); lia|apply (has_clear_flag _ 2 5); lia]. }
    destruct (good_keep_l _ _ _ _ _ G1) as (K1 & I1 & _). eapply good_keep_trans; [exact G1|]. apply good_vars; try done. ok_vars K1.
Qed.

(** The walk from the top finds the topmost visible window that contains the point. *)
Definition contains (px py : Z) (w : wm_window) : bool :=
  has_flag w WM_FLAG_VISIBLE && ((w_x w <=? px) && (px <? i32 (w_x w + w_w w)) && (w_y w <=? py) && (py <? i32 (w_y w + w_h w))).

Fixpoint topmost (p : Z -> bool) (l : list Z) : option Z :=
  match l with
  | [] => None
  | i :: l => match topmost p l with Some j => Some j | None => if p i then Some i else None end
  end.

Lemma topmost_In p l i : topmost p l = Some i -> In i l /\ p i = true.
Proof.
  induction l as [|j l IH]; [done|]. cbn. destruct (topmost p l) as [k|].
  - intros [= ->]. destruct IH; [done|]. by split; [right|].
  - destruct (p j) eqn:Ep; [|done]. intros [= ->]. by split; [left|].
Qed.

Lemma topmost_snoc p l i : topmost p (l ++ [i]) = if p i then Some i else topmost p l.
Proof. induction l as [|j l IH]; [done|]. cbn. rewrite IH. by destruct (p i). Qed.

Lemma find_loop_ok prv m l px py n : (length l <= n)%nat ->
  (forall i, In i l -> prev_of m i = prv i) -> (exists nxt q, chain prv nxt None l q) ->
  find_loop n (last_or None l) px py m = topmost (fun i => contains px py (win m i)) l.
Proof.
  intros Hn Hp (nxt & q & C). revert n q Hn C. induction l as [|i l IH] using rev_ind; intros n q Hn C; [by destruct n|].
  rewrite last_or_snoc, topmost_snoc. rewrite length_app in Hn. cbn in Hn. destruct n as [|n]; [lia|]. cbn [find_loop].
  change (has_flag (win m i) WM_FLAG_VISIBLE && _) with (contains px py (win m i)). destruct (contains px py (win m i)); [done|].
  apply chain_app in C as [C (Ci & _)]. change (w_prev (win m i)) with (prev_of m i). rewrite Hp by (apply in_or_app; right; by left). rewrite Ci.
  eapply IH; [|lia|exact C]. intros j Hj. apply Hp, in_or_app. by left.
Qed.

Lemma zorder_length m l : zorder m l -> (length l <= 16)%nat.
Proof.
  intros Z. assert (length l <= length (seqZ 0 16))%nat as Hl; [|by rewrite length_seqZ in Hl].
  apply submseteq_length, NoDup_submseteq; [apply Z|]. intros i Hi%list_elem_of_In. pose proof (zo_slot _ _ _ Z Hi). apply elem_of_seqZ. unfold slot in *. lia.
Qed.

Lemma find_window_topmost m l px py : zorder m l ->
  wm_find_window_at px py m = topmost (fun i => contains px py (win m i)) l.
Proof.
  intros Z. unfold wm_find_window_at. rewrite (zo_tail _ _ Z). eapply find_loop_ok; [by eapply zorder_length|done|]. eexists _, _. apply Z.
Qed.

(** * Every operation keeps the joint state good *)

Lemma bring_good m l w e : wm_ok m l -> env_inv m l e -> In w l ->
  exists l', good_keep m l (wm_bring_to_front (Some w) m) l' e /\ In w l'.
Proof.
  intros K I Hw. destruct (in_split _ _ Hw) as (l1 & l2 & ->). destruct (wm_bring_to_front_ok m l1 w l2 K) as [K' F].
  exists (l1 ++ l2 ++ [w]). split; [|rewrite !in_app_iff; cbn; tauto].
  eapply good_frame; [done|done|done|done|]. intros j. rewrite !in_app_iff. cbn. tauto.
Qed.

Lemma destroy_good m l w e : wm_ok m l -> env_inv m l e -> In w l -> has_flag (win m w) WM_FLAG_AUTOCLOSE = true ->
  exists l' m' e', wm_destroy_window (Some w) m e = (m', e') /\ good m l m' l' e' /\ (forall j, In j l -> j <> w -> In j l').
Proof.
  intros K I Hw Ha. destruct (in_split _ _ Hw) as (l1 & l2 & ->). pose proof (wm_destroy_window_ok m l1 w l2 e K) as D.
  destruct (wm_destroy_window (Some w) m e) as [m' e']. destruct D as (K' & D & ->). eexists (l1 ++ l2), _, _. split; [done|].
  assert (forall j, In j (l1 ++ w :: l2) -> j <> w -> In j (l1 ++ l2)) as Hin.
  { intros j. rewrite !in_app_iff. cbn. intros [?|[?|?]] ?; [by left|congruence|by right]. }
  assert (evolves m (l1 ++ w :: l2) m' (l1 ++ l2)) as E.
  { intros j Hj Hj'. destruct (decide (j = w)) as [->|Hne]; [congruence|]. specialize (Hin j Hj Hne). destruct (D j Hin) as [Ed Ea].
    rewrite Ea, Ed. by split_and!. }
  split; [|done]. split_and!; [done| |done]. eapply env_stable; [exact K|done|done|]. destruct (_ =? 0); [done|by apply env_kfree].
Qed.

(** Two dispatches, of which each may be skipped. *)
Lemma dispatch_if_ok (b : bool) m l i src id sub key x y e : wm_ok m l -> env_inv m l e -> In i l ->
  exists l' m' e', (if b then dispatch_to_window (Some i) src id sub key x y m e else (m, e)) = (m', e') /\ good_keep m l m' l' e'.
Proof. intros K I Hi. destruct b; [by apply dispatch_ok|]. exists l, m, e. split; [done|by apply good_refl]. Qed.

Lemma mouse_press_ok m l hit mx my b ld rd e : wm_ok m l -> env_inv m l e -> In hit l ->
  exists l' m' e', mouse_press hit mx my b ld rd m e = (m', e') /\ good m l m' l' e'.
Proof.
  intros K I Hw. unfold mouse_press. destruct (bring_good m l hit e K I Hw) as (l1 & G1 & Hw1).
  set (m1 := wm_bring_to_front (Some hit) m) in *. destruct (good_keep_l _ _ _ _ _ G1) as (K1 & I1 & _). destruct G1 as [G1 _].
  destruct (ld && _ && hit_close_btn _ _ _).
  { destruct (dispatch_ok m1 l1 hit None INPUT_EVENT_CLOSE MOUSE_BTN_DOWN b mx my e K1 I1 Hw1) as (l2 & m2 & e2 & -> & G2).
    destruct (good_keep_l _ _ _ _ _ G2) as (K2 & I2 & S2). destruct G2 as [G2 _].
    destruct (has_flag (win m2 hit) WM_FLAG_AUTOCLOSE) eqn:Ea.
    - destruct (destroy_good m2 l2 hit e2 K2 I2 ltac:(auto) Ea) as (l3 & m3 & e3 & -> & G3 & _). exists l3, m3, e3. eauto using good_trans.
    - exists l2, m2, e2. eauto using good_trans. }
  destruct (ld && _ && hit_resize_grip _ _ _).
  { eexists l1, _, _. split; [done|]. eapply good_trans; [exact G1|]. apply good_vars; try done. ok_vars K1. by intros ? [= <-]. }
  destruct (ld && hit_title_bar _ _ _).
  { eexists l1, _, _. split; [done|]. eapply good_trans; [exact G1|]. set (m2 := field_set _ _).
    assert (good_keep m1 l1 m2 l1 e) as G2 by (apply good_vars; try done; ok_vars K1; by intros ? [= <-]).
    destruct (good_keep_l _ _ _ _ _ G2) as (K2 & I2 & _). destruct G2 as [G2 _]. eapply good_trans; [exact G2|].
    apply good_set_win; try done; [apply (has_set_flag _ 2 1); lia|apply (has_set_flag _ 2 5); lia]. }
  assert (exists l2 m2 e2, (if ld then let '(m2, e2) := dispatch_to_window (Some hit) None INPUT_EVENT_MOUSE_DOWN MOUSE_BTN_DOWN b mx my m1 e in
      dispatch_to_window (Some hit) None INPUT_EVENT_CLICK MOUSE_BTN_DOWN b mx my m2 e2 else (m1, e)) = (m2, e2) /\ good_keep m1 l1 m2 l2 e2)
    as (l2 & m2 & e2 & -> & G2).
  { destruct ld; [|exists l1, m1, e; split; [done|by apply good_refl]].
    destruct (dispatch_ok m1 l1 hit None INPUT_EVENT_MOUSE_DOWN MOUSE_BTN_DOWN b mx my e K1 I1 Hw1) as (l2 & m2 & e2 & -> & G2).
    destruct (good_keep_l _ _ _ _ _ G2) as (K2 & I2 & S2).
    destruct (dispatch_ok m2 l2 hit None INPUT_EVENT_CLICK MOUSE_BTN_DOWN b mx my e2 K2 I2 ltac:(auto)) as (l3 & m3 & e3 & -> & G3).
    exists l3, m3, e3. eauto using good_keep_trans. }
  destruct (good_keep_l _ _ _ _ _ G2) as (K2 & I2 & S2).
  destruct (dispatch_if_ok rd m2 l2 hit None INPUT_EVENT_RIGHT_CLICK MOUSE_BTN_DOWN b mx my e2 K2 I2 ltac:(auto)) as (l3 & m3 & e3 & -> & [G3 _]).
  destruct G2 as [G2 _]. exists l3, m3, e3. eauto using good_trans.
Qed.

Lemma good_buttons' m l m1 l1 e1 b : good m l m1 l1 e1 -> good m l (m1 <| prev_buttons := b |>) l1 e1.
Proof.
  intros G. destruct G as (K & I & E). eapply good_trans; [by split_and!|]. apply good_vars; [done|done| |done]. ok_vars K.
Qed.

Lemma found_In m l px py i (c : bool) : wm_ok m l -> (if c then wm_find_window_at px py m else None) = Some i -> In i l.
Proof. intros K. destruct c; [|done]. rewrite (find_window_topmost m l) by apply K. by intros [? _]%topmost_In. Qed.

Lemma wm_handle_mouse_ok m l mx my b c e : wm_ok m l -> env_inv m l e ->
  exists r l' m' e', wm_handle_mouse mx my b c m e = (r, m', e') /\ good m l m' l' e'.
Proof.
  intros K I. unfold wm_handle_mouse. destruct (resize_win m) as [i|] eqn:Er.
  { destruct (mouse_resize_ok m l i mx my b (bit_set b MOUSE_BUTTON_LEFT) e K I (ok_resize _ _ K i Er)) as (r & l' & m' & e' & -> & [G _]). eauto 10. }
  destruct (drag_win m) as [i|] eqn:Ed.
  { pose proof (mouse_drag_ok m l i mx my b (bit_set b MOUSE_BUTTON_LEFT) e K I (ok_drag _ _ K i Ed)) as [G _]. destruct (mouse_drag _ _ _ _ _ _) as [r m']. eauto 10. }
  set (c1 := _ || _). set (c2 := _ || _). set (c3 := c =? 0). destruct (if c1 then _ else None) as [i|] eqn:E1.
  { apply (found_In m l) in E1; [|done]. destruct (mouse_press_ok m l i mx my b (bit_set b MOUSE_BUTTON_LEFT && bit_set c MOUSE_BUTTON_LEFT)
      (bit_set b MOUSE_BUTTON_RIGHT && bit_set c MOUSE_BUTTON_RIGHT) e K I E1) as (l' & m' & e' & -> & G).
    eexists _, l', _, _. split; [done|]. by apply good_buttons'. }
  destruct (if c2 then _ else None) as [i|] eqn:E2.
  { apply (found_In m l) in E2; [|done]. destruct (dispatch_ok m l i None INPUT_EVENT_MOUSE_UP MOUSE_BTN_UP b mx my e K I E2) as (l' & m' & e' & -> & [G _]).
    eexists _, l', _, _. split; [done|]. by apply good_buttons'. }
  destruct (if c3 then _ else None) as [i|] eqn:E3.
  { apply (found_In m l) in E3; [|done]. destruct (dispatch_ok m l i None INPUT_EVENT_MOUSE_MOVE MOUSE_MOVE b mx my e K I E3) as (l' & m' & e' & -> & [G _]).
    eexists _, l', _, _. split; [done|]. by apply good_buttons'. }
  eexists _, l, _, _. split; [done|]. apply good_buttons'. by apply good_refl.
Qed.

Lemma wm_handle_input_ok m l ev e : wm_ok m l -> env_inv m l e ->
  exists r l' m' e', wm_handle_input ev m e = (r, m', e') /\ good m l m' l' e'.
Proof.
  intros K I. assert (good m l m l e) as G0 by by apply good_refl. unfold wm_handle_input, wm_get_top. destruct ev as [ev|]; [|eauto 10].
  rewrite (zo_tail _ _ (ok_order _ _ K)). destruct (_ || _).
  { destruct (last_or None l) as [t|] eqn:Et; [|eauto 10]. destruct (_ =? 0); [eauto 10|].
    destruct (dispatch_ok m l t (Some ev) (ie_event_id ev) (if ie_event_id ev =? INPUT_EVENT_KEY then KEY_PRESS else KEY_RELEASE)
      (ie_keycode ev) (ie_x ev) (ie_y ev) e K I (last_or_In _ _ Et)) as (l' & m' & e' & -> & [G _]). eauto 10. }
  destruct (_ || _); [by apply wm_handle_mouse_ok|]. destruct (_ =? _); [|eauto 10].
  set (t := match wm_find_window_at _ _ m with Some _ => _ | None => _ end). assert (forall i, t = Some i -> In i l) as Ht.
  { intros i. subst t. destruct (wm_find_window_at (ie_x ev) (ie_y ev) m) as [j|] eqn:Ej; [|by intros ?%last_or_In].
    intros [= <-]. by apply (found_In m l (ie_x ev) (ie_y ev) j true). }
  destruct t as [t|]; [|eauto 10].
  destruct (dispatch_ok m l t (Some ev) INPUT_EVENT_MOUSE_WHEEL MOUSE_MOVE (ie_keycode ev) (ie_x ev) (ie_y ev) e K I (Ht t eq_refl))
    as (l' & m' & e' & -> & [G _]). eauto 10.
Qed.
End ops.

(** * Dragging a window by its title bar *)

Section drag.
Context {W : Type} `{WmEnv W}.

(** The left button is down: each point is a mouse movement. *)
Fixpoint drag_moves (ps : list (Z * Z)) (m : wm) (e : W) : wm * W :=
  match ps with
  | [] => (m, e)
  | (x, y) :: ps => let '(_, m, e) := wm_handle_mouse x y MOUSE_BUTTON_LEFT 0 m e in drag_moves ps m e
  end.

(** Press at a point, move along [ps], release at [rx], [ry]. *)
Definition drag_gesture (px py : Z) (ps : list (Z * Z)) (rx ry : Z) (m : wm) (e : W) : wm * W :=
  let '(_, m, e) := wm_handle_mouse px py MOUSE_BUTTON_LEFT MOUSE_BUTTON_LEFT m e in
  let '(m, e) := drag_moves ps m e in
  let '(_, m, e) := wm_handle_mouse rx ry 0 MOUSE_BUTTON_LEFT m e in
  (m, e).

(** The state while window [i], grabbed at offset [ox], [oy], is dragged: [w] is the window when it
    was grabbed, and [p] where the pointer has been since. *)
Record dragging (m0 m : wm) (i ox oy : Z) (p : option (Z * Z)) : Prop := {
  dg_len : length (win_pool m) = 16%nat;
  dg_drag : drag_win m = Some i;
  dg_resize : resize_win m = None;
  dg_off : drag_offset_x m = ox /\ drag_offset_y m = oy;
  dg_win : win m i = match p with
                     | None => win m0 i
                     | Some (x, y) => win m0 i <| w_x := i32 (x - ox) |> <| w_y := Z.max 0 (i32 (y - oy)) |>
                     end;
  dg_others : forall j, slot j -> j <> i -> win m j = win m0 j;
  dg_order : forall l, zorder m0 l -> zorder m l;
}.

Lemma i32_mod z : exists k, i32 z = z + k * 0x100000000.
Proof.
  unfold i32, u32. pose proof (Z.div_mod z 0x100000000 ltac:(lia)). destruct (Z.ltb_spec (z mod 0x100000000) 0x80000000).
  - exists (- (z / 0x100000000)). lia.
  - exists (- (z / 0x100000000) - 1). lia.
Qed.
Lemma i32_cong a b k : a = b + k * 0x100000000 -> i32 a = i32 b.
Proof. intros ->. unfold i32, u32. by rewrite Z.mod_add by lia. Qed.
Lemma i32_sub_sub a b c : i32 (a - i32 (b - c)) = i32 (c + (a - b)).
Proof. destruct (i32_mod (b - c)) as [k ->]. apply (i32_cong _ _ (- k)). lia. Qed.

Lemma filter_middle l1 (i : Z) l2 : ~ In i l1 -> ~ In i l2 -> List.filter (fun j => negb (j =? i)) (l1 ++ i :: l2) = l1 ++ l2.
Proof.
  intros H1 H2. rewrite List.filter_app. cbn. rewrite Z.eqb_refl. cbn.
  assert (forall l, ~ In i l -> List.filter (fun j => negb (j =? i)) l = l) as Hf.
  { induction l as [|j l IH]; [done|]. cbn. intros Hn. rewrite (proj2 (Z.eqb_neq j i)) by (intros ->; apply Hn; by left). cbn.
    f_equal. apply IH. intros Hl. apply Hn. by right. }
  by rewrite !Hf.
Qed.

Lemma marks_ex x y w h m : exists d c, wm_mark_dirty_rect x y w h m = m <| dirty_regions := d |> <| dirty_count := c |>.
Proof. eexists _, _. exact (mark_marks x y w h m). Qed.

Lemma drag_step m0 m i ox oy p x y b (e : W) : slot i -> dragging m0 m i ox oy p ->
  bit_set b MOUSE_BUTTON_LEFT = true ->
  exists m', wm_handle_mouse x y b 0 m e = (1, m', e) /\ dragging m0 m' i ox oy (Some (x, y)).
Proof.
  intros Si D Hb. pose proof D as [L Dr R [O1 O2] Wi Wo Zo]. unfold wm_handle_mouse. rewrite R, Dr, Hb. unfold mouse_drag. rewrite O1, O2.
  eexists. split; [done|]. set (m1 := set_win i _ m). assert (length (win_pool m1) = 16%nat) as L1 by (subst m1; by rewrite len_set_win).
  set (m2 := if w_y (win m1 i) <? 0 then _ else m1).
  assert (win m2 i = win m0 i <| w_x := i32 (x - ox) |> <| w_y := Z.max 0 (i32 (y - oy)) |>) as W2.
  { assert (win m1 i = win m0 i <| w_x := i32 (x - ox) |> <| w_y := i32 (y - oy) |>) as W1.
    { subst m1. rewrite win_set_win, decide_True by done. rewrite Wi. by destruct p as [[??]|]. }
    subst m2. rewrite W1. change (w_y (field_set _ _)) with (i32 (y - oy)). destruct (Z.ltb_spec (i32 (y - oy)) 0).
    - rewrite win_set_win, decide_True by done. rewrite Z.max_l by lia. done.
    - rewrite W1, Z.max_r by lia. done. }
  assert (forall j, slot j -> j <> i -> win m2 j = win m0 j) as O.
  { intros j Sj Hj. rewrite <- Wo by done. subst m2. destruct (_ <? 0); subst m1; rewrite !win_set_win by done; rewrite !decide_False by done; done. }
  assert (forall l, zorder m0 l -> zorder m2 l) as Z2.
  { intros l Z%Zo. subst m2. destruct (_ <? 0); repeat apply set_win_zorder; done. }
  assert (drag_win m2 = Some i /\ resize_win m2 = None /\ drag_offset_x m2 = ox /\ drag_offset_y m2 = oy /\ length (win_pool m2) = 16%nat) as (E1 & E2 & E3 & E4 & E5).
  { subst m2. destruct (_ <? 0); split_and!; (done || by rewrite len_set_win). }
  set (m3 := wm_mark_dirty_rect _ _ _ _ m2). assert (exists d c, m3 = m2 <| dirty_regions := d |> <| dirty_count := c |>) as (d & c & ->) by apply marks_ex.
  unfold wm_mark_window_dirty. set (m4 := wm_mark_dirty_rect _ _ _ _ _).
  assert (exists d' c', m4 = m2 <| dirty_regions := d' |> <| dirty_count := c' |>) as (d' & c' & ->) by (destruct (marks_ex
    (i32 (w_x (win m2 i) - (UI_SHADOW_R + 2))) (i32 (w_y (win m2 i) - (UI_SHADOW_R + 2)))
    (i32 (w_w (win m2 i) + (UI_SHADOW_R + 2) * 2)) (i32 (w_h (win m2 i) + (UI_SHADOW_R + 2) * 2))
    (m2 <| dirty_regions := d |> <| dirty_count := c |>)) as (d' & c' & E); exists d', c'; exact E).
  split; try done. intros l Z%Z2. eapply zorder_ext; [..|exact Z]; done.
Qed.

Lemma drag_moves_ok m0 m i ox oy p ps (e : W) : slot i -> dragging m0 m i ox oy p ->
  exists m', drag_moves ps m e = (m', e) /\ dragging m0 m' i ox oy (match last ps with Some q => Some q | None => p end).
Proof.
  intros Si. revert m p. induction ps as [|[x y] ps IH]; intros m p D; cbn [drag_moves].
  - exists m. by split.
  - destruct (drag_step m0 m i ox oy p x y MOUSE_BUTTON_LEFT e Si D eq_refl) as (m1 & -> & D1).
    destruct (IH m1 _ D1) as (m' & -> & D'). exists m'. split; [done|]. revert D'. destruct ps as [|q ps]; [done|].
    change (last ((x, y) :: q :: ps)) with (last (q :: ps)). destruct (last (q :: ps)) as [r|] eqn:El; [done|by apply last_None in El].
Qed.

(** A press on the title bar, away from the buttons, grabs the topmost window. *)
Lemma drag_press m l i px py (e : W) : wm_ok m l -> drag_win m = None -> resize_win m = None ->
  topmost (fun j => contains px py (win m j)) l = Some i ->
  hit_title_bar (win m i) px py = true -> hit_close_btn (win m i) px py = false -> hit_resize_grip (win m i) px py = false ->
  exists l1 l2 m1, l = l1 ++ i :: l2 /\ wm_ok m1 (l1 ++ l2 ++ [i]) /\ frame m m1 /\ 
    exists m2, wm_handle_mouse px py MOUSE_BUTTON_LEFT MOUSE_BUTTON_LEFT m e = (1, m2, e)
      /\ dragging (set_win i (set_flag WM_FLAG_DRAGGING (win m1 i)) m1) m2 i (i32 (px - w_x (win m i))) (i32 (py - w_y (win m i))) None.
Proof.
  intros K D R T Ht Hc Hr. destruct (topmost_In _ _ _ T) as [Hi _]. pose proof (wm_ok_slot _ _ _ K Hi) as Si.
  destruct (in_split _ _ Hi) as (l1 & l2 & ->). destruct (wm_bring_to_front_ok m l1 i l2 K) as [K1 F1].
  exists l1, l2, (wm_bring_to_front (Some i) m). split_and!; [done|done|done|]. unfold wm_handle_mouse. rewrite R, D. cbn [andb orb negb].
  change (bit_set MOUSE_BUTTON_LEFT MOUSE_BUTTON_LEFT) with true. cbn [andb orb negb]. rewrite (find_window_topmost m (l1 ++ i :: l2)) by apply K. rewrite T.
  unfold mouse_press. set (m1 := wm_bring_to_front (Some i) m) in *.
  destruct (fr_win _ _ F1 i Si) as [E _].
  assert (forall px py, hit_close_btn (win m1 i) px py = hit_close_btn (win m i) px py) as -> by (intros; by rewrite E).
  assert (forall px py, hit_resize_grip (win m1 i) px py = hit_resize_grip (win m i) px py) as -> by (intros; by rewrite E).
  assert (forall px py, hit_title_bar (win m1 i) px py = hit_title_bar (win m i) px py) as -> by (intros; by rewrite E).
  rewrite Ht, Hc, Hr, !andb_false_r. cbn [andb]. eexists. split; [done|].
  assert (w_x (win m1 i) = w_x (win m i) /\ w_y (win m1 i) = w_y (win m i)) as [-> ->] by (by rewrite E).
  split; try done.
  - change (length (win_pool (set_win i (set_flag WM_FLAG_DRAGGING (win m1 i)) m1)) = 16%nat). rewrite len_set_win. by eapply ok_len.
  - change (resize_win m1 = None). by rewrite (fr_rest _ _ F1).
  - intros l Z. by eapply zorder_ext; [..|exact Z].
Qed.

(** C26: dragging a window by its title bar brings it to the top, keeps the other windows and their
    order, calls no handler, and moves the window by the distance between the press and the last
    movement (not above the top of the screen); the pointer is then free again. *)
Theorem wm_drag_moves m l i px py ps qx qy rx ry (e : W) : wm_ok m l -> drag_win m = None -> resize_win m = None ->
  topmost (fun j => contains px py (win m j)) l = Some i ->
  hit_title_bar (win m i) px py = true -> hit_close_btn (win m i) px py = false -> hit_resize_grip (win m i) px py = false ->
  exists m', drag_gesture px py (ps ++ [(qx, qy)]) rx ry m e = (m', e)
    /\ zorder m' (List.filter (fun j => negb (j =? i)) l ++ [i]) /\ drag_win m' = None /\ resize_win m' = None
    /\ w_x (win m' i) = i32 (w_x (win m i) + (qx - px)) /\ w_y (win m' i) = Z.max 0 (i32 (w_y (win m i) + (qy - py)))
    /\ w_w (win m' i) = w_w (win m i) /\ w_h (win m' i) = w_h (win m i)
    /\ forall j, In j l -> j <> i -> same_data (win m j) (win m' j).
Proof.
  intros K D R T Ht Hc Hr. destruct (drag_press m l i px py e K D R T Ht Hc Hr) as (l1 & l2 & m1 & -> & K1 & F1 & m2 & Ep & D2).
  destruct (topmost_In _ _ _ T) as [Hi _]. pose proof (wm_ok_slot _ _ _ K Hi) as Si. unfold drag_gesture. rewrite Ep.
  destruct (drag_moves_ok _ m2 i _ _ None (ps ++ [(qx, qy)]) e Si D2) as (m3 & -> & D3). rewrite last_snoc in D3.
  unfold wm_handle_mouse. rewrite (dg_resize _ _ _ _ _ _ D3), (dg_drag _ _ _ _ _ _ D3). change (bit_set 0 MOUSE_BUTTON_LEFT) with false.
  cbn [mouse_drag fst snd]. eexists. split; [done|]. set (m4 := set_win i (clear_flag WM_FLAG_DRAGGING (win m3 i)) m3).
  pose proof D3 as [L3 _ R3 _ W3 O3 Z3]. destruct (fr_win _ _ F1 i Si) as [E _].
  pose proof (ok_len _ _ K1) as L1.
  assert (win m4 i = clear_flag WM_FLAG_DRAGGING (win m3 i)) as W4 by (subst m4; by rewrite win_set_win, decide_True).
  rewrite W3, win_set_win, decide_True in W4 by done. rewrite E in W4.
  assert (w_x (win m4 i) = i32 (qx - i32 (px - w_x (win m i))) /\ w_y (win m4 i) = Z.max 0 (i32 (qy - i32 (py - w_y (win m i))))
    /\ w_w (win m4 i) = w_w (win m i) /\ w_h (win m4 i) = w_h (win m i)) as (X1 & X2 & X3 & X4) by (by rewrite W4).
  assert (zorder m4 ((l1 ++ l2) ++ [i])) as Z4.
  { subst m4. apply set_win_zorder; [done..|]. rewrite <- app_assoc. apply Z3. apply set_win_zorder; [done..|apply K1]. }
  assert (List.filter (fun j => negb (j =? i)) (l1 ++ i :: l2) = l1 ++ l2) as ->.
  { destruct (NoDup_middle _ _ _ (zo_nodup _ _ (ok_order _ _ K))) as (_ & H1 & H2 & _). by apply filter_middle. }
  split_and!.
  - eapply zorder_ext; [..|exact Z4]; done.
  - done.
  - exact R3.
  - change (w_x (win m4 i) = i32 (w_x (win m i) + (qx - px))). rewrite X1. apply i32_sub_sub.
  - change (w_y (win m4 i) = Z.max 0 (i32 (w_y (win m i) + (qy - py)))). rewrite X2. f_equal. apply i32_sub_sub.
  - exact X3.
  - exact X4.
  - intros j Hj Hne. pose proof (wm_ok_slot _ _ _ K Hj) as Sj. change (same_data (win m j) (win m4 j)).
    assert (win m4 j = win m1 j) as ->; [|by apply (fr_win _ _ F1)].
    subst m4. rewrite win_set_win, decide_False by done. rewrite O3, win_set_win, decide_False by done. done.
Qed.
End drag.

(** Two overlapping windows; the first, lower one is dragged by a point the other does not cover. *)
Definition two_windows : wm :=
  snd (wm_create_window 100 80 300 200 None 0 0 0 (snd (wm_create_window 10 20 200 150 None 0 0 0 (wm_init (wm_zero 800 600))))).

Lemma created_ok m l x y w h title d f a i : wm_ok m l -> fst (wm_create_window x y w h title d f a m) = Some i ->
  wm_ok (snd (wm_create_window x y w h title d f a m)) (l ++ [i]).
Proof.
  intros K E. pose proof (wm_create_window_ok m l x y w h title d f a K) as C. destruct (wm_create_window _ _ _ _ _ _ _ _ m) as [[j|] m']; [|done].
  cbn in E |- *. injection E as ->. apply C.
Qed.

Lemma wm_init_ok m : length (win_pool m) = 16%nat -> length (dirty_regions m) = 128%nat -> screen_ok m -> wm_ok (wm_init m) [].
Proof.
  intros L D S. split; try done.
  - split; [exact L|done|done|apply NoDup_nil_2|constructor|done].
  - intros i Si. change (win_pool_used (wm_init m)) with (repeat false 16). rewrite aget_repeat by (unfold slot in Si; lia). done.
  - split; [exact D|cbn; lia|cbn; lia].
Qed.

Lemma two_windows_ok : wm_ok two_windows [0; 1].
Proof.
  apply (created_ok _ [0]); [|by vm_compute]. apply (created_ok _ []); [|by vm_compute]. by apply wm_init_ok.
Qed.

(** Handlers that do nothing. *)
Definition no_handlers : WmEnv unit :=
  {| call_handle_event _ _ _ m e := (m, e); call_draw_content _ _ _ e := e; wm_kfree _ e := e; ui_draw_window _ _ e := e |}.

Lemma wm_drag_moves_witness :
  exists m', drag_gesture (H := no_handlers) 60 30 ([(61, 31); (70, 10)] ++ [(90, 45)]) 90 45 two_windows tt = (m', tt)
    /\ w_x (win m' 0) = i32 (10 + (90 - 60)) /\ w_y (win m' 0) = Z.max 0 (i32 (20 + (45 - 30))).
Proof.
  destruct (wm_drag_moves (H := no_handlers) two_windows [0; 1] 0 60 30 [(61, 31); (70, 10)] 90 45 90 45 tt two_windows_ok) as (m' & E & _ & _ & _ & X & Y & _);
    [reflexivity|reflexivity|vm_compute; reflexivity|vm_compute; reflexivity|vm_compute; reflexivity|vm_compute; reflexivity|].
  exists m'. split; [exact E|]. split; [exact X|exact Y].
Defined.
