(* ===== verification/GuiSrv.v ===== *)
(** The window service of user programs, [src/gfx/gui_srv.c]: a table of 32 windows, each with a
    pixel buffer and an event queue, owned by processes and shown through the window manager.

    An access outside a pixel buffer or outside the framebuffer sets [g_fault]; asking for a buffer
    of 4 GiB or more sets [g_huge].  Each call runs under the service's spin lock and is one step,
    also creation, which in the source is two locked sections ([create_reserve] and [create_fill])
    with the window manager's part between them.  [int] arithmetic wraps. *)

From S2P Require Import Prelude CString Memfs Ring Event Font Wm.

Definition GUI_SRV_MAX_WINDOWS : Z := 32.
Definition GUI_SRV_EVENT_Q : Z := 128.
Definition GUI_OK : Z := 0.
Definition GUI_ERR_INVALID : Z := -1.
Definition GUI_ERR_NOTFOUND : Z := -2.
Definition GUI_ERR_NOMEM : Z := -3.
Definition GUI_ERR_PERM : Z := -4.
Definition GUI_ERR_FULL : Z := -5.
Definition GUI_ERR_AGAIN : Z := -6.

Record gui_event := mkGuiEvent {
  ge_type : Z; ge_window : Z; ge_x : Z; ge_y : Z; ge_keycode : Z; ge_data1 : Z; ge_data2 : Z;
}.
#[export] Instance gui_event_rebuild : Rebuild gui_event := fun e =>
  mkGuiEvent (ge_type e) (ge_window e) (ge_x e) (ge_y e) (ge_keycode e) (ge_data1 e) (ge_data2 e).
Definition gui_event_zero : gui_event := mkGuiEvent 0 0 0 0 0 0 0.
#[export] Instance gui_event_inhabited : Inhabited gui_event := populate gui_event_zero.

Record gui_window := mkGw {
  gw_used : Z;
  gw_handle : Z;
  gw_owner_pid : Z;
  gw_wm_win : option Z;
  gw_pixels : option (Z * list Z);   (* address and 32-bit words *)
  gw_client_w : Z; gw_client_h : Z;
  gw_title : cstr;
  gw_resizable : Z;
  gw_dirty_pending : Z;
  gw_close_policy_autoclose : Z;
  gw_close_requested : Z;
  gw_dropped_events : Z; gw_dropped_low_priority : Z; gw_dropped_oldest : Z; gw_enqueued_events : Z;
  gw_events : list gui_event;
  gw_ev_head : Z; gw_ev_tail : Z; gw_ev_count : Z;
}.
#[export] Instance gui_window_rebuild : Rebuild gui_window := fun w =>
  mkGw (gw_used w) (gw_handle w) (gw_owner_pid w) (gw_wm_win w) (gw_pixels w) (gw_client_w w) (gw_client_h w) (gw_title w)
    (gw_resizable w) (gw_dirty_pending w) (gw_close_policy_autoclose w) (gw_close_requested w) (gw_dropped_events w)
    (gw_dropped_low_priority w) (gw_dropped_oldest w) (gw_enqueued_events w) (gw_events w) (gw_ev_head w) (gw_ev_tail w) (gw_ev_count w).
Definition gw_zero : gui_window :=
  mkGw 0 0 0 None None 0 0 [] 0 0 0 0 0 0 0 0 (repeat gui_event_zero 128) 0 0 0.
#[export] Instance gui_window_inhabited : Inhabited gui_window := populate gw_zero.

(** The counters of dropped events. *)
Record totals := mkTotals { t_events : Z; t_low_priority : Z; t_oldest : Z }.
#[export] Instance totals_rebuild : Rebuild totals := fun t => mkTotals (t_events t) (t_low_priority t) (t_oldest t).

(** [fb_info] and the memory behind [fb_info.addr], as 32-bit words; no memory if it is NULL. *)
Record framebuffer := mkFb { fb_addr : bool; fb_bpp : Z; fb_pitch : Z; fb_words : list Z }.
#[export] Instance framebuffer_rebuild : Rebuild framebuffer := fun f => mkFb (fb_addr f) (fb_bpp f) (fb_pitch f) (fb_words f).

Record gui (B : Type) := mkGui {
  g_windows : list gui_window;
  g_next_handle : Z;
  g_totals : totals;
  g_fb : framebuffer;
  g_fault : bool;
  g_huge : bool;
  g_heap : B;
}.
Arguments mkGui {B}. Arguments g_windows {B}. Arguments g_next_handle {B}. Arguments g_totals {B}.
Arguments g_fb {B}. Arguments g_fault {B}. Arguments g_huge {B}. Arguments g_heap {B}.
#[export] Instance gui_rebuild {B} : Rebuild (gui B) := fun g =>
  mkGui (g_windows g) (g_next_handle g) (g_totals g) (g_fb g) (g_fault g) (g_huge g) (g_heap g).

Definition gw {B} (g : gui B) (k : Z) : gui_window := aget (g_windows g) k.
Definition set_gw {B} (k : Z) (w : gui_window) (g : gui B) : gui B := g <| g_windows := aset k w (g_windows g) |>.

(** * Pixels *)

(** A buffer and whether an access has left it. *)
Definition pixmem : Type := list Z * bool.
Definition inside (i : Z) (l : list Z) : bool := (0 <=? i) && (i <? zlen l).
Definition pput (i c : Z) (p : pixmem) : pixmem := if inside i p.1 then (aset i c p.1, p.2) else (p.1, true).
Definition opaque_color (c : Z) : Z := Z.lor c 0xFF000000.

(** [for (i = 0; i < n; i++)] on [int]. *)
Definition loop {S} (n : Z) (f : Z -> S -> S) (s : S) : S := for_up (Z.to_nat n) 0 f s.

(** The buffer of a window, and the window with the buffer after some writes. *)
Definition open_pixels (w : gui_window) : pixmem := match gw_pixels w with Some (_, p) => (p, false) | None => ([], false) end.
Definition close_pixels (w : gui_window) (p : pixmem) : gui_window :=
  match gw_pixels w with Some (a, _) => w <| gw_pixels := Some (a, p.1) |> | None => w end.
Definition fault_if {B} (b : bool) (g : gui B) : gui B := g <| g_fault := g_fault g || b |>.

(** Draws into the buffer of window [k]. *)
Definition draw_on {B} (k : Z) (f : pixmem -> pixmem) (g : gui B) : gui B :=
  let p := f (open_pixels (gw g k)) in
  fault_if p.2 (set_gw k (close_pixels (gw g k) p) g).

Definition str_len (s : cstr) : Z := zlen s.
Definition copy_title (cap : Z) (src : option cstr) : cstr :=
  match src with None => [] | Some s => (copy_upto (Z.to_nat (cap - 1)) s).1 end.

Definition clip_rect_to_client (w : gui_window) (x y rw rh : Z) : option (Z * Z * Z * Z) :=
  if (rw <=? 0) || (rh <=? 0) then None else
  let x0 := x in let y0 := y in
  let x1 := i32 (x0 + rw) in let y1 := i32 (y0 + rh) in
  let x0 := if x0 <? 0 then 0 else x0 in
  let y0 := if y0 <? 0 then 0 else y0 in
  let x1 := if gw_client_w w <? x1 then gw_client_w w else x1 in
  let y1 := if gw_client_h w <? y1 then gw_client_h w else y1 in
  if (x1 <=? x0) || (y1 <=? y0) then None else Some (x0, y0, i32 (x1 - x0), i32 (y1 - y0)).

(** * Event queues *)

Definition evt_is_low_priority (e : gui_event) : bool :=
  (ge_type e =? INPUT_EVENT_MOUSE_MOVE) || (ge_type e =? INPUT_EVENT_PAINT).

(** [(h + i) % GUI_SRV_EVENT_Q] *)
Definition ev_idx (h i : Z) : Z := Z.rem (i32 (h + i)) GUI_SRV_EVENT_Q.

(** The search for the first low-priority event. *)
Fixpoint evt_search (n : nat) (w : gui_window) (rel : Z) : option Z :=
  match n with
  | O => None
  | S n => if evt_is_low_priority (aget (gw_events w) (ev_idx (gw_ev_head w) rel)) then Some rel else evt_search n w (rel + 1)
  end.

Definition count_low_drop (t : totals) : totals :=
  t <| t_events := u64 (t_events t + 1) |> <| t_low_priority := u64 (t_low_priority t + 1) |>.
Definition count_oldest_drop (t : totals) : totals :=
  t <| t_events := u64 (t_events t + 1) |> <| t_oldest := u64 (t_oldest t + 1) |>.

(** Making room in a full queue. *)
Definition evt_make_room (w : gui_window) (t : totals) : gui_window * totals :=
  match evt_search (Z.to_nat (gw_ev_count w)) w 0 with
  | Some rel =>
      let evs := for_up (Z.to_nat (gw_ev_count w - 1 - rel)) rel
        (fun i evs => aset (ev_idx (gw_ev_head w) i) (aget evs (ev_idx (gw_ev_head w) (i + 1))) evs) (gw_events w) in
      let w := w <| gw_events := evs |> in
      let w := w <| gw_ev_tail := ev_idx (gw_ev_tail w) (GUI_SRV_EVENT_Q - 1) |> in
      let w := w <| gw_ev_count := gw_ev_count w - 1 |> in
      let w := w <| gw_dropped_events := u32 (gw_dropped_events w + 1) |> in
      (w <| gw_dropped_low_priority := u32 (gw_dropped_low_priority w + 1) |>, count_low_drop t)
  | None =>
      let w := w <| gw_ev_head := ev_idx (gw_ev_head w) 1 |> in
      let w := w <| gw_ev_count := gw_ev_count w - 1 |> in
      let w := w <| gw_dropped_events := u32 (gw_dropped_events w + 1) |> in
      (w <| gw_dropped_oldest := u32 (gw_dropped_oldest w + 1) |>, count_oldest_drop t)
  end.

Definition evt_append (e : gui_event) (w : gui_window) : gui_window :=
  let w := w <| gw_events := aset (gw_ev_tail w) e (gw_events w) |> in
  let w := w <| gw_ev_tail := ev_idx (gw_ev_tail w) 1 |> in
  let w := w <| gw_ev_count := gw_ev_count w + 1 |> in
  w <| gw_enqueued_events := u32 (gw_enqueued_events w + 1) |>.

Definition evt_coalesces (e : gui_event) (w : gui_window) : bool :=
  let l := aget (gw_events w) (ev_idx (gw_ev_tail w) (GUI_SRV_EVENT_Q - 1)) in
  (0 <? gw_ev_count w) && evt_is_low_priority e && ((ge_type l =? ge_type e) && (ge_window l =? ge_window e)).

Definition evt_enqueue (e : gui_event) (w : gui_window) (t : totals) : gui_window * totals :=
  if evt_coalesces e w then
    (w <| gw_events := aset (ev_idx (gw_ev_tail w) (GUI_SRV_EVENT_Q - 1)) e (gw_events w) |>, t)
  else
    let '(w, t) := if GUI_SRV_EVENT_Q <=? gw_ev_count w then evt_make_room w t else (w, t) in
    (evt_append e w, t).

Definition find_slot_by_handle {B} (handle : Z) (g : gui B) : option Z :=
  find_index (fun w => negb (gw_used w =? 0) && (gw_handle w =? handle)) (g_windows g).
Definition find_slot_by_wm {B} (i : Z) (g : gui B) : option Z :=
  find_index (fun w => negb (gw_used w =? 0) && bool_decide (gw_wm_win w = Some i)) (g_windows g).

Definition queue_paint_event (x y w h : Z) (k : gui_window) (t : totals) : gui_window * totals :=
  let ev := mkGuiEvent INPUT_EVENT_PAINT (gw_handle k) x y 0 w h in
  evt_enqueue ev (k <| gw_dirty_pending := 1 |>) t.

(** * Drawing *)

Definition draw_char_to_buffer (w : gui_window) (x y c color : Z) (p : pixmem) : pixmem :=
  match gw_pixels w with
  | None => p
  | Some _ =>
      if 128 <=? c then p else
      loop FONT_HEIGHT (fun row p =>
        let py := i32 (y + row) in
        if (py <? 0) || (gw_client_h w <=? py) then p else
        let row_bits := font_row c row in
        loop FONT_WIDTH (fun col p =>
          let px := i32 (x + col) in
          if (px <? 0) || (gw_client_w w <=? px) then p else
          if Z.testbit row_bits (7 - col) then pput (i32 (py * gw_client_w w + px)) (opaque_color color) p else p) p) p
  end.

Fixpoint draw_text_loop (text : cstr) (w : gui_window) (x y i color : Z) (p : pixmem) : pixmem :=
  match text with
  | [] => p
  | c :: text => draw_text_loop text w x y (i + 1) color (draw_char_to_buffer w (i32 (x + i * FONT_WIDTH)) y c color p)
  end.

Definition fill_rect (w : gui_window) (x y rw rh color : Z) (p : pixmem) : pixmem :=
  loop rh (fun row p => loop rw (fun col p =>
    pput (i32 ((y + row) * gw_client_w w + (x + col))) (opaque_color color) p) p) p.

(** How far a pixel is inside the corner square of a rounded rectangle, on one axis. *)
Definition corner_dist (p start size radius : Z) : Z :=
  if p <? i32 (start + radius) then i32 (start + radius - p)
  else if i32 (start + size - radius) <=? p then i32 (p - (start + size - radius - 1))
  else 0.

Definition fill_rounded (w : gui_window) (x y rw rh radius color : Z) (p : pixmem) : pixmem :=
  for_up (Z.to_nat rh) y (fun py p => for_up (Z.to_nat rw) x (fun px p =>
    let dx := corner_dist px x rw radius in
    let dy := corner_dist py y rh radius in
    if (dx =? 0) || (dy =? 0) || (i32 (dx * dx + dy * dy) <=? i32 (radius * radius))
    then pput (i32 (py * gw_client_w w + px)) (opaque_color color) p else p) p) p.

(** [pixels] is the caller's memory from the address it passes. *)
Definition blit_image (w : gui_window) (pixels : Z -> Z) (src_x src_y stride draw_x draw_y draw_w draw_h : Z) (p : pixmem) : pixmem :=
  loop draw_h (fun row p => loop draw_w (fun col p =>
    let c := pixels (i32 ((src_y + row) * stride + (src_x + col))) in
    pput (i32 ((draw_y + row) * gw_client_w w + (draw_x + col))) (opaque_color c) p) p) p.

Section gui.
Context {B : Type} `{Heap B}.
Implicit Types (m : wm) (g : gui B).

(** The words of a block of memory. *)
Fixpoint le_words (bytes : list Z) : list Z :=
  match bytes with
  | a :: b :: c :: d :: rest => a + 0x100 * b + 0x10000 * c + 0x1000000 * d :: le_words rest
  | _ => []
  end.

Definition copy_pixels (new_w copy_w copy_h : Z) (old : list Z) (old_w : Z) (p : pixmem) : pixmem :=
  loop copy_h (fun row p => loop copy_w (fun col p =>
    let i := i32 (row * old_w + col) in
    let p := if inside i old then p else (p.1, true) in
    pput (i32 (row * new_w + col)) (aget old i) p) p) p.

Definition reallocate_client_buffer (k new_w new_h : Z) (g : gui B) : Z * gui B :=
  if (new_w <=? 0) || (new_h <=? 0) then (GUI_ERR_INVALID, g) else
  let need := u64 (new_w * new_h * 4) in
  let '(blk, b) := kmalloc need (g_heap g) in
  let g := g <| g_heap := b |> <| g_huge := g_huge g || (0x100000000 <=? need) |> in
  match blk with
  | None => (GUI_ERR_NOMEM, g)
  | Some (a, bytes) =>
      let p := loop (i32 (new_w * new_h)) (fun i p => pput i 0xFF202226 p) (le_words bytes, false) in
      let w := gw g k in
      let '(p, g) :=
        match gw_pixels w with
        | Some (old_a, old) =>
            let copy_w := if new_w <? gw_client_w w then new_w else gw_client_w w in
            let copy_h := if new_h <? gw_client_h w then new_h else gw_client_h w in
            (copy_pixels new_w copy_w copy_h old (gw_client_w w) p, g <| g_heap := kfree old_a (g_heap g) |>)
        | None => (p, g)
        end in
      let w := w <| gw_pixels := Some (a, p.1) |> <| gw_client_w := new_w |> <| gw_client_h := new_h |> in
      (GUI_OK, fault_if p.2 (set_gw k w g))
  end.

(** Applies a window-and-counters function to window [k]. *)
Definition on_window (k : Z) (f : gui_window -> totals -> gui_window * totals) (g : gui B) : gui B :=
  let '(w, t) := f (gw g k) (g_totals g) in set_gw k w (g <| g_totals := t |>).

(** The callbacks the service registers with the window manager. *)
Definition GUI_WINDOW_DRAW : Z := 1.
Definition GUI_WINDOW_EVENT : Z := 2.

Definition gui_window_event (i : Z) (ev : input_event) (g : gui B) : gui B :=
  match find_slot_by_wm i g with
  | None => g
  | Some k =>
      let out := mkGuiEvent (ie_event_id ev) (gw_handle (gw g k)) (ie_x ev) (ie_y ev) (i32 (ie_keycode ev)) (ie_wheel_delta ev) (i32 (ie_modifiers ev)) in
      let '(out, g) :=
        if (ie_event_id ev =? INPUT_EVENT_RESIZE) && ((0 <? i32 (ie_x ev)) && (0 <? i32 (ie_y ev))) then
          let new_w := i32 (ie_x ev) in let new_h := i32 (ie_y ev) in
          let '(r, g) := reallocate_client_buffer k new_w new_h g in
          if r =? GUI_OK then
            let out := out <| ge_x := 0 |> <| ge_y := 0 |> <| ge_data1 := new_w |> <| ge_data2 := new_h |> in
            (out, on_window k (queue_paint_event 0 0 new_w new_h) (set_gw k (gw g k <| gw_dirty_pending := 1 |>) g))
          else (out, g)
        else (out, g) in
      let g := if ie_event_id ev =? INPUT_EVENT_CLOSE then set_gw k (gw g k <| gw_close_requested := 1 |>) g else g in
      on_window k (evt_enqueue out) g
  end.

(** A 32-bit store at a byte offset of the framebuffer; an offset that is not a multiple of four
    does not occur in a 32-bit mode and counts as outside. *)
Definition fb_store (off v : Z) (f : pixmem) : pixmem :=
  if off mod 4 =? 0 then pput (off / 4) v f else (f.1, true).

Definition draw_window_rows (w : gui_window) (cx cy draw_w draw_h pitch : Z) (px : list Z) (f : pixmem) : pixmem :=
  loop draw_h (fun row f =>
    let dst := u32 (u32 (cy + row) * pitch) + u32 (u32 cx * 4) in
    loop draw_w (fun col f =>
      let i := i32 (row * gw_client_w w) + col in
      let f := if inside i px then f else (f.1, true) in
      fb_store (dst + 4 * col) (opaque_color (aget px i)) f) f) f.

Definition gui_window_draw (i : Z) (m : wm) (g : gui B) : gui B :=
  if negb (fb_addr (g_fb g)) || negb (fb_bpp (g_fb g) =? 32) then g else
  match find_slot_by_wm i g with
  | None => g
  | Some k =>
      match gw_pixels (gw g k) with
      | None => g
      | Some (_, px) =>
          let '(cx, cy, cw, ch) := wm_client_rect (win m i) in
          let draw_w := if gw_client_w (gw g k) <? cw then gw_client_w (gw g k) else cw in
          let draw_h := if gw_client_h (gw g k) <? ch then gw_client_h (gw g k) else ch in
          if (draw_w <=? 0) || (draw_h <=? 0) then g else
          let f := draw_window_rows (gw g k) cx cy draw_w draw_h (fb_pitch (g_fb g)) px (fb_words (g_fb g), false) in
          fault_if f.2 (g <| g_fb := g_fb g <| fb_words := f.1 |> |>)
      end
  end.

(** The callbacks of the windows of the kernel's own programs, and the frame drawing of [ui.c]. *)
Class KernelApps := {
  app_event : Z -> Z -> input_event -> wm -> gui B -> wm * gui B;
  app_draw : Z -> Z -> wm -> gui B -> gui B;
  ui_frame : wm_window -> Z -> gui B -> gui B;
}.

#[export] Instance gui_wm_env `{KernelApps} : WmEnv (gui B) := {
  call_handle_event f i ev m g := if f =? GUI_WINDOW_EVENT then (m, gui_window_event i ev g) else app_event f i ev m g;
  call_draw_content f i m g := if f =? GUI_WINDOW_DRAW then gui_window_draw i m g else app_draw f i m g;
  wm_kfree p g := g <| g_heap := kfree p (g_heap g) |>;
  ui_draw_window := ui_frame;
}.

(** * The service's calls *)

Section calls.
Context `{KernelApps}.

(** The slot of a handle, if the caller owns it; otherwise the error code. *)
Definition own_slot (pid handle : Z) (g : gui B) : Z + Z :=
  match find_slot_by_handle handle g with
  | None => inl GUI_ERR_NOTFOUND
  | Some k => if gw_owner_pid (gw g k) =? pid then inr k else inl GUI_ERR_PERM
  end.

Definition init_slot (w : gui_window) : gui_window :=
  w <| gw_used := 0 |> <| gw_handle := 0 |> <| gw_owner_pid := -1 |> <| gw_wm_win := None |> <| gw_pixels := None |>
    <| gw_client_w := 0 |> <| gw_client_h := 0 |> <| gw_title := [] |> <| gw_resizable := 1 |> <| gw_dirty_pending := 0 |>
    <| gw_close_policy_autoclose := 0 |> <| gw_close_requested := 0 |> <| gw_dropped_events := 0 |>
    <| gw_dropped_low_priority := 0 |> <| gw_dropped_oldest := 0 |> <| gw_enqueued_events := 0 |>
    <| gw_ev_head := 0 |> <| gw_ev_tail := 0 |> <| gw_ev_count := 0 |>.

Definition gui_srv_init (g : gui B) : gui B :=
  let g := loop GUI_SRV_MAX_WINDOWS (fun i g => set_gw i (init_slot (gw g i)) g) g in
  g <| g_next_handle := 1 |> <| g_totals := mkTotals 0 0 0 |>.

Definition gui_srv_mark_dirty (pid handle x y w h : Z) (m : wm) (g : gui B) : Z * wm * gui B :=
  match own_slot pid handle g with
  | inl err => (err, m, g)
  | inr k =>
      match clip_rect_to_client (gw g k) x y w h with
      | None => (GUI_OK, m, g)
      | Some (mx, my, mw, mh) =>
          let g := set_gw k (gw g k <| gw_dirty_pending := 1 |>) g in
          match gw_wm_win (gw g k) with
          | None => (GUI_OK, m, g <| g_fault := true |>)   (* reads through NULL *)
          | Some i =>
              let '(cx, cy, _, _) := wm_client_rect (win m i) in
              (GUI_OK, wm_mark_dirty_rect (i32 (cx + mx)) (i32 (cy + my)) mw mh m, g)
          end
      end
  end.

(** The fields [gui_srv_window_create] sets before the buffer is allocated. *)
Definition new_slot (handle pid : Z) (i : Z) (title : option cstr) (w : gui_window) : gui_window :=
  w <| gw_used := 1 |> <| gw_handle := handle |> <| gw_owner_pid := pid |> <| gw_wm_win := Some i |> <| gw_pixels := None |>
    <| gw_client_w := 0 |> <| gw_client_h := 0 |> <| gw_title := copy_title WM_TITLE_MAX title |> <| gw_resizable := 1 |>
    <| gw_dirty_pending := 0 |> <| gw_close_policy_autoclose := 0 |> <| gw_close_requested := 0 |> <| gw_dropped_events := 0 |>
    <| gw_dropped_low_priority := 0 |> <| gw_dropped_oldest := 0 |> <| gw_enqueued_events := 0 |>
    <| gw_ev_head := 0 |> <| gw_ev_tail := 0 |> <| gw_ev_count := 0 |>.

(** [title ? title : "App"] *)
Definition title_or_app (title : option cstr) : option cstr :=
  match title with Some t => Some t | None => Some [65; 112; 112] end.

(** The three critical sections of [gui_srv_window_create]: reserving a slot, and filling it. *)
Definition create_reserve (g : gui B) : option (Z * gui B) :=
  match find_index (fun w => gw_used w =? 0) (g_windows g) with
  | None => None
  | Some k => Some (k, set_gw k (gw g k <| gw_used := 2 |>) g)
  end.

Definition create_fill (k pid i : Z) (title : option cstr) (client_w client_h : Z) (g : gui B) : option Z * gui B :=
  let handle := g_next_handle g in
  let g := g <| g_next_handle := i32 (g_next_handle g + 1) |> in
  let g := set_gw k (new_slot handle pid i (title_or_app title) (gw g k)) g in
  let '(r, g) := reallocate_client_buffer k client_w client_h g in
  if negb (r =? GUI_OK) then (None, set_gw k (gw g k <| gw_used := 0 |> <| gw_wm_win := None |>) g)
  else (Some handle, on_window k (queue_paint_event 0 0 client_w client_h) g).

Definition gui_srv_window_create (pid : Z) (title : option cstr) (x y client_w client_h : Z) (m : wm) (g : gui B) : Z * wm * gui B :=
  if (client_w <=? 0) || (client_h <=? 0) then (GUI_ERR_INVALID, m, g) else
  match create_reserve g with
  | None => (GUI_ERR_FULL, m, g)
  | Some (k, g) =>
      let outer_w := i32 (client_w + 2 * WM_BORDER_PX) in
      let outer_h := i32 (client_h + 2 * WM_BORDER_PX + WM_TITLE_BAR_H) in
      match wm_create_window x y outer_w outer_h (title_or_app title) GUI_WINDOW_DRAW GUI_WINDOW_EVENT 0 m with
      | (None, m) => (GUI_ERR_FULL, m, set_gw k (gw g k <| gw_used := 0 |>) g)
      | (Some i, m) =>
          let '(r, g) := create_fill k pid i title client_w client_h g in
          match r with
          | None => let '(m, g) := wm_destroy_window (Some i) m g in (GUI_ERR_NOMEM, m, g)
          | Some handle =>
          let m := wm_set_autoclose (Some i) (gw_close_policy_autoclose (gw g k)) m in
          let m := wm_set_resizable (Some i) (gw_resizable (gw g k)) m in
          let m := wm_mark_dirty_rect (w_x (win m i)) (w_y (win m i)) (w_w (win m i)) (w_h (win m i)) m in
          (handle, m, g)
          end
      end
  end.

Definition gui_srv_window_destroy (pid handle : Z) (m : wm) (g : gui B) : Z * wm * gui B :=
  match own_slot pid handle g with
  | inl err => (err, m, g)
  | inr k =>
      let w := gw_wm_win (gw g k) in
      let pixels := gw_pixels (gw g k) in
      let g := set_gw k (gw g k <| gw_used := 0 |> <| gw_wm_win := None |> <| gw_pixels := None |> <| gw_client_w := 0 |>
        <| gw_client_h := 0 |> <| gw_title := [] |> <| gw_resizable := 1 |> <| gw_dirty_pending := 0 |>
        <| gw_close_policy_autoclose := 0 |> <| gw_close_requested := 0 |> <| gw_dropped_events := 0 |>
        <| gw_dropped_low_priority := 0 |> <| gw_dropped_oldest := 0 |> <| gw_enqueued_events := 0 |> <| gw_ev_count := 0 |>) g in
      let '(m, g) := match w with Some i => wm_destroy_window (Some i) m g | None => (m, g) end in
      let g := match pixels with Some (a, _) => g <| g_heap := kfree a (g_heap g) |> | None => g end in
      (GUI_OK, m, g)
  end.

(** One round per window of the process. *)
Fixpoint cleanup_loop (n : nat) (pid : Z) (m : wm) (g : gui B) : option (wm * gui B) :=
  match find_index (fun w => negb (gw_used w =? 0) && (gw_owner_pid w =? pid)) (g_windows g) with
  | None => Some (m, g)
  | Some k =>
      if gw_handle (gw g k) <? 0 then Some (m, g) else
      match n with
      | O => None
      | S n => let '(_, m, g) := gui_srv_window_destroy pid (gw_handle (gw g k)) m g in cleanup_loop n pid m g
      end
  end.

Definition gui_srv_process_cleanup (pid : Z) (m : wm) (g : gui B) : option (wm * gui B) := cleanup_loop 32 pid m g.

Definition gui_srv_window_set_title (pid handle : Z) (title : option cstr) (m : wm) (g : gui B) : Z * wm * gui B :=
  match title with
  | None => (GUI_ERR_INVALID, m, g)
  | Some _ =>
      match own_slot pid handle g with
      | inl err => (err, m, g)
      | inr k => (GUI_OK, wm_set_title (gw_wm_win (gw g k)) title m, set_gw k (gw g k <| gw_title := copy_title WM_TITLE_MAX title |>) g)
      end
  end.

Definition gui_srv_window_set_resizable (pid handle resizable : Z) (m : wm) (g : gui B) : Z * wm * gui B :=
  match own_slot pid handle g with
  | inl err => (err, m, g)
  | inr k =>
      let r := if resizable =? 0 then 0 else 1 in
      (GUI_OK, wm_set_resizable (gw_wm_win (gw g k)) r m, set_gw k (gw g k <| gw_resizable := r |>) g)
  end.

Definition gui_srv_draw_rect (pid handle x y w h color : Z) (m : wm) (g : gui B) : Z * wm * gui B :=
  match own_slot pid handle g with
  | inl err => (err, m, g)
  | inr k =>
      match clip_rect_to_client (gw g k) x y w h with
      | None => (GUI_OK, m, g)
      | Some (x, y, w, h) =>
          let g := draw_on k (fill_rect (gw g k) x y w h color) g in
          gui_srv_mark_dirty pid handle x y w h m g
      end
  end.

Definition gui_srv_draw_rounded_rect (pid handle x y w h radius color : Z) (m : wm) (g : gui B) : Z * wm * gui B :=
  match own_slot pid handle g with
  | inl err => (err, m, g)
  | inr k =>
      match clip_rect_to_client (gw g k) x y w h with
      | None => (GUI_OK, m, g)
      | Some (draw_x, draw_y, draw_w, draw_h) =>
          let radius := if radius <? 0 then 0 else radius in
          let radius := if draw_w / 2 <? radius then draw_w / 2 else radius in
          let radius := if draw_h / 2 <? radius then draw_h / 2 else radius in
          let g := draw_on k (fill_rounded (gw g k) draw_x draw_y draw_w draw_h radius color) g in
          gui_srv_mark_dirty pid handle draw_x draw_y draw_w draw_h m g
      end
  end.

Definition gui_srv_draw_text (pid handle x y : Z) (text : option cstr) (color : Z) (m : wm) (g : gui B) : Z * wm * gui B :=
  match text with
  | None => (GUI_ERR_INVALID, m, g)
  | Some text =>
      match own_slot pid handle g with
      | inl err => (err, m, g)
      | inr k =>
          let g := draw_on k (draw_text_loop text (gw g k) x y 0 color) g in
          gui_srv_mark_dirty pid handle x y (i32 (str_len text * FONT_WIDTH)) FONT_HEIGHT m g
      end
  end.

Definition gui_srv_draw_image (pid handle x y w h : Z) (pixels : option (Z -> Z)) (m : wm) (g : gui B) : Z * wm * gui B :=
  match pixels with
  | None => (GUI_ERR_INVALID, m, g)
  | Some pixels =>
      if (w <=? 0) || (h <=? 0) then (GUI_ERR_INVALID, m, g) else
      match own_slot pid handle g with
      | inl err => (err, m, g)
      | inr k =>
          let '(src_x, draw_w, draw_x) := if x <? 0 then (i32 (- x), i32 (w + x), 0) else (0, w, x) in
          let '(src_y, draw_h, draw_y) := if y <? 0 then (i32 (- y), i32 (h + y), 0) else (0, h, y) in
          let client_w := gw_client_w (gw g k) in
          let client_h := gw_client_h (gw g k) in
          let draw_w := if client_w <? i32 (draw_x + draw_w) then i32 (client_w - draw_x) else draw_w in
          let draw_h := if client_h <? i32 (draw_y + draw_h) then i32 (client_h - draw_y) else draw_h in
          if (draw_w <=? 0) || (draw_h <=? 0) then (GUI_OK, m, g) else
          let g := draw_on k (blit_image (gw g k) pixels src_x src_y w draw_x draw_y draw_w draw_h) g in
          gui_srv_mark_dirty pid handle draw_x draw_y draw_w draw_h m g
      end
  end.

(** The event stored through [out], or the error code; [out] NULL is [false]. *)
Definition gui_srv_get_event (pid handle : Z) (out : bool) (g : gui B) : (Z + gui_event) * gui B :=
  if negb out then (inl GUI_ERR_INVALID, g) else
  match own_slot pid handle g with
  | inl err => (inl err, g)
  | inr k =>
      let w := gw g k in
      if gw_ev_count w =? 0 then (inl GUI_ERR_AGAIN, g) else
      let ev := aget (gw_events w) (gw_ev_head w) in
      let w := w <| gw_ev_head := ev_idx (gw_ev_head w) 1 |> <| gw_ev_count := gw_ev_count w - 1 |> in
      let w := if ge_type ev =? INPUT_EVENT_PAINT then w <| gw_dirty_pending := 0 |> else w in
      (inr ev, set_gw k w g)
  end.
End calls.

Definition gui_srv_get_string_width (str : option cstr) : Z := i32 (match str with Some s => str_len s * FONT_WIDTH | None => 0 end).
Definition gui_srv_get_font_height : Z := FONT_HEIGHT.
Definition gui_srv_get_screen_size (out_w out_h : bool) (m : wm) : option (Z * Z) :=
  if negb out_w || negb out_h then None else Some (fb_width m, fb_height m).
(** * The system call

    [SYS_GUI] as [handle_gui] of [src/syscall/syscall.c] serves it.  The arguments are raw 64-bit
    registers; pointers among them address the caller's memory, which is read through [user_mem]. *)

Record user_mem := mkUserMem {
  um_str : Z -> option cstr;          (* the string at an address, NULL at 0 *)
  um_words : Z -> option (Z -> Z);    (* the 32-bit words from an address on *)
}.

Definition GUI_CMD_WINDOW_CREATE : Z := 1.
Definition GUI_CMD_DRAW_RECT : Z := 2.
Definition GUI_CMD_DRAW_STRING : Z := 3.
Definition GUI_CMD_MARK_DIRTY : Z := 4.
Definition GUI_CMD_GET_EVENT : Z := 5.
Definition GUI_CMD_DRAW_ROUNDED_RECT_FILLED : Z := 6.
Definition GUI_CMD_DRAW_IMAGE : Z := 7.
Definition GUI_CMD_GET_STRING_WIDTH : Z := 8.
Definition GUI_CMD_GET_FONT_HEIGHT : Z := 9.
Definition GUI_CMD_WINDOW_SET_RESIZABLE : Z := 14.
Definition GUI_CMD_WINDOW_SET_TITLE : Z := 15.
Definition GUI_CMD_WINDOW_DESTROY : Z := 17.
Definition GUI_CMD_GET_SCREEN_SIZE : Z := 50.

(** What a call stores in the caller's memory. *)
Inductive gui_reply :=
| NoReply
| ReplyEvent (e : gui_event)
| ReplySize (w h : Z).

(** [(int32_t)(uint32_t)(arg & 0xFFFFFFFF)] and the same of the upper half. *)
Definition lo32 (arg : Z) : Z := i32 (Z.land arg 0xFFFFFFFF).
Definition hi32 (arg : Z) : Z := i32 (Z.land (Z.shiftr arg 32) 0xFFFFFFFF).

Definition handle_gui `{KernelApps} (pid : Z) (um : user_mem) (cmd arg2 arg3 arg4 arg5 : Z) (m : wm) (g : gui B)
    : Z * gui_reply * wm * gui B :=
  let call (r : Z * wm * gui B) := let '(z, m, g) := r in (u64 z, NoReply, m, g) in
  let handle := i32 arg2 in
  if cmd =? GUI_CMD_WINDOW_CREATE then
    call (gui_srv_window_create pid (um_str um arg2) (lo32 arg3) (hi32 arg3) (lo32 arg4) (hi32 arg4) m g)
  else if cmd =? GUI_CMD_WINDOW_DESTROY then call (gui_srv_window_destroy pid handle m g)
  else if cmd =? GUI_CMD_WINDOW_SET_TITLE then call (gui_srv_window_set_title pid handle (um_str um arg3) m g)
  else if cmd =? GUI_CMD_WINDOW_SET_RESIZABLE then call (gui_srv_window_set_resizable pid handle (i32 arg3) m g)
  else if cmd =? GUI_CMD_DRAW_RECT then
    call (gui_srv_draw_rect pid handle (lo32 arg3) (hi32 arg3) (lo32 arg4) (hi32 arg4) (u32 arg5) m g)
  else if cmd =? GUI_CMD_DRAW_ROUNDED_RECT_FILLED then
    call (gui_srv_draw_rounded_rect pid handle (lo32 arg3) (hi32 arg3) (lo32 arg4) (hi32 arg4)
            (lo32 arg5) (Z.land (Z.shiftr arg5 32) 0xFFFFFFFF) m g)
  else if cmd =? GUI_CMD_DRAW_STRING then
    call (gui_srv_draw_text pid handle (lo32 arg3) (hi32 arg3) (um_str um arg4) (u32 arg5) m g)
  else if cmd =? GUI_CMD_DRAW_IMAGE then
    call (gui_srv_draw_image pid handle (lo32 arg3) (hi32 arg3) (lo32 arg4) (hi32 arg4) (um_words um arg5) m g)
  else if cmd =? GUI_CMD_MARK_DIRTY then
    call (gui_srv_mark_dirty pid handle (lo32 arg3) (hi32 arg3) (lo32 arg4) (hi32 arg4) m g)
  else if cmd =? GUI_CMD_GET_EVENT then
    match gui_srv_get_event pid handle (negb (arg3 =? 0)) g with
    | (inl err, g) => (u64 err, NoReply, m, g)
    | (inr e, g) => (u64 GUI_OK, ReplyEvent e, m, g)
    end
  else if cmd =? GUI_CMD_GET_STRING_WIDTH then (u64 (gui_srv_get_string_width (um_str um arg2)), NoReply, m, g)
  else if cmd =? GUI_CMD_GET_FONT_HEIGHT then (u64 gui_srv_get_font_height, NoReply, m, g)
  else if cmd =? GUI_CMD_GET_SCREEN_SIZE then
    match gui_srv_get_screen_size (negb (arg2 =? 0)) (negb (arg3 =? 0)) m with
    | None => (u64 GUI_ERR_INVALID, NoReply, m, g)
    | Some (w, h) => (u64 GUI_OK, ReplySize w h, m, g)
    end
  else (u64 GUI_ERR_INVALID, NoReply, m, g).
End gui.
