(* ===== verification/GuiInv.v ===== *)
(** The invariant of the window service: every window in use has a pixel buffer of its client area,
    a well-formed event queue and a live window of its own in the window manager; no access leaves
    a buffer. *)

From S2P Require Import Prelude CString Memfs Ring Event Font Wm WmInv WmOps GuiSrv.

(** * The event queue *)

Lemma Q_pos : 0 < GUI_SRV_EVENT_Q.
Proof. done. Qed.

Definition same_gui (l e : gui_event) : bool := (ge_type l =? ge_type e) && (ge_window l =? ge_window e).

(** The queue of the window holds the list. *)
Definition queue_shows (w : gui_window) (l : list gui_event) : Prop :=
  ring_rep GUI_SRV_EVENT_Q (gw_events w) (gw_ev_head w) (gw_ev_tail w) (gw_ev_count w) l.

Lemma queue_fields w evs h t n l :
  gw_events w = evs -> gw_ev_head w = h -> gw_ev_tail w = t -> gw_ev_count w = n ->
  ring_rep GUI_SRV_EVENT_Q evs h t n l -> queue_shows w l.
Proof. by intros <- <- <- <-. Qed.

(** Only the queue and its counters differ. *)
Definition same_window (w w' : gui_window) : Prop :=
  w' = w <| gw_events := gw_events w' |> <| gw_ev_head := gw_ev_head w' |> <| gw_ev_tail := gw_ev_tail w' |>
         <| gw_ev_count := gw_ev_count w' |> <| gw_dropped_events := gw_dropped_events w' |>
         <| gw_dropped_low_priority := gw_dropped_low_priority w' |> <| gw_dropped_oldest := gw_dropped_oldest w' |>
         <| gw_enqueued_events := gw_enqueued_events w' |>.

Lemma same_window_refl w : same_window w w.
Proof. by destruct w. Qed.
Lemma same_window_trans a b c : same_window a b -> same_window b c -> same_window a c.
Proof. unfold same_window. intros -> ->. done. Qed.

Lemma queue_bounds w l : queue_shows w l -> 0 <= gw_ev_head w < 128 /\ 0 <= gw_ev_tail w < 128 /\ 0 <= gw_ev_count w <= 128.
Proof.
  intros [_ H T [C C'] _]. unfold GUI_SRV_EVENT_Q in *. rewrite T. pose proof (Z.mod_pos_bound (gw_ev_head w + gw_ev_count w) 128 ltac:(lia)). lia.
Qed.

Lemma ev_idx_eq h i : 0 <= h < 128 -> 0 <= i <= 128 -> ev_idx h i = (h + i) mod GUI_SRV_EVENT_Q.
Proof. intros. unfold ev_idx. rewrite i32_fits by lia. apply Z.rem_mod_nonneg; unfold GUI_SRV_EVENT_Q; lia. Qed.

Lemma evt_search_eq w l n rel : queue_shows w l -> 0 <= rel -> rel + Z.of_nat n <= gw_ev_count w ->
  evt_search n w rel = find_rel GUI_SRV_EVENT_Q evt_is_low_priority (gw_ev_head w) (gw_events w) n rel.
Proof.
  intros H. pose proof (queue_bounds w l H). revert rel. induction n as [|n IH]; intros rel Hr Hn; [done|]. cbn [evt_search find_rel].
  rewrite ev_idx_eq by lia. destruct (evt_is_low_priority _); [done|]. apply IH; lia.
Qed.

Lemma evt_make_room_ok w l t : queue_shows w l -> l <> [] ->
  let r := evt_make_room w t in
  same_window w r.1 /\
  queue_shows r.1 (match split_at evt_is_low_priority l with Some (a, _, b) => a ++ b | None => tail l end).
Proof.
  intros H Hl. pose proof (queue_bounds w l H) as B. pose proof (rr_count _ _ _ _ _ _ H) as [C _]. unfold evt_make_room.
  rewrite (evt_search_eq w l) by (done || lia). rewrite (find_rel_split _ _ _ _ _ _ _ H).
  destruct (split_at evt_is_low_priority l) as [[[a x] b]|] eqn:Es.
  - apply split_at_Some in Es as (-> & _ & _). cbv zeta. split; [by destruct w|]. pose proof (ring_delete _ Q_pos _ _ _ _ _ _ _ H) as D.
    rewrite length_app in C. cbn [length] in C.
    apply (queue_fields _ (for_up (Z.to_nat (gw_ev_count w - 1 - Z.of_nat (length a))) (Z.of_nat (length a))
        (fun i evs => aset (ev_idx (gw_ev_head w) i) (aget evs (ev_idx (gw_ev_head w) (i + 1))) evs) (gw_events w))
      (gw_ev_head w) (ev_idx (gw_ev_tail w) (GUI_SRV_EVENT_Q - 1)) (gw_ev_count w - 1)); [reflexivity..|].
    rewrite ev_idx_eq by (unfold GUI_SRV_EVENT_Q; lia). replace (gw_ev_tail w + (GUI_SRV_EVENT_Q - 1)) with (gw_ev_tail w + GUI_SRV_EVENT_Q - 1) by lia.
    erewrite for_up_ext; [exact D|]. intros k evs Hk. cbv beta. rewrite !ev_idx_eq by lia. by rewrite Z.add_assoc.
  - destruct l as [|x l]; [done|]. cbv zeta. split; [by destruct w|]. destruct (ring_pop _ Q_pos _ _ _ _ _ _ H) as [_ P].
    apply (queue_fields _ (gw_events w) (ev_idx (gw_ev_head w) 1) (gw_ev_tail w) (gw_ev_count w - 1)); [reflexivity..|].
    rewrite ev_idx_eq by lia. exact P.
Qed.

Lemma evt_append_ok w l e : queue_shows w l -> gw_ev_count w < 128 ->
  same_window w (evt_append e w) /\ queue_shows (evt_append e w) (l ++ [e]).
Proof.
  intros H Hc. pose proof (queue_bounds w l H) as B. unfold evt_append. split; [by destruct w|].
  pose proof (ring_push _ Q_pos _ _ _ _ _ e H Hc) as P.
  apply (queue_fields _ (aset (gw_ev_tail w) e (gw_events w)) (gw_ev_head w) (ev_idx (gw_ev_tail w) 1) (gw_ev_count w + 1));
    [reflexivity..|]. rewrite ev_idx_eq by lia. exact P.
Qed.

Lemma evt_enqueue_ok e w l t : queue_shows w l ->
  let r := evt_enqueue e w t in
  same_window w r.1 /\ queue_shows r.1 (queue_put GUI_SRV_EVENT_Q evt_is_low_priority same_gui e l).
Proof.
  intros H. pose proof (queue_bounds w l H) as B. pose proof (rr_count _ _ _ _ _ _ H) as [C C']. unfold evt_enqueue, queue_put.
  assert (forall b : bool, (match last l with Some x => evt_is_low_priority e && same_gui x e | None => false end) = b ->
     evt_coalesces e w = b) as Hco.
  { intros b <-. unfold evt_coalesces. destruct (last_cases l) as [->|(l0 & x & ->)].
    - cbn in C. by rewrite (proj2 (Z.ltb_ge 0 _)) by lia.
    - rewrite last_snoc. rewrite length_app in C. cbn in C. rewrite (proj2 (Z.ltb_lt 0 _)) by lia. cbn [andb]. rewrite ev_idx_eq by (unfold GUI_SRV_EVENT_Q; lia).
      replace (gw_ev_tail w + (GUI_SRV_EVENT_Q - 1)) with (gw_ev_tail w + GUI_SRV_EVENT_Q - 1) by lia.
      by destruct (ring_replace_last _ Q_pos _ _ _ _ _ _ e H) as [-> _]. }
  assert (evt_coalesces e w = false -> let r := (let '(w, t) := if GUI_SRV_EVENT_Q <=? gw_ev_count w then evt_make_room w t else (w, t) in (evt_append e w, t)) in
     same_window w r.1 /\ queue_shows r.1 (make_room GUI_SRV_EVENT_Q evt_is_low_priority l ++ [e])) as Hput.
  { intros _. unfold make_room. rewrite <- C. destruct (Z.leb_spec GUI_SRV_EVENT_Q (gw_ev_count w)) as [Hf|Hf].
    - rewrite (proj2 (Z.ltb_ge _ _)) by lia. destruct (evt_make_room_ok w l t H) as [S1 H1]; [intros ->; cbn in C; unfold GUI_SRV_EVENT_Q in Hf; lia|].
      destruct (evt_make_room w t) as [w1 t1]. cbn [fst] in *. pose proof (rr_count _ _ _ _ _ _ H1) as [C1 _].
      destruct (evt_append_ok w1 _ e H1) as [S2 H2]; [|split; [by eapply same_window_trans|done]].
      rewrite C1. pose proof (make_room_length GUI_SRV_EVENT_Q Q_pos evt_is_low_priority l ltac:(lia)) as Hm. unfold make_room in Hm.
      rewrite <- C, (proj2 (Z.ltb_ge _ _)) in Hm by lia. exact Hm.
    - rewrite (proj2 (Z.ltb_lt _ _)) by lia. by apply evt_append_ok. }
  destruct (last_cases l) as [->|(l0 & x & ->)]; [rewrite (Hco false eq_refl); by apply Hput, Hco|].
  rewrite last_snoc in *. destruct (evt_is_low_priority e && same_gui x e) eqn:Eb.
  - rewrite (Hco true eq_refl). split; [by destruct w|]. unfold queue_shows. fields. cbn [fst gw_events gw_ev_head gw_ev_tail gw_ev_count].
    rewrite ev_idx_eq by (unfold GUI_SRV_EVENT_Q; lia). replace (gw_ev_tail w + (GUI_SRV_EVENT_Q - 1)) with (gw_ev_tail w + GUI_SRV_EVENT_Q - 1) by lia.
    destruct (ring_replace_last _ Q_pos _ _ _ _ _ _ e H) as [_ R]. rewrite removelast_last. exact R.
  - rewrite (Hco false eq_refl). by apply Hput, Hco.
Qed.

(** * Pixel buffers *)

(** A buffer of [n] words that no access has left. *)
Definition clean (n : Z) (p : pixmem) : Prop := zlen p.1 = n /\ p.2 = false.

Lemma clean_pput n i c p : clean n p -> 0 <= i < n -> clean n (pput i c p).
Proof.
  intros [L F] Hi. unfold pput, inside. rewrite L, (proj2 (Z.leb_le 0 i)), (proj2 (Z.ltb_lt i n)) by lia. cbn [andb].
  split; [|done]. cbn [fst]. unfold zlen in *. by rewrite length_aset.
Qed.

Lemma clean_loop n k f p : clean n p -> (forall i p, 0 <= i < k -> clean n p -> clean n (f i p)) -> clean n (loop k f p).
Proof. intros C Hf. unfold loop. apply for_up_preserves; [done|]. intros i p' Hi. apply Hf. lia. Qed.

Lemma clean_up n k i f p : clean n p -> (forall j p, i <= j < i + k -> clean n p -> clean n (f j p)) -> clean n (for_up (Z.to_nat k) i f p).
Proof. intros C Hf. apply for_up_preserves; [done|]. intros j p' Hj. apply Hf. lia. Qed.

Lemma pixel_index W H r c : 0 <= r < H -> 0 <= c < W -> 0 <= r * W + c < W * H.
Proof. nia. Qed.

(** The client area of a window fits its buffer, whose indices are [int]s. *)
Definition area_ok (w : gui_window) : Prop :=
  0 < gw_client_w w /\ 0 < gw_client_h w /\ gw_client_w w * gw_client_h w < 0x40000000.

Definition area (w : gui_window) : Z := gw_client_w w * gw_client_h w.

Lemma area_small w r c : area_ok w -> 0 <= r < gw_client_h w -> 0 <= c < gw_client_w w ->
  i32 (r * gw_client_w w + c) = r * gw_client_w w + c /\ 0 <= r * gw_client_w w + c < area w.
Proof.
  intros (A1 & A2 & A3) Hr Hc. pose proof (pixel_index (gw_client_w w) (gw_client_h w) r c Hr Hc). unfold area.
  split; [|done]. apply i32_fits. lia.
Qed.

Lemma clean_at w r c v p : area_ok w -> 0 <= r < gw_client_h w -> 0 <= c < gw_client_w w -> clean (area w) p ->
  clean (area w) (pput (i32 (r * gw_client_w w + c)) v p).
Proof. intros A Hr Hc C. destruct (area_small w r c A Hr Hc) as [-> ?]. by apply clean_pput. Qed.

(** A rectangle inside the client area. *)
Definition in_client (w : gui_window) (x y rw rh : Z) : Prop :=
  0 <= x /\ 0 <= y /\ x + rw <= gw_client_w w /\ y + rh <= gw_client_h w.

Lemma area_dims w : area_ok w -> gw_client_w w < 0x40000000 /\ gw_client_h w < 0x40000000.
Proof. intros (A1 & A2 & A3). nia. Qed.

Lemma clip_ok w x y rw rh x' y' rw' rh' : area_ok w -> clip_rect_to_client w x y rw rh = Some (x', y', rw', rh') ->
  in_client w x' y' rw' rh' /\ 0 < rw' /\ 0 < rh'.
Proof.
  intros A. destruct (area_dims w A) as [D1 D2]. unfold clip_rect_to_client. destruct (_ || _); [done|].
  set (x1 := if gw_client_w w <? i32 (x + rw) then _ else _). set (y1 := if gw_client_h w <? i32 (y + rh) then _ else _).
  assert (x1 <= gw_client_w w) as Hx1 by (subst x1; destruct (Z.ltb_spec (gw_client_w w) (i32 (x + rw))); lia).
  assert (y1 <= gw_client_h w) as Hy1 by (subst y1; destruct (Z.ltb_spec (gw_client_h w) (i32 (y + rh))); lia).
  clearbody x1 y1. set (x0 := if x <? 0 then _ else _). set (y0 := if y <? 0 then _ else _).
  assert (0 <= x0 /\ 0 <= y0) as [Hx0 Hy0] by (subst x0 y0; destruct (Z.ltb_spec x 0), (Z.ltb_spec y 0); lia). clearbody x0 y0.
  destruct ((x1 <=? x0) || (y1 <=? y0)) eqn:E; [done|]. apply orb_false_iff in E as [E1%Z.leb_gt E2%Z.leb_gt].
  intros [= <- <- <- <-]. rewrite !i32_fits by lia. unfold in_client. lia.
Qed.

Lemma fill_rect_clean w x y rw rh c p : area_ok w -> in_client w x y rw rh -> clean (area w) p -> clean (area w) (fill_rect w x y rw rh c p).
Proof.
  intros A (I1 & I2 & I3 & I4) C. apply clean_loop; [done|]. intros r p' Hr C'. apply clean_loop; [done|]. intros k p'' Hk C''.
  apply clean_at; lia || done.
Qed.

Lemma fill_rounded_clean w x y rw rh rad c p : area_ok w -> in_client w x y rw rh -> clean (area w) p ->
  clean (area w) (fill_rounded w x y rw rh rad c p).
Proof.
  intros A (I1 & I2 & I3 & I4) C. apply clean_up; [done|]. intros r p' Hr C'. apply clean_up; [done|]. intros k p'' Hk C''.
  cbv zeta. destruct (_ || _); [|done]. apply clean_at; lia || done.
Qed.

Lemma blit_image_clean w px sx sy st x y rw rh p : area_ok w -> in_client w x y rw rh -> clean (area w) p ->
  clean (area w) (blit_image w px sx sy st x y rw rh p).
Proof.
  intros A (I1 & I2 & I3 & I4) C. apply clean_loop; [done|]. intros r p' Hr C'. apply clean_loop; [done|]. intros k p'' Hk C''.
  apply clean_at; lia || done.
Qed.

Lemma draw_char_clean w x y c col p : area_ok w -> clean (area w) p -> clean (area w) (draw_char_to_buffer w x y c col p).
Proof.
  intros A C. unfold draw_char_to_buffer. destruct (gw_pixels w); [|done]. destruct (128 <=? c); [done|].
  apply clean_loop; [done|]. intros r p' _ C'. destruct ((i32 (y + r) <? 0) || _) eqn:Ey; [done|].
  apply orb_false_iff in Ey as [Ey1%Z.ltb_ge Ey2%Z.leb_gt]. apply clean_loop; [done|]. intros k p'' _ C''.
  destruct ((i32 (x + k) <? 0) || _) eqn:Ex; [done|]. apply orb_false_iff in Ex as [Ex1%Z.ltb_ge Ex2%Z.leb_gt].
  destruct (Z.testbit _ _); [|done]. by apply clean_at.
Qed.

Lemma draw_text_clean w text x y i col p : area_ok w -> clean (area w) p -> clean (area w) (draw_text_loop text w x y i col p).
Proof.
  intros A. revert i p. induction text as [|c text IH]; intros i p C; cbn [draw_text_loop]; [done|]. apply IH. by apply draw_char_clean.
Qed.

Lemma copy_pixels_clean new_w new_h copy_w copy_h old old_w p :
  0 < new_w -> 0 < new_h -> new_w * new_h < 0x40000000 -> copy_w <= new_w -> copy_h <= new_h ->
  copy_w <= old_w -> copy_h * old_w <= zlen old -> zlen old < 0x40000000 ->
  clean (new_w * new_h) p -> clean (new_w * new_h) (copy_pixels new_w copy_w copy_h old old_w p).
Proof.
  intros H1 H2 H3 H4 H5 H6 H7 H8 C. apply clean_loop; [done|]. intros r p' Hr C'. apply clean_loop; [done|]. intros k p'' Hk C''. cbv zeta.
  assert (0 <= r * old_w + k < zlen old) as Hi by nia. rewrite (i32_fits (r * old_w + k)) by lia. unfold inside.
  rewrite (proj2 (Z.leb_le 0 _)), (proj2 (Z.ltb_lt _ (zlen old))) by lia. cbn [andb].
  pose proof (pixel_index new_w new_h r k ltac:(lia) ltac:(lia)). rewrite i32_fits by lia. by apply clean_pput.
Qed.

(** * Windows *)

Definition pixels_ok (w : gui_window) : Prop := exists a px, gw_pixels w = Some (a, px) /\ zlen px = area w.

Record gw_ok (w : gui_window) : Prop := {
  go_area : area_ok w;
  go_pixels : pixels_ok w;
  go_queue : exists l, queue_shows w l;
}.

Lemma same_window_ok w w' l : same_window w w' -> queue_shows w' l -> gw_ok w -> gw_ok w'.
Proof.
  intros S Q [A P _]. split; [|unfold pixels_ok, area|by exists l].
  - unfold area_ok. rewrite S. exact A.
  - rewrite S. exact P.
Qed.

Lemma open_clean w : gw_ok w -> clean (area w) (open_pixels w).
Proof. intros [_ (a & px & E & L) _]. unfold open_pixels. by rewrite E. Qed.

Lemma close_ok w p : gw_ok w -> clean (area w) p -> gw_ok (close_pixels w p).
Proof.
  intros [A (a & px & E & L) Q] [Lp _]. unfold close_pixels. rewrite E. split; [done| |done]. by exists a, p.1.
Qed.

(** What the windows need of the heap: a block it serves below 4 GiB has the size asked for.
    ([kmalloc] of [src/mm] cuts larger sizes to 32 bits.) *)
Class HeapSmall (B : Type) `{Heap B} : Prop :=
  heap_small : forall n (b : B) a d b', kmalloc n b = (Some (a, d), b') -> 0 <= n < 0x100000000 -> zlen d = n.
#[export] Instance heap_laws_small {B} `{HeapLaws B} : HeapSmall B.
Proof. intros n b a d b' E Hn. by apply (kmalloc_block n b a d b' E); lia. Qed.

Section inv.
Context {B : Type} `{Heap B} `{!HeapSmall B}.
Implicit Types (m : wm) (g : gui B).

Definition gslot (k : Z) : Prop := 0 <= k < 32.

(** What the service promises about its own tables. *)
Record gui_local g : Prop := {
  gl_len : length (g_windows g) = 32%nat;
  gl_fault : g_fault g = false;
  gl_next : 1 <= g_next_handle g < 0x80000000;
  gl_used k : gslot k -> gw_used (gw g k) = 0 \/ gw_used (gw g k) = 1;
  gl_events k : gslot k -> length (gw_events (gw g k)) = 128%nat;
  gl_ok k : gslot k -> gw_used (gw g k) = 1 -> gw_ok (gw g k);
  gl_handle k : gslot k -> gw_used (gw g k) = 1 -> 1 <= gw_handle (gw g k) < g_next_handle g;
  gl_handles j k : gslot j -> gslot k -> gw_used (gw g j) = 1 -> gw_used (gw g k) = 1 -> gw_handle (gw g j) = gw_handle (gw g k) -> j = k;
}.

(** A window in the window manager that stays until the service destroys it. *)
Definition wm_linked m (l : list Z) (i : Z) : Prop :=
  In i l /\ w_handle_event (win m i) = GUI_WINDOW_EVENT /\ w_draw_content (win m i) = GUI_WINDOW_DRAW
  /\ has_flag (win m i) WM_FLAG_AUTOCLOSE = false.

Record gui_linked m (l : list Z) g : Prop := {
  gk_win k : gslot k -> gw_used (gw g k) = 1 -> exists i, gw_wm_win (gw g k) = Some i /\ wm_linked m l i;
  gk_unique j k : gslot j -> gslot k -> gw_used (gw g j) = 1 -> gw_used (gw g k) = 1 -> gw_wm_win (gw g j) = gw_wm_win (gw g k) -> j = k;
}.

Definition gui_ok m (l : list Z) g : Prop := gui_local g /\ gui_linked m l g.

Lemma gw_set_gw g k w j : length (g_windows g) = 32%nat -> gslot k -> gslot j ->
  gw (set_gw k w g) j = if decide (j = k) then w else gw g j.
Proof.
  unfold gslot. intros L Hk Hj. unfold gw, set_gw. fields. cbn [g_windows]. destruct (decide (j = k)) as [->|Hne].
  - apply aget_aset_eq. lia.
  - apply aget_aset_ne; lia.
Qed.

Definition same_id (w w' : gui_window) : Prop :=
  gw_used w' = gw_used w /\ gw_handle w' = gw_handle w /\ gw_owner_pid w' = gw_owner_pid w /\ gw_wm_win w' = gw_wm_win w.

Lemma local_set g k w : gui_local g -> gslot k -> same_id (gw g k) w -> (gw_used (gw g k) = 1 -> gw_ok w) ->
  length (gw_events w) = 128%nat -> gui_local (set_gw k w g).
Proof.
  intros K Hk (I1 & I2 & I3 & I4) Ok Le. pose proof K as [L F Nx U Ev O Ha Hu].
  split; [unfold set_gw; fields; cbn; by rewrite length_aset|done|done| | | | |].
  - intros j Hj. rewrite gw_set_gw by done. case_decide; [subst; rewrite I1|]; auto.
  - intros j Hj. rewrite gw_set_gw by done. case_decide; auto.
  - intros j Hj. rewrite gw_set_gw by done. case_decide; [rewrite I1|]; auto.
  - intros j Hj. rewrite gw_set_gw by done. case_decide; [subst; rewrite I1, I2|]; by apply Ha.
  - intros i j Hi Hj. rewrite !gw_set_gw by done. destruct (decide (i = k)) as [->|], (decide (j = k)) as [->|]; rewrite ?I1, ?I2; auto.
Qed.

Lemma linked_set m l g k w : gui_local g -> gui_linked m l g -> gslot k -> same_id (gw g k) w -> gui_linked m l (set_gw k w g).
Proof.
  intros Kl [W U] Hk (I1 & I2 & I3 & I4). pose proof (gl_len _ Kl) as L. split.
  - intros j Hj. rewrite gw_set_gw by done. case_decide; [subst; rewrite I1, I4|]; by apply W.
  - intros i j Hi Hj. rewrite !gw_set_gw by done. destruct (decide (i = k)) as [->|], (decide (j = k)) as [->|]; rewrite ?I1, ?I4; auto.
Qed.

Lemma ok_set m l g k w : gui_ok m l g -> gslot k -> same_id (gw g k) w -> (gw_used (gw g k) = 1 -> gw_ok w) ->
  length (gw_events w) = 128%nat -> gui_ok m l (set_gw k w g).
Proof. intros [K1 K2] Hk S O Le. split; [by apply local_set|by apply linked_set]. Qed.

Lemma gui_ext m l g g' : gui_ok m l g -> g_windows g' = g_windows g -> g_next_handle g' = g_next_handle g -> g_fault g' = g_fault g -> gui_ok m l g'.
Proof.
  intros [[L F Nx U Ev O Ha Hu] [W Un]] E1 E2 E3. assert (forall k, gw g' k = gw g k) as Hg by (intros; unfold gw; by rewrite E1).
  split; split; rewrite ?E1, ?E2, ?E3; try done; intros *; rewrite !Hg; auto.
Qed.

(** The window manager's own steps keep the links. *)
Lemma linked_stable m l m' l' g : evolves m l m' l' -> gui_linked m l g -> gui_linked m' l' g.
Proof.
  intros E [W U]. split; [|done]. intros k Hk Hu. destruct (W k Hk Hu) as (i & Ei & Hi & Hh & Hd & Ha).
  destruct (E i Hi Ha) as (? & ? & ? & ?). exists i. split; [done|]. split_and!; [done|congruence|congruence|done].
Qed.

(** ** Queue writes *)

Lemma on_window_ok m l k f g : gui_ok m l g -> gslot k ->
  (forall w t, gw_used w = 1 -> gw_ok w -> same_id w (f w t).1 /\ gw_ok (f w t).1) ->
  gw_used (gw g k) = 1 -> gui_ok m l (on_window k f g).
Proof.
  intros K Hk Hf Hu. unfold on_window. destruct (Hf (gw g k) (g_totals g) Hu (gl_ok _ (proj1 K) k Hk Hu)) as [S O].
  destruct (f (gw g k) (g_totals g)) as [w t]. cbn [fst] in *.
  assert (gui_ok m l (g <| g_totals := t |>)) as K1 by by eapply gui_ext.
  apply ok_set; [done|done|exact S|done|]. destruct O as [_ _ (q & [Lq _ _ _ _])]. unfold GUI_SRV_EVENT_Q in Lq. lia.
Qed.

Lemma on_window_used k f g : gui_local g -> gslot k -> (forall w t, gw_used w = 1 -> gw_ok w -> same_id w (f w t).1 /\ gw_ok (f w t).1) ->
  gw_used (gw g k) = 1 -> gw_used (gw (on_window k f g) k) = 1.
Proof.
  intros K Hk Hf Hu. unfold on_window. destruct (Hf (gw g k) (g_totals g) Hu (gl_ok _ K k Hk Hu)) as [(S & _) _].
  destruct (f (gw g k) (g_totals g)) as [w t]. cbn [fst] in *. rewrite gw_set_gw by (try done; apply (gl_len _ K)). by rewrite decide_True, S.
Qed.

Lemma evt_enqueue_good e w t : gw_used w = 1 -> gw_ok w -> same_id w (evt_enqueue e w t).1 /\ gw_ok (evt_enqueue e w t).1.
Proof.
  intros _ O. pose proof O as [_ _ (q & Q)]. destruct (evt_enqueue_ok e w q t Q) as [S Q']. split.
  - unfold same_id. by rewrite S.
  - by eapply same_window_ok.
Qed.

Lemma pending_good w v : gw_ok w -> gw_ok (w <| gw_dirty_pending := v |>).
Proof. intros [A P Q]. by split. Qed.

Lemma queue_paint_good x y w' h w t : gw_used w = 1 -> gw_ok w ->
  same_id w (queue_paint_event x y w' h w t).1 /\ gw_ok (queue_paint_event x y w' h w t).1.
Proof. intros U O. unfold queue_paint_event. 
  pose (w1 := w <| gw_dirty_pending := 1 |>). assert (gw_ok w1) as O1 by by apply pending_good.
  exact (evt_enqueue_good (mkGuiEvent INPUT_EVENT_PAINT (gw_handle w) x y 0 w' h) w1 t U O1).
Qed.

(** ** Reallocation *)

Lemma le_words_length bytes n : 0 <= n -> zlen bytes = n * 4 -> zlen (le_words bytes) = n.
Proof.
  intros Hn. revert bytes. apply (natlike_ind (fun n => forall bytes, zlen bytes = n * 4 -> zlen (le_words bytes) = n)); [| |done].
  - intros [|a bytes]; [done|]. rewrite zlen_cons. pose proof (zlen_nonneg bytes). lia.
  - intros k Hk IH bytes Hb. destruct bytes as [|a [|b [|c [|d bytes]]]]; unfold zlen in *; cbn [length le_words] in *; try lia.
    rewrite Nat2Z.inj_succ, IH; lia.
Qed.

(** Unless a buffer of 4 GiB or more was asked for, a reallocation fails without effect on the tables
    or gives the window a buffer of the new size. *)
Lemma realloc_ok k new_w new_h g : gslot k -> 0 <= new_w < 0x80000000 -> 0 <= new_h < 0x80000000 ->
  length (g_windows g) = 32%nat ->
  gw_pixels (gw g k) = None \/ (area_ok (gw g k) /\ pixels_ok (gw g k)) ->
  let '(r, g') := reallocate_client_buffer k new_w new_h g in
  g_huge g' = true \/
  (r <> GUI_OK /\ exists b, g' = g <| g_heap := b |>) \/
  (r = GUI_OK /\ exists b a px, g' = set_gw k (gw g k <| gw_pixels := Some (a, px) |> <| gw_client_w := new_w |> <| gw_client_h := new_h |>) (g <| g_heap := b |>)
     /\ zlen px = new_w * new_h /\ 0 < new_w /\ 0 < new_h /\ new_w * new_h < 0x40000000).
Proof.
  intros Hk Hw Hh Lw Hold. unfold reallocate_client_buffer. destruct (_ || _) eqn:E0; [right; left; split; [done|]; exists (g_heap g); by destruct g|].
  apply orb_false_iff in E0 as [E0%Z.leb_gt E1%Z.leb_gt]. assert (is_u64 (new_w * new_h * 4)) as Hu by (unfold is_u64; nia). rewrite (u64_id _ Hu).
  destruct (Z.leb_spec 0x100000000 (new_w * new_h * 4)) as [_|Hlt].
  { destruct (kmalloc _ _) as [[[a bytes]|] b]; [|cbv zeta iota; left; apply orb_true_r].
    cbv zeta iota. destruct (gw_pixels _) as [[oa old]|]; left; apply orb_true_r. }
  rewrite orb_false_r.
  destruct (kmalloc (new_w * new_h * 4) (g_heap g)) as [[[a bytes]|] b] eqn:Ek; [|right; left; split; [done|by exists b]].
  pose proof (heap_small _ _ _ _ _ Ek ltac:(lia)) as Lb. change (g <| g_heap := b |> <| g_huge := g_huge g |>) with (g <| g_heap := b |>).
  set (p0 := loop (i32 (new_w * new_h)) _ _).
  assert (clean (new_w * new_h) p0) as C0.
  { subst p0. rewrite i32_fits by lia. apply clean_loop; [split; [apply le_words_length; [nia|exact Lb]|done]|]. intros i p Hi C. by apply clean_pput. }
  clearbody p0. change (gw (g <| g_heap := b |>) k) with (gw g k).
  assert (exists p b', (match gw_pixels (gw g k) with
        | Some (old_a, old) =>
            (copy_pixels new_w (if new_w <? gw_client_w (gw g k) then new_w else gw_client_w (gw g k))
               (if new_h <? gw_client_h (gw g k) then new_h else gw_client_h (gw g k)) old (gw_client_w (gw g k)) p0, (g <| g_heap := b |>) <| g_heap := kfree old_a (g_heap (g <| g_heap := b |>)) |>)
        | None => (p0, g <| g_heap := b |>)
        end) = (p, g <| g_heap := b' |>) /\ clean (new_w * new_h) p) as (p & b' & -> & [Lp Fp]).
  { destruct (gw_pixels (gw g k)) as [[oa old]|] eqn:Ep; [|eexists _, _; by split]. eexists _, _. split; [reflexivity|].
    destruct Hold as [?|((A1 & A2 & A3) & (a' & px & Ep' & Lpx))]; [done|]. rewrite Ep in Ep'. injection Ep' as <- <-. unfold area in Lpx.
    apply copy_pixels_clean with (new_h := new_h); try done; try lia;
      destruct (Z.ltb_spec new_w (gw_client_w (gw g k))), (Z.ltb_spec new_h (gw_client_h (gw g k))); nia. }
  cbn beta iota. right. right. split; [done|]. exists b', a, p.1. split; [|split_and!; [done|lia|lia|lia]]. rewrite Fp. unfold fault_if, set_gw. fields. cbn. by rewrite orb_false_r.
Qed.
End inv.
