(* ===== verification/GuiOps.v ===== *)
(** The window service's calls keep its invariant, together with the window manager's; its window
    callback discharges the contract the window manager expects of handlers. *)

From S2P Require Import Prelude CString Memfs Ring Event Font Wm WmInv WmOps GuiSrv GuiInv.

(** The kernel's own window handlers: they may open windows and redraw, but leave the service's
    tables and other windows alone. *)
Class KernelAppsLaws (B : Type) `{Heap B} `{!KernelApps (B := B)} := {
  app_keeps f i ev m l (g : gui B) : f <> GUI_WINDOW_EVENT -> wm_ok m l -> In i l ->
    exists l' m' b fb, app_event f i ev m g = (m', g <| g_heap := b |> <| g_fb := fb |>) /\
      wm_ok m' l' /\ evolves m l m' l' /\ (forall j, In j l -> In j l');
}.

Section ops.
Context {B : Type} `{Heap B} `{!HeapSmall B} `{!KernelApps (B := B)} `{!KernelAppsLaws B}.
Implicit Types (m : wm) (g : gui B).

Lemma used_one g k : gui_local g -> gslot k -> negb (gw_used (gw g k) =? 0) = true -> gw_used (gw g k) = 1.
Proof. intros K Hk Hu. destruct (gl_used _ K k Hk) as [E|E]; [|done]. by rewrite E in Hu. Qed.

Lemma find_handle_ok g handle k : gui_local g -> find_slot_by_handle handle g = Some k ->
  gslot k /\ gw_used (gw g k) = 1 /\ gw_handle (gw g k) = handle.
Proof.
  intros K Hf. apply find_index_Some in Hf as (Hr & Hp & _). rewrite (gl_len _ K) in Hr. apply andb_true_iff in Hp as [Hu Hh%Z.eqb_eq].
  split; [done|]. split; [by apply used_one|done].
Qed.

Lemma find_wm_ok g i k : gui_local g -> find_slot_by_wm i g = Some k -> gslot k /\ gw_used (gw g k) = 1 /\ gw_wm_win (gw g k) = Some i.
Proof.
  intros K Hf. apply find_index_Some in Hf as (Hr & Hp & _). rewrite (gl_len _ K) in Hr. apply andb_true_iff in Hp as [Hu Hh%bool_decide_eq_true_1].
  split; [done|]. split; [by apply used_one|done].
Qed.

Lemma own_slot_ok g pid handle k : gui_local g -> own_slot pid handle g = inr k ->
  gslot k /\ gw_used (gw g k) = 1 /\ gw_handle (gw g k) = handle /\ gw_owner_pid (gw g k) = pid.
Proof.
  intros K. unfold own_slot. destruct (find_slot_by_handle handle g) as [j|] eqn:Ef; [|done].
  destruct (Z.eqb_spec (gw_owner_pid (gw g j)) pid); [|done]. intros [= <-]. by destruct (find_handle_ok g handle j K Ef) as (? & ? & ?).
Qed.

(** * The event callback *)

Lemma ok_heap m l g b : gui_ok m l g -> gui_ok m l (g <| g_heap := b |>).
Proof. intros K. by eapply gui_ext. Qed.

(** What holds of the service after any step: its invariant, unless a buffer of 4 GiB or more was
    asked for. *)
Definition gui_env m (l : list Z) g : Prop := g_huge g = true \/ gui_ok m l g.

Lemma realloc_good m l g k new_w new_h : gui_ok m l g -> gslot k -> gw_used (gw g k) = 1 ->
  0 <= new_w < 0x80000000 -> 0 <= new_h < 0x80000000 ->
  let '(r, g') := reallocate_client_buffer k new_w new_h g in
  g_huge g' = true \/ (gui_ok m l g' /\ gw_used (gw g' k) = 1).
Proof.
  intros K Hk Hu Hw Hh. pose proof (gl_ok _ (proj1 K) k Hk Hu) as O. pose proof (gl_len _ (proj1 K)) as L.
  pose proof (realloc_ok k new_w new_h g Hk Hw Hh L (or_intror (conj (go_area _ O) (go_pixels _ O)))) as R.
  destruct (reallocate_client_buffer k new_w new_h g) as [r g']. destruct R as [?|R]; [by left|right].
  destruct R as [[_ [b ->]]|(_ & b & a & px & -> & Lp & P1 & P2 & P3)].
  - split; [by apply ok_heap|done].
  - split; [|by rewrite gw_set_gw, decide_True].
    apply ok_set; [by apply ok_heap|done|done| |apply (gl_events _ (proj1 K) k Hk)]. intros _.
    split; [by split_and!| |apply O]. by exists a, px.
Qed.

(** No step forgets that too much was asked for. *)
Lemma on_window_huge k f g : g_huge (on_window k f g) = g_huge g.
Proof. unfold on_window. by destruct (f _ _). Qed.

Lemma realloc_huge k new_w new_h g : g_huge g = true -> g_huge (snd (reallocate_client_buffer k new_w new_h g)) = true.
Proof.
  intros E. unfold reallocate_client_buffer. destruct (_ || _); [done|].
  destruct (kmalloc _ _) as [[[a bytes]|] b]; [|cbn; by rewrite E].
  change (gw (_ <| g_heap := b |> <| g_huge := _ |>) k) with (gw g k).
  destruct (gw_pixels (gw g k)) as [[oa old]|]; cbn; by rewrite E.
Qed.

Lemma gui_window_event_huge i ev g : g_huge g = true -> g_huge (gui_window_event i ev g) = true.
Proof.
  intros E. unfold gui_window_event. destruct (find_slot_by_wm i g) as [k|]; [|done].
  set (out0 := mkGuiEvent _ _ _ _ _ _ _). set (r := if _ && _ then _ else (out0, g)).
  assert (g_huge (snd r) = true) as Er.
  { subst r. destruct (_ && _); [|done]. pose proof (realloc_huge k (i32 (ie_x ev)) (i32 (ie_y ev)) g E) as R.
    destruct (reallocate_client_buffer _ _ _ g) as [rc g1]. destruct (rc =? GUI_OK); [|done]. cbn [snd]. by rewrite on_window_huge. }
  clearbody r. destruct r as [out g1]. rewrite on_window_huge. by destruct (_ =? _).
Qed.

Lemma gui_window_event_ok m l i ev g : gui_ok m l g -> gui_env m l (gui_window_event i ev g).
Proof.
  intros K. unfold gui_window_event. destruct (find_slot_by_wm i g) as [k|] eqn:Ef; [|by right].
  destruct (find_wm_ok g i k (proj1 K) Ef) as (Hk & Hu & _). set (out0 := mkGuiEvent _ _ _ _ _ _ _).
  assert (exists out g1, (if (ie_event_id ev =? INPUT_EVENT_RESIZE) && ((0 <? i32 (ie_x ev)) && (0 <? i32 (ie_y ev))) then
          let '(r, g) := reallocate_client_buffer k (i32 (ie_x ev)) (i32 (ie_y ev)) g in
          if r =? GUI_OK then
            (out0 <| ge_x := 0 |> <| ge_y := 0 |> <| ge_data1 := i32 (ie_x ev) |> <| ge_data2 := i32 (ie_y ev) |>,
             on_window k (queue_paint_event 0 0 (i32 (ie_x ev)) (i32 (ie_y ev))) (set_gw k (gw g k <| gw_dirty_pending := 1 |>) g))
          else (out0, g)
        else (out0, g)) = (out, g1) /\ (g_huge g1 = true \/ (gui_ok m l g1 /\ gw_used (gw g1 k) = 1))) as (out & g1 & -> & KU).
  { destruct (_ && _) eqn:Ec; [|exists out0, g; split; [done|right]; by split].
    apply andb_true_iff in Ec as [_ Ec]. apply andb_true_iff in Ec as [Ex%Z.ltb_lt Ey%Z.ltb_lt].
    pose proof (i32_range (ie_x ev)). pose proof (i32_range (ie_y ev)).
    pose proof (realloc_good m l g k (i32 (ie_x ev)) (i32 (ie_y ev)) K Hk Hu ltac:(lia) ltac:(lia)) as R.
    destruct (reallocate_client_buffer _ _ _ g) as [r g1]. destruct (r =? GUI_OK); [|by exists out0, g1].
    eexists _, _. split; [done|]. set (g2 := set_gw k _ g1).
    destruct R as [R|[K1 U1]]; [left; by rewrite on_window_huge|right].
    assert (gui_ok m l g2) as K2.
    { apply ok_set; [done|done|done| |apply (gl_events _ (proj1 K1) k Hk)]. intros _. apply pending_good. by apply (gl_ok _ (proj1 K1)). }
    assert (gw_used (gw g2 k) = 1) as U2 by (subst g2; rewrite gw_set_gw, decide_True by (try done; apply (gl_len _ (proj1 K1))); done).
    split; [apply on_window_ok; try done; intros; by apply queue_paint_good|]. apply on_window_used; [apply K2|done| |done]. intros. by apply queue_paint_good. }
  set (g2 := if _ =? INPUT_EVENT_CLOSE then _ else g1).
  destruct KU as [Hh|[K1 U1]]; [left; rewrite on_window_huge; subst g2; by destruct (_ =? _)|right].
  assert (gui_ok m l g2 /\ gw_used (gw g2 k) = 1) as [K2 U2].
  { subst g2. destruct (_ =? _); [|done]. split.
    - apply ok_set; [done|done|done| |apply (gl_events _ (proj1 K1) k Hk)]. intros _. destruct (gl_ok _ (proj1 K1) k Hk U1). by split.
    - by rewrite gw_set_gw, decide_True by (try done; apply (gl_len _ (proj1 K1))). }
  apply on_window_ok; try done. intros. by apply evt_enqueue_good.
Qed.

(** The implementation of the window manager's contract. *)
#[export] Instance gui_wm_laws : WmEnvLaws (gui B).
Proof.
  refine {| env_inv m l g := gui_env m l g |}.
  - intros m l m' l' g _ _ E [?|[K1 K2]]; [by left|right]. split; [done|]. by eapply linked_stable.
  - intros m l p g [?|K]; [by left|right]. by apply ok_heap.
  - intros m l i ev g K I Hi. unfold call_handle_event, gui_wm_env. destruct (Z.eqb_spec (w_handle_event (win m i)) GUI_WINDOW_EVENT) as [E|E].
    + exists l, m, (gui_window_event i ev g). split_and!; [done|done| |apply evolves_refl|done].
      destruct I as [I|I]; [left; by apply gui_window_event_huge|by apply gui_window_event_ok].
    + destruct (app_keeps _ i ev m l g E K Hi) as (l' & m' & b & fb & -> & K' & Ev & S). exists l', m', (g <| g_heap := b |> <| g_fb := fb |>).
      split_and!; [done|done| |done|done]. destruct I as [I|[I1 I2]]; [by left|right].
      apply gui_ext with g; [split; [done|by eapply linked_stable]|done|done|done].
Defined.

(** * Calls that keep the set of windows *)

Definition joint m (l : list Z) g : Prop := wm_ok m l /\ gui_ok m l g.

(** Steps of the window manager alone, for the service. *)
Lemma env_ok m l g : gui_ok m l g -> env_inv m l g.
Proof. by right. Qed.
Lemma good_keep_gui m l m' l' g : gui_ok m l g -> good_keep m l m' l' g ->
  wm_ok m' l' /\ gui_ok m' l' g /\ evolves m l m' l' /\ (forall j, In j l -> In j l').
Proof.
  intros [G1 G2] [(K & _ & E) S]. split; [done|]. split; [|done]. split; [done|]. by apply (linked_stable m l).
Qed.

(** The windows of other processes are untouched. *)
Definition others (pid : Z) g g' : Prop :=
  forall j, gslot j -> gw_used (gw g j) = 1 -> gw_owner_pid (gw g j) <> pid -> gw g' j = gw g j.

Lemma others_refl pid g : others pid g g.
Proof. by intros j. Qed.
Lemma others_trans pid g1 g2 g3 : others pid g1 g2 -> others pid g2 g3 -> others pid g1 g3.
Proof. intros A Bo j Hj Hu Ho. rewrite Bo; rewrite ?A; done. Qed.
Lemma others_set pid g k w : length (g_windows g) = 32%nat -> gslot k -> gw_owner_pid (gw g k) = pid -> others pid g (set_gw k w g).
Proof. intros L Hk Ho j Hj Hu Hne. rewrite gw_set_gw by done. case_decide; [congruence|done]. Qed.

(** A call by [pid] leaves a good joint state and the windows of others alone, unless it asked for a
    buffer of 4 GiB or more. *)
Definition call_ok (pid : Z) g m' g' : Prop :=
  g_huge g' = true \/ ((exists l', joint m' l' g') /\ others pid g g').

Lemma call_ok_refl pid m l g : joint m l g -> call_ok pid g m g.
Proof. intros J. right. split; [by exists l|apply others_refl]. Qed.

(** A step of the window manager next to a write of an owned window. *)
Lemma call_step pid m l g k w m' : joint m l g -> gslot k -> gw_owner_pid (gw g k) = pid -> same_id (gw g k) w ->
  (gw_used (gw g k) = 1 -> gw_ok w) -> length (gw_events w) = 128%nat -> good_keep m l m' l g -> call_ok pid g m' (set_gw k w g).
Proof.
  intros [K G] Hk Ho S Ok Le Gk. destruct (good_keep_gui _ _ _ _ _ G Gk) as (K' & G' & _). right. split.
  - exists l. split; [done|]. by apply ok_set.
  - apply others_set; [apply (gl_len _ (proj1 G))|done|done].
Qed.

Lemma events_len g k : gui_local g -> gslot k -> length (gw_events (gw g k)) = 128%nat.
Proof. intros K Hk. by apply gl_events. Qed.

Lemma mark_dirty_call pid handle x y w h m l g : joint m l g ->
  let '(_, m', g') := gui_srv_mark_dirty pid handle x y w h m g in call_ok pid g m' g'.
Proof.
  intros J. pose proof J as [K G]. unfold gui_srv_mark_dirty. destruct (own_slot pid handle g) as [err|k] eqn:Eo; [by eapply call_ok_refl|].
  destruct (own_slot_ok g pid handle k (proj1 G) Eo) as (Hk & Hu & _ & Ho).
  destruct (clip_rect_to_client _ _ _ _ _) as [[[[mx my] mw] mh]|]; [|by eapply call_ok_refl].
  rewrite gw_set_gw by (try done; apply (gl_len _ (proj1 G))). rewrite decide_True by done.
  destruct (gk_win _ _ _ (proj2 G) k Hk Hu) as (i & Ei & _). change (gw_wm_win (field_set _ _)) with (gw_wm_win (gw g k)). rewrite Ei.
  destruct (wm_client_rect (win m i)) as [[[cx cy] cw] ch].
  eapply call_step; [done|done|done|done| |by apply events_len, Hk; apply G|by apply good_mark_rect, env_ok].
  intros _. apply pending_good. by apply (gl_ok _ (proj1 G)).
Qed.

Lemma draw_on_ok m l g k f : gui_ok m l g -> gslot k -> gw_used (gw g k) = 1 ->
  (forall p, clean (area (gw g k)) p -> clean (area (gw g k)) (f p)) ->
  gui_ok m l (draw_on k f g) /\ draw_on k f g = set_gw k (close_pixels (gw g k) (f (open_pixels (gw g k)))) g.
Proof.
  intros G Hk Hu Hf. pose proof (gl_ok _ (proj1 G) k Hk Hu) as O. pose proof (Hf _ (open_clean _ O)) as [Lp Fp].
  assert (draw_on k f g = set_gw k (close_pixels (gw g k) (f (open_pixels (gw g k)))) g) as E.
  { unfold draw_on. rewrite Fp. unfold fault_if, set_gw. fields. cbn. by rewrite orb_false_r. }
  split; [|done]. rewrite E. pose proof O as [_ (a & px & Ep & _) _]. apply ok_set; [done|done| | |].
  - unfold close_pixels. rewrite Ep. done.
  - intros _. by apply close_ok.
  - unfold close_pixels. rewrite Ep. apply (gl_events _ (proj1 G) k Hk).
Qed.

(** Drawing into an owned window and marking it dirty. *)
Lemma draw_call pid handle k f x y w h m l g : joint m l g -> own_slot pid handle g = inr k ->
  (area_ok (gw g k) -> forall p, clean (area (gw g k)) p -> clean (area (gw g k)) (f p)) ->
  let '(_, m', g') := gui_srv_mark_dirty pid handle x y w h m (draw_on k f g) in call_ok pid g m' g'.
Proof.
  intros [K G] Eo Hf. destruct (own_slot_ok g pid handle k (proj1 G) Eo) as (Hk & Hu & _ & Ho).
  destruct (draw_on_ok m l g k f G Hk Hu (Hf (go_area _ (gl_ok _ (proj1 G) k Hk Hu)))) as [G1 E].
  pose proof (mark_dirty_call pid handle x y w h m l _ (conj K G1)) as D. destruct (gui_srv_mark_dirty _ _ _ _ _ _ _ _) as [[r m'] g'].
  destruct D as [?|[D1 D2]]; [by left|right]. split; [done|]. eapply others_trans; [|exact D2]. rewrite E. apply others_set; [apply (gl_len _ (proj1 G))|done|done].
Qed.

Lemma draw_rect_call pid handle x y w h c m l g : joint m l g ->
  let '(_, m', g') := gui_srv_draw_rect pid handle x y w h c m g in call_ok pid g m' g'.
Proof.
  intros J. unfold gui_srv_draw_rect. destruct (own_slot pid handle g) as [err|k] eqn:Eo; [by eapply call_ok_refl|].
  destruct (clip_rect_to_client _ _ _ _ _) as [[[[mx my] mw] mh]|] eqn:Ec; [|by eapply call_ok_refl].
  eapply draw_call; [done|done|]. intros A p Hp. destruct (clip_ok _ _ _ _ _ _ _ _ _ A Ec) as [I _]. by apply fill_rect_clean.
Qed.

Lemma draw_rounded_call pid handle x y w h rad c m l g : joint m l g ->
  let '(_, m', g') := gui_srv_draw_rounded_rect pid handle x y w h rad c m g in call_ok pid g m' g'.
Proof.
  intros J. unfold gui_srv_draw_rounded_rect. destruct (own_slot pid handle g) as [err|k] eqn:Eo; [by eapply call_ok_refl|].
  destruct (clip_rect_to_client _ _ _ _ _) as [[[[mx my] mw] mh]|] eqn:Ec; [|by eapply call_ok_refl].
  eapply draw_call; [done|done|]. intros A p Hp. destruct (clip_ok _ _ _ _ _ _ _ _ _ A Ec) as [I _]. by apply fill_rounded_clean.
Qed.

Lemma draw_text_call pid handle x y text c m l g : joint m l g ->
  let '(_, m', g') := gui_srv_draw_text pid handle x y text c m g in call_ok pid g m' g'.
Proof.
  intros J. unfold gui_srv_draw_text. destruct text as [text|]; [|by eapply call_ok_refl].
  destruct (own_slot pid handle g) as [err|k] eqn:Eo; [by eapply call_ok_refl|].
  eapply draw_call; [done|done|]. intros A p Hp. by apply draw_text_clean.
Qed.

(** The sums the image clipping computes are [int]s. *)
Definition image_fits (x y w h : Z) : Prop :=
  -0x80000000 <= x /\ -0x80000000 <= y /\ x + w < 0x80000000 /\ y + h < 0x80000000 /\ w < 0x80000000 /\ h < 0x80000000.

(** Clipping an image on one axis. *)
Lemma clip_axis x w client (r : Z * Z * Z) : -0x80000000 <= x -> x + w < 0x80000000 -> w < 0x80000000 -> 0 < w -> 0 < client < 0x40000000 ->
  r = (if x <? 0 then (i32 (- x), i32 (w + x), 0) else (0, w, x)) ->
  let draw := if client <? i32 (r.2 + r.1.2) then i32 (client - r.2) else r.1.2 in
  0 < draw -> 0 <= r.2 /\ r.2 + draw <= client.
Proof.
  intros H1 H2 H3 H4 H5 ->. destruct (Z.ltb_spec x 0); cbn [fst snd].
  - rewrite (i32_fits (w + x)) by lia. rewrite Z.add_0_l, Z.sub_0_r. rewrite !i32_fits by lia. destruct (Z.ltb_spec client (w + x)); lia.
  - rewrite (i32_fits (x + w)) by lia. destruct (Z.ltb_spec client (x + w)); [|lia]. rewrite i32_fits by lia. lia.
Qed.

Lemma draw_image_call pid handle x y w h px m l g : joint m l g -> image_fits x y w h ->
  let '(_, m', g') := gui_srv_draw_image pid handle x y w h px m g in call_ok pid g m' g'.
Proof.
  intros J (F1 & F2 & F3 & F4 & F5 & F6). unfold gui_srv_draw_image. destruct px as [px|]; [|by eapply call_ok_refl].
  destruct (_ || _) eqn:E0; [by eapply call_ok_refl|]. apply orb_false_iff in E0 as [E0%Z.leb_gt E1%Z.leb_gt].
  destruct (own_slot pid handle g) as [err|k] eqn:Eo; [by eapply call_ok_refl|].
  pose proof J as [_ [Kl _]]. destruct (own_slot_ok g pid handle k Kl Eo) as (Hk & Hu & _ & _).
  pose proof (go_area _ (gl_ok _ Kl k Hk Hu)) as A. destruct (area_dims _ A) as [D1 D2]. pose proof A as (A1 & A2 & _).
  set (rx := if x <? 0 then _ else _). set (ry := if y <? 0 then _ else _).
  pose proof (clip_axis x w (gw_client_w (gw g k)) rx ltac:(lia) ltac:(lia) ltac:(lia) ltac:(lia) ltac:(lia) eq_refl) as Cx.
  pose proof (clip_axis y h (gw_client_h (gw g k)) ry ltac:(lia) ltac:(lia) ltac:(lia) ltac:(lia) ltac:(lia) eq_refl) as Cy.
  destruct rx as [[src_x dw] dx], ry as [[src_y dh] dy]. cbn [fst snd] in Cx, Cy.
  set (dw' := if _ <? i32 (dx + dw) then _ else _) in *. set (dh' := if _ <? i32 (dy + dh) then _ else _) in *.
  destruct ((dw' <=? 0) || (dh' <=? 0)) eqn:E2; [by eapply call_ok_refl|]. apply orb_false_iff in E2 as [E2%Z.leb_gt E3%Z.leb_gt].
  destruct (Cx E2), (Cy E3). eapply draw_call; [done|done|]. intros _ p Hp. apply blit_image_clean; [done| |done]. by split_and!.
Qed.

Lemma set_title_call pid handle title m l g : joint m l g ->
  let '(_, m', g') := gui_srv_window_set_title pid handle title m g in call_ok pid g m' g'.
Proof.
  intros J. pose proof J as [K G]. unfold gui_srv_window_set_title. destruct title as [t|]; [|by eapply call_ok_refl].
  destruct (own_slot pid handle g) as [err|k] eqn:Eo; [by eapply call_ok_refl|].
  destruct (own_slot_ok g pid handle k (proj1 G) Eo) as (Hk & Hu & _ & Ho).
  destruct (gk_win _ _ _ (proj2 G) k Hk Hu) as (i & -> & Hi & _).
  eapply call_step; [done|done|done|done| |by apply events_len, Hk; apply G|].
  - intros Hu'. destruct (gl_ok _ (proj1 G) k Hk Hu) as [A P Q]. by split.
  - cbn [wm_set_title]. set (m1 := set_win i _ m). assert (good_keep m l m1 l g) as G1 by (apply good_set_win; try done; by apply env_ok).
    destruct (good_keep_l _ _ _ _ _ G1) as (K1 & I1 & _). eapply good_keep_trans; [exact G1|by apply good_mark].
Qed.

Lemma set_resizable_good m l i r g : wm_ok m l -> gui_ok m l g -> In i l -> good_keep m l (wm_set_resizable (Some i) r m) l g.
Proof.
  intros K G%env_ok Hi. cbn [wm_set_resizable]. set (m1 := set_win i _ m). assert (good_keep m l m1 l g) as G1.
  { destruct (r =? 0); apply good_set_win; try done;
      [apply (has_clear_flag _ 4 1); lia|apply (has_clear_flag _ 4 5); lia|apply (has_set_flag _ 4 1); lia|apply (has_set_flag _ 4 5); lia]. }
  destruct (good_keep_l _ _ _ _ _ G1) as (K1 & I1 & _). eapply good_keep_trans; [exact G1|by apply good_mark].
Qed.

Lemma set_resizable_call pid handle r m l g : joint m l g ->
  let '(_, m', g') := gui_srv_window_set_resizable pid handle r m g in call_ok pid g m' g'.
Proof.
  intros J. pose proof J as [K G]. unfold gui_srv_window_set_resizable.
  destruct (own_slot pid handle g) as [err|k] eqn:Eo; [by eapply call_ok_refl|].
  destruct (own_slot_ok g pid handle k (proj1 G) Eo) as (Hk & Hu & _ & Ho).
  destruct (gk_win _ _ _ (proj2 G) k Hk Hu) as (i & -> & Hi & _).
  eapply call_step; [done|done|done|done| |by apply events_len, Hk; apply G|by apply set_resizable_good].
  intros Hu'. destruct (gl_ok _ (proj1 G) k Hk Hu) as [A P Q]. by split.
Qed.

Lemma get_event_call pid handle out m l g : joint m l g ->
  let '(_, g') := gui_srv_get_event pid handle out g in call_ok pid g m g'.
Proof.
  intros J. pose proof J as [K G]. unfold gui_srv_get_event. destruct (negb out); [by eapply call_ok_refl|].
  destruct (own_slot pid handle g) as [err|k] eqn:Eo; [by eapply call_ok_refl|].
  destruct (own_slot_ok g pid handle k (proj1 G) Eo) as (Hk & Hu & _ & Ho). destruct (Z.eqb_spec (gw_ev_count (gw g k)) 0) as [E0|E0]; [by eapply call_ok_refl|].
  pose proof (gl_ok _ (proj1 G) k Hk Hu) as O. pose proof O as [A P (q & Q)]. pose proof (queue_bounds _ _ Q) as Bq.
  destruct q as [|e q]; [destruct Q as [_ _ _ [C _] _]; cbn in C; lia|]. destruct (ring_pop _ Q_pos _ _ _ _ _ _ Q) as [Ee Q'].
  set (w := if _ =? INPUT_EVENT_PAINT then _ else _).
  assert (w = gw g k <| gw_ev_head := ev_idx (gw_ev_head (gw g k)) 1 |> <| gw_ev_count := gw_ev_count (gw g k) - 1 |> <| gw_dirty_pending := gw_dirty_pending w |>) as Ew
    by (subst w; by destruct (_ =? _)).
  eapply call_step; [done|done|done|by rewrite Ew| |rewrite Ew; apply (gl_events _ (proj1 G) k Hk)|by apply good_refl, env_ok].
  intros _. rewrite Ew. split; [done|done|]. exists q. unfold queue_shows. fields. cbn. rewrite ev_idx_eq by lia. exact Q'.
Qed.
End ops.
