(* ===== verification/GuiProps.v ===== *)
(** What the window service and the window manager promise together: creation, destruction and
    process exit, and every run of system calls and input events. *)

From S2P Require Import Prelude CString Memfs Ring Event Font Wm WmInv WmOps GuiSrv GuiInv GuiOps.

Section props.
Context {B : Type} `{Heap B} `{!HeapSmall B} `{!KernelApps (B := B)} `{!KernelAppsLaws B}.
Implicit Types (m : wm) (g : gui B).

(** * Replacing one slot *)

Lemma gw_put g g' k w j : length (g_windows g) = 32%nat -> gslot k -> gslot j -> g_windows g' = aset k w (g_windows g) ->
  gw g' j = if decide (j = k) then w else gw g j.
Proof. intros L Hk Hj E. rewrite <- (gw_set_gw g k w j L Hk Hj). unfold gw. rewrite E. done. Qed.

Lemma local_put g g' k w : gui_local g -> gslot k -> g_windows g' = aset k w (g_windows g) -> g_fault g' = false ->
  g_next_handle g <= g_next_handle g' < 0x80000000 -> length (gw_events w) = 128%nat ->
  gw_used w = 0 \/ (gw_used w = 1 /\ gw_ok w /\ 1 <= gw_handle w < g_next_handle g'
    /\ forall j, gslot j -> j <> k -> gw_used (gw g j) = 1 -> gw_handle (gw g j) <> gw_handle w) -> gui_local g'.
Proof.
  intros K Hk E F N Le D. pose proof K as [L _ Nx U Ev O Ha Hu].
  assert (forall j, gslot j -> gw g' j = if decide (j = k) then w else gw g j) as P by (intros; by apply gw_put).
  split; [by rewrite E, length_aset|done|lia| | | | |].
  - intros j Hj. rewrite P by done. case_decide; [destruct D as [?|(? & _)]; auto|auto].
  - intros j Hj. rewrite P by done. case_decide; auto.
  - intros j Hj. rewrite P by done. case_decide; [|auto]. intros Hw. destruct D as [?|(_ & ? & _)]; [congruence|done].
  - intros j Hj. rewrite P by done. case_decide.
    + intros Hw. destruct D as [?|(_ & _ & ? & _)]; [congruence|done].
    + intros Hw. specialize (Ha j Hj Hw). lia.
  - intros i j Hi Hj. rewrite !P by done. destruct (decide (i = k)) as [->|Ni], (decide (j = k)) as [->|Nj]; intros Ui Uj Eh; [done| | |by apply Hu].
    + destruct D as [?|(_ & _ & _ & Q)]; [congruence|]. by destruct (Q j Hj Nj Uj).
    + destruct D as [?|(_ & _ & _ & Q)]; [congruence|]. by destruct (Q i Hi Ni Ui).
Qed.

Lemma linked_put m l m' l' g g' k w : gui_local g -> gui_linked m l g -> gslot k -> g_windows g' = aset k w (g_windows g) ->
  (forall j i, gslot j -> j <> k -> gw_used (gw g j) = 1 -> gw_wm_win (gw g j) = Some i -> wm_linked m l i -> wm_linked m' l' i) ->
  gw_used w <> 1 \/ (exists i, gw_wm_win w = Some i /\ wm_linked m' l' i
    /\ forall j, gslot j -> j <> k -> gw_used (gw g j) = 1 -> gw_wm_win (gw g j) <> Some i) -> gui_linked m' l' g'.
Proof.
  intros K [W U] Hk E S D. pose proof (gl_len _ K) as L.
  assert (forall j, gslot j -> gw g' j = if decide (j = k) then w else gw g j) as P by (intros; by apply gw_put). split.
  - intros j Hj. rewrite P by done. case_decide as Dj; intros Hu.
    + destruct D as [?|(i & Ei & Li & _)]; [done|]. by exists i.
    + destruct (W j Hj Hu) as (i & Ei & Li). exists i. split; [done|]. by apply (S j).
  - intros i j Hi Hj. rewrite !P by done. destruct (decide (i = k)) as [->|Ni], (decide (j = k)) as [->|Nj]; intros Ui Uj Eh; [done| | |by apply U].
    + destruct D as [?|(n & En & _ & Q)]; [done|]. destruct (Q j Hj Nj Uj). congruence.
    + destruct D as [?|(n & En & _ & Q)]; [done|]. destruct (Q i Hi Ni Ui). congruence.
Qed.

Lemma linked_data m l m' l' i : wm_linked m l i -> In i l' -> same_data (win m i) (win m' i) -> wm_linked m' l' i.
Proof. intros (Hi & E1 & E2 & E3) Hi' [E Ea]. split_and!; [done|by rewrite E|by rewrite E|by rewrite Ea]. Qed.

(** * Destruction *)

Definition dead_slot (w : gui_window) : gui_window :=
  w <| gw_used := 0 |> <| gw_wm_win := None |> <| gw_pixels := None |> <| gw_client_w := 0 |>
    <| gw_client_h := 0 |> <| gw_title := [] |> <| gw_resizable := 1 |> <| gw_dirty_pending := 0 |>
    <| gw_close_policy_autoclose := 0 |> <| gw_close_requested := 0 |> <| gw_dropped_events := 0 |>
    <| gw_dropped_low_priority := 0 |> <| gw_dropped_oldest := 0 |> <| gw_enqueued_events := 0 |> <| gw_ev_count := 0 |>.

Lemma window_destroy_ok pid handle m l g k : joint m l g -> own_slot pid handle g = inr k ->
  exists m' l' g', gui_srv_window_destroy pid handle m g = (GUI_OK, m', g') /\ joint m' l' g'
    /\ g_windows g' = aset k (dead_slot (gw g k)) (g_windows g) /\ g_next_handle g' = g_next_handle g.
Proof.
  intros [K [Gl Gk]] Eo. destruct (own_slot_ok g pid handle k Gl Eo) as (Hk & Hu & _ & Ho).
  unfold gui_srv_window_destroy. rewrite Eo. destruct (gk_win _ _ _ Gk k Hk Hu) as (i & Ei & Li). rewrite Ei.
  change (field_set (proj := gw_ev_count) _ _) with (dead_slot (gw g k)). set (g1 := set_gw k (dead_slot (gw g k)) g).
  pose proof Li as [Hi _]. destruct (in_split _ _ Hi) as (l1 & l2 & ->). pose proof (wm_destroy_window_ok m l1 i l2 g1 K) as D.
  destruct (NoDup_middle _ _ _ (zo_nodup _ _ (ok_order _ _ K))) as (_ & W1 & W2 & _).
  destruct (wm_destroy_window (Some i) m g1) as [m' g2]. destruct D as (K' & Dd & E2).
  eexists m', (l1 ++ l2), _. split; [reflexivity|]. set (g3 := match gw_pixels (gw g k) with Some _ => _ | None => g2 end).
  assert (g_windows g3 = g_windows g1 /\ g_next_handle g3 = g_next_handle g /\ g_fault g3 = g_fault g) as (E3 & E4 & E5).
  { subst g3 g2. destruct (gw_pixels (gw g k)) as [[??]|], (_ =? 0); done. }
  assert (g_windows g3 = aset k (dead_slot (gw g k)) (g_windows g)) as E3' by by rewrite E3.
  split; [|done]. split; [done|]. split.
  - eapply local_put; [exact Gl|exact Hk|exact E3'|by rewrite E5; apply Gl| | |by left].
    + rewrite E4. pose proof (gl_next _ Gl). lia.
    + apply (gl_events _ Gl k Hk).
  - eapply linked_put; [exact Gl|exact Gk|exact Hk|exact E3'| |by left].
    intros j n Hj Hne Huj En Ln. assert (n <> i) as Hni by (intros ->; apply Hne; apply (gk_unique _ _ _ Gk); [done..|congruence]).
    assert (In n (l1 ++ l2)) as Hn by (destruct Ln as [Hn _]; rewrite in_app_iff in *; cbn in Hn; destruct Hn as [?|[?|?]]; [by left|congruence|by right]).
    eapply linked_data; [exact Ln|done|by apply Dd].
Qed.

Lemma window_destroy_call pid handle m l g : joint m l g ->
  let '(_, m', g') := gui_srv_window_destroy pid handle m g in call_ok pid g m' g'.
Proof.
  intros J. destruct (own_slot pid handle g) as [err|k] eqn:Eo.
  - unfold gui_srv_window_destroy. rewrite Eo. by eapply call_ok_refl.
  - destruct (own_slot_ok g pid handle k (proj1 (proj2 J)) Eo) as (Hk & Hu & _ & Ho).
    destruct (window_destroy_ok pid handle m l g k J Eo) as (m' & l' & g' & -> & J' & E & _). right. split; [by exists l'|].
    intros j Hj Huj Hne. rewrite (gw_put g g' k _ j (gl_len _ (proj1 (proj2 J))) Hk Hj E). case_decide; [congruence|done].
Qed.

(** * Process exit *)

Definition owned (pid : Z) (w : gui_window) : bool := negb (gw_used w =? 0) && (gw_owner_pid w =? pid).

Lemma filter_aset_lt (p : gui_window -> bool) k w ws : 0 <= k < Z.of_nat (length ws) -> p (aget ws k) = true -> p w = false ->
  (length (List.filter p (aset k w ws)) < length (List.filter p ws))%nat.
Proof.
  intros Hk Hp Hw. unfold aget, aset in *. set (n := Z.to_nat k) in *. assert (n < length ws)%nat as Hn by lia. clearbody n. clear Hk.
  revert n Hp Hn. induction ws as [|a ws IH]; intros n Hp Hn; [cbn in Hn; lia|]. destruct n as [|n].
  - cbn in *. rewrite Hp, Hw. cbn. lia.
  - cbn in Hp, Hn. specialize (IH n Hp ltac:(lia)). change (<[S n := w]> (a :: ws)) with (a :: <[n := w]> ws). cbn [List.filter].
    destruct (p a); cbn [length]; lia.
Qed.

Lemma own_slot_owned pid m l g k : joint m l g -> gslot k -> owned pid (gw g k) = true -> own_slot pid (gw_handle (gw g k)) g = inr k.
Proof.
  intros [_ [Gl _]] Hk Ho. apply andb_true_iff in Ho as [Hu Hp%Z.eqb_eq]. pose proof (used_one g k Gl Hk Hu) as Hu1.
  unfold own_slot. destruct (find_slot_by_handle (gw_handle (gw g k)) g) as [j|] eqn:Ef.
  - destruct (find_handle_ok g _ j Gl Ef) as (Hj & Huj & Eh). assert (j = k) as -> by (by apply (gl_handles _ Gl)). by rewrite Hp, Z.eqb_refl.
  - exfalso. unfold find_slot_by_handle in Ef. rewrite find_index_None in Ef. specialize (Ef k). rewrite (gl_len _ Gl) in Ef. specialize (Ef Hk). cbv beta in Ef.
    change (aget (g_windows g) k) with (gw g k) in Ef. by rewrite Hu, Z.eqb_refl in Ef.
Qed.

Lemma cleanup_loop_ok pid n m l g : joint m l g -> (length (List.filter (owned pid) (g_windows g)) <= n)%nat ->
  exists m' l' g', cleanup_loop n pid m g = Some (m', g') /\ joint m' l' g' /\ others pid g g' /\
    (forall j, gslot j -> owned pid (gw g' j) = false) /\ g_next_handle g' = g_next_handle g.
Proof.
  revert m l g. induction n as [n IH] using lt_wf_ind. intros m l g J Hn. pose proof J as [K [Gl Gk]].
  destruct (find_index (owned pid) (g_windows g)) as [k|] eqn:Ef.
  - pose proof Ef as Ef'. apply find_index_Some in Ef as (Hk & Ho & _). change (aget (g_windows g) k) with (gw g k) in Ho. pose proof Hk as Hk'.
    rewrite (gl_len _ Gl) in Hk. pose proof (own_slot_owned pid m l g k J Hk Ho) as Eo.
    destruct (own_slot_ok g pid _ k Gl Eo) as (_ & Hu & _ & Hp). pose proof (gl_handle _ Gl k Hk Hu) as Hh.
    assert (0 < length (List.filter (owned pid) (g_windows g)))%nat as Hpos.
    { pose proof (filter_aset_lt (owned pid) k (dead_slot (gw g k)) (g_windows g) Hk' Ho eq_refl). lia. }
    destruct n as [|n]; [lia|]. cbn [cleanup_loop]. unfold owned in Ef'. rewrite Ef'. rewrite (proj2 (Z.ltb_ge _ 0)) by lia.
    destruct (window_destroy_ok pid _ m l g k J Eo) as (m1 & l1 & g1 & -> & J1 & E1 & N1).
    destruct (IH n ltac:(lia) m1 l1 g1 J1) as (m' & l' & g' & -> & J' & O' & D' & N').
    { rewrite E1. pose proof (filter_aset_lt (owned pid) k (dead_slot (gw g k)) (g_windows g) Hk' Ho eq_refl). lia. }
    exists m', l', g'. split; [done|]. split; [done|]. split; [|split; [done|congruence]].
    eapply others_trans; [|exact O']. intros j Hj Huj Hne. rewrite (gw_put g g1 k _ j (gl_len _ Gl) Hk Hj E1). case_decide; [congruence|done].
  - exists m, l, g. split; [|split; [done|split; [apply others_refl|split; [|done]]]].
    + unfold owned in Ef. destruct n; cbn [cleanup_loop]; by rewrite Ef.
    + intros j Hj. rewrite find_index_None in Ef. apply Ef. by rewrite (gl_len _ Gl).
Qed.

Lemma filter_length_le' (p : gui_window -> bool) ws : (length (List.filter p ws) <= length ws)%nat.
Proof. induction ws as [|a ws IH]; cbn; [done|]. destruct (p a); cbn; lia. Qed.

Lemma process_cleanup_ok pid m l g : joint m l g ->
  exists m' l' g', gui_srv_process_cleanup pid m g = Some (m', g') /\ joint m' l' g' /\ others pid g g' /\
    (forall j, gslot j -> owned pid (gw g' j) = false) /\ g_next_handle g' = g_next_handle g.
Proof.
  intros J. apply cleanup_loop_ok with l; [done|]. pose proof (filter_length_le' (owned pid) (g_windows g)). rewrite (gl_len _ (proj1 (proj2 J))) in *. done.
Qed.

(** * Creation *)

Lemma aset_twice {A} k (a b : A) l : aset k a (aset k b l) = aset k a l.
Proof. unfold aset. apply list_insert_insert_eq. Qed.

Lemma gw_set_eq g k w : length (g_windows g) = 32%nat -> gslot k -> gw (set_gw k w g) k = w.
Proof. intros L Hk. rewrite gw_set_gw by done. by rewrite decide_True. Qed.

(** A slot that [create_fill] has filled. *)
Lemma new_slot_ok pid i handle title w a px cw ch : length (gw_events w) = 128%nat ->
  zlen px = cw * ch -> 0 < cw -> 0 < ch -> cw * ch < 0x40000000 ->
  gw_ok (new_slot handle pid i title w <| gw_pixels := Some (a, px) |> <| gw_client_w := cw |> <| gw_client_h := ch |>).
Proof.
  intros Le Lp Hw Hh Ha. split; [by split_and!|by exists a, px|]. exists []. split; cbn; [by rewrite Le|by unfold GUI_SRV_EVENT_Q|done|by unfold GUI_SRV_EVENT_Q|lia].
Qed.

Lemma queue_paint_policy x y w' h w t : gw_ok w ->
  gw_close_policy_autoclose (queue_paint_event x y w' h w t).1 = gw_close_policy_autoclose w.
Proof.
  intros [_ _ (q & Q)]. unfold queue_paint_event. pose (w1 := w <| gw_dirty_pending := 1 |>). assert (queue_shows w1 q) as Q1 by exact Q.
  destruct (evt_enqueue_ok (mkGuiEvent INPUT_EVENT_PAINT (gw_handle w) x y 0 w' h) w1 q t Q1) as [S _]. fold w1. by rewrite S.
Qed.

Lemma create_fill_ok k pid i title cw ch m l m1 l1 g : gui_local g -> gui_linked m l g -> gslot k -> gw_used (gw g k) = 0 ->
  g_next_handle g < 0x7fffffff -> 0 <= cw < 0x80000000 -> 0 <= ch < 0x80000000 ->
  (forall j n, gslot j -> gw_used (gw g j) = 1 -> gw_wm_win (gw g j) = Some n -> wm_linked m l n -> n <> i /\ wm_linked m1 l1 n) ->
  wm_linked m1 l1 i ->
  match create_fill k pid i title cw ch (set_gw k (gw g k <| gw_used := 2 |>) g) with
  | (Some handle, g') => g_huge g' = true \/ (gui_ok m1 l1 g' /\ others pid g g' /\ gw_used (gw g' k) = 1
      /\ handle = g_next_handle g /\ gw_close_policy_autoclose (gw g' k) = 0)
  | (None, g') => g_huge g' = true \/ exists w, g_windows g' = aset k w (g_windows g) /\ gw_used w = 0 /\ length (gw_events w) = 128%nat
      /\ g_fault g' = false /\ g_next_handle g' = g_next_handle g + 1
  end.
Proof.
  intros Gl Gk Hk Hu Hn Hw Hh St Li. pose proof (gl_len _ Gl) as L. pose proof (gl_next _ Gl) as Nx. unfold create_fill.
  set (g1 := set_gw k _ g). change (g_next_handle g1) with (g_next_handle g). rewrite i32_fits by lia.
  set (g2 := g1 <| g_next_handle := g_next_handle g + 1 |>).
  assert (gw g2 k = gw g k <| gw_used := 2 |>) as E2 by (unfold g2; change (gw (set_gw k (gw g k <| gw_used := 2 |>) g) k = gw g k <| gw_used := 2 |>); by rewrite gw_set_gw, decide_True).
  rewrite E2. set (w3 := new_slot (g_next_handle g) pid i (title_or_app title) (gw g k <| gw_used := 2 |>)). set (g3 := set_gw k w3 g2).
  assert (length (g_windows g2) = 32%nat) as L2 by (unfold g2, g1, set_gw; fields; cbn; by rewrite length_aset).
  assert (gw g3 k = w3) as E3 by (unfold g3; by rewrite gw_set_gw, decide_True).
  assert (g_windows g3 = aset k w3 (g_windows g)) as W3 by apply aset_twice.
  assert (length (g_windows g3) = 32%nat) as L3 by (rewrite W3; by rewrite length_aset).
  pose proof (realloc_ok k cw ch g3 Hk Hw Hh L3 ltac:(left; by rewrite E3)) as R.
  destruct (reallocate_client_buffer k cw ch g3) as [r g4]. destruct R as [R|R].
  { destruct (negb (r =? GUI_OK)); [by left|]. left. by rewrite on_window_huge. }
  destruct R as [[Hr [b ->]]|(-> & b & a & px & -> & Lp & P1 & P2 & P3)].
  - rewrite (proj2 (Z.eqb_neq r GUI_OK) Hr). cbn [negb].
    right. exists (gw g3 k <| gw_used := 0 |> <| gw_wm_win := None |>). split_and!; [|done| |by apply (gl_fault _ Gl)|done].
    + change (aset k ((gw g3 k) <| gw_used := 0 |> <| gw_wm_win := None |>) (g_windows g3) = aset k ((gw g3 k) <| gw_used := 0 |> <| gw_wm_win := None |>) (g_windows g)).
      rewrite W3. apply aset_twice.
    + rewrite E3. apply (gl_events _ Gl k Hk).
  - cbn [Z.eqb negb GUI_OK]. change (negb (GUI_OK =? GUI_OK)) with false. cbn iota. rewrite E3. set (w4 := field_set (proj := gw_client_h) _ _). set (g4 := set_gw k w4 _).
    assert (gw_ok w4) as O4 by (apply new_slot_ok; try done; apply (gl_events _ Gl k Hk)).
    destruct (queue_paint_good 0 0 cw ch w4 (g_totals g4) eq_refl O4) as [(S1 & S2 & S3 & S4) O5].
    pose proof (queue_paint_policy 0 0 cw ch w4 (g_totals g4) O4) as S6.
    unfold on_window. assert (gw g4 k = w4) as -> by (apply gw_set_eq; [exact L3|exact Hk]).
    destruct (queue_paint_event 0 0 cw ch w4 (g_totals g4)) as [w5 t]. cbn [fst] in *. set (g5 := set_gw k w5 _).
    assert (g_windows g5 = aset k w5 (g_windows g)) as W5.
    { change (aset k w5 (aset k w4 (g_windows g3)) = aset k w5 (g_windows g)). by rewrite W3, !aset_twice. }
    assert (length (gw_events w5) = 128%nat) as L5.
    { destruct O5 as [_ _ (q & [Lq _ _ _ _])]. unfold GUI_SRV_EVENT_Q in Lq. lia. }
    right. split_and!.
    + split.
      * eapply local_put; [exact Gl|exact Hk|exact W5|by apply (gl_fault _ Gl)|change (g_next_handle g5) with (g_next_handle g + 1); lia|done|].
        right. rewrite S1, S2. change (g_next_handle g5) with (g_next_handle g + 1). split; [done|]. split; [done|]. split; [cbn; lia|].
        intros j Hj Hne Huj. pose proof (gl_handle _ Gl j Hj Huj). cbn. lia.
      * eapply linked_put; [exact Gl|exact Gk|exact Hk|exact W5| |].
        -- intros j n Hj _ Huj En Ln. by apply (St j n).
        -- right. exists i. rewrite S4. split; [done|]. split; [done|]. intros j Hj Hne Huj En.
           destruct (gk_win _ _ _ Gk j Hj Huj) as (n & En' & Ln). destruct (St j n Hj Huj En' Ln) as [Hni _]. congruence.
    + intros j Hj Huj _. rewrite (gw_put g g5 k w5 j) by done. case_decide; [congruence|done].
    + rewrite (gw_put g g5 k w5 k) by done. by rewrite decide_True, S1.
    + done.
    + rewrite (gw_put g g5 k w5 k) by done. by rewrite decide_True, S6.
Qed.

(** Giving a slot back. *)
Lemma slot_freed_ok pid m l g g' k w : joint m l g -> gslot k -> gw_used (gw g k) = 0 -> g_windows g' = aset k w (g_windows g) ->
  gw_used w = 0 -> length (gw_events w) = 128%nat -> g_fault g' = false -> g_next_handle g <= g_next_handle g' < 0x80000000 ->
  gui_ok m l g' /\ others pid g g'.
Proof.
  intros [K [Gl Gk]] Hk Hu E Hw Le F N. split; [split|].
  - eapply local_put; [exact Gl|exact Hk|exact E|done|done|done|by left].
  - eapply linked_put; [exact Gl|exact Gk|exact Hk|exact E|done|left; by rewrite Hw].
  - intros j Hj Huj _. rewrite (gw_put g g' k w j) by (try done; apply (gl_len _ Gl)). case_decide; [congruence|done].
Qed.

(** The end of a creation: the window cannot be closed by a click and is redrawn. *)
Lemma finish_window_ok m l i ac rs x y w h : wm_ok m l -> In i l ->
  w_handle_event (win m i) = GUI_WINDOW_EVENT -> w_draw_content (win m i) = GUI_WINDOW_DRAW -> ac = 0 ->
  let m' := wm_mark_dirty_rect x y w h (wm_set_resizable (Some i) rs (wm_set_autoclose (Some i) ac m)) in
  wm_ok m' l /\ wm_linked m' l i /\ forall j, In j l -> j <> i -> win m' j = win m j.
Proof.
  intros K Hi E1 E2 ->. pose proof (wm_ok_slot _ _ _ K Hi) as Si. cbv zeta. cbn [wm_set_autoclose wm_set_resizable]. change (0 =? 0) with true. cbn iota.
  set (w1 := clear_flag WM_FLAG_AUTOCLOSE (win m i)). assert (wm_ok (set_win i w1 m) l) as K1.
  { apply ok_set_win; try done. apply (has_clear_flag _ 5 1); lia. }
  assert (win (set_win i w1 m) i = w1) as -> by (rewrite win_set_win, decide_True; [done|done|by eapply ok_len|done|done]).
  set (w2 := (if rs =? 0 then clear_flag else set_flag) WM_FLAG_RESIZABLE w1).
  assert (same_data w1 w2) as [D2 A2] by (subst w2; destruct (rs =? 0); [by apply (clear_flag_data 4)|by apply (set_flag_data 4)]).
  assert (wm_ok (set_win i w2 (set_win i w1 m)) l) as K2.
  { apply ok_set_win; try done; rewrite ?win_set_win, ?decide_True by (try done; by eapply ok_len); [by subst w2; destruct (rs =? 0)|by subst w2; destruct (rs =? 0)| |].
    - unfold active. rewrite win_set_win, decide_True by (try done; by eapply ok_len). subst w2. destruct (rs =? 0); [apply (has_clear_flag _ 4 1); lia|apply (has_set_flag _ 4 1); lia].
    - by apply same_data_dims. }
  set (m2 := set_win i w2 _) in *. assert (forall j, slot j -> win m2 j = if decide (j = i) then w2 else win m j) as W2.
  { intros j Hj. subst m2. rewrite !win_set_win by (try done; by eapply ok_len). by case_decide. }
  split; [by apply ok_mark, ok_mark_window|]. split.
  - unfold wm_linked. rewrite mark_win, (mark_window_win (Some i)), W2, decide_True by done. rewrite A2.
    split_and!; [done|by rewrite D2|by rewrite D2|apply (has_clear_flag _ 5 5); lia].
  - intros j Hj Hne. rewrite mark_win, (mark_window_win (Some i)), W2 by by eapply wm_ok_slot. by rewrite decide_False.
Qed.

Lemma window_create_call pid title x y cw ch m l g : joint m l g -> g_next_handle g < 0x7fffffff -> cw < 0x80000000 -> ch < 0x80000000 ->
  let '(_, m', g') := gui_srv_window_create pid title x y cw ch m g in call_ok pid g m' g'.
Proof.
  intros J Hn Hw Hh. pose proof J as [K [Gl Gk]]. pose proof (gl_next _ Gl) as Nx. unfold gui_srv_window_create. destruct (_ || _) eqn:E0; [by eapply call_ok_refl|].
  apply orb_false_iff in E0 as [E0%Z.leb_gt E1%Z.leb_gt]. unfold create_reserve.
  destruct (find_index _ (g_windows g)) as [k|] eqn:Ef; [|by eapply call_ok_refl]. apply find_index_Some in Ef as (Hk & Hu & _).
  rewrite (gl_len _ Gl) in Hk. change (aget (g_windows g) k) with (gw g k) in Hu. apply Z.eqb_eq in Hu. cbv beta iota. set (g1 := set_gw k _ g).
  set (ow := i32 (cw + _)). set (oh := i32 (ch + _ + _)).
  pose proof (wm_create_window_ok m l x y ow oh (title_or_app title) GUI_WINDOW_DRAW GUI_WINDOW_EVENT 0 K) as Cw.
  destruct (wm_create_window x y ow oh _ _ _ _ m) as [[i|] m1]; cycle 1.
  { destruct Cw as [-> _]. destruct (slot_freed_ok pid m l g (set_gw k (gw g1 k <| gw_used := 0 |>) g1) k (gw g1 k <| gw_used := 0 |>) J Hk Hu) as [G' O'].
    - unfold g1 at 2, set_gw. fields. cbn [g_windows]. apply aset_twice.
    - done.
    - unfold g1. rewrite gw_set_gw, decide_True by (try done; apply (gl_len _ Gl)). apply (gl_events _ Gl k Hk).
    - by apply (gl_fault _ Gl).
    - change (g_next_handle (set_gw k (gw g1 k <| gw_used := 0 |>) g1)) with (g_next_handle g). lia.
    - right. split; [by exists l|done]. }
  destruct Cw as (Si & Hi & Sd & Eh & Ed & K1). assert (In i (l ++ [i])) as Hi' by (apply in_or_app; right; by left).
  assert (forall j n, gslot j -> gw_used (gw g j) = 1 -> gw_wm_win (gw g j) = Some n -> wm_linked m l n -> n <> i /\ wm_linked m1 (l ++ [i]) n) as St.
  { intros j n _ _ _ Ln. split; [intros ->; by destruct Ln|]. eapply linked_data; [exact Ln|apply in_or_app; left; apply Ln|apply Sd, Ln]. }
  pose (m2 x y w h rs := wm_mark_dirty_rect x y w h (wm_set_resizable (Some i) rs (wm_set_autoclose (Some i) 0 m1))).
  assert (forall x y w h rs, wm_ok (m2 x y w h rs) (l ++ [i]) /\ wm_linked (m2 x y w h rs) (l ++ [i]) i
    /\ forall n, wm_linked m1 (l ++ [i]) n -> n <> i -> wm_linked (m2 x y w h rs) (l ++ [i]) n) as F2.
  { intros. destruct (finish_window_ok m1 (l ++ [i]) i 0 rs x0 y0 w h K1 Hi' Eh Ed eq_refl) as (F1 & F2 & F3). split_and!; [done|done|].
    intros n (Hnl & L1 & L2 & L3) Hne. unfold wm_linked, m2. rewrite (F3 n Hnl Hne). done. }
  pose proof (fun x y w h rs => create_fill_ok k pid i title cw ch m l (m2 x y w h rs) (l ++ [i]) g Gl Gk Hk Hu Hn ltac:(lia) ltac:(lia)
    (fun j n Hj Huj En Ln => conj (proj1 (St j n Hj Huj En Ln)) (proj2 (proj2 (F2 x y w h rs)) n (proj2 (St j n Hj Huj En Ln)) (proj1 (St j n Hj Huj En Ln))))
    (proj1 (proj2 (F2 x y w h rs)))) as Cf. fold g1 in Cf.
  destruct (create_fill k pid i title cw ch g1) as [[handle|] g2]; cycle 1.
  - specialize (Cf 0 0 0 0 0).
    pose proof (wm_destroy_window_ok m1 l i [] g2 K1) as D. destruct (wm_destroy_window (Some i) m1 g2) as [m3 g3]. destruct D as (K3 & D3 & E3).
    destruct Cf as [Hhuge|(w & W & Uw & Lw & Fw & Nw)]; [left; rewrite E3; by destruct (_ =? 0)|].
    rewrite app_nil_r in K3. assert (good_keep m l m3 l g) as Gm.
    { apply good_step; [done|by apply env_ok|done|]. intros j Hj. split; [done|]. eapply same_data_trans; [by apply Sd|]. apply D3. by rewrite app_nil_r. }
    destruct (good_keep_gui _ _ _ _ _ (conj Gl Gk) Gm) as (_ & G3 & _).
    assert (g_windows g3 = g_windows g2 /\ g_fault g3 = g_fault g2 /\ g_next_handle g3 = g_next_handle g2) as (E4 & E5 & E6) by (rewrite E3; by destruct (_ =? 0)).
    destruct (slot_freed_ok pid m3 l g g3 k w (conj K3 G3) Hk Hu) as [G' O']; [by rewrite E4|done|done|by rewrite E5|rewrite E6, Nw; lia|].
    right. split; [by exists l|done].
  - destruct (Cf 0 0 0 0 0) as [?|(_ & _ & _ & _ & P0)]; [by left|]. rewrite P0. cbv zeta. fold (m2 0 0 0 0 0).
    set (ma := wm_set_resizable _ _ _). specialize (Cf (w_x (win ma i)) (w_y (win ma i)) (w_w (win ma i)) (w_h (win ma i)) (gw_resizable (gw g2 k))).
    destruct Cf as [?|(G' & O' & _)]; [by left|right]. split; [|done]. exists (l ++ [i]). split; [apply F2|exact G'].
Qed.

(** * Runs *)

(** Initialisation, on tables of the static sizes. *)
Definition gui_tables g : Prop :=
  length (g_windows g) = 32%nat /\ Forall (fun w => length (gw_events w) = 128%nat) (g_windows g) /\ g_fault g = false.

Lemma aget_Forall {A} `{!Inhabited A} (P : A -> Prop) (l : list A) k : Forall P l -> 0 <= k < Z.of_nat (length l) -> P (aget l k).
Proof.
  intros F Hk. unfold aget. destruct (lookup_lt_is_Some_2 l (Z.to_nat k)) as [x Hx]; [lia|]. rewrite (list_lookup_total_correct _ _ _ Hx).
  by eapply Forall_lookup_1.
Qed.

Lemma loop_inv {S} (I : Z -> S -> Prop) n f (s : S) : 0 <= n -> I 0 s -> (forall k s', 0 <= k < n -> I k s' -> I (k + 1) (f k s')) -> I n (loop n f s).
Proof.
  intros Hn H0' Hs. unfold loop. pose proof (for_up_inv I (Z.to_nat n) 0 f s H0') as HI. rewrite Z.add_0_l, Z2Nat.id in HI by done.
  apply HI. intros k s' Hk. apply Hs. lia.
Qed.

Lemma length_set_gw g k w : length (g_windows (set_gw k w g)) = length (g_windows g).
Proof. apply length_aset. Qed.

Definition init_inv (n : Z) g : Prop :=
  length (g_windows g) = 32%nat /\ g_fault g = false /\
  forall k, gslot k -> length (gw_events (gw g k)) = 128%nat /\ (k < n -> gw_used (gw g k) = 0).

Lemma init_inv_step k g : 0 <= k < GUI_SRV_MAX_WINDOWS -> init_inv k g -> init_inv (k + 1) (set_gw k (init_slot (gw g k)) g).
Proof.
  intros Hi (L & F & I). assert (gslot k) as Si by exact Hi. split; [by rewrite length_set_gw|]. split; [exact F|].
  intros j Hj. rewrite gw_set_gw by done. case_decide as D.
  - subst. split; [exact (proj1 (I k Si))|done].
  - destruct (I j Hj) as [I1 I2]. split; [exact I1|]. intros Hlt. apply I2. lia.
Qed.

Lemma init_loop_ok g : gui_tables g -> init_inv GUI_SRV_MAX_WINDOWS (loop GUI_SRV_MAX_WINDOWS (fun i g => set_gw i (init_slot (gw g i)) g) g).
Proof.
  intros (L & E & F). apply loop_inv; [done| |intros; by apply init_inv_step]. split; [done|]. split; [done|].
  intros k Hk. split; [|unfold gslot in Hk; lia]. apply (aget_Forall _ _ k E). rewrite L. exact Hk.
Qed.

(** All slots free. *)
Lemma all_free_ok g m : init_inv GUI_SRV_MAX_WINDOWS g -> g_next_handle g = 1 -> gui_ok m [] g.
Proof.
  intros (L & F & I) N. assert (forall k, gslot k -> gw_used (gw g k) = 0) as U by (intros k Hk; apply (I k Hk); apply Hk).
  split; split; [done|done|lia| | | | | | |].
  - intros k Hk. left. by apply U.
  - intros k Hk. apply (I k Hk).
  - intros k Hk. rewrite U by done. done.
  - intros k Hk. rewrite U by done. done.
  - intros j k Hj Hk. rewrite (U j) by done. done.
  - intros k Hk. rewrite U by done. done.
  - intros j k Hj Hk. rewrite (U j) by done. done.
Qed.

Lemma gui_init_ok g m : gui_tables g -> gui_ok m [] (gui_srv_init g).
Proof.
  intros T. pose proof (init_loop_ok g T) as I. unfold gui_srv_init. cbv zeta. revert I.
  generalize (loop GUI_SRV_MAX_WINDOWS (fun i g => set_gw i (init_slot (gw g i)) g) g). intros g1 I. by apply all_free_ok.
Qed.

Inductive gui_step :=
| StepSyscall (pid : Z) (um : user_mem) (cmd a2 a3 a4 a5 : Z)   (* SYS_GUI *)
| StepInput (ev : option input_event)                           (* an event from the queue *)
| StepExit (pid : Z)                                            (* a process ends *)
| StepOpen (x y w h : Z) (title : option cstr) (draw event data : Z)  (* a kernel program opens a window *)
| StepMark (x y w h : Z)
| StepCollect (max : Z).

Definition gui_exec (s : gui_step) (mg : wm * gui B) : option (wm * gui B) :=
  let '(m, g) := mg in
  match s with
  | StepSyscall pid um cmd a2 a3 a4 a5 => let '(_, _, m, g) := handle_gui pid um cmd a2 a3 a4 a5 m g in Some (m, g)
  | StepInput ev => let '(_, m, g) := wm_handle_input ev m g in Some (m, g)
  | StepExit pid => gui_srv_process_cleanup pid m g
  | StepOpen x y w h title draw event data => Some (snd (wm_create_window x y w h title draw event data m), g)
  | StepMark x y w h => Some (wm_mark_dirty_rect x y w h m, g)
  | StepCollect max => Some (snd (wm_collect_dirty_regions true max m), g)
  end.

Fixpoint gui_run (ss : list gui_step) (mg : wm * gui B) : option (wm * gui B) :=
  match ss with
  | [] => Some mg
  | s :: ss => match gui_exec s mg with Some mg => gui_run ss mg | None => None end
  end.

(** Handles have not run out, and an image's clipping does not overflow. *)
Definition syscall_fits (cmd a3 a4 : Z) g : Prop :=
  g_next_handle g < 0x7fffffff /\
  (cmd = GUI_CMD_DRAW_IMAGE -> lo32 a3 + lo32 a4 < 0x80000000 /\ hi32 a3 + hi32 a4 < 0x80000000).

Definition step_fits (s : gui_step) (mg : wm * gui B) : Prop :=
  match s with StepSyscall _ _ cmd _ a3 a4 _ => syscall_fits cmd a3 a4 (snd mg) | _ => True end.

(** ... and no step asks for a window buffer of 4 GiB or more. *)
Fixpoint run_fits (ss : list gui_step) (mg : wm * gui B) : Prop :=
  match ss with
  | [] => True
  | s :: ss => step_fits s mg /\ match gui_exec s mg with Some mg => g_huge (snd mg) = false /\ run_fits ss mg | None => True end
  end.

Lemma handle_gui_call pid um cmd a2 a3 a4 a5 m l g : joint m l g -> syscall_fits cmd a3 a4 g ->
  let '(_, _, m', g') := handle_gui pid um cmd a2 a3 a4 a5 m g in call_ok pid g m' g'.
Proof.
  intros J [Hn Hi]. pose proof (i32_range (Z.land a3 0xFFFFFFFF)). pose proof (i32_range (Z.land a4 0xFFFFFFFF)).
  pose proof (i32_range (Z.land (Z.shiftr a3 32) 0xFFFFFFFF)). pose proof (i32_range (Z.land (Z.shiftr a4 32) 0xFFFFFFFF)).
  unfold handle_gui.
  destruct (Z.eqb_spec cmd GUI_CMD_WINDOW_CREATE).
  { pose proof (window_create_call pid (um_str um a2) (lo32 a3) (hi32 a3) (lo32 a4) (hi32 a4) m l g J Hn ltac:(unfold lo32; lia) ltac:(unfold hi32; lia)) as C.
    by destruct (gui_srv_window_create _ _ _ _ _ _ _ _) as [[? ?] ?]. }
  destruct (cmd =? GUI_CMD_WINDOW_DESTROY). { pose proof (window_destroy_call pid (i32 a2) m l g J) as C. by destruct (gui_srv_window_destroy _ _ _ _) as [[? ?] ?]. }
  destruct (cmd =? GUI_CMD_WINDOW_SET_TITLE). { pose proof (set_title_call pid (i32 a2) (um_str um a3) m l g J) as C. by destruct (gui_srv_window_set_title _ _ _ _ _) as [[? ?] ?]. }
  destruct (cmd =? GUI_CMD_WINDOW_SET_RESIZABLE). { pose proof (set_resizable_call pid (i32 a2) (i32 a3) m l g J) as C. by destruct (gui_srv_window_set_resizable _ _ _ _ _) as [[? ?] ?]. }
  destruct (cmd =? GUI_CMD_DRAW_RECT). { pose proof (draw_rect_call pid (i32 a2) (lo32 a3) (hi32 a3) (lo32 a4) (hi32 a4) (u32 a5) m l g J) as C. by destruct (gui_srv_draw_rect _ _ _ _ _ _ _ _ _) as [[? ?] ?]. }
  destruct (cmd =? GUI_CMD_DRAW_ROUNDED_RECT_FILLED).
  { pose proof (draw_rounded_call pid (i32 a2) (lo32 a3) (hi32 a3) (lo32 a4) (hi32 a4) (lo32 a5) (Z.land (Z.shiftr a5 32) 0xFFFFFFFF) m l g J) as C.
    by destruct (gui_srv_draw_rounded_rect _ _ _ _ _ _ _ _ _ _) as [[? ?] ?]. }
  destruct (cmd =? GUI_CMD_DRAW_STRING). { pose proof (draw_text_call pid (i32 a2) (lo32 a3) (hi32 a3) (um_str um a4) (u32 a5) m l g J) as C. by destruct (gui_srv_draw_text _ _ _ _ _ _ _ _) as [[? ?] ?]. }
  destruct (Z.eqb_spec cmd GUI_CMD_DRAW_IMAGE) as [Ei|_].
  { pose proof (draw_image_call pid (i32 a2) (lo32 a3) (hi32 a3) (lo32 a4) (hi32 a4) (um_words um a5) m l g J) as C. destruct (Hi Ei).
    specialize (C ltac:(unfold image_fits, lo32, hi32 in *; lia)). by destruct (gui_srv_draw_image _ _ _ _ _ _ _ _ _) as [[? ?] ?]. }
  destruct (cmd =? GUI_CMD_MARK_DIRTY). { pose proof (mark_dirty_call pid (i32 a2) (lo32 a3) (hi32 a3) (lo32 a4) (hi32 a4) m l g J) as C. by destruct (gui_srv_mark_dirty _ _ _ _ _ _ _ _) as [[? ?] ?]. }
  destruct (cmd =? GUI_CMD_GET_EVENT). { pose proof (get_event_call pid (i32 a2) (negb (a3 =? 0)) m l g J) as C. by destruct (gui_srv_get_event _ _ _ _) as [[?|?] ?]. }
  destruct (cmd =? GUI_CMD_GET_STRING_WIDTH); [by eapply call_ok_refl|].
  destruct (cmd =? GUI_CMD_GET_FONT_HEIGHT); [by eapply call_ok_refl|].
  destruct (cmd =? GUI_CMD_GET_SCREEN_SIZE); [|by eapply call_ok_refl].
  destruct (gui_srv_get_screen_size _ _ _) as [[? ?]|]; by eapply call_ok_refl.
Qed.

Lemma gui_exec_ok s m l g : joint m l g -> step_fits s (m, g) ->
  exists m' g', gui_exec s (m, g) = Some (m', g') /\ (g_huge g' = true \/ exists l', joint m' l' g').
Proof.
  intros J Hs. pose proof J as [K G]. destruct s as [pid um cmd a2 a3 a4 a5|ev|pid|x y w h title draw event data|x y w h|max]; cbn [gui_exec].
  - pose proof (handle_gui_call pid um cmd a2 a3 a4 a5 m l g J Hs) as C. destruct (handle_gui _ _ _ _ _ _ _ _ _) as [[[r rep] m'] g'].
    exists m', g'. split; [done|]. destruct C as [?|[J' _]]; [by left|by right].
  - pose proof (wm_handle_input_ok (W := gui B) m l ev g K) as Hin.
    destruct (Hin (env_ok _ _ _ G)) as (r & l' & m' & g' & -> & (K' & G' & _)). exists m', g'. split; [done|].
    destruct G' as [?|G']; [by left|right; by exists l'].
  - destruct (process_cleanup_ok pid m l g J) as (m' & l' & g' & -> & J' & _). exists m', g'. split; [done|right; by exists l'].
  - pose proof (wm_create_window_ok m l x y w h title draw event data K) as C. destruct (wm_create_window _ _ _ _ _ _ _ _ m) as [[i|] m'].
    + destruct C as (_ & _ & Sd & _ & _ & K'). exists m', g. split; [done|right]. exists (l ++ [i]).
      assert (good_keep m l m' (l ++ [i]) g) as Gk.
      { apply good_step; [done|by apply env_ok|done|]. intros j Hj; split; [apply in_or_app; by left|by apply Sd]. }
      by destruct (good_keep_gui _ _ _ _ _ G Gk) as (? & ? & _).
    + destruct C as [-> _]. exists m, g. split; [done|right; by exists l].
  - exists (wm_mark_dirty_rect x y w h m), g. split; [done|right]. exists l. pose proof (good_mark_rect (W := gui B) m l x y w h g K) as Hm.
    destruct (good_keep_gui _ _ _ _ _ G (Hm (env_ok _ _ _ G))) as (? & ? & _). done.
  - unfold wm_collect_dirty_regions. cbn [negb orb]. destruct (max <=? 0); [exists m, g; split; [done|right; by exists l]|].
    eexists _, g. split; [done|right]. exists l. cbn [snd]. split.
    + eapply ok_ext; [exact K|..]; try done; try apply K. cbn. destruct (ok_dirty _ _ K) as [_ C _]. lia.
    + destruct G as [Gl [W U]]. by split.
Qed.

Lemma gui_run_joint ss m l g : joint m l g -> run_fits ss (m, g) -> exists m' l' g', gui_run ss (m, g) = Some (m', g') /\ joint m' l' g'.
Proof.
  revert m l g. induction ss as [|s ss IH]; intros m l g J Hf; [by exists m, l, g|].
  destruct Hf as [Hs Hf]. destruct (gui_exec_ok s m l g J Hs) as (m' & g' & E & J'). cbn [gui_run]. rewrite E in Hf |- *.
  destruct Hf as [Hh Hf]. cbn [snd] in Hh. destruct J' as [J'|[l' J']]; [congruence|]. by eapply IH.
Qed.

Lemma gui_start_ok width height g : 0 <= width < 0x80000000 -> 0 <= height < 0x80000000 -> gui_tables g ->
  joint (wm_init (wm_zero width height)) [] (gui_srv_init g).
Proof. intros Hw Hh T. split; [by apply wm_init_ok|by apply gui_init_ok]. Qed.

(** C27: the window service is safe in every run of its calls that fits.  Processes make calls of the
    service with any arguments, the user moves the mouse and types, processes end, kernel programs
    open windows and the screen collects dirty rectangles, in any order.  Fitting ([run_fits]) means
    that handles have not run out, that a DRAW_IMAGE does not pass the largest [int] with its right or
    bottom edge ([draw_image_overflows]) and that no step asks for a window buffer of 4 GiB or more
    ([short_block_overrun]); of the heap it is assumed that smaller blocks have the size asked for.
    Then every call returns; no access to a window's pixels or events leaves its buffer; every window
    in use has a buffer of its client area, a well-formed event queue and a live window of its own in
    the window manager, which a click cannot close; and the window manager's list, active window, drag
    and resize state and dirty rectangles stay consistent.  Each call is one step, and copying the
    windows to the screen is not a step ([window_draw_leaves_screen]). *)
Theorem gui_run_safe width height ss g : 0 <= width < 0x80000000 -> 0 <= height < 0x80000000 -> gui_tables g ->
  run_fits ss (wm_init (wm_zero width height), gui_srv_init g) ->
  exists m' l' g', gui_run ss (wm_init (wm_zero width height), gui_srv_init g) = Some (m', g')
    /\ wm_ok m' l' /\ gui_ok m' l' g' /\ g_fault g' = false.
Proof.
  intros Hw Hh T Hf. destruct (gui_run_joint ss _ _ _ (gui_start_ok width height g Hw Hh T) Hf) as (m' & l' & g' & E & J'). exists m', l', g'. split; [done|].
  split_and!; apply J'.
Qed.

(** C28: a process only touches its own windows.  A call that fits ([syscall_fits], as in
    [gui_run_safe]) and asks for no buffer of 4 GiB or more changes no slot of another process; and
    when a process ends all its windows, and no others, are given back.  Each call is one step: a
    call of the service between the two locked sections of another process's creation is not covered
    ([reserved_slot_taken_twice]). *)
Theorem gui_owners pid m l g : joint m l g ->
  (forall um cmd a2 a3 a4 a5, syscall_fits cmd a3 a4 g ->
     let '(_, _, m', g') := handle_gui pid um cmd a2 a3 a4 a5 m g in g_huge g' = false -> others pid g g') /\
  exists m' l' g', gui_srv_process_cleanup pid m g = Some (m', g') /\ joint m' l' g' /\ others pid g g'
    /\ forall k, gslot k -> owned pid (gw g' k) = false.
Proof.
  intros J. split.
  - intros um cmd a2 a3 a4 a5 F. pose proof (handle_gui_call pid um cmd a2 a3 a4 a5 m l g J F) as C.
    destruct (handle_gui _ _ _ _ _ _ _ _ _) as [[[r rep] m'] g']. intros Hh. destruct C as [?|[_ C]]; [congruence|exact C].
  - destruct (process_cleanup_ok pid m l g J) as (m' & l' & g' & E & J' & O & D & _). by exists m', l', g'.
Qed.
End props.

(** * A concrete system *)

(** A heap that hands out zeroed blocks of at most 64 KiB at growing addresses. *)
Record small_heap := mkSmallHeap { next_block : Z }.
#[export] Instance small_heap_ops : Heap small_heap := {
  kmalloc n b := if (n <=? 0x10000) && (0 <=? next_block b)
                 then (Some (0x1000 + next_block b, repeat 0 (Z.to_nat n)), mkSmallHeap (next_block b + Z.max 0 n)) else (None, b);
  kfree _ b := b;
}.
#[export] Instance small_heap_laws : HeapLaws small_heap.
Proof.
  split. intros n b a d b' E Hn. revert E. unfold kmalloc, small_heap_ops. destruct (Z.leb_spec n 0x10000); [|done].
  destruct (Z.leb_spec 0 (next_block b)); [|done]. cbn [andb]. intros [= <- <- _]. unfold zlen. rewrite repeat_length. split; lia.
Qed.
#[export] Instance no_apps : KernelApps (B := small_heap) :=
  {| app_event _ _ _ m g := (m, g); app_draw _ _ _ g := g; ui_frame _ _ g := g |}.
#[export] Instance no_apps_laws : KernelAppsLaws small_heap.
Proof.
  split. intros f i ev m l g _ K Hi. exists l, m, (g_heap g), (g_fb g). split; [by destruct g|]. split; [done|]. split; [apply evolves_refl|done].
Qed.

Definition gui_start : gui small_heap :=
  mkGui (repeat gw_zero 32) 0 (mkTotals 0 0 0) (mkFb true 32 256 (repeat 0 4096)) false false (mkSmallHeap 0).

Lemma gui_start_tables : gui_tables gui_start.
Proof. split; [done|]. split; [|done]. by repeat constructor. Qed.

(** Two processes open a window each and draw; the user clicks; the first process ends. *)
Definition demo_mem : user_mem := mkUserMem (fun a => if a =? 0 then None else Some [72; 105]) (fun a => if a =? 0 then None else Some (fun i => i)).
Definition demo_steps : list gui_step :=
  [ StepSyscall 5 demo_mem GUI_CMD_WINDOW_CREATE 1 0x1400000014 0x1000000020 0;
    StepSyscall 6 demo_mem GUI_CMD_WINDOW_CREATE 1 0x1E0000001E 0x1000000010 0;
    StepSyscall 5 demo_mem GUI_CMD_DRAW_STRING 1 0x200000002 1 0xFF;
    StepSyscall 5 demo_mem GUI_CMD_DRAW_RECT 2 0 0x1000000020 0xFF;
    StepSyscall 6 demo_mem GUI_CMD_DRAW_IMAGE 2 0xFFFFFFFFFFFFFFFF 0x800000008 1;
    StepInput (Some (mkEvent INPUT_EVENT_MOUSE_DOWN 1 3 1 40 80 0 0 0 0 (-1)));
    StepSyscall 6 demo_mem GUI_CMD_GET_EVENT 2 1 0 0;
    StepMark 0 0 64 64; StepCollect 16 ].

Lemma demo_fits : run_fits (demo_steps ++ [StepExit 5]) (wm_init (wm_zero 64 64), gui_srv_init gui_start).
Proof. vm_compute. repeat (split; [repeat split; (done || (intros; discriminate))|]). done. Qed.

Lemma gui_run_safe_witness :
  run_fits (demo_steps ++ [StepExit 5]) (wm_init (wm_zero 64 64), gui_srv_init gui_start) /\
  exists m' l' g', gui_run (demo_steps ++ [StepExit 5]) (wm_init (wm_zero 64 64), gui_srv_init gui_start) = Some (m', g')
    /\ wm_ok m' l' /\ gui_ok m' l' g' /\ g_fault g' = false.
Proof.
  split; [exact demo_fits|]. exact (gui_run_safe 64 64 _ gui_start ltac:(lia) ltac:(lia) gui_start_tables demo_fits).
Defined.

Lemma demo_fits0 : run_fits demo_steps (wm_init (wm_zero 64 64), gui_srv_init gui_start).
Proof. vm_compute. repeat (split; [repeat split; (done || (intros; discriminate))|]). done. Qed.

Lemma gui_owners_witness :
  exists m l g, gui_run demo_steps (wm_init (wm_zero 64 64), gui_srv_init gui_start) = Some (m, g) /\ joint m l g
    /\ (let '(_, _, _, g') := handle_gui 5 demo_mem GUI_CMD_WINDOW_DESTROY 2 0 0 0 m g in others 5 g g')
    /\ exists m' l' g', gui_srv_process_cleanup 5 m g = Some (m', g') /\ joint m' l' g' /\ others 5 g g'
    /\ forall k, gslot k -> owned 5 (gw g' k) = false.
Proof.
  destruct (gui_run_joint demo_steps _ _ _ (gui_start_ok 64 64 gui_start ltac:(lia) ltac:(lia) gui_start_tables) demo_fits0) as (m & l & g & E & J).
  exists m, l, g. split; [exact E|]. split; [exact J|]. destruct (gui_owners 5 m l g J) as [O C]. split; [|exact C].
  assert (option_map (fun mg => let '(_, _, _, g') := handle_gui 5 demo_mem GUI_CMD_WINDOW_DESTROY 2 0 0 0 (fst mg) (snd mg) in g_huge g')
            (gui_run demo_steps (wm_init (wm_zero 64 64), gui_srv_init gui_start)) = Some false) as Hh by (vm_compute; reflexivity).
  rewrite E in Hh. cbn [option_map fst snd] in Hh.
  specialize (O demo_mem GUI_CMD_WINDOW_DESTROY 2 0 0 0). destruct (handle_gui _ _ _ _ _ _ _ _ _) as [[[r rep] m'] g'].
  injection Hh as Hh. apply O; [|exact Hh]. split; [|discriminate].
  assert (g_next_handle g = 3) as ->; [|reflexivity].
  assert (option_map (fun mg => g_next_handle (snd mg)) (gui_run demo_steps (wm_init (wm_zero 64 64), gui_srv_init gui_start)) = Some 3) as N by (vm_compute; reflexivity).
  rewrite E in N. injection N as N. exact N.
Defined.

(** * Defects *)

Definition demo_run (ss : list gui_step) : option (wm * gui small_heap) := gui_run ss (wm_init (wm_zero 64 64), gui_srv_init gui_start).

(** An image whose right edge passes the largest [int] is not clipped: its pixels are written far
    behind the window's buffer. *)
Lemma draw_image_overflows :
  option_map (fun mg => g_fault (snd mg))
    (demo_run (demo_steps ++ [StepSyscall 6 demo_mem GUI_CMD_DRAW_IMAGE 2 0x7FFFFFFF 0x100000001 1])) = Some true.
Proof. vm_compute. reflexivity. Qed.

(** Drawing a window that has been dragged over the screen's left edge leaves the framebuffer. *)
Lemma window_draw_leaves_screen :
  option_map (fun mg => g_fault (gui_window_draw 0 (fst mg <| win_pool := aset 0 (win (fst mg) 0 <| w_x := -10 |>) (win_pool (fst mg)) |>) (snd mg)))
    (demo_run demo_steps) = Some true
  /\ option_map (fun mg => g_fault (snd mg)) (demo_run demo_steps) = Some false.
Proof. split; vm_compute; reflexivity. Qed.

(** Between the two critical sections of a creation the reserved slot still carries the handle and
    owner of its last window: that process can destroy the new window half way, and a third creation
    then takes the same slot. *)
Lemma reserved_slot_taken_twice :
  option_map (fun mg => match create_reserve (snd mg) with
                        | Some (k, g1) =>
                            let '(r, _, g2) := gui_srv_window_destroy 5 1 (fst mg) g1 in
                            (r, bool_decide (option_map fst (create_reserve g2) = Some k))
                        | None => (0, false)
                        end)
    (demo_run (demo_steps ++ [StepSyscall 5 demo_mem GUI_CMD_WINDOW_DESTROY 1 0 0 0])) = Some (GUI_OK, true).
Proof. vm_compute. reflexivity. Qed.

(** A heap that returns less than was asked for, as [kmalloc] does for 4 GiB and more, is overrun by
    the filling of a new buffer: nothing limits the size of a window. *)
Lemma loop_fault n (f : Z -> pixmem -> pixmem) p j : 0 <= j < n -> (forall i p, p.2 = true -> (f i p).2 = true) ->
  (forall p, zlen p.1 <= j -> (f j p).2 = true) -> (forall i p, zlen (f i p).1 = zlen p.1) -> zlen p.1 <= j -> (loop n f p).2 = true.
Proof.
  intros Hj Hk Hf Hl Hp. unfold loop.
  pose proof (for_up_inv (fun k p => zlen p.1 <= j /\ (j < k -> p.2 = true)) (Z.to_nat n) 0 f p) as HI. cbv beta in HI.
  destruct HI as [_ HI]; [split; [done|lia]| |apply HI; lia]. intros k p' Hk' [L F]. split; [by rewrite Hl|]. intros Hlt.
  destruct (decide (k = j)) as [->|Hne]; [by apply Hf|]. apply Hk, F. lia.
Qed.

Lemma pput_length i c p : zlen (pput i c p).1 = zlen p.1.
Proof. unfold pput. destruct (inside i p.1); [|done]. cbn. unfold zlen. by rewrite length_aset. Qed.
Lemma pput_keeps_fault i c p : p.2 = true -> (pput i c p).2 = true.
Proof. unfold pput. by destruct (inside i p.1). Qed.

Lemma le_words_short bytes : 4 * zlen (le_words bytes) <= zlen bytes.
Proof.
  assert (forall n bytes, (length bytes <= n)%nat -> 4 * zlen (le_words bytes) <= zlen bytes) as IH; [|by eapply IH].
  induction n as [|n IH]; intros [|a [|b [|c [|d l]]]] Hn; unfold zlen in *; cbn [length le_words] in *; try lia.
  specialize (IH l ltac:(lia)). lia.
Qed.

Lemma short_block_overrun {B} `{Heap B} (g : gui B) k w h a bytes b' : gw_pixels (gw g k) = None ->
  0 < w -> 0 < h -> w * h < 0x80000000 -> kmalloc (u64 (w * h * 4)) (g_heap g) = (Some (a, bytes), b') -> zlen bytes < w * h * 4 ->
  g_fault (snd (reallocate_client_buffer k w h g)) = true.
Proof.
  intros Hp Hw Hh Hs Ek Hb. unfold reallocate_client_buffer. rewrite (proj2 (Z.leb_gt w 0)), (proj2 (Z.leb_gt h 0)) by lia. cbn [orb]. rewrite Ek.
  change (gw (_ <| g_heap := b' |> <| g_huge := _ |>) k) with (gw g k). rewrite Hp. cbn [snd]. unfold fault_if. change (g_fault (field_set _ _)) with (g_fault g || (loop (i32 (w * h)) (fun i p => pput i 0xFF202226 p) (le_words bytes, false)).2).
  apply orb_true_intro. right. rewrite i32_fits by nia. pose proof (le_words_short bytes).
  apply loop_fault with (j := w * h - 1); [nia|intros; by apply pput_keeps_fault| |intros; apply pput_length|cbn; lia].
  intros p Hp'. unfold pput, inside. by rewrite (proj2 (Z.ltb_ge _ _)), andb_false_r by lia.
Qed.
