(* ===== verification/GuiDraw.v ===== *)
(** Filling a rectangle paints exactly its part inside the window. *)

From S2P Require Import Prelude CString Memfs Ring Event Font Wm WmInv WmOps GuiSrv GuiInv GuiOps GuiProps.

(** An [int]. *)
Definition is_i32 (z : Z) : Prop := -0x80000000 <= z < 0x80000000.

(** The word of row [r], column [c] of a buffer [cw] words wide. *)
Definition pix (cw : Z) (p : list Z) (r c : Z) : Z := aget p (r * cw + c).

Section fill.
Context (w : gui_window) (A : area_ok w).
Let cw := gw_client_w w.
Let ch := gw_client_h w.

Lemma pix_pput p r c r' c' v : clean (area w) p -> 0 <= r < ch -> 0 <= c < cw -> 0 <= r' < ch -> 0 <= c' < cw ->
  pix cw (pput (i32 (r * cw + c)) v p).1 r' c' = if (r' =? r) && (c' =? c) then v else pix cw p.1 r' c'.
Proof.
  intros [L _] Hr Hc Hr' Hc'. destruct (area_small w r c A Hr Hc) as [E Hi]. destruct (area_small w r' c' A Hr' Hc') as [_ Hi']. fold cw in E, Hi, Hi'. rewrite E.
  unfold pput, inside. rewrite (proj2 (Z.leb_le 0 _)), (proj2 (Z.ltb_lt _ _)) by lia. cbn [andb fst]. unfold pix, zlen in *.
  destruct (Z.eqb_spec r' r) as [Er|Nr], (Z.eqb_spec c' c) as [Ec|Nc]; cbn [andb]; [by rewrite Er, Ec, aget_aset_eq by lia|..];
    (rewrite aget_aset_ne; [done|lia|lia|intros Eq; destruct (row_col_inj cw r c r' c' Hc Hc' Eq) as [Q1 Q2]; congruence]).
Qed.

Definition in_rect (x y rw rh r c : Z) : bool := (y <=? r) && (r <? y + rh) && ((x <=? c) && (c <? x + rw)).

(** One row. *)
Lemma fill_row_pix x y rw R col p : 0 <= x -> x + rw <= cw -> 0 <= rw -> 0 <= y + R < ch -> clean (area w) p ->
  let p' := loop rw (fun k p => pput (i32 ((y + R) * cw + (x + k))) col p) p in
  clean (area w) p' /\ forall r c, 0 <= r < ch -> 0 <= c < cw ->
    pix cw p'.1 r c = if (r =? y + R) && ((x <=? c) && (c <? x + rw)) then col else pix cw p.1 r c.
Proof.
  intros Hx Hw Hw0 HR C. cbv zeta.
  apply (loop_inv (fun k p' => clean (area w) p' /\ forall r c, 0 <= r < ch -> 0 <= c < cw ->
    pix cw p'.1 r c = if (r =? y + R) && ((x <=? c) && (c <? x + k)) then col else pix cw p.1 r c)); [done| |].
  - split; [done|]. intros r c _ _. destruct (Z.leb_spec x c), (Z.ltb_spec c (x + 0)); try lia; by rewrite andb_false_r.
  - intros k p' Hk [C' P']. split; [by apply clean_at; try done; fold cw ch; lia|]. intros r c Hr Hc. rewrite pix_pput by (done || lia). rewrite P' by done.
    destruct (Z.eqb_spec r (y + R)); cbn [andb]; [|done].
    destruct (Z.eqb_spec c (x + k)), (Z.leb_spec x c), (Z.ltb_spec c (x + k)), (Z.ltb_spec c (x + (k + 1))); try lia; done.
Qed.

Lemma fill_rect_pix x y rw rh color p : in_client w x y rw rh -> 0 <= rw -> 0 <= rh -> clean (area w) p ->
  forall r c, 0 <= r < ch -> 0 <= c < cw ->
    pix cw (fill_rect w x y rw rh color p).1 r c = if in_rect x y rw rh r c then opaque_color color else pix cw p.1 r c.
Proof.
  intros (I1 & I2 & I3 & I4) Hw Hh C. unfold fill_rect.
  refine (proj2 (loop_inv (fun k p' => clean (area w) p' /\ forall r c, 0 <= r < ch -> 0 <= c < cw ->
    pix cw p'.1 r c = if in_rect x y rw k r c then opaque_color color else pix cw p.1 r c) rh _ p Hh _ _)).
  - split; [done|]. intros r c _ _. unfold in_rect. destruct (Z.leb_spec y r), (Z.ltb_spec r (y + 0)); try lia; done.
  - intros k p' Hk [C' P']. destruct (fill_row_pix x y rw k (opaque_color color) p' I1 I3 Hw ltac:(unfold ch; lia) C') as [C'' P''].
    split; [exact C''|]. intros r c Hr Hc. rewrite P'' by done. rewrite P' by done. unfold in_rect.
    destruct (Z.eqb_spec r (y + k)), (Z.leb_spec y r), (Z.ltb_spec r (y + k)), (Z.ltb_spec r (y + (k + 1))); try lia; cbn [andb]; done.
Qed.

(** Clipping keeps the pixels of the client area. *)
Lemma clip_fits x y rw rh : -0x80000000 <= x -> -0x80000000 <= y -> x + rw < 0x80000000 -> y + rh < 0x80000000 ->
  forall r c, 0 <= r < ch -> 0 <= c < cw ->
  in_rect x y rw rh r c = match clip_rect_to_client w x y rw rh with
                          | Some (x', y', rw', rh') => in_rect x' y' rw' rh' r c
                          | None => false
                          end.
Proof.
  intros Hx Hy Hxw Hyh r c Hr Hc. unfold clip_rect_to_client. destruct ((rw <=? 0) || (rh <=? 0)) eqn:E0.
  { unfold in_rect. apply orb_true_iff in E0 as [E0%Z.leb_le|E0%Z.leb_le];
      destruct (Z.leb_spec y r), (Z.ltb_spec r (y + rh)), (Z.leb_spec x c), (Z.ltb_spec c (x + rw)); try lia; done. }
  apply orb_false_iff in E0 as [E0%Z.leb_gt E1%Z.leb_gt]. rewrite (i32_fits (x + rw)), (i32_fits (y + rh)) by lia. fold cw ch.
  pose proof (area_dims w A) as Ad. fold cw ch in Ad.
  set (x0 := if x <? 0 then 0 else x). set (y0 := if y <? 0 then 0 else y). set (x1 := if cw <? x + rw then cw else x + rw). set (y1 := if ch <? y + rh then ch else y + rh).
  assert (x0 = Z.max 0 x /\ y0 = Z.max 0 y /\ x1 = Z.min cw (x + rw) /\ y1 = Z.min ch (y + rh)) as (-> & -> & -> & ->).
  { subst x0 y0 x1 y1. destruct (Z.ltb_spec x 0), (Z.ltb_spec y 0), (Z.ltb_spec cw (x + rw)), (Z.ltb_spec ch (y + rh)); lia. }
  destruct (_ || _) eqn:E2.
  - unfold in_rect. apply orb_true_iff in E2 as [E2%Z.leb_le|E2%Z.leb_le];
      destruct (Z.leb_spec y r), (Z.ltb_spec r (y + rh)), (Z.leb_spec x c), (Z.ltb_spec c (x + rw)); try lia; done.
  - apply orb_false_iff in E2 as [E2%Z.leb_gt E3%Z.leb_gt]. rewrite !i32_fits by lia. unfold in_rect.
    rewrite !Z.add_sub_assoc, !Z.add_simpl_l. f_equal; f_equal;
      (apply eq_true_iff_eq; rewrite ?Z.leb_le, ?Z.ltb_lt; lia).
Qed.

(** The right and bottom edges the clipping computes are [int]s. *)
Definition edges_fit (x y rw rh : Z) : bool := (x + rw <? 0x80000000) && (y + rh <? 0x80000000).

(** When one of them wraps, clipping leaves nothing. *)
Lemma clip_wraps x y rw rh : is_i32 x -> is_i32 y -> is_i32 rw -> is_i32 rh -> edges_fit x y rw rh = false ->
  clip_rect_to_client w x y rw rh = None.
Proof.
  unfold is_i32. intros Hx Hy Hw Hh Hf. unfold clip_rect_to_client. destruct ((rw <=? 0) || (rh <=? 0)) eqn:E0; [done|].
  apply orb_false_iff in E0 as [E0%Z.leb_gt E1%Z.leb_gt]. fold cw ch. pose proof (area_dims w A) as Ad. fold cw ch in Ad.
  set (x0 := if x <? 0 then 0 else x). set (y0 := if y <? 0 then 0 else y).
  assert (0 <= x0 /\ 0 <= y0) as [X0 Y0] by (subst x0 y0; destruct (Z.ltb_spec x 0), (Z.ltb_spec y 0); lia).
  assert (forall a, 0x80000000 <= a < 0x100000000 -> i32 a < 0) as Hneg.
  { intros a Ha. unfold i32. rewrite u32_id by wsolve. destruct (Z.ltb_spec a 0x80000000); lia. }
  set (x1 := if cw <? i32 (x + rw) then _ else _). set (y1 := if ch <? i32 (y + rh) then _ else _).
  apply andb_false_iff in Hf as [Hf%Z.ltb_ge|Hf%Z.ltb_ge].
  - assert (x1 < 0) as X1 by (subst x1; specialize (Hneg (x + rw) ltac:(lia)); destruct (Z.ltb_spec cw (i32 (x + rw))); lia).
    by rewrite (proj2 (Z.leb_le x1 x0)) by lia.
  - assert (y1 < 0) as Y1 by (subst y1; specialize (Hneg (y + rh) ltac:(lia)); destruct (Z.ltb_spec ch (i32 (y + rh))); lia).
    by rewrite (proj2 (Z.leb_le y1 y0)), orb_true_r by lia.
Qed.

(** Clipping keeps the pixels of the client area, or none if an edge wraps. *)
Lemma clip_exact x y rw rh : is_i32 x -> is_i32 y -> is_i32 rw -> is_i32 rh ->
  forall r c, 0 <= r < ch -> 0 <= c < cw ->
  edges_fit x y rw rh && in_rect x y rw rh r c = match clip_rect_to_client w x y rw rh with
                                                 | Some (x', y', rw', rh') => in_rect x' y' rw' rh' r c
                                                 | None => false
                                                 end.
Proof.
  intros Hx Hy Hw Hh r c Hr Hc. destruct (edges_fit x y rw rh) eqn:Hf.
  - apply andb_true_iff in Hf as [H1%Z.ltb_lt H2%Z.ltb_lt]. unfold is_i32 in *. by apply clip_fits; lia.
  - by rewrite clip_wraps.
Qed.
End fill.

Section draw.
Context {B : Type} `{Heap B} `{!HeapSmall B} `{!KernelApps (B := B)} `{!KernelAppsLaws B}.
Implicit Types (m : wm) (g : gui B).

Definition pixels_of (w : gui_window) : list Z := match gw_pixels w with Some (_, p) => p | None => [] end.

(** Writes that keep a slot's identity keep the answer of the owner check. *)
Lemma find_index_ext {A} `{!Inhabited A} (p : A -> bool) (l l' : list A) : length l = length l' ->
  (forall k, 0 <= k < Z.of_nat (length l) -> p (aget l k) = p (aget l' k)) -> find_index p l = find_index p l'.
Proof.
  intros L E. destruct (find_index p l) as [k|] eqn:E1, (find_index p l') as [k'|] eqn:E2; [| | |done].
  - apply find_index_Some in E1 as (R1 & P1 & N1). apply find_index_Some in E2 as (R2 & P2 & N2). f_equal.
    destruct (Z.lt_trichotomy k k') as [Hlt|[?|Hlt]]; [|done|].
    + specialize (N2 k ltac:(lia)). rewrite <- E in N2 by lia. congruence.
    + specialize (N1 k' ltac:(lia)). rewrite E in N1 by lia. congruence.
  - apply find_index_Some in E1 as (R1 & P1 & _). rewrite find_index_None in E2. specialize (E2 k ltac:(lia)). rewrite <- E in E2 by lia. congruence.
  - apply find_index_Some in E2 as (R2 & P2 & _). rewrite find_index_None in E1. specialize (E1 k' ltac:(lia)). rewrite E in E1 by lia. congruence.
Qed.

Lemma own_slot_set pid handle g k w : length (g_windows g) = 32%nat -> gslot k -> same_id (gw g k) w ->
  own_slot pid handle g = inr k -> own_slot pid handle (set_gw k w g) = inr k.
Proof.
  intros L Hk (S1 & S2 & S3 & S4) Eo. unfold own_slot in *.
  assert (find_slot_by_handle handle (set_gw k w g) = find_slot_by_handle handle g) as ->.
  { apply find_index_ext; [by rewrite length_set_gw|]. rewrite length_set_gw, L. intros j Hj.
    change (aget (g_windows (set_gw k w g)) j) with (gw (set_gw k w g) j). change (aget (g_windows g) j) with (gw g j).
    rewrite gw_set_gw by done. case_decide; [subst; by rewrite S1, S2|done]. }
  destruct (find_slot_by_handle handle g) as [j|]; [|done]. destruct (Z.eqb_spec (gw_owner_pid (gw g j)) pid) as [E|]; [|done].
  injection Eo as ->. rewrite gw_set_eq by done. by rewrite S3, E, Z.eqb_refl.
Qed.

(** Marking an owned window dirty writes its pending flag at most. *)
Lemma mark_dirty_own pid handle x y w h k m l g : joint m l g -> own_slot pid handle g = inr k ->
  exists m' v, gui_srv_mark_dirty pid handle x y w h m g = (GUI_OK, m', set_gw k (gw g k <| gw_dirty_pending := v |>) g)
    /\ joint m' l (set_gw k (gw g k <| gw_dirty_pending := v |>) g).
Proof.
  intros [K G] Eo. destruct (own_slot_ok g pid handle k (proj1 G) Eo) as (Hk & Hu & _ & _). unfold gui_srv_mark_dirty. rewrite Eo.
  assert (forall v, gui_ok m l (set_gw k (gw g k <| gw_dirty_pending := v |>) g)) as Gv.
  { intros v. apply ok_set; [done|done|done|intros _; apply pending_good; by apply (gl_ok _ (proj1 G))|apply (gl_events _ (proj1 G) k Hk)]. }
  destruct (clip_rect_to_client _ _ _ _ _) as [[[[mx my] mw] mh]|].
  - rewrite gw_set_eq by (try done; apply (gl_len _ (proj1 G))). destruct (gk_win _ _ _ (proj2 G) k Hk Hu) as (i & Ei & _).
    change (gw_wm_win (field_set _ _)) with (gw_wm_win (gw g k)). rewrite Ei. destruct (wm_client_rect (win m i)) as [[[cx cy] cw] ch].
    eexists _, 1. split; [done|]. pose proof (good_mark_rect (W := gui B) m l (i32 (cx + mx)) (i32 (cy + my)) mw mh _ K (env_ok _ _ _ (Gv 1))) as Gm.
    destruct (good_keep_gui _ _ _ _ _ (Gv 1) Gm) as (K' & G' & _). by split.
  - exists m, (gw_dirty_pending (gw g k)). specialize (Gv (gw_dirty_pending (gw g k))).
    assert (set_gw k (gw g k <| gw_dirty_pending := gw_dirty_pending (gw g k) |>) g = g) as E; [|rewrite E in *; by split].
    assert (gw g k <| gw_dirty_pending := gw_dirty_pending (gw g k) |> = gw g k) as -> by by destruct (gw g k).
    unfold set_gw, gw, aset, aget. rewrite list_insert_id; [by destruct g|]. apply list_lookup_lookup_total_lt. rewrite (gl_len _ (proj1 G)). unfold gslot in Hk. lia.
Qed.

(** C29: a rectangle drawn by a window's owner, for all [int] positions and sizes, sets exactly the
    pixels of the window inside it to the opaque colour, as long as its right and bottom edges are
    [int]s; when one of these sums wraps, nothing is drawn, although GUI_OK is returned
    ([draw_rect_wraps]).  Other pixels and other windows are unchanged. *)
Theorem gui_draw_rect_exact pid handle x y w h color k m l g : joint m l g -> own_slot pid handle g = inr k ->
  is_i32 x -> is_i32 y -> is_i32 w -> is_i32 h ->
  exists m' g', gui_srv_draw_rect pid handle x y w h color m g = (GUI_OK, m', g') /\ joint m' l g'
    /\ (forall r c, 0 <= r < gw_client_h (gw g k) -> 0 <= c < gw_client_w (gw g k) ->
         pix (gw_client_w (gw g k)) (pixels_of (gw g' k)) r c
         = if edges_fit x y w h && in_rect x y w h r c then opaque_color color
           else pix (gw_client_w (gw g k)) (pixels_of (gw g k)) r c)
    /\ (forall j, gslot j -> j <> k -> gw g' j = gw g j).
Proof.
  intros J Eo Hx Hy Hw Hh. pose proof J as [K G]. destruct (own_slot_ok g pid handle k (proj1 G) Eo) as (Hk & Hu & _ & _).
  pose proof (gl_ok _ (proj1 G) k Hk Hu) as O. pose proof (go_area _ O) as A. pose proof (gl_len _ (proj1 G)) as L.
  unfold gui_srv_draw_rect. rewrite Eo. pose proof (clip_exact (gw g k) A x y w h Hx Hy Hw Hh) as Cl.
  destruct (clip_rect_to_client (gw g k) x y w h) as [[[[x' y'] w'] h']|] eqn:Ec.
  - destruct (clip_ok _ _ _ _ _ _ _ _ _ A Ec) as (I & Pw & Ph).
    destruct (draw_on_ok m l g k (fill_rect (gw g k) x' y' w' h' color) G Hk Hu) as [G1 E1]; [intros p; by apply fill_rect_clean|].
    set (g1 := draw_on _ _ _) in *. assert (own_slot pid handle g1 = inr k) as Eo1.
    { rewrite E1. apply own_slot_set; [done|done| |done]. destruct O as [_ (a & px & Ep & _) _]. unfold close_pixels. by rewrite Ep. }
    destruct (mark_dirty_own pid handle x' y' w' h' k m l g1 (conj K G1) Eo1) as (m' & v & -> & J'). eexists m', _. split; [done|]. split; [done|].
    assert (length (g_windows g1) = 32%nat) as L1 by apply G1.
    pose proof O as [_ (a & px & Ep & Lp) _]. split.
    + intros r c Hr Hc. rewrite gw_set_eq by done. rewrite E1, gw_set_eq by done. unfold pixels_of at 1, close_pixels. rewrite Ep.
      cbn [gw_pixels]. change (gw_pixels (field_set _ _)) with (Some (a, (fill_rect (gw g k) x' y' w' h' color (open_pixels (gw g k))).1)). cbv iota beta.
      rewrite (fill_rect_pix (gw g k) A x' y' w' h' color _ I ltac:(lia) ltac:(lia) (open_clean _ O) r c Hr Hc). rewrite (Cl r c Hr Hc).
      unfold open_pixels, pixels_of. by rewrite Ep.
    + intros j Hj Hne. rewrite gw_set_gw, decide_False by done. rewrite E1, gw_set_gw, decide_False by done. done.
  - exists m, g. split; [done|]. split; [done|]. split; [|done]. intros r c Hr Hc. by rewrite (Cl r c Hr Hc).
Qed.
End draw.

Lemma gui_draw_rect_exact_witness :
  exists m l g, gui_run demo_steps (wm_init (wm_zero 64 64), gui_srv_init gui_start) = Some (m, g) /\ joint m l g /\ own_slot 6 2 g = inr 1 /\
  exists m' g', gui_srv_draw_rect 6 2 (-3) 4 8 100 0xFF00 m g = (GUI_OK, m', g') /\ joint m' l g'
    /\ forall r c, 0 <= r < gw_client_h (gw g 1) -> 0 <= c < gw_client_w (gw g 1) ->
         pix (gw_client_w (gw g 1)) (pixels_of (gw g' 1)) r c
         = if edges_fit (-3) 4 8 100 && in_rect (-3) 4 8 100 r c then opaque_color 0xFF00
           else pix (gw_client_w (gw g 1)) (pixels_of (gw g 1)) r c.
Proof.
  destruct (gui_run_joint demo_steps _ _ _ (gui_start_ok 64 64 gui_start ltac:(lia) ltac:(lia) gui_start_tables) demo_fits0) as (m & l & g & E & J).
  exists m, l, g. split; [exact E|]. split; [exact J|].
  assert (own_slot 6 2 g = inr 1) as Eo.
  { assert (option_map (fun mg => own_slot 6 2 (snd mg)) (gui_run demo_steps (wm_init (wm_zero 64 64), gui_srv_init gui_start)) = Some (inr 1)) as N by (vm_compute; reflexivity).
    rewrite E in N. injection N as N. exact N. }
  split; [exact Eo|].
  destruct (gui_draw_rect_exact 6 2 (-3) 4 8 100 0xFF00 1 m l g J Eo ltac:(unfold is_i32; lia) ltac:(unfold is_i32; lia) ltac:(unfold is_i32; lia)
    ltac:(unfold is_i32; lia)) as (m' & g' & E1 & J1 & P & _).
  exists m', g'. split; [exact E1|]. split; [exact J1|exact P].
Defined.

(** Finding: a rectangle from column 10 that is as wide as an [int] can say covers the rest of the
    window, but its right edge wraps to a negative number and nothing is drawn. *)
Lemma draw_rect_wraps :
  match demo_run demo_steps with
  | Some (m, g) =>
      let '(r, _, g') := gui_srv_draw_rect 6 2 10 0 0x7FFFFFFF 4 0xFF00 m g in
      r = GUI_OK /\ pixels_of (gw g' 1) = pixels_of (gw g 1) /\ 10 < gw_client_w (gw g 1)
      /\ in_rect 10 0 0x7FFFFFFF 4 0 10 = true
  | None => False
  end.
Proof. vm_compute. repeat split. Qed.
