(* ===== verification/Kprintf.v ===== *)
(** The kernel's [printf] ([src/lib/kprintf.c]): rendering of integers, the formatter [do_fmt] over
    an abstract output, and its two clients, [kprintf] (the serial port) and [ksprintf] (a bounded
    buffer).

    A format or an argument string is a C string of [CString]; the variable arguments are a list of
    [arg]s.  [None] is undefined behaviour: an argument that is missing or of the wrong kind, a
    format that ends inside a conversion (the formatter would read past the terminating NUL) or a
    width that overflows [int]. *)

From Stdlib Require Import Ascii String.
From S2P Require Import Prelude.
From S2P Require Import CString.

(** A string constant of the source. *)
Definition zs (s : string) : cstr := map (fun c => Z.of_N (N_of_ascii c)) (list_ascii_of_string s).

Definition ch_percent : Z := 37.
Definition ch_minus : Z := 45.
Definition ch_0 : Z := 48.
Definition ch_space : Z := 32.

(** ** Integers *)

Definition hex_lower : list Z := zs "0123456789abcdef".
Definition hex_upper : list Z := zs "0123456789ABCDEF".

(** [while (val) { buf[len++] = digits[val % base]; val /= base; }] *)
Fixpoint digit_loop (n : nat) (buf : list Z) (len val base : Z) (digits : list Z) : list Z * Z :=
  match n with
  | O => (buf, len)
  | S n' => if val =? 0 then (buf, len) else
            digit_loop n' (aset len (aget digits (val mod base)) buf) (len + 1) (val / base) base digits
  end.

(** [for (i = 0, j = len - 1; i < j; i++, j--)] swaps [buf[i]] and [buf[j]]. *)
Fixpoint swap_loop (n : nat) (buf : list Z) (i j : Z) : list Z :=
  match n with
  | O => buf
  | S n' => if i <? j then swap_loop n' (aset j (aget buf i) (aset i (aget buf j) buf)) (i + 1) (j - 1)
            else buf
  end.

(** A 32-bit value has at most 32 digits in any base. *)
Definition uint_to_buf (buf : list Z) (val base : Z) (digits : list Z) : list Z * Z :=
  if val =? 0 then (aset 0 ch_0 buf, 1) else
  let '(buf, len) := digit_loop 32 buf 0 val base digits in
  (swap_loop (Z.to_nat len) buf 0 (len - 1), len).

(** ** The formatter *)

Record fmt_ctx_t (C : Type) := mkFmt { f_ctx : C; f_count : Z }.
Arguments mkFmt {C}.
Arguments f_ctx {C}.
Arguments f_count {C}.

(** A variable argument: an integer, read at 32 bits, or a string. *)
Inductive arg : Type := AInt (z : Z) | AStr (s : option cstr).

Section fmt.
Context {C : Type} (put : C -> Z -> C).
Implicit Types f : fmt_ctx_t C.

Definition fmt_putc f (c : Z) : fmt_ctx_t C := mkFmt (put (f_ctx f) c) (f_count f + 1).

Fixpoint fmt_pad (width : nat) f (pad : Z) : fmt_ctx_t C :=
  match width with O => f | S w => fmt_pad w (fmt_putc f pad) pad end.

Fixpoint fmt_puts (s : cstr) f : fmt_ctx_t C :=
  match s with [] => f | c :: s' => fmt_puts s' (fmt_putc f c) end.

(** Padding up to [width], then the [len] characters [s]. *)
Definition fmt_field f (s : cstr) (width pad : Z) : fmt_ctx_t C :=
  let len := zlen s in
  let f := if len <? width then fmt_pad (Z.to_nat (width - len)) f pad else f in
  fmt_puts s f.

Definition fmt_str f (s : option cstr) (width pad : Z) : fmt_ctx_t C :=
  fmt_field f (match s with Some s => s | None => zs "(null)" end) width pad.

(** [char tmp[32]], filled by [uint_to_buf], printed with its padding. *)
Definition fmt_uint f (tmp : list Z) (val base : Z) (digits : list Z) (width pad : Z) : fmt_ctx_t C * list Z :=
  let '(tmp, len) := uint_to_buf tmp val base digits in
  (fmt_field f (copy_out tmp 0 (Z.to_nat len)) width pad, tmp).

(** [while ( *fmt >= '1' && *fmt <= '9') width = width * 10 + ( *fmt++ - '0');] *)
Fixpoint fmt_width (width : Z) (fmt : cstr) : option (Z * cstr) :=
  match fmt with
  | c :: fmt' => if (49 <=? c) && (c <=? 57) then
                   let w := width * 10 + (c - 48) in
                   if w <? 0x80000000 then fmt_width w fmt' else None
                 else Some (width, fmt)
  | [] => Some (width, [])
  end.

(** [switch (spec)] *)
Definition fmt_spec (spec pad width : Z) (tmp : list Z) (ap : list arg) f
  : option (fmt_ctx_t C * list Z * list arg) :=
  if (spec =? 100) || (spec =? 105) then                              (* 'd', 'i' *)
    match ap with
    | AInt z :: ap => let val := i32 z in
        let '(f, val) := if val <? 0 then (fmt_putc f ch_minus, i32 (- val)) else (f, val) in
        Some (fmt_uint f tmp (u32 val) 10 hex_lower width pad, ap)
    | _ => None
    end
  else if spec =? 117 then                                            (* 'u' *)
    match ap with AInt z :: ap => Some (fmt_uint f tmp (u32 z) 10 hex_lower width pad, ap) | _ => None end
  else if spec =? 120 then                                            (* 'x' *)
    match ap with AInt z :: ap => Some (fmt_uint f tmp (u32 z) 16 hex_lower width pad, ap) | _ => None end
  else if spec =? 88 then                                             (* 'X' *)
    match ap with AInt z :: ap => Some (fmt_uint f tmp (u32 z) 16 hex_upper width pad, ap) | _ => None end
  else if spec =? 115 then                                            (* 's' *)
    match ap with AStr s :: ap => Some (fmt_str f s width pad, tmp, ap) | _ => None end
  else if spec =? 99 then                                             (* 'c' *)
    match ap with AInt z :: ap => Some (fmt_putc f (u8 z), tmp, ap) | _ => None end
  else if spec =? ch_percent then Some (fmt_putc f ch_percent, tmp, ap)
  else Some (fmt_putc (fmt_putc f ch_percent) spec, tmp, ap).

Fixpoint do_fmt_loop (n : nat) (fmt : cstr) (tmp : list Z) (ap : list arg) f : option (fmt_ctx_t C) :=
  match n with
  | O => None
  | S n' =>
    match fmt with
    | [] => Some f
    | c :: fmt =>
      if negb (c =? ch_percent) then do_fmt_loop n' fmt tmp ap (fmt_putc f c) else
      let '(pad, fmt) := match fmt with
                         | c :: r => if c =? ch_0 then (ch_0, r) else (ch_space, fmt)
                         | [] => (ch_space, fmt)
                         end in
      match fmt_width 0 fmt with
      | Some (width, spec :: fmt) =>
        match fmt_spec spec pad width tmp ap f with
        | Some (f, tmp, ap) => do_fmt_loop n' fmt tmp ap f
        | None => None
        end
      | _ => None
      end
    end
  end.

Definition do_fmt (tmp : list Z) (fmt : cstr) (ap : list arg) f : option (fmt_ctx_t C) :=
  do_fmt_loop (S (length fmt)) fmt tmp ap f.
End fmt.

(** The automatic [tmp] of [do_fmt] is uninitialised: its contents are never printed before they
    are written, and the model starts from zeroes. *)
Definition fmt_tmp : list Z := repeat 0 32.

(** ** Clients *)

(** The characters sent to the serial port so far. *)
Definition serial_put (out : list Z) (c : Z) : list Z := out ++ [c].

Definition kprintf (fmt : cstr) (ap : list arg) (out : list Z) : option (Z * list Z) :=
  match do_fmt serial_put fmt_tmp fmt ap (mkFmt out 0) with
  | Some f => Some (f_count f, f_ctx f)
  | None => None
  end.

Definition kputs (s : option cstr) (out : list Z) : list Z :=
  match s with None => out | Some s => foldl serial_put out s ++ [10] end.

Record sbuf_t := mkSbuf { sb_buf : list Z; sb_cap : Z; sb_pos : Z }.
#[export] Instance sbuf_rebuild : Rebuild sbuf_t := fun s => mkSbuf (sb_buf s) (sb_cap s) (sb_pos s).

Definition sbuf_put (s : sbuf_t) (c : Z) : sbuf_t :=
  if sb_pos s + 1 <? sb_cap s
  then s <| sb_buf := aset (sb_pos s) c (sb_buf s) |> <| sb_pos := sb_pos s + 1 |>
  else s.

(** The return value and the buffer. *)
Definition ksprintf (buf : option (list Z)) (n : Z) (fmt : cstr) (ap : list arg) : option (Z * option (list Z)) :=
  match buf with
  | None => Some (0, None)
  | Some b => if n =? 0 then Some (0, buf) else
    match do_fmt sbuf_put fmt_tmp fmt ap (mkFmt (mkSbuf b n 0) 0) with
    | Some f => Some (f_count f, Some (aset (sb_pos (f_ctx f)) 0 (sb_buf (f_ctx f))))
    | None => None
    end
  end.

(** ** Integers are rendered by their digits *)

(** The digits of [val], most significant first; nothing for 0. *)
Fixpoint digs (n : nat) (base : Z) (digits : list Z) (val : Z) : cstr :=
  match n with
  | O => []
  | S n' => if val =? 0 then [] else digs n' base digits (val / base) ++ [aget digits (val mod base)]
  end.

Definition uint_text (base : Z) (digits : list Z) (val : Z) : cstr :=
  if val =? 0 then [ch_0] else digs 32 base digits val.

Lemma take_aset_end i x (l : list Z) :
  0 <= i < zlen l -> take (Z.to_nat (i + 1)) (aset i x l) = take (Z.to_nat i) l ++ [x].
Proof.
  intros Hi. unfold aset, zlen in *. replace (Z.to_nat (i + 1)) with (S (Z.to_nat i)) by lia.
  rewrite (take_S_r _ _ x) by (apply list_lookup_insert_eq; lia). by rewrite take_insert_ge by lia.
Qed.

Lemma length_digs n base digits val : (length (digs n base digits val) <= n)%nat.
Proof.
  revert val. induction n as [|n IH]; intros val; simpl; [lia|]. case_match; simpl; [lia|].
  rewrite length_app. specialize (IH (val / base)). simpl. lia.
Qed.

Lemma digit_loop_spec n buf len val base digits buf' len' :
  0 <= len -> len + Z.of_nat n <= zlen buf ->
  digit_loop n buf len val base digits = (buf', len') ->
  len' = len + zlen (digs n base digits val) /\ length buf' = length buf
  /\ take (Z.to_nat len') buf' = take (Z.to_nat len) buf ++ rev (digs n base digits val).
Proof.
  revert buf len val. induction n as [|n IH]; intros buf len val H0 Hl; simpl.
  { intros [= <- <-]. rewrite zlen_nil, app_nil_r, Z.add_0_r. done. }
  destruct (val =? 0).
  { intros [= <- <-]. simpl. rewrite zlen_nil, app_nil_r, Z.add_0_r. done. }
  intros (E1 & E2 & E3)%IH; [|lia|unfold zlen in *; rewrite length_aset; lia].
  rewrite zlen_app. cbn [zlen length]. rewrite length_aset in E2.
  split; [unfold zlen in *; simpl; lia|]. split; [done|].
  rewrite E3, take_aset_end by (unfold zlen in *; lia). by rewrite rev_app_distr, <- app_assoc.
Qed.

(** The swapping loop reverses the first [len] characters. *)
Lemma swap_loop_spec n buf i len :
  0 <= i -> len <= zlen buf -> len - 1 - i - i <= Z.of_nat n ->
  forall l, (forall m, 0 <= m < len -> aget buf m
               = if (m <? i) || (len - 1 - i <? m) then aget l (len - 1 - m) else aget l m) ->
  let b := swap_loop n buf i (len - 1 - i) in
  length b = length buf /\ forall m, 0 <= m < len -> aget b m = aget l (len - 1 - m).
Proof.
  revert buf i. induction n as [|n IH]; intros buf i Hi Hlen Hn l Hl; cbn [swap_loop].
  - split; [done|]. intros m Hm. rewrite Hl by done. case_match eqn:E; [done|]. f_equal. lia.
  - destruct (Z.ltb_spec i (len - 1 - i)) as [Hlt|Hge].
    + replace (len - 1 - i - 1) with (len - 1 - (i + 1)) by lia.
      set (b := aset (len - 1 - i) _ _).
      assert (length b = length buf) as Hb by (unfold b; by rewrite !length_aset).
      destruct (IH b (i + 1) ltac:(lia)) with (l := l) as [E1 E2]; [unfold zlen in *; lia|lia| |].
      2: { split; [congruence|done]. }
      intros m Hm. unfold b, zlen in *.
      destruct (decide (m = len - 1 - i)) as [->|Hj].
      { rewrite aget_aset_eq by (rewrite length_aset; lia). rewrite Hl by lia.
        rewrite (proj2 (Z.ltb_ge i i)), (proj2 (Z.ltb_ge _ i)) by lia. cbn [orb].
        case_match eqn:E; [f_equal; lia|lia]. }
      rewrite aget_aset_ne by lia.
      destruct (decide (m = i)) as [->|Hmi].
      { rewrite aget_aset_eq by lia. rewrite Hl by lia.
        rewrite (proj2 (Z.ltb_ge (len - 1 - i) i)), Z.ltb_irrefl by lia. cbn [orb].
        case_match eqn:E; [done|lia]. }
      rewrite aget_aset_ne by lia. rewrite Hl by lia.
      replace ((m <? i + 1) || (len - 1 - (i + 1) <? m)) with ((m <? i) || (len - 1 - i <? m)); [done|lia].
    + split; [done|]. intros m Hm. rewrite Hl by done. case_match eqn:E; [done|]. f_equal. lia.
Qed.

Lemma take_reversed (b b' : list Z) len :
  (len <= length b)%nat -> length b' = length b ->
  (forall m, 0 <= m < Z.of_nat len -> aget b' m = aget b (Z.of_nat len - 1 - m)) ->
  take len b' = rev (take len b).
Proof.
  intros Hl Hb He. rewrite rev_alt. fold (reverse (take len b)).
  apply list_eq_same_length with len; [rewrite length_reverse, length_take; lia|rewrite length_take; lia|].
  intros m x y Hm Hx Hy. rewrite lookup_take_lt in Hx by done.
  rewrite reverse_lookup in Hy by (rewrite length_take; lia). rewrite length_take, Nat.min_l in Hy by lia.
  rewrite lookup_take_lt in Hy by lia. specialize (He (Z.of_nat m) ltac:(lia)). unfold aget in He.
  rewrite Nat2Z.id in He. rewrite (list_lookup_total_correct _ _ _ Hx) in He. rewrite He.
  replace (Z.to_nat _) with (len - S m)%nat by lia. by rewrite (list_lookup_total_correct _ _ _ Hy).
Qed.

Lemma uint_to_buf_spec buf base digits val b len :
  length buf = 32%nat -> uint_to_buf buf val base digits = (b, len) ->
  length b = 32%nat /\ copy_out b 0 (Z.to_nat len) = uint_text base digits val.
Proof.
  intros Hb. unfold uint_to_buf, uint_text. destruct (val =? 0).
  { intros [= <- <-]. rewrite length_aset. split; [done|]. simpl. by rewrite aget_aset_eq by lia. }
  destruct (digit_loop 32 buf 0 val base digits) as [d n] eqn:E. intros [= <- <-].
  pose proof (length_digs 32 base digits val) as H32. set (t := digs 32 base digits val) in *.
  apply digit_loop_spec in E as (-> & E1 & E2); [|lia|unfold zlen; lia]. fold t in E2 |- *.
  rewrite Z.add_0_l in *. simpl in E2. unfold zlen in *. rewrite Nat2Z.id in *.
  destruct (swap_loop_spec (length t) d 0 (Z.of_nat (length t))) with (l := d) as [E3 E4];
    [lia|unfold zlen; lia|lia| |].
  { intros m Hm. case_match eqn:E; [lia|done]. }
  rewrite Z.sub_0_r in *. split; [congruence|].
  rewrite copy_out_slice by (unfold zlen; simpl; lia). rewrite drop_0.
  rewrite (take_reversed d) by (done || lia). by rewrite E2, rev_involutive.
Qed.

(** The digits denote the number. *)
Definition num_value (base : Z) (ds : list Z) : Z := foldl (fun v d => v * base + d) 0 ds.

Fixpoint digit_vals (n : nat) (base val : Z) : list Z :=
  match n with
  | O => []
  | S n' => if val =? 0 then [] else digit_vals n' base (val / base) ++ [val mod base]
  end.

Lemma digs_vals n base digits val : digs n base digits val = map (aget digits) (digit_vals n base val).
Proof.
  revert val. induction n as [|n IH]; intros val; simpl; [done|]. case_match; [done|].
  by rewrite IH, map_app.
Qed.

Lemma digit_vals_range n base val : 0 < base -> Forall (fun d => 0 <= d < base) (digit_vals n base val).
Proof.
  intros Hb. revert val. induction n as [|n IH]; intros val; simpl; [done|]. case_match; [done|].
  apply Forall_app. split; [apply IH|]. apply Forall_singleton, Z.mod_pos_bound, Hb.
Qed.

Lemma digit_vals_value n base val :
  1 < base -> 0 <= val < base ^ Z.of_nat n -> num_value base (digit_vals n base val) = val.
Proof.
  intros Hb. revert val. induction n as [|n IH]; intros val Hv; simpl.
  { rewrite Z.pow_0_r in Hv. unfold num_value. simpl. lia. }
  destruct (Z.eqb_spec val 0) as [->|]; [done|]. unfold num_value in *. rewrite foldl_snoc, IH.
  - pose proof (Z.div_mod val base). lia.
  - rewrite Nat2Z.inj_succ, Z.pow_succ_r in Hv by lia. split; [apply Z.div_pos; lia|].
    apply Z.div_lt_upper_bound; lia.
Qed.

Lemma length_digit_vals n k base val :
  1 < base -> 0 <= val < base ^ Z.of_nat k -> (length (digit_vals n base val) <= k)%nat.
Proof.
  intros Hb. revert k val. induction n as [|n IH]; intros k val Hv; simpl; [lia|].
  destruct (Z.eqb_spec val 0) as [->|]; [simpl; lia|]. destruct k as [|k]; [rewrite Z.pow_0_r in Hv; lia|].
  rewrite length_app. rewrite Nat2Z.inj_succ, Z.pow_succ_r in Hv by lia.
  specialize (IH k (val / base)). simpl. enough (length (digit_vals n base (val / base)) <= k)%nat by lia.
  apply IH. split; [apply Z.div_pos; lia|]. apply Z.div_lt_upper_bound; lia.
Qed.

(** ** What a format prints

    The text of a conversion and of a format, without an output device: the reference the formatter
    is compared with. *)

Definition pad_text (width pad : Z) (s : cstr) : cstr := repeat pad (Z.to_nat (width - zlen s)) ++ s.

Definition spec_text (spec pad width : Z) (ap : list arg) : option (cstr * list arg) :=
  let num base digits :=
    match ap with
    | AInt z :: ap => Some (pad_text width pad (uint_text base digits (u32 z)), ap)
    | _ => None
    end in
  if (spec =? 100) || (spec =? 105) then
    match ap with
    | AInt z :: ap => let v := i32 z in
        Some ((if v <? 0 then [ch_minus] else [])
                ++ pad_text width pad (uint_text 10 hex_lower (if v <? 0 then - v else v)), ap)
    | _ => None
    end
  else if spec =? 117 then num 10 hex_lower
  else if spec =? 120 then num 16 hex_lower
  else if spec =? 88 then num 16 hex_upper
  else if spec =? 115 then
    match ap with
    | AStr s :: ap => Some (pad_text width pad (match s with Some s => s | None => zs "(null)" end), ap)
    | _ => None
    end
  else if spec =? 99 then match ap with AInt z :: ap => Some ([u8 z], ap) | _ => None end
  else if spec =? ch_percent then Some ([ch_percent], ap)
  else Some ([ch_percent; spec], ap).

(** One conversion: the format after its [%], to the text and what is left. *)
Definition conv_text (fmt : cstr) (ap : list arg) : option (cstr * cstr * list arg) :=
  let '(pad, fmt) := match fmt with
                     | c :: r => if c =? ch_0 then (ch_0, r) else (ch_space, fmt)
                     | [] => (ch_space, fmt)
                     end in
  match fmt_width 0 fmt with
  | Some (width, spec :: fmt) =>
    match spec_text spec pad width ap with Some (t, ap) => Some (t, fmt, ap) | None => None end
  | _ => None
  end.

Fixpoint fmt_text_loop (n : nat) (fmt : cstr) (ap : list arg) : option cstr :=
  match n with
  | O => None
  | S n' =>
    match fmt with
    | [] => Some []
    | c :: fmt =>
      if negb (c =? ch_percent) then option_map (cons c) (fmt_text_loop n' fmt ap) else
      match conv_text fmt ap with
      | Some (t, fmt, ap) => option_map (app t) (fmt_text_loop n' fmt ap)
      | None => None
      end
    end
  end.
Definition fmt_text (fmt : cstr) (ap : list arg) : option cstr := fmt_text_loop (S (length fmt)) fmt ap.

Lemma fmt_width_shorter w fmt w' fmt' : fmt_width w fmt = Some (w', fmt') -> (length fmt' <= length fmt)%nat.
Proof.
  revert w. induction fmt as [|c fmt IH]; intros w; simpl; [by intros [= _ <-]|].
  case_match; [case_match; [|done]; intros ?%IH; lia|intros [= _ <-]; simpl; lia].
Qed.

Lemma conv_text_shorter fmt ap t fmt' ap' :
  conv_text fmt ap = Some (t, fmt', ap') -> (length fmt' < length fmt)%nat.
Proof.
  unfold conv_text. destruct fmt as [|c fmt]; [simpl; done|]. destruct (c =? ch_0).
  - destruct (fmt_width 0 fmt) as [[w [|sp r]]|] eqn:E; try done. apply fmt_width_shorter in E.
    case_match; [|done]. case_match. intros [= _ <- _]. simpl in *. lia.
  - destruct (fmt_width 0 (c :: fmt)) as [[w [|sp r]]|] eqn:E; try done. apply fmt_width_shorter in E.
    case_match; [|done]. case_match. intros [= _ <- _]. simpl in *. lia.
Qed.

(** The fuel of a format is its length. *)
Lemma fmt_text_fuel n m fmt ap :
  (length fmt < n)%nat -> (length fmt < m)%nat -> fmt_text_loop n fmt ap = fmt_text_loop m fmt ap.
Proof.
  revert m fmt ap. induction n as [|n IH]; intros [|m] fmt ap Hn Hm; [lia..|]. simpl.
  destruct fmt as [|c fmt]; [done|]. simpl in Hn, Hm. destruct (negb _); [by rewrite (IH m) by lia|].
  destruct (conv_text fmt ap) as [[[t fmt'] ap']|] eqn:E; [|done].
  apply conv_text_shorter in E. by rewrite (IH m) by lia.
Qed.

Lemma fmt_text_char c fmt ap : c <> ch_percent -> fmt_text (c :: fmt) ap = option_map (cons c) (fmt_text fmt ap).
Proof. intros Hc. unfold fmt_text. cbn [fmt_text_loop length]. by rewrite (proj2 (Z.eqb_neq _ _) Hc). Qed.

Lemma fmt_text_conv fmt ap :
  fmt_text (ch_percent :: fmt) ap
  = match conv_text fmt ap with
    | Some (t, fmt, ap) => option_map (app t) (fmt_text fmt ap)
    | None => None
    end.
Proof.
  unfold fmt_text at 1. cbn [length]. set (n := S (length fmt)). cbn [fmt_text_loop].
  rewrite Z.eqb_refl. cbn [negb].
  destruct (conv_text fmt ap) as [[[t fmt'] ap']|] eqn:E; [|done].
  apply conv_text_shorter in E. f_equal. unfold fmt_text. apply fmt_text_fuel; lia.
Qed.

(** A literal prefix without [%]. *)
Lemma fmt_text_lit l fmt ap :
  Forall (fun c => c <> ch_percent) l -> fmt_text (l ++ fmt) ap = option_map (app l) (fmt_text fmt ap).
Proof.
  induction 1 as [|c l Hc Hl IH]; simpl; [by destruct (fmt_text fmt ap)|].
  rewrite fmt_text_char by done. rewrite IH. by destruct (fmt_text fmt ap).
Qed.

(** ** The formatter prints that text *)

Section printed.
Context {C : Type} (put : C -> Z -> C).

(** The context after the characters [t]. *)
Definition printed (t : cstr) (f : fmt_ctx_t C) : fmt_ctx_t C :=
  mkFmt (foldl put (f_ctx f) t) (f_count f + zlen t).

Lemma printed_nil f : printed [] f = f.
Proof. destruct f. unfold printed. simpl. by rewrite zlen_nil, Z.add_0_r. Qed.
Lemma printed_app t u f : printed (t ++ u) f = printed u (printed t f).
Proof. unfold printed. simpl. rewrite foldl_app, zlen_app. f_equal. lia. Qed.
Lemma printed_cons c t f : printed (c :: t) f = printed t (fmt_putc put f c).
Proof. unfold printed, fmt_putc. simpl. rewrite zlen_cons. f_equal. lia. Qed.
Lemma fmt_putc_printed f c : fmt_putc put f c = printed [c] f.
Proof. by rewrite printed_cons, printed_nil. Qed.

Lemma fmt_pad_printed n f pad : fmt_pad put n f pad = printed (repeat pad n) f.
Proof.
  revert f. induction n as [|n IH]; intros f; simpl; [by rewrite printed_nil|].
  by rewrite IH, printed_cons.
Qed.
Lemma fmt_puts_printed s f : fmt_puts put s f = printed s f.
Proof.
  revert f. induction s as [|c s IH]; intros f; simpl; [by rewrite printed_nil|].
  by rewrite IH, printed_cons.
Qed.
Lemma fmt_field_printed f s width pad : fmt_field put f s width pad = printed (pad_text width pad s) f.
Proof.
  unfold fmt_field, pad_text. rewrite fmt_puts_printed, printed_app. f_equal.
  destruct (Z.ltb_spec (zlen s) width); [apply fmt_pad_printed|].
  replace (Z.to_nat (width - zlen s)) with 0%nat by lia. simpl. by rewrite printed_nil.
Qed.

Lemma fmt_uint_printed f tmp val base digits width pad :
  length tmp = 32%nat ->
  exists tmp', fmt_uint put f tmp val base digits width pad
               = (printed (pad_text width pad (uint_text base digits val)) f, tmp') /\ length tmp' = 32%nat.
Proof.
  intros Ht. unfold fmt_uint. destruct (uint_to_buf tmp val base digits) as [b len] eqn:E.
  apply uint_to_buf_spec in E as [E1 ->]; [|done]. exists b. by rewrite fmt_field_printed.
Qed.

Lemma fmt_spec_printed spec pad width tmp ap f :
  length tmp = 32%nat ->
  match spec_text spec pad width ap with
  | Some (t, ap') => exists tmp', fmt_spec put spec pad width tmp ap f = Some (printed t f, tmp', ap')
                                  /\ length tmp' = 32%nat
  | None => fmt_spec put spec pad width tmp ap f = None
  end.
Proof.
  intros Ht. unfold spec_text, fmt_spec.
  destruct ((spec =? 100) || (spec =? 105)).
  { destruct ap as [|[z|s] ap]; [done| |done]. cbn zeta.
    assert (forall g v, exists tmp', fmt_uint put g tmp v 10 hex_lower width pad
              = (printed (pad_text width pad (uint_text 10 hex_lower v)) g, tmp') /\ length tmp' = 32%nat) as Hu
      by (intros; by apply fmt_uint_printed).
    assert (- 0x80000000 <= i32 z < 0x80000000) as Hz by (unfold i32; case_match; wsolve).
    destruct (Z.ltb_spec (i32 z) 0) as [Hn|Hp].
    - destruct (Hu (fmt_putc put f ch_minus) (u32 (i32 (- i32 z)))) as (tmp' & -> & Ht').
      exists tmp'. split; [|done]. rewrite printed_app, fmt_putc_printed.
      replace (u32 (i32 (- i32 z))) with (- i32 z); [done|]. revert Hz Hn. generalize (i32 z). intros y Hy Hn.
      unfold i32. case_match; wsolve.
    - destruct (Hu f (u32 (i32 z))) as (tmp' & -> & Ht'). exists tmp'. split; [|done].
      rewrite u32_id by (unfold is_u32; lia). done. }
  unfold fmt_str. rewrite ?fmt_putc_printed, <- ?printed_app.
  destruct (spec =? 117); [|destruct (spec =? 120); [|destruct (spec =? 88)]].
  1-3: destruct ap as [|[z|s] ap]; try done; edestruct fmt_uint_printed as (tmp' & -> & Ht'); [done|];
    by exists tmp'.
  destruct (spec =? 115); [|destruct (spec =? 99); [|destruct (spec =? ch_percent)]].
  1-2: destruct ap as [|[z|s] ap]; try done; exists tmp; by rewrite ?fmt_field_printed, ?fmt_putc_printed.
  all: exists tmp; done.
Qed.

Lemma do_fmt_loop_printed n fmt tmp ap f :
  length tmp = 32%nat ->
  do_fmt_loop put n fmt tmp ap f = option_map (fun t => printed t f) (fmt_text_loop n fmt ap).
Proof.
  revert fmt tmp ap f. induction n as [|n IH]; intros fmt tmp ap f Ht; [done|].
  cbn [do_fmt_loop fmt_text_loop]. destruct fmt as [|c fmt]; [simpl; by rewrite printed_nil|].
  destruct (negb _).
  { rewrite IH by done. destruct (fmt_text_loop n fmt ap); simpl; [by rewrite printed_cons|done]. }
  unfold conv_text. destruct (match fmt with [] => _ | _ => _ end) as [pad fmt1].
  destruct (fmt_width 0 fmt1) as [[w [|sp r]]|]; try done.
  pose proof (fmt_spec_printed sp pad w tmp ap f Ht) as Hs.
  destruct (spec_text sp pad w ap) as [[t ap']|]; [|by rewrite Hs].
  destruct Hs as (tmp' & -> & Ht'). rewrite IH by done.
  destruct (fmt_text_loop n r ap'); simpl; [by rewrite printed_app|done].
Qed.

Lemma do_fmt_printed fmt tmp ap f :
  length tmp = 32%nat -> do_fmt put tmp fmt ap f = option_map (fun t => printed t f) (fmt_text fmt ap).
Proof. apply do_fmt_loop_printed. Qed.
End printed.

(** ** The clients *)

Lemma foldl_serial t out : foldl serial_put out t = out ++ t.
Proof.
  revert out. induction t as [|c t IH]; intros out; simpl; [by rewrite app_nil_r|].
  rewrite IH. unfold serial_put. by rewrite <- app_assoc.
Qed.

(** [ksprintf] keeps a prefix: it moves at most [cap - 1 - pos] characters into the buffer. *)
Lemma foldl_sbuf t b n pos :
  0 <= pos < n -> n <= zlen b ->
  let k := Nat.min (length t) (Z.to_nat (n - 1 - pos)) in
  foldl sbuf_put (mkSbuf b n pos) t
  = mkSbuf (take (Z.to_nat pos) b ++ take k t ++ drop (Z.to_nat pos + k) b) n (pos + Z.of_nat k).
Proof.
  revert b pos. induction t as [|c t IH]; intros b pos Hp Hn; cbn zeta; [simpl|cbn [foldl]].
  { rewrite Z.add_0_r, Nat.add_0_r. by rewrite take_drop. }
  unfold sbuf_put at 2. cbn [sb_pos sb_cap sb_buf]. destruct (Z.ltb_spec (pos + 1) n) as [Hl|Hg].
  - fields. cbn [sb_buf sb_cap sb_pos]. rewrite IH; [|lia|unfold zlen in *; rewrite length_aset; lia].
    set (k := Nat.min (length t) (Z.to_nat (n - 1 - (pos + 1)))).
    replace (Nat.min (length (c :: t)) (Z.to_nat (n - 1 - pos))) with (S k) by (unfold k; cbn [length]; lia).
    f_equal; [|lia]. rewrite take_aset_end by (unfold zlen in *; lia). rewrite <- app_assoc. simpl. do 3 f_equal.
    unfold aset. rewrite drop_insert_lt by lia. f_equal. lia.
  - replace (Z.to_nat (n - 1 - pos)) with 0%nat in * by lia. rewrite IH by done.
    replace (Z.to_nat (n - 1 - pos)) with 0%nat in * by lia.
    rewrite !Nat.min_0_r. done.
Qed.

Lemma kprintf_text fmt ap out :
  kprintf fmt ap out = option_map (fun t => (zlen t, out ++ t)) (fmt_text fmt ap).
Proof.
  unfold kprintf. rewrite do_fmt_printed by done. destruct (fmt_text fmt ap) as [t|]; [|done].
  cbn. by rewrite foldl_serial.
Qed.

Lemma ksprintf_text buf n fmt ap :
  0 < n <= zlen buf ->
  ksprintf (Some buf) n fmt ap
  = option_map (fun t => let kept := take (Z.to_nat (n - 1)) t in
                         (zlen t, Some (kept ++ [0] ++ drop (length kept + 1) buf))) (fmt_text fmt ap).
Proof.
  intros Hn. unfold ksprintf. rewrite (proj2 (Z.eqb_neq n 0)) by lia.
  rewrite do_fmt_printed by done. destruct (fmt_text fmt ap) as [t|]; [|done].
  unfold option_map, printed. cbn [f_ctx f_count]. rewrite foldl_sbuf by lia. cbn [sb_buf sb_pos].
  do 3 f_equal. replace (n - 1 - 0) with (n - 1) by lia.
  assert (take (Nat.min (length t) (Z.to_nat (n - 1))) t = take (Z.to_nat (n - 1)) t) as E.
  { destruct (decide (length t <= Z.to_nat (n - 1))%nat).
    - rewrite Nat.min_l, !take_ge by lia. done.
    - by rewrite Nat.min_r by lia. }
  rewrite E. set (k := take _ t). change (take (Z.to_nat 0) buf) with (@nil Z). simpl.
  replace (Nat.min (length t) (Z.to_nat (n - 1))) with (length k)
    by (unfold k; rewrite length_take; lia).
  assert (length k < length buf)%nat by (unfold k, zlen in *; rewrite length_take; lia).
  unfold aset. rewrite insert_app_r_alt by lia. f_equal.
  destruct (lookup_lt_is_Some_2 buf (length k)) as [x Hx]; [lia|].
  rewrite (drop_S _ _ _ Hx), Nat.add_1_r. replace (Z.to_nat _ - length k)%nat with 0%nat by lia. done.
Qed.

(** What [%u], [%x] and [%X] print for a 32-bit number are digits, at most ten in base 10 and eight
    in base 16, whose value is the number. *)
Lemma uint_text_value base digits val :
  1 < base -> is_u32 val -> aget digits 0 = ch_0 ->
  exists ds, uint_text base digits val = map (aget digits) ds /\ Forall (fun d => 0 <= d < base) ds
    /\ num_value base ds = val /\ (0 < length ds)%nat
    /\ forall k, (0 < k)%nat -> val < base ^ Z.of_nat k -> (length ds <= k)%nat.
Proof.
  intros Hb Hv H0. unfold uint_text. destruct (Z.eqb_spec val 0) as [->|Hne].
  { exists [0]. split; [simpl; by rewrite H0|]. split; [apply Forall_singleton; lia|]. split; [done|].
    split; [simpl; lia|]. intros k Hk _. simpl. lia. }
  exists (digit_vals 32 base val). split; [apply digs_vals|].
  split; [apply digit_vals_range; lia|].
  assert (num_value base (digit_vals 32 base val) = val) as E.
  { apply digit_vals_value; [lia|]. unfold is_u32 in Hv. split; [lia|].
    apply Z.lt_le_trans with (2 ^ 32); [lia|]. apply Z.pow_le_mono_l. lia. }
  split; [done|]. split.
  - destruct (digit_vals 32 base val); [unfold num_value in E; simpl in E; lia|simpl; lia].
  - intros k _ Hk. apply length_digit_vals; [lia|]. unfold is_u32 in Hv. lia.
Qed.

(** C30: [ksprintf] prints what [kprintf] prints, cut to the buffer.  Both print the text of the
    format: [kprintf] sends all of it to the serial port after what was sent before, [ksprintf]
    leaves its first [n - 1] characters in the buffer, terminates them with a NUL, keeps the bytes
    after the NUL and never writes at or after index [n]; both return the length of the whole text,
    and both are undefined for the same formats and arguments. *)
Theorem ksprintf_truncates buf n fmt ap out :
  0 < n <= zlen buf ->
  match kprintf fmt ap out with
  | Some (ret, sent) => exists text,
      sent = out ++ text /\ ret = zlen text
      /\ exists b, ksprintf (Some buf) n fmt ap = Some (ret, Some b) /\ length b = length buf
      /\ let kept := take (Z.to_nat (n - 1)) text in
         take (length kept) b = kept /\ b !! length kept = Some 0
         /\ forall i, (length kept < i)%nat -> b !! i = buf !! i
  | None => ksprintf (Some buf) n fmt ap = None
  end.
Proof.
  intros Hn. rewrite kprintf_text, ksprintf_text by done. destruct (fmt_text fmt ap) as [t|]; [|done].
  cbn [option_map]. exists t. split; [done|]. split; [done|]. set (k := take _ t). cbn zeta. eexists. split; [done|].
  assert (length k < length buf)%nat by (unfold k, zlen in *; rewrite length_take; lia).
  split; [rewrite !length_app, length_drop; simpl; lia|].
  split; [by rewrite take_app_length|].
  split; [rewrite lookup_app_r, Nat.sub_diag by lia; done|].
  intros i Hi. rewrite lookup_app_r by lia. destruct (i - length k)%nat as [|j] eqn:E; [lia|].
  simpl. rewrite lookup_drop. f_equal. lia.
Qed.

Lemma ksprintf_truncates_witness :
  exists b, ksprintf (Some (repeat 7 8)) 6 (zs "n=%04x!") [AInt 0xBEEF] = Some (7, Some b)
            /\ b = zs "n=bee" ++ [0; 7; 7].
Proof.
  pose proof (ksprintf_truncates (repeat 7 8) 6 (zs "n=%04x!") [AInt 0xBEEF] [] ltac:(vm_compute; split; congruence)) as H.
  destruct (kprintf (zs "n=%04x!") [AInt 0xBEEF] []) as [[ret sent]|] eqn:E; [|vm_compute in E; discriminate].
  vm_compute in E. injection E as E1 E2. subst. destruct H as (text & H1 & H2 & b & H3 & H4 & H5 & H6 & H7).
  exists b. split; [exact H3|]. vm_compute in H3. injection H3 as H3. subst. vm_compute. reflexivity.
Defined.

(** ** What the format language leaves out

    The digits of a width are read while they are between 1 and 9, so a width with a 0 in it ends
    at the 0; and the sign of [%d] is printed before the padding and not counted in the width. *)
Lemma kprintf_width_with_zero : kprintf (zs "%10u") [AInt 7] [] = Some (3, zs "%0u").
Proof. vm_compute. reflexivity. Qed.
Lemma kprintf_sign_before_padding : kprintf (zs "%5d") [AInt (-42)] [] = Some (6, zs "-   42").
Proof. vm_compute. reflexivity. Qed.
Lemma kprintf_min_int : kprintf (zs "%d") [AInt 0x80000000] [] = Some (11, zs "-2147483648").
Proof. vm_compute. reflexivity. Qed.
