(* ===== verification/Files.v ===== *)
(** The interface between the file system and its clients in the kernel.

    The image decoder, the desktop and the theme configuration use files through five calls of
    [src/fs/vfs.h], allocate with [kmalloc] and look at the frame buffer.  [Files] is that
    interface, [FilesLaws] what its clients rely on; the virtual file system of [Vfs] implements
    it, and the invariant the laws speak of is the one every reachable state of [VfsSys] has. *)

From S2P Require Import Prelude CString Mounts Memfs ProcessData VfsData Vfs VfsPipe VfsInv VfsOps.

(** A call that may not return yields an [option]; [None] is no result. *)
Class Files (S : Type) := {
  fs_open : option cstr -> Z -> S -> Z * S;              (* vfs_open_flags *)
  fs_close : Z -> S -> S;
  fs_read : Z -> Z -> S -> list Z * S;                   (* into a buffer that is not NULL *)
  fs_write : Z -> list Z -> S -> option (Z * S);         (* of all the bytes given *)
  fs_seek : Z -> Z -> Z -> S -> Z * S;
  fs_size : Z -> S -> Z;
  fs_alloc : Z -> S -> option (Z * list Z) * S;          (* kmalloc *)
  fs_free : Z -> S -> S;
  fs_screen : S -> fb_info_t;                            (* the global fb_info *)
  fs_pixels : S -> list Z;                               (* the bytes at fb_info.addr *)
}.

Class FilesLaws (S : Type) `{Files S} := {
  fs_ok : S -> Prop;
  fs_open_ok path flags s : fs_ok s -> fs_ok (fs_open path flags s).2;
  fs_close_ok fd s : fs_ok s -> fs_ok (fs_close fd s);
  fs_read_ok fd n s : fs_ok s -> 0 <= n -> fs_ok (fs_read fd n s).2;
  fs_read_len fd n s : fs_ok s -> 0 <= n -> zlen (fs_read fd n s).1 <= n;
  fs_write_returns fd l s : fs_ok s -> zlen l <= 2 ^ 62 -> exists n s', fs_write fd l s = Some (n, s') /\ fs_ok s';
  fs_seek_ok fd off wh s : fs_ok s -> 0 <= off < 2 ^ 64 -> fs_ok (fs_seek fd off wh s).2;
  fs_seek_pos fd off wh s : fs_ok s -> 0 <= off < 2 ^ 64 -> 0 <= (fs_seek fd off wh s).1;
  fs_size_pos fd s : fs_ok s -> 0 <= fs_size fd s;
  fs_alloc_ok n s : fs_ok s -> fs_ok (fs_alloc n s).2;
  fs_alloc_block n s a d s' : fs_alloc n s = (Some (a, d), s') -> 0 <= n -> zlen d = n /\ 0 < a;
  fs_free_ok a s : fs_ok s -> fs_ok (fs_free a s);
}.

(** ** The virtual file system implements the interface *)

Section vfs_files.
Context {B : Type} `{VfsEnv B}.

#[export] Instance vfs_files : Files (vst B) := {
  fs_open path flags s := vfs_open_flags path flags s;
  fs_close fd s := vfs_close fd s;
  fs_read fd n s := vfs_read fd true n s;
  fs_write fd l s := vfs_write fd (Some l) (zlen l) s;
  fs_seek fd off wh s := vfs_seek fd off wh s;
  fs_size fd s := vfs_size fd s;
  fs_alloc n s := let '(r, b) := kmalloc n (v_env (vs s)) in (r, s <| vs := vs s <| v_env := b |> |>);
  fs_free a s := s <| vs := vs s <| v_env := kfree a (v_env (vs s)) |> |>;
  fs_screen s := fb_info (v_env (vs s));
  fs_pixels s := fb_mem (v_env (vs s));
}.

Lemma pipe_read_loop_len n p : (length (pipe_read_loop n p).1 <= n)%nat.
Proof.
  revert p. induction n as [|n IH]; intros p; simpl; [lia|].
  repeat case_match; simpl; try lia.
  match goal with E : pipe_read_loop n ?q = (?l, _) |- _ => specialize (IH q); rewrite E in IH; simpl in IH; lia end.
Qed.

Lemma clamp_le size pos count : clamp_count size pos count <= count.
Proof. unfold clamp_count. case_match; lia. Qed.

Lemma copy_out_clamp src size pos count :
  0 <= count -> zlen (copy_out src pos (Z.to_nat (clamp_count size pos count))) <= count.
Proof. intros Hc. unfold zlen. rewrite length_copy_out. pose proof (clamp_le size pos count). lia. Qed.

Lemma vfs_read_len fd n (s : vst B) : 0 <= n -> zlen (vfs_read fd true n s).1 <= n.
Proof.
  intros Hn. assert (zlen (@nil Z) <= n) as H0 by (rewrite zlen_nil; lia).
  unfold vfs_read. destruct (fd_lookup s fd) as [i|]; [|done].
  destruct (negb true || _); [done|]. set (f := file (vs s) i).
  assert (zlen (match reg_buf (f_u f) with
          | None => ([], s)
          | Some (_, data) =>
              if reg_size (f_u f) <=? f_pos f then ([], s) else
              let count := clamp_count (reg_size (f_u f)) (f_pos f) n in
              (copy_out data (f_pos f) (Z.to_nat count),
               s <| vs := set_file i (f <| f_pos := u64 (f_pos f + count) |>) (vs s) |>)
          end).1 <= n) as Hreg.
  { destruct (reg_buf _) as [[a data]|]; [|done]. case_match; [done|]. by apply copy_out_clamp. }
  destruct (f_backend f); try exact Hreg.
  - cbn [fst]. unfold memfs_read. repeat case_match; try done.
    all: unfold zlen; rewrite ?length_copy_out; simpl; lia.
  - destruct (_ || _ || _); [done|]. by apply copy_out_clamp.
  - destruct (u_pipe (f_u f)) as [p|]; [|done]. destruct (negb _); [done|].
    destruct (pipe_read_loop _ _) as [l q] eqn:E. cbn [fst].
    pose proof (pipe_read_loop_len (Z.to_nat (Z.min n (p_size (pipe (vs s) p)))) (pipe (vs s) p)) as Hl.
    rewrite E in Hl. unfold zlen. simpl in Hl. lia.
Qed.

Context `{!VfsEnvLaws B}.

Definition vfs_ok (s : vst B) : Prop := exists o, st_inv o s.

Lemma vfs_ok_keeps s s' : keeps_inv s s' -> vfs_ok s -> vfs_ok s'.
Proof. intros [K _] [o I]. exists o. by apply K. Qed.

Lemma vfs_ok_env s b : vfs_ok s -> vfs_ok (s <| vs := vs s <| v_env := b |> |>).
Proof. apply vfs_ok_keeps, keeps_vs; [|done]. intros o u I. by apply inv_env. Qed.

Lemma size_for_seek_pos o s fd i : st_inv o s -> fd_lookup s fd = Some i ->
  f_backend (file (vs s) i) <> VFS_BACKEND_PIPE -> 0 <= size_for_seek (file (vs s) i) (vs s).
Proof.
  intros I El Hb. destruct (lookup_file o s fd i I El) as (_ & _ & _ & _ & Hok). unfold file_ok, size_for_seek in *.
  destruct (f_u (file (vs s) i)) as [buf sz cap ow|ino|po r w|k idx].
  - cbn [reg_size]. destruct Hok as (_ & ? & ? & ? & _). destruct (f_backend _); done || lia.
  - destruct Hok as (-> & _). cbn [u_inode]. apply memfs_size_bounds. apply (vi_mem _ _ _ _ I).
  - by destruct Hok as (? & _).
  - destruct Hok as (-> & _). pose proof (fb_size_bounds (v_env (vs s))). case_bool_decide; lia.
Qed.

Lemma vfs_seek_pos o fd off wh s : st_inv o s -> 0 <= off < 2 ^ 64 -> 0 <= (vfs_seek fd off wh s).1.
Proof.
  intros I Ho. unfold vfs_seek. destruct (fd_lookup s fd) as [i|] eqn:El; [|done].
  case_bool_decide as Hb; [done|]. pose proof (size_for_seek_pos o s fd i I El Hb) as Hs.
  destruct (if wh =? VFS_SEEK_SET then Some off else _) as [p|] eqn:E; [|done]. cbn [fst].
  assert (0 <= p) as Hp.
  { revert E. repeat case_match; intros [= <-]; try lia; apply u64_range. }
  destruct (Z.ltb_spec (size_for_seek (file (vs s) i) (vs s)) p); lia.
Qed.

Lemma vfs_size_pos o fd s : st_inv o s -> 0 <= vfs_size fd s.
Proof.
  intros I. unfold vfs_size. destruct (fd_lookup s fd) as [i|] eqn:El; [|done].
  pose proof (size_for_seek_pos o s fd i I El) as Hs. destruct (f_backend _); try (by apply Hs).
  destruct (u_pipe _) as [p|] eqn:Ep; [|done]. destruct (file_pipe_ok o s fd i p I El Ep) as (_ & _ & _ & ? & _). lia.
Qed.

#[export] Instance vfs_files_laws : FilesLaws (vst B).
Proof.
  refine {| fs_ok := vfs_ok |}; cbn [fs_open fs_close fs_read fs_write fs_seek fs_alloc fs_free vfs_files].
  - intros path flags s. apply vfs_ok_keeps, keeps_open.
  - intros fd s. apply vfs_ok_keeps, keeps_close.
  - intros fd n s I Hn. revert I. by apply vfs_ok_keeps, keeps_read.
  - intros fd n s _. apply vfs_read_len.
  - intros fd l s I Hl. destruct (keeps_write fd (Some l) s I) as (n & s' & E & K); [by intros ? [= <-]|].
    exists n, s'. split; [done|]. by apply (vfs_ok_keeps s).
  - intros fd off wh s I Ho. revert I. by apply vfs_ok_keeps, keeps_seek.
  - intros fd off wh s [o I] Ho. by apply (vfs_seek_pos o).
  - intros fd s [o I]. by apply (vfs_size_pos o).
  - intros n s I. destruct (kmalloc n _) as [r b]. by apply vfs_ok_env.
  - intros n s a d s'. destruct (kmalloc n _) as [r b] eqn:E. intros [= -> _] Hn.
    destruct (kmalloc_block _ _ _ _ _ E Hn) as (? & ? & _). done.
  - intros a s. apply vfs_ok_env.
Defined.
End vfs_files.
