(* ===== verification/Bmp.v ===== *)
(** The BMP decoder ([src/gfx/bmp.c]) and the loops the image code shares.

    A file is the list of its bytes; a read outside it is [None], undefined behaviour.  A pixel
    buffer is a list of 32-bit ARGB words, row by row.  The functions that use files or the heap are
    over the interface [Files]. *)

From S2P Require Import VfsSys VfsProps.
From S2P Require Import Prelude CString VfsData Files.

(** ** Loops that may be undefined *)

(** [for (k = i; k < i + n; k++) s = f k s], where the body can be undefined. *)
Fixpoint for_some {S : Type} (n : nat) (i : Z) (f : Z -> S -> option S) (s : S) : option S :=
  match n with
  | O => Some s
  | Datatypes.S n' => match f i s with Some s => for_some n' (i + 1) f s | None => None end
  end.

Lemma for_some_inv {S} (I : Z -> S -> Prop) (n : nat) (i : Z) f (s : S) :
  I i s ->
  (forall k s', i <= k < i + Z.of_nat n -> I k s' -> exists s'', f k s' = Some s'' /\ I (k + 1) s'') ->
  exists s', for_some n i f s = Some s' /\ I (i + Z.of_nat n) s'.
Proof.
  revert i s. induction n as [|n IH]; intros i s H0 Hstep; simpl.
  - exists s. by rewrite Z.add_0_r.
  - destruct (Hstep i s) as (s1 & -> & H1); [lia|done|].
    destruct (IH (i + 1) s1 H1) as (s2 & -> & H2).
    { intros k s' Hk. apply Hstep. lia. }
    exists s2. split; [done|]. by replace (i + Z.of_nat (Datatypes.S n)) with (i + 1 + Z.of_nat n) by lia.
Qed.

(** ** Little-endian fields *)

Definition byte_at (p : list Z) (off : Z) : option Z := if off <? 0 then None else p !! Z.to_nat off.

Definition u16le (p : list Z) (off : Z) : option Z :=
  match byte_at p off, byte_at p (off + 1) with
  | Some a, Some b => Some (Z.lor a (Z.shiftl b 8))
  | _, _ => None
  end.

Definition u32le (p : list Z) (off : Z) : option Z :=
  match byte_at p off, byte_at p (off + 1), byte_at p (off + 2), byte_at p (off + 3) with
  | Some a, Some b, Some c, Some d =>
      Some (Z.lor (Z.lor (Z.lor a (Z.shiftl b 8)) (Z.shiftl c 16)) (Z.shiftl d 24))
  | _, _, _, _ => None
  end.

Definition s32le (p : list Z) (off : Z) : option Z := option_map i32 (u32le p off).

Definition BFH_SIZE : Z := 14.
Definition BI_RGB : Z := 0.
Definition BI_BITFIELDS : Z := 3.

(** The bytes of a block seen as 32-bit words. *)
Fixpoint words (l : list Z) : list Z :=
  match l with
  | a :: b :: c :: d :: l => Z.lor (Z.lor (Z.lor a (Z.shiftl b 8)) (Z.shiftl c 16)) (Z.shiftl d 24) :: words l
  | _ => []
  end.

(** A decoded image: the address of its pixel block, its size and its pixels. *)
Record bitmap := mkBitmap { bm_addr : Z; bm_w : Z; bm_h : Z; bm_px : list Z }.

(** What the header says. *)
Record bmp_info := mkInfo {
  bi_offset : Z;       (* pixel_offset *)
  bi_w : Z;            (* img_w *)
  bi_h : Z;            (* img_h *)
  bi_bottom_up : bool;
  bi_bpp : Z;
  bi_stride : Z;       (* row_stride *)
}.

(** The part of [bmp_decode] before the pixels are allocated: [None] is a read past the end of the
    file, [Some None] the return of NULL. *)
Definition bmp_header (data : list Z) : option (option bmp_info) :=
  let size := zlen data in
  if size <? BFH_SIZE + 4 then Some None else
  match byte_at data 0, byte_at data 1, u32le data 10, u32le data BFH_SIZE with
  | Some m0, Some m1, Some pixel_offset, Some bih_size =>
    if negb (m0 =? 66) || negb (m1 =? 77) then Some None else          (* 'B', 'M' *)
    if size <=? pixel_offset then Some None else
    if size <? u32 (BFH_SIZE + bih_size) then Some None else
    match s32le data (BFH_SIZE + 4), s32le data (BFH_SIZE + 8), u16le data (BFH_SIZE + 14),
          (if 20 <=? bih_size then u32le data (BFH_SIZE + 16) else Some BI_RGB) with
    | Some bmp_w, Some bmp_h, Some bpp, Some compr =>
      if (bmp_w <=? 0) || (4096 <? bmp_w) || (bmp_h =? 0) || (bmp_h <? -4096) then Some None else
      if negb (bpp =? 24) && negb (bpp =? 32) then Some None else
      if negb (compr =? BI_RGB) && negb (compr =? BI_BITFIELDS) then Some None else
      let bottom_up := 0 <? bmp_h in
      let img_w := bmp_w in
      let img_h := if bottom_up then bmp_h else - bmp_h in
      let bytes_per_px := bpp / 8 in
      let row_stride := Z.land (img_w * bytes_per_px + 3) (Z.lnot 3) in
      if size <? u64 (pixel_offset + u64 (row_stride * img_h)) then Some None else
      Some (Some (mkInfo pixel_offset img_w img_h bottom_up bpp row_stride))
    | _, _, _, _ => None
    end
  | _, _, _, _ => None
  end.

(** The pixel whose bytes start at [src]. *)
Definition bmp_pixel (data : list Z) (bpp src : Z) : option Z :=
  match byte_at data src, byte_at data (src + 1), byte_at data (src + 2),
        (if bpp =? 32 then byte_at data (src + 3) else Some 0xFF) with
  | Some b, Some g, Some r, Some a =>
      Some (Z.lor (Z.lor (Z.lor (Z.shiftl a 24) (Z.shiftl r 16)) (Z.shiftl g 8)) b)
  | _, _, _, _ => None
  end.

(** A store into a pixel block; outside it is undefined. *)
Definition store_at (i x : Z) (l : list Z) : option (list Z) :=
  if (0 <=? i) && (i <? zlen l) then Some (aset i x l) else None.

(** The two pixel loops of [bmp_decode]. *)
Definition bmp_rows (data : list Z) (h : bmp_info) (pixels : list Z) : option (list Z) :=
  for_some (Z.to_nat (bi_h h)) 0 (fun row pixels =>
    let bmp_row := if bi_bottom_up h then bi_h h - 1 - row else row in
    let src := bi_offset h + bmp_row * bi_stride h in
    option_map snd
      (for_some (Z.to_nat (bi_w h)) 0 (fun col '(src, pixels) =>
         match bmp_pixel data (bi_bpp h) src with
         | Some px => match store_at (row * bi_w h + col) px pixels with
                      | Some pixels => Some (src + bi_bpp h / 8, pixels)
                      | None => None
                      end
         | None => None
         end) (src, pixels))) pixels.

Section bmp.
Context {S : Type} `{Files S}.
Implicit Types s : S.

Definition bmp_decode (data : list Z) s : option (option bitmap * S) :=
  match bmp_header data with
  | None => None
  | Some None => Some (None, s)
  | Some (Some h) =>
      match fs_alloc (u64 (u64 (i32 (bi_w h * bi_h h)) * 4)) s with
      | (None, s) => Some (None, s)
      | (Some (a, d), s) =>
          match bmp_rows data h (words d) with
          | Some px => Some (Some (mkBitmap a (bi_w h) (bi_h h) px), s)
          | None => None
          end
      end
  end.

(** The block and its bytes, or NULL. *)
Definition read_vfs_file (path : option cstr) s : option (Z * list Z) * S :=
  let '(fd, s) := fs_open path VFS_O_RDONLY s in
  if fd <? 0 then (None, s) else
  let '(sz, s) := fs_seek fd 0 VFS_SEEK_END s in
  if (sz =? U64_MAX) || (sz =? 0) then (None, fs_close fd s) else
  let '(_, s) := fs_seek fd 0 VFS_SEEK_SET s in
  match fs_alloc sz s with
  | (None, s) => (None, fs_close fd s)
  | (Some (a, d), s) =>
      let '(got, s) := fs_read fd sz s in
      let s := fs_close fd s in
      if zlen got <? sz then (None, fs_free a s)
      else (Some (a, copy_in d 0 got (length got)), s)
  end.

(** The return value, with the image on success. *)
Definition bmp_load_to_buf (path : option cstr) s : option (Z * option bitmap * S) :=
  match read_vfs_file path s with
  | (None, s) => Some (-1, None, s)
  | (Some (a, data), s) =>
      match bmp_decode data s with
      | None => None
      | Some (r, s) =>
          let s := fs_free a s in
          match r with
          | None => Some (-1, None, s)
          | Some b => Some (0, Some b, s)
          end
      end
  end.
End bmp.

(** ** The decoder stays inside the file and the pixel block *)

Definition bytes_ok (data : list Z) : Prop := Forall is_u8 data.

Lemma byte_at_in p off : 0 <= off < zlen p -> byte_at p off = Some (aget p off).
Proof.
  intros Ho. unfold byte_at, aget, zlen in *. rewrite (proj2 (Z.ltb_ge off 0)) by lia.
  destruct (lookup_lt_is_Some_2 p (Z.to_nat off)) as [x Hx]; [lia|].
  by rewrite Hx, (list_lookup_total_correct _ _ _ Hx).
Qed.

Lemma byte_at_u8 p off x : bytes_ok p -> byte_at p off = Some x -> is_u8 x.
Proof.
  intros Hp. unfold byte_at. case_match; [done|]. intros E. by apply (Forall_lookup_1 _ _ _ _ Hp E).
Qed.

(** What the decoder knows of an accepted header. *)
Record info_ok (data : list Z) (h : bmp_info) : Prop := {
  io_w : 0 < bi_w h <= 4096;
  io_h : 0 < bi_h h;
  io_bpp : bi_bpp h = 24 \/ bi_bpp h = 32;
  io_stride : bi_w h * (bi_bpp h / 8) <= bi_stride h;
  io_offset : 0 <= bi_offset h;
  io_end : bi_offset h + bi_stride h * bi_h h <= zlen data;
}.

Lemma byte_or a b k : 0 <= k -> 0 <= a < 2 ^ k -> is_u8 b -> 0 <= Z.lor a (Z.shiftl b k) < 2 ^ (k + 8).
Proof.
  intros Hk Ha Hb. rewrite lor_shiftl_add by done. unfold is_u8 in Hb. rewrite Z.pow_add_r by lia. nia.
Qed.

Lemma u32le_range data off v : bytes_ok data -> u32le data off = Some v -> is_u32 v.
Proof.
  intros Hd. unfold u32le. repeat (case_match; [|done]). intros [= <-].
  repeat match goal with E : byte_at _ _ = Some _ |- _ => apply (byte_at_u8 _ _ _ Hd) in E end.
  apply (byte_or _ _ 24); [lia| |done]. apply (byte_or _ _ 16); [lia| |done]. apply (byte_or _ _ 8); [lia| |done].
  done.
Qed.

(** Rounding a row up to a multiple of four. *)
Lemma stride_round n : 0 <= n < 2 ^ 30 -> Z.land (n + 3) (Z.lnot 3) = (n + 3) / 4 * 4.
Proof.
  intros Hn. rewrite <- (Z.ldiff_land (n + 3) 3). change 3 with (Z.ones 2) at 2.
  rewrite Z.ldiff_ones_r by lia. rewrite Z.shiftr_div_pow2, Z.shiftl_mul_pow2 by lia. done.
Qed.

Lemma bmp_header_ok data h : bytes_ok data -> zlen data < 2 ^ 32 -> bmp_header data = Some (Some h) -> info_ok data h.
Proof.
  intros Hd Hlen. unfold bmp_header. destruct (zlen data <? BFH_SIZE + 4); [done|].
  destruct (byte_at data 0) as [m0|]; [|done]. destruct (byte_at data 1) as [m1|]; [|done].
  destruct (u32le data 10) as [off|] eqn:Eoff; [|done].
  destruct (u32le data BFH_SIZE) as [bih|]; [|done].
  destruct (_ || _); [done|]. destruct (_ <=? off); [done|]. destruct (_ <? u32 _); [done|].
  destruct (s32le data (BFH_SIZE + 4)) as [w|]; [|done].
  destruct (s32le data (BFH_SIZE + 8)) as [ht|] eqn:Eh; [|done].
  destruct (u16le data (BFH_SIZE + 14)) as [bpp|]; [|done].
  destruct (if 20 <=? bih then _ else _) as [compr|]; [|done].
  destruct ((w <=? 0) || (4096 <? w) || (ht =? 0) || (ht <? -4096)) eqn:Ew; [done|].
  destruct (negb (bpp =? 24) && negb (bpp =? 32)) eqn:Eb; [done|].
  destruct (negb (compr =? _) && _); [done|]. cbn zeta. set (img_h := if 0 <? ht then ht else - ht).
  apply (u32le_range _ _ _ Hd) in Eoff. unfold is_u32 in Eoff.
  assert (ht < 0x80000000) as Hht.
  { unfold s32le in Eh. destruct (u32le data _) as [z|]; [|done]. injection Eh as <-. apply i32_range. }
  assert (0 < img_h < 0x80000000) as Hh by (unfold img_h; destruct (Z.ltb_spec 0 ht); lia).
  assert (bpp = 24 \/ bpp = 32) as Hb
    by (destruct (Z.eqb_spec bpp 24), (Z.eqb_spec bpp 32); [by left..|by right|done]).
  assert (0 <= w * (bpp / 8) <= 16384) as Hwb by (destruct Hb as [-> | ->]; [change (24 / 8) with 3|change (32 / 8) with 4]; lia).
  rewrite stride_round by lia. set (st := (w * (bpp / 8) + 3) / 4 * 4).
  assert (w * (bpp / 8) <= st <= w * (bpp / 8) + 3) as Hst by (unfold st; Z.div_mod_to_equations; lia).
  assert (0 <= st * img_h < 2 ^ 46) as Hprod by nia.
  rewrite (u64_id (st * img_h)), u64_id by (unfold is_u64; lia).
  destruct (Z.ltb_spec (zlen data) (off + st * img_h)); [done|]. intros [= <-].
  split; cbn; lia || done.
Qed.

(** The pixel of row [r], column [c] of the image: where the file has it. *)
Definition file_pixel (data : list Z) (h : bmp_info) (r c : Z) : option Z :=
  bmp_pixel data (bi_bpp h)
    (bi_offset h + (if bi_bottom_up h then bi_h h - 1 - r else r) * bi_stride h + c * (bi_bpp h / 8)).

Lemma file_pixel_some data h r c :
  info_ok data h -> 0 <= r < bi_h h -> 0 <= c < bi_w h -> exists px, file_pixel data h r c = Some px.
Proof.
  intros I Hr Hc. unfold file_pixel, bmp_pixel. set (q := if bi_bottom_up h then _ else _).
  assert (0 <= q < bi_h h) as Hq by (unfold q; case_match; lia).
  pose proof (io_stride _ _ I). pose proof (io_end _ _ I). pose proof (io_offset _ _ I). pose proof (io_w _ _ I).
  set (b := bi_bpp h / 8) in *.
  assert (bi_bpp h = 24 /\ b = 3 \/ bi_bpp h = 32 /\ b = 4) as Hb
    by (unfold b; destruct (io_bpp _ _ I) as [-> | ->]; [by left|by right]).
  assert (0 <= q * bi_stride h /\ 0 <= c * b /\ q * bi_stride h + c * b + b <= bi_stride h * bi_h h) as (Hq0 & Hc0 & Hin).
  { assert (0 <= bi_stride h) by nia. split; [nia|]. split; [nia|].
    assert (c * b + b <= bi_stride h) by nia. nia. }
  rewrite !byte_at_in by lia.
  destruct Hb as [[-> Hb]|[-> Hb]]; cbn; [by eexists|]. rewrite byte_at_in by lia. by eexists.
Qed.

(** One row. *)
Lemma bmp_row_loop data h row q src0 px L :
  info_ok data h -> 0 <= row < bi_h h -> bi_w h * bi_h h <= L -> zlen px = L ->
  src0 = bi_offset h + q * bi_stride h -> q = (if bi_bottom_up h then bi_h h - 1 - row else row) ->
  exists src px',
    for_some (Z.to_nat (bi_w h)) 0 (fun col '(src, pixels) =>
         match bmp_pixel data (bi_bpp h) src with
         | Some px => match store_at (row * bi_w h + col) px pixels with
                      | Some pixels => Some (src + bi_bpp h / 8, pixels)
                      | None => None
                      end
         | None => None
         end) (src0, px) = Some (src, px')
    /\ zlen px' = L
    /\ (forall i, 0 <= i < row * bi_w h -> aget px' i = aget px i)
    /\ forall c, 0 <= c < bi_w h -> file_pixel data h row c = Some (aget px' (row * bi_w h + c)).
Proof.
  intros I Hrow HL Hpx -> Hq. pose proof (io_w _ _ I) as Hw.
  assert (0 <= row * bi_w h /\ row * bi_w h + bi_w h <= L) as [Hlo Hhi] by nia.
  edestruct (for_some_inv (fun col '(src, p) =>
      src = bi_offset h + q * bi_stride h + col * (bi_bpp h / 8) /\ zlen p = L
      /\ (forall i, 0 <= i < row * bi_w h -> aget p i = aget px i)
      /\ forall c, 0 <= c < col -> file_pixel data h row c = Some (aget p (row * bi_w h + c)))
    (Z.to_nat (bi_w h)) 0) as ([src px'] & E & HI).
  3: { exists src, px'. split; [exact E|]. rewrite Z.add_0_l, Z2Nat.id in HI by lia. by destruct HI as (_ & ? & ? & ?). }
  - split; [lia|]. split; [exact Hpx|]. split; [done|]. lia.
  - intros c [src p] Hc (-> & Hp & Hold & Hnew).
    destruct (file_pixel_some data h row c I Hrow) as [v Ev]; [lia|].
    assert (bmp_pixel data (bi_bpp h) (bi_offset h + q * bi_stride h + c * (bi_bpp h / 8)) = Some v) as Ev'
      by (rewrite Hq; exact Ev).
    rewrite Ev'. unfold store_at. rewrite (proj2 (Z.leb_le 0 _)), (proj2 (Z.ltb_lt _ (zlen p))) by lia. cbn [andb].
    eexists. split; [done|]. split; [lia|]. unfold zlen in *. rewrite length_aset. split; [done|]. split.
    + intros i Hi. rewrite aget_aset_ne by lia. by apply Hold.
    + intros c' Hc'. destruct (decide (c' = c)) as [->|].
      * by rewrite aget_aset_eq by lia.
      * rewrite aget_aset_ne by lia. apply Hnew. lia.
Qed.

(** The pixel loops return, and every pixel is the one the file has. *)
Lemma bmp_rows_exact data h px :
  info_ok data h -> bi_w h * bi_h h <= zlen px ->
  exists px', bmp_rows data h px = Some px' /\ zlen px' = zlen px
    /\ forall r c, 0 <= r < bi_h h -> 0 <= c < bi_w h ->
         file_pixel data h r c = Some (aget px' (r * bi_w h + c)).
Proof.
  intros I HL. pose proof (io_w _ _ I) as Hw. pose proof (io_h _ _ I) as Hh. unfold bmp_rows.
  edestruct (for_some_inv (fun row p => zlen p = zlen px
      /\ forall r c, 0 <= r < row -> 0 <= c < bi_w h -> file_pixel data h r c = Some (aget p (r * bi_w h + c)))
    (Z.to_nat (bi_h h)) 0) as (px' & E & HI).
  3: { exists px'. split; [exact E|]. rewrite Z.add_0_l, Z2Nat.id in HI by lia. exact HI. }
  - split; [done|]. lia.
  - intros row p Hr (Hp & Hdone). cbn zeta.
    edestruct (bmp_row_loop data h row) as (src & p' & -> & Hp' & Hold & Hnew);
      [exact I|lia|exact HL|exact Hp|reflexivity|reflexivity|].
    cbn [option_map snd]. exists p'. split; [done|]. split; [done|].
    intros r c Hrr Hc. destruct (decide (r = row)) as [->|]; [by apply Hnew|].
    rewrite Hold by nia. apply Hdone; lia.
Qed.

Lemma length_words l : length (words l) = (length l / 4)%nat.
Proof.
  revert l. fix IH 1. intros [|a [|b [|c [|d l]]]]; try reflexivity.
  cbn [words length]. rewrite IH. replace (S (S (S (S (length l))))) with (length l + 1 * 4)%nat by lia.
  by rewrite Nat.div_add, Nat.add_1_r by lia.
Qed.

(** With its 14 + 20 bytes of headers in the file, every read of the header is inside it. *)
Lemma bmp_header_total data : 34 <= zlen data -> exists r, bmp_header data = Some r.
Proof.
  intros Hlen. unfold bmp_header, s32le, u16le, u32le, BFH_SIZE. rewrite !byte_at_in by lia. cbn [option_map].
  repeat case_match; try done; eauto.
Qed.

Section decode.
Context {S : Type} `{FilesLaws S}.
Implicit Types s : S.

(** An accepted header gives an image of its size with the file's pixels, or no memory. *)
Lemma bmp_decode_header data s h :
  bmp_header data = Some (Some h) -> info_ok data h -> zlen data < 2 ^ 32 ->
  exists s', (bmp_decode data s = Some (None, s') /\ (fs_alloc (4 * (bi_w h * bi_h h)) s).1 = None)
    \/ exists b, bmp_decode data s = Some (Some b, s')
         /\ bm_w b = bi_w h /\ bm_h b = bi_h h /\ zlen (bm_px b) = bi_w h * bi_h h
         /\ forall r c, 0 <= r < bi_h h -> 0 <= c < bi_w h ->
              file_pixel data h r c = Some (aget (bm_px b) (r * bi_w h + c)).
Proof.
  intros Eh I Hlen. unfold bmp_decode. rewrite Eh.
  assert (0 < bi_w h * bi_h h < 2 ^ 31) as Hwh.
  { pose proof (io_w _ _ I). pose proof (io_h _ _ I). pose proof (io_stride _ _ I). pose proof (io_end _ _ I).
    pose proof (io_offset _ _ I). split; [nia|].
    assert (3 <= bi_bpp h / 8) by (destruct (io_bpp _ _ I) as [-> | ->]; vm_compute; congruence).
    assert (3 * bi_w h <= bi_stride h) by nia. nia. }
  replace (u64 (u64 (i32 (bi_w h * bi_h h)) * 4)) with (4 * (bi_w h * bi_h h)).
  2: { rewrite i32_small by lia. rewrite (u64_id (bi_w h * bi_h h)), u64_id by (unfold is_u64; lia). lia. }
  destruct (fs_alloc (4 * (bi_w h * bi_h h)) s) as [[[a d]|] s1] eqn:Ea.
  2: { exists s1. by left. }
  apply fs_alloc_block in Ea as Hb; [|lia]. destruct Hb as [Hdl _].
  assert (zlen (words d) = bi_w h * bi_h h) as Hw.
  { unfold zlen in *. rewrite length_words, Nat2Z.inj_div. rewrite Hdl. Z.div_mod_to_equations. lia. }
  destruct (bmp_rows_exact data h (words d) I) as (px & Epx & Hpl & Hpx); [lia|]. rewrite Epx.
  exists s1. right. eexists. split; [done|]. cbn. split_and!; try done. lia.
Qed.

(** C31: the decoder is safe on untrusted files.  For any file of at least 34 bytes - whatever its
    headers say - every read of [bmp_decode] is inside the file and every store inside the pixel
    block, and the function returns: NULL, or an image whose width and height are those of the
    header, at most 4096 pixels wide, and whose every pixel is the one the file has at its place,
    for bottom-up and top-down images of 24 and 32 bits. *)
Theorem bmp_decode_safe data s :
  bytes_ok data -> 34 <= zlen data < 2 ^ 32 ->
  exists r s', bmp_decode data s = Some (r, s')
    /\ match r with
       | None => True
       | Some b => exists h, bmp_header data = Some (Some h) /\ info_ok data h
           /\ bm_w b = bi_w h /\ bm_h b = bi_h h /\ zlen (bm_px b) = bi_w h * bi_h h
           /\ forall r c, 0 <= r < bi_h h -> 0 <= c < bi_w h ->
                file_pixel data h r c = Some (aget (bm_px b) (r * bi_w h + c))
       end.
Proof.
  intros Hd Hlen. destruct (bmp_header_total data) as [[h|] Eh]; [lia| |].
  2: { exists None, s. unfold bmp_decode. rewrite Eh. done. }
  pose proof (bmp_header_ok data h Hd ltac:(lia) Eh) as I.
  destruct (bmp_decode_header data s h Eh I) as (s' & [[E _]|(b & E & Hb)]); [lia| |].
  - by exists None, s'.
  - exists (Some b), s'. split; [done|]. exists h. done.
Qed.
End decode.

(** A machine whose disk holds a one-pixel image. *)
Definition ex_bmp : list Z :=
  [66; 77] ++ repeat 0 8 ++ [54; 0; 0; 0; 40; 0; 0; 0; 1; 0; 0; 0; 1; 0; 0; 0; 1; 0; 24; 0] ++ repeat 0 24
    ++ [10; 20; 30; 0].
Definition ex_bmp_path : option cstr := Some [47; 102; 97; 116; 49; 50; 47; 119].   (* "/fat12/w" *)
Definition ex_files : vst machine :=
  caller (vsys_init ex_boot (mkMachine 1%positive [([47; 119], ex_bmp)] (repeat 0 32)) 1) None.

Lemma bmp_decode_safe_witness :
  exists b s', bmp_decode ex_bmp ex_files = Some (Some b, s') /\ aget (bm_px b) 0 = 0xFF1E140A.
Proof.
  destruct (bmp_decode_safe ex_bmp ex_files) as (r & s' & E & Hr).
  - repeat constructor; discriminate.
  - vm_compute. split; [discriminate|reflexivity].
  - destruct r as [b|].
    2: { exfalso. assert (option_map (fun r => bool_decide (r.1 = None)) (bmp_decode ex_bmp ex_files) = Some false) as E2
           by (vm_compute; reflexivity). rewrite E in E2. discriminate E2. }
    exists b, s'. split; [exact E|]. destruct Hr as (h & Eh & _ & Ew & _ & _ & Hpx).
    assert (bmp_header ex_bmp = Some (Some (mkInfo 54 1 1 true 24 4))) as E2 by (vm_compute; reflexivity).
    rewrite E2 in Eh. injection Eh as <-. specialize (Hpx 0 0 ltac:(split; reflexivity || discriminate) ltac:(split; reflexivity || discriminate)).
    vm_compute in Hpx. change (0 * 1 + 0) with 0 in Hpx. injection Hpx as Hpx. symmetry. exact Hpx.
Defined.

(** A file shorter than its headers: the test before the header reads only covers the size the file
    itself gives for the info header, so a file of 18 bytes is read past its end. *)
Definition short_bmp : list Z := [66; 77] ++ repeat 0 16.
Lemma bmp_header_overread : zlen short_bmp = 18 /\ bmp_header short_bmp = None.
Proof. vm_compute. done. Qed.
