(* ===== verification/Wallpaper.v ===== *)
(** The desktop background ([src/gfx/desktop.c]): the wallpaper cache, the theme the desktop shows,
    and the screenshot writer.

    The desktop's statics are the record [desk], which holds the window manager because every change
    of the background marks the whole screen dirty.  Files, heap and frame buffer are behind
    [Files].  [None] is undefined behaviour: a read past the end of an image file, an index outside
    a pixel block, a division by zero. *)

From S2P Require Import VfsSys VfsProps.
From S2P Require Import Prelude CString VfsData Files Bmp.
From S2P Require Wm.

Definition DESKTOP_BG_MODE_GRADIENT : Z := 0.
Definition DESKTOP_BG_MODE_SOLID : Z := 1.
Definition DESKTOP_BG_MODE_WALLPAPER : Z := 2.
Definition DESKTOP_WALLPAPER_SCALE_FILL : Z := 0.
Definition DESKTOP_WALLPAPER_CENTER : Z := 1.
Definition THEME_BG_TOP : Z := 0xFF0D1B2A.
Definition THEME_BG_BOT : Z := 0xFF1B2838.
Definition THEME_ACCENT_DEFAULT : Z := 0xFF4FC3F7.
Definition WALLPAPER_PATH_MAX : Z := 128.

Record desk := mkDesk {
  g_accent_color : Z;
  wallpaper_bg_mode : Z;
  wallpaper_solid_color : Z;
  wallpaper_style : Z;
  wallpaper_path : cstr;
  wallpaper_pixels : option (Z * list Z);
  dk_wm : Wm.wm;
}.
#[export] Instance desk_rebuild : Rebuild desk := fun d =>
  mkDesk (g_accent_color d) (wallpaper_bg_mode d) (wallpaper_solid_color d) (wallpaper_style d) (wallpaper_path d)
    (wallpaper_pixels d) (dk_wm d).

(** The statics at start. *)
Definition desk_init (m : Wm.wm) : desk :=
  mkDesk THEME_ACCENT_DEFAULT DESKTOP_BG_MODE_GRADIENT THEME_BG_BOT DESKTOP_WALLPAPER_SCALE_FILL [] None m.

(** ** Helpers *)

(** [copy_small_string(dst, cap, src)]: the string [dst] is left with. *)
Definition copy_small_string (dst : cstr) (cap : Z) (src : option cstr) : cstr :=
  if cap =? 0 then dst else
  match src with None => [] | Some src => (copy_upto (Z.to_nat (cap - 1)) src).1 end.

Definition str_len (s : option cstr) : Z := match s with Some s => zlen s | None => 0 end.

Definition rgb (r g b : Z) : Z := Z.lor (Z.lor (Z.lor 0xFF000000 (Z.shiftl r 16)) (Z.shiftl g 8)) b.

(** One channel of the gradient: [(uint8_t)((top * it + bot * t) >> 8)]. *)
Definition gradient_channel (top bot t it : Z) : Z := u8 (Z.shiftr (u32 (u32 (top * it) + u32 (bot * t))) 8).

Definition desktop_gradient_at_y (py : Z) (fb : fb_info_t) : Z :=
  let chan c k := Z.land (Z.shiftr c k) 0xFF in
  let sh := i32 (fb_height fb) in
  let t := if 1 <? sh then u32 (u32 py * 255) / u32 (sh - 1) else 0 in
  let it := u32 (255 - t) in
  rgb (gradient_channel (chan THEME_BG_TOP 16) (chan THEME_BG_BOT 16) t it)
      (gradient_channel (chan THEME_BG_TOP 8) (chan THEME_BG_BOT 8) t it)
      (gradient_channel (chan THEME_BG_TOP 0) (chan THEME_BG_BOT 0) t it).

Definition mark_screen (fb : fb_info_t) (d : desk) : desk :=
  d <| dk_wm := Wm.wm_mark_dirty_rect 0 0 (i32 (fb_width fb)) (i32 (fb_height fb)) (dk_wm d) |>.

(** ** The wallpaper cache *)

Definition pixel_at (l : list Z) (i : Z) : option Z := if i <? 0 then None else l !! Z.to_nat i.

(** The centred image over the gradient. *)
Definition cache_center (fb : fb_info_t) (raw : list Z) (bw bh sw sh : Z) (cache : list Z) : option (list Z) :=
  let draw_w := if bw <? sw then bw else sw in
  let draw_h := if bh <? sh then bh else sh in
  let dst_x := Z.quot (sw - draw_w) 2 in
  let dst_y := Z.quot (sh - draw_h) 2 in
  let src_x0 := Z.quot (bw - draw_w) 2 in
  let src_y0 := Z.quot (bh - draw_h) 2 in
  let cleared := for_some (Z.to_nat sh) 0 (fun y c =>
    for_some (Z.to_nat sw) 0 (fun x c => store_at (i32 (y * sw) + x) (desktop_gradient_at_y y fb) c) c) cache in
  match cleared with
  | None => None
  | Some c =>
      for_some (Z.to_nat draw_h) 0 (fun y c =>
        for_some (Z.to_nat draw_w) 0 (fun x c =>
          match pixel_at raw (i32 (i32 ((src_y0 + y) * bw) + src_x0) + x) with
          | Some px => store_at (i32 (i32 ((dst_y + y) * sw) + dst_x) + x) (Z.lor px 0xFF000000) c
          | None => None
          end) c) c
  end.

(** The size the image is scaled to so that it covers the screen. *)
Definition scaled_size (bw bh sw sh : Z) : Z * Z :=
  if u64 (u64 sh * u64 bw) <=? u64 (u64 sw * u64 bh)
  then (sw, i32 (u64 (u64 (u64 bh * u64 sw) + u64 bw - 1) / u64 bw))
  else (i32 (u64 (u64 (u64 bw * u64 sh) + u64 bh - 1) / u64 bh), sh).

(** The source row or column of a screen row or column: [pos] on the screen, [n] in the image. *)
Definition scale_index (pos crop n scaled : Z) : option Z :=
  if u64 scaled =? 0 then None else
  let v := i32 (u64 (u64 (i32 (pos + crop)) * u64 n) / u64 scaled) in
  let v := if v <? 0 then 0 else v in
  Some (if n <=? v then n - 1 else v).

Definition cache_fill (raw : list Z) (bw bh sw sh : Z) (cache : list Z) : option (list Z) :=
  let '(scaled_w, scaled_h) := scaled_size bw bh sw sh in
  let crop_x := Z.quot (i32 (scaled_w - sw)) 2 in
  let crop_y := Z.quot (i32 (scaled_h - sh)) 2 in
  for_some (Z.to_nat sh) 0 (fun y c =>
    match scale_index y crop_y bh scaled_h with
    | None => None
    | Some src_y =>
        for_some (Z.to_nat sw) 0 (fun x c =>
          match scale_index x crop_x bw scaled_w with
          | None => None
          | Some src_x =>
              match pixel_at raw (i32 (i32 (src_y * bw) + src_x)) with
              | Some px => store_at (i32 (y * sw) + x) (Z.lor px 0xFF000000) c
              | None => None
              end
          end) c
    end) cache.

Section desktop.
Context {S : Type} `{Files S}.
Implicit Types (s : S) (d : desk).

Definition release_wallpaper_cache d s : desk * S :=
  match wallpaper_pixels d with
  | Some (a, _) => (d <| wallpaper_pixels := None |>, fs_free a s)
  | None => (d, s)
  end.

Definition build_wallpaper_cache (path : option cstr) d s : option (Z * desk * S) :=
  let fb := fs_screen s in
  let sw := i32 (fb_width fb) in
  let sh := i32 (fb_height fb) in
  if (match path with Some (_ :: _) => false | _ => true end) || (sw <=? 0) || (sh <=? 0) then Some (-1, d, s) else
  match bmp_load_to_buf path s with
  | None => None
  | Some (rc, img, s) =>
    match (if negb (rc =? 0) then None else img) with
    | None => Some (-1, d, s)
    | Some b =>
      if (bm_w b <=? 0) || (bm_h b <=? 0) then Some (-1, d, fs_free (bm_addr b) s) else
      match fs_alloc (u64 (u64 (u64 sw * u64 sh) * 4)) s with
      | (None, s) => Some (-1, d <| wallpaper_pixels := None |>, fs_free (bm_addr b) s)
      | (Some (a, blk), s) =>
        match (if wallpaper_style d =? DESKTOP_WALLPAPER_CENTER
               then cache_center fb (bm_px b) (bm_w b) (bm_h b) sw sh (words blk)
               else cache_fill (bm_px b) (bm_w b) (bm_h b) sw sh (words blk)) with
        | None => None
        | Some c => Some (0, d <| wallpaper_pixels := Some (a, c) |>, fs_free (bm_addr b) s)
        end
      end
    end
  end.

Definition desktop_set_wallpaper (path : option cstr) d s : option (Z * desk * S) :=
  let '(d, s) := release_wallpaper_cache d s in
  let fb := fs_screen s in
  let no_path d := mark_screen fb (d <| wallpaper_path := [] |>) in
  if (match path with Some (_ :: _) => false | _ => true end) then Some (0, no_path d, s) else
  if WALLPAPER_PATH_MAX <=? i32 (str_len path) then Some (-1, no_path d, s) else
  match build_wallpaper_cache path d s with
  | None => None
  | Some (rc, d, s) =>
      if negb (rc =? 0) then Some (-1, no_path d, s) else
      Some (0, mark_screen fb (d <| wallpaper_path := copy_small_string (wallpaper_path d) WALLPAPER_PATH_MAX path |>), s)
  end.

Definition desktop_apply_theme (accent_color background_mode solid_color style : Z) (path : option cstr) d s
  : option (Z * desk * S) :=
  if negb (Z.land (Z.shiftr accent_color 24) 0xFF =? 0xFF) then Some (-1, d, s) else
  if negb (Z.land (Z.shiftr solid_color 24) 0xFF =? 0xFF) then Some (-1, d, s) else
  if DESKTOP_BG_MODE_WALLPAPER <? background_mode then Some (-1, d, s) else
  if DESKTOP_WALLPAPER_CENTER <? style then Some (-1, d, s) else
  let d := d <| g_accent_color := accent_color |> <| wallpaper_solid_color := solid_color |> <| wallpaper_style := style |> in
  let d := match path with
           | Some _ => d <| wallpaper_path := copy_small_string (wallpaper_path d) WALLPAPER_PATH_MAX path |>
           | None => d
           end in
  let fb := fs_screen s in
  if background_mode =? DESKTOP_BG_MODE_WALLPAPER then
    if (match path with Some (_ :: _) => false | _ => true end) then
      let d := d <| wallpaper_bg_mode := DESKTOP_BG_MODE_GRADIENT |> in
      let '(d, s) := release_wallpaper_cache d s in
      Some (-1, mark_screen fb (d <| wallpaper_path := [] |>), s)
    else
    match desktop_set_wallpaper path d s with
    | None => None
    | Some (rc, d, s) =>
        if negb (rc =? 0) then
          let d := d <| wallpaper_bg_mode := DESKTOP_BG_MODE_GRADIENT |> <| wallpaper_path := [] |> in
          Some (-1, mark_screen fb d, s)
        else Some (0, d <| wallpaper_bg_mode := DESKTOP_BG_MODE_WALLPAPER |>, s)
    end
  else
    let d := d <| wallpaper_bg_mode := background_mode |> in
    let '(d, s) := release_wallpaper_cache d s in
    Some (0, mark_screen fb d, s).
End desktop.

(** ** Filling rectangles of a pixel block *)

Lemma for_some_ext {T} n i (f g : Z -> T -> option T) c :
  (forall k c, i <= k < i + Z.of_nat n -> f k c = g k c) -> for_some n i f c = for_some n i g c.
Proof.
  revert i c. induction n as [|n IH]; intros i c Hfg; simpl; [done|].
  rewrite Hfg by lia. destruct (g i c); [|done]. apply IH. intros. apply Hfg. lia.
Qed.

(** Rows and columns of a loop nest over the [w] x [h] rectangle at [x0], [y0]. *)
Lemma fill_rect_rows (f : Z -> Z -> list Z -> option (list Z)) v sw sh x0 y0 w h cache :
  0 <= x0 -> 0 <= y0 -> 0 <= w -> 0 <= h -> x0 + w <= sw -> y0 + h <= sh -> sw * sh <= zlen cache ->
  (forall y x c, 0 <= y < h -> 0 <= x < w -> zlen c = zlen cache ->
     f y x c = Some (aset ((y0 + y) * sw + x0 + x) (v y x) c)) ->
  exists c', for_some (Z.to_nat h) 0 (fun y c => for_some (Z.to_nat w) 0 (f y) c) cache = Some c'
    /\ zlen c' = zlen cache
    /\ forall Y X, 0 <= Y < sh -> 0 <= X < sw ->
         aget c' (Y * sw + X) = if decide (y0 <= Y < y0 + h /\ x0 <= X < x0 + w) then v (Y - y0) (X - x0)
                                else aget cache (Y * sw + X).
Proof.
  intros Hx0 Hy0 Hw Hh Hxw Hyh HL Hf.
  edestruct (for_some_inv (fun row c => zlen c = zlen cache
      /\ forall Y X, 0 <= Y < sh -> 0 <= X < sw ->
           aget c (Y * sw + X) = if decide (y0 <= Y < y0 + row /\ x0 <= X < x0 + w) then v (Y - y0) (X - x0)
                                 else aget cache (Y * sw + X)) (Z.to_nat h) 0) as (c' & E & HI).
  3: { exists c'. split; [exact E|]. rewrite Z.add_0_l, Z2Nat.id in HI by lia. exact HI. }
  { split; [done|]. intros Y X HY HX. rewrite decide_False by lia. done. }
  intros row c Hrow (Hlen & Hc).
  edestruct (for_some_inv (fun col p => zlen p = zlen cache
      /\ forall Y X, 0 <= Y < sh -> 0 <= X < sw ->
           aget p (Y * sw + X) = if decide (Y = y0 + row /\ x0 <= X < x0 + col) then v row (X - x0)
                                 else aget c (Y * sw + X)) (Z.to_nat w) 0) as (p & E & Hp & HI).
  3: { exists p. split; [exact E|]. rewrite Z.add_0_l, Z2Nat.id in HI by lia. split; [done|].
       intros Y X HY HX. rewrite HI by done. destruct (decide (Y = y0 + row /\ _)) as [[-> Hin]|Hout].
       - rewrite decide_True by lia. f_equal. lia.
       - rewrite Hc by done. destruct (decide (y0 <= Y < y0 + row /\ _)).
         + by rewrite decide_True by lia.
         + by rewrite decide_False by lia. }
  { split; [done|]. intros Y X HY HX. rewrite decide_False by lia. done. }
  intros col p Hcol (Hp & HI). rewrite Hf by lia || done. eexists. split; [done|].
  unfold zlen in *. rewrite length_aset. split; [done|]. intros Y X HY HX.
  destruct (decide (Y = y0 + row /\ X = x0 + col)) as [[-> ->]|Hne].
  - rewrite decide_True by lia. rewrite Z.add_assoc, aget_aset_eq by nia. f_equal. lia.
  - rewrite aget_aset_ne; [|nia|nia|].
    2: { intros E. rewrite <- Z.add_assoc in E. apply row_col_inj in E as [? ?]; lia. }
    rewrite HI by done. destruct (decide (Y = y0 + row /\ _)); [by rewrite decide_True by lia|].
    by rewrite decide_False by lia.
Qed.

Lemma pixel_at_in l i : 0 <= i < zlen l -> pixel_at l i = Some (aget l i).
Proof.
  intros Hi. unfold pixel_at, aget, zlen in *. rewrite (proj2 (Z.ltb_ge i 0)) by lia.
  destruct (lookup_lt_is_Some_2 l (Z.to_nat i)) as [x Hx]; [lia|].
  by rewrite Hx, (list_lookup_total_correct _ _ _ Hx).
Qed.

Lemma store_at_in i x l : 0 <= i < zlen l -> store_at i x l = Some (aset i x l).
Proof.
  intros Hi. unfold store_at. by rewrite (proj2 (Z.leb_le 0 i)), (proj2 (Z.ltb_lt i _)) by lia.
Qed.

(** ** Scaling *)

(** The sizes the cache is computed for: neither the image, the screen nor the scaled image
    overflows an [int]. *)
Record sizes_ok (bw bh sw sh : Z) : Prop := {
  so_bw : 0 < bw; so_bh : 0 < bh; so_sw : 0 < sw; so_sh : 0 < sh;
  so_img : bw * bh < 2 ^ 31; so_scr : sw * sh < 2 ^ 31;
  so_tall : bh * sw < 2 ^ 31; so_wide : bw * sh < 2 ^ 31;
}.

Lemma ceil_bounds a b c : 0 < b -> 0 <= a -> c * b <= a -> c <= (a + b - 1) / b <= Z.max a 1.
Proof.
  intros Hb Ha Hc. split; [apply Z.div_le_lower_bound; lia|].
  destruct (decide (b = 1)) as [->|]; [rewrite Z.div_1_r; lia|].
  apply Z.div_le_upper_bound; nia.
Qed.

(** The scaled image covers the screen. *)
Lemma scaled_size_covers bw bh sw sh w h :
  sizes_ok bw bh sw sh -> scaled_size bw bh sw sh = (w, h) -> sw <= w < 2 ^ 31 /\ sh <= h < 2 ^ 31.
Proof.
  intros []. unfold scaled_size.
  assert (bw < 2 ^ 31 /\ bh < 2 ^ 31 /\ sw < 2 ^ 31 /\ sh < 2 ^ 31) as (? & ? & ? & ?) by nia.
  rewrite !(u64_id sh), !(u64_id bw), !(u64_id sw), !(u64_id bh) by (unfold is_u64; lia).
  rewrite !(u64_id (sh * bw)), !(u64_id (sw * bh)), !(u64_id (bh * sw)), !(u64_id (bw * sh)) by (unfold is_u64; lia).
  destruct (Z.leb_spec (sh * bw) (sw * bh)).
  - intros [= <- <-]. split; [lia|]. rewrite (u64_id (_ - 1)) by (unfold is_u64; lia).
    pose proof (ceil_bounds (bh * sw) bw sh). rewrite i32_small by lia. lia.
  - intros [= <- <-]. split; [|lia]. rewrite (u64_id (_ - 1)) by (unfold is_u64; lia).
    pose proof (ceil_bounds (bw * sh) bh sw). rewrite i32_small by lia. lia.
Qed.

(** The source index of a screen position: the scaled, cropped position, inside the image without
    the clamps. *)
Lemma scale_index_exact pos scr n scaled :
  0 < n < 2 ^ 31 -> 0 <= pos < scr -> scr <= scaled < 2 ^ 31 ->
  let crop := (scaled - scr) / 2 in
  scale_index pos crop n scaled = Some ((pos + crop) * n / scaled) /\ 0 <= (pos + crop) * n / scaled < n.
Proof.
  intros Hn Hp Hs crop. assert (0 <= crop /\ 0 <= pos + crop < scaled) as [Hc0 Hc]
    by (unfold crop; Z.div_mod_to_equations; lia).
  assert (0 <= (pos + crop) * n / scaled < n) as Hv.
  { split; [apply Z.div_pos; nia|]. apply Z.div_lt_upper_bound; [lia|]. nia. }
  split; [|done]. unfold scale_index. rewrite (u64_id scaled) by (unfold is_u64; lia).
  rewrite (proj2 (Z.eqb_neq scaled 0)) by lia.
  rewrite (i32_small (pos + crop)), (u64_id (pos + crop)), (u64_id n) by (unfold is_u64; lia).
  rewrite (u64_id ((pos + crop) * n)) by (unfold is_u64; nia). rewrite i32_small by lia.
  rewrite (proj2 (Z.ltb_ge _ 0)) by lia. by rewrite (proj2 (Z.leb_gt n _)) by lia.
Qed.

(** The pixel of the scaled image at a screen position. *)
Definition fill_pixel (raw : list Z) (bw bh sw sh y x : Z) : Z :=
  let '(w, h) := scaled_size bw bh sw sh in
  let sy := (y + (h - sh) / 2) * bh / h in
  let sx := (x + (w - sw) / 2) * bw / w in
  Z.lor (aget raw (sy * bw + sx)) 0xFF000000.

Lemma cache_fill_exact raw bw bh sw sh cache :
  sizes_ok bw bh sw sh -> zlen raw = bw * bh -> sw * sh <= zlen cache ->
  exists c, cache_fill raw bw bh sw sh cache = Some c /\ zlen c = zlen cache
    /\ forall y x, 0 <= y < sh -> 0 <= x < sw -> aget c (y * sw + x) = fill_pixel raw bw bh sw sh y x.
Proof.
  intros HS Hraw Hcache. unfold cache_fill, fill_pixel.
  destruct (scaled_size bw bh sw sh) as [w h] eqn:E. apply scaled_size_covers in E as [Hw Hh]; [|done].
  destruct HS. assert (bw < 2 ^ 31 /\ bh < 2 ^ 31) as [? ?] by nia.
  rewrite (i32_small (w - sw)), (i32_small (h - sh)), !Z.quot_div_nonneg by lia.
  set (v := fun y x => Z.lor (aget raw ((y + (h - sh) / 2) * bh / h * bw + (x + (w - sw) / 2) * bw / w)) 0xFF000000).
  destruct (fill_rect_rows (fun y x c => store_at (0 * sw + y * sw + x) (v y x) c) v sw sh 0 0 sw sh cache)
    as (c & Ec & Hl & Hc); [lia..|nia| |].
  { intros y x c Hy Hx Hlen. rewrite store_at_in by nia. do 2 f_equal. lia. }
  exists c. split; [|split; [done|]].
  - rewrite <- Ec. apply for_some_ext. intros y p Hy.
    destruct (scale_index_exact y sh bh h) as [-> Hsy]; [lia..|].
    apply for_some_ext. intros x q Hx. destruct (scale_index_exact x sw bw w) as [-> Hsx]; [lia..|].
    set (sy := (y + _) * bh / h) in *. set (sx := (x + _) * bw / w) in *.
    rewrite (i32_small (sy * bw)), i32_small by nia. rewrite pixel_at_in by nia.
    by rewrite i32_small by nia.
  - intros y x Hy Hx. rewrite Hc by done. rewrite decide_True by lia. unfold v. by rewrite !Z.sub_0_r.
Qed.

(** An image one pixel wide and four million high: its scaled height is a multiple of [2^32], the
    cast to [int] makes it 0, and the kernel divides by it. *)
Lemma cache_fill_divides_by_zero raw cache :
  scaled_size 1 4194304 1024 768 = (1024, 0) /\ cache_fill raw 1 4194304 1024 768 cache = None.
Proof. split; vm_compute; reflexivity. Qed.

(** ** Centring *)

(** The pixel of the centred image at a screen position: the image inside its rectangle, the
    gradient outside. *)
Definition center_pixel (fb : fb_info_t) (raw : list Z) (bw bh sw sh y x : Z) : Z :=
  let draw_w := Z.min bw sw in
  let draw_h := Z.min bh sh in
  let dx := (sw - draw_w) / 2 in
  let dy := (sh - draw_h) / 2 in
  if decide (dy <= y < dy + draw_h /\ dx <= x < dx + draw_w)
  then Z.lor (aget raw (((bh - draw_h) / 2 + (y - dy)) * bw + ((bw - draw_w) / 2 + (x - dx)))) 0xFF000000
  else desktop_gradient_at_y y fb.

Lemma cache_center_exact fb raw bw bh sw sh cache :
  sizes_ok bw bh sw sh -> zlen raw = bw * bh -> sw * sh <= zlen cache ->
  exists c, cache_center fb raw bw bh sw sh cache = Some c /\ zlen c = zlen cache
    /\ forall y x, 0 <= y < sh -> 0 <= x < sw -> aget c (y * sw + x) = center_pixel fb raw bw bh sw sh y x.
Proof.
  intros [] Hraw Hcache. unfold cache_center, center_pixel.
  assert (bw < 2 ^ 31 /\ bh < 2 ^ 31 /\ sw < 2 ^ 31 /\ sh < 2 ^ 31) as (? & ? & ? & ?) by nia.
  replace (if bw <? sw then bw else sw) with (Z.min bw sw) by (destruct (Z.ltb_spec bw sw); lia).
  replace (if bh <? sh then bh else sh) with (Z.min bh sh) by (destruct (Z.ltb_spec bh sh); lia).
  set (dw := Z.min bw sw). set (dh := Z.min bh sh).
  assert (0 < dw <= bw /\ dw <= sw /\ 0 < dh <= bh /\ dh <= sh) as (Hdw & Hdws & Hdh & Hdhs) by lia.
  rewrite !Z.quot_div_nonneg by lia.
  set (dx := (sw - dw) / 2). set (dy := (sh - dh) / 2). set (bx := (bw - dw) / 2). set (by_ := (bh - dh) / 2).
  assert (0 <= dx /\ dx + dw <= sw /\ 0 <= dy /\ dy + dh <= sh) as (? & ? & ? & ?)
    by (unfold dx, dy; Z.div_mod_to_equations; lia).
  assert (0 <= bx /\ bx + dw <= bw /\ 0 <= by_ /\ by_ + dh <= bh) as (? & ? & ? & ?)
    by (unfold bx, by_; Z.div_mod_to_equations; lia).
  clearbody dw dh dx dy bx by_.
  edestruct (fill_rect_rows (fun y x c => store_at (i32 (y * sw) + x) (desktop_gradient_at_y y fb) c)
    (fun y _ => desktop_gradient_at_y y fb) sw sh 0 0 sw sh cache) as (c1 & -> & Hl1 & Hc1); [lia..| |].
  { intros y x c Hy Hx Hlen. rewrite i32_small, store_at_in by nia. do 2 f_equal. lia. }
  edestruct (fill_rect_rows (fun y x c =>
      match pixel_at raw (i32 (i32 ((by_ + y) * bw) + bx) + x) with
      | Some px => store_at (i32 (i32 ((dy + y) * sw) + dx) + x) (Z.lor px 0xFF000000) c
      | None => None
      end) (fun y x => Z.lor (aget raw ((by_ + y) * bw + (bx + x))) 0xFF000000) sw sh dx dy dw dh c1)
    as (c2 & -> & Hl2 & Hc2); [lia..| |].
  { intros y x c Hy Hx Hlen. rewrite (i32_small ((by_ + y) * bw)), (i32_small (_ + bx)) by nia.
    rewrite pixel_at_in by nia. rewrite (i32_small ((dy + y) * sw)), (i32_small (_ + dx)) by nia.
    rewrite store_at_in by nia. f_equal. f_equal. do 2 f_equal. lia. }
  exists c2. split; [done|]. split; [congruence|]. intros y x Hy Hx. rewrite Hc2 by done.
  case_decide; [done|]. rewrite Hc1 by done. by rewrite decide_True, Z.sub_0_r by lia.
Qed.

(** ** The cache *)

Section cache.
Context {S : Type} `{FilesLaws S}.
Implicit Types (s : S) (d : desk).

(** C32: a wallpaper whose image loads gives a complete cache.  Whatever the sizes of the image and
    the screen, as long as neither they nor the scaled image overflow an [int], every access of
    [build_wallpaper_cache] is inside its block and no division is by zero; either memory ran out
    and there is no cache, or the cache has a pixel for every screen position: in the centred style
    the image in its rectangle over the gradient, in the other style the image scaled to cover the
    screen and cropped to its middle. *)
Theorem wallpaper_cache_exact path d s img s1 :
  let fb := fs_screen s in
  let sw := i32 (fb_width fb) in
  let sh := i32 (fb_height fb) in
  bmp_load_to_buf path s = Some (0, Some img, s1) -> path <> None -> path <> Some [] ->
  zlen (bm_px img) = bm_w img * bm_h img -> sizes_ok (bm_w img) (bm_h img) sw sh ->
  exists rc d' s', build_wallpaper_cache path d s = Some (rc, d', s')
    /\ ((rc = -1 /\ wallpaper_pixels d' = None)
        \/ rc = 0 /\ exists a c, wallpaper_pixels d' = Some (a, c) /\ zlen c = sw * sh
           /\ forall y x, 0 <= y < sh -> 0 <= x < sw ->
                aget c (y * sw + x)
                = if wallpaper_style d =? DESKTOP_WALLPAPER_CENTER
                  then center_pixel fb (bm_px img) (bm_w img) (bm_h img) sw sh y x
                  else fill_pixel (bm_px img) (bm_w img) (bm_h img) sw sh y x).
Proof.
  intros fb sw sh Hload Hp Hp' Hpx HS. unfold build_wallpaper_cache. fold fb sw sh.
  destruct path as [[|c0 path]|]; try done. cbn [orb]. pose proof HS as [].
  rewrite (proj2 (Z.leb_gt sw 0)), (proj2 (Z.leb_gt sh 0)) by lia. cbn [orb]. rewrite Hload. cbn [negb Z.eqb].
  rewrite (proj2 (Z.leb_gt (bm_w img) 0)), (proj2 (Z.leb_gt (bm_h img) 0)) by lia. cbn [orb].
  assert (sw < 2 ^ 31 /\ sh < 2 ^ 31) as [? ?] by nia.
  replace (u64 (u64 (u64 sw * u64 sh) * 4)) with (sw * sh * 4)
    by (rewrite (u64_id sw), (u64_id sh), (u64_id (sw * sh)), u64_id by (unfold is_u64; lia); done).
  destruct (fs_alloc (sw * sh * 4) s1) as [[[a blk]|] s2] eqn:Ea.
  2: { eexists _, _, _. split; [done|]. left. done. }
  apply fs_alloc_block in Ea; [|lia]. destruct Ea as [Hblk _].
  assert (zlen (words blk) = sw * sh) as Hw.
  { unfold zlen in *. rewrite length_words, Nat2Z.inj_div, Hblk. Z.div_mod_to_equations. lia. }
  destruct (wallpaper_style d =? DESKTOP_WALLPAPER_CENTER).
  - destruct (cache_center_exact fb (bm_px img) (bm_w img) (bm_h img) sw sh (words blk)) as (c & -> & Hl & Hc);
      [done..|lia|]. eexists _, _, _. split; [done|]. right. split; [done|]. exists a, c. split; [done|].
    split; [congruence|exact Hc].
  - destruct (cache_fill_exact (bm_px img) (bm_w img) (bm_h img) sw sh (words blk)) as (c & -> & Hl & Hc);
      [done..|lia|]. eexists _, _, _. split; [done|]. right. split; [done|]. exists a, c. split; [done|].
    split; [congruence|exact Hc].
Qed.
End cache.

(** The one-pixel image on a screen of 4 x 2 pixels. *)
Definition ex_desk : desk := desk_init (Wm.wm_zero 4 2).
Definition ex_image : bitmap := mkBitmap 131073 1 1 [0xFF1E140A].

Lemma wallpaper_cache_exact_witness :
  exists s1 rc d' s', bmp_load_to_buf ex_bmp_path ex_files = Some (0, Some ex_image, s1)
    /\ build_wallpaper_cache ex_bmp_path ex_desk ex_files = Some (rc, d', s')
    /\ (rc = 0 -> exists a c, wallpaper_pixels d' = Some (a, c) /\ aget c (1 * 4 + 3) = 0xFF1E140A).
Proof.
  destruct (bmp_load_to_buf ex_bmp_path ex_files) as [[[rc0 img0] s1]|] eqn:E; [|exfalso; revert E; vm_compute; discriminate].
  assert (option_map (fun r => (r.1.1, r.1.2)) (bmp_load_to_buf ex_bmp_path ex_files) = Some (0, Some ex_image)) as E1
    by (vm_compute; reflexivity).
  rewrite E in E1. cbn in E1. injection E1 as -> ->.
  exists s1. destruct (wallpaper_cache_exact ex_bmp_path ex_desk ex_files ex_image s1) as (rc & d' & s' & E2 & Hc).
  - exact E.
  - discriminate.
  - discriminate.
  - vm_compute. reflexivity.
  - split; vm_compute; reflexivity.
  - exists rc, d', s'. split; [reflexivity|]. split; [exact E2|]. intros ->.
    destruct Hc as [[Hc _]|(_ & a & c & Hpx & _ & Hc)]; [discriminate Hc|].
    exists a, c. split; [exact Hpx|]. specialize (Hc 1 3).
    change (i32 (fb_width (fs_screen ex_files))) with 4 in Hc.
    rewrite Hc by (vm_compute; split; congruence). vm_compute. reflexivity.
Defined.
