(* ===== verification/Screenshot.v ===== *)
(** The screenshot writer of the desktop ([save_screenshot_bmp], [src/gfx/desktop.c]) against the
    BMP decoder: what it writes is an image the decoder reads back pixel for pixel. *)

From S2P Require Import VfsSys VfsProps.
From S2P Require Import Prelude CString VfsData Vfs Files Bmp.

(** ** The writer *)

Definition write_u16le (off v : Z) (p : list Z) : list Z :=
  aset (off + 1) (Z.land (Z.shiftr v 8) 0xFF) (aset off (Z.land v 0xFF) p).

Definition write_u32le (off v : Z) (p : list Z) : list Z :=
  aset (off + 3) (Z.land (Z.shiftr v 24) 0xFF) (aset (off + 2) (Z.land (Z.shiftr v 16) 0xFF)
    (aset (off + 1) (Z.land (Z.shiftr v 8) 0xFF) (aset off (Z.land v 0xFF) p))).

(** The 54 bytes of the file and info headers. *)
Definition bmp_hdr (w h image_bytes : Z) : list Z :=
  let hdr := repeat 0 54 in
  let hdr := aset 1 77 (aset 0 66 hdr) in
  let hdr := write_u32le 2 (u32 (54 + image_bytes)) hdr in
  let hdr := write_u32le 10 54 hdr in
  let hdr := write_u32le 14 40 hdr in
  let hdr := write_u32le 18 w hdr in
  let hdr := write_u32le 22 h hdr in
  let hdr := write_u16le 26 1 hdr in
  let hdr := write_u16le 28 32 hdr in
  write_u32le 34 image_bytes hdr.

(** The [row_bytes] bytes of row [y] of the frame buffer. *)
Definition fb_row (fb : fb_info_t) (mem : list Z) (row_bytes y : Z) : list Z :=
  copy_out mem (u32 (u32 y * fb_pitch fb)) (Z.to_nat row_bytes).

Section screenshot.
Context {S : Type} `{Files S}.
Implicit Types s : S.

(** [for (y = h - 1; y >= 0; y--)]: [n] is [y + 1]; whether every row was written. *)
Fixpoint save_rows (n : nat) (fd row_bytes : Z) s : option (bool * S) :=
  match n with
  | O => Some (true, s)
  | Datatypes.S y =>
      match fs_write fd (fb_row (fs_screen s) (fs_pixels s) row_bytes (Z.of_nat y)) s with
      | None => None
      | Some (wr, s) => if negb (wr =? row_bytes) then Some (false, s) else save_rows y fd row_bytes s
      end
  end.

Definition save_screenshot_bmp (path : option cstr) s : option (Z * S) :=
  let fb := fs_screen s in
  let w := fb_width fb in
  let h := fb_height fb in
  let row_bytes := u32 (w * 4) in
  let image_bytes := u32 (row_bytes * h) in
  match path with
  | None => Some (-1, s)
  | Some _ =>
    if (fb_addr fb =? 0) || negb (fb_bpp fb =? 32) then Some (-1, s) else
    let '(fd, s) := fs_open path (Z.lor (Z.lor VFS_O_WRONLY VFS_O_CREAT) VFS_O_TRUNC) s in
    if fd <? 0 then Some (-1, s) else
    match fs_write fd (bmp_hdr w h image_bytes) s with
    | None => None
    | Some (wr, s) =>
        if negb (wr =? 54) then Some (-1, fs_close fd s) else
        match save_rows (Z.to_nat (i32 h)) fd row_bytes s with
        | None => None
        | Some (ok, s) => Some (if ok then 0 else -1, fs_close fd s)
        end
    end
  end.
End screenshot.

(** The bytes of the file the writer leaves when every write succeeds, in order. *)
Fixpoint rows_down (fb : fb_info_t) (mem : list Z) (row_bytes : Z) (n : nat) : list (list Z) :=
  match n with
  | O => []
  | Datatypes.S y => fb_row fb mem row_bytes (Z.of_nat y) :: rows_down fb mem row_bytes y
  end.

Definition screenshot_chunks (fb : fb_info_t) (mem : list Z) : list (list Z) :=
  let row_bytes := u32 (fb_width fb * 4) in
  bmp_hdr (fb_width fb) (fb_height fb) (u32 (row_bytes * fb_height fb))
    :: rows_down fb mem row_bytes (Z.to_nat (i32 (fb_height fb))).

Definition screenshot_bytes (fb : fb_info_t) (mem : list Z) : list Z := concat (screenshot_chunks fb mem).

(** ** The headers *)

Lemma length_bmp_hdr w h n : length (bmp_hdr w h n) = 54%nat.
Proof. unfold bmp_hdr, write_u32le, write_u16le. by rewrite !length_aset. Qed.

Lemma le_word a b c d :
  is_u8 a -> is_u8 b -> is_u8 c ->
  Z.lor (Z.lor (Z.lor a (Z.shiftl b 8)) (Z.shiftl c 16)) (Z.shiftl d 24)
  = a + b * 2 ^ 8 + c * 2 ^ 16 + d * 2 ^ 24.
Proof.
  intros Ha Hb Hc. unfold is_u8 in *. rewrite (lor_shiftl_add a b 8) by lia.
  rewrite (lor_shiftl_add _ c 16) by lia. by rewrite (lor_shiftl_add _ d 24) by lia.
Qed.

Lemma byte_of v k : 0 <= k -> Z.land (Z.shiftr v k) 0xFF = v / 2 ^ k mod 256.
Proof. intros Hk. change 0xFF with (2 ^ 8 - 1). rewrite land_ones_mod by lia. by rewrite Z.shiftr_div_pow2 by lia. Qed.

Lemma split_u32 v : is_u32 v ->
  Z.lor (Z.lor (Z.lor (Z.land v 0xFF) (Z.shiftl (Z.land (Z.shiftr v 8) 0xFF) 8))
           (Z.shiftl (Z.land (Z.shiftr v 16) 0xFF) 16)) (Z.shiftl (Z.land (Z.shiftr v 24) 0xFF) 24) = v.
Proof.
  intros Hv. rewrite !byte_of by lia. change (Z.land v 0xFF) with (Z.land v (2 ^ 8 - 1)).
  rewrite (land_ones_mod v 8) by lia. unfold is_u32 in Hv.
  rewrite le_word by (unfold is_u8; Z.div_mod_to_equations; lia).
  change (2 ^ 8) with 256. change (2 ^ 16) with 65536. change (2 ^ 24) with 16777216.
  Z.div_mod_to_equations; lia.
Qed.

Lemma byte_at_app p q i : 0 <= i < zlen p -> byte_at (p ++ q) i = byte_at p i.
Proof.
  intros Hi. unfold byte_at. rewrite (proj2 (Z.ltb_ge i 0)) by lia. apply lookup_app_l. unfold zlen in Hi. lia.
Qed.

Lemma byte_at_app_r p q i : zlen p <= i -> byte_at (p ++ q) i = byte_at q (i - zlen p).
Proof.
  intros Hi. unfold byte_at, zlen in *. rewrite (proj2 (Z.ltb_ge i 0)), (proj2 (Z.ltb_ge _ 0)) by lia.
  rewrite lookup_app_r by lia. f_equal. lia.
Qed.

(** The decoder finds in the headers the offset, the size of the info header, the size of the image,
    32 bits per pixel and no compression. *)
Lemma header_fields w h n :
  is_u32 w -> is_u32 h -> is_u32 n ->
  let p := bmp_hdr w h n in
  byte_at p 0 = Some 66 /\ byte_at p 1 = Some 77 /\ u32le p 10 = Some 54 /\ u32le p 14 = Some 40
  /\ u32le p 18 = Some w /\ u32le p 22 = Some h /\ u16le p 28 = Some 32 /\ u32le p 30 = Some 0.
Proof.
  intros Hw Hh Hn p.
  (* only the width and the height are not closed *)
  set (wb := fun k => Z.land (Z.shiftr w k) 0xFF). set (hb := fun k => Z.land (Z.shiftr h k) 0xFF).
  split_and!; try reflexivity.
  - transitivity (Some (Z.lor (Z.lor (Z.lor (Z.land w 0xFF) (Z.shiftl (wb 8) 8)) (Z.shiftl (wb 16) 16)) (Z.shiftl (wb 24) 24)));
      [reflexivity|by rewrite split_u32].
  - transitivity (Some (Z.lor (Z.lor (Z.lor (Z.land h 0xFF) (Z.shiftl (hb 8) 8)) (Z.shiftl (hb 16) 16)) (Z.shiftl (hb 24) 24)));
      [reflexivity|by rewrite split_u32].
Qed.

(** A field of the headers is read from the headers, whatever follows them. *)
Lemma u32le_app p q off : 0 <= off -> off + 4 <= zlen p -> u32le (p ++ q) off = u32le p off.
Proof. intros Ho Hp. unfold u32le. by rewrite !byte_at_app by lia. Qed.

Lemma bmp_header_screenshot w h n rest :
  0 < w <= 4096 -> 0 < h -> 54 + 4 * (w * h) < 2 ^ 31 -> is_u32 n -> zlen rest = 4 * (w * h) ->
  bmp_header (bmp_hdr w h n ++ rest) = Some (Some (mkInfo 54 w h true 32 (4 * w))).
Proof.
  intros Hw Hh Hs Hn Hrest. assert (h < 2 ^ 31) by nia.
  assert (zlen (bmp_hdr w h n) = 54) as Hl by (unfold zlen; by rewrite length_bmp_hdr).
  destruct (header_fields w h n) as (E0 & E1 & E10 & E14 & E18 & E22 & E28 & E30); [unfold is_u32; lia..|done|].
  unfold bmp_header, s32le, u16le, BFH_SIZE. rewrite zlen_app, Hl, Hrest.
  rewrite !u32le_app, !byte_at_app by lia. rewrite E0, E1, E10.
  change (14 + 4) with 18. change (14 + 8) with 22. change (14 + 14) with 28. change (14 + 16) with 30.
  rewrite E14, E18, E22, E30. unfold u16le in E28. rewrite E28. cbn [option_map].
  rewrite (proj2 (Z.ltb_ge _ 18)), (proj2 (Z.leb_gt _ 54)) by nia.
  change (u32 (14 + 40)) with 54. rewrite (proj2 (Z.ltb_ge _ 54)) by nia.
  change (20 <=? 40) with true. cbn iota. cbn [negb orb andb Z.eqb Pos.eqb].
  rewrite !i32_small by lia. rewrite (proj2 (Z.leb_gt w 0)), (proj2 (Z.ltb_ge 4096 w)), (proj2 (Z.eqb_neq h 0)),
    (proj2 (Z.ltb_ge h (-4096))), (proj2 (Z.ltb_lt 0 h)) by lia. cbn [orb].
  change (32 / 8) with 4. rewrite stride_round by lia.
  replace ((w * 4 + 3) / 4 * 4) with (4 * w) by (Z.div_mod_to_equations; lia).
  rewrite (u64_id (4 * w * h)), u64_id by (unfold is_u64; nia).
  by rewrite (proj2 (Z.ltb_ge _ _)) by nia.
Qed.

(** ** The rows *)

Lemma lookup_copy_out src pos n j : (j < n)%nat -> copy_out src pos n !! j = Some (aget src (pos + Z.of_nat j)).
Proof.
  revert pos j. induction n as [|n IH]; intros pos [|j] Hj; simpl; [lia..| |]; [by rewrite Z.add_0_r|].
  rewrite IH by lia. do 2 f_equal. lia.
Qed.

Lemma length_fb_row fb mem rb y : zlen (fb_row fb mem rb y) = Z.max 0 rb.
Proof. unfold fb_row, zlen. rewrite length_copy_out. lia. Qed.

Lemma zlen_rows_down fb mem rb n : 0 <= rb -> zlen (concat (rows_down fb mem rb n)) = Z.of_nat n * rb.
Proof.
  intros Hrb. induction n as [|n IH]; [done|]. cbn [rows_down concat]. rewrite zlen_app, IH, length_fb_row. lia.
Qed.

Lemma rows_down_byte fb mem rb n k j :
  0 <= k < Z.of_nat n -> 0 <= j < rb ->
  byte_at (concat (rows_down fb mem rb n)) (k * rb + j)
  = Some (aget mem (u32 (u32 (Z.of_nat n - 1 - k) * fb_pitch fb) + j)).
Proof.
  revert k. induction n as [|n IH]; intros k Hk Hj; [lia|]. cbn [rows_down concat].
  pose proof (length_fb_row fb mem rb (Z.of_nat n)) as Hl. destruct (decide (k = 0)) as [->|].
  - rewrite byte_at_app by lia. unfold byte_at, fb_row. rewrite (proj2 (Z.ltb_ge _ 0)) by lia.
    rewrite lookup_copy_out by lia. replace (Z.of_nat (Datatypes.S n) - 1 - 0) with (Z.of_nat n) by lia. do 2 f_equal. lia.
  - rewrite byte_at_app_r by nia. rewrite Hl. replace (k * rb + j - Z.max 0 rb) with ((k - 1) * rb + j) by lia.
    rewrite IH by lia. by replace (Z.of_nat n - 1 - (k - 1)) with (Z.of_nat (Datatypes.S n) - 1 - k) by lia.
Qed.

(** ** The round trip *)

(** The pixel at row [y], column [x] of the frame buffer. *)
Definition screen_pixel (fb : fb_info_t) (mem : list Z) (y x : Z) : Z :=
  let p := y * fb_pitch fb + 4 * x in
  Z.lor (Z.lor (Z.lor (Z.shiftl (aget mem (p + 3)) 24) (Z.shiftl (aget mem (p + 2)) 16))
           (Z.shiftl (aget mem (p + 1)) 8)) (aget mem p).

(** Frame buffers whose image fits the format and the decoder. *)
Record screen_ok (fb : fb_info_t) (mem : list Z) : Prop := {
  sc_w : 0 < fb_width fb <= 4096;
  sc_h : 0 < fb_height fb;
  sc_size : 54 + 4 * (fb_width fb * fb_height fb) < 2 ^ 31;
  sc_pitch : 4 * fb_width fb <= fb_pitch fb;
  sc_mem : fb_pitch fb * fb_height fb < 2 ^ 32;
}.

Lemma screenshot_header fb mem : screen_ok fb mem ->
  bmp_header (screenshot_bytes fb mem)
  = Some (Some (mkInfo 54 (fb_width fb) (fb_height fb) true 32 (4 * fb_width fb)))
  /\ zlen (screenshot_bytes fb mem) = 54 + 4 * (fb_width fb * fb_height fb).
Proof.
  intros []. unfold screenshot_bytes, screenshot_chunks. cbn [concat].
  assert (fb_height fb < 2 ^ 31) by nia.
  rewrite (u32_id (fb_width fb * 4)) by (unfold is_u32; lia).
  rewrite (i32_small (fb_height fb)) by lia.
  assert (zlen (concat (rows_down fb mem (fb_width fb * 4) (Z.to_nat (fb_height fb)))) = 4 * (fb_width fb * fb_height fb)) as Hr
    by (rewrite zlen_rows_down by lia; lia).
  split; [apply bmp_header_screenshot; try lia; apply u32_range|].
  rewrite zlen_app, Hr. unfold zlen at 1. rewrite length_bmp_hdr. lia.
Qed.

Lemma screenshot_pixel fb mem y x : screen_ok fb mem ->
  0 <= y < fb_height fb -> 0 <= x < fb_width fb ->
  file_pixel (screenshot_bytes fb mem) (mkInfo 54 (fb_width fb) (fb_height fb) true 32 (4 * fb_width fb)) y x
  = Some (screen_pixel fb mem y x).
Proof.
  intros [] Hy Hx. unfold file_pixel, bmp_pixel, screen_pixel. cbn [bi_offset bi_bottom_up bi_h bi_stride bi_bpp].
  change (32 / 8) with 4. change (32 =? 32) with true. cbn iota.
  unfold screenshot_bytes, screenshot_chunks. cbn [concat]. assert (fb_height fb < 2 ^ 31) by nia.
  rewrite (u32_id (fb_width fb * 4)) by (unfold is_u32; lia).
  rewrite (i32_small (fb_height fb)) by lia.
  assert (forall n, zlen (bmp_hdr (fb_width fb) (fb_height fb) n) = 54) as Hl
    by (intros; unfold zlen; by rewrite length_bmp_hdr).
  assert (forall n j, 0 <= j < 4 ->
      byte_at (bmp_hdr (fb_width fb) (fb_height fb) n ++ concat (rows_down fb mem (fb_width fb * 4) (Z.to_nat (fb_height fb))))
        (54 + (fb_height fb - 1 - y) * (4 * fb_width fb) + x * 4 + j)
      = Some (aget mem (y * fb_pitch fb + 4 * x + j))) as Hb.
  { intros n j Hj. rewrite byte_at_app_r by (rewrite Hl; nia). rewrite Hl.
    replace (54 + (fb_height fb - 1 - y) * (4 * fb_width fb) + x * 4 + j - 54)
      with ((fb_height fb - 1 - y) * (fb_width fb * 4) + (4 * x + j)) by lia.
    rewrite rows_down_byte by lia. rewrite Z2Nat.id by lia. do 2 f_equal.
    replace (fb_height fb - 1 - (fb_height fb - 1 - y)) with y by lia.
    rewrite (u32_id y), u32_id by (unfold is_u32; nia). lia. }
  rewrite <- (Z.add_0_r (54 + _ + x * 4)) at 1. rewrite !Hb by lia. by rewrite Z.add_0_r.
Qed.

(** The chunks written one after the other, up to a short write. *)
Section writing.
Context {S : Type} `{FilesLaws S}.
Implicit Types s : S.

Fixpoint write_all (fd : Z) (chunks : list (list Z)) s : option (bool * S) :=
  match chunks with
  | [] => Some (true, s)
  | l :: k => match fs_write fd l s with
              | None => None
              | Some (wr, s) => if negb (wr =? zlen l) then Some (false, s) else write_all fd k s
              end
  end.

(** The frame buffer does not change while the chunks are written to [fd]: [fd] is not the frame
    buffer device. *)
Fixpoint steady (fd : Z) (chunks : list (list Z)) (fb : fb_info_t) (mem : list Z) s : Prop :=
  fs_screen s = fb /\ fs_pixels s = mem
  /\ match chunks with
     | [] => True
     | l :: k => match fs_write fd l s with Some (_, s) => steady fd k fb mem s | None => True end
     end.

Lemma save_rows_chunks fb mem fd rb n s :
  0 <= rb -> steady fd (rows_down fb mem rb n) fb mem s ->
  save_rows n fd rb s = write_all fd (rows_down fb mem rb n) s.
Proof.
  intros Hrb. revert s. induction n as [|n IH]; intros s; [done|].
  cbn [steady rows_down save_rows write_all]. intros (-> & -> & Hs).
  rewrite length_fb_row, Z.max_r by lia.
  destruct (fs_write fd _ s) as [[wr s1]|]; [|done]. destruct (negb _); [done|]. by apply IH.
Qed.

(** C33: a screenshot is the screen.  For every 32-bit frame buffer that fits the format - at most
    4096 pixels wide, the file below 2 GB - [save_screenshot_bmp] writes the headers and the rows
    from the bottom up, stopping at a short write, and closes the file; and the bytes of those
    writes are an image [bmp_decode] accepts (memory permitting) with the size of the screen and,
    at every position, the pixel of the frame buffer. *)
Theorem screenshot_roundtrip path s fd s1 :
  let fb := fs_screen s in
  let mem := fs_pixels s in
  path <> None -> fb_addr fb <> 0 -> fb_bpp fb = 32 -> screen_ok fb mem ->
  fs_open path (Z.lor (Z.lor VFS_O_WRONLY VFS_O_CREAT) VFS_O_TRUNC) s = (fd, s1) -> 0 <= fd ->
  steady fd (screenshot_chunks fb mem) fb mem s1 ->
  save_screenshot_bmp path s
  = match write_all fd (screenshot_chunks fb mem) s1 with
    | Some (ok, s2) => Some (if ok then 0 else -1, fs_close fd s2)
    | None => None
    end
  /\ forall s2, (fs_alloc (4 * (fb_width fb * fb_height fb)) s2).1 = None
      \/ exists b s3, bmp_decode (concat (screenshot_chunks fb mem)) s2 = Some (Some b, s3)
           /\ bm_w b = fb_width fb /\ bm_h b = fb_height fb
           /\ forall y x, 0 <= y < fb_height fb -> 0 <= x < fb_width fb ->
                aget (bm_px b) (y * fb_width fb + x) = screen_pixel fb mem y x.
Proof.
  intros fb mem Hp Ha Hb HS Ho Hfd Hst. split.
  - unfold save_screenshot_bmp. fold fb. destruct path as [path|]; [|done].
    rewrite (proj2 (Z.eqb_neq _ 0)), Hb by done. cbn [orb negb Z.eqb Pos.eqb]. rewrite Ho.
    rewrite (proj2 (Z.ltb_ge fd 0)) by lia. unfold screenshot_chunks in *. cbn [write_all steady] in *.
    destruct Hst as (_ & _ & Hst). unfold zlen at 1. rewrite length_bmp_hdr. change (Z.of_nat 54) with 54.
    destruct (fs_write fd _ s1) as [[wr s2]|]; [|done]. destruct (negb _); [done|].
    rewrite (save_rows_chunks fb mem) by (apply u32_range || exact Hst). done.
  - intros s2. destruct (screenshot_header fb mem HS) as [Eh El].
    fold (screenshot_bytes fb mem). pose proof HS as [].
    destruct (bmp_decode_header (screenshot_bytes fb mem) s2 _ Eh) as (s3 & [[_ E]|(b & E & Hw & Hh & _ & Hpx)]).
    + split; cbn [bi_w bi_h bi_bpp bi_stride bi_offset]; change (32 / 8) with 4; lia.
    + lia.
    + by left.
    + right. exists b, s3. cbn [bi_w bi_h] in Hw, Hh, Hpx. split; [done|]. split; [done|]. split; [done|].
      intros y x Hy Hx. specialize (Hpx y x Hy Hx). rewrite screenshot_pixel in Hpx by done. by injection Hpx.
Qed.
End writing.

(** ** A screen of 2 x 2 pixels saved in memory and loaded again *)

Definition ex_path_tmp : option cstr := Some [47; 116; 109; 112; 47; 115].   (* "/tmp/s" *)
Definition ex_shot : vst machine :=
  caller (vsys_init ex_boot (mkMachine 1%positive [] (map Z.of_nat (seq 1 32))) 1) None.

Lemma screenshot_roundtrip_witness :
  exists s2, save_screenshot_bmp ex_path_tmp ex_shot = Some (0, s2)
    /\ exists b s3, bmp_decode (concat (screenshot_chunks (fs_screen ex_shot) (fs_pixels ex_shot))) s2 = Some (Some b, s3)
        /\ aget (bm_px b) (1 * 4 + 2) = 0x1C1B1A19.
Proof.
  destruct (fs_open ex_path_tmp (Z.lor (Z.lor VFS_O_WRONLY VFS_O_CREAT) VFS_O_TRUNC) ex_shot) as [fd s1] eqn:E.
  assert (fd = 0) as -> by (change fd with (fd, s1).1; rewrite <- E; vm_compute; reflexivity).
  assert (s1 = (fs_open ex_path_tmp (Z.lor (Z.lor VFS_O_WRONLY VFS_O_CREAT) VFS_O_TRUNC) ex_shot).2) as Es
    by (rewrite E; reflexivity).
  destruct (screenshot_roundtrip ex_path_tmp ex_shot 0 s1) as [E1 E2].
  - discriminate.
  - discriminate.
  - reflexivity.
  - change (fs_screen ex_shot) with (mkFbInfo 0xE0000000 16 4 2 32). split; cbn; lia.
  - exact E.
  - lia.
  - rewrite Es. vm_compute. repeat split.
  - destruct (save_screenshot_bmp ex_path_tmp ex_shot) as [[rc s2]|] eqn:E3; [|exfalso; revert E3; vm_compute; discriminate].
    assert (option_map fst (save_screenshot_bmp ex_path_tmp ex_shot) = Some 0) as E4 by (vm_compute; reflexivity).
    rewrite E3 in E4. injection E4 as ->. exists s2. split; [reflexivity|].
    destruct (E2 s2) as [En|(b & s3 & E5 & _ & _ & Hpx)].
    + exfalso. revert En. change (4 * _) with 32. cbn. discriminate.
    + exists b, s3. split; [exact E5|]. change 4 with (fb_width (fs_screen ex_shot)).
      rewrite (Hpx 1 2) by (vm_compute; split; congruence). vm_compute. reflexivity.
Defined.

(** The whole path: the file is written through the virtual file system and loaded again. *)
Lemma screenshot_file_loads :
  match save_screenshot_bmp ex_path_tmp ex_shot with
  | Some (0, s2) => option_map (fun r => (r.1.1, option_map bm_px r.1.2)) (bmp_load_to_buf ex_path_tmp s2)
  | _ => None
  end = Some (0, Some [0x04030201; 0x08070605; 0x0C0B0A09; 0x100F0E0D; 0x14131211; 0x18171615; 0x1C1B1A19; 0x201F1E1D]).
Proof. vm_compute. reflexivity. Qed.
