(* ===== verification/Theme.v ===== *)
(** The desktop theme and its configuration file ([src/syscall/syscall.c]: the helpers before the
    dispatchers and the [SYSTEM_CMD_THEME_*] commands).

    The theme is the record [theme_state]; the configuration is a text of [key=value] lines printed
    by [ksprintf] ([Kprintf]) and read back by the line parser below.  The statics, the desktop
    ([Wallpaper]) and the file system ([Files]) are the state [tsys] of the commands.  Characters
    are read as [unsigned char]; [None] is undefined behaviour. *)

From Stdlib Require Import String.
From S2P Require Import Prelude CString VfsData Files Kprintf.
From S2P Require Wallpaper.

Definition TSUKASA_THEME_BG_GRADIENT : Z := 0.
Definition TSUKASA_THEME_BG_SOLID : Z := 1.
Definition TSUKASA_THEME_BG_WALLPAPER : Z := 2.
Definition TSUKASA_THEME_WP_SCALE_FILL : Z := 0.
Definition TSUKASA_THEME_WP_CENTER : Z := 1.
Definition TSUKASA_THEME_FLAG_EPHEMERAL : Z := 1.
Definition THEME_CFG_VERSION : Z := 1.
Definition THEME_CFG_PRIMARY : cstr := zs "/disk/tsukasa/theme.cfg".
Definition THEME_CFG_FALLBACK : cstr := zs "/tmp/theme.cfg".
Definition THEME_CFG_MAX : Z := 1024.

(** [struct tsukasa_theme_state]. *)
Record theme_state := mkTheme {
  accent_color : Z;
  background_mode : Z;
  solid_color : Z;
  wallpaper_style : Z;
  flags : Z;
  wallpaper_path : cstr;       (* char [128] *)
}.
#[export] Instance theme_rebuild : Rebuild theme_state := fun t =>
  mkTheme (accent_color t) (background_mode t) (solid_color t) (wallpaper_style t) (flags t) (wallpaper_path t).

(** ** String helpers *)

Definition copy_small_string (dst : cstr) (cap : Z) (src : option cstr) : cstr :=
  if cap =? 0 then dst else
  match src with None => [] | Some src => (copy_upto (Z.to_nat (cap - 1)) src).1 end.

Definition small_strlen (s : option cstr) : Z := match s with Some s => zlen s | None => 0 end.

Fixpoint streq_loop (a b : cstr) : bool :=
  match a, b with
  | x :: a', y :: b' => if x =? y then streq_loop a' b' else false
  | [], [] => true
  | _, _ => false
  end.
Definition small_streq (a b : option cstr) : bool :=
  match a, b with Some a, Some b => streq_loop a b | _, _ => false end.

Definition is_space_char (c : Z) : bool := (c =? 32) || (c =? 9) || (c =? 10) || (c =? 13).

Fixpoint skip_spaces (s : cstr) : cstr :=
  match s with c :: s' => if is_space_char c then skip_spaces s' else s | [] => [] end.

(** The spaces at the end are cut from the last character backwards. *)
Definition trim_ws (s : cstr) : cstr := rev (skip_spaces (rev (skip_spaces s))).

(** ** Numbers *)

Definition hex_digit (c : Z) : option Z :=
  if (48 <=? c) && (c <=? 57) then Some (c - 48)
  else if (97 <=? c) && (c <=? 102) then Some (u32 (10 + (c - 97)))
  else if (65 <=? c) && (c <=? 70) then Some (u32 (10 + (c - 65)))
  else None.

Fixpoint hex_loop (p : cstr) (v digits : Z) : option (Z * Z) :=
  match p with
  | [] => Some (v, digits)
  | c :: p' =>
      match hex_digit c with
      | None => None
      | Some d => let v := Z.lor (u32 (Z.shiftl v 4)) d in
                  let digits := digits + 1 in
                  if 8 <? digits then None else hex_loop p' v digits
      end
  end.

Definition parse_hex_u32 (s : option cstr) : option Z :=
  match s with
  | None => None
  | Some s =>
      let p := match s with
               | a :: b :: p => if (a =? 48) && ((b =? 120) || (b =? 88)) then p else s
               | _ => s
               end in
      match hex_loop p 0 0 with
      | None => None
      | Some (v, digits) => if digits <=? 0 then None else Some v
      end
  end.

Fixpoint dec_loop (p : cstr) (v digits : Z) : option (Z * Z) :=
  match p with
  | [] => Some (v, digits)
  | c :: p' =>
      if (c <? 48) || (57 <? c) then None else
      let d := c - 48 in
      if (429496729 <? v) || ((v =? 429496729) && (5 <? d)) then None else
      dec_loop p' (u32 (u32 (v * 10) + d)) (digits + 1)
  end.

Definition parse_dec_u32 (s : option cstr) : option Z :=
  match s with
  | None => None
  | Some s => match dec_loop s 0 0 with
              | None => None
              | Some (v, digits) => if digits <=? 0 then None else Some v
              end
  end.

(** ** Validation *)

Definition validate_theme_color (argb : Z) : bool := Z.land (Z.shiftr argb 24) 0xFF =? 0xFF.

Definition validate_bg_mode (mode : Z) : bool :=
  (mode =? TSUKASA_THEME_BG_GRADIENT) || (mode =? TSUKASA_THEME_BG_SOLID) || (mode =? TSUKASA_THEME_BG_WALLPAPER).

Definition validate_wallpaper_style (mode : Z) : bool :=
  (mode =? TSUKASA_THEME_WP_SCALE_FILL) || (mode =? TSUKASA_THEME_WP_CENTER).

Definition ch_backslash : Z := 92.

(** The second loop: no component of the path is [..].  [prev] is the character before. *)
Fixpoint no_dotdot (prev : Z) (s : cstr) : bool :=
  match s with
  | a :: s' =>
      match s' with
      | b :: s'' =>
          if (a =? ch_dot) && (b =? ch_dot) && (prev =? ch_slash)
             && (match s'' with next :: _ => next | [] => ch_slash end =? ch_slash)
          then false else no_dotdot a s'
      | [] => true
      end
  | [] => true
  end.

Definition path_char (c : Z) : bool := negb ((c <? 32) || (126 <? c) || (c =? ch_backslash)).

(** The return value 0 is [true]. *)
Definition validate_wallpaper_path (path : option cstr) (allow_empty : bool) : bool :=
  match path with
  | None => allow_empty
  | Some p =>
      let n := small_strlen path in
      if n =? 0 then allow_empty else
      if 128 <=? n then false else
      if negb (aget p 0 =? ch_slash) then false else
      if negb (forallb path_char p) then false else
      no_dotdot ch_slash p
  end.

Definition bg_mode_to_str (mode : Z) : cstr :=
  if mode =? TSUKASA_THEME_BG_GRADIENT then zs "gradient"
  else if mode =? TSUKASA_THEME_BG_SOLID then zs "solid"
  else if mode =? TSUKASA_THEME_BG_WALLPAPER then zs "wallpaper"
  else zs "gradient".

Definition parse_bg_mode (s : option cstr) : option Z :=
  if small_streq s (Some (zs "gradient")) then Some TSUKASA_THEME_BG_GRADIENT
  else if small_streq s (Some (zs "solid")) then Some TSUKASA_THEME_BG_SOLID
  else if small_streq s (Some (zs "wallpaper")) then Some TSUKASA_THEME_BG_WALLPAPER
  else None.

Definition wallpaper_style_to_str (style : Z) : cstr :=
  if style =? TSUKASA_THEME_WP_CENTER then zs "center" else zs "scale-fill".

Definition parse_wallpaper_style (s : option cstr) : option Z :=
  if small_streq s (Some (zs "scale-fill")) then Some TSUKASA_THEME_WP_SCALE_FILL
  else if small_streq s (Some (zs "center")) then Some TSUKASA_THEME_WP_CENTER
  else None.

Definition theme_set_defaults : theme_state :=
  mkTheme Wallpaper.THEME_ACCENT_DEFAULT TSUKASA_THEME_BG_GRADIENT Wallpaper.THEME_BG_BOT
    TSUKASA_THEME_WP_SCALE_FILL 0 [].

(** ** The configuration text *)

Definition nl : Z := 10.

Definition theme_fmt : cstr :=
  zs "version=%u" ++ [nl] ++ zs "accent_color=0x%08X" ++ [nl] ++ zs "background_mode=%s" ++ [nl]
    ++ zs "solid_color=0x%08X" ++ [nl] ++ zs "wallpaper_path=%s" ++ [nl] ++ zs "wallpaper_style=%s" ++ [nl].

Definition theme_args (st : theme_state) : list arg :=
  [AInt THEME_CFG_VERSION; AInt (accent_color st); AStr (Some (bg_mode_to_str (background_mode st)));
   AInt (solid_color st); AStr (Some (wallpaper_path st)); AStr (Some (wallpaper_style_to_str (wallpaper_style st)))].

(** ** Reading it *)

(** The locals of [theme_read_cfg_from]. *)
Record cfg := mkCfg {
  c_st : theme_state;
  has_version : bool; has_accent : bool; has_bg : bool; has_solid : bool; has_wall : bool;
  c_ver : Z;
}.
#[export] Instance cfg_rebuild : Rebuild cfg := fun c =>
  mkCfg (c_st c) (has_version c) (has_accent c) (has_bg c) (has_solid c) (has_wall c) (c_ver c).
Definition cfg_init : cfg := mkCfg theme_set_defaults false false false false false 0.

Definition is_eol (c : Z) : bool := (c =? 10) || (c =? 13).

(** The line at [scan], and what follows it: one or two line ends are skipped. *)
Fixpoint scan_line (scan : cstr) : cstr * cstr :=
  match scan with
  | [] => ([], [])
  | c :: scan' =>
      if is_eol c then ([], match scan' with d :: r => if is_eol d then r else scan' | [] => [] end)
      else let '(line, rest) := scan_line scan' in (c :: line, rest)
  end.

(** What is before and after the first [=]. *)
Fixpoint split_eq (line : cstr) : option (cstr * cstr) :=
  match line with
  | [] => None
  | c :: line' => if c =? 61 then Some ([], line')
                  else match split_eq line' with Some (k, v) => Some (c :: k, v) | None => None end
  end.

(** The chain of tests on the key; [None] is [goto fail]. *)
Definition cfg_set (key val : cstr) (c : cfg) : option cfg :=
  let key_is k := small_streq (Some key) (Some (zs k)) in
  let st := c_st c in
  if key_is "version"%string then
    match parse_dec_u32 (Some val) with
    | Some v => Some (c <| c_ver := v |> <| has_version := true |>)
    | None => None
    end
  else if key_is "accent_color"%string then
    match parse_hex_u32 (Some val) with
    | Some v => if negb (validate_theme_color v) then None
                else Some (c <| c_st := st <| accent_color := v |> |> <| has_accent := true |>)
    | None => None
    end
  else if key_is "background_mode"%string then
    match parse_bg_mode (Some val) with
    | Some m => Some (c <| c_st := st <| background_mode := m |> |> <| has_bg := true |>)
    | None => None
    end
  else if key_is "solid_color"%string then
    match parse_hex_u32 (Some val) with
    | Some v => if negb (validate_theme_color v) then None
                else Some (c <| c_st := st <| solid_color := v |> |> <| has_solid := true |>)
    | None => None
    end
  else if key_is "wallpaper_path"%string then
    if negb (validate_wallpaper_path (Some val) true) then None
    else Some (c <| c_st := st <| wallpaper_path := copy_small_string (wallpaper_path st) 128 (Some val) |> |>
                 <| has_wall := true |>)
  else if key_is "wallpaper_style"%string then
    match parse_wallpaper_style (Some val) with
    | Some m => Some (c <| c_st := st <| wallpaper_style := m |> |>)
    | None => None
    end
  else Some c.

Definition cfg_line (line : cstr) (c : cfg) : option cfg :=
  let line := trim_ws line in
  match line with
  | [] => Some c
  | x :: _ =>
      if x =? 35 then Some c else                                    (* '#' *)
      match split_eq line with
      | None => Some c
      | Some (k, v) => cfg_set (trim_ws k) (trim_ws v) c
      end
  end.

(** [while ( *scan)]: every round takes a character at least. *)
Fixpoint cfg_loop (n : nat) (scan : cstr) (c : cfg) : option cfg :=
  match n with
  | O => None
  | S n' =>
      match scan with
      | [] => Some c
      | _ => let '(line, rest) := scan_line scan in
             match cfg_line line c with
             | Some c => cfg_loop n' rest c
             | None => None
             end
      end
  end.

(** The contents of a configuration file to the state it describes. *)
Definition parse_cfg (text : cstr) : option theme_state :=
  match cfg_loop (S (length text)) text cfg_init with
  | None => None
  | Some c =>
      if negb (has_version c && has_accent c && has_bg c && has_solid c && has_wall c) then None else
      if negb (c_ver c =? THEME_CFG_VERSION) then None else
      if (background_mode (c_st c) =? TSUKASA_THEME_BG_WALLPAPER)
         && match wallpaper_path (c_st c) with [] => true | _ => false end then None else
      Some (c_st c)
  end.

(** The C string in a buffer. *)
Fixpoint until_nul (buf : list Z) : cstr :=
  match buf with [] => [] | c :: buf' => if c =? 0 then [] else c :: until_nul buf' end.

(** ** Files and commands *)

(** The statics of [syscall.c], the desktop's and the file system. *)
Record tsys (S : Type) := mkTsys {
  g_theme_state : theme_state;
  g_theme_loaded : bool;
  ts_desk : Wallpaper.desk;
  ts_fs : S;
}.
Arguments mkTsys {S}.
Arguments g_theme_state {S}.
Arguments g_theme_loaded {S}.
Arguments ts_desk {S}.
Arguments ts_fs {S}.
#[export] Instance tsys_rebuild {S} : Rebuild (tsys S) := fun t =>
  mkTsys (g_theme_state t) (g_theme_loaded t) (ts_desk t) (ts_fs t).

Section theme.
Context {S : Type} `{Files S}.
Implicit Types (s : S) (t : tsys S) (st : theme_state).

Definition theme_write_cfg_to (path : option cstr) st s : option (Z * S) :=
  match path with
  | None => Some (-1, s)
  | Some _ =>
    match ksprintf (Some (repeat 0 512)) 512 theme_fmt (theme_args st) with
    | Some (len, Some cfg) =>
      if (len <=? 0) || (512 <=? u64 len) then Some (-1, s) else
      let '(fd, s) := fs_open path (Z.lor (Z.lor VFS_O_WRONLY VFS_O_TRUNC) VFS_O_CREAT) s in
      if fd <? 0 then Some (-1, s) else
      match fs_write fd (take (Z.to_nat len) cfg) s with
      | None => None
      | Some (wr, s) => Some (if negb (wr =? len) then -1 else 0, fs_close fd s)
      end
    | _ => None
    end
  end.

Definition set_ephemeral st : theme_state := st <| flags := Z.lor (flags st) TSUKASA_THEME_FLAG_EPHEMERAL |>.
Definition clear_ephemeral st : theme_state := st <| flags := Z.ldiff (flags st) TSUKASA_THEME_FLAG_EPHEMERAL |>.

Definition theme_persist_state st s : option (Z * theme_state * S) :=
  match theme_write_cfg_to (Some THEME_CFG_PRIMARY) st s with
  | None => None
  | Some (rc, s) =>
    if rc =? 0 then Some (0, clear_ephemeral st, s) else
    match theme_write_cfg_to (Some THEME_CFG_FALLBACK) st s with
    | None => None
    | Some (rc, s) => if rc =? 0 then Some (0, set_ephemeral st, s) else Some (-1, set_ephemeral st, s)
    end
  end.

(** The state that was read, for the return value 0. *)
Definition theme_read_cfg_from (path : option cstr) s : option theme_state * S :=
  match path with
  | None => (None, s)
  | Some _ =>
    let '(fd, s) := fs_open path VFS_O_RDONLY s in
    if fd <? 0 then (None, s) else
    let sz := fs_size fd s in
    if (sz =? 0) || (THEME_CFG_MAX <? sz) then (None, fs_close fd s) else
    match fs_alloc (u64 (sz + 1)) s with
    | (None, s) => (None, fs_close fd s)
    | (Some (a, d), s) =>
        let '(got, s) := fs_read fd sz s in
        let s := fs_close fd s in
        if negb (zlen got =? sz) then (None, fs_free a s) else
        let buf := aset sz 0 (copy_in d 0 got (length got)) in
        (parse_cfg (until_nul buf), fs_free a s)
    end
  end.

Definition theme_apply t : option (Z * tsys S) :=
  let st := g_theme_state t in
  match Wallpaper.desktop_apply_theme (accent_color st) (background_mode st) (solid_color st) (wallpaper_style st)
          (Some (wallpaper_path st)) (ts_desk t) (ts_fs t) with
  | None => None
  | Some (rc, d, s) => Some (rc, t <| ts_desk := d |> <| ts_fs := s |>)
  end.

(** [(void)theme_persist_state(&g_theme_state)] *)
Definition theme_persist t : option (tsys S) :=
  match theme_persist_state (g_theme_state t) (ts_fs t) with
  | None => None
  | Some (_, st, s) => Some (t <| g_theme_state := st |> <| ts_fs := s |>)
  end.

Definition drop_wallpaper t : tsys S :=
  t <| g_theme_state := g_theme_state t <| background_mode := TSUKASA_THEME_BG_GRADIENT |> <| wallpaper_path := [] |> |>.

(** [(void)theme_apply_state(...); (void)theme_persist_state(...);] *)
Definition apply_persist t : option (tsys S) :=
  match theme_apply t with None => None | Some (_, t) => theme_persist t end.

(** The defaults, or what one of the two files holds. *)
Definition theme_load_state t : tsys S :=
  let t := t <| g_theme_state := theme_set_defaults |> in
  let '(r, s) := theme_read_cfg_from (Some THEME_CFG_PRIMARY) (ts_fs t) in
  let t := t <| ts_fs := s |> in
  match r with
  | Some st => t <| g_theme_state := clear_ephemeral st |>
  | None =>
      let '(r, s) := theme_read_cfg_from (Some THEME_CFG_FALLBACK) (ts_fs t) in
      let t := t <| ts_fs := s |> in
      match r with
      | Some st => t <| g_theme_state := set_ephemeral st |>
      | None => t <| g_theme_state := g_theme_state t <| flags := 0 |> |>
      end
  end.

Definition theme_ensure_loaded t : option (tsys S) :=
  if g_theme_loaded t then Some t else
  match theme_apply (theme_load_state t) with
  | None => None
  | Some (rc, t) =>
      match (if negb (rc =? 0) && (background_mode (g_theme_state t) =? TSUKASA_THEME_BG_WALLPAPER)
             then apply_persist (drop_wallpaper t) else Some t) with
      | None => None
      | Some t => Some (t <| g_theme_loaded := true |>)
      end
  end.

(** [return (uintptr_t)-1] is -1. *)
Definition returning (rc : Z) (r : option (tsys S)) : option (Z * tsys S) :=
  match r with Some t => Some (rc, t) | None => None end.

Definition theme_set_accent (arg2 : Z) t : option (Z * tsys S) :=
  let accent := u32 arg2 in
  match theme_ensure_loaded t with
  | None => None
  | Some t =>
      if negb (validate_theme_color accent) then Some (-1, t) else
      let t := t <| g_theme_state := g_theme_state t <| accent_color := accent |> |> in
      match theme_apply t with
      | None => None
      | Some (rc, t) => if negb (rc =? 0) then Some (-1, t) else returning 0 (theme_persist t)
      end
  end.

(** The auxiliary argument: a colour for the solid mode, a style for the wallpaper; [None] when it
    is refused. *)
Definition set_aux (mode aux : Z) (has_aux : bool) st : option theme_state :=
  if (mode =? TSUKASA_THEME_BG_SOLID) && has_aux then
    if negb (validate_theme_color aux) then None else Some (st <| solid_color := aux |>)
  else if (mode =? TSUKASA_THEME_BG_WALLPAPER) && has_aux then
    if negb (validate_wallpaper_style aux) then None else Some (st <| wallpaper_style := aux |>)
  else Some st.

Definition theme_set_bg_mode (arg2 arg3 arg4 : Z) t : option (Z * tsys S) :=
  let mode := u32 arg2 in
  let aux := u32 arg3 in
  let has_aux := negb (arg4 =? 0) in
  match theme_ensure_loaded t with
  | None => None
  | Some t =>
    if negb (validate_bg_mode mode) then Some (-1, t) else
    match set_aux mode aux has_aux (g_theme_state t) with
    | None => Some (-1, t)
    | Some st =>
      let t := t <| g_theme_state := st <| background_mode := mode |> |> in
      if (mode =? TSUKASA_THEME_BG_WALLPAPER) && match wallpaper_path st with [] => true | _ => false end then
        returning (-1) (apply_persist (t <| g_theme_state := st <| background_mode := TSUKASA_THEME_BG_GRADIENT |> |>))
      else
      match theme_apply t with
      | None => None
      | Some (rc, t) =>
          if negb (rc =? 0) then
            if mode =? TSUKASA_THEME_BG_WALLPAPER then returning (-1) (apply_persist (drop_wallpaper t))
            else returning (-1) (theme_persist t)
          else returning 0 (theme_persist t)
      end
    end
  end.

Definition theme_set_wallpaper (path : option cstr) (arg3 arg4 : Z) t : option (Z * tsys S) :=
  let has_style := negb (arg4 =? 0) in
  match theme_ensure_loaded t with
  | None => None
  | Some t =>
    if negb (validate_wallpaper_path path false) then Some (-1, t) else
    let style := u32 arg3 in
    if has_style && negb (validate_wallpaper_style style) then Some (-1, t) else
    let st := g_theme_state t in
    let st := if has_style then st <| wallpaper_style := style |> else st in
    let st := st <| wallpaper_path := copy_small_string (wallpaper_path st) 128 path |>
                 <| background_mode := TSUKASA_THEME_BG_WALLPAPER |> in
    let t := t <| g_theme_state := st |> in
    match theme_apply t with
    | None => None
    | Some (rc, t) => if negb (rc =? 0) then returning (-1) (apply_persist (drop_wallpaper t))
                      else returning 0 (theme_persist t)
    end
  end.

(** [out] tells whether the pointer is not NULL; the structure stored there. *)
Definition theme_get_state (out : bool) t : option (Z * option theme_state * tsys S) :=
  match theme_ensure_loaded t with
  | None => None
  | Some t => if negb out then Some (-1, None, t) else Some (0, Some (g_theme_state t), t)
  end.

(** The commands of a program, in any order. *)
Inductive theme_call : Type :=
  | SetAccent (arg2 : Z)
  | SetBgMode (arg2 arg3 arg4 : Z)
  | SetWallpaper (path : option cstr) (arg3 arg4 : Z)
  | GetState (out : bool).

Definition run_theme_call (c : theme_call) t : option (Z * tsys S) :=
  match c with
  | SetAccent a => theme_set_accent a t
  | SetBgMode a b c => theme_set_bg_mode a b c t
  | SetWallpaper p a b => theme_set_wallpaper p a b t
  | GetState o => match theme_get_state o t with Some (rc, _, t) => Some (rc, t) | None => None end
  end.

Fixpoint run_theme_calls (cs : list theme_call) t : option (tsys S) :=
  match cs with
  | [] => Some t
  | c :: cs => match run_theme_call c t with Some (_, t) => run_theme_calls cs t | None => None end
  end.
End theme.
