(* ===== verification/ThemeProps.v ===== *)
(** What is proved of the theme configuration ([Theme]): the text of a valid state is read back as
    that state, the configuration files go through the file system unchanged, and the commands keep
    the state valid and the desktop in step with it. *)

From Stdlib Require Import String.
From S2P Require Import VfsSys VfsProps.
From S2P Require Import Prelude CString VfsData Files Kprintf Theme.
From S2P Require Wallpaper Wm.

(** ** Numbers *)

Lemma lor_nibble v d : is_u32 v -> 0 <= d < 16 -> Z.lor (u32 (Z.shiftl v 4)) d = u32 (v * 16) + d.
Proof.
  intros Hv Hd. rewrite Z.shiftl_mul_pow2 by lia. change (2 ^ 4) with 16.
  assert (u32 (v * 16) = Z.shiftl (v mod 2 ^ 28) 4) as ->.
  { rewrite Z.shiftl_mul_pow2 by lia. change (2 ^ 4) with 16. change (2 ^ 28) with 268435456. wsolve. }
  rewrite Z.lor_comm, lor_shiftl_add by lia. rewrite Z.shiftl_mul_pow2 by lia. lia.
Qed.

Lemma hex_digit_range c d : hex_digit c = Some d -> 0 <= d < 16.
Proof.
  unfold hex_digit. destruct ((48 <=? c) && (c <=? 57)) eqn:E1; [intros [= <-]; lia|].
  destruct ((97 <=? c) && (c <=? 102)) eqn:E2; [intros [= <-]; rewrite u32_id by (unfold is_u32; lia); lia|].
  destruct ((65 <=? c) && (c <=? 70)) eqn:E3; [intros [= <-]; rewrite u32_id by (unfold is_u32; lia); lia|done].
Qed.

Lemma hex_loop_range p v n v' n' : is_u32 v -> hex_loop p v n = Some (v', n') -> is_u32 v'.
Proof.
  revert v n. induction p as [|c p IH]; intros v n Hv; simpl; [by intros [= <- _]|].
  destruct (hex_digit c) as [d|] eqn:E; [|done]. apply hex_digit_range in E. case_match; [done|].
  apply IH. rewrite lor_nibble by done. unfold is_u32 in *. wsolve.
Qed.

Lemma parse_hex_range s v : parse_hex_u32 s = Some v -> is_u32 v.
Proof.
  unfold parse_hex_u32. destruct s as [s|]; [|done]. destruct (hex_loop _ 0 0) as [[w n]|] eqn:E; [|done].
  destruct (n <=? 0); [done|]. intros [= <-]. apply hex_loop_range in E; [done|unfold is_u32; lia].
Qed.

Lemma hex_digit_upper d : 0 <= d < 16 -> hex_digit (aget hex_upper d) = Some d.
Proof.
  intros Hd. assert (forallb (fun d => bool_decide (hex_digit (aget hex_upper d) = Some d)) (seqZ 0 16) = true) as Hall
    by (vm_compute; reflexivity).
  rewrite forallb_forall in Hall. specialize (Hall d). apply bool_decide_eq_true in Hall; [done|].
  apply list_elem_of_In, elem_of_seqZ. lia.
Qed.

(** Reading the digits of a number that fits. *)
Lemma hex_loop_digits ds v n :
  Forall (fun d => 0 <= d < 16) ds -> 0 <= v < 16 ^ n -> 0 <= n -> n + zlen ds <= 8 ->
  hex_loop (map (aget hex_upper) ds) v n = Some (foldl (fun v d => v * 16 + d) v ds, n + zlen ds).
Proof.
  intros Hds. revert v n. induction Hds as [|d ds Hd Hds IH]; intros v n Hv Hn Hl.
  { simpl. by rewrite zlen_nil, Z.add_0_r. }
  rewrite zlen_cons in *. pose proof (zlen_nonneg ds). cbn [map hex_loop foldl]. rewrite hex_digit_upper by done.
  rewrite (proj2 (Z.ltb_ge 8 _)) by lia.
  assert (v * 16 + d < 16 ^ (n + 1)) by (rewrite Z.pow_add_r by lia; nia).
  assert (16 ^ (n + 1) <= 16 ^ 8) by (apply Z.pow_le_mono_r; lia). change (16 ^ 8) with 4294967296 in *.
  rewrite lor_nibble by (unfold is_u32; lia). rewrite u32_id by (unfold is_u32; lia).
  rewrite IH by lia. do 2 f_equal. lia.
Qed.

(** The text of [%08X]. *)
Definition hex8 (v : Z) : cstr := pad_text 8 ch_0 (uint_text 16 hex_upper v).

Lemma num_value_zeroes n ds : num_value 16 (repeat 0 n ++ ds) = num_value 16 ds.
Proof. unfold num_value. rewrite foldl_app. f_equal. induction n as [|n IH]; [done|]. exact IH. Qed.

Lemma hex8_digits v : is_u32 v ->
  exists ds, hex8 v = map (aget hex_upper) ds /\ Forall (fun d => 0 <= d < 16) ds
    /\ num_value 16 ds = v /\ length ds = 8%nat.
Proof.
  intros Hv. destruct (uint_text_value 16 hex_upper v) as (ds & E & Hr & Hval & Hne & Hlen); [lia|done|done|].
  specialize (Hlen 8%nat ltac:(lia)). unfold is_u32 in Hv. specialize (Hlen ltac:(simpl; lia)).
  exists (repeat 0 (8 - length ds) ++ ds). unfold hex8, pad_text. rewrite E. unfold zlen. rewrite length_map.
  replace (Z.to_nat (8 - Z.of_nat (length ds))) with (8 - length ds)%nat by lia.
  rewrite map_app, map_repeat, num_value_zeroes, length_app, repeat_length. split; [done|].
  split; [|split; [done|lia]]. apply Forall_app. split; [|done]. apply Forall_forall. intros x Hx.
  apply list_elem_of_In, repeat_spec in Hx. subst. lia.
Qed.

Lemma parse_hex8 v : is_u32 v -> parse_hex_u32 (Some (zs "0x" ++ hex8 v)) = Some v.
Proof.
  intros Hv. destruct (hex8_digits v Hv) as (ds & -> & Hr & Hval & Hl).
  change (parse_hex_u32 _) with (match hex_loop (map (aget hex_upper) ds) 0 0 with
    | None => None | Some (v, digits) => if digits <=? 0 then None else Some v end).
  rewrite hex_loop_digits by (done || (unfold zlen; lia)). fold (num_value 16 ds). rewrite Hval.
  rewrite (proj2 (Z.leb_gt _ 0)) by (unfold zlen; lia). done.
Qed.

(** ** Trimming, lines and keys *)

Definition plain (s : cstr) : Prop := Forall (fun c => is_space_char c = false) s.

Lemma skip_spaces_id s : (forall x, head s = Some x -> is_space_char x = false) -> skip_spaces s = s.
Proof. destruct s as [|c s]; intros Hs; [done|]. simpl. by rewrite (Hs c eq_refl). Qed.

Lemma trim_ws_id s :
  (forall x, head s = Some x -> is_space_char x = false) -> (forall x, last s = Some x -> is_space_char x = false) ->
  trim_ws s = s.
Proof.
  intros Hh Hl. unfold trim_ws. rewrite (skip_spaces_id s) by done. rewrite skip_spaces_id.
  - apply rev_involutive.
  - intros x Hx. apply Hl. rewrite <- head_reverse. unfold reverse. by rewrite <- rev_alt.
Qed.

Lemma trim_plain s : plain s -> trim_ws s = s.
Proof.
  intros Hs. apply trim_ws_id; intros x Hx.
  - destruct s as [|c s]; [done|]. injection Hx as ->. by apply Forall_cons in Hs as [? _].
  - apply last_Some in Hx as [l ->]. apply Forall_app in Hs as [_ Hs]. by apply Forall_cons in Hs as [? _].
Qed.

Lemma split_eq_key key val : Forall (fun c => c <> 61) key -> split_eq (key ++ 61 :: val) = Some (key, val).
Proof.
  induction 1 as [|c key Hc Hk IH]; [done|]. simpl. rewrite (proj2 (Z.eqb_neq c 61)) by done. by rewrite IH.
Qed.

Lemma last_cons_some {A} (x : A) l y : last (x :: l) = Some y -> l = [] /\ y = x \/ last l = Some y.
Proof. destruct l as [|z l]; [intros [= <-]; by left|]. by right. Qed.

Lemma cfg_line_set key val c :
  plain key -> Forall (fun c => c <> 61) key -> (exists x, head key = Some x /\ x <> 35) -> trim_ws val = val ->
  (forall x, last val = Some x -> is_space_char x = false) ->
  cfg_line (key ++ 61 :: val) c = cfg_set key val c.
Proof.
  intros Hp H61 (x & Hx & H35) Hval Hlast. destruct key as [|k key]; [done|]. injection Hx as ->.
  unfold cfg_line. rewrite trim_ws_id.
  - change ((x :: key) ++ 61 :: val) with (x :: (key ++ 61 :: val)) at 1. cbn iota.
    rewrite (proj2 (Z.eqb_neq x 35)) by done. rewrite split_eq_key by done. by rewrite (trim_plain (x :: key)), Hval.
  - intros y [= <-]. by apply Forall_cons in Hp as [? _].
  - intros y Hy. rewrite last_app_cons in Hy. apply last_cons_some in Hy as [[_ ->]|Hy]; [done|by apply Hlast].
Qed.

Lemma scan_line_nl l rest :
  Forall (fun c => is_eol c = false) l -> (forall x, head rest = Some x -> is_eol x = false) ->
  scan_line (l ++ nl :: rest) = (l, rest).
Proof.
  intros Hl Hr. induction Hl as [|c l Hc Hl IH]; simpl.
  - destruct rest as [|d r]; [done|]. by rewrite (Hr d eq_refl).
  - by rewrite Hc, IH.
Qed.

Lemma cfg_loop_line n l rest c :
  l <> [] -> Forall (fun c => is_eol c = false) l -> (forall x, head rest = Some x -> is_eol x = false) ->
  cfg_loop (S n) (l ++ nl :: rest) c = match cfg_line l c with Some c => cfg_loop n rest c | None => None end.
Proof.
  intros Hne Hl Hr. destruct l as [|x l]; [done|]. cbn [cfg_loop]. by rewrite scan_line_nl.
Qed.

(** The fuel of a text is its length. *)
Lemma scan_line_shorter scan line rest :
  scan <> [] -> scan_line scan = (line, rest) -> (length rest < length scan)%nat.
Proof.
  revert line. induction scan as [|c scan IH]; intros line Hne; [done|]. simpl. destruct (is_eol c).
  - intros [= _ <-]. destruct scan as [|d r]; simpl; [lia|]. destruct (is_eol d); simpl; lia.
  - destruct (scan_line scan) as [l r] eqn:E. intros [= _ <-]. destruct scan as [|d scan].
    + simpl in E. injection E as _ <-. simpl. lia.
    + specialize (IH l ltac:(done) eq_refl). simpl in *. lia.
Qed.

Lemma cfg_loop_fuel n m scan c :
  (length scan < n)%nat -> (length scan < m)%nat -> cfg_loop n scan c = cfg_loop m scan c.
Proof.
  revert m scan c. induction n as [|n IH]; intros [|m] scan c Hn Hm; [lia..|]. cbn [cfg_loop].
  destruct scan as [|x scan]; [done|]. destruct (scan_line (x :: scan)) as [line rest] eqn:E.
  apply scan_line_shorter in E; [|done]. destruct (cfg_line line c) as [c'|]; [|done]. apply IH; simpl in *; lia.
Qed.

(** ** Valid states *)

Record theme_ok (st : theme_state) : Prop := {
  to_accent : is_u32 (accent_color st) /\ validate_theme_color (accent_color st) = true;
  to_solid : is_u32 (solid_color st) /\ validate_theme_color (solid_color st) = true;
  to_mode : validate_bg_mode (background_mode st) = true;
  to_style : validate_wallpaper_style (wallpaper_style st) = true;
  to_path : validate_wallpaper_path (Some (wallpaper_path st)) true = true;
  to_wall : background_mode st = TSUKASA_THEME_BG_WALLPAPER -> wallpaper_path st <> [];
}.

Lemma theme_ok_defaults : theme_ok theme_set_defaults.
Proof. split; try done; split; done || reflexivity. Qed.

(** An accepted path: shorter than the field, printable and without a backslash, absolute. *)
Lemma path_valid p b : validate_wallpaper_path (Some p) b = true ->
  zlen p < 128 /\ forallb path_char p = true /\ forall c, head p = Some c -> c = ch_slash.
Proof.
  unfold validate_wallpaper_path, small_strlen. destruct (Z.eqb_spec (zlen p) 0) as [E|Hne].
  { intros _. destruct p as [|c p]; [done|]. rewrite zlen_cons in E. pose proof (zlen_nonneg p). lia. }
  destruct (Z.leb_spec 128 (zlen p)); [done|]. destruct (negb (aget p 0 =? ch_slash)) eqn:Eh; [done|].
  destruct (forallb path_char p) eqn:Ec; [|done]. intros _. split; [done|]. split; [done|].
  intros c Hc. destruct p as [|x p]; [done|]. injection Hc as ->. change (aget (c :: p) 0) with c in Eh.
  apply negb_false_iff, Z.eqb_eq in Eh. done.
Qed.

Lemma path_char_range c : path_char c = true -> 32 <= c <= 126.
Proof. unfold path_char. intros Hc. apply negb_true_iff in Hc. lia. Qed.

Lemma copy_small_fits dst p : zlen p < 128 -> copy_small_string dst 128 (Some p) = p.
Proof.
  intros Hp. unfold copy_small_string. change (128 =? 0) with false. cbn iota. rewrite copy_upto_eq. cbn [fst].
  apply take_ge. unfold zlen in Hp. lia.
Qed.

(** ** The text *)

Definition theme_text (st : theme_state) : cstr :=
  (zs "version" ++ 61 :: zs "1") ++ nl ::
  (zs "accent_color" ++ 61 :: zs "0x" ++ hex8 (accent_color st)) ++ nl ::
  (zs "background_mode" ++ 61 :: bg_mode_to_str (background_mode st)) ++ nl ::
  (zs "solid_color" ++ 61 :: zs "0x" ++ hex8 (solid_color st)) ++ nl ::
  (zs "wallpaper_path" ++ 61 :: wallpaper_path st) ++ nl ::
  (zs "wallpaper_style" ++ 61 :: wallpaper_style_to_str (wallpaper_style st)) ++ nl :: [].

Lemma pad_text_0 pad s : pad_text 0 pad s = s.
Proof. unfold pad_text. pose proof (zlen_nonneg s). by replace (Z.to_nat (0 - zlen s)) with 0%nat by lia. Qed.
Lemma conv_u r z ap : conv_text (117 :: r) (AInt z :: ap) = Some (uint_text 10 hex_lower (u32 z), r, ap).
Proof. by rewrite <- (pad_text_0 ch_space (uint_text 10 hex_lower (u32 z))). Qed.
Lemma conv_08X r z ap : conv_text (48 :: 56 :: 88 :: r) (AInt z :: ap) = Some (hex8 (u32 z), r, ap).
Proof. reflexivity. Qed.
Lemma conv_s r s ap : conv_text (115 :: r) (AStr (Some s) :: ap) = Some (s, r, ap).
Proof. rewrite <- (pad_text_0 ch_space s) at 2. done. Qed.

Lemma no_percent l : forallb (fun c => negb (c =? ch_percent)) l = true -> Forall (fun c => c <> ch_percent) l.
Proof.
  intros Hl. apply Forall_forall. intros c Hc%list_elem_of_In. rewrite forallb_forall in Hl.
  specialize (Hl c Hc). apply negb_true_iff, Z.eqb_neq in Hl. done.
Qed.

Lemma fmt_theme st : is_u32 (accent_color st) -> is_u32 (solid_color st) ->
  fmt_text theme_fmt (theme_args st) = Some (theme_text st).
Proof.
  intros Ha Hs.
  change theme_fmt with (zs "version=" ++ ch_percent :: 117 :: (nl :: zs "accent_color=0x") ++ ch_percent :: 48 :: 56 :: 88 ::
    (nl :: zs "background_mode=") ++ ch_percent :: 115 :: (nl :: zs "solid_color=0x") ++ ch_percent :: 48 :: 56 :: 88 ::
    (nl :: zs "wallpaper_path=") ++ ch_percent :: 115 :: (nl :: zs "wallpaper_style=") ++ ch_percent :: 115 :: [nl]).
  unfold theme_args.
  do 6 (rewrite fmt_text_lit by (apply no_percent; reflexivity);
        rewrite fmt_text_conv, ?conv_u, ?conv_08X, ?conv_s).
  rewrite !u32_id by done. change (fmt_text [nl] []) with (Some [nl]). reflexivity.
Qed.

Lemma zlen_hex8 v : is_u32 v -> zlen (hex8 v) = 8.
Proof. intros Hv. destruct (hex8_digits v Hv) as (ds & -> & _ & _ & Hl). unfold zlen. by rewrite length_map, Hl. Qed.

(** The text of a valid state fits the 512 bytes of [cfg], and the file the reader accepts. *)
Lemma theme_text_len st : theme_ok st -> 0 < zlen (theme_text st) < 512.
Proof.
  intros [[Ha _] [Hs _] _ _ Hp _]. apply path_valid in Hp as (Hp & _). unfold theme_text.
  assert (zlen (bg_mode_to_str (background_mode st)) <= 9) as Hb
    by (unfold bg_mode_to_str; repeat case_match; vm_compute; discriminate).
  assert (zlen (wallpaper_style_to_str (wallpaper_style st)) <= 10) as Hy
    by (unfold wallpaper_style_to_str; case_match; vm_compute; discriminate).
  repeat rewrite ?zlen_app, ?zlen_cons. rewrite !zlen_hex8 by done.
  pose proof (zlen_nonneg (wallpaper_path st)). pose proof (zlen_nonneg (bg_mode_to_str (background_mode st))).
  pose proof (zlen_nonneg (wallpaper_style_to_str (wallpaper_style st))).
  change (zlen (zs "version")) with 7. change (zlen (zs "1")) with 1. change (zlen (zs "accent_color")) with 12.
  change (zlen (zs "0x")) with 2. change (zlen (zs "background_mode")) with 15. change (zlen (zs "solid_color")) with 11.
  change (zlen (zs "wallpaper_path")) with 14. change (zlen (zs "wallpaper_style")) with 15.
  change (zlen []) with 0. lia.
Qed.

(** ** Reading the text *)

(** A key of the file: letters and underscores. *)
Definition word (k : cstr) : bool :=
  negb (zlen k =? 0) && forallb (fun c => (95 <=? c) && (c <=? 122)) k.

(** A value that survives the reader: one line, no space at its ends. *)
Record value_ok (v : cstr) : Prop := {
  vo_line : Forall (fun c => is_eol c = false) v;
  vo_head : forall x, head v = Some x -> is_space_char x = false;
  vo_last : forall x, last v = Some x -> is_space_char x = false;
}.

Lemma eol_space c : is_space_char c = false -> is_eol c = false.
Proof. unfold is_space_char, is_eol. destruct (c =? 10), (c =? 13); simpl; try done; by rewrite orb_true_r. Qed.

Lemma plain_value v : plain v -> value_ok v.
Proof.
  intros Hv. split.
  - eapply Forall_impl; [exact Hv|]. apply eol_space.
  - intros x Hx. destruct v as [|c v]; [done|]. injection Hx as ->. by apply Forall_cons in Hv as [? _].
  - intros x Hx. apply last_Some in Hx as [l ->]. apply Forall_app in Hv as [_ Hv]. by apply Forall_cons in Hv as [? _].
Qed.

Lemma plain_dec v : forallb (fun c => negb (is_space_char c)) v = true -> plain v.
Proof.
  intros Hv. apply Forall_forall. intros c Hc%list_elem_of_In. rewrite forallb_forall in Hv.
  specialize (Hv c Hc). by apply negb_true_iff in Hv.
Qed.

Lemma word_chars k : word k = true -> k <> [] /\ Forall (fun c => 95 <= c <= 122) k.
Proof.
  unfold word. intros [Hn Hk]%andb_true_iff. split; [by intros ->|]. apply Forall_forall.
  intros c Hc%list_elem_of_In. rewrite forallb_forall in Hk. specialize (Hk c Hc). lia.
Qed.

Lemma letter_plain c : 95 <= c <= 122 -> is_space_char c = false.
Proof. intros Hc. unfold is_space_char. lia. Qed.

(** Spaces after the end of a line are cut with it. *)
Lemma skip_blanks k s : skip_spaces (repeat ch_space k ++ s) = skip_spaces s.
Proof. by induction k. Qed.

Lemma rev_blanks k : rev (repeat ch_space k) = repeat ch_space k.
Proof. induction k as [|k IH]; [done|]. cbn [repeat rev]. by rewrite IH, repeat_cons. Qed.

Lemma trim_blanks x s k : is_space_char x = false -> trim_ws (x :: s ++ repeat ch_space k) = trim_ws (x :: s).
Proof.
  intros Hx. unfold trim_ws. cbn [skip_spaces]. rewrite Hx. f_equal.
  change (x :: s ++ repeat ch_space k) with ((x :: s) ++ repeat ch_space k). by rewrite rev_app_distr, rev_blanks, skip_blanks.
Qed.

(** One line of the file: its key is set to its value, without the spaces behind it. *)
Lemma cfg_step_blanks k n key val rest c :
  word key = true -> value_ok val -> (forall x, head rest = Some x -> is_eol x = false) ->
  cfg_loop (S n) ((key ++ 61 :: val ++ repeat ch_space k) ++ nl :: rest) c
  = match cfg_set key val c with Some c => cfg_loop n rest c | None => None end.
Proof.
  intros [Hne Hk]%word_chars Hv Hr. rewrite cfg_loop_line; [|by destruct key| |done].
  - destruct key as [|x key]; [done|]. pose proof Hk as [Hx _]%Forall_cons.
    assert (cfg_line ((x :: key) ++ 61 :: val ++ repeat ch_space k) c = cfg_line ((x :: key) ++ 61 :: val) c) as ->.
    { unfold cfg_line. change ((x :: key) ++ 61 :: val ++ repeat ch_space k) with (x :: key ++ (61 :: val) ++ repeat ch_space k).
      by rewrite app_assoc, trim_blanks by by apply letter_plain. }
    rewrite cfg_line_set; [done| | | |by apply trim_ws_id; apply Hv|apply Hv].
    + eapply Forall_impl; [exact Hk|]. apply letter_plain.
    + eapply Forall_impl; [exact Hk|]. simpl. lia.
    + exists x. split; [done|]. lia.
  - apply Forall_app. split; [|apply Forall_cons; split; [done|apply Forall_app; split; [apply Hv|]]].
    + eapply Forall_impl; [exact Hk|]. intros x Hx. by apply eol_space, letter_plain.
    + apply Forall_forall. intros x Hx%list_elem_of_In%repeat_spec. by subst.
Qed.

Lemma cfg_step n key val rest c :
  word key = true -> value_ok val -> (forall x, head rest = Some x -> is_eol x = false) ->
  cfg_loop (S n) ((key ++ 61 :: val) ++ nl :: rest) c
  = match cfg_set key val c with Some c => cfg_loop n rest c | None => None end.
Proof. rewrite <- (app_nil_r val) at 2. exact (cfg_step_blanks 0 n key val rest c). Qed.

Lemma plain_hex v : is_u32 v -> plain (zs "0x" ++ hex8 v).
Proof.
  intros Hv. destruct (hex8_digits v Hv) as (ds & -> & Hr & _). apply Forall_app.
  split; [by apply plain_dec|]. apply Forall_forall. intros c Hc.
  apply list_elem_of_In, in_map_iff in Hc as (d & <- & Hd). apply list_elem_of_In in Hd.
  rewrite Forall_forall in Hr. specialize (Hr d Hd). pose proof (hex_digit_upper d Hr) as Hx.
  unfold hex_digit in Hx. unfold is_space_char. repeat case_match; try done; lia.
Qed.

(** A path without the spaces at its end: what the file keeps of it. *)
Fixpoint strip_end (p : cstr) : cstr :=
  match p with
  | [] => []
  | c :: p' => match strip_end p' with [] => if c =? ch_space then [] else [c] | q => c :: q end
  end.

Lemma strip_end_blanks p : exists k, p = strip_end p ++ repeat ch_space k.
Proof.
  induction p as [|c p [k IH]]; [by exists 0%nat|]. cbn [strip_end].
  destruct (strip_end p) as [|x q]; [|exists k; rewrite IH at 1; done].
  destruct (Z.eqb_spec c ch_space) as [->|]; [exists (S k)|exists k]; rewrite IH at 1; done.
Qed.

Lemma strip_end_last p : last (strip_end p) <> Some ch_space.
Proof.
  induction p as [|c p IH]; [done|]. cbn [strip_end]. destruct (strip_end p) as [|x q] eqn:E; [|exact IH].
  destruct (Z.eqb_spec c ch_space); [done|]. simpl. congruence.
Qed.

(** The path survives exactly when no space is at its end. *)
Lemma strip_end_id p : strip_end p = p <-> last p <> Some ch_space.
Proof.
  split; [intros <-; apply strip_end_last|]. intros Hp. destruct (strip_end_blanks p) as [[|k] E].
  - by rewrite app_nil_r in E.
  - exfalso. apply Hp. rewrite E. cbn [repeat]. rewrite repeat_cons, app_assoc. apply last_snoc.
Qed.

Lemma strip_end_head p x : head (strip_end p) = Some x -> head p = Some x.
Proof. intros Hx. destruct (strip_end_blanks p) as [k E]. rewrite E. by destruct (strip_end p). Qed.

Lemma path_value p : validate_wallpaper_path (Some p) true = true -> value_ok (strip_end p) /\ zlen (strip_end p) < 128.
Proof.
  intros Hp. apply path_valid in Hp as (Hl & Hc & Hh). destruct (strip_end_blanks p) as [k E].
  assert (Forall (fun c => path_char c = true) (strip_end p)) as Hall.
  { apply Forall_forall. intros c Hin. rewrite forallb_forall in Hc. apply Hc. rewrite E. apply in_or_app. left.
    by apply list_elem_of_In. }
  split; [split|].
  - eapply Forall_impl; [exact Hall|]. intros c Hcc%path_char_range. unfold is_eol. lia.
  - intros x Hx%strip_end_head. by rewrite (Hh x Hx).
  - intros x Hx. pose proof (strip_end_last p) as Hs. rewrite Hx in Hs. apply last_Some in Hx as [l Ex].
    rewrite Ex in Hall. apply Forall_app in Hall as [_ [Hcc _]%Forall_cons]. apply path_char_range in Hcc.
    unfold ch_space in Hs. assert (x <> 32) by congruence. unfold is_space_char. lia.
  - rewrite E, zlen_app in Hl. pose proof (zlen_nonneg (repeat ch_space k)). lia.
Qed.

Lemma bg_mode_parse m : validate_bg_mode m = true ->
  parse_bg_mode (Some (bg_mode_to_str m)) = Some m /\ plain (bg_mode_to_str m).
Proof.
  unfold validate_bg_mode, bg_mode_to_str.
  destruct (Z.eqb_spec m TSUKASA_THEME_BG_GRADIENT) as [->|]; [by split; [|apply plain_dec]|].
  destruct (Z.eqb_spec m TSUKASA_THEME_BG_SOLID) as [->|]; [by split; [|apply plain_dec]|].
  destruct (Z.eqb_spec m TSUKASA_THEME_BG_WALLPAPER) as [->|]; [by split; [|apply plain_dec]|done].
Qed.

Lemma style_parse m : validate_wallpaper_style m = true ->
  parse_wallpaper_style (Some (wallpaper_style_to_str m)) = Some m /\ plain (wallpaper_style_to_str m).
Proof.
  unfold validate_wallpaper_style, wallpaper_style_to_str.
  destruct (Z.eqb_spec m TSUKASA_THEME_WP_CENTER) as [->|]; [by split; [|apply plain_dec]|].
  destruct (Z.eqb_spec m TSUKASA_THEME_WP_SCALE_FILL) as [->|]; [by split; [|apply plain_dec]|done].
Qed.

(** The effect of each line. *)
Lemma cfg_set_accent v x c : parse_hex_u32 (Some v) = Some x -> validate_theme_color x = true ->
  cfg_set (zs "accent_color") v c = Some (c <| c_st := c_st c <| accent_color := x |> |> <| has_accent := true |>).
Proof.
  intros E1 E2. transitivity (match parse_hex_u32 (Some v) with
    | Some x => if negb (validate_theme_color x) then None
                else Some (c <| c_st := c_st c <| accent_color := x |> |> <| has_accent := true |>)
    | None => None end); [reflexivity|by rewrite E1, E2].
Qed.
Lemma cfg_set_solid v x c : parse_hex_u32 (Some v) = Some x -> validate_theme_color x = true ->
  cfg_set (zs "solid_color") v c = Some (c <| c_st := c_st c <| solid_color := x |> |> <| has_solid := true |>).
Proof.
  intros E1 E2. transitivity (match parse_hex_u32 (Some v) with
    | Some x => if negb (validate_theme_color x) then None
                else Some (c <| c_st := c_st c <| solid_color := x |> |> <| has_solid := true |>)
    | None => None end); [reflexivity|by rewrite E1, E2].
Qed.
Lemma cfg_set_mode v x c : parse_bg_mode (Some v) = Some x ->
  cfg_set (zs "background_mode") v c = Some (c <| c_st := c_st c <| background_mode := x |> |> <| has_bg := true |>).
Proof.
  intros E1. transitivity (match parse_bg_mode (Some v) with
    | Some x => Some (c <| c_st := c_st c <| background_mode := x |> |> <| has_bg := true |>)
    | None => None end); [reflexivity|by rewrite E1].
Qed.
Lemma cfg_set_style v x c : parse_wallpaper_style (Some v) = Some x ->
  cfg_set (zs "wallpaper_style") v c = Some (c <| c_st := c_st c <| wallpaper_style := x |> |>).
Proof.
  intros E1. transitivity (match parse_wallpaper_style (Some v) with
    | Some x => Some (c <| c_st := c_st c <| wallpaper_style := x |> |>)
    | None => None end); [reflexivity|by rewrite E1].
Qed.
Lemma cfg_set_path v c : validate_wallpaper_path (Some v) true = true -> zlen v < 128 ->
  cfg_set (zs "wallpaper_path") v c = Some (c <| c_st := c_st c <| wallpaper_path := v |> |> <| has_wall := true |>).
Proof.
  intros E1 E2. transitivity (if negb (validate_wallpaper_path (Some v) true) then None
    else Some (c <| c_st := c_st c <| wallpaper_path := copy_small_string (wallpaper_path (c_st c)) 128 (Some v) |> |>
                 <| has_wall := true |>)); [reflexivity|]. by rewrite E1, copy_small_fits.
Qed.

Lemma cfg_set_path_refused v c : validate_wallpaper_path (Some v) true = false ->
  cfg_set (zs "wallpaper_path") v c = None.
Proof.
  intros E1. transitivity (if negb (validate_wallpaper_path (Some v) true) then None
    else Some (c <| c_st := c_st c <| wallpaper_path := copy_small_string (wallpaper_path (c_st c)) 128 (Some v) |> |>
                 <| has_wall := true |>)); [reflexivity|]. by rewrite E1.
Qed.

(** What the reader makes of the file of a theme: the flags are not in it, and the path is what is
    left of it without the spaces at its end, if that is still an accepted path. *)
Definition saved (st : theme_state) : option theme_state :=
  let p := strip_end (wallpaper_path st) in
  if validate_wallpaper_path (Some p) true then Some (st <| flags := 0 |> <| wallpaper_path := p |>) else None.

Lemma saved_same st : theme_ok st -> last (wallpaper_path st) <> Some ch_space -> saved st = Some (st <| flags := 0 |>).
Proof.
  intros Hok Hp%strip_end_id. unfold saved. rewrite Hp, (to_path _ Hok). by destruct st.
Qed.

Lemma strip_end_nil p : validate_wallpaper_path (Some p) true = true -> strip_end p = [] -> p = [].
Proof.
  intros (_ & _ & Hh)%path_valid E. destruct (strip_end_blanks p) as [[|k] Ep]; rewrite E in Ep; [done|].
  specialize (Hh ch_space ltac:(by rewrite Ep)). discriminate Hh.
Qed.

Lemma parse_theme_text st : theme_ok st -> parse_cfg (theme_text st) = saved st.
Proof.
  intros [[Ha Hva] [Hs Hvs] Hm Hy Hp Hw].
  destruct (bg_mode_parse _ Hm) as [Em Pm]. destruct (style_parse _ Hy) as [Ey Py].
  destruct (path_value _ Hp) as [Vp Hplen]. pose proof (strip_end_nil _ Hp) as Hnil.
  destruct (strip_end_blanks (wallpaper_path st)) as [sp Ek].
  unfold parse_cfg. set (text := theme_text st) at 1.
  assert (exists k, length text = 6 + k)%nat as [k ->].
  { exists (length text - 6)%nat. unfold text, theme_text. rewrite length_app. simpl. lia. }
  clear text. unfold theme_text. cbn [Nat.add].
  rewrite cfg_step by (done || by apply plain_value, plain_dec || (intros x [= <-]; done)).
  change (cfg_set (zs "version") (zs "1") cfg_init) with (Some (cfg_init <| c_ver := 1 |> <| has_version := true |>)).
  cbn match beta. rewrite cfg_step by (done || by apply plain_value, plain_hex || (intros x [= <-]; done)).
  rewrite (cfg_set_accent _ (accent_color st)) by (by apply parse_hex8 || done).
  cbn match beta. rewrite cfg_step by (done || by apply plain_value || (intros x [= <-]; done)).
  rewrite (cfg_set_mode _ (background_mode st)) by done.
  cbn match beta. rewrite cfg_step by (done || by apply plain_value, plain_hex || (intros x [= <-]; done)).
  rewrite (cfg_set_solid _ (solid_color st)) by (by apply parse_hex8 || done).
  cbn match beta. rewrite Ek at 1. rewrite cfg_step_blanks by (done || (intros x [= <-]; done)).
  unfold saved. destruct (validate_wallpaper_path (Some (strip_end _)) true) eqn:Ev; [|by rewrite cfg_set_path_refused].
  rewrite cfg_set_path by done. clear Ek.
  cbn match beta. rewrite cfg_step by (done || by apply plain_value || (intros x Hx; done)).
  rewrite (cfg_set_style _ (wallpaper_style st)) by done.
  destruct st as [a m b y f p]. cbn in *. destruct (Z.eqb_spec m TSUKASA_THEME_BG_WALLPAPER) as [E|]; [|done].
  destruct (strip_end p); [|done]. by destruct (Hw E); apply Hnil.
Qed.

(** A path that ends in a space is accepted by [validate_wallpaper_path] and loses it in the file. *)
Definition ex_spaced : theme_state :=
  theme_set_defaults <| wallpaper_path := zs "/disk/a " |> <| background_mode := TSUKASA_THEME_BG_WALLPAPER |>.
Lemma wallpaper_path_loses_space :
  validate_wallpaper_path (Some (wallpaper_path ex_spaced)) false = true
  /\ option_map wallpaper_path (parse_cfg (theme_text ex_spaced)) = Some (zs "/disk/a").
Proof. vm_compute. split; reflexivity. Qed.

(** Two dots and a space are not a parent directory to [validate_wallpaper_path]; in the file they
    become one, and the reader refuses the whole file. *)
Definition ex_dotted : theme_state := ex_spaced <| wallpaper_path := zs "/disk/.. " |>.
Lemma wallpaper_path_loses_theme :
  validate_wallpaper_path (Some (wallpaper_path ex_dotted)) false = true /\ parse_cfg (theme_text ex_dotted) = None.
Proof. vm_compute. split; reflexivity. Qed.

(** ** The files *)

Section files.
Context {S : Type} `{FilesLaws S}.
Implicit Types (s : S) (t : tsys S) (st : theme_state).

(** Replacing a file by a text: open, write, compare the count, close. *)
Definition put_file (path : cstr) (text : list Z) s : option (Z * S) :=
  let '(fd, s) := fs_open (Some path) (Z.lor (Z.lor VFS_O_WRONLY VFS_O_TRUNC) VFS_O_CREAT) s in
  if fd <? 0 then Some (-1, s) else
  match fs_write fd text s with
  | None => None
  | Some (wr, s) => Some (if negb (wr =? zlen text) then -1 else 0, fs_close fd s)
  end.

Lemma theme_write_put path st s : theme_ok st ->
  theme_write_cfg_to (Some path) st s = put_file path (theme_text st) s.
Proof.
  intros Hok. pose proof (theme_text_len st Hok) as Hl. destruct Hok as [[Ha _] [Hs _] _ _ _ _].
  unfold theme_write_cfg_to, put_file. rewrite ksprintf_text by (unfold zlen; rewrite repeat_length; lia).
  rewrite fmt_theme by done. cbn [option_map]. set (text := theme_text st) in *. cbn zeta.
  rewrite (take_ge text) by (unfold zlen in Hl; lia).
  rewrite (proj2 (Z.leb_gt (zlen text) 0)), u64_id, (proj2 (Z.leb_gt 512 (zlen text))) by (unfold is_u64; lia).
  cbn [orb]. replace (Z.to_nat (zlen text)) with (length text) by (unfold zlen; lia).
  by rewrite take_app_length.
Qed.

(** The file at [path] holds [text] and can be read: it opens, has the length of [text], there is
    memory for it, and reading it gives [text]. *)
Definition file_reads (path : cstr) (text : list Z) s : Prop :=
  let '(fd, s1) := fs_open (Some path) VFS_O_RDONLY s in
  0 <= fd /\ fs_size fd s1 = zlen text
  /\ (fs_alloc (zlen text + 1) s1).1 <> None
  /\ (fs_read fd (zlen text) (fs_alloc (zlen text + 1) s1).2).1 = text.

#[export] Instance file_reads_dec path text s : Decision (file_reads path text s).
Proof. unfold file_reads. destruct (fs_open _ _ s) as [fd s1]. apply _. Defined.

Lemma until_nul_text text rest : Forall (fun c => c <> 0) text -> until_nul (text ++ 0 :: rest) = text.
Proof.
  induction 1 as [|c text Hc Ht IH]; [done|]. simpl. rewrite (proj2 (Z.eqb_neq c 0)) by done. by rewrite IH.
Qed.

Lemma theme_read_file path text s :
  file_reads path text s -> 0 < zlen text <= THEME_CFG_MAX -> Forall (fun c => c <> 0) text ->
  (theme_read_cfg_from (Some path) s).1 = parse_cfg text.
Proof.
  unfold file_reads, theme_read_cfg_from, THEME_CFG_MAX. destruct (fs_open (Some path) VFS_O_RDONLY s) as [fd s1].
  intros (Hfd & Hsz & Hm & Hr) Hl Hn. rewrite (proj2 (Z.ltb_ge fd 0)) by lia. rewrite Hsz.
  rewrite (proj2 (Z.eqb_neq _ 0)), (proj2 (Z.ltb_ge 1024 _)) by lia. cbn [orb].
  rewrite (u64_id (zlen text + 1)) by (unfold is_u64; lia).
  destruct (fs_alloc (zlen text + 1) s1) as [[[a d]|] s2] eqn:Ea; [|done]. cbn [snd] in Hr.
  apply fs_alloc_block in Ea; [|lia]. destruct Ea as [Hd _].
  destruct (fs_read fd (zlen text) s2) as [got s3]. cbn [fst] in Hr. subst got. rewrite Z.eqb_refl. cbn [negb fst].
  f_equal. rewrite copy_in_splice by (unfold zlen in *; simpl; lia). simpl.
  unfold aset. rewrite insert_app_r_alt by (unfold zlen; lia).
  replace (Z.to_nat (zlen text) - length text)%nat with 0%nat by (unfold zlen; lia).
  destruct (lookup_lt_is_Some_2 d (length text)) as [x Hx]; [unfold zlen in *; lia|].
  rewrite (drop_S _ _ _ Hx). simpl. by apply until_nul_text.
Qed.

Lemma theme_text_chars st : theme_ok st -> Forall (fun c => c <> 0) (theme_text st).
Proof.
  intros [[Ha Hva] [Hs Hvs] Hm Hy Hp Hw]. apply path_valid in Hp as (_ & Hp & _).
  assert (forall l, forallb (fun c => negb (c =? 0)) l = true -> Forall (fun c => c <> 0) l) as Hl.
  { intros l El. apply Forall_forall. intros c Hc%list_elem_of_In. rewrite forallb_forall in El.
    specialize (El c Hc). lia. }
  assert (forall v, is_u32 v -> Forall (fun c => c <> 0) (hex8 v)) as Hx.
  { intros v Hv. pose proof (plain_hex v Hv) as Hpl. destruct (hex8_digits v Hv) as (ds & -> & Hr & _).
    apply Forall_forall. intros c Hc%list_elem_of_In%in_map_iff. destruct Hc as (d & <- & Hd%list_elem_of_In).
    rewrite Forall_forall in Hr. pose proof (hex_digit_upper d (Hr d Hd)) as Hx. intros E. by rewrite E in Hx. }
  assert (Forall (fun c => c <> 0) (bg_mode_to_str (background_mode st))) as Hb
    by (unfold bg_mode_to_str; repeat case_match; apply Hl; reflexivity).
  assert (Forall (fun c => c <> 0) (wallpaper_style_to_str (wallpaper_style st))) as Hst
    by (unfold wallpaper_style_to_str; case_match; apply Hl; reflexivity).
  assert (Forall (fun c => c <> 0) (wallpaper_path st)) as Hwp.
  { apply Forall_forall. intros c Hc%list_elem_of_In. rewrite forallb_forall in Hp.
    specialize (Hp c Hc). apply path_char_range in Hp. lia. }
  unfold theme_text. repeat first [done | by apply Hx | by apply Hl | apply Forall_app; split | apply Forall_cons; split].
Qed.

(** C34: what a restart keeps of the theme, for every valid state.  [theme_write_cfg_to] replaces
    the file by one text, shorter than its 512-byte buffer and than what the reader accepts; and
    for any file that reads as that text, [theme_read_cfg_from] returns the state that was written
    with two exceptions: its flags are not in the file and come back as 0, and the wallpaper path
    comes back without the spaces at its end; when what is left of it is no longer an accepted
    path, the reader refuses the file.  So a state comes back but for its flags exactly when its
    path has no space at its end. *)
Theorem theme_cfg_roundtrip path st : theme_ok st ->
  let text := theme_text st in
  0 < zlen text < 512
  /\ (forall s, theme_write_cfg_to (Some path) st s = put_file path text s)
  /\ (forall s, file_reads path text s -> (theme_read_cfg_from (Some path) s).1 = saved st)
  /\ (saved st = Some (st <| flags := 0 |>) <-> last (wallpaper_path st) <> Some ch_space).
Proof.
  intros Hok text. pose proof (theme_text_len st Hok) as Hl. split; [done|].
  split; [intros s; by apply theme_write_put|]. split.
  - intros s Hr. rewrite (theme_read_file path text s); [by apply parse_theme_text|done| |by apply theme_text_chars].
    unfold THEME_CFG_MAX. fold text in Hl. lia.
  - split; [|by apply saved_same]. unfold saved. destruct (validate_wallpaper_path _ _); [|done].
    intros [= E]. by apply strip_end_id.
Qed.
End files.

(** A state with a wallpaper, written to [/tmp/theme.cfg] through the virtual file system and read
    back from there. *)
Definition ex_state : theme_state :=
  mkTheme 0xFF102030 TSUKASA_THEME_BG_WALLPAPER 0xFFABCDEF TSUKASA_THEME_WP_CENTER 1 (zs "/disk/my pictures/a=b.bmp").
Definition ex_theme_fs : vst machine := caller (vsys_init ex_boot (mkMachine 1%positive [] (repeat 0 32)) 1) None.

Lemma theme_cfg_roundtrip_witness :
  exists s, theme_write_cfg_to (Some THEME_CFG_FALLBACK) ex_state ex_theme_fs = Some (0, s)
    /\ (theme_read_cfg_from (Some THEME_CFG_FALLBACK) s).1 = Some (ex_state <| flags := 0 |>).
Proof.
  destruct (theme_cfg_roundtrip (S := vst machine) THEME_CFG_FALLBACK ex_state) as (_ & _ & Hr & Hs).
  - split; try reflexivity; try (split; reflexivity); try discriminate.
    + split; [split; discriminate || reflexivity|reflexivity].
    + split; [split; discriminate || reflexivity|reflexivity].
  - set (r := theme_write_cfg_to (Some THEME_CFG_FALLBACK) ex_state ex_theme_fs).
    assert (match r with Some (rc, s) => (rc =? 0) && bool_decide (file_reads THEME_CFG_FALLBACK (theme_text ex_state) s)
            | None => false end = true) as E by (vm_compute; reflexivity).
    destruct r as [[rc s]|]; [|discriminate E]. apply andb_prop in E as [E1 E2].
    apply Z.eqb_eq in E1. apply bool_decide_eq_true in E2. subst rc. exists s. split; [reflexivity|].
    rewrite (Hr s E2). apply Hs. discriminate.
Defined.
