(* ===== verification/ThemeRuns.v ===== *)
(** When the theme commands return.

    The desktop computes the cache of a wallpaper with indices of type [int] and divides by the
    size the image is scaled to; an image that is too large for that crashes the kernel
    ([Wallpaper.cache_fill_divides_by_zero]), and so does a file shorter than the headers of an
    image ([Bmp.bmp_header_overread]).  [apply_fits] says that applying a theme meets no such file;
    then applying, saving and loading a theme return, and leave the file system well formed. *)

From S2P Require Import VfsOps VfsSys.
From S2P Require Import Prelude CString VfsData Files Kprintf Theme ThemeProps.
From S2P Require Wallpaper Bmp.

(** A file the decoder reads within its bounds, with an image the desktop can scale to the screen. *)
Record image_fits (fb : fb_info_t) (data : list Z) : Prop := {
  im_bytes : Bmp.bytes_ok data;
  im_len : 34 <= zlen data < 2 ^ 32;
  im_sizes : forall h, Bmp.bmp_header data = Some (Some h) -> 0 < i32 (fb_width fb) -> 0 < i32 (fb_height fb) ->
    Wallpaper.sizes_ok (Bmp.bi_w h) (Bmp.bi_h h) (i32 (fb_width fb)) (i32 (fb_height fb));
}.

(** The test of a file. *)
Definition image_fits_b (fb : fb_info_t) (data : list Z) : bool :=
  let sw := i32 (fb_width fb) in
  let sh := i32 (fb_height fb) in
  let small a b := a * b <? 2 ^ 31 in
  forallb (fun b => (0 <=? b) && (b <? 256)) data && (34 <=? zlen data) && (zlen data <? 2 ^ 32)
  && match Bmp.bmp_header data with
     | Some (Some h) =>
         let w := Bmp.bi_w h in
         let hh := Bmp.bi_h h in
         (sw <=? 0) || (sh <=? 0)
         || (0 <? w) && (0 <? hh) && small w hh && small sw sh && small hh sw && small w sh
     | _ => true
     end.

Lemma image_fits_b_ok fb data : image_fits_b fb data = true -> image_fits fb data.
Proof.
  unfold image_fits_b. rewrite !andb_true_iff. intros [[[Hb H1] H2] Hs]. split; [|lia|].
  - apply Forall_forall. intros b Hin%list_elem_of_In. rewrite forallb_forall in Hb. specialize (Hb b Hin).
    unfold is_u8. lia.
  - intros h Eh Hw Hh. rewrite Eh in Hs. rewrite (proj2 (Z.leb_gt _ 0)), (proj2 (Z.leb_gt _ 0)) in Hs by done. cbn [orb] in Hs.
    rewrite !andb_true_iff, !Z.ltb_lt in Hs. split; tauto.
Qed.

Section runs.
Context {S : Type} `{FilesLaws S}.
Implicit Types (s : S) (t : tsys S) (st : theme_state) (d : Wallpaper.desk).

(** If [path] can be read as a file, it is such a file. *)
Definition wallpaper_fits (path : option cstr) s : Prop :=
  forall a data s', Bmp.read_vfs_file path s = (Some (a, data), s') -> image_fits (fs_screen s) data.

(** The wallpaper that [theme_apply] loads, if the theme has one. *)
Definition apply_fits t : Prop :=
  background_mode (g_theme_state t) = TSUKASA_THEME_BG_WALLPAPER ->
  wallpaper_fits (Some (wallpaper_path (g_theme_state t)))
    (Wallpaper.release_wallpaper_cache (ts_desk t) (ts_fs t)).2.

Definition apply_fits_b t : bool :=
  negb (background_mode (g_theme_state t) =? TSUKASA_THEME_BG_WALLPAPER)
  || let s := (Wallpaper.release_wallpaper_cache (ts_desk t) (ts_fs t)).2 in
     match (Bmp.read_vfs_file (Some (wallpaper_path (g_theme_state t))) s).1 with
     | Some (_, data) => image_fits_b (fs_screen s) data
     | None => true
     end.

Lemma apply_fits_b_ok t : apply_fits_b t = true -> apply_fits t.
Proof.
  unfold apply_fits_b, apply_fits. intros Hb Em. rewrite Em in Hb. change (_ =? _) with true in Hb. cbn [negb orb] in Hb.
  intros a data s' E. rewrite E in Hb. cbn [fst] in Hb. by apply image_fits_b_ok.
Qed.

(** ** Reading *)

Lemma read_file_ok path s : fs_ok s -> fs_ok (Bmp.read_vfs_file path s).2.
Proof.
  intros I. unfold Bmp.read_vfs_file. pose proof (fs_open_ok path VFS_O_RDONLY s I) as I1.
  destruct (fs_open path VFS_O_RDONLY s) as [fd s1]. cbn [snd] in I1. destruct (fd <? 0); [done|].
  pose proof (fs_seek_ok fd 0 VFS_SEEK_END s1 I1 ltac:(lia)) as I2.
  pose proof (fs_seek_pos fd 0 VFS_SEEK_END s1 I1 ltac:(lia)) as Hz.
  destruct (fs_seek fd 0 VFS_SEEK_END s1) as [sz s2]. cbn [fst snd] in *.
  destruct (_ || _); [by apply fs_close_ok|].
  pose proof (fs_seek_ok fd 0 VFS_SEEK_SET s2 I2 ltac:(lia)) as I3.
  destruct (fs_seek fd 0 VFS_SEEK_SET s2) as [pos s3]. cbn [snd] in I3.
  pose proof (fs_alloc_ok sz s3 I3) as I4. destruct (fs_alloc sz s3) as [[[a b]|] s4]; cbn [snd] in I4;
    [|by apply fs_close_ok].
  pose proof (fs_read_ok fd sz s4 I4 Hz) as I5. destruct (fs_read fd sz s4) as [got s5]. cbn [snd] in I5.
  destruct (zlen got <? sz); [by apply fs_free_ok, fs_close_ok|by apply fs_close_ok].
Qed.

Lemma decode_ok data s r s' : fs_ok s -> Bmp.bmp_decode data s = Some (r, s') -> fs_ok s'.
Proof.
  intros I. unfold Bmp.bmp_decode. destruct (Bmp.bmp_header data) as [[h|]|]; [|by intros [= _ <-]|done].
  set (n := u64 _). pose proof (fs_alloc_ok n s I) as I1. destruct (fs_alloc n s) as [[[a b]|] s1]; cbn [snd] in I1.
  - destruct (Bmp.bmp_rows data h _); [|done]. by intros [= _ <-].
  - by intros [= _ <-].
Qed.

(** An image that fits is loaded or refused. *)
Lemma load_returns path s : fs_ok s -> wallpaper_fits path s ->
  exists rc img s', Bmp.bmp_load_to_buf path s = Some (rc, img, s') /\ fs_ok s'
    /\ forall b, img = Some b -> zlen (Bmp.bm_px b) = Bmp.bm_w b * Bmp.bm_h b
         /\ (0 < i32 (fb_width (fs_screen s)) -> 0 < i32 (fb_height (fs_screen s)) ->
             Wallpaper.sizes_ok (Bmp.bm_w b) (Bmp.bm_h b) (i32 (fb_width (fs_screen s))) (i32 (fb_height (fs_screen s)))).
Proof.
  intros I Hf. unfold Bmp.bmp_load_to_buf. pose proof (read_file_ok path s I) as I1.
  destruct (Bmp.read_vfs_file path s) as [[[a data]|] s1] eqn:Er; cbn [snd] in I1; [|by eexists _, _, _].
  destruct (Hf a data s1 Er) as [Hb Hl Hs].
  assert (exists r s2, Bmp.bmp_decode data s1 = Some (r, s2)
    /\ forall b, r = Some b -> zlen (Bmp.bm_px b) = Bmp.bm_w b * Bmp.bm_h b
         /\ exists h, Bmp.bmp_header data = Some (Some h) /\ Bmp.bm_w b = Bmp.bi_w h /\ Bmp.bm_h b = Bmp.bi_h h)
    as (r & s2 & E & Hr).
  { destruct (Bmp.bmp_header_total data) as [[h|] Eh]; [lia| |].
    2: { exists None, s1. unfold Bmp.bmp_decode. by rewrite Eh. }
    pose proof (Bmp.bmp_header_ok data h Hb ltac:(lia) Eh) as Ih.
    destruct (Bmp.bmp_decode_header data s1 h Eh Ih) as (s2 & [[E _]|(b & E & Ew & Eh' & El & _)]); [lia|by exists None, s2|].
    exists (Some b), s2. split; [done|]. intros b' [= <-]. split; [congruence|by exists h]. }
  rewrite E. apply (decode_ok data s1 r s2 I1) in E. destruct r as [b|]; eexists _, _, _;
    (split; [done|]; split; [by apply fs_free_ok|]); [|done].
  intros b' [= <-]. destruct (Hr b eq_refl) as (El & h & Eh & -> & ->). split; [|by apply Hs].
  destruct (Hr b eq_refl) as (_ & h' & Eh' & Ew & Ehh). rewrite Eh in Eh'. injection Eh' as <-. congruence.
Qed.

(** ** Applying *)

Lemma build_returns path d s : fs_ok s -> wallpaper_fits path s ->
  exists rc d' s', Wallpaper.build_wallpaper_cache path d s = Some (rc, d', s') /\ fs_ok s'.
Proof.
  intros I Hf. unfold Wallpaper.build_wallpaper_cache.
  destruct (load_returns path s I Hf) as (rc & img & s1 & E & I1 & Hb).
  set (sw := i32 (fb_width (fs_screen s))) in *. set (sh := i32 (fb_height (fs_screen s))) in *.
  destruct (match path with Some (_ :: _) => false | _ => true end); cbn [orb]; [by eexists _, _, _|].
  destruct (Z.leb_spec sw 0); cbn [orb]; [by eexists _, _, _|].
  destruct (Z.leb_spec sh 0); cbn [orb]; [by eexists _, _, _|].
  rewrite E. destruct (negb (rc =? 0)); [by eexists _, _, _|]. destruct img as [b|]; [|by eexists _, _, _].
  destruct (Hb b eq_refl) as [Hpx HS]. specialize (HS ltac:(done) ltac:(done)).
  destruct (_ || _); [eexists _, _, _; split; [done|by apply fs_free_ok]|].
  pose proof HS as []. assert (sw < 2 ^ 31 /\ sh < 2 ^ 31) as [? ?] by nia.
  replace (u64 (u64 (u64 sw * u64 sh) * 4)) with (sw * sh * 4)
    by (rewrite (u64_id sw), (u64_id sh), (u64_id (sw * sh)), u64_id by (unfold is_u64; lia); done).
  pose proof (fs_alloc_ok (sw * sh * 4) s1 I1) as I2.
  destruct (fs_alloc (sw * sh * 4) s1) as [[[a blk]|] s2] eqn:Ea; cbn [snd] in I2.
  2: { eexists _, _, _. split; [done|by apply fs_free_ok]. }
  apply fs_alloc_block in Ea; [|lia]. destruct Ea as [Hblk _].
  assert (sw * sh <= zlen (Bmp.words blk)) as Hw.
  { unfold zlen in *. rewrite Bmp.length_words, Nat2Z.inj_div, Hblk. Z.div_mod_to_equations. lia. }
  destruct (Wallpaper.wallpaper_style d =? Wallpaper.DESKTOP_WALLPAPER_CENTER).
  - destruct (Wallpaper.cache_center_exact (fs_screen s) _ _ _ _ _ _ HS Hpx Hw) as (c & -> & _).
    eexists _, _, _. split; [done|by apply fs_free_ok].
  - destruct (Wallpaper.cache_fill_exact _ _ _ _ _ _ HS Hpx Hw) as (c & -> & _).
    eexists _, _, _. split; [done|by apply fs_free_ok].
Qed.

Lemma release_ok d s : fs_ok s -> fs_ok (Wallpaper.release_wallpaper_cache d s).2.
Proof. unfold Wallpaper.release_wallpaper_cache. destruct (Wallpaper.wallpaper_pixels d) as [[a l]|]; [apply fs_free_ok|done]. Qed.

(** What is released does not depend on the look of the desktop. *)
Lemma release_pixels d d' s : Wallpaper.wallpaper_pixels d' = Wallpaper.wallpaper_pixels d ->
  (Wallpaper.release_wallpaper_cache d' s).2 = (Wallpaper.release_wallpaper_cache d s).2.
Proof. unfold Wallpaper.release_wallpaper_cache. intros ->. by destruct (Wallpaper.wallpaper_pixels d) as [[a l]|]. Qed.

Lemma set_wallpaper_returns path d s :
  fs_ok s -> wallpaper_fits path (Wallpaper.release_wallpaper_cache d s).2 ->
  exists rc d' s', Wallpaper.desktop_set_wallpaper path d s = Some (rc, d', s') /\ fs_ok s'.
Proof.
  intros I Hf. unfold Wallpaper.desktop_set_wallpaper. pose proof (release_ok d s I) as I1.
  destruct (Wallpaper.release_wallpaper_cache d s) as [d1 s1]. cbn [snd] in *.
  destruct (match path with Some (_ :: _) => false | _ => true end); [by eexists _, _, _|].
  destruct (_ <=? _); [by eexists _, _, _|].
  destruct (build_returns path d1 s1 I1 Hf) as (rc & d2 & s2 & -> & I2).
  destruct (negb (rc =? 0)); by eexists _, _, _.
Qed.

Lemma release_returns d s (rc : Z) (f : Wallpaper.desk -> Wallpaper.desk) : fs_ok s ->
  exists rc' d' s', (let '(d, s) := Wallpaper.release_wallpaper_cache d s in Some (rc, f d, s)) = Some (rc', d', s') /\ fs_ok s'.
Proof. intros I%(release_ok d). destruct (Wallpaper.release_wallpaper_cache d s) as [d' s']. by eexists _, _, _. Qed.

Lemma apply_returns t : fs_ok (ts_fs t) -> apply_fits t ->
  exists rc t', theme_apply t = Some (rc, t') /\ fs_ok (ts_fs t').
Proof.
  intros I Hf. unfold apply_fits, theme_apply in *. destruct t as [st ld d s].
  cbn [g_theme_state ts_desk ts_fs] in *.
  assert (exists rc d' s', Wallpaper.desktop_apply_theme (accent_color st) (background_mode st) (solid_color st)
    (wallpaper_style st) (Some (wallpaper_path st)) d s = Some (rc, d', s') /\ fs_ok s') as (rc & d' & s' & -> & I');
    [|by eexists _, _].
  unfold Wallpaper.desktop_apply_theme. do 4 (destruct (_ : bool); [by eexists _, _, _|]).
  set (d1 := d <| Wallpaper.g_accent_color := _ |> <| _ := _ |> <| _ := _ |> <| _ := _ |>).
  destruct (Z.eqb_spec (background_mode st) Wallpaper.DESKTOP_BG_MODE_WALLPAPER) as [Em|Em].
  - destruct (wallpaper_path st) as [|c p] eqn:Ep.
    + cbv zeta. eapply (release_returns _ s (-1) (fun d => _)). exact I.
    + destruct (set_wallpaper_returns (Some (c :: p)) d1 s I) as (rc & d2 & s2 & -> & I2);
        [by rewrite (release_pixels d); [apply Hf|]|]. destruct (negb (rc =? 0)); by eexists _, _, _.
  - cbv zeta. eapply (release_returns _ s 0 (fun d => _)). exact I.
Qed.

(** ** Saving and loading *)

Lemma write_cfg_returns path st s : fs_ok s -> theme_ok st ->
  exists rc s', theme_write_cfg_to (Some path) st s = Some (rc, s') /\ fs_ok s'.
Proof.
  intros I Hok. rewrite theme_write_put by done. pose proof (theme_text_len st Hok) as Hl. unfold put_file.
  set (fl := Z.lor _ _). pose proof (fs_open_ok (Some path) fl s I) as I1.
  destruct (fs_open (Some path) fl s) as [fd s1]. cbn [snd] in I1. destruct (fd <? 0); [by eexists _, _|].
  destruct (fs_write_returns fd (theme_text st) s1 I1) as (n & s2 & -> & I2); [lia|].
  eexists _, _. split; [done|by apply fs_close_ok].
Qed.

Lemma persist_returns t : fs_ok (ts_fs t) -> theme_ok (g_theme_state t) ->
  exists t', theme_persist t = Some t' /\ fs_ok (ts_fs t').
Proof.
  intros I Hok. unfold theme_persist, theme_persist_state.
  destruct (write_cfg_returns THEME_CFG_PRIMARY _ _ I Hok) as (rc & s1 & -> & I1).
  destruct (rc =? 0); [by eexists|].
  destruct (write_cfg_returns THEME_CFG_FALLBACK _ _ I1 Hok) as (rc2 & s2 & -> & I2).
  destruct (rc2 =? 0); by eexists.
Qed.

Lemma read_cfg_ok path s : fs_ok s -> fs_ok (theme_read_cfg_from path s).2.
Proof.
  intros I. unfold theme_read_cfg_from. destruct path as [path|]; [|done].
  pose proof (fs_open_ok (Some path) VFS_O_RDONLY s I) as I1.
  destruct (fs_open (Some path) VFS_O_RDONLY s) as [fd s1]. cbn [snd] in I1. destruct (fd <? 0); [done|].
  pose proof (fs_size_pos fd s1 I1) as Hz. set (sz := fs_size fd s1) in *.
  destruct (_ || _); [by apply fs_close_ok|].
  pose proof (fs_alloc_ok (u64 (sz + 1)) s1 I1) as I2. destruct (fs_alloc (u64 (sz + 1)) s1) as [[[a b]|] s2];
    cbn [snd] in I2; [|by apply fs_close_ok].
  pose proof (fs_read_ok fd sz s2 I2 Hz) as I3. destruct (fs_read fd sz s2) as [got s3]. cbn [snd] in I3.
  destruct (negb _); by apply fs_free_ok, fs_close_ok.
Qed.

Lemma load_state_ok t : fs_ok (ts_fs t) -> fs_ok (ts_fs (theme_load_state t)).
Proof.
  intros I. unfold theme_load_state. cbn [ts_fs].
  pose proof (read_cfg_ok (Some THEME_CFG_PRIMARY) (ts_fs t) I) as I1.
  destruct (theme_read_cfg_from (Some THEME_CFG_PRIMARY) (ts_fs t)) as [[st1|] s1] eqn:E1; cbn [snd] in I1.
  all: change (ts_fs (t <| g_theme_state := theme_set_defaults |>)) with (ts_fs t); rewrite E1. 1: done.
  pose proof (read_cfg_ok (Some THEME_CFG_FALLBACK) s1 I1) as I2.
  change (ts_fs (t <| g_theme_state := theme_set_defaults |> <| ts_fs := s1 |>)) with s1.
  by destruct (theme_read_cfg_from (Some THEME_CFG_FALLBACK) s1) as [[st2|] s2].
Qed.
End runs.

(** The file system is well formed after boot. *)
Lemma boot_fs_ok {B} `{VfsEnvLaws B} boot (b : B) n : fs_ok (caller (vsys_init boot b n) None).
Proof. eexists. exact (proj1 (vsys_init_inv boot b n)). Qed.
