(* ===== verification/ThemeCmds.v ===== *)
(** The theme commands keep the configuration valid, return, and leave the desktop showing what
    they answer for. *)

From Stdlib Require Import String.
From S2P Require Import VfsSys VfsProps.
From S2P Require Import Prelude CString VfsData Files Kprintf Theme ThemeProps ThemeRuns.
From S2P Require Wallpaper Wm Bmp.

(** ** A file that is accepted describes a valid state *)

(** Valid but for a wallpaper mode without a wallpaper. *)
Record fields_ok (st : theme_state) : Prop := {
  fo_accent : is_u32 (accent_color st) /\ validate_theme_color (accent_color st) = true;
  fo_solid : is_u32 (solid_color st) /\ validate_theme_color (solid_color st) = true;
  fo_mode : validate_bg_mode (background_mode st) = true;
  fo_style : validate_wallpaper_style (wallpaper_style st) = true;
  fo_path : validate_wallpaper_path (Some (wallpaper_path st)) true = true;
}.

Lemma fields_theme_ok st : fields_ok st ->
  (background_mode st = TSUKASA_THEME_BG_WALLPAPER -> wallpaper_path st <> []) -> theme_ok st.
Proof. intros [] Hw. by split. Qed.

Lemma theme_ok_fields st : theme_ok st -> fields_ok st.
Proof. intros []. by split. Qed.

Lemma parse_bg_mode_valid v m : parse_bg_mode v = Some m -> validate_bg_mode m = true.
Proof. unfold parse_bg_mode. repeat case_match; intros [= <-]; done. Qed.

Lemma parse_style_valid v m : parse_wallpaper_style v = Some m -> validate_wallpaper_style m = true.
Proof. unfold parse_wallpaper_style. repeat case_match; intros [= <-]; done. Qed.

Lemma valid_path_stored dst p b : validate_wallpaper_path (Some p) b = true ->
  copy_small_string dst 128 (Some p) = p /\ validate_wallpaper_path (Some p) true = true.
Proof.
  intros Hp. split; [apply copy_small_fits; by apply path_valid in Hp as (? & _)|].
  unfold validate_wallpaper_path in *. by destruct (small_strlen (Some p) =? 0).
Qed.

Lemma cfg_set_ok key val c c' : cfg_set key val c = Some c' -> fields_ok (c_st c) -> fields_ok (c_st c').
Proof.
  intros E [Fa Fs Fm Fy Fp]. unfold cfg_set in E.
  destruct (small_streq _ (Some (zs "version"))).
  { destruct (parse_dec_u32 _); [|done]. injection E as <-. by split. }
  destruct (small_streq _ (Some (zs "accent_color"))).
  { destruct (parse_hex_u32 _) as [v|] eqn:Ev; [|done]. apply parse_hex_range in Ev.
    destruct (validate_theme_color v) eqn:Ec; [|done]. injection E as <-. by split. }
  destruct (small_streq _ (Some (zs "background_mode"))).
  { destruct (parse_bg_mode _) as [v|] eqn:Ev; [|done]. apply parse_bg_mode_valid in Ev. injection E as <-. by split. }
  destruct (small_streq _ (Some (zs "solid_color"))).
  { destruct (parse_hex_u32 _) as [v|] eqn:Ev; [|done]. apply parse_hex_range in Ev.
    destruct (validate_theme_color v) eqn:Ec; [|done]. injection E as <-. by split. }
  destruct (small_streq _ (Some (zs "wallpaper_path"))).
  { destruct (validate_wallpaper_path (Some val) true) eqn:Ev; [|done]. injection E as <-.
    destruct (valid_path_stored (wallpaper_path (c_st c)) val true Ev) as [E _].
    split; try done. cbn -[copy_small_string validate_wallpaper_path]. by rewrite E. }
  destruct (small_streq _ (Some (zs "wallpaper_style"))).
  { destruct (parse_wallpaper_style _) as [v|] eqn:Ev; [|done]. apply parse_style_valid in Ev.
    injection E as <-. by split. }
  injection E as <-. by split.
Qed.

Lemma cfg_line_ok line c c' : cfg_line line c = Some c' -> fields_ok (c_st c) -> fields_ok (c_st c').
Proof.
  unfold cfg_line. destruct (trim_ws line) as [|x l]; [by intros [= <-]|]. destruct (x =? 35); [by intros [= <-]|].
  destruct (split_eq _) as [[k v]|]; [apply cfg_set_ok|by intros [= <-]].
Qed.

Lemma cfg_loop_ok n scan c c' : cfg_loop n scan c = Some c' -> fields_ok (c_st c) -> fields_ok (c_st c').
Proof.
  revert scan c. induction n as [|n IH]; intros scan c; [done|]. cbn [cfg_loop].
  destruct scan as [|x scan]; [by intros [= <-]|]. destruct (scan_line _) as [line rest].
  destruct (cfg_line line c) as [c1|] eqn:E; [|done]. intros E' Hc. apply (IH _ _ E'). by apply (cfg_line_ok _ _ _ E).
Qed.

Lemma parse_cfg_ok text st : parse_cfg text = Some st -> theme_ok st.
Proof.
  unfold parse_cfg. destruct (cfg_loop _ text cfg_init) as [c|] eqn:E; [|done].
  apply cfg_loop_ok in E; [|apply theme_ok_fields, theme_ok_defaults].
  destruct (negb _); [done|]. destruct (negb _); [done|].
  destruct ((background_mode (c_st c) =? TSUKASA_THEME_BG_WALLPAPER) && _) eqn:Ew; [done|]. intros [= <-].
  apply fields_theme_ok; [done|]. intros Em. rewrite Em in Ew. by destruct (wallpaper_path (c_st c)).
Qed.

Lemma bg_mode_bound m : validate_bg_mode m = true -> m <= Wallpaper.DESKTOP_BG_MODE_WALLPAPER.
Proof. intros [[->%Z.eqb_eq| ->%Z.eqb_eq]%orb_true_iff| ->%Z.eqb_eq]%orb_true_iff; done. Qed.

Lemma style_bound y : validate_wallpaper_style y = true -> y <= Wallpaper.DESKTOP_WALLPAPER_CENTER.
Proof. intros [->%Z.eqb_eq| ->%Z.eqb_eq]%orb_true_iff; done. Qed.

(** ** What the desktop shows after [desktop_apply_theme] *)

Definition shows (st : theme_state) (d : Wallpaper.desk) : Prop :=
  Wallpaper.g_accent_color d = accent_color st
  /\ Wallpaper.wallpaper_bg_mode d = background_mode st
  /\ Wallpaper.wallpaper_solid_color d = solid_color st
  /\ Wallpaper.wallpaper_style d = wallpaper_style st
  /\ Wallpaper.wallpaper_path d = wallpaper_path st
  /\ (background_mode st = TSUKASA_THEME_BG_WALLPAPER -> Wallpaper.wallpaper_pixels d <> None).

Section desktop.
Context {S : Type} `{Files S}.
Implicit Types (s : S) (t : tsys S) (st : theme_state) (d : Wallpaper.desk).

(** The fields a wallpaper does not touch. *)
Definition same_look d d' : Prop :=
  Wallpaper.g_accent_color d' = Wallpaper.g_accent_color d
  /\ Wallpaper.wallpaper_bg_mode d' = Wallpaper.wallpaper_bg_mode d
  /\ Wallpaper.wallpaper_solid_color d' = Wallpaper.wallpaper_solid_color d
  /\ Wallpaper.wallpaper_style d' = Wallpaper.wallpaper_style d.

Lemma build_look path d s rc d' s' : Wallpaper.build_wallpaper_cache path d s = Some (rc, d', s') ->
  same_look d d' /\ Wallpaper.wallpaper_path d' = Wallpaper.wallpaper_path d
  /\ (rc = 0 -> Wallpaper.wallpaper_pixels d' <> None).
Proof.
  unfold Wallpaper.build_wallpaper_cache. destruct (_ || _ || _); [by intros [= <- <- _]|].
  destruct (Bmp.bmp_load_to_buf path s) as [[[r img] s1]|]; [|done].
  destruct (if negb (r =? 0) then None else img) as [b|]; [|by intros [= <- <- _]].
  destruct (_ || _); [by intros [= <- <- _]|].
  destruct (fs_alloc _ s1) as [[[a blk]|] s2]; [|by intros [= <- <- _]].
  destruct (if _ =? _ then _ else _) as [c|]; [|done]. by intros [= <- <- _].
Qed.

Lemma release_look d s d' s' : Wallpaper.release_wallpaper_cache d s = (d', s') ->
  same_look d d' /\ Wallpaper.wallpaper_path d' = Wallpaper.wallpaper_path d.
Proof. unfold Wallpaper.release_wallpaper_cache. destruct (Wallpaper.wallpaper_pixels d) as [[a l]|]; by intros [= <- _]. Qed.

Lemma set_wallpaper_look p d s rc d' s' : p <> [] -> zlen p < 128 ->
  Wallpaper.desktop_set_wallpaper (Some p) d s = Some (rc, d', s') ->
  same_look d d' /\ (rc = 0 /\ Wallpaper.wallpaper_path d' = p /\ Wallpaper.wallpaper_pixels d' <> None
                     \/ rc = -1 /\ Wallpaper.wallpaper_path d' = []).
Proof.
  intros Hp Hl. unfold Wallpaper.desktop_set_wallpaper.
  destruct (Wallpaper.release_wallpaper_cache d s) as [d1 s1] eqn:E1. apply release_look in E1 as [L1 _].
  destruct p as [|c p]; [done|]. set (q := c :: p) in *.
  destruct (_ <=? _); [intros [= <- <- _]; split; [exact L1|by right]|].
  destruct (Wallpaper.build_wallpaper_cache (Some q) d1 s1) as [[[r d2] s2]|] eqn:E2; [|done].
  apply build_look in E2 as (L2 & _ & P2).
  assert (same_look d d2) as L3 by (unfold same_look in *; destruct L1 as (? & ? & ? & ?), L2 as (? & ? & ? & ?);
    split_and!; congruence).
  destruct (Z.eqb_spec r 0) as [->|]; cbn [negb]; intros [= <- <- _]; (split; [exact L3|]); [left|by right].
  split; [done|]. split; [|by apply P2].
  cbn -[Wallpaper.copy_small_string].
  change (Wallpaper.copy_small_string ?a Wallpaper.WALLPAPER_PATH_MAX (Some q)) with (copy_small_string a 128 (Some q)).
  by apply copy_small_fits.
Qed.

(** The state without its wallpaper. *)
Definition plain_theme st : theme_state :=
  st <| background_mode := TSUKASA_THEME_BG_GRADIENT |> <| wallpaper_path := [] |>.

(** The answer of the desktop to a valid theme: it shows it, or its wallpaper could not be loaded and
    the desktop shows the gradient instead. *)
Lemma apply_shows st d s rc d' s' : theme_ok st ->
  Wallpaper.desktop_apply_theme (accent_color st) (background_mode st) (solid_color st) (wallpaper_style st)
    (Some (wallpaper_path st)) d s = Some (rc, d', s') ->
  rc = 0 /\ shows st d' \/ rc = -1 /\ background_mode st = TSUKASA_THEME_BG_WALLPAPER /\ shows (plain_theme st) d'.
Proof.
  intros Hok. pose proof (path_valid _ _ (to_path _ Hok)) as (Hl & _). unfold Wallpaper.desktop_apply_theme.
  fold (validate_theme_color (accent_color st)) (validate_theme_color (solid_color st)).
  rewrite (proj2 (to_accent _ Hok)), (proj2 (to_solid _ Hok)). cbn [negb].
  rewrite (proj2 (Z.ltb_ge _ _)) by (by apply bg_mode_bound, Hok).
  rewrite (proj2 (Z.ltb_ge _ _)) by (by apply style_bound, Hok).
  change (Wallpaper.copy_small_string ?a Wallpaper.WALLPAPER_PATH_MAX ?q) with (copy_small_string a 128 q).
  rewrite copy_small_fits by done. set (d1 := d <| Wallpaper.g_accent_color := _ |> <| _ := _ |> <| _ := _ |> <| _ := _ |>).
  destruct (Z.eqb_spec (background_mode st) Wallpaper.DESKTOP_BG_MODE_WALLPAPER) as [Em|Em].
  - pose proof (to_wall _ Hok Em) as Hne. destruct (wallpaper_path st) as [|c p] eqn:Ep; [done|].
    destruct (Wallpaper.desktop_set_wallpaper _ d1 s) as [[[r d2] s2]|] eqn:E; [|done].
    apply set_wallpaper_look in E as ((L1 & L2 & L3 & L4) & [(-> & E5 & E6)|(-> & E5)]); [| |done|done];
      intros [= <- <- _]; [left|right].
    + split; [done|]. unfold shows. rewrite Em, Ep. cbn. split_and!; done.
    + split; [done|]. split; [exact Em|]. unfold shows. cbn. split_and!; done.
  - destruct (Wallpaper.release_wallpaper_cache _ s) as [d2 s2] eqn:E. intros [= <- <- _]. left. split; [done|].
    apply release_look in E as ((L1 & L2 & L3 & L4) & L5). unfold shows.
    cbn. split_and!; try done.
Qed.
End desktop.

(** ** The commands *)

(** The same theme, whatever the ephemeral flag says. *)
Definition same_theme (st st' : theme_state) : Prop := st' = st <| flags := flags st' |>.

Lemma same_theme_refl st : same_theme st st.
Proof. by destruct st. Qed.

Lemma same_theme_flags st f : same_theme st (st <| flags := f |>).
Proof. by destruct st. Qed.

Lemma same_theme_ok st st' : same_theme st st' -> theme_ok st -> theme_ok st'.
Proof. intros -> [H1 H2 H3 H4 H5 H6]. split; [exact H1|exact H2|exact H3|exact H4|exact H5|exact H6]. Qed.

Lemma same_theme_shows st st' d : same_theme st st' -> shows st d -> shows st' d.
Proof. intros ->. done. Qed.

(** What a command asks for: the theme it would give, or a refusal.  Selecting the wallpaper mode
    without a wallpaper is refused and selects the gradient. *)
Inductive verdict : Type := Refused | NoWallpaper (st : theme_state) | Wanted (st : theme_state).

Definition asked (c : theme_call) (st : theme_state) : verdict :=
  match c with
  | SetAccent a => if validate_theme_color (u32 a) then Wanted (st <| accent_color := u32 a |>) else Refused
  | SetBgMode m a h =>
      if negb (validate_bg_mode (u32 m)) then Refused else
      match set_aux (u32 m) (u32 a) (negb (h =? 0)) st with
      | None => Refused
      | Some st => if (u32 m =? TSUKASA_THEME_BG_WALLPAPER) && match wallpaper_path st with [] => true | _ => false end
                   then NoWallpaper (st <| background_mode := TSUKASA_THEME_BG_GRADIENT |>)
                   else Wanted (st <| background_mode := u32 m |>)
      end
  | SetWallpaper p y h =>
      if negb (validate_wallpaper_path p false) then Refused else
      if negb (h =? 0) && negb (validate_wallpaper_style (u32 y)) then Refused else
      let st := if h =? 0 then st else st <| wallpaper_style := u32 y |> in
      Wanted (st <| wallpaper_path := match p with Some p => p | None => [] end |>
                 <| background_mode := TSUKASA_THEME_BG_WALLPAPER |>)
  | GetState out => if out then Wanted st else Refused
  end.

Lemma asked_ok c st : theme_ok st ->
  match asked c st with Refused => True | NoWallpaper st' | Wanted st' => theme_ok st' end.
Proof.
  intros Hok. pose proof Hok as [Ha Hs Hm Hy Hp Hw]. destruct c as [a|m a h|p y h|o]; cbn [asked].
  - destruct (validate_theme_color (u32 a)) eqn:E; [|done]. split; try done. split; [apply u32_range|done].
  - destruct (validate_bg_mode (u32 m)) eqn:Em; [|done]. cbn [negb].
    assert (match set_aux (u32 m) (u32 a) (negb (h =? 0)) st with Some st' => fields_ok st' | None => True end) as Hf.
    { unfold set_aux. destruct (_ && _); [|destruct (_ && _)]; [| |by apply theme_ok_fields].
      - destruct (validate_theme_color (u32 a)) eqn:E; [|done]. split; try done. split; [apply u32_range|done].
      - destruct (validate_wallpaper_style (u32 a)) eqn:E; [|done]. by split. }
    destruct (set_aux _ _ _ st) as [st'|]; [|done]. destruct Hf as [Fa Fs Fm Fy Fp].
    destruct (_ && _) eqn:Ew; split; try done. cbn. intros Eq Enil. rewrite Eq, Enil in Ew. done.
  - destruct p as [p|]; [|done]. destruct (validate_wallpaper_path (Some p) false) eqn:Ep; [|done]. cbn [negb].
    destruct (valid_path_stored [] p false Ep) as [_ Ep'].
    assert (p <> []) as Hne by (intros ->; done).
    destruct (h =? 0); cbn [negb andb].
    + by split.
    + destruct (validate_wallpaper_style (u32 y)) eqn:Ey; [|done]. by split.
  - by destruct o.
Qed.

Section commands.
Context {S : Type} `{Files S}.
Implicit Types (s : S) (t : tsys S) (st : theme_state).

Lemma theme_apply_spec t rc t' : theme_apply t = Some (rc, t') ->
  g_theme_state t' = g_theme_state t /\ g_theme_loaded t' = g_theme_loaded t
  /\ (theme_ok (g_theme_state t) ->
      rc = 0 /\ shows (g_theme_state t) (ts_desk t')
      \/ rc = -1 /\ background_mode (g_theme_state t) = TSUKASA_THEME_BG_WALLPAPER
         /\ shows (plain_theme (g_theme_state t)) (ts_desk t')).
Proof.
  unfold theme_apply. destruct (Wallpaper.desktop_apply_theme _ _ _ _ _ _ _) as [[[r d] s]|] eqn:E; [|done].
  intros [= <- <-]. split; [done|]. split; [done|]. intros Hok. by apply (apply_shows _ _ _ _ _ _ Hok E).
Qed.

Lemma theme_persist_spec t t' : theme_persist t = Some t' ->
  same_theme (g_theme_state t) (g_theme_state t') /\ g_theme_loaded t' = g_theme_loaded t /\ ts_desk t' = ts_desk t.
Proof.
  unfold theme_persist, theme_persist_state.
  destruct (theme_write_cfg_to (Some THEME_CFG_PRIMARY) _ _) as [[r1 s1]|]; [|done].
  destruct (r1 =? 0); [intros [= <-]; split; [apply same_theme_flags|done]|].
  destruct (theme_write_cfg_to _ _ _) as [[r2 s2]|]; [|done].
  destruct (r2 =? 0); intros [= <-]; (split; [apply same_theme_flags|done]).
Qed.

(** Falling back to a theme without a wallpaper cannot fail. *)
Lemma apply_persist_spec t t' : apply_persist t = Some t' ->
  same_theme (g_theme_state t) (g_theme_state t') /\ g_theme_loaded t' = g_theme_loaded t
  /\ (theme_ok (g_theme_state t) -> background_mode (g_theme_state t) <> TSUKASA_THEME_BG_WALLPAPER ->
      shows (g_theme_state t) (ts_desk t')).
Proof.
  unfold apply_persist. destruct (theme_apply t) as [[rc t1]|] eqn:E1; [|done]. intros E2.
  apply theme_apply_spec in E1 as (E1 & L1 & S1). apply theme_persist_spec in E2 as (E2 & L2 & D2).
  rewrite E1 in E2. split; [done|]. split; [congruence|]. intros Hok Hm. rewrite D2.
  by destruct (S1 Hok) as [[_ ?]|(_ & ? & _)].
Qed.

Lemma plain_theme_ok st : theme_ok st -> theme_ok (plain_theme st).
Proof. intros []. by split. Qed.

Lemma theme_read_ok path s r s' : theme_read_cfg_from path s = (Some r, s') -> theme_ok r.
Proof.
  unfold theme_read_cfg_from. destruct path as [path|]; [|done]. destruct (fs_open _ _ s) as [fd s1].
  destruct (fd <? 0); [done|]. destruct (_ || _); [done|]. destruct (fs_alloc _ s1) as [[[a d]|] s2]; [|done].
  destruct (fs_read _ _ s2) as [got s3]. destruct (negb _); [done|]. intros [= E _]. by apply parse_cfg_ok in E.
Qed.

Lemma theme_load_ok t : theme_ok (g_theme_state (theme_load_state t)).
Proof.
  unfold theme_load_state. destruct (theme_read_cfg_from (Some THEME_CFG_PRIMARY) _) as [[st1|] s1] eqn:E1.
  - apply theme_read_ok in E1. by apply (same_theme_ok st1); [apply same_theme_flags|].
  - destruct (theme_read_cfg_from (Some THEME_CFG_FALLBACK) _) as [[st2|] s2] eqn:E2.
    + apply theme_read_ok in E2. by apply (same_theme_ok st2); [apply same_theme_flags|].
    + apply (same_theme_ok theme_set_defaults); [apply same_theme_flags|apply theme_ok_defaults].
Qed.

(** Loading gives a valid state, once. *)
Lemma theme_ensure_loaded_ok t t' : (g_theme_loaded t = true -> theme_ok (g_theme_state t)) ->
  theme_ensure_loaded t = Some t' -> g_theme_loaded t' = true /\ theme_ok (g_theme_state t').
Proof.
  intros Hok. unfold theme_ensure_loaded. destruct (g_theme_loaded t) eqn:El; [intros [= <-]; auto|].
  pose proof (theme_load_ok t) as H1. set (t1 := theme_load_state t) in *. clearbody t1.
  destruct (theme_apply t1) as [[rc t2]|] eqn:E2; [|done].
  apply theme_apply_spec in E2 as (E2 & _ & _). rewrite <- E2 in H1.
  destruct (negb (rc =? 0) && _).
  - destruct (apply_persist (drop_wallpaper t2)) as [t3|] eqn:E3; [|done]. intros [= <-]. split; [done|].
    apply apply_persist_spec in E3 as [E3 _]. apply (same_theme_ok _ _ E3). by apply plain_theme_ok.
  - by intros [= <-].
Qed.

(** The desktop's return value for a theme, asked in state [t]. *)
Definition desk_answer st t : option Z :=
  match Wallpaper.desktop_apply_theme (accent_color st) (background_mode st) (solid_color st) (wallpaper_style st)
          (Some (wallpaper_path st)) (ts_desk t) (ts_fs t) with
  | Some (rc, _, _) => Some rc
  | None => None
  end.

(** The theme that is kept when its wallpaper cannot be loaded: the accent command keeps it, the
    other commands drop the wallpaper. *)
Definition kept (c : theme_call) st : theme_state := match c with SetAccent _ => st | _ => plain_theme st end.

(** How a command ends that starts on the loaded theme of [t]. *)
Definition outcome (c : theme_call) t rc t' : Prop :=
  match asked c (g_theme_state t), c with
  | Refused, _ => rc = -1 /\ t' = t
  | NoWallpaper st, _ => rc = -1 /\ same_theme st (g_theme_state t') /\ shows st (ts_desk t')
  | Wanted st, GetState _ => rc = 0 /\ t' = t
  | Wanted st, _ =>
      exists r, desk_answer st t = Some r
        /\ if decide (r = 0)
           then rc = 0 /\ same_theme st (g_theme_state t') /\ shows st (ts_desk t')
           else rc = -1 /\ background_mode st = TSUKASA_THEME_BG_WALLPAPER
                /\ same_theme (kept c st) (g_theme_state t') /\ shows (plain_theme st) (ts_desk t')
  end.

(** The common end of the setters: apply [st]; on failure [other] is what is done instead. *)
Lemma finish_apply st t rc t1 r t' (kept : theme_state) (other : option (Z * tsys S)) :
  theme_ok st -> theme_apply (t <| g_theme_state := st |>) = Some (rc, t1) ->
  (if negb (rc =? 0) then other else returning 0 (theme_persist t1)) = Some (r, t') ->
  (background_mode st = TSUKASA_THEME_BG_WALLPAPER -> g_theme_state t1 = st -> shows (plain_theme st) (ts_desk t1) ->
   other = Some (r, t') -> r = -1 /\ same_theme kept (g_theme_state t') /\ shows (plain_theme st) (ts_desk t')) ->
  exists r', desk_answer st t = Some r'
    /\ if decide (r' = 0) then r = 0 /\ same_theme st (g_theme_state t') /\ shows st (ts_desk t')
       else r = -1 /\ background_mode st = TSUKASA_THEME_BG_WALLPAPER
            /\ same_theme kept (g_theme_state t') /\ shows (plain_theme st) (ts_desk t').
Proof.
  intros Hok E1 E2 Ho. exists rc.
  assert (desk_answer st t = Some rc) as ->.
  { revert E1. unfold theme_apply, desk_answer. destruct t as [st0 l d s]. cbn.
    destruct (Wallpaper.desktop_apply_theme _ _ _ _ _ _ _) as [[[r0 d0] s0]|]; [|done]. by intros [= <- _]. }
  split; [done|]. apply theme_apply_spec in E1 as (E1 & _ & Hs).
  destruct (Hs Hok) as [[-> S1]|(-> & Em & S1)]; cbn [negb Z.eqb] in E2; case_decide; try done.
  - unfold returning in E2. destruct (theme_persist t1) as [t2|] eqn:E3; [|done]. injection E2 as <- <-.
    apply theme_persist_spec in E3 as (E3 & _ & Ed). rewrite E1 in E3. split; [done|]. split; [exact E3|]. by rewrite Ed.
  - destruct (Ho Em E1 S1 E2) as (? & ? & ?). done.
Qed.

Lemma returning_drop st t1 r t' : theme_ok st -> g_theme_state t1 = st ->
  returning (-1) (apply_persist (drop_wallpaper t1)) = Some (r, t') ->
  r = -1 /\ same_theme (plain_theme st) (g_theme_state t') /\ shows (plain_theme st) (ts_desk t').
Proof.
  intros Hok E1. unfold returning. destruct (apply_persist _) as [t2|] eqn:E2; [|done].
  intros [= <- <-]. split; [done|]. apply apply_persist_spec in E2 as (E2 & _ & S2).
  change (g_theme_state (drop_wallpaper t1)) with (plain_theme (g_theme_state t1)) in *. rewrite E1 in *.
  split; [exact E2|]. apply S2; [by apply plain_theme_ok|done].
Qed.

Lemma set_accent_outcome a t rc t' : g_theme_loaded t = true -> theme_ok (g_theme_state t) ->
  theme_set_accent a t = Some (rc, t') -> outcome (SetAccent a) t rc t'.
Proof.
  intros Hl Hok. pose proof (asked_ok (SetAccent a) _ Hok) as Hask. unfold theme_set_accent, theme_ensure_loaded, outcome.
  rewrite Hl. cbn [asked] in *. destruct (validate_theme_color (u32 a)) eqn:Ev; cbn [negb]; [|by intros [= <- <-]].
  set (st := g_theme_state t <| accent_color := u32 a |>) in *.
  destruct (theme_apply (t <| g_theme_state := st |>)) as [[r t1]|] eqn:E1; [|done].
  intros E2. apply (finish_apply st t r t1 rc t' st (Some (-1, t1)) Hask E1 E2). intros _ Es Sp [= <- <-].
  split; [done|]. split; [rewrite Es; apply same_theme_refl|exact Sp].
Qed.

Lemma set_bg_mode_outcome m a h t rc t' : g_theme_loaded t = true -> theme_ok (g_theme_state t) ->
  theme_set_bg_mode m a h t = Some (rc, t') -> outcome (SetBgMode m a h) t rc t'.
Proof.
  intros Hl Hok. pose proof (asked_ok (SetBgMode m a h) _ Hok) as Hask.
  unfold theme_set_bg_mode, theme_ensure_loaded, outcome. rewrite Hl. cbn [asked] in *.
  destruct (validate_bg_mode (u32 m)) eqn:Ev; cbn [negb] in *; [|by intros [= <- <-]].
  destruct (set_aux (u32 m) (u32 a) (negb (h =? 0)) (g_theme_state t)) as [st0|] eqn:Es; [|by intros [= <- <-]].
  destruct ((u32 m =? TSUKASA_THEME_BG_WALLPAPER) && _) eqn:Ew.
  - unfold returning. destruct (apply_persist _) as [t1|] eqn:E1; [|done]. intros [= <- <-].
    apply apply_persist_spec in E1 as (E1 & _ & S1). split; [done|]. split; [exact E1|by apply S1].
  - set (st := st0 <| background_mode := u32 m |>) in *.
    destruct (theme_apply _) as [[r t1]|] eqn:E1; [|done].
    intros E2. refine (finish_apply st t r t1 rc t' (plain_theme st) _ Hask E1 E2 _). intros Em Es1 Sp.
    change (background_mode st) with (u32 m) in Em. rewrite Em. cbn [Z.eqb]. change (_ =? _) with true. cbn iota.
    by apply returning_drop.
Qed.

Lemma set_wallpaper_outcome p y h t rc t' : g_theme_loaded t = true -> theme_ok (g_theme_state t) ->
  theme_set_wallpaper p y h t = Some (rc, t') -> outcome (SetWallpaper p y h) t rc t'.
Proof.
  intros Hl Hok. pose proof (asked_ok (SetWallpaper p y h) _ Hok) as Hask.
  unfold theme_set_wallpaper, theme_ensure_loaded, outcome. rewrite Hl. cbn [asked] in *.
  destruct (validate_wallpaper_path p false) eqn:Ev; cbn [negb] in *; [|by intros [= <- <-]].
  destruct (negb (h =? 0) && _) eqn:Ey; [by intros [= <- <-]|]. destruct p as [p|]; [|done].
  set (st := (if h =? 0 then _ else _) <| wallpaper_path := _ |> <| background_mode := _ |>) in *.
  destruct (theme_apply _) as [[r t1]|] eqn:E1; [|done].
  assert (theme_apply (t <| g_theme_state := st |>) = Some (r, t1)) as E1'.
  { rewrite <- E1. f_equal. unfold st. rewrite (proj1 (valid_path_stored _ p false Ev)). by destruct (h =? 0). }
  intros E2. refine (finish_apply st t r t1 rc t' (plain_theme st) _ Hask E1' E2 _). intros _ Es1 _.
  by apply returning_drop.
Qed.

Lemma theme_call_outcome c t rc t' :
  g_theme_loaded t = true -> theme_ok (g_theme_state t) -> run_theme_call c t = Some (rc, t') -> outcome c t rc t'.
Proof.
  intros Hl Hok. destruct c as [a|m a h|p y h|o]; cbn [run_theme_call].
  - by apply set_accent_outcome.
  - by apply set_bg_mode_outcome.
  - by apply set_wallpaper_outcome.
  - unfold theme_get_state, theme_ensure_loaded, outcome. rewrite Hl. by destruct o; intros [= <- <-].
Qed.

Lemma outcome_ok c t rc t' : theme_ok (g_theme_state t) -> outcome c t rc t' -> theme_ok (g_theme_state t').
Proof.
  intros Hok. pose proof (asked_ok c _ Hok) as Ha. unfold outcome. destruct (asked c (g_theme_state t)) as [|st|st].
  - by intros [_ ->].
  - intros (_ & E & _). by apply (same_theme_ok _ _ E).
  - assert (theme_ok (kept c st)) as Hk by (destruct c; [exact Ha|by apply plain_theme_ok..]).
    destruct c; [| | |by intros [_ ->]]; intros (r & _ & Hr); case_decide;
      [destruct Hr as (_ & E & _)|destruct Hr as (_ & _ & E & _)| | | |]; try by apply (same_theme_ok _ _ E).
    all: first [destruct Hr as (_ & E & _); by apply (same_theme_ok _ _ E)
               |destruct Hr as (_ & _ & E & _); by apply (same_theme_ok _ _ E)].
Qed.

(** A command loads the theme first. *)
Lemma theme_call_loads c t r : run_theme_call c t = Some r ->
  exists t0, theme_ensure_loaded t = Some t0
    /\ (g_theme_loaded t0 = true -> run_theme_call c t0 = Some r).
Proof.
  intros E. assert (exists t0, theme_ensure_loaded t = Some t0) as [t0 E0].
  { destruct (theme_ensure_loaded t) as [t0|] eqn:E0; [by exists t0|]. exfalso.
    destruct c; cbn [run_theme_call] in E;
      unfold theme_set_accent, theme_set_bg_mode, theme_set_wallpaper, theme_get_state in E; by rewrite E0 in E. }
  exists t0. split; [done|]. intros Hl.
  assert (theme_ensure_loaded t0 = Some t0) as E1 by (unfold theme_ensure_loaded; by rewrite Hl).
  revert E. destruct c; cbn [run_theme_call];
    unfold theme_set_accent, theme_set_bg_mode, theme_set_wallpaper, theme_get_state; by rewrite E0, E1.
Qed.

Lemma theme_call_keeps c t rc t' : (g_theme_loaded t = true -> theme_ok (g_theme_state t)) ->
  run_theme_call c t = Some (rc, t') ->
  exists t0, theme_ensure_loaded t = Some t0 /\ theme_ok (g_theme_state t0)
    /\ outcome c t0 rc t' /\ theme_ok (g_theme_state t').
Proof.
  intros Hok E. destruct (theme_call_loads c t _ E) as (t0 & E0 & E1).
  destruct (theme_ensure_loaded_ok t t0 Hok E0) as [Hl Ho]. specialize (E1 Hl).
  pose proof (theme_call_outcome c t0 rc t' Hl Ho E1) as Hout. exists t0.
  split; [done|]. split; [done|]. split; [done|]. by apply (outcome_ok c t0 rc).
Qed.
End commands.

(** ** The commands return *)

Section returns.
Context {S : Type} `{FilesLaws S}.
Implicit Types (s : S) (t : tsys S) (st : theme_state).

(** The wallpapers a command may load fit: the one of the configuration file, if the theme is not
    loaded yet, and the one of the theme that is asked for. *)
Definition call_fits (c : theme_call) t : Prop :=
  (g_theme_loaded t = false -> apply_fits (theme_load_state t))
  /\ forall t0, theme_ensure_loaded t = Some t0 ->
       match asked c (g_theme_state t0) with
       | Wanted st => apply_fits (t0 <| g_theme_state := st |>)
       | _ => True
       end.

(** So do those of every command of a run. *)
Fixpoint calls_fit (cs : list theme_call) t : Prop :=
  match cs with
  | [] => True
  | c :: cs => call_fits c t /\ forall rc t', run_theme_call c t = Some (rc, t') -> calls_fit cs t'
  end.

(** The test of a run. *)
Fixpoint calls_fit_b (cs : list theme_call) t : bool :=
  match cs with
  | [] => true
  | c :: cs =>
      (g_theme_loaded t || apply_fits_b (theme_load_state t))
      && match theme_ensure_loaded t with
         | Some t0 => match asked c (g_theme_state t0) with
                      | Wanted st => apply_fits_b (t0 <| g_theme_state := st |>)
                      | _ => true
                      end
         | None => true
         end
      && match run_theme_call c t with Some (_, t') => calls_fit_b cs t' | None => true end
  end.

Lemma calls_fit_b_ok cs t : calls_fit_b cs t = true -> calls_fit cs t.
Proof.
  revert t. induction cs as [|c cs IH]; intros t; [done|]. cbn [calls_fit_b calls_fit].
  rewrite !andb_true_iff, orb_true_iff. intros [[H1 H2] H3]. split; [split|].
  - intros El. rewrite El in H1. destruct H1 as [|H1]; [done|]. by apply apply_fits_b_ok.
  - intros t0 E. rewrite E in H2. destruct (asked c _); try done. by apply apply_fits_b_ok.
  - intros rc t' E. rewrite E in H3. by apply IH.
Qed.

Lemma apply_persist_returns t : fs_ok (ts_fs t) -> theme_ok (g_theme_state t) ->
  background_mode (g_theme_state t) <> TSUKASA_THEME_BG_WALLPAPER ->
  exists t', apply_persist t = Some t' /\ fs_ok (ts_fs t').
Proof.
  intros I Hok Hm. unfold apply_persist. destruct (apply_returns t I) as (rc & t1 & E1 & I1); [by intros ?|].
  rewrite E1. apply theme_apply_spec in E1 as (E1 & _). apply persist_returns; [done|by rewrite E1].
Qed.

Lemma drop_returns t rc : fs_ok (ts_fs t) -> theme_ok (g_theme_state t) ->
  exists r t', returning rc (apply_persist (drop_wallpaper t)) = Some (r, t') /\ fs_ok (ts_fs t').
Proof.
  intros I Hok. destruct (apply_persist_returns (drop_wallpaper t)) as (t' & -> & I'); [done|by apply plain_theme_ok|done|].
  by eexists _, _.
Qed.

Lemma gradient_returns st t rc : fs_ok (ts_fs t) -> theme_ok (st <| background_mode := TSUKASA_THEME_BG_GRADIENT |>) ->
  exists r t', returning rc (apply_persist (t <| g_theme_state := st <| background_mode := TSUKASA_THEME_BG_GRADIENT |> |>))
    = Some (r, t') /\ fs_ok (ts_fs t').
Proof.
  intros I Hok. edestruct apply_persist_returns as (t' & -> & I'); [| | |by eexists _, _]; [exact I|exact Hok|done].
Qed.

Lemma save_returns t rc : fs_ok (ts_fs t) -> theme_ok (g_theme_state t) ->
  exists r t', returning rc (theme_persist t) = Some (r, t') /\ fs_ok (ts_fs t').
Proof. intros I Hok. destruct (persist_returns t I Hok) as (t' & -> & I'). by eexists _, _. Qed.

Lemma ensure_returns t : fs_ok (ts_fs t) -> (g_theme_loaded t = false -> apply_fits (theme_load_state t)) ->
  exists t0, theme_ensure_loaded t = Some t0 /\ fs_ok (ts_fs t0).
Proof.
  intros I Hf. unfold theme_ensure_loaded. destruct (g_theme_loaded t); [by eexists|].
  pose proof (theme_load_ok t) as Ho. pose proof (load_state_ok t I) as I1. set (t1 := theme_load_state t) in *.
  destruct (apply_returns t1 I1 (Hf eq_refl)) as (rc & t2 & E2 & I2). rewrite E2.
  apply theme_apply_spec in E2 as (E2 & _). rewrite <- E2 in Ho. destruct (negb (rc =? 0) && _); [|by eexists].
  destruct (apply_persist_returns (drop_wallpaper t2)) as (t3 & -> & I3); [done|by apply plain_theme_ok|done|].
  by eexists.
Qed.

(** A theme that fits is applied, and whatever follows returns. *)
Lemma set_returns st t rc : fs_ok (ts_fs t) -> theme_ok st -> apply_fits (t <| g_theme_state := st |>) ->
  exists r t1, theme_apply (t <| g_theme_state := st |>) = Some (r, t1) /\ fs_ok (ts_fs t1)
    /\ theme_ok (g_theme_state t1)
    /\ exists r t', returning rc (theme_persist t1) = Some (r, t') /\ fs_ok (ts_fs t').
Proof.
  intros I Hok Hf. destruct (fun J => apply_returns _ J Hf) as (r & t1 & E1 & I1); [exact I|].
  exists r, t1.
  split; [done|]. split; [done|]. apply theme_apply_spec in E1 as (E1 & _). change (g_theme_state t1 = st) in E1.
  rewrite E1. split; [done|]. apply save_returns; [done|by rewrite E1].
Qed.

Lemma theme_call_returns c t : fs_ok (ts_fs t) -> (g_theme_loaded t = true -> theme_ok (g_theme_state t)) ->
  call_fits c t -> exists rc t', run_theme_call c t = Some (rc, t') /\ fs_ok (ts_fs t').
Proof.
  intros I Hok [Hl Hf]. destruct (ensure_returns t I Hl) as (t0 & E0 & I0). specialize (Hf t0 E0).
  destruct (theme_ensure_loaded_ok t t0 Hok E0) as [_ Ho]. pose proof (asked_ok c _ Ho) as Ha.
  destruct c as [a|m a h|p y h|o]; cbn [run_theme_call asked] in *;
    unfold theme_set_accent, theme_set_bg_mode, theme_set_wallpaper, theme_get_state; rewrite E0.
  - destruct (validate_theme_color (u32 a)); cbn [negb]; [|by eexists _, _].
    destruct (set_returns _ t0 0 I0 Ha Hf)
      as (r & t1 & -> & I1 & O1 & P1). destruct (negb (r =? 0)); [by eexists _, _|exact P1].
  - destruct (validate_bg_mode (u32 m)); cbn [negb] in *; [|by eexists _, _].
    destruct (set_aux _ _ _ _) as [st|]; [|by eexists _, _].
    destruct ((u32 m =? TSUKASA_THEME_BG_WALLPAPER) && _).
    + by apply gradient_returns.
    + destruct (set_returns _ t0 0 I0 Ha Hf)
        as (r & t1 & -> & I1 & O1 & P1). destruct (negb (r =? 0)); [|exact P1].
      destruct (u32 m =? _); [by apply drop_returns|by apply save_returns].
  - destruct (validate_wallpaper_path p false) eqn:Ev; cbn [negb] in *; [|by eexists _, _].
    destruct (negb (h =? 0) && _) eqn:Ey; [by eexists _, _|]. destruct p as [p|]; [|done].
    rewrite (proj1 (valid_path_stored _ p false Ev)).
    destruct (h =? 0); cbn [negb] in *; destruct (set_returns _ t0 0 I0 Ha Hf) as (r & t1 & -> & I1 & O1 & P1);
      (destruct (negb (r =? 0)); [by apply drop_returns|exact P1]).
  - destruct o; by eexists _, _.
Qed.

(** C35: the desktop theme under any sequence of commands, from the unloaded state, with any
    configuration files on the disk.  First, the commands return, as long as the file of every
    wallpaper that is to be shown is at least as long as the headers of an image and shorter than
    4 GiB, and its image, if the decoder accepts it, scales to the screen within an [int]
    ([calls_fit]; the others can crash the desktop).  Second, whatever commands with whatever arguments returned before, a command
    that returns starts from a valid theme: it refuses with -1 and changes nothing at all, neither
    the theme nor the desktop nor a file; or the desktop accepts the theme that was asked for, the
    command returns 0 and the theme is that one and is what the desktop shows, a wallpaper loaded
    if that is the mode; or the desktop fails to load its wallpaper, the command returns -1 and the
    desktop shows the gradient - and so does the theme, except after the accent command, which
    keeps the wallpaper it could not load.  Selecting the wallpaper mode without a wallpaper
    returns -1 with the gradient selected and shown.  And the command leaves a valid theme: opaque
    colours, a known mode and style, a clean absolute path, no wallpaper mode without a path. *)
Theorem theme_commands_sound cs c t : g_theme_loaded t = false ->
  (fs_ok (ts_fs t) -> calls_fit (cs ++ [c]) t ->
   exists t1 rc t2, run_theme_calls cs t = Some t1 /\ run_theme_call c t1 = Some (rc, t2) /\ fs_ok (ts_fs t2))
  /\ forall t1 rc t2, run_theme_calls cs t = Some t1 -> run_theme_call c t1 = Some (rc, t2) ->
       exists t0, theme_ensure_loaded t1 = Some t0 /\ theme_ok (g_theme_state t0)
         /\ outcome c t0 rc t2 /\ theme_ok (g_theme_state t2).
Proof.
  intros Hl. assert (g_theme_loaded t = true -> theme_ok (g_theme_state t)) as H0' by congruence. clear Hl. split.
  - revert t H0'. induction cs as [|c' cs IH]; intros t Hok I Hf; cbn [app calls_fit] in Hf; destruct Hf as [Hf Hfs].
    + destruct (theme_call_returns c t I Hok Hf) as (rc & t' & E & I'). by exists t, rc, t'.
    + destruct (theme_call_returns c' t I Hok Hf) as (rc & t' & E & I'). cbn [run_theme_calls]. rewrite E.
      apply (IH t'); [|done|by apply (Hfs rc)]. intros _. by destruct (theme_call_keeps c' t rc t' Hok E) as (? & _ & _ & _ & ?).
  - intros t1 rc t2 E1 E2. apply theme_call_keeps; [|done]. clear E2. revert t E1 H0'.
    induction cs as [|c' cs IH]; intros t; cbn [run_theme_calls]; [by intros [= ->]|].
    destruct (run_theme_call c' t) as [[r t']|] eqn:E; [|done]. intros E1 Hok. apply (IH t' E1). intros _.
    by destruct (theme_call_keeps c' t r t' Hok E) as (t0 & _ & _ & _ & ?).
Qed.
End returns.

(** Boot on a disk with an image of one pixel, a wallpaper that does not exist, a colour, the image,
    and the state after a restart on the same files: the colours are there again. *)
Definition ex_boot_theme : tsys (vst machine) :=
  mkTsys theme_set_defaults false (Wallpaper.desk_init (Wm.wm_zero 4 2)) Bmp.ex_files.
Definition ex_calls : list theme_call := [SetWallpaper (Some (zs "/tmp/none.bmp")) 0 0; SetBgMode 1 0xFF445566 1].
Definition restarted (t : tsys (vst machine)) : tsys (vst machine) :=
  mkTsys theme_set_defaults false (Wallpaper.desk_init (Wm.wm_zero 4 2)) (ts_fs t).

Lemma theme_commands_sound_witness :
  exists t1 rc t2, run_theme_calls ex_calls ex_boot_theme = Some t1
    /\ run_theme_call (SetWallpaper (Some (zs "/fat12/w")) 1 1) t1 = Some (rc, t2)
    /\ rc = 0 /\ theme_ok (g_theme_state t2) /\ Wallpaper.wallpaper_pixels (ts_desk t2) <> None.
Proof.
  destruct (theme_commands_sound ex_calls (SetWallpaper (Some (zs "/fat12/w")) 1 1) ex_boot_theme) as [Hret Hout].
  - reflexivity.
  - destruct Hret as (t1 & rc & t2 & E1 & E2 & _).
    + apply boot_fs_ok.
    + apply calls_fit_b_ok. vm_compute. reflexivity.
    + exists t1, rc, t2. split; [exact E1|]. split; [exact E2|].
      destruct (Hout t1 rc t2 E1 E2) as (_ & _ & _ & _ & Hok).
      assert (match run_theme_calls ex_calls ex_boot_theme with
              | Some t1 => match run_theme_call (SetWallpaper (Some (zs "/fat12/w")) 1 1) t1 with
                           | Some (rc, t2) => (rc =? 0) && bool_decide (Wallpaper.wallpaper_pixels (ts_desk t2) <> None)
                           | None => false end
              | None => false end = true) as E by (vm_compute; reflexivity).
      rewrite E1, E2 in E. apply andb_prop in E as [E3 E4]. apply Z.eqb_eq in E3. apply bool_decide_eq_true in E4.
      split; [exact E3|]. split; [exact Hok|exact E4].
Defined.

Lemma theme_survives_restart :
  match run_theme_calls (ex_calls ++ [SetAccent 0xFF112233]) ex_boot_theme with
  | Some t => option_map g_theme_state (theme_ensure_loaded (restarted t))
  | None => None
  end = Some (mkTheme 0xFF112233 TSUKASA_THEME_BG_SOLID 0xFF445566 TSUKASA_THEME_WP_SCALE_FILL
                0 []).
Proof. vm_compute. reflexivity. Qed.
