(* ===== verification/CompilerRt.v ===== *)
(** The 64-bit division helpers of the 32-bit build ([src/lib/compiler_rt.c]): shift-and-subtract
    division against the division of the integers. *)

From S2P Require Import Prelude.

(** Two's complement reading of 64 bits. *)
Definition i64 (z : Z) : Z := let w := u64 z in if w <? 0x8000000000000000 then w else w - 0x10000000000000000.

(** [while (den <= (num >> 1)) { den <<= 1; shift++; }]; [None] when the fuel is used up. *)
Fixpoint align_loop (n : nat) (num den shift : Z) : option (Z * Z) :=
  match n with
  | O => None
  | S n' => if den <=? Z.shiftr num 1 then align_loop n' num (u64 (Z.shiftl den 1)) (shift + 1)
            else Some (den, shift)
  end.

(** [while (shift >= 0)]: [n] is [shift + 1]. *)
Fixpoint subtract_loop (n : nat) (num den q : Z) : Z * Z :=
  match n with
  | O => (q, num)
  | S n' =>
      let q := u64 (Z.shiftl q 1) in
      let '(num, q) := if den <=? num then (u64 (num - den), Z.lor q 1) else (num, q) in
      subtract_loop n' num (Z.shiftr den 1) q
  end.

(** The quotient and the remainder. *)
Definition udivmod64 (num den : Z) : option (Z * Z) :=
  if den =? 0 then Some (0, 0) else
  if num <? den then Some (0, num) else
  match align_loop 64 num den 0 with
  | Some (den, shift) => Some (subtract_loop (Z.to_nat (shift + 1)) num den 0)
  | None => None
  end.

Definition udivmoddi4 (num den : Z) : option (Z * Z) := udivmod64 num den.
Definition udivdi3 (num den : Z) : option Z := option_map fst (udivmod64 num den).
Definition umoddi3 (num den : Z) : option Z := option_map snd (udivmod64 num den).

Definition abs_s64_to_u64 (v : Z) : Z :=
  let uv := u64 v in
  if 0 <=? v then uv else u64 (u64 (Z.lnot uv) + 1).

Definition divdi3 (num den : Z) : option Z :=
  let neg := negb (Bool.eqb (num <? 0) (den <? 0)) in
  match udivmod64 (abs_s64_to_u64 num) (abs_s64_to_u64 den) with
  | Some (uq, _) => let q := i64 uq in Some (if neg then i64 (- q) else q)
  | None => None
  end.

Definition moddi3 (num den : Z) : option Z :=
  match udivmod64 (abs_s64_to_u64 num) (abs_s64_to_u64 den) with
  | Some (_, rem) => Some (if num <? 0 then i64 (- i64 rem) else i64 rem)
  | None => None
  end.

(** ** The loops *)

Lemma align_loop_spec n num d s :
  0 < d -> 0 <= s -> is_u64 num -> d * 2 ^ s <= num -> num < 2 ^ (s + Z.of_nat n) * d ->
  exists s', align_loop n num (d * 2 ^ s) s = Some (d * 2 ^ s', s')
    /\ s <= s' /\ d * 2 ^ s' <= num < d * 2 ^ (s' + 1).
Proof.
  revert s. induction n as [|n IH]; intros s Hd Hs Hn Hle Hlt.
  { rewrite Z.add_0_r in Hlt. lia. }
  cbn [align_loop]. rewrite Z.shiftr_div_pow2 by lia. change (2 ^ 1) with 2. unfold is_u64 in Hn.
  assert (2 ^ (s + 1) = 2 * 2 ^ s) as E by (rewrite Z.pow_add_r by lia; lia).
  destruct (Z.leb_spec (d * 2 ^ s) (num / 2)) as [Hge|Hgt].
  - assert (d * 2 ^ (s + 1) <= num) as Hle' by (rewrite E; Z.div_mod_to_equations; nia).
    replace (u64 (Z.shiftl (d * 2 ^ s) 1)) with (d * 2 ^ (s + 1)).
    2: { rewrite Z.shiftl_mul_pow2 by lia. change (2 ^ 1) with 2. rewrite u64_id by (unfold is_u64; nia). rewrite E. lia. }
    destruct (IH (s + 1)) as (s' & E' & Hs' & Hb); [done|lia|done|done| |].
    { replace (s + 1 + Z.of_nat n) with (s + Z.of_nat (S n)) by lia. done. }
    exists s'. split; [exact E'|]. split; [lia|done].
  - exists s. split; [done|]. split; [lia|]. split; [done|]. rewrite E. Z.div_mod_to_equations; nia.
Qed.

Lemma subtract_loop_spec n num d q :
  0 < d -> 0 <= q -> 0 <= num < d * 2 ^ Z.of_nat n -> q * 2 ^ Z.of_nat n + num / d < 2 ^ 64 ->
  num < 2 ^ 64 ->
  subtract_loop n num (match n with O => 0 | S m => d * 2 ^ Z.of_nat m end) q
  = (q * 2 ^ Z.of_nat n + num / d, num mod d).
Proof.
  revert num q. induction n as [|n IH]; intros num q Hd Hq Hn Hb H64.
  { rewrite Z.pow_0_r in *. cbn [subtract_loop]. rewrite Z.div_small, Z.mod_small by lia. f_equal. lia. }
  cbn [subtract_loop]. rewrite Nat2Z.inj_succ, Z.pow_succ_r in * by lia. set (p := 2 ^ Z.of_nat n) in *.
  assert (1 <= p) by (unfold p; pose proof (Z.pow_pos_nonneg 2 (Z.of_nat n)); lia).
  assert (0 <= num / d) by (apply Z.div_pos; lia).
  assert (Z.shiftr (d * p) 1 = match n with O => Z.shiftr d 1 | S m => d * 2 ^ Z.of_nat m end) as Esh.
  { destruct n as [|m]; [unfold p; f_equal; lia|]. unfold p. rewrite Nat2Z.inj_succ, Z.pow_succ_r by lia.
    rewrite Z.shiftr_div_pow2 by lia. change (2 ^ 1) with 2.
    replace (d * (2 * 2 ^ Z.of_nat m)) with (d * 2 ^ Z.of_nat m * 2) by lia. apply Z.div_mul. lia. }
  assert (forall num' q', 0 <= q' -> 0 <= num' < d * p -> q' * p + num' / d < 2 ^ 64 -> num' < 2 ^ 64 ->
            subtract_loop n num' (Z.shiftr (d * p) 1) q' = (q' * p + num' / d, num' mod d)) as IH'.
  { intros num' q' Hq' Hn' Hb' H64'. rewrite Esh. destruct n as [|m]; [|by apply IH].
    cbn [subtract_loop]. unfold p in *. change (2 ^ Z.of_nat 0) with 1 in *.
    rewrite Z.div_small, Z.mod_small by lia. f_equal. lia. }
  clear IH. assert (u64 (Z.shiftl q 1) = 2 * q) as ->.
  { rewrite Z.shiftl_mul_pow2 by lia. change (2 ^ 1) with 2. rewrite u64_id; [lia|]. unfold is_u64. nia. }
  destruct (Z.leb_spec (d * p) num) as [Hge|Hlt].
  - assert (Z.lor (2 * q) 1 = 2 * q + 1) as ->.
    { pose proof (lor_shiftl_add 1 q 1 ltac:(lia) ltac:(lia)) as El. rewrite Z.shiftl_mul_pow2 in El by lia.
      change (2 ^ 1) with 2 in El. by rewrite Z.lor_comm, (Z.mul_comm 2), El, Z.add_comm. }
    rewrite u64_id by (unfold is_u64; nia).
    assert (num / d = p + (num - d * p) / d) as Ed.
    { replace num with (num - d * p + p * d) at 1 by lia. rewrite Z.div_add by lia. lia. }
    rewrite IH' by nia. replace (num - d * p) with (num + (- p) * d) by lia. rewrite Z.mod_add, Z.div_add by lia.
    f_equal. lia.
  - rewrite IH' by nia. f_equal. lia.
Qed.

Lemma udivmod64_div num den : is_u64 num -> is_u64 den ->
  udivmod64 num den = Some (if den =? 0 then (0, 0) else (num / den, num mod den)).
Proof.
  intros Hn Hd. unfold is_u64 in *. unfold udivmod64. destruct (Z.eqb_spec den 0) as [->|Hne]; [done|].
  destruct (Z.ltb_spec num den) as [Hlt|Hge]; [by rewrite Z.div_small, Z.mod_small by lia|].
  assert (num < 2 ^ (0 + Z.of_nat 64) * den) as Hb by (change (2 ^ (0 + Z.of_nat 64)) with 18446744073709551616; nia).
  destruct (align_loop_spec 64 num den 0) as (s & E & Hs & H1 & H2); [lia|lia|done|lia|done|].
  rewrite Z.mul_1_r in E. rewrite E.
  replace (Z.to_nat (s + 1)) with (S (Z.to_nat s)) by lia.
  assert (2 ^ Z.of_nat (S (Z.to_nat s)) = 2 ^ (s + 1)) as Ep by (f_equal; lia).
  assert (num / den < 2 ^ 64) as Hq by (apply Z.div_lt_upper_bound; lia).
  pose proof (subtract_loop_spec (S (Z.to_nat s)) num den 0) as Hsub. rewrite Ep, Z2Nat.id in Hsub by lia.
  rewrite Z.mul_0_l in Hsub. rewrite Hsub by lia. done.
Qed.

Lemma i64_range z : -0x8000000000000000 <= i64 z < 0x8000000000000000.
Proof. unfold i64. destruct (Z.ltb_spec (u64 z) 0x8000000000000000); wsolve. Qed.

Lemma i64_id z : -0x8000000000000000 <= z < 0x8000000000000000 -> i64 z = z.
Proof. intros Hz. unfold i64. destruct (Z.ltb_spec (u64 z) 0x8000000000000000); wsolve. Qed.

Lemma i64_opp z : i64 (- i64 z) = i64 (- z).
Proof.
  unfold i64. set (w := u64 z). assert (u64 (- z) = u64 (- w)) as -> by (unfold w; wsolve).
  destruct (Z.ltb_spec w 0x8000000000000000); [done|].
  replace (u64 (- (w - 18446744073709551616))) with (u64 (- w)); [done|]. clearbody w. wsolve.
Qed.

Lemma abs_s64 v : -0x8000000000000000 <= v < 0x8000000000000000 -> abs_s64_to_u64 v = Z.abs v.
Proof.
  intros Hv. unfold abs_s64_to_u64, Z.lnot. destruct (Z.leb_spec 0 v); [rewrite u64_id by (unfold is_u64; lia); lia|].
  replace (u64 v) with (v + 0x10000000000000000) by wsolve. wsolve.
Qed.

(** The software division is division.  For every 64-bit numerator and denominator
    [udivmod64] returns - its loop ends within 64 rounds - and gives the quotient and the remainder
    of the integers, or zeroes for a zero denominator; the signed [__divdi3] and [__moddi3] round
    toward zero as C does, for all operands, the smallest number included; the one quotient that
    does not fit wraps. *)
Theorem udivmod64_exact num den :
  is_u64 num -> is_u64 den ->
  udivmod64 num den = Some (if den =? 0 then (0, 0) else (num / den, num mod den))
  /\ (den <> 0 -> divdi3 (i64 num) (i64 den) = Some (i64 (Z.quot (i64 num) (i64 den)))
                  /\ moddi3 (i64 num) (i64 den) = Some (Z.rem (i64 num) (i64 den))).
Proof.
  intros Hn Hd. split; [by apply udivmod64_div|]. intros Hne.
  assert (i64 den <> 0) as Hne' by (unfold i64, is_u64 in *; rewrite (u64_id den) by done; case_match; lia).
  pose proof (i64_range num) as Ha. pose proof (i64_range den) as Hb. revert Ha Hb Hne'.
  generalize (i64 num) (i64 den). clear. intros a b Ha Hb Hb0.
  unfold divdi3, moddi3. rewrite !abs_s64, !udivmod64_div by (done || (unfold is_u64; lia)).
  rewrite (proj2 (Z.eqb_neq (Z.abs b) 0)) by lia.
  pose proof (Z.div_pos (Z.abs a) (Z.abs b)) as Hq. pose proof (Z.mod_pos_bound (Z.abs a) (Z.abs b)) as Hr.
  assert (Z.abs a mod Z.abs b <= Z.abs a) as Hra by (apply Z.mod_le; lia).
  destruct (decide (a = 0)) as [->|Ha0].
  { rewrite Z.quot_0_l, Z.rem_0_l by done. change (Z.abs 0) with 0. rewrite Z.div_0_l, Z.mod_0_l by lia.
    split; [by destruct (negb _)|done]. }
  rewrite Z.quot_div, Z.rem_mod by done. split.
  - rewrite i64_opp. set (q := Z.abs a / Z.abs b) in *. clearbody q. f_equal.
    destruct (Z.ltb_spec a 0), (Z.ltb_spec b 0); cbn [Bool.eqb negb]; f_equal.
    + rewrite (Z.sgn_neg a), (Z.sgn_neg b) by lia. lia.
    + rewrite (Z.sgn_neg a), (Z.sgn_pos b) by lia. lia.
    + rewrite (Z.sgn_pos a), (Z.sgn_neg b) by lia. lia.
    + rewrite (Z.sgn_pos a), (Z.sgn_pos b) by lia. lia.
  - set (r := Z.abs a mod Z.abs b) in *. clearbody r. f_equal.
    destruct (Z.ltb_spec a 0).
    + rewrite (Z.sgn_neg a) by lia. rewrite i64_opp, i64_id by lia. lia.
    + rewrite (Z.sgn_pos a) by lia. rewrite i64_id by lia. lia.
Qed.

Lemma udivmod64_exact_witness :
  udivmod64 0xFFFFFFFFFFFFFFFF 10 = Some (1844674407370955161, 5)
  /\ divdi3 (-0x8000000000000000) (-1) = Some (-0x8000000000000000) /\ moddi3 (-7) 2 = Some (-1).
Proof.
  split; [|split].
  - apply (udivmod64_exact 0xFFFFFFFFFFFFFFFF 10); split; (discriminate || reflexivity).
  - apply (udivmod64_exact 0x8000000000000000 0xFFFFFFFFFFFFFFFF); try (split; (discriminate || reflexivity)). discriminate.
  - apply (udivmod64_exact 0xFFFFFFFFFFFFFFF9 2); try (split; (discriminate || reflexivity)). discriminate.
Defined.
