(* ===== verification/Tty.v ===== *)
(** Terminals: [src/tty/tty.c] over the process table of [Process].

    Every function of the file is one critical section of [g_tty_lock]; [tty_kill_foreground] calls
    [process_kill_pgid] after it has left that section. *)

From S2P Require Import Prelude Pmm Paging Vmm VmSpace ProcessData Shm Process RunQueue ProcessSched Scheduler.

Definition TTY_MAX : Z := 8.
Definition SC_CTRL : Z := 29.
Definition SC_C : Z := 46.

Record tty_slot := mkTtySlot { tty_used : bool; fg_pgid : Z }.
#[export] Instance tty_slot_rebuild : Rebuild tty_slot := fun t => mkTtySlot (tty_used t) (fg_pgid t).
#[export] Instance tty_slot_inhabited : Inhabited tty_slot := populate (mkTtySlot false 0).

Record ttys := mkTtys { g_ttys : list tty_slot; g_active_tty : Z; g_ctrl_down : bool }.
#[export] Instance ttys_rebuild : Rebuild ttys := fun t => mkTtys (g_ttys t) (g_active_tty t) (g_ctrl_down t).

(** The statics at boot, before [tty_init]. *)
Definition ttys_zero : ttys := mkTtys (repeat (mkTtySlot false 0) 8) 0 false.

Definition free_tty : tty_slot := mkTtySlot false (-1).
Definition new_tty : tty_slot := mkTtySlot true (-1).

Definition tty_init (t : ttys) : ttys :=
  let a := for_up (Z.to_nat TTY_MAX) 0 (fun i => aset i free_tty) (g_ttys t) in
  mkTtys (aset 0 new_tty a) 0 false.

Definition tty_create (t : ttys) : Z * ttys :=
  match find_index (fun x => negb (tty_used x)) (g_ttys t) with
  | Some i => (i, t <| g_ttys := aset i new_tty (g_ttys t) |>)
  | None => (-1, t)
  end.

Definition bad_tty (id : Z) : bool := (id <? 0) || (TTY_MAX <=? id).

Definition tty_destroy (id : Z) (t : ttys) : Z * ttys :=
  if bad_tty id || (id =? 0) then (-1, t) else
  if negb (tty_used (aget (g_ttys t) id)) then (-1, t) else
  (0, t <| g_ttys := aset id free_tty (g_ttys t) |>
        <| g_active_tty := if g_active_tty t =? id then 0 else g_active_tty t |>).

Definition tty_get_active (t : ttys) : Z := g_active_tty t.

Definition tty_set_active (id : Z) (t : ttys) : Z * ttys :=
  if bad_tty id then (-1, t) else
  if negb (tty_used (aget (g_ttys t) id)) then (-1, t) else (0, t <| g_active_tty := id |>).

Definition tty_set_foreground_pgid (id pgid : Z) (t : ttys) : Z * ttys :=
  if bad_tty id then (-1, t) else
  if negb (tty_used (aget (g_ttys t) id)) then (-1, t) else
  (0, t <| g_ttys := aset id (aget (g_ttys t) id <| fg_pgid := pgid |>) (g_ttys t) |>).

Definition tty_get_foreground_pgid (id : Z) (t : ttys) : Z :=
  if bad_tty id then -1 else
  if tty_used (aget (g_ttys t) id) then fg_pgid (aget (g_ttys t) id) else -1.

Section tty.
Context {E : Type} `{ProcessEnvLaws E}.
Implicit Types (s : sched E) (t : ttys).

Definition tty_kill_foreground (id sig : Z) (t : ttys) s : Z * sched E :=
  if bad_tty id then (-1, s) else
  if negb (tty_used (aget (g_ttys t) id)) then (-1, s) else
  let pgid := fg_pgid (aget (g_ttys t) id) in
  if pgid <=? 0 then (0, s) else process_kill_pgid pgid sig s.

Definition tty_handle_scancode (scancode : Z) (pressed : bool) (ts : ttys * sched E) : ttys * sched E :=
  let '(t, s) := ts in
  if scancode =? SC_CTRL then (t <| g_ctrl_down := pressed |>, s) else
  if negb pressed then (t, s) else
  if g_ctrl_down t && (scancode =? SC_C)
  then (t, (tty_kill_foreground (tty_get_active t) PROCESS_SIGINT t s).2)
  else (t, s).

(** ** Signalling a process group *)

Definition in_group (g : Z) (p : process) : bool :=
  used p && negb (bool_decide (state p = PROCESS_DEAD)) && negb (bool_decide (state p = PROCESS_ZOMBIE))
  && (i32 (pgid p) =? g).

(** What a signal other than SIGKILL does to a process: the bit is pending and a blocked process is
    ready. *)
Definition signalled (sig : Z) (p : process) : process :=
  let p := p <| signal_pending := Z.lor (signal_pending p) (sig_bit sig) |> in
  if bool_decide (state p = PROCESS_BLOCKED) then set_state PROCESS_READY THREAD_READY p else p.

(** What signalling leaves alone. *)
Definition same_but_procs s s' : Prop :=
  g_current s' = g_current s /\ g_idle s' = g_idle s /\ g_next_pid s' = g_next_pid s /\ s_env s' = s_env s.

Lemma signal_process_step s k sig :
  sched_ok s -> slot_ok k -> used (proc s k) = true -> sig <> PROCESS_SIGKILL ->
  same_but_procs s (signal_process k sig s)
  /\ forall j, slot_ok j ->
       links_only (if decide (j = k) then signalled sig (proc s k) else proc s j) (proc (signal_process k sig s) j).
Proof.
  intros Hok Hk Hu Hs. unfold signal_process. rewrite (proj2 (Z.eqb_neq _ _) Hs).
  set (f := fun p => p <| signal_pending := _ |>). assert (sched_ok (upd k f s)) as [Q I] by (by apply ok_upd).
  pose proof (q_len _ _ (si_q _ _ _ I)) as Hl1. assert (length (g_processes s) = 256%nat) as Hl.
  { unfold upd in Hl1. by rewrite length_set_proc in Hl1. }
  assert (forall j, slot_ok j -> proc (upd k f s) j = if decide (j = k) then f (proc s k) else proc s j) as Hp.
  { intros j Hj. unfold upd. by rewrite proc_set_proc by (done || (unfold slot_ok in *; lia)). }
  assert (signalled sig (proc s k) = if bool_decide (state (proc s k) = PROCESS_BLOCKED)
            then set_state PROCESS_READY THREAD_READY (f (proc s k)) else f (proc s k)) as Es by done.
  assert (proc (upd k f s) k = f (proc s k)) as Hpk by (rewrite Hp, decide_True; done).
  assert (state (proc (upd k f s) k) = state (proc s k)) as Est by (by rewrite Hpk).
  assert (used (proc (upd k f s) k) = true) as Hu1 by (by rewrite Hpk).
  assert (same_but_procs s (upd k f s)) as Hsame by done.
  rewrite Est, Es. set (s1 := upd k f s) in *. clearbody s1.
  case_bool_decide as Hb.
  2: { split; [exact Hsame|]. intros j Hj. rewrite Hp by done. apply links_only_refl. }
  set (g := set_state PROCESS_READY THREAD_READY). set (s2 := upd k g s1).
  assert (g_idle s1 <> Some k) as Hi.
  { intros Hi. destruct (si_idle _ _ _ I k Hi) as [_ Hn]. apply Hn; [done|congruence]. }
  assert (sched_inv (Some k) s2 Q) as I2.
  { unfold s2, upd. apply inv_hole; [|done|exact (si_pri _ _ _ I k Hk)|exact (si_ptr _ _ _ I k Hk)].
    apply inv_open; [done|done|]. intros (_ & Hr & _). congruence. }
  assert (unqueued Q k) as Hun.
  { intros pri Hpri Hin. destruct (proj1 (si_ready _ _ _ I2 k Hk)) as [_ Hn]; [by exists pri|]. by apply Hn. }
  destruct (runq_push_queues s2 Q k (si_q _ _ _ I2) Hk Hun (si_pri _ _ _ I2 k Hk)) as [_ L].
  split.
  { destruct Hsame as (A1 & A2 & A3 & A4). destruct L as [_ _ B1 B2 B3 _ B4]. unfold s2 in *. cbn in *.
    split; [congruence|]. split; [congruence|]. split; congruence. }
  intros j Hj. replace (if decide (j = k) then g (f (proc s k)) else proc s j) with (proc s2 j).
  { apply (lk_proc _ _ L). unfold slot_ok in Hj. lia. }
  unfold s2, upd. rewrite proc_set_proc by (done || (unfold slot_ok in *; lia)). case_decide as D; [by rewrite Hpk|].
  rewrite Hp by done. by rewrite decide_False.
Qed.

Lemma links_in_group g p p' : links_only p p' -> in_group g p' = in_group g p.
Proof. intros ->. done. Qed.

(** Signalling a group: the calling convention of the loop of [process_kill_pgid]. *)
Lemma kill_pgid_spec s g sig :
  sched_ok s -> 0 < g -> 0 < sig < PROCESS_MAX_SIGNALS -> sig <> PROCESS_SIGKILL ->
  exists s', process_kill_pgid g sig s = (count_true (fun j => in_group g (proc s j)) 256, s')
    /\ sched_ok s' /\ same_but_procs s s'
    /\ forall j, slot_ok j ->
         links_only (if in_group g (proc s j) then signalled sig (proc s j) else proc s j) (proc s' j).
Proof.
  intros Hok Hg Hsig Hk. unfold process_kill_pgid.
  rewrite (proj2 (Z.leb_gt g 0)), (proj2 (Z.leb_gt sig 0)), (proj2 (Z.leb_gt PROCESS_MAX_SIGNALS sig)) by lia.
  cbn [orb]. set (body := fun i '(count, s0) => _).
  pose (I := fun (i : Z) (r : Z * sched E) => r.1 = count_true (fun j => in_group g (proc s j)) (Z.to_nat i)
    /\ sched_ok r.2 /\ same_but_procs s r.2
    /\ forall j, slot_ok j -> links_only (if (j <? i) && in_group g (proc s j) then signalled sig (proc s j)
                                          else proc s j) (proc r.2 j)).
  assert (I 256 (for_up (Z.to_nat PROCESS_MAX_COUNT) 0 body (0, s))) as HI.
  { apply (for_up_inv I (Z.to_nat PROCESS_MAX_COUNT) 0).
    { split; [done|]. split; [done|]. split; [done|]. intros j Hj. unfold slot_ok in Hj.
      rewrite (proj2 (Z.ltb_ge j 0)) by lia. apply links_only_refl. }
    intros i [c s1] Hi (I1 & I2 & I3 & I4). cbn [fst snd] in *. change (Z.of_nat (Z.to_nat PROCESS_MAX_COUNT)) with 256 in Hi.
    assert (slot_ok i) as Hsi by (unfold slot_ok; lia). pose proof (I4 i Hsi) as Hli. rewrite Z.ltb_irrefl in Hli. cbn [andb] in Hli.
    assert (body i (c, s1) = if in_group g (proc s1 i) then (c + 1, signal_process i sig s1) else (c, s1)) as ->.
    { unfold body, in_group. destruct (used _); [|done]. cbn [negb orb andb].
      destruct (bool_decide (_ = PROCESS_DEAD)); [done|]. destruct (bool_decide (_ = PROCESS_ZOMBIE)); [done|].
      cbn [negb orb andb]. by destruct (_ =? g). }
    rewrite (links_in_group _ _ _ Hli). unfold I. replace (Z.to_nat (i + 1)) with (S (Z.to_nat i)) by lia.
    cbn [count_true]. rewrite Z2Nat.id by lia. rewrite <- I1.
    assert (forall j, slot_ok j -> j <> i -> (j <? i + 1) = (j <? i)) as Hlt.
    { intros j _ Hne. destruct (Z.ltb_spec j i), (Z.ltb_spec j (i + 1)); lia. }
    assert ((i <? i + 1) = true) as Hii by (apply Z.ltb_lt; lia).
    destruct (in_group g (proc s i)) eqn:Hin; cbn [fst snd b2z].
    - assert (used (proc s1 i) = true) as Hu.
      { rewrite <- (links_in_group _ _ _ Hli) in Hin. unfold in_group in Hin. by destruct (used (proc s1 i)). }
      destruct (signal_process_step s1 i sig I2 Hsi Hu Hk) as [J1 J2].
      split; [done|]. split; [by apply ok_signal_process|]. split.
      { destruct I3 as (A1 & A2 & A3 & A4), J1 as (B1 & B2 & B3 & B4). repeat split; congruence. }
      intros j Hj. specialize (J2 j Hj). case_decide as D.
      + subst j. rewrite Hii, Hin. cbn [andb]. eapply links_only_trans; [|exact J2].
        rewrite Hli. unfold signalled. cbn. by destruct (bool_decide _).
      + rewrite (Hlt j Hj D). eapply links_only_trans; [|exact J2]. by apply I4.
    - split; [lia|]. split; [done|]. split; [done|]. intros j Hj. destruct (decide (j = i)) as [->|D].
      + rewrite Hin, andb_false_r. exact Hli.
      + rewrite (Hlt j Hj D). by apply I4. }
  destruct (for_up _ 0 body _) as [c s'] eqn:Ef. destruct HI as (I1 & I2 & I3 & I4). cbn [fst snd] in *.
  exists s'. rewrite I1. split; [done|]. split; [done|]. split; [done|]. intros j Hj. specialize (I4 j Hj).
  unfold slot_ok in Hj. by rewrite (proj2 (Z.ltb_lt j 256)) in I4 by lia.
Qed.

(** ** Terminals as a finite map

    The specification: the foreground group of each terminal that exists, the active terminal and
    whether Ctrl is held.  Terminal 0 always exists. *)

Record term := mkTerm { fgs : gmap Z Z; active : Z; ctrl : bool }.

Definition term_ids : list Z := [0; 1; 2; 3; 4; 5; 6; 7].
Definition term_init : term := mkTerm {[0 := -1]} 0 false.
Definition term_create (a : term) : Z * term :=
  match find_index (fun i => bool_decide (fgs a !! i = None)) term_ids with
  | Some i => (i, mkTerm (<[i := -1]> (fgs a)) (active a) (ctrl a))
  | None => (-1, a)
  end.
Definition term_destroy (id : Z) (a : term) : Z * term :=
  if decide (id = 0 \/ fgs a !! id = None) then (-1, a)
  else (0, mkTerm (delete id (fgs a)) (if decide (active a = id) then 0 else active a) (ctrl a)).
Definition term_set_active (id : Z) (a : term) : Z * term :=
  if decide (fgs a !! id = None) then (-1, a) else (0, mkTerm (fgs a) id (ctrl a)).
Definition term_set_fg (id pg : Z) (a : term) : Z * term :=
  if decide (fgs a !! id = None) then (-1, a) else (0, mkTerm (<[id := pg]> (fgs a)) (active a) (ctrl a)).
(** The group a signal sent through terminal [id] goes to. *)
Definition term_target (id : Z) (a : term) : option Z :=
  match fgs a !! id with Some pg => if 0 <? pg then Some pg else None | None => None end.

Definition term_slot (x : tty_slot) : option Z := if tty_used x then Some (fg_pgid x) else None.

Record tty_rep t (a : term) : Prop := {
  tr_len : length (g_ttys t) = 8%nat;
  tr_map : forall i, fgs a !! i = if bad_tty i then None else term_slot (aget (g_ttys t) i);
  tr_zero : is_Some (fgs a !! 0);
  tr_active : active a = g_active_tty t /\ is_Some (fgs a !! active a);
  tr_ctrl : ctrl a = g_ctrl_down t;
}.

Lemma bad_tty_false i : bad_tty i = false <-> 0 <= i < 8.
Proof. unfold bad_tty, TTY_MAX. rewrite orb_false_iff, Z.ltb_ge, Z.leb_gt. lia. Qed.

Lemma tty_present t a id : tty_rep t a ->
  fgs a !! id = None <-> bad_tty id = true \/ bad_tty id = false /\ tty_used (aget (g_ttys t) id) = false.
Proof. intros R. rewrite (tr_map _ _ R). unfold term_slot. destruct (bad_tty id), (tty_used _); naive_solver. Qed.

Lemma tty_absent_guard {B} t a id (x y : B) : tty_rep t a ->
  (if bad_tty id then x else if negb (tty_used (aget (g_ttys t) id)) then x else y)
  = if decide (fgs a !! id = None) then x else y.
Proof.
  intros R. pose proof (tty_present _ _ id R) as Hp.
  destruct (bad_tty id), (tty_used _); cbn [negb]; case_decide; naive_solver.
Qed.

(** A store into one slot. *)
Lemma tty_rep_store t a id x m : tty_rep t a -> 0 <= id < 8 ->
  fgs m = partial_alter (fun _ => term_slot x) id (fgs a) -> is_Some (fgs m !! 0) ->
  active m = g_active_tty t -> is_Some (fgs m !! active m) -> ctrl m = g_ctrl_down t ->
  tty_rep (t <| g_ttys := aset id x (g_ttys t) |>) m.
Proof.
  intros R Hid Em Hz Ha Has Hc. split; fields; try done.
  - cbn [g_ttys]. rewrite length_aset. apply R.
  - cbn [g_ttys]. intros i. rewrite Em. pose proof (tr_len _ _ R). destruct (decide (i = id)) as [->|Hne].
    + rewrite lookup_partial_alter_eq, (proj2 (bad_tty_false id)) by done. rewrite aget_aset_eq; [done|lia].
    + rewrite lookup_partial_alter_ne by done. rewrite (tr_map _ _ R). destruct (bad_tty i) eqn:Eb; [done|].
      apply bad_tty_false in Eb. by rewrite aget_aset_ne by lia.
Qed.

Lemma tty_init_rep t : length (g_ttys t) = 8%nat -> tty_rep (tty_init t) term_init.
Proof.
  intros Hl. unfold tty_init. destruct (g_ttys t) as [|x0 [|x1 [|x2 [|x3 [|x4 [|x5 [|x6 [|x7 [|]]]]]]]]]; try done.
  split; [done| |done|done|done]. intros i. unfold term_init. cbn [fgs]. destruct (bad_tty i) eqn:Eb.
  - rewrite lookup_singleton_ne; [done|]. intros <-. done.
  - apply bad_tty_false in Eb.
    assert (i = 0 \/ i = 1 \/ i = 2 \/ i = 3 \/ i = 4 \/ i = 5 \/ i = 6 \/ i = 7) as Hi by lia.
    destruct Hi as [->|[->|[->|[->|[->|[->|[->| ->]]]]]]]; done.
Qed.

Lemma tty_create_refines t a : tty_rep t a ->
  (tty_create t).1 = (term_create a).1 /\ tty_rep (tty_create t).2 (term_create a).2.
Proof.
  intros R. unfold tty_create, term_create. pose proof (tr_len _ _ R) as Hl.
  assert (find_index (fun x => negb (tty_used x)) (g_ttys t)
          = find_index (fun i => bool_decide (fgs a !! i = None)) term_ids) as ->.
  { assert (forall i, 0 <= i < 8 -> bool_decide (fgs a !! i = None) = negb (tty_used (aget (g_ttys t) i))) as Hd.
    { intros i Hi. rewrite (tr_map _ _ R), (proj2 (bad_tty_false i) Hi). unfold term_slot. by destruct (tty_used _). }
    destruct (g_ttys t) as [|x0 [|x1 [|x2 [|x3 [|x4 [|x5 [|x6 [|x7 [|]]]]]]]]]; try done.
    unfold find_index, term_ids. cbn [find_from]. rewrite !Hd by lia. done. }
  destruct (find_index _ term_ids) as [i|] eqn:Ef; [|done]. split; [done|]. cbn [snd].
  apply find_index_Some in Ef as (Hi & Hn & _). change (Z.of_nat (length term_ids)) with 8 in Hi.
  assert (aget term_ids i = i) as Ei.
  { assert (i = 0 \/ i = 1 \/ i = 2 \/ i = 3 \/ i = 4 \/ i = 5 \/ i = 6 \/ i = 7) as Hc by lia.
    destruct Hc as [->|[->|[->|[->|[->|[->|[->| ->]]]]]]]; done. }
  destruct (tr_active _ _ R) as [Ha Has]. apply (tty_rep_store t a); try done.
  - cbn [fgs]. apply lookup_insert_is_Some'. right. apply R.
  - cbn [fgs active]. apply lookup_insert_is_Some'. by right.
  - apply (tr_ctrl _ _ R).
Qed.

Lemma tty_destroy_refines id t a : tty_rep t a ->
  (tty_destroy id t).1 = (term_destroy id a).1 /\ tty_rep (tty_destroy id t).2 (term_destroy id a).2.
Proof.
  intros R. unfold tty_destroy, term_destroy. destruct (Z.eqb_spec id 0) as [->|Hne].
  { rewrite orb_true_r, decide_True by (by left). done. }
  rewrite orb_false_r, (tty_absent_guard t a) by done. destruct (decide (fgs a !! id = None)) as [D|D].
  { rewrite decide_True by (by right). done. }
  rewrite decide_False by naive_solver. split; [done|]. cbn [snd].
  destruct (bad_tty id) eqn:Eb; [exfalso; apply D; by rewrite (tr_map _ _ R), Eb|]. apply bad_tty_false in Eb.
  destruct (tr_active _ _ R) as [Ha Has].
  set (t1 := t <| g_active_tty := if g_active_tty t =? id then 0 else g_active_tty t |>).
  change (t <| g_ttys := aset id free_tty (g_ttys t) |>
            <| g_active_tty := if g_active_tty t =? id then 0 else g_active_tty t |>)
    with (t1 <| g_ttys := aset id free_tty (g_ttys t1) |>).
  apply (tty_rep_store t1 (mkTerm (fgs a) (if decide (active a = id) then 0 else active a) (ctrl a))); try done.
  - split; try apply R. cbn. split; [|case_decide; [apply R|done]].
    rewrite Ha. destruct (Z.eqb_spec (g_active_tty t) id); case_decide; done.
  - cbn [fgs]. rewrite lookup_delete_ne by done. apply R.
  - cbn. rewrite Ha. destruct (Z.eqb_spec (g_active_tty t) id); case_decide; done.
  - cbn [fgs active]. case_decide; rewrite lookup_delete_ne by done; [apply R|done].
  - apply (tr_ctrl _ _ R).
Qed.

Lemma tty_set_active_refines id t a : tty_rep t a ->
  (tty_set_active id t).1 = (term_set_active id a).1 /\ tty_rep (tty_set_active id t).2 (term_set_active id a).2.
Proof.
  intros R. unfold tty_set_active, term_set_active. rewrite (tty_absent_guard t a) by done.
  case_decide as D; [done|]. split; [done|]. split; try apply R. cbn. split; [done|]. by apply not_eq_None_Some.
Qed.

Lemma tty_set_fg_refines id pg t a : tty_rep t a ->
  (tty_set_foreground_pgid id pg t).1 = (term_set_fg id pg a).1
  /\ tty_rep (tty_set_foreground_pgid id pg t).2 (term_set_fg id pg a).2.
Proof.
  intros R. unfold tty_set_foreground_pgid, term_set_fg. rewrite (tty_absent_guard t a) by done.
  case_decide as D; [done|]. split; [done|]. cbn [snd].
  destruct (bad_tty id) eqn:Eb; [exfalso; apply D; by rewrite (tr_map _ _ R), Eb|].
  assert (tty_used (aget (g_ttys t) id) = true) as Hu.
  { apply not_eq_None_Some in D. rewrite (tr_map _ _ R), Eb in D. unfold term_slot in D.
    destruct (tty_used _); [done|by destruct D]. }
  apply bad_tty_false in Eb. destruct (tr_active _ _ R) as [Ha Has]. apply (tty_rep_store t a); try done.
  - cbn [fgs]. unfold term_slot. cbn. by rewrite Hu.
  - cbn [fgs]. apply lookup_insert_is_Some'. right. apply R.
  - cbn [fgs active]. apply lookup_insert_is_Some'. by right.
  - apply (tr_ctrl _ _ R).
Qed.

(** ** Runs *)

Inductive tty_call : Type :=
  | TtyCreate
  | TtyDestroy (id : Z)
  | TtyGetActive
  | TtySetActive (id : Z)
  | TtySetFg (id pgid : Z)
  | TtyGetFg (id : Z)
  | TtyKillFg (id sig : Z)
  | TtyKey (scancode : Z) (pressed : bool)
  | TtyProc (c : call).

Variable process_entry_resume : Z.

Definition run_tty_call (c : tty_call) t s : Z * (ttys * sched E) :=
  match c with
  | TtyCreate => let '(r, t) := tty_create t in (r, (t, s))
  | TtyDestroy id => let '(r, t) := tty_destroy id t in (r, (t, s))
  | TtyGetActive => (tty_get_active t, (t, s))
  | TtySetActive id => let '(r, t) := tty_set_active id t in (r, (t, s))
  | TtySetFg id pg => let '(r, t) := tty_set_foreground_pgid id pg t in (r, (t, s))
  | TtyGetFg id => (tty_get_foreground_pgid id t, (t, s))
  | TtyKillFg id sig => let '(r, s) := tty_kill_foreground id sig t s in (r, (t, s))
  | TtyKey sc pressed => (0, tty_handle_scancode sc pressed (t, s))
  | TtyProc c => (0, (t, run_call process_entry_resume c s))
  end.

Definition term_kill (id sig : Z) (a : term) s : Z * sched E :=
  if decide (fgs a !! id = None) then (-1, s) else
  match term_target id a with Some g => process_kill_pgid g sig s | None => (0, s) end.

Definition term_key (sc : Z) (pressed : bool) (a : term) s : term * sched E :=
  if sc =? SC_CTRL then (mkTerm (fgs a) (active a) pressed, s) else
  if pressed && ctrl a && (sc =? SC_C) then (a, (term_kill (active a) PROCESS_SIGINT a s).2) else (a, s).

Definition run_term_call (c : tty_call) (a : term) s : Z * (term * sched E) :=
  match c with
  | TtyCreate => let '(r, a) := term_create a in (r, (a, s))
  | TtyDestroy id => let '(r, a) := term_destroy id a in (r, (a, s))
  | TtyGetActive => (active a, (a, s))
  | TtySetActive id => let '(r, a) := term_set_active id a in (r, (a, s))
  | TtySetFg id pg => let '(r, a) := term_set_fg id pg a in (r, (a, s))
  | TtyGetFg id => (default (-1) (fgs a !! id), (a, s))
  | TtyKillFg id sig => let '(r, s) := term_kill id sig a s in (r, (a, s))
  | TtyKey sc pressed => (0, term_key sc pressed a s)
  | TtyProc c => (0, (a, run_call process_entry_resume c s))
  end.

(** Process calls as in [Scheduler]; a group is not killed at once. *)
Definition tty_call_allowed (c : tty_call) s : bool :=
  match c with
  | TtyKillFg _ sig => negb (sig =? PROCESS_SIGKILL)
  | TtyProc c => call_allowed c s
  | _ => true
  end.

Fixpoint run_tty (cs : list tty_call) t s : list Z * (ttys * sched E) :=
  match cs with
  | [] => ([], (t, s))
  | c :: cs' => let '(r, (t, s)) := run_tty_call c t s in let '(rs, ts) := run_tty cs' t s in (r :: rs, ts)
  end.
Fixpoint run_term (cs : list tty_call) (a : term) s : list Z * (term * sched E) :=
  match cs with
  | [] => ([], (a, s))
  | c :: cs' => let '(r, (a, s)) := run_term_call c a s in let '(rs, r') := run_term cs' a s in (r :: rs, r')
  end.
Fixpoint tty_allowed (cs : list tty_call) t s : bool :=
  match cs with
  | [] => true
  | c :: cs' => tty_call_allowed c s && let '(_, (t, s)) := run_tty_call c t s in tty_allowed cs' t s
  end.

Lemma tty_kill_refines id sig t a s : tty_rep t a -> tty_kill_foreground id sig t s = term_kill id sig a s.
Proof.
  intros R. unfold tty_kill_foreground, term_kill. rewrite (tty_absent_guard t a) by done. case_decide as D; [done|].
  unfold term_target. rewrite (tr_map _ _ R) in *. unfold term_slot in *.
  destruct (bad_tty id); [done|]. destruct (tty_used _); [|done]. set (g := fg_pgid _).
  destruct (Z.leb_spec g 0), (Z.ltb_spec 0 g); done || lia.
Qed.

Lemma tty_call_refines c t a s : tty_rep t a -> sched_ok s -> tty_call_allowed c s = true ->
  exists r t' a' s', run_tty_call c t s = (r, (t', s')) /\ run_term_call c a s = (r, (a', s'))
    /\ tty_rep t' a' /\ sched_ok s'.
Proof.
  intros R Hok Ha. destruct (tr_active _ _ R) as [Hact _].
  destruct c as [|id| |id|id pg|id|id sig|sc pressed|c]; cbn [run_tty_call run_term_call tty_call_allowed] in *.
  - destruct (tty_create_refines t a R) as [E1 R1]. destruct (tty_create t), (term_create a); naive_solver.
  - destruct (tty_destroy_refines id t a R) as [E1 R1]. destruct (tty_destroy id t), (term_destroy id a); naive_solver.
  - rewrite Hact. naive_solver.
  - destruct (tty_set_active_refines id t a R) as [E1 R1].
    destruct (tty_set_active id t), (term_set_active id a); naive_solver.
  - destruct (tty_set_fg_refines id pg t a R) as [E1 R1].
    destruct (tty_set_foreground_pgid id pg t), (term_set_fg id pg a); naive_solver.
  - assert (tty_get_foreground_pgid id t = default (-1) (fgs a !! id)) as ->; [|naive_solver].
    unfold tty_get_foreground_pgid. rewrite (tr_map _ _ R). unfold term_slot. destruct (bad_tty id); [done|]. by destruct (tty_used _).
  - rewrite (tty_kill_refines id sig t a s R). assert (sched_ok (term_kill id sig a s).2) as Hk.
    { unfold term_kill. case_decide; [done|]. destruct (term_target id a); [|done]. apply ok_kill_pgid; [done|].
      intros ->. done. }
    destruct (term_kill id sig a s). naive_solver.
  - unfold tty_handle_scancode, term_key. destruct (sc =? SC_CTRL).
    { do 4 eexists. split; [done|]. split; [done|]. split; [|done]. destruct R. by split. }
    destruct pressed; cbn [negb andb]; [|naive_solver]. rewrite (tr_ctrl _ _ R). destruct (_ && _); [|naive_solver].
    unfold tty_get_active. rewrite <- Hact, (tty_kill_refines _ _ t a s R).
    do 4 eexists. split; [done|]. split; [done|]. split; [done|]. unfold term_kill. case_decide; [done|].
    destruct (term_target _ a); [|done]. by apply ok_kill_pgid.
  - do 4 eexists. split; [done|]. split; [done|]. split; [done|]. by apply run_call_ok.
Qed.

Lemma run_tty_refines cs t a s : tty_rep t a -> sched_ok s -> tty_allowed cs t s = true ->
  exists rs t' a' s', run_tty cs t s = (rs, (t', s')) /\ run_term cs a s = (rs, (a', s'))
    /\ tty_rep t' a' /\ sched_ok s'.
Proof.
  revert t a s. induction cs as [|c cs IH]; intros t a s R Hok Ha; [cbn; naive_solver|].
  cbn [tty_allowed] in Ha. apply andb_true_iff in Ha as [Hc Ha].
  destruct (tty_call_refines c t a s R Hok Hc) as (r & t1 & a1 & s1 & E1 & E2 & R1 & Hok1). rewrite E1 in Ha.
  destruct (IH t1 a1 s1 R1 Hok1 Ha) as (rs & t2 & a2 & s2 & F1 & F2 & R2 & Hok2).
  exists (r :: rs), t2, a2, s2. cbn [run_tty run_term]. rewrite E1, E2, F1, F2. done.
Qed.

(** C38: terminals are a finite map, and Ctrl+C interrupts exactly the foreground group of the
    active one.  Over every sequence of terminal calls, keys and process calls, starting from boot,
    the results are those of the specification: a terminal is the smallest free number, terminal 0
    cannot be destroyed, destroying the active one makes 0 active, and the foreground group is the
    last one set.  The scheduling invariant holds throughout.  Pressing C then makes SIGINT pending
    in each live process of the foreground group of the active terminal, waking it when blocked, if
    Ctrl is held and the group is set, and changes no other process. *)
Theorem tty_ctrl_c_exact s0 cs :
  reachable process_entry_resume s0 -> tty_allowed cs (tty_init ttys_zero) s0 = true ->
  exists rs t a s, run_tty cs (tty_init ttys_zero) s0 = (rs, (t, s))
    /\ run_term cs term_init s0 = (rs, (a, s)) /\ tty_rep t a /\ sched_ok s
    /\ exists s', tty_handle_scancode SC_C true (t, s) = (t, s') /\ sched_ok s' /\ same_but_procs s s'
         /\ forall j, slot_ok j ->
              let hit := ctrl a && match term_target (active a) a with
                                   | Some g => in_group g (proc s j)
                                   | None => false
                                   end in
              links_only (if hit then signalled PROCESS_SIGINT (proc s j) else proc s j) (proc s' j).
Proof.
  intros Hr Ha. pose proof (reachable_ok _ s0 Hr) as Hok.
  destruct (run_tty_refines cs _ _ s0 (tty_init_rep ttys_zero eq_refl) Hok Ha) as (rs & t & a & s & E1 & E2 & R & Hs).
  exists rs, t, a, s. do 4 (split; [done|]). destruct (tr_active _ _ R) as [Hact Has].
  assert (tty_handle_scancode SC_C true (t, s)
          = (t, if ctrl a then (term_kill (active a) PROCESS_SIGINT a s).2 else s)) as ->.
  { unfold tty_handle_scancode, tty_get_active. rewrite (tr_ctrl _ _ R), Hact, (tty_kill_refines _ _ t a s R).
    by destruct (g_ctrl_down t). }
  destruct (ctrl a); cbn [andb].
  2: { exists s. do 3 (split; [done|]). intros. apply links_only_refl. }
  unfold term_kill. rewrite decide_False by (by apply not_eq_None_Some).
  unfold term_target. destruct Has as [g ->]. destruct (Z.ltb_spec 0 g).
  2: { exists s. do 3 (split; [done|]). intros. apply links_only_refl. }
  destruct (kill_pgid_spec s g PROCESS_SIGINT Hs) as (s' & -> & ? & ? & ?); try done. by exists s'.
Qed.

End tty.

(** Two processes; the second terminal is made and destroyed while active. *)
Definition ex_tty_calls : list tty_call :=
  [TtyProc (CallSpawn None 0x1000); TtyProc (CallSpawn None 0x2000); TtyProc (CallTick 0x5000); TtyCreate;
   TtySetActive 1; TtySetFg 1 7; TtyDestroy 1; TtyGetActive; TtySetFg 0 3; TtyDestroy 0; TtySetFg 5 1; TtyKey 29 true].

Lemma links_only_pending p p' : links_only p p' -> signal_pending p' = signal_pending p.
Proof. by intros ->. Qed.

Lemma tty_ctrl_c_exact_witness :
  exists rs t s s', run_tty 0xdead ex_tty_calls (tty_init ttys_zero) ex_sched0 = (rs, (t, s))
    /\ rs = [0; 0; 0; 1; 0; 0; 0; 0; 0; -1; -1; 0]
    /\ tty_handle_scancode SC_C true (t, s) = (t, s')
    /\ signal_pending (proc s' 2) = 4 /\ signal_pending (proc s' 3) = 0.
Proof.
  assert (slot_ok 2 /\ slot_ok 3) as [H2 H3] by (unfold slot_ok; lia).
  destruct (tty_ctrl_c_exact 0xdead ex_sched0 ex_tty_calls) as (rs & t & a & s & E1 & E2 & _ & _ & s' & E3 & _ & _ & Hj).
  { apply reach_init. }
  { vm_compute. reflexivity. }
  exists rs, t, s, s'. split; [exact E1|]. split.
  { transitivity (run_tty 0xdead ex_tty_calls (tty_init ttys_zero) ex_sched0).1; [by rewrite E1|vm_compute; reflexivity]. }
  split; [exact E3|].
  pose proof (Hj 2 H2) as L2. pose proof (Hj 3 H3) as L3. cbv zeta in L2, L3. clear Hj.
  apply links_only_pending in L2, L3. revert L2 L3.
  assert (a = (run_term 0xdead ex_tty_calls term_init ex_sched0).2.1) as -> by (by rewrite E2).
  assert (s = (run_tty 0xdead ex_tty_calls (tty_init ttys_zero) ex_sched0).2.2) as -> by (by rewrite E1).
  intros -> ->. split.
  - vm_compute. reflexivity.
  - vm_compute. reflexivity.
Defined.
