(* ===== verification/Exec.v ===== *)
(** The registry of built-in programs: [src/loader/exec.c].

    A path is a C string; [None] is NULL.  An entry point is its address. *)

From S2P Require Import Prelude CString.

Definition EXEC_BUILTIN_MAX : Z := 32.
Definition EXEC_PATH_MAX : Z := 64.

Record exec_builtin := mkBuiltin { eb_used : bool; eb_path : cstr; eb_entry : Z }.
#[export] Instance exec_builtin_rebuild : Rebuild exec_builtin := fun b =>
  mkBuiltin (eb_used b) (eb_path b) (eb_entry b).
#[export] Instance exec_builtin_inhabited : Inhabited exec_builtin := populate (mkBuiltin false [] 0).

(** [g_exec_builtins] at boot. *)
Definition exec_zero : list exec_builtin := repeat (mkBuiltin false [] 0) 32.

(** Both strings from the same index on. *)
Fixpoint path_equal (a b : cstr) : bool :=
  match a, b with
  | x :: a', y :: b' => if x =? y then path_equal a' b' else false
  | [], [] => true
  | _, _ => false
  end.

Definition path_copy (src : cstr) (cap : Z) : cstr := (copy_upto (Z.to_nat (cap - 1)) src).1.

(** The scan of [exec_register_builtin]: the slot that has the path, or the first free slot. *)
Inductive scan_result : Type := ScanFound (i : Z) | ScanFree (i : Z).
Fixpoint register_scan (i free_slot : Z) (path : cstr) (bs : list exec_builtin) : scan_result :=
  match bs with
  | [] => ScanFree free_slot
  | b :: bs' =>
      if eb_used b && path_equal (eb_path b) path then ScanFound i else
      register_scan (i + 1) (if negb (eb_used b) && (free_slot <? 0) then i else free_slot) path bs'
  end.

Definition exec_register_builtin (path : option cstr) (entry : Z) (g : list exec_builtin) : Z * list exec_builtin :=
  match path with
  | None => (-1, g)
  | Some path =>
      if entry =? 0 then (-1, g) else
      match register_scan 0 (-1) path g with
      | ScanFound i => (0, aset i (aget g i <| eb_entry := entry |>) g)
      | ScanFree i => if i <? 0 then (-1, g) else
                      (0, aset i (mkBuiltin true (path_copy path EXEC_PATH_MAX) entry) g)
      end
  end.

(** The return value and [*entry_out], when it was written. *)
Definition exec_resolve_builtin (path : option cstr) (g : list exec_builtin) : Z * option Z :=
  match path with
  | None => (-1, None)
  | Some path =>
      match find_index (fun b => eb_used b && path_equal (eb_path b) path) g with
      | Some i => (0, Some (eb_entry (aget g i)))
      | None => (-1, None)
      end
  end.

(** ** Lemmas *)

Lemma path_equal_spec a b : path_equal a b = true <-> a = b.
Proof. exact (mstreq_spec a b). Qed.

Lemma path_copy_short p : zlen p < EXEC_PATH_MAX -> path_copy p EXEC_PATH_MAX = p.
Proof.
  intros Hp. unfold path_copy. rewrite copy_upto_eq. cbn [fst]. apply take_ge.
  unfold zlen, EXEC_PATH_MAX in *. change (Z.to_nat (64 - 1)) with 63%nat. lia.
Qed.

Lemma path_copy_length p : zlen (path_copy p EXEC_PATH_MAX) < EXEC_PATH_MAX.
Proof.
  unfold path_copy. rewrite copy_upto_eq. cbn [fst]. unfold zlen, EXEC_PATH_MAX. rewrite length_take.
  change (Z.to_nat (64 - 1)) with 63%nat. lia.
Qed.

Definition holds (p : cstr) (b : exec_builtin) : bool := eb_used b && path_equal (eb_path b) p.

Lemma holds_spec p b : holds p b = true <-> eb_used b = true /\ eb_path b = p.
Proof. unfold holds. by rewrite andb_true_iff, path_equal_spec. Qed.

Lemma register_scan_spec p bs : forall i f, 0 <= i ->
  register_scan i f p bs
  = match find_from (holds p) i bs with
    | Some j => ScanFound j
    | None => ScanFree (if f <? 0 then default f (find_from (fun b => negb (eb_used b)) i bs) else f)
    end.
Proof.
  induction bs as [|b bs IH]; intros i f Hi; cbn [register_scan find_from].
  { by destruct (f <? 0). }
  fold (holds p b). destruct (holds p b); [done|]. rewrite IH by lia. destruct (find_from _ (i + 1) bs) as [j|]; [done|].
  f_equal. destruct (eb_used b); cbn [negb andb]; [done|].
  destruct (Z.ltb_spec f 0); [|by rewrite (proj2 (Z.ltb_ge f 0)) by lia].
  by rewrite (proj2 (Z.ltb_ge i 0)) by lia.
Qed.

(** ** The registry is a finite map of at most 32 paths *)

Abbreviation registry := (gmap cstr Z).

Definition registry_register (p : cstr) (e : Z) (m : registry) : Z * registry :=
  if decide (e = 0 \/ m !! p = None /\ (32 <= size m)%nat) then (-1, m) else (0, <[p := e]> m).

Record exec_rep (g : list exec_builtin) (m : registry) : Prop := {
  er_len : length g = 32%nat;
  er_in : forall i, 0 <= i < 32 -> eb_used (aget g i) = true ->
    m !! eb_path (aget g i) = Some (eb_entry (aget g i)) /\ eb_entry (aget g i) <> 0;
  er_out : forall p e, m !! p = Some e -> exists i, 0 <= i < 32 /\ eb_used (aget g i) = true /\ eb_path (aget g i) = p;
  er_inj : forall i j, 0 <= i < 32 -> 0 <= j < 32 -> eb_used (aget g i) = true -> eb_used (aget g j) = true ->
    eb_path (aget g i) = eb_path (aget g j) -> i = j;
  er_size : Z.of_nat (size m) = count_true (fun i => eb_used (aget g i)) 32;
}.

Lemma exec_rep_zero : exec_rep exec_zero ∅.
Proof.
  assert (forall i, 0 <= i < 32 -> eb_used (aget exec_zero i) = false) as Hf.
  { intros i Hi. unfold exec_zero. by rewrite aget_repeat by lia. }
  split; [done|..|done].
  - intros i Hi. by rewrite Hf.
  - intros p e Hp. by rewrite lookup_empty in Hp.
  - intros i j Hi _. by rewrite Hf.
Qed.

Lemma find_holds g m p : exec_rep g m ->
  match find_index (holds p) g with
  | Some i => 0 <= i < 32 /\ eb_used (aget g i) = true /\ eb_path (aget g i) = p
  | None => m !! p = None
  end.
Proof.
  intros R. destruct (find_index _ g) as [i|] eqn:Ef.
  - apply find_index_Some in Ef as (Hi & Hp & _). rewrite (er_len _ _ R) in Hi.
    apply holds_spec in Hp as [Hu Hp]. split; [lia|done].
  - rewrite find_index_None, (er_len _ _ R) in Ef. destruct (m !! p) as [e|] eqn:Em; [|done].
    destruct (er_out _ _ R p e Em) as (i & Hi & Hu & Hp). specialize (Ef i Hi).
    rewrite (proj2 (holds_spec p _)) in Ef; done.
Qed.

Lemma exec_resolve_rep g m p : exec_rep g m ->
  exec_resolve_builtin (Some p) g = match m !! p with Some e => (0, Some e) | None => (-1, None) end.
Proof.
  intros R. pose proof (find_holds g m p R) as Hf. unfold exec_resolve_builtin.
  change (find_index _ g) with (find_index (holds p) g). destruct (find_index (holds p) g) as [i|].
  - destruct Hf as (Hi & Hu & <-). by destruct (er_in _ _ R i Hi Hu) as [-> _].
  - by rewrite Hf.
Qed.

(** The entry of a path that is registered already. *)
Lemma exec_rep_update g m i e : exec_rep g m -> 0 <= i < 32 -> eb_used (aget g i) = true -> e <> 0 ->
  exec_rep (aset i (aget g i <| eb_entry := e |>) g) (<[eb_path (aget g i) := e]> m).
Proof.
  intros R Hi Hu He. pose proof (er_len _ _ R) as Hl.
  assert (forall j, 0 <= j < 32 -> aget (aset i (aget g i <| eb_entry := e |>) g) j
            = if decide (j = i) then aget g i <| eb_entry := e |> else aget g j) as Hg.
  { intros j Hj. case_decide as D; [subst j; by rewrite aget_aset_eq by lia|by rewrite aget_aset_ne by lia]. }
  assert (forall j, 0 <= j < 32 -> eb_used (aget (aset i (aget g i <| eb_entry := e |>) g) j) = eb_used (aget g j)
            /\ eb_path (aget (aset i (aget g i <| eb_entry := e |>) g) j) = eb_path (aget g j)) as Hsame.
  { intros j Hj. rewrite Hg by done. case_decide as D; [by rewrite D|done]. }
  split.
  - by rewrite length_aset.
  - intros j Hj. destruct (Hsame j Hj) as [-> ->]. intros Huj. rewrite Hg by done. case_decide as D.
    + subst j. by rewrite lookup_insert_eq.
    + rewrite lookup_insert_ne; [by apply (er_in _ _ R)|]. intros E. apply D. symmetry. by apply (er_inj _ _ R).
  - intros p v Hp. destruct (decide (p = eb_path (aget g i))) as [->|Hne].
    + exists i. split; [done|]. by destruct (Hsame i Hi) as [-> ->].
    + rewrite lookup_insert_ne in Hp by congruence. destruct (er_out _ _ R p v Hp) as (j & Hj & ? & ?).
      exists j. split; [done|]. by destruct (Hsame j Hj) as [-> ->].
  - intros j k Hj Hk. destruct (Hsame j Hj) as [-> ->], (Hsame k Hk) as [-> ->]. by apply (er_inj _ _ R).
  - rewrite (count_true_ext _ (fun j => eb_used (aget g j))) by (intros; by apply Hsame).
    rewrite <- (er_size _ _ R). f_equal. destruct (er_in _ _ R i Hi Hu) as [Em _]. by rewrite map_size_insert, Em.
Qed.

(** A new path in a free slot. *)
Lemma exec_rep_add g m i p e : exec_rep g m -> 0 <= i < 32 -> eb_used (aget g i) = false -> m !! p = None -> e <> 0 ->
  exec_rep (aset i (mkBuiltin true p e) g) (<[p := e]> m).
Proof.
  intros R Hi Hu Hp He. pose proof (er_len _ _ R) as Hl.
  assert (forall j, 0 <= j < 32 -> aget (aset i (mkBuiltin true p e) g) j
            = if decide (j = i) then mkBuiltin true p e else aget g j) as Hg.
  { intros j Hj. case_decide as D; [subst j; by rewrite aget_aset_eq by lia|by rewrite aget_aset_ne by lia]. }
  assert (forall j, 0 <= j < 32 -> eb_used (aget g j) = true -> eb_path (aget g j) <> p) as Hnew.
  { intros j Hj Huj E. destruct (er_in _ _ R j Hj Huj) as [Em _]. congruence. }
  split.
  - by rewrite length_aset.
  - intros j Hj. rewrite Hg by done. case_decide as D; cbn; [by rewrite lookup_insert_eq|]. intros Huj.
    rewrite lookup_insert_ne by (intros E; by apply (Hnew j)). by apply (er_in _ _ R).
  - intros q v Hq. destruct (decide (q = p)) as [->|Hne].
    + exists i. rewrite Hg, decide_True by done. done.
    + rewrite lookup_insert_ne in Hq by congruence. destruct (er_out _ _ R q v Hq) as (j & Hj & Huj & Hpj).
      exists j. rewrite Hg by done. rewrite decide_False by congruence. done.
  - intros j k Hj Hk. rewrite !Hg by done. do 2 case_decide; cbn; intros Hu1 Hu2 E; try congruence.
    + exfalso. by apply (Hnew k).
    + exfalso. by apply (Hnew j).
    + by apply (er_inj _ _ R).
  - rewrite map_size_insert_None by done. rewrite Nat2Z.inj_succ, (er_size _ _ R). symmetry.
    apply (count_true_flip _ _ 32 i); [lia| |done|].
    + by rewrite Hg, decide_True by done.
    + intros j Hj Hne. rewrite Hg by done. by rewrite decide_False.
Qed.

Lemma exec_register_rep g m p e : exec_rep g m -> zlen p < EXEC_PATH_MAX ->
  (exec_register_builtin (Some p) e g).1 = (registry_register p e m).1
  /\ exec_rep (exec_register_builtin (Some p) e g).2 (registry_register p e m).2.
Proof.
  intros R Hlen. unfold exec_register_builtin, registry_register. destruct (Z.eqb_spec e 0) as [->|He].
  { by rewrite decide_True by (by left). }
  rewrite register_scan_spec by done. pose proof (find_holds g m p R) as Hf. unfold find_index in Hf.
  destruct (find_from (holds p) 0 g) as [i|].
  { destruct Hf as (Hi & Hu & <-). destruct (er_in _ _ R i Hi Hu) as [Em _].
    rewrite decide_False by naive_solver. split; [done|]. by apply exec_rep_update. }
  rewrite (proj2 (Z.ltb_lt (-1) 0)) by lia. pose proof (er_size _ _ R) as Hs.
  destruct (find_from (fun b => negb (eb_used b)) 0 g) as [i|] eqn:Efree.
  - apply (find_index_Some _ g) in Efree as (Hi & Hu & _). rewrite (er_len _ _ R) in Hi. apply negb_true_iff in Hu.
    unfold default, id. rewrite (proj2 (Z.ltb_ge i 0)) by lia. rewrite decide_False.
    + split; [done|]. cbn [snd]. rewrite path_copy_short by done. by apply exec_rep_add.
    + intros [?|[_ Hfull]]; [done|]. pose proof (count_true_flip (fun j => (j =? i) || eb_used (aget g j)) (fun j => eb_used (aget g j)) 32 i) as Hflip.
      pose proof (count_true_bounds (fun j => (j =? i) || eb_used (aget g j)) 32).
      rewrite Hflip in *; [lia|lia|by rewrite Z.eqb_refl|done|].
      intros j Hj Hne. by rewrite (proj2 (Z.eqb_neq j i)).
  - unfold default. rewrite (proj2 (Z.ltb_lt (-1) 0)) by lia. rewrite decide_True; [done|]. right. split; [done|].
    pose proof (proj1 (find_index_None (fun b => negb (eb_used b)) g) Efree) as Hall. rewrite (er_len _ _ R) in Hall.
    assert (count_true (fun i => eb_used (aget g i)) 32 = 32) as Hc; [|lia].
    rewrite (count_true_ext _ (fun _ => true)); [done|]. intros i Hi. specialize (Hall i Hi). by apply negb_false_iff in Hall.
Qed.

Fixpoint run_register (ops : list (cstr * Z)) (g : list exec_builtin) : list Z * list exec_builtin :=
  match ops with
  | [] => ([], g)
  | (p, e) :: ops' => let '(r, g) := exec_register_builtin (Some p) e g in
                      let '(rs, g) := run_register ops' g in (r :: rs, g)
  end.
Fixpoint run_registry (ops : list (cstr * Z)) (m : registry) : list Z * registry :=
  match ops with
  | [] => ([], m)
  | (p, e) :: ops' => let '(r, m) := registry_register p e m in
                      let '(rs, m) := run_registry ops' m in (r :: rs, m)
  end.

(** The registry of programs is a finite map.  After any sequence of registrations with paths
    of at most 63 characters, the results are those of a map of at most 32 paths - a registration
    replaces the entry of its path, adds a path while there is room, and is refused for a null entry
    or a full table - and every path resolves to its last entry, or to nothing. *)
Theorem exec_registry_refines ops :
  Forall (fun pe => zlen pe.1 < EXEC_PATH_MAX) ops ->
  let '(rs, g) := run_register ops exec_zero in
  let '(rs', m) := run_registry ops ∅ in
  rs = rs' /\ (size m <= 32)%nat
  /\ forall p, exec_resolve_builtin (Some p) g = match m !! p with Some e => (0, Some e) | None => (-1, None) end.
Proof.
  assert (forall ops g m, exec_rep g m -> Forall (fun pe => zlen pe.1 < EXEC_PATH_MAX) ops ->
            (run_register ops g).1 = (run_registry ops m).1
            /\ exec_rep (run_register ops g).2 (run_registry ops m).2) as Hrun.
  { clear ops. induction ops as [|[p e] ops IH]; intros g m R Hs; [done|]. apply Forall_cons in Hs as [Hp Hs].
    cbn [run_register run_registry]. destruct (exec_register_rep g m p e R Hp) as [E1 R1].
    destruct (exec_register_builtin (Some p) e g) as [r g1], (registry_register p e m) as [r' m1]. cbn [fst snd] in *.
    subst r'. destruct (IH g1 m1 R1 Hs) as [E2 R2].
    destruct (run_register ops g1) as [rs g2], (run_registry ops m1) as [rs' m2]. cbn [fst snd] in *. by rewrite E2. }
  intros Hs. destruct (Hrun ops exec_zero ∅ exec_rep_zero Hs) as [E R].
  destruct (run_register ops exec_zero) as [rs g], (run_registry ops ∅) as [rs' m]. cbn [fst snd] in *.
  split; [done|]. split.
  - pose proof (er_size _ _ R). pose proof (count_true_bounds (fun i => eb_used (aget g i)) 32). lia.
  - intros p. by apply exec_resolve_rep.
Qed.

(** "/bin/cat" twice and a null entry. *)
Definition ex_cat : cstr := [47; 98; 105; 110; 47; 99; 97; 116].

Lemma exec_registry_refines_witness :
  let '(rs, g) := run_register [(ex_cat, 0x1000); (ex_cat, 0x2000); ([47], 0)] exec_zero in
  rs = [0; 0; -1] /\ exec_resolve_builtin (Some ex_cat) g = (0, Some 0x2000).
Proof.
  assert (Forall (fun pe => zlen pe.1 < EXEC_PATH_MAX) [(ex_cat, 0x1000); (ex_cat, 0x2000); ([47], 0)]) as Hs
    by (repeat constructor).
  pose proof (exec_registry_refines _ Hs) as Ht.
  destruct (run_register _ _) as [rs g], (run_registry _ _) as [rs' m] eqn:Em. destruct Ht as (-> & _ & Hr).
  vm_compute in Em. injection Em as <- <-. split; [reflexivity|]. rewrite Hr. vm_compute. reflexivity.
Defined.

(** A path of 64 characters is stored cut: the registration succeeds, the path does not resolve, and
    registering it again takes another slot. *)
Definition ex_long : cstr := repeat 97 64.

Lemma exec_long_path_lost :
  let '(rs, g) := run_register (repeat (ex_long, 0x1000) 33) exec_zero in
  rs = repeat 0 32 ++ [-1] /\ exec_resolve_builtin (Some ex_long) g = (-1, None).
Proof. vm_compute. split; reflexivity. Qed.
