(* ===== verification/Fat32.v ===== *)
(** The FAT32 driver: [src/fs/fat32.c] over a disk of 512-byte sectors.

    The disk is a class: [ata_read_sectors] and [ata_write_sectors] of [src/drv/ata.c] are port I/O.
    Bytes and characters are numbers below 256.  [out] is the outcome of a call: [Undef] is an access
    outside a buffer or the use of a byte that nothing has written, [Fuel] is a chain of clusters
    longer than the bound given. *)

From S2P Require Import Prelude CString Path.

Inductive out (A : Type) : Type := Done (a : A) | Undef | Fuel.
Arguments Done {A}.
Arguments Undef {A}.
Arguments Fuel {A}.

Definition bind_out {A B} (x : out A) (f : A -> out B) : out B :=
  match x with Done a => f a | Undef => Undef | Fuel => Fuel end.
Notation "'do!' p ':=' x 'in' k" := (bind_out x (fun p => k))
  (at level 200, p pattern, x at level 100, k at level 200, right associativity) : tsk_scope.

(** ** The disk *)

Abbreviation sector := (list Z).

Class AtaDisk (D : Type) := {
  ata_read : D -> Z -> option sector;          (* ata_read_sectors(lba, 1, buf): None is -1 *)
  ata_write : Z -> sector -> D -> option D;    (* ata_write_sectors(lba, 1, buf) *)
}.

(** The controller takes the low 28 bits of a sector number. *)
Definition lba28 (lba : Z) : Z := lba mod 0x10000000.

Class AtaLaws (D : Type) `{AtaDisk D} := {
  ata_read_28 d lba : ata_read d lba = ata_read d (lba28 lba);
  ata_read_len d lba s : ata_read d lba = Some s -> length s = 512%nat;
  ata_write_reads d lba s d' lba' : length s = 512%nat -> ata_write lba s d = Some d' ->
    ata_read d' lba' = if lba28 lba' =? lba28 lba then Some s else ata_read d lba';
  ata_write_works d lba s : is_Some (ata_read d lba) -> length s = 512%nat -> is_Some (ata_write lba s d);
}.

Definition FAT32_NAME_MAX : Z := 256.
Definition FAT32_MAX_DIRENT : Z := 64.
Definition ATTR_DIR : Z := 0x10.
Definition ATTR_LFN : Z := 0x0F.
Definition ATTR_VOLUME_ID : Z := 0x08.
Definition DIR_ENTRY_SIZE : Z := 32.
Definition EOC_MIN : Z := 0x0FFFFFF8.

(** A byte, a 16-bit and a 32-bit number of a buffer. *)
Definition rd8 (b : list Z) (i : Z) : Z := aget b i.
Definition rd16 (b : list Z) (i : Z) : Z := Z.lor (rd8 b i) (Z.shiftl (rd8 b (i + 1)) 8).
Definition rd32 (b : list Z) (i : Z) : Z := Z.lor (rd16 b i) (Z.shiftl (rd16 b (i + 2)) 16).

(** ** Driver state *)

Record volume := mkVolume {
  g_ready : bool;
  g_fat_lba : Z;
  g_data_lba : Z;
  g_root_cluster : Z;
  g_sectors_per_cluster : Z;
  g_fat_size : Z;
  g_bytes_per_sector : Z;
}.
#[export] Instance volume_rebuild : Rebuild volume := fun f =>
  mkVolume (g_ready f) (g_fat_lba f) (g_data_lba f) (g_root_cluster f) (g_sectors_per_cluster f) (g_fat_size f)
    (g_bytes_per_sector f).

(** [comps] is the static array of [resolve_parent]. *)
Record fat32 := mkFat32 { vol : volume; comps : list cstr }.
#[export] Instance fat32_rebuild : Rebuild fat32 := fun f => mkFat32 (vol f) (comps f).

Definition fat32_zero : fat32 := mkFat32 (mkVolume false 0 0 0 0 0 0) (repeat [] 32).

(** ** Helpers *)

Definition lower (c : Z) : Z := if (65 <=? c) && (c <=? 90) then c + 32 else c.

(** [k_strncmpi]: 0 when the first [n] characters agree up to case. *)
Fixpoint k_strncmpi (a b : cstr) (n : nat) : Z :=
  match n with
  | O => 0
  | S n' =>
      match a, b with
      | x :: a', y :: b' => if lower x =? lower y then k_strncmpi a' b' n' else 1
      | [], [] => 0
      | _, _ => 1
      end
  end.
Definition same_name (a b : cstr) : bool := k_strncmpi a b (Z.to_nat FAT32_NAME_MAX) =? 0.

Definition k_strcpy (src : cstr) (max : Z) : cstr := (copy_upto (Z.to_nat (max - 1)) src).1.

Definition cluster_to_lba (v : volume) (cluster : Z) : Z :=
  u32 (g_data_lba v + u32 ((cluster - 2) * g_sectors_per_cluster v)).

(** The sector and the offset of a FAT entry. *)
Definition fat_place (v : volume) (cluster : Z) : Z * Z :=
  let fat_offset := u32 (cluster * 4) in
  (u32 (g_fat_lba v + fat_offset / g_bytes_per_sector v), fat_offset mod g_bytes_per_sector v).

Definition fat_next (v : volume) (rd : Z -> option sector) (cluster : Z) : out Z :=
  let '(fat_sector, entry_off) := fat_place v cluster in
  match rd fat_sector with
  | None => Done 0x0FFFFFFF
  | Some sec => if 512 <? entry_off + 4 then Undef else Done (Z.land (rd32 sec entry_off) 0x0FFFFFFF)
  end.

(** The characters of [src] from [from] to [lim] before a space, stored while [room] is left. *)
Fixpoint take_name (n : nat) (src : list Z) (i room : Z) : cstr :=
  match n with
  | O => []
  | S n' => if aget src i =? 32 then [] else
            if 0 <? room then aget src i :: take_name n' src (i + 1) (room - 1)
            else take_name n' src (i + 1) room
  end.

Definition parse_83name (src : list Z) (dstlen : Z) : cstr :=
  let room := dstlen - 2 in
  let base := take_name 8 src 0 room in
  if aget src 8 =? 32 then base else
  let dst := if zlen base <? room then base ++ [ch_dot] else base in
  dst ++ take_name 3 src 8 (room - zlen dst).

(** The C string in a buffer: the bytes before the first NUL. *)
Fixpoint until_nul8 (b : cstr) : cstr :=
  match b with
  | [] => []
  | c :: b' => if c =? 0 then [] else c :: until_nul8 b'
  end.
Definition name83 (ent : list Z) : cstr := until_nul8 (parse_83name (take 11 ent) 13).

(** ** Directory entries *)

Definition de_attr (ent : list Z) : Z := rd8 ent 11.
Definition de_cluster (ent : list Z) : Z := Z.lor (Z.shiftl (rd16 ent 20) 16) (rd16 ent 26).
Definition de_size (ent : list Z) : Z := rd32 ent 28.
Definition de_is_dir (ent : list Z) : bool := negb (Z.land (de_attr ent) ATTR_DIR =? 0).

(** [lfn_buf], [lfn_len] and [has_lfn]; a byte not yet written is [None]. *)
Record lfn_state := mkLfn { lfn_buf : list (option Z); lfn_len : Z; has_lfn : bool }.
Definition lfn_init : lfn_state := mkLfn (repeat None 256) 0 false.
Definition lfn_reset (l : lfn_state) : lfn_state := mkLfn (lfn_buf l) 0 false.

(** One of the three loops over the characters of a long-name entry, from offset [off] of the name.
    The flag says that it met the end of the name. *)
Fixpoint lfn_run (ws : list Z) (off : Z) (buf : list (option Z)) (len : Z) : out (bool * list (option Z) * Z) :=
  match ws with
  | [] => Done (false, buf, len)
  | wc :: ws' =>
      if FAT32_NAME_MAX - 1 <=? off then Done (false, buf, len) else
      if (wc =? 0xFFFF) || (wc =? 0) then Done (true, buf, len) else
      if off <? 0 then Undef else
      lfn_run ws' (off + 1) (aset off (Some (Z.land wc 0xFF)) buf) (if len <? off + 1 then off + 1 else len)
  end.

Definition lfn_words (ent : list Z) (at_ : Z) (n : nat) : list Z :=
  map (fun k => rd16 ent (at_ + 2 * Z.of_nat k)) (seq 0 n).

(** A long-name entry.  [all]: the end of the name ends all three loops ([goto lfn_done] in
    [iterate_dir]) or only its own ([break] in [find_entry_raw]). *)
Definition lfn_entry (all : bool) (ent : list Z) (l : lfn_state) : out lfn_state :=
  let off := (Z.land (rd8 ent 0) 0x1F - 1) * 13 in
  let finish '(_, buf, len) := Done (mkLfn (aset len (Some 0) buf) len true) in
  do! (s1, buf, len) := lfn_run (lfn_words ent 1 5) off (lfn_buf l) (lfn_len l) in
  if all && s1 then finish (s1, buf, len) else
  do! (s2, buf, len) := lfn_run (lfn_words ent 14 6) (off + 5) buf len in
  if all && s2 then finish (s2, buf, len) else
  do! r := lfn_run (lfn_words ent 28 2) (off + 11) buf len in finish r.

(** The C string in [lfn_buf]. *)
Fixpoint lfn_string (buf : list (option Z)) : out cstr :=
  match buf with
  | [] => Undef
  | None :: _ => Undef
  | Some c :: buf' => if c =? 0 then Done [] else do! s := lfn_string buf' in Done (c :: s)
  end.

(** ** The directory loops

    [iterate_dir] and [find_entry_raw] are the same three nested loops - clusters, sectors, entries -
    around a callback, but for the end of a long name and the answer to a failed read.  [next] reads
    the FAT, [rd] a sector; [Halt] is a [return] from inside. *)

Inductive flow (A : Type) : Type := Go (a : A) | Halt (a : A).
Arguments Go {A}.
Arguments Halt {A}.

Section dir_loops.
Context {C : Type}.
Variables (all : bool) (cb : Z -> Z -> list Z -> cstr -> C -> bool * C).
Variables (v : volume) (next : Z -> out Z) (rd : Z -> option sector).

(** One entry of the sector [lba] at byte [off]. *)
Definition entry_step (lba off : Z) (ent : list Z) (l : lfn_state) (c : C) : out (flow (lfn_state * C)) :=
  if rd8 ent 0 =? 0 then Done (Halt (l, c)) else
  if rd8 ent 0 =? 0xE5 then Done (Go (lfn_reset l, c)) else
  if de_attr ent =? ATTR_LFN then do! l := lfn_entry all ent l in Done (Go (l, c)) else
  if negb (Z.land (de_attr ent) ATTR_VOLUME_ID =? 0) then Done (Go (lfn_reset l, c)) else
  if rd8 ent 0 =? ch_dot then Done (Go (lfn_reset l, c)) else
  do! name := (if has_lfn l then lfn_string (lfn_buf l) else Done (name83 ent)) in
  let '(stop, c) := cb lba off ent name c in
  Done (if stop then Halt (lfn_reset l, c) else Go (lfn_reset l, c)).

(** [n] more entries from number [i] on. *)
Fixpoint entries_loop (n : nat) (i : Z) (lba : Z) (sec : sector) (l : lfn_state) (c : C) : out (flow (lfn_state * C)) :=
  match n with
  | O => Done (Go (l, c))
  | S n' =>
      if 512 <? (i + 1) * DIR_ENTRY_SIZE then Undef else
      do! r := entry_step lba (i * DIR_ENTRY_SIZE) (take 32 (drop (Z.to_nat (i * DIR_ENTRY_SIZE)) sec)) l c in
      match r with
      | Go (l, c) => entries_loop n' (i + 1) lba sec l c
      | Halt x => Done (Halt x)
      end
  end.

Definition per_sector : Z := g_bytes_per_sector v / DIR_ENTRY_SIZE.

(** [n] more sectors from [lba] on. *)
Fixpoint sectors_loop (n : nat) (lba : Z) (l : lfn_state) (c : C) : out (flow (lfn_state * C)) :=
  match n with
  | O => Done (Go (l, c))
  | S n' =>
      match rd lba with
      | None => Done (Halt (l, c))
      | Some sec =>
          do! r := entries_loop (Z.to_nat per_sector) 0 lba sec l c in
          match r with
          | Go (l, c) => sectors_loop n' (u32 (lba + 1)) l c
          | Halt x => Done (Halt x)
          end
      end
  end.

Fixpoint clusters_loop (fuel : nat) (cluster : Z) (l : lfn_state) (c : C) : out C :=
  if EOC_MIN <=? cluster then Done c else
  match fuel with
  | O => Fuel
  | S fuel' =>
      do! r := sectors_loop (Z.to_nat (g_sectors_per_cluster v)) (cluster_to_lba v cluster) l c in
      match r with
      | Halt (_, c) => Done c
      | Go (l, c) => do! cluster := next cluster in clusters_loop fuel' cluster l c
      end
  end.
End dir_loops.

Section driver.
Variable fuel : nat.     (* the longest chain of clusters considered *)

Section reading.
Variables (v : volume) (next : Z -> out Z) (rd : Z -> option sector).

Definition iterate_dir {C} (cb : list Z -> cstr -> C -> bool * C) (start : Z) (c : C) : out C :=
  clusters_loop true (fun _ _ => cb) v next rd fuel start lfn_init c.

(** [find_dir_ctx_t]: the cluster, when found. *)
Definition find_dir_cb (target : cstr) (ent : list Z) (name : cstr) (c : option Z) : bool * option Z :=
  if de_is_dir ent && same_name name target
  then (true, Some (if de_cluster ent =? 0 then g_root_cluster v else de_cluster ent))
  else (false, c).

Fixpoint walk_dirs (names : list cstr) (cur : Z) : out Z :=
  match names with
  | [] => Done cur
  | name :: names' =>
      do! r := iterate_dir (find_dir_cb name) cur None in
      match r with Some cur => walk_dirs names' cur | None => Done 0 end
  end.

Record raw_entry := mkRaw { raw_ent : list Z; raw_lba : Z; raw_off : Z }.

(** [None] is the return value -1. *)
Definition find_entry_raw (start : Z) (target : cstr) : out (option raw_entry) :=
  clusters_loop false (fun lba off ent name c =>
    if same_name name target then (true, Some (mkRaw ent lba off)) else (false, c))
    v next rd fuel start lfn_init None.

Record dirent := mkDirent32 { d_name : cstr; d_size : Z; d_is_dir : bool; d_first_cluster : Z }.

Definition dirent_of (ent : list Z) (name : cstr) : dirent :=
  mkDirent32 (k_strcpy name FAT32_NAME_MAX) (de_size ent) (de_is_dir ent) (de_cluster ent).

Definition stat_cb (target : cstr) (ent : list Z) (name : cstr) (c : option dirent) : bool * option dirent :=
  if same_name name target then (true, Some (dirent_of ent name)) else (false, c).

(** The entries stored so far. *)
Definition list_cb (max : Z) (ent : list Z) (name : cstr) (c : list dirent) : bool * list dirent :=
  if max <=? zlen c then (true, c) else (false, c ++ [dirent_of ent name]).
End reading.

(** ** Paths *)

(** One component: its first [room] characters, and what follows it. *)
Fixpoint take_seg (room : nat) (p : cstr) : cstr * cstr :=
  match p with
  | [] => ([], [])
  | c :: p' => if c =? ch_slash then ([], p) else
               match room with
               | S room' => let '(s, r) := take_seg room' p' in (c :: s, r)
               | O => take_seg O p'
               end
  end.

(** One segment on the stack; [None] is the return value -1. *)
Definition norm_step (segs : list cstr) (seg : cstr) : option (list cstr) :=
  if bool_decide (seg = [] \/ seg = [ch_dot]) then Some segs
  else if bool_decide (seg = [ch_dot; ch_dot]) then Some (removelast segs)
  else if 32 <=? zlen segs then None
  else Some (segs ++ [k_strcpy seg FAT32_NAME_MAX]).

Fixpoint norm_segs (n : nat) (p : cstr) (segs : list cstr) : option (list cstr) :=
  match p, n with
  | [], _ => Some segs
  | _, O => None
  | _, S n' =>
      let '(seg, p) := take_seg (Z.to_nat (FAT32_NAME_MAX - 1)) p in
      match norm_step segs seg with
      | None => None
      | Some segs => norm_segs n' (skip_slashes p) segs
      end
  end.

(** The output loops are those of [Path.put_segs]. *)
Definition normalize_path (path : cstr) (out_cap : Z) : option cstr :=
  if out_cap <=? 1 then None else
  match path with
  | c :: _ =>
      if c =? ch_slash then
        let p := skip_slashes path in
        match norm_segs (length p) p [] with
        | None => None
        | Some segs => put_segs out_cap true [ch_slash] segs
        end
      else None
  | [] => None
  end.

(** A component of [resolve_parent]: at most 255 characters; the rest is the next component. *)
Fixpoint take_comp (room : nat) (p : cstr) : cstr * cstr :=
  match room, p with
  | S room', c :: p' => if c =? ch_slash then ([], p) else let '(s, r) := take_comp room' p' in (c :: s, r)
  | _, _ => ([], p)
  end.

Fixpoint path_comps (n : nat) (p : cstr) : list cstr :=
  match n, p with
  | S n', _ :: _ => let '(c, r) := take_comp (Z.to_nat (FAT32_NAME_MAX - 1)) p in c :: path_comps n' (skip_slashes r)
  | _, _ => []
  end.

(** The cluster (0 when a directory is missing), [*leaf] as an index of the static array, NULL as
    [None], and the state: the array is overwritten from its start. *)
Definition resolve_parent (f : fat32) (next : Z -> out Z) (rd : Z -> option sector) (path : cstr)
  : out (Z * option Z * fat32) :=
  let cs := path_comps 32 (skip_slashes path) in
  let f := f <| comps := cs ++ drop (length cs) (comps f) |> in
  match cs with
  | [] => Done (g_root_cluster (vol f), None, f)
  | _ => do! cur := walk_dirs (vol f) next rd (removelast cs) (g_root_cluster (vol f)) in Done (cur, Some (zlen cs - 1), f)
  end.

(** ** The interface

    Each function returns its C result and the new state; an output parameter is part of the result,
    [None] when it is not written. *)

Context {D : Type} `{AtaDisk D}.

Definition next_of (v : volume) (d : D) : Z -> out Z := fat_next v (ata_read d).

Definition fat32_init (f : fat32) (d : D) : Z * fat32 :=
  let f := f <| vol := vol f <| g_ready := false |> |> in
  match ata_read d 0 with
  | None => (-1, f)
  | Some sec =>
      if negb (rd8 sec 510 =? 0x55) || negb (rd8 sec 511 =? 0xAA) then (-1, f) else
      if rd16 sec 11 =? 0 then (-1, f) else
      if negb (rd16 sec 17 =? 0) || negb (rd16 sec 22 =? 0) then (-1, f) else
      if rd32 sec 36 =? 0 then (-1, f) else
      let fat_lba := u32 (rd32 sec 28 + rd16 sec 14) in
      (0, f <| vol := mkVolume true fat_lba (u32 (fat_lba + u32 (rd8 sec 16 * rd32 sec 36))) (rd32 sec 44)
                         (rd8 sec 13) (rd32 sec 36) (rd16 sec 11) |>)
  end.

(** The leaf a path was resolved to, read from the static array. *)
Definition leaf_of (f : fat32) (k : Z) : cstr := aget (comps f) k.

Definition fat32_stat (path : option cstr) (f : fat32) (d : D) : out (option dirent * fat32) :=
  match path with
  | None => Done (None, f)
  | Some path =>
      if negb (g_ready (vol f)) then Done (None, f) else
      match normalize_path path FAT32_NAME_MAX with
      | None => Done (None, f)
      | Some norm =>
          if bool_decide (norm = [ch_slash])
          then Done (Some (mkDirent32 [ch_slash] 0 true (g_root_cluster (vol f))), f) else
          do! (parent, leaf, f) := resolve_parent f (next_of (vol f) d) (ata_read d) norm in
          match leaf with
          | None => Done (None, f)
          | Some k =>
              if parent =? 0 then Done (None, f) else
              do! r := iterate_dir (vol f) (next_of (vol f) d) (ata_read d) (stat_cb (leaf_of f k)) parent None in
              Done (r, f)
          end
      end
  end.

(** The return value is the length of the list, or -1 for [None]. *)
Definition fat32_list_dir (path : option cstr) (max : Z) (f : fat32) (d : D) : out (option (list dirent) * fat32) :=
  if negb (g_ready (vol f)) || (max <=? 0) then Done (None, f) else
  match path with
  | None => Done (None, f)
  | Some path =>
      match normalize_path path FAT32_NAME_MAX with
      | None => Done (None, f)
      | Some norm =>
          let list_at cluster f :=
            do! l := iterate_dir (vol f) (next_of (vol f) d) (ata_read d) (list_cb max) cluster [] in Done (Some l, f) in
          if bool_decide (norm = [ch_slash]) then list_at (g_root_cluster (vol f)) f else
          do! (r, f) := fat32_stat (Some norm) f d in
          match r with
          | None => Done (None, f)
          | Some de => if d_is_dir de then list_at (d_first_cluster de) f else Done (None, f)
          end
      end
  end.

(** The sectors of one cluster from [lba] on; the flag is a failed read.  [acc] is what is in [buf]. *)
Fixpoint read_cluster (n : nat) (bps to_read lba : Z) (d : D) (acc : list Z) : out (bool * list Z) :=
  match n with
  | O => Done (false, acc)
  | S n' =>
      if to_read <=? zlen acc then Done (false, acc) else
      match ata_read d lba with
      | None => Done (true, acc)
      | Some sec =>
          let chunk := if to_read - zlen acc <? bps then to_read - zlen acc else bps in
          if 512 <? chunk then Undef else
          read_cluster n' bps to_read (u32 (lba + 1)) d (acc ++ take (Z.to_nat chunk) sec)
      end
  end.

Fixpoint read_chain (n : nat) (v : volume) (to_read cluster : Z) (d : D) (acc : list Z) : out (list Z) :=
  if (EOC_MIN <=? cluster) || (to_read <=? zlen acc) then Done acc else
  match n with
  | O => Fuel
  | S n' =>
      do! (failed, acc) := read_cluster (Z.to_nat (g_sectors_per_cluster v)) (g_bytes_per_sector v) to_read
                             (cluster_to_lba v cluster) d acc in
      if failed then Done acc else
      do! cluster := next_of v d cluster in read_chain n' v to_read cluster d acc
  end.

(** The bytes stored in [buf]: the return value is their number, -1 for [None]. *)
Definition fat32_read_file (path : option cstr) (max_bytes : Z) (f : fat32) (d : D) : out (option (list Z) * fat32) :=
  match path with
  | None => Done (None, f)
  | Some path =>
      if negb (g_ready (vol f)) then Done (None, f) else
      match normalize_path path FAT32_NAME_MAX with
      | None => Done (None, f)
      | Some norm =>
          do! (r, f) := fat32_stat (Some norm) f d in
          match r with
          | None => Done (None, f)
          | Some de =>
              if d_is_dir de then Done (None, f) else
              let to_read := if d_size de <? max_bytes then d_size de else max_bytes in
              do! b := read_chain fuel (vol f) to_read (d_first_cluster de) d [] in Done (Some b, f)
          end
      end
  end.

(** The capacity loop of [fat32_write_file]. *)
Fixpoint chain_capacity (n : nat) (v : volume) (cluster cap : Z) (d : D) : out Z :=
  if (2 <=? cluster) && (cluster <? EOC_MIN) then
    match n with
    | O => Fuel
    | S n' => do! next := next_of v d cluster in
              chain_capacity n' v next (u64 (cap + g_sectors_per_cluster v * g_bytes_per_sector v)) d
    end
  else Done cap.

(** [src]: the bytes still to be written.  [None] for the rest is a failed write. *)
Fixpoint write_cluster (n : nat) (bps lba : Z) (src : list Z) (d : D) : out (option (list Z) * D) :=
  match n with
  | O => Done (Some src, d)
  | S n' =>
      if 512 <? bps then Undef else
      let chunk := take (Z.to_nat bps) src in
      match ata_write lba (chunk ++ repeat 0 (512 - length chunk)) d with
      | None => Done (None, d)
      | Some d => write_cluster n' bps (u32 (lba + 1)) (drop (Z.to_nat bps) src) d
      end
  end.

Fixpoint write_chain (n : nat) (v : volume) (cluster : Z) (src : list Z) (d : D) : out (option (list Z) * D) :=
  if (2 <=? cluster) && (cluster <? EOC_MIN) then
    match n with
    | O => Fuel
    | S n' =>
        do! (r, d) := write_cluster (Z.to_nat (g_sectors_per_cluster v)) (g_bytes_per_sector v)
                        (cluster_to_lba v cluster) src d in
        match r with
        | None => Done (None, d)
        | Some src => do! next := next_of v d cluster in write_chain n' v next src d
        end
    end
  else Done (Some src, d).

(** A 32-bit store into a buffer. *)
Definition put32 (at_ v : Z) (b : list Z) : list Z :=
  aset at_ (Z.land v 0xFF) (aset (at_ + 1) (Z.land (Z.shiftr v 8) 0xFF)
    (aset (at_ + 2) (Z.land (Z.shiftr v 16) 0xFF) (aset (at_ + 3) (Z.land (Z.shiftr v 24) 0xFF) b))).

(** A change of the sector [lba]: read, change, write. *)
Definition update_sector (lba : Z) (g : sector -> sector) (d : D) : Z * D :=
  match ata_read d lba with
  | None => (-1, d)
  | Some sec => match ata_write lba (g sec) d with None => (-1, d) | Some d => (0, d) end
  end.

(** [buf] NULL is [None]; [size] is its length otherwise. *)
Definition fat32_write_file (path : option cstr) (buf : option (list Z)) (size : Z) (f : fat32) (d : D)
  : out (Z * fat32 * D) :=
  match path, buf with
  | None, _ => Done (-1, f, d)
  | Some path, _ =>
      if negb (g_ready (vol f)) || (bool_decide (buf = None) && (0 <? size)) then Done (-1, f, d) else
      match normalize_path path FAT32_NAME_MAX with
      | None => Done (-1, f, d)
      | Some norm =>
          do! (parent, leaf, f) := resolve_parent f (next_of (vol f) d) (ata_read d) norm in
          match leaf with
          | None => Done (-1, f, d)
          | Some k =>
              if parent =? 0 then Done (-1, f, d) else
              do! r := find_entry_raw (vol f) (next_of (vol f) d) (ata_read d) parent (leaf_of f k) in
              match r with
              | None => Done (-1, f, d)
              | Some raw =>
                  if de_is_dir (raw_ent raw) then Done (-1, f, d) else
                  let cluster := de_cluster (raw_ent raw) in
                  if (cluster =? 0) && (0 <? size) then Done (-1, f, d) else
                  do! cap := chain_capacity fuel (vol f) cluster 0 d in
                  if cap <? size then Done (-1, f, d) else
                  do! (rest, d) := write_chain fuel (vol f) cluster (default [] buf) d in
                  match rest with
                  | Some [] => let '(rc, d) := update_sector (raw_lba raw) (put32 (raw_off raw + 28) (u32 size)) d in
                               Done (rc, f, d)
                  | _ => Done (-1, f, d)
                  end
              end
          end
      end
  end.

(** ** Renaming *)

Definition short_char (c : Z) : bool :=
  ((97 <=? c) && (c <=? 122)) || ((65 <=? c) && (c <=? 90)) || ((48 <=? c) && (c <=? 57)) || (c =? 95) || (c =? 45).
Definition upper (c : Z) : Z := if (97 <=? c) && (c <=? 122) then c - 32 else c.

(** The first loop from index [i]: where the dot is, -1 for none; [None] is the return value -1. *)
Fixpoint short_scan (name : cstr) (i dot : Z) : option Z :=
  match name with
  | [] => Some dot
  | c :: name' =>
      if c =? ch_dot then if 0 <=? dot then None else short_scan name' (i + 1) i
      else if short_char c then short_scan name' (i + 1) dot else None
  end.

(** [for (i = 0; i < n; i++) out[to + i] = upper(name[from + i])] *)
Definition short_copy (name : cstr) (from : Z) (n : Z) (to : Z) (out83 : list Z) : list Z :=
  for_up (Z.to_nat n) 0 (fun i => aset (to + i) (upper (aget name (from + i)))) out83.

Definition validate_short_name (name : cstr) : option (list Z) :=
  match name with
  | [] => None
  | _ =>
      match short_scan name 0 (-1) with
      | None => None
      | Some dot =>
          let base_len := if dot <? 0 then zlen name else dot in
          let ext_len := if dot <? 0 then 0 else zlen name - dot - 1 in
          if (base_len <=? 0) || (8 <? base_len) || (3 <? ext_len) then None else
          Some (short_copy name (dot + 1) ext_len 8 (short_copy name 0 base_len 0 (repeat 32 11)))
      end
  end.

Definition fat32_rename (old_path new_path : option cstr) (f : fat32) (d : D) : out (Z * fat32 * D) :=
  match old_path, new_path with
  | Some old_path, Some new_path =>
      if negb (g_ready (vol f)) then Done (-1, f, d) else
      match normalize_path old_path FAT32_NAME_MAX, normalize_path new_path FAT32_NAME_MAX with
      | Some old_norm, Some new_norm =>
          do! (old_parent, old_leaf, f) := resolve_parent f (next_of (vol f) d) (ata_read d) old_norm in
          do! (new_parent, new_leaf, f) := resolve_parent f (next_of (vol f) d) (ata_read d) new_norm in
          match old_leaf, new_leaf with
          | Some ko, Some kn =>
              if (old_parent =? 0) || (new_parent =? 0) then Done (-1, f, d) else
              if negb (old_parent =? new_parent) then Done (-1, f, d) else
              match validate_short_name (leaf_of f kn) with
              | None => Done (-1, f, d)
              | Some new83 =>
                  do! src := find_entry_raw (vol f) (next_of (vol f) d) (ata_read d) old_parent (leaf_of f ko) in
                  match src with
                  | None => Done (-1, f, d)
                  | Some src =>
                      do! dst := find_entry_raw (vol f) (next_of (vol f) d) (ata_read d) new_parent (leaf_of f kn) in
                      match dst with
                      | Some _ => Done (-1, f, d)
                      | None =>
                          let '(rc, d) := update_sector (raw_lba src)
                            (fun sec => for_up 11 0 (fun i => aset (raw_off src + i) (aget new83 i)) sec) d in
                          Done (rc, f, d)
                      end
                  end
              end
          | _, _ => Done (-1, f, d)
          end
      | _, _ => Done (-1, f, d)
      end
  | _, _ => Done (-1, f, d)
  end.
End driver.

(** ** A disk in memory *)

Abbreviation image := (list sector).
#[export] Instance image_disk : AtaDisk image := {|
  ata_read d lba := match d !! Z.to_nat (lba28 lba) with
                    | Some s => if (length s =? 512)%nat then Some s else None
                    | None => None
                    end;
  ata_write lba s d := match d !! Z.to_nat (lba28 lba) with
                       | Some _ => Some (<[Z.to_nat (lba28 lba) := s]> d)
                       | None => None
                       end;
|}.

Lemma lba28_range lba : 0 <= lba28 lba < 0x10000000.
Proof. apply Z.mod_pos_bound. lia. Qed.

#[export] Instance image_laws : AtaLaws image.
Proof.
  split.
  - intros d lba. cbn [ata_read ata_write image_disk]. unfold lba28. by rewrite Z.mod_mod by lia.
  - intros d lba s. cbn [ata_read ata_write image_disk]. destruct (d !! _) as [s'|]; [|done]. destruct (Nat.eqb_spec (length s') 512); [|done]. by intros [= <-].
  - intros d lba s d' lba' Hs. cbn [ata_read ata_write image_disk]. destruct (d !! Z.to_nat (lba28 lba)) as [s0|] eqn:E; [|done]. intros [= <-].
    pose proof (lba28_range lba). pose proof (lba28_range lba'). destruct (Z.eqb_spec (lba28 lba') (lba28 lba)) as [->|Hne].
    + rewrite list_lookup_insert_eq by (by apply lookup_lt_Some in E). by rewrite (proj2 (Nat.eqb_eq _ _)).
    + by rewrite list_lookup_insert_ne by lia.
  - intros d lba s [s' Hs'] Hs. cbn [ata_read ata_write image_disk] in *. destruct (d !! _); [by eexists|done].
Qed.

(** A volume of eight sectors: boot sector, FAT, and clusters 2 to 7 of one sector.  The root
    directory holds A.TXT (900 bytes in the clusters 3 and 5) and the directory D (cluster 4), which
    holds a file with the long name "nested file.txt". *)
Definition pad (n : nat) (b : list Z) : list Z := b ++ repeat 0 (n - length b).
Definition le16 (v : Z) : list Z := [Z.land v 0xFF; Z.land (Z.shiftr v 8) 0xFF].
Definition le32 (v : Z) : list Z := le16 (Z.land v 0xFFFF) ++ le16 (Z.shiftr v 16).

Definition ex_boot : sector :=
  let b := repeat 0 512 in
  let b := aset 11 0x00 (aset 12 0x02 b) in          (* 512 bytes per sector *)
  let b := aset 13 1 (aset 14 1 (aset 16 1 b)) in     (* sectors per cluster, reserved sectors, FATs *)
  let b := aset 36 1 (aset 44 2 b) in                 (* sectors of the FAT, root cluster *)
  aset 510 0x55 (aset 511 0xAA b).
Definition ex_fat : sector :=
  pad 512 (flat_map le32 [0x0FFFFFF8; 0x0FFFFFFF; 0x0FFFFFFF; 5; 0x0FFFFFFF; 0x0FFFFFFF; 0x0FFFFFFF]).
Definition ex_ent (name : list Z) (attr cluster size : Z) : list Z :=
  name ++ [attr; 0; 0; 0; 0; 0; 0; 0; 0] ++ le16 (Z.shiftr cluster 16) ++ [0; 0; 0; 0] ++ le16 (Z.land cluster 0xFFFF) ++ le32 size.
Definition ex_lfn (order : Z) (chars : list Z) : list Z :=
  let w k := le16 (aget (chars ++ [0] ++ repeat 0xFFFF 13) k) in
  [order] ++ flat_map w [0; 1; 2; 3; 4] ++ [0x0F; 0; 0] ++ flat_map w [5; 6; 7; 8; 9; 10] ++ [0; 0] ++ flat_map w [11; 12].
Definition ex_root : sector :=
  pad 512 (ex_ent [65; 32; 32; 32; 32; 32; 32; 32; 84; 88; 84] 0x20 3 900 ++ ex_ent [68; 32; 32; 32; 32; 32; 32; 32; 32; 32; 32] 0x10 4 0).
Definition ex_nested : cstr := [110; 101; 115; 116; 101; 100; 32; 102; 105; 108; 101; 46; 116; 120; 116].
Definition ex_dir : sector :=
  pad 512 (ex_lfn 0x42 (drop 13 ex_nested) ++ ex_lfn 1 (take 13 ex_nested)
           ++ ex_ent [78; 69; 83; 84; 69; 68; 126; 49; 84; 88; 84] 0x20 6 5).
Definition ex_image : image :=
  [ex_boot; ex_fat; ex_root; repeat 97 512; ex_dir; repeat 98 512; pad 512 [1; 2; 3; 4; 5]; repeat 0 512].
Definition ex_fs : fat32 := (fat32_init fat32_zero ex_image).2.
Definition ex_a_txt : cstr := [47; 97; 46; 116; 120; 116].                       (* "/a.txt" *)
Definition ex_nested_path : cstr := [47; 68; 47; 47; 46; 47] ++ ex_nested.       (* "/D//./nested file.txt" *)
