(* ===== verification/Fat32Path.v ===== *)
(** Path names of the FAT32 driver: what [normalize_path] returns is a fixed point of it, and
    [resolve_parent] cuts it into the segments it was written from. *)

From S2P Require Import Prelude CString Path Fat32.

(** A directory or file name as it is kept on the stack of segments. *)
Definition seg255 (seg : cstr) : Prop :=
  seg <> [] /\ seg <> [ch_dot] /\ seg <> [ch_dot; ch_dot] /\ (length seg <= 255)%nat /\ ch_slash ∉ seg.

Lemma span_app seg rest : ch_slash ∉ seg -> (rest = [] \/ head rest = Some ch_slash) -> span_seg (seg ++ rest) = (seg, rest).
Proof.
  intros Hs Hr. induction seg as [|c seg IH]; cbn [app span_seg].
  - destruct rest as [|c rest]; [done|]. destruct Hr as [?|[= ->]]; [done|]. cbn [span_seg]. by rewrite Z.eqb_refl.
  - apply not_elem_of_cons in Hs as [Hne Hs]. rewrite (proj2 (Z.eqb_neq _ _)) by congruence. by rewrite IH.
Qed.

Lemma take_seg_span room p : take_seg room p = (take room (span_seg p).1, (span_seg p).2).
Proof.
  revert room. induction p as [|c p IH]; intros room; cbn [take_seg span_seg]; [by destruct room|].
  destruct (c =? ch_slash); [by destruct room|]. destruct (span_seg p) as [s r]. cbn [fst snd] in *.
  destruct room as [|room]; rewrite IH; done.
Qed.

Lemma take_comp_span room p : (length (span_seg p).1 <= room)%nat -> take_comp room p = span_seg p.
Proof.
  revert room. induction p as [|c p IH]; intros room; cbn [take_comp span_seg]; [by destruct room|].
  destruct (c =? ch_slash) eqn:Hc; [by destruct room; cbn; rewrite ?Hc|]. destruct (span_seg p) as [s r] eqn:Es.
  cbn [fst length]. intros Hl. destruct room as [|room]; [lia|]. cbn [take_comp]. rewrite Hc, IH by (cbn; lia). done.
Qed.

Lemma k_strcpy_id s : (length s <= 255)%nat -> k_strcpy s FAT32_NAME_MAX = s.
Proof.
  intros Hs. unfold k_strcpy. rewrite copy_upto_eq. cbn [fst]. apply take_ge.
  change (Z.to_nat (FAT32_NAME_MAX - 1)) with 255%nat. lia.
Qed.

Lemma norm_step_ok st seg st' :
  (length seg <= 255)%nat -> ch_slash ∉ seg -> Forall seg255 st -> (length st <= 32)%nat ->
  norm_step st seg = Some st' -> Forall seg255 st' /\ (length st' <= 32)%nat.
Proof.
  intros Hl Hs Hst Hn. unfold norm_step. case_bool_decide as D1; [by intros [= <-]|]. case_bool_decide as D2.
  - intros [= <-]. destruct st as [|x st _] using rev_ind; [done|]. rewrite removelast_last.
    apply Forall_app in Hst as [? _]. rewrite length_app in Hn. split; [done|lia].
  - destruct (Z.leb_spec 32 (zlen st)) as [|Hlt]; [done|]. intros [= <-]. rewrite k_strcpy_id by done.
    unfold zlen in Hlt. split; [|rewrite length_app; simpl; lia]. apply Forall_app. split; [done|].
    apply Forall_singleton. split; [naive_solver|]. split; [naive_solver|]. done.
Qed.

Lemma norm_segs_ok n : forall p st st', Forall seg255 st -> (length st <= 32)%nat ->
  norm_segs n p st = Some st' -> Forall seg255 st' /\ (length st' <= 32)%nat.
Proof.
  induction n as [|n IH]; intros [|c p] st st' Hst Hn; cbn [norm_segs]; try done; try (by intros [= <-]).
  rewrite take_seg_span. destruct (norm_step _ _) as [st1|] eqn:E; [|done].
  apply norm_step_ok in E as [H1 H2]; [|..|done|done]; [by apply IH| |].
  - rewrite length_take. change (Z.to_nat (FAT32_NAME_MAX - 1)) with 255%nat. lia.
  - intros Hin. apply (span_seg_noslash (c :: p)). rewrite <- (take_drop (Z.to_nat (FAT32_NAME_MAX - 1))). set_solver.
Qed.

Lemma render_slashed seg segs : render (seg :: segs) = ch_slash :: seg ++ slashed segs.
Proof. done. Qed.

Lemma skip_seg seg rest : seg255 seg -> skip_slashes (seg ++ rest) = seg ++ rest.
Proof.
  intros (H1 & _ & _ & _ & H5). destruct seg as [|c seg]; [done|]. cbn. apply not_elem_of_cons in H5 as [Hne _].
  by rewrite (proj2 (Z.eqb_neq _ _)) by congruence.
Qed.

Lemma skip_slashed segs : Forall seg255 segs ->
  skip_slashes (slashed segs) = match segs with [] => [] | seg :: segs => seg ++ slashed segs end.
Proof.
  intros Hs. destruct segs as [|seg segs]; [done|]. apply Forall_cons in Hs as [Hs _].
  change (slashed (seg :: segs)) with (ch_slash :: seg ++ slashed segs). cbn [skip_slashes]. rewrite Z.eqb_refl. by apply skip_seg.
Qed.

Lemma span_slashed seg segs : seg255 seg -> span_seg (seg ++ slashed segs) = (seg, slashed segs).
Proof. intros (_ & _ & _ & _ & Hs). apply span_app; [done|]. destruct segs; [by left|by right]. Qed.

Lemma norm_segs_id segs : forall seg n st, seg255 seg -> Forall seg255 segs ->
  (length st + S (length segs) <= 32)%nat -> (length (seg ++ slashed segs) <= n)%nat ->
  norm_segs n (seg ++ slashed segs) st = Some (st ++ seg :: segs).
Proof.
  induction segs as [|seg2 segs IH]; intros seg n st Hs Hf Hl Hn.
  all: destruct n as [|n]; [destruct Hs as [Hne _]; destruct seg; [done|cbn in Hn; lia]|].
  all: destruct (seg ++ slashed _) as [|c p] eqn:Ep; [destruct Hs as [Hne _]; by destruct seg|].
  all: cbn [norm_segs]; rewrite take_seg_span, <- Ep, span_slashed by done; cbn [fst snd].
  all: pose proof Hs as (H1 & H2 & H3 & H4 & H5); rewrite take_ge by (change (Z.to_nat (FAT32_NAME_MAX - 1)) with 255%nat; lia).
  all: unfold norm_step; rewrite bool_decide_false by naive_solver; rewrite bool_decide_false by done.
  all: cbn [length] in Hl; rewrite (proj2 (Z.leb_gt 32 (zlen st))) by (unfold zlen; lia); rewrite k_strcpy_id by done.
  - by destruct n.
  - rewrite skip_slashed by done. apply Forall_cons in Hf as [Hf1 Hf2]. rewrite IH; [|done|done|..].
    + by rewrite <- app_assoc.
    + rewrite length_app. cbn. lia.
    + rewrite <- Ep in Hn. change (slashed (seg2 :: segs)) with (ch_slash :: seg2 ++ slashed segs) in Hn.
      rewrite length_app in Hn. cbn [length] in Hn. lia.
Qed.

(** What a normalised path is. *)
Definition norm_path (p : cstr) (segs : list cstr) : Prop :=
  p = render segs /\ Forall seg255 segs /\ (length segs <= 32)%nat /\ zlen p < FAT32_NAME_MAX.

Lemma normalize_shape p norm : normalize_path p FAT32_NAME_MAX = Some norm -> exists segs, norm_path norm segs.
Proof.
  unfold normalize_path. cbn [Z.leb Z.compare FAT32_NAME_MAX]. destruct p as [|c p]; [done|].
  destruct (c =? ch_slash); [|done]. destruct (norm_segs _ _ _) as [segs|] eqn:E; [|done].
  apply norm_segs_ok in E as [H1 H2]; [|constructor|simpl; lia]. change 256 with FAT32_NAME_MAX.
  rewrite put_segs_render by done. case_bool_decide as D; [|done]. intros [= <-]. by exists segs.
Qed.

Lemma normalize_norm norm segs : norm_path norm segs -> normalize_path norm FAT32_NAME_MAX = Some norm.
Proof.
  intros (-> & Hf & Hl & Hz). unfold normalize_path. cbn [Z.leb Z.compare FAT32_NAME_MAX].
  change (256 <=? 1) with false. cbn match beta.
  assert (forall q, norm_segs (length q) q [] = Some segs -> match norm_segs (length q) q [] with
            | Some segs => put_segs 256 true [ch_slash] segs | None => None end = Some (render segs)) as Hput.
  { intros q ->. rewrite put_segs_render by done. by rewrite bool_decide_true. }
  destruct segs as [|seg segs]; [done|]. rewrite render_slashed in *. rewrite Z.eqb_refl.
  cbn [skip_slashes]. rewrite Z.eqb_refl. apply Forall_cons in Hf as [Hf1 Hf2]. rewrite skip_seg by done.
  apply Hput. apply norm_segs_id; [done|done| |done]. cbn [length] in *. lia.
Qed.

Lemma path_comps_slashed segs : forall seg n, seg255 seg -> Forall seg255 segs -> (S (length segs) <= n)%nat ->
  path_comps n (seg ++ slashed segs) = seg :: segs.
Proof.
  induction segs as [|seg2 segs IH]; intros seg n Hs Hf Hn.
  all: destruct n as [|n]; [lia|].
  all: destruct (seg ++ slashed _) as [|c p] eqn:Ep; [destruct Hs as [Hne _]; by destruct seg|].
  all: cbn [path_comps]; rewrite take_comp_span by
    (rewrite <- Ep, span_slashed by done; cbn; change (Z.to_nat (FAT32_NAME_MAX - 1)) with 255%nat; apply Hs).
  all: rewrite <- Ep, span_slashed by done.
  - by destruct n.
  - rewrite skip_slashed by done. apply Forall_cons in Hf as [Hf1 Hf2]. rewrite IH; [done|done|done|]. cbn in Hn. lia.
Qed.

Lemma path_comps_norm norm segs : norm_path norm segs -> path_comps 32 (skip_slashes norm) = segs.
Proof.
  intros (-> & Hf & Hl & _). destruct segs as [|seg segs]; [done|]. rewrite render_slashed. cbn [skip_slashes].
  rewrite Z.eqb_refl. apply Forall_cons in Hf as [Hf1 Hf2]. rewrite skip_seg by done. by apply path_comps_slashed.
Qed.

Lemma norm_root norm segs : norm_path norm segs -> norm = [ch_slash] <-> segs = [].
Proof.
  intros (-> & Hf & _). destruct segs as [|seg segs]; [done|]. apply Forall_cons in Hf as [(H1 & _) _].
  rewrite render_slashed. split; [|done]. intros [= E]. by destruct seg.
Qed.
