(* ===== verification/Fat32Scan.v ===== *)
(** The directory loops of the FAT32 driver: what they do on two disks that agree, and what they do
    in terms of the listing of the directory. *)

From S2P Require Import Prelude CString Path Fat32 Fat32Path.

(** The callbacks that look for an entry: they stop at the first one for which [p] answers. *)
Definition finder {X} (p : Z -> Z -> list Z -> cstr -> option X) (lba off : Z) (ent : list Z) (name : cstr)
  (c : option X) : bool * option X :=
  match p lba off ent name with Some x => (true, Some x) | None => (false, c) end.

Section cb_ext.
Context {C : Type} (cb1 cb2 : Z -> Z -> list Z -> cstr -> C -> bool * C).
Hypothesis cb_eq : forall lba off ent name c, cb1 lba off ent name c = cb2 lba off ent name c.
Variables (all : bool) (v : volume) (next : Z -> out Z) (rd : Z -> option sector).

Lemma entry_step_ext lba off ent l c : entry_step all cb1 lba off ent l c = entry_step all cb2 lba off ent l c.
Proof.
  unfold entry_step. do 5 (case_match; [done|]). destruct (if has_lfn l then _ else _); [|done|done].
  cbn [bind_out]. by rewrite cb_eq.
Qed.

Lemma entries_loop_ext n : forall i lba sec l c, entries_loop all cb1 n i lba sec l c = entries_loop all cb2 n i lba sec l c.
Proof.
  induction n as [|n IH]; intros i lba sec l c; [done|]. cbn [entries_loop]. case_match; [done|].
  rewrite entry_step_ext. destruct (entry_step _ _ _ _ _ _ _) as [[[]|]| |]; try done. apply IH.
Qed.

Lemma sectors_loop_ext n : forall lba l c, sectors_loop all cb1 v rd n lba l c = sectors_loop all cb2 v rd n lba l c.
Proof.
  induction n as [|n IH]; intros lba l c; [done|]. cbn [sectors_loop]. case_match; [|done].
  rewrite entries_loop_ext. destruct (entries_loop _ _ _ _ _ _ _ _) as [[[]|]| |]; try done. apply IH.
Qed.

Lemma clusters_loop_ext n : forall cl l c,
  clusters_loop all cb1 v next rd n cl l c = clusters_loop all cb2 v next rd n cl l c.
Proof.
  induction n as [|n IH]; intros cl l c; [done|]. cbn [clusters_loop]. case_match; [done|].
  rewrite sectors_loop_ext. destruct (sectors_loop _ _ _ _ _ _ _ _) as [[[]|[]]| |]; try done. cbn [bind_out].
  destruct (next cl); try done. apply IH.
Qed.
End cb_ext.

(** ** The same search on another disk *)

(** The bytes of an entry the loops look at: all but its size, unless it is part of a long name. *)
Definition like (ent ent' : list Z) : Prop :=
  (forall i, 0 <= i < 28 -> aget ent' i = aget ent i) /\ take 11 ent' = take 11 ent
  /\ (de_attr ent = ATTR_LFN -> ent' = ent).

Definition entry_at (sec : sector) (i : Z) : list Z := take 32 (drop (Z.to_nat (i * DIR_ENTRY_SIZE)) sec).

Section transfer.
Context {X Y : Type}.
Variables (all : bool) (v : volume) (next1 next2 : Z -> out Z) (rd1 rd2 : Z -> option sector).
Variables (patch : Z -> Z -> list Z -> list Z) (g : X -> Y).
Variables (p1 : Z -> Z -> list Z -> cstr -> option X) (p2 : Z -> Z -> list Z -> cstr -> option Y).
Hypothesis rd_sim : forall lba s1, rd1 lba = Some s1 -> exists s2, rd2 lba = Some s2
  /\ forall i, 0 <= i < 16 -> entry_at s2 i = patch lba (i * DIR_ENTRY_SIZE) (entry_at s1 i).
Hypothesis patch_like : forall lba off ent, like ent (patch lba off ent).
Hypothesis next_sim : forall c n, next1 c = Done n -> n < EOC_MIN -> next2 c = Done n.
Hypothesis p_sim : forall lba off ent name, p2 lba off (patch lba off ent) name = option_map g (p1 lba off ent name).

Lemma entry_step_sim lba off ent l r :
  entry_step all (finder p1) lba off ent l None = Done r ->
  match r with
  | Go (l', c) => c = None /\ entry_step all (finder p2) lba off (patch lba off ent) l None = Done (Go (l', None))
  | Halt (l', None) => True
  | Halt (l', Some x) => entry_step all (finder p2) lba off (patch lba off ent) l None = Done (Halt (l', Some (g x)))
  end.
Proof.
  destruct (patch_like lba off ent) as (Hb & Ht & Hl). unfold entry_step, de_attr, rd8, name83 in *.
  rewrite !Hb, Ht by lia. destruct (aget ent 0 =? 0); [by intros [= <-]|].
  destruct (aget ent 0 =? 0xE5); [by intros [= <-]|].
  destruct (Z.eqb_spec (aget ent 11) ATTR_LFN) as [E|E].
  { rewrite (Hl E). destruct (lfn_entry _ _ _); cbn [bind_out]; try done. by intros [= <-]. }
  destruct (negb _); [by intros [= <-]|]. destruct (aget ent 0 =? ch_dot); [by intros [= <-]|].
  destruct (if has_lfn l then _ else _) as [name| |]; cbn [bind_out]; try done.
  unfold finder. rewrite p_sim. destruct (p1 lba off ent name) as [x|]; cbn [option_map]; by intros [= <-].
Qed.

Lemma entries_loop_sim n : forall i lba s1 s2 l r, 0 <= i ->
  (forall i, 0 <= i < 16 -> entry_at s2 i = patch lba (i * DIR_ENTRY_SIZE) (entry_at s1 i)) ->
  entries_loop all (finder p1) n i lba s1 l None = Done r ->
  match r with
  | Go (l', c) => c = None /\ entries_loop all (finder p2) n i lba s2 l None = Done (Go (l', None))
  | Halt (l', None) => True
  | Halt (l', Some x) => entries_loop all (finder p2) n i lba s2 l None = Done (Halt (l', Some (g x)))
  end.
Proof.
  induction n as [|n IH]; intros i lba s1 s2 l r Hi Hs; cbn [entries_loop]; [by intros [= <-]|].
  destruct (Z.ltb_spec 512 ((i + 1) * DIR_ENTRY_SIZE)) as [|Hle]; [done|]. unfold DIR_ENTRY_SIZE in Hle.
  fold (entry_at s1 i) (entry_at s2 i). rewrite Hs by lia.
  destruct (entry_step all (finder p1) lba _ (entry_at s1 i) l None) as [r1| |] eqn:E; cbn [bind_out]; try done.
  pose proof (entry_step_sim _ _ _ _ _ E) as He. destruct r1 as [[l1 c1]|[l1 [x|]]].
  - destruct He as [-> ->]. cbn [bind_out]. intros Hr. by apply (IH (i + 1) lba s1 s2) in Hr; [|lia|].
  - intros [= <-]. by rewrite He.
  - by intros [= <-].
Qed.

Lemma sectors_loop_sim n : forall lba l r,
  sectors_loop all (finder p1) v rd1 n lba l None = Done r ->
  match r with
  | Go (l', c) => c = None /\ sectors_loop all (finder p2) v rd2 n lba l None = Done (Go (l', None))
  | Halt (l', None) => True
  | Halt (l', Some x) => sectors_loop all (finder p2) v rd2 n lba l None = Done (Halt (l', Some (g x)))
  end.
Proof.
  induction n as [|n IH]; intros lba l r; cbn [sectors_loop]; [by intros [= <-]|].
  destruct (rd1 lba) as [s1|] eqn:E1; [|by intros [= <-]]. destruct (rd_sim lba s1 E1) as (s2 & -> & Hs).
  destruct (entries_loop all (finder p1) _ 0 lba s1 l None) as [r1| |] eqn:E; cbn [bind_out]; try done.
  apply (entries_loop_sim _ 0 lba s1 s2) in E; [|lia|done]. destruct r1 as [[l1 c1]|[l1 [x|]]].
  - destruct E as [-> ->]. cbn [bind_out]. apply IH.
  - intros [= <-]. by rewrite E.
  - by intros [= <-].
Qed.

(** A search that finds something finds the same on the other disk. *)
Lemma clusters_loop_sim n : forall cl l x,
  clusters_loop all (finder p1) v next1 rd1 n cl l None = Done (Some x) ->
  clusters_loop all (finder p2) v next2 rd2 n cl l None = Done (Some (g x)).
Proof.
  induction n as [|n IH]; intros cl l x; cbn [clusters_loop]; destruct (Z.leb_spec EOC_MIN cl); try done.
  destruct (sectors_loop all (finder p1) v rd1 _ _ l None) as [r1| |] eqn:E; cbn [bind_out]; try done.
  apply sectors_loop_sim in E. destruct r1 as [[l1 c1]|[l1 [y|]]]; try done.
  - destruct E as [-> ->]. cbn [bind_out]. destruct (next1 cl) as [nx| |] eqn:En; cbn [bind_out]; try done.
    intros Hx. assert (nx < EOC_MIN) as Hlt.
    { destruct (Z.ltb_spec nx EOC_MIN); [done|]. destruct n; cbn [clusters_loop] in Hx; by rewrite (proj2 (Z.leb_le _ _)) in Hx. }
    rewrite (next_sim _ _ En Hlt). cbn [bind_out]. by apply IH.
  - intros [= ->]. by rewrite E.
Qed.
End transfer.

(** ** The listing of a directory

    [listing] runs [iterate_dir] to the end of the directory and keeps every entry with its name.
    Any other run of [iterate_dir] is a walk along that list which may stop early. *)

Abbreviation entry := (list Z * cstr)%type.

Section listing.
Variables (v : volume) (next : Z -> out Z) (rd : Z -> option sector).

Definition collect (lba off : Z) (ent : list Z) (name : cstr) (c : list entry) : bool * list entry :=
  (false, c ++ [(ent, name)]).

Context {C : Type} (cb : list Z -> cstr -> C -> bool * C).

(** The walk: whether it stopped, and the context. *)
Fixpoint visit (es : list entry) (c : C) : bool * C :=
  match es with
  | [] => (false, c)
  | (ent, name) :: es' => let '(stop, c) := cb ent name c in if stop then (true, c) else visit es' c
  end.

Lemma visit_app a b c : visit (a ++ b) c = if (visit a c).1 then visit a c else visit b (visit a c).2.
Proof.
  revert c. induction a as [|[ent name] a IH]; intros c; [done|]. cbn [app visit].
  destruct (cb ent name c) as [[] c']; [done|]. apply IH.
Qed.

(** [k] does with [cb] what led the listing from [acc] to [r]. *)
Definition follows (acc : list entry) (r : flow (lfn_state * list entry)) (k : C -> out (flow (lfn_state * C))) : Prop :=
  exists es, match r with Go (_, a) | Halt (_, a) => a = acc ++ es end
    /\ forall c, if (visit es c).1 then exists l', k c = Done (Halt (l', (visit es c).2))
                 else k c = Done (match r with
                                  | Go (l', _) => Go (l', (visit es c).2)
                                  | Halt (l', _) => Halt (l', (visit es c).2)
                                  end).

Lemma follows_nil acc r k :
  match r with Go (_, a) | Halt (_, a) => a = acc end ->
  (forall c, k c = Done (match r with Go (l', _) => Go (l', c) | Halt (l', _) => Halt (l', c) end)) -> follows acc r k.
Proof. intros Ha Hk. exists []. split; [destruct r as [[]|[]]; by rewrite app_nil_r|]. intros c. by rewrite Hk. Qed.

(** Sequencing: [r1] goes on, the rest follows from there. *)
Lemma follows_bind acc l1 a1 r k (k2 : lfn_state -> C -> out (flow (lfn_state * C))) :
  follows acc (Go (l1, a1)) k -> follows a1 r (k2 l1) ->
  follows acc r (fun c => bind_out (k c) (fun r => match r with Go (l, c) => k2 l c | Halt x => Done (Halt x) end)).
Proof.
  intros (e1 & -> & H1) (e2 & Ha & H2). exists (e1 ++ e2). split; [destruct r as [[]|[]]; by rewrite Ha, app_assoc|].
  intros c. specialize (H1 c). rewrite visit_app. destruct (visit e1 c) as [[] c1]; cbn [fst snd] in *.
  - destruct H1 as [l' ->]. by exists l'.
  - rewrite H1. cbn [bind_out]. apply H2.
Qed.

Lemma follows_halt acc x k (k2 : lfn_state -> C -> out (flow (lfn_state * C))) :
  follows acc (Halt x) k ->
  follows acc (Halt x) (fun c => bind_out (k c) (fun r => match r with Go (l, c) => k2 l c | Halt x => Done (Halt x) end)).
Proof.
  destruct x as [l a]. intros (e1 & Ha & H1). exists e1. split; [done|]. intros c. specialize (H1 c).
  destruct (visit e1 c) as [[] c1]; cbn [fst snd] in *; [destruct H1 as [l' ->]; by exists l'|by rewrite H1].
Qed.

Let cb' : Z -> Z -> list Z -> cstr -> C -> bool * C := fun _ _ => cb.

Lemma entry_step_follows lba off ent l acc r :
  entry_step true collect lba off ent l acc = Done r -> follows acc r (entry_step true cb' lba off ent l).
Proof.
  unfold entry_step.
  destruct (rd8 ent 0 =? 0); [intros [= <-]; by apply follows_nil|].
  destruct (rd8 ent 0 =? 0xE5); [intros [= <-]; by apply follows_nil|].
  destruct (de_attr ent =? ATTR_LFN).
  { destruct (lfn_entry _ _ _); cbn [bind_out]; try done. intros [= <-]. by apply follows_nil. }
  destruct (negb _); [intros [= <-]; by apply follows_nil|].
  destruct (rd8 ent 0 =? ch_dot); [intros [= <-]; by apply follows_nil|].
  destruct (if has_lfn l then _ else _) as [name| |]; cbn [bind_out collect]; try done. intros [= <-].
  exists [(ent, name)]. split; [done|]. intros c. cbn [visit]. unfold cb'. destruct (cb ent name c) as [[] c']; cbn; eauto.
Qed.

Lemma entries_loop_follows n : forall i lba sec l acc r,
  entries_loop true collect n i lba sec l acc = Done r -> follows acc r (entries_loop true cb' n i lba sec l).
Proof.
  induction n as [|n IH]; intros i lba sec l acc r; cbn [entries_loop]; [intros [= <-]; by apply follows_nil|].
  destruct (512 <? _); [done|]. destruct (entry_step true collect _ _ _ l acc) as [r1| |] eqn:E; cbn [bind_out]; try done.
  apply entry_step_follows in E. destruct r1 as [[l1 a1]|x].
  - intros Hr. apply IH in Hr. exact (follows_bind _ _ _ _ _ _ E Hr).
  - intros [= <-]. exact (follows_halt _ _ _ (fun l c => entries_loop true cb' n (i + 1) lba sec l c) E).
Qed.

Lemma sectors_loop_follows n : forall lba l acc r,
  sectors_loop true collect v rd n lba l acc = Done r -> follows acc r (sectors_loop true cb' v rd n lba l).
Proof.
  induction n as [|n IH]; intros lba l acc r; cbn [sectors_loop]; [intros [= <-]; by apply follows_nil|].
  destruct (rd lba) as [sec|]; [|intros [= <-]; by apply follows_nil].
  destruct (entries_loop true collect _ _ _ _ l acc) as [r1| |] eqn:E; cbn [bind_out]; try done.
  apply entries_loop_follows in E. destruct r1 as [[l1 a1]|x].
  - intros Hr. apply IH in Hr. exact (follows_bind _ _ _ _ _ _ E Hr).
  - intros [= <-]. exact (follows_halt _ _ _ (fun l c => sectors_loop true cb' v rd n (u32 (lba + 1)) l c) E).
Qed.

Lemma clusters_loop_follows n : forall cl l acc a,
  clusters_loop true collect v next rd n cl l acc = Done a ->
  exists es, a = acc ++ es /\ forall c, clusters_loop true cb' v next rd n cl l c = Done (visit es c).2.
Proof.
  induction n as [|n IH]; intros cl l acc a; cbn [clusters_loop]; destruct (EOC_MIN <=? cl); try done.
  1, 2: intros [= <-]; exists []; by rewrite app_nil_r.
  destruct (sectors_loop true collect _ _ _ _ l acc) as [r1| |] eqn:E; cbn [bind_out]; try done.
  apply sectors_loop_follows in E as (e1 & Ha & H1). destruct r1 as [[l1 a1]|[l1 a1]]; subst a1.
  - destruct (next cl) as [nx| |] eqn:En; cbn [bind_out]; try done. intros Hr. apply IH in Hr as (e2 & -> & H2).
    exists (e1 ++ e2). split; [by rewrite app_assoc|]. intros c. specialize (H1 c). rewrite visit_app.
    destruct (visit e1 c) as [[] c1]; cbn [fst snd] in *; [by destruct H1 as [l' ->]|].
    rewrite H1. cbn [bind_out]. apply H2.
  - intros [= <-]. exists e1. split; [done|]. intros c. specialize (H1 c).
    destruct (visit e1 c) as [[] c1]; cbn [fst snd] in *; [by destruct H1 as [l' ->]|by rewrite H1].
Qed.

Definition listing (fuel : nat) (start : Z) : out (list entry) :=
  clusters_loop true collect v next rd fuel start lfn_init [].

Lemma iterate_dir_visit fuel start es c :
  listing fuel start = Done es -> iterate_dir fuel v next rd cb start c = Done (visit es c).2.
Proof. intros E. unfold listing in E. apply clusters_loop_follows in E as (es' & -> & Hv). apply Hv. Qed.
End listing.

(** A callback that stops at the first entry it likes, and one that fills a table. *)
Lemma visit_find {X} (cb : list Z -> cstr -> option X -> bool * option X) (p : list Z -> cstr -> option X) es :
  (forall ent name, cb ent name None = match p ent name with Some x => (true, Some x) | None => (false, None) end) ->
  (visit cb es None).2 = head (omap (fun e => p e.1 e.2) es).
Proof.
  intros Hcb. induction es as [|[ent name] es IH]; [done|]. cbn [visit]. rewrite Hcb. cbn. by destruct (p ent name).
Qed.

Lemma visit_list max es c : zlen c <= max ->
  (visit (list_cb max) es c).2 = c ++ take (Z.to_nat (max - zlen c)) (map (fun e => dirent_of e.1 e.2) es).
Proof.
  revert c. induction es as [|[ent name] es IH]; intros c Hc; cbn [visit map].
  { by rewrite take_nil, app_nil_r. }
  unfold list_cb at 1. destruct (Z.leb_spec max (zlen c)).
  - cbn [snd]. replace (Z.to_nat (max - zlen c)) with 0%nat by lia. by rewrite app_nil_r.
  - rewrite IH by (rewrite zlen_app, zlen_cons, zlen_nil; lia). rewrite <- app_assoc, zlen_app, zlen_cons, zlen_nil.
    replace (Z.to_nat (max - zlen c)) with (S (Z.to_nat (max - (zlen c + (1 + 0))))) by lia. done.
Qed.
