(* ===== verification/Fat32Props.v ===== *)
(** What the FAT32 driver promises: [fat32_stat] and [fat32_list_dir] follow the listings of the
    directories, and [fat32_rename] never renames. *)

From S2P Require Import Prelude CString Path Fat32 Fat32Path Fat32Scan.

(** ** The reference: directories as listings *)

Section reference.
Variable fuel : nat.
Context {D : Type} `{AtaDisk D}.
Implicit Types (v : volume) (f : fat32) (d : D).

Definition dir_listing v d (cluster : Z) : out (list entry) := listing v (next_of v d) (ata_read d) fuel cluster.

(** The first entry whose name is [name] up to case, among those [p] accepts. *)
Definition first_named (p : list Z -> bool) (name : cstr) (es : list entry) : option entry :=
  head (filter (fun e => p e.1 && same_name e.2 name) es).

Definition sub_cluster v (e : entry) : Z := if de_cluster e.1 =? 0 then g_root_cluster v else de_cluster e.1.

(** The directory reached from [cur]; [None] when one is missing. *)
Fixpoint spec_walk v d (names : list cstr) (cur : Z) : out (option Z) :=
  match names with
  | [] => Done (Some cur)
  | name :: names' =>
      do! es := dir_listing v d cur in
      match first_named de_is_dir name es with
      | Some e => spec_walk v d names' (sub_cluster v e)
      | None => Done None
      end
  end.

Definition root_dirent v : dirent := mkDirent32 [ch_slash] 0 true (g_root_cluster v).

(** The entry of the file with the segments [segs]. *)
Definition spec_stat v d (segs : list cstr) : out (option dirent) :=
  match last segs with
  | None => Done (Some (root_dirent v))
  | Some leaf =>
      do! r := spec_walk v d (removelast segs) (g_root_cluster v) in
      match r with
      | None => Done None
      | Some cur => do! es := dir_listing v d cur in
                    Done (option_map (fun e => dirent_of e.1 e.2) (first_named (fun _ => true) leaf es))
      end
  end.

(** The first [max] entries of the directory with the segments [segs]. *)
Definition spec_list v d (segs : list cstr) (max : Z) : out (option (list dirent)) :=
  do! r := spec_stat v d segs in
  match r with
  | None => Done None
  | Some de =>
      if d_is_dir de then
        do! es := dir_listing v d (d_first_cluster de) in
        Done (Some (take (Z.to_nat max) (map (fun e => dirent_of e.1 e.2) es)))
      else Done None
  end.

(** ** The driver follows the reference *)

Lemma omap_first {X} (p : list Z -> bool) name (h : entry -> X) es :
  head (omap (fun e => if p e.1 && same_name e.2 name then Some (h e) else None) es)
  = option_map h (first_named p name es).
Proof.
  unfold first_named. induction es as [|e es IH]; [done|]. rewrite filter_cons. cbn [omap list_omap].
  destruct (p e.1 && same_name e.2 name); [done|exact IH].
Qed.

Lemma find_dir_first v d name cur es : dir_listing v d cur = Done es ->
  iterate_dir fuel v (next_of v d) (ata_read d) (find_dir_cb v name) cur None
  = Done (option_map (sub_cluster v) (first_named de_is_dir name es)).
Proof.
  intros Hl. rewrite (iterate_dir_visit _ _ _ _ _ _ _ _ Hl). f_equal. rewrite <- omap_first.
  rewrite (visit_find _ (fun ent nm => if de_is_dir ent && same_name nm name then Some (sub_cluster v (ent, nm)) else None)).
  { done. }
  intros ent nm. unfold find_dir_cb. by destruct (_ && _).
Qed.

Lemma stat_first v d name cur es : dir_listing v d cur = Done es ->
  iterate_dir fuel v (next_of v d) (ata_read d) (stat_cb name) cur None
  = Done (option_map (fun e => dirent_of e.1 e.2) (first_named (fun _ => true) name es)).
Proof.
  intros Hl. rewrite (iterate_dir_visit _ _ _ _ _ _ _ _ Hl). f_equal. rewrite <- omap_first.
  rewrite (visit_find _ (fun ent nm => if true && same_name nm name then Some (dirent_of ent nm) else None)).
  { done. }
  intros ent nm. unfold stat_cb. cbn [andb]. by destruct (same_name _ _).
Qed.

Lemma walk_spec v d names : g_root_cluster v <> 0 -> forall cur r, cur <> 0 -> spec_walk v d names cur = Done r ->
  walk_dirs fuel v (next_of v d) (ata_read d) names cur = Done (default 0 r) /\ (forall c, r = Some c -> c <> 0).
Proof.
  intros Hroot. induction names as [|name names IH]; intros cur r Hcur; cbn [spec_walk walk_dirs].
  { intros [= <-]. split; [done|]. by intros c [= <-]. }
  destruct (dir_listing v d cur) as [es| |] eqn:El; cbn [bind_out]; try done.
  rewrite (find_dir_first v d name cur es El). cbn [bind_out].
  destruct (first_named _ name es) as [e|]; cbn [option_map]; [|by intros [= <-]].
  apply IH. unfold sub_cluster. destruct (Z.eqb_spec (de_cluster e.1) 0); done.
Qed.

(** What [resolve_parent] leaves in its array. *)
Definition with_comps (segs : list cstr) f : fat32 := f <| comps := segs ++ drop (length segs) (comps f) |>.

Lemma leaf_last segs f : segs <> [] -> leaf_of (with_comps segs f) (zlen segs - 1) = default [] (last segs).
Proof.
  intros Hne. destruct segs as [|x segs _] using rev_ind; [done|]. rewrite last_snoc. cbn [default].
  unfold leaf_of, with_comps, aget. cbn [comps]. fields.
  rewrite <- app_assoc. rewrite zlen_app, zlen_cons, zlen_nil.
  replace (Z.to_nat (zlen segs + (1 + 0) - 1)) with (length segs) by (unfold zlen; lia).
  cbn [comps app]. by rewrite list_lookup_total_middle.
Qed.

Lemma resolve_parent_eq f next rd norm segs : norm_path norm segs -> segs <> [] ->
  resolve_parent fuel f next rd norm
  = (do! cur := walk_dirs fuel (vol f) next rd (removelast segs) (g_root_cluster (vol f)) in
     Done (cur, Some (zlen segs - 1), with_comps segs f)).
Proof.
  intros Hn Hne. unfold resolve_parent. rewrite (path_comps_norm _ _ Hn). by destruct segs.
Qed.

Lemma stat_spec f d path norm segs r :
  g_ready (vol f) = true -> g_root_cluster (vol f) <> 0 ->
  normalize_path path FAT32_NAME_MAX = Some norm -> norm_path norm segs -> spec_stat (vol f) d segs = Done r ->
  fat32_stat fuel (Some path) f d = Done (r, if bool_decide (segs = []) then f else with_comps segs f).
Proof.
  intros Hr Hroot Hpath Hn Hs. unfold fat32_stat. rewrite Hr, Hpath. cbn [negb].
  rewrite (bool_decide_ext _ _ (norm_root _ _ Hn)). case_bool_decide as Hnil.
  { subst segs. cbn in Hs. by injection Hs as <-. }
  rewrite (resolve_parent_eq _ _ _ _ _ Hn Hnil).
  unfold spec_stat in Hs. destruct (last segs) as [leaf|] eqn:El; [|by apply last_None in El].
  destruct (spec_walk _ _ _ _) as [w| |] eqn:Ew; cbn [bind_out] in Hs; try done.
  destruct (walk_spec _ _ _ Hroot _ _ Hroot Ew) as [-> Hw]. cbn [bind_out].
  destruct w as [cur|]; cbn [default].
  - unfold id. rewrite (proj2 (Z.eqb_neq cur 0)) by auto.
    destruct (dir_listing _ d cur) as [es| |] eqn:Ed; cbn [bind_out] in Hs; try done.
    rewrite leaf_last, El by done. cbn [default]. unfold id. cbn [vol with_comps]. fields.
    rewrite (stat_first _ _ _ _ _ Ed). cbn [bind_out]. congruence.
  - injection Hs as <-. done.
Qed.

(** The segments of a normalised path. *)
Lemma normal_segs path norm : normalize_path path FAT32_NAME_MAX = Some norm ->
  exists segs, norm_path norm segs /\ path_comps 32 (skip_slashes norm) = segs.
Proof.
  intros Hp. destruct (normalize_shape _ _ Hp) as [segs Hs]. exists segs. split; [done|]. by apply path_comps_norm.
Qed.

(** C36: [fat32_stat] and [fat32_list_dir] follow the directories.  For a mounted volume and a path
    that normalises to the segments [segs] (which normalising again leaves alone), whenever the
    directories on the way can be listed to their end: stat answers the first entry of the last
    directory whose name is the last segment up to case, reached through the first subdirectory with
    each name before it, and -1 when one is missing; listing returns the first [max] entries of the
    directory, in the order of the disk. *)
Theorem fat32_lookup_spec f d path norm :
  g_ready (vol f) = true -> g_root_cluster (vol f) <> 0 -> normalize_path path FAT32_NAME_MAX = Some norm ->
  let segs := path_comps 32 (skip_slashes norm) in
  normalize_path norm FAT32_NAME_MAX = Some norm
  /\ (forall r, spec_stat (vol f) d segs = Done r ->
        exists f', fat32_stat fuel (Some path) f d = Done (r, f') /\ vol f' = vol f)
  /\ (forall max r, 0 < max -> spec_list (vol f) d segs max = Done r ->
        exists f', fat32_list_dir fuel (Some path) max f d = Done (r, f') /\ vol f' = vol f).
Proof.
  intros Hr Hroot Hp segs. destruct (normal_segs _ _ Hp) as (segs' & Hn & E). unfold segs. rewrite E. clear E segs.
  pose proof (normalize_norm _ _ Hn) as Hnn. split; [done|]. split.
  { intros r Hs. rewrite (stat_spec _ _ _ _ _ _ Hr Hroot Hp Hn Hs). eexists. split; [done|]. by case_bool_decide. }
  intros max r Hmax Hs. unfold fat32_list_dir. rewrite Hr, Hp, (proj2 (Z.leb_gt max 0)) by lia. cbn [negb orb].
  unfold spec_list in Hs. destruct (spec_stat _ d _) as [st| |] eqn:Es; cbn [bind_out] in Hs; try done.
  assert (forall es, (visit (list_cb max) es []).2 = take (Z.to_nat max) (map (fun e => dirent_of e.1 e.2) es)) as Hvis.
  { intros es. rewrite visit_list by (rewrite zlen_nil; lia). rewrite zlen_nil, Z.sub_0_r. done. }
  rewrite (bool_decide_ext _ _ (norm_root _ _ Hn)). case_bool_decide as Hnil.
  - subst segs'. cbn in Es. injection Es as <-. cbn [d_is_dir root_dirent d_first_cluster] in Hs.
    destruct (dir_listing _ d _) as [es| |] eqn:El; cbn [bind_out] in Hs; try done. injection Hs as <-.
    rewrite (iterate_dir_visit _ _ _ _ _ _ _ _ El). cbn [bind_out]. rewrite Hvis. by exists f.
  - rewrite (stat_spec _ _ _ _ _ _ Hr Hroot Hnn Hn Es). rewrite bool_decide_false by done. cbn [bind_out].
    destruct st as [de|]; [|injection Hs as <-; by eexists]. destruct (d_is_dir de); [|injection Hs as <-; by eexists].
    destruct (dir_listing _ d _) as [es| |] eqn:El; cbn [bind_out] in Hs; try done. injection Hs as <-.
    cbn [vol with_comps]. fields. cbn [vol].
    rewrite (iterate_dir_visit _ _ _ _ _ _ _ _ El). cbn [bind_out]. rewrite Hvis. by eexists.
Qed.

(** ** Renaming

    Both leaves are pointers into the array of [resolve_parent], which the second call overwrites: with
    as many components in both paths they are the same string. *)

(** [fat32_rename] never renames.  For two paths with the same number of components - any two
    paths into the same directory - a call that ends returns -1 and leaves the disk alone, whatever is
    on it. *)
Theorem fat32_rename_never f d old_path new_path old_norm new_norm rc f' d' :
  normalize_path old_path FAT32_NAME_MAX = Some old_norm -> normalize_path new_path FAT32_NAME_MAX = Some new_norm ->
  length (path_comps 32 (skip_slashes old_norm)) = length (path_comps 32 (skip_slashes new_norm)) ->
  fat32_rename fuel (Some old_path) (Some new_path) f d = Done (rc, f', d') -> rc = -1 /\ d' = d.
Proof.
  intros Ho Hn Hl. unfold fat32_rename. rewrite Ho, Hn. destruct (negb (g_ready _)); [by intros [= <- _ <-]|].
  destruct (normal_segs _ _ Ho) as (so & Hso & Eo), (normal_segs _ _ Hn) as (sn & Hsn & En). rewrite Eo, En in Hl.
  destruct (decide (so = [])) as [->|Hne].
  { assert (sn = []) as -> by (by destruct sn). unfold resolve_parent. rewrite Eo, En. cbn [bind_out].
    by intros [= <- _ <-]. }
  assert (sn <> []) as Hne' by (intros ->; by destruct so).
  rewrite (resolve_parent_eq _ _ _ _ _ Hso Hne). destruct (walk_dirs _ _ _ _ (removelast so) _) as [po| |]; cbn [bind_out]; try done.
  rewrite (resolve_parent_eq _ _ _ _ _ Hsn Hne'). destruct (walk_dirs _ _ _ _ (removelast sn) _) as [pn| |]; cbn [bind_out]; try done.
  destruct (_ || _); [by intros [= <- _ <-]|]. destruct (Z.eqb_spec po pn) as [->|]; [|by intros [= <- _ <-]]. cbn [negb].
  assert (zlen so = zlen sn) as -> by (unfold zlen; lia).
  destruct (validate_short_name _) as [new83|]; [|by intros [= <- _ <-]].
  destruct (find_entry_raw _ _ _ _ _ _) as [[src|]| |]; cbn [bind_out]; try done; by intros [= <- _ <-].
Qed.
End reference.

(** ** Witnesses *)

Definition ex_norm_nested : cstr := [47; 68; 47] ++ ex_nested.      (* "/D/nested file.txt" *)

Lemma fat32_lookup_spec_witness :
  (exists f, fat32_stat 10 (Some ex_nested_path) ex_fs ex_image = Done (Some (mkDirent32 ex_nested 5 false 6), f))
  /\ exists f, fat32_list_dir 10 (Some [47; 100]) 64 ex_fs ex_image = Done (Some [mkDirent32 ex_nested 5 false 6], f).
Proof.
  split.
  - destruct (fat32_lookup_spec 10 ex_fs ex_image ex_nested_path ex_norm_nested) as (_ & Hs & _);
      [vm_compute; reflexivity|vm_compute; discriminate|vm_compute; reflexivity|].
    destruct (Hs (Some (mkDirent32 ex_nested 5 false 6))) as (f & Hf & _); [vm_compute; reflexivity|]. by exists f.
  - destruct (fat32_lookup_spec 10 ex_fs ex_image [47; 100] [47; 100]) as (_ & _ & Hs);
      [vm_compute; reflexivity|vm_compute; discriminate|vm_compute; reflexivity|].
    destruct (Hs 64 (Some [mkDirent32 ex_nested 5 false 6])) as (f & Hf & _); [lia|vm_compute; reflexivity|]. by exists f.
Defined.

Lemma fat32_rename_never_witness :
  exists f, fat32_rename 10 (Some ex_a_txt) (Some [47; 66]) ex_fs ex_image = Done (-1, f, ex_image).
Proof.
  destruct (fat32_rename 10 (Some ex_a_txt) (Some [47; 66]) ex_fs ex_image) as [[[rc f] d]| |] eqn:E;
    [|vm_compute in E; discriminate E..].
  destruct (fat32_rename_never 10 ex_fs ex_image ex_a_txt [47; 66] ex_a_txt [47; 66] rc f d) as [-> ->];
    [vm_compute; reflexivity|vm_compute; reflexivity|vm_compute; reflexivity|exact E|]. by exists f.
Defined.

(** An 8.3 name that fills its fields loses its last character: ABCDEFGH.TXT is listed as ABCDEFGH.TX
    and found under that name only. *)
Lemma full_short_name_cut :
  name83 [65; 66; 67; 68; 69; 70; 71; 72; 84; 88; 84] = [65; 66; 67; 68; 69; 70; 71; 72; 46; 84; 88].
Proof. reflexivity. Qed.

(** A long-name entry whose order byte has no number is stored in front of the buffer. *)
Lemma lfn_order_zero_underrun l all chars : lfn_entry all (ex_lfn 0x40 (65 :: chars)) l = Undef.
Proof. reflexivity. Qed.

(** The sector size of the boot sector is not checked: with 1024 bytes the 512-byte buffer is read
    past its end. *)
Definition ex_image_1024 : image := aset 12 0x04 ex_boot :: tail ex_image.

Lemma big_sector_overrun :
  (fat32_init fat32_zero ex_image_1024).1 = 0
  /\ fat32_read_file 10 (Some ex_a_txt) 1000 (fat32_init fat32_zero ex_image_1024).2 ex_image_1024 = Undef.
Proof. split; vm_compute; reflexivity. Qed.
