(* ===== verification/Fat32Write.v ===== *)
(** Writing a file of the FAT32 driver and reading it back. *)

From S2P Require Import Prelude CString Path Fat32 Fat32Path Fat32Scan Fat32Props.

(** ** Chains and their sectors *)

(** The FAT entry of a cluster, when its sector can be read and holds it. *)
Definition fat_entry (v : volume) (rd : Z -> option sector) (cluster : Z) : option Z :=
  match rd (fat_place v cluster).1 with
  | Some sec => if (fat_place v cluster).2 + 4 <=? 512 then Some (Z.land (rd32 sec (fat_place v cluster).2) 0x0FFFFFFF)
                else None
  | None => None
  end.

Definition in_chain (c : Z) : bool := (2 <=? c) && (c <? EOC_MIN).

Inductive chain (v : volume) (rd : Z -> option sector) : Z -> list Z -> Prop :=
  | chain_nil c : in_chain c = false -> chain v rd c []
  | chain_cons c n cs : in_chain c = true -> fat_entry v rd c = Some n -> chain v rd n cs -> chain v rd c (c :: cs).

(** The sectors of a cluster, as the driver counts them, and the sectors of the disk they are. *)
Fixpoint run_of (n : nat) (lba : Z) : list Z :=
  match n with O => [] | S n' => lba :: run_of n' (u32 (lba + 1)) end.
Definition cluster_run (v : volume) (c : Z) : list Z := run_of (Z.to_nat (g_sectors_per_cluster v)) (cluster_to_lba v c).
Definition chain_run (v : volume) (cs : list Z) : list Z := concat (map (cluster_run v) cs).
Definition disk_sectors (lbas : list Z) : list Z := map lba28 lbas.

Lemma fat_entry_next v rd c n : fat_entry v rd c = Some n -> fat_next v rd c = Done n.
Proof.
  unfold fat_entry, fat_next. destruct (fat_place v c) as [s o]. cbn [fst snd]. destruct (rd s) as [sec|]; [|done].
  destruct (Z.leb_spec (o + 4) 512); [|done]. intros [= <-]. by rewrite (proj2 (Z.ltb_ge 512 (o + 4))).
Qed.

Lemma chain_incl v rd rd' c cs : (forall lba s, rd lba = Some s -> rd' lba = Some s) -> chain v rd c cs -> chain v rd' c cs.
Proof.
  intros Hi. induction 1 as [c Hc|c n cs Hc He _ IH]; [by constructor|]. apply chain_cons with n; [done| |done].
  unfold fat_entry in *. destruct (rd (fat_place v c).1) as [s|] eqn:E; [|done]. by rewrite (Hi _ _ E).
Qed.

Lemma length_run n lba : length (run_of n lba) = n.
Proof. revert lba. induction n as [|n IH]; intros lba; [done|]. cbn. by rewrite IH. Qed.

Lemma length_chain_run v cs : 0 <= g_sectors_per_cluster v ->
  zlen (chain_run v cs) = zlen cs * g_sectors_per_cluster v.
Proof.
  intros Hs. unfold chain_run. induction cs as [|c cs IH]; [done|]. cbn [map concat].
  rewrite zlen_app, zlen_cons, IH. unfold cluster_run, zlen at 1. rewrite length_run. lia.
Qed.

Section writing.
Variable fuel : nat.
Context {D : Type} `{AtaLaws D}.
Implicit Types (v : volume) (f : fat32) (d : D).

(** [d'] is [d] but for the sectors [S], which can be read on both. *)
Definition agree_off (S : list Z) d d' : Prop :=
  (forall lba, lba28 lba ∉ S -> ata_read d' lba = ata_read d lba)
  /\ forall lba, is_Some (ata_read d lba) -> is_Some (ata_read d' lba).

(** The disk with the sectors [S] unreadable. *)
Definition hide (S : list Z) d (lba : Z) : option sector :=
  if bool_decide (lba28 lba ∈ S) then None else ata_read d lba.

Lemma hide_incl S d lba s : hide S d lba = Some s -> lba28 lba ∉ S /\ ata_read d lba = Some s.
Proof. unfold hide. case_bool_decide; [done|]. done. Qed.

Lemma hide_agree S d d' lba : agree_off S d d' -> hide S d' lba = hide S d lba.
Proof. intros [Ha _]. unfold hide. case_bool_decide; [done|]. by apply Ha. Qed.

(** A chain of a file is the same on a disk whose FAT is. *)
Lemma chain_hide v S d d' c cs : agree_off S d d' -> chain v (hide S d) c cs -> chain v (ata_read d') c cs.
Proof.
  intros Ha. apply chain_incl. intros lba s Hs. rewrite <- (hide_agree _ _ _ _ Ha) in Hs. by apply hide_incl in Hs as [_ ?].
Qed.

Lemma agree_refl S d : agree_off S d d.
Proof. done. Qed.

(** ** Blocks of a file *)

(** The [j]-th sector of the contents [src]: 512 bytes, zeroes after the end. *)
Definition block (src : list Z) (j : nat) : sector :=
  let b := take 512 (drop (512 * j) src) in b ++ repeat 0 (512 - length b).

Lemma length_block src j : length (block src j) = 512%nat.
Proof. unfold block. rewrite length_app, repeat_length, length_take. lia. Qed.

Lemma block_drop src j : block (drop 512 src) j = block src (S j).
Proof. unfold block. rewrite drop_drop. by replace (512 + 512 * j)%nat with (512 * S j)%nat by lia. Qed.

(** [d'] holds the blocks of [src] in the sectors [lbas] and is [d] elsewhere. *)
Definition blocks_written (lbas : list Z) (src : list Z) d d' : Prop :=
  agree_off (disk_sectors lbas) d d'
  /\ forall j lba, lbas !! j = Some lba -> ata_read d' lba = Some (block src j).

(** The loops of [fat32_write_file] as one loop over sectors. *)
Fixpoint write_blocks (lbas : list Z) (src : list Z) d : option (list Z * D) :=
  match lbas with
  | [] => Some (src, d)
  | lba :: lbas' => match ata_write lba (block src 0) d with
                    | Some d => write_blocks lbas' (drop 512 src) d
                    | None => None
                    end
  end.

Lemma agree_trans S1 S2 d d1 d2 : agree_off S1 d d1 -> agree_off S2 d1 d2 -> agree_off (S1 ++ S2) d d2.
Proof.
  intros [A1 A2] [B1 B2]. split; [|by auto]. intros lba Hn. rewrite elem_of_app in Hn. rewrite B1 by tauto. apply A1. tauto.
Qed.

Lemma agree_weaken S S' d d' : (forall x, x ∈ S -> x ∈ S') -> agree_off S d d' -> agree_off S' d d'.
Proof. intros Hs [A1 A2]. split; [|done]. intros lba Hn. apply A1. auto. Qed.

Lemma agree_write d lba s d' : length s = 512%nat -> ata_write lba s d = Some d' -> agree_off [lba28 lba] d d'.
Proof.
  intros Hs Hw. split; intros lba'; rewrite (ata_write_reads _ _ _ _ lba' Hs Hw).
  - rewrite list_elem_of_singleton. intros Hne. by rewrite (proj2 (Z.eqb_neq _ _)).
  - intros Hr. by destruct (_ =? _).
Qed.

Lemma write_blocks_agree lbas : forall src d rest d',
  write_blocks lbas src d = Some (rest, d') -> agree_off (disk_sectors lbas) d d'.
Proof.
  induction lbas as [|lba lbas IH]; intros src d rest d'; cbn [write_blocks]; [by intros [= <- <-]|].
  destruct (ata_write lba _ d) as [d1|] eqn:E; [|done]. intros Hw. apply IH in Hw.
  apply agree_write in E; [|apply length_block]. exact (agree_trans _ _ _ _ _ E Hw).
Qed.

Lemma write_blocks_ok lbas : forall src d, NoDup (disk_sectors lbas) -> Forall (fun lba => is_Some (ata_read d lba)) lbas ->
  exists d', write_blocks lbas src d = Some (drop (512 * length lbas) src, d') /\ blocks_written lbas src d d'.
Proof.
  induction lbas as [|lba lbas IH]; intros src d Hnd Hr; cbn [write_blocks].
  { exists d. cbn [length]. by rewrite drop_0. }
  apply NoDup_cons in Hnd as [Hni Hnd]. apply Forall_cons in Hr as [Hr1 Hr].
  destruct (ata_write_works d lba (block src 0) Hr1 (length_block _ _)) as [d1 E1]. rewrite E1.
  pose proof (agree_write _ _ _ _ (length_block src 0) E1) as Ha1.
  destruct (IH (drop 512 src) d1 Hnd) as (d2 & E2 & Ha2 & Hb2).
  { eapply Forall_impl; [exact Hr|]. intros x Hx. by apply Ha1. }
  exists d2. rewrite E2, drop_drop. split; [f_equal; f_equal; f_equal; cbn [length]; lia|]. split.
  { exact (agree_trans _ _ _ _ _ Ha1 Ha2). }
  intros [|j] lba' Hj; cbn in Hj.
  - injection Hj as <-. destruct Ha2 as [Ha2 _]. rewrite Ha2 by done.
    rewrite (ata_write_reads _ _ _ _ lba (length_block _ _) E1). by rewrite Z.eqb_refl.
  - rewrite (Hb2 j lba' Hj). f_equal. apply block_drop.
Qed.

Lemma write_blocks_app a : forall b src d,
  write_blocks (a ++ b) src d = match write_blocks a src d with Some (rest, d1) => write_blocks b rest d1 | None => None end.
Proof.
  induction a as [|lba a IH]; intros b src d; [done|]. cbn [app write_blocks].
  destruct (ata_write _ _ d) as [d1|]; [apply IH|done].
Qed.

Lemma write_cluster_eq n : forall lba src d rest d',
  write_blocks (run_of n lba) src d = Some (rest, d') -> write_cluster n 512 lba src d = Done (Some rest, d').
Proof.
  induction n as [|n IH]; intros lba src d rest d'; cbn [run_of write_blocks write_cluster]; [by intros [= <- <-]|].
  change (512 <? 512) with false. change (Z.to_nat 512) with 512%nat. cbn match.
  change (take 512 src ++ repeat 0 (512 - length (take 512 src))) with (block src 0).
  destruct (ata_write lba (block src 0) d) as [d1|]; [|done]. apply IH.
Qed.

Lemma write_chain_eq v X n : g_bytes_per_sector v = 512 -> forall c cs src d rest d',
  chain v (hide X d) c cs -> (length cs <= n)%nat -> (forall x, x ∈ disk_sectors (chain_run v cs) -> x ∈ X) ->
  write_blocks (chain_run v cs) src d = Some (rest, d') -> write_chain n v c src d = Done (Some rest, d').
Proof.
  intros Hbps. induction n as [|n IH]; intros c cs src d rest d' Hc Hn Hx Hw.
  all: destruct Hc as [c Hc|c nx cs Hc He Hch]; cbn [write_chain]; fold (in_chain c); rewrite Hc.
  all: try (cbn in Hw; by injection Hw as <- <-). { cbn in Hn; lia. }
  unfold chain_run in Hw, Hx. cbn [map concat] in Hw, Hx. rewrite write_blocks_app in Hw.
  destruct (write_blocks (cluster_run v c) src d) as [[rest1 d1]|] eqn:E1; [|done].
  rewrite Hbps. rewrite (write_cluster_eq _ _ _ _ _ _ E1). cbn [bind_out].
  pose proof (write_blocks_agree _ _ _ _ _ E1) as Ha.
  assert (agree_off X d d1) as HaX.
  { eapply agree_weaken; [|exact Ha]. intros x Hin. apply Hx. unfold disk_sectors. rewrite map_app, elem_of_app. by left. }
  assert (fat_entry v (ata_read d1) c = Some nx) as He1.
  { unfold fat_entry in *. destruct (hide X d (fat_place v c).1) as [s|] eqn:Es; [|done].
    rewrite <- (hide_agree _ _ _ _ HaX) in Es. apply hide_incl in Es as [_ ->]. done. }
  unfold next_of at 1. rewrite (fat_entry_next _ _ _ _ He1). cbn [bind_out]. apply (IH nx cs); [| |..|done].
  - eapply chain_incl; [|exact Hch]. intros lba s Hs. by rewrite (hide_agree _ _ _ _ HaX).
  - cbn in Hn. lia.
  - intros x Hin. apply Hx. unfold disk_sectors. rewrite map_app, elem_of_app. by right.
Qed.

Lemma chain_capacity_eq v n d : forall c cs cap,
  chain v (ata_read d) c cs -> (length cs <= n)%nat -> 0 <= cap ->
  0 <= g_sectors_per_cluster v * g_bytes_per_sector v ->
  cap + zlen cs * (g_sectors_per_cluster v * g_bytes_per_sector v) < 2 ^ 64 ->
  chain_capacity n v c cap d = Done (cap + zlen cs * (g_sectors_per_cluster v * g_bytes_per_sector v)).
Proof.
  induction n as [|n IH]; intros c cs cap Hc Hn Hcap Hb Hlt.
  all: destruct Hc as [c Hc|c nx cs Hc He Hch]; cbn [chain_capacity]; fold (in_chain c); rewrite Hc.
  1, 3: rewrite (@zlen_nil Z); f_equal; lia. { cbn in Hn; lia. }
  unfold next_of at 1. rewrite (fat_entry_next _ _ _ _ He). cbn [bind_out]. rewrite zlen_cons in *. pose proof (zlen_nonneg cs).
  rewrite u64_id by (unfold is_u64; nia). rewrite (IH nx cs) by (done || cbn in Hn; nia || lia). f_equal. lia.
Qed.

(** ** Reading the blocks back *)

Lemma take_block src k m : (m <= 512)%nat -> (512 * k + m <= length src)%nat ->
  take m (block src k) = take m (drop (512 * k) src).
Proof.
  intros Hm Hl. unfold block. rewrite take_app_le by (rewrite length_take, length_drop; lia).
  by rewrite take_take, Nat.min_l by lia.
Qed.

(** What has been read after [k] sectors. *)
Definition read_upto (src : list Z) (T k : nat) : list Z := take (min (512 * k) T) src.

Lemma read_upto_step src T k : (T <= length src)%nat -> (512 * k < T)%nat ->
  read_upto src T k ++ take (min 512 (T - 512 * k)) (block src k) = read_upto src T (S k).
Proof.
  intros HT Hk. unfold read_upto. rewrite (Nat.min_l (512 * k)) by lia. rewrite take_block by lia.
  rewrite take_take_drop. f_equal. lia.
Qed.

Lemma read_upto_length src T k : (T <= length src)%nat -> length (read_upto src T k) = min (512 * k) T.
Proof. intros HT. unfold read_upto. rewrite length_take. lia. Qed.

Lemma read_cluster_ok src (T : nat) d n : (T <= length src)%nat -> forall lba k,
  (forall j x, run_of n lba !! j = Some x -> ata_read d x = Some (block src (k + j))) ->
  read_cluster n 512 (Z.of_nat T) lba d (read_upto src T k) = Done (false, read_upto src T (k + n)).
Proof.
  intros HT. induction n as [|n IH]; intros lba k Hr; cbn [read_cluster].
  { by rewrite Nat.add_0_r. }
  assert (zlen (read_upto src T k) = Z.of_nat (min (512 * k) T)) as Hl by (unfold zlen; by rewrite read_upto_length).
  rewrite Hl. destruct (Z.leb_spec (Z.of_nat T) (Z.of_nat (min (512 * k) T))) as [Hle|Hgt].
  { unfold read_upto. do 2 f_equal. f_equal. lia. }
  specialize (Hr 0%nat lba eq_refl) as Hr0. rewrite Nat.add_0_r in Hr0. rewrite Hr0.
  assert (512 * k < T)%nat as Hlt by lia. rewrite (Nat.min_l (512 * k) T) by lia.
  assert ((if Z.of_nat T - Z.of_nat (512 * k) <? 512 then Z.of_nat T - Z.of_nat (512 * k) else 512)
          = Z.of_nat (min 512 (T - 512 * k))) as -> by (destruct (Z.ltb_spec (Z.of_nat T - Z.of_nat (512 * k)) 512); lia).
  rewrite (proj2 (Z.ltb_ge 512 _)) by lia. rewrite Nat2Z.id, read_upto_step by lia.
  rewrite IH; [by replace (S k + n)%nat with (k + S n)%nat by lia|].
  intros j x Hj. specialize (Hr (S j) x Hj). by replace (S k + j)%nat with (k + S j)%nat by lia.
Qed.

Lemma read_chain_ok v src (T : nat) d n : g_bytes_per_sector v = 512 -> (T <= length src)%nat -> forall c cs k,
  chain v (ata_read d) c cs -> (length cs <= n)%nat -> (T <= 512 * (k + length (chain_run v cs)))%nat ->
  (forall j x, chain_run v cs !! j = Some x -> ata_read d x = Some (block src (k + j))) ->
  read_chain n v (Z.of_nat T) c d (read_upto src T k) = Done (take T src).
Proof.
  intros Hbps HT. induction n as [|n IH]; intros c cs k Hc Hn Hcap Hr.
  all: assert (zlen (read_upto src T k) = Z.of_nat (min (512 * k) T)) as Hl by (unfold zlen; by rewrite read_upto_length).
  all: cbn [read_chain]; rewrite Hl; destruct (Z.leb_spec (Z.of_nat T) (Z.of_nat (min (512 * k) T))) as [Hle|Hgt];
    [rewrite orb_true_r; unfold read_upto; do 2 f_equal; lia|rewrite orb_false_r].
  all: destruct Hc as [c Hc|c nx cs Hc He Hch]; [cbn in Hcap; lia|]. { cbn in Hn; lia. }
  unfold in_chain in Hc. apply andb_true_iff in Hc as [_ Hc]. rewrite Z.ltb_lt in Hc.
  rewrite (proj2 (Z.leb_gt EOC_MIN c)) by done. rewrite Hbps.
  unfold chain_run in Hr, Hcap. cbn [map concat] in Hr, Hcap. unfold cluster_run at 1 in Hcap.
  rewrite length_app, length_run in Hcap.
  rewrite (read_cluster_ok src T d _ HT). 2: { intros j x Hj. apply Hr. by apply lookup_app_l_Some. }
  cbn [bind_out]. unfold next_of at 1. rewrite (fat_entry_next _ _ _ _ He). cbn [bind_out].
  apply (IH nx cs); [done|cbn in Hn; lia|unfold chain_run; lia|]. intros j x Hj.
  rewrite <- Nat.add_assoc. apply Hr. rewrite lookup_app_r; unfold cluster_run; rewrite length_run; [|lia].
  by replace (_ + j - _)%nat with j by lia.
Qed.
End writing.

(** ** Finding the file *)

Section finding.
Variable fuel : nat.
Variables (v : volume) (next : Z -> out Z) (rd : Z -> option sector).

(** The entry a directory loop finds, with its place and the name it was found by. *)
Definition name_probe (target : cstr) (lba off : Z) (ent : list Z) (name : cstr) : option (raw_entry * cstr) :=
  if same_name name target then Some (mkRaw ent lba off, name) else None.
Definition located (all : bool) (start : Z) (target : cstr) : out (option (raw_entry * cstr)) :=
  clusters_loop all (finder (name_probe target)) v next rd fuel start lfn_init None.

Definition raw_probe (target : cstr) (lba off : Z) (ent : list Z) (name : cstr) : option raw_entry :=
  if same_name name target then Some (mkRaw ent lba off) else None.
Definition stat_probe (target : cstr) (lba off : Z) (ent : list Z) (name : cstr) : option dirent :=
  if same_name name target then Some (dirent_of ent name) else None.
Definition dir_probe (target : cstr) (lba off : Z) (ent : list Z) (name : cstr) : option Z :=
  if de_is_dir ent && same_name name target
  then Some (if de_cluster ent =? 0 then g_root_cluster v else de_cluster ent) else None.

Lemma find_entry_probe start target :
  find_entry_raw fuel v next rd start target
  = clusters_loop false (finder (raw_probe target)) v next rd fuel start lfn_init None.
Proof. apply clusters_loop_ext. intros. unfold finder, raw_probe. by destruct (same_name _ _). Qed.
Lemma stat_probe_eq start target :
  iterate_dir fuel v next rd (stat_cb target) start None
  = clusters_loop true (finder (stat_probe target)) v next rd fuel start lfn_init None.
Proof. apply clusters_loop_ext. intros. unfold finder, stat_probe, stat_cb. by destruct (same_name _ _). Qed.
Lemma dir_probe_eq start target :
  iterate_dir fuel v next rd (find_dir_cb v target) start None
  = clusters_loop true (finder (dir_probe target)) v next rd fuel start lfn_init None.
Proof. apply clusters_loop_ext. intros. unfold finder, dir_probe, find_dir_cb. by destruct (_ && _). Qed.

(** What a search finds is an entry of a sector that was read. *)
Section sound.
Context {X : Type} (all : bool) (p : Z -> Z -> list Z -> cstr -> option X).

Definition real_entry (x : X) : Prop :=
  exists lba sec i name, rd lba = Some sec /\ 0 <= i < 16 /\ de_attr (entry_at sec i) <> ATTR_LFN
    /\ p lba (i * DIR_ENTRY_SIZE) (entry_at sec i) name = Some x.

Lemma entries_loop_real n : forall i lba sec l l' x, rd lba = Some sec -> 0 <= i ->
  entries_loop all (finder p) n i lba sec l None = Done (Halt (l', Some x)) -> real_entry x.
Proof.
  induction n as [|n IH]; intros i lba sec l l' x Hr Hi; cbn [entries_loop]; [done|].
  destruct (Z.ltb_spec 512 ((i + 1) * DIR_ENTRY_SIZE)) as [|Hle]; [done|]. unfold DIR_ENTRY_SIZE in Hle.
  fold (entry_at sec i). destruct (entry_step all (finder p) lba _ (entry_at sec i) l None) as [r| |] eqn:E; cbn [bind_out]; try done.
  unfold entry_step in E. destruct (_ =? 0); [by injection E as <-|].
  destruct (_ =? 0xE5); [injection E as <-; by apply IH; [|lia]|].
  destruct (Z.eqb_spec (de_attr (entry_at sec i)) ATTR_LFN) as [|Ha].
  { destruct (lfn_entry _ _ _); cbn [bind_out] in E; try done. injection E as <-. by apply IH; [|lia]. }
  destruct (negb _); [injection E as <-; by apply IH; [|lia]|]. destruct (_ =? ch_dot); [injection E as <-; by apply IH; [|lia]|].
  destruct (if has_lfn l then _ else _) as [name| |]; cbn [bind_out] in E; try done. unfold finder in E.
  destruct (p lba _ (entry_at sec i) name) as [y|] eqn:Ep; injection E as <-.
  - intros [= <- <-]. exists lba, sec, i, name. split; [done|]. split; [lia|]. done.
  - by apply IH; [|lia].
Qed.

Lemma entries_loop_none n : forall i lba sec l l' c,
  entries_loop all (finder p) n i lba sec l None = Done (Go (l', c)) -> c = None.
Proof.
  induction n as [|n IH]; intros i lba sec l l' c; cbn [entries_loop]; [by intros [= _ <-]|].
  destruct (512 <? _); [done|]. destruct (entry_step _ _ _ _ _ l None) as [r| |] eqn:E; cbn [bind_out]; try done.
  unfold entry_step in E. destruct (_ =? 0); [by injection E as <-|].
  destruct (_ =? 0xE5); [injection E as <-; by apply IH|].
  destruct (_ =? ATTR_LFN).
  { destruct (lfn_entry _ _ _); cbn [bind_out] in E; try done. injection E as <-. by apply IH. }
  destruct (negb _); [injection E as <-; by apply IH|]. destruct (_ =? ch_dot); [injection E as <-; by apply IH|].
  destruct (if has_lfn l then _ else _) as [name| |]; cbn [bind_out] in E; try done. unfold finder in E.
  destruct (p lba _ _ name); injection E as <-; [done|]. by apply IH.
Qed.

Lemma sectors_loop_real n : forall lba l r,
  sectors_loop all (finder p) v rd n lba l None = Done r ->
  match r with Go (_, c) => c = None | Halt (_, Some x) => real_entry x | Halt (_, None) => True end.
Proof.
  induction n as [|n IH]; intros lba l r; cbn [sectors_loop]; [by intros [= <-]|].
  destruct (rd lba) as [sec|] eqn:Er; [|by intros [= <-]].
  destruct (entries_loop _ _ _ _ _ _ l None) as [[[l1 c1]|[l1 [x|]]]| |] eqn:E; cbn [bind_out]; try done.
  - apply entries_loop_none in E as ->. apply IH.
  - intros [= <-]. by apply entries_loop_real in E.
  - by intros [= <-].
Qed.

Lemma clusters_loop_real n : forall cl l x,
  clusters_loop all (finder p) v next rd n cl l None = Done (Some x) -> real_entry x.
Proof.
  induction n as [|n IH]; intros cl l x; cbn [clusters_loop]; destruct (EOC_MIN <=? cl); try done.
  destruct (sectors_loop _ _ _ _ _ _ l None) as [[[l1 c1]|[l1 c1]]| |] eqn:E; cbn [bind_out]; try done.
  - apply sectors_loop_real in E as ->. destruct (next cl); cbn [bind_out]; try done. apply IH.
  - apply sectors_loop_real in E. intros [= ->]. done.
Qed.
End sound.
End finding.

(** ** Changing the size in an entry *)

Lemma entry_at_aset sec i k x : 0 <= i -> 0 <= k ->
  entry_at (aset k x sec) i
  = if (i * 32 <=? k) && (k <? i * 32 + 32) then aset (k - i * 32) x (entry_at sec i) else entry_at sec i.
Proof.
  intros Hi Hk. unfold entry_at, aset, DIR_ENTRY_SIZE.
  destruct (Z.leb_spec (i * 32) k) as [H1|H1]; cbn [andb].
  - rewrite drop_insert_ge by lia. replace (Z.to_nat k - Z.to_nat (i * 32))%nat with (Z.to_nat (k - i * 32)) by lia.
    destruct (Z.ltb_spec k (i * 32 + 32)) as [H2|H2].
    + by rewrite take_insert_lt by lia.
    + by rewrite take_insert_ge by lia.
  - by rewrite drop_insert_lt by lia.
Qed.

Lemma entry_at_put32 sec i o val : 0 <= i -> 0 <= o -> 
  entry_at (put32 (o * 32 + 28) val sec) i = if i =? o then put32 28 val (entry_at sec i) else entry_at sec i.
Proof.
  intros Hi Ho. unfold put32. rewrite !entry_at_aset by lia. destruct (Z.eqb_spec i o) as [->|Hne].
  - rewrite !(proj2 (Z.leb_le _ _)), !(proj2 (Z.ltb_lt _ _)) by lia. cbn [andb].
    do 2 (f_equal; [lia|]). do 2 (f_equal; try lia).
  - assert (forall k, o * 32 + 28 <= k <= o * 32 + 31 -> (i * 32 <=? k) && (k <? i * 32 + 32) = false) as Hk.
    { intros k Hk. destruct (Z.leb_spec (i * 32) k), (Z.ltb_spec k (i * 32 + 32)); cbn [andb]; try done. lia. }
    by rewrite !Hk by lia.
Qed.

Lemma put32_like val ent : like ent (if de_attr ent =? ATTR_LFN then ent else put32 28 val ent).
Proof.
  destruct (Z.eqb_spec (de_attr ent) ATTR_LFN) as [Ea|Ea]; [done|]. split; [|split; [|done]].
  - intros i Hi. unfold put32. by rewrite !aget_aset_ne by lia.
  - unfold put32, aset. by rewrite !take_insert_ge by lia.
Qed.

Lemma like_size_only ent ent' : like ent ent' -> de_is_dir ent' = de_is_dir ent /\ de_cluster ent' = de_cluster ent.
Proof.
  intros (Hb & _ & _). unfold de_is_dir, de_attr, de_cluster, rd16, rd8. by rewrite !Hb by lia.
Qed.

Lemma de_size_put32 val ent : length ent = 32%nat -> is_u32 val -> de_size (put32 28 val ent) = val.
Proof.
  intros Hl Hv. unfold is_u32 in Hv. unfold de_size, rd32, rd16, rd8, put32.
  change (28 + 2 + 1) with 31. change (28 + 2) with 30. change (28 + 1) with 29. change (28 + 3) with 31.
  repeat first [rewrite aget_aset_eq by (rewrite ?length_aset; lia) | rewrite aget_aset_ne by lia].
  change 0xFF with (2 ^ 8 - 1). rewrite !land_ones_mod, !Z.shiftr_div_pow2 by lia.
  change (2 ^ 8) with 256. change (2 ^ 16) with 65536. change (2 ^ 24) with 16777216.
  rewrite (lor_shiftl_add (val mod 256) _ 8), (lor_shiftl_add ((val / 65536) mod 256) _ 8) by (lia || apply Z.mod_pos_bound; lia).
  rewrite lor_shiftl_add; [|lia|].
  - change (2 ^ 8) with 256. change (2 ^ 16) with 65536. Z.div_mod_to_equations. lia.
  - change (2 ^ 8) with 256. change (2 ^ 16) with 65536. Z.div_mod_to_equations. lia.
Qed.

(** ** The same lookups on the changed disk *)

Section roundtrip.
Variable fuel : nat.
Context {D : Type} `{AtaLaws D}.
Implicit Types (v : volume) (f : fat32) (d : D).

Definition file_sectors v (cs : list Z) : list Z := disk_sectors (chain_run v cs).

(** The file with the segments [segs] and the clusters [cs]: its directories and its entry are found
    without reading its data, its FAT entries lie neither in its data nor in the sector of its entry,
    and its sectors are distinct.  The two directory loops find the entry in the same place. *)
Record file_at v d (segs : list cstr) (raw : raw_entry) (name : cstr) (cs : list Z) : Prop := {
  fa_ready : g_ready v = true;
  fa_bytes : g_bytes_per_sector v = 512;
  fa_spc : 0 <= g_sectors_per_cluster v;
  fa_segs : segs <> [];
  fa_found : exists parent name', parent <> 0
    /\ let next := fat_next v (hide (lba28 (raw_lba raw) :: file_sectors v cs) d) in
       let rd := hide (file_sectors v cs) d in
       walk_dirs fuel v next rd (removelast segs) (g_root_cluster v) = Done parent
       /\ located fuel v next rd true parent (default [] (last segs)) = Done (Some (raw, name))
       /\ located fuel v next rd false parent (default [] (last segs)) = Done (Some (raw, name'));
  fa_file : de_is_dir (raw_ent raw) = false;
  fa_chain : chain v (hide (lba28 (raw_lba raw) :: file_sectors v cs) d) (de_cluster (raw_ent raw)) cs;
  fa_distinct : NoDup (file_sectors v cs);
  fa_readable : Forall (fun lba => is_Some (ata_read d lba)) (chain_run v cs);
  fa_fuel : (length cs <= fuel)%nat /\ zlen cs * (g_sectors_per_cluster v * 512) < 2 ^ 64;
}.

(** [d'] is [d] seen through [patch] where [rd] sees it, and has its FAT. *)
Record seen_as v (nx : Z -> out Z) (rd : Z -> option sector) (patch : Z -> Z -> list Z -> list Z) d : Prop := {
  sa_sectors : forall lba s1, rd lba = Some s1 -> exists s2, ata_read d lba = Some s2
    /\ forall i, 0 <= i < 16 -> entry_at s2 i = patch lba (i * DIR_ENTRY_SIZE) (entry_at s1 i);
  sa_like : forall lba off ent, like ent (patch lba off ent);
  sa_next : forall c n, nx c = Done n -> n < EOC_MIN -> next_of v d c = Done n;
}.

Section seen.
Context v nx rd patch d (Sa : seen_as v nx rd patch d).

Lemma seen_find {X Y} all (g : X -> Y) p1 p2 start x :
  (forall lba off ent name, p2 lba off (patch lba off ent) name = option_map g (p1 lba off ent name)) ->
  clusters_loop all (finder p1) v nx rd fuel start lfn_init None = Done (Some x) ->
  clusters_loop all (finder p2) v (next_of v d) (ata_read d) fuel start lfn_init None = Done (Some (g x)).
Proof.
  intros Hp. destruct Sa as [S1 S2 S3].
  exact (clusters_loop_sim all v nx (next_of v d) rd (ata_read d) patch g p1 p2 S1 S2 S3 Hp fuel start lfn_init x).
Qed.

Lemma seen_walk names : forall cur r, r <> 0 -> walk_dirs fuel v nx rd names cur = Done r ->
  walk_dirs fuel v (next_of v d) (ata_read d) names cur = Done r.
Proof.
  induction names as [|name names IH]; intros cur r Hr; cbn [walk_dirs]; [done|]. rewrite !dir_probe_eq.
  destruct (clusters_loop _ _ _ nx _ _ _ _ _) as [[c|]| |] eqn:E; cbn [bind_out]; try done; [|by intros [= <-]].
  apply (seen_find true id _ (dir_probe v name)) in E.
  - rewrite E. cbn [bind_out]. by apply IH.
  - intros lba off ent nm. unfold dir_probe. destruct (like_size_only _ _ (sa_like _ _ _ _ _ Sa lba off ent)) as [-> ->].
    by destruct (_ && _).
Qed.

Definition patched (raw : raw_entry) : list Z := patch (raw_lba raw) (raw_off raw) (raw_ent raw).

Lemma seen_raw start target raw name :
  located fuel v nx rd false start target = Done (Some (raw, name)) ->
  find_entry_raw fuel v (next_of v d) (ata_read d) start target
  = Done (Some (mkRaw (patched raw) (raw_lba raw) (raw_off raw))).
Proof.
  intros E. rewrite find_entry_probe.
  rewrite (seen_find false (fun x => mkRaw (patched x.1) (raw_lba x.1) (raw_off x.1)) (name_probe target) (raw_probe target)
    start (raw, name)); [done| |exact E].
  intros lba off ent nm. unfold name_probe, raw_probe, patched. by destruct (same_name _ _).
Qed.

Lemma seen_stat start target raw name :
  located fuel v nx rd true start target = Done (Some (raw, name)) ->
  iterate_dir fuel v (next_of v d) (ata_read d) (stat_cb target) start None = Done (Some (dirent_of (patched raw) name)).
Proof.
  intros E. rewrite stat_probe_eq.
  rewrite (seen_find true (fun x => dirent_of (patched x.1) x.2) (name_probe target) (stat_probe target)
    start (raw, name)); [done| |exact E].
  intros lba off ent nm. unfold name_probe, stat_probe, patched. by destruct (same_name _ _).
Qed.
End seen.

(** The hidden disk and the disk itself. *)
Lemma seen_self v X S d : seen_as v (fat_next v (hide X d)) (hide S d) (fun _ _ ent => ent) d.
Proof.
  split; [|by split|].
  - intros lba s1 Hs. apply hide_incl in Hs as [_ Hs]. by exists s1.
  - intros c n. unfold next_of, fat_next. destruct (fat_place v c) as [s o].
    destruct (hide X d s) as [sec|] eqn:E; [by apply hide_incl in E as [_ ->]|]. intros [= <-]. unfold EOC_MIN. lia.
Qed.

(** The disk after a write: the data is new, and the size in the entry at [o * 32] of sector [L]. *)
Definition size_patch (L o val lba off : Z) (ent : list Z) : list Z :=
  if (lba28 lba =? L) && (off =? o * DIR_ENTRY_SIZE)
  then if de_attr ent =? ATTR_LFN then ent else put32 28 val ent
  else ent.

Lemma seen_written v S d d1 L o val sec : 
  agree_off (lba28 L :: S) d d1 -> ata_read d L = Some sec -> ata_read d1 L = Some (put32 (o * 32 + 28) val sec) ->
  0 <= o < 16 -> de_attr (entry_at sec o) <> ATTR_LFN -> lba28 L ∉ S ->
  seen_as v (fat_next v (hide (lba28 L :: S) d)) (hide S d) (size_patch (lba28 L) o val) d1.
Proof.
  intros Ha Hs Hs1 Ho Hattr HL. split.
  - intros lba s1 Hh. apply hide_incl in Hh as [Hn Hr]. unfold size_patch, DIR_ENTRY_SIZE.
    destruct (Z.eqb_spec (lba28 lba) (lba28 L)) as [E|E]; cbn [andb].
    + assert (s1 = sec) as -> by (rewrite ata_read_28, E, <- ata_read_28 in Hr; congruence).
      exists (put32 (o * 32 + 28) val sec). split; [by rewrite ata_read_28, E, <- ata_read_28|]. intros i Hi.
      rewrite entry_at_put32 by lia. replace (i * 32 =? o * 32) with (i =? o).
      * destruct (Z.eqb_spec i o) as [->|]; [|done]. by rewrite (proj2 (Z.eqb_neq _ _)).
      * destruct (Z.eqb_spec i o), (Z.eqb_spec (i * 32) (o * 32)); lia || done.
    + exists s1. split; [|done]. rewrite (proj1 Ha); [done|]. by rewrite not_elem_of_cons.
  - intros lba off ent. unfold size_patch. destruct (_ && _); [apply put32_like|by split].
  - intros c n. unfold next_of, fat_next. destruct (fat_place v c) as [s o'].
    destruct (hide _ d s) as [sc|] eqn:E; [|intros [= <-]; unfold EOC_MIN; lia].
    apply hide_incl in E as [Hn Hr]. by rewrite (proj1 Ha _ Hn), Hr.
Qed.

Lemma located_real v nx S d start target raw name :
  located fuel v nx (hide S d) true start target = Done (Some (raw, name)) ->
  exists sec o, ata_read d (raw_lba raw) = Some sec /\ lba28 (raw_lba raw) ∉ S /\ 0 <= o < 16
    /\ raw_off raw = o * 32 /\ raw_ent raw = entry_at sec o /\ de_attr (raw_ent raw) <> ATTR_LFN.
Proof.
  intros E. apply clusters_loop_real in E as (lba & sec & o & nm & Hr & Ho & Ha & Hp).
  unfold name_probe in Hp. destruct (same_name _ _); [|done]. injection Hp as <- <-. cbn [raw_lba raw_off raw_ent].
  apply hide_incl in Hr as [Hn Hr]. by exists sec, o.
Qed.

(** ** The two calls *)

Lemma length_entry sec o : length sec = 512%nat -> 0 <= o < 16 -> length (entry_at sec o) = 32%nat.
Proof. intros Hl Ho. unfold entry_at, DIR_ENTRY_SIZE. rewrite length_take, length_drop. lia. Qed.

(** Up to the update of the entry: what [fat32_write_file] does to the disk. *)
Lemma write_data v d segs raw name cs data :
  file_at v d segs raw name cs -> zlen data <= zlen cs * g_sectors_per_cluster v * 512 ->
  exists d1, write_chain fuel v (de_cluster (raw_ent raw)) data d = Done (Some [], d1)
    /\ blocks_written (chain_run v cs) data d d1.
Proof.
  intros [_ Hb Hspc _ _ _ Hch Hnd Hr [Hf _]] Hlen.
  destruct (write_blocks_ok (chain_run v cs) data d Hnd Hr) as (d1 & Hw & Hbw).
  rewrite drop_ge in Hw.
  2: { pose proof (length_chain_run v cs Hspc) as Hl. unfold zlen in *. nia. }
  exists d1. split; [|done]. apply (write_chain_eq v _ fuel Hb _ cs data d [] d1 Hch Hf); [|exact Hw].
  intros x Hx. apply list_elem_of_further. exact Hx.
Qed.

Lemma write_capacity v d segs raw name cs :
  file_at v d segs raw name cs ->
  chain_capacity fuel v (de_cluster (raw_ent raw)) 0 d = Done (zlen cs * (g_sectors_per_cluster v * 512)).
Proof.
  intros [_ Hb Hspc _ _ _ Hch _ _ [Hf Hcap]].
  rewrite (chain_capacity_eq v fuel d _ cs); rewrite ?Hb; try lia; try done.
  eapply chain_incl; [|exact Hch]. intros lba s Hs. by apply hide_incl in Hs as [_ ?].
Qed.

Lemma empty_chain_no_data v d segs raw name cs (data : list Z) :
  file_at v d segs raw name cs -> zlen data <= zlen cs * g_sectors_per_cluster v * 512 ->
  (de_cluster (raw_ent raw) =? 0) && (0 <? zlen data) = false.
Proof.
  intros Hfa Hlen. destruct (Z.eqb_spec (de_cluster (raw_ent raw)) 0) as [E|]; [|done]. cbn [andb].
  pose proof (fa_chain _ _ _ _ _ _ Hfa) as Hch. rewrite E in Hch. apply Z.ltb_ge.
  inversion Hch as [c Hc|c n cs' Hc]; subst; [change (zlen (@nil Z)) with 0 in Hlen; lia|by vm_compute in Hc].
Qed.

(** The disk after the write of [data]: the data in the file's sectors, the size in the entry at
    [o * 32] of [sec], and nothing else. *)
Record written v d (raw : raw_entry) (cs data : list Z) (d1 : D) (sec : sector) (o : Z) : Prop := {
  wr_off : agree_off (lba28 (raw_lba raw) :: file_sectors v cs) d d1;
  wr_o : 0 <= o < 16;
  wr_raw : raw_off raw = o * 32 /\ raw_ent raw = entry_at sec o /\ de_attr (raw_ent raw) <> ATTR_LFN;
  wr_before : ata_read d (raw_lba raw) = Some sec;
  wr_after : ata_read d1 (raw_lba raw) = Some (put32 (o * 32 + 28) (zlen data) sec);
  wr_sec : lba28 (raw_lba raw) ∉ file_sectors v cs;
  wr_data : forall j x, chain_run v cs !! j = Some x -> ata_read d1 x = Some (block data j);
}.

Lemma write_update v d segs raw name cs data :
  file_at v d segs raw name cs -> zlen data <= zlen cs * g_sectors_per_cluster v * 512 -> zlen data < 2 ^ 32 ->
  exists d0 d1 sec o, write_chain fuel v (de_cluster (raw_ent raw)) data d = Done (Some [], d0)
    /\ update_sector (raw_lba raw) (put32 (raw_off raw + 28) (u32 (zlen data))) d0 = (0, d1)
    /\ written v d raw cs data d1 sec o.
Proof.
  intros Hfa Hlen H32. pose proof Hfa as [_ _ _ _ (parent & name' & _ & _ & Hloc & _) _ _ _ _ _].
  destruct (located_real _ _ _ _ _ _ _ _ Hloc) as (sec & o & Hsec & HL & Ho & Eoff & Hent).
  destruct (write_data _ _ _ _ _ _ data Hfa Hlen) as (d0 & Hwc & Ha0 & Hblk).
  assert (ata_read d0 (raw_lba raw) = Some sec) as Hsec0 by (by rewrite (proj1 Ha0)).
  pose proof (ata_read_len _ _ _ Hsec) as Hl512.
  assert (length (put32 (o * 32 + 28) (zlen data) sec) = 512%nat) as Hlp by (unfold put32; by rewrite !length_aset).
  destruct (ata_write_works d0 (raw_lba raw) (put32 (o * 32 + 28) (zlen data) sec)) as [d1 Hd1]; [by rewrite Hsec0|done|].
  exists d0, d1, sec, o. split; [done|]. split.
  { unfold update_sector. rewrite Hsec0, Eoff, u32_id by (unfold is_u32, zlen in *; lia). by rewrite Hd1. }
  split; [|done|by split| |..]; try done.
  - eapply agree_weaken; [|exact (agree_trans _ _ _ _ _ Ha0 (agree_write _ _ _ _ Hlp Hd1))].
    intros x. unfold file_sectors. set_solver.
  - rewrite (ata_write_reads _ _ _ _ _ Hlp Hd1). by rewrite Z.eqb_refl.
  - intros j x Hj. rewrite (ata_write_reads _ _ _ _ x Hlp Hd1).
    rewrite (proj2 (Z.eqb_neq _ _)); [by apply Hblk|]. intros Ex. apply HL. rewrite <- Ex.
    apply list_elem_of_fmap_2. by apply list_elem_of_lookup_2 in Hj.
Qed.

(** The whole call. *)
Lemma write_call f d path norm segs raw name cs data :
  normalize_path path FAT32_NAME_MAX = Some norm -> norm_path norm segs -> file_at (vol f) d segs raw name cs ->
  zlen data <= zlen cs * g_sectors_per_cluster (vol f) * 512 -> zlen data < 2 ^ 32 ->
  exists d1 sec o, fat32_write_file fuel (Some path) (Some data) (zlen data) f d = Done (0, with_comps segs f, d1)
    /\ written (vol f) d raw cs data d1 sec o.
Proof.
  intros Hp Hn Hfa Hlen H32. destruct (write_update _ _ _ _ _ _ _ Hfa Hlen H32) as (d0 & d1 & sec & o & Hwc & Hup & W).
  pose proof Hfa as [Hrdy Hb Hspc Hne (parent & name' & Hpar & Hwalk & _ & Hloc') Hfile _ _ _ [Hf Hcap]].
  pose proof (seen_self (vol f) (lba28 (raw_lba raw) :: file_sectors (vol f) cs) (file_sectors (vol f) cs) d) as Sd.
  exists d1, sec, o. split; [|done]. unfold fat32_write_file. rewrite Hrdy, Hp.
  rewrite bool_decide_false by done. cbn [negb orb andb].
  rewrite (resolve_parent_eq _ _ _ _ _ _ Hn Hne), (seen_walk _ _ _ _ _ Sd _ _ _ Hpar Hwalk). cbn [bind_out].
  rewrite (proj2 (Z.eqb_neq parent 0)) by done. rewrite leaf_last by done.
  change (vol (with_comps segs f)) with (vol f).
  rewrite (seen_raw _ _ _ _ _ Sd _ _ _ _ Hloc'). unfold patched. cbn [bind_out raw_ent raw_lba raw_off]. rewrite Hfile.
  rewrite (empty_chain_no_data _ _ _ _ _ _ _ Hfa Hlen), (write_capacity _ _ _ _ _ _ Hfa). cbn [bind_out].
  rewrite (proj2 (Z.ltb_ge _ _)) by lia. change (default [] (Some data)) with data. rewrite Hwc. cbn [bind_out].
  by rewrite Hup.
Qed.

(** What stat answers afterwards. *)
Lemma written_stat f g d norm segs raw name cs data d1 sec o :
  norm_path norm segs -> file_at (vol f) d segs raw name cs -> written (vol f) d raw cs data d1 sec o ->
  zlen data < 2 ^ 32 -> vol g = vol f ->
  fat32_stat fuel (Some norm) g d1
  = Done (Some (mkDirent32 (k_strcpy name FAT32_NAME_MAX) (zlen data) false (de_cluster (raw_ent raw))), with_comps segs g).
Proof.
  intros Hn [Hrdy Hb Hspc Hne (parent & name' & Hpar & Hwalk & Hloc & _) Hfile _ _ _ _]
    [Ha Ho (Eoff & Eent & Hattr) Hsec Hsec1 HL _] H32 Hg.
  pose proof (zlen_nonneg data) as Hd0. pose proof (ata_read_len _ _ _ Hsec) as Hl512. rewrite Eent in Hattr.
  pose proof (seen_written (vol f) _ d d1 _ o (zlen data) sec Ha Hsec Hsec1 Ho Hattr HL) as S1.
  assert (patched (size_patch (lba28 (raw_lba raw)) o (zlen data)) raw = put32 28 (zlen data) (raw_ent raw)) as Epatch.
  { unfold patched, size_patch. rewrite Eoff, Eent, !Z.eqb_refl. cbn [andb]. by rewrite (proj2 (Z.eqb_neq _ _)). }
  assert (like (raw_ent raw) (put32 28 (zlen data) (raw_ent raw))) as Hlike.
  { pose proof (put32_like (zlen data) (raw_ent raw)) as Hl. rewrite Eent in *. by rewrite (proj2 (Z.eqb_neq _ _)) in Hl. }
  destruct (like_size_only _ _ Hlike) as [Ed Ec].
  unfold fat32_stat. rewrite Hg, Hrdy, (normalize_norm _ _ Hn). cbn [negb].
  rewrite bool_decide_false by (by rewrite (norm_root _ _ Hn)).
  rewrite (resolve_parent_eq _ _ _ _ _ _ Hn Hne), Hg, (seen_walk _ _ _ _ _ S1 _ _ _ Hpar Hwalk). cbn [bind_out].
  rewrite (proj2 (Z.eqb_neq parent 0)) by done. rewrite leaf_last by done.
  change (vol (with_comps segs g)) with (vol g). rewrite Hg.
  rewrite (seen_stat _ _ _ _ _ S1 _ _ _ _ Hloc), Epatch. cbn [bind_out]. unfold dirent_of. rewrite Ed, Ec, Hfile.
  rewrite de_size_put32; [done|rewrite Eent; by apply length_entry|unfold is_u32; lia].
Qed.

(** What the read loop then returns. *)
Lemma written_read v d segs raw name cs data d1 sec o max :
  file_at v d segs raw name cs -> written v d raw cs data d1 sec o ->
  zlen data <= zlen cs * g_sectors_per_cluster v * 512 -> 0 <= max ->
  read_chain fuel v (if zlen data <? max then zlen data else max) (de_cluster (raw_ent raw)) d1 []
  = Done (take (Z.to_nat max) data).
Proof.
  intros [_ Hb Hspc _ _ _ Hch _ _ [Hf _]] [Ha _ _ _ _ _ Hdata] Hlen Hmax.
  set (T := Nat.min (length data) (Z.to_nat max)).
  assert ((if zlen data <? max then zlen data else max) = Z.of_nat T) as ->.
  { unfold T, zlen. destruct (Z.ltb_spec (Z.of_nat (length data)) max); lia. }
  assert (T <= length data)%nat as HT by (unfold T; lia).
  change (@nil Z) with (read_upto data T 0). rewrite (read_chain_ok v data T d1 fuel Hb HT _ cs 0).
  - f_equal. unfold T. destruct (decide (length data <= Z.to_nat max)%nat).
    + rewrite Nat.min_l by lia. by rewrite !take_ge by lia.
    + by rewrite Nat.min_r by lia.
  - exact (chain_hide _ _ _ _ _ _ Ha Hch).
  - done.
  - pose proof (length_chain_run v cs Hspc) as Hl. unfold zlen in *. nia.
  - exact Hdata.
Qed.

(** C37: a file that is written is read back.  For a file whose directories and entry can be found
    without its data sectors, whose chain of clusters ends and has room for the data: [fat32_write_file]
    returns 0; afterwards stat gives the file the new size and the old first cluster, and reading
    returns the data, as much of it as asked for; the sectors that changed are those of the file and
    the one that holds its directory entry, in which only the size is new. *)
Theorem fat32_write_read f d path norm raw name cs data :
  normalize_path path FAT32_NAME_MAX = Some norm ->
  file_at (vol f) d (path_comps 32 (skip_slashes norm)) raw name cs ->
  zlen data <= zlen cs * g_sectors_per_cluster (vol f) * 512 -> zlen data < 2 ^ 32 ->
  exists f1 d1 sec, fat32_write_file fuel (Some path) (Some data) (zlen data) f d = Done (0, f1, d1)
    /\ (exists f2, fat32_stat fuel (Some path) f1 d1
          = Done (Some (mkDirent32 (k_strcpy name FAT32_NAME_MAX) (zlen data) false (de_cluster (raw_ent raw))), f2))
    /\ (forall max, 0 <= max -> exists f2,
          fat32_read_file fuel (Some path) max f1 d1 = Done (Some (take (Z.to_nat max) data), f2))
    /\ (forall lba, lba28 lba ∉ lba28 (raw_lba raw) :: file_sectors (vol f) cs -> ata_read d1 lba = ata_read d lba)
    /\ ata_read d (raw_lba raw) = Some sec
    /\ ata_read d1 (raw_lba raw) = Some (put32 (raw_off raw + 28) (zlen data) sec).
Proof.
  intros Hp Hfa Hlen H32. destruct (normal_segs _ _ Hp) as (segs & Hn & E). rewrite E in Hfa. clear E.
  destruct (write_call f d path norm segs raw name cs data Hp Hn Hfa Hlen H32) as (d1 & sec & o & Hwrite & W).
  pose proof (fun g => written_stat f g _ _ _ _ _ _ _ _ _ _ Hn Hfa W H32) as Hstat.
  exists (with_comps segs f), d1, sec. split; [exact Hwrite|]. split.
  { eexists. rewrite <- (Hstat (with_comps segs f) eq_refl). unfold fat32_stat.
    by rewrite Hp, (normalize_norm _ _ Hn). }
  split.
  { intros max Hmax. eexists. unfold fat32_read_file. change (vol (with_comps segs f)) with (vol f).
    rewrite (fa_ready _ _ _ _ _ _ Hfa), Hp. cbn [negb].
    rewrite (Hstat (with_comps segs f) eq_refl). cbn [bind_out d_is_dir d_size d_first_cluster].
    change (vol (with_comps segs (with_comps segs f))) with (vol f).
    by rewrite (written_read _ _ _ _ _ _ _ _ _ _ max Hfa W Hlen Hmax). }
  destruct W as [Ha _ (Eoff & _) Hsec Hsec1 _ _]. split; [apply Ha|]. split; [done|]. by rewrite Eoff.
Qed.
End roundtrip.

(** The nested file of the example is written with eight bytes. *)
Definition ex_raw : raw_entry := mkRaw (entry_at ex_dir 2) 4 64.

Lemma ex_file_at :
  file_at 10 (vol ex_fs) ex_image (path_comps 32 (skip_slashes ex_norm_nested)) ex_raw ex_nested [6].
Proof.
  assert (chain_run (vol ex_fs) [6] = [6]) as Ec by (vm_compute; reflexivity).
  split.
  - vm_compute. reflexivity.
  - vm_compute. reflexivity.
  - vm_compute. discriminate.
  - vm_compute. discriminate.
  - exists 4, ex_nested. split; [lia|]. cbv zeta. split; [|split]; vm_compute; reflexivity.
  - vm_compute. reflexivity.
  - apply chain_cons with 0x0FFFFFFF; [vm_compute; reflexivity|vm_compute; reflexivity|]. apply chain_nil. reflexivity.
  - unfold file_sectors. rewrite Ec. apply NoDup_singleton.
  - rewrite Ec. apply Forall_singleton. exists (pad 512 [1; 2; 3; 4; 5]). vm_compute. reflexivity.
  - split; [simpl; lia|vm_compute; reflexivity].
Qed.

Lemma fat32_write_read_witness :
  exists f1 d1, fat32_write_file 10 (Some ex_nested_path) (Some [9; 8; 7; 6; 5; 4; 3; 2]) 8 ex_fs ex_image = Done (0, f1, d1)
    /\ exists f2, fat32_read_file 10 (Some ex_nested_path) 100 f1 d1 = Done (Some [9; 8; 7; 6; 5; 4; 3; 2], f2).
Proof.
  destruct (fat32_write_read 10 ex_fs ex_image ex_nested_path ex_norm_nested ex_raw ex_nested [6] [9; 8; 7; 6; 5; 4; 3; 2])
    as (f1 & d1 & _ & Hw & _ & Hr & _); [vm_compute; reflexivity|exact ex_file_at|vm_compute; discriminate|vm_compute; reflexivity|].
  exists f1, d1. split; [exact Hw|]. destruct (Hr 100) as [f2 Hf2]; [lia|]. by exists f2.
Defined.
