(* ===== verification/Syscall.v ===== *)
(** System calls on processes, signals, programs and terminals: [syscall_handler] and the commands of
    [handle_system] in [src/syscall/syscall.c] that go to [Process], [Tty] and [Exec].

    Arguments are 64-bit words.  The kernel reads and writes the memory of its caller through the
    pointers it is given, without checks: [user_mem] is what the calls read there, and what they write
    is part of the outcome. *)

From S2P Require Import Prelude Pmm Paging Vmm VmSpace ProcessData Shm Process RunQueue ProcessSched Scheduler CString Tty Exec.

Definition SYS_YIELD : Z := 0.
Definition SYS_EXIT : Z := 1.
Definition SYS_SYSTEM : Z := 8.
Definition SYSTEM_CMD_YIELD : Z := 1.
Definition SYSTEM_CMD_SPAWN : Z := 2.
Definition SYSTEM_CMD_EXEC : Z := 3.
Definition SYSTEM_CMD_WAITPID : Z := 4.
Definition SYSTEM_CMD_KILL : Z := 5.
Definition SYSTEM_CMD_SIGACTION : Z := 6.
Definition SYSTEM_CMD_SIGPROCMASK : Z := 7.
Definition SYSTEM_CMD_SIGPENDING : Z := 8.
Definition SYSTEM_CMD_TTY_CREATE : Z := 9.
Definition SYSTEM_CMD_TTY_SET_FG : Z := 10.
Definition SYSTEM_CMD_TTY_GET_FG : Z := 11.
Definition SYSTEM_CMD_TTY_KILL_FG : Z := 12.
Definition SYSTEM_CMD_GET_CMDLINE : Z := 37.
Definition SYSTEM_CMD_SPAWN_EX : Z := 38.

Record tsukasa_spawn_request := mkSpawnReq {
  sr_path : Z; sr_args : Z; sr_stdin_fd : Z; sr_stdout_fd : Z; sr_stderr_fd : Z; sr_tty_id : Z
}.
Record tsukasa_sigaction := mkSigaction { ts_handler : Z; ts_mask : Z; ts_flags : Z }.

(** The caller's memory, read at a pointer that is not NULL. *)
Record user_mem := mkUserMem {
  um_str : Z -> cstr;
  um_spawn : Z -> tsukasa_spawn_request;
  um_sigaction : Z -> tsukasa_sigaction;
  um_word : Z -> Z;
}.

(** What a call writes into the caller's memory. *)
Inductive user_write : Type :=
  | WriteInt (ptr v : Z)
  | WriteWord (ptr v : Z)
  | WriteStr (ptr : Z) (s : cstr)
  | WriteSigaction (ptr : Z) (a : tsukasa_sigaction).

(** [SysBlock]: the process sleeps in the call and runs it again when woken; [SysHalt]: it never
    returns. *)
Inductive sys_out : Type :=
  | SysRet (v : Z) (ws : list user_write)
  | SysBlock
  | SysHalt.

Section syscall.
Variable process_entry_resume : Z.
Context {E : Type} `{ProcessEnvLaws E}.

Record ksys := mkKsys { k_sched : sched E; k_ttys : ttys; k_exec : list exec_builtin }.
#[export] Instance ksys_rebuild : Rebuild ksys := fun s => mkKsys (k_sched s) (k_ttys s) (k_exec s).
Implicit Types (s : ksys) (m : user_mem) (sc : sched E).

Definition fail s : sys_out * ksys := (SysRet (u64 (-1)) [], s).

(** Result and state of a call of [Process] or [Tty]. *)
Definition on_sched s (r : Z * sched E) : sys_out * ksys := (SysRet (u64 r.1) [], s <| k_sched := r.2 |>).
Definition on_ttys s (r : Z * ttys) : sys_out * ksys := (SysRet (u64 r.1) [], s <| k_ttys := r.2 |>).

Definition sys_spawn m (path : Z) s : sys_out * ksys :=
  if path =? 0 then fail s else
  match exec_resolve_builtin (Some (um_str m path)) (k_exec s) with
  | (rc, Some entry) =>
      if negb (rc =? 0) || (entry =? 0) then fail s else
      let '(child, sc) := process_spawn_kernel process_entry_resume (Some (um_str m path)) entry (k_sched s) in
      match child with
      | None => fail (s <| k_sched := sc |>)
      | Some c =>
          let pid := pid (proc sc c) in
          (SysRet (u64 pid) [], s <| k_sched := (process_set_cmdline (i32 pid) (Some (um_str m path)) sc).2 |>)
      end
  | (_, None) => fail s
  end.

(** One inherited descriptor. *)
Definition clone_stdio (child slot parent fd : Z) (sc : sched E) : sched E :=
  if 0 <=? fd then (process_clone_fd child slot parent fd sc).2 else sc.

Definition sys_spawn_ex m (req : Z) s : sys_out * ksys :=
  let parent_pid := process_current_pid (k_sched s) in
  if (req =? 0) || (sr_path (um_spawn m req) =? 0) then fail s else
  let r := um_spawn m req in
  let path := um_str m (sr_path r) in
  match exec_resolve_builtin (Some path) (k_exec s) with
  | (rc, Some entry) =>
      if negb (rc =? 0) || (entry =? 0) then fail s else
      let '(child, sc) := process_spawn_kernel process_entry_resume (Some path) entry (k_sched s) in
      match child with
      | None => fail (s <| k_sched := sc |>)
      | Some c =>
          let word := pid (proc sc c) in
          let cp := i32 word in
          let sc := (process_set_cmdline cp (Some (if sr_args r =? 0 then path else um_str m (sr_args r))) sc).2 in
          let sc := if 0 <=? sr_tty_id r then (process_set_tty cp (sr_tty_id r) sc).2 else sc in
          let sc := if 0 <? parent_pid then
                      let sc := clone_stdio cp 0 parent_pid (sr_stdin_fd r) sc in
                      let sc := clone_stdio cp 1 parent_pid (sr_stdout_fd r) sc in
                      clone_stdio cp 2 parent_pid (sr_stderr_fd r) sc
                    else sc in
          (SysRet (u64 word) [], s <| k_sched := sc |>)
      end
  | (_, None) => fail s
  end.

Definition sys_exec m (p path : Z) s : sys_out * ksys :=
  if path =? 0 then fail s else
  match exec_resolve_builtin (Some (um_str m path)) (k_exec s) with
  | (rc, Some entry) =>
      if negb (rc =? 0) || (entry =? 0) then fail s else
      let sc := (process_set_cmdline (i32 p) (Some (um_str m path)) (k_sched s)).2 in
      on_sched s (process_exec process_entry_resume (i32 p) entry (Some (um_str m path)) sc)
  | (_, None) => fail s
  end.

Definition sys_get_cmdline (buf size : Z) s : sys_out * ksys :=
  if buf =? 0 then fail s else
  match process_get_cmdline (process_current_pid (k_sched s)) size (k_sched s) with
  | Some str => (SysRet 0 [WriteStr buf str], s)
  | None => fail s
  end.

Definition sys_waitpid (target status options : Z) s : sys_out * ksys :=
  match process_waitpid (process_current_pid (k_sched s)) (i32 target) (i32 options) (k_sched s) with
  | (WaitReturn rc st, sc) =>
      (SysRet (u64 rc) (match st with Some v => if status =? 0 then [] else [WriteInt status v] | None => [] end),
       s <| k_sched := sc |>)
  | (WaitBlock, sc) => (SysBlock, s <| k_sched := sc |>)
  end.

Definition sys_sigaction m (sig act old : Z) s : sys_out * ksys :=
  let p := process_current_pid (k_sched s) in
  let pending := default 0 (process_signal_pending p (k_sched s)) in
  let ws := if old =? 0 then [] else [WriteSigaction old (mkSigaction PROCESS_SIG_DFL pending 0)] in
  if act =? 0 then (SysRet 0 ws, s) else
  let a := um_sigaction m act in
  let '(rc, sc) := process_signal_register p (i32 sig) (ts_handler a) (k_sched s) in
  if negb (rc =? 0) then (SysRet (u64 (-1)) ws, s <| k_sched := sc |>) else
  let '(rc, _, sc) := process_signal_mask p SIG_SETMASK (ts_mask a) sc in
  (SysRet (if rc =? 0 then 0 else u64 (-1)) ws, s <| k_sched := sc |>).

Definition sys_sigprocmask m (how set old : Z) s : sys_out * ksys :=
  let v := if set =? 0 then 0 else um_word m set in
  let '(rc, o, sc) := process_signal_mask (process_current_pid (k_sched s)) (i32 how) v (k_sched s) in
  (SysRet (u64 rc) (match o with Some w => if old =? 0 then [] else [WriteWord old w] | None => [] end),
   s <| k_sched := sc |>).

Definition sys_sigpending (out : Z) s : sys_out * ksys :=
  if out =? 0 then fail s else
  match process_signal_pending (process_current_pid (k_sched s)) (k_sched s) with
  | Some w => (SysRet 0 [WriteWord out w], s)
  | None => fail s
  end.

(** [handle_system]; [other] stands for the calls that other components answer,
    and for -1 on unknown ones. *)
Definition handle_system (other : Z -> Z -> ksys -> sys_out * ksys) m (cmd arg2 arg3 arg4 : Z) s : sys_out * ksys :=
  if cmd =? SYSTEM_CMD_YIELD then (SysRet 0 [], s <| k_sched := process_yield (k_sched s) |>) else
  if cmd =? SYSTEM_CMD_SPAWN then sys_spawn m arg2 s else
  if cmd =? SYSTEM_CMD_SPAWN_EX then sys_spawn_ex m arg2 s else
  if cmd =? SYSTEM_CMD_EXEC then sys_exec m arg2 arg3 s else
  if cmd =? SYSTEM_CMD_GET_CMDLINE then sys_get_cmdline arg2 arg3 s else
  if cmd =? SYSTEM_CMD_WAITPID then sys_waitpid arg2 arg3 arg4 s else
  if cmd =? SYSTEM_CMD_KILL then on_sched s (process_kill (i32 arg2) (i32 arg3) (k_sched s)) else
  if cmd =? SYSTEM_CMD_SIGACTION then sys_sigaction m arg2 arg3 arg4 s else
  if cmd =? SYSTEM_CMD_SIGPROCMASK then sys_sigprocmask m arg2 arg3 arg4 s else
  if cmd =? SYSTEM_CMD_SIGPENDING then sys_sigpending arg2 s else
  if cmd =? SYSTEM_CMD_TTY_CREATE then on_ttys s (tty_create (k_ttys s)) else
  if cmd =? SYSTEM_CMD_TTY_SET_FG then on_ttys s (tty_set_foreground_pgid (i32 arg2) (i32 arg3) (k_ttys s)) else
  if cmd =? SYSTEM_CMD_TTY_GET_FG then (SysRet (u64 (tty_get_foreground_pgid (i32 arg2) (k_ttys s))) [], s) else
  if cmd =? SYSTEM_CMD_TTY_KILL_FG then on_sched s (tty_kill_foreground (i32 arg2) (i32 arg3) (k_ttys s) (k_sched s)) else
  other SYS_SYSTEM cmd s.

(** [syscall_handler] on the calls of this file; [process_exit] gives the processor away for good. *)
Definition syscall_handler (other : Z -> Z -> ksys -> sys_out * ksys) m (num arg1 arg2 arg3 arg4 : Z) s : sys_out * ksys :=
  if num =? SYS_YIELD then (SysRet 0 [], s <| k_sched := process_yield (k_sched s) |>) else
  if num =? SYS_EXIT then (SysHalt, s <| k_sched := process_yield (process_exit_current (i32 arg1) (k_sched s)).2 |>) else
  if num =? SYS_SYSTEM then handle_system other m arg1 arg2 arg3 arg4 s else
  other num arg1 s.

(** ** Invariants over all calls *)

Definition kinv s : Prop :=
  sched_ok (k_sched s) /\ (exists a, tty_rep (k_ttys s) a) /\ exists reg, exec_rep (k_exec s) reg.

(** Calls under which they are kept: as [Scheduler.call_allowed]. *)
Definition sys_allowed (num cmd arg2 arg3 : Z) s : bool :=
  if num =? SYS_EXIT then call_allowed (CallExit 0) (k_sched s) else
  if num =? SYS_SYSTEM then
    if cmd =? SYSTEM_CMD_WAITPID then call_allowed (CallWait 0 0 0) (k_sched s) else
    if cmd =? SYSTEM_CMD_KILL then call_allowed (CallKill (i32 arg2) (i32 arg3)) (k_sched s) else
    if cmd =? SYSTEM_CMD_TTY_KILL_FG then negb (i32 arg3 =? PROCESS_SIGKILL) else true
  else true.

Lemma kinv_sched s sc : kinv s -> sched_ok sc -> kinv (s <| k_sched := sc |>).
Proof. intros (_ & Ht & Hx) Hs. split; [exact Hs|]. by split. Qed.

Lemma kinv_call s c : kinv s -> call_allowed c (k_sched s) = true ->
  kinv (s <| k_sched := run_call process_entry_resume c (k_sched s) |>).
Proof. intros Hk Hc. apply kinv_sched; [done|]. apply run_call_ok; [apply Hk|done]. Qed.

Lemma kinv_ttys s t a : kinv s -> tty_rep t a -> kinv (s <| k_ttys := t |>).
Proof. intros (Hs & _ & Hx) Ht. split; [done|]. split; [by exists a|done]. Qed.

Lemma ok_set_cmdline sc p c : sched_ok sc -> sched_ok (process_set_cmdline p c sc).2.
Proof. intros Hs. by apply (run_call_ok process_entry_resume (CallSetCmdline p c)). Qed.
Lemma ok_set_tty sc p t : sched_ok sc -> sched_ok (process_set_tty p t sc).2.
Proof. intros Hs. by apply (run_call_ok process_entry_resume (CallSetTty p t)). Qed.
Lemma ok_clone_stdio sc c slot p fd : sched_ok sc -> sched_ok (clone_stdio c slot p fd sc).
Proof. intros Hs. unfold clone_stdio. destruct (0 <=? fd); [by apply ok_clone_fd|done]. Qed.

Lemma spawn_kinv m path s : kinv s -> kinv (sys_spawn m path s).2.
Proof.
  intros Hk. unfold sys_spawn. destruct (path =? 0); [done|]. destruct (exec_resolve_builtin _ _) as [rc [entry|]]; [|done].
  destruct (_ || _); [done|]. pose proof (ok_spawn process_entry_resume (k_sched s) (Some (um_str m path)) entry (proj1 Hk)) as Hs.
  destruct (process_spawn_kernel _ _ _ _) as [[c|] sc]; cbn [fst snd fail] in *; apply kinv_sched; try done.
  by apply ok_set_cmdline.
Qed.

Lemma spawn_ex_kinv m req s : kinv s -> kinv (sys_spawn_ex m req s).2.
Proof.
  intros Hk. unfold sys_spawn_ex. destruct (_ || _); [done|]. destruct (exec_resolve_builtin _ _) as [rc [entry|]]; [|done].
  destruct (_ || _); [done|].
  pose proof (ok_spawn process_entry_resume (k_sched s) (Some (um_str m (sr_path (um_spawn m req)))) entry (proj1 Hk)) as Hs.
  destruct (process_spawn_kernel _ _ _ _) as [[c|] sc]; cbn [fst snd fail] in *; apply kinv_sched; try done.
  set (cp := i32 (pid (proc sc c))). set (sc1 := (process_set_cmdline cp _ sc).2).
  assert (sched_ok sc1) as H1 by (by apply ok_set_cmdline). clearbody sc1.
  set (sc2 := if 0 <=? _ then _ else sc1). assert (sched_ok sc2) as H2 by (unfold sc2; case_match; [by apply ok_set_tty|done]).
  clearbody sc2. case_match; [|done]. by do 3 apply ok_clone_stdio.
Qed.

Lemma exec_kinv m p path s : kinv s -> kinv (sys_exec m p path s).2.
Proof.
  intros Hk. unfold sys_exec. destruct (path =? 0); [done|]. destruct (exec_resolve_builtin _ _) as [rc [entry|]]; [|done].
  destruct (_ || _); [done|]. cbn [on_sched snd]. apply kinv_sched; [done|]. apply ok_exec, ok_set_cmdline, Hk.
Qed.

Lemma signal_mask_kinv p how set s : kinv s -> kinv (s <| k_sched := (process_signal_mask p how set (k_sched s)).2 |>).
Proof. intros Hk. apply kinv_sched; [done|]. apply ok_signal_mask, Hk. Qed.

Lemma sigaction_kinv m sig act old s : kinv s -> kinv (sys_sigaction m sig act old s).2.
Proof.
  intros Hk. unfold sys_sigaction. destruct (act =? 0); [done|].
  assert (sched_ok (process_signal_register (process_current_pid (k_sched s)) (i32 sig) (ts_handler (um_sigaction m act)) (k_sched s)).2) as Hr.
  { apply (run_call_ok process_entry_resume (CallRegister _ _ _)); [apply Hk|done]. }
  destruct (process_signal_register _ _ _ _) as [rc sc]. cbn [snd] in Hr. destruct (negb _); [by apply kinv_sched|].
  pose proof (ok_signal_mask sc (process_current_pid (k_sched s)) SIG_SETMASK (ts_mask (um_sigaction m act)) Hr) as Hm.
  destruct (process_signal_mask _ _ _ _) as [[rc' o] sc']. cbn [snd] in *. by apply kinv_sched.
Qed.

Lemma waitpid_kinv target status options s : kinv s -> call_allowed (CallWait 0 0 0) (k_sched s) = true ->
  kinv (sys_waitpid target status options s).2.
Proof.
  intros Hk Ha. unfold sys_waitpid.
  pose proof (kinv_call s (CallWait (process_current_pid (k_sched s)) (i32 target) (i32 options)) Hk Ha) as Hw.
  cbn [run_call] in Hw. by destruct (process_waitpid _ _ _ _) as [[rc st|] sc].
Qed.

Variable other : Z -> Z -> ksys -> sys_out * ksys.
Hypothesis other_kinv : forall num cmd s, kinv s -> kinv (other num cmd s).2.

Lemma tty_kill_kinv id sig s : kinv s -> sig <> PROCESS_SIGKILL ->
  kinv (on_sched s (tty_kill_foreground id sig (k_ttys s) (k_sched s))).2.
Proof.
  intros Hk Hs. cbn [on_sched snd]. apply kinv_sched; [done|]. unfold tty_kill_foreground.
  destruct (bad_tty id); [apply Hk|]. destruct (negb _); [apply Hk|]. destruct (_ <=? 0); [apply Hk|].
  apply ok_kill_pgid; [apply Hk|done].
Qed.

Lemma handle_system_kinv m cmd arg2 arg3 arg4 s : kinv s -> sys_allowed SYS_SYSTEM cmd arg2 arg3 s = true ->
  kinv (handle_system other m cmd arg2 arg3 arg4 s).2.
Proof.
  intros Hk Ha. pose proof Hk as (Hs & [a Ht] & _). unfold sys_allowed in Ha.
  change (SYS_SYSTEM =? SYS_EXIT) with false in Ha. rewrite Z.eqb_refl in Ha. unfold handle_system.
  destruct (cmd =? SYSTEM_CMD_YIELD); [by apply (kinv_call s CallYield)|].
  destruct (cmd =? SYSTEM_CMD_SPAWN); [by apply spawn_kinv|].
  destruct (cmd =? SYSTEM_CMD_SPAWN_EX); [by apply spawn_ex_kinv|].
  destruct (cmd =? SYSTEM_CMD_EXEC); [by apply exec_kinv|].
  destruct (cmd =? SYSTEM_CMD_GET_CMDLINE).
  { unfold sys_get_cmdline. destruct (arg2 =? 0); [done|]. by destruct (process_get_cmdline _ _ _). }
  destruct (cmd =? SYSTEM_CMD_WAITPID); [by apply waitpid_kinv|].
  destruct (cmd =? SYSTEM_CMD_KILL); [by apply (kinv_call s (CallKill (i32 arg2) (i32 arg3)))|].
  destruct (cmd =? SYSTEM_CMD_SIGACTION); [by apply sigaction_kinv|].
  destruct (cmd =? SYSTEM_CMD_SIGPROCMASK).
  { unfold sys_sigprocmask. set (v := if arg3 =? 0 then _ else _).
    pose proof (signal_mask_kinv (process_current_pid (k_sched s)) (i32 arg2) v s Hk) as Hm.
    by destruct (process_signal_mask _ _ _ _) as [[rc o] sc]. }
  destruct (cmd =? SYSTEM_CMD_SIGPENDING).
  { unfold sys_sigpending. destruct (arg2 =? 0); [done|]. by destruct (process_signal_pending _ _). }
  destruct (cmd =? SYSTEM_CMD_TTY_CREATE); [eapply kinv_ttys; [done|]; by apply tty_create_refines|].
  destruct (cmd =? SYSTEM_CMD_TTY_SET_FG); [eapply kinv_ttys; [done|]; by apply tty_set_fg_refines|].
  destruct (cmd =? SYSTEM_CMD_TTY_GET_FG); [done|].
  destruct (cmd =? SYSTEM_CMD_TTY_KILL_FG).
  { apply tty_kill_kinv; [done|]. apply negb_true_iff, Z.eqb_neq in Ha. done. }
  by apply other_kinv.
Qed.

(** States reached from boot: programs are registered, keys are pressed, processes are scheduled
    ([run_tty_call]) and make system calls. *)
Inductive kreach : ksys -> Prop :=
  | kreach_boot sc : reachable process_entry_resume sc -> kreach (mkKsys sc (tty_init ttys_zero) exec_zero)
  | kreach_register p e s : kreach s -> zlen p < EXEC_PATH_MAX ->
      kreach (s <| k_exec := (exec_register_builtin (Some p) e (k_exec s)).2 |>)
  | kreach_event c s : kreach s -> tty_call_allowed c (k_sched s) = true ->
      let ts := (run_tty_call process_entry_resume c (k_ttys s) (k_sched s)).2 in
      kreach (s <| k_sched := ts.2 |> <| k_ttys := ts.1 |>)
  | kreach_syscall m num arg1 arg2 arg3 arg4 s : kreach s -> sys_allowed num arg1 arg2 arg3 s = true ->
      kreach (syscall_handler other m num arg1 arg2 arg3 arg4 s).2.

Lemma kreach_kinv s : kreach s -> kinv s.
Proof.
  induction 1 as [sc Hr|p e s _ Hk Hp|c s _ Hk Hc ts|m num arg1 arg2 arg3 arg4 s _ Hk Ha].
  - split; [by apply (reachable_ok process_entry_resume)|]. split; [exists term_init; by apply tty_init_rep|].
    exists ∅. apply exec_rep_zero.
  - destruct Hk as (Hs & Ht & reg & Hx). split; [done|]. split; [done|]. eexists. by apply (exec_register_rep _ reg p e).
  - destruct Hk as (Hs & [a Ht] & Hx). unfold ts.
    destruct (tty_call_refines process_entry_resume c _ a _ Ht Hs Hc) as (r & t' & a' & s' & -> & _ & Ht' & Hs').
    split; [done|]. split; [by exists a'|done].
  - unfold syscall_handler. unfold sys_allowed in Ha.
    destruct (num =? SYS_YIELD); [by apply (kinv_call s CallYield)|].
    destruct (num =? SYS_EXIT).
    { pose proof (kinv_call s (CallExit (i32 arg1)) Hk Ha) as Hx.
      exact (kinv_call _ CallYield Hx eq_refl). }
    destruct (Z.eqb_spec num SYS_SYSTEM) as [->|]; [|by apply other_kinv]. by apply handle_system_kinv.
Qed.

(** A program that is not registered. *)
Definition unknown m (path : Z) s : Prop := exec_resolve_builtin (Some (um_str m path)) (k_exec s) = (-1, None).

Lemma spawn_result m path v ws s s' : kinv s -> sys_spawn m path s = (SysRet v ws, s') -> v <> U64_MAX ->
  exists k, slot_ok k /\ used (proc (k_sched s') k) = true /\ state (proc (k_sched s') k) = PROCESS_READY
    /\ v = u64 (pid (proc (k_sched s') k)) /\ ~ unknown m path s.
Proof.
  intros [Hok _] Hx Hv. unfold sys_spawn in Hx. destruct (path =? 0); [by injection Hx as <- _ _|]. unfold unknown.
  destruct (exec_resolve_builtin _ _) as [rc [entry|]]; [|by injection Hx as <- _ _].
  destruct (_ || _); [by injection Hx as <- _ _|].
  destruct (process_spawn_kernel _ _ entry _) as [[c|] sc] eqn:Es; [|by injection Hx as <- _ _].
  injection Hx as <- _ <-. cbn [k_sched]. unfold process_spawn_kernel in Es. destruct (entry =? 0); [done|].
  eapply (ok_create _ (k_sched s)) in Es as (Hok' & _ & _ & Hc); [|done|].
  2: { intros i Hi. by apply (ok_slot (k_sched s)). }
  destruct (Hc c eq_refl) as (Hk & Hu & Hst & _). clear Hc.
  assert (length (g_processes sc) = 256%nat) as Hl by (destruct Hok' as [Q I]; apply (q_len _ _ (si_q _ _ _ I))).
  assert (used (proc (process_set_cmdline (i32 (pid (proc sc c))) (Some (um_str m path)) sc).2 c) = used (proc sc c)
    /\ state (proc (process_set_cmdline (i32 (pid (proc sc c))) (Some (um_str m path)) sc).2 c) = state (proc sc c)
    /\ pid (proc (process_set_cmdline (i32 (pid (proc sc c))) (Some (um_str m path)) sc).2 c) = pid (proc sc c)) as (E1 & E2 & E3).
  { unfold process_set_cmdline. destruct (find_by_pid_locked _ sc) as [j|] eqn:Ef; [|done]. cbn [snd].
    destruct (ok_find sc _ j Hok' Ef) as [Hj _]. unfold upd. rewrite proc_set_proc by (done || (unfold slot_ok in *; lia)).
    case_decide as D; [subst j; done|done]. }
  exists c. cbn [k_sched]. fields. cbn [k_sched]. rewrite E1, E2, E3. done.
Qed.

End syscall.

(** Boot, the registration of /bin/cat, and its spawn. *)
Definition ex_mem : user_mem :=
  mkUserMem (fun _ => ex_cat) (fun _ => mkSpawnReq 0x100 0 (-1) (-1) (-1) (-1)) (fun _ => mkSigaction 0 0 0) (fun _ => 0).
Definition ex_ksys0 : ksys (E := shm_env) := mkKsys ex_sched0 (tty_init ttys_zero) exec_zero.
Definition ex_ksys : ksys (E := shm_env) :=
  ex_ksys0 <| k_exec := (exec_register_builtin (Some ex_cat) 0x1000 (k_exec ex_ksys0)).2 |>.
Definition no_other (num cmd : Z) (s : ksys (E := shm_env)) : sys_out * ksys (E := shm_env) := fail s.

