(* ===== verification/FsCalls.v ===== *)
(** The file system calls: [handle_fs] of [src/syscall/syscall.c] over [Vfs].

    As in [Syscall], arguments are 64-bit words, [fs_mem] is the caller's memory where the call reads
    it through a pointer, and what the call stores there is part of its outcome. *)

From S2P Require Import Prelude CString Path Mounts Memfs ProcessData VfsData Vfs VfsPipe VfsInv VfsOps VfsSys VfsProps.

Definition FS_CMD_OPEN : Z := 1.
Definition FS_CMD_READ : Z := 2.
Definition FS_CMD_WRITE : Z := 3.
Definition FS_CMD_CLOSE : Z := 4.
Definition FS_CMD_SEEK : Z := 5.
Definition FS_CMD_SIZE : Z := 6.
Definition FS_CMD_CREATE : Z := 7.
Definition FS_CMD_LIST : Z := 8.
Definition FS_CMD_TELL : Z := 9.
Definition FS_CMD_STAT : Z := 10.
Definition FS_CMD_FSTAT : Z := 11.
Definition FS_CMD_DUP : Z := 12.
Definition FS_CMD_DUP2 : Z := 13.
Definition FS_CMD_PIPE : Z := 14.
Definition FS_CMD_FCNTL : Z := 15.
Definition FS_CMD_GETCWD : Z := 16.
Definition FS_CMD_CHDIR : Z := 17.
Definition FS_CMD_IOCTL : Z := 18.
Definition FS_CMD_MMAP : Z := 19.
Definition FS_CMD_MUNMAP : Z := 20.
Definition FS_CMD_POLL : Z := 21.

Record vfs_mmap_request := mkMmapReq { mr_length : Z; mr_prot : Z; mr_flags : Z; mr_fd : Z; mr_offset : Z }.

Record fs_mem := mkFsMem {
  fm_str : Z -> cstr;
  fm_bytes : Z -> Z -> list Z;               (* [n] bytes from a pointer *)
  fm_int : Z -> Z;
  fm_mmap : Z -> vfs_mmap_request;
  fm_polls : Z -> Z -> list (Z * Z);         (* [n] pairs of descriptor and events *)
}.

Inductive fs_write : Type :=
  | FwBytes (ptr : Z) (b : list Z)
  | FwStr (ptr : Z) (s : cstr)
  | FwNames (ptr : Z) (names : list cstr)
  | FwStat (ptr : Z) (st : vfs_stat_t)
  | FwFds (ptr r w : Z)
  | FwIoctl (ptr : Z) (o : ioctl_out)
  | FwRevents (ptr : Z) (rs : list Z).

(** Return value and stores. *)
Abbreviation fs_out := (Z * list fs_write)%type.

(** A string argument; NULL is [None]. *)
Definition fs_path (m : fs_mem) (ptr : Z) : option cstr := if ptr =? 0 then None else Some (fm_str m ptr).

Section fs_calls.
Context {B : Type} `{VfsEnvLaws B}.
Implicit Types (s : vst B) (m : fs_mem) (y : vsys (B := B)).

(** An [int] result, alone or with a stored value. *)
Definition ret_int (r : Z * vst B) : option (fs_out * vst B) := Some (u64 r.1, [], r.2).
Definition ret_opt {A} (o : option A) (w : A -> fs_write) s : option (fs_out * vst B) :=
  match o with Some a => Some (0, [w a], s) | None => Some (u64 (-1), [], s) end.

(** [None]: the call does not return. *)
Definition handle_fs m (cmd arg2 arg3 arg4 : Z) s : option (fs_out * vst B) :=
  let minus_one := Some (u64 (-1), [], s) in
  if cmd =? FS_CMD_OPEN then ret_int (vfs_open_flags (fs_path m arg2) (i32 arg3) s) else
  if cmd =? FS_CMD_READ then
    let '(b, s) := vfs_read (i32 arg2) (negb (arg3 =? 0)) arg4 s in Some (zlen b, [FwBytes arg3 b], s) else
  if cmd =? FS_CMD_WRITE then
    match vfs_write (i32 arg2) (if arg3 =? 0 then None else Some (fm_bytes m arg3 arg4)) arg4 s with
    | Some (n, s) => Some (n, [], s)
    | None => None
    end else
  if cmd =? FS_CMD_CLOSE then Some (0, [], vfs_close (i32 arg2) s) else
  if cmd =? FS_CMD_SEEK then let '(r, s) := vfs_seek (i32 arg2) arg3 (i32 arg4) s in Some (r, [], s) else
  if cmd =? FS_CMD_SIZE then Some (vfs_size (i32 arg2) s, [], s) else
  if cmd =? FS_CMD_CREATE then ret_int (vfs_create (fs_path m arg2) s) else
  if cmd =? FS_CMD_LIST then
    if arg3 =? 0 then minus_one else
    match vfs_list (fs_path m arg2) (i32 arg4) s with
    | Some names => Some (u64 (zlen names), [FwNames arg3 names], s)
    | None => minus_one
    end else
  if cmd =? FS_CMD_TELL then Some (vfs_tell (i32 arg2) s, [], s) else
  if cmd =? FS_CMD_STAT then
    if arg3 =? 0 then minus_one else ret_opt (vfs_stat (fs_path m arg2) s) (FwStat arg3) s else
  if cmd =? FS_CMD_FSTAT then
    if arg3 =? 0 then minus_one else ret_opt (vfs_fstat (i32 arg2) s) (FwStat arg3) s else
  if cmd =? FS_CMD_DUP then ret_int (vfs_dup (i32 arg2) s) else
  if cmd =? FS_CMD_DUP2 then ret_int (vfs_dup2 (i32 arg2) (i32 arg3) s) else
  if cmd =? FS_CMD_PIPE then
    if arg2 =? 0 then minus_one else
    let '(p, s) := vfs_pipe s in ret_opt p (fun rw => FwFds arg2 rw.1 rw.2) s else
  if cmd =? FS_CMD_FCNTL then ret_int (vfs_fcntl (i32 arg2) (i32 arg3) (i32 arg4) s) else
  if cmd =? FS_CMD_GETCWD then
    if arg2 =? 0 then minus_one else
    let '(rc, str) := vfs_getcwd (fm_str m arg2) arg3 s in Some (u64 rc, [FwStr arg2 str], s) else
  if cmd =? FS_CMD_CHDIR then ret_int (vfs_chdir (fs_path m arg2) s) else
  if cmd =? FS_CMD_IOCTL then
    let '(rc, o, s) := vfs_ioctl (i32 arg2) arg3 arg4 (fm_int m arg4) s in Some (u64 rc, [FwIoctl arg4 o], s) else
  if cmd =? FS_CMD_MMAP then
    if arg2 =? 0 then minus_one else
    let r := fm_mmap m arg2 in
    Some (vfs_mmap (mr_length r) (mr_prot r) (mr_flags r) (mr_fd r) (mr_offset r) s, [], s) else
  if cmd =? FS_CMD_MUNMAP then Some (u64 (vfs_munmap arg2 arg3 s), [], s) else
  if cmd =? FS_CMD_POLL then
    if arg2 =? 0 then minus_one else
    let '(n, rs) := vfs_poll (fm_polls m arg2 arg3) s in Some (u64 n, [FwRevents arg2 rs], s) else
  minus_one.

(** ** Each call is a step of the file layer, or changes nothing *)

(** The caller is the kernel or a process in the table. *)
Definition known y (who : option nat) : bool :=
  match who with Some k => (k <? length (sy_procs y))%nat | None => true end.

Lemma vcall_returns y who c : vreachable y -> vstep_allowed (VCall who c) y = true ->
  exists s, run_vcall c (caller y who) = Some s /\ vreachable (after_call y who s).
Proof.
  intros Hr Ha. destruct (vstep_keeps (VCall who c) y (vreachable_inv y Hr) Ha) as (y' & E & _).
  pose proof E as E'. cbn [run_vstep] in E'. destruct (run_vcall c (caller y who)) as [s|]; [|done].
  injection E' as <-. exists s. split; [done|]. by apply (vreach_step y (VCall who c)).
Qed.

Lemma after_same y who : after_call y who (caller y who) = y.
Proof.
  unfold after_call, caller. cbn [vs cur]. destruct who as [k|]; [|by destruct y].
  destruct (sy_procs y !! k) as [p|] eqn:E; [|by destruct y]. rewrite list_insert_id by done. by destruct y.
Qed.

(** Closes a case whose call is [c]. *)
Ltac by_call y who c Hr Hw :=
  destruct (vcall_returns y who c Hr) as (s & E & Hs);
  [cbn [vstep_allowed]; unfold known in Hw; by rewrite Hw, ?andb_true_r|cbn [run_vcall] in E; injection E as <-].
Ltac unchanged := do 2 eexists; split; [done|]; by rewrite after_same.

Lemma read_returns y who fd have n : vreachable y -> known y who = true -> 0 <= n ->
  vreachable (after_call y who (vfs_read fd have n (caller y who)).2).
Proof.
  intros Hr Hw Hn. destruct (vcall_returns y who (VRead fd have n) Hr) as (s & E & Hs).
  { cbn [vstep_allowed]. fold (known y who). rewrite Hw. cbn [andb]. apply Z.leb_le. lia. }
  cbn [run_vcall] in E. destruct (vfs_read _ _ _ _) as [b s']. by injection E as ->.
Qed.

(** [src] NULL stores nothing. *)
Lemma write_returns y who fd src n : vreachable y -> known y who = true -> 0 <= n <= 2 ^ 62 ->
  match src with Some l => zlen l = n | None => True end ->
  exists k s, vfs_write fd src n (caller y who) = Some (k, s) /\ vreachable (after_call y who s).
Proof.
  intros Hr Hw Hn Hl. destruct src as [l|].
  - subst n. destruct (vcall_returns y who (VWrite fd (Some l)) Hr) as (s & E & Hs).
    { cbn [vstep_allowed]. fold (known y who). rewrite Hw. cbn [andb]. apply Z.leb_le. lia. }
    cbn [run_vcall] in E. destruct (vfs_write _ _ _ _) as [[k s']|]; [|done]. injection E as ->. by do 2 eexists.
  - exists 0, (caller y who). rewrite after_same. split; [|done]. unfold vfs_write. by destruct (fd_lookup _ _).
Qed.

Lemma seek_returns y who fd off whence : vreachable y -> known y who = true -> is_u64 off ->
  vreachable (after_call y who (vfs_seek fd off whence (caller y who)).2).
Proof.
  intros Hr Hw Ho. unfold is_u64 in Ho. destruct (vcall_returns y who (VSeek fd off whence) Hr) as (s & E & Hs).
  { cbn [vstep_allowed]. fold (known y who). rewrite Hw. cbn [andb]. apply andb_true_iff.
    split; [apply Z.leb_le|apply Z.ltb_lt]; lia. }
  cbn [run_vcall] in E. destruct (vfs_seek _ _ _ _) as [r s']. by injection E as ->.
Qed.

(** C40: file system calls return and keep the file layer consistent.  In every reachable state, any
    call of SYS_FS by the kernel or by any process, with any command, any 64-bit arguments and any
    contents of its memory, returns, and the state it leaves is reachable: the reference counts, pipe
    ends and buffers of [VfsProps.vfs_reachable_invariant] hold again.  One case is excluded: a
    FS_CMD_WRITE of more than 2^62 bytes, for which the capacity loop of a growing file may run for
    ever ([Memfs.grow_cap_diverges]).  That a pointer's [n] bytes are [n] bytes is the typing of
    [fs_mem]. *)
Theorem fs_calls_return y who m cmd arg2 arg3 arg4 :
  vreachable y -> match who with Some k => (k < length (sy_procs y))%nat | None => True end ->
  is_u64 arg3 -> is_u64 arg4 -> (cmd = FS_CMD_WRITE -> arg4 <= 2 ^ 62) ->
  (forall ptr n, 0 <= n -> zlen (fm_bytes m ptr n) = n) ->
  exists o s, handle_fs m cmd arg2 arg3 arg4 (caller y who) = Some (o, s) /\ vreachable (after_call y who s).
Proof.
  intros Hr Hwho H3 [H4 H4'] Hw4 Hm.
  assert (known y who = true) as Hw by (destruct who; [by apply Nat.ltb_lt|done]).
  unfold handle_fs.
  destruct (cmd =? FS_CMD_OPEN).
  { by_call y who (VOpen (fs_path m arg2) (i32 arg3)) Hr Hw. by do 2 eexists. }
  destruct (cmd =? FS_CMD_READ).
  { pose proof (read_returns y who (i32 arg2) (negb (arg3 =? 0)) arg4 Hr Hw ltac:(lia)) as Hs.
    destruct (vfs_read _ _ _ _) as [b s']. by do 2 eexists. }
  destruct (Z.eqb_spec cmd FS_CMD_WRITE) as [Hcmd|_].
  { specialize (Hw4 Hcmd).
    destruct (write_returns y who (i32 arg2) (if arg3 =? 0 then None else Some (fm_bytes m arg3 arg4)) arg4 Hr Hw ltac:(lia))
      as (k & s & -> & Hs); [destruct (arg3 =? 0); [done|apply Hm; lia]|by do 2 eexists]. }
  destruct (cmd =? FS_CMD_CLOSE); [by_call y who (VClose (i32 arg2)) Hr Hw; by do 2 eexists|].
  destruct (cmd =? FS_CMD_SEEK).
  { pose proof (seek_returns y who (i32 arg2) arg3 (i32 arg4) Hr Hw H3) as Hs.
    destruct (vfs_seek _ _ _ _) as [r s']. by do 2 eexists. }
  destruct (cmd =? FS_CMD_SIZE); [unchanged|].
  destruct (cmd =? FS_CMD_CREATE).
  { by_call y who (VOpen (fs_path m arg2) (Z.lor (Z.lor VFS_O_WRONLY VFS_O_CREAT) VFS_O_TRUNC)) Hr Hw. by do 2 eexists. }
  destruct (cmd =? FS_CMD_LIST).
  { destruct (arg3 =? 0); [unchanged|]. destruct (vfs_list _ _ _); unchanged. }
  destruct (cmd =? FS_CMD_TELL); [unchanged|].
  destruct (cmd =? FS_CMD_STAT); [destruct (arg3 =? 0); [unchanged|]; unfold ret_opt; destruct (vfs_stat _ _); unchanged|].
  destruct (cmd =? FS_CMD_FSTAT); [destruct (arg3 =? 0); [unchanged|]; unfold ret_opt; destruct (vfs_fstat _ _); unchanged|].
  destruct (cmd =? FS_CMD_DUP); [by_call y who (VDup (i32 arg2)) Hr Hw; by do 2 eexists|].
  destruct (cmd =? FS_CMD_DUP2); [by_call y who (VDup2 (i32 arg2) (i32 arg3)) Hr Hw; by do 2 eexists|].
  destruct (cmd =? FS_CMD_PIPE).
  { destruct (arg2 =? 0); [unchanged|]. by_call y who VPipe Hr Hw. destruct (vfs_pipe _) as [[rw|] s']; by do 2 eexists. }
  destruct (cmd =? FS_CMD_FCNTL); [by_call y who (VFcntl (i32 arg2) (i32 arg3) (i32 arg4)) Hr Hw; by do 2 eexists|].
  destruct (cmd =? FS_CMD_GETCWD); [destruct (arg2 =? 0); [unchanged|]; destruct (vfs_getcwd _ _ _); unchanged|].
  destruct (cmd =? FS_CMD_CHDIR); [by_call y who (VChdir (fs_path m arg2)) Hr Hw; by do 2 eexists|].
  destruct (cmd =? FS_CMD_IOCTL).
  { by_call y who (VIoctl (i32 arg2) arg3 arg4 (fm_int m arg4)) Hr Hw. destruct (vfs_ioctl _ _ _ _ _) as [[rc o] s']. by do 2 eexists. }
  destruct (cmd =? FS_CMD_MMAP); [destruct (arg2 =? 0); unchanged|].
  destruct (cmd =? FS_CMD_MUNMAP); [unchanged|].
  destruct (cmd =? FS_CMD_POLL); [destruct (arg2 =? 0); [unchanged|]; destruct (vfs_poll _ _); unchanged|].
  unchanged.
Qed.
End fs_calls.

(** Process 0 of [VfsProps.ex_y2] writes five bytes at its descriptor 0. *)
Definition ex_fs_mem : fs_mem :=
  mkFsMem (fun _ => [47]) (fun _ n => repeat 7 (Z.to_nat n)) (fun _ => 0) (fun _ => mkMmapReq 0 0 0 0 0) (fun _ _ => []).

Lemma fs_calls_return_witness :
  exists o s, handle_fs ex_fs_mem FS_CMD_WRITE 0 0x8000 5 (caller ex_y2 (Some 0%nat)) = Some (o, s)
    /\ vreachable (after_call ex_y2 (Some 0%nat) s).
Proof.
  assert ((0 < length (sy_procs ex_y2))%nat) as Hl by (vm_compute; lia).
  apply (fs_calls_return ex_y2 (Some 0%nat) ex_fs_mem FS_CMD_WRITE 0 0x8000 5 ex_reach2 Hl);
    [split; [discriminate|reflexivity]|split; [discriminate|reflexivity]|discriminate|].
  intros ptr n Hn. cbn [fm_bytes ex_fs_mem]. unfold zlen. rewrite repeat_length. lia.
Defined.
